(* ===== verification/_CoqProject ===== *)
-Q . S2P
Prelude.v
Asn1.v
TimeStat.v
Queue.v
Hashtable.v
HashtableSpec.v
F1apIds.v
Snow3gTables.v
Snow3g.v
Snow3gSpec.v
Snow3gMac.v
Secu.v
PdcpSdu.v
Events.v
Sdap.v
SdapSpec.v
SdapList.v
PdcpEntity.v
PdcpUe.v
PdcpUeSpec.v
PdcpSecurity.v
PdcpRx.v
PdcpRecv.v
PdcpTx.v
PdcpRun.v
UserPlane.v
PdcpFixtures.v
PdcpProperties.v
Crc.v
CrcSpec.v
Tbs.v
Transport.v
TransportSpec.v
RateMatch.v
RateMatchSpec.v
PhyProperties.v
RlcPdu.v
RlcSdu.v
RlcRxManager.v
RlcEntity.v
RlcTm.v
RlcUm.v
RlcUmTx.v
RlcUmRx.v
RlcAm.v
RlcAmStatus.v
RlcAmControl.v
RlcAmRx.v
RlcAmRxSpec.v
RlcAmTx.v
RlcAmTxInv.v
RlcAmControlSpec.v
RlcAmTxSpec.v
RlcAmOrder.v
RlcAmStatusSearch.v
RlcAmStatusSpec.v
RlcAmTimers.v
RlcApi.v
RlcUe.v
RlcUeSpec.v
RlcLink.v
RlcUmLink.v
Stack.v
RlcFixtures.v
AmProperties.v
UpProperties.v
StackProperties.v
MacLists.v
MacHarq.v
MacHarqSpec.v
MacPdu.v
MacMux.v
MacPduSpec.v
MacMuxSpec.v
MacRlcUm.v
MacLcp.v
MacLcpSpec.v
MacUlSpec.v
MacProperties.v
