(* ===== verification/Prelude.v ===== *)
(** * Verification of the user plane of the gNB, of its MAC PDUs and transport blocks

    ** The program

    The repository is a 5G base station.  This development is about the part of
    its layer 2 that carries user data: SDAP ([openair2/SDAP/nr_sdap]), the NR PDCP
    sublayer ([openair2/LAYER2/nr_pdcp]) with the security algorithms it uses
    ([openair3/SECU]), and the NR RLC sublayer ([openair2/LAYER2/nr_rlc]), with the
    tables they need ([common/utils/hashtable], [common/utils/time_stat.c],
    [openair2/F1AP/f1ap_ids.c]); about the part of MAC that puts RLC PDUs into transport
    blocks, takes them out again and keeps the HARQ processes ([NR_MAC_gNB], [NR_MAC_UE]
    and [NR_MAC_COMMON] of [openair2/LAYER2]); and about what the physical layer does to a
    transport block before and after LDPC coding ([openair1/PHY]).

    An IP packet comes from the core network (GTP-U) or from the TUN interface of a UE.

    - One SDAP entity serves one PDU session of a UE.  [sdap_data_req] finds it in a
      linked list, the entity maps the QoS flow of the packet to a radio bearer
      (DRB), puts its header in front and calls [nr_pdcp_data_req_drb].
    - PDCP finds the entity of the bearer in the table of UEs, and gives the PDU it
      makes to a bounded queue towards RLC; PDUs from RLC come back through a second
      queue and [do_pdcp_data_ind], which calls [sdap_data_ind] for each SDU that is
      delivered.  A timer thread runs the clocks of all entities.
    - SDAP strips its header, learns the mapping of the flow when the header asks for
      it (reflective mapping), and sends the packet to GTP-U or to the TUN interface.

    One PDCP entity serves one radio bearer.

    - [process_sdu] numbers an SDU (COUNT), protects it (MAC-I), ciphers it and
      writes the PDU that goes down to RLC.
    - [recv_pdu] recovers the COUNT from the SN, deciphers, checks the MAC-I, stores
      the SDU in [rx_list] and delivers what is in sequence; [set_time] runs the
      reordering timer, which gives up on missing PDUs.
    - [set_security], [suspend_entity], [reestablish_entity], [release_entity] and
      the COUNT functions are called by RRC procedures.
    - The algorithms are SNOW 3G ([snow3g.c], NEA1/NIA1) and AES (NEA2/NIA2, computed
      by OpenSSL).

    One RLC entity serves one logical channel, in one of three modes.

    - The upper layer (PDCP) hands SDUs down with [recv_sdu]; the entity queues
      them in [tx_list].
    - MAC asks how much there is to send ([buffer_status]) and gives grants
      ([generate_pdu]); the entity answers with one PDU that fits, cutting the SDU
      at the head of the queue when it has to.
    - The peer's PDUs come in through [recv_pdu]; SDUs that are complete go up
      through the callback [deliver_sdu].
    - Acknowledged mode keeps what it sent in [wait_list] until the peer's status
      report acknowledges it ([sdu_successful_delivery]) or asks for it again
      ([retransmit_list]), and sends status reports about its own reception window.
    - [set_time] is the clock: reassembly timer, poll-retransmit timer, status
      prohibit timer.

    MAC, PDCP and RRC reach an RLC entity through a table of UEs too: a logical channel
    leads to a bearer and a bearer to its entity ([nr_mac_rlc_data_ind],
    [nr_mac_rlc_data_req], [nr_rlc_data_req]).  What an entity delivers goes to the
    queue of PDCP, or over F1 when the gNB is split.

    MAC fills a transport block with what RLC hands out.  In the gNB [post_process_dlsch]
    takes a HARQ process, writes the control elements that are due and one subPDU for each
    RLC PDU ([nr_ue_process_mac_pdu] reads them in the UE); in the UE [nr_ue_get_sdu] shares
    the grant among the logical channels by priority and adds buffer status and power
    headroom reports ([nr_process_mac_pdu] reads them in the gNB).  The HARQ processes of a
    UE are in one of three lists of numbers, [available], [feedback] and [retrans], kept as
    linked lists over arrays ([NR_list_t]); feedback from the UE or the result of a
    reception moves them.

    A transport block of MAC gets a CRC and is cut into code blocks, each with a CRC of
    its own ([nr_segmentation]); after LDPC coding the coded bits are selected for the
    allocation and interleaved.  The receiver deinterleaves soft values, adds them to the
    soft buffer of the code block, decodes, puts the code blocks together and checks the
    CRC.  The size of the block ([nr_compute_tbs]) makes the cuts even.

    ** How C is represented

    A C function is a function of the entity it takes, returning [res] of the changed entity
    and of what it returns.  [res] says how the execution ends: a value, or a fault ([Exit],
    [NullDeref], [Dangling], [OutOfBounds], [NoFuel]). So "[f e = Ok r]" says that the C
    function returns, without touching memory it must not touch.  Integers are [Z] with the
    wrap-around of their C type written where it matters ([u8], [u16], [u32], ...); buffers
    are lists of bytes with bounds-checked accesses; linked lists are lists.  SDU headers,
    which several segments point to, are in an explicit [store] with their reference counts.
    Callbacks are events appended to a trace in the order of the calls (RLC) or an output of
    the function (PDCP, SDAP).  SDAP is written against a class of the functions of PDCP
    that it calls ([Sdap.PdcpApi], laws in [SdapSpec.SdapLaws.PdcpApiLaws]); the table of
    PDCP is an instance.  MAC is written against a class of the function of RLC that hands
    out PDUs ([MacMux.MacRlc], laws in [MacMuxSpec]); the table of RLC with UM entities is
    an instance ([MacRlcUm]).  Threads that share a queue are a step relation whose steps
    are the critical sections of the code; a thread that waits on a condition variable is
    asleep until a signal (or a spurious wake-up) makes it test again.  Local arrays that C leaves uninitialised are
    arguments; OpenSSL is a class of functions ([Secu.Platform]) with its documented
    behaviour as laws ([Secu.PlatformLaws]): counter mode keeps the length and undoes
    itself, a CMAC has sixteen bytes.

    ** Files

    - [Prelude]: outcomes, integers, buffers, bits, shared lemmas, tactics, hints.
      [Asn1]: tables of RRC values, and lists of records with a key ([UeTable]).
    - [TimeStat]: [time_stat.c], a ring of measures that refines a queue.
    - [Queue]: the queues of [nr_pdcp_oai_api.c].  [Hashtable], [HashtableSpec]:
      [hashtable.c] and its refinement.  [F1apIds]: [f1ap_ids.c].
    - [Events]: messages between the layers.  [Sdap]: [nr_sdap_entity.c] and
      [nr_sdap.c]; [SdapSpec] (headers, rules, SDAP over any PDCP) and [SdapList] (the
      list of entities): proofs.
    - [Snow3gTables], [Snow3g]: [snow3g.c] and the S-boxes of [rijndael.c].
      [Snow3gSpec] has the cipher as its specification writes it and the proof that
      the code computes it; [Snow3gMac] the same for the integrity function.
    - [Secu]: [secu_defs.c], [nas_stream_ee*.c], [nas_stream_ei*.c], [aes_128_ctr.c],
      [aes_128_cbc_cmac.c].
    - [PdcpSdu], [PdcpEntity] (operations): [nr_pdcp_sdu.c], [nr_pdcp_entity.c],
      [nr_pdcp_security_nea*.c], [nr_pdcp_integrity_nia*.c].
    - [PdcpSecurity], [PdcpRx], [PdcpRecv], [PdcpTx], [PdcpRun]: proofs about the
      algorithms of an entity, delivery and timer, reception of a PDU, transmission
      and transfer, runs of calls and two entities with the same keys.  [PdcpFixtures]:
      concrete states of PDCP and SDAP, and executions that go wrong.
    - [PdcpUe]: [nr_pdcp_ue_manager.c], [nr_pdcp_oai_api.c],
      [nr_pdcp_timer_thread.c]; [PdcpUeSpec]: the bearers of the table.  [UserPlane]:
      SDAP and PDCP of the two sides composed.
    - [Crc]: [crc_byte.c]; [CrcSpec]: the register as a linear map, what a CRC detects.
    - [Tbs]: [nr_compute_tbs_common.c], [nr_tbs_tools.c]; [Transport]:
      [nr_segmentation.c] and its callers in [nr_ulsch_coding.c], [nr_dlsch_coding.c],
      [nr_ulsch_decoding.c], [nr_dlsch_decoding.c]; [TransportSpec] (segmentation, sizes,
      sender to receiver): proofs.
    - [RateMatch]: [nr_rate_matching.c]; [RateMatchSpec]: positions of 38.212,
      interleaver, coded bits, both ends.
    - [RlcPdu]: [nr_rlc_pdu.c], list of received PDUs and bit codec.
    - [RlcSdu]: [nr_rlc_sdu.c], SDU store, segments, reference counts.
    - [RlcRxManager]: [nr_rlc_rx_manager.c], the AM reception window.
    - [RlcEntity]: [nr_rlc_entity.h], the common part of an entity; [Chain] has the
      loops over the received segments of one SDU that AM and UM share.
    - [RlcTm], [RlcUm] (operations), [RlcUmTx], [RlcUmRx] (proofs):
      [nr_rlc_entity_tm.c] and [nr_rlc_entity_um.c].
    - [RlcAm] (state, window arithmetic), [RlcAmStatus] (status reports sent),
      [RlcAmControl] (status reports received), [RlcAmRx] (data PDUs received),
      [RlcAmTx] (transmission, timers, upper layer): [nr_rlc_entity_am.c].
    - [RlcAmRxSpec], [RlcAmTxInv], [RlcAmControlSpec], [RlcAmTxSpec], [RlcAmOrder]
      (order of the lists, SNs in flight), [RlcAmTimers]: proofs about these operations;
      [RlcAmStatusSearch] and
      [RlcAmStatusSpec]: what a status report says, as the peer
      decodes it; [RlcAmTimers] has runs of calls on a whole entity too.
    - [RlcApi]: an entity of any mode behind the function pointers of
      [nr_rlc_entity_t], as a class with laws; [nr_rlc_entity.c].
    - [RlcLink]: what one side sends, seen by the other side.  [RlcUmLink]: two UM
      entities over a MAC without losses.
    - [RlcUe]: [nr_rlc_ue_manager.c], [nr_rlc_oai_api.c], [asn1_utils.c],
      [nr_rlc_configuration.h]; [RlcUeSpec]: the table as a map, setting up a DRB.
    - [Stack]: the uplink through SDAP, PDCP, RLC and their tables.
    - [RlcFixtures]: entities in concrete states, for the witnesses, and sequences of calls
      that show limits of the code.
    - [MacLists]: [NR_list_t] of [gNB_scheduler_primitives.c] and the sequence it stands for.
    - [MacHarq]: the HARQ processes of [gNB_scheduler_primitives.c], [..._dlsch.c],
      [..._ulsch.c] and [..._uci.c]; [MacHarqSpec]: where a process is, events and runs.
    - [MacPdu]: subheaders, buffer levels, [nr_process_mac_pdu] of the gNB and
      [nr_ue_process_mac_pdu] of the UE; [MacMux]: control elements and transport block of
      the gNB; [MacLcp]: the transport block of the UE ([nr_ue_scheduler.c]).
      [MacPduSpec], [MacMuxSpec], [MacLcpSpec], [MacUlSpec]: what each side reads in a
      block, the multiplexing of both sides, sender to receiver.  [MacRlcUm]: the RLC below.
    - [StackProperties], [MacProperties], [UpProperties], [AmProperties] (AM, UM and the
      base), [PdcpProperties] (with SNOW 3G), [PhyProperties]: the properties, with the
      executions that go wrong in MAC and in the physical layer.

    ** What the theorems show

    Base: a chain of segments is found complete exactly when every byte is there, and
    reassembly then gives back the SDU; SDUs are freed with their last segment; the
    reception window and the ring of measures refine a list and a queue.  Receiving sides
    (AM, UM): when the PDUs are slices of the SDUs of a peer, exactly the SDUs that are
    complete are delivered, unchanged, and no PDU makes the code fault; the one PDU that
    makes the AM code loop, when it closes a window that is otherwise all delivered, is
    characterised exactly ([AmRxSpec.stalls]).  Transmitting sides (AM, UM, TM): the lists, the SDU store,
    the buffer status and the byte counts stay consistent under every operation, a generated
    PDU fits the grant and carries the next bytes, which leave the queue.  Control PDUs
    (AM): arbitrary bytes are handled without fault, only SDUs below ACK_SN are reported
    delivered.  Status reports (AM): they fit the grant and acknowledge no byte that was not
    received, as long as the last SN of the window was not received.  Grants (AM): the
    answer is nothing only when nothing due fits.  Link: a PDU made by one side is one the
    theorems on reception apply to.  Runs (AM): after any sequence of calls, restricted in
    their arguments only, the lists are ordered by SN, the SNs in flight are within a
    window and the next SN is free; every call returns but the clock when the poll timer
    runs out on an empty wait list, which dereferences [NULL].

    SNOW 3G: the tables are the field operations of the specification, the sliding
    register is the shifting one, nothing uninitialised is read, ciphering twice is
    the identity, the table of multiples multiplies in GF(2^64).  PDCP: any bytes are
    received without fault (if they hold a header), an SDU is accepted only with the
    right MAC-I, once, and delivered in order; the timer frees what waits; an SDU sent
    is received with its bytes by a peer with the same keys; no run of permitted calls
    faults, and the order holds over runs.

    Tables and queues: the hash table refines a finite map over any sequence of calls, the
    list of SDAP entities as long as they are not more than its bound; an entry point of
    PDCP changes the entity it names and no other; the queues are first-in first-out under
    every interleaving, no wake-up is lost, and from every state they drain.  SDAP: a
    configuration leaves exactly the rules it describes.  User plane: every packet of a UE
    that is configured as the gNB is arrives unchanged, in order, in both directions,
    through SDAP and PDCP.

    RLC links and the whole stack: two UM entities over a MAC that loses nothing are two
    queues of SDUs, however the grants cut them (with 12-bit SNs a grant of two bytes is
    excepted, it loses an SDU), and grants of five bytes empty them; a
    function of an RLC entity called through the table changes that UE and no other; a
    DRB that RRC sets up is reached through its channel.  With all of this, the uplink
    from the TUN interface of the UE to GTP-U at the gNB, tables and layers included, is
    a queue of packets that grants empty.

    MAC: the lists over arrays are sequences of numbers; in every state that can be reached
    each HARQ process is in exactly one list, no event faults, and the bits of a report
    answer the processes in the order they were sent.  A transport block that the UE or
    the gNB fills, whatever RLC has and in whatever sizes, is read by the other side as
    exactly the SDUs that were put in, with the reports and commands that were due; any
    bytes of a UE are read without fault; the binary search for a buffer level is the
    linear one, and the gNB's estimate covers what the UE has up to the largest level.

    Transport blocks: the table-driven CRCs are polynomial division and miss no burst as
    long as the CRC; segmentation is the least one of the standard and never fails; the
    sizes of [nr_compute_tbs] split evenly; a block sent is rebuilt and accepted by the
    receiver once LDPC returns its code blocks, in both directions; rate matching visits
    the circular buffer as 38.212 says, the receiver puts each soft value at the bit it
    was read from.

    ** Fuel and bounds

    Loops whose end is not structural take fuel and fault with [NoFuel] when it is used up;
    the theorems prove [Ok], hence that the fuel given is enough.  The loops over linked
    lists have the length of the lists; the search for the next SN that is not delivered has
    the size of the window; the status report has one round per byte of the grant, since
    every round writes a NACK; the loops of rate matching have one round per bit.  A loop
    over the subPDUs of a block has one round per byte of the block, the prioritization one
    round per value of its 8-bit counter.  The theorem on uplink blocks is for blocks of at
    most 160000 bytes (four layers carry 159749) and sixteen channels, the one on any bytes
    gives the parser 9 bytes of slack, since it reads a long report without looking at its
    length; the HARQ theorems are for at most eight rounds, the size of the counters.

    ** Not modelled

    Logging, [malloc] failure and the [free] of memory that only ends a value's
    life; the [delete] functions; statistics text output; AES (OpenSSL); the creation
    of threads and of TUN interfaces; the monitoring hooks; the SIMD copies of loops that
    also exist in portable C.  LDPC is an input of the theorems on transport blocks: what
    its decoder returns.  Of MAC: which UE and which resources are chosen (floating-point
    metrics), DCIs and nFAPI messages, random access, the test modes [phy_test] and
    [do_ra]; building the first RRC configuration and the factor of the power headroom
    (floating point) are parameters, timers are events.  The composition of RLC in
    acknowledged mode with the layers around it is not proved: the instance of RLC for MAC
    has UM entities.  The key derivation, the adaptation layers to other tasks, RRC,
    NGAP, the rest of the physical layer and the LTE stack are outside this development:
    they work on generated ASN.1 types, inter-task messages, hardware or SIMD code. *)
(** ** Prelude of the development

    What every component file needs: the outcome monad [res] in which the
    translated C functions run (a value, or the way the C execution stops:
    [exit(1)]/[AssertFatal], a null or dangling pointer access, a write out of
    bounds, a loop that has not finished within its fuel), fixed-width
    integers, byte buffers with bounds-checked accesses, the generic lemmas on
    lists and bits the components share, and the tactics and hint databases
    of the development. *)

From Stdlib Require Export ZArith Lia Sorted.
From stdpp Require Export base tactics numbers option gmap list_numbers list.

#[global] Open Scope Z_scope.

(** ** Outcomes *)

(** How a C execution can stop without returning.  [Exit] is [exit(1)] or a
    failed [AssertFatal]/[DevAssert]; [NullDeref] a dereference of a null
    pointer; [Dangling] an access through a pointer to freed memory;
    [OutOfBounds] an access outside a buffer; [NoFuel] says that the fuel given
    to a loop was not enough to see its end. *)
Inductive fault :=
| Exit
| NullDeref
| Dangling
| OutOfBounds
| NoFuel.

Inductive res (A : Type) :=
| Ok (a : A)
| Fault (f : fault).
Arguments Ok {A} _.
Arguments Fault {A} _.

#[export] Instance fault_eq_dec : EqDecision fault.
Proof. solve_decision. Defined.

#[export] Instance res_ret : MRet res := fun A a => Ok a.
#[export] Instance res_bind : MBind res := fun A B f m =>
  match m with
  | Ok a => f a
  | Fault e => Fault e
  end.
#[export] Instance res_fmap : FMap res := fun A B f m =>
  match m with
  | Ok a => Ok (f a)
  | Fault e => Fault e
  end.

Lemma res_bind_ok {A B} (m : res A) (f : A -> res B) b :
  (m ≫= f) = Ok b <-> exists a, m = Ok a /\ f a = Ok b.
Proof. destruct m; naive_solver. Qed.

Lemma res_bind_unfold {A B} (a : A) (f : A -> res B) : (Ok a ≫= f) = f a.
Proof. reflexivity. Qed.

Lemma res_ret_bind {A B} (a : A) (f : A -> res B) : (mret a ≫= f) = f a.
Proof. reflexivity. Qed.

(** A sequence of calls, in order. *)
Fixpoint res_foldl {A B} (f : A -> B -> res A) (a : A) (l : list B) : res A :=
  match l with
  | [] => Ok a
  | b :: l' => f a b ≫= fun a' => res_foldl f a' l'
  end.

(** A counting loop returns when each of its rounds does, with the invariant of
    the last round. *)
Lemma res_foldl_seqZ {A} (I : Z -> A -> Prop) (f : A -> Z -> res A) a lo n :
  0 <= n -> I lo a ->
  (forall i a, lo <= i < lo + n -> I i a -> exists a', f a i = Ok a' /\ I (i + 1) a') ->
  exists a', res_foldl f a (seqZ lo n) = Ok a' /\ I (lo + n) a'.
Proof.
  intros Hn. revert lo a. pattern n. apply natlike_ind; [| |done]; clear n Hn.
  { intros lo a H _. exists a. rewrite Z.add_0_r. done. }
  intros n Hn IH lo a Ha Hf. rewrite seqZ_cons by lia. cbn [res_foldl].
  destruct (Hf lo a) as (a1 & Hfa & Ha1); [lia|done|]. rewrite Hfa, res_bind_unfold.
  replace (Z.pred (Z.succ n)) with n by lia.
  destruct (IH (Z.succ lo) a1) as (a2 & -> & Ha2); [done| |].
  { intros i a0 Hi. apply Hf. lia. }
  exists a2. split; [done|]. by replace (lo + Z.succ n) with (Z.succ lo + n) by lia.
Qed.

(** The value of an option that the C code reads through a pointer: [None] is
    the fault [e]. *)
Definition of_option {A} (e : fault) (o : option A) : res A :=
  match o with
  | Some a => Ok a
  | None => Fault e
  end.

Lemma of_option_ok {A} e (o : option A) a : of_option e o = Ok a <-> o = Some a.
Proof. destruct o; naive_solver. Qed.

(** [DevAssert(c)]. *)
Definition dev_assert (c : bool) : res unit := if c then mret tt else Fault Exit.

(** ** Fixed-width integers *)

(** [uint8_t], [uint16_t], [uint32_t] and [uint64_t] arithmetic wraps around. *)
Definition u8 (z : Z) : Z := z mod 2 ^ 8.
Definition u16 (z : Z) : Z := z mod 2 ^ 16.
Definition u32 (z : Z) : Z := z mod 2 ^ 32.
Definition u64 (z : Z) : Z := z mod 2 ^ 64.

(** Conversion to [int32_t]. *)
Definition i32 (z : Z) : Z := let r := u32 z in if r <? 2 ^ 31 then r else r - 2 ^ 32.

(** A C truth value ([int] used as a flag). *)
Definition b2z (b : bool) : Z := if b then 1 else 0.

(** ** Byte buffers *)

(** A byte is a [Z] in [0..255]; a buffer is the list of its bytes. *)
Definition is_byte (b : Z) : Prop := 0 <= b < 256.

(** Length of a buffer as a C [int]. *)
Definition zlen {A} (l : list A) : Z := Z.of_nat (length l).

(** [l[i]], bounds checked. *)
Definition zget {A} (l : list A) (i : Z) : res A :=
  if i <? 0 then Fault OutOfBounds else of_option OutOfBounds (l !! Z.to_nat i).

(** [l[i] = v], bounds checked. *)
Definition zset {A} (l : list A) (i : Z) (v : A) : res (list A) :=
  if (0 <=? i) && (i <? zlen l) then Ok (<[Z.to_nat i := v]> l) else Fault OutOfBounds.

(** The [n] bytes from offset [off], the source of a [memcpy]. *)
Definition zslice {A} (l : list A) (off n : Z) : res (list A) :=
  if (0 <=? off) && (0 <=? n) && (off + n <=? zlen l)
  then Ok (take (Z.to_nat n) (drop (Z.to_nat off) l)) else Fault OutOfBounds.

(** [memcpy(l + off, src, |src|)], bounds checked. *)
Definition zwrite {A} (l : list A) (off : Z) (src : list A) : res (list A) :=
  if (0 <=? off) && (off + zlen src <=? zlen l)
  then Ok (take (Z.to_nat off) l ++ src ++ drop (Z.to_nat (off + zlen src)) l)
  else Fault OutOfBounds.

(** Sum of a measure over a list. *)
Definition zsum {A} (f : A -> Z) (l : list A) : Z := foldr (fun x acc => f x + acc) 0 l.

(** ** Tactics *)

(** Case analysis on every boolean comparison of integers in sight, with the
    fact it decides as a hypothesis. *)
Ltac zcases :=
  repeat match goal with
  | H : context [?a =? ?b] |- _ => destruct (Z.eqb_spec a b)
  | H : context [?a <=? ?b] |- _ => destruct (Z.leb_spec a b)
  | H : context [?a <? ?b] |- _ => destruct (Z.ltb_spec a b)
  | H : context [?a >? ?b] |- _ => rewrite (Z.gtb_ltb a b) in H
  | H : context [?a >=? ?b] |- _ => rewrite (Z.geb_leb a b) in H
  | |- context [?a =? ?b] => destruct (Z.eqb_spec a b)
  | |- context [?a <=? ?b] => destruct (Z.leb_spec a b)
  | |- context [?a <? ?b] => destruct (Z.ltb_spec a b)
  | |- context [?a >? ?b] => rewrite (Z.gtb_ltb a b)
  | |- context [?a >=? ?b] => rewrite (Z.geb_leb a b)
  end.

(** Inversion of a monadic computation that returned: [m ≫= f = Ok b] gives
    the intermediate value and the two equations. *)
Ltac res_inv :=
  repeat match goal with
  | H : (_ ≫= _) = Ok _ |- _ =>
      apply res_bind_ok in H; destruct H as (? & ? & H)
  | H : mret _ = Ok _ |- _ => unfold mret, res_ret in H
  | H : Ok _ = Ok _ |- _ => injection H as H
  | H : of_option _ _ = Ok _ |- _ => apply of_option_ok in H
  | H : Fault _ = Ok _ |- _ => discriminate H
  | H : (_, _) = (_, _) |- _ => injection H as ??
  end; subst.

(** Arithmetic with division and remainder. *)
Ltac zmod := Z.div_mod_to_equations; nia.

Create HintDb rlc.
Create Rewrite HintDb rlc_len.

(** ** Lists *)

Section zlen_lemmas.
Context {A : Type}.
Implicit Types l : list A.

Lemma zlen_nonneg l : 0 <= zlen l.
Proof. unfold zlen; lia. Qed.

Lemma zlen_nil : zlen (@nil A) = 0.
Proof. reflexivity. Qed.

Lemma zlen_cons x l : zlen (x :: l) = 1 + zlen l.
Proof. unfold zlen; simpl length; lia. Qed.

Lemma zlen_app l1 l2 : zlen (l1 ++ l2) = zlen l1 + zlen l2.
Proof. unfold zlen; rewrite length_app; lia. Qed.

Lemma zlen_take n l : zlen (take n l) = Z.min (Z.of_nat n) (zlen l).
Proof. unfold zlen; rewrite length_take; lia. Qed.

Lemma zlen_drop n l : zlen (drop n l) = Z.max 0 (zlen l - Z.of_nat n).
Proof. unfold zlen; rewrite length_drop; lia. Qed.

Lemma zlen_insert i x l : zlen (<[i := x]> l) = zlen l.
Proof. unfold zlen; by rewrite length_insert. Qed.
End zlen_lemmas.

#[export] Hint Rewrite @zlen_nil @zlen_cons @zlen_app @zlen_take @zlen_drop @zlen_insert : rlc_len.

Section zsum_lemmas.
Context {A : Type} (f : A -> Z).
Implicit Types l : list A.

Lemma zsum_nil : zsum f [] = 0.
Proof. reflexivity. Qed.

Lemma zsum_cons x l : zsum f (x :: l) = f x + zsum f l.
Proof. reflexivity. Qed.

Lemma zsum_app l1 l2 : zsum f (l1 ++ l2) = zsum f l1 + zsum f l2.
Proof. induction l1 as [|x l1 IH]; simpl; [done|]. rewrite IH; lia. Qed.

Lemma zsum_nonneg l : Forall (fun x => 0 <= f x) l -> 0 <= zsum f l.
Proof. induction 1; simpl; lia. Qed.

Lemma zsum_perm l1 l2 : l1 ≡ₚ l2 -> zsum f l1 = zsum f l2.
Proof. induction 1; simpl; lia. Qed.

Lemma zsum_insert l i x y :
  l !! i = Some x -> zsum f (<[i := y]> l) = zsum f l - f x + f y.
Proof.
  revert i. induction l as [|z l IH]; intros [|i] Hi; simpl in *; try done.
  - injection Hi as ->. lia.
  - rewrite IH by done. lia.
Qed.

Lemma zsum_ext g l : (forall x, x ∈ l -> f x = g x) -> zsum f l = zsum g l.
Proof.
  induction l as [|x l IH]; intros H; [done|]. simpl. rewrite (H x), IH; [done| |left].
  intros; apply H; by right.
Qed.
End zsum_lemmas.

Lemma zsum_map {A B} (f : B -> Z) (g : A -> B) l : zsum f (map g l) = zsum (fun x => f (g x)) l.
Proof. induction l; simpl; congruence. Qed.

#[export] Hint Rewrite @zsum_nil @zsum_cons @zsum_app : rlc_len.

Lemma dev_assert_ok (c : bool) : c = true -> dev_assert c = Ok tt.
Proof. by intros ->. Qed.

Lemma zset_ok {A} (l : list A) i v :
  0 <= i < zlen l -> zset l i v = Ok (<[Z.to_nat i := v]> l).
Proof. intros. unfold zset. zcases; simpl; try lia; done. Qed.

Lemma zget_ok {A} (l : list A) i x :
  zget l i = Ok x <-> 0 <= i /\ l !! Z.to_nat i = Some x.
Proof.
  unfold zget. zcases; [naive_solver lia|]. rewrite of_option_ok. naive_solver lia.
Qed.

Lemma zslice_ok {A} (l : list A) off n :
  0 <= off -> 0 <= n -> off + n <= zlen l ->
  zslice l off n = Ok (take (Z.to_nat n) (drop (Z.to_nat off) l)).
Proof. intros. unfold zslice. zcases; simpl; try lia; done. Qed.

Lemma zslice_inv {A} (l : list A) off n s :
  zslice l off n = Ok s ->
  0 <= off /\ 0 <= n /\ off + n <= zlen l /\ zlen s = n /\
  s = take (Z.to_nat n) (drop (Z.to_nat off) l).
Proof.
  unfold zslice. zcases; simpl; intros; res_inv; try done.
  repeat split; try lia. autorewrite with rlc_len. lia.
Qed.

Lemma zwrite_ok {A} (l : list A) off src :
  0 <= off -> off + zlen src <= zlen l ->
  zwrite l off src =
    Ok (take (Z.to_nat off) l ++ src ++ drop (Z.to_nat (off + zlen src)) l).
Proof. intros. unfold zwrite. zcases; simpl; try lia; done. Qed.

Lemma zwrite_len {A} (l : list A) off src l' :
  zwrite l off src = Ok l' -> zlen l' = zlen l.
Proof.
  unfold zwrite. pose proof (zlen_nonneg src).
  zcases; simpl; intros; res_inv; try done.
  autorewrite with rlc_len. lia.
Qed.

(** Writing at the end of what was written. *)
Lemma zwrite_append {A} (pre src rest : list A) n : n = zlen pre -> zlen src <= zlen rest ->
  zwrite (pre ++ rest) n src = Ok ((pre ++ src) ++ drop (length src) rest).
Proof.
  intros -> Hl. pose proof (zlen_nonneg pre). rewrite zwrite_ok by (rewrite ?zlen_app; lia).
  unfold zlen in *. f_equal. rewrite Nat2Z.id, take_app_length, <- app_assoc.
  do 2 f_equal. replace (Z.to_nat _) with (length pre + length src)%nat by lia. apply drop_app_add.
Qed.

(** ** Bits *)

(** The low [n] bits of [v], most significant first. *)
Fixpoint bits (n : nat) (v : Z) : list bool :=
  match n with
  | O => []
  | S n' => Z.testbit v (Z.of_nat n') :: bits n' v
  end.

(** The number a bit sequence stands for, most significant bit first. *)
Definition bits_val (bs : list bool) : Z := foldl (fun acc b => 2 * acc + b2z b) 0 bs.

(** The bit sequence of a buffer. *)
Definition buffer_bits (buf : list Z) : list bool := concat (map (bits 8) buf).

Lemma length_bits n v : length (bits n v) = n.
Proof. induction n; simpl; congruence. Qed.

Lemma bits_val_acc bs acc :
  foldl (fun a b => 2 * a + b2z b) acc bs = acc * 2 ^ zlen bs + bits_val bs.
Proof.
  unfold bits_val. revert acc. induction bs as [|b bs IH]; intros acc; cbn [foldl].
  { rewrite zlen_nil. simpl. lia. }
  rewrite IH, (IH (2 * 0 + b2z b)), zlen_cons, Z.pow_add_r by (pose proof (zlen_nonneg bs); lia). nia.
Qed.

Lemma bits_val_cons b bs : bits_val (b :: bs) = b2z b * 2 ^ zlen bs + bits_val bs.
Proof. unfold bits_val at 1. cbn [foldl]. rewrite bits_val_acc. f_equal. Qed.

Lemma bits_val_range bs : 0 <= bits_val bs < 2 ^ zlen bs.
Proof.
  induction bs as [|b bs IH]; [done|].
  rewrite bits_val_cons, zlen_cons, Z.pow_add_r by (pose proof (zlen_nonneg bs); lia).
  destruct b; simpl; lia.
Qed.

Lemma zlen_bits n v : zlen (bits n v) = Z.of_nat n.
Proof. unfold zlen. by rewrite length_bits. Qed.

Lemma bits_val_bits n v : bits_val (bits n v) = v mod 2 ^ Z.of_nat n.
Proof.
  induction n as [|n IH]; [simpl; by rewrite Z.mod_1_r|].
  simpl bits. rewrite bits_val_cons, IH, zlen_bits.
  rewrite Nat2Z.inj_succ, Z.pow_succ_r by lia.
  rewrite (Z.mul_comm 2), Z.rem_mul_r by lia.
  rewrite <- (Z.testbit_spec' v (Z.of_nat n)) by lia.
  destruct (Z.testbit v (Z.of_nat n)); unfold b2z, Z.b2z; lia.
Qed.

Lemma bits_val_id n v : 0 <= v < 2 ^ Z.of_nat n -> bits_val (bits n v) = v.
Proof. intros. by rewrite bits_val_bits, Z.mod_small. Qed.

Lemma buffer_bits_app b1 b2 : buffer_bits (b1 ++ b2) = buffer_bits b1 ++ buffer_bits b2.
Proof. unfold buffer_bits. by rewrite map_app, concat_app. Qed.

Lemma length_buffer_bits buf : length (buffer_bits buf) = (8 * length buf)%nat.
Proof.
  induction buf as [|b buf IH]; [done|].
  change (b :: buf) with ([b] ++ buf). rewrite buffer_bits_app, !length_app, IH. simpl. lia.
Qed.

Lemma bits_ext n v w :
  (forall i, (i < n)%nat -> Z.testbit v (Z.of_nat i) = Z.testbit w (Z.of_nat i)) ->
  bits n v = bits n w.
Proof.
  induction n as [|n IH]; intros H; [done|]. simpl. f_equal; [apply H; lia|].
  apply IH. intros; apply H; lia.
Qed.

(** Shifting a bit into the low end of a byte. *)
Lemma bits_shift_in n old (b : bool) :
  (n < 8)%nat ->
  bits (S n) (if b then Z.lor (u8 (Z.shiftl old 1)) 1 else u8 (Z.shiftl old 1))
  = bits n old ++ [b].
Proof.
  intros Hn.
  assert (Hbit : forall m : nat, (m < 8)%nat ->
    Z.testbit (if b then Z.lor (u8 (Z.shiftl old 1)) 1 else u8 (Z.shiftl old 1)) (Z.of_nat m)
    = match m with O => b | S m' => Z.testbit old (Z.of_nat m') end).
  { intros m Hm.
    assert (Hu : Z.testbit (u8 (Z.shiftl old 1)) (Z.of_nat m)
      = match m with O => false | S m' => Z.testbit old (Z.of_nat m') end).
    { unfold u8. rewrite Z.mod_pow2_bits_low by lia. rewrite Z.shiftl_spec by lia.
      destruct m; [by rewrite Z.testbit_neg_r by lia|]. f_equal; lia. }
    destruct b; [|destruct m; done].
    rewrite Z.lor_spec, Hu. destruct m as [|m]; [done|].
    rewrite Nat2Z.inj_succ, (Z.testbit_odd 1), Z.shiftr_div_pow2 by lia.
    rewrite Z.div_small by (split; [lia|]; apply Z.pow_gt_1; lia). by rewrite orb_false_r. }
  clear -Hbit Hn. revert Hbit.
  generalize (if b then Z.lor (u8 (Z.shiftl old 1)) 1 else u8 (Z.shiftl old 1)) as v.
  intros v Hbit. induction n as [|n IH].
  { cbn [bits app]. by rewrite (Hbit 0%nat) by lia. }
  change (bits (S (S n)) v) with (Z.testbit v (Z.of_nat (S n)) :: bits (S n) v).
  rewrite IH by lia. rewrite (Hbit (S n)) by lia. done.
Qed.

(** One bit of a byte. *)
Lemma land_shiftr_1 b i : 0 <= i -> Z.land (Z.shiftr b i) 1 = b2z (Z.testbit b i).
Proof.
  intros. change 1 with (Z.ones 1). rewrite Z.land_ones, Z.shiftr_div_pow2 by lia.
  rewrite <- Z.testbit_spec' by lia. by destruct (Z.testbit b i).
Qed.

Lemma land_pow2_testbit v i : 0 <= i -> negb (Z.land v (Z.shiftl 1 i) =? 0) = Z.testbit v i.
Proof.
  intros Hi. rewrite Z.shiftl_1_l.
  destruct (Z.testbit v i) eqn:E.
  - apply negb_true_iff, Z.eqb_neq. intros H0.
    assert (Z.testbit (Z.land v (2 ^ i)) i = true) as Ht.
    { rewrite Z.land_spec, E, Z.pow2_bits_true by lia. done. }
    by rewrite H0, Z.bits_0 in Ht.
  - apply negb_false_iff, Z.eqb_eq. apply Z.bits_inj'. intros j Hj.
    rewrite Z.land_spec, Z.bits_0. destruct (Z.eq_dec i j) as [->|Hne].
    + by rewrite E.
    + rewrite Z.pow2_bits_false by lia. by rewrite andb_false_r.
Qed.

(** [(r << 1) | b] for a single bit. *)
Lemma land_mask x n : 0 <= n -> Z.land x (2 ^ n - 1) = x mod 2 ^ n.
Proof. intros. rewrite <- Z.land_ones by done. f_equal. rewrite Z.ones_equiv. lia. Qed.

Lemma lor_split h n k : 0 <= n -> 0 <= k < 2 ^ n -> Z.lor (h * 2 ^ n) k = h * 2 ^ n + k.
Proof.
  intros Hn Hk. symmetry. apply Z.add_nocarry_lor, Z.bits_inj'. intros i Hi.
  rewrite Z.land_spec, Z.bits_0, <- Z.shiftl_mul_pow2, Z.shiftl_spec by done.
  destruct (Z.ltb_spec i n); [by rewrite Z.testbit_neg_r by lia|].
  rewrite <- (Z.mod_small k (2 ^ n)), Z.mod_pow2_bits_high by lia. apply andb_false_r.
Qed.

Lemma lor_shift_in r (b : bool) : Z.lor (Z.shiftl r 1) (b2z b) = 2 * r + b2z b.
Proof.
  destruct b; cbn [b2z]; [|by rewrite Z.lor_0_r, Z.shiftl_mul_pow2, Z.mul_comm, Z.add_0_r by lia].
  apply Z.bits_inj'. intros i Hi. rewrite Z.lor_spec, Z.shiftl_spec by lia.
  destruct (Z.eq_dec i 0) as [->|Hne].
  { by rewrite Z.testbit_neg_r, Z.testbit_odd_0 by lia. }
  replace i with (Z.succ (i - 1)) by lia. rewrite Z.testbit_odd_succ by lia.
  replace (Z.testbit 1 (Z.succ (i - 1))) with false.
  { rewrite orb_false_r. f_equal. lia. }
  symmetry. apply Z.bits_above_log2; simpl; lia.
Qed.

(** Residues are shifted injectively. *)
Lemma sub_mod_inj M a b s :
  0 <= a < M -> 0 <= b < M -> (a - s) mod M = (b - s) mod M -> a = b.
Proof.
  intros Ha Hb Heq. rewrite <- (Z.mod_small a M), <- (Z.mod_small b M) by done.
  replace a with (a - s + s) by lia. replace b with (b - s + s) by lia.
  rewrite <- (Z.add_mod_idemp_l (a - s)), <- (Z.add_mod_idemp_l (b - s)) by lia. by rewrite Heq.
Qed.
