(* ===== verification/Asn1.v ===== *)
(** * Values of RRC enumerations

    The macro [ENCODE_DECODE] of [nr_pdcp/asn1_utils.c] and [nr_rlc/asn1_utils.c]: an
    enumerated value of RRC is a place in a table of numbers.  On a table without
    repetition the two functions are inverse of each other, and each one stops the
    process exactly on the arguments that the other does not return. *)

From S2P Require Import Prelude.

Module Asn1.

Definition decode_value (tab : list Z) (v : Z) : res Z :=
  _ ← dev_assert ((v >=? 0) && (v <? zlen tab)); zget tab v.

Fixpoint encode_from (tab : list Z) (ret v : Z) : res Z :=
  match tab with
  | [] => Fault Exit
  | x :: tab => if x =? v then mret ret else encode_from tab (ret + 1) v
  end.
Definition encode_value (tab : list Z) (v : Z) : res Z := encode_from tab 0 v.

Lemma decode_ok tab v x : decode_value tab v = Ok x <-> 0 <= v /\ tab !! Z.to_nat v = Some x.
Proof.
  unfold decode_value, dev_assert. split.
  - destruct (Z.geb_spec v 0), (Z.ltb_spec v (zlen tab)); cbn [andb]; try done.
    rewrite res_ret_bind. intros Hx%zget_ok. naive_solver.
  - intros [Hv Hx]. pose proof (lookup_lt_Some _ _ _ Hx) as Hl.
    destruct (Z.geb_spec v 0), (Z.ltb_spec v (zlen tab)); cbn [andb]; unfold zlen in *; try lia.
    rewrite res_ret_bind. apply zget_ok. done.
Qed.

Lemma encode_from_ok tab k v x : encode_from tab k x = Ok v <->
  exists i, v = k + Z.of_nat i /\ tab !! i = Some x /\ forall j, (j < i)%nat -> tab !! j <> Some x.
Proof.
  revert k. induction tab as [|y tab IH]; intros k; cbn [encode_from].
  { split; [done|]. by intros (i & _ & H & _). }
  destruct (Z.eqb_spec y x) as [->|Hne].
  - split.
    + intros [= <-]. exists O. split; [lia|]. split; [done|]. intros j Hj. lia.
    + intros (i & -> & Hi & Hfirst). destruct i as [|i]; [f_equal; lia|]. by destruct (Hfirst O ltac:(lia)).
  - rewrite IH. split; intros (i & -> & Hi & Hfirst).
    + exists (S i). split; [lia|]. split; [done|]. intros [|j] Hj; [naive_solver|]. apply Hfirst. lia.
    + destruct i as [|i]; [naive_solver|]. exists i. split; [lia|]. split; [done|].
      intros j Hj. apply (Hfirst (S j)). lia.
Qed.

(** Decoding and encoding are inverse of each other. *)
Lemma encode_decode tab v x : NoDup tab -> encode_value tab x = Ok v <-> decode_value tab v = Ok x.
Proof.
  intros Hn. rewrite decode_ok. unfold encode_value. rewrite encode_from_ok. split.
  - intros (i & -> & Hi & _). split; [lia|]. by rewrite Z.add_0_l, Nat2Z.id.
  - intros [Hv Hx]. exists (Z.to_nat v). split; [lia|]. split; [done|]. intros j Hj Hj'.
    pose proof (proj1 (NoDup_alt tab) Hn _ _ _ Hj' Hx). lia.
Qed.
End Asn1.

(** * Lists of records with a key

    The tables of UEs of PDCP and RLC are lists in which a UE is found by its
    identifier.  [find] sees such a list as a partial function from identifiers; the
    lemmas say what adding, changing and removing a UE do to that function. *)
Module UeTable.
Section table.
Context {U : Type} (key : U -> Z).

Definition find (l : list U) (id : Z) : option U := snd <$> list_find (fun u => key u = id) l.

Lemma find_in l id u : NoDup (map key l) -> find l id = Some u <-> u ∈ l /\ key u = id.
Proof.
  intros Hn. unfold find. rewrite fmap_Some. split.
  - intros ([i u'] & E & ->). apply list_find_Some in E as (Hi & Hk & _).
    split; [by eapply list_elem_of_lookup_2|done].
  - intros [Hin Hk]. apply list_elem_of_lookup in Hin as [i Hi].
    destruct (list_find (fun u => key u = id) l) as [[j v]|] eqn:E.
    + exists (j, v). split; [done|]. apply list_find_Some in E as (Hj & Hkj & _). cbn.
      assert (i = j); [|subst; congruence].
      apply (NoDup_lookup (map key l) i j id); [done|by rewrite list_lookup_fmap, Hi; cbn; f_equal
        |by rewrite list_lookup_fmap, Hj; cbn; f_equal].
    + apply list_find_None in E. by destruct (proj1 (Forall_lookup _ _) E i u Hi).
Qed.

Lemma find_ext l l' id : NoDup (map key l) -> NoDup (map key l') ->
  (forall u, key u = id -> u ∈ l <-> u ∈ l') -> find l id = find l' id.
Proof. intros H1 H2 H. apply option_eq. intros u. rewrite !find_in by done. naive_solver. Qed.

Lemma find_new l id : find l id = None -> id ∉ map key l.
Proof.
  unfold find. rewrite fmap_None, list_find_None. intros Hf Hin.
  apply list_elem_of_fmap in Hin as (u & -> & Hin). by apply (proj1 (Forall_forall _ _) Hf u Hin).
Qed.

(** A record for a new key at the end. *)
Lemma find_snoc l u : NoDup (map key l) -> find l (key u) = None ->
  NoDup (map key (l ++ [u])) /\
  forall id, find (l ++ [u]) id = if decide (id = key u) then Some u else find l id.
Proof.
  intros Hn Hf. pose proof (find_new _ _ Hf) as Hnew.
  assert (Hn' : NoDup (map key (l ++ [u]))).
  { rewrite map_app. apply NoDup_app. split_and!; [done|set_solver|apply NoDup_singleton]. }
  split; [done|]. intros id. case_decide as D.
  - apply find_in; [done|]. split; [set_solver|done].
  - apply find_ext; [done..|]. intros v Hv. rewrite elem_of_app, list_elem_of_singleton. naive_solver.
Qed.

(** A record changed in place. *)
Lemma find_alter f l i u : NoDup (map key l) -> l !! i = Some u -> key (f u) = key u ->
  NoDup (map key (alter f i l)) /\
  forall id, find (alter f i l) id = if decide (id = key u) then Some (f u) else find l id.
Proof.
  intros Hn Hi Hk.
  assert (El : l = take i l ++ u :: drop (S i) l) by (symmetry; by apply take_drop_middle).
  assert (Ei : length (take i l) = i) by (rewrite length_take; apply lookup_lt_Some in Hi; lia).
  assert (Ea : alter f i l = take i l ++ f u :: drop (S i) l).
  { rewrite El at 1. rewrite alter_app_r_alt by lia. by rewrite Ei, Nat.sub_diag. }
  rewrite Ea. set (l1 := take i l) in *. set (l2 := drop (S i) l) in *. clearbody l1 l2. subst l.
  assert (Hn' : NoDup (map key (l1 ++ f u :: l2))).
  { rewrite map_app in *. cbn in *. by rewrite Hk. }
  split; [done|]. intros id. case_decide as D.
  - apply find_in; [done|]. split; [set_solver|congruence].
  - apply find_ext; [done..|]. intros v Hv. rewrite !elem_of_app, !elem_of_cons. naive_solver.
Qed.

(** A record taken away. *)
Lemma find_delete l i u : NoDup (map key l) -> l !! i = Some u ->
  NoDup (map key (delete i l)) /\
  forall id, find (delete i l) id = if decide (id = key u) then None else find l id.
Proof.
  intros Hn Hi. pose proof (delete_Permutation l i u Hi) as Hp.
  assert (Hn' : NoDup (map key (u :: delete i l))) by (by rewrite <- Hp).
  apply NoDup_cons in Hn' as [Hu Hd]. split; [done|]. intros id. case_decide as D.
  - apply eq_None_not_Some. intros [v Hv]. apply find_in in Hv as [Hin Hk]; [|done].
    apply Hu. rewrite <- D, <- Hk. by apply list_elem_of_fmap_2.
  - apply find_ext; [done..|]. intros v Hv.
    assert (v ∈ l <-> v ∈ u :: delete i l) as -> by (by apply elem_of_Permutation_proper).
    rewrite elem_of_cons. naive_solver.
Qed.
End table.
End UeTable.
