(* ===== verification/TimeStat.v ===== *)
(** * Sliding-window average

    Models [common/utils/time_stat.c], the statistics helper the RLC entities
    use for the time an SDU waits before it is passed to MAC.  The measures of
    the last [duration] microseconds are in a ring buffer that doubles when it
    is full.  [contents] is the abstract state, the queue of the measures; the
    theorems say that the ring implements it across wrap-around and growth and
    that the accumulated value is the sum of the queue. *)

From S2P Require Import Prelude.

Module TimeStat.

Record time_value_t := mk_time_value { time : Z; value : Z }.

(** [time_ring_t]. *)
Record time_ring_t := mk_ring {
  head : Z;
  tail : Z;
  buffer : list time_value_t;
  maxsize : Z;
  size : Z
}.

Record time_average_t := mk_average {
  duration : Z;
  r : time_ring_t;
  accumulated_value : Z
}.

(** What [calloc] stores. *)
Definition zero : time_value_t := {| time := 0; value := 0 |}.

Definition time_average_new (duration initial_size : Z) : res time_average_t :=
  if negb (Z.land initial_size (initial_size - 1) =? 0) then Fault Exit
  else mret {| duration := duration;
               r := {| head := initial_size - 1; tail := 0;
                       buffer := replicate (Z.to_nat initial_size) zero;
                       maxsize := initial_size; size := 0 |};
               accumulated_value := 0 |}.

Definition time_average_reset (t : time_average_t) : time_average_t :=
  {| t with r := {| (r t) with head := maxsize (r t) - 1; tail := 0; size := 0 |};
            accumulated_value := 0 |}.

(** The loop of [remove_old]; it runs at most [size] times, which is the fuel. *)
Fixpoint remove_old_loop (fuel : nat) (t : time_average_t) (now : Z) : res time_average_t :=
  if size (r t) =? 0 then mret t
  else
    v ← zget (buffer (r t)) (tail (r t));
    if time v <? u64 (now - duration t) then
      match fuel with
      | O => Fault NoFuel
      | S fuel' =>
          remove_old_loop fuel'
            {| t with accumulated_value := u64 (accumulated_value t - value v);
                      r := {| (r t) with size := size (r t) - 1;
                                       tail := Z.rem (tail (r t) + 1) (maxsize (r t)) |} |} now
      end
    else mret t.

Definition remove_old (t : time_average_t) (now : Z) : res time_average_t :=
  remove_old_loop (Z.to_nat (size (r t))) t now.

(** Doubling of a full ring.  [realloc] leaves the new half unspecified: the
    model fills it with zeros, and [contents] never reads it. *)
Definition grow (g : time_ring_t) : res time_ring_t :=
  let b := buffer g ++ replicate (Z.to_nat (maxsize g)) zero in
  let g' := {| g with maxsize := maxsize g * 2; buffer := b |} in
  if head g <? tail g then
    src ← zslice b 0 (head g + 1);
    b' ← zwrite b (size g) src;
    mret {| g' with buffer := b'; head := head g + size g |}
  else mret g'.

Definition time_average_add (t : time_average_t) (now v : Z) : res time_average_t :=
  t ← remove_old t now;
  g ← (if size (r t) =? maxsize (r t) then grow (r t) else mret (r t));
  let h := Z.rem (head g + 1) (maxsize g) in
  b ← zset (buffer g) h {| time := now; value := v |};
  mret {| t with r := {| g with head := h; buffer := b; size := size g + 1 |};
                 accumulated_value := u64 (accumulated_value t + v) |}.

(** The average as a quotient: [accumulated_value / size] ([0] if there is no
    measure); the C code rounds it to a [double]. *)
Definition time_average_get_average (t : time_average_t) (now : Z)
    : res (Z * Z * time_average_t) :=
  t ← remove_old t now;
  if size (r t) =? 0 then mret (0, 1, t)
  else mret (accumulated_value t, size (r t), t).

(** ** The queue of measures *)

(** The [n] slots from the tail on. *)
Definition contents (g : time_ring_t) : list time_value_t :=
  take (Z.to_nat (size g)) (rotate (Z.to_nat (tail g)) (buffer g)).

Record ring_wf (g : time_ring_t) : Prop := {
  rwf_max : 0 < maxsize g;
  rwf_len : zlen (buffer g) = maxsize g;
  rwf_size : 0 <= size g <= maxsize g;
  rwf_tail : 0 <= tail g < maxsize g;
  rwf_head : 0 <= head g < maxsize g;
  rwf_pos : (head g + 1) mod maxsize g = (tail g + size g) mod maxsize g
}.

Definition wf (t : time_average_t) : Prop :=
  ring_wf (r t) /\ accumulated_value t = u64 (zsum value (contents (r t))).

Lemma average_new_wf d n t :
  0 < n -> time_average_new d n = Ok t -> wf t /\ contents (r t) = [].
Proof.
  unfold time_average_new. intros Hn H. destruct (negb _); [discriminate|]. res_inv.
  split; [|done]. split; [|done]. constructor; simpl; try lia.
  - unfold zlen. rewrite length_replicate. lia.
  - by rewrite Z.sub_add, Z.add_0_r, Z.mod_same, Z.mod_0_l by lia.
Qed.

(** Position of the [i]-th measure. *)
Lemma contents_lookup g (i : nat) :
  ring_wf g -> Z.of_nat i < size g ->
  contents g !! i = buffer g !! Z.to_nat ((tail g + Z.of_nat i) mod maxsize g).
Proof.
  intros [? Hl ? ? ? ?] Hi. unfold contents. unfold zlen in Hl.
  rewrite lookup_take_lt by lia. rewrite lookup_rotate_r by lia.
  unfold rotate_nat_add. do 2 f_equal. rewrite Hl. f_equal. lia.
Qed.

Lemma length_contents g : ring_wf g -> Z.of_nat (length (contents g)) = size g.
Proof.
  intros [? Hl ? ? ? ?]. unfold contents, zlen in *. rewrite length_take, length_rotate. lia.
Qed.

(** Removing the oldest measure. *)
Lemma contents_pop g x :
  ring_wf g -> 0 < size g ->
  zget (buffer g) (tail g) = Ok x ->
  let g' := {| g with size := size g - 1; tail := Z.rem (tail g + 1) (maxsize g) |} in
  ring_wf g' /\ contents g = x :: contents g'.
Proof.
  intros Hwf Hs Hx g'. pose proof Hwf as [? Hl ? ? ? Hpos].
  assert (Hrem : Z.rem (tail g + 1) (maxsize g) = (tail g + 1) mod maxsize g)
    by (apply Z.rem_mod_nonneg; lia).
  assert (Hwf' : ring_wf g').
  { constructor; simpl; rewrite ?Hrem; try done; try lia.
    - apply Z.mod_pos_bound; lia.
    - rewrite Z.add_mod_idemp_l by lia. rewrite Hpos. f_equal. lia. }
  split; [done|]. apply list_eq. intros i.
  pose proof (length_contents g Hwf). pose proof (length_contents g' Hwf') as Hlen'. simpl in Hlen'.
  destruct i as [|i].
  - rewrite contents_lookup by (done || simpl; lia). simpl.
    apply zget_ok in Hx as [_ Hx]. rewrite <- Hx. f_equal. rewrite Z.mod_small by lia. lia.
  - simpl. destruct (decide (Z.of_nat i < size g - 1)) as [Hi|Hi].
    + rewrite !contents_lookup by (done || simpl; lia). simpl. rewrite Hrem.
      rewrite Z.add_mod_idemp_l by lia. do 2 f_equal. f_equal. lia.
    + rewrite !lookup_ge_None_2 by lia. done.
Qed.

(** [remove_old] terminates within its fuel and drops exactly the measures at
    the front of the queue that are too old. *)
Lemma remove_old_loop_spec fuel : forall t now,
  wf t -> (Z.to_nat (size (r t)) <= fuel)%nat ->
  exists t', remove_old_loop fuel t now = Ok t' /\ wf t' /\ duration t' = duration t
    /\ maxsize (r t') = maxsize (r t)
    /\ exists old, contents (r t) = old ++ contents (r t')
        /\ Forall (fun x => time x < u64 (now - duration t)) old
        /\ (forall x q, contents (r t') = x :: q -> u64 (now - duration t) <= time x).
Proof.
  assert (Hstop : forall t now, wf t ->
    (forall x q, contents (r t) = x :: q -> u64 (now - duration t) <= time x) ->
    exists t', Ok t = Ok t' /\ wf t' /\ duration t' = duration t /\ maxsize (r t') = maxsize (r t)
      /\ exists old, contents (r t) = old ++ contents (r t')
          /\ Forall (fun x => time x < u64 (now - duration t)) old
          /\ (forall x q, contents (r t') = x :: q -> u64 (now - duration t) <= time x)).
  { intros t now ??. exists t. split_and!; try done. by exists []. }
  induction fuel as [|fuel IH]; intros t now Hwt Hfuel; pose proof Hwt as [Hwf Hacc];
    cbn [remove_old_loop]; pose proof (length_contents _ Hwf) as Hlen;
    pose proof Hwf as [? Hl ? ? ? ?]; destruct (Z.eqb_spec (size (r t)) 0) as [H0|H0];
    try (apply Hstop; [done|]; intros x q Hq; rewrite Hq in Hlen; simpl in Hlen; lia); [lia|].
  unfold zlen in Hl.
  destruct (lookup_lt_is_Some_2 (buffer (r t)) (Z.to_nat (tail (r t)))) as [x Hx]; [lia|].
  assert (Hget : zget (buffer (r t)) (tail (r t)) = Ok x) by (apply zget_ok; split; [lia|done]).
  rewrite Hget, res_bind_unfold.
  destruct (contents_pop (r t) x Hwf ltac:(lia) Hget) as [Hwf' Hc].
  destruct (Z.ltb_spec (time x) (u64 (now - duration t))) as [Hold|Hnew].
  - match goal with |- context [remove_old_loop fuel ?t1 now] => destruct (IH t1 now) as
      (t' & E & Hwt' & Hd & Hm & old & Ho & Hf & Hfr) end; simpl; [split; [done|]|lia|].
    { simpl. rewrite Hacc, Hc, zsum_cons. unfold u64.
      rewrite Zminus_mod_idemp_l. f_equal. lia. }
    simpl in *. exists t'. split_and!; try done. exists (x :: old). rewrite Hc, Ho.
    split_and!; try done. by constructor.
  - apply Hstop; [done|]. intros y q Hq. rewrite Hc in Hq. by injection Hq as <- _.
Qed.

(** Doubling keeps the queue. *)
Lemma grow_spec g :
  ring_wf g -> size g = maxsize g ->
  exists g', grow g = Ok g' /\ ring_wf g' /\ contents g' = contents g
    /\ size g' = size g /\ maxsize g' = 2 * maxsize g.
Proof.
  intros Hwf Hfull. pose proof Hwf as [Hm Hl Hs Ht Hh Hpos].
  set (b := buffer g ++ replicate (Z.to_nat (maxsize g)) zero).
  assert (Hlb : zlen b = 2 * maxsize g).
  { unfold b. rewrite zlen_app, Hl. unfold zlen. rewrite length_replicate. lia. }
  assert (Hext : forall g', size g' = size g -> tail g' = tail g -> maxsize g' = 2 * maxsize g ->
    ring_wf g' ->
    (forall i, tail g <= i < tail g + size g ->
       buffer g' !! Z.to_nat (i mod (2 * maxsize g)) = buffer g !! Z.to_nat (i mod maxsize g)) ->
    contents g' = contents g).
  { intros g' Hs' Ht' Hm' Hwf' Hb. apply list_eq. intros i.
    pose proof (length_contents g Hwf). pose proof (length_contents g' Hwf').
    destruct (decide (Z.of_nat i < size g)) as [Hi|Hi].
    - rewrite !contents_lookup by (done || lia). rewrite Ht', Hm'. apply Hb. lia.
    - rewrite !lookup_ge_None_2 by lia. done. }
  assert (Hpos' : (head g + 1) mod maxsize g = tail g).
  { rewrite Hpos, Hfull. rewrite <- (Z.mul_1_l (maxsize g)) at 1.
    by rewrite Z.mod_add, Z.mod_small by lia. }
  clear Hpos. rename Hpos' into Hpos.
  unfold grow. fold b. destruct (Z.ltb_spec (head g) (tail g)) as [Hlt|Hge].
  - rewrite Z.mod_small in Hpos by lia.
    rewrite zslice_ok, res_bind_unfold by lia. rewrite drop_0.
    set (src := take (Z.to_nat (head g + 1)) b).
    assert (Hsrc : zlen src = head g + 1) by (unfold src; rewrite zlen_take; lia).
    rewrite zwrite_ok, res_bind_unfold by lia.
    eexists. split; [reflexivity|].
    assert (Hw : zlen (take (Z.to_nat (size g)) b ++ src ++ drop (Z.to_nat (size g + zlen src)) b)
                 = 2 * maxsize g).
    { rewrite !zlen_app, zlen_take, zlen_drop. lia. }
    match goal with |- ring_wf ?g1 /\ _ => assert (Hwf1 : ring_wf g1) end.
    { constructor; simpl; try done; try lia.
      rewrite !Z.mod_small by lia. lia. }
    split_and!; try done; try (simpl; lia). apply Hext; simpl; try done; try lia.
    intros i Hi. rewrite (Z.mod_small i (2 * maxsize g)) by lia. unfold zlen in *.
    destruct (decide (i < maxsize g)) as [Hi1|Hi1].
    + rewrite lookup_app_l by (rewrite length_take; lia). rewrite lookup_take_lt by lia.
      unfold b. rewrite lookup_app_l by lia. by rewrite Z.mod_small by lia.
    + rewrite lookup_app_r by (rewrite length_take; lia).
      rewrite length_take, Nat.min_l by lia. rewrite lookup_app_l by lia. unfold src. rewrite lookup_take_lt by lia.
      unfold b. rewrite lookup_app_l by lia. f_equal.
      replace i with (i - maxsize g + 1 * maxsize g) at 2 by lia.
      rewrite Z.mod_add, Z.mod_small by lia. lia.
  - assert (tail g = 0 /\ head g = maxsize g - 1) as [Ht0 Hh0].
    { destruct (Z.eq_dec (head g + 1) (maxsize g)) as [Heq|Hne].
      - rewrite Heq, Z.mod_same in Hpos by lia. lia.
      - rewrite Z.mod_small in Hpos by lia. lia. }
    eexists. split; [reflexivity|].
    match goal with |- ring_wf ?g1 /\ _ => assert (Hwf1 : ring_wf g1) end.
    { constructor; simpl; try done; try lia. f_equal. lia. }
    split_and!; try done; try (simpl; lia). apply Hext; simpl; try done; try lia.
    intros i Hi. rewrite !Z.mod_small by lia. unfold b. unfold zlen in *.
    by rewrite lookup_app_l by lia.
Qed.

(** Appending a measure. *)
Lemma push_spec g x :
  ring_wf g -> size g < maxsize g ->
  let h := Z.rem (head g + 1) (maxsize g) in
  exists b, zset (buffer g) h x = Ok b
    /\ let g' := {| g with head := h; buffer := b; size := size g + 1 |} in
       ring_wf g' /\ contents g' = contents g ++ [x].
Proof.
  intros Hwf Hs h. pose proof Hwf as [Hm Hl Hsz Ht Hh Hpos].
  assert (Hh' : h = (head g + 1) mod maxsize g) by (apply Z.rem_mod_nonneg; lia).
  pose proof (Z.mod_pos_bound (head g + 1) (maxsize g) Hm).
  rewrite zset_ok by lia. eexists. split; [reflexivity|]. intros g'.
  assert (Hwf' : ring_wf g').
  { constructor; simpl; try done; try lia.
    - by rewrite zlen_insert.
    - rewrite Hh', Hpos, Z.add_mod_idemp_l by lia. f_equal. lia. }
  split; [done|]. apply list_eq. intros i.
  pose proof (length_contents g Hwf) as HL. pose proof (length_contents g' Hwf') as HL'. simpl in HL'.
  unfold zlen in Hl.
  destruct (decide (Z.of_nat i < size g)) as [Hi|Hi].
  - rewrite lookup_app_l by lia. rewrite !contents_lookup by (done || simpl; lia). simpl.
    rewrite list_lookup_insert_ne; [done|]. rewrite Hh', Hpos. intros Heq.
    pose proof (Z.mod_pos_bound (tail g + size g) (maxsize g) Hm).
    pose proof (Z.mod_pos_bound (tail g + Z.of_nat i) (maxsize g) Hm).
    assert (Hmod : (size g - (- tail g)) mod maxsize g = (Z.of_nat i - (- tail g)) mod maxsize g).
    { replace (size g - - tail g) with (tail g + size g) by lia.
      replace (Z.of_nat i - - tail g) with (tail g + Z.of_nat i) by lia. lia. }
    apply sub_mod_inj in Hmod; lia.
  - destruct (decide (Z.of_nat i = size g)) as [Hi'|Hi'].
    + rewrite contents_lookup by (done || simpl; lia). simpl.
      rewrite lookup_app_r by lia. replace (i - length (contents g))%nat with 0%nat by lia.
      rewrite Hh', Hpos, Hi', list_lookup_insert_eq; [done|].
      pose proof (Z.mod_pos_bound (tail g + size g) (maxsize g) Hm). lia.
    + rewrite !lookup_ge_None_2; rewrite ?length_app; simpl; lia || done.
Qed.

(** [time_average_add] never faults on a well-formed average: it drops the
    measures that are too old and appends the new one. *)
Lemma add_spec t now v :
  wf t ->
  exists t' old kept, time_average_add t now v = Ok t' /\ wf t' /\ duration t' = duration t
    /\ contents (r t) = old ++ kept
    /\ contents (r t') = kept ++ [{| time := now; value := v |}]
    /\ Forall (fun x => time x < u64 (now - duration t)) old
    /\ (forall x q, kept = x :: q -> u64 (now - duration t) <= time x).
Proof.
  intros Hwf. unfold time_average_add, remove_old.
  destruct (remove_old_loop_spec _ t now Hwf (Nat.le_refl _))
    as (t1 & E1 & [Hw1 Ha1] & Hd1 & Hm1 & old & Ho & Hf & Hfr).
  rewrite E1, res_bind_unfold.
  assert (exists g, (if size (r t1) =? maxsize (r t1) then grow (r t1) else mret (r t1)) = Ok g
    /\ ring_wf g /\ contents g = contents (r t1) /\ size g < maxsize g)
    as (g & Eg & Hwg & Hcg & Hsg).
  { destruct (Z.eqb_spec (size (r t1)) (maxsize (r t1))) as [Heq|Hne].
    - destruct (grow_spec _ Hw1 Heq) as (g & Eg & Hwg & Hcg & Hs & Hm).
      pose proof (rwf_max _ Hw1). exists g. split_and!; try done. lia.
    - exists (r t1). pose proof (rwf_size _ Hw1). split_and!; try done. lia. }
  rewrite Eg, res_bind_unfold.
  destruct (push_spec g {| time := now; value := v |} Hwg Hsg) as (b & Eb & Hwg' & Hc').
  rewrite Eb, res_bind_unfold. eexists _, old, (contents (r t1)).
  split; [reflexivity|]. simpl. split_and!; try done.
  - split; [done|]. simpl. rewrite Hc', zsum_app, zsum_cons, zsum_nil, Hcg, Ha1. simpl.
    unfold u64. rewrite Zplus_mod_idemp_l. f_equal. lia.
  - by rewrite Hc', Hcg.
Qed.

(** The measures that are not too old are averaged. *)
Lemma get_average_full t now :
  wf t ->
  exists num den t' old, time_average_get_average t now = Ok (num, den, t') /\ wf t'
    /\ duration t' = duration t /\ contents (r t) = old ++ contents (r t')
    /\ Forall (fun x => time x < u64 (now - duration t)) old
    /\ (forall x q, contents (r t') = x :: q -> u64 (now - duration t) <= time x)
    /\ match contents (r t') with
       | [] => num = 0 /\ den = 1
       | l => num = u64 (zsum value l) /\ den = zlen l
       end.
Proof.
  intros Hwf. unfold time_average_get_average, remove_old.
  destruct (remove_old_loop_spec (Z.to_nat (size (r t))) t now Hwf)
    as (t' & -> & Hwf' & Hd & _ & old & Hc & Hold & Hkept); [lia|].
  rewrite res_bind_unfold. pose proof (length_contents _ (proj1 Hwf')) as Hl.
  destruct (Z.eqb_spec (size (r t')) 0) as [E0|E0].
  - exists 0, 1, t', old. split; [done|]. split_and!; try done.
    by destruct (contents (r t')); [|simpl in Hl; lia].
  - eexists _, _, t', old. split; [done|]. split_and!; try done.
    destruct (contents (r t')) as [|x l] eqn:Ec; [simpl in Hl; lia|].
    split; [|unfold zlen; by rewrite Hl]. rewrite <- Ec. apply Hwf'.
Qed.

Lemma get_average_spec t now :
  wf t -> exists num den t', time_average_get_average t now = Ok (num, den, t') /\ wf t'.
Proof.
  intros Hwf. destruct (get_average_full t now Hwf) as (num & den & t' & old & E & Hwf' & _). eauto.
Qed.

End TimeStat.
