(* ===== verification/Queue.v ===== *)
(** * The queues between PDCP and RLC

    Models the two bounded queues of
    [openair2/LAYER2/nr_pdcp/nr_pdcp_oai_api.c]: [q] ([enqueue_rlc_data_req] and
    [rlc_data_req_thread]) and [pq] ([enqueue_pdcp_data_ind] and
    [pdcp_data_ind_thread]).  The two have the same code over different items, so
    the model takes the item and the number of slots as parameters.

    A producer runs under the mutex of the queue; the consumer reads the index of
    the first item under the mutex, handles the item without it, and takes the
    mutex again to remove the item.  A thread that cannot go on calls
    [pthread_cond_wait] on the one condition variable of the queue and sleeps until
    [pthread_cond_signal] wakes it (or until it wakes spuriously, which POSIX
    allows), and then tests its condition again.  Each critical section is one step,
    so the step relation has every interleaving of the threads. *)

From S2P Require Import Prelude.

Module Queue.

(** [RLC_DATA_REQ_QUEUE_SIZE] and [PDCP_DATA_IND_QUEUE_SIZE]. *)
Definition RLC_DATA_REQ_QUEUE_SIZE : Z := 10000.
Definition PDCP_DATA_IND_QUEUE_SIZE : Z := 10000.

Section queue.
Context {item : Type} (SIZE : Z).

(** [rlc_data_req_queue] and [pdcp_data_ind_queue]. *)
Record t := mk_queue {
  slots : list item;
  start : Z;
  length : Z
}.

(** The static queue: all bytes are zero. *)
Definition zeroed (zero : item) : t := mk_queue (replicate (Z.to_nat SIZE) zero) 0 0.

(** [while (q.length == SIZE) pthread_cond_wait(...)]: the producer waits. *)
Definition full (q : t) : bool := length q =? SIZE.

(** The body of [enqueue_rlc_data_req] and [enqueue_pdcp_data_ind] after the wait. *)
Definition enqueue (q : t) (x : item) : res t :=
  let i := (start q + length q) mod SIZE in
  s ← zset (slots q) i x;
  mret (mk_queue s (start q) (length q + 1)).

(** [while (q.length == 0) pthread_cond_wait(...)]: the consumer waits. *)
Definition empty (q : t) : bool := length q =? 0.

(** The item the consumer hands to the next layer, [q.q[i]]. *)
Definition handled_item (q : t) (i : Z) : res item := zget (slots q) i.

(** [q.length--; q.start = (q.start + 1) % SIZE]. *)
Definition advance (q : t) : t :=
  mk_queue (slots q) ((start q + 1) mod SIZE) (length q - 1).

(** Where the consumer thread is: about to take the mutex and to test the length,
    asleep in [pthread_cond_wait], between the reading of [i] and the call, or between
    the call and the removal. *)
Inductive consumer :=
| Waiting
| Asleep
| Claimed (i : Z)
| Handled.

(** Where a producer thread is: outside, about to take the mutex and to test the
    length with an item to put in, or asleep in [pthread_cond_wait]. *)
Inductive producer :=
| Idle
| Ready (x : item)
| Sleeping (x : item).

Record state := mk_state {
  queue : t;
  cons : consumer;
  prods : list producer
}.

(** [pthread_cond_signal]: one of the sleepers wakes, no matter which; without a
    sleeper the signal is lost. *)
Inductive signal : consumer * list producer -> consumer * list producer -> Prop :=
| signal_consumer ps : signal (Asleep, ps) (Waiting, ps)
| signal_producer c ps p x :
    ps !! p = Some (Sleeping x) -> signal (c, ps) (c, <[p := Ready x]> ps)
| signal_nobody c ps :
    c <> Asleep -> (forall p x, ps !! p <> Some (Sleeping x)) -> signal (c, ps) (c, ps).

Inductive label :=
| Call (p : nat) (x : item)
| Enqueue (p : nat) (x : item)
| Sleep (p : nat)
| ConsumerSleep
| Claim
| Handle (x : item)
| Advance
| Spurious (p : nat)
| ConsumerSpurious.

Inductive step : state -> label -> state -> Prop :=
| step_call q c ps p x :
    ps !! p = Some Idle -> step (mk_state q c ps) (Call p x) (mk_state q c (<[p := Ready x]> ps))
| step_enqueue q c ps p x q' c' ps' :
    ps !! p = Some (Ready x) -> full q = false -> enqueue q x = Ok q' ->
    signal (c, <[p := Idle]> ps) (c', ps') ->
    step (mk_state q c ps) (Enqueue p x) (mk_state q' c' ps')
| step_sleep q c ps p x :
    ps !! p = Some (Ready x) -> full q = true ->
    step (mk_state q c ps) (Sleep p) (mk_state q c (<[p := Sleeping x]> ps))
| step_consumer_sleep q ps :
    empty q = true -> step (mk_state q Waiting ps) ConsumerSleep (mk_state q Asleep ps)
| step_claim q ps :
    empty q = false -> step (mk_state q Waiting ps) Claim (mk_state q (Claimed (start q)) ps)
| step_handle q ps i x :
    handled_item q i = Ok x -> step (mk_state q (Claimed i) ps) (Handle x) (mk_state q Handled ps)
| step_advance q ps c' ps' :
    signal (Waiting, ps) (c', ps') ->
    step (mk_state q Handled ps) Advance (mk_state (advance q) c' ps')
| step_spurious q c ps p x :
    ps !! p = Some (Sleeping x) ->
    step (mk_state q c ps) (Spurious p) (mk_state q c (<[p := Ready x]> ps))
| step_consumer_spurious q ps :
    step (mk_state q Asleep ps) ConsumerSpurious (mk_state q Waiting ps).

(** After [init_nr_rlc_data_req_queue], with [n] threads that may call
    [enqueue_rlc_data_req]. *)
Definition initial (zero : item) (n : nat) : state :=
  mk_state (zeroed zero) Waiting (replicate n Idle).

Inductive run : state -> list label -> state -> Prop :=
| run_nil s : run s [] s
| run_snoc s tr s' l s'' : run s tr s' -> step s' l s'' -> run s (tr ++ [l]) s''.

Definition enqueued_by (l : label) : list item := match l with Enqueue _ x => [x] | _ => [] end.
Definition handled_by (l : label) : list item := match l with Handle x => [x] | _ => [] end.
Definition enqueued (tr : list label) : list item := tr ≫= enqueued_by.
Definition handled (tr : list label) : list item := tr ≫= handled_by.

(** The steps of the consumer thread while it is awake. *)
Definition of_consumer (l : label) : bool :=
  match l with Claim | Handle _ | Advance => true | _ => false end.

(** ** The abstract queue *)

Definition position (q : t) (k : Z) : Z := (start q + k) mod SIZE.

(** [l] is the content of the queue: slot [start + k] holds its [k]-th item. *)
Record holds (q : t) (l : list item) : Prop := {
  holds_slots : zlen (slots q) = SIZE;
  holds_start : 0 <= start q < SIZE;
  holds_length : length q = zlen l;
  holds_bound : zlen l <= SIZE;
  holds_items k : 0 <= k < zlen l -> slots q !! Z.to_nat (position q k) = l !! Z.to_nat k
}.

(** The consumer, in a state with content [l] of which [out] is not yet handled. *)
Definition claims (q : t) (c : consumer) (l out : list item) : Prop :=
  match c with
  | Waiting | Asleep => out = l
  | Claimed i => i = start q /\ out = l /\ l <> []
  | Handled => exists x, l = x :: out
  end.

Definition asleep (p : producer) : Z := match p with Sleeping _ => 1 | _ => 0 end.
Fixpoint sleepers (ps : list producer) : Z :=
  match ps with [] => 0 | p :: ps => asleep p + sleepers ps end.

(** No wake-up is lost: there are no more producers asleep than items, so that the
    [pthread_cond_signal] of each removal wakes one of them in time, and the consumer
    sleeps only while the queue is empty. *)
Record simulates (s : state) (out : list item) : Prop := {
  sim_content : exists l, holds (queue s) l /\ claims (queue s) (cons s) l out;
  sim_producers : sleepers (prods s) <= length (queue s);
  sim_consumer : cons s = Asleep -> length (queue s) = 0;
  sim_threads : zlen (prods s) <= SIZE
}.

Hypothesis SIZE_pos : 0 < SIZE.

Lemma zeroed_holds zero : holds (zeroed zero) [].
Proof.
  assert (E : zlen (replicate (Z.to_nat SIZE) zero) = SIZE)
    by (unfold zlen; rewrite length_replicate; lia).
  split; unfold zeroed; cbn [slots start length]; change (@zlen item []) with 0; intros; lia.
Qed.

(** The slots of two different places of the queue are different. *)
Lemma position_inj q j k : 0 <= j < SIZE -> 0 <= k < SIZE -> position q j = position q k -> j = k.
Proof.
  unfold position. intros Hj Hk E.
  assert (D : (j - k) mod SIZE = 0).
  { replace (j - k) with (start q + j - (start q + k)) by lia. rewrite Zminus_mod, E, Z.sub_diag. done. }
  apply Z.mod_divide in D as [z D]; [|lia]. assert (z = 0) by nia. lia.
Qed.

Lemma other_slot q j k : 0 <= j < k -> k < SIZE ->
  Z.to_nat (position q k) <> Z.to_nat (position q j).
Proof.
  intros Hj Hk E. assert (D : k = j); [|lia]. apply (position_inj q); [lia|lia|].
  apply Z2Nat.inj; [apply Z.mod_pos_bound; lia..|done].
Qed.

Lemma enqueue_holds q l x : holds q l -> full q = false ->
  exists q', enqueue q x = Ok q' /\ holds q' (l ++ [x]) /\ start q' = start q.
Proof.
  intros [Hs Hst Hlen Hb Hi] Hf. unfold full in Hf. apply Z.eqb_neq in Hf.
  pose proof (Z.mod_pos_bound (start q + length q) SIZE SIZE_pos).
  unfold enqueue. rewrite zset_ok by lia. eexists. split; [done|]. split; [|done].
  split; cbn; rewrite ?zlen_insert, ?zlen_app, ?zlen_cons; change (@zlen item []) with 0; try lia.
  intros k Hk. unfold position. cbn. destruct (decide (k = zlen l)) as [->|Hne].
  - rewrite Hlen in *. rewrite list_lookup_insert_eq by (unfold zlen in *; lia).
    rewrite lookup_app_r by (unfold zlen; lia). unfold zlen. by rewrite Nat2Z.id, Nat.sub_diag.
  - rewrite list_lookup_insert_ne by (apply (other_slot q); lia).
    rewrite lookup_app_l by (unfold zlen in *; lia). apply Hi. lia.
Qed.

Lemma advance_holds q x l : holds q (x :: l) -> holds (advance q) l.
Proof.
  intros [Hs Hst Hlen Hb Hi]. rewrite zlen_cons in *. pose proof (zlen_nonneg l).
  split; cbn; try lia; [apply Z.mod_pos_bound; lia|].
  intros k Hk. unfold position. cbn. rewrite Zplus_mod_idemp_l, <- Z.add_assoc, (Z.add_comm 1).
  change ((start q + (k + 1)) mod SIZE) with (position q (k + 1)). rewrite Hi by lia.
  by rewrite Z2Nat.inj_add, Nat.add_comm by lia.
Qed.

Lemma first_item q x l : holds q (x :: l) -> handled_item q (start q) = Ok x.
Proof.
  intros [Hs Hst Hlen Hb Hi]. rewrite zlen_cons in *. pose proof (zlen_nonneg l).
  apply zget_ok. split; [lia|]. specialize (Hi 0 ltac:(lia)). unfold position in Hi.
  rewrite Z.add_0_r, Z.mod_small in Hi by lia. done.
Qed.

(** *** The sleepers *)

Lemma sleepers_bound ps : 0 <= sleepers ps <= zlen ps.
Proof.
  induction ps as [|p ps IH]; [change (@zlen producer []) with 0; cbn; lia|].
  rewrite zlen_cons. cbn. destruct p; cbn; lia.
Qed.

Lemma sleepers_insert ps p a b : ps !! p = Some a ->
  sleepers (<[p := b]> ps) = sleepers ps - asleep a + asleep b.
Proof.
  revert p. induction ps as [|c ps IH]; intros [|p] E; [done|done| |].
  - injection E as ->. cbn. lia.
  - change (asleep c + sleepers (<[p := b]> ps) = asleep c + sleepers ps - asleep a + asleep b).
    rewrite (IH p E). lia.
Qed.

Lemma sleepers_pos ps p x : ps !! p = Some (Sleeping x) -> 1 <= sleepers ps.
Proof.
  intros E. pose proof (sleepers_insert ps p _ Idle E) as H. cbn in H.
  pose proof (sleepers_bound (<[p := Idle]> ps)). lia.
Qed.

Lemma sleepers_room ps p x : ps !! p = Some (Ready x) -> sleepers ps + 1 <= zlen ps.
Proof.
  intros E. pose proof (sleepers_insert ps p _ (Sleeping x) E) as H. cbn in H.
  pose proof (sleepers_bound (<[p := Sleeping x]> ps)) as B. rewrite zlen_insert in B. lia.
Qed.

Lemma sleepers_replicate n : sleepers (replicate n Idle) = 0.
Proof. induction n as [|n IH]; [done|]. cbn. by rewrite IH. Qed.

(** A signal wakes one sleeper when there is one. *)
Lemma signal_ok c ps c' ps' : signal (c, ps) (c', ps') ->
  zlen ps' = zlen ps /\
  ((c = Asleep /\ c' = Waiting /\ sleepers ps' = sleepers ps) \/
   (c' = c /\ 1 <= sleepers ps /\ sleepers ps' = sleepers ps - 1) \/
   (c' = c /\ c <> Asleep /\ sleepers ps' = 0)).
Proof.
  inversion 1 as [?|? ? p x E|? ? Hc Hn]; subst.
  - split; [done|]. by left.
  - split; [apply zlen_insert|]. right; left. pose proof (sleepers_pos _ _ _ E).
    rewrite (sleepers_insert _ _ _ _ E). cbn. split_and!; [done|lia|lia].
  - split; [done|]. right; right. split_and!; [done|done|].
    clear H Hc. induction ps' as [|p ps IH]; [done|]. cbn. rewrite IH by (intros k; apply (Hn (S k))).
    destruct p as [| |x]; [done|done|]. by destruct (Hn 0%nat x).
Qed.

(** Some signal is always possible. *)
Lemma signal_total c ps : exists c' ps', signal (c, ps) (c', ps').
Proof.
  assert (D : (exists p x, ps !! p = Some (Sleeping x)) \/ forall p x, ps !! p <> Some (Sleeping x)).
  { induction ps as [|q ps IH]; [by right|]. destruct q as [|y|y].
    3: by left; exists 0%nat, y.
    all: destruct IH as [(p & x & E)|Hn]; [left; by exists (S p), x|right; intros [|p]; [done|apply Hn]]. }
  destruct D as [(p & x & E)|Hn]; [by eexists _, _; eapply signal_producer|].
  destruct (match c with Asleep => true | _ => false end) eqn:Ec; destruct c; try done;
    [eexists _, _; apply signal_consumer|eexists _, _; by apply signal_nobody..].
Qed.

(** ** The simulation *)

(** The consumer keeps its claim when an item is put in behind it. *)
Lemma claims_enqueue q q' c l out x : claims q c l out -> start q' = start q ->
  claims q' c (l ++ [x]) (out ++ [x]).
Proof.
  destruct c as [| |i|]; cbn; intros H Es; [by subst|by subst| |by destruct H as (y & ->); exists y].
  destruct H as (-> & -> & Hne). split_and!; [done|done|]. by destruct l.
Qed.

Lemma claims_woken q c c' l out : claims q c l out -> c' = c \/ (c = Asleep /\ c' = Waiting) ->
  claims q c' l out.
Proof. by intros H [->|(-> & ->)]. Qed.

Lemma enqueue_length q x q' : enqueue q x = Ok q' -> length q' = length q + 1.
Proof.
  unfold enqueue. destruct (zset _ _ _) as [s|f]; [|done]. cbn. intros [= <-]. done.
Qed.

(** Every step is a step of a first-in first-out list. *)
Lemma step_simulates s l s' out : step s l s' -> simulates s out ->
  exists out', simulates s' out' /\ out ++ enqueued_by l = handled_by l ++ out'.
Proof.
  intros Hst [(c & Hh & Hc) Hp Hcs Ht].
  destruct Hst as [q k ps p x Ep|q k ps p x q' k' ps' Ep Hf E Hsig|q k ps p x Ep Hf|q ps He|q ps He
    |q ps i x E|q ps k' ps' Hsig|q k ps p x Ep|q ps]; cbn in *.
  - exists out. split; [|by rewrite app_nil_r].
    split; cbn; [by exists c|rewrite (sleepers_insert _ _ _ _ Ep); cbn; lia|done|by rewrite zlen_insert].
  - destruct (enqueue_holds q c x Hh Hf) as (q2 & E2 & Hh2 & Es). rewrite E in E2. injection E2 as <-.
    pose proof (enqueue_length _ _ _ E) as El. pose proof (sleepers_insert _ _ _ Idle Ep) as Ei. cbn in Ei.
    apply signal_ok in Hsig as (Ez & Hk). rewrite zlen_insert in Ez. pose proof (sleepers_bound ps).
    exists (out ++ [x]). split; [|done]. split; cbn; [|lia| |lia].
    + exists (c ++ [x]). split; [done|]. eapply claims_woken; [by eapply claims_enqueue|]. naive_solver.
    + intros ->. destruct Hk as [(_ & ? & _)|[(Ek & Hpos & _)|(Ek & Hne & _)]]; [done| |by destruct Hne].
      specialize (Hcs (eq_sym Ek)). lia.
  - exists out. split; [|by rewrite app_nil_r]. pose proof (sleepers_room _ _ _ Ep).
    unfold full in Hf. apply Z.eqb_eq in Hf.
    split; cbn; [by exists c|rewrite (sleepers_insert _ _ _ _ Ep); cbn; lia|done|by rewrite zlen_insert].
  - exists out. split; [|by rewrite app_nil_r]. split; cbn; [by exists c|done| |done].
    intros _. unfold empty in He. by apply Z.eqb_eq.
  - subst out. exists c. split; [|by rewrite app_nil_r]. split; cbn; [|done|done|done].
    exists c. split; [done|]. cbn. split_and!; [done|done|]. intros ->.
    pose proof (holds_length _ _ Hh) as Hl. unfold empty in He. rewrite Hl in He. done.
  - destruct Hc as (-> & -> & Hne). destruct c as [|y c]; [done|].
    rewrite (first_item q y c Hh) in E. injection E as ->.
    exists c. split; [|by rewrite app_nil_r]. split; cbn; [|done|done|done].
    exists (x :: c). split; [done|]. by exists x.
  - destruct Hc as (y & ->). exists out. split; [|by rewrite app_nil_r].
    pose proof (holds_length _ _ Hh) as Hl. rewrite zlen_cons in Hl. pose proof (zlen_nonneg out).
    apply signal_ok in Hsig as (Ez & Hk).
    assert (k' = Waiting /\ sleepers ps' <= zlen out) as (-> & Hle)
      by (destruct Hk as [(? & _)|[(-> & _ & ?)|(-> & _ & ?)]]; [done|split; [done|lia]..]).
    split; cbn; [|lia|done|lia]. exists out. split; [by eapply advance_holds|done].
  - exists out. split; [|by rewrite app_nil_r].
    split; cbn; [by exists c|rewrite (sleepers_insert _ _ _ _ Ep); cbn; lia|done|by rewrite zlen_insert].
  - exists out. split; [|by rewrite app_nil_r]. split; cbn; [by exists c|done|done|done].
Qed.

Lemma run_simulates s tr s' out : run s tr s' -> simulates s out ->
  exists out', simulates s' out' /\ out ++ enqueued tr = handled tr ++ out'.
Proof.
  induction 1 as [s|s tr s1 l s2 Hr IH Hs]; intros Hsim.
  { exists out. split; [done|]. by rewrite app_nil_r. }
  destruct (IH Hsim) as (o1 & H1 & E1). destruct (step_simulates _ _ _ _ Hs H1) as (o2 & H2 & E2).
  exists o2. split; [done|]. unfold enqueued, handled in *. rewrite !bind_app. cbn.
  rewrite !app_nil_r, app_assoc, E1, <- !app_assoc. by f_equal.
Qed.

Lemma initial_simulates zero n : Z.of_nat n <= SIZE -> simulates (initial zero n) [].
Proof.
  intros Hn. split; cbn.
  - exists []. split; [apply zeroed_holds|done].
  - by rewrite sleepers_replicate.
  - done.
  - unfold zlen. by rewrite length_replicate.
Qed.

Lemma simulates_bound s out : simulates s out -> zlen out <= length (queue s) <= SIZE.
Proof.
  intros [(l & Hh & Hc) _ _ _]. pose proof (holds_bound _ _ Hh). pose proof (holds_length _ _ Hh).
  pose proof (zlen_nonneg out). destruct (cons s) as [| |i|]; cbn in Hc; [subst; lia..| |].
  - destruct Hc as (_ & -> & _). lia.
  - destruct Hc as (x & ->). rewrite zlen_cons in *. lia.
Qed.

(** ** Progress *)

Lemma run_cons s l s1 tr s2 : step s l s1 -> run s1 tr s2 -> run s (l :: tr) s2.
Proof.
  intros Hs Hr. revert Hs. induction Hr as [s1|s1 tr s2 l' s3 Hr IH Hs']; intros Hs.
  - apply (run_snoc s [] s l s1); [apply run_nil|done].
  - change (l :: tr ++ [l']) with ((l :: tr) ++ [l']). eapply run_snoc; [by apply IH|done].
Qed.

(** A thread with an item takes a step of its own, and puts the item in when there is room. *)
Lemma producer_step s out p x : simulates s out -> prods s !! p = Some (Ready x) ->
  exists s', step s (if full (queue s) then Sleep p else Enqueue p x) s'.
Proof.
  intros [(l & Hh & _) _ _ _] Ep. destruct s as [q c ps]. cbn in *. destruct (full q) eqn:Ef.
  - eexists. by eapply step_sleep.
  - destruct (enqueue_holds q l x Hh Ef) as (q' & E & _).
    destruct (signal_total c (<[p := Idle]> ps)) as (c' & ps' & Hs). eexists. by eapply step_enqueue.
Qed.

(** A step of the consumer that has something to do; three of them for an item. *)
Definition work (s : state) : nat :=
  match cons s with
  | Waiting | Asleep => 3 * Z.to_nat (length (queue s))
  | Claimed _ => 3 * Z.to_nat (length (queue s)) - 1
  | Handled => 3 * Z.to_nat (length (queue s)) - 2
  end.

Lemma consumer_step s out : simulates s out -> 0 < length (queue s) ->
  exists l s', step s l s' /\ of_consumer l = true /\ (work s' < work s)%nat.
Proof.
  intros [(l & Hh & Hc) Hp Hcs Ht] Hpos. destruct s as [q c ps]. cbn in *.
  unfold work. destruct c as [| |i|]; cbn in *.
  - exists Claim. eexists. split; [apply step_claim|split; [done|cbn; lia]].
    unfold empty. zcases; lia.
  - specialize (Hcs eq_refl). lia.
  - destruct Hc as (-> & -> & Hne). destruct l as [|x l]; [done|].
    exists (Handle x). eexists. split; [apply step_handle; by eapply first_item|split; [done|cbn; lia]].
  - destruct (signal_total Waiting ps) as (c' & ps' & Hs). exists Advance. eexists.
    split; [by apply step_advance|split; [done|]]. apply signal_ok in Hs as (_ & Hk).
    assert (c' = Waiting) as -> by naive_solver. cbn. lia.
Qed.

(** The consumer alone empties the queue, and wakes every producer that sleeps. *)
Lemma drain s out : simulates s out ->
  exists tr s', run s tr s' /\ forallb of_consumer tr = true /\ handled tr = out /\
    length (queue s') = 0 /\ forall p x, prods s' !! p <> Some (Sleeping x).
Proof.
  remember (work s) as n eqn:En. revert s out En.
  induction (lt_wf n) as [n _ IH]. intros s out -> Hsim.
  pose proof (simulates_bound _ _ Hsim) as Hb. pose proof (zlen_nonneg out).
  destruct (decide (length (queue s) = 0)) as [E0|Hne].
  - assert (out = []) as ->
      by (destruct out; [done|rewrite zlen_cons in *; pose proof (zlen_nonneg out); lia]).
    exists [], s. split_and!; [apply run_nil|done|done|done|].
    intros p x E. apply sleepers_pos in E. pose proof (sim_producers _ _ Hsim). lia.
  - destruct (consumer_step s out Hsim) as (l & s1 & Hs & Hl & Hw); [lia|].
    destruct (step_simulates _ _ _ _ Hs Hsim) as (o1 & H1 & E1).
    destruct (IH _ Hw s1 o1 eq_refl H1) as (tr & s2 & Hr & Hf & Eh & E0 & Hn).
    exists (l :: tr), s2. split_and!; [by eapply run_cons|cbn; by rewrite Hl| |done|done].
    unfold handled in *. cbn. rewrite Eh, <- E1. destruct l; try done; cbn; by rewrite app_nil_r.
Qed.
End queue.

Arguments t : clear implicits.
Arguments label : clear implicits.
Arguments producer : clear implicits.
Arguments state : clear implicits.

(** With more producers than slots a wake-up can be lost: two producers sleep on a
    queue of one slot, the one that the consumer wakes fills the slot again, and its
    signal wakes the other producer instead of the consumer.  All threads sleep. *)
Definition stuck : state Z :=
  mk_state (mk_queue [3] 0 1) Asleep [Sleeping 4; Sleeping 2].

Example one_slot_deadlock :
  exists tr, run 1 (initial 1 0 2) tr stuck.
Proof.
  exists [Call 0 1; Enqueue 0 1; Call 1 2; Sleep 1; Call 0 3; Sleep 0; Claim; Handle 1; Advance;
    ConsumerSleep; Enqueue 0 3; Sleep 1; Call 0 4; Sleep 0].
  unfold initial, zeroed, stuck.
  eapply run_cons; [by apply step_call|].
  eapply run_cons; [eapply step_enqueue; [done..|by apply signal_nobody; [|intros [|[|?]]]]|].
  eapply run_cons; [by apply step_call|].
  eapply run_cons; [by eapply step_sleep|].
  eapply run_cons; [by apply step_call|].
  eapply run_cons; [by eapply step_sleep|].
  eapply run_cons; [by apply step_claim|].
  eapply run_cons; [by apply step_handle|].
  eapply run_cons; [apply step_advance; by apply (signal_producer _ _ 0%nat 3)|].
  eapply run_cons; [by apply step_consumer_sleep|].
  eapply run_cons; [eapply step_enqueue; [done..|by apply (signal_producer _ _ 1%nat 2)]|].
  eapply run_cons; [by eapply step_sleep|].
  eapply run_cons; [by apply step_call|].
  eapply run_cons; [by eapply step_sleep|].
  apply run_nil.
Qed.

End Queue.
