(* ===== verification/Hashtable.v ===== *)
(** * Hash tables

    Models [common/utils/hashtable/hashtable.c]: a chained hash table with integer
    keys.  A chain is the list of its nodes, most recent first; a table is [None]
    where the C code has a null pointer.  The data that an operation gives to
    [freefunc] is part of its result. *)

From S2P Require Import Prelude.

Module Hashtable.

(** [hashtable_rc_t], the codes that are returned. *)
Inductive hashtable_rc_t :=
| HASH_TABLE_OK
| HASH_TABLE_INSERT_OVERWRITTEN_DATA
| HASH_TABLE_KEY_NOT_EXISTS
| HASH_TABLE_BAD_PARAMETER_HASHTABLE.

#[export] Instance rc_eq_dec : EqDecision hashtable_rc_t.
Proof. solve_decision. Defined.

(** [(hash_size_t)keyP]: both types have 64 bits. *)
Definition def_hashfunc (keyP : Z) : Z := u64 keyP.

Section table.
Context {A : Type}.

(** [hash_node_t] without [next]: a chain is a list. *)
Record hash_node_t := mk_node { key : Z; data : A }.

(** [hash_table_t]. *)
Record t := mk_table {
  size : Z;
  nodes : list (list hash_node_t);
  hashfunc : Z -> Z
}.

Definition hashtable_create (sizeP : Z) (hashfuncP : option (Z -> Z)) : t :=
  mk_table sizeP (replicate (Z.to_nat sizeP) []) (default def_hashfunc hashfuncP).

(** The data freed, in the order of the walk, and the return code. *)
Definition hashtable_destroy (h : option t) : option t * list A * hashtable_rc_t :=
  match h with
  | None => (None, [], HASH_TABLE_BAD_PARAMETER_HASHTABLE)
  | Some h => (None, map data (concat (nodes h)), HASH_TABLE_OK)
  end.

(** [hashfunc(keyP) % size]. *)
Definition hash (h : t) (k : Z) : Z := hashfunc h k mod size h.

(** The loop [while (node)] of the searching functions. *)
Fixpoint search (k : Z) (chain : list hash_node_t) : option A :=
  match chain with
  | [] => None
  | n :: next => if key n =? k then Some (data n) else search k next
  end.

Definition hashtable_is_key_exists (h : option t) (k : Z) : res hashtable_rc_t :=
  match h with
  | None => mret HASH_TABLE_BAD_PARAMETER_HASHTABLE
  | Some h =>
      chain ← zget (nodes h) (hash h k);
      mret (match search k chain with
            | Some _ => HASH_TABLE_OK
            | None => HASH_TABLE_KEY_NOT_EXISTS
            end)
  end.

Definition hashtable_get (h : option t) (k : Z) : res (option A * hashtable_rc_t) :=
  match h with
  | None => mret (None, HASH_TABLE_BAD_PARAMETER_HASHTABLE)
  | Some h =>
      chain ← zget (nodes h) (hash h k);
      mret (match search k chain with
            | Some d => (Some d, HASH_TABLE_OK)
            | None => (None, HASH_TABLE_KEY_NOT_EXISTS)
            end)
  end.

(** The loop of [hashtable_insert]: the node of [k], if there is one, gets the new
    data and the old data is freed. *)
Fixpoint overwrite (k : Z) (d : A) (chain : list hash_node_t) : option (list hash_node_t * A) :=
  match chain with
  | [] => None
  | n :: next =>
      if key n =? k then Some (mk_node k d :: next, data n)
      else match overwrite k d next with
           | Some (next', old) => Some (n :: next', old)
           | None => None
           end
  end.

Definition hashtable_insert (h : option t) (k : Z) (d : A) : res (option t * list A * hashtable_rc_t) :=
  match h with
  | None => mret (None, [], HASH_TABLE_BAD_PARAMETER_HASHTABLE)
  | Some h =>
      chain ← zget (nodes h) (hash h k);
      match overwrite k d chain with
      | Some (chain', old) =>
          ns ← zset (nodes h) (hash h k) chain';
          mret (Some {| h with nodes := ns |}, [old], HASH_TABLE_INSERT_OVERWRITTEN_DATA)
      | None =>
          ns ← zset (nodes h) (hash h k) (mk_node k d :: chain);
          mret (Some {| h with nodes := ns |}, [], HASH_TABLE_OK)
      end
  end.

(** The loop of [hashtable_remove]: the node of [k] is unlinked. *)
Fixpoint unlink (k : Z) (chain : list hash_node_t) : option (list hash_node_t * A) :=
  match chain with
  | [] => None
  | n :: next =>
      if key n =? k then Some (next, data n)
      else match unlink k next with
           | Some (next', old) => Some (n :: next', old)
           | None => None
           end
  end.

Definition hashtable_remove (h : option t) (k : Z) : res (option t * list A * hashtable_rc_t) :=
  match h with
  | None => mret (None, [], HASH_TABLE_BAD_PARAMETER_HASHTABLE)
  | Some h =>
      chain ← zget (nodes h) (hash h k);
      match unlink k chain with
      | Some (chain', old) =>
          ns ← zset (nodes h) (hash h k) chain';
          mret (Some {| h with nodes := ns |}, [old], HASH_TABLE_OK)
      | None => mret (Some h, [], HASH_TABLE_KEY_NOT_EXISTS)
      end
  end.

(** [hash_table_iterator_s]; [node] is the rest of the current chain. *)
Record iterator := mk_iterator { index : Z; node : list hash_node_t }.

Definition hashtable_get_iterator (h : t) : res iterator :=
  chain ← zget (nodes h) 0; mret (mk_iterator 0 chain).

(** The loop over the indexes; it ends because [index] grows up to [size]. *)
Fixpoint next_chain (fuel : nat) (h : t) (it : iterator) : res (option (hash_node_t * iterator) * iterator) :=
  match node it with
  | n :: next => mret (Some (n, mk_iterator (index it) next), it)
  | [] =>
      if index it + 1 >=? size h then mret (None, mk_iterator (index it + 1) [])
      else match fuel with
           | O => Fault NoFuel
           | S fuel => chain ← zget (nodes h) (index it + 1);
                       next_chain fuel h (mk_iterator (index it + 1) chain)
           end
  end.

Definition hashtable_iterator_getnext (h : t) (it : iterator) : res (option A * iterator) :=
  '(r, it') ← next_chain (Z.to_nat (size h)) h it;
  mret (match r with
        | Some (n, it'') => (Some (data n), it'')
        | None => (None, it')
        end).

(** ** Sequences of calls *)

Inductive op :=
| Exists (k : Z)
| Get (k : Z)
| Insert (k : Z) (d : A)
| Remove (k : Z).

(** The data returned, the data freed and the return code of a call. *)
Record outcome := mk_outcome { got : option A; freed : list A; rc : hashtable_rc_t }.

Definition call (h : option t) (o : op) : res (option t * outcome) :=
  match o with
  | Exists k => r ← hashtable_is_key_exists h k; mret (h, mk_outcome None [] r)
  | Get k => '(d, r) ← hashtable_get h k; mret (h, mk_outcome d [] r)
  | Insert k d => '(h, f, r) ← hashtable_insert h k d; mret (h, mk_outcome None f r)
  | Remove k => '(h, f, r) ← hashtable_remove h k; mret (h, mk_outcome None f r)
  end.

Fixpoint calls (h : option t) (os : list op) : res (option t * list outcome) :=
  match os with
  | [] => mret (h, [])
  | o :: os => '(h, x) ← call h o; '(h, xs) ← calls h os; mret (h, x :: xs)
  end.

(** [n] calls of the iterator. *)
Fixpoint iterate (n : nat) (h : t) (it : iterator) : res (list (option A) * iterator) :=
  match n with
  | O => mret ([], it)
  | S n => '(d, it) ← hashtable_iterator_getnext h it; '(ds, it) ← iterate n h it; mret (d :: ds, it)
  end.

(** ** The map a table stands for *)

(** The same calls on a finite map. *)
Definition map_call (m : gmap Z A) (o : op) : gmap Z A * outcome :=
  match o with
  | Exists k =>
      (m, mk_outcome None [] (match m !! k with Some _ => HASH_TABLE_OK | None => HASH_TABLE_KEY_NOT_EXISTS end))
  | Get k =>
      (m, mk_outcome (m !! k) [] (match m !! k with Some _ => HASH_TABLE_OK | None => HASH_TABLE_KEY_NOT_EXISTS end))
  | Insert k d =>
      (<[k := d]> m, mk_outcome None (option_list (m !! k))
         (match m !! k with Some _ => HASH_TABLE_INSERT_OVERWRITTEN_DATA | None => HASH_TABLE_OK end))
  | Remove k =>
      (delete k m, mk_outcome None (option_list (m !! k))
         (match m !! k with Some _ => HASH_TABLE_OK | None => HASH_TABLE_KEY_NOT_EXISTS end))
  end.

Fixpoint map_calls (m : gmap Z A) (os : list op) : gmap Z A * list outcome :=
  match os with
  | [] => (m, [])
  | o :: os => let '(m, x) := map_call m o in let '(m, xs) := map_calls m os in (m, x :: xs)
  end.

Definition entries (h : t) : list (Z * A) := map (fun n => (key n, data n)) (concat (nodes h)).
Definition contents (h : t) : gmap Z A := list_to_map (entries h).

(** Every key is in the chain of its hash value, once. *)
Record wf (h : t) : Prop := {
  wf_size : 0 < size h;
  wf_nodes : zlen (nodes h) = size h;
  wf_chain i chain : nodes h !! i = Some chain ->
    NoDup (map key chain) /\ Forall (fun n => hash h (key n) = Z.of_nat i) chain
}.
End table.

Arguments hash_node_t : clear implicits.
Arguments t : clear implicits.
Arguments iterator : clear implicits.
Arguments op : clear implicits.
Arguments outcome : clear implicits.
End Hashtable.
