(* ===== verification/HashtableSpec.v ===== *)
(** * Hash tables: refinement of finite maps

    A well formed table answers every call as the finite map of its entries does,
    frees exactly the data that leaves the map, and its iterator meets every entry
    once. *)

From S2P Require Import Prelude Hashtable.

Module HashtableSpec.
Import Hashtable.

Section spec.
Context {A : Type}.
Implicit Types (h : t A) (chain : list (hash_node_t A)) (k : Z) (d : A).

(** ** Chains *)

Lemma search_in chain k d : NoDup (map key chain) -> search k chain = Some d <-> mk_node k d ∈ chain.
Proof.
  induction chain as [|n chain IH]; cbn; intros Hn; [set_solver|].
  apply NoDup_cons in Hn as [Hn Hc]. rewrite elem_of_cons. destruct (Z.eqb_spec (key n) k) as [<-|Hne].
  - split; [intros E; injection E as <-; left; by destruct n|]. intros [<-|Hin]; [done|].
    destruct Hn. by apply (list_elem_of_fmap_2 key) in Hin.
  - rewrite (IH Hc). split; [by right|]. by intros [<-|Hin].
Qed.

Lemma search_none chain k : search k chain = None -> k ∉ map key chain.
Proof.
  induction chain as [|n chain IH]; cbn; [set_solver|].
  zcases; [done|]. intros H. rewrite elem_of_cons. intros [->|Hin]; [done|]. by apply IH.
Qed.

Lemma overwrite_none k d chain : overwrite k d chain = None <-> search k chain = None.
Proof.
  induction chain as [|n chain IH]; cbn; [done|]. zcases; [done|].
  destruct (overwrite k d chain) as [[c o]|]; naive_solver.
Qed.

Lemma overwrite_some k d chain chain' old : overwrite k d chain = Some (chain', old) ->
  map key chain' = map key chain /\ search k chain = Some old /\
  forall j, search j chain' = if decide (j = k) then Some d else search j chain.
Proof.
  revert chain'. induction chain as [|n chain IH]; cbn; [done|]. intros chain'. zcases.
  - intros E. injection E as <- <-. cbn. split_and!; [by f_equal|done|].
    intros j. case_decide; zcases; try done; lia.
  - destruct (overwrite k d chain) as [[c o]|] eqn:Eo; [|done]. intros E. injection E as <- <-.
    destruct (IH c eq_refl) as (H1 & H2 & H3). cbn. split_and!; [by f_equal|done|].
    intros j. rewrite H3. case_decide; zcases; try done; lia.
Qed.

Lemma unlink_none k chain : unlink k chain = None <-> search k chain = None.
Proof.
  induction chain as [|n chain IH]; cbn; [done|]. zcases; [done|].
  destruct (unlink k chain) as [[c o]|]; naive_solver.
Qed.

Lemma unlink_some k chain chain' old : NoDup (map key chain) -> unlink k chain = Some (chain', old) ->
  sublist (map key chain') (map key chain) /\ search k chain = Some old /\
  forall j, search j chain' = if decide (j = k) then None else search j chain.
Proof.
  revert chain'. induction chain as [|n chain IH]; cbn; [done|]. intros chain' Hn.
  apply NoDup_cons in Hn as [Hnin Hn]. zcases.
  - intros E. injection E as <- <-. split_and!; [by apply sublist_cons|done|].
    intros j. case_decide; zcases; try done; try lia. subst. destruct (search (key n) chain) as [d|] eqn:Es; [|done].
    apply search_in, (list_elem_of_fmap_2 key) in Es; [done|done].
  - destruct (unlink k chain) as [[c o]|] eqn:Eo; [|done]. intros E. injection E as <- <-.
    destruct (IH c Hn eq_refl) as (H1 & H2 & H3). cbn. split_and!; [by apply sublist_skip|done|].
    intros j. rewrite H3. case_decide; zcases; try done; lia.
Qed.

(** ** Tables *)

Lemma create_wf sizeP f : 0 < sizeP -> wf (hashtable_create (A:=A) sizeP f).
Proof.
  intros Hs. split; cbn; [done|unfold zlen; rewrite length_replicate; lia|].
  intros i chain Hi. apply lookup_replicate in Hi as [-> _]. split; [apply NoDup_nil_2|done].
Qed.

Lemma create_contents sizeP f : contents (hashtable_create (A:=A) sizeP f) = ∅.
Proof.
  unfold contents, entries. cbn. induction (Z.to_nat sizeP) as [|n IH]; [done|]. exact IH.
Qed.

Lemma hash_range h k : wf h -> 0 <= hash h k < zlen (nodes h).
Proof. intros [H1 H2 _]. rewrite H2. unfold hash. apply Z.mod_pos_bound. lia. Qed.

Lemma chain_of h k : wf h -> exists chain,
  zget (nodes h) (hash h k) = Ok chain /\ nodes h !! Z.to_nat (hash h k) = Some chain.
Proof.
  intros Hw. pose proof (hash_range h k Hw) as Hr.
  destruct (lookup_lt_is_Some_2 (nodes h) (Z.to_nat (hash h k))) as [chain E]; [unfold zlen in Hr; lia|].
  exists chain. split; [|done]. apply zget_ok. split; [lia|done].
Qed.

Lemma nodup_concat (f : Z -> Z) (ns : list (list (hash_node_t A))) off :
  (forall i chain, ns !! i = Some chain ->
     NoDup (map key chain) /\ Forall (fun n => f (key n) = off + Z.of_nat i) chain) ->
  NoDup (map key (concat ns)).
Proof.
  revert off. induction ns as [|c ns IH]; intros off H; cbn; [apply NoDup_nil_2|].
  rewrite map_app. apply NoDup_app. destruct (H 0%nat c eq_refl) as [Hn Hf]. split_and!; [done| |].
  - intros k Hk Hk'. apply list_elem_of_fmap in Hk as (n & -> & Hin).
    apply list_elem_of_fmap in Hk' as (n' & E & Hin').
    apply list_elem_of_In, in_concat in Hin' as (c' & Hc' & Hin').
    apply list_elem_of_In, list_elem_of_lookup in Hc' as [i Hi].
    destruct (H (Datatypes.S i) c' Hi) as [_ Hf'].
    pose proof (proj1 (Forall_forall _ _) Hf n Hin) as E1.
    pose proof (proj1 (Forall_forall _ _) Hf' n' (proj2 (list_elem_of_In _ _) Hin')) as E2.
    simpl in E1, E2. rewrite E in E1. lia.
  - apply (IH (off + 1)). intros i chain Hi. destruct (H (Datatypes.S i) chain Hi) as [H1 H2].
    split; [done|]. eapply Forall_impl; [exact H2|]. intros n E. simpl in *. lia.
Qed.

Lemma keys_nodup h : wf h -> NoDup (entries h).*1.
Proof.
  intros [H1 H2 H3]. unfold entries. rewrite <- list_fmap_compose.
  apply (nodup_concat (hash h) _ 0). exact H3.
Qed.

Lemma contents_in h k d : wf h -> contents h !! k = Some d <-> mk_node k d ∈ concat (nodes h).
Proof.
  intros Hw. unfold contents. rewrite <- elem_of_list_to_map by (by apply keys_nodup).
  unfold entries. rewrite list_elem_of_fmap. split.
  - intros ([k' d'] & E & Hin). by injection E as -> ->.
  - intros Hin. by exists (mk_node k d).
Qed.

Lemma contents_search h k chain : wf h -> nodes h !! Z.to_nat (hash h k) = Some chain ->
  contents h !! k = search k chain.
Proof.
  intros Hw Hc. apply option_eq. intros d. rewrite contents_in by done.
  destruct (wf_chain h Hw _ _ Hc) as [Hn _]. rewrite (search_in _ _ _ Hn).
  rewrite list_elem_of_In, in_concat. split.
  - intros (c & Hin & Hd). apply list_elem_of_In in Hin, Hd.
    apply list_elem_of_lookup in Hin as [i Hi]. destruct (wf_chain h Hw _ _ Hi) as [_ Hf].
    pose proof (proj1 (Forall_forall _ _) Hf _ Hd) as E. simpl in E. rewrite E, Nat2Z.id, Hi in Hc.
    by injection Hc as ->.
  - intros Hd. exists chain. rewrite <- !list_elem_of_In. split; [by eapply list_elem_of_lookup_2|done].
Qed.

(** A chain is replaced by another one with the keys of the same hash value. *)
Lemma update_chain h k chain chain' : wf h -> nodes h !! Z.to_nat (hash h k) = Some chain ->
  NoDup (map key chain') -> (forall j, j ∈ map key chain' -> j = k \/ j ∈ map key chain) ->
  let h' := {| h with nodes := <[Z.to_nat (hash h k) := chain']> (nodes h) |} in
  wf h' /\ forall j, contents h' !! j =
    if decide (hash h j = hash h k) then search j chain' else contents h !! j.
Proof.
  intros Hw Hc Hn Hk h'. pose proof (hash_range h k Hw) as Hr.
  destruct (wf_chain h Hw _ _ Hc) as [_ Hf].
  assert (Hw' : wf h').
  { destruct Hw as [H1 H2 H3]. split; [done|unfold h'; cbn; by rewrite zlen_insert|].
    intros i c. unfold h'. cbn. rewrite list_lookup_insert_Some.
    intros [(<- & -> & _)|[_ Hi]]; [|by apply H3]. split; [done|].
    apply Forall_forall. intros n Hin. change (hash h (key n) = Z.of_nat (Z.to_nat (hash h k))).
    rewrite Z2Nat.id by lia. destruct (Hk (key n)) as [->|Hin']; [by apply list_elem_of_fmap_2|done|].
    apply list_elem_of_fmap in Hin' as (n' & -> & Hin').
    pose proof (proj1 (Forall_forall _ _) Hf _ Hin') as E. simpl in E. lia. }
  split; [done|]. intros j. change (hash h j) with (hash h' j). pose proof (hash_range h j Hw) as Hrj.
  case_decide as Hd.
  - apply contents_search; [done|]. rewrite Hd. unfold h'. cbn. apply list_lookup_insert_eq.
    unfold zlen in Hr. lia.
  - destruct (chain_of h j Hw) as (c & _ & Hcj). rewrite (contents_search h j c Hw Hcj).
    apply contents_search; [done|]. change (hash h' j) with (hash h j) in *. unfold h'. cbn.
    by rewrite list_lookup_insert_ne by lia.
Qed.

(** ** Calls *)

Lemma table_insert_ok h k d : wf h -> exists h' f r,
  hashtable_insert (Some h) k d = Ok (Some h', f, r) /\ wf h' /\
  map_call (contents h) (Insert k d) = (contents h', mk_outcome None f r).
Proof.
  intros Hw. destruct (chain_of h k Hw) as (chain & Eg & Hc).
  pose proof (hash_range h k Hw). destruct (wf_chain h Hw _ _ Hc) as [Hn _].
  unfold hashtable_insert, map_call. rewrite Eg, res_bind_unfold, (contents_search h k chain Hw Hc).
  destruct (overwrite k d chain) as [[chain' old]|] eqn:Eo; rewrite zset_ok by done.
  - destruct (overwrite_some _ _ _ _ _ Eo) as (Ek & Es & Hs).
    destruct (update_chain h k chain chain' Hw Hc) as [Hw' Hl]; [by rewrite Ek|rewrite Ek; by right|].
    eexists _, _, _. split; [done|]. split; [done|]. rewrite Es. f_equal. apply map_eq. intros j.
    rewrite Hl, Hs, lookup_insert. repeat case_decide; try congruence.
    by apply contents_search; [|congruence].
  - apply overwrite_none in Eo. pose proof (search_none _ _ Eo) as Hk.
    destruct (update_chain h k chain (mk_node k d :: chain) Hw Hc) as [Hw' Hl];
      [by apply NoDup_cons|intros j; apply elem_of_cons|].
    eexists _, _, _. split; [done|]. split; [done|]. rewrite Eo. f_equal. apply map_eq. intros j.
    rewrite Hl, lookup_insert. cbn. repeat case_decide; zcases; try congruence.
    by apply contents_search; [|congruence].
Qed.

Lemma table_remove_ok h k : wf h -> exists h' f r,
  hashtable_remove (Some h) k = Ok (Some h', f, r) /\ wf h' /\
  map_call (contents h) (Remove k) = (contents h', mk_outcome None f r).
Proof.
  intros Hw. destruct (chain_of h k Hw) as (chain & Eg & Hc).
  pose proof (hash_range h k Hw). destruct (wf_chain h Hw _ _ Hc) as [Hn _].
  pose proof (contents_search h k chain Hw Hc) as Ec.
  unfold hashtable_remove, map_call. rewrite Eg, res_bind_unfold, Ec.
  destruct (unlink k chain) as [[chain' old]|] eqn:Eo.
  - rewrite zset_ok by done. destruct (unlink_some _ _ _ _ Hn Eo) as (Hsub & Es & Hs).
    destruct (update_chain h k chain chain' Hw Hc) as [Hw' Hl];
      [by eapply sublist_NoDup|intros j Hj; right; by eapply elem_of_sublist|].
    eexists _, _, _. split; [done|]. split; [done|]. rewrite Es. f_equal. apply map_eq. intros j.
    rewrite Hl, Hs, lookup_delete. repeat case_decide; try congruence.
    by apply contents_search; [|congruence].
  - apply unlink_none in Eo. eexists _, _, _. split; [done|]. split; [done|]. rewrite Eo. f_equal.
    apply delete_id. by rewrite Ec.
Qed.

Lemma table_call_ok h o : wf h -> exists h' x,
  call (Some h) o = Ok (Some h', x) /\ wf h' /\ map_call (contents h) o = (contents h', x).
Proof.
  intros Hw. destruct o as [k|k|k d|k]; cbn [call].
  - destruct (chain_of h k Hw) as (chain & Eg & Hc). cbn [hashtable_is_key_exists map_call].
    rewrite Eg, res_bind_unfold, (contents_search h k chain Hw Hc). destruct (search k chain); eexists _, _; split_and!; done.
  - destruct (chain_of h k Hw) as (chain & Eg & Hc). cbn [hashtable_get map_call].
    rewrite Eg, res_bind_unfold, (contents_search h k chain Hw Hc). destruct (search k chain); eexists _, _; split_and!; done.
  - destruct (table_insert_ok h k d Hw) as (h' & f & r & -> & Hw' & E). eexists _, _; split_and!; done.
  - destruct (table_remove_ok h k Hw) as (h' & f & r & -> & Hw' & E). eexists _, _; split_and!; done.
Qed.

Lemma table_calls_ok h os : wf h -> exists h' xs,
  calls (Some h) os = Ok (Some h', xs) /\ wf h' /\ map_calls (contents h) os = (contents h', xs).
Proof.
  revert h. induction os as [|o os IH]; intros h Hw; cbn [calls map_calls]; [by eexists _, _|].
  destruct (table_call_ok h o Hw) as (h1 & x & -> & Hw1 & ->).
  destruct (IH h1 Hw1) as (h2 & xs & E & Hw2 & ->). rewrite res_bind_unfold, E. by eexists _, _.
Qed.

(** ** The iterator *)

(** The nodes the iterator has still to meet. *)
Definition ahead h (it : iterator A) : list (hash_node_t A) :=
  node it ++ concat (drop (Z.to_nat (index it + 1)) (nodes h)).

Lemma next_chain_ok h fuel it : wf h -> 0 <= index it ->
  size h <= index it + 1 + Z.of_nat fuel ->
  match ahead h it with
  | [] => exists it', next_chain fuel h it = Ok (None, it') /\ 0 <= index it' /\ ahead h it' = []
  | n :: ns => exists it' it'', next_chain fuel h it = Ok (Some (n, it''), it') /\ 0 <= index it'' /\ ahead h it'' = ns
  end.
Proof.
  intros Hw. revert it. induction fuel as [|fuel IH]; intros [i [|n c]] Hi Hf; cbn in Hi, Hf;
    try (cbn; eexists _, _; split_and!; done).
  all: unfold ahead; cbn [node index app].
  - rewrite drop_ge by (pose proof (wf_nodes h Hw); unfold zlen in *; lia). cbn.
    destruct (Z.geb_spec (i + 1) (size h)); [|lia]. eexists. split_and!; [done|cbn; lia|].
    unfold ahead. cbn. by rewrite drop_ge by (pose proof (wf_nodes h Hw); unfold zlen in *; lia).
  - cbn [next_chain node index]. destruct (Z.geb_spec (i + 1) (size h)).
    + rewrite drop_ge by (pose proof (wf_nodes h Hw); unfold zlen in *; lia). cbn.
      eexists. split_and!; [done|cbn; lia|].
      unfold ahead. cbn. by rewrite drop_ge by (pose proof (wf_nodes h Hw); unfold zlen in *; lia).
    + destruct (lookup_lt_is_Some_2 (nodes h) (Z.to_nat (i + 1))) as [c Hc];
        [pose proof (wf_nodes h Hw); unfold zlen in *; lia|].
      rewrite (drop_S _ c) by done. cbn [concat].
      rewrite (proj2 (zget_ok (nodes h) (i + 1) c)), res_bind_unfold by (split; [lia|done]).
      specialize (IH (mk_iterator (i + 1) c)). unfold ahead in IH at 1. cbn in IH.
      replace (Z.to_nat (i + 1 + 1)) with (Datatypes.S (Z.to_nat (i + 1))) in IH by lia.
      apply IH; lia.
Qed.

Lemma iterate_ok h it : wf h -> 0 <= index it -> exists it',
  iterate (length (ahead h it)) h it = Ok (map (fun n => Some (data n)) (ahead h it), it') /\
  exists it'', hashtable_iterator_getnext h it' = Ok (None, it'').
Proof.
  intros Hw. remember (ahead h it) as ns eqn:E. revert it E. induction ns as [|n ns IH]; intros it E Hi.
  all: pose proof (wf_size h Hw); pose proof (next_chain_ok h (Z.to_nat (size h)) it Hw Hi ltac:(lia)) as Hn;
    rewrite <- E in Hn.
  - exists it. split; [done|]. destruct Hn as (it' & En & _). exists it'.
    unfold hashtable_iterator_getnext. by rewrite En.
  - destruct Hn as (it' & it2 & En & Hi2 & E2). destruct (IH it2 (eq_sym E2) Hi2) as (it3 & E3 & Hend).
    exists it3. split; [|done]. cbn [length iterate map]. unfold hashtable_iterator_getnext.
    rewrite En, res_bind_unfold, res_ret_bind. by rewrite E3.
Qed.

Lemma iterator_start h : wf h -> exists it, hashtable_get_iterator h = Ok it /\ index it = 0 /\
  ahead h it = concat (nodes h).
Proof.
  intros Hw. pose proof (wf_size h Hw). pose proof (wf_nodes h Hw).
  destruct (nodes h) as [|c ns] eqn:E; [unfold zlen in *; simpl in *; lia|].
  unfold hashtable_get_iterator. rewrite E. cbn. eexists. split_and!; [done|done|].
  unfold ahead. by rewrite E.
Qed.

Lemma entries_perm h : wf h -> map (fun n => (key n, data n)) (concat (nodes h)) ≡ₚ map_to_list (contents h).
Proof. intros Hw. symmetry. apply map_to_list_to_map. by apply keys_nodup. Qed.
End spec.
End HashtableSpec.
