(* ===== verification/F1apIds.v ===== *)
(** * The second UE identifier

    Models [openair2/F1AP/f1ap_ids.c]: for each UE, what the other side of F1 calls
    it, in a hash table.  The CU and the DU have one table each, with the same code;
    a table is [None] before its initialisation. *)

From S2P Require Import Prelude Hashtable HashtableSpec.

Module F1apIds.
Import Hashtable.

(** [f1_ue_data_t]. *)
Record f1_ue_data_t := mk_ue_data {
  secondary_ue : Z;
  e1_assoc_id : Z;
  du_assoc_id : Z
}.

Definition table : Type := option (Hashtable.t f1_ue_data_t).

Definition get_hashtable_data (ht : table) (ue_id : Z) : res f1_ue_data_t :=
  '(d, r) ← hashtable_get ht ue_id;
  _ ← dev_assert (bool_decide (r = HASH_TABLE_OK));
  of_option Exit d.

Definition add_hashtable_data (ht : table) (ue_id : Z) (data : f1_ue_data_t) : res (table * bool) :=
  '(ht, _, r) ← hashtable_insert ht ue_id data;
  mret (ht, bool_decide (r = HASH_TABLE_OK)).

Definition initialized (ht : table) : bool := match ht with Some _ => true | None => false end.

Definition cu_init_f1_ue_data (ht : table) : res table :=
  _ ← dev_assert (negb (initialized ht));
  mret (Some (hashtable_create 1319 None)).

Definition cu_add_f1_ue_data (ht : table) (ue_id : Z) (data : f1_ue_data_t) : res (table * bool) :=
  _ ← dev_assert (initialized ht);
  let key := u32 ue_id in
  r ← hashtable_is_key_exists ht key;
  if bool_decide (r = HASH_TABLE_OK) then mret (ht, false) else add_hashtable_data ht key data.

Definition cu_exists_f1_ue_data (ht : table) (ue_id : Z) : res bool :=
  _ ← dev_assert (initialized ht);
  r ← hashtable_is_key_exists ht (u32 ue_id);
  mret (bool_decide (r = HASH_TABLE_OK)).

Definition cu_update_f1_ue_data (ht : table) (ue_id : Z) (data : f1_ue_data_t) : res (table * bool) :=
  _ ← dev_assert (initialized ht);
  let key := u32 ue_id in
  '(ht, _, retrm) ← hashtable_remove ht key;
  _ ← dev_assert (bool_decide (retrm = HASH_TABLE_OK));
  add_hashtable_data ht key data.

Definition cu_get_f1_ue_data (ht : table) (ue_id : Z) : res f1_ue_data_t :=
  _ ← dev_assert (initialized ht);
  get_hashtable_data ht (u32 ue_id).

Definition cu_remove_f1_ue_data (ht : table) (ue_id : Z) : res (table * bool) :=
  _ ← dev_assert (initialized ht);
  '(ht, _, r) ← hashtable_remove ht (u32 ue_id);
  mret (ht, bool_decide (r = HASH_TABLE_OK)).

(** The functions of the DU, on the table of the DU. *)
Definition du_init_f1_ue_data := cu_init_f1_ue_data.
Definition du_add_f1_ue_data := cu_add_f1_ue_data.
Definition du_exists_f1_ue_data := cu_exists_f1_ue_data.
Definition du_get_f1_ue_data := cu_get_f1_ue_data.
Definition du_remove_f1_ue_data := cu_remove_f1_ue_data.

(** ** The table as a map *)

(** [ht] is an initialised table that holds [m]. *)
Definition stores (ht : table) (m : gmap Z f1_ue_data_t) : Prop :=
  exists h, ht = Some h /\ wf h /\ contents h = m.

(** Calls of the hash table, read through [stores]. *)
Lemma stores_call ht m o : stores ht m -> exists ht' x,
  call ht o = Ok (ht', x) /\ stores ht' (map_call m o).1 /\ x = (map_call m o).2.
Proof.
  intros (h & -> & Hw & <-). destruct (HashtableSpec.table_call_ok h o Hw) as (h' & x & E & Hw' & Em).
  exists (Some h'), x. rewrite Em. split_and!; [done|by exists h'|done].
Qed.

Lemma insert_stores ht m k d : stores ht m -> exists ht', stores ht' (<[k := d]> m) /\
  hashtable_insert ht k d = Ok (ht', option_list (m !! k),
    match m !! k with Some _ => HASH_TABLE_INSERT_OVERWRITTEN_DATA | None => HASH_TABLE_OK end).
Proof.
  intros Hs. destruct (stores_call ht m (Insert k d) Hs) as (ht' & x & E & Hs' & ->).
  cbn [call] in E. res_inv. destruct x as [[a f] r]. simpl in *. res_inv. eauto.
Qed.

Lemma remove_stores ht m k : stores ht m -> exists ht', stores ht' (delete k m) /\
  hashtable_remove ht k = Ok (ht', option_list (m !! k),
    match m !! k with Some _ => HASH_TABLE_OK | None => HASH_TABLE_KEY_NOT_EXISTS end).
Proof.
  intros Hs. destruct (stores_call ht m (Remove k) Hs) as (ht' & x & E & Hs' & ->).
  cbn [call] in E. res_inv. destruct x as [[a f] r]. simpl in *. res_inv. eauto.
Qed.

Lemma get_stores ht m k : stores ht m -> hashtable_get ht k =
  Ok (m !! k, match m !! k with Some _ => HASH_TABLE_OK | None => HASH_TABLE_KEY_NOT_EXISTS end).
Proof.
  intros Hs. destruct (stores_call ht m (Get k) Hs) as (ht' & x & E & Hs' & ->).
  cbn [call] in E. res_inv. destruct x as [a r]. simpl in *. res_inv. done.
Qed.

Lemma exists_stores ht m k : stores ht m -> hashtable_is_key_exists ht k =
  Ok (match m !! k with Some _ => HASH_TABLE_OK | None => HASH_TABLE_KEY_NOT_EXISTS end).
Proof.
  intros Hs. destruct (stores_call ht m (Exists k) Hs) as (ht' & x & E & Hs' & ->).
  cbn [call] in E. res_inv. simpl in *. congruence.
Qed.

Lemma stores_init ht m : stores ht m -> initialized ht = true.
Proof. by intros (h & -> & _). Qed.

Lemma f1_get ht m ue_id d : stores ht m -> m !! u32 ue_id = Some d -> cu_get_f1_ue_data ht ue_id = Ok d.
Proof.
  intros Hs Hm. unfold cu_get_f1_ue_data, get_hashtable_data.
  rewrite (stores_init _ _ Hs), (get_stores _ _ _ Hs), Hm. done.
Qed.

Lemma f1_get_missing ht m ue_id : stores ht m -> m !! u32 ue_id = None ->
  cu_get_f1_ue_data ht ue_id = Fault Exit.
Proof.
  intros Hs Hm. unfold cu_get_f1_ue_data, get_hashtable_data.
  rewrite (stores_init _ _ Hs), (get_stores _ _ _ Hs), Hm. done.
Qed.

Lemma f1_add ht m ue_id d : stores ht m -> exists ht',
  cu_add_f1_ue_data ht ue_id d = Ok (ht', bool_decide (m !! u32 ue_id = None)) /\
  stores ht' (match m !! u32 ue_id with Some _ => m | None => <[u32 ue_id := d]> m end).
Proof.
  intros Hs. unfold cu_add_f1_ue_data, add_hashtable_data.
  rewrite (stores_init _ _ Hs), (exists_stores _ _ _ Hs).
  destruct (m !! u32 ue_id) as [d0|] eqn:Em; [by exists ht|].
  destruct (insert_stores ht m (u32 ue_id) d Hs) as (ht' & Hs' & E). rewrite Em in E.
  cbn [dev_assert]. rewrite res_ret_bind, res_bind_unfold. cbn [bool_decide]. rewrite E. by exists ht'.
Qed.

Lemma f1_update ht m ue_id d d0 : stores ht m -> m !! u32 ue_id = Some d0 -> exists ht',
  cu_update_f1_ue_data ht ue_id d = Ok (ht', true) /\ stores ht' (<[u32 ue_id := d]> m).
Proof.
  intros Hs Hm. unfold cu_update_f1_ue_data, add_hashtable_data. rewrite (stores_init _ _ Hs).
  destruct (remove_stores ht m (u32 ue_id) Hs) as (h1 & Hs1 & E1). rewrite Hm in E1.
  destruct (insert_stores h1 _ (u32 ue_id) d Hs1) as (h2 & Hs2 & E2).
  rewrite lookup_delete_eq in E2. rewrite insert_delete_eq in Hs2.
  cbn [dev_assert]. rewrite res_ret_bind, E1, res_bind_unfold.
  rewrite bool_decide_eq_true_2 by done. cbn [dev_assert]. rewrite res_ret_bind, E2. by exists h2.
Qed.

Lemma f1_remove ht m ue_id : stores ht m -> exists ht',
  cu_remove_f1_ue_data ht ue_id = Ok (ht', bool_decide (is_Some (m !! u32 ue_id))) /\
  stores ht' (delete (u32 ue_id) m).
Proof.
  intros Hs. unfold cu_remove_f1_ue_data. rewrite (stores_init _ _ Hs).
  destruct (remove_stores ht m (u32 ue_id) Hs) as (h1 & Hs1 & E1).
  cbn [dev_assert]. rewrite res_ret_bind, E1. exists h1. split; [|done]. by destruct (m !! u32 ue_id).
Qed.

Lemma f1_init : exists ht, cu_init_f1_ue_data None = Ok ht /\ stores ht ∅.
Proof.
  eexists. split; [done|]. eexists. split; [done|]. split; [by apply HashtableSpec.create_wf|].
  apply HashtableSpec.create_contents.
Qed.
End F1apIds.
