(* ===== verification/Snow3g.v ===== *)
(** * SNOW 3G

    Models [openair3/SECU/snow3g.c], the stream cipher behind the NEA1 ciphering
    and the NIA1 integrity algorithms.  The shift register lives in an array twice
    its size over which a pointer slides, "to avoid moving memory"; [s] is the
    index of that pointer.  Local arrays are not initialised in C: their content
    is an argument ([junk]) of the functions that have them. *)

From S2P Require Import Prelude Snow3gTables.

Module Snow3g.
Import Tables.

(** [snow3g_t]. *)
Record t := mk_snow3g {
  _s : list Z;          (** [uint32_t _s[16 * 2]] *)
  s : Z;                (** [s - &_s[0]] *)
  r1 : Z;
  r2 : Z;
  r3 : Z
}.

Definition tab (table : list Z) (i : Z) : Z := nth (Z.to_nat i) table 0.

Definition s1 (w : Z) : Z :=
  let w0 := Z.land (Z.shiftr w 24) 0xff in
  let w1 := Z.land (Z.shiftr w 16) 0xff in
  let w2 := Z.land (Z.shiftr w 8) 0xff in
  let w3 := Z.land w 0xff in
  Z.lxor (Z.lxor (Z.lxor (tab s1_t0 w3) (tab s1_t1 w2)) (tab s1_t2 w1)) (tab s1_t3 w0).

Definition s2 (w : Z) : Z :=
  let w0 := Z.land (Z.shiftr w 24) 0xff in
  let w1 := Z.land (Z.shiftr w 16) 0xff in
  let w2 := Z.land (Z.shiftr w 8) 0xff in
  let w3 := Z.land w 0xff in
  Z.lxor (Z.lxor (Z.lxor (tab s2_t0 w3) (tab s2_t1 w2)) (tab s2_t2 w1)) (tab s2_t3 w0).

Definition MULa (c : Z) : Z := tab mula c.

Definition DIVa (c : Z) : Z := tab diva c.

(** [s->s[i]]. *)
Definition rd (st : t) (i : Z) : res Z := zget (_s st) (s st + i).

(** The new word of the shift register, the same computation in [lfsr_init] and
    in [lfsr_keystream]. *)
Definition feedback (st : t) : res Z :=
  s_0 ← rd st 0;
  s_11 ← rd st 11;
  let s0_0 := Z.land (Z.shiftr s_0 24) 0xff in
  let s0_1 := Z.land (Z.shiftr s_0 16) 0xff in
  let s0_2 := Z.land (Z.shiftr s_0 8) 0xff in
  let s0_3 := Z.land s_0 0xff in
  let s11_0 := Z.land (Z.shiftr s_11 24) 0xff in
  let s11_1 := Z.land (Z.shiftr s_11 16) 0xff in
  let s11_2 := Z.land (Z.shiftr s_11 8) 0xff in
  let s11_3 := Z.land s_11 0xff in
  let v0 := Z.lor (Z.lor (Z.shiftl s0_1 24) (Z.shiftl s0_2 16)) (Z.shiftl s0_3 8) in
  let v11 := Z.lor (Z.lor (Z.shiftl s11_0 16) (Z.shiftl s11_1 8)) s11_2 in
  s_2 ← rd st 2;
  mret (Z.lxor (Z.lxor (Z.lxor (Z.lxor v0 (MULa s0_0)) s_2) v11) (DIVa s11_3)).

(** "we do this, much less memory movement". *)
Definition push (st : t) (v : Z) : res t :=
  mem ← zset (_s st) (s st) v;
  mem ← zset mem (s st + 16) v;
  let p := s st + 1 in
  mret {| st with _s := mem; s := if p =? 16 then 0 else p |}.

Definition lfsr_init (st : t) (f : Z) : res t := v ← feedback st; push st (Z.lxor v f).

Definition lfsr_keystream (st : t) : res t := v ← feedback st; push st v.

Definition clock_fsm (st : t) : res (Z * t) :=
  s_15 ← rd st 15;
  let f := Z.lxor (u32 (s_15 + r1 st)) (r2 st) in
  s_5 ← rd st 5;
  let r := u32 (r2 st + Z.lxor (r3 st) s_5) in
  mret (f, {| st with r3 := s2 (r2 st); r2 := s1 (r1 st); r1 := r |}).

(** [GET32(b + off)]. *)
Definition GET32 (b : list Z) (off : Z) : res Z :=
  b0 ← zget b off;
  b1 ← zget b (off + 1);
  b2 ← zget b (off + 2);
  b3 ← zget b (off + 3);
  mret (Z.lor (Z.lor (Z.lor (Z.shiftl b0 24) (Z.shiftl b1 16)) (Z.shiftl b2 8)) b3).

(** [for (int i = 0; i < 32; i++)]: initialisation rounds. *)
Fixpoint init_rounds (n : nat) (st : t) : res t :=
  match n with
  | O => mret st
  | S n' =>
      '(f, st) ← clock_fsm st;
      st ← lfsr_init st f;
      init_rounds n' st
  end.

(** The shift register before the initialisation rounds, [s->s[0]] first. *)
Definition load (k0 k1 k2 k3 iv0 iv1 iv2 iv3 : Z) : list Z :=
  [Z.lxor k0 0xffffffff; Z.lxor k1 0xffffffff; Z.lxor k2 0xffffffff; Z.lxor k3 0xffffffff;
   k0; k1; k2; k3;
   Z.lxor k0 0xffffffff; Z.lxor (Z.lxor k1 0xffffffff) iv3;
   Z.lxor (Z.lxor k2 0xffffffff) iv2; Z.lxor k3 0xffffffff;
   Z.lxor k0 iv1; k1; k2; Z.lxor k3 iv0].

Definition snow3g_init (junk : list Z) (k iv : list Z) : res t :=
  k0 ← GET32 k 0; k1 ← GET32 k 4; k2 ← GET32 k 8; k3 ← GET32 k 12;
  iv0 ← GET32 iv 0; iv1 ← GET32 iv 4; iv2 ← GET32 iv 8; iv3 ← GET32 iv 12;
  mem ← zwrite junk 0 (load k0 k1 k2 k3 iv0 iv1 iv2 iv3);
  st ← init_rounds 32 {| _s := mem; s := 0; r1 := 0; r2 := 0; r3 := 0 |};
  (* start keystream generation *)
  '(_, st) ← clock_fsm st;
  lfsr_keystream st.

Definition generate_keystream_step (st : t) : res (Z * t) :=
  '(f, st) ← clock_fsm st;
  s_0 ← rd st 0;
  st ← lfsr_keystream st;
  mret (Z.lxor f s_0, st).

(** [n] words of keystream. *)
Fixpoint keystream_words (n : nat) (st : t) : res (list Z) :=
  match n with
  | O => mret []
  | S n' =>
      '(z, st) ← generate_keystream_step st;
      zs ← keystream_words n' st;
      mret (z :: zs)
  end.

(** The bytes of a word in memory order after [htonl]. *)
Definition be_bytes (w : Z) : list Z :=
  [Z.land (Z.shiftr w 24) 0xff; Z.land (Z.shiftr w 16) 0xff; Z.land (Z.shiftr w 8) 0xff;
   Z.land w 0xff].

(** The order of the key words. *)
Definition permute_key (key : list Z) : res (list Z) :=
  a ← zslice key 12 4; b ← zslice key 8 4; c ← zslice key 4 4; d ← zslice key 0 4;
  mret (a ++ b ++ c ++ d).

Definition cipher_iv (count bearer direction : Z) : list Z :=
  let b := u8 (Z.lor (Z.shiftl bearer 3) (Z.shiftl direction 2)) in
  [b; 0; 0; 0] ++ be_bytes count ++ [b; 0; 0; 0] ++ be_bytes count.

(** [out[i] = in[i] ^ keystream[i]]. *)
Definition xor_bytes (data stream : list Z) : list Z := zip_with Z.lxor data stream.

Definition snow3g_ciphering (junk : list Z) (count bearer direction : Z) (key data : list Z)
    : res (list Z) :=
  k ← permute_key key;
  st ← snow3g_init junk k (cipher_iv count bearer direction);
  let keystream_count := (zlen data + 3) / 4 in
  zs ← keystream_words (Z.to_nat keystream_count) st;
  mret (xor_bytes data (concat (map be_bytes zs))).

(** ** Integrity *)

(** [GET64(in + off, available_bytes)]: bytes that are not available are 0. *)
Definition GET64 (data : list Z) (off available_bytes : Z) : res Z :=
  let byte i := if i <? available_bytes then zget data (off + i) else mret 0 in
  a ← byte 0; b ← byte 1; c ← byte 2; d ← byte 3; e ← byte 4; f ← byte 5; g ← byte 6; h ← byte 7;
  mret (Z.lor (Z.lor (Z.lor (Z.lor (Z.lor (Z.lor (Z.lor
         (Z.shiftl a (32 + 24)) (Z.shiftl b (32 + 16))) (Z.shiftl c (32 + 8))) (Z.shiftl d 32))
         (Z.shiftl e 24)) (Z.shiftl f 16)) (Z.shiftl g 8)) h).

Definition MULx64 (v c : Z) : Z :=
  if negb (Z.land v (Z.shiftl 1 63) =? 0) then Z.lxor (u64 (Z.shiftl v 1)) c
  else u64 (Z.shiftl v 1).

Fixpoint MULxPOW64 (v : Z) (i : nat) (c : Z) : Z :=
  match i with
  | O => v
  | S i' => MULx64 (MULxPOW64 v i' c) c
  end.

Definition MUL64 (v p c : Z) : Z :=
  foldl (fun result i => if negb (Z.land (Z.shiftr p (Z.of_nat i)) 1 =? 0)
                         then Z.lxor result (MULxPOW64 v i c) else result) 0 (seq 0 64).

(** [pm[i][j]] and [pm[i][j] = v]. *)
Definition pm_get (pm : list (list Z)) (i j : Z) : res Z := row ← zget pm i; zget row j.

Definition pm_set (pm : list (list Z)) (i j v : Z) : res (list (list Z)) :=
  row ← zget pm i; row ← zset row j v; zset pm i row.

Definition mul_p (pm : list (list Z)) (x : Z) : res Z :=
  a ← pm_get pm 0 (Z.land x 255);
  b ← pm_get pm 1 (Z.land (Z.shiftr x 8) 255);
  c ← pm_get pm 2 (Z.land (Z.shiftr x 16) 255);
  d ← pm_get pm 3 (Z.land (Z.shiftr x 24) 255);
  e ← pm_get pm 4 (Z.land (Z.shiftr x 32) 255);
  f ← pm_get pm 5 (Z.land (Z.shiftr x (32 + 8)) 255);
  g ← pm_get pm 6 (Z.land (Z.shiftr x (32 + 16)) 255);
  h ← pm_get pm 7 (Z.land (Z.shiftr x (32 + 24)) 255);
  mret (Z.lxor (Z.lxor (Z.lxor (Z.lxor (Z.lxor (Z.lxor (Z.lxor a b) c) d) e) f) g) h).

(** The row and the column of bit [i] in the precomputation table. *)
Definition pm_row (i : Z) : Z := Z.shiftr i 3.
Definition pm_col (i : Z) : Z := Z.shiftl 1 (Z.land i 7).

(** [for (int i = 1; i <= 63; i++)]. *)
Definition pm_powers (pm : list (list Z)) : res (list (list Z)) :=
  res_foldl (fun pm i =>
    prev ← pm_get pm (pm_row (i - 1)) (pm_col (i - 1));
    pm ← pm_set pm (pm_row i) (pm_col i) (u64 (Z.shiftl prev 1));
    if negb (Z.land prev 0x8000000000000000 =? 0) then
      v ← pm_get pm (pm_row i) (pm_col i);
      pm_set pm (pm_row i) (pm_col i) (Z.lxor v 0x1b)
    else mret pm) pm (seqZ 1 63).

(** The three nested loops that fill the rest of the table. *)
Definition pm_fill_row (pm : list (list Z)) (i j : Z) : res (list (list Z)) :=
  res_foldl (fun pm k =>
    a ← pm_get pm i (Z.shiftl 1 j);
    b ← pm_get pm i k;
    pm_set pm i (Z.shiftl 1 j + k) (Z.lxor a b)) pm (seqZ 1 (Z.shiftl 1 j - 1)).

Definition pm_fill (pm : list (list Z)) : res (list (list Z)) :=
  res_foldl (fun pm i => res_foldl (fun pm j => pm_fill_row pm i j) pm (seqZ 1 7)) pm (seqZ 0 8).

(** "precomputation table". *)
Definition precompute (junk : list (list Z)) (p : Z) : res (list (list Z)) :=
  pm ← res_foldl (fun pm i => pm_set pm i 0 0) junk (seqZ 0 8);
  pm ← pm_set pm 0 1 p;
  pm ← pm_powers pm;
  pm_fill pm.

Definition integrity_iv (count fresh direction : Z) : list Z :=
  let d := Z.shiftl (Z.land direction 1) 7 in
  [Z.land (Z.shiftr fresh 24) 0xff; Z.land (Z.shiftr fresh 16) 0xff;
   Z.lxor (Z.land (Z.shiftr fresh 8) 0xff) d; Z.land fresh 0xff;
   Z.lxor (Z.land (Z.shiftr count 24) 0xff) d; Z.land (Z.shiftr count 16) 0xff;
   Z.land (Z.shiftr count 8) 0xff; Z.land count 0xff]
  ++ be_bytes fresh ++ be_bytes count.

(** The blocks before the last one. *)
Definition eval_blocks (pm : list (list Z)) (data : list Z) (d : Z) : res Z :=
  res_foldl (fun eval i => m ← GET64 data (i * 8) 8; mul_p pm (Z.lxor eval m)) 0 (seqZ 0 (d - 2)).

Definition _snow3g_integrity (junk : list Z) (junk_pm : list (list Z)) (count fresh direction : Z)
    (key data : list Z) : res (list Z) :=
  let length := zlen data in
  k ← permute_key key;
  st ← snow3g_init junk k (integrity_iv count fresh direction);
  zs ← keystream_words 5 st;
  let d := (length * 8 + 63) / 64 + 1 in
  let z i := nth i zs 0 in
  let p := Z.lor (Z.shiftl (z 0%nat) 32) (z 1%nat) in
  let q := Z.lor (Z.shiftl (z 2%nat) 32) (z 3%nat) in
  let otp := z 4%nat in
  pm ← precompute junk_pm p;
  eval ← eval_blocks pm data d;
  m ← GET64 data ((d - 2) * 8) (Z.min 8 (length - (d - 2) * 8));
  eval ← mul_p pm (Z.lxor eval m);
  let eval := Z.lxor eval (length * 8) in
  let eval := MUL64 eval q 0x1b in
  let eval := Z.lxor (Z.shiftr eval 32) otp in
  mret (be_bytes eval).

Definition snow3g_integrity (junk : list Z) (junk_pm : list (list Z)) (count bearer direction : Z)
    (key data : list Z) : res (list Z) :=
  _snow3g_integrity junk junk_pm count (u32 (Z.shiftl bearer 27)) direction key data.

End Snow3g.
