(* ===== verification/Snow3gSpec.v ===== *)
(** * SNOW 3G: the specification and the cipher

    The stream cipher as its specification writes it (a register of sixteen words
    that shifts, S-boxes and multiplications computed in finite fields) and the
    proof that [openair3/SECU/snow3g.c], with its precomputed tables and its
    sliding pointer, produces the same keystream. *)

From S2P Require Import Prelude Snow3gTables Snow3g.

(** ** The specification *)

Module SnowRef.
Import Tables.

(** Multiplication by x in GF(2^8), modulo the polynomial of low part [c]. *)
Definition MULx (v c : Z) : Z :=
  if Z.testbit v 7 then Z.lxor (u8 (2 * v)) c else u8 (2 * v).

Fixpoint MULxPOW (v : Z) (i : nat) (c : Z) : Z :=
  match i with
  | O => v
  | S i' => MULx (MULxPOW v i' c) c
  end.

(** Byte [i] of a word, byte 0 being the most significant one. *)
Definition byte (i w : Z) : Z := Z.land (Z.shiftr w (8 * (3 - i))) 0xff.

(** [b0 || b1 || b2 || b3]. *)
Definition cat4 (b0 b1 b2 b3 : Z) : Z :=
  Z.lor (Z.lor (Z.lor (Z.shiftl b0 24) (Z.shiftl b1 16)) (Z.shiftl b2 8)) b3.

Definition MULalpha (c : Z) : Z :=
  cat4 (MULxPOW c 23 0xa9) (MULxPOW c 245 0xa9) (MULxPOW c 48 0xa9) (MULxPOW c 239 0xa9).

Definition DIValpha (c : Z) : Z :=
  cat4 (MULxPOW c 16 0xa9) (MULxPOW c 39 0xa9) (MULxPOW c 6 0xa9) (MULxPOW c 64 0xa9).

(** The substitution of the four bytes of a word by [box], then the mix of the
    columns in the field of polynomial [c]. *)
Definition sub_mix (box : Z -> Z) (c w : Z) : Z :=
  let q i := box (byte i w) in
  let x2 i := MULx (q i) c in
  let x3 i := Z.lxor (x2 i) (q i) in
  cat4 (Z.lxor (Z.lxor (Z.lxor (x3 3) (q 2)) (q 1)) (x2 0))
       (Z.lxor (Z.lxor (Z.lxor (q 3) (q 2)) (x2 1)) (x3 0))
       (Z.lxor (Z.lxor (Z.lxor (q 3) (x2 2)) (x3 1)) (q 0))
       (Z.lxor (Z.lxor (Z.lxor (x2 3) (x3 2)) (q 1)) (q 0)).

Definition S1 : Z -> Z := sub_mix (Snow3g.tab SR) 0x1b.
Definition S2 : Z -> Z := sub_mix (Snow3g.tab SQ) 0x69.

(** The shift register and the three registers of the state machine. *)
Record state := mk_state { reg : list Z; R1 : Z; R2 : Z; R3 : Z }.

Definition word (i : nat) (st : state) : Z := nth i (reg st) 0.

Definition shift_in (v : Z) (st : state) : state := {| st with reg := drop 1 (reg st) ++ [v] |}.

Definition next_word (st : state) : Z :=
  let s0 := word 0 st in
  let s11 := word 11 st in
  Z.lxor (Z.lxor (Z.lxor (Z.lxor (cat4 (byte 1 s0) (byte 2 s0) (byte 3 s0) 0)
    (MULalpha (byte 0 s0))) (word 2 st)) (cat4 0 (byte 0 s11) (byte 1 s11) (byte 2 s11)))
    (DIValpha (byte 3 s11)).

(** One clock of the state machine: its output and the new registers. *)
Definition clock (st : state) : Z * state :=
  (Z.lxor (u32 (word 15 st + R1 st)) (R2 st),
   {| st with R1 := u32 (R2 st + Z.lxor (R3 st) (word 5 st)); R2 := S1 (R1 st); R3 := S2 (R2 st) |}).

Fixpoint initialise (n : nat) (st : state) : state :=
  match n with
  | O => st
  | S n' => let '(f, st) := clock st in
            initialise n' (shift_in (Z.lxor (next_word st) f) st)
  end.

Definition step (st : state) : Z * state :=
  let '(f, st) := clock st in (Z.lxor f (word 0 st), shift_in (next_word st) st).

Fixpoint stream (n : nat) (st : state) : list Z :=
  match n with
  | O => []
  | S n' => let '(z, st) := step st in z :: stream n' st
  end.

(** The keystream of a key and an initialisation vector, both of sixteen bytes;
    its first word is dropped. *)
Definition word_at (l : list Z) (i : nat) : Z :=
  cat4 (nth i l 0) (nth (i + 1) l 0) (nth (i + 2) l 0) (nth (i + 3) l 0).

Definition start (k iv : list Z) : state :=
  mk_state (Snow3g.load (word_at k 0) (word_at k 4) (word_at k 8) (word_at k 12)
                        (word_at iv 0) (word_at iv 4) (word_at iv 8) (word_at iv 12)) 0 0 0.

Definition keystream (n : nat) (k iv : list Z) : list Z :=
  stream n (step (initialise 32 (start k iv))).2.

(** The key words are loaded in the reverse order. *)
Definition load_key (key : list Z) : list Z :=
  take 4 (drop 12 key) ++ take 4 (drop 8 key) ++ take 4 (drop 4 key) ++ take 4 key.

(** Confidentiality: the message and the keystream, byte by byte. *)
Definition f8 (count bearer direction : Z) (key data : list Z) : list Z :=
  zip_with Z.lxor data (concat (map Snow3g.be_bytes
    (keystream (Z.to_nat ((zlen data + 3) / 4)) (load_key key)
               (Snow3g.cipher_iv count bearer direction)))).

End SnowRef.

(** ** The tables *)

Module SnowTables.
Import Tables SnowRef.

Lemma byte_range i w : is_byte (byte i w).
Proof.
  unfold byte, is_byte. change 0xff with (Z.ones 8). rewrite Z.land_ones by lia.
  apply Z.mod_pos_bound. lia.
Qed.

(** A property of the 256 bytes is decided by evaluation. *)
Lemma all_bytes (P : Z -> bool) :
  forallb P (map Z.of_nat (seq 0 256)) = true -> forall b, is_byte b -> P b = true.
Proof.
  rewrite forallb_forall. intros H b Hb. apply H, in_map_iff. unfold is_byte in Hb.
  exists (Z.to_nat b). rewrite Z2Nat.id by lia. split; [done|]. apply in_seq. lia.
Qed.

Ltac by_table :=
  intros; match goal with H : is_byte ?c |- ?l = ?r =>
    apply Z.eqb_eq; revert c H; apply (all_bytes (fun c => _)); vm_compute; reflexivity end.

Lemma MULa_spec c : is_byte c -> Snow3g.MULa c = MULalpha c.
Proof. by_table. Qed.

Lemma DIVa_spec c : is_byte c -> Snow3g.DIVa c = DIValpha c.
Proof. by_table. Qed.

(** The four columns of the mix, one per byte of the word. *)
Section columns.
Variables (box : Z -> Z) (c : Z).

Definition x2 b := MULx (box b) c.
Definition x3 b := Z.lxor (MULx (box b) c) (box b).

Definition col3 b := cat4 (x3 b) (box b) (box b) (x2 b).
Definition col2 b := cat4 (box b) (box b) (x2 b) (x3 b).
Definition col1 b := cat4 (box b) (x2 b) (x3 b) (box b).
Definition col0 b := cat4 (x2 b) (x3 b) (box b) (box b).
End columns.

Lemma s1_t0_spec b : is_byte b -> Snow3g.tab s1_t0 b = col3 (Snow3g.tab SR) 0x1b b.
Proof. by_table. Qed.
Lemma s1_t1_spec b : is_byte b -> Snow3g.tab s1_t1 b = col2 (Snow3g.tab SR) 0x1b b.
Proof. by_table. Qed.
Lemma s1_t2_spec b : is_byte b -> Snow3g.tab s1_t2 b = col1 (Snow3g.tab SR) 0x1b b.
Proof. by_table. Qed.
Lemma s1_t3_spec b : is_byte b -> Snow3g.tab s1_t3 b = col0 (Snow3g.tab SR) 0x1b b.
Proof. by_table. Qed.
Lemma s2_t0_spec b : is_byte b -> Snow3g.tab s2_t0 b = col3 (Snow3g.tab SQ) 0x69 b.
Proof. by_table. Qed.
Lemma s2_t1_spec b : is_byte b -> Snow3g.tab s2_t1 b = col2 (Snow3g.tab SQ) 0x69 b.
Proof. by_table. Qed.
Lemma s2_t2_spec b : is_byte b -> Snow3g.tab s2_t2 b = col1 (Snow3g.tab SQ) 0x69 b.
Proof. by_table. Qed.
Lemma s2_t3_spec b : is_byte b -> Snow3g.tab s2_t3 b = col0 (Snow3g.tab SQ) 0x69 b.
Proof. by_table. Qed.

(** Bytes are closed under the operations of the mix. *)
Lemma byte_bits b n : is_byte b -> 8 <= n -> Z.testbit b n = false.
Proof.
  intros Hb Hn. unfold is_byte in Hb. rewrite <- (Z.mod_small b (2 ^ 8)) by lia.
  apply Z.mod_pow2_bits_high. lia.
Qed.

Lemma is_byte_mod b : is_byte b <-> b mod 2 ^ 8 = b.
Proof. unfold is_byte. pose proof (Z.mod_pos_bound b (2 ^ 8)). split; [intros; apply Z.mod_small|]; lia. Qed.

Lemma is_byte_lxor a b : is_byte a -> is_byte b -> is_byte (Z.lxor a b).
Proof.
  intros Ha Hb. apply is_byte_mod, Z.bits_inj'. intros n Hn.
  destruct (Z.ltb_spec n 8); [by rewrite Z.mod_pow2_bits_low by lia|].
  by rewrite Z.mod_pow2_bits_high, Z.lxor_spec, !byte_bits by (done || lia).
Qed.

Lemma is_byte_u8 z : is_byte (u8 z).
Proof. apply Z.mod_pos_bound. lia. Qed.

Lemma is_byte_MULx v c : is_byte c -> is_byte (MULx v c).
Proof. intros. unfold MULx. destruct (Z.testbit v 7); auto using is_byte_lxor, is_byte_u8. Qed.

Lemma is_byte_SR b : is_byte b -> is_byte (Snow3g.tab SR b).
Proof.
  intros H. cut ((0 <=? Snow3g.tab SR b) && (Snow3g.tab SR b <? 256) = true); [unfold is_byte; lia|].
  revert b H. apply (all_bytes (fun c => _)). vm_compute. reflexivity.
Qed.

Lemma is_byte_SQ b : is_byte b -> is_byte (Snow3g.tab SQ b).
Proof.
  intros H. cut ((0 <=? Snow3g.tab SQ b) && (Snow3g.tab SQ b <? 256) = true); [unfold is_byte; lia|].
  revert b H. apply (all_bytes (fun c => _)). vm_compute. reflexivity.
Qed.

(** A concatenation has the bits of its bytes, and commutes with the exclusive or. *)
Lemma cat4_bit a b c d n : is_byte a -> is_byte b -> is_byte c -> is_byte d -> 0 <= n ->
  Z.testbit (cat4 a b c d) n =
    if n <? 8 then Z.testbit d n else if n <? 16 then Z.testbit c (n - 8)
    else if n <? 24 then Z.testbit b (n - 16) else Z.testbit a (n - 24).
Proof.
  intros Ha Hb Hc Hd Hn. unfold cat4. rewrite !Z.lor_spec, !Z.shiftl_spec by done.
  destruct (Z.ltb_spec n 8).
  { by rewrite !(Z.testbit_neg_r _ (n - _)) by lia. }
  rewrite (byte_bits d n) by done. destruct (Z.ltb_spec n 16).
  { by rewrite (Z.testbit_neg_r a), (Z.testbit_neg_r b), orb_false_r by lia. }
  rewrite (byte_bits c) by (done || lia). destruct (Z.ltb_spec n 24).
  { by rewrite (Z.testbit_neg_r a), !orb_false_r by lia. }
  by rewrite (byte_bits b), !orb_false_r by (done || lia).
Qed.

Lemma cat4_lxor a b c d a' b' c' d' :
  is_byte a -> is_byte b -> is_byte c -> is_byte d ->
  is_byte a' -> is_byte b' -> is_byte c' -> is_byte d' ->
  Z.lxor (cat4 a b c d) (cat4 a' b' c' d') =
    cat4 (Z.lxor a a') (Z.lxor b b') (Z.lxor c c') (Z.lxor d d').
Proof.
  intros. apply Z.bits_inj'. intros n Hn. rewrite Z.lxor_spec, !cat4_bit by auto using is_byte_lxor.
  rewrite !Z.lxor_spec. by repeat destruct (_ <? _).
Qed.

(** The four table lookups are the substitution and the mix. *)
Lemma columns_spec (box : Z -> Z) c w :
  (forall b, is_byte b -> is_byte (box b)) -> is_byte c ->
  Z.lxor (Z.lxor (Z.lxor (col3 box c (byte 3 w)) (col2 box c (byte 2 w)))
    (col1 box c (byte 1 w))) (col0 box c (byte 0 w)) = sub_mix box c w.
Proof.
  intros Hbox Hc. unfold col3, col2, col1, col0, x2, x3, sub_mix.
  assert (forall i, is_byte (box (byte i w))) by auto using byte_range.
  rewrite !cat4_lxor by auto using is_byte_lxor, is_byte_MULx. done.
Qed.

Lemma s1_spec w : Snow3g.s1 w = S1 w.
Proof.
  unfold Snow3g.s1, S1. rewrite <- columns_spec by (exact is_byte_SR || done).
  rewrite <- s1_t0_spec, <- s1_t1_spec, <- s1_t2_spec, <- s1_t3_spec by apply byte_range. done.
Qed.

Lemma s2_spec w : Snow3g.s2 w = S2 w.
Proof.
  unfold Snow3g.s2, S2. rewrite <- columns_spec by (exact is_byte_SQ || done).
  rewrite <- s2_t0_spec, <- s2_t1_spec, <- s2_t2_spec, <- s2_t3_spec by apply byte_range. done.
Qed.

End SnowTables.

(** ** The sliding shift register *)

Module SnowLfsr.
Import Snow3g SnowRef SnowTables.

(** The sixteen words that the pointer shows. *)
Definition window (st : t) : list Z := take 16 (drop (Z.to_nat (s st)) (_s st)).

(** The array is twice the register, and the words behind the pointer are also
    sixteen places further. *)
Record slides (st : t) : Prop := {
  sl_len : length (_s st) = 32%nat;
  sl_ptr : 0 <= s st < 16;
  sl_mirror : forall j, (j < Z.to_nat (s st))%nat -> _s st !! j = _s st !! (j + 16)%nat
}.

(** The specification's state that a state of the code stands for. *)
Definition view (st : t) : state := mk_state (window st) (r1 st) (r2 st) (r3 st).

Lemma rd_ok st i : slides st -> 0 <= i < 16 -> rd st i = Ok (word (Z.to_nat i) (view st)).
Proof.
  intros [Hlen Hptr _] Hi. apply zget_ok. split; [lia|].
  unfold word, view, window; simpl. rewrite nth_lookup, lookup_take_lt by lia.
  rewrite lookup_drop. rewrite Z2Nat.inj_add by lia.
  destruct (lookup_lt_is_Some_2 (_s st) (Z.to_nat (s st) + Z.to_nat i)) as [x Hx]; [lia|].
  by rewrite Hx.
Qed.

Lemma push_ok st v : slides st ->
  exists st', push st v = Ok st' /\ slides st' /\ view st' = shift_in v (view st).
Proof.
  intros [Hlen Hptr Hmir]. unfold push.
  rewrite zset_ok by (unfold zlen; lia). rewrite res_bind_unfold.
  rewrite zset_ok by (rewrite zlen_insert; unfold zlen; lia). rewrite res_bind_unfold.
  set (mem := <[_ := v]> (<[_ := v]> (_s st))).
  assert (Hmem : length mem = 32%nat) by (unfold mem; by rewrite !length_insert).
  assert (Hl : forall j, mem !! j = if decide (j = Z.to_nat (s st) \/ j = (Z.to_nat (s st) + 16)%nat)
                                   then Some v else _s st !! j).
  { intros j. unfold mem. rewrite Z2Nat.inj_add by lia. change (Z.to_nat 16) with 16%nat.
    destruct (decide _) as [[->| ->]|Hne].
    - rewrite list_lookup_insert_ne by lia. apply list_lookup_insert_eq. lia.
    - apply list_lookup_insert_eq. rewrite length_insert. lia.
    - by rewrite !list_lookup_insert_ne by lia. }
  eexists. split; [reflexivity|]. split.
  - split; cbn [_s s]; [done| |].
    + destruct (Z.eqb_spec (s st + 1) 16); lia.
    + intros j Hj. rewrite !Hl. destruct (Z.eqb_spec (s st + 1) 16); [simpl in Hj; lia|].
      destruct (decide (j = Z.to_nat (s st))) as [->|Hne].
      { rewrite !decide_True by lia. done. }
      rewrite !decide_False by lia. apply Hmir. lia.
  - unfold view, shift_in, window; cbn [_s s r1 r2 r3 reg]. f_equal.
    apply list_eq. intros i. destruct (decide (i < 16)%nat) as [Hi|Hi].
    + rewrite lookup_take_lt, lookup_drop, Hl by done.
      destruct (decide (i = 15)%nat) as [->|Hi15].
      * rewrite lookup_app_r; rewrite length_drop, length_take, length_drop, Hlen; [|lia].
        replace (15 - _)%nat with 0%nat by lia. simpl.
        destruct (Z.eqb_spec (s st + 1) 16); rewrite decide_True by lia; done.
      * rewrite lookup_app_l by (rewrite length_drop, length_take, length_drop, Hlen; lia).
        rewrite lookup_drop, lookup_take_lt, lookup_drop by lia.
        destruct (Z.eqb_spec (s st + 1) 16).
        -- rewrite decide_False by lia. simpl. rewrite Hmir by lia. f_equal. lia.
        -- rewrite decide_False by lia. f_equal. lia.
    + rewrite !lookup_ge_None_2; [done| |].
      * rewrite length_app, length_drop, length_take, length_drop, Hlen. change (length [v]) with 1%nat. lia.
      * rewrite length_take. lia.
Qed.

Lemma feedback_ok st : slides st -> feedback st = Ok (next_word (view st)).
Proof.
  intros Hs. unfold feedback. rewrite !rd_ok by (done || lia). rewrite !res_bind_unfold.
  unfold next_word. rewrite <- MULa_spec, <- DIVa_spec by apply byte_range.
  unfold mret, res_ret. do 2 f_equal. unfold cat4, byte. simpl Z.mul.
  rewrite Z.shiftr_0_r, Z.shiftl_0_l, Z.lor_0_r. done.
Qed.

Lemma lfsr_init_ok st f : slides st ->
  exists st', lfsr_init st f = Ok st' /\ slides st' /\
    view st' = shift_in (Z.lxor (next_word (view st)) f) (view st).
Proof. intros. unfold lfsr_init. rewrite feedback_ok by done. by apply push_ok. Qed.

Lemma lfsr_keystream_ok st : slides st ->
  exists st', lfsr_keystream st = Ok st' /\ slides st' /\ view st' = shift_in (next_word (view st)) (view st).
Proof. intros. unfold lfsr_keystream. rewrite feedback_ok by done. by apply push_ok. Qed.

Lemma clock_fsm_ok st : slides st ->
  exists st', clock_fsm st = Ok ((clock (view st)).1, st') /\ slides st' /\ view st' = (clock (view st)).2.
Proof.
  intros Hs. unfold clock_fsm. rewrite !rd_ok by (done || lia). rewrite !res_bind_unfold.
  eexists. split; [reflexivity|]. split; [by destruct Hs|].
  unfold view, clock; cbn. by rewrite s1_spec, s2_spec.
Qed.

Lemma generate_keystream_step_ok st : slides st ->
  exists st', generate_keystream_step st = Ok ((step (view st)).1, st') /\ slides st' /\
    view st' = (step (view st)).2.
Proof.
  intros Hs. unfold generate_keystream_step.
  destruct (clock_fsm_ok st Hs) as (st1 & -> & Hs1 & Hv1). rewrite res_bind_unfold.
  rewrite rd_ok by (done || lia). rewrite res_bind_unfold.
  destruct (lfsr_keystream_ok st1 Hs1) as (st2 & -> & Hs2 & Hv2). rewrite res_bind_unfold.
  unfold step. rewrite (surjective_pairing (clock (view st))). cbn [fst snd].
  rewrite <- Hv1. eauto.
Qed.

Lemma init_rounds_ok n st : slides st ->
  exists st', init_rounds n st = Ok st' /\ slides st' /\ view st' = initialise n (view st).
Proof.
  revert st. induction n as [|n IH]; intros st Hs; [by exists st|]. cbn [init_rounds initialise].
  destruct (clock_fsm_ok st Hs) as (st1 & -> & Hs1 & Hv1). rewrite res_bind_unfold.
  destruct (lfsr_init_ok st1 (clock (view st)).1 Hs1) as (st2 & -> & Hs2 & Hv2).
  rewrite res_bind_unfold. destruct (IH st2 Hs2) as (st3 & -> & Hs3 & Hv3).
  exists st3. split_and!; [done..|]. rewrite Hv3, Hv2, Hv1.
  by rewrite (surjective_pairing (clock (view st))).
Qed.

Lemma GET32_ok l i : 0 <= i -> i + 4 <= zlen l -> GET32 l i = Ok (word_at l (Z.to_nat i)).
Proof.
  intros Hi Hl. unfold GET32, zlen in *.
  assert (Hg : forall j : nat, (j < 4)%nat ->
    zget l (i + Z.of_nat j) = Ok (nth (Z.to_nat i + j) l 0)).
  { intros j Hj. apply zget_ok. split; [lia|]. rewrite Z2Nat.inj_add, Nat2Z.id, nth_lookup by lia.
    destruct (lookup_lt_is_Some_2 l (Z.to_nat i + j)) as [x Hx]; [lia|]. by rewrite Hx. }
  pose proof (Hg 0%nat ltac:(lia)) as H0. rewrite Z.add_0_r, Nat.add_0_r in H0.
  pose proof (Hg 1%nat ltac:(lia)) as H1. pose proof (Hg 2%nat ltac:(lia)) as H2.
  pose proof (Hg 3%nat ltac:(lia)) as H3.
  change (Z.of_nat 1) with 1 in H1. change (Z.of_nat 2) with 2 in H2.
  change (Z.of_nat 3) with 3 in H3.
  by rewrite H0, H1, H2, H3.
Qed.

(** Whatever the memory held, the initialisation ends in the state of the
    specification. *)
Lemma snow3g_init_ok junk k iv :
  length junk = 32%nat -> length k = 16%nat -> length iv = 16%nat ->
  exists st, snow3g_init junk k iv = Ok st /\ slides st /\
    view st = (step (initialise 32 (start k iv))).2.
Proof.
  intros Hj Hk Hiv. unfold snow3g_init.
  rewrite !GET32_ok by (unfold zlen; lia). rewrite !res_bind_unfold.
  set (l := load _ _ _ _ _ _ _ _).
  assert (Hl : length l = 16%nat) by reflexivity.
  rewrite zwrite_ok by (unfold zlen; lia). rewrite res_bind_unfold.
  replace (Z.to_nat (0 + zlen l)) with 16%nat by (unfold zlen; rewrite Hl; lia).
  destruct (init_rounds_ok 32 {| _s := l ++ drop 16 junk; s := 0; r1 := 0; r2 := 0; r3 := 0 |})
    as (st1 & Hst1 & Hs1 & Hv1).
  { split; cbn [_s s]; [|lia|simpl; lia]. rewrite length_app, length_drop. lia. }
  change (Z.to_nat 0) with 0%nat. rewrite take_0, app_nil_l, Hst1, res_bind_unfold.
  destruct (clock_fsm_ok st1 Hs1) as (st2 & -> & Hs2 & Hv2). rewrite res_bind_unfold.
  destruct (lfsr_keystream_ok st2 Hs2) as (st3 & -> & Hs3 & Hv3).
  exists st3. split_and!; [done..|].
  assert (view st1 = initialise 32 (start k iv)) as <-.
  { rewrite Hv1. f_equal. }
  rewrite Hv3, Hv2. unfold step. by rewrite (surjective_pairing (clock (view st1))).
Qed.

Lemma keystream_words_ok n st : slides st -> keystream_words n st = Ok (stream n (view st)).
Proof.
  revert st. induction n as [|n IH]; intros st Hs; [done|]. cbn [keystream_words stream].
  destruct (generate_keystream_step_ok st Hs) as (st1 & -> & Hs1 & Hv1). rewrite res_bind_unfold.
  rewrite IH by done. rewrite Hv1. by rewrite (surjective_pairing (step (view st))).
Qed.

Lemma length_stream n st : length (stream n st) = n.
Proof.
  revert st. induction n as [|n IH]; intros st; [done|]. cbn [stream].
  rewrite (surjective_pairing (step st)). simpl. by rewrite IH.
Qed.

Lemma permute_key_ok key : length key = 16%nat -> permute_key key = Ok (load_key key).
Proof. intros. unfold permute_key. by rewrite !zslice_ok by (unfold zlen; lia). Qed.

Lemma length_load_key key : length key = 16%nat -> length (load_key key) = 16%nat.
Proof. intros. unfold load_key. rewrite !length_app, !length_take, !length_drop. lia. Qed.

Lemma length_be_bytes_concat l : length (concat (map be_bytes l)) = (4 * length l)%nat.
Proof. induction l as [|z l IH]; [done|]. simpl. rewrite IH. lia. Qed.

Lemma snow3g_ciphering_ok junk count bearer direction key data :
  length junk = 32%nat -> length key = 16%nat ->
  snow3g_ciphering junk count bearer direction key data = Ok (f8 count bearer direction key data).
Proof.
  intros Hj Hk. unfold snow3g_ciphering. rewrite permute_key_ok by done. rewrite res_bind_unfold.
  destruct (snow3g_init_ok junk (load_key key) (cipher_iv count bearer direction))
    as (st & -> & Hs & Hv); [done|by apply length_load_key|done|].
  rewrite res_bind_unfold, keystream_words_ok by done. rewrite res_bind_unfold, Hv. done.
Qed.

Lemma keystream_long count bearer direction key (data : list Z) :
  (length data <= length (concat (map be_bytes
    (keystream (Z.to_nat ((zlen data + 3) / 4)) (load_key key)
       (cipher_iv count bearer direction)))))%nat.
Proof.
  rewrite length_be_bytes_concat. unfold keystream. rewrite length_stream. unfold zlen. zmod.
Qed.

Lemma length_f8 count bearer direction key data :
  length (f8 count bearer direction key data) = length data.
Proof.
  unfold f8. rewrite length_zip_with_l; [done|]. apply keystream_long.
Qed.

Lemma zip_lxor_cancel (l m : list Z) :
  (length l <= length m)%nat -> zip_with Z.lxor (zip_with Z.lxor l m) m = l.
Proof.
  revert m. induction l as [|x l IH]; intros [|y m] Hl; simpl in *; try done; [lia|].
  rewrite IH by lia. by rewrite Z.lxor_assoc, Z.lxor_nilpotent, Z.lxor_0_r.
Qed.

(** Deciphering is ciphering again. *)
Lemma f8_involutive count bearer direction key data :
  f8 count bearer direction key (f8 count bearer direction key data) = data.
Proof.
  unfold f8 at 1. unfold zlen. rewrite length_f8. apply zip_lxor_cancel, keystream_long.
Qed.

End SnowLfsr.
