(* ===== verification/Snow3gMac.v ===== *)
(** * SNOW 3G: the integrity function

    The integrity function of [openair3/SECU/snow3g.c] evaluates a polynomial over
    GF(2^64) with a table of the multiples of its point, filled at each call; the
    specification multiplies bit by bit.  This file proves that both compute the
    same message authentication code. *)

From S2P Require Import Prelude Snow3gTables Snow3g Snow3gSpec.

(** ** The specification *)

Module MacRef.
Import Snow3g SnowRef.

(** Block [i] of the message, padded with zeros. *)
Definition block (data : list Z) (i : nat) : Z :=
  let b j := nth (8 * i + j) data 0 in
  Z.lor (Z.lor (Z.lor (Z.lor (Z.lor (Z.lor (Z.lor
    (Z.shiftl (b 0%nat) 56) (Z.shiftl (b 1%nat) 48)) (Z.shiftl (b 2%nat) 40))
    (Z.shiftl (b 3%nat) 32)) (Z.shiftl (b 4%nat) 24)) (Z.shiftl (b 5%nat) 16))
    (Z.shiftl (b 6%nat) 8)) (b 7%nat).

(** The number of blocks. *)
Definition n_blocks (data : list Z) : nat := Z.to_nat ((zlen data * 8 + 63) / 64).

(** The value of the polynomial at [p]. *)
Definition evaluate (p : Z) (data : list Z) : Z :=
  foldl (fun eval i => MUL64 (Z.lxor eval (block data i)) p 0x1b) 0 (seq 0 (n_blocks data)).

Definition f9 (count fresh direction : Z) (key data : list Z) : list Z :=
  let zs := keystream 5 (load_key key) (integrity_iv count fresh direction) in
  let z i := nth i zs 0 in
  let p := Z.lor (Z.shiftl (z 0%nat) 32) (z 1%nat) in
  let q := Z.lor (Z.shiftl (z 2%nat) 32) (z 3%nat) in
  let eval := Z.lxor (evaluate p data) (zlen data * 8) in
  be_bytes (Z.lxor (Z.shiftr (MUL64 eval q 0x1b) 32) (z 4%nat)).

End MacRef.

(** ** Sums of exclusive ors *)

Module Xor.

Definition xsum (f : nat -> Z) (l : list nat) : Z := foldr (fun i acc => Z.lxor (f i) acc) 0 l.

Lemma xsum_ext f g l : (forall i, i ∈ l -> f i = g i) -> xsum f l = xsum g l.
Proof.
  induction l as [|i l IH]; intros H; [done|]. simpl. rewrite (H i), IH; [done| |left].
  intros; apply H; by right.
Qed.

Lemma xsum_lxor f g l : xsum (fun i => Z.lxor (f i) (g i)) l = Z.lxor (xsum f l) (xsum g l).
Proof.
  induction l as [|i l IH]; [done|]. simpl. rewrite IH, !Z.lxor_assoc. f_equal.
  rewrite <- !Z.lxor_assoc. f_equal. apply Z.lxor_comm.
Qed.

Lemma xsum_zero l : xsum (fun _ => 0) l = 0.
Proof. induction l as [|i l IH]; [done|]. simpl. by rewrite IH. Qed.

(** A function that commutes with the exclusive or commutes with sums. *)
Lemma xsum_hom (h : Z -> Z) f l :
  h 0 = 0 -> (forall a b, h (Z.lxor a b) = Z.lxor (h a) (h b)) ->
  h (xsum f l) = xsum (fun i => h (f i)) l.
Proof. intros H0 Hh. induction l as [|i l IH]; [done|]. simpl. by rewrite Hh, IH. Qed.

Lemma xsum_swap (f : nat -> nat -> Z) l m :
  xsum (fun i => xsum (f i) m) l = xsum (fun j => xsum (fun i => f i j) l) m.
Proof.
  induction l as [|i l IH]; simpl; [by rewrite xsum_zero|]. by rewrite IH, <- xsum_lxor.
Qed.

Lemma xsum_app f l m : xsum f (l ++ m) = Z.lxor (xsum f l) (xsum f m).
Proof. induction l as [|i l IH]; [done|]. simpl. by rewrite IH, Z.lxor_assoc. Qed.

Lemma xsum_foldl (f : nat -> Z) l a :
  foldl (fun acc i => Z.lxor acc (f i)) a l = Z.lxor a (xsum f l).
Proof.
  revert a. induction l as [|i l IH]; intros a; simpl; [by rewrite Z.lxor_0_r|].
  by rewrite IH, Z.lxor_assoc.
Qed.

Lemma xsum_map f (g : nat -> nat) l : xsum f (map g l) = xsum (fun i => f (g i)) l.
Proof. induction l as [|i l IH]; [done|]. simpl. by rewrite IH. Qed.

(** [f] when the bit is set, 0 otherwise. *)
Definition gate (b : bool) (z : Z) : Z := if b then z else 0.

Lemma gate_lxor b z z' : gate b (Z.lxor z z') = Z.lxor (gate b z) (gate b z').
Proof. by destruct b. Qed.

Lemma gate_xorb b b' z : gate (xorb b b') z = Z.lxor (gate b z) (gate b' z).
Proof. destruct b, b'; simpl; rewrite ?Z.lxor_0_r, ?Z.lxor_nilpotent; done. Qed.

Lemma gate_xsum b f l : gate b (xsum f l) = xsum (fun i => gate b (f i)) l.
Proof. destruct b; [done|]. simpl. by rewrite xsum_zero. Qed.

Lemma gate_gate b b' z : gate b (gate b' z) = gate b' (gate b z).
Proof. by destruct b, b'. Qed.

(** The bits of a number of [n] bits. *)
Lemma xsum_bits (n : nat) v : 0 <= v < 2 ^ Z.of_nat n ->
  v = xsum (fun j => gate (Z.testbit v (Z.of_nat j)) (2 ^ Z.of_nat j)) (seq 0 n).
Proof.
  revert v. induction n as [|n IH]; intros v Hv; [simpl in *; lia|].
  rewrite seq_S, xsum_app. cbn [xsum foldr]. rewrite Z.lxor_0_r, Nat.add_0_l.
  assert (Hm : v mod 2 ^ Z.of_nat n =
    xsum (fun j => gate (Z.testbit v (Z.of_nat j)) (2 ^ Z.of_nat j)) (seq 0 n)).
  { rewrite (IH (v mod 2 ^ Z.of_nat n)) by (apply Z.mod_pos_bound; lia).
    apply xsum_ext. intros j Hj. apply elem_of_seq in Hj.
    by rewrite Z.mod_pow2_bits_low by lia. }
  rewrite <- Hm. apply Z.bits_inj'. intros i Hi.
  rewrite Z.lxor_spec. destruct (Z.ltb_spec i (Z.of_nat n)).
  { rewrite Z.mod_pow2_bits_low by lia. destruct (Z.testbit v (Z.of_nat n)); simpl;
      [rewrite Z.pow2_bits_false by lia|rewrite Z.bits_0]; by rewrite xorb_false_r. }
  rewrite Z.mod_pow2_bits_high, xorb_false_l by lia.
  destruct (Z.eq_dec i (Z.of_nat n)) as [->|Hne].
  { destruct (Z.testbit v (Z.of_nat n)) eqn:E; simpl; [by rewrite Z.pow2_bits_true by lia|].
    by rewrite Z.bits_0. }
  replace (Z.testbit v i) with false.
  2: { rewrite <- (Z.mod_small v (2 ^ Z.of_nat (S n))), Z.mod_pow2_bits_high by lia. done. }
  destruct (Z.testbit v _); simpl; [by rewrite Z.pow2_bits_false by lia|by rewrite Z.bits_0].
Qed.

End Xor.

(** ** Widths *)

Module Width.
Import Snow3g SnowRef SnowTables.

(** A word of [n] bits. *)
Definition fits (n z : Z) : Prop := 0 <= z < 2 ^ n.

Lemma fits_bits n z : 0 <= n ->
  (forall i, n <= i -> Z.testbit z i = false) -> 0 <= z -> fits n z.
Proof.
  intros Hn H Hz. split; [done|].
  replace z with (z mod 2 ^ n); [apply Z.mod_pos_bound; lia|].
  apply Z.bits_inj'. intros i Hi. destruct (Z.ltb_spec i n).
  - by rewrite Z.mod_pow2_bits_low by lia.
  - by rewrite Z.mod_pow2_bits_high, H by lia.
Qed.

Lemma bits_fits n z i : fits n z -> 0 <= n <= i -> Z.testbit z i = false.
Proof. intros Hz Hi. rewrite <- (Z.mod_small z (2 ^ n) Hz). apply Z.mod_pow2_bits_high. lia. Qed.

Lemma fits_lxor n a b : 0 <= n -> fits n a -> fits n b -> fits n (Z.lxor a b).
Proof.
  intros Hn Ha Hb. apply fits_bits; [done| |].
  - intros i Hi. by rewrite Z.lxor_spec, !(bits_fits n) by (done || lia).
  - apply Z.lxor_nonneg. unfold fits in *. lia.
Qed.

Lemma fits_lor n a b : 0 <= n -> fits n a -> fits n b -> fits n (Z.lor a b).
Proof.
  intros Hn Ha Hb. apply fits_bits; [done| |].
  - intros i Hi. by rewrite Z.lor_spec, !(bits_fits n) by (done || lia).
  - apply Z.lor_nonneg. unfold fits in *. lia.
Qed.

Lemma fits_land n a b : 0 <= n -> fits n b -> fits n (Z.land a b).
Proof.
  intros Hn Hb. apply fits_bits; [done| |].
  - intros i Hi. rewrite Z.land_spec, (bits_fits n b) by (done || lia). apply andb_false_r.
  - apply Z.land_nonneg. right. apply Hb.
Qed.

Lemma fits_shiftl n k z : 0 <= k -> 0 <= n -> fits n z -> fits (n + k) (Z.shiftl z k).
Proof.
  intros Hk Hn Hz. unfold fits in *. rewrite Z.shiftl_mul_pow2, Z.pow_add_r by lia. nia.
Qed.

Lemma fits_mono n m z : n <= m -> fits n z -> fits m z.
Proof. intros H Hz. unfold fits in *. pose proof (Z.pow_le_mono_r 2 n m). lia. Qed.

Lemma fits_byte n k z : is_byte z -> 0 <= k -> 8 + k <= n -> fits n (Z.shiftl z k).
Proof. intros. apply (fits_mono (8 + k)); [done|]. by apply fits_shiftl. Qed.

Lemma fits_byte0 n z : is_byte z -> 8 <= n -> fits n z.
Proof. intros. by apply (fits_mono 8). Qed.

Lemma fits_cat4 a b c d : is_byte a -> is_byte b -> is_byte c -> is_byte d -> fits 32 (cat4 a b c d).
Proof.
  intros. unfold cat4. repeat apply fits_lor; try lia; try (apply fits_byte; done || lia).
  by apply fits_byte0.
Qed.

Lemma is_byte_MULxPOW v i c : is_byte v -> is_byte c -> is_byte (MULxPOW v i c).
Proof. intros Hv Hc. destruct i; [done|]. by apply is_byte_MULx. Qed.

Lemma fits_MULalpha c : is_byte c -> fits 32 (MULalpha c).
Proof.
  intros Hc. assert (H9 : is_byte 0xa9) by done. unfold MULalpha.
  apply fits_cat4; exact (is_byte_MULxPOW _ _ _ Hc H9).
Qed.

Lemma fits_DIValpha c : is_byte c -> fits 32 (DIValpha c).
Proof.
  intros Hc. assert (H9 : is_byte 0xa9) by done. unfold DIValpha.
  apply fits_cat4; exact (is_byte_MULxPOW _ _ _ Hc H9).
Qed.

Lemma fits_sub_mix (box : Z -> Z) c w :
  (forall b, is_byte b -> is_byte (box b)) -> is_byte c -> fits 32 (sub_mix box c w).
Proof.
  intros Hbox Hc. assert (forall i, is_byte (box (byte i w))) by auto using byte_range.
  unfold sub_mix. cbv zeta. apply fits_cat4; auto 8 using is_byte_lxor, is_byte_MULx.
Qed.

#[local] Opaque MULalpha DIValpha sub_mix cat4.

(** The state holds words of 32 bits. *)
Record words (st : state) : Prop := {
  w_reg : Forall (fits 32) (reg st);
  w_R1 : fits 32 (R1 st);
  w_R2 : fits 32 (R2 st);
  w_R3 : fits 32 (R3 st)
}.

Lemma nth_fits (l : list Z) i : Forall (fits 32) l -> fits 32 (nth i l 0).
Proof.
  intros Hl. rewrite nth_lookup. destruct (l !! i) as [x|] eqn:E; [|done].
  exact (Forall_lookup_1 _ _ _ _ Hl E).
Qed.

Lemma word_fits i st : words st -> fits 32 (word i st).
Proof.
  intros [Hr _ _ _]. by apply nth_fits.
Qed.

Lemma fits_u32 z : fits 32 (u32 z).
Proof. apply Z.mod_pos_bound. lia. Qed.

Lemma next_word_fits st : words st -> fits 32 (next_word st).
Proof.
  intros Hs. unfold next_word.
  repeat apply fits_lxor; try lia; try (apply word_fits; done);
    first [apply fits_cat4 | apply fits_MULalpha | apply fits_DIValpha];
    first [apply byte_range | done].
Qed.

Lemma shift_in_words v st : words st -> fits 32 v -> words (shift_in v st).
Proof.
  intros [Hr H1 H2 H3] Hv. split; simpl; [|done..].
  apply Forall_app. split; [by apply Forall_drop|]. by constructor.
Qed.

Lemma clock_words st : words st -> fits 32 (clock st).1 /\ words (clock st).2.
Proof.
  intros Hs. pose proof Hs as [Hr H1 H2 H3]. split; [apply fits_lxor; [lia|apply fits_u32|done]|].
  split; simpl; [done|apply fits_u32| |].
  - by apply fits_sub_mix; [apply is_byte_SR|].
  - by apply fits_sub_mix; [apply is_byte_SQ|].
Qed.

Lemma step_words st : words st -> fits 32 (step st).1 /\ words (step st).2.
Proof.
  intros Hs. destruct (clock_words st Hs) as [Hf Hc]. unfold step.
  rewrite (surjective_pairing (clock st)). simpl. split.
  - apply fits_lxor; [lia|done|by apply word_fits].
  - apply shift_in_words; [done|by apply next_word_fits].
Qed.

Lemma initialise_words n st : words st -> words (initialise n st).
Proof.
  revert st. induction n as [|n IH]; intros st Hs; [done|]. cbn [initialise].
  destruct (clock_words st Hs) as [Hf Hc]. rewrite (surjective_pairing (clock st)).
  apply IH, shift_in_words; [done|]. apply fits_lxor; [lia|by apply next_word_fits|done].
Qed.

Lemma stream_words n st : words st -> Forall (fits 32) (stream n st).
Proof.
  revert st. induction n as [|n IH]; intros st Hs; [by constructor|]. cbn [stream].
  destruct (step_words st Hs) as [Hz Hn]. rewrite (surjective_pairing (step st)).
  constructor; [done|]. by apply IH.
Qed.

Lemma nth_byte (l : list Z) i : Forall is_byte l -> is_byte (nth i l 0).
Proof.
  intros Hl. rewrite nth_lookup. destruct (l !! i) as [x|] eqn:E; [|done].
  exact (Forall_lookup_1 _ _ _ _ Hl E).
Qed.

Lemma word_at_fits l i : Forall is_byte l -> fits 32 (word_at l i).
Proof. intros. by apply fits_cat4; apply nth_byte. Qed.

Lemma start_words k iv : Forall is_byte k -> Forall is_byte iv -> words (start k iv).
Proof.
  intros Hk Hiv. split; [|done..]. unfold start, load; simpl.
  assert (fits 32 0xffffffff) by done.
  repeat (apply Forall_cons_2; [|]); [..|apply Forall_nil_2];
    repeat (apply fits_lxor; [lia| |]); (assumption || by apply word_at_fits).
Qed.

Lemma keystream_fits n k iv : Forall is_byte k -> Forall is_byte iv ->
  Forall (fits 32) (keystream n k iv).
Proof. intros. by apply stream_words, step_words, initialise_words, start_words. Qed.

Lemma is_byte_land z : is_byte (Z.land z 0xff).
Proof. rewrite <- (Z.shiftr_0_r z). apply (byte_range 3). Qed.

Lemma be_bytes_ok w : Forall is_byte (be_bytes w).
Proof. unfold be_bytes. repeat (apply Forall_cons_2; [apply is_byte_land|]). apply Forall_nil_2. Qed.

Lemma integrity_iv_bytes count fresh direction : Forall is_byte (integrity_iv count fresh direction).
Proof.
  assert (is_byte (Z.shiftl (Z.land direction 1) 7)).
  { change 1 with (Z.ones 1) at 1. rewrite Z.land_ones, Z.shiftl_mul_pow2 by lia.
    unfold is_byte. pose proof (Z.mod_pos_bound direction (2 ^ 1)). lia. }
  unfold integrity_iv. repeat (apply Forall_app; split); try apply be_bytes_ok.
  repeat (apply Forall_cons_2; [|]); [..|apply Forall_nil_2]; auto using is_byte_lxor, is_byte_land.
Qed.

Lemma load_key_bytes key : Forall is_byte key -> Forall is_byte (load_key key).
Proof. intros. unfold load_key. repeat (apply Forall_app; split); auto using Forall_take, Forall_drop. Qed.

End Width.

(** ** Multiplication in GF(2^64) *)

Module Gf64.
Import Snow3g Xor.

(** [MULx64] commutes with the exclusive or, on words of 64 bits. *)
Lemma u64_lxor a b : u64 (Z.lxor a b) = Z.lxor (u64 a) (u64 b).
Proof.
  unfold u64. apply Z.bits_inj'. intros n Hn. rewrite Z.lxor_spec.
  destruct (Z.ltb_spec n 64).
  - by rewrite !Z.mod_pow2_bits_low, Z.lxor_spec by lia.
  - by rewrite !Z.mod_pow2_bits_high by lia.
Qed.

Lemma MULx64_gate v c : MULx64 v c = Z.lxor (u64 (Z.shiftl v 1)) (gate (Z.testbit v 63) c).
Proof.
  unfold MULx64. rewrite land_pow2_testbit by lia.
  destruct (Z.testbit v 63); simpl; [done|]. by rewrite Z.lxor_0_r.
Qed.

Lemma MULx64_lxor a b c : MULx64 (Z.lxor a b) c = Z.lxor (MULx64 a c) (MULx64 b c).
Proof.
  rewrite !MULx64_gate, Z.shiftl_lxor, u64_lxor, Z.lxor_spec, gate_xorb.
  rewrite !Z.lxor_assoc. f_equal. rewrite <- !Z.lxor_assoc. f_equal. apply Z.lxor_comm.
Qed.

Lemma MULxPOW64_lxor a b i c : MULxPOW64 (Z.lxor a b) i c = Z.lxor (MULxPOW64 a i c) (MULxPOW64 b i c).
Proof. induction i as [|i IH]; [done|]. simpl. by rewrite IH, MULx64_lxor. Qed.

Lemma MULxPOW64_0 i c : MULxPOW64 0 i c = 0.
Proof. induction i as [|i IH]; [done|]. simpl. by rewrite IH. Qed.

Lemma MULxPOW64_add v i j c : MULxPOW64 (MULxPOW64 v j c) i c = MULxPOW64 v (i + j) c.
Proof. induction i as [|i IH]; [done|]. simpl. by rewrite IH. Qed.

Lemma MULxPOW64_gate b v i c : MULxPOW64 (gate b v) i c = gate b (MULxPOW64 v i c).
Proof. destruct b; [done|]. apply MULxPOW64_0. Qed.

(** The product as the sum over the bits of the second factor. *)
Lemma MUL64_xsum v p c :
  MUL64 v p c = xsum (fun i => gate (Z.testbit p (Z.of_nat i)) (MULxPOW64 v i c)) (seq 0 64).
Proof.
  unfold MUL64. rewrite <- (Z.lxor_0_l (xsum _ _)), <- xsum_foldl.
  generalize (seq 0 64) as l, 0 at 2 3. induction l as [|i l IH]; intros acc; [done|]. simpl.
  rewrite land_shiftr_1, IH by lia. f_equal.
  destruct (Z.testbit p (Z.of_nat i)); simpl; [done|]. by rewrite Z.lxor_0_r.
Qed.

(** The powers of x below 64 are the powers of two. *)
Lemma MULxPOW64_1 j c : (j < 64)%nat -> MULxPOW64 1 j c = 2 ^ Z.of_nat j.
Proof.
  induction j as [|j IH]; intros Hj; [done|]. simpl MULxPOW64. rewrite IH by lia.
  rewrite MULx64_gate, Z.pow2_bits_false by lia. simpl. rewrite Z.lxor_0_r.
  rewrite Z.shiftl_mul_pow2 by lia. unfold u64. rewrite Nat2Z.inj_succ, Z.pow_succ_r by lia.
  replace (2 ^ Z.of_nat j * 2 ^ 1) with (2 ^ (Z.of_nat j + 1)) by (by rewrite Z.pow_add_r by lia).
  rewrite Z.mod_small; [rewrite Z.pow_add_r by lia; lia|].
  split; [lia|]. apply Z.pow_lt_mono_r; lia.
Qed.

Lemma MULxPOW64_bits v i c : 0 <= v < 2 ^ 64 ->
  MULxPOW64 v i c =
    xsum (fun j => gate (Z.testbit v (Z.of_nat j)) (MULxPOW64 1 (i + j) c)) (seq 0 64).
Proof.
  intros Hv. rewrite (xsum_bits 64 v Hv) at 1.
  rewrite (xsum_hom (fun z => MULxPOW64 z i c)).
  - apply xsum_ext. intros j Hj. apply elem_of_seq in Hj.
    rewrite MULxPOW64_gate, <- (MULxPOW64_1 j c), MULxPOW64_add by lia. done.
  - apply MULxPOW64_0.
  - intros. apply MULxPOW64_lxor.
Qed.

(** The multiplication is commutative. *)
Lemma MUL64_comm v p c : 0 <= v < 2 ^ 64 -> 0 <= p < 2 ^ 64 -> MUL64 v p c = MUL64 p v c.
Proof.
  intros Hv Hp. rewrite !MUL64_xsum.
  transitivity (xsum (fun i => xsum (fun j => gate (Z.testbit p (Z.of_nat i))
    (gate (Z.testbit v (Z.of_nat j)) (MULxPOW64 1 (i + j) c))) (seq 0 64)) (seq 0 64)).
  - apply xsum_ext. intros i _. rewrite (MULxPOW64_bits v) by done. apply gate_xsum.
  - rewrite xsum_swap. apply xsum_ext. intros j _. rewrite (MULxPOW64_bits p) by done.
    rewrite gate_xsum. apply xsum_ext. intros i _. rewrite gate_gate. by rewrite Nat.add_comm.
Qed.

Lemma u64_range z : 0 <= u64 z < 2 ^ 64.
Proof. apply Z.mod_pos_bound. lia. Qed.

Lemma lxor_range a b : 0 <= a < 2 ^ 64 -> 0 <= b < 2 ^ 64 -> 0 <= Z.lxor a b < 2 ^ 64.
Proof. by apply Width.fits_lxor. Qed.

Lemma MULxPOW64_range v i : 0 <= v < 2 ^ 64 -> 0 <= MULxPOW64 v i 0x1b < 2 ^ 64.
Proof.
  intros Hv. induction i as [|i IH]; [done|]. simpl MULxPOW64. rewrite MULx64_gate.
  apply lxor_range; [apply u64_range|]. destruct (Z.testbit _ 63); simpl; lia.
Qed.

Lemma xsum_range f l : (forall i, i ∈ l -> 0 <= f i < 2 ^ 64) -> 0 <= xsum f l < 2 ^ 64.
Proof.
  induction l as [|i l IH]; intros H; [simpl; lia|]. simpl.
  apply lxor_range; [apply H; left|]. apply IH. intros; apply H; by right.
Qed.

Lemma MUL64_range v p : 0 <= v < 2 ^ 64 -> 0 <= MUL64 v p 0x1b < 2 ^ 64.
Proof.
  intros Hv. rewrite MUL64_xsum. apply xsum_range. intros i _.
  pose proof (MULxPOW64_range v i Hv). destruct (Z.testbit _ _); simpl; lia.
Qed.

End Gf64.

(** ** The precomputation table *)

Module MacTable.
Import Snow3g Xor Gf64.

Section table.
Variable p : Z.

(** [p * x^n]. *)
Definition X (n : nat) : Z := MULxPOW64 p n 0x1b.

(** The entry [pm[i][c]]: [p] times the polynomial of byte [c] in row [i]. *)
Definition T (i c : Z) : Z :=
  xsum (fun j => gate (Z.testbit c (Z.of_nat j)) (X (8 * Z.to_nat i + j))) (seq 0 8).

Lemma T_0 i : T i 0 = 0.
Proof. unfold T. rewrite (xsum_ext _ (fun _ => 0)); [apply xsum_zero|]. intros. by rewrite Z.bits_0. Qed.

Lemma T_lxor i a b : T i (Z.lxor a b) = Z.lxor (T i a) (T i b).
Proof.
  unfold T. rewrite <- xsum_lxor. apply xsum_ext. intros j _. by rewrite Z.lxor_spec, gate_xorb.
Qed.

Lemma T_pow2 i b : 0 <= i -> 0 <= b < 8 -> T i (2 ^ b) = X (Z.to_nat (8 * i + b)).
Proof.
  intros Hi Hb. unfold T. rewrite Z2Nat.inj_add, Z2Nat.inj_mul by lia. change (Z.to_nat 8) with 8%nat.
  assert (b = 0 \/ b = 1 \/ b = 2 \/ b = 3 \/ b = 4 \/ b = 5 \/ b = 6 \/ b = 7) as Hc by lia.
  destruct_or! Hc; subst b; cbn [xsum foldr seq]; rewrite ?Z.lxor_0_r, ?Z.lxor_0_l; done.
Qed.

Lemma pm_cell n : 0 <= n < 64 ->
  0 <= pm_row n < 8 /\ 0 <= n mod 8 < 8 /\ pm_col n = 2 ^ (n mod 8) /\ n = 8 * pm_row n + n mod 8.
Proof.
  intros Hn. unfold pm_row, pm_col. rewrite Z.shiftr_div_pow2, Z.shiftl_1_l by lia.
  change 7 with (Z.ones 3). rewrite Z.land_ones by lia. change (2 ^ 3) with 8.
  split_and!; try done; zmod.
Qed.

Lemma pow2_byte b : 0 <= b < 8 -> 0 <= 2 ^ b < 256.
Proof. intros. split; [lia|]. apply (Z.pow_lt_mono_r 2 b 8); lia. Qed.

Lemma T_cell n : 0 <= n < 64 -> T (pm_row n) (pm_col n) = X (Z.to_nat n).
Proof.
  intros Hn. destruct (pm_cell n Hn) as (Hr & Hb & -> & E). rewrite T_pow2 by lia. by rewrite <- E.
Qed.

(** Eight rows of 256 entries; the entries of [K] are computed. *)
Definition shape (pm : list (list Z)) : Prop :=
  length pm = 8%nat /\ Forall (fun row => length row = 256%nat) pm.

Definition known (K : Z -> Z -> Prop) (pm : list (list Z)) : Prop :=
  shape pm /\
  forall i c, 0 <= i < 8 -> 0 <= c < 256 -> K i c -> pm_get pm i c = Ok (T i c).

Lemma known_weaken (K K' : Z -> Z -> Prop) pm :
  known K pm -> (forall i c, 0 <= i < 8 -> 0 <= c < 256 -> K' i c -> K i c) -> known K' pm.
Proof. intros [Hs Hk] H. split; [done|]. auto. Qed.

Lemma pm_set_ok pm i c v : shape pm -> 0 <= i < 8 -> 0 <= c < 256 ->
  exists pm', pm_set pm i c v = Ok pm' /\ shape pm' /\ pm_get pm' i c = Ok v /\
    forall i' c', 0 <= i' -> 0 <= c' -> (i', c') <> (i, c) -> pm_get pm' i' c' = pm_get pm i' c'.
Proof.
  intros [Hl Hr] Hi Hc. unfold pm_set.
  destruct (lookup_lt_is_Some_2 pm (Z.to_nat i)) as [row Hrow]; [lia|].
  pose proof (Forall_lookup_1 _ _ _ _ Hr Hrow) as Hlr; simpl in Hlr.
  rewrite (proj2 (zget_ok pm i row)) by (split; [lia|done]). rewrite res_bind_unfold.
  rewrite zset_ok by (unfold zlen; lia). rewrite res_bind_unfold, zset_ok by (unfold zlen; lia).
  eexists. split; [reflexivity|]. unfold pm_get. split_and!.
  - split; [by rewrite length_insert|]. apply Forall_insert; [done|]. by rewrite length_insert.
  - erewrite (proj2 (zget_ok _ i _)) by (split; [lia|apply list_lookup_insert_eq; lia]).
    rewrite res_bind_unfold. apply zget_ok. split; [lia|]. apply list_lookup_insert_eq. lia.
  - intros i' c' Hi' Hc' Hne. unfold zget at 2 4. destruct (Z.ltb_spec i' 0); [done|].
    destruct (decide (i' = i)) as [->|Hni].
    + rewrite list_lookup_insert_eq, Hrow by lia. simpl. unfold mbind, res_bind, zget.
      destruct (Z.ltb_spec c' 0); [done|]. rewrite list_lookup_insert_ne; [done|].
      intros E. apply Hne. f_equal. lia.
    + rewrite list_lookup_insert_ne by lia. done.
Qed.

(** Writing a right value adds an entry, over whatever was there. *)
Lemma known_add (K : Z -> Z -> Prop) pm i c v : known K pm -> 0 <= i < 8 -> 0 <= c < 256 ->
  v = T i c ->
  exists pm', pm_set pm i c v = Ok pm' /\ known (fun i' c' => K i' c' \/ (i', c') = (i, c)) pm'.
Proof.
  intros [Hs Hk] Hi Hc ->. destruct (pm_set_ok pm i c (T i c) Hs Hi Hc) as (pm' & -> & Hs' & Hg & Ho).
  exists pm'. split; [done|]. split; [done|]. intros i' c' Hi' Hc' HK.
  destruct (decide ((i', c') = (i, c))) as [[= -> ->]|Hne]; [done|].
  rewrite Ho by (done || lia). apply Hk; [done..|]. by destruct HK.
Qed.

Lemma known_overwrite (K : Z -> Z -> Prop) pm i c v w : known K pm -> 0 <= i < 8 -> 0 <= c < 256 ->
  w = T i c ->
  exists pm1 pm2, pm_set pm i c v = Ok pm1 /\ pm_get pm1 i c = Ok v /\ pm_set pm1 i c w = Ok pm2 /\
    known (fun i' c' => K i' c' \/ (i', c') = (i, c)) pm2.
Proof.
  intros [Hs Hk] Hi Hc Hw. destruct (pm_set_ok pm i c v Hs Hi Hc) as (pm1 & -> & Hs1 & Hg & Ho).
  destruct (known_add (fun i' c' => K i' c' /\ (i', c') <> (i, c)) pm1 i c w) as (pm2 & H2 & Hk2);
    [|done..|].
  { split; [done|]. intros i' c' Hi' Hc' [HK Hne]. rewrite Ho by (done || lia). auto. }
  exists pm1, pm2. split_and!; [done..|]. apply (known_weaken _ _ _ Hk2).
  intros i' c' _ _. destruct (decide ((i', c') = (i, c))); tauto.
Qed.

(** The entries of the bytes with one bit. *)
Definition single (n i c : Z) : Prop := c = 0 \/ exists m, 0 <= m < n /\ i = pm_row m /\ c = pm_col m.

Lemma X_succ n : X (S n) = MULx64 (X n) 0x1b.
Proof. reflexivity. Qed.

Lemma pm_powers_ok pm : known (single 1) pm ->
  exists pm', pm_powers pm = Ok pm' /\ known (single 64) pm'.
Proof.
  intros Hk. unfold pm_powers. apply (res_foldl_seqZ (fun n => known (single n))); [lia|done|].
  clear pm Hk. intros n pm Hn Hk.
  destruct (pm_cell (n - 1)) as (Hr1 & Hb1 & Hc1 & _); [lia|].
  destruct (pm_cell n) as (Hr & Hb & Hc & _); [lia|].
  rewrite (proj2 Hk); [|lia|rewrite Hc1; by apply pow2_byte|right; exists (n - 1); lia].
  rewrite res_bind_unfold, T_cell by lia. pose proof (T_cell n ltac:(lia)) as HT.
  replace (Z.to_nat n) with (S (Z.to_nat (n - 1))) in HT by lia. rewrite X_succ in HT.
  unfold MULx64 in HT. change (Z.shiftl 1 63) with 0x8000000000000000 in HT.
  assert (Hcr : 0 <= pm_col n < 256) by (rewrite Hc; by apply pow2_byte).
  assert (Hw : forall pm', known (fun i c => single n i c \/ (i, c) = (pm_row n, pm_col n)) pm' ->
                           known (single (n + 1)) pm').
  { intros pm' H. apply (known_weaken _ _ _ H). intros i c _ _ [->|(m & Hm & -> & ->)]; [left; by left|].
    destruct (Z.eq_dec m n) as [->|]; [by right|]. left. right. exists m. split; [lia|done]. }
  destruct (negb _).
  - destruct (known_overwrite _ _ (pm_row n) (pm_col n) (u64 (Z.shiftl (X (Z.to_nat (n - 1))) 1)) _
      Hk Hr Hcr (eq_sym HT)) as (pm1 & pm2 & -> & Hg & Hs & Hk2).
    rewrite res_bind_unfold, Hg, res_bind_unfold. eauto.
  - destruct (known_add _ _ _ _ _ Hk Hr Hcr (eq_sym HT)) as (pm1 & -> & Hk1).
    rewrite res_bind_unfold. eauto.
Qed.

(** Filling row [i] up to [2^j], then the whole table. *)
Definition filled (i b : Z) (i' c' : Z) : Prop :=
  single 64 i' c' \/ i' < i \/ (i' = i /\ c' < b).

Lemma single_pow2 i b : 0 <= i < 8 -> 0 <= b < 8 -> single 64 i (2 ^ b).
Proof.
  intros Hi Hb. right. exists (8 * i + b).
  destruct (pm_cell (8 * i + b)) as (Hr & Hm & Hc & E); [lia|].
  assert ((8 * i + b) mod 8 = b) as Hmod by zmod. rewrite Hmod in *. split_and!; lia.
Qed.

Lemma T_fill i j k : 0 <= j -> 0 <= k < 2 ^ j -> T i (2 ^ j + k) = Z.lxor (T i (2 ^ j)) (T i k).
Proof.
  intros Hj Hk. rewrite <- T_lxor. f_equal. apply Z.add_nocarry_lxor.
  apply Z.bits_inj'. intros n Hn. rewrite Z.land_spec, Z.bits_0.
  destruct (Z.eq_dec n j) as [->|Hne]; [|by rewrite Z.pow2_bits_false by lia].
  rewrite <- (Z.mod_small k (2 ^ j)), Z.mod_pow2_bits_high by lia. apply andb_false_r.
Qed.

Lemma pm_fill_row_ok pm i j : 0 <= i < 8 -> 1 <= j < 8 -> known (filled i (2 ^ j)) pm ->
  exists pm', pm_fill_row pm i j = Ok pm' /\ known (filled i (2 ^ (j + 1))) pm'.
Proof.
  intros Hi Hj Hk. unfold pm_fill_row. rewrite Z.shiftl_1_l.
  pose proof (pow2_byte j ltac:(lia)) as Hbj.
  assert (1 < 2 ^ j) by (apply Z.pow_gt_1; lia).
  assert (H2 : 2 ^ (j + 1) = 2 * 2 ^ j) by (rewrite Z.pow_add_r by lia; lia).
  assert (2 ^ (j + 1) <= 256) by (apply (Z.pow_le_mono_r 2 (j + 1) 8); lia).
  replace (2 ^ (j + 1)) with (2 ^ j + (1 + (2 ^ j - 1))) by lia.
  apply (res_foldl_seqZ (fun k => known (filled i (2 ^ j + k)))); [lia| |].
  { apply (known_weaken _ _ _ Hk). intros i' c' _ _ [Hs|[Hs|[-> Hs]]]; [by left|by right; left|].
    destruct (Z.eq_dec c' (2 ^ j)) as [->|]; [left; apply single_pow2; lia|].
    right; right. split; [done|]. lia. }
  intros k pm' Hkr Hk'.
  rewrite (proj2 Hk' i (2 ^ j)); [|lia|lia|left; apply single_pow2; lia]. rewrite res_bind_unfold.
  rewrite (proj2 Hk' i k); [|lia|lia|right; right; lia]. rewrite res_bind_unfold.
  destruct (known_add _ _ i (2 ^ j + k) (Z.lxor (T i (2 ^ j)) (T i k)) Hk') as (pm2 & -> & Hk2);
    [lia|lia|by rewrite T_fill by lia|].
  exists pm2. split; [done|]. apply (known_weaken _ _ _ Hk2).
  intros i' c' _ _ [Hs|[Hs|[-> Hs]]]; [by left; left|by left; right; left|].
  destruct (Z.eq_dec c' (2 ^ j + k)) as [->|]; [by right|]. left; right; right. lia.
Qed.

Lemma pm_fill_ok pm : known (single 64) pm ->
  exists pm', pm_fill pm = Ok pm' /\ known (fun _ _ => True) pm'.
Proof.
  intros Hk. unfold pm_fill.
  destruct (res_foldl_seqZ (fun i => known (filled i 0))
    (fun pm i => res_foldl (fun pm j => pm_fill_row pm i j) pm (seqZ 1 7)) pm 0 8)
    as (pm' & E & Hk'); [lia| | |].
  - apply (known_weaken _ _ _ Hk). intros i c Hi Hc [H|[H|H]]; [done|lia|lia].
  - intros i pm1 Hi Hk1.
    destruct (res_foldl_seqZ (fun j => known (filled i (2 ^ j)))
      (fun pm j => pm_fill_row pm i j) pm1 1 7) as (pm2 & E2 & Hk2); [lia| | |].
    + apply (known_weaken _ _ _ Hk1). intros i' c' Hi' Hc' [H|[H|[-> H]]]; [by left|by right; left|].
      left. change (2 ^ 1) with 2 in H. assert (c' = 0 \/ c' = 1) as [->| ->] by lia; [by left|].
      apply (single_pow2 i 0); lia.
    + intros j pm2 Hj Hk2. apply pm_fill_row_ok; [lia|lia|done].
    + exists pm2. split; [done|]. apply (known_weaken _ _ _ Hk2).
      intros i' c' Hi' Hc' [H|[H|[-> H]]]; [by left| |lia].
      destruct (Z.eq_dec i' i) as [->|]; [right; right; simpl; lia|right; left; lia].
  - exists pm'. split; [done|]. apply (known_weaken _ _ _ Hk'). intros i c Hi Hc _. right; left. lia.
Qed.

Lemma precompute_ok junk : shape junk ->
  exists pm, precompute junk p = Ok pm /\ known (fun _ _ => True) pm.
Proof.
  intros Hs. unfold precompute.
  destruct (res_foldl_seqZ (fun n => known (fun i c => i < n /\ c = 0))
    (fun pm i => pm_set pm i 0 0) junk 0 8) as (pm & E & Hk); [lia| | |].
  - split; [done|]. intros; lia.
  - intros i pm Hi Hk. destruct (known_add _ _ i 0 0 Hk) as (pm' & -> & Hk'); [lia|lia|by rewrite T_0|].
    exists pm'. split; [done|]. apply (known_weaken _ _ _ Hk'). intros i' c' _ _ [H ->].
    destruct (Z.eq_dec i' i) as [->|]; [by right|left; lia].
  - cbv beta in E. rewrite E, res_bind_unfold.
    destruct (known_add _ _ 0 1 p Hk) as (pm1 & -> & Hk1); [lia|lia| |].
    { symmetry. apply (T_pow2 0 0); lia. }
    rewrite res_bind_unfold. destruct (pm_powers_ok pm1) as (pm2 & -> & Hk2).
    { apply (known_weaken _ _ _ Hk1). intros i c Hi _ [->|(m & Hm & -> & ->)]; [left; lia|right].
      assert (m = 0) as -> by lia. done. }
    rewrite res_bind_unfold. by apply pm_fill_ok.
Qed.

(** The eight lookups are a multiplication by [p]. *)
Lemma T_byte x n : 0 <= n ->
  T n (Z.land (Z.shiftr x (8 * n)) 255) =
  xsum (fun j => gate (Z.testbit x (Z.of_nat j)) (X j)) (seq (8 * Z.to_nat n) 8).
Proof.
  intros Hn. unfold T. rewrite <- (Nat.add_0_r (8 * Z.to_nat n)) at 1.
  rewrite <- fmap_add_seq. unfold fmap. rewrite xsum_map.
  apply xsum_ext. intros j Hj. apply elem_of_seq in Hj. f_equal. change 255 with (Z.ones 8).
  rewrite Z.land_ones, Z.mod_pow2_bits_low, Z.shiftr_spec by lia. f_equal. lia.
Qed.

Lemma mul_p_ok pm x : known (fun _ _ => True) pm -> mul_p pm x = Ok (MUL64 p x 0x1b).
Proof.
  intros [_ Hk]. unfold mul_p.
  assert (Hg : forall n m, m = 8 * n -> 0 <= n < 8 -> pm_get pm n (Z.land (Z.shiftr x m) 255) =
    Ok (xsum (fun j => gate (Z.testbit x (Z.of_nat j)) (X j)) (seq (8 * Z.to_nat n) 8))).
  { intros n m -> Hn. rewrite <- T_byte by lia. apply Hk; [done| |done].
    change 255 with (Z.ones 8). rewrite Z.land_ones by lia. by apply Z.mod_pos_bound. }
  pose proof (Hg 0 0 ltac:(lia) ltac:(lia)) as H0. rewrite Z.shiftr_0_r in H0. rewrite H0.
  rewrite (Hg 1 8), (Hg 2 16), (Hg 3 24), (Hg 4 32), (Hg 5 (32 + 8)), (Hg 6 (32 + 16)),
    (Hg 7 (32 + 24)) by lia.
  rewrite !res_bind_unfold, MUL64_xsum, <- !xsum_app. done.
Qed.

End table.

(** The blocks of the message. *)
Import MacRef.

Lemma GET64_ok data i n : 0 <= i -> 0 <= n <= 8 -> zlen data - i * 8 = n \/ 8 <= zlen data - i * 8 /\ n = 8 ->
  GET64 data (i * 8) n = Ok (block data (Z.to_nat i)).
Proof.
  intros Hi Hn Hd. unfold GET64, zlen in *.
  assert (Hb : forall j : nat, (j < 8)%nat ->
    (if Z.of_nat j <? n then zget data (i * 8 + Z.of_nat j) else mret 0)
    = Ok (nth (8 * Z.to_nat i + j) data 0)).
  { intros j Hj. rewrite nth_lookup. destruct (Z.ltb_spec (Z.of_nat j) n).
    - destruct (lookup_lt_is_Some_2 data (8 * Z.to_nat i + j)) as [x Hx]; [lia|]. rewrite Hx.
      apply zget_ok. split; [lia|]. by replace (Z.to_nat _) with (8 * Z.to_nat i + j)%nat by lia.
    - rewrite lookup_ge_None_2 by lia. done. }
  pose proof (Hb 0%nat ltac:(lia)) as H0. pose proof (Hb 1%nat ltac:(lia)) as H1.
  pose proof (Hb 2%nat ltac:(lia)) as H2. pose proof (Hb 3%nat ltac:(lia)) as H3.
  pose proof (Hb 4%nat ltac:(lia)) as H4. pose proof (Hb 5%nat ltac:(lia)) as H5.
  pose proof (Hb 6%nat ltac:(lia)) as H6. pose proof (Hb 7%nat ltac:(lia)) as H7.
  lazy [Z.of_nat Pos.of_succ_nat Pos.succ] in *. cbv zeta beta.
  rewrite H0, H1, H2, H3, H4, H5, H6, H7. done.
Qed.

Lemma block_range data i : Forall is_byte data -> 0 <= block data i < 2 ^ 64.
Proof.
  intros Hd. change (Width.fits 64 (block data i)). unfold block. cbv zeta.
  repeat (apply Width.fits_lor; [lia| |]);
    [apply Width.fits_byte; [by apply Width.nth_byte|lia|lia]..|].
  apply Width.fits_byte0; [by apply Width.nth_byte|lia].
Qed.

Section blocks.
Variables (p : Z) (pm : list (list Z)) (data : list Z).
Hypotheses (Hp : 0 <= p < 2 ^ 64) (Hpm : known p (fun _ _ => True) pm) (Hd : Forall is_byte data).

Definition eval_upto (n : nat) : Z :=
  foldl (fun eval i => MUL64 (Z.lxor eval (block data i)) p 0x1b) 0 (seq 0 n).

Lemma eval_upto_S n : eval_upto (S n) = MUL64 (Z.lxor (eval_upto n) (block data n)) p 0x1b.
Proof. unfold eval_upto. by rewrite seq_S, foldl_app. Qed.

Lemma eval_upto_range n : 0 <= eval_upto n < 2 ^ 64.
Proof.
  induction n as [|n IH]; [done|]. rewrite eval_upto_S.
  apply MUL64_range, lxor_range; [done|]. by apply block_range.
Qed.

(** A block added to the value of the polynomial. *)
Lemma mul_p_block n :
  mul_p pm (Z.lxor (eval_upto n) (block data n)) = Ok (eval_upto (S n)).
Proof.
  rewrite (mul_p_ok p) by done. rewrite eval_upto_S, MUL64_comm; [done|done|].
  apply lxor_range; [apply eval_upto_range|by apply block_range].
Qed.

(** The blocks but the last one. *)
Lemma eval_blocks_ok d : 2 <= d -> (d - 2) * 8 <= zlen data ->
  eval_blocks pm data d = Ok (eval_upto (Z.to_nat (d - 2))).
Proof.
  intros Hd2 Hl. unfold eval_blocks.
  destruct (res_foldl_seqZ (fun i eval => eval = eval_upto (Z.to_nat i))
    (fun eval i => m ← GET64 data (i * 8) 8; mul_p pm (Z.lxor eval m)) 0 0 (d - 2))
    as (e & -> & ->); [lia|done| |done].
  intros i eval Hi ->. rewrite GET64_ok by lia. rewrite res_bind_unfold, mul_p_block.
  eexists. split; [done|]. f_equal. lia.
Qed.
End blocks.

Lemma _snow3g_integrity_ok junk junk_pm count fresh direction key data :
  length junk = 32%nat -> shape junk_pm -> length key = 16%nat -> Forall is_byte key ->
  Forall is_byte data -> 0 < zlen data ->
  _snow3g_integrity junk junk_pm count fresh direction key data = Ok (f9 count fresh direction key data).
Proof.
  intros Hj Hpm Hk Hkb Hdb Hl. unfold _snow3g_integrity.
  rewrite SnowLfsr.permute_key_ok by done. rewrite res_bind_unfold.
  destruct (SnowLfsr.snow3g_init_ok junk (SnowRef.load_key key) (integrity_iv count fresh direction))
    as (st & -> & Hs & Hv); [done|by apply SnowLfsr.length_load_key|done|].
  rewrite res_bind_unfold, SnowLfsr.keystream_words_ok by done. rewrite res_bind_unfold, Hv.
  change (SnowRef.stream 5 _) with
    (SnowRef.keystream 5 (SnowRef.load_key key) (integrity_iv count fresh direction)).
  unfold f9. set (zs := SnowRef.keystream _ _ _).
  assert (Hall : Forall (Width.fits 32) zs).
  { apply Width.keystream_fits; [by apply Width.load_key_bytes|apply Width.integrity_iv_bytes]. }
  clearbody zs. clear Hv.
  assert (Hz : forall i, Width.fits 32 (nth i zs 0)) by (intros; by apply Width.nth_fits).
  cbv zeta. set (p := Z.lor (Z.shiftl (nth 0 zs 0) 32) _).
  assert (Hp : 0 <= p < 2 ^ 64).
  { apply Width.fits_lor; [lia|by apply (Width.fits_shiftl 32)|]. by apply (Width.fits_mono 32). }
  destruct (precompute_ok p junk_pm Hpm) as (pm & -> & Hk'). rewrite res_bind_unfold.
  set (d := (zlen data * 8 + 63) / 64 + 1).
  assert (Hd : 2 <= d /\ (d - 2) * 8 < zlen data <= (d - 1) * 8) by (unfold d; zmod).
  rewrite (eval_blocks_ok p) by (done || lia). rewrite res_bind_unfold, GET64_ok by lia.
  rewrite res_bind_unfold, mul_p_block by done. rewrite res_bind_unfold.
  replace (S (Z.to_nat (d - 2))) with (n_blocks data) by (unfold n_blocks; lia). done.
Qed.

End MacTable.
