(* ===== verification/Secu.v ===== *)
(** * Ciphering and integrity algorithms

    Models [openair3/SECU/secu_defs.c], the [nas_stream_eea*.c] and
    [nas_stream_eia*.c] files and the AES wrappers [aes_128_ctr.c] and
    [aes_128_cbc_cmac.c].  AES itself is computed by OpenSSL, which is a parameter
    of the model ([Platform]), with its documented behaviour as laws
    ([PlatformLaws]); SNOW 3G is the model of [Snow3g]. *)

From S2P Require Import Prelude Snow3gTables Snow3g Snow3gSpec Snow3gMac.

(** What the algorithms take from outside the repository: the two functions of
    OpenSSL, and what the stack holds where the local arrays of [snow3g.c] are. *)
Class Platform := {
  EVP_aes_128_ctr : list Z -> list Z -> list Z -> list Z;
  CMAC_aes_128 : list Z -> list Z -> list Z;
  stack_words : list Z;
  stack_table : list (list Z)
}.

(** The counter mode combines the message with a stream of bytes that the key and
    the initialisation vector determine; a CMAC has sixteen bytes; the local arrays
    have the size of their declaration. *)
Class PlatformLaws (P : Platform) : Prop := {
  ctr_length : forall key iv msg, length (EVP_aes_128_ctr key iv msg) = length msg;
  ctr_involutive : forall key iv msg,
    EVP_aes_128_ctr key iv (EVP_aes_128_ctr key iv msg) = msg;
  ctr_bytes : forall key iv msg, Forall is_byte msg -> Forall is_byte (EVP_aes_128_ctr key iv msg);
  cmac_length : forall key msg, length (CMAC_aes_128 key msg) = 16%nat;
  cmac_bytes : forall key msg, Forall is_byte (CMAC_aes_128 key msg);
  stack_words_length : length stack_words = 32%nat;
  stack_table_shape : MacTable.shape stack_table
}.

Module Secu.

Section algorithms.
Context `{P : Platform}.

(** ** The AES wrappers *)

(** [iv_e] with the vector of the union. *)
Inductive iv_t :=
| AES_INITIALIZATION_VECTOR_8 (iv : list Z)
| AES_INITIALIZATION_VECTOR_16 (iv : list Z)
| NONE_INITIALIZATION_VECTOR.

Record aes_128_t := mk_aes { aes_key : list Z; aes_iv : iv_t }.

(** The byte of the bit fields [padding:2], [direction:1], [bearer:5]. *)
Definition iv_fields (bearer direction : Z) : Z :=
  Z.lor (Z.shiftl (bearer mod 32) 3) (Z.shiftl (direction mod 2) 2).

(** The bytes of [data_iv16_t] and of [data_iv8_t] with [count] in network order. *)
Definition data_iv16 (count bearer direction : Z) : list Z :=
  Snow3g.be_bytes count ++ [iv_fields bearer direction; 0; 0; 0] ++ replicate 8 0.

Definition data_iv8 (count bearer direction : Z) : list Z :=
  Snow3g.be_bytes count ++ [iv_fields bearer direction; 0; 0; 0].

Definition aes_128_ctr (k_iv : aes_128_t) (msg : list Z) : res (list Z) :=
  match aes_iv k_iv with
  | AES_INITIALIZATION_VECTOR_16 iv => mret (EVP_aes_128_ctr (aes_key k_iv) iv msg)
  | _ => Fault Exit
  end.

(** [ctx_key] is the key the CMAC context was initialised with. *)
Definition cipher_aes_128_cbc_cmac (ctx_key : list Z) (k_iv : aes_128_t) (msg : list Z)
    : res (list Z) :=
  match aes_iv k_iv with
  | AES_INITIALIZATION_VECTOR_8 iv => mret (CMAC_aes_128 ctx_key (iv ++ msg))
  | AES_INITIALIZATION_VECTOR_16 iv => mret (CMAC_aes_128 ctx_key (iv ++ msg))
  | NONE_INITIALIZATION_VECTOR => Fault Exit
  end.

(** ** The stream ciphers *)

(** What a [stream_security_context_t *] points to: the sixteen bytes of a key, or
    a CMAC context ([cbc_cmac_ctx_t]). *)
Inductive stream_security_context_t :=
| KeyContext (key : list Z)
| CmacContext (key : list Z).

Definition as_key (c : option stream_security_context_t) : res (list Z) :=
  match c with
  | Some (KeyContext k) => mret k
  | Some (CmacContext _) => Fault Dangling
  | None => Fault NullDeref
  end.

Definition as_cmac (c : option stream_security_context_t) : res (list Z) :=
  match c with
  | Some (CmacContext k) => mret k
  | Some (KeyContext _) => Fault Dangling
  | None => Fault NullDeref
  end.

Record nas_stream_cipher_t := mk_stream {
  context : option stream_security_context_t;
  count : Z;
  bearer : Z;
  direction : Z;
  message : list Z;
  blength : Z
}.

Definition nas_stream_encrypt_eea0 (sc : nas_stream_cipher_t) : res (list Z) :=
  zslice (message sc) 0 (Z.shiftr (u32 (blength sc + 7)) 3).

Definition nas_stream_encrypt_eea1 (sc : nas_stream_cipher_t) : res (list Z) :=
  key ← as_key (context sc);
  msg ← zslice (message sc) 0 (blength sc / 8);
  Snow3g.snow3g_ciphering stack_words (count sc) (bearer sc) (direction sc) key msg.

Definition nas_stream_encrypt_eea2 (sc : nas_stream_cipher_t) : res (list Z) :=
  _ ← dev_assert (bearer sc <? 32);
  _ ← dev_assert (direction sc <? 2);
  _ ← dev_assert (blength sc >? 7);
  key ← as_key (context sc);
  _ ← dev_assert (Z.land (blength sc) 7 =? 0);
  msg ← zslice (message sc) 0 (Z.shiftr (blength sc) 3);
  aes_128_ctr {| aes_key := key;
                 aes_iv := AES_INITIALIZATION_VECTOR_16
                   (data_iv16 (count sc) (bearer sc) (direction sc)) |} msg.

Definition nas_stream_encrypt_eia1 (sc : nas_stream_cipher_t) : res (list Z) :=
  key ← as_key (context sc);
  msg ← zslice (message sc) 0 (blength sc / 8);
  Snow3g.snow3g_integrity stack_words stack_table (count sc) (bearer sc) (direction sc) key msg.

Definition nas_stream_encrypt_eia2 (sc : nas_stream_cipher_t) : res (list Z) :=
  _ ← dev_assert (bearer sc <? 32);
  _ ← dev_assert (Z.land (blength sc) 7 =? 0);
  key ← as_cmac (context sc);
  msg ← zslice (message sc) 0 (Z.shiftr (blength sc) 3);
  result ← cipher_aes_128_cbc_cmac key
    {| aes_key := key;
       aes_iv := AES_INITIALIZATION_VECTOR_8 (data_iv8 (count sc) (bearer sc) (direction sc)) |} msg;
  zslice result 0 4.

(** The algorithm identifiers. *)
Definition EIA0_ALG_ID : Z := 0.
Definition EIA1_128_ALG_ID : Z := 1.
Definition EIA2_128_ALG_ID : Z := 2.
Definition EEA0_ALG_ID : Z := 0.
Definition EEA1_128_ALG_ID : Z := 1.
Definition EEA2_128_ALG_ID : Z := 2.

(** [out] is the output buffer before the call: EIA0 does not write it. *)
Definition stream_compute_integrity (alg : Z) (sc : nas_stream_cipher_t) (out : list Z)
    : res (list Z) :=
  if alg =? EIA0_ALG_ID then mret out
  else if alg =? EIA1_128_ALG_ID then nas_stream_encrypt_eia1 sc
  else if alg =? EIA2_128_ALG_ID then nas_stream_encrypt_eia2 sc
  else Fault Exit.

Definition stream_compute_encrypt (alg : Z) (sc : nas_stream_cipher_t) : res (list Z) :=
  if alg =? EEA0_ALG_ID then nas_stream_encrypt_eea0 sc
  else if alg =? EEA1_128_ALG_ID then nas_stream_encrypt_eea1 sc
  else if alg =? EEA2_128_ALG_ID then nas_stream_encrypt_eea2 sc
  else Fault Exit.

(** ** Contexts *)

Definition stream_integrity_init (integrity_algorithm : Z) (integrity_key : list Z)
    : res (option stream_security_context_t) :=
  if integrity_algorithm =? EEA0_ALG_ID then mret None
  else if integrity_algorithm =? EEA1_128_ALG_ID then
    k ← zslice integrity_key 0 16; mret (Some (KeyContext k))
  else if integrity_algorithm =? EEA2_128_ALG_ID then
    k ← zslice integrity_key 0 16; mret (Some (CmacContext k))
  else Fault Exit.

Definition stream_ciphering_init (ciphering_algorithm : Z) (ciphering_key : list Z)
    : res (option stream_security_context_t) :=
  if ciphering_algorithm =? EEA0_ALG_ID then mret None
  else if ciphering_algorithm =? EEA1_128_ALG_ID then
    k ← zslice ciphering_key 0 16; mret (Some (KeyContext k))
  else if ciphering_algorithm =? EEA2_128_ALG_ID then
    k ← zslice ciphering_key 0 16; mret (Some (KeyContext k))
  else Fault Exit.

(** [stream_security_container_t]. *)
Record stream_security_container_t := mk_container {
  integrity_algorithm : Z;
  ciphering_algorithm : Z;
  integrity_context : option stream_security_context_t;
  ciphering_context : option stream_security_context_t
}.

Definition stream_security_container_init (ciphering_algorithm integrity_algorithm : Z)
    (ciphering_key integrity_key : list Z) : res stream_security_container_t :=
  i ← stream_integrity_init integrity_algorithm integrity_key;
  c ← stream_ciphering_init ciphering_algorithm ciphering_key;
  mret {| integrity_algorithm := integrity_algorithm; ciphering_algorithm := ciphering_algorithm;
          integrity_context := i; ciphering_context := c |}.

(** ** Facts *)

Context `{L : !PlatformLaws P}.

Lemma slice_all {A} (l : list A) n : n = zlen l -> zslice l 0 n = Ok l.
Proof.
  intros ->. rewrite zslice_ok by (pose proof (zlen_nonneg l); lia).
  change (Z.to_nat 0) with 0%nat. rewrite drop_0. unfold zlen. by rewrite Nat2Z.id, take_ge by lia.
Qed.

Lemma slice_prefix {A} (l m : list A) n : n = zlen l -> zslice (l ++ m) 0 n = Ok l.
Proof.
  intros ->. rewrite zslice_ok by (rewrite ?zlen_app; pose proof (zlen_nonneg l);
    pose proof (zlen_nonneg m); lia).
  change (Z.to_nat 0) with 0%nat. rewrite drop_0. unfold zlen. by rewrite Nat2Z.id, take_app_length.
Qed.

Lemma shiftr_3 x : Z.shiftr x 3 = x / 8.
Proof. by rewrite Z.shiftr_div_pow2. Qed.

Lemma land_7_mult n : Z.land (n * 8) 7 = 0.
Proof. change 7 with (Z.ones 3). rewrite Z.land_ones by lia. change (2 ^ 3) with 8. by rewrite Z.mod_mul. Qed.

(** A whole message, described with its length in bits. *)
Definition whole (c : option stream_security_context_t) (cnt b d : Z) (msg : list Z) :=
  mk_stream c cnt b d msg (zlen msg * 8).

Lemma eea1_ok key cnt b d msg : length key = 16%nat ->
  nas_stream_encrypt_eea1 (whole (Some (KeyContext key)) cnt b d msg)
  = Ok (SnowRef.f8 cnt b d key msg).
Proof.
  intros Hk. unfold nas_stream_encrypt_eea1, whole; cbn [context count bearer direction message blength as_key as_cmac].
  rewrite res_ret_bind, Z.div_mul, slice_all by done. rewrite res_bind_unfold.
  apply SnowLfsr.snow3g_ciphering_ok; [apply stack_words_length|done].
Qed.

Lemma eia1_ok key cnt b d msg :
  length key = 16%nat -> Forall is_byte key -> Forall is_byte msg -> 0 < zlen msg ->
  nas_stream_encrypt_eia1 (whole (Some (KeyContext key)) cnt b d msg)
  = Ok (MacRef.f9 cnt (u32 (Z.shiftl b 27)) d key msg).
Proof.
  intros Hk Hkb Hm Hl. unfold nas_stream_encrypt_eia1, whole; cbn [context count bearer direction message blength as_key as_cmac].
  rewrite res_ret_bind, Z.div_mul, slice_all by done. rewrite res_bind_unfold.
  by apply MacTable._snow3g_integrity_ok; [apply stack_words_length|apply stack_table_shape|..].
Qed.

Lemma eea2_ok key cnt b d msg : 0 < zlen msg -> b < 32 -> d < 2 ->
  nas_stream_encrypt_eea2 (whole (Some (KeyContext key)) cnt b d msg)
  = Ok (EVP_aes_128_ctr key (data_iv16 cnt b d) msg).
Proof.
  intros Hl Hb Hd. unfold nas_stream_encrypt_eea2, whole; cbn [context count bearer direction message blength as_key as_cmac].
  rewrite !dev_assert_ok by (rewrite ?land_7_mult; lia). rewrite !res_bind_unfold.
  by rewrite shiftr_3, Z.div_mul, slice_all by done.
Qed.

Lemma eia2_ok key cnt b d msg : b < 32 ->
  nas_stream_encrypt_eia2 (whole (Some (CmacContext key)) cnt b d msg)
  = Ok (take 4 (CMAC_aes_128 key (data_iv8 cnt b d ++ msg))).
Proof.
  intros Hb. unfold nas_stream_encrypt_eia2, whole; cbn [context count bearer direction message blength as_key as_cmac].
  rewrite !dev_assert_ok by (rewrite ?land_7_mult; lia). rewrite !res_bind_unfold.
  rewrite shiftr_3, Z.div_mul, slice_all by done. rewrite res_bind_unfold.
  unfold cipher_aes_128_cbc_cmac; cbn [aes_iv]. rewrite res_ret_bind.
  by rewrite zslice_ok by (unfold zlen; rewrite ?cmac_length; lia).
Qed.

End algorithms.
End Secu.
