(* ===== verification/PdcpSdu.v ===== *)
(** * PDCP: stored SDUs

    Models [openair2/LAYER2/nr_pdcp/nr_pdcp_sdu.c]: the SDUs that wait for the
    ones before them, in a list kept in the order of their COUNT.  The lemmas say
    that the list stays strictly ordered and without duplicates. *)

From S2P Require Import Prelude.

(** [nr_pdcp_integrity_data_t]. *)
Module IntegrityData.
Record t := mk_integrity_data { count : Z; mac : list Z; header_size : Z; header : list Z }.

(** [= { 0 }]. *)
Definition zero : t := mk_integrity_data 0 (replicate 4 0) 0 (replicate 3 0).
End IntegrityData.

Module PdcpSdu.

(** [nr_pdcp_sdu_t]; the list is a Rocq list. *)
Record t := mk_sdu { count : Z; buffer : list Z; size : Z; msg_integrity : IntegrityData.t }.

Definition nr_pdcp_new_sdu (count : Z) (buffer : list Z) (msg_integrity : IntegrityData.t) : t :=
  mk_sdu count buffer (zlen buffer) msg_integrity.

(** "order is by 'count'". *)
Fixpoint nr_pdcp_sdu_list_add (l : list t) (sdu : t) : list t :=
  match l with
  | [] => [sdu]
  | cur :: next =>
      if count sdu <? count cur then sdu :: cur :: next
      else cur :: nr_pdcp_sdu_list_add next sdu
  end.

Fixpoint nr_pdcp_sdu_in_list (l : list t) (c : Z) : bool :=
  match l with
  | [] => false
  | cur :: next => if count cur =? c then true else nr_pdcp_sdu_in_list next c
  end.

(** ** The order *)

Definition before (a b : t) : Prop := count a < count b.
Definition sorted (l : list t) : Prop := StronglySorted before l.

Lemma in_list_spec l c : nr_pdcp_sdu_in_list l c = true <-> c ∈ map count l.
Proof.
  induction l as [|cur l IH]; simpl; [split; [done|by intros ?%elem_of_nil]|].
  rewrite elem_of_cons. destruct (Z.eqb_spec (count cur) c); [naive_solver|]. rewrite IH. naive_solver.
Qed.

Lemma list_add_perm l sdu : nr_pdcp_sdu_list_add l sdu ≡ₚ sdu :: l.
Proof.
  induction l as [|cur l IH]; [done|]. simpl. destruct (_ <? _); [done|].
  rewrite IH. apply Permutation_swap.
Qed.

Lemma list_add_elem l sdu x : x ∈ nr_pdcp_sdu_list_add l sdu <-> x = sdu \/ x ∈ l.
Proof. by rewrite list_add_perm, elem_of_cons. Qed.

Lemma list_add_sorted l sdu : sorted l -> nr_pdcp_sdu_in_list l (count sdu) = false ->
  sorted (nr_pdcp_sdu_list_add l sdu).
Proof.
  induction l as [|cur l IH]; intros Hs Hn; simpl; [by repeat constructor|].
  inversion Hs as [|? ? Hs' Hall]; subst. simpl in Hn.
  destruct (Z.eqb_spec (count cur) (count sdu)); [done|].
  destruct (Z.ltb_spec (count sdu) (count cur)).
  - constructor; [done|]. constructor; [done|]. eapply Forall_impl; [exact Hall|].
    unfold before. simpl. lia.
  - constructor; [by apply IH|]. apply Forall_forall. intros x [->|Hx]%list_add_elem; [unfold before; lia|].
    exact (proj1 (Forall_forall _ _) Hall x Hx).
Qed.

Lemma sorted_app l m : sorted (l ++ m) <->
  sorted l /\ sorted m /\ forall a b, a ∈ l -> b ∈ m -> before a b.
Proof.
  induction l as [|x l IH]; simpl.
  - split; [|tauto]. intros H. split_and!; [constructor|done|]. by intros a b ?%elem_of_nil.
  - split.
    + intros H. inversion H as [|? ? H' Hall]; subst. apply IH in H' as (Hl & Hm & Hlm).
      rewrite Forall_app in Hall. destruct Hall as [Hal Ham]. split_and!; [by constructor|done|].
      intros a b [->|Ha]%elem_of_cons Hb; [|auto]. exact (proj1 (Forall_forall _ _) Ham b Hb).
    + intros (H & Hm & Hlm). inversion H as [|? ? H' Hall]; subst. constructor.
      * apply IH. split_and!; [done..|]. intros; apply Hlm; [by right|done].
      * apply Forall_app. split; [done|]. apply Forall_forall. intros b Hb. apply Hlm; [by left|done].
Qed.

End PdcpSdu.
