(* ===== verification/Events.v ===== *)
(** * What the user plane does to its environment

    The calls of SDAP, PDCP and RLC that leave the layers, as values.  A function of
    the model returns the events of one execution of the C function, in order. *)

From S2P Require Import Prelude PdcpSdu.

Module Events.

(** [protocol_ctxt_t], the fields the user plane reads. *)
Record protocol_ctxt_t := mk_ctxt {
  module_id : Z;
  enb_flag : bool;
  instance : Z;
  rntiMaybeUEid : Z;
  eNB_index : Z;
  brOption : bool
}.

(** [{ .enb_flag = f, .rntiMaybeUEid = id }]. *)
Definition ctxt_of (f : bool) (id : Z) : protocol_ctxt_t := mk_ctxt 0 f 0 id 0 false.

(** [rlc_data_req_queue_item]; [sdu_sizeP] is the length of [sdu_pP]. *)
Record rlc_data_req_queue_item := mk_rlc_item {
  ctxt_pP : protocol_ctxt_t;
  srb_flagP : bool;
  rb_idP : Z;
  muiP : Z;
  confirmP : Z;
  sdu_pP : list Z
}.

(** [pdcp_data_ind_queue_item]. *)
Record pdcp_data_ind_queue_item := mk_ind_item {
  ind_ctxt : protocol_ctxt_t;
  ind_srb_flag : bool;
  ind_rb_id : Z;
  ind_sdu_buffer : list Z
}.

Inductive event :=
(** [enqueue_rlc_data_req]. *)
| RlcDataReq (x : rlc_data_req_queue_item)
(** [gtpv1uSendDirectWithNRUSeqNum] on the F1-U instance. *)
| F1uSend (ue_id rb_id : Z) (pdu : list Z)
(** [gtpv1uSendDirect] on the N3 instance. *)
| GtpuSend (ue_id pdusession_id : Z) (sdu : list Z)
(** [write] to the socket of the TUN interface. *)
| TunWrite (sock : Z) (sdu : list Z)
(** The message [F1AP_UL_RRC_MESSAGE] to the RRC of the gNB. *)
| UlRrcMessage (gNB_CU_ue_id gNB_DU_ue_id srb_id : Z) (container : list Z)
(** The message [NR_RRC_DCCH_DATA_IND] to the RRC of the UE. *)
| DcchDataInd (ue_id dcch_index : Z) (sdu : list Z) (msg_integrity : IntegrityData.t)
(** [remove_ip_if]: the reading thread stops, the socket and the interface go. *)
| RemoveIpIf (ue_id pdusession_id sock : Z)
(** [tun_alloc], [tun_config] and the start of the reading thread. *)
| StartTun (ue_id pdusession_id sock : Z)
(** [nr_pdcp_data_ind], which puts the PDU in the queue towards PDCP. *)
| PdcpDataInd (x : pdcp_data_ind_queue_item)
(** [gtpv1uSendDirect] on the F1-U instance of the DU. *)
| F1uUplink (ue_id rb_id : Z) (sdu : list Z)
(** [send_initial_ul_rrc_message(ue_id, sdu, size, data)]. *)
| InitialUlRrcMessage (callback ue_id : Z) (sdu : list Z) (data : Z)
(** [rlf_handler(ue_id)]. *)
| RlfHandler (handler ue_id : Z).
End Events.
