(* ===== verification/Sdap.v ===== *)
(** * SDAP: the entity and the list of entities

    Models [openair2/SDAP/nr_sdap/nr_sdap_entity.c] and the data path of
    [openair2/SDAP/nr_sdap/nr_sdap.c].  The list [sdap_info.sdap_entity_llist] is a
    list of records; a pointer to an entity is its place in the list.  The calls to
    PDCP go through the class [PdcpApi], over any state of PDCP.  Function pointers
    of the entity always hold the function of this file, and are called as such. *)

From S2P Require Import Prelude Events.

Module Sdap.
Import Events.

Definition SDAP_BITMASK_QFI : Z := 0x3F.
Definition SDAP_HDR_UL_DATA_PDU : Z := 1.
Definition SDAP_HDR_UL_CTRL_PDU : Z := 0.
Definition SDAP_HDR_LENGTH : Z := 1.
Definition SDAP_MAX_QFI : Z := 64.
Definition SDAP_MAP_RULE_EMPTY : Z := 0.
Definition SDAP_NO_MAPPING_RULE : Z := 0.
Definition SDAP_REFLECTIVE_MAPPING : Z := 1.
Definition MAX_DRBS_PER_UE : Z := 32.
Definition MAX_MOBILES_PER_ENB : Z := 40.
Definition SDAP_MAX_NUM_OF_ENTITIES : Z := MAX_DRBS_PER_UE * MAX_MOBILES_PER_ENB.
Definition SDAP_MAX_UE_ID : Z := 65536.
Definition NGAP_MAX_PDU_SESSION : Z := 256.
Definition RLC_MUI_UNDEFINED : Z := 0.

(** [sdap_role_t], a bitmap. *)
Definition NO_SDAP_HEADER : Z := 0.
Definition SDAP_UL_TX : Z := Z.shiftl 1 0.
Definition SDAP_UL_RX : Z := Z.shiftl 1 1.
Definition SDAP_DL_TX : Z := Z.shiftl 1 2.
Definition SDAP_DL_RX : Z := Z.shiftl 1 3.

(** [entity_role & bit]. *)
Definition has_role (role bit : Z) : bool := negb (Z.land role bit =? 0).

(** [nr_sdap_dl_hdr_t] ([RQI], [RDI]) and [nr_sdap_ul_hdr_t] ([R], [DC]): one byte,
    the first field in the low bits.  The values are cut to the width of the field. *)
Definition hdr_byte (QFI bit6 bit7 : Z) : Z := QFI mod 64 + (bit6 mod 2) * 64 + (bit7 mod 2) * 128.
Definition hdr_QFI (b : Z) : Z := b mod 64.
Definition hdr_bit6 (b : Z) : Z := b / 64 mod 2.
Definition hdr_bit7 (b : Z) : Z := b / 128 mod 2.

(** [qfi2drb_t]. *)
Record qfi2drb_t := mk_qfi2drb { drb_id : Z; entity_role : Z }.

(** [nr_sdap_entity_t].  The thread of the TUN interface is not part of the state. *)
Record t := mk_entity {
  ue_id : Z;
  default_drb : Z;
  is_gnb : bool;
  enable_sdap : bool;
  pdusession_id : Z;
  pdusession_sock : Z;
  stop_thread : bool;
  qfi : Z;
  qfi2drb_table : list qfi2drb_t
}.

(** [sdap_config_t]; each array is the list of its first [...Count] elements. *)
Record sdap_config_t := mk_config {
  cfg_pdusession_id : Z;
  cfg_drb_id : Z;
  cfg_role : Z;
  cfg_defaultDRB : bool;
  mappedQFIs2Add : list Z;
  mappedQFIs2Release : list Z
}.

(** [NR_SDAP_Config_t], as decoded from RRC; [None] is a null pointer. *)
Record NR_SDAP_Config_t := mk_nr_config {
  pdu_Session : Z;
  sdap_HeaderDL_present : bool;
  sdap_HeaderUL_present : bool;
  defaultDRB : bool;
  mappedQoS_FlowsToAdd : option (list Z);
  mappedQoS_FlowsToRelease : option (list Z)
}.

(** What SDAP uses of PDCP: [nr_pdcp_data_req_drb], over a state of PDCP. *)
Class PdcpApi (S : Type) := pdcp_data_req_drb :
  S -> protocol_ctxt_t -> bool -> Z -> Z -> list Z -> res (S * list event * bool).

(** How the process runs: [IS_SOFTMODEM_NOS1], the default PDU session and the
    descriptors that the operating system gives to [tun_alloc]. *)
Record node_t := mk_node {
  nos1 : bool;
  default_pdu_session_id : Z;
  tun_alloc : Z -> Z
}.

(** ** Configuration *)

Definition get_sdap_role (is_gnb : bool) (c : NR_SDAP_Config_t) : Z :=
  let role_ul := if is_gnb then SDAP_UL_RX else SDAP_UL_TX in
  let role_dl := if is_gnb then SDAP_DL_TX else SDAP_DL_RX in
  let role := NO_SDAP_HEADER in
  let role := if sdap_HeaderUL_present c then Z.lor role role_ul else role in
  if sdap_HeaderDL_present c then Z.lor role role_dl else role.

(** The two copies of a list of QFIs; the count is a [uint8_t]. *)
Definition copy_qfis (l : option (list Z)) : res (list Z) :=
  match l with
  | None => mret []
  | Some l =>
      let count := u8 (zlen l) in
      _ ← dev_assert (count <=? SDAP_MAX_QFI);
      mret (take (Z.to_nat count) l)
  end.

Definition nr_sdap_get_config (is_gnb : bool) (c : NR_SDAP_Config_t) (drb_id : Z)
    : res sdap_config_t :=
  add ← copy_qfis (mappedQoS_FlowsToAdd c);
  release ← copy_qfis (mappedQoS_FlowsToRelease c);
  mret (mk_config (pdu_Session c) drb_id (get_sdap_role is_gnb c) (defaultDRB c) add release).

(** ** The mapping table *)

Definition set_rule (e : t) (qfi : Z) (r : qfi2drb_t) : res t :=
  tab ← zset (qfi2drb_table e) qfi r; mret {| e with qfi2drb_table := tab |}.

Definition nr_sdap_qfi2drb_map_add (e : t) (qfi drb_id role : Z) : res t :=
  set_rule e qfi (mk_qfi2drb (u8 drb_id) (u8 role)).

Definition nr_sdap_qfi2drb_map_del (e : t) (qfi : Z) : res t :=
  r ← zget (qfi2drb_table e) qfi;
  set_rule e qfi (mk_qfi2drb SDAP_NO_MAPPING_RULE (entity_role r)).

Definition nr_sdap_qfi2drb (e : t) (qfi : Z) : res Z :=
  r ← zget (qfi2drb_table e) qfi;
  mret (if negb (drb_id r =? 0) then drb_id r
        else if negb (default_drb e =? 0) then default_drb e
        else SDAP_MAP_RULE_EMPTY).

Definition nr_sdap_add_qos_flow (drb_id role : Z) (e : t) (q : Z) : res t :=
  let qfi := u8 q in
  if (qfi <? SDAP_MAX_QFI) && (SDAP_MAP_RULE_EMPTY <? drb_id) && (drb_id <=? MAX_DRBS_PER_UE)
  then nr_sdap_qfi2drb_map_add e qfi drb_id role
  else mret e.

Definition nr_sdap_add_qos_flows_to_drb (e : t) (c : sdap_config_t) : res t :=
  res_foldl (nr_sdap_add_qos_flow (cfg_drb_id c) (cfg_role c)) e (mappedQFIs2Add c).

Definition nr_sdap_rm_qos_flows_from_drb (e : t) (c : sdap_config_t) : res t :=
  res_foldl (fun e q => nr_sdap_qfi2drb_map_del e (u8 q)) e (mappedQFIs2Release c).

(** ** Control PDUs *)

Definition nr_sdap_construct_ctrl_pdu (qfi : Z) : Z := hdr_byte qfi 0 SDAP_HDR_UL_CTRL_PDU.

Inductive ctrl_pdu_map := SDAP_CTRL_PDU_MAP_DEF_DRB | SDAP_CTRL_PDU_MAP_RULE_DRB.

Definition nr_sdap_map_ctrl_pdu (e : t) (map_type : ctrl_pdu_map) (dl_qfi : Z) : res Z :=
  match map_type with
  | SDAP_CTRL_PDU_MAP_DEF_DRB => mret (default_drb e)
  | SDAP_CTRL_PDU_MAP_RULE_DRB => nr_sdap_qfi2drb e dl_qfi
  end.

Section pdcp.
Context {S : Type} `{A : PdcpApi S}.

Definition nr_pdcp_submit_sdap_ctrl_pdu (s : S) (ue_id drb ctrl_pdu : Z) : res (S * list event) :=
  '(s, ev, _) ← pdcp_data_req_drb s (ctxt_of false ue_id) false drb RLC_MUI_UNDEFINED [ctrl_pdu];
  mret (s, ev).

Definition nr_sdap_submit_ctrl_pdu (s : S) (ue_id drb ctrl_pdu : Z) : res (S * list event) :=
  if negb (drb =? 0) then nr_pdcp_submit_sdap_ctrl_pdu s ue_id drb ctrl_pdu else mret (s, []).

(** Construct, map and submit an end marker. *)
Definition end_marker (s : S) (e : t) (ue_id : Z) (map_type : ctrl_pdu_map) (qfi : Z)
    : res (S * list event) :=
  drb ← nr_sdap_map_ctrl_pdu e map_type qfi;
  nr_sdap_submit_ctrl_pdu s ue_id drb (nr_sdap_construct_ctrl_pdu qfi).

(** One round of the loop of [nr_sdap_ue_control_pdu_config]. *)
Definition control_pdu_round (e : t) (ue_id : Z) (c : sdap_config_t) (w : S * list event) (q : Z)
    : res (S * list event) :=
  let '(s, ev) := w in
  let qfi := u8 q in
  r ← zget (qfi2drb_table e) qfi;
  '(s, ev1) ← (if negb (default_drb e =? 0) && (drb_id r =? SDAP_NO_MAPPING_RULE)
               then end_marker s e ue_id SDAP_CTRL_PDU_MAP_DEF_DRB qfi else mret (s, []));
  '(s, ev2) ← (if negb (drb_id r =? cfg_drb_id c) && has_role (entity_role r) SDAP_UL_TX
               then end_marker s e ue_id SDAP_CTRL_PDU_MAP_RULE_DRB qfi else mret (s, []));
  mret (s, ev ++ ev1 ++ ev2).

Definition nr_sdap_ue_control_pdu_config (s : S) (e : t) (ue_id : Z) (c : sdap_config_t)
    : res (S * list event) :=
  res_foldl (control_pdu_round e ue_id c) (s, []) (mappedQFIs2Add c).

Definition nr_sdap_qfi2drb_map_update (s : S) (e : t) (c : sdap_config_t)
    : res (S * t * list event) :=
  '(s, ev) ← (if negb (is_gnb e) then nr_sdap_ue_control_pdu_config s e (ue_id e) c
              else mret (s, []));
  e ← nr_sdap_add_qos_flows_to_drb e c;
  e ← nr_sdap_rm_qos_flows_from_drb e c;
  mret (s, e, ev).

(** ** Data transfer *)

(** [sdu_buffer] is [None] for a null pointer. *)
Definition nr_sdap_tx_entity (s : S) (e : t) (ctxt : protocol_ctxt_t) (srb_flag : bool) (mui : Z)
    (sdu_buffer : option (list Z)) (qfi : Z) (rqi : bool) : res (S * list event * bool) :=
  match sdu_buffer with
  | None => Fault Exit
  | Some sdu =>
      drb ← nr_sdap_qfi2drb e qfi;
      if drb =? SDAP_MAP_RULE_EMPTY then mret (s, [], false)
      else
        r ← zget (qfi2drb_table e) qfi;
        let sdap_ul_tx := has_role (entity_role r) SDAP_UL_TX in
        let sdap_dl_tx := has_role (entity_role r) SDAP_DL_TX in
        if negb sdap_ul_tx && negb sdap_dl_tx
        then pdcp_data_req_drb s ctxt srb_flag drb mui sdu
        else if (zlen sdu =? 0) || (zlen sdu >? 8999) then mret (s, [], false)
        else
          let hdr := if sdap_dl_tx then hdr_byte qfi (b2z rqi) 0 else hdr_byte qfi 0 (b2z rqi) in
          pdcp_data_req_drb s ctxt srb_flag drb mui (hdr :: sdu)
  end.

(** Reflective mapping of a downlink PDU: the end markers, then the new rule. *)
Definition reflective_mapping (s : S) (e : t) (pdcp_entity ue_id qfi : Z) : res (S * t * list event) :=
  r ← zget (qfi2drb_table e) qfi;
  '(s, ev1) ← (if (drb_id r =? 0) && negb (default_drb e =? 0)
               then end_marker s e ue_id SDAP_CTRL_PDU_MAP_DEF_DRB qfi else mret (s, []));
  '(s, ev2) ← (if negb (pdcp_entity =? drb_id r)
               then end_marker s e ue_id SDAP_CTRL_PDU_MAP_RULE_DRB qfi else mret (s, []));
  e ← set_rule e qfi (mk_qfi2drb pdcp_entity (entity_role r));
  mret (s, e, ev1 ++ ev2).

(** [buf] holds [size] bytes.  The hook for external programs ([JBPF_HOOK]) only
    observes the packet. *)
Definition nr_sdap_rx_entity (s : S) (e : t) (pdcp_entity : Z) (is_gnb has_sdap_rx : bool)
    (qfi pdusession_id ue_id : Z) (buf : list Z) : res (S * t * list event) :=
  let size := zlen buf in
  let sdap_hdr := if has_sdap_rx && (size >? 0) then head buf else None in
  r ← (if qfi <? SDAP_MAX_QFI then zget (qfi2drb_table e) qfi else mret (mk_qfi2drb 0 0));
  let sdap_ul_rx := (qfi <? SDAP_MAX_QFI) && has_role (entity_role r) SDAP_UL_RX in
  let sdap_dl_rx := (qfi <? SDAP_MAX_QFI) && has_role (entity_role r) SDAP_DL_RX in
  if is_gnb then
    offset ← (if has_sdap_rx && sdap_ul_rx
              then _ ← of_option NullDeref sdap_hdr; mret SDAP_HDR_LENGTH
              else mret 0);
    gtp_buf ← zslice buf offset (size - offset);
    mret (s, e, [GtpuSend ue_id pdusession_id gtp_buf])
  else
    '(s, e, ev, offset) ←
      (if sdap_dl_rx then
         hdr ← zget buf 0;
         '(s, e, ev) ← (if hdr_bit7 hdr =? SDAP_REFLECTIVE_MAPPING
                        then reflective_mapping s e pdcp_entity ue_id (hdr_QFI hdr)
                        else mret (s, e, []));
         mret (s, e, ev, SDAP_HDR_LENGTH)
       else mret (s, e, [], 0));
    sdu ← zslice buf offset (size - offset);
    mret (s, e, ev ++ [TunWrite (pdusession_sock e) sdu]).

(** One packet read by [sdap_tun_read_thread]. *)
Definition tun_packet (s : S) (e : t) (rx_buf : list Z) : res (S * list event * bool) :=
  nr_sdap_tx_entity s e (ctxt_of (is_gnb e) (ue_id e)) false RLC_MUI_UNDEFINED (Some rx_buf)
    (u8 (qfi e)) (negb (is_gnb e)).

(** ** The list of entities *)

Definition is_entity (ue ps : Z) (e : t) : bool := (ue_id e =? ue) && (pdusession_id e =? ps).

(** The place of the entity and the entity. *)
Definition nr_sdap_get_entity (l : list t) (ue ps : Z) : option (nat * t) :=
  list_find (fun e => is_entity ue ps e = true) l.

Definition sdap_data_req (s : S) (l : list t) (ctxt : protocol_ctxt_t) (ue_id : Z) (srb_flag : bool)
    (mui : Z) (sdu_buffer : option (list Z)) (qfi : Z) (rqi : bool) (pdusession_id : Z)
    : res (S * list event * bool) :=
  match nr_sdap_get_entity l ue_id pdusession_id with
  | None => mret (s, [], false)
  | Some (_, e) => nr_sdap_tx_entity s e ctxt srb_flag mui sdu_buffer qfi rqi
  end.

Definition sdap_data_ind (s : S) (l : list t) (pdcp_entity : Z) (is_gnb has_sdap_rx : bool)
    (qfi pdusession_id ue_id : Z) (buf : list Z) : res (S * list t * list event) :=
  match nr_sdap_get_entity l ue_id pdusession_id with
  | None => mret (s, l, [])
  | Some (i, e) =>
      '(s, e', ev) ← nr_sdap_rx_entity s e pdcp_entity is_gnb has_sdap_rx qfi pdusession_id ue_id buf;
      mret (s, <[i := e']> l, ev)
  end.

(** [calloc], then the fields that are set; the new entity is the head of the list. *)
Definition new_entity (is_gnb : bool) (ue_id : Z) (c : sdap_config_t) : t :=
  mk_entity ue_id (if cfg_defaultDRB c then cfg_drb_id c else 0) is_gnb
    (negb (cfg_role c =? NO_SDAP_HEADER)) (cfg_pdusession_id c) (-1) false 0
    (replicate (Z.to_nat SDAP_MAX_QFI) (mk_qfi2drb 0 0)).

Definition start_sdap_tun_gnb_first_ue_default_pdu_session (n : node_t) (l : list t) (ue : Z)
    : res (list t * list event) :=
  '(i, e) ← of_option Exit (nr_sdap_get_entity l ue (default_pdu_session_id n));
  _ ← dev_assert (is_gnb e);
  let sock := tun_alloc n (ue - 1) in
  mret (<[i := {| e with pdusession_sock := sock |}]> l, [StartTun ue (pdusession_id e) sock]).

Definition start_sdap_tun_ue (l : list t) (ue ps sock : Z) : res (list t * list event) :=
  '(i, e) ← of_option Exit (nr_sdap_get_entity l ue ps);
  _ ← dev_assert (negb (is_gnb e));
  mret (<[i := {| e with pdusession_sock := sock; stop_thread := false |}]> l, [StartTun ue ps sock]).

Definition nr_sdap_add_entity (n : node_t) (l : list t) (is_gnb : bool) (ue : Z) (c : sdap_config_t)
    : res (list t * list event) :=
  e ← nr_sdap_add_qos_flows_to_drb (new_entity is_gnb ue c) c;
  if nos1 n && is_gnb
  then start_sdap_tun_gnb_first_ue_default_pdu_session n (e :: l) ue
  else mret (e :: l, []).

Definition nr_sdap_addmod_entity (n : node_t) (s : S) (l : list t) (is_gnb : bool) (ue : Z)
    (c : sdap_config_t) : res (S * list t * list event) :=
  match nr_sdap_get_entity l ue (cfg_pdusession_id c) with
  | Some (i, e) => '(s, e', ev) ← nr_sdap_qfi2drb_map_update s e c; mret (s, <[i := e']> l, ev)
  | None => '(l, ev) ← nr_sdap_add_entity n l is_gnb ue c; mret (s, l, ev)
  end.

(** [AssertError] with [return] when there is no entity. *)
Definition nr_reconfigure_sdap_entity (s : S) (l : list t) (nc : NR_SDAP_Config_t) (ue ps drb_id : Z)
    : res (S * list t * list event) :=
  match nr_sdap_get_entity l ue ps with
  | None => mret (s, l, [])
  | Some (i, e) =>
      c ← nr_sdap_get_config false nc drb_id;
      '(s, e', ev) ← nr_sdap_qfi2drb_map_update s e c;
      mret (s, <[i := e']> l, ev)
  end.
End pdcp.

(** The rules of a released DRB are removed; the role stays. *)
Definition release_rule (drb : Z) (r : qfi2drb_t) : qfi2drb_t :=
  if drb_id r =? drb then mk_qfi2drb SDAP_NO_MAPPING_RULE (entity_role r) else r.

Definition nr_sdap_release_drb (l : list t) (ue drb ps : Z) : list t :=
  match nr_sdap_get_entity l ue ps with
  | None => l
  | Some (i, e) => <[i := {| e with qfi2drb_table := map (release_rule drb) (qfi2drb_table e) |}]> l
  end.

(** [if (entityPtr->pdusession_sock != -1) remove_ip_if(entityPtr)]. *)
Definition remove_tun (e : t) : list event :=
  if negb (pdusession_sock e =? -1)
  then [RemoveIpIf (ue_id e) (pdusession_id e) (pdusession_sock e)] else [].

(** The walk of [nr_sdap_delete_entity] from [cur]: at most [bound] moves, then [cur]
    is unlinked if it is the entity. *)
Fixpoint delete_walk (bound : nat) (ue ps : Z) (cur : t) (next : list t) : option (list t * t) :=
  if is_entity ue ps cur then Some (next, cur)
  else match bound, next with
       | Datatypes.S bound, cur' :: next' =>
           match delete_walk bound ue ps cur' next' with
           | Some (l, e) => Some (cur :: l, e)
           | None => None
           end
       | _, _ => None
       end.

Definition nr_sdap_delete_entity (l : list t) (ue ps : Z) : res (list t * list event * bool) :=
  match l with
  | [] => if ps * (ps - NGAP_MAX_PDU_SESSION) >? 0 then mret (l, [], false) else Fault NullDeref
  | e :: l' =>
      match delete_walk (Z.to_nat SDAP_MAX_NUM_OF_ENTITIES) ue ps e l' with
      | Some (l'', e') => mret (l'', remove_tun e', true)
      | None => mret (l, [], false)
      end
  end.

(** First loop: the entities of the UE at the head of the list. *)
Fixpoint delete_heads (ue : Z) (l : list t) : list t * list event * bool :=
  match l with
  | e :: l' =>
      if ue_id e =? ue
      then let '(l'', ev, _) := delete_heads ue l' in (l'', remove_tun e ++ ev, true)
      else (l, [], false)
  | [] => ([], [], false)
  end.

(** Second loop: [entityPrev] is always the last entity that was kept. *)
Fixpoint delete_others (ue : Z) (l : list t) : list t * list event * bool :=
  match l with
  | [] => ([], [], false)
  | e :: l' =>
      let '(l'', ev, ret) := delete_others ue l' in
      if negb (ue_id e =? ue) then (e :: l'', ev, ret) else (l'', remove_tun e ++ ev, true)
  end.

(** The variable [upperBound] is never increased, so the bounds never stop a loop. *)
Definition nr_sdap_delete_ue_entities (l : list t) (ue : Z) : list t * list event * bool :=
  if bool_decide (l = []) && (u64 (ue * u64 (ue - SDAP_MAX_UE_ID)) >? 0) then (l, [], false)
  else
    let '(l1, ev1, ret1) := delete_heads ue l in
    let '(l2, ev2, ret2) := delete_others ue l1 in
    (l2, ev1 ++ ev2, ret1 || ret2).

(** The QFI and the PDU session are passed in 8 bits. *)
Definition set_qfi (l : list t) (qfi pduid ue : Z) : res (list t) :=
  '(i, e) ← of_option Exit (nr_sdap_get_entity l ue (u8 pduid));
  mret (<[i := {| e with qfi := u8 qfi |}]> l).
End Sdap.
