(* ===== verification/SdapSpec.v ===== *)
(** * SDAP: the list of entities as a map

    Lemmas about [nr_sdap_entity.c]: the header byte, the mapping table, and the
    linked list of entities, which behaves as a finite map from a UE and a PDU
    session to an entity. *)

From S2P Require Import Prelude Events Sdap.

Module SdapSpec.
Import Events Sdap.

(** ** The header byte *)

Lemma hdr_fields qfi b6 b7 : 0 <= qfi < 64 -> 0 <= b6 < 2 -> 0 <= b7 < 2 ->
  hdr_QFI (hdr_byte qfi b6 b7) = qfi /\ hdr_bit6 (hdr_byte qfi b6 b7) = b6 /\
  hdr_bit7 (hdr_byte qfi b6 b7) = b7 /\ is_byte (hdr_byte qfi b6 b7).
Proof.
  intros. unfold hdr_QFI, hdr_bit6, hdr_bit7, hdr_byte, is_byte.
  rewrite !(Z.mod_small qfi), !(Z.mod_small b6 2), !(Z.mod_small b7 2) by lia.
  split_and!; zmod.
Qed.

(** The mask of [deliver_sdu_drb] reads the same field. *)
Lemma hdr_QFI_land b : hdr_QFI b = Z.land b SDAP_BITMASK_QFI.
Proof. unfold hdr_QFI, SDAP_BITMASK_QFI. change 0x3F with (Z.ones 6). by rewrite Z.land_ones. Qed.

(** A packet without its first byte. *)
Lemma zslice_tail (h : Z) sdu : zslice (h :: sdu) 1 (1 + zlen sdu - 1) = Ok sdu.
Proof.
  pose proof (zlen_nonneg sdu). rewrite zslice_ok by (rewrite ?zlen_cons; lia).
  change (Z.to_nat 1) with 1%nat. cbn [drop].
  replace (Z.to_nat (1 + zlen sdu - 1)) with (length sdu) by (unfold zlen; lia). by rewrite firstn_all.
Qed.

(** ** The mapping table *)

(** Every rule is for a DRB that can exist. *)
Record wf (e : t) : Prop := {
  wf_table : zlen (qfi2drb_table e) = SDAP_MAX_QFI;
  wf_rules : Forall (fun r => 0 <= drb_id r <= MAX_DRBS_PER_UE) (qfi2drb_table e)
}.

(** The rule of a QFI. *)
Definition rule (e : t) (q : Z) : qfi2drb_t :=
  default (mk_qfi2drb 0 0) (qfi2drb_table e !! Z.to_nat q).

Lemma rule_get e q : wf e -> 0 <= q < SDAP_MAX_QFI -> zget (qfi2drb_table e) q = Ok (rule e q).
Proof.
  intros [Hl _] Hq. apply zget_ok. split; [lia|]. unfold rule.
  destruct (lookup_lt_is_Some_2 (qfi2drb_table e) (Z.to_nat q)) as [r ->]; [|done].
  unfold zlen, SDAP_MAX_QFI in *. lia.
Qed.

Lemma rule_range e q : wf e -> 0 <= drb_id (rule e q) <= MAX_DRBS_PER_UE.
Proof.
  intros [_ Hr]. unfold rule. destruct (_ !! _) as [r|] eqn:E; [|done].
  by apply (proj1 (Forall_lookup _ _) Hr _ _ E).
Qed.

Lemma set_rule_ok e q r : wf e -> 0 <= q < SDAP_MAX_QFI -> 0 <= drb_id r <= MAX_DRBS_PER_UE ->
  exists e', set_rule e q r = Ok e' /\ wf e' /\
    e' = {| e with qfi2drb_table := <[Z.to_nat q := r]> (qfi2drb_table e) |} /\
    forall q', 0 <= q' -> rule e' q' = if decide (q' = q) then r else rule e q'.
Proof.
  intros [Hl Hr] Hq Hd. unfold set_rule. rewrite zset_ok by lia. eexists. split; [done|].
  split; [|split; [done|] ].
  - split; cbn; [by rewrite zlen_insert|by apply Forall_insert].
  - intros q' Hq'. unfold rule. cbn. case_decide as E.
    + subst. by rewrite list_lookup_insert_eq by (unfold zlen in *; lia).
    + by rewrite list_lookup_insert_ne by lia.
Qed.

(** The parts of an entity that no change of its rules touches. *)
Definition same_entity (e e' : t) : Prop := exists tab, e' = {| e with qfi2drb_table := tab |}.

Lemma same_entity_refl e : same_entity e e.
Proof. exists (qfi2drb_table e). by destruct e. Qed.

Lemma same_entity_trans e1 e2 e3 : same_entity e1 e2 -> same_entity e2 e3 -> same_entity e1 e3.
Proof. intros (t1 & ->) (t2 & ->). by exists t2. Qed.

(** A loop that sets one rule per round. *)
Lemma rules_loop (f : t -> Z -> res t) (g : qfi2drb_t -> qfi2drb_t) e qs :
  (forall e q, q ∈ qs -> wf e -> exists e', f e q = Ok e' /\ wf e' /\ same_entity e e' /\
     forall q', 0 <= q' -> rule e' q' = if decide (q' = q) then g (rule e q) else rule e q') ->
  (forall r, g (g r) = g r) -> wf e ->
  exists e', res_foldl f e qs = Ok e' /\ wf e' /\ same_entity e e' /\
    forall q', 0 <= q' -> rule e' q' = if decide (q' ∈ qs) then g (rule e q') else rule e q'.
Proof.
  intros Hf Hg. revert e. induction qs as [|q qs IH]; intros e Hw; cbn [res_foldl].
  { exists e. split_and!; [done|done|apply same_entity_refl|]. intros q' _. case_decide; [set_solver|done]. }
  destruct (Hf e q) as (e1 & -> & Hw1 & Hs1 & Hr1); [left|done|]. rewrite res_bind_unfold.
  destruct IH with e1 as (e2 & -> & Hw2 & Hs2 & Hr2); [|done|].
  { intros e0 q0 Hin. apply Hf. by right. }
  exists e2. split_and!; [done|done|by eapply same_entity_trans|].
  intros q' Hq'. rewrite (Hr2 q' Hq'), (Hr1 q' Hq').
  repeat case_decide; subst; rewrite ?Hg; try done; set_solver.
Qed.

(** A configuration with the QFIs and the DRB that RRC can give. *)
Record config_ok (c : sdap_config_t) : Prop := {
  cfg_drb : 0 < cfg_drb_id c <= MAX_DRBS_PER_UE;
  cfg_role_ok : 0 <= cfg_role c < 16;
  cfg_add : Forall (fun q => 0 <= q < SDAP_MAX_QFI) (mappedQFIs2Add c);
  cfg_release : Forall (fun q => 0 <= q < SDAP_MAX_QFI) (mappedQFIs2Release c)
}.

(** The rule of [q] after a configuration: release wins over add. *)
Definition configured_rule (c : sdap_config_t) (q : Z) (r : qfi2drb_t) : qfi2drb_t :=
  let r := if decide (q ∈ mappedQFIs2Add c) then mk_qfi2drb (cfg_drb_id c) (cfg_role c) else r in
  if decide (q ∈ mappedQFIs2Release c) then mk_qfi2drb 0 (entity_role r) else r.

Lemma add_flows_ok e c : wf e -> config_ok c -> exists e',
  nr_sdap_add_qos_flows_to_drb e c = Ok e' /\ wf e' /\ same_entity e e' /\
  forall q, 0 <= q -> rule e' q =
    if decide (q ∈ mappedQFIs2Add c) then mk_qfi2drb (cfg_drb_id c) (cfg_role c) else rule e q.
Proof.
  intros Hw [Hd Hro Ha _]. unfold MAX_DRBS_PER_UE, SDAP_MAX_QFI in *.
  apply (rules_loop _ (fun _ => mk_qfi2drb (cfg_drb_id c) (cfg_role c))); [|done|done].
  intros e0 q Hin Hw0. pose proof (proj1 (Forall_forall _ _) Ha q Hin) as Hq. simpl in Hq.
  unfold nr_sdap_add_qos_flow, nr_sdap_qfi2drb_map_add, u8, SDAP_MAX_QFI, SDAP_MAP_RULE_EMPTY, MAX_DRBS_PER_UE.
  rewrite !Z.mod_small by lia. zcases; cbn; try lia.
  destruct (set_rule_ok e0 q (mk_qfi2drb (cfg_drb_id c) (cfg_role c)) Hw0) as (e1 & E & Hw1 & Ee & Hr);
    [done|cbn; unfold MAX_DRBS_PER_UE; lia|].
  exists e1. split_and!; [done|done|by eexists|done].
Qed.

Lemma rm_flows_ok e c : wf e -> config_ok c -> exists e',
  nr_sdap_rm_qos_flows_from_drb e c = Ok e' /\ wf e' /\ same_entity e e' /\
  forall q, 0 <= q -> rule e' q =
    if decide (q ∈ mappedQFIs2Release c) then mk_qfi2drb 0 (entity_role (rule e q)) else rule e q.
Proof.
  intros Hw [_ _ _ Hrel]. unfold nr_sdap_rm_qos_flows_from_drb.
  apply (rules_loop _ (fun r => mk_qfi2drb 0 (entity_role r))); [|done|done].
  intros e0 q Hin Hw0. pose proof (proj1 (Forall_forall _ _) Hrel q Hin) as Hq. simpl in Hq.
  unfold nr_sdap_qfi2drb_map_del, u8. unfold SDAP_MAX_QFI in Hq. rewrite Z.mod_small by lia.
  rewrite (rule_get e0 q Hw0), res_bind_unfold by done.
  destruct (set_rule_ok e0 q (mk_qfi2drb SDAP_NO_MAPPING_RULE (entity_role (rule e0 q))) Hw0)
    as (e1 & E & Hw1 & Ee & Hr); [done|done|].
  exists e1. split_and!; [done|done|by eexists|done].
Qed.

(** The rules a configuration leaves, without the control PDUs. *)
Lemma flows_ok e c : wf e -> config_ok c -> exists e1 e',
  nr_sdap_add_qos_flows_to_drb e c = Ok e1 /\ nr_sdap_rm_qos_flows_from_drb e1 c = Ok e' /\
  wf e' /\ same_entity e e' /\ forall q, 0 <= q -> rule e' q = configured_rule c q (rule e q).
Proof.
  intros Hw Hc. destruct (add_flows_ok e c Hw Hc) as (e1 & E1 & Hw1 & Hs1 & Hr1).
  destruct (rm_flows_ok e1 c Hw1 Hc) as (e2 & E2 & Hw2 & Hs2 & Hr2).
  exists e1, e2. split_and!; [done|done|done|by eapply same_entity_trans|].
  intros q Hq. unfold configured_rule. by rewrite (Hr2 q Hq), (Hr1 q Hq).
Qed.

Lemma new_entity_wf g ue c : wf (new_entity g ue c).
Proof. split; [done|]. apply Forall_replicate. cbn. done. Qed.

(** The DRB of a QoS flow: its rule, or the default DRB. *)
Definition drb_of (e : t) (q : Z) : Z :=
  if decide (drb_id (rule e q) = 0) then default_drb e else drb_id (rule e q).

Lemma qfi2drb_ok e q : wf e -> 0 <= q < SDAP_MAX_QFI -> nr_sdap_qfi2drb e q = Ok (drb_of e q).
Proof.
  intros Hw Hq. unfold nr_sdap_qfi2drb, drb_of. rewrite rule_get, res_bind_unfold by done.
  unfold mret, res_ret, SDAP_MAP_RULE_EMPTY. f_equal. case_decide; zcases; cbn; lia.
Qed.
End SdapSpec.

(** * SDAP over a PDCP that accepts its requests

    [PdcpApiLaws] is what SDAP needs of PDCP to configure its rules and to receive:
    a request for one control PDU never stops the process.  With it, a configuration
    and a reception of SDAP always end, and leave the rules that TS 37.324 asks for. *)
Module SdapLaws.
Import Events Sdap SdapSpec.

(** [I] holds of the states of PDCP in which an end marker can be sent. *)
Class PdcpApiLaws (S : Type) `{PdcpApi S} (I : S -> Prop) : Prop := {
  control_pdu_accepted : forall s ue drb mui b, I s -> is_byte b -> exists s' ev ret,
    pdcp_data_req_drb s (ctxt_of false ue) false drb mui [b] = Ok (s', ev, ret) /\ I s'
}.

Section laws.
Context {S : Type} `{A : PdcpApi S} {I : S -> Prop} `{L : !PdcpApiLaws S I}.

Lemma end_marker_ok s e ue ty q : wf e -> I s -> 0 <= q < SDAP_MAX_QFI ->
  exists s' ev, end_marker s e ue ty q = Ok (s', ev) /\ I s'.
Proof.
  intros Hw Hs Hq. unfold end_marker.
  assert (Hm : exists d, nr_sdap_map_ctrl_pdu e ty q = Ok d)
    by (destruct ty; [by eexists|eexists; by apply qfi2drb_ok]).
  destruct Hm as [d ->]. rewrite res_bind_unfold. unfold nr_sdap_submit_ctrl_pdu.
  destruct (negb _); [|by eexists _, _]. unfold nr_pdcp_submit_sdap_ctrl_pdu.
  destruct (hdr_fields q 0 0 Hq) as (_ & _ & _ & Hb); [lia..|].
  destruct (control_pdu_accepted s ue d RLC_MUI_UNDEFINED (nr_sdap_construct_ctrl_pdu q) Hs Hb)
    as (s' & ev & ret & -> & Hs'). by eexists _, _.
Qed.

(** An end marker that is sent or not, as the guards say. *)
Lemma guarded_marker (b : bool) s e ue ty q : wf e -> I s -> 0 <= q < SDAP_MAX_QFI ->
  exists s' ev, (if b then end_marker s e ue ty q else mret (s, [])) = Ok (s', ev) /\ I s'.
Proof. intros Hw Hs Hq. destruct b; [by apply end_marker_ok|by eexists _, _]. Qed.

Lemma control_pdu_round_ok s e ue c ev q : wf e -> I s -> 0 <= q < SDAP_MAX_QFI ->
  exists s' ev', control_pdu_round e ue c (s, ev) q = Ok (s', ev') /\ I s'.
Proof.
  intros Hw Hs Hq. unfold control_pdu_round, u8.
  rewrite (Z.mod_small q) by (unfold SDAP_MAX_QFI in Hq; lia).
  cbv zeta. rewrite rule_get, res_bind_unfold by done.
  destruct (guarded_marker (negb (default_drb e =? 0) && (drb_id (rule e q) =? SDAP_NO_MAPPING_RULE))
    s e ue SDAP_CTRL_PDU_MAP_DEF_DRB q Hw Hs Hq) as (s1 & ev1 & -> & Hs1). rewrite res_bind_unfold.
  destruct (guarded_marker (negb (drb_id (rule e q) =? cfg_drb_id c)
      && has_role (entity_role (rule e q)) SDAP_UL_TX)
    s1 e ue SDAP_CTRL_PDU_MAP_RULE_DRB q Hw Hs1 Hq) as (s2 & ev2 & -> & Hs2). by eexists _, _.
Qed.

Lemma control_pdu_config_ok s e ue c : wf e -> config_ok c -> I s ->
  exists s' ev, nr_sdap_ue_control_pdu_config s e ue c = Ok (s', ev) /\ I s'.
Proof.
  intros Hw [_ _ Ha _] Hs. unfold nr_sdap_ue_control_pdu_config. generalize (@nil event).
  revert s Hs. induction Ha as [|q qs Hq Ha IH]; intros s Hs ev0; cbn [res_foldl]; [by eexists _, _|].
  destruct (control_pdu_round_ok s e ue c ev0 q Hw Hs Hq) as (s1 & ev1 & -> & Hs1). by apply IH.
Qed.

(** A configuration always ends, with the rules it describes. *)
Lemma map_update_ok s e c : wf e -> config_ok c -> I s -> exists s' e' ev,
  nr_sdap_qfi2drb_map_update s e c = Ok (s', e', ev) /\ I s' /\ wf e' /\ same_entity e e' /\
  (forall q, 0 <= q -> rule e' q = configured_rule c q (rule e q)) /\ (is_gnb e = true -> s' = s /\ ev = []).
Proof.
  intros Hw Hc Hs. unfold nr_sdap_qfi2drb_map_update.
  destruct (flows_ok e c Hw Hc) as (e1 & e' & E1 & E2 & Hw' & Hsame & Hr).
  destruct (is_gnb e) eqn:Eg; cbn [negb].
  - rewrite res_ret_bind, E1, res_bind_unfold, E2, res_bind_unfold. eexists _, _, _. by split_and!.
  - destruct (control_pdu_config_ok s e (ue_id e) c Hw Hc Hs) as (s1 & ev & -> & Hs1).
    rewrite res_bind_unfold, E1, res_bind_unfold, E2, res_bind_unfold. eexists _, _, _. by split_and!.
Qed.

Lemma reflective_ok s e drb ue q : wf e -> I s -> 0 <= q < SDAP_MAX_QFI -> 0 <= drb <= MAX_DRBS_PER_UE ->
  exists s' e' ev, reflective_mapping s e drb ue q = Ok (s', e', ev) /\ I s' /\ wf e' /\ same_entity e e' /\
  forall q', 0 <= q' -> rule e' q' =
    if decide (q' = q) then mk_qfi2drb drb (entity_role (rule e q)) else rule e q'.
Proof.
  intros Hw Hs Hq Hd. unfold reflective_mapping. rewrite rule_get, res_bind_unfold by done.
  destruct (guarded_marker ((drb_id (rule e q) =? 0) && negb (default_drb e =? 0))
    s e ue SDAP_CTRL_PDU_MAP_DEF_DRB q Hw Hs Hq) as (s1 & ev1 & -> & Hs1). rewrite res_bind_unfold.
  destruct (guarded_marker (negb (drb =? drb_id (rule e q)))
    s1 e ue SDAP_CTRL_PDU_MAP_RULE_DRB q Hw Hs1 Hq) as (s2 & ev2 & -> & Hs2). rewrite res_bind_unfold.
  destruct (set_rule_ok e q (mk_qfi2drb drb (entity_role (rule e q))) Hw Hq Hd) as (e1 & -> & Hw1 & E & Hr).
  rewrite res_bind_unfold. eexists _, _, _. split_and!; try done. by eexists.
Qed.

(** What the UE does with a downlink PDU that has an SDAP header: the packet goes to
    the TUN interface, and the RDI bit makes its DRB the rule of its QoS flow. *)
Lemma rx_ue_ok s e drb b q ps ue h sdu : wf e -> I s -> 0 <= q < SDAP_MAX_QFI ->
  0 <= drb <= MAX_DRBS_PER_UE -> has_role (entity_role (rule e q)) SDAP_DL_RX = true ->
  exists s' e' ev,
    nr_sdap_rx_entity s e drb false b q ps ue (h :: sdu)
      = Ok (s', e', ev ++ [TunWrite (pdusession_sock e) sdu]) /\ I s' /\ wf e' /\ same_entity e e' /\
    forall q', 0 <= q' -> rule e' q' =
      if decide (hdr_bit7 h = SDAP_REFLECTIVE_MAPPING /\ q' = hdr_QFI h)
      then mk_qfi2drb drb (entity_role (rule e q')) else rule e q'.
Proof.
  intros Hw Hs Hq Hd Hr. unfold nr_sdap_rx_entity. cbv zeta.
  destruct (Z.ltb_spec q SDAP_MAX_QFI); [|lia]. rewrite rule_get, res_bind_unfold, Hr by done.
  cbn [andb]. rewrite (proj2 (zget_ok (h :: sdu) 0 h)), res_bind_unfold, zlen_cons by done.
  assert (Hh : 0 <= hdr_QFI h < SDAP_MAX_QFI) by (apply Z.mod_pos_bound; lia).
  destruct (reflective_ok s e drb ue (hdr_QFI h) Hw Hs Hh Hd) as (s1 & e1 & ev1 & E1 & Hs1 & Hw1 & Hsm & Hr1).
  assert (Et : zslice (h :: sdu) SDAP_HDR_LENGTH (1 + zlen sdu - SDAP_HDR_LENGTH) = Ok sdu) by apply zslice_tail.
  destruct (Z.eqb_spec (hdr_bit7 h) SDAP_REFLECTIVE_MAPPING) as [E7|E7].
  - rewrite E1, !res_bind_unfold. cbn [mbind res_bind mret res_ret]. rewrite Et. cbn [mbind res_bind].
    exists s1, e1, ev1. split_and!; try done; [by destruct Hsm as (tab & ->)|].
    intros q' Hq'. rewrite (Hr1 q' Hq'). repeat case_decide; naive_solver.
  - rewrite res_ret_bind. cbn [mbind res_bind mret res_ret]. rewrite Et. cbn [mbind res_bind].
    exists s, e, []. split_and!; try done; [apply same_entity_refl|].
    intros q' _. by rewrite decide_False by naive_solver.
Qed.
End laws.
End SdapLaws.
