(* ===== verification/SdapList.v ===== *)
(** * SDAP: the list of entities refines a map

    Every call of SDAP on the linked list [sdap_entity_llist] gives the state, the
    events and the result of the same call on a finite map from (UE, PDU session) to
    entities, over any PDCP. *)

From S2P Require Import Prelude Events Sdap SdapSpec.

Module SdapList.
Import Events Sdap SdapSpec.

Inductive op :=
| AddMod (is_gnb : bool) (ue : Z) (c : sdap_config_t)
| Reconfigure (nc : NR_SDAP_Config_t) (ue ps drb : Z)
| DataReq (ctxt : protocol_ctxt_t) (ue : Z) (mui : Z) (sdu : option (list Z)) (q : Z) (rqi : bool) (ps : Z)
| DataInd (drb : Z) (is_gnb has_sdap_rx : bool) (q ps ue : Z) (buf : list Z)
| ReleaseDrb (ue drb ps : Z)
| SetQfi (q ps ue : Z)
| StartTunUe (ue ps sock : Z)
| Delete (ue ps : Z)
| DeleteUe (ue : Z).

Section refinement.
Context {S : Type} `{A : PdcpApi S} (n : node_t).

(** ** The two machines *)

Definition list_call (w : S * list t) (o : op) : res (S * list t * list event * bool) :=
  let '(s, l) := w in
  match o with
  | AddMod g ue c => '(s, l, ev) ← nr_sdap_addmod_entity n s l g ue c; mret (s, l, ev, true)
  | Reconfigure nc ue ps drb =>
      '(s, l, ev) ← nr_reconfigure_sdap_entity s l nc ue ps drb; mret (s, l, ev, true)
  | DataReq ctxt ue mui sdu q rqi ps =>
      '(s, ev, ret) ← sdap_data_req s l ctxt ue false mui sdu q rqi ps; mret (s, l, ev, ret)
  | DataInd drb g h q ps ue buf =>
      '(s, l, ev) ← sdap_data_ind s l drb g h q ps ue buf; mret (s, l, ev, true)
  | ReleaseDrb ue drb ps => mret (s, nr_sdap_release_drb l ue drb ps, [], true)
  | SetQfi q ps ue => l ← set_qfi l q ps ue; mret (s, l, [], true)
  | StartTunUe ue ps sock => '(l, ev) ← start_sdap_tun_ue l ue ps sock; mret (s, l, ev, true)
  | Delete ue ps => '(l, ev, ret) ← nr_sdap_delete_entity l ue ps; mret (s, l, ev, ret)
  | DeleteUe ue => let '(l, ev, ret) := nr_sdap_delete_ue_entities l ue in mret (s, l, ev, ret)
  end.

(** An operation on one entity of the map. *)
Definition with_entity (s : S) (m : gmap (Z * Z) t) (k : Z * Z)
    (missing : res (S * gmap (Z * Z) t * list event * bool)) (f : t -> res (S * t * list event))
    : res (S * gmap (Z * Z) t * list event * bool) :=
  match m !! k with
  | None => missing
  | Some e => '(s, e', ev) ← f e; mret (s, <[k := e']> m, ev, true)
  end.

Definition map_call (w : S * gmap (Z * Z) t) (o : op) : res (S * gmap (Z * Z) t * list event * bool) :=
  let '(s, m) := w in
  match o with
  | AddMod g ue c =>
      with_entity s m (ue, cfg_pdusession_id c)
        (e ← nr_sdap_add_qos_flows_to_drb (new_entity g ue c) c;
         let m := <[(ue, cfg_pdusession_id c) := e]> m in
         if nos1 n && g then
           with_entity s m (ue, default_pdu_session_id n) (Fault Exit) (fun e =>
             _ ← dev_assert (is_gnb e);
             let sock := tun_alloc n (ue - 1) in
             mret (s, {| e with pdusession_sock := sock |}, [StartTun ue (pdusession_id e) sock]))
         else mret (s, m, [], true))
        (fun e => nr_sdap_qfi2drb_map_update s e c)
  | Reconfigure nc ue ps drb =>
      with_entity s m (ue, ps) (mret (s, m, [], true)) (fun e =>
        c ← nr_sdap_get_config false nc drb; nr_sdap_qfi2drb_map_update s e c)
  | DataReq ctxt ue mui sdu q rqi ps =>
      match m !! (ue, ps) with
      | None => mret (s, m, [], false)
      | Some e => '(s, ev, ret) ← nr_sdap_tx_entity s e ctxt false mui sdu q rqi; mret (s, m, ev, ret)
      end
  | DataInd drb g h q ps ue buf =>
      with_entity s m (ue, ps) (mret (s, m, [], true)) (fun e =>
        nr_sdap_rx_entity s e drb g h q ps ue buf)
  | ReleaseDrb ue drb ps =>
      with_entity s m (ue, ps) (mret (s, m, [], true)) (fun e =>
        mret (s, {| e with qfi2drb_table := map (release_rule drb) (qfi2drb_table e) |}, []))
  | SetQfi q ps ue =>
      with_entity s m (ue, u8 ps) (Fault Exit) (fun e => mret (s, {| e with qfi := u8 q |}, []))
  | StartTunUe ue ps sock =>
      with_entity s m (ue, ps) (Fault Exit) (fun e =>
        _ ← dev_assert (negb (is_gnb e));
        mret (s, {| e with pdusession_sock := sock; stop_thread := false |}, [StartTun ue ps sock]))
  | Delete ue ps =>
      match m !! (ue, ps) with
      | Some e => mret (s, delete (ue, ps) m, remove_tun e, true)
      | None =>
          if decide (m = ∅ /\ 0 <= ps <= NGAP_MAX_PDU_SESSION) then Fault NullDeref
          else mret (s, m, [], false)
      end
  | DeleteUe ue =>
      let gone := filter (fun kv => kv.1.1 = ue) m in
      mret (s, filter (fun kv => kv.1.1 <> ue) m, map_to_list gone ≫= (fun kv => remove_tun kv.2),
            bool_decide (gone <> ∅))
  end.

(** ** The map of a list *)

Definition entity_key (e : t) : Z * Z := (ue_id e, pdusession_id e).
Definition abs (l : list t) : gmap (Z * Z) t := list_to_map (map (fun e => (entity_key e, e)) l).

(** One entity per UE and PDU session. *)
Definition unique (l : list t) : Prop := NoDup (map entity_key l).

Lemma keys_of l : (map (fun e => (entity_key e, e)) l).*1 = map entity_key l.
Proof. induction l; [done|]. cbn. by f_equal. Qed.

Lemma abs_lookup_none l k : abs l !! k = None <-> k ∉ map entity_key l.
Proof. unfold abs. by rewrite <- not_elem_of_list_to_map, keys_of. Qed.

Lemma abs_middle l1 e l2 : unique (l1 ++ e :: l2) ->
  abs (l1 ++ e :: l2) = <[entity_key e := e]> (abs (l1 ++ l2)) /\ unique (l1 ++ l2) /\
  abs (l1 ++ l2) !! entity_key e = None.
Proof.
  unfold unique. intros Hu. assert (Hp : l1 ++ e :: l2 ≡ₚ e :: l1 ++ l2) by (by rewrite Permutation_middle).
  assert (Hk : NoDup (map entity_key (e :: l1 ++ l2))) by (by rewrite <- Hp).
  split; [|split].
  - unfold abs. rewrite (list_to_map_proper _ (map (fun e => (entity_key e, e)) (e :: l1 ++ l2)));
      [done|by rewrite keys_of|by rewrite Hp].
  - by apply NoDup_cons in Hk as [_ Hk].
  - apply abs_lookup_none. by apply NoDup_cons in Hk as [Hk _].
Qed.

Lemma is_entity_spec ue ps e : is_entity ue ps e = true <-> entity_key e = (ue, ps).
Proof.
  unfold is_entity, entity_key. rewrite andb_true_iff, !Z.eqb_eq. split; [by intros [-> ->]|].
  by intros [= -> ->].
Qed.

(** The search: either the key is not in the map, or the list splits at the entity. *)
Lemma get_entity_spec l ue ps : unique l ->
  match nr_sdap_get_entity l ue ps with
  | None => abs l !! (ue, ps) = None
  | Some (i, e) => exists l1 l2, l = l1 ++ e :: l2 /\ i = length l1 /\ entity_key e = (ue, ps) /\
      abs l !! (ue, ps) = Some e
  end.
Proof.
  intros Hu. unfold nr_sdap_get_entity. destruct (list_find _ l) as [[i e]|] eqn:E.
  - apply list_find_Some in E as (Hi & He & _). apply is_entity_spec in He.
    exists (take i l), (drop (Datatypes.S i) l). pose proof (take_drop_middle _ _ _ Hi) as Hl.
    split_and!; [done|rewrite length_take; apply lookup_lt_Some in Hi; lia|done|].
    rewrite <- Hl in Hu. destruct (abs_middle _ _ _ Hu) as (Ha & _ & _). rewrite Hl, He in Ha.
    by rewrite Ha, lookup_insert_eq.
  - apply list_find_None in E. apply abs_lookup_none. intros Hin.
    apply list_elem_of_fmap in Hin as (e & Ek & Hin).
    apply (proj1 (Forall_forall _ _) E e Hin). by apply is_entity_spec.
Qed.

Lemma update_entity l1 e e' l2 : unique (l1 ++ e :: l2) -> entity_key e' = entity_key e ->
  <[length l1 := e']> (l1 ++ e :: l2) = l1 ++ e' :: l2 /\ unique (l1 ++ e' :: l2) /\
  abs (l1 ++ e' :: l2) = <[entity_key e := e']> (abs (l1 ++ e :: l2)).
Proof.
  intros Hu Ek. assert (Hu' : unique (l1 ++ e' :: l2))
    by (unfold unique in *; rewrite map_app in *; cbn in *; by rewrite Ek).
  split; [|split; [done|] ].
  - rewrite insert_app_r_alt, Nat.sub_diag by lia. done.
  - destruct (abs_middle _ _ _ Hu) as (-> & _ & _), (abs_middle _ _ _ Hu') as (-> & _ & _).
    by rewrite Ek, insert_insert_eq.
Qed.

(** ** Operations on one entity keep its key *)

(** Inversion through the tuples that the functions return. *)
Ltac pairs_inv := repeat (match goal with x : (_ * _)%type |- _ => destruct x end; simpl in *; res_inv).

Lemma same_key e e' : same_entity e e' -> entity_key e' = entity_key e.
Proof. by intros (tab & ->). Qed.

Lemma set_rule_same e q r e' : set_rule e q r = Ok e' -> same_entity e e'.
Proof. unfold set_rule. intros. res_inv. by eexists. Qed.

Lemma fold_same {B} (f : t -> B -> res t) e l e' :
  (forall e b e', f e b = Ok e' -> same_entity e e') -> res_foldl f e l = Ok e' -> same_entity e e'.
Proof.
  intros Hf. revert e. induction l as [|b l IH]; intros e E; cbn in E; res_inv; [apply same_entity_refl|].
  eapply same_entity_trans; [by eapply Hf|by apply IH].
Qed.

Lemma add_flows_same e c e' : nr_sdap_add_qos_flows_to_drb e c = Ok e' -> same_entity e e'.
Proof.
  apply fold_same. intros e0 q e1. unfold nr_sdap_add_qos_flow. destruct (_ && _).
  - apply set_rule_same.
  - intros. res_inv. apply same_entity_refl.
Qed.

Lemma rm_flows_same e c e' : nr_sdap_rm_qos_flows_from_drb e c = Ok e' -> same_entity e e'.
Proof.
  apply fold_same. intros e0 q e1. unfold nr_sdap_qfi2drb_map_del. intros. res_inv.
  by eapply set_rule_same.
Qed.

Lemma map_update_same s e c s' e' ev : nr_sdap_qfi2drb_map_update s e c = Ok (s', e', ev) -> same_entity e e'.
Proof.
  unfold nr_sdap_qfi2drb_map_update. intros E. res_inv. pairs_inv.
  eapply same_entity_trans; [by eapply add_flows_same|by eapply rm_flows_same].
Qed.

Lemma rx_same s e drb g h q ps ue buf s' e' ev :
  nr_sdap_rx_entity s e drb g h q ps ue buf = Ok (s', e', ev) -> same_entity e e'.
Proof.
  unfold nr_sdap_rx_entity. intros E. res_inv. destruct g; res_inv; [apply same_entity_refl|].
  pairs_inv. destruct (_ && _); res_inv; [|apply same_entity_refl].
  pairs_inv. destruct (_ =? _); res_inv; [|apply same_entity_refl].
  unfold reflective_mapping in *. res_inv. pairs_inv. by eapply set_rule_same.
Qed.
(** ** The calls *)

(** The same outcome: the list stands for the map and has at most [size] entities;
    the events are the same up to their order. *)
Definition agrees (size : Z) (r : res (S * list t * list event * bool))
    (r' : res (S * gmap (Z * Z) t * list event * bool)) : Prop :=
  match r, r' with
  | Ok (s, l, ev, ret), Ok (s', m, ev', ret') =>
      s = s' /\ unique l /\ abs l = m /\ ev ≡ₚ ev' /\ ret = ret' /\ zlen l <= size
  | Fault f, Fault f' => f = f'
  | _, _ => False
  end.

(** An operation on one entity: the C code changes the entity in place. *)
Lemma with_entity_ok size s l ue ps (missing : res (S * list t * list event * bool)) missing' f :
  unique l -> zlen l <= size ->
  (nr_sdap_get_entity l ue ps = None -> agrees size missing missing') ->
  (forall e s' e' ev, f e = Ok (s', e', ev) -> entity_key e' = entity_key e) ->
  agrees size
    (match nr_sdap_get_entity l ue ps with
     | None => missing
     | Some (i, e) => '(s, e', ev) ← f e; mret (s, <[i := e']> l, ev, true)
     end)
    (with_entity s (abs l) (ue, ps) missing' f).
Proof.
  intros Hu Hz Hm Hf. pose proof (get_entity_spec l ue ps Hu) as H. unfold with_entity.
  destruct (nr_sdap_get_entity l ue ps) as [[i e]|]; [|rewrite H; by apply Hm].
  destruct H as (l1 & l2 & -> & -> & Ek & ->).
  destruct (f e) as [[[s' e'] ev]|x] eqn:E; cbn; [|done]. apply Hf in E.
  destruct (update_entity l1 e e' l2 Hu E) as (-> & Hu' & Ha). rewrite Ha, Ek.
  rewrite zlen_app, zlen_cons in *. by split_and!.
Qed.

Lemma get_entity_cons e l ue ps : nr_sdap_get_entity (e :: l) ue ps =
  if is_entity ue ps e then Some (O, e) else prod_map Datatypes.S id <$> nr_sdap_get_entity l ue ps.
Proof.
  unfold nr_sdap_get_entity. cbn [list_find].
  destruct (is_entity ue ps e) eqn:E; [by rewrite decide_True|by rewrite decide_False].
Qed.

Lemma delete_walk_spec bound ue ps cur next : (length next <= bound)%nat ->
  delete_walk bound ue ps cur next =
  match nr_sdap_get_entity (cur :: next) ue ps with
  | Some (i, e) => Some (delete i (cur :: next), e)
  | None => None
  end.
Proof.
  revert cur next. induction bound as [|bound IH]; intros cur [|cur' next] Hb; simpl in Hb; try lia.
  all: rewrite get_entity_cons; cbn [delete_walk]; destruct (is_entity ue ps cur); try done.
  rewrite IH by lia. by destruct (nr_sdap_get_entity (cur' :: next) ue ps) as [[i e]|].
Qed.

Lemma delete_ok s l ue ps : unique l -> zlen l <= SDAP_MAX_NUM_OF_ENTITIES ->
  agrees (zlen l) (list_call (s, l) (Delete ue ps)) (map_call (s, abs l) (Delete ue ps)).
Proof.
  intros Hu Hz. cbn [list_call map_call]. pose proof (get_entity_spec l ue ps Hu) as H.
  destruct l as [|e l]; cbn [nr_sdap_delete_entity].
  { change (abs []) with (∅ : gmap (Z * Z) t). rewrite lookup_empty. unfold NGAP_MAX_PDU_SESSION.
    destruct (Z.gtb_spec (ps * (ps - 256)) 0), (decide (_ /\ _)) as [[_ D]|D]; cbn; try done.
    - nia.
    - destruct D. split; [done|]. nia. }
  rewrite delete_walk_spec
    by (rewrite zlen_cons in Hz; unfold zlen in Hz; lia).
  destruct (nr_sdap_get_entity (e :: l) ue ps) as [[i e']|].
  - destruct H as (l1 & l2 & El & -> & Ek & ->). rewrite El in *. rewrite delete_middle. cbn.
    destruct (abs_middle _ _ _ Hu) as (Ha & Hu' & Hn). rewrite Ha, Ek in *. rewrite delete_insert_id by done.
    autorewrite with rlc_len. split_and!; try done. lia.
  - rewrite H, decide_False.
    + cbn. by split_and!.
    + intros [E _]. assert (D : abs (e :: l) !! entity_key e = None) by (by rewrite E, lookup_empty).
      apply abs_lookup_none in D. destruct D. left.
Qed.
(** Both loops of [nr_sdap_delete_ue_entities] together are the second loop alone. *)
Lemma delete_heads_others ue l :
  (let '(l1, ev1, ret1) := delete_heads ue l in
   let '(l2, ev2, ret2) := delete_others ue l1 in
   (l2, ev1 ++ ev2, ret1 || ret2)) = delete_others ue l.
Proof.
  induction l as [|e l IH]; [done|]. cbn [delete_heads]. destruct (Z.eqb_spec (ue_id e) ue) as [E|E].
  - cbn [delete_others]. destruct (Z.eqb_spec (ue_id e) ue); [|done]. cbn [negb].
    destruct (delete_heads ue l) as [[l1 ev1] r1], (delete_others ue l1) as [[l2 ev2] r2].
    rewrite <- IH, <- app_assoc. done.
  - cbn [app orb]. by destruct (delete_others ue (e :: l)) as [[l2 ev2] r2].
Qed.

Lemma delete_others_spec ue l : delete_others ue l =
  (filter (fun e => ue_id e <> ue) l, filter (fun e => ue_id e = ue) l ≫= remove_tun,
   bool_decide (filter (fun e => ue_id e = ue) l <> [])).
Proof.
  induction l as [|e l IH]; [done|]. cbn [delete_others]. rewrite IH, !filter_cons.
  destruct (Z.eqb_spec (ue_id e) ue).
  - rewrite decide_False, decide_True by (by intros D || done). done.
  - rewrite decide_True, decide_False by done. done.
Qed.

Lemma abs_filter (P : Z -> Prop) `{!forall x, Decision (P x)} l :
  abs (filter (fun e => P (ue_id e)) l) = filter (fun kv => P kv.1.1) (abs l).
Proof.
  induction l as [|e l IH]; [done|]. rewrite filter_cons.
  change (abs (e :: l)) with (<[entity_key e := e]> (abs l)). case_decide as D.
  - rewrite map_filter_insert_True by done. by rewrite <- IH.
  - rewrite map_filter_insert_not; [done|]. intros y. exact D.
Qed.

Lemma unique_filter (P : t -> Prop) `{!forall x, Decision (P x)} l : unique l -> unique (filter P l).
Proof.
  unfold unique. induction l as [|e l IH]; [done|]. cbn [map]. intros Hn. apply NoDup_cons in Hn as [Hn Hl].
  rewrite filter_cons. case_decide; [|by apply IH]. cbn [map]. apply NoDup_cons. split; [|by apply IH].
  intros Hin. apply Hn. apply list_elem_of_fmap in Hin as (x & -> & Hin).
  apply list_elem_of_filter in Hin as [_ Hin]. by apply list_elem_of_fmap_2.
Qed.

Lemma delete_ue_ok s l ue : unique l ->
  agrees (zlen l) (list_call (s, l) (DeleteUe ue)) (map_call (s, abs l) (DeleteUe ue)).
Proof.
  intros Hu. cbn [list_call map_call].
  assert (E : nr_sdap_delete_ue_entities l ue = delete_others ue l).
  { unfold nr_sdap_delete_ue_entities. rewrite delete_heads_others.
    destruct l as [|e l]; [by destruct (_ && _)|done]. }
  rewrite E, delete_others_spec. cbn.
  pose proof (abs_filter (fun x => x = ue) l) as Hg. pose proof (abs_filter (fun x => x <> ue) l) as Hk.
  cbn beta in Hg, Hk. rewrite <- Hg, <- Hk.
  pose proof (unique_filter (fun e => ue_id e = ue) l Hu) as Hug.
  split_and!; [done|by apply unique_filter|done| | |].
  - unfold abs. rewrite map_to_list_to_map by (by rewrite keys_of).
    clear. induction (filter _ l) as [|e l' IH]; [done|]. cbn. by f_equiv.
  - apply bool_decide_ext. destruct (filter (fun e => ue_id e = ue) l) as [|e l'] eqn:Ef.
    + by split.
    + split; [|done]. intros _ Hemp. assert (D : abs (e :: l') !! entity_key e = None) by (by rewrite Hemp).
      apply abs_lookup_none in D. destruct D. left.
  - unfold zlen. pose proof (length_filter (fun e => ue_id e <> ue) l). lia.
Qed.

Lemma add_ok s l g ue c size : unique l -> zlen l + 1 <= size ->
  nr_sdap_get_entity l ue (cfg_pdusession_id c) = None ->
  agrees size
    ('(l', ev) ← nr_sdap_add_entity n l g ue c; mret (s, l', ev, true))
    (e ← nr_sdap_add_qos_flows_to_drb (new_entity g ue c) c;
     let m := <[(ue, cfg_pdusession_id c) := e]> (abs l) in
     if nos1 n && g then
       with_entity s m (ue, default_pdu_session_id n) (Fault Exit) (fun e =>
         _ ← dev_assert (is_gnb e);
         let sock := tun_alloc n (ue - 1) in
         mret (s, {| e with pdusession_sock := sock |}, [StartTun ue (pdusession_id e) sock]))
     else mret (s, m, [], true)).
Proof.
  intros Hu Hz Hg. pose proof (get_entity_spec l ue (cfg_pdusession_id c) Hu) as H. rewrite Hg in H.
  unfold nr_sdap_add_entity. destruct (nr_sdap_add_qos_flows_to_drb _ c) as [e|f] eqn:E; [|done].
  apply add_flows_same in E as (tab & ->). rewrite !res_bind_unfold.
  set (e0 := new_entity g ue c). set (e := {| e0 with qfi2drb_table := tab |}).
  change (<[(ue, cfg_pdusession_id c) := e]> (abs l)) with (abs (e :: l)).
  assert (Hu' : unique (e :: l)) by (apply NoDup_cons; split; [by apply abs_lookup_none|done]).
  assert (Hz' : zlen (e :: l) <= size) by (rewrite zlen_cons; lia).
  cbv zeta. destruct (nos1 n && g); [|by cbn].
  unfold start_sdap_tun_gnb_first_ue_default_pdu_session.
  pose proof (with_entity_ok size s (e :: l) ue (default_pdu_session_id n) (Fault Exit) (Fault Exit)
    (fun e => _ ← dev_assert (is_gnb e);
       mret (s, {| e with pdusession_sock := tun_alloc n (ue - 1) |},
             [StartTun ue (pdusession_id e) (tun_alloc n (ue - 1))])) Hu' Hz') as Hw.
  destruct (nr_sdap_get_entity (e :: l) ue (default_pdu_session_id n)) as [[i e1]|]; cbn [of_option].
  - rewrite res_bind_unfold. destruct (is_gnb e1); apply Hw; try done; intros; res_inv; by destruct (is_gnb _).
  - apply Hw; [done|]. intros; res_inv. done.
Qed.
Lemma agrees_weaken a b r r' : agrees a r r' -> a <= b -> agrees b r r'.
Proof.
  unfold agrees. intros H Hab. destruct r as [[[[s l] ev] ret]|], r' as [[[[s' m] ev'] ret']|]; try done.
  destruct H as (? & ? & ? & ? & ? & ?). split_and!; try done. lia.
Qed.

(** The outcome of [with_entity_ok], for a C function whose list side is [r]. *)
Lemma with_entity_eq size s l ue ps r (missing : res (S * list t * list event * bool)) missing' f :
  unique l -> zlen l <= size ->
  r = match nr_sdap_get_entity l ue ps with
      | None => missing
      | Some (i, e) => '(s, e', ev) ← f e; mret (s, <[i := e']> l, ev, true)
      end ->
  (nr_sdap_get_entity l ue ps = None -> agrees size missing missing') ->
  (forall e s' e' ev, f e = Ok (s', e', ev) -> entity_key e' = entity_key e) ->
  agrees size r (with_entity s (abs l) (ue, ps) missing' f).
Proof. intros Hu Hz -> Hm Hf. by apply with_entity_ok. Qed.

Lemma list_call_ok s l o : unique l -> zlen l <= SDAP_MAX_NUM_OF_ENTITIES ->
  agrees (zlen l + 1) (list_call (s, l) o) (map_call (s, abs l) o).
Proof.
  intros Hu Hz. assert (Hz1 : zlen l <= zlen l + 1) by lia.
  assert (Hid : agrees (zlen l + 1) (mret (s, l, [], true)) (mret (s, abs l, [], true))) by (by cbn).
  destruct o as [g ue c|nc ue ps drb|ctxt ue mui sdu q rqi ps|drb g h q ps ue buf|ue drb ps|q ps ue
                |ue ps sock|ue ps|ue]; cbn [list_call map_call].
  - eapply with_entity_eq; [done|done| |intros; by apply add_ok; [|lia|]|].
    + unfold nr_sdap_addmod_entity. destruct (nr_sdap_get_entity _ _ _) as [[i e]|].
      * by destruct (nr_sdap_qfi2drb_map_update s e c) as [[[? ?] ?]|].
      * by destruct (nr_sdap_add_entity n l g ue c) as [[? ?]|].
    + intros. by eapply same_key, map_update_same.
  - eapply (with_entity_eq _ _ _ _ _ _ (mret (s, l, [], true))); [done|done| |done|].
    + unfold nr_reconfigure_sdap_entity. destruct (nr_sdap_get_entity _ _ _) as [[i e]|]; [|done].
      destruct (nr_sdap_get_config false nc drb) as [c|]; [|done]. rewrite !res_bind_unfold.
      by destruct (nr_sdap_qfi2drb_map_update s e c) as [[[? ?] ?]|].
    + intros. res_inv. by eapply same_key, map_update_same.
  - pose proof (get_entity_spec l ue ps Hu) as H. unfold sdap_data_req.
    destruct (nr_sdap_get_entity l ue ps) as [[i e]|].
    + destruct H as (_ & _ & _ & _ & _ & ->).
      destruct (nr_sdap_tx_entity s e ctxt false mui sdu q rqi) as [[[? ?] ?]|]; [|done]. by cbn.
    + rewrite H. by cbn.
  - eapply (with_entity_eq _ _ _ _ _ _ (mret (s, l, [], true))); [done|done| |done|].
    + unfold sdap_data_ind. destruct (nr_sdap_get_entity _ _ _) as [[i e]|]; [|done].
      by destruct (nr_sdap_rx_entity s e drb g h q ps ue buf) as [[[? ?] ?]|].
    + intros. by eapply same_key, rx_same.
  - eapply (with_entity_eq _ _ _ _ _ _ (mret (s, l, [], true))); [done|done| |done|].
    + unfold nr_sdap_release_drb. by destruct (nr_sdap_get_entity _ _ _) as [[i e]|].
    + intros. by res_inv.
  - eapply (with_entity_eq _ _ _ _ _ _ (Fault Exit)); [done|done| |done|].
    + unfold set_qfi. by destruct (nr_sdap_get_entity _ _ _) as [[i e]|].
    + intros. by res_inv.
  - eapply (with_entity_eq _ _ _ _ _ _ (Fault Exit)); [done|done| |done|].
    + unfold start_sdap_tun_ue. destruct (nr_sdap_get_entity _ _ _) as [[i e]|]; [|done]. cbn.
      by destruct (is_gnb e).
    + intros. by res_inv.
  - eapply agrees_weaken; [apply delete_ok; [done|lia]|lia].
  - eapply agrees_weaken; [by apply delete_ue_ok|lia].
Qed.

(** ** Runs *)

Fixpoint list_run (w : S * list t) (os : list op) : res (S * list t * list (list event * bool)) :=
  match os with
  | [] => mret (w, [])
  | o :: os =>
      '(s, l, ev, ret) ← list_call w o;
      '(w, outs) ← list_run (s, l) os;
      mret (w, (ev, ret) :: outs)
  end.

Fixpoint map_run (w : S * gmap (Z * Z) t) (os : list op)
    : res (S * gmap (Z * Z) t * list (list event * bool)) :=
  match os with
  | [] => mret (w, [])
  | o :: os =>
      '(s, m, ev, ret) ← map_call w o;
      '(w, outs) ← map_run (s, m) os;
      mret (w, (ev, ret) :: outs)
  end.

(** The outputs of two runs: the same results, the events of each call up to order. *)
Definition same_outputs (o1 o2 : list (list event * bool)) : Prop :=
  Forall2 (fun x y => x.1 ≡ₚ y.1 /\ x.2 = y.2) o1 o2.

Definition run_agrees (r : res (S * list t * list (list event * bool)))
    (r' : res (S * gmap (Z * Z) t * list (list event * bool))) : Prop :=
  match r, r' with
  | Ok (s, l, outs), Ok (s', m, outs') => s = s' /\ unique l /\ abs l = m /\ same_outputs outs outs'
  | Fault f, Fault f' => f = f'
  | _, _ => False
  end.

(** Before no call of the run there are more than [SDAP_MAX_NUM_OF_ENTITIES] entities:
    the search of [nr_sdap_delete_entity] gives up after that many. *)
Fixpoint fits (w : S * gmap (Z * Z) t) (os : list op) : bool :=
  (Z.of_nat (size w.2) <=? SDAP_MAX_NUM_OF_ENTITIES) &&
  match os with
  | [] => true
  | o :: os => match map_call w o with Ok (s, m, _, _) => fits (s, m) os | Fault _ => true end
  end.

Lemma abs_size l : unique l -> Z.of_nat (size (abs l)) = zlen l.
Proof.
  unfold unique. induction l as [|e l IH]; intros Hu; [done|]. cbn [map] in Hu.
  apply NoDup_cons in Hu as [Hn Hu].
  change (abs (e :: l)) with (<[entity_key e := e]> (abs l)). rewrite zlen_cons, <- (IH Hu).
  rewrite map_size_insert_None by (by apply abs_lookup_none). lia.
Qed.

Lemma list_run_ok s l os : unique l -> fits (s, abs l) os = true ->
  run_agrees (list_run (s, l) os) (map_run (s, abs l) os).
Proof.
  revert s l. induction os as [|o os IH]; intros s l Hu Hf; cbn [list_run map_run].
  { cbn. split_and!; try done. apply Forall2_nil_2. }
  cbn [fits snd] in Hf. apply andb_true_iff in Hf as [Hz Hf]. rewrite (abs_size l Hu) in Hz.
  apply Z.leb_le in Hz. pose proof (list_call_ok s l o Hu Hz) as H1. unfold agrees in H1.
  destruct (list_call (s, l) o) as [[[[s1 l1] ev1] r1]|f], (map_call (s, abs l) o) as [[[[s1' m1] ev1'] r1']|f'];
    try done.
  destruct H1 as (<- & Hu1 & <- & Hev & <- & _). rewrite !res_bind_unfold.
  specialize (IH s1 l1 Hu1 Hf). unfold run_agrees in IH.
  destruct (list_run (s1, l1) os) as [[[s2 l2] o2]|f], (map_run (s1, abs l1) os) as [[[s2' m2] o2']|f'];
    try done.
  destruct IH as (<- & Hu2 & <- & Ho). cbn. split_and!; try done. apply Forall2_cons_2; done.
Qed.
End refinement.
End SdapList.
