(* ===== verification/PdcpEntity.v ===== *)
(** * PDCP: the entity

    Models [openair2/LAYER2/nr_pdcp/nr_pdcp_entity.c] and the algorithm wrappers
    [nr_pdcp_security_nea1.c], [nr_pdcp_security_nea2.c],
    [nr_pdcp_integrity_nia1.c] and [nr_pdcp_integrity_nia2.c].  SDUs handed to the
    upper layer by [deliver_sdu] are the output of the functions that call it. *)

From S2P Require Import Prelude Snow3g Secu PdcpSdu.

Module Pdcp.
Import Secu.

Definition SHORT_SN_SIZE : Z := 12.
Definition LONG_SN_SIZE : Z := 18.
Definition SHORT_PDCP_HEADER_SIZE : Z := 2.
Definition LONG_PDCP_HEADER_SIZE : Z := 3.
Definition PDCP_INTEGRITY_SIZE : Z := 4.
Definition NR_K_KEY_SIZE : Z := 16.

(** [nr_pdcp_entity_type_t]. *)
Inductive nr_pdcp_entity_type_t := NR_PDCP_DRB_AM | NR_PDCP_DRB_UM | NR_PDCP_SRB.

#[export] Instance entity_type_eq_dec : EqDecision nr_pdcp_entity_type_t.
Proof. solve_decision. Defined.

(** [nr_pdcp_entity_security_keys_and_algos_t]. *)
Record security_t := mk_security {
  integrity_algorithm : Z;
  ciphering_algorithm : Z;
  integrity_key : list Z;
  ciphering_key : list Z
}.

(** [nr_pdcp_count_t]. *)
Record nr_pdcp_count_t := mk_count { sn : Z; hfn : Z }.

(** [nr_pdcp_statistics_t], the fields that are written. *)
Record stats_t := mk_stats {
  txpdu_pkts : Z; txpdu_bytes : Z; txpdu_sn : Z;
  rxpdu_pkts : Z; rxpdu_bytes : Z; rxpdu_sn : Z;
  rxpdu_dd_pkts : Z; rxpdu_dd_bytes : Z;
  txsdu_pkts : Z; txsdu_bytes : Z;
  rxsdu_pkts : Z; rxsdu_bytes : Z
}.

Definition stats_0 : stats_t := mk_stats 0 0 0 0 0 0 0 0 0 0 0 0.

(** The [cipher]/[decipher] function with its [security_context].  The context of
    NEA2 points to the ciphering key of the entity itself. *)
Inductive cipher_t :=
| Nea1 (ctx : stream_security_context_t)
| Nea2.

(** The [integrity] function with its [integrity_context]. *)
Inductive integrity_t :=
| Nia1 (ctx : stream_security_context_t)
| Nia2 (ctx : stream_security_context_t).

(** [nr_pdcp_entity_t].  [cipher] is [None] when [free_security] is null. *)
Record t := mk_entity {
  type : nr_pdcp_entity_type_t;
  rb_id : Z;
  pdusession_id : Z;
  has_sdap_rx : bool;
  has_sdap_tx : bool;
  sn_size : Z;
  t_reordering : Z;
  discard_timer : Z;
  sn_max : Z;
  window_size : Z;
  tx_next : Z;
  rx_next : Z;
  rx_deliv : Z;
  rx_reord : Z;
  t_current : Z;
  t_reordering_start : Z;
  has_ciphering : bool;
  has_integrity : bool;
  security_keys_and_algos : security_t;
  cipher : option cipher_t;
  integrity : option integrity_t;
  is_gnb : bool;
  rx_list : list PdcpSdu.t;
  rx_size : Z;
  stats : stats_t;
  entity_suspended : bool
}.

(** ** Statistics *)

Definition count_rxpdu (size : Z) (s : stats_t) : stats_t :=
  {| s with rxpdu_pkts := u32 (rxpdu_pkts s + 1); rxpdu_bytes := u32 (rxpdu_bytes s + size) |}.

Definition count_dd (size : Z) (s : stats_t) : stats_t :=
  {| s with rxpdu_dd_pkts := u32 (rxpdu_dd_pkts s + 1); rxpdu_dd_bytes := u32 (rxpdu_dd_bytes s + size) |}.

Definition count_txsdu (size : Z) (s : stats_t) : stats_t :=
  {| s with txsdu_pkts := u32 (txsdu_pkts s + 1); txsdu_bytes := u32 (txsdu_bytes s + size) |}.

Definition count_rxsdu (size : Z) (s : stats_t) : stats_t :=
  {| s with rxsdu_pkts := u32 (rxsdu_pkts s + 1); rxsdu_bytes := u32 (rxsdu_bytes s + size) |}.

Definition count_txpdu (size sn : Z) (s : stats_t) : stats_t :=
  {| s with txpdu_pkts := u32 (txpdu_pkts s + 1); txpdu_bytes := u32 (txpdu_bytes s + size);
            txpdu_sn := sn |}.

Definition upd_stats (f : stats_t -> stats_t) (e : t) : t := {| e with stats := f (stats e) |}.

Section entity.
Context `{P : Platform}.

(** ** The algorithms *)

(** [nas_stream_cipher_t] of a PDCP message. *)
Definition stream_of (ctx : stream_security_context_t) (msg : list Z) (bearer count direction : Z)
    : nas_stream_cipher_t :=
  mk_stream (Some ctx) count (u8 (bearer - 1)) (u8 direction) msg (u32 (zlen msg * 8)).

Definition nr_pdcp_security_nea1_init (key : list Z) : res stream_security_context_t :=
  k ← zslice key 0 16; mret (KeyContext k).

Definition nr_pdcp_security_nea1_cipher (ctx : stream_security_context_t) (msg : list Z)
    (bearer count direction : Z) : res (list Z) :=
  stream_compute_encrypt EEA1_128_ALG_ID (stream_of ctx msg bearer count direction).

Definition nr_pdcp_security_nea2_cipher (ciphering_key msg : list Z) (bearer count direction : Z)
    : res (list Z) :=
  _ ← dev_assert (zlen msg >? 0);
  _ ← dev_assert ((bearer >? -1) && (bearer <? 32));
  _ ← dev_assert ((direction >? -1) && (direction <? 2));
  key ← zslice ciphering_key 0 16;
  aes_128_ctr {| aes_key := key;
                 aes_iv := AES_INITIALIZATION_VECTOR_16 (data_iv16 count (bearer - 1) direction) |} msg.

Definition nr_pdcp_integrity_nia1_init (key : list Z) : res stream_security_context_t :=
  k ← zslice key 0 16; mret (KeyContext k).

Definition nr_pdcp_integrity_nia1_integrity (ctx : stream_security_context_t) (msg : list Z)
    (bearer count direction : Z) (out : list Z) : res (list Z) :=
  stream_compute_integrity EIA1_128_ALG_ID (stream_of ctx msg bearer count direction) out.

Definition nr_pdcp_integrity_nia2_init (key : list Z) : res stream_security_context_t :=
  k ← zslice key 0 16; mret (CmacContext k).

Definition nr_pdcp_integrity_nia2_integrity (ctx : stream_security_context_t) (msg : list Z)
    (bearer count direction : Z) : res (list Z) :=
  _ ← dev_assert ((bearer >? 0) && (bearer <? 33));
  key ← as_cmac (Some ctx);
  result ← cipher_aes_128_cbc_cmac key
    {| aes_key := key;
       aes_iv := AES_INITIALIZATION_VECTOR_8 (data_iv8 count (bearer - 1) direction) |} msg;
  zslice result 0 4.

(** [entity->cipher] (and [entity->decipher], the same function). *)
Definition run_cipher (e : t) (msg : list Z) (bearer count direction : Z) : res (list Z) :=
  match cipher e with
  | Some (Nea1 ctx) => nr_pdcp_security_nea1_cipher ctx msg bearer count direction
  | Some Nea2 => nr_pdcp_security_nea2_cipher (ciphering_key (security_keys_and_algos e)) msg
                   bearer count direction
  | None => Fault NullDeref
  end.

(** [entity->integrity]; [out] is the content of the output buffer. *)
Definition run_integrity (e : t) (msg : list Z) (bearer count direction : Z) (out : list Z)
    : res (list Z) :=
  match integrity e with
  | Some (Nia1 ctx) => nr_pdcp_integrity_nia1_integrity ctx msg bearer count direction out
  | Some (Nia2 ctx) => nr_pdcp_integrity_nia2_integrity ctx msg bearer count direction
  | None => Fault NullDeref
  end.

(** Ciphering is in place, over [len] bytes from [off]. *)
Definition cipher_in_place (e : t) (buf : list Z) (off len bearer count direction : Z)
    : res (list Z) :=
  msg ← zslice buf off len;
  out ← run_cipher e msg bearer count direction;
  zwrite buf off out.

Definition nr_max_pdcp_pdu_size (sdu_size : Z) : Z :=
  sdu_size + LONG_PDCP_HEADER_SIZE + PDCP_INTEGRITY_SIZE.

Definition is_srb (e : t) : bool := bool_decide (type e = NR_PDCP_SRB).

(** "SRBs always have MAC-I, even if integrity is not active". *)
Definition integrity_size (e : t) : Z :=
  if has_integrity e || is_srb e then PDCP_INTEGRITY_SIZE else 0.

(** ** Delivery *)

(** One round of the delivery loops: [cur] leaves the head of the list. *)
Definition deliver_head (cur : PdcpSdu.t) (next : list PdcpSdu.t) (e : t) : t :=
  upd_stats (count_txsdu (PdcpSdu.size cur))
    {| e with rx_list := next; rx_size := rx_size e - PdcpSdu.size cur |}.

(** [while (entity->rx_list != NULL && count == entity->rx_list->count)]. *)
Fixpoint deliver_contiguous (l : list PdcpSdu.t) (count : Z) (e : t) : Z * t * list PdcpSdu.t :=
  match l with
  | [] => (count, e, [])
  | cur :: next =>
      if count =? PdcpSdu.count cur then
        let '(count, e, out) := deliver_contiguous next (u32 (count + 1)) (deliver_head cur next e) in
        (count, e, cur :: out)
      else (count, e, [])
  end.

(** [while (entity->rx_list != NULL && entity->rx_list->count < entity->rx_reord)]. *)
Fixpoint deliver_below (l : list PdcpSdu.t) (e : t) : t * list PdcpSdu.t :=
  match l with
  | [] => (e, [])
  | cur :: next =>
      if PdcpSdu.count cur <? rx_reord e then
        let '(e, out) := deliver_below next (deliver_head cur next e) in (e, cur :: out)
      else (e, [])
  end.

Fixpoint deliver_loop (l : list PdcpSdu.t) (e : t) : t * list PdcpSdu.t :=
  match l with
  | [] => (e, [])
  | cur :: next =>
      let '(e, out) := deliver_loop next (deliver_head cur next e) in (e, cur :: out)
  end.

Definition deliver_all_sdus (e : t) : t * list PdcpSdu.t := deliver_loop (rx_list e) e.

(** ** Reception *)

(** The SN and the size of the header. *)
Definition read_header (e : t) (buffer : list Z) : res (Z * Z) :=
  b0 ← zget buffer 0;
  b1 ← zget buffer 1;
  if sn_size e =? SHORT_SN_SIZE then
    mret (Z.lor (Z.shiftl (Z.land b0 0xf) 8) b1, SHORT_PDCP_HEADER_SIZE)
  else
    b2 ← zget buffer 2;
    mret (Z.lor (Z.lor (Z.shiftl (Z.land b0 0x3) 16) (Z.shiftl b1 8)) b2, LONG_PDCP_HEADER_SIZE).

(** The COUNT of a received SN. *)
Definition count_of_sn (e : t) (rcvd_sn : Z) : Z :=
  let rx_deliv_sn := Z.land (rx_deliv e) (sn_max e) in
  let rx_deliv_hfn := Z.shiftr (rx_deliv e) (sn_size e) in
  let rcvd_hfn :=
    if rcvd_sn <? rx_deliv_sn - window_size e then u32 (rx_deliv_hfn + 1)
    else if rcvd_sn >=? rx_deliv_sn + window_size e then u32 (rx_deliv_hfn - 1)
    else rx_deliv_hfn in
  Z.lor (u32 (Z.shiftl rcvd_hfn (sn_size e))) rcvd_sn.

(** "the MAC-I/header/rcvd_count is needed by some RRC procedures, store it". *)
Definition received_integrity (e : t) (buffer : list Z) (rcvd_count header_size : Z)
    : res IntegrityData.t :=
  if has_integrity e || is_srb e then
    mac ← zslice buffer (zlen buffer - 4) 4;
    h ← zslice buffer 0 header_size;
    header ← zwrite (replicate 3 0) 0 h;
    mret {| IntegrityData.count := rcvd_count; IntegrityData.mac := mac;
            IntegrityData.header_size := header_size; IntegrityData.header := header |}
  else mret IntegrityData.zero.

(** The integrity check of a deciphered PDU. *)
Definition integrity_matches (e : t) (buffer : list Z) (rcvd_count : Z) : res bool :=
  if has_integrity e then
    msg ← zslice buffer 0 (zlen buffer - integrity_size e);
    mac ← run_integrity e msg (rb_id e) rcvd_count (if is_gnb e then 0 else 1) (replicate 4 0);
    received ← zslice buffer (zlen buffer - integrity_size e) PDCP_INTEGRITY_SIZE;
    mret (bool_decide (mac = received))
  else mret true.

(** The reordering timer after a PDU was stored. *)
Definition update_t_reordering (e : t) : t :=
  let e := if negb (t_reordering_start e =? 0) && (rx_deliv e >=? rx_reord e)
           then {| e with t_reordering_start := 0 |} else e in
  if (t_reordering_start e =? 0) && (rx_deliv e <? rx_next e)
  then {| e with rx_reord := rx_next e; t_reordering_start := t_current e |} else e.

(** A PDU that passed the checks is stored, and the SDUs that are now in sequence
    are delivered. *)
Definition store_sdu (e : t) (sdu : PdcpSdu.t) (pdu_size header_size : Z) : t * list PdcpSdu.t :=
  let rcvd_count := PdcpSdu.count sdu in
  let e := {| e with rx_list := PdcpSdu.nr_pdcp_sdu_list_add (rx_list e) sdu;
                     rx_size := rx_size e + (pdu_size - header_size) |} in
  let e := if rcvd_count >=? rx_next e then {| e with rx_next := u32 (rcvd_count + 1) |} else e in
  let '(e, out) :=
    if rcvd_count =? rx_deliv e then
      let '(count, e, out) := deliver_contiguous (rx_list e) (rx_deliv e) e in
      ({| e with rx_deliv := count |}, out)
    else (e, []) in
  (update_t_reordering e, out).

Definition nr_pdcp_entity_recv_pdu (e : t) (buffer : list Z) : res (t * list PdcpSdu.t) :=
  let size := zlen buffer in
  if entity_suspended e then mret (e, [])
  else if size <? 1 then mret (e, [])
  else
    b0 ← zget buffer 0;
    (* "this hack allows us to continue for now" *)
    buffer ← (if negb (is_srb e) && (Z.land b0 0x80 =? 0)
              then zset buffer 0 (Z.lor b0 128) else mret buffer);
    let e := upd_stats (count_rxpdu size) e in
    let sdap_header_size := if has_sdap_rx e then 1 else 0 in
    '(rcvd_sn, header_size) ← read_header e buffer;
    let e := upd_stats (fun s => {| s with rxpdu_sn := rcvd_sn |}) e in
    if size <? header_size + sdap_header_size + integrity_size e + 1
    then mret (upd_stats (count_dd size) e, [])
    else
      let rcvd_count := count_of_sn e rcvd_sn in
      msg_integrity ← received_integrity e buffer rcvd_count header_size;
      buffer ← (if has_ciphering e
                then cipher_in_place e buffer (header_size + sdap_header_size)
                       (size - (header_size + sdap_header_size)) (rb_id e) rcvd_count
                       (if is_gnb e then 0 else 1)
                else mret buffer);
      ok ← integrity_matches e buffer rcvd_count;
      if negb ok then mret (upd_stats (count_dd size) e, [])
      else if (rcvd_count <? rx_deliv e) || PdcpSdu.nr_pdcp_sdu_in_list (rx_list e) rcvd_count
      then mret (upd_stats (count_dd size) e, [])
      else
        data ← zslice buffer header_size (size - header_size - integrity_size e);
        mret (store_sdu e (PdcpSdu.nr_pdcp_new_sdu rcvd_count data msg_integrity) size header_size).

(** ** Transmission *)

Definition dc_bit (e : t) : Z := if is_srb e then 0 else 0x80.

(** The header of a PDU, and its size. *)
Definition write_header (e : t) (sn : Z) : list Z :=
  if sn_size e =? SHORT_SN_SIZE then
    [Z.lor (dc_bit e) (Z.land (Z.shiftr sn 8) 0xf); Z.land sn 0xff]
  else
    [Z.lor (dc_bit e) (Z.land (Z.shiftr sn 16) 0x3); Z.land (Z.shiftr sn 8) 0xff; Z.land sn 0xff].

(** Returns the size of the PDU (-1 for a suspended entity) and the PDU buffer. *)
Definition nr_pdcp_entity_process_sdu (e : t) (buffer : list Z) (pdu_buffer : list Z)
    : res (Z * list Z * t) :=
  let size := zlen buffer in
  _ ← dev_assert (nr_max_pdcp_pdu_size size <=? zlen pdu_buffer);
  if entity_suspended e then mret (-1, pdu_buffer, e)
  else
    let e := upd_stats (count_rxsdu size) e in
    let count := tx_next e in
    let sn := Z.land (tx_next e) (sn_max e) in
    let sdap_header_size := if has_sdap_tx e then 1 else 0 in
    let header := write_header e sn in
    let header_size := zlen header in
    buf ← zwrite pdu_buffer 0 header;
    buf ← zwrite buf header_size buffer;
    buf ← (if has_integrity e then
             msg ← zslice buf 0 (header_size + size);
             mac ← run_integrity e msg (rb_id e) count (if is_gnb e then 1 else 0) (replicate 4 0);
             zwrite buf (header_size + size) mac
           else if integrity_size e =? PDCP_INTEGRITY_SIZE
           then zwrite buf (header_size + size) (replicate 4 0)
           else mret buf);
    buf ← (if has_ciphering e
           then cipher_in_place e buf (header_size + sdap_header_size)
                  (size + integrity_size e - sdap_header_size) (rb_id e) count
                  (if is_gnb e then 1 else 0)
           else mret buf);
    let total := header_size + size + integrity_size e in
    mret (total, buf,
          upd_stats (count_txpdu total sn) {| e with tx_next := u32 (tx_next e + 1) |}).

(** ** Security *)

(** [for (int i = 0; i < header_size; i++) b[i] = msg_integrity->header[i]]. *)
Definition nr_pdcp_entity_check_integrity (e : t) (buffer : list Z)
    (msg_integrity : IntegrityData.t) : res bool :=
  if negb (has_integrity e) then mret false
  else
    h ← zslice (IntegrityData.header msg_integrity) 0 (IntegrityData.header_size msg_integrity);
    mac ← run_integrity e (h ++ buffer) (rb_id e) (IntegrityData.count msg_integrity)
            (if is_gnb e then 0 else 1) (replicate 4 0);
    mret (bool_decide (mac = IntegrityData.mac msg_integrity)).

Definition set_integrity (e : t) (algorithm : Z) : res t :=
  if algorithm =? 0 then mret {| e with has_integrity := false; integrity := None |}
  else if algorithm =? -1 then mret e
  else
    let key := integrity_key (security_keys_and_algos e) in
    if algorithm =? 2 then
      ctx ← nr_pdcp_integrity_nia2_init key;
      mret {| e with has_integrity := true; integrity := Some (Nia2 ctx) |}
    else if algorithm =? 1 then
      ctx ← nr_pdcp_integrity_nia1_init key;
      mret {| e with has_integrity := true; integrity := Some (Nia1 ctx) |}
    else Fault Exit.

Definition set_ciphering (e : t) (algorithm : Z) : res t :=
  if algorithm =? 0 then mret {| e with has_ciphering := false; cipher := None |}
  else if algorithm =? -1 then mret e
  else
    if algorithm =? 2 then mret {| e with has_ciphering := true; cipher := Some Nea2 |}
    else if algorithm =? 1 then
      ctx ← nr_pdcp_security_nea1_init (ciphering_key (security_keys_and_algos e));
      mret {| e with has_ciphering := true; cipher := Some (Nea1 ctx) |}
    else Fault Exit.

Definition nr_pdcp_entity_set_security (e : t) (parameters : security_t) : res t :=
  let k := security_keys_and_algos e in
  let k := if negb (integrity_algorithm parameters =? -1)
           then {| k with integrity_algorithm := integrity_algorithm parameters;
                          integrity_key := integrity_key parameters |} else k in
  let k := if negb (ciphering_algorithm parameters =? -1)
           then {| k with ciphering_algorithm := ciphering_algorithm parameters;
                          ciphering_key := ciphering_key parameters |} else k in
  let e := {| e with security_keys_and_algos := k |} in
  e ← set_integrity e (integrity_algorithm parameters);
  set_ciphering e (ciphering_algorithm parameters).

(** ** Timers *)

Definition check_t_reordering (e : t) : t * list PdcpSdu.t :=
  (* infinity *)
  if t_reordering e =? -1 then (e, [])
  else if (t_reordering_start e =? 0)
          || (t_current e <=? u64 (t_reordering_start e + t_reordering e)) then (e, [])
  else
    let e := {| e with t_reordering_start := 0 |} in
    let '(e, out1) := deliver_below (rx_list e) e in
    let '(count, e, out2) := deliver_contiguous (rx_list e) (rx_reord e) e in
    let e := {| e with rx_deliv := count |} in
    let e := if rx_deliv e <? rx_next e
             then {| e with rx_reord := rx_next e; t_reordering_start := t_current e |} else e in
    (e, out1 ++ out2).

Definition nr_pdcp_entity_set_time (e : t) (now : Z) : t * list PdcpSdu.t :=
  check_t_reordering {| e with t_current := now |}.

(** ** Life cycle *)

Definition nr_pdcp_entity_suspend (e : t) : t * list PdcpSdu.t :=
  let e := {| e with tx_next := 0 |} in
  let '(e, out) := if negb (t_reordering_start e =? 0)
                   then deliver_all_sdus {| e with t_reordering_start := 0 |} else (e, []) in
  ({| e with rx_next := 0; rx_deliv := 0; entity_suspended := true |}, out).

Definition free_rx_list (e : t) : t :=
  let e := foldl (fun e cur => upd_stats (count_dd (PdcpSdu.size cur)) e) e (rx_list e) in
  {| e with rx_list := []; rx_size := 0 |}.

Definition nr_pdcp_entity_reestablish_drb_am (e : t) (parameters : security_t)
    : res (t * list PdcpSdu.t) :=
  e ← nr_pdcp_entity_set_security e parameters;
  mret ({| e with entity_suspended := false |}, []).

Definition nr_pdcp_entity_reestablish_drb_um (e : t) (parameters : security_t)
    : res (t * list PdcpSdu.t) :=
  let e := {| e with tx_next := 0 |} in
  let '(e, out) := if negb (t_reordering_start e =? 0) then deliver_all_sdus e else (e, []) in
  let e := {| e with t_reordering_start := 0; rx_next := 0; rx_deliv := 0 |} in
  e ← nr_pdcp_entity_set_security e parameters;
  mret ({| e with entity_suspended := false |}, out).

Definition nr_pdcp_entity_reestablish_srb (e : t) (parameters : security_t)
    : res (t * list PdcpSdu.t) :=
  let e := free_rx_list {| e with tx_next := 0 |} in
  let e := {| e with t_reordering_start := 0; rx_next := 0; rx_deliv := 0 |} in
  e ← nr_pdcp_entity_set_security e parameters;
  mret ({| e with entity_suspended := false |}, []).

(** [entity->reestablish_entity], the function the constructor installed. *)
Definition reestablish_entity (e : t) (parameters : security_t) : res (t * list PdcpSdu.t) :=
  match type e with
  | NR_PDCP_DRB_AM => nr_pdcp_entity_reestablish_drb_am e parameters
  | NR_PDCP_DRB_UM => nr_pdcp_entity_reestablish_drb_um e parameters
  | NR_PDCP_SRB => nr_pdcp_entity_reestablish_srb e parameters
  end.

Definition nr_pdcp_entity_release (e : t) : t * list PdcpSdu.t := deliver_all_sdus e.

Definition nr_pdcp_entity_get_stats (e : t) : stats_t := stats e.

Definition nr_pdcp_entity_get_count_dl (e : t) : nr_pdcp_count_t :=
  mk_count (Z.land (rx_deliv e) (sn_max e)) (Z.shiftr (rx_deliv e) (sn_size e)).

Definition nr_pdcp_entity_get_count_ul (e : t) : nr_pdcp_count_t :=
  mk_count (Z.land (tx_next e) (sn_max e)) (Z.shiftr (tx_next e) (sn_size e)).

(** [(pdcp_count.hfn << sn_size) | (pdcp_count.sn & sn_mask)]. *)
Definition compose_count (c : nr_pdcp_count_t) (sn_size : Z) : Z :=
  Z.lor (u32 (Z.shiftl (hfn c) sn_size)) (Z.land (sn c) (Z.shiftl 1 sn_size - 1)).

Definition nr_pdcp_entity_set_count_dl (e : t) (c : nr_pdcp_count_t) (sn_size : Z) : t :=
  {| e with rx_next := u32 (compose_count c sn_size + 1); rx_deliv := compose_count c sn_size |}.

Definition nr_pdcp_entity_set_count_ul (e : t) (c : nr_pdcp_count_t) (sn_size : Z) : t :=
  {| e with tx_next := compose_count c sn_size |}.

Definition new_nr_pdcp_entity (type : nr_pdcp_entity_type_t) (is_gnb : bool) (rb_id pdusession_id : Z)
    (has_sdap_rx has_sdap_tx : bool) (sn_size t_reordering discard_timer : Z)
    (security_parameters : security_t) : res t :=
  nr_pdcp_entity_set_security
    {| type := type; rb_id := rb_id; pdusession_id := pdusession_id; has_sdap_rx := has_sdap_rx;
       has_sdap_tx := has_sdap_tx; sn_size := sn_size; t_reordering := t_reordering;
       discard_timer := discard_timer; sn_max := Z.shiftl 1 sn_size - 1;
       window_size := Z.shiftl 1 (sn_size - 1); tx_next := 0; rx_next := 0; rx_deliv := 0;
       rx_reord := 0; t_current := 0; t_reordering_start := 0; has_ciphering := false;
       has_integrity := false;
       security_keys_and_algos := mk_security 0 0 (replicate 16 0) (replicate 16 0);
       cipher := None; integrity := None; is_gnb := is_gnb; rx_list := []; rx_size := 0;
       stats := stats_0; entity_suspended := false |} security_parameters.

End entity.
End Pdcp.
