(* ===== verification/PdcpUe.v ===== *)
(** * PDCP: the table of UEs and its interface

    Models [openair2/LAYER2/nr_pdcp/nr_pdcp_ue_manager.c],
    [nr_pdcp_timer_thread.c], [asn1_utils.c] and the entry points of
    [nr_pdcp_oai_api.c] that RRC, SDAP, RLC and F1 call.  The table is a list of UEs;
    a pointer to a UE is its place in the list and a pointer to an entity its place
    in the arrays of the UE.  The mutex of the table makes each entry point atomic.

    An SDU that an entity delivers goes to SDAP ([deliver_sdu_drb]) or to RRC
    ([deliver_sdu_srb]) from inside the entity's function; SDAP may send a control
    PDU from there.  Delivery reads and writes the receiving side of the entity and
    transmission its transmitting side, so the model runs the deliveries, in order,
    after the entity's function. *)

From S2P Require Import Prelude Asn1 Hashtable F1apIds Secu PdcpSdu Events Sdap PdcpEntity.

Module PdcpUe.
Import Asn1 Secu Events.

Definition MAX_DRBS_PER_UE : Z := Sdap.MAX_DRBS_PER_UE.

(** [nr_pdcp_ue_t]; [srb] has 3 places and [drb] [MAX_DRBS_PER_UE]. *)
Record nr_pdcp_ue_t := mk_ue {
  ue_id : Z;
  srb : list (option Pdcp.t);
  drb : list (option Pdcp.t)
}.

(** [nr_pdcp_ue_manager_internal_t]; [ue_count] is the length of the list. *)
Record manager := mk_manager { ue_list : list nr_pdcp_ue_t; manager_enb_flag : Z }.

(** How the process runs: [NODE_IS_CU(node_type)], [IS_SOFTMODEM_NOS1 ||
    UE_NAS_USE_TUN], and the F1 identifiers of the CU. *)
Record pdcp_node := mk_pdcp_node {
  node_is_cu : bool;
  use_tun : bool;
  cu2du : F1apIds.table
}.

(** ** The table *)

Definition new_nr_pdcp_ue_manager (enb_flag : Z) : manager := mk_manager [] enb_flag.

Definition new_ue (id : Z) : nr_pdcp_ue_t :=
  mk_ue id (replicate 3 None) (replicate (Z.to_nat MAX_DRBS_PER_UE) None).

(** The manager, the place of the UE and the UE; a UE that is not there is added. *)
Definition nr_pdcp_manager_get_ue (m : manager) (id : Z) : manager * nat * nr_pdcp_ue_t :=
  match list_find (fun u => ue_id u = id) (ue_list m) with
  | Some (i, u) => (m, i, u)
  | None => ({| m with ue_list := ue_list m ++ [new_ue id] |}, length (ue_list m), new_ue id)
  end.

(** The entities that [delete_entity] frees: the first two SRBs and the first five DRBs. *)
Definition deleted_entities (u : nr_pdcp_ue_t) : list Pdcp.t :=
  (take 2 (srb u) ++ take 5 (drb u)) ≫= option_list.

Definition nr_pdcp_manager_remove_ue (m : manager) (id : Z) : manager * list Pdcp.t :=
  match list_find (fun u => ue_id u = id) (ue_list m) with
  | None => (m, [])
  | Some (i, u) => ({| m with ue_list := delete i (ue_list m) |}, deleted_entities u)
  end.

Definition add_to (places : list (option Pdcp.t)) (i : Z) (e : Pdcp.t) : res (list (option Pdcp.t)) :=
  o ← zget places i;
  match o with
  | Some _ => Fault Exit
  | None => zset places i (Some e)
  end.

Definition nr_pdcp_ue_add_srb_pdcp_entity (u : nr_pdcp_ue_t) (srb_id : Z) (e : Pdcp.t) : res nr_pdcp_ue_t :=
  if (srb_id <? 1) || (srb_id >? 2) then Fault Exit
  else s ← add_to (srb u) (srb_id - 1) e; mret {| u with srb := s |}.

Definition nr_pdcp_ue_add_drb_pdcp_entity (u : nr_pdcp_ue_t) (drb_id : Z) (e : Pdcp.t) : res nr_pdcp_ue_t :=
  if (drb_id <? 1) || (drb_id >? MAX_DRBS_PER_UE) then Fault Exit
  else d ← add_to (drb u) (drb_id - 1) e; mret {| u with drb := d |}.

Definition nr_pdcp_get_first_ue_id (m : manager) : option Z := ue_id <$> head (ue_list m).

Definition nr_pdcp_get_rb (u : nr_pdcp_ue_t) (rb_id : Z) (srb_flag : bool) : option Pdcp.t :=
  if srb_flag then
    if (rb_id <? 1) || (rb_id >? 2) then None else mjoin (srb u !! Z.to_nat (rb_id - 1))
  else
    if (rb_id <? 1) || (rb_id >? MAX_DRBS_PER_UE) then None else mjoin (drb u !! Z.to_nat (rb_id - 1)).

(** The entity at a place is changed through its pointer. *)
Definition set_rb (u : nr_pdcp_ue_t) (rb_id : Z) (srb_flag : bool) (e : option Pdcp.t) : nr_pdcp_ue_t :=
  if srb_flag then {| u with srb := <[Z.to_nat (rb_id - 1) := e]> (srb u) |}
  else {| u with drb := <[Z.to_nat (rb_id - 1) := e]> (drb u) |}.

Definition store_rb (m : manager) (i : nat) (rb_id : Z) (srb_flag : bool) (e : option Pdcp.t) : manager :=
  {| m with ue_list := alter (fun u => set_rb u rb_id srb_flag e) i (ue_list m) |}.

(** [get_ue], [get_rb], then [f] on the entity; [none] when there is no entity. *)
Definition with_rb {B} (m : manager) (id rb_id : Z) (srb_flag : bool) (none : B)
    (f : Pdcp.t -> res (Pdcp.t * B)) : res (manager * B) :=
  let '(m, i, u) := nr_pdcp_manager_get_ue m id in
  match nr_pdcp_get_rb u rb_id srb_flag with
  | None => mret (m, none)
  | Some e => '(e', b) ← f e; mret (store_rb m i rb_id srb_flag (Some e'), b)
  end.

(** ** Decoding of RRC values *)

Definition VALUES_NR_PDCP_SN_SIZE : list Z := [12; 18].
Definition VALUES_NR_PDCP_T_REORDERING : list Z :=
  [0; 1; 2; 4; 5; 8; 10; 15; 20; 30; 40; 50; 60; 80; 100; 120; 140; 160; 180; 200; 220; 240; 260; 280;
   300; 500; 750; 1000; 1250; 1500; 1750; 2000; 2250; 2500; 2750; 3000; -1].
Definition VALUES_NR_PDCP_DISCARD_TIMER : list Z :=
  [10; 20; 30; 40; 50; 60; 75; 100; 150; 200; 250; 300; 500; 750; 1500; -1].

Definition decode_t_reordering := decode_value VALUES_NR_PDCP_T_REORDERING.
Definition decode_sn_size_ul := decode_value VALUES_NR_PDCP_SN_SIZE.
Definition decode_sn_size_dl := decode_value VALUES_NR_PDCP_SN_SIZE.
Definition decode_discard_timer := decode_value VALUES_NR_PDCP_DISCARD_TIMER.

(** [NR_PDCP_Config_t], as decoded from RRC; [None] is a null pointer. *)
Record NR_PDCP_Config_drb := mk_drb_config {
  discardTimer : option Z;
  pdcp_SN_SizeUL : option Z;
  pdcp_SN_SizeDL : option Z;
  integrityProtection : bool
}.
Record NR_PDCP_Config_t := mk_pdcp_config {
  config_drb : option NR_PDCP_Config_drb;
  t_Reordering : option Z;
  cipheringDisabled : bool
}.

(** ** Configuration *)

Section api.
Context `{P : Platform}.

Definition add_srb (m : manager) (is_gnb : bool) (UEid srb_id : Z) (tr : option Z)
    (security_parameters : Pdcp.security_t) : res manager :=
  t_Reordering ← match tr with Some v => decode_t_reordering v | None => mret (-1) end;
  let '(m, i, u) := nr_pdcp_manager_get_ue m UEid in
  match nr_pdcp_get_rb u srb_id true with
  | Some _ => mret m
  | None =>
      e ← Pdcp.new_nr_pdcp_entity Pdcp.NR_PDCP_SRB is_gnb srb_id 0 false false Pdcp.SHORT_SN_SIZE
            t_Reordering (-1) security_parameters;
      u' ← nr_pdcp_ue_add_srb_pdcp_entity u srb_id e;
      mret {| m with ue_list := <[i := u']> (ue_list m) |}
  end.

Definition nr_pdcp_add_srbs (m : manager) (enb_flag : bool) (UEid : Z) (srb2add_list : list (Z * option Z))
    (security_parameters : Pdcp.security_t) : res manager :=
  res_foldl (fun m s => add_srb m enb_flag UEid s.1 s.2 security_parameters) m srb2add_list.

Definition nr_pdcp_add_drb (m : manager) (is_gnb : bool) (UEid : Z) (pdcp : NR_PDCP_Config_t)
    (sdap : Sdap.sdap_config_t) (security_parameters : Pdcp.security_t) : res manager :=
  match config_drb pdcp with
  | None => mret m
  | Some c =>
      sn_size_ul ← (v ← of_option NullDeref (pdcp_SN_SizeUL c); decode_sn_size_ul v);
      sn_size_dl ← (v ← of_option NullDeref (pdcp_SN_SizeDL c); decode_sn_size_dl v);
      discard_timer ← (v ← of_option NullDeref (discardTimer c); decode_discard_timer v);
      t_reordering ← match t_Reordering pdcp with Some v => decode_t_reordering v | None => mret (-1) end;
      let actual := Pdcp.mk_security
        (if integrityProtection c then Pdcp.integrity_algorithm security_parameters else 0)
        (if cipheringDisabled pdcp then 0 else Pdcp.ciphering_algorithm security_parameters)
        (Pdcp.integrity_key security_parameters) (Pdcp.ciphering_key security_parameters) in
      let '(m, i, u) := nr_pdcp_manager_get_ue m UEid in
      match nr_pdcp_get_rb u (Sdap.cfg_drb_id sdap) false with
      | Some _ => mret m
      | None =>
          _ ← dev_assert (sn_size_ul =? sn_size_dl);
          e ← Pdcp.new_nr_pdcp_entity Pdcp.NR_PDCP_DRB_AM is_gnb (Sdap.cfg_drb_id sdap)
                (Sdap.cfg_pdusession_id sdap)
                (Sdap.has_role (Sdap.cfg_role sdap) (Z.lor Sdap.SDAP_UL_RX Sdap.SDAP_DL_RX))
                (Sdap.has_role (Sdap.cfg_role sdap) (Z.lor Sdap.SDAP_UL_TX Sdap.SDAP_DL_TX))
                sn_size_dl t_reordering discard_timer actual;
          u' ← nr_pdcp_ue_add_drb_pdcp_entity u (Sdap.cfg_drb_id sdap) e;
          mret {| m with ue_list := <[i := u']> (ue_list m) |}
      end
  end.

Definition nr_pdcp_remove_UE (m : manager) (id : Z) : manager * list Pdcp.t :=
  nr_pdcp_manager_remove_ue m id.

Definition nr_pdcp_config_set_security (m : manager) (id rb_id : Z) (is_srb : bool)
    (parameters : Pdcp.security_t) : res manager :=
  '(m, _) ← with_rb m id rb_id is_srb tt (fun e =>
     e' ← Pdcp.nr_pdcp_entity_set_security e parameters; mret (e', tt));
  mret m.

Definition nr_pdcp_check_integrity_srb (m : manager) (id srb_id : Z) (msg : list Z)
    (msg_integrity : IntegrityData.t) : res (manager * bool) :=
  with_rb m id srb_id true false (fun e =>
    b ← Pdcp.nr_pdcp_entity_check_integrity e msg msg_integrity; mret (e, b)).

Definition nr_pdcp_reconfigure_srb (m : manager) (id srb_id tr : Z) : res manager :=
  '(m, _) ← with_rb m id srb_id true tt (fun e =>
     v ← decode_t_reordering tr; mret ({| e with Pdcp.t_reordering := v |}, tt));
  mret m.

(** The DRB part of [nr_pdcp_reconfigure_drb]. *)
Definition reconfigure_entity (c : NR_PDCP_Config_drb) (e : Pdcp.t) : res Pdcp.t :=
  e ← match discardTimer c with
      | Some v => d ← decode_discard_timer v; mret {| e with Pdcp.discard_timer := d |}
      | None => mret e
      end;
  e ← match pdcp_SN_SizeUL c with
      | Some v => d ← decode_sn_size_ul v; mret {| e with Pdcp.sn_size := d |}
      | None => mret e
      end;
  match pdcp_SN_SizeDL c with
  | Some v =>
      size ← decode_sn_size_dl v;
      _ ← dev_assert (match pdcp_SN_SizeUL c with
                      | Some _ => size =? Pdcp.sn_size e
                      | None => true
                      end);
      mret {| e with Pdcp.sn_size := size |}
  | None => mret e
  end.

Definition nr_pdcp_reconfigure_drb (m : manager) (id drb_id : Z) (config : option NR_PDCP_Config_t)
    : res manager :=
  '(m, _) ← with_rb m id drb_id false tt (fun e =>
     match config with
     | None => mret (e, tt)
     | Some c =>
         tr ← match t_Reordering c with Some v => decode_t_reordering v | None => mret (-1) end;
         let e := {| e with Pdcp.t_reordering := tr |} in
         e ← match config_drb c with Some d => reconfigure_entity d e | None => mret e end;
         mret (e, tt)
     end);
  mret m.

Definition nr_pdcp_get_statistics (m : manager) (id : Z) (srb_flag : bool) (rb_id : Z)
    : res (manager * option Pdcp.stats_t) :=
  with_rb m id rb_id srb_flag None (fun e => mret (e, Some (Pdcp.nr_pdcp_entity_get_stats e))).

Definition nr_pdcp_count_update (m : manager) (id drb_id : Z) (dl_count ul_count : Pdcp.nr_pdcp_count_t)
    (sn_size : Z) : res manager :=
  '(m, _) ← with_rb m id drb_id false tt (fun e =>
     let e := Pdcp.nr_pdcp_entity_set_count_dl e dl_count sn_size in
     mret (Pdcp.nr_pdcp_entity_set_count_ul e ul_count sn_size, tt));
  mret m.

(** The DL and the UL count. *)
Definition nr_pdcp_get_drb_count_values (m : manager) (id rb_id : Z)
    : res (manager * option (Pdcp.nr_pdcp_count_t * Pdcp.nr_pdcp_count_t)) :=
  with_rb m id rb_id false None (fun e =>
    mret (e, Some (Pdcp.nr_pdcp_entity_get_count_dl e, Pdcp.nr_pdcp_entity_get_count_ul e))).

Definition nr_pdcp_get_drb_ids_for_pdusession (m : manager) (id pdusession_id : Z) : manager * list Z :=
  let '(m, _, u) := nr_pdcp_manager_get_ue m id in
  (m, Pdcp.rb_id <$> filter (fun e => Pdcp.pdusession_id e = pdusession_id) (drb u ≫= option_list)).

(** The count and the first [len] identifiers. *)
Definition nr_pdcp_get_num_ues (m : manager) (len : Z) : Z * list Z :=
  (zlen (ue_list m), take (Z.to_nat len) (ue_id <$> ue_list m)).

(** ** Transmission *)

Section node.
Context (nd : pdcp_node).

Definition enqueue_pdu (ctxt : protocol_ctxt_t) (srb_flag : bool) (rb_id mui : Z) (pdu : list Z) : event :=
  RlcDataReq (mk_rlc_item ctxt srb_flag rb_id mui 0 pdu).

Definition deliver_pdu_drb_ue (id rb_id : Z) (pdu : list Z) (sdu_id : Z) : list event :=
  [enqueue_pdu (ctxt_of false id) false rb_id sdu_id pdu].

Definition deliver_pdu_drb_gnb (id rb_id : Z) (pdu : list Z) (sdu_id : Z) : res (list event) :=
  ue_data ← F1apIds.cu_get_f1_ue_data (cu2du nd) id;
  mret (if node_is_cu nd then [F1uSend id rb_id pdu]
        else [enqueue_pdu (ctxt_of true (F1apIds.secondary_ue ue_data)) false rb_id sdu_id pdu]).

Definition deliver_pdu_srb_rlc (id srb_id : Z) (pdu : list Z) (sdu_id : Z) : list event :=
  [enqueue_pdu (ctxt_of true id) true srb_id sdu_id pdu].

(** [process_sdu] into a buffer of the stack; [None] when the entity is suspended. *)
Definition process (e : Pdcp.t) (sdu : list Z) : res (Pdcp.t * option (list Z)) :=
  let max_size := Pdcp.nr_max_pdcp_pdu_size (zlen sdu) in
  '(pdu_size, pdu_buf, e') ← Pdcp.nr_pdcp_entity_process_sdu e sdu (replicate (Z.to_nat max_size) 0);
  mret (e', if pdu_size =? -1 then None else Some (take (Z.to_nat pdu_size) pdu_buf)).

(** The callback of a DRB is set from [is_gnb] when the entity is created. *)
Definition process_drb (sdu : list Z) (e : Pdcp.t) : res (Pdcp.t * option (list Z * bool)) :=
  '(e', pdu) ← process e sdu;
  mret (e', match pdu with Some p => Some (p, Pdcp.is_gnb e) | None => None end).

Definition deliver_request (id rb_id mui : Z) (m : manager) (r : option (list Z * bool))
    : res (manager * list event * bool) :=
  match r with
  | None => mret (m, [], false)
  | Some (pdu, true) => ev ← deliver_pdu_drb_gnb id rb_id pdu mui; mret (m, ev, true)
  | Some (pdu, false) => mret (m, deliver_pdu_drb_ue id rb_id pdu mui, true)
  end.

Definition nr_pdcp_data_req_drb (m : manager) (ctxt : protocol_ctxt_t) (srb_flag : bool) (rb_id mui : Z)
    (sdu : list Z) : res (manager * list event * bool) :=
  _ ← dev_assert (negb srb_flag);
  let id := rntiMaybeUEid ctxt in
  if negb (module_id ctxt =? 0) || negb (instance ctxt =? 0) || negb (eNB_index ctxt =? 0)
  then Fault Exit
  else
    '(m, r) ← with_rb m id rb_id false None (process_drb sdu);
    deliver_request id rb_id mui m r.

(** The callback is an argument: the PDU is what it gets. *)
Definition nr_pdcp_data_req_srb (m : manager) (id rb_id : Z) (sdu : list Z)
    : res (manager * option (list Z)) :=
  with_rb m id rb_id true None (fun e => process e sdu).

#[local] Instance pdcp_api : Sdap.PdcpApi manager := nr_pdcp_data_req_drb.

(** ** Reception *)

(** PDCP and SDAP together. *)
Record world := mk_world { pdcp : manager; sdap : list Sdap.t }.

(** [i] is the place of the entity in [ue->drb]. *)
Definition deliver_sdu_drb (w : world) (id : Z) (i : Z) (e : Pdcp.t) (sdu : PdcpSdu.t)
    : res (world * list event) :=
  let buf := PdcpSdu.buffer sdu in
  let qfi := match buf with
             | b :: _ => if Pdcp.has_sdap_rx e then Z.land b 0x3F else 0
             | [] => 0
             end in
  '(m, l, ev) ←
    (if use_tun nd
     then Sdap.sdap_data_ind (pdcp w) (sdap w) (Pdcp.rb_id e) false (Pdcp.has_sdap_rx e) qfi
            (Pdcp.pdusession_id e) id buf
     else Sdap.sdap_data_ind (pdcp w) (sdap w) (i + 1) (Pdcp.is_gnb e) (Pdcp.has_sdap_rx e) qfi
            (Pdcp.pdusession_id e) id buf);
  mret (mk_world m l, ev).

Definition deliver_sdu_srb (id i : Z) (e : Pdcp.t) (sdu : PdcpSdu.t) : res (list event) :=
  if Pdcp.is_gnb e then
    ue_data ← F1apIds.cu_get_f1_ue_data (cu2du nd) id;
    mret [UlRrcMessage id (F1apIds.secondary_ue ue_data) (i + 1) (PdcpSdu.buffer sdu)]
  else mret [DcchDataInd id (i + 1) (PdcpSdu.buffer sdu) (PdcpSdu.msg_integrity sdu)].

(** The deliveries of one call of the entity at place [i]. *)
Definition deliver (id i : Z) (srb_flag : bool) (e : Pdcp.t) (we : world * list event) (sdu : PdcpSdu.t)
    : res (world * list event) :=
  let '(w, ev) := we in
  if srb_flag then ev' ← deliver_sdu_srb id i e sdu; mret (w, ev ++ ev')
  else '(w, ev') ← deliver_sdu_drb w id i e sdu; mret (w, ev ++ ev').

Definition deliver_all (w : world) (id i : Z) (srb_flag : bool) (e : Pdcp.t) (out : list PdcpSdu.t)
    : res (world * list event) :=
  res_foldl (deliver id i srb_flag e) (w, []) out.

(** An operation on an entity that may deliver SDUs. *)
Definition with_rb_deliver (w : world) (id rb_id : Z) (srb_flag : bool)
    (f : Pdcp.t -> res (Pdcp.t * list PdcpSdu.t)) : res (world * list event) :=
  '(m, r) ← with_rb (pdcp w) id rb_id srb_flag None (fun e =>
     '(e', out) ← f e; mret (e', Some (e', out)));
  let w := {| w with pdcp := m |} in
  match r with
  | None => mret (w, [])
  | Some (e, out) => deliver_all w id (rb_id - 1) srb_flag e out
  end.

Definition do_pdcp_data_ind (w : world) (ctxt : protocol_ctxt_t) (srb_flag : bool) (rb_id : Z)
    (pdu : list Z) : res (world * list event) :=
  if negb (module_id ctxt =? 0) || negb (instance ctxt =? 0) || negb (eNB_index ctxt =? 0)
     || brOption ctxt
  then Fault Exit
  else with_rb_deliver w (rntiMaybeUEid ctxt) rb_id srb_flag (fun e =>
         Pdcp.nr_pdcp_entity_recv_pdu e pdu).

Definition nr_pdcp_suspend_srb (w : world) (id srb_id : Z) : res (world * list event) :=
  with_rb_deliver w id srb_id true (fun e => mret (Pdcp.nr_pdcp_entity_suspend e)).

Definition nr_pdcp_suspend_drb (w : world) (id drb_id : Z) : res (world * list event) :=
  with_rb_deliver w id drb_id false (fun e => mret (Pdcp.nr_pdcp_entity_suspend e)).

Definition nr_pdcp_reestablishment (w : world) (id rb_id : Z) (srb_flag : bool)
    (security_parameters : Pdcp.security_t) : res (world * list event) :=
  with_rb_deliver w id rb_id srb_flag (fun e => Pdcp.reestablish_entity e security_parameters).

Definition nr_pdcp_release_srb (m : manager) (id srb_id : Z) : res manager :=
  let '(m, i, u) := nr_pdcp_manager_get_ue m id in
  o ← zget (srb u) (srb_id - 1);
  mret (match o with Some _ => store_rb m i srb_id true None | None => m end).

(** The rules of the DRB go, then the SDUs it holds are delivered, then the entity goes. *)
Definition nr_pdcp_release_drb (w : world) (id drb_id : Z) : res (world * list event) :=
  let '(m, i, u) := nr_pdcp_manager_get_ue (pdcp w) id in
  o ← zget (drb u) (drb_id - 1);
  match o with
  | None => mret ({| w with pdcp := m |}, [])
  | Some e =>
      let l := Sdap.nr_sdap_release_drb (sdap w) id drb_id (Pdcp.pdusession_id e) in
      let '(e', out) := Pdcp.nr_pdcp_entity_release e in
      '(w, ev) ← deliver_all (mk_world m l) id (drb_id - 1) false e' out;
      mret ({| w with pdcp := store_rb (pdcp w) i drb_id false None |}, ev)
  end.

(** ** The timer thread *)

(** The bearers that a tick reaches, in order. *)
Definition ticked_bearers : list (bool * Z) :=
  [(true, 1); (true, 2); (false, 1); (false, 2); (false, 3); (false, 4); (false, 5)].

Definition tick_bearer (curtime : Z) (i : nat) (we : world * list event) (b : bool * Z)
    : res (world * list event) :=
  let '(w, ev) := we in
  let '(srb_flag, rb) := b in
  match ue_list (pdcp w) !! i with
  | None => Fault OutOfBounds
  | Some u =>
      match nr_pdcp_get_rb u rb srb_flag with
      | None => mret (w, ev)
      | Some e =>
          let '(e', out) := Pdcp.nr_pdcp_entity_set_time e curtime in
          let w := {| w with pdcp := store_rb (pdcp w) i rb srb_flag (Some e') |} in
          '(w, ev') ← deliver_all w (ue_id u) (rb - 1) srb_flag e' out;
          mret (w, ev ++ ev')
      end
  end.

(** One round of [nr_pdcp_timer_thread]. *)
Definition timer_tick (w : world) (curtime : Z) : res (world * list event) :=
  res_foldl (fun we i => res_foldl (tick_bearer curtime i) we ticked_bearers) (w, [])
    (seq 0 (length (ue_list (pdcp w)))).
End node.
End api.
End PdcpUe.
