(* ===== verification/PdcpUeSpec.v ===== *)
(** * PDCP: the table of UEs as a map of entities

    The entities of the table are seen through [bearer]: which entity serves a UE, a
    kind of bearer and a bearer identity.  Each entry point changes exactly the
    entity it names; a UE that is not known gets a place with no entity. *)

From S2P Require Import Prelude Hashtable F1apIds Secu PdcpSdu Events Sdap PdcpEntity Asn1.
From S2P Require Import PdcpUe.

Module PdcpUeSpec.
Import Secu Events PdcpUe.

Record ue_wf (u : nr_pdcp_ue_t) : Prop := {
  srb_places : length (srb u) = 3%nat;
  drb_places : length (drb u) = 32%nat
}.

(** One place per UE. *)
Record wf (m : manager) : Prop := {
  ids_unique : NoDup (map ue_id (ue_list m));
  ues_wf : Forall ue_wf (ue_list m)
}.

Definition find_ue : list nr_pdcp_ue_t -> Z -> option nr_pdcp_ue_t := UeTable.find ue_id.

(** The entity of a bearer. *)
Definition bearer (m : manager) (id : Z) (srb_flag : bool) (rb : Z) : option Pdcp.t :=
  match find_ue (ue_list m) id with
  | Some u => nr_pdcp_get_rb u rb srb_flag
  | None => None
  end.

(** [m'] has the entities of [m]. *)
Definition same_bearers (m m' : manager) : Prop :=
  forall id fl rb, bearer m' id fl rb = bearer m id fl rb.

(** [m'] has the entities of [m], but for one bearer. *)
Definition changed (m m' : manager) (id : Z) (fl : bool) (rb : Z) (e : option Pdcp.t) : Prop :=
  forall id' fl' rb', bearer m' id' fl' rb' =
    if decide (id' = id /\ fl' = fl /\ rb' = rb) then e else bearer m id' fl' rb'.

(** ** Places of a UE *)

Lemma new_ue_rb id fl rb : nr_pdcp_get_rb (new_ue id) rb fl = None.
Proof.
  unfold nr_pdcp_get_rb, new_ue. cbn [srb drb].
  destruct fl; destruct (_ || _); try done.
  all: destruct (replicate _ None !! _) as [o|] eqn:E; [|done].
  all: by apply lookup_replicate in E as [-> _].
Qed.

Lemma get_rb_range u rb fl e : nr_pdcp_get_rb u rb fl = Some e ->
  1 <= rb <= 32 /\ (fl = true -> rb <= 2) /\
  (if fl then srb u else drb u) !! Z.to_nat (rb - 1) = Some (Some e).
Proof.
  unfold nr_pdcp_get_rb, MAX_DRBS_PER_UE, Sdap.MAX_DRBS_PER_UE. destruct fl.
  - destruct (Z.ltb_spec rb 1), (Z.gtb_spec rb 2); cbn; try done. intros Hj.
    destruct (_ !! _) as [o|]; cbn in Hj; [subst o|done]. split_and!; [lia|lia|lia|done].
  - destruct (Z.ltb_spec rb 1), (Z.gtb_spec rb 32); cbn; try done. intros Hj.
    destruct (_ !! _) as [o|]; cbn in Hj; [subst o|done]. by split_and!; [lia|lia| |].
Qed.

Lemma set_rb_wf u rb fl o : ue_wf u -> ue_wf (set_rb u rb fl o) /\ ue_id (set_rb u rb fl o) = ue_id u.
Proof. intros [H1 H2]. destruct fl; (split; [split; cbn; by rewrite ?length_insert|done]). Qed.

(** Reading a place after writing one. *)
Lemma get_set_rb u rb fl o rb' fl' : ue_wf u -> 1 <= rb <= 32 -> (fl = true -> rb <= 2) ->
  nr_pdcp_get_rb (set_rb u rb fl o) rb' fl' =
  if decide (fl' = fl /\ rb' = rb) then o else nr_pdcp_get_rb u rb' fl'.
Proof.
  intros [H1 H2] Hr Hs. unfold nr_pdcp_get_rb, set_rb, MAX_DRBS_PER_UE, Sdap.MAX_DRBS_PER_UE.
  destruct fl, fl'; cbn [srb drb]; try (rewrite decide_False by naive_solver; done).
  - specialize (Hs eq_refl). case_decide as D.
    + destruct D as [_ ->]. destruct (Z.ltb_spec rb 1), (Z.gtb_spec rb 2); try lia. cbn.
      rewrite list_lookup_insert_eq by lia. by destruct o.
    + destruct (Z.ltb_spec rb' 1), (Z.gtb_spec rb' 2); try done. cbn.
      by rewrite list_lookup_insert_ne by (intros E; apply D; split; [done|lia]).
  - case_decide as D.
    + destruct D as [_ ->]. destruct (Z.ltb_spec rb 1), (Z.gtb_spec rb 32); try lia. cbn.
      rewrite list_lookup_insert_eq by lia. by destruct o.
    + destruct (Z.ltb_spec rb' 1), (Z.gtb_spec rb' 32); try done. cbn.
      by rewrite list_lookup_insert_ne by (intros E; apply D; split; [done|lia]).
Qed.

(** ** Entry points *)

Lemma get_ue_ok m id : wf m -> exists m' i u,
  nr_pdcp_manager_get_ue m id = (m', i, u) /\ wf m' /\ same_bearers m m' /\
  ue_list m' !! i = Some u /\ ue_id u = id /\ forall fl rb, nr_pdcp_get_rb u rb fl = bearer m id fl rb.
Proof.
  intros [Hn Hw]. unfold nr_pdcp_manager_get_ue, same_bearers, bearer.
  destruct (list_find (fun u => ue_id u = id) (ue_list m)) as [[i u]|] eqn:E.
  - exists m, i, u. pose proof (proj1 (list_find_Some _ _ _ _) E) as (Hi & Hk & _).
    split_and!; try done. intros fl rb. unfold find_ue, UeTable.find. by rewrite E.
  - assert (Hf : find_ue (ue_list m) id = None) by (unfold find_ue, UeTable.find; by rewrite E).
    destruct (UeTable.find_snoc ue_id (ue_list m) (new_ue id) Hn Hf) as [Hn' Hfind].
    eexists _, _, _. split; [done|]. cbn [ue_list]. split_and!.
    + split; [done|]. apply Forall_app. split; [done|]. by repeat constructor.
    + intros id' fl rb. unfold find_ue in *. rewrite Hfind. case_decide as D; [|done].
      subst id'. cbn [ue_id new_ue]. rewrite Hf. apply new_ue_rb.
    + by rewrite lookup_app_r, Nat.sub_diag by lia.
    + done.
    + intros fl rb. rewrite Hf. apply new_ue_rb.
Qed.

Lemma store_rb_ok m i u rb fl o : wf m -> ue_list m !! i = Some u -> 1 <= rb <= 32 -> (fl = true -> rb <= 2) ->
  wf (store_rb m i rb fl o) /\ changed m (store_rb m i rb fl o) (ue_id u) fl rb o.
Proof.
  intros [Hn Hw] Hi Hr Hs. pose proof (proj1 (Forall_lookup _ _) Hw i u Hi) as Hu.
  destruct (set_rb_wf u rb fl o Hu) as [Hu' Hk].
  destruct (UeTable.find_alter ue_id (fun u => set_rb u rb fl o) _ i u Hn Hi Hk) as [Hn' Hfind].
  split.
  - split; [done|]. apply Forall_alter; [done|]. intros v Hv. by rewrite Hi in Hv; injection Hv as <-.
  - intros id' fl' rb'. unfold bearer, find_ue, store_rb. cbn [ue_list]. rewrite Hfind.
    destruct (decide (id' = ue_id u)) as [->|Hne]; [|by rewrite decide_False by naive_solver].
    rewrite get_set_rb by done.
    rewrite (proj2 (UeTable.find_in ue_id _ (ue_id u) u Hn)); [repeat case_decide; naive_solver|].
    split; [by eapply list_elem_of_lookup_2|done].
Qed.

(** The call of an entity's function through the table. *)
Lemma with_rb_ok {B} m id rb fl (none : B) f : wf m ->
  match bearer m id fl rb with
  | None => exists m', with_rb m id rb fl none f = Ok (m', none) /\ wf m' /\ same_bearers m m'
  | Some e =>
      match f e with
      | Ok (e', b) => exists m', with_rb m id rb fl none f = Ok (m', b) /\ wf m' /\
          changed m m' id fl rb (Some e')
      | Fault x => with_rb m id rb fl none f = Fault x
      end
  end.
Proof.
  intros Hw. unfold with_rb. destruct (get_ue_ok m id Hw) as (m1 & i & u & -> & Hw1 & Hsame & Hi & <- & Hrb).
  rewrite (Hrb fl rb). rewrite <- (Hrb fl rb). destruct (nr_pdcp_get_rb u rb fl) as [e|] eqn:E; [|by exists m1].
  destruct (f e) as [[e' b]|x]; [|done]. cbn. eexists. split; [done|].
  destruct (get_rb_range _ _ _ _ E) as (Hr & Hs & _).
  destruct (store_rb_ok m1 i u rb fl (Some e') Hw1 Hi Hr Hs) as [Hw2 Hc]. split; [done|].
  intros id' fl' rb'. rewrite (Hc id' fl' rb'). by case_decide.
Qed.

(** Removing a UE removes its entities and no other. *)
Lemma remove_ue_ok m id : wf m -> let m' := (nr_pdcp_manager_remove_ue m id).1 in
  wf m' /\ forall id' fl rb, bearer m' id' fl rb = if decide (id' = id) then None else bearer m id' fl rb.
Proof.
  intros [Hn Hw]. unfold nr_pdcp_manager_remove_ue, bearer.
  destruct (list_find (fun u => ue_id u = id) (ue_list m)) as [[i u]|] eqn:E; cbn [fst ue_list].
  - pose proof (proj1 (list_find_Some _ _ _ _) E) as (Hi & <- & _).
    destruct (UeTable.find_delete ue_id _ i u Hn Hi) as [Hn' Hfind].
    split; [split; [done|by apply Forall_delete]|]. intros id' fl rb. unfold find_ue. rewrite Hfind.
    by case_decide.
  - split; [by split|]. intros id' fl rb. case_decide; [|done]. subst. unfold find_ue, UeTable.find. by rewrite E.
Qed.
End PdcpUeSpec.
