(* ===== verification/PdcpSecurity.v ===== *)
(** * PDCP: ciphering and integrity of an entity

    The configured algorithms of an entity as functions on messages: they return,
    ciphering keeps the length and undoes itself, and a MAC has four bytes. *)

From S2P Require Import Prelude Snow3g Snow3gSpec Snow3gMac Secu PdcpSdu PdcpEntity.

Module PdcpSecurity.
Import Secu Pdcp.

(** A key of sixteen bytes. *)
Definition is_key (k : list Z) : Prop := length k = 16%nat /\ Forall is_byte k.

Definition cipher_ready (c : cipher_t) : Prop :=
  match c with
  | Nea1 (KeyContext k) => is_key k
  | Nea1 (CmacContext _) => False
  | Nea2 => True
  end.

Definition integrity_ready (i : integrity_t) : Prop :=
  match i with
  | Nia1 (KeyContext k) | Nia2 (CmacContext k) => is_key k
  | _ => False
  end.

(** The algorithms of an entity are set up, for a bearer they accept. *)
Record secured (e : t) : Prop := {
  sec_bearer : 1 <= rb_id e < 32;
  sec_ckey : is_key (ciphering_key (security_keys_and_algos e));
  sec_ikey : is_key (integrity_key (security_keys_and_algos e));
  sec_cipher : has_ciphering e = true -> exists c, cipher e = Some c /\ cipher_ready c;
  sec_integrity : has_integrity e = true -> exists i, integrity e = Some i /\ integrity_ready i
}.

Section security.
Context `{P : Platform} `{L : !PlatformLaws P}.

Definition ciphered (e : t) (cnt d : Z) (msg : list Z) : list Z :=
  match cipher e with
  | Some (Nea1 (KeyContext k)) => SnowRef.f8 cnt (rb_id e - 1) d k msg
  | Some Nea2 => EVP_aes_128_ctr (ciphering_key (security_keys_and_algos e))
                   (data_iv16 cnt (rb_id e - 1) d) msg
  | _ => msg
  end.

Definition mac_of (e : t) (cnt d : Z) (msg : list Z) : list Z :=
  match integrity e with
  | Some (Nia1 (KeyContext k)) => MacRef.f9 cnt (u32 (Z.shiftl (rb_id e - 1) 27)) d k msg
  | Some (Nia2 (CmacContext k)) => take 4 (CMAC_aes_128 k (data_iv8 cnt (rb_id e - 1) d ++ msg))
  | _ => []
  end.

Lemma u8_small z : 0 <= z < 256 -> u8 z = z.
Proof. apply Z.mod_small. Qed.

Lemma stream_of_whole ctx msg b cnt d : 1 <= b < 32 -> 0 <= d < 2 -> zlen msg < 2 ^ 29 ->
  stream_of ctx msg b cnt d = whole (Some ctx) cnt (b - 1) d msg.
Proof.
  intros Hb Hd Hl. unfold stream_of, whole. rewrite !u8_small by lia.
  unfold u32. by rewrite Z.mod_small by (pose proof (zlen_nonneg msg); lia).
Qed.

Lemma take_key k : is_key k -> zslice k 0 16 = Ok k.
Proof. intros [Hk _]. apply slice_all. unfold zlen. by rewrite Hk. Qed.

Lemma run_cipher_ok e msg cnt d : secured e -> has_ciphering e = true ->
  0 < zlen msg < 2 ^ 29 -> 0 <= d < 2 ->
  run_cipher e msg (rb_id e) cnt d = Ok (ciphered e cnt d msg).
Proof.
  intros Hs Hc Hl Hd. pose proof (sec_bearer e Hs) as Hb.
  destruct (sec_cipher e Hs Hc) as (c & Ec & Hr). unfold run_cipher, ciphered. rewrite Ec.
  destruct c as [[k|k]|]; simpl in Hr; [|done|].
  - unfold nr_pdcp_security_nea1_cipher. rewrite stream_of_whole by (done || lia).
    apply eea1_ok. apply Hr.
  - unfold nr_pdcp_security_nea2_cipher. rewrite !dev_assert_ok by lia. rewrite !res_bind_unfold.
    rewrite take_key by apply Hs. done.
Qed.

Lemma run_integrity_ok e msg cnt d out : secured e -> has_integrity e = true ->
  Forall is_byte msg -> 0 < zlen msg < 2 ^ 29 -> 0 <= d < 2 ->
  run_integrity e msg (rb_id e) cnt d out = Ok (mac_of e cnt d msg).
Proof.
  intros Hs Hi Hm Hl Hd. pose proof (sec_bearer e Hs) as Hb.
  destruct (sec_integrity e Hs Hi) as (i & Ei & Hr). unfold run_integrity, mac_of. rewrite Ei.
  destruct i as [[k|k]|[k|k]]; simpl in Hr; try done.
  - unfold nr_pdcp_integrity_nia1_integrity. rewrite stream_of_whole by (done || lia).
    apply eia1_ok; [apply Hr|apply Hr|done|lia].
  - unfold nr_pdcp_integrity_nia2_integrity. rewrite dev_assert_ok by lia.
    rewrite res_bind_unfold. cbn [as_cmac]. rewrite res_ret_bind.
    unfold cipher_aes_128_cbc_cmac. cbn [aes_iv]. rewrite res_ret_bind.
    by rewrite zslice_ok by (unfold zlen; rewrite ?cmac_length; lia).
Qed.

Lemma ciphered_length e cnt d msg : length (ciphered e cnt d msg) = length msg.
Proof.
  unfold ciphered. destruct (cipher e) as [[[k|k]|]|]; try done;
    [apply SnowLfsr.length_f8|apply ctr_length].
Qed.

Lemma ciphered_involutive e cnt d msg : ciphered e cnt d (ciphered e cnt d msg) = msg.
Proof.
  unfold ciphered. destruct (cipher e) as [[[k|k]|]|]; try done;
    [apply SnowLfsr.f8_involutive|apply ctr_involutive].
Qed.

Lemma f8_bytes cnt b d k msg : Forall is_byte msg -> Forall is_byte (SnowRef.f8 cnt b d k msg).
Proof.
  intros Hm. unfold SnowRef.f8. eapply Forall_zip_with_fst; [exact Hm|].
  apply Forall_concat, Forall_map, Forall_forall. intros w _.
  eapply Forall_impl; [apply Width.be_bytes_ok|]. intros y Hy x Hx. by apply SnowTables.is_byte_lxor.
Qed.

Lemma ciphered_bytes e cnt d msg : Forall is_byte msg -> Forall is_byte (ciphered e cnt d msg).
Proof.
  intros Hm. unfold ciphered. destruct (cipher e) as [[[k|k]|]|]; try done;
    [by apply f8_bytes|by apply ctr_bytes].
Qed.

Lemma length_be_bytes w : length (Snow3g.be_bytes w) = 4%nat.
Proof. done. Qed.

Lemma mac_of_length e cnt d msg : secured e -> has_integrity e = true ->
  length (mac_of e cnt d msg) = 4%nat.
Proof.
  intros Hs Hi. destruct (sec_integrity e Hs Hi) as (i & Ei & Hr). unfold mac_of. rewrite Ei.
  destruct i as [[k|k]|[k|k]]; simpl in Hr; [|contradiction|contradiction|].
  - unfold MacRef.f9. cbv zeta. apply length_be_bytes.
  - by rewrite length_take, cmac_length.
Qed.

Lemma mac_of_bytes e cnt d msg : Forall is_byte (mac_of e cnt d msg).
Proof.
  unfold mac_of. destruct (integrity e) as [[[k|k]|[k|k]]|]; [|by constructor|by constructor| |by constructor].
  - unfold MacRef.f9. cbv zeta. apply Width.be_bytes_ok.
  - apply Forall_take, cmac_bytes.
Qed.

(** ** Configuration *)

(** Parameters that [set_security] accepts. *)
Record valid_parameters (p : security_t) : Prop := {
  vp_integrity : -1 <= integrity_algorithm p <= 2;
  vp_ciphering : -1 <= ciphering_algorithm p <= 2;
  vp_ikey : is_key (integrity_key p);
  vp_ckey : is_key (ciphering_key p)
}.

(** [e'] is [e] with other algorithms and keys. *)
Definition rekeyed (e e' : t) : Prop :=
  exists hc hi k c i, e' = {| e with has_ciphering := hc; has_integrity := hi;
                                     security_keys_and_algos := k; cipher := c; integrity := i |}.

Lemma set_security_ok e p : secured e -> valid_parameters p ->
  exists e', nr_pdcp_entity_set_security e p = Ok e' /\ secured e' /\ rekeyed e e'.
Proof.
  intros [Hb Hck Hik Hc Hi] [Vi Vc Vik Vck]. unfold nr_pdcp_entity_set_security.
  set (k := if negb (ciphering_algorithm p =? -1) then _ else _).
  assert (Hk : is_key (ciphering_key k) /\ is_key (integrity_key k)).
  { unfold k. destruct (negb (ciphering_algorithm p =? -1)), (negb (integrity_algorithm p =? -1)); done. }
  clearbody k. destruct Hk as [Hkc Hki].
  set (e1 := {| e with security_keys_and_algos := k |}).
  assert (H2 : exists e2, set_integrity e1 (integrity_algorithm p) = Ok e2 /\ secured e2 /\
    rekeyed e e2 /\ security_keys_and_algos e2 = k).
  { unfold set_integrity, nr_pdcp_integrity_nia2_init, nr_pdcp_integrity_nia1_init.
    change (integrity_key (security_keys_and_algos e1)) with (integrity_key k).
    rewrite take_key by done. zcases; try lia; (eexists; split; [reflexivity|]); split_and!;
      try (split; simpl; (done || eauto)); try done; repeat eexists. }
  destruct H2 as (e2 & -> & Hs2 & (hc & hi & k' & c & i & ->) & Ek). rewrite res_bind_unfold.
  cbn in Ek. subst k'. unfold set_ciphering, nr_pdcp_security_nea1_init.
  cbn [security_keys_and_algos]. rewrite take_key by done. destruct Hs2.
  zcases; try lia; (eexists; split; [reflexivity|]); split; try (split; simpl; (done || eauto));
    repeat eexists.
Qed.

End security.
End PdcpSecurity.
