(* ===== verification/PdcpRx.v ===== *)
(** * PDCP: reception

    The invariant of the receiving side and the proofs about
    [nr_pdcp_entity_recv_pdu] and the reordering timer: the COUNT of a PDU is
    reconstructed, PDUs are stored once, delivery is in order. *)

From S2P Require Import Prelude Snow3g Snow3gSpec Snow3gMac Secu PdcpSdu PdcpEntity PdcpSecurity.

Module PdcpRx.
Import Secu Pdcp PdcpSecurity.

(** ** The invariant *)

(** The configuration that the constructor computes from the SN size. *)
Record configured (e : t) : Prop := {
  cf_size : sn_size e = SHORT_SN_SIZE \/ sn_size e = LONG_SN_SIZE;
  cf_max : sn_max e = 2 ^ sn_size e - 1;
  cf_window : window_size e = 2 ^ (sn_size e - 1)
}.

Definition count_range (c : Z) : Prop := 0 <= c < 2 ^ 32.

(** The stored SDUs are strictly ordered, after the next one to deliver. *)
Record rx_core (e : t) : Prop := {
  rx_cf : configured e;
  rx_next_range : count_range (rx_next e);
  rx_deliv_range : count_range (rx_deliv e);
  rx_reord_range : count_range (rx_reord e);
  rx_sorted : PdcpSdu.sorted (rx_list e);
  rx_after : Forall (fun s => rx_deliv e < PdcpSdu.count s < 2 ^ 32) (rx_list e)
}.

(** While the reordering timer runs there is something to wait for. *)
Record rx_wf (e : t) : Prop := {
  rx_ok : rx_core e;
  rx_timer : t_reordering_start e <> 0 -> rx_deliv e < rx_reord e
}.

(** Only the state of the receiving side changes. *)
Definition received (e e' : t) : Prop :=
  exists nx dv ro ts l sz st,
    e' = {| e with rx_next := nx; rx_deliv := dv; rx_reord := ro; t_reordering_start := ts;
                   rx_list := l; rx_size := sz; stats := st |}.

Lemma received_configured e e' : configured e -> received e e' -> configured e'.
Proof. intros [H1 H2 H3] (a1 & a2 & a3 & a4 & a5 & a6 & a7 & ->). by split. Qed.

Lemma received_trans e e' e'' : received e e' -> received e' e'' -> received e e''.
Proof.
  intros (a1 & a2 & a3 & a4 & a5 & a6 & a7 & ->) (b1 & b2 & b3 & b4 & b5 & b6 & b7 & ->).
  by repeat eexists.
Qed.

(** The delivered SDUs are in order, from [rx_deliv] on and behind the new
    [rx_deliv], unless the last COUNT was reached. *)
Record in_order (e : t) (out : list PdcpSdu.t) (e' : t) : Prop := {
  io_sorted : PdcpSdu.sorted out;
  io_from : Forall (fun s => rx_deliv e <= PdcpSdu.count s) out;
  io_upto : (rx_deliv e <= rx_deliv e' /\ Forall (fun s => PdcpSdu.count s < rx_deliv e') out) \/
            Exists (fun s => PdcpSdu.count s = 2 ^ 32 - 1) out
}.

(** ** The COUNT of a received SN *)

(** A SN of [n] bits below a HFN. *)
Lemma compose n h k : 0 <= n -> 0 <= k < 2 ^ n -> 0 <= h -> h * 2 ^ n + k < 2 ^ 32 ->
  Z.lor (u32 (Z.shiftl h n)) k = h * 2 ^ n + k.
Proof.
  intros Hn Hk Hh Hc. rewrite Z.shiftl_mul_pow2 by done. unfold u32.
  rewrite Z.mod_small by nia. by apply lor_split.
Qed.

Lemma window_double e : configured e -> 2 ^ sn_size e = 2 * window_size e /\ 0 < window_size e < 2 ^ 32.
Proof. intros [[H|H] _ Hw]; rewrite Hw, H; done. Qed.

(** The COUNT of a PDU sent within the window around [rx_deliv] is recovered from
    its SN. *)
Lemma count_of_sn_ok e c : configured e -> count_range (rx_deliv e) -> count_range c ->
  rx_deliv e - window_size e <= c < rx_deliv e + window_size e ->
  count_of_sn e (c mod 2 ^ sn_size e) = c.
Proof.
  intros Hcf Hd Hc Hw. destruct (window_double e Hcf) as [H2 Hpos].
  assert (Hn : 0 <= sn_size e) by (destruct Hcf as [[->| ->] _ _]; done).
  unfold count_range in *. unfold count_of_sn. rewrite (cf_max e Hcf), land_mask by done.
  rewrite Z.shiftr_div_pow2 by done.
  set (N := 2 ^ sn_size e) in *. set (W := window_size e) in *. set (D := rx_deliv e) in *.
  assert (Hm : 0 <= c mod N < N) by (apply Z.mod_pos_bound; lia).
  pose proof (Z.div_mod c N ltac:(lia)) as Ec. pose proof (Z.div_mod D N ltac:(lia)) as ED.
  assert (HDm : 0 <= D mod N < N) by (apply Z.mod_pos_bound; lia).
  assert (0 <= c / N) by (apply Z.div_pos; lia). assert (0 <= D / N) by (apply Z.div_pos; lia).
  set (h := if c mod N <? D mod N - W then _ else _).
  assert (h = c / N) as ->.
  { assert (Hu : c / N < 2 ^ 32) by (apply Z.div_lt_upper_bound; nia).
    unfold h, u32. zcases; [rewrite Z.mod_small; nia|rewrite Z.mod_small; nia|nia]. }
  unfold N. rewrite compose by (fold N; nia). fold N. lia.
Qed.

(** ** Delivery *)

(** What delivering the SDUs [out] changes. *)
Definition delivered (out rest : list PdcpSdu.t) (e : t) : t :=
  {| e with rx_list := rest; rx_size := rx_size e - zsum PdcpSdu.size out;
            stats := foldl (fun s x => count_txsdu (PdcpSdu.size x) s) (stats e) out |}.

Lemma delivered_nil l e : l = rx_list e -> delivered [] l e = e.
Proof. intros ->. unfold delivered. simpl. rewrite Z.sub_0_r. by destruct e. Qed.

Lemma delivered_head cur out next rest e :
  delivered out rest (deliver_head cur next e) = delivered (cur :: out) rest e.
Proof. unfold delivered, deliver_head, upd_stats; simpl. f_equal. lia. Qed.

Lemma deliver_contiguous_ok l count e : l = rx_list e ->
  PdcpSdu.sorted l -> count_range count ->
  Forall (fun s => count <= PdcpSdu.count s < 2 ^ 32) l ->
  exists out rest, l = out ++ rest /\
    deliver_contiguous l count e = (u32 (count + zlen out), delivered out rest e, out) /\
    map PdcpSdu.count out = seqZ count (zlen out) /\
    (forall s, s ∈ rest -> u32 (count + zlen out) < PdcpSdu.count s).
Proof.
  revert count e. induction l as [|cur next IH]; intros count e El Hs Hc Hall; simpl.
  { exists [], []. rewrite Z.add_0_r. unfold u32. rewrite Z.mod_small by done.
    rewrite delivered_nil by done. split_and!; [done..|]. by intros s ?%elem_of_nil. }
  inversion Hs as [|? ? Hs' Hcur]; subst. apply Forall_cons in Hall as [Hcnt Hall].
  destruct (Z.eqb_spec count (PdcpSdu.count cur)) as [->|Hne].
  - destruct (decide (next = [])) as [->|Hn].
    { exists [cur], []. rewrite <- (delivered_head cur [] []), delivered_nil by done.
      split_and!; [done..|]. by intros s ?%elem_of_nil. }
    assert (Hlt : PdcpSdu.count cur + 1 < 2 ^ 32).
    { destruct next as [|n next]; [done|]. apply Forall_cons in Hall as [Hn' _].
      apply Forall_cons in Hcur as [Hb _]. unfold PdcpSdu.before in Hb. lia. }
    assert (Hu : u32 (PdcpSdu.count cur + 1) = PdcpSdu.count cur + 1).
    { apply Z.mod_small. unfold count_range in Hc. lia. }
    rewrite Hu. destruct (IH (PdcpSdu.count cur + 1) (deliver_head cur next e))
      as (out & rest & -> & E & Hseq & Hrest); [done|done|unfold count_range in *; lia| |].
    { apply Forall_forall. intros s Hin. rewrite Forall_forall in Hall, Hcur.
      specialize (Hall s Hin). specialize (Hcur s Hin). unfold PdcpSdu.before in Hcur. lia. }
    rewrite E. exists (cur :: out), rest. rewrite zlen_cons, delivered_head.
    replace (PdcpSdu.count cur + (1 + zlen out)) with (PdcpSdu.count cur + 1 + zlen out) by lia.
    split_and!; [done|done| |done]. cbn [map]. rewrite seqZ_cons by (pose proof (zlen_nonneg out); lia).
    rewrite Hseq. f_equal. f_equal; lia.
  - exists [], (cur :: next). rewrite zlen_nil, Z.add_0_r. unfold u32. rewrite Z.mod_small by done.
    rewrite delivered_nil by done. split_and!; [done|done|done|].
    intros s [->|Hin]%elem_of_cons; [lia|]. rewrite Forall_forall in Hcur. specialize (Hcur s Hin).
    unfold PdcpSdu.before in Hcur. lia.
Qed.

Lemma deliver_below_ok l e : l = rx_list e -> PdcpSdu.sorted l ->
  exists out rest, l = out ++ rest /\ deliver_below l e = (delivered out rest e, out) /\
    Forall (fun s => PdcpSdu.count s < rx_reord e) out /\
    Forall (fun s => rx_reord e <= PdcpSdu.count s) rest.
Proof.
  revert e. induction l as [|cur next IH]; intros e El Hs; simpl.
  { exists [], []. rewrite delivered_nil by done. done. }
  inversion Hs as [|? ? Hs' Hcur]; subst. destruct (Z.ltb_spec (PdcpSdu.count cur) (rx_reord e)).
  - destruct (IH (deliver_head cur next e)) as (out & rest & -> & E & Hb & Ha); [done|done|].
    rewrite E. exists (cur :: out), rest. rewrite delivered_head. split_and!; [done..| |done].
    by constructor.
  - exists [], (cur :: next). rewrite delivered_nil by done. split_and!; [done|done|done|].
    constructor; [done|]. eapply Forall_impl; [exact Hcur|].
    unfold PdcpSdu.before. simpl. lia.
Qed.

Lemma deliver_loop_ok l e : l = rx_list e -> deliver_loop l e = (delivered l [] e, l).
Proof.
  revert e. induction l as [|cur next IH]; intros e El; simpl.
  { by rewrite delivered_nil. }
  rewrite IH by done. by rewrite delivered_head.
Qed.

(** A run of consecutive COUNTs. *)
Lemma consecutive out c : map PdcpSdu.count out = seqZ c (zlen out) ->
  PdcpSdu.sorted out /\ Forall (fun s => c <= PdcpSdu.count s < c + zlen out) out.
Proof.
  revert c. induction out as [|x out IH]; intros c E; [by split; constructor|].
  rewrite zlen_cons in *. pose proof (zlen_nonneg out). cbn [map] in E.
  rewrite seqZ_cons in E by lia. injection E as Ex E.
  replace (Z.pred (1 + zlen out)) with (zlen out) in E by lia.
  destruct (IH (Z.succ c) E) as [Hs Ha]. split.
  - constructor; [done|]. eapply Forall_impl; [exact Ha|]. unfold PdcpSdu.before. simpl. lia.
  - constructor; [lia|]. eapply Forall_impl; [exact Ha|]. simpl. lia.
Qed.

Lemma consecutive_end out c : 0 <= c -> map PdcpSdu.count out = seqZ c (zlen out) ->
  Forall (fun s => PdcpSdu.count s < 2 ^ 32) out -> count_range c ->
  (c <= u32 (c + zlen out) /\ Forall (fun s => PdcpSdu.count s < u32 (c + zlen out)) out) \/
  Exists (fun s => PdcpSdu.count s = 2 ^ 32 - 1) out.
Proof.
  intros Hc E Hall Hr. pose proof (zlen_nonneg out). destruct (consecutive out c E) as [Hs Ha].
  assert (Hlast : zlen out = 0 \/ Exists (fun s => PdcpSdu.count s = c + zlen out - 1) out).
  { destruct (decide (zlen out = 0)); [by left|right].
    assert (c + zlen out - 1 ∈ map PdcpSdu.count out) as Hin.
    { rewrite E. apply elem_of_seqZ. lia. }
    apply list_elem_of_fmap in Hin as (s & Es & Hs'). apply Exists_exists. eauto. }
  destruct (Z.ltb_spec (c + zlen out) (2 ^ 32)).
  - left. unfold u32, count_range in *. rewrite Z.mod_small by lia. split; [lia|].
    eapply Forall_impl; [exact Ha|]. simpl. lia.
  - right. unfold count_range in Hr. destruct Hlast as [Hz|Hx]; [lia|].
    eapply Exists_impl; [exact Hx|]. intros s Es. simpl in *.
    apply Exists_exists in Hx as (x & Hx & Ex). rewrite Forall_forall in Hall. specialize (Hall x Hx). lia.
Qed.

Lemma update_t_reordering_form e : rx_core e ->
  exists ro ts, update_t_reordering e = {| e with rx_reord := ro; t_reordering_start := ts |} /\
    count_range ro /\ (ts <> 0 -> rx_deliv e < ro).
Proof.
  intros [_ Hn _ Hr _ _]. unfold update_t_reordering.
  destruct (negb (t_reordering_start e =? 0) && (rx_deliv e >=? rx_reord e)) eqn:E1; cbn - [Z.eqb Z.ltb].
  - change (0 =? 0) with true. destruct (Z.ltb_spec (rx_deliv e) (rx_next e)); cbn.
    + by exists (rx_next e), (t_current e).
    + by exists (rx_reord e), 0.
  - destruct ((t_reordering_start e =? 0) && (rx_deliv e <? rx_next e)) eqn:E2.
    + exists (rx_next e), (t_current e). split_and!; [done|done|lia].
    + exists (rx_reord e), (t_reordering_start e). split_and!; [by destruct e|done|lia].
Qed.

Lemma update_t_reordering_ok e : rx_core e ->
  exists e', update_t_reordering e = e' /\ rx_wf e' /\ received e e' /\
    rx_list e' = rx_list e /\ rx_deliv e' = rx_deliv e.
Proof.
  intros Hcore. destruct (update_t_reordering_form e Hcore) as (ro & ts & -> & Hro & Ht).
  eexists. split; [reflexivity|].
  assert (Hrec : received e {| e with rx_reord := ro; t_reordering_start := ts |}) by (by repeat eexists).
  destruct Hcore. split_and!; [|done..]. split; [|done].
  split; [by apply (received_configured e)|done..].
Qed.

(** Storing a new SDU delivers the run that starts at [rx_deliv], nothing else. *)
Lemma store_sdu_ok e sdu n h : rx_wf e -> rx_deliv e <= PdcpSdu.count sdu < 2 ^ 32 ->
  PdcpSdu.nr_pdcp_sdu_in_list (rx_list e) (PdcpSdu.count sdu) = false ->
  exists e' out, store_sdu e sdu n h = (e', out) /\ rx_wf e' /\ received e e' /\
    out ++ rx_list e' = PdcpSdu.nr_pdcp_sdu_list_add (rx_list e) sdu /\
    map PdcpSdu.count out = seqZ (rx_deliv e) (zlen out) /\
    rx_deliv e' = u32 (rx_deliv e + zlen out).
Proof.
  intros [[Hcf Hn Hd Hr Hs Ha] Ht] Hc Hfresh. unfold store_sdu.
  set (l := PdcpSdu.nr_pdcp_sdu_list_add (rx_list e) sdu).
  assert (Hsl : PdcpSdu.sorted l) by (by apply PdcpSdu.list_add_sorted).
  set (nx := if PdcpSdu.count sdu >=? rx_next e then u32 (PdcpSdu.count sdu + 1) else rx_next e).
  assert (Hnx : count_range nx).
  { unfold nx. destruct (_ >=? _); [|done]. by apply Z.mod_pos_bound. }
  set (e1 := {| e with rx_list := l; rx_size := rx_size e + (n - h); rx_next := nx |}).
  match goal with |- context [if PdcpSdu.count sdu =? rx_deliv ?x then _ else _] =>
    replace x with e1 by (unfold e1, nx; simpl; by destruct (PdcpSdu.count sdu >=? rx_next e)) end.
  change (rx_deliv e1) with (rx_deliv e). change (rx_list e1) with l.
  assert (Hal : Forall (fun s => rx_deliv e <= PdcpSdu.count s < 2 ^ 32) l).
  { apply Forall_forall. intros s [->|Hin]%PdcpSdu.list_add_elem; [done|].
    rewrite Forall_forall in Ha. specialize (Ha s Hin). lia. }
  destruct (Z.eqb_spec (PdcpSdu.count sdu) (rx_deliv e)) as [Heq|Hne].
  - destruct (deliver_contiguous_ok l (rx_deliv e) e1) as (out & rest & El & -> & Hseq & Hrest);
      [done..|].
    set (e2 := delivered out rest e1).
    set (e3 := {| e2 with rx_deliv := u32 (rx_deliv e + zlen out) |}).
    assert (Hr3 : received e e3) by (by repeat eexists).
    destruct (update_t_reordering_ok e3) as (e' & -> & Hwf & Hrec & Hl' & Hd').
    { split; simpl; try done; [by apply (received_configured e)|by apply Z.mod_pos_bound| |].
      - rewrite El in Hsl. apply PdcpSdu.sorted_app in Hsl. tauto.
      - apply Forall_forall. intros s Hin. split; [by apply Hrest|].
        rewrite Forall_forall in Hal. apply Hal. rewrite El. apply elem_of_app. by right. }
    exists e', out. split_and!; [done|done| |by rewrite Hl'|done|done].
    by apply (received_trans _ e3).
  - assert (Hr1 : received e e1) by (by repeat eexists).
    destruct (update_t_reordering_ok e1) as (e' & -> & Hwf & Hrec & Hl' & Hd').
    { split; simpl; try done; [by apply (received_configured e)|]. apply Forall_forall. intros s Hin.
      apply PdcpSdu.list_add_elem in Hin as [->|Hin]; [lia|]. by apply (proj1 (Forall_forall _ _) Ha). }
    exists e', []. rewrite zlen_nil, Z.add_0_r. split_and!; [done|done| |done|done|].
    + by apply (received_trans _ e1).
    + rewrite Hd'. symmetry. by apply Z.mod_small.
Qed.

Lemma store_sdu_in_order e sdu n h : rx_wf e -> rx_deliv e <= PdcpSdu.count sdu < 2 ^ 32 ->
  PdcpSdu.nr_pdcp_sdu_in_list (rx_list e) (PdcpSdu.count sdu) = false ->
  in_order e (store_sdu e sdu n h).2 (store_sdu e sdu n h).1.
Proof.
  intros Hw Hc Hf. destruct (store_sdu_ok e sdu n h Hw Hc Hf) as (e' & out & -> & Hw' & _ & El & Hs & Hd).
  destruct Hw as [[_ _ Hr _ _ Ha] _]. destruct (consecutive out _ Hs) as [Hso Hrange]. simpl. split; [done| |].
  - eapply Forall_impl; [exact Hrange|]. simpl. lia.
  - rewrite Hd. apply consecutive_end; [unfold count_range in Hr; lia|done| |done].
    apply Forall_forall. intros s Hin.
    assert (s ∈ PdcpSdu.nr_pdcp_sdu_list_add (rx_list e) sdu) as [->|Hin']%PdcpSdu.list_add_elem.
    { rewrite <- El. apply elem_of_app. by left. }
    + lia.
    + by apply (proj1 (Forall_forall _ _) Ha).
Qed.

(** ** The reordering timer *)

Definition expired (e : t) : bool :=
  negb (t_reordering e =? -1) && negb (t_reordering_start e =? 0)
  && (t_current e >? u64 (t_reordering_start e + t_reordering e)).

Lemma check_t_reordering_idle e : expired e = false -> check_t_reordering e = (e, []).
Proof.
  unfold expired, check_t_reordering. intros H. destruct (t_reordering e =? -1); [done|].
  destruct (t_reordering_start e =? 0); [done|]. simpl in *.
  replace (t_current e <=? _) with true by lia. done.
Qed.

(** At the expiry the SDUs before [rx_reord] are delivered, and the run that
    starts there; the others keep waiting. *)
Lemma check_t_reordering_ok e : rx_wf e -> expired e = true ->
  exists e' out1 out2, check_t_reordering e = (e', out1 ++ out2) /\ rx_wf e' /\ received e e' /\
    out1 ++ out2 ++ rx_list e' = rx_list e /\
    Forall (fun s => PdcpSdu.count s < rx_reord e) out1 /\
    map PdcpSdu.count out2 = seqZ (rx_reord e) (zlen out2) /\
    rx_deliv e' = u32 (rx_reord e + zlen out2).
Proof.
  intros [[Hcf Hn Hd Hr Hs Ha] Ht] Hx. unfold expired in Hx. unfold check_t_reordering.
  replace (t_reordering e =? -1) with false by lia.
  replace (_ || _) with false by lia.
  set (e1 := {| e with t_reordering_start := 0 |}). change (rx_list e1) with (rx_list e).
  destruct (deliver_below_ok (rx_list e) e1) as (out1 & l & El & -> & Hb & Hl); [done|done|].
  change (rx_reord e1) with (rx_reord e) in *. cbn [delivered rx_list].
  pose proof Hs as Hs'. rewrite El in Hs'. apply PdcpSdu.sorted_app in Hs' as (_ & Hsl & _).
  assert (Hal : Forall (fun s => rx_reord e <= PdcpSdu.count s < 2 ^ 32) l).
  { apply Forall_forall. intros s Hin. rewrite Forall_forall in Hl, Ha. split; [by apply Hl|].
    apply Ha. rewrite El. apply elem_of_app. by right. }
  destruct (deliver_contiguous_ok l (rx_reord e) (delivered out1 l e1))
    as (out2 & rest & El2 & E2 & Hseq & Hrest); [done..|].
  change (rx_reord (delivered out1 l e1)) with (rx_reord e).
  rewrite E2.
  set (e2 := delivered out2 rest (delivered out1 l e1)).
  set (dv := u32 (rx_reord e + zlen out2)).
  assert (Hdv : count_range dv) by (by apply Z.mod_pos_bound).
  assert (Hsr : PdcpSdu.sorted rest) by (rewrite El2 in Hsl; apply PdcpSdu.sorted_app in Hsl; tauto).
  assert (Har : Forall (fun s => dv < PdcpSdu.count s < 2 ^ 32) rest).
  { apply Forall_forall. intros s Hin. split; [by apply Hrest|].
    rewrite Forall_forall in Hal. apply Hal. rewrite El2. apply elem_of_app. by right. }
  eexists _, out1, out2. split; [reflexivity|]. cbn [rx_deliv rx_next e2 delivered e1].
  set (e3 := if dv <? rx_next e then _ else _).
  assert (Hrec : received e e3) by (unfold e3; destruct (dv <? rx_next e); by repeat eexists).
  assert (Hc3 : configured e3) by (by apply (received_configured e)).
  split_and!; [|done|..]; unfold e3 in *; clear e3;
    destruct (Z.ltb_spec dv (rx_next e)); try done; simpl; try (by rewrite El, El2);
    (split; [split|]; done).
Qed.

Lemma check_t_reordering_in_order e : rx_wf e ->
  in_order e (check_t_reordering e).2 (check_t_reordering e).1.
Proof.
  intros Hw. destruct (expired e) eqn:Hx.
  2: { rewrite check_t_reordering_idle by done. simpl. split; [constructor|done|left]. done. }
  destruct (check_t_reordering_ok e Hw Hx) as (e' & o1 & o2 & -> & Hw' & _ & El & Hb & Hseq & Hd').
  destruct Hw as [[_ _ Hd Hr Hs Ha] Ht].
  assert (Hlt : rx_deliv e < rx_reord e) by (apply Ht; unfold expired in Hx; lia).
  destruct (consecutive o2 _ Hseq) as [Hso2 Hrange].
  assert (Hpre : forall s, s ∈ o1 ++ o2 -> rx_deliv e < PdcpSdu.count s < 2 ^ 32).
  { intros s Hin. apply (proj1 (Forall_forall _ _) Ha). rewrite <- El, app_assoc.
    apply elem_of_app. by left. }
  simpl. split.
  - rewrite <- El, app_assoc in Hs. apply PdcpSdu.sorted_app in Hs. tauto.
  - apply Forall_forall. intros s Hin. specialize (Hpre s Hin). lia.
  - destruct (consecutive_end o2 (rx_reord e)) as [[Hle Hlt2]|Hmax];
      [unfold count_range in Hr; lia|done| |done| |].
    + apply Forall_forall. intros s Hin. apply Hpre. apply elem_of_app. by right.
    + left. rewrite Hd'. split; [lia|]. apply Forall_app. split; [|done].
      eapply Forall_impl; [exact Hb|]. simpl. lia.
    + right. apply Exists_app. by right.
Qed.

End PdcpRx.
