(* ===== verification/PdcpRecv.v ===== *)
(** * PDCP: the reception of a PDU

    [nr_pdcp_entity_recv_pdu] on arbitrary bytes: what it does is computed by a
    pure function of the header, the deciphered PDU and the outcome of the
    integrity check, and the invariant is kept. *)

From S2P Require Import Prelude Snow3g Snow3gSpec Snow3gMac Secu PdcpSdu PdcpEntity PdcpSecurity.
From S2P Require Import PdcpRx.

Module PdcpRecv.
Import Secu Pdcp PdcpSecurity PdcpRx.

(** Sizes and direction of the receiving side. *)
Definition hsize (e : t) : Z := if sn_size e =? SHORT_SN_SIZE then 2 else 3.
Definition sdap (e : t) : Z := if has_sdap_rx e then 1 else 0.
Definition dir (e : t) : Z := if is_gnb e then 0 else 1.

Lemma hsize_range e : 2 <= hsize e <= 3.
Proof. unfold hsize. destruct (_ =? _); lia. Qed.

Lemma sdap_range e : 0 <= sdap e <= 1.
Proof. unfold sdap. destruct (has_sdap_rx e); lia. Qed.

Lemma dir_range e : 0 <= dir e < 2.
Proof. unfold dir. destruct (is_gnb e); lia. Qed.

Lemma isize_range e : integrity_size e = 0 \/ integrity_size e = 4.
Proof. unfold integrity_size, PDCP_INTEGRITY_SIZE. destruct (_ || _); lia. Qed.

Lemma isize_integrity e : has_integrity e = true -> integrity_size e = 4.
Proof. unfold integrity_size. by intros ->. Qed.

Section recv.
Context `{P : Platform} `{L : !PlatformLaws P}.

(** The buffer once its D/C bit is forced. *)
Definition marked (e : t) (buffer : list Z) : list Z :=
  match buffer with
  | b0 :: rest => (if negb (is_srb e) && (Z.land b0 0x80 =? 0) then Z.lor b0 128 else b0) :: rest
  | [] => []
  end.

(** The SN in the header of a buffer. *)
Definition sn_of (e : t) (buffer : list Z) : Z :=
  let b i := nth i buffer 0 in
  if sn_size e =? SHORT_SN_SIZE then Z.lor (Z.shiftl (Z.land (b 0%nat) 0xf) 8) (b 1%nat)
  else Z.lor (Z.lor (Z.shiftl (Z.land (b 0%nat) 0x3) 16) (Z.shiftl (b 1%nat) 8)) (b 2%nat).

(** The deciphered PDU. *)
Definition plain (e : t) (c : Z) (buffer : list Z) : list Z :=
  let n := Z.to_nat (hsize e + sdap e) in
  if has_ciphering e then take n buffer ++ ciphered e c (dir e) (drop n buffer) else buffer.

(** The integrity check. *)
Definition authentic (e : t) (c : Z) (pdu : list Z) : bool :=
  let n := Z.to_nat (zlen pdu - 4) in
  if has_integrity e then bool_decide (mac_of e c (dir e) (take n pdu) = drop n pdu) else true.

(** What is kept for RRC. *)
Definition kept_integrity (e : t) (c : Z) (buffer : list Z) : IntegrityData.t :=
  if has_integrity e || is_srb e then
    {| IntegrityData.count := c;
       IntegrityData.mac := take 4 (drop (Z.to_nat (zlen buffer - 4)) buffer);
       IntegrityData.header_size := hsize e;
       IntegrityData.header :=
         take (Z.to_nat (hsize e)) buffer ++ drop (Z.to_nat (hsize e)) (replicate 3 0) |}
  else IntegrityData.zero.

(** The SDU of a PDU. *)
Definition sdu_of (e : t) (c : Z) (buffer : list Z) : PdcpSdu.t :=
  let pdu := plain e c buffer in
  PdcpSdu.nr_pdcp_new_sdu c
    (take (Z.to_nat (zlen buffer - hsize e - integrity_size e)) (drop (Z.to_nat (hsize e)) pdu))
    (kept_integrity e c buffer).

(** The reception with the statistics updated. *)
Definition counted (e : t) (size sn : Z) : t :=
  upd_stats (fun s => {| s with rxpdu_sn := sn |}) (upd_stats (count_rxpdu size) e).

Definition reception (e : t) (buffer : list Z) : t * list PdcpSdu.t :=
  let buf := marked e buffer in
  let sn := sn_of e buf in
  let e1 := counted e (zlen buffer) sn in
  let dropped := (upd_stats (count_dd (zlen buffer)) e1, []) in
  let c := count_of_sn e sn in
  if zlen buffer <? hsize e + sdap e + integrity_size e + 1 then dropped
  else if negb (authentic e c (plain e c buf)) then dropped
  else if (c <? rx_deliv e) || PdcpSdu.nr_pdcp_sdu_in_list (rx_list e) c then dropped
  else store_sdu e1 (sdu_of e c buf) (zlen buffer) (hsize e).

(** ** The steps *)

Lemma marked_length e buffer : zlen (marked e buffer) = zlen buffer.
Proof. by destruct buffer. Qed.

Lemma marked_bytes e buffer : Forall is_byte buffer -> Forall is_byte (marked e buffer).
Proof.
  destruct 1 as [|b rest Hb Hr]; [done|]. constructor; [|done].
  destruct (_ && _); [|done]. by apply (Width.fits_lor 8).
Qed.

Lemma zget_nth (l : list Z) i : 0 <= i < zlen l -> zget l i = Ok (nth (Z.to_nat i) l 0).
Proof.
  intros Hi. unfold zlen in Hi. apply zget_ok. split; [lia|]. rewrite nth_lookup.
  destruct (lookup_lt_is_Some_2 l (Z.to_nat i)) as [x Hx]; [lia|]. by rewrite Hx.
Qed.

Lemma mark_ok e buffer (b0 : Z) rest : buffer = b0 :: rest ->
  (if negb (is_srb e) && (Z.land b0 0x80 =? 0) then zset buffer 0 (Z.lor b0 128) else mret buffer)
  = Ok (marked e buffer).
Proof.
  intros ->. simpl. destruct (_ && _); [|done].
  rewrite zset_ok; [done|]. rewrite zlen_cons. pose proof (zlen_nonneg rest). lia.
Qed.

Lemma read_header_ok e buffer : hsize e <= zlen buffer ->
  read_header e buffer = Ok (sn_of e buffer, hsize e).
Proof.
  unfold read_header, hsize, sn_of. destruct (sn_size e =? SHORT_SN_SIZE); intros Hl;
    by rewrite !zget_nth by lia.
Qed.

Lemma header_sn_range e buffer : configured e -> Forall is_byte buffer ->
  0 <= sn_of e buffer < 2 ^ sn_size e.
Proof.
  intros [Hcf _ _] Hb. unfold sn_of.
  assert (Hn : forall i, is_byte (nth i buffer 0)) by (intros; by apply Width.nth_byte).
  assert (Hl : forall x k, 0 <= k -> Width.fits k (Z.land x (Z.ones k))).
  { intros. rewrite Z.land_ones by done. by apply Z.mod_pos_bound, Z.pow_pos_nonneg. }
  destruct Hcf as [->| ->]; cbn - [Z.lor Z.shiftl Z.land Z.pow].
  - apply (Width.fits_lor 12); [lia| |by apply Width.fits_byte0].
    apply (Width.fits_shiftl 4 8); [lia..|]. by apply (Hl _ 4).
  - apply (Width.fits_lor 18); [lia| |by apply Width.fits_byte0].
    apply (Width.fits_lor 18); [lia| |by apply Width.fits_byte].
    apply (Width.fits_shiftl 2 16); [lia..|]. by apply (Hl _ 2).
Qed.

Lemma count_of_sn_range e k : configured e -> 0 <= k < 2 ^ sn_size e -> count_range (count_of_sn e k).
Proof.
  intros [Hcf _ _] Hk. unfold count_of_sn. cbv zeta.
  apply Width.fits_lor; [lia|by apply Z.mod_pos_bound|].
  apply (Width.fits_mono (sn_size e)); [|done]. destruct Hcf as [->| ->]; done.
Qed.

Lemma received_integrity_ok e buffer c : hsize e + integrity_size e <= zlen buffer ->
  received_integrity e buffer c (hsize e) = Ok (kept_integrity e c buffer).
Proof.
  intros Hl. unfold received_integrity, kept_integrity. pose proof (hsize_range e).
  unfold integrity_size, PDCP_INTEGRITY_SIZE in Hl. destruct (has_integrity e || is_srb e); [|done].
  rewrite !zslice_ok by lia. rewrite !res_bind_unfold.
  set (h := take (Z.to_nat (hsize e)) (drop (Z.to_nat 0) buffer)).
  assert (Hh : zlen h = hsize e) by (unfold h; rewrite zlen_take, zlen_drop; lia).
  rewrite zwrite_ok by (rewrite ?Hh; change (zlen (replicate 3 0)) with 3; lia).
  rewrite res_bind_unfold, Hh. done.
Qed.

Lemma plain_length e c buffer : zlen (plain e c buffer) = zlen buffer.
Proof.
  unfold plain, zlen. destruct (has_ciphering e); [|done].
  by rewrite length_app, ciphered_length, <- length_app, take_drop.
Qed.

Lemma plain_bytes e c buffer : Forall is_byte buffer -> Forall is_byte (plain e c buffer).
Proof.
  intros Hb. unfold plain. destruct (has_ciphering e); [|done].
  apply Forall_app. split; [by apply Forall_take|]. by apply ciphered_bytes, Forall_drop.
Qed.

(** Ciphering the tail of a PDU in place; what follows it in the buffer stays. *)
Lemma cipher_in_place_ok e buf rest off cnt d : secured e -> has_ciphering e = true -> 0 <= d < 2 ->
  0 <= off < zlen buf -> zlen buf < 2 ^ 29 ->
  cipher_in_place e (buf ++ rest) off (zlen buf - off) (rb_id e) cnt d
  = Ok ((take (Z.to_nat off) buf ++ ciphered e cnt d (drop (Z.to_nat off) buf)) ++ rest).
Proof.
  intros Hs Hc Hd Ho Hl. unfold cipher_in_place. pose proof (zlen_nonneg rest).
  rewrite zslice_ok by (rewrite ?zlen_app; lia). unfold zlen in *.
  rewrite drop_app_le by lia. rewrite take_app_le, take_ge by (rewrite length_drop; lia).
  rewrite res_bind_unfold, run_cipher_ok by (done || unfold zlen; rewrite length_drop; lia).
  rewrite res_bind_unfold. set (x := ciphered _ _ _ _).
  assert (Hx : length x = (length buf - Z.to_nat off)%nat).
  { unfold x. by rewrite ciphered_length, length_drop. }
  rewrite zwrite_ok by (unfold zlen; rewrite ?length_app; lia). unfold zlen.
  rewrite take_app_le by lia. rewrite drop_app_ge by lia.
  replace (Z.to_nat _ - _)%nat with 0%nat by lia. by rewrite drop_0, app_assoc.
Qed.

Lemma integrity_matches_ok e buf c : secured e -> Forall is_byte buf ->
  integrity_size e < zlen buf -> zlen buf < 2 ^ 29 ->
  integrity_matches e buf c = Ok (authentic e c buf).
Proof.
  intros Hs Hb Hi Hl. unfold integrity_matches, authentic.
  destruct (has_integrity e) eqn:Hh; [|done]. rewrite (isize_integrity e Hh) in *.
  rewrite !zslice_ok by (unfold PDCP_INTEGRITY_SIZE; lia).
  change (Z.to_nat 0) with 0%nat. rewrite drop_0, res_bind_unfold.
  change (if is_gnb e then 0 else 1) with (dir e).
  rewrite run_integrity_ok; [|done|done|by apply Forall_take|rewrite zlen_take; lia|apply dir_range].
  rewrite !res_bind_unfold. unfold mret, res_ret. do 2 f_equal.
  rewrite (take_ge (drop _ _)); [done|]. rewrite length_drop. unfold zlen, PDCP_INTEGRITY_SIZE in *. lia.
Qed.

Lemma secured_stats e f : secured e -> secured (upd_stats f e).
Proof. intros [H1 H2 H3 H4 H5]. by split. Qed.

(** On any bytes that hold a header, the reception is computed. *)
Lemma recv_pdu_eq e buffer : secured e -> entity_suspended e = false -> Forall is_byte buffer ->
  hsize e <= zlen buffer < 2 ^ 29 ->
  nr_pdcp_entity_recv_pdu e buffer = Ok (reception e buffer).
Proof.
  intros Hs Hsus Hb Hl. pose proof (hsize_range e). pose proof (sdap_range e).
  pose proof (isize_range e) as Hi. unfold nr_pdcp_entity_recv_pdu. rewrite Hsus.
  replace (zlen buffer <? 1) with false by lia.
  destruct buffer as [|b0 rest]; [rewrite zlen_nil in Hl; lia|].
  change (zget (b0 :: rest) 0) with (Ok b0). rewrite res_bind_unfold, (mark_ok e _ b0 rest eq_refl).
  rewrite res_bind_unfold. set (buffer := b0 :: rest) in *. unfold reception.
  assert (Hmb : Forall is_byte (marked e buffer)) by (by apply marked_bytes).
  pose proof (marked_length e buffer) as Hml. set (buf := marked e buffer) in *.
  change (read_header (upd_stats (count_rxpdu (zlen buffer)) e) buf) with (read_header e buf).
  rewrite read_header_ok by lia. rewrite res_bind_unfold. cbv zeta.
  set (sn := sn_of e buf).
  change (upd_stats _ (upd_stats (count_rxpdu (zlen buffer)) e)) with (counted e (zlen buffer) sn).
  set (e1 := counted e (zlen buffer) sn). set (c := count_of_sn e sn).
  assert (Hs1 : secured e1) by (by apply secured_stats, secured_stats).
  change (count_of_sn e1 sn) with c.
  change (if has_sdap_rx (upd_stats (count_rxpdu (zlen buffer)) e) then 1 else 0) with (sdap e).
  change (integrity_size e1) with (integrity_size e).
  destruct (Z.ltb_spec (zlen buffer) (hsize e + sdap e + integrity_size e + 1)); [done|].
  change (hsize e) with (hsize e1) at 1. change (integrity_size e) with (integrity_size e1) in *.
  change (hsize e) with (hsize e1) in *. change (sdap e) with (sdap e1) in *.
  rewrite received_integrity_ok by lia. rewrite res_bind_unfold.
  match goal with |- (?m ≫= _) = _ => assert (Hplain : m = Ok (plain e1 c buf)) end.
  { unfold plain. destruct (has_ciphering e1) eqn:Hc; [|done]. rewrite <- Hml.
    rewrite <- (app_nil_r buf) at 1. change (hsize e1) with (hsize e) in *.
    rewrite cipher_in_place_ok by (done || lia || apply (dir_range e1)). by rewrite app_nil_r. }
  rewrite Hplain, res_bind_unfold.
  rewrite integrity_matches_ok by (rewrite ?plain_length; (done || lia || by apply plain_bytes)).
  rewrite res_bind_unfold. change (authentic e1 c (plain e1 c buf)) with (authentic e c (plain e c buf)).
  destruct (authentic e c (plain e c buf)); [|done]. cbn [negb].
  change (rx_deliv e1) with (rx_deliv e). change (rx_list e1) with (rx_list e).
  destruct (_ || _); [done|].
  rewrite zslice_ok by (rewrite ?plain_length; lia). rewrite res_bind_unfold. unfold mret, res_ret.
  unfold sdu_of. rewrite Hml. done.
Qed.

(** ** Order and authenticity *)

Lemma rx_wf_stats e f : rx_wf e -> rx_wf (upd_stats f e).
Proof. intros [[[H1 H2 H3] H4 H5 H6 H7 H8] H9]. by split; [split; [split|..]|]. Qed.

Lemma received_stats e f : received e (upd_stats f e).
Proof. destruct e. by repeat eexists. Qed.

Lemma in_order_nil e e' : rx_deliv e' = rx_deliv e -> in_order e [] e'.
Proof. intros H. split; [constructor|done|]. left. split; [lia|done]. Qed.

Definition seq_number (e : t) (buffer : list Z) : Z := sn_of e (marked e buffer).
Definition pdu_count (e : t) (buffer : list Z) : Z := count_of_sn e (seq_number e buffer).

(** The PDU is accepted: it is long enough, its MAC is right, and its COUNT is
    expected and new. *)
Definition accepted (e : t) (buffer : list Z) : Prop :=
  let c := pdu_count e buffer in
  hsize e + sdap e + integrity_size e + 1 <= zlen buffer /\
  authentic e c (plain e c (marked e buffer)) = true /\
  rx_deliv e <= c /\ PdcpSdu.nr_pdcp_sdu_in_list (rx_list e) c = false.

(** The outcome of a reception: the PDU is dropped and nothing moves, or its SDU
    is added and the run from [rx_deliv] is delivered. *)
Definition outcome (e : t) (buffer : list Z) (e' : t) (out : list PdcpSdu.t) : Prop :=
  (~ accepted e buffer /\ out = [] /\ rx_list e' = rx_list e /\ rx_deliv e' = rx_deliv e) \/
  (accepted e buffer /\
   out ++ rx_list e' = PdcpSdu.nr_pdcp_sdu_list_add (rx_list e)
                         (sdu_of e (pdu_count e buffer) (marked e buffer)) /\
   map PdcpSdu.count out = seqZ (rx_deliv e) (zlen out) /\
   rx_deliv e' = u32 (rx_deliv e + zlen out)).

Lemma reception_cases e buffer :
  let e1 := counted e (zlen buffer) (seq_number e buffer) in
  (~ accepted e buffer /\ reception e buffer = (upd_stats (count_dd (zlen buffer)) e1, [])) \/
  (accepted e buffer /\ reception e buffer =
     store_sdu e1 (sdu_of e (pdu_count e buffer) (marked e buffer)) (zlen buffer) (hsize e)).
Proof.
  cbv zeta. unfold reception, accepted. cbv zeta. fold (seq_number e buffer) (pdu_count e buffer).
  destruct (Z.ltb_spec (zlen buffer) (hsize e + sdap e + integrity_size e + 1)); [left; split; [lia|done]|].
  destruct (authentic _ _ _) eqn:Ha; [|left; split; [intros (_ & ? & _); done|done]]. cbn [negb].
  destruct (Z.ltb_spec (pdu_count e buffer) (rx_deliv e)); [left; split; [lia|done]|].
  destruct (PdcpSdu.nr_pdcp_sdu_in_list (rx_list e) (pdu_count e buffer)) eqn:Hin; cbn [orb].
  - left. split; [|done]. by intros (_ & _ & _ & ?).
  - right. split; [|done]. split_and!; [lia|done|lia|done].
Qed.

Lemma pdcp_reception_ok e buffer e' out : rx_wf e -> Forall is_byte buffer ->
  reception e buffer = (e', out) ->
  rx_wf e' /\ received e e' /\ in_order e out e' /\ outcome e buffer e' out.
Proof.
  intros Hw Hb E. pose proof (reception_cases e buffer) as Hcase. cbv zeta in Hcase.
  set (e1 := counted e (zlen buffer) (seq_number e buffer)) in *.
  assert (Hw1 : rx_wf e1) by (by apply rx_wf_stats, rx_wf_stats).
  assert (Hr1 : received e e1) by (eapply received_trans; apply received_stats).
  destruct Hcase as [[Hna Eq]|[Ha Eq]]; rewrite Eq in E.
  - injection E as <- <-. split_and!; [by apply rx_wf_stats| |by apply in_order_nil|by left].
    eapply received_trans; [exact Hr1|apply received_stats].
  - set (sdu := sdu_of e (pdu_count e buffer) (marked e buffer)) in *.
    assert (Hc : rx_deliv e1 <= PdcpSdu.count sdu < 2 ^ 32).
    { destruct Ha as (_ & _ & Hd & _). split; [done|].
      apply (count_of_sn_range e), header_sn_range; [apply Hw|apply Hw|by apply marked_bytes]. }
    assert (Hf : PdcpSdu.nr_pdcp_sdu_in_list (rx_list e1) (PdcpSdu.count sdu) = false) by apply Ha.
    pose proof (store_sdu_in_order e1 sdu (zlen buffer) (hsize e) Hw1 Hc Hf) as Hio.
    destruct (store_sdu_ok e1 sdu (zlen buffer) (hsize e) Hw1 Hc Hf)
      as (e2 & out2 & E2 & Hw2 & Hr2 & El & Hseq & Hd). rewrite E2 in *. injection E as <- <-.
    split_and!; [done|by apply (received_trans _ e1)| |by right].
    destruct Hio as [H1 H2 H3]. by split.
Qed.

(** The SDU that the receiver waits for is delivered. *)
Lemma due_delivered e e' out x : rx_wf e -> rx_wf e' ->
  PdcpSdu.nr_pdcp_sdu_in_list (rx_list e) (PdcpSdu.count x) = false ->
  out ++ rx_list e' = PdcpSdu.nr_pdcp_sdu_list_add (rx_list e) x ->
  map PdcpSdu.count out = seqZ (rx_deliv e) (zlen out) ->
  rx_deliv e' = u32 (rx_deliv e + zlen out) -> PdcpSdu.count x = rx_deliv e -> x ∈ out.
Proof.
  intros Hw Hw' Hf El Hseq Hd Heq.
  assert (Hin : x ∈ out ++ rx_list e') by (rewrite El; apply PdcpSdu.list_add_elem; by left).
  apply elem_of_app in Hin as [Hin|Hin]; [done|]. exfalso.
  pose proof (proj1 (Forall_forall _ _) (rx_after e' (rx_ok e' Hw')) x Hin) as Hx.
  destruct out as [|y out].
  - rewrite zlen_nil, Z.add_0_r in Hd. unfold u32 in Hd.
    rewrite Z.mod_small in Hd by apply Hw. simpl in Hx. lia.
  - assert (Hy : PdcpSdu.count y = rx_deliv e).
    { rewrite zlen_cons, seqZ_cons in Hseq by (pose proof (zlen_nonneg out); lia).
      by injection Hseq as ->. }
    assert (Hsort : PdcpSdu.sorted ((y :: out) ++ rx_list e')).
    { rewrite El. apply PdcpSdu.list_add_sorted; [apply Hw|done]. }
    apply PdcpSdu.sorted_app in Hsort as (_ & _ & Hs'). specialize (Hs' y x ltac:(by left) Hin).
    unfold PdcpSdu.before in Hs'. lia.
Qed.

End recv.
End PdcpRecv.
