(* ===== verification/PdcpTx.v ===== *)
(** * PDCP: transmission, and the transfer of an SDU

    [nr_pdcp_entity_process_sdu] builds a PDU inside the buffer it is given; a PDU
    received by the peer gives back the COUNT and the bytes of the SDU. *)

From S2P Require Import Prelude Snow3g Snow3gSpec Snow3gMac Secu PdcpSdu PdcpEntity PdcpSecurity.
From S2P Require Import PdcpRx PdcpRecv.

Module PdcpTx.
Import Secu Pdcp PdcpSecurity PdcpRx PdcpRecv.

Definition dir_tx (e : t) : Z := if is_gnb e then 1 else 0.
Definition sdap_tx (e : t) : Z := if has_sdap_tx e then 1 else 0.

Lemma dir_tx_range e : 0 <= dir_tx e < 2.
Proof. unfold dir_tx. destruct (is_gnb e); lia. Qed.

Lemma sdap_tx_range e : 0 <= sdap_tx e <= 1.
Proof. unfold sdap_tx. destruct (has_sdap_tx e); lia. Qed.

Section tx.
Context `{P : Platform} `{L : !PlatformLaws P}.

(** The header, the MAC-I and the PDU of the next SDU. *)
Definition header_of (e : t) : list Z := write_header e (tx_next e mod 2 ^ sn_size e).

Definition mac_i (e : t) (sdu : list Z) : list Z :=
  if has_integrity e then mac_of e (tx_next e) (dir_tx e) (header_of e ++ sdu)
  else if is_srb e then replicate 4 0 else [].

Definition clear_pdu (e : t) (sdu : list Z) : list Z := header_of e ++ sdu ++ mac_i e sdu.

Definition pdu_of (e : t) (sdu : list Z) : list Z :=
  let n := Z.to_nat (hsize e + sdap_tx e) in
  if has_ciphering e
  then take n (clear_pdu e sdu) ++ ciphered e (tx_next e) (dir_tx e) (drop n (clear_pdu e sdu))
  else clear_pdu e sdu.

(** The entity after a transmission. *)
Definition sent (e : t) (sdu : list Z) : t :=
  upd_stats (count_txpdu (zlen (pdu_of e sdu)) (tx_next e mod 2 ^ sn_size e))
    (let e := upd_stats (count_rxsdu (zlen sdu)) e in {| e with tx_next := u32 (tx_next e + 1) |}).

Lemma header_length e : zlen (header_of e) = hsize e.
Proof. unfold header_of, write_header, hsize. by destruct (_ =? _). Qed.

Lemma mac_i_length e sdu : secured e -> zlen (mac_i e sdu) = integrity_size e.
Proof.
  intros Hs. unfold mac_i, integrity_size, PDCP_INTEGRITY_SIZE. destruct (has_integrity e) eqn:Hi; simpl.
  - unfold zlen. by rewrite mac_of_length.
  - by destruct (is_srb e).
Qed.

Lemma clear_pdu_length e sdu : secured e ->
  zlen (clear_pdu e sdu) = hsize e + zlen sdu + integrity_size e.
Proof. intros Hs. unfold clear_pdu. rewrite !zlen_app, header_length, mac_i_length by done. lia. Qed.

Lemma pdu_length e sdu : secured e -> zlen (pdu_of e sdu) = hsize e + zlen sdu + integrity_size e.
Proof.
  intros Hs. rewrite <- clear_pdu_length by done. unfold pdu_of. destruct (has_ciphering e); [|done].
  unfold zlen. by rewrite length_app, ciphered_length, <- length_app, take_drop.
Qed.

Lemma dc_bit_byte e x : is_byte x -> is_byte (Z.lor (dc_bit e) x).
Proof. intros. apply (Width.fits_lor 8); [lia| |done]. unfold dc_bit. destruct (is_srb e); done. Qed.

Lemma header_bytes e : Forall is_byte (header_of e).
Proof.
  assert (Hl : forall x m, 0 <= m <= 0xff -> is_byte (Z.land x m)).
  { intros x m Hm. apply (Width.fits_land 8); [lia|]. unfold Width.fits. lia. }
  unfold header_of, write_header. destruct (_ =? _);
    repeat (apply Forall_cons_2; [try apply dc_bit_byte; apply Hl; lia|]); apply Forall_nil_2.
Qed.

Lemma pdu_bytes e sdu : Forall is_byte sdu -> Forall is_byte (pdu_of e sdu).
Proof.
  intros Hb. assert (Hc : Forall is_byte (clear_pdu e sdu)).
  { unfold clear_pdu. repeat (apply Forall_app; split); [apply header_bytes|done|].
    unfold mac_i. destruct (has_integrity e); [apply mac_of_bytes|].
    destruct (is_srb e); [by apply Forall_replicate|done]. }
  unfold pdu_of. destruct (has_ciphering e); [|done].
  apply Forall_app. split; [by apply Forall_take|by apply ciphered_bytes, Forall_drop].
Qed.

(** The MAC-I after the SDU. *)
Lemma write_mac_ok e sdu rest : secured e -> Forall is_byte sdu -> zlen sdu + 7 < 2 ^ 29 ->
  4 <= zlen rest ->
  exists rest',
    (if has_integrity e then
       msg ← zslice ((header_of e ++ sdu) ++ rest) 0 (hsize e + zlen sdu);
       mac ← run_integrity e msg (rb_id e) (tx_next e) (dir_tx e) (replicate 4 0);
       zwrite ((header_of e ++ sdu) ++ rest) (hsize e + zlen sdu) mac
     else if integrity_size e =? PDCP_INTEGRITY_SIZE
     then zwrite ((header_of e ++ sdu) ++ rest) (hsize e + zlen sdu) (replicate 4 0)
     else mret ((header_of e ++ sdu) ++ rest)) = Ok (clear_pdu e sdu ++ rest').
Proof.
  intros Hs Hb Hbig Hr. pose proof (hsize_range e). pose proof (zlen_nonneg sdu).
  assert (Hl : hsize e + zlen sdu = zlen (header_of e ++ sdu)) by (by rewrite zlen_app, header_length).
  unfold clear_pdu, mac_i. destruct (has_integrity e) eqn:Hh.
  - rewrite slice_prefix by done. rewrite res_bind_unfold.
    rewrite run_integrity_ok; [|done|done| |lia|apply dir_tx_range].
    2: { apply Forall_app. split; [apply header_bytes|done]. }
    rewrite res_bind_unfold, zwrite_append; [|done|].
    + eexists. rewrite <- !app_assoc. reflexivity.
    + unfold zlen at 1. rewrite mac_of_length by done. lia.
  - unfold integrity_size, PDCP_INTEGRITY_SIZE. rewrite Hh. simpl. destruct (is_srb e); simpl.
    + rewrite zwrite_append; [|done|assert (zlen [0; 0; 0; 0] = 4) by done; lia].
      eexists. rewrite <- !app_assoc. reflexivity.
    + exists rest. by rewrite app_nil_r.
Qed.

(** The PDU is written at the start of the buffer. *)
Lemma process_sdu_ok e sdu junk : secured e -> configured e -> entity_suspended e = false ->
  Forall is_byte sdu -> zlen sdu + 7 <= zlen junk -> zlen sdu + 7 < 2 ^ 29 ->
  (has_ciphering e = true -> sdap_tx e < zlen sdu + integrity_size e) ->
  exists rest, nr_pdcp_entity_process_sdu e sdu junk
    = Ok (zlen (pdu_of e sdu), pdu_of e sdu ++ rest, sent e sdu).
Proof.
  intros Hs Hcf Hsus Hb Hroom Hbig Hcip. pose proof (hsize_range e). pose proof (isize_range e) as Hi.
  pose proof (sdap_tx_range e). pose proof (zlen_nonneg sdu).
  unfold nr_pdcp_entity_process_sdu. rewrite dev_assert_ok.
  2: { unfold nr_max_pdcp_pdu_size, LONG_PDCP_HEADER_SIZE, PDCP_INTEGRITY_SIZE. lia. }
  rewrite res_bind_unfold, Hsus. set (e1 := upd_stats (count_rxsdu (zlen sdu)) e). cbv zeta.
  match goal with |- context [upd_stats (count_txpdu _ _) ?x] => set (e2 := x) end.
  change (tx_next e1) with (tx_next e). change (sn_max e1) with (sn_max e).
  rewrite (cf_max e Hcf), land_mask by (destruct Hcf as [[->| ->] _ _]; done).
  change (write_header e1 _) with (header_of e). rewrite header_length.
  rewrite (zwrite_append [] (header_of e) junk) by (rewrite ?header_length; (done || lia)).
  rewrite res_bind_unfold. cbn [app].
  assert (Hr1 : zlen (drop (length (header_of e)) junk) = zlen junk - hsize e).
  { rewrite zlen_drop. rewrite <- header_length in *. unfold zlen in *. lia. }
  rewrite zwrite_append by (rewrite ?header_length; (done || lia)). rewrite res_bind_unfold.
  destruct (write_mac_ok e sdu (drop (length sdu) (drop (length (header_of e)) junk)))
    as (r3 & Hmac); [done..| |].
  { rewrite zlen_drop. unfold zlen in *. lia. }
  change (dir_tx e) with (if is_gnb e1 then 1 else 0) in Hmac.
  change (run_integrity e) with (run_integrity e1) in Hmac. change (rb_id e) with (rb_id e1) in Hmac.
  change (has_integrity e) with (has_integrity e1) in Hmac.
  change (integrity_size e) with (integrity_size e1) in Hmac. rewrite Hmac, res_bind_unfold.
  pose proof (clear_pdu_length e sdu Hs) as Hcl. pose proof (pdu_length e sdu Hs) as Hpl.
  change (integrity_size e1) with (integrity_size e). exists r3. unfold sent. rewrite Hpl.
  unfold pdu_of. change (has_ciphering e1) with (has_ciphering e).
  destruct (has_ciphering e) eqn:Hc; [|done].
  change (cipher_in_place e1) with (cipher_in_place e). change (rb_id e1) with (rb_id e).
  change (if has_sdap_tx e1 then 1 else 0) with (sdap_tx e).
  replace (zlen sdu + integrity_size e - sdap_tx e)
    with (zlen (clear_pdu e sdu) - (hsize e + sdap_tx e)) by lia.
  rewrite cipher_in_place_ok by (done || lia || apply (dir_tx_range e1)). done.
Qed.

(** ** The transfer *)

Lemma land_ff x : Z.land x 0xff = x mod 2 ^ 8.
Proof. change 0xff with (Z.ones 8). by rewrite Z.land_ones. Qed.

Lemma short_sn n : 0 <= n < 2 ^ 12 ->
  Z.lor (Z.shiftl (Z.land (Z.land (Z.shiftr n 8) 0xf) 0xf) 8) (Z.land n 0xff) = n.
Proof.
  intros Hn. rewrite land_ff. change 0xf with (Z.ones 4). rewrite !Z.land_ones, Z.mod_mod by done.
  rewrite Z.shiftr_div_pow2, Z.shiftl_mul_pow2 by done.
  assert (0 <= n / 2 ^ 8 < 2 ^ 4) by (change (2 ^ 8) with 256; zmod). rewrite Z.mod_small by done.
  rewrite lor_split by (done || by apply Z.mod_pos_bound).
  pose proof (Z.div_mod n (2 ^ 8)). lia.
Qed.

Lemma long_sn n : 0 <= n < 2 ^ 18 ->
  Z.lor (Z.lor (Z.shiftl (Z.land (Z.land (Z.shiftr n 16) 0x3) 0x3) 16)
    (Z.shiftl (Z.land (Z.shiftr n 8) 0xff) 8)) (Z.land n 0xff) = n.
Proof.
  intros Hn. rewrite !land_ff. change 0x3 with (Z.ones 2). rewrite !Z.land_ones, Z.mod_mod by done.
  rewrite !Z.shiftr_div_pow2, !Z.shiftl_mul_pow2 by done.
  assert (0 <= n / 2 ^ 16 < 2 ^ 2) by (change (2 ^ 16) with 65536; zmod). rewrite (Z.mod_small (n / 2 ^ 16)) by done.
  pose proof (Z.mod_pos_bound (n / 2 ^ 8) (2 ^ 8)). pose proof (Z.mod_pos_bound n (2 ^ 8)).
  rewrite (lor_split _ 16) by lia.
  replace (n / 2 ^ 16 * 2 ^ 16 + (n / 2 ^ 8) mod 2 ^ 8 * 2 ^ 8)
    with ((n / 2 ^ 16 * 2 ^ 8 + (n / 2 ^ 8) mod 2 ^ 8) * 2 ^ 8) by lia.
  rewrite lor_split by lia. pose proof (Z.div_mod n (2 ^ 8)). pose proof (Z.div_mod (n / 2 ^ 8) (2 ^ 8)) as Hd.
  rewrite Z.div_div in Hd by done. change (2 ^ 8 * 2 ^ 8) with (2 ^ 16) in Hd. lia.
Qed.

(** Two ends of a bearer with the same configuration. *)
Record peers (s r : t) : Prop := {
  p_type : type r = type s;
  p_bearer : rb_id r = rb_id s;
  p_size : sn_size r = sn_size s;
  p_sdap : has_sdap_rx r = has_sdap_tx s;
  p_side : is_gnb r = negb (is_gnb s);
  p_ciphering : has_ciphering r = has_ciphering s;
  p_integrity : has_integrity r = has_integrity s;
  p_cipher : cipher r = cipher s;
  p_mac : integrity r = integrity s;
  p_key : ciphering_key (security_keys_and_algos r) = ciphering_key (security_keys_and_algos s)
}.

Section transfer.
Variables (s r : t).
Hypotheses (Hs : secured s) (Hcf : configured s) (Hp : peers s r).

Lemma peer_dir : dir r = dir_tx s.
Proof. unfold dir, dir_tx. rewrite (p_side s r Hp). by destruct (is_gnb s). Qed.

Lemma peer_hsize : hsize r = hsize s.
Proof. unfold hsize. by rewrite (p_size s r Hp). Qed.

Lemma peer_sdap : sdap r = sdap_tx s.
Proof. unfold sdap, sdap_tx. by rewrite (p_sdap s r Hp). Qed.

Lemma peer_srb : is_srb r = is_srb s.
Proof. unfold is_srb. by rewrite (p_type s r Hp). Qed.

Lemma peer_isize : integrity_size r = integrity_size s.
Proof. unfold integrity_size. by rewrite (p_integrity s r Hp), peer_srb. Qed.

Lemma peer_ciphered c d msg : ciphered r c d msg = ciphered s c d msg.
Proof. unfold ciphered. by rewrite (p_cipher s r Hp), (p_bearer s r Hp), (p_key s r Hp). Qed.

Lemma peer_mac c d msg : mac_of r c d msg = mac_of s c d msg.
Proof. unfold mac_of. by rewrite (p_mac s r Hp), (p_bearer s r Hp). Qed.

(** The PDU starts with its header, which is not ciphered. *)
Lemma pdu_header sdu : sdap_tx s <= zlen sdu + integrity_size s ->
  exists body, pdu_of s sdu = header_of s ++ body.
Proof.
  intros Hl. unfold pdu_of. destruct (has_ciphering s); [|by eexists].
  unfold clear_pdu. rewrite take_app_ge.
  - rewrite <- app_assoc. by eexists.
  - pose proof (header_length s). pose proof (sdap_tx_range s). unfold zlen in *. lia.
Qed.

Lemma marked_header body : marked r (header_of s ++ body) = header_of s ++ body.
Proof.
  unfold marked, header_of, write_header. rewrite peer_srb.
  destruct (sn_size s =? SHORT_SN_SIZE); cbn [app]; unfold dc_bit; destruct (is_srb s); try done;
    cbn [negb andb]; rewrite Z.land_lor_distr_l; change (Z.land 128 128) with 128.
  all: match goal with |- context [Z.lor 128 ?x =? 0] => destruct (Z.eqb_spec (Z.lor 128 x) 0) as [E|]; [|done] end.
  all: exfalso; apply (f_equal (fun z => Z.testbit z 7)) in E; rewrite Z.lor_spec in E; done.
Qed.

Lemma land_dc x m : Z.land 0x80 m = 0 -> Z.land (Z.lor (dc_bit s) x) m = Z.land x m.
Proof.
  intros Hm. rewrite Z.land_lor_distr_l. unfold dc_bit. destruct (is_srb s); [by rewrite Z.land_0_l|].
  by rewrite Hm.
Qed.

(** The SN is read back from the header. *)
Lemma sn_of_header body : sn_of r (header_of s ++ body) = tx_next s mod 2 ^ sn_size s.
Proof.
  unfold sn_of, header_of, write_header. rewrite (p_size s r Hp).
  destruct (cf_size s Hcf) as [E|E]; rewrite E.
  - change (SHORT_SN_SIZE =? SHORT_SN_SIZE) with true. cbn [app nth]. rewrite land_dc by done.
    apply short_sn. by apply Z.mod_pos_bound.
  - change (LONG_SN_SIZE =? SHORT_SN_SIZE) with false. cbn [app nth]. rewrite land_dc by done.
    apply long_sn. by apply Z.mod_pos_bound.
Qed.

Variable sdu : list Z.
Hypothesis Hlen : sdap_tx s < zlen sdu.

(** Deciphering gives the PDU back. *)
Lemma plain_pdu : plain r (tx_next s) (pdu_of s sdu) = clear_pdu s sdu.
Proof.
  unfold plain, pdu_of. rewrite (p_ciphering s r Hp), peer_hsize, peer_sdap, peer_dir.
  destruct (has_ciphering s); [|done]. set (n := Z.to_nat (hsize s + sdap_tx s)).
  assert (Hn : length (take n (clear_pdu s sdu)) = n).
  { rewrite length_take. pose proof (clear_pdu_length s sdu Hs). pose proof (isize_range s).
    pose proof (hsize_range s). pose proof (sdap_tx_range s). unfold n, zlen in *. lia. }
  rewrite (take_app_length' _ _ n), (drop_app_length' _ _ n) by done.
  by rewrite peer_ciphered, ciphered_involutive, take_drop.
Qed.

(** The MAC-I is accepted. *)
Lemma authentic_pdu : authentic r (tx_next s) (clear_pdu s sdu) = true.
Proof.
  unfold authentic. rewrite (p_integrity s r Hp). destruct (has_integrity s) eqn:Hi; [|done].
  rewrite clear_pdu_length, (isize_integrity s Hi), peer_dir by done.
  unfold clear_pdu. rewrite app_assoc.
  assert (Hn : Z.to_nat (hsize s + zlen sdu + 4 - 4) = length (header_of s ++ sdu)).
  { rewrite <- header_length, length_app. unfold zlen. lia. }
  rewrite Hn, take_app_length, drop_app_length. apply bool_decide_eq_true.
  unfold mac_i. by rewrite Hi, peer_mac.
Qed.

(** The bytes of the SDU. *)
Lemma sdu_of_pdu : PdcpSdu.buffer (sdu_of r (tx_next s) (pdu_of s sdu)) = sdu.
Proof.
  unfold sdu_of; cbn [PdcpSdu.nr_pdcp_new_sdu PdcpSdu.buffer].
  rewrite plain_pdu, pdu_length, peer_hsize, peer_isize by done. unfold clear_pdu.
  assert (Hh : Z.to_nat (hsize s) = length (header_of s)).
  { rewrite <- header_length. unfold zlen. lia. }
  rewrite Hh, drop_app_length. rewrite take_app_length'; [done|]. unfold zlen. lia.
Qed.

(** A PDU in the window that the peer has not seen is accepted with its COUNT. *)
Lemma transfer_accepted : configured r -> count_range (rx_deliv r) -> count_range (tx_next s) ->
  rx_deliv r <= tx_next s < rx_deliv r + window_size r ->
  PdcpSdu.nr_pdcp_sdu_in_list (rx_list r) (tx_next s) = false ->
  accepted r (pdu_of s sdu) /\ pdu_count r (pdu_of s sdu) = tx_next s /\
  marked r (pdu_of s sdu) = pdu_of s sdu.
Proof.
  intros Hcr Hd Hc Hw Hf. pose proof (isize_range s) as Hi.
  destruct (pdu_header sdu) as [body Eb]; [lia|].
  assert (Hm : marked r (pdu_of s sdu) = pdu_of s sdu) by (rewrite Eb; apply marked_header).
  assert (Ecount : pdu_count r (pdu_of s sdu) = tx_next s).
  { unfold pdu_count, seq_number. rewrite Hm, Eb, sn_of_header, <- (p_size s r Hp).
    apply count_of_sn_ok; [done|done|done|]. destruct (window_double r Hcr). lia. }
  split; [|done]. unfold accepted. cbv zeta. rewrite Ecount, Hm, plain_pdu, authentic_pdu.
  rewrite pdu_length, peer_hsize, peer_sdap, peer_isize by done. split_and!; [lia|done|lia|done].
Qed.

(** The RRC check of a message that was received before integrity was active:
    [r0] kept the MAC-I, [r] has the keys. *)
Lemma check_integrity_ok r0 : secured r -> Forall is_byte sdu -> zlen sdu + 7 < 2 ^ 29 ->
  has_integrity s = true -> has_ciphering s = false -> is_srb r0 = true -> sn_size r0 = sn_size s ->
  nr_pdcp_entity_check_integrity r sdu (kept_integrity r0 (tx_next s) (pdu_of s sdu)) = Ok true.
Proof.
  intros Hsr Hb Hbig Hi Hc H0 Hn. unfold nr_pdcp_entity_check_integrity, kept_integrity.
  rewrite (p_integrity s r Hp), Hi, H0, orb_true_r.
  cbn [negb IntegrityData.header IntegrityData.header_size IntegrityData.count IntegrityData.mac].
  assert (Hh : hsize r0 = hsize s) by (unfold hsize; by rewrite Hn). rewrite Hh.
  pose proof (hsize_range s). pose proof (zlen_nonneg sdu). rewrite pdu_length by done.
  rewrite (isize_integrity s Hi). unfold pdu_of. rewrite Hc. unfold clear_pdu.
  assert (Hhl : Z.to_nat (hsize s) = length (header_of s)).
  { rewrite <- header_length. unfold zlen. lia. }
  assert (Hml : length (mac_i s sdu) = 4%nat).
  { pose proof (mac_i_length s sdu Hs) as Hm. rewrite (isize_integrity s Hi) in Hm. unfold zlen in Hm. lia. }
  rewrite Hhl, take_app_length, slice_prefix by (by rewrite header_length).
  rewrite res_bind_unfold. change (if is_gnb r then 0 else 1) with (dir r).
  rewrite run_integrity_ok; [|done|by rewrite (p_integrity s r Hp)| | |apply dir_range].
  - rewrite res_bind_unfold, app_assoc.
    replace (Z.to_nat _) with (length (header_of s ++ sdu))
      by (rewrite length_app, <- Hhl; unfold zlen; lia).
    rewrite drop_app_length, take_ge by lia. unfold mac_i. rewrite Hi, peer_dir, peer_mac.
    unfold mret, res_ret. f_equal. by apply bool_decide_eq_true.
  - apply Forall_app. split; [apply header_bytes|done].
  - rewrite zlen_app, header_length. lia.
Qed.

End transfer.
End tx.
End PdcpTx.
