(* ===== verification/PdcpRun.v ===== *)
(** * PDCP: the life of an entity

    The invariant of a whole entity, kept by every call of its interface, and the
    order of what it delivers over a run of calls. *)

From S2P Require Import Prelude Snow3g Snow3gSpec Snow3gMac Secu PdcpSdu PdcpEntity.
From S2P Require Import PdcpSecurity PdcpRx PdcpRecv PdcpTx.

Module PdcpRun.
Import Secu Pdcp PdcpSecurity PdcpRx PdcpRecv PdcpTx.

Record inv (e : t) : Prop := {
  inv_rx : rx_wf e;
  inv_sec : secured e;
  inv_tx : count_range (tx_next e)
}.

Lemma received_sec e e' : secured e -> received e e' -> secured e'.
Proof. intros [H1 H2 H3 H4 H5] (a1 & a2 & a3 & a4 & a5 & a6 & a7 & ->). by split. Qed.

Lemma received_tx e e' : received e e' -> tx_next e' = tx_next e.
Proof. by intros (a1 & a2 & a3 & a4 & a5 & a6 & a7 & ->). Qed.

Lemma received_refl e : received e e.
Proof. destruct e. by repeat eexists. Qed.

Lemma inv_received e e' : inv e -> received e e' -> rx_wf e' -> inv e'.
Proof.
  intros [H1 H2 H3] Hr Hw. split; [done|by apply (received_sec e)|]. by rewrite (received_tx e e' Hr).
Qed.

Lemma rekeyed_rx e e' : rekeyed e e' -> rx_wf e -> rx_wf e'.
Proof.
  intros (hc & hi & k & c & i & ->) [[[H1 H2 H3] H4 H5 H6 H7 H8] H9].
  by split; [split; [split|..]|].
Qed.

(** The same entity, set back to the first COUNT, suspended or not. *)
Definition restarted (e : t) (l : list PdcpSdu.t) (e' : t) : Prop :=
  exists ts sz st b, ts = 0 /\
    e' = {| e with tx_next := 0; rx_next := 0; rx_deliv := 0; t_reordering_start := ts;
                   rx_list := l; rx_size := sz; stats := st; entity_suspended := b |}.

Lemma restarted_inv e l e' : inv e -> restarted e l e' -> l = rx_list e \/ l = [] -> inv e'.
Proof.
  intros [[[[H1 H2 H3] H4 H5 H6 H7 H8] H9] [S1 S2 S3 S4 S5] _] (ts & sz & st & b & -> & ->) Hl.
  assert (Hs : PdcpSdu.sorted l) by (destruct Hl as [->| ->]; [done|constructor]).
  assert (Ha : Forall (fun s => 0 < PdcpSdu.count s < 2 ^ 32) l).
  { destruct Hl as [->| ->]; [|done]. eapply Forall_impl; [exact H8|]. unfold count_range in H5. simpl. lia. }
  split; [|by split|done]. split; [|done]. by split; [split|..].
Qed.

Section run.
Context `{P : Platform} `{L : !PlatformLaws P}.

(** ** Calls *)

Inductive call :=
| RecvPdu (buffer : list Z)
| ProcessSdu (sdu pdu_buffer : list Z)
| SetTime (now : Z)
| SetSecurity (p : security_t)
| Suspend
| Reestablish (p : security_t)
| Release.

(** A call gives the new entity and the SDUs it delivered. *)
Definition exec (e : t) (c : call) : res (t * list PdcpSdu.t) :=
  match c with
  | RecvPdu buffer => nr_pdcp_entity_recv_pdu e buffer
  | ProcessSdu sdu buf => '(_, _, e') ← nr_pdcp_entity_process_sdu e sdu buf; mret (e', [])
  | SetTime now => mret (nr_pdcp_entity_set_time e now)
  | SetSecurity p => e' ← nr_pdcp_entity_set_security e p; mret (e', [])
  | Suspend => mret (nr_pdcp_entity_suspend e)
  | Reestablish p => reestablish_entity e p
  | Release => mret (nr_pdcp_entity_release e)
  end.

(** What the callers guarantee: a received PDU holds a header; an SDU fits the
    buffer, and is longer than its SDAP header when it is ciphered. *)
Definition permitted (e : t) (c : call) : Prop :=
  match c with
  | RecvPdu buffer => Forall is_byte buffer /\ (zlen buffer = 0 \/ hsize e <= zlen buffer < 2 ^ 29)
  | ProcessSdu sdu buf => Forall is_byte sdu /\ zlen sdu + 7 <= zlen buf /\ zlen sdu + 7 < 2 ^ 29 /\
                          (has_ciphering e = true -> sdap_tx e < zlen sdu + integrity_size e)
  | SetSecurity p | Reestablish p => valid_parameters p
  | _ => True
  end.

(** The calls of the data path; the others start the numbering again. *)
Definition is_data (c : call) : bool :=
  match c with
  | RecvPdu _ | ProcessSdu _ _ | SetTime _ | SetSecurity _ => true
  | _ => false
  end.

(** Delivery in order from [e] to [e'], unless the last COUNT was reached. *)
Definition ordered (e : t) (out : list PdcpSdu.t) (e' : t) : Prop :=
  Exists (fun s => PdcpSdu.count s = 2 ^ 32 - 1) out \/
  (PdcpSdu.sorted out /\ rx_deliv e <= rx_deliv e' /\
   Forall (fun s => rx_deliv e <= PdcpSdu.count s < rx_deliv e') out).

Lemma in_order_ordered e out e' : in_order e out e' -> ordered e out e'.
Proof.
  intros [Hs Hf [[Hd Hu]|Hx]]; [right|by left]. split_and!; [done|done|].
  apply Forall_forall. intros s Hin. rewrite Forall_forall in Hf, Hu. split; [by apply Hf|by apply Hu].
Qed.

Lemma ordered_nil e e' : rx_deliv e' = rx_deliv e -> ordered e [] e'.
Proof. intros. right. split_and!; [constructor|lia|done]. Qed.

Lemma ordered_trans e o1 e1 o2 e2 : ordered e o1 e1 -> ordered e1 o2 e2 -> ordered e (o1 ++ o2) e2.
Proof.
  intros [H1|(S1 & D1 & F1)] H2; [left; apply Exists_app; by left|].
  destruct H2 as [H2|(S2 & D2 & F2)]; [left; apply Exists_app; by right|]. right.
  rewrite Forall_forall in F1, F2. split_and!; [|lia|].
  - apply PdcpSdu.sorted_app. split_and!; [done..|]. intros a b Ha Hb.
    specialize (F1 a Ha). specialize (F2 b Hb). unfold PdcpSdu.before. lia.
  - apply Forall_forall. intros s [Hs|Hs]%elem_of_app; [specialize (F1 s Hs)|specialize (F2 s Hs)]; lia.
Qed.

Lemma pdcp_recv_ok e buffer : inv e -> permitted e (RecvPdu buffer) ->
  exists e' out, nr_pdcp_entity_recv_pdu e buffer = Ok (e', out) /\ inv e' /\ ordered e out e'.
Proof.
  intros Hi [Hb Hl]. destruct (entity_suspended e) eqn:Hsus.
  { exists e, []. split_and!; [|done|by apply ordered_nil]. unfold nr_pdcp_entity_recv_pdu. by rewrite Hsus. }
  destruct Hl as [Hz|Hl].
  { exists e, []. split_and!; [|done|by apply ordered_nil]. unfold nr_pdcp_entity_recv_pdu.
    by rewrite Hsus, Hz. }
  rewrite recv_pdu_eq by (done || apply Hi). destruct (reception e buffer) as [e' out] eqn:E.
  exists e', out. destruct (pdcp_reception_ok e buffer e' out) as (Hw & Hr & Ho & _); [apply Hi|done|done|].
  split_and!; [done|by apply (inv_received e)|by apply in_order_ordered].
Qed.

Lemma pdcp_set_time_ok e now : inv e ->
  exists e' out, nr_pdcp_entity_set_time e now = (e', out) /\ inv e' /\ ordered e out e'.
Proof.
  intros [[[[H1 H2 H3] H4 H5 H6 H7 H8] H9] [S1 S2 S3 S4 S5] Ht]. unfold nr_pdcp_entity_set_time.
  set (e1 := {| e with t_current := now |}).
  assert (Hw : rx_wf e1) by (by split; [split; [split|..]|]).
  assert (Hi1 : inv e1) by (split; [done|by split|done]).
  pose proof (check_t_reordering_in_order e1 Hw) as Ho.
  destruct (check_t_reordering e1) as [e' out] eqn:E. exists e', out. split; [done|].
  split; [|exact (in_order_ordered e1 out e' Ho)].
  destruct (expired e1) eqn:Hx.
  - destruct (check_t_reordering_ok e1 Hw Hx) as (e2 & o1 & o2 & E2 & Hw2 & Hr2 & _).
    rewrite E in E2. injection E2 as <- _. by apply (inv_received e1).
  - rewrite check_t_reordering_idle in E by done. by injection E as <- _.
Qed.

Lemma process_sdu_inv e sdu buf : inv e -> permitted e (ProcessSdu sdu buf) ->
  exists n b e', nr_pdcp_entity_process_sdu e sdu buf = Ok (n, b, e') /\ inv e' /\ rx_deliv e' = rx_deliv e.
Proof.
  intros Hi (Hb & Hr & Hbig & Hc). destruct (entity_suspended e) eqn:Hsus.
  { exists (-1), buf, e. split_and!; [|done|done]. unfold nr_pdcp_entity_process_sdu.
    rewrite dev_assert_ok, Hsus; [done|].
    unfold nr_max_pdcp_pdu_size, LONG_PDCP_HEADER_SIZE, PDCP_INTEGRITY_SIZE. lia. }
  destruct (process_sdu_ok e sdu buf) as (rest & ->); [apply Hi|apply Hi|done..|].
  eexists _, _, _. split; [reflexivity|]. split; [|done].
  destruct Hi as [[[[H1 H2 H3] H4 H5 H6 H7 H8] H9] [S1 S2 S3 S4 S5] Ht].
  split; [by split; [split; [split|..]|]|by split|by apply Z.mod_pos_bound].
Qed.

Lemma set_security_inv e p : inv e -> valid_parameters p ->
  exists e', nr_pdcp_entity_set_security e p = Ok e' /\ inv e' /\ rekeyed e e'.
Proof.
  intros [Hw Hs Ht] Hv. destruct (set_security_ok e p Hs Hv) as (e' & -> & Hs' & Hr).
  exists e'. split_and!; [done| |done]. split; [by apply (rekeyed_rx e)|done|].
  by destruct Hr as (? & ? & ? & ? & ? & ->).
Qed.

Lemma deliver_all_ok e : deliver_all_sdus e = (delivered (rx_list e) [] e, rx_list e).
Proof. by apply deliver_loop_ok. Qed.

Lemma count_dd_all l e : exists st,
  foldl (fun e cur => upd_stats (count_dd (PdcpSdu.size cur)) e) e l = {| e with stats := st |}.
Proof.
  revert e. induction l as [|x l IH]; intros e; [exists (stats e); by destruct e|].
  cbn [foldl]. destruct (IH (upd_stats (count_dd (PdcpSdu.size x)) e)) as [st ->]. by exists st.
Qed.

Lemma free_rx_list_ok e : exists st, free_rx_list e = {| e with rx_list := []; rx_size := 0; stats := st |}.
Proof. unfold free_rx_list. destruct (count_dd_all (rx_list e) e) as [st ->]. by exists st. Qed.

(** Suspension delivers what waits when the timer runs. *)
Lemma suspend_ok e : inv e -> exists e' out,
  nr_pdcp_entity_suspend e = (e', out) /\ inv e' /\ out ++ rx_list e' = rx_list e.
Proof.
  intros Hi. unfold nr_pdcp_entity_suspend. cbn [t_reordering_start].
  destruct (Z.eqb_spec (t_reordering_start e) 0) as [Hz|Hz]; cbn [negb].
  - eexists _, _. split; [reflexivity|]. split; [|done].
    eapply (restarted_inv e (rx_list e)); [done| |by left].
    eexists _, _, _, _. split; [exact Hz|reflexivity].
  - rewrite deliver_all_ok. eexists _, _. split; [reflexivity|]. split; [|by rewrite app_nil_r].
    eapply (restarted_inv e []); [done| |by right]. by repeat eexists.
Qed.

Lemma reestablish_ok e p : inv e -> valid_parameters p ->
  exists e' out, reestablish_entity e p = Ok (e', out) /\ inv e' /\ entity_suspended e' = false.
Proof.
  intros Hi Hv.
  assert (Hfin : forall e1 (out : list PdcpSdu.t), inv e1 -> exists e' out',
    (e2 ← nr_pdcp_entity_set_security e1 p; mret ({| e2 with entity_suspended := false |}, out))
    = Ok (e', out') /\ inv e' /\ entity_suspended e' = false).
  { intros e1 out Hi1. destruct (set_security_inv e1 p Hi1 Hv) as (e2 & -> & Hi2 & _).
    eexists _, _. split; [reflexivity|]. split; [|done].
    destruct Hi2 as [[[[H1 H2 H3] H4 H5 H6 H7 H8] H9] [S1 S2 S3 S4 S5] Ht].
    split; [by split; [split; [split|..]|]|by split|done]. }
  unfold reestablish_entity. destruct (type e).
  - by apply Hfin.
  - unfold nr_pdcp_entity_reestablish_drb_um. cbn [t_reordering_start].
    destruct (Z.eqb_spec (t_reordering_start e) 0) as [Hz|Hz]; cbn [negb].
    + apply Hfin. eapply (restarted_inv e (rx_list e)); [done|by repeat eexists|by left].
    + rewrite deliver_all_ok. apply Hfin. eapply (restarted_inv e []); [done|by repeat eexists|by right].
  - unfold nr_pdcp_entity_reestablish_srb.
    destruct (free_rx_list_ok ({| e with tx_next := 0 |})) as [st ->].
    apply Hfin. eapply (restarted_inv e []); [done|by repeat eexists|by right].
Qed.

Lemma release_ok e : inv e -> exists e', nr_pdcp_entity_release e = (e', rx_list e) /\ inv e' /\ rx_list e' = [].
Proof.
  intros Hi. unfold nr_pdcp_entity_release. rewrite deliver_all_ok. eexists. split; [reflexivity|].
  split; [|done]. eapply inv_received; [exact Hi|by repeat eexists|].
  destruct Hi as [[[[H1 H2 H3] H4 H5 H6 H7 H8] H9] _ _]. split; [|done].
  by split; [split|..|constructor|].
Qed.

(** Every permitted call returns and keeps the invariant. *)
Lemma pdcp_exec_ok e c : inv e -> permitted e c ->
  exists e' out, exec e c = Ok (e', out) /\ inv e' /\ (is_data c = true -> ordered e out e').
Proof.
  intros Hi Hp. destruct c as [buffer|sdu buf|now|p| |p|]; cbn [exec].
  - destruct (pdcp_recv_ok e buffer Hi Hp) as (e' & out & -> & Hi' & Ho). eauto.
  - destruct (process_sdu_inv e sdu buf Hi Hp) as (n & b & e' & -> & Hi' & Hd).
    exists e', []. split_and!; [done|done|]. intros _. by apply ordered_nil.
  - destruct (pdcp_set_time_ok e now Hi) as (e' & out & -> & Hi' & Ho). exists e', out. done.
  - destruct (set_security_inv e p Hi Hp) as (e' & -> & Hi' & Hr). exists e', [].
    split_and!; [done|done|]. intros _. apply ordered_nil. by destruct Hr as (? & ? & ? & ? & ? & ->).
  - destruct (suspend_ok e Hi) as (e' & out & -> & Hi' & _). exists e', out. done.
  - destruct (reestablish_ok e p Hi Hp) as (e' & out & -> & Hi' & _). exists e', out. done.
  - destruct (release_ok e Hi) as (e' & -> & Hi' & _). eexists e', _. done.
Qed.

(** Runs of permitted calls, with all that they delivered. *)
Inductive run : t -> list call -> t -> list PdcpSdu.t -> Prop :=
| run_nil e : run e [] e []
| run_cons e c e1 o1 cs e2 o2 :
    permitted e c -> exec e c = Ok (e1, o1) -> run e1 cs e2 o2 -> run e (c :: cs) e2 (o1 ++ o2).

Lemma run_ok e cs e' out : inv e -> run e cs e' out ->
  inv e' /\ (forallb is_data cs = true -> ordered e out e').
Proof.
  intros Hi Hr. induction Hr as [e|e c e1 o1 cs e2 o2 Hp E _ IH].
  - split; [done|]. intros _. by apply ordered_nil.
  - destruct (pdcp_exec_ok e c Hi Hp) as (e1' & o1' & E' & Hi1 & Ho1). rewrite E in E'. injection E' as <- <-.
    destruct (IH Hi1) as [Hi2 Ho2]. split; [done|]. simpl. intros [Hc Hcs]%andb_prop.
    apply (ordered_trans _ o1 e1); auto.
Qed.

(** ** The COUNT interface *)

(** A COUNT that is set is read back. *)
Lemma compose_count_ok n c : 0 < n < 32 -> 0 <= sn c < 2 ^ n -> 0 <= hfn c < 2 ^ (32 - n) ->
  count_range (compose_count c n) /\
  Z.shiftr (compose_count c n) n = hfn c /\ compose_count c n mod 2 ^ n = sn c.
Proof.
  intros Hn Hs Hh. unfold compose_count. rewrite Z.shiftl_1_l, land_mask, Z.mod_small by lia.
  assert (Hpow : 2 ^ 32 = 2 ^ (32 - n) * 2 ^ n) by (rewrite <- Z.pow_add_r by lia; f_equal; lia).
  rewrite compose by nia. unfold count_range. rewrite Z.shiftr_div_pow2 by lia. split_and!; [nia|nia| |].
  - rewrite Z.div_add_l, Z.div_small by lia. lia.
  - rewrite Z.add_comm, Z.mod_add, Z.mod_small by lia. done.
Qed.

(** ** Construction *)

Lemma new_ok ty gnb rb pdu srx stx n tr dt p :
  n = SHORT_SN_SIZE \/ n = LONG_SN_SIZE -> 1 <= rb < 32 -> valid_parameters p ->
  exists e, new_nr_pdcp_entity ty gnb rb pdu srx stx n tr dt p = Ok e /\ inv e /\
    rx_list e = [] /\ rx_deliv e = 0 /\ tx_next e = 0 /\ entity_suspended e = false.
Proof.
  intros Hn Hrb Hv. unfold new_nr_pdcp_entity.
  match goal with |- context [nr_pdcp_entity_set_security ?x p] => set (e0 := x) end.
  assert (Hk0 : is_key (replicate 16 0)) by (split; [done|]; by repeat constructor).
  assert (Hi0 : inv e0).
  { split; [|by split|done]. split; [|done]. split; [|done..|constructor|constructor].
    split; cbn [e0 sn_size sn_max window_size]; [done|..];
      destruct Hn as [->| ->]; reflexivity. }
  destruct (set_security_inv e0 p Hi0 Hv) as (e & -> & Hi & Hr). exists e.
  destruct Hr as (? & ? & ? & ? & ? & ->). done.
Qed.

End run.
End PdcpRun.

(** * PDCP: a sender and a receiver

    One SDU from a transmitting entity to the peer entity, and two entities that stay
    in step: the receiver has delivered everything the transmitter has sent. *)
Module PdcpLink.
Import Secu Pdcp PdcpSecurity PdcpRx PdcpRecv PdcpTx PdcpRun.

Section link.
Context `{P : Platform} `{L : !PlatformLaws P}.

Lemma transfer_ok s r sdu pdu_buffer :
  inv s -> inv r -> peers s r -> entity_suspended s = false -> entity_suspended r = false ->
  Forall is_byte sdu -> zlen sdu + 7 <= zlen pdu_buffer -> zlen sdu + 7 < 2 ^ 29 ->
  sdap_tx s < zlen sdu ->
  rx_deliv r <= tx_next s < rx_deliv r + window_size r ->
  PdcpSdu.nr_pdcp_sdu_in_list (rx_list r) (tx_next s) = false ->
  exists n buf s' r' out x,
    nr_pdcp_entity_process_sdu s sdu pdu_buffer = Ok (n, buf, s') /\
    nr_pdcp_entity_recv_pdu r (take (Z.to_nat n) buf) = Ok (r', out) /\ inv s' /\ inv r' /\
    PdcpSdu.count x = tx_next s /\ PdcpSdu.buffer x = sdu /\
    out ++ rx_list r' = PdcpSdu.nr_pdcp_sdu_list_add (rx_list r) x /\
    (tx_next s = rx_deliv r -> x ∈ out).
Proof.
  intros Hs Hr Hp Hss Hsr Hb Hroom Hbig Hsdap Hw Hf. pose proof (isize_range s) as His.
  assert (Hcip : has_ciphering s = true -> sdap_tx s < zlen sdu + integrity_size s) by lia.
  destruct (process_sdu_ok s sdu pdu_buffer) as (rest & E); [apply Hs|apply Hs|done..|].
  destruct (process_sdu_inv s sdu pdu_buffer Hs) as (n & b & s' & E' & Hi' & _); [done|].
  rewrite E in E'. injection E' as <- <- <-.
  destruct (transfer_accepted s r (inv_sec s Hs) (rx_cf s (rx_ok s (inv_rx s Hs))) Hp sdu Hsdap)
    as (Hacc & Ecount & Emark); [apply Hr|apply Hr|apply Hs|done|done|].
  assert (Hpb : Forall is_byte (pdu_of s sdu)) by (by apply pdu_bytes).
  pose proof (pdu_length s sdu (inv_sec s Hs)) as Hpl. pose proof (hsize_range s).
  pose proof (peer_hsize s r Hp) as Hph. pose proof (zlen_nonneg sdu).
  destruct (reception r (pdu_of s sdu)) as [r' out] eqn:Er.
  destruct (pdcp_reception_ok r (pdu_of s sdu) r' out) as (Hwr & Hrec & _ & Hout); [apply Hr|done|done|].
  destruct Hout as [[Hna _]|(_ & El & Hseq & Hd)]; [done|]. rewrite Ecount, Emark in El.
  eexists _, _, _, r', out, (sdu_of r (tx_next s) (pdu_of s sdu)). split; [exact E|].
  replace (take _ _) with (pdu_of s sdu) by (unfold zlen; by rewrite Nat2Z.id, take_app_length).
  split; [rewrite recv_pdu_eq, Er; [done|apply Hr|done|done|lia]|].
  split_and!; [done|by apply (inv_received r)|done| |exact El|].
  - apply (sdu_of_pdu s r); [apply Hs|done|done].
  - intros Heq. apply (due_delivered r r'); [apply Hr|done..].
Qed.

(** The receiver waits for the next COUNT of the transmitter and holds no SDU. *)
Record synced (s r : t) : Prop := {
  sy_s : inv s;
  sy_r : inv r;
  sy_peers : peers s r;
  sy_s_active : entity_suspended s = false;
  sy_r_active : entity_suspended r = false;
  sy_next : tx_next s = rx_deliv r;
  sy_empty : rx_list r = []
}.

Lemma singleton_out {A} (x : A) out rest : out ++ rest = [x] -> x ∈ out -> out = [x] /\ rest = [].
Proof.
  destruct out as [|y out]; [set_solver|]. intros E _. injection E as -> E.
  by apply app_eq_nil in E as [-> ->].
Qed.

Lemma peers_step s r sdu r' : peers s r -> received r r' -> peers (sent s sdu) r'.
Proof. intros [] (a1 & a2 & a3 & a4 & a5 & a6 & a7 & ->). by split. Qed.

(** One SDU between entities in step: it is delivered at once, and they stay in step. *)
Lemma synced_step s r sdu junk : synced s r ->
  Forall is_byte sdu -> zlen sdu + 7 <= zlen junk -> zlen sdu + 7 < 2 ^ 29 -> sdap_tx s < zlen sdu ->
  exists rest r' x,
    nr_pdcp_entity_process_sdu s sdu junk = Ok (zlen (pdu_of s sdu), pdu_of s sdu ++ rest, sent s sdu) /\
    nr_pdcp_entity_recv_pdu r (pdu_of s sdu) = Ok (r', [x]) /\
    PdcpSdu.buffer x = sdu /\ synced (sent s sdu) r' /\ received r r'.
Proof.
  intros [Hs Hr Hp Hss Hsr Hn He] Hb Hroom Hbig Hsdap. pose proof (isize_range s) as His.
  destruct (process_sdu_ok s sdu junk) as (rest & E); [apply Hs|apply Hs|done|done|done|done|intros; lia|].
  destruct (process_sdu_inv s sdu junk Hs) as (n & b & s' & E' & Hi' & _);
    [split_and!; [done|done|done|intros; lia]|].
  rewrite E in E'. injection E' as <- <- <-.
  destruct (transfer_accepted s r (inv_sec s Hs) (rx_cf s (rx_ok s (inv_rx s Hs))) Hp sdu Hsdap)
    as (Hacc & Ecount & Emark); [apply Hr|apply Hr|apply Hs| |by rewrite He|].
  { rewrite Hn. pose proof (rx_cf r (rx_ok r (inv_rx r Hr))) as [[Hz|Hz] _ ->]; rewrite Hz;
      (split; [lia|by apply Z.lt_add_pos_r]). }
  assert (Hpb : Forall is_byte (pdu_of s sdu)) by (by apply pdu_bytes).
  pose proof (pdu_length s sdu (inv_sec s Hs)) as Hpl. pose proof (hsize_range s).
  pose proof (peer_hsize s r Hp) as Hph. pose proof (zlen_nonneg sdu).
  destruct (reception r (pdu_of s sdu)) as [r' out] eqn:Er.
  destruct (pdcp_reception_ok r (pdu_of s sdu) r' out) as (Hwr & Hrec & _ & Hout); [apply Hr|done|done|].
  destruct Hout as [[Hna _]|(_ & El & Hseq & Hd)]; [done|]. rewrite Ecount, Emark in El.
  set (x := sdu_of r (tx_next s) (pdu_of s sdu)) in *.
  assert (Hin : x ∈ out) by (apply (due_delivered r r'); [apply Hr|done|by rewrite He|done..]).
  rewrite He in El. destruct (singleton_out x out (rx_list r') El Hin) as [-> Hempty].
  exists rest, r', x. split; [done|].
  split; [rewrite recv_pdu_eq, Er; [done|apply Hr|done|done|lia]|].
  split; [by apply (sdu_of_pdu s r); [apply Hs|..]|]. split; [|done]. split.
  - done.
  - by apply (inv_received r).
  - by apply (peers_step s r).
  - done.
  - by destruct Hrec as (a1 & a2 & a3 & a4 & a5 & a6 & a7 & ->).
  - rewrite Hd, <- Hn. done.
  - done.
Qed.
End link.
End PdcpLink.
