(* ===== verification/UserPlane.v ===== *)
(** * The user plane: SDAP over PDCP, from end to end

    The data path of two nodes: an IP packet enters SDAP on one side
    ([sdap_tun_read_thread] on the UE, [sdap_data_req] on the gNB), crosses PDCP, and
    leaves SDAP on the other side (to GTP-U on the gNB, to the TUN interface on the
    UE).  Between the two PDCP layers each PDU given to RLC reaches
    [do_pdcp_data_ind] of the peer, in order: what RLC in acknowledged mode promises. *)

From S2P Require Import Prelude Snow3g Snow3gMac Hashtable F1apIds Secu PdcpSdu Events.
From S2P Require Import Sdap SdapSpec PdcpEntity PdcpUe PdcpUeSpec.
From S2P Require Import PdcpSecurity PdcpRx PdcpRecv PdcpTx PdcpRun.

Module UserPlane.
Import Secu Events PdcpUe PdcpUeSpec PdcpTx PdcpLink.

(** ** SDAP over any PDCP *)

Section sdap_data.
Context {S : Type} `{A : Sdap.PdcpApi S}.
Import Sdap SdapSpec.

(** The header a packet gets on the way out, from the role of its rule. *)
Definition tx_header (r : qfi2drb_t) (q : Z) (rqi : bool) : list Z :=
  if has_role (entity_role r) SDAP_DL_TX then [hdr_byte q (b2z rqi) 0]
  else if has_role (entity_role r) SDAP_UL_TX then [hdr_byte q 0 (b2z rqi)]
  else [].

(** A packet of a mapped QoS flow goes to the DRB of the flow, behind its header. *)
Lemma tx_entity_ok s e ctxt fl mui sdu q rqi : wf e -> 0 <= q < SDAP_MAX_QFI -> drb_of e q <> 0 ->
  0 < zlen sdu <= 8999 ->
  nr_sdap_tx_entity s e ctxt fl mui (Some sdu) q rqi =
  pdcp_data_req_drb s ctxt fl (drb_of e q) mui (tx_header (rule e q) q rqi ++ sdu).
Proof.
  intros Hw Hq Hd Hs. unfold nr_sdap_tx_entity, tx_header.
  rewrite qfi2drb_ok, res_bind_unfold by done. unfold SDAP_MAP_RULE_EMPTY.
  destruct (Z.eqb_spec (drb_of e q) 0); [done|]. rewrite rule_get, res_bind_unfold by done.
  cbv zeta. destruct (has_role (entity_role (rule e q)) SDAP_DL_TX) eqn:Edl,
    (has_role (entity_role (rule e q)) SDAP_UL_TX) eqn:Eul; cbn [negb andb app]; try done.
  all: destruct (Z.eqb_spec (zlen sdu) 0), (Z.gtb_spec (zlen sdu) 8999); cbn; try done; lia.
Qed.

(** The gNB strips the header of an uplink PDU and gives the packet to GTP-U. *)
Lemma rx_entity_gnb s e drb q ps ue h sdu : wf e -> 0 <= q < SDAP_MAX_QFI ->
  has_role (entity_role (rule e q)) SDAP_UL_RX = true ->
  nr_sdap_rx_entity s e drb true true q ps ue (h :: sdu) = Ok (s, e, [GtpuSend ue ps sdu]).
Proof.
  intros Hw Hq Hr. unfold nr_sdap_rx_entity. cbv zeta.
  destruct (Z.ltb_spec q SDAP_MAX_QFI); [|lia]. rewrite rule_get, res_bind_unfold, Hr by done.
  rewrite zlen_cons. pose proof (zlen_nonneg sdu). destruct (Z.gtb_spec (1 + zlen sdu) 0); [|lia].
  cbn [andb head of_option]. rewrite !res_bind_unfold, ?res_ret_bind. unfold SDAP_HDR_LENGTH.
  by rewrite zslice_tail.
Qed.

(** The UE strips the header of a downlink PDU without reflective mapping and writes
    the packet to the TUN interface. *)
Lemma rx_entity_ue s e drb b q ps ue h sdu : wf e -> 0 <= q < SDAP_MAX_QFI ->
  has_role (entity_role (rule e q)) SDAP_DL_RX = true -> hdr_bit7 h = 0 ->
  nr_sdap_rx_entity s e drb false b q ps ue (h :: sdu) = Ok (s, e, [TunWrite (pdusession_sock e) sdu]).
Proof.
  intros Hw Hq Hr Hh. unfold nr_sdap_rx_entity. cbv zeta.
  destruct (Z.ltb_spec q SDAP_MAX_QFI); [|lia]. rewrite rule_get, res_bind_unfold, Hr by done.
  cbn [andb]. rewrite (proj2 (zget_ok (h :: sdu) 0 h)), res_bind_unfold by done. rewrite Hh. cbn [Z.eqb].
  rewrite ?res_ret_bind, zlen_cons. pose proof (zlen_nonneg sdu). unfold SDAP_HDR_LENGTH, SDAP_REFLECTIVE_MAPPING.
  cbn [Z.eqb]. rewrite ?res_ret_bind. by rewrite zslice_tail.
Qed.
End sdap_data.

(** ** PDCP through the tables *)

Section pdcp_path.
Context `{P : Platform} `{L : !PlatformLaws P}.

(** The entities of one DRB, on both sides. *)
Record path (ms mr : manager) (ids idr drb : Z) (s r : Pdcp.t) : Prop := {
  pa_ms : PdcpUeSpec.wf ms;
  pa_mr : PdcpUeSpec.wf mr;
  pa_s : bearer ms ids false drb = Some s;
  pa_r : bearer mr idr false drb = Some r;
  pa_sync : synced s r
}.

(** The receiving entity's function, as [do_pdcp_data_ind] calls it. *)
Definition receive (pdu : list Z) (e : Pdcp.t) : res (Pdcp.t * option (Pdcp.t * list PdcpSdu.t)) :=
  '(e', out) ← Pdcp.nr_pdcp_entity_recv_pdu e pdu; mret (e', Some (e', out)).

(** A node that can send on a DRB. *)
Record sender (m : manager) (id drb : Z) (s : Pdcp.t) : Prop := {
  sd_wf : PdcpUeSpec.wf m;
  sd_entity : bearer m id false drb = Some s;
  sd_inv : PdcpRun.inv s;
  sd_active : Pdcp.entity_suspended s = false
}.

Lemma send_step m id drb s sdu : sender m id drb s ->
  Forall is_byte sdu -> zlen sdu + 7 < 2 ^ 29 -> PdcpTx.sdap_tx s < zlen sdu -> exists m',
  with_rb m id drb false None (process_drb sdu) = Ok (m', Some (PdcpTx.pdu_of s sdu, Pdcp.is_gnb s)) /\
  sender m' id drb (PdcpTx.sent s sdu).
Proof.
  intros [Hm Hs Hi Ha] Hb Hbig Hsd. pose proof (PdcpRecv.isize_range s) as His.
  set (junk := replicate (Z.to_nat (Pdcp.nr_max_pdcp_pdu_size (zlen sdu))) 0).
  assert (Hlen : zlen sdu + 7 <= zlen junk).
  { unfold junk, zlen at 2. rewrite length_replicate. pose proof (zlen_nonneg sdu).
    unfold Pdcp.nr_max_pdcp_pdu_size, Pdcp.LONG_PDCP_HEADER_SIZE, Pdcp.PDCP_INTEGRITY_SIZE. lia. }
  destruct (process_sdu_ok s sdu junk) as (rest & E); [apply Hi|apply Hi|done|done|done|done|intros; lia|].
  destruct (PdcpRun.process_sdu_inv s sdu junk Hi) as (n & b & s' & E' & Hi' & _);
    [split_and!; [done|done|done|intros; lia]|].
  rewrite E in E'. injection E' as <- <- <-.
  assert (Epr : process_drb sdu s
                = Ok (PdcpTx.sent s sdu, Some (PdcpTx.pdu_of s sdu, Pdcp.is_gnb s))).
  { unfold process_drb, process. fold junk. rewrite E, !res_bind_unfold.
    destruct (Z.eqb_spec (zlen (PdcpTx.pdu_of s sdu)) (-1)) as [En|_];
      [pose proof (zlen_nonneg (PdcpTx.pdu_of s sdu)); lia|].
    unfold zlen. by rewrite Nat2Z.id, take_app_length. }
  pose proof (with_rb_ok m id drb false None (process_drb sdu) Hm) as H1. rewrite Hs, Epr in H1.
  destruct H1 as (m' & E1 & Hm' & Hc1). exists m'. split; [done|]. split; [done| |done|done].
  by rewrite Hc1, decide_True.
Qed.

(** The receiver of the next PDU of [s]. *)
Lemma recv_step m id drb s r sdu : PdcpUeSpec.wf m -> bearer m id false drb = Some r -> synced s r ->
  Forall is_byte sdu -> zlen sdu + 7 < 2 ^ 29 -> PdcpTx.sdap_tx s < zlen sdu -> exists m' r' x,
  with_rb m id drb false None (receive (PdcpTx.pdu_of s sdu)) = Ok (m', Some (r', [x])) /\
  PdcpSdu.buffer x = sdu /\ PdcpRx.received r r' /\ PdcpUeSpec.wf m' /\ bearer m' id false drb = Some r' /\
  synced (PdcpTx.sent s sdu) r'.
Proof.
  intros Hm Hr Hsy Hb Hbig Hsd.
  destruct (synced_step s r sdu (replicate (Z.to_nat (zlen sdu + 7)) 0) Hsy Hb)
    as (rest & r' & x & _ & Er & Ex & Hsy' & Hrec); [unfold zlen at 2; rewrite length_replicate; lia|done|done|].
  pose proof (with_rb_ok m id drb false None (receive (PdcpTx.pdu_of s sdu)) Hm) as H2.
  unfold receive in H2 at 1. rewrite Hr, Er in H2. destruct H2 as (m' & E2 & Hm' & Hc2).
  exists m', r', x. split_and!; try done. by rewrite Hc2, decide_True.
Qed.

Lemma path_sender ms mr ids idr drb s r : path ms mr ids idr drb s r -> sender ms ids drb s.
Proof. intros [H1 _ H3 _ H5]. by split; [| |apply H5|apply H5]. Qed.

Lemma path_step ms mr ids idr drb s r sdu : path ms mr ids idr drb s r ->
  Forall is_byte sdu -> zlen sdu + 7 < 2 ^ 29 -> PdcpTx.sdap_tx s < zlen sdu ->
  exists ms' mr' r' x,
    with_rb ms ids drb false None (process_drb sdu)
      = Ok (ms', Some (PdcpTx.pdu_of s sdu, Pdcp.is_gnb s)) /\
    with_rb mr idr drb false None (receive (PdcpTx.pdu_of s sdu)) = Ok (mr', Some (r', [x])) /\
    PdcpSdu.buffer x = sdu /\ PdcpRx.received r r' /\ path ms' mr' ids idr drb (PdcpTx.sent s sdu) r'.
Proof.
  intros Hp Hb Hbig Hsd.
  destruct (send_step ms ids drb s sdu (path_sender _ _ _ _ _ _ _ Hp) Hb Hbig Hsd) as (ms' & E1 & [W1 B1 _ _]).
  destruct (recv_step mr idr drb s r sdu) as (mr' & r' & x & E2 & Ex & Hrec & W2 & B2 & Hsy);
    [apply Hp|apply Hp|apply Hp|done|done|done|].
  exists ms', mr', r', x. by split_and!.
Qed.

(** ** Two nodes *)

(** Each PDU that one side gives to RLC reaches PDCP of the other side. *)
Definition hop (nd : pdcp_node) (ctxt : protocol_ctxt_t) (we : world * list event) (e : event)
    : res (world * list event) :=
  let '(w, ev) := we in
  match e with
  | RlcDataReq x =>
      '(w, ev') ← do_pdcp_data_ind nd w ctxt (srb_flagP x) (rb_idP x) (sdu_pP x);
      mret (w, ev ++ ev')
  | _ => mret (w, ev)
  end.

(** One packet read from the TUN interface of the UE, up to what the gNB does. *)
Definition uplink_packet (ndu ndg : pdcp_node) (idg : Z) (eu : Sdap.t) (st : manager * world * list event)
    (pkt : list Z) : res (manager * world * list event) :=
  let '(mu, wg, ev) := st in
  '(mu, ev1, _) ← Sdap.tun_packet (A := pdcp_api ndu) mu eu pkt;
  '(wg, ev2) ← res_foldl (hop ndg (ctxt_of true idg)) (wg, []) ev1;
  mret (mu, wg, ev ++ ev2).

(** One packet from GTP-U at the gNB, up to what the UE does. *)
Definition downlink_packet (ndg ndu : pdcp_node) (lg : list Sdap.t) (idg ps q : Z) (rqi : bool) (idu : Z)
    (st : manager * world * list event) (pkt : list Z) : res (manager * world * list event) :=
  let '(mg, wu, ev) := st in
  '(mg, ev1, _) ← Sdap.sdap_data_req (A := pdcp_api ndg) mg lg (ctxt_of true idg) idg false 0 (Some pkt) q rqi ps;
  '(wu, ev2) ← res_foldl (hop ndu (ctxt_of false idu)) (wu, []) ev1;
  mret (mg, wu, ev ++ ev2).

(** A packet that fits in an SDAP PDU. *)
Definition packet (pkt : list Z) : Prop := Forall is_byte pkt /\ 0 < zlen pkt <= 8999.

(** The receiving side of the DRB, up to its SDAP entity. *)
Record receiver (w : world) (id : Z) (r : Pdcp.t) (e : Sdap.t) : Prop := {
  re_entity : exists i, Sdap.nr_sdap_get_entity (sdap w) id (Pdcp.pdusession_id r) = Some (i, e);
  re_wf : SdapSpec.wf e
}.

Lemma received_fields r r' : PdcpRx.received r r' ->
  Pdcp.pdusession_id r' = Pdcp.pdusession_id r /\ Pdcp.is_gnb r' = Pdcp.is_gnb r /\
  Pdcp.has_sdap_rx r' = Pdcp.has_sdap_rx r /\ Pdcp.rb_id r' = Pdcp.rb_id r.
Proof. by intros (a1 & a2 & a3 & a4 & a5 & a6 & a7 & ->). Qed.

(** The call of SDAP by [deliver_sdu_drb], for an SDU with an SDAP header. *)
Lemma deliver_drb nd w id i r x e h pkt q b6 b7 ev :
  receiver w id r e -> PdcpSdu.buffer x = h :: pkt -> h = Sdap.hdr_byte q b6 b7 ->
  0 <= q < 64 -> 0 <= b6 < 2 -> 0 <= b7 < 2 -> Pdcp.has_sdap_rx r = true ->
  (forall drb, Sdap.nr_sdap_rx_entity (A := pdcp_api nd) (pdcp w) e drb
     (if use_tun nd then false else Pdcp.is_gnb r) true q (Pdcp.pdusession_id r) id (h :: pkt)
     = Ok (pdcp w, e, ev)) ->
  deliver_all nd w id i false r [x] = Ok (w, ev).
Proof.
  intros [(k & Hk) Hw] Hb Hh Hq H6 H7 Hrx Hrxe.
  destruct (SdapSpec.hdr_fields q b6 b7 Hq H6 H7) as (Eq & _). rewrite <- Hh in Eq.
  assert (El : <[k := e]> (sdap w) = sdap w).
  { apply list_insert_id. unfold Sdap.nr_sdap_get_entity in Hk.
    by apply list_find_Some in Hk as [Hk _]. }
  unfold deliver_all. cbn [res_foldl deliver]. unfold deliver_sdu_drb. rewrite Hb, Hrx.
  change 0x3F with Sdap.SDAP_BITMASK_QFI. rewrite <- SdapSpec.hdr_QFI_land, Eq. cbv zeta.
  unfold Sdap.sdap_data_ind. rewrite Hk.
  destruct (use_tun nd); rewrite Hrxe, !res_bind_unfold; cbn [mret res_ret mbind res_bind app];
    rewrite El; by destruct w.
Qed.

(** A PDU that reaches the peer of [s] through its table. *)
Lemma cross_ind nd w ctxt id drb s r e sdu m' r' x ev pkt h q b6 b7 :
  receiver w id r e -> PdcpRx.received r r' -> rntiMaybeUEid ctxt = id ->
  module_id ctxt = 0 -> instance ctxt = 0 -> eNB_index ctxt = 0 -> brOption ctxt = false ->
  with_rb (pdcp w) id drb false None (receive (PdcpTx.pdu_of s sdu)) = Ok (m', Some (r', [x])) ->
  PdcpSdu.buffer x = h :: pkt -> h = Sdap.hdr_byte q b6 b7 ->
  0 <= q < 64 -> 0 <= b6 < 2 -> 0 <= b7 < 2 -> Pdcp.has_sdap_rx r = true ->
  (forall d, Sdap.nr_sdap_rx_entity (A := pdcp_api nd) m' e d
     (if use_tun nd then false else Pdcp.is_gnb r) true q (Pdcp.pdusession_id r) id (h :: pkt)
     = Ok (m', e, ev)) ->
  do_pdcp_data_ind nd w ctxt false drb (PdcpTx.pdu_of s sdu) = Ok ({| w with pdcp := m' |}, ev).
Proof.
  intros [Hg Hw] Hrec Hid H1 H2 H3 H4 Ewr Hb Hh Hq H6 H7 Hrx Hrxe.
  destruct (received_fields r r' Hrec) as (E1 & E2 & E3 & E4). unfold do_pdcp_data_ind.
  rewrite H1, H2, H3, H4, Hid. cbn [Z.eqb negb orb]. unfold with_rb_deliver.
  change (fun e => '(e', out) ← Pdcp.nr_pdcp_entity_recv_pdu e (PdcpTx.pdu_of s sdu); mret (e', Some (e', out)))
    with (receive (PdcpTx.pdu_of s sdu)).
  rewrite Ewr, res_bind_unfold. cbv zeta.
  rewrite (deliver_drb nd _ id (drb - 1) r' x e h pkt q b6 b7 ev); try done.
  - split; [|done]. by rewrite E1.
  - by rewrite E3.
  - intros d. rewrite E1, E2. apply Hrxe.
Qed.

(** The same from the event of the sender. *)
Lemma hop_one nd ctxt w w' ev ctxt_s drb mui pdu :
  do_pdcp_data_ind nd w ctxt false drb pdu = Ok (w', ev) ->
  res_foldl (hop nd ctxt) (w, []) [enqueue_pdu ctxt_s false drb mui pdu] = Ok (w', ev).
Proof.
  intros E. cbn [res_foldl hop enqueue_pdu srb_flagP rb_idP sdu_pP]. by rewrite E.
Qed.

(** *** Uplink *)

(** A DRB with uplink SDAP headers, the UE on one side and the gNB on the other. *)
Record uplink (ndg : pdcp_node) (idg drb : Z) (eu eg : Sdap.t) (mu : manager) (wg : world) (s r : Pdcp.t)
    : Prop := {
  ul_path : path mu (pdcp wg) (Sdap.ue_id eu) idg drb s r;
  ul_tun : use_tun ndg = false;
  ul_ue : Sdap.is_gnb eu = false /\ Pdcp.is_gnb s = false;
  ul_eu : SdapSpec.wf eu;
  ul_qfi : 0 <= Sdap.qfi eu < 64;
  ul_drb : SdapSpec.drb_of eu (Sdap.qfi eu) = drb;
  ul_tx : Sdap.has_role (Sdap.entity_role (SdapSpec.rule eu (Sdap.qfi eu))) Sdap.SDAP_UL_TX = true;
  ul_no_dl : Sdap.has_role (Sdap.entity_role (SdapSpec.rule eu (Sdap.qfi eu))) Sdap.SDAP_DL_TX = false;
  ul_header : Pdcp.has_sdap_tx s = true;
  ul_receiver : receiver wg idg r eg;
  ul_rx : Sdap.has_role (Sdap.entity_role (SdapSpec.rule eg (Sdap.qfi eu))) Sdap.SDAP_UL_RX = true
}.

Lemma drb_nonzero ms mr ids idr drb s r : path ms mr ids idr drb s r -> drb <> 0.
Proof.
  intros [_ _ Hs _ _]. unfold bearer in Hs. destruct (find_ue _ _) as [u|]; [|done].
  apply get_rb_range in Hs as (? & _). lia.
Qed.

(** The SDAP entity of the UE maps its QoS flow to the DRB, with an uplink header. *)
Record ue_mapping (eu : Sdap.t) (drb : Z) : Prop := {
  um_ue : Sdap.is_gnb eu = false;
  um_wf : SdapSpec.wf eu;
  um_qfi : 0 <= Sdap.qfi eu < 64;
  um_drb : SdapSpec.drb_of eu (Sdap.qfi eu) = drb;
  um_tx : Sdap.has_role (Sdap.entity_role (SdapSpec.rule eu (Sdap.qfi eu))) Sdap.SDAP_UL_TX = true;
  um_no_dl : Sdap.has_role (Sdap.entity_role (SdapSpec.rule eu (Sdap.qfi eu))) Sdap.SDAP_DL_TX = false
}.

(** The SDU of PDCP for a packet: the SDAP header is in front of it. *)
Definition ul_sdu (eu : Sdap.t) (pkt : list Z) : list Z := Sdap.hdr_byte (Sdap.qfi eu) 0 1 :: pkt.

Lemma ul_sdu_ok eu drb s pkt : ue_mapping eu drb -> packet pkt ->
  Forall is_byte (ul_sdu eu pkt) /\ zlen (ul_sdu eu pkt) = 1 + zlen pkt /\
  zlen (ul_sdu eu pkt) + 7 < 2 ^ 29 /\ PdcpTx.sdap_tx s < zlen (ul_sdu eu pkt).
Proof.
  intros He [Hb Hl]. destruct (SdapSpec.hdr_fields (Sdap.qfi eu) 0 1 (um_qfi _ _ He)) as (_ & _ & _ & Hbyte); [lia..|].
  unfold ul_sdu. rewrite zlen_cons. pose proof (sdap_tx_range s). split; [by apply Forall_cons|]. lia.
Qed.

(** A packet from the TUN interface of the UE becomes a PDU for RLC. *)
Lemma tun_send ndu eu drb mu s pkt : ue_mapping eu drb -> drb <> 0 ->
  sender mu (Sdap.ue_id eu) drb s -> Pdcp.is_gnb s = false -> packet pkt -> exists mu',
  Sdap.tun_packet (A := pdcp_api ndu) mu eu pkt
    = Ok (mu', [enqueue_pdu (ctxt_of false (Sdap.ue_id eu)) false drb Sdap.RLC_MUI_UNDEFINED
                  (PdcpTx.pdu_of s (ul_sdu eu pkt))], true) /\
  sender mu' (Sdap.ue_id eu) drb (PdcpTx.sent s (ul_sdu eu pkt)).
Proof.
  intros He Hd0 Hs Hus Hp. destruct (ul_sdu_ok eu drb s pkt He Hp) as (Hb & _ & Hbig & Hsd).
  destruct (send_step mu (Sdap.ue_id eu) drb s (ul_sdu eu pkt) Hs Hb Hbig Hsd) as (mu' & Es & Hs').
  exists mu'. split; [|done]. destruct He as [Hue Hw Hq Hd Htx Hndl]. destruct Hp as [_ Hl].
  unfold Sdap.tun_packet. rewrite Hue. unfold u8. rewrite (Z.mod_small (Sdap.qfi eu)) by lia.
  rewrite tx_entity_ok by (done || unfold Sdap.SDAP_MAX_QFI; congruence || lia).
  unfold tx_header. rewrite Hndl, Htx, Hd. cbn [app negb b2z].
  unfold Sdap.pdcp_data_req_drb, pdcp_api, nr_pdcp_data_req_drb.
  cbn [negb dev_assert ctxt_of module_id instance eNB_index rntiMaybeUEid Z.eqb orb].
  rewrite res_ret_bind. fold (ul_sdu eu pkt). by rewrite Es, res_bind_unfold, Hus.
Qed.

(** The gNB of a DRB with uplink headers, in step with the sender [s]. *)
Record gnb_ready (ndg : pdcp_node) (idg drb q : Z) (eg : Sdap.t) (wg : world) (s r : Pdcp.t) : Prop := {
  gr_wf : PdcpUeSpec.wf (pdcp wg);
  gr_entity : bearer (pdcp wg) idg false drb = Some r;
  gr_sync : synced s r;
  gr_tun : use_tun ndg = false;
  gr_ue : Pdcp.is_gnb s = false;
  gr_header : Pdcp.has_sdap_tx s = true;
  gr_receiver : receiver wg idg r eg;
  gr_rx : Sdap.has_role (Sdap.entity_role (SdapSpec.rule eg q)) Sdap.SDAP_UL_RX = true
}.

(** The PDU of a packet, at the gNB: the packet goes to GTP-U. *)
Lemma gnb_receive ndg idg drb eu eg wg s r pkt : ue_mapping eu drb ->
  gnb_ready ndg idg drb (Sdap.qfi eu) eg wg s r -> packet pkt -> exists wg' r',
  do_pdcp_data_ind ndg wg (ctxt_of true idg) false drb (PdcpTx.pdu_of s (ul_sdu eu pkt))
    = Ok (wg', [GtpuSend idg (Pdcp.pdusession_id r) pkt]) /\
  gnb_ready ndg idg drb (Sdap.qfi eu) eg wg' (PdcpTx.sent s (ul_sdu eu pkt)) r' /\
  Pdcp.pdusession_id r' = Pdcp.pdusession_id r.
Proof.
  intros He [Hm Hr Hsy Htun Hus Hh Hrcv Hrx] Hp.
  destruct (ul_sdu_ok eu drb s pkt He Hp) as (Hb & _ & Hbig & Hsd).
  destruct (recv_step (pdcp wg) idg drb s r (ul_sdu eu pkt) Hm Hr Hsy Hb Hbig Hsd)
    as (mg' & r' & x & Er & Ex & Hrec & Hm' & Hr' & Hsy').
  pose proof (p_sdap s r (sy_peers s r Hsy)) as Hps. rewrite Hh in Hps.
  pose proof (p_side s r (sy_peers s r Hsy)) as Hside. rewrite Hus in Hside.
  destruct (received_fields r r' Hrec) as (E1 & E2 & E3 & E4).
  exists {| wg with pdcp := mg' |}, r'. split; [|split; [|done] ].
  - apply (cross_ind ndg wg (ctxt_of true idg) idg drb s r eg (ul_sdu eu pkt) mg' r' x
      [GtpuSend idg (Pdcp.pdusession_id r) pkt] pkt (Sdap.hdr_byte (Sdap.qfi eu) 0 1) (Sdap.qfi eu) 0 1);
      try done; try lia; [apply He|].
    intros d. rewrite Htun, Hside. apply rx_entity_gnb; [apply Hrcv|apply He|done].
  - split; try done. destruct Hrcv as [Hi Hwf]. split; [by rewrite E1|done].
Qed.

Lemma uplink_parts ndg idg drb eu eg mu wg s r : uplink ndg idg drb eu eg mu wg s r ->
  ue_mapping eu drb /\ drb <> 0 /\ sender mu (Sdap.ue_id eu) drb s /\
  gnb_ready ndg idg drb (Sdap.qfi eu) eg wg s r.
Proof.
  intros [Hpath Htun [Hue Hus] Hw Hq Hd Htx Hndl Hh Hrcv Hrx]. split; [done|].
  split; [by apply (drb_nonzero _ _ _ _ _ _ _ Hpath)|]. split; [by apply (path_sender _ _ _ _ _ _ _ Hpath)|].
  by split; try done; apply Hpath.
Qed.

Lemma uplink_step ndu ndg idg drb eu eg mu wg s r pkt ev :
  uplink ndg idg drb eu eg mu wg s r -> packet pkt -> exists mu' wg' s' r',
    uplink_packet ndu ndg idg eu (mu, wg, ev) pkt
      = Ok (mu', wg', ev ++ [GtpuSend idg (Pdcp.pdusession_id r) pkt]) /\
    uplink ndg idg drb eu eg mu' wg' s' r' /\ Pdcp.pdusession_id r' = Pdcp.pdusession_id r.
Proof.
  intros Hu Hp. destruct (uplink_parts _ _ _ _ _ _ _ _ _ Hu) as (He & Hd0 & Hs & Hg).
  destruct (tun_send ndu eu drb mu s pkt He Hd0 Hs (gr_ue _ _ _ _ _ _ _ _ Hg) Hp) as (mu' & E1 & Hs').
  destruct (gnb_receive ndg idg drb eu eg wg s r pkt He Hg Hp) as (wg' & r' & E2 & Hg' & Eps).
  exists mu', wg', (PdcpTx.sent s (ul_sdu eu pkt)), r'. split; [|split; [|done] ].
  - unfold uplink_packet. rewrite E1, res_bind_unfold. erewrite hop_one by exact E2. done.
  - destruct He. split; try done; try apply Hg'.
    + split; try apply Hg'; apply Hs'.
    + split; [done|apply Hg'].
Qed.

Lemma uplink_stream ndu ndg idg drb eu eg mu wg s r pkts ev :
  uplink ndg idg drb eu eg mu wg s r -> Forall packet pkts -> exists mu' wg' s' r',
    res_foldl (uplink_packet ndu ndg idg eu) (mu, wg, ev) pkts
      = Ok (mu', wg', ev ++ map (GtpuSend idg (Pdcp.pdusession_id r)) pkts) /\
    uplink ndg idg drb eu eg mu' wg' s' r'.
Proof.
  intros Hu Hp. revert mu wg s r ev Hu. induction Hp as [|pkt pkts Hpkt Hp IH]; intros mu wg s r ev Hu.
  { exists mu, wg, s, r. cbn. by rewrite app_nil_r. }
  destruct (uplink_step ndu ndg idg drb eu eg mu wg s r pkt ev Hu Hpkt)
    as (mu1 & wg1 & s1 & r1 & E1 & Hu1 & Hps).
  destruct (IH mu1 wg1 s1 r1 (ev ++ [GtpuSend idg (Pdcp.pdusession_id r) pkt]) Hu1)
    as (mu2 & wg2 & s2 & r2 & E2 & Hu2).
  exists mu2, wg2, s2, r2. split; [|done]. cbn [res_foldl]. rewrite E1, res_bind_unfold, E2, Hps.
  cbn [map]. by rewrite <- app_assoc.
Qed.
(** *** Downlink *)

(** A DRB with downlink SDAP headers of the QoS flow [q], in a gNB that is not split. *)
Record downlink (ndg ndu : pdcp_node) (lg : list Sdap.t) (idg ps q idu drb : Z) (eg eu : Sdap.t)
    (mg : manager) (wu : world) (s r : Pdcp.t) : Prop := {
  dl_path : path mg (pdcp wu) idg idu drb s r;
  dl_node : node_is_cu ndg = false;
  dl_f1 : exists d, F1apIds.cu_get_f1_ue_data (cu2du ndg) idg = Ok d;
  dl_gnb : Pdcp.is_gnb s = true;
  dl_entity : exists i, Sdap.nr_sdap_get_entity lg idg ps = Some (i, eg);
  dl_eg : SdapSpec.wf eg;
  dl_qfi : 0 <= q < 64;
  dl_drb : SdapSpec.drb_of eg q = drb;
  dl_tx : Sdap.has_role (Sdap.entity_role (SdapSpec.rule eg q)) Sdap.SDAP_DL_TX = true;
  dl_header : Pdcp.has_sdap_tx s = true;
  dl_receiver : receiver wu idu r eu;
  dl_rx : Sdap.has_role (Sdap.entity_role (SdapSpec.rule eu q)) Sdap.SDAP_DL_RX = true
}.

Lemma b2z_range b : 0 <= b2z b < 2.
Proof. by destruct b. Qed.

Lemma downlink_step ndg ndu lg idg ps q rqi idu drb eg eu mg wu s r pkt ev :
  downlink ndg ndu lg idg ps q idu drb eg eu mg wu s r -> packet pkt -> exists mg' wu' s' r',
    downlink_packet ndg ndu lg idg ps q rqi idu (mg, wu, ev) pkt
      = Ok (mg', wu', ev ++ [TunWrite (Sdap.pdusession_sock eu) pkt]) /\
    downlink ndg ndu lg idg ps q idu drb eg eu mg' wu' s' r'.
Proof.
  intros [Hpath Hcu (fd & Hf1) Hgnb (k & Hk) Hw Hq Hd Htx Hh Hrcv Hrx] [Hb Hl].
  pose proof (b2z_range rqi) as Hrqi. set (h := Sdap.hdr_byte q (b2z rqi) 0).
  destruct (SdapSpec.hdr_fields q (b2z rqi) 0 Hq Hrqi) as (_ & _ & Hb7 & Hbyte); [lia|].
  assert (Hsdap : PdcpTx.sdap_tx s < zlen (h :: pkt))
    by (unfold PdcpTx.sdap_tx; rewrite Hh, zlen_cons; lia).
  destruct (path_step mg (pdcp wu) idg idu drb s r (h :: pkt) Hpath)
    as (mg' & mu' & r' & x & Es & Er & Ex & Hrec & Hpath');
    [by apply Forall_cons|rewrite zlen_cons; lia|done|].
  pose proof (p_sdap s r (sy_peers s r (pa_sync _ _ _ _ _ _ _ Hpath))) as Hps. rewrite Hh in Hps.
  pose proof (p_side s r (sy_peers s r (pa_sync _ _ _ _ _ _ _ Hpath))) as Hside. rewrite Hgnb in Hside.
  pose proof (drb_nonzero _ _ _ _ _ _ _ Hpath) as Hd0.
  destruct (received_fields r r' Hrec) as (E1 & E2 & E3 & E4).
  exists mg', {| wu with pdcp := mu' |}, (PdcpTx.sent s (h :: pkt)), r'. split.
  - unfold downlink_packet, Sdap.sdap_data_req. rewrite Hk.
    rewrite tx_entity_ok by (done || unfold Sdap.SDAP_MAX_QFI; congruence || lia).
    unfold tx_header. rewrite Htx, Hd. cbn [app].
    unfold Sdap.pdcp_data_req_drb, pdcp_api, nr_pdcp_data_req_drb.
    cbn [negb dev_assert ctxt_of module_id instance eNB_index rntiMaybeUEid Z.eqb orb].
    rewrite res_ret_bind. fold h. rewrite Es, res_bind_unfold, Hgnb. cbn [deliver_request].
    unfold deliver_pdu_drb_gnb. rewrite Hf1, Hcu, !res_bind_unfold, ?res_ret_bind.
    erewrite hop_one; [done|].
    apply (cross_ind ndu wu (ctxt_of false idu) idu drb s r eu (h :: pkt) mu' r' x
      [TunWrite (Sdap.pdusession_sock eu) pkt] pkt h q (b2z rqi) 0); try done; try lia.
    intros d. rewrite Hside. cbn [negb].
    replace (if use_tun ndu then false else false) with false by (by destruct (use_tun ndu)).
    by apply rx_entity_ue; [apply Hrcv|..].
  - split; try done; [by exists fd|by exists k|]. destruct Hrcv as [Hi Hwf]. split; [by rewrite E1|done].
Qed.

Lemma downlink_stream ndg ndu lg idg ps q rqi idu drb eg eu mg wu s r pkts ev :
  downlink ndg ndu lg idg ps q idu drb eg eu mg wu s r -> Forall packet pkts -> exists mg' wu' s' r',
    res_foldl (downlink_packet ndg ndu lg idg ps q rqi idu) (mg, wu, ev) pkts
      = Ok (mg', wu', ev ++ map (TunWrite (Sdap.pdusession_sock eu)) pkts) /\
    downlink ndg ndu lg idg ps q idu drb eg eu mg' wu' s' r'.
Proof.
  intros Hu Hp. revert mg wu s r ev Hu. induction Hp as [|pkt pkts Hpkt Hp IH]; intros mg wu s r ev Hu.
  { exists mg, wu, s, r. cbn. by rewrite app_nil_r. }
  destruct (downlink_step ndg ndu lg idg ps q rqi idu drb eg eu mg wu s r pkt ev Hu Hpkt)
    as (mg1 & wu1 & s1 & r1 & E1 & Hu1).
  destruct (IH mg1 wu1 s1 r1 (ev ++ [TunWrite (Sdap.pdusession_sock eu) pkt]) Hu1)
    as (mg2 & wu2 & s2 & r2 & E2 & Hu2).
  exists mg2, wu2, s2, r2. split; [|done]. cbn [res_foldl]. rewrite E1, res_bind_unfold, E2.
  cbn [map]. by rewrite <- app_assoc.
Qed.
(** ** PDCP keeps the contract of SDAP *)

(** A UE in which an end marker can be sent on every DRB: the entities are sound, and
    a ciphered DRB with SDAP headers also has a MAC-I, so that one byte of SDAP header
    leaves something to cipher. *)
Definition markers_accepted (m : manager) : Prop :=
  PdcpUeSpec.wf m /\ forall id rb e, bearer m id false rb = Some e ->
    PdcpRun.inv e /\ Pdcp.is_gnb e = false /\
    (Pdcp.has_ciphering e = true -> PdcpTx.sdap_tx e < 1 + Pdcp.integrity_size e).

Lemma process_marker e b : PdcpRun.inv e -> is_byte b ->
  (Pdcp.has_ciphering e = true -> PdcpTx.sdap_tx e < 1 + Pdcp.integrity_size e) ->
  exists e' o, process_drb [b] e = Ok (e', o) /\ PdcpRun.inv e' /\ (e' = e \/ e' = PdcpTx.sent e [b]).
Proof.
  intros Hi Hb Hc. set (junk := replicate (Z.to_nat (Pdcp.nr_max_pdcp_pdu_size (zlen [b]))) 0).
  destruct (PdcpRun.process_sdu_inv e [b] junk Hi) as (n & buf & e' & E & Hi' & _);
    [split_and!; [by apply Forall_singleton|done|done|exact Hc]|].
  eexists e', _. split; [unfold process_drb, process; fold junk; by rewrite E|]. split; [done|].
  destruct (Pdcp.entity_suspended e) eqn:Es.
  - left. unfold Pdcp.nr_pdcp_entity_process_sdu in E. rewrite Es in E. res_inv. done.
  - right. destruct (PdcpTx.process_sdu_ok e [b] junk) as (rest & E2);
      [apply Hi|apply Hi|done|by apply Forall_singleton|done|done|exact Hc|].
    rewrite E in E2. by injection E2 as -> -> ->.
Qed.

#[export] Instance pdcp_api_laws (nd : pdcp_node) :
  SdapLaws.PdcpApiLaws manager (H := pdcp_api nd) markers_accepted.
Proof.
  split. intros m ue drb mui b [Hw Ha] Hb. unfold Sdap.pdcp_data_req_drb, pdcp_api, nr_pdcp_data_req_drb.
  cbn [negb dev_assert ctxt_of module_id instance eNB_index rntiMaybeUEid Z.eqb orb].
  rewrite res_ret_bind. pose proof (with_rb_ok m ue drb false None (process_drb [b]) Hw) as H.
  destruct (bearer m ue false drb) as [e|] eqn:E.
  - destruct (Ha _ _ _ E) as (Hi & Hg & Hc).
    destruct (process_marker e b Hi Hb Hc) as (e' & o & Ep & Hi' & Hsame).
    assert (Ho : o = None \/ exists p, o = Some (p, false)).
    { unfold process_drb in Ep. res_inv. destruct x as [? [p|]]; res_inv; [right|by left].
      exists p. by rewrite Hg. }
    rewrite Ep in H. destruct H as (m' & -> & Hw' & Hch). rewrite res_bind_unfold.
    assert (Hm' : markers_accepted m').
    { split; [done|]. intros id rb e0. rewrite Hch. case_decide; [|by apply Ha].
      intros [= <-]. destruct Hsame as [->| ->]; by split_and!. }
    destruct Ho as [->|(p & ->)]; by eexists _, _, _.
  - destruct H as (m' & -> & Hw' & Hs). rewrite res_bind_unfold. eexists _, _, _. split; [done|].
    split; [done|]. intros id rb e0. rewrite Hs. apply Ha.
Qed.
End pdcp_path.
End UserPlane.
