(* ===== verification/PdcpFixtures.v ===== *)
(** * PDCP: concrete entities

    A platform that satisfies the laws, and the entities on which the witnesses of
    the PDCP theorems evaluate the model. *)

From S2P Require Import Prelude Snow3g Snow3gSpec Snow3gMac Secu PdcpSdu PdcpEntity.
From S2P Require Import PdcpSecurity PdcpRx PdcpRecv PdcpTx PdcpRun Hashtable F1apIds Asn1.
From S2P Require Import Events Sdap SdapSpec PdcpUe PdcpUeSpec UserPlane.

Module PdcpFixtures.
Import Secu Pdcp PdcpSecurity PdcpRx PdcpRecv PdcpTx PdcpRun.

(** A stream cipher whose stream is one byte of the key and of the vector, and a
    checksum. *)
Definition toy_ctr (key iv msg : list Z) : list Z :=
  map (fun b => Z.lxor b (Z.land (Z.lxor (nth 0 key 0) (nth 3 iv 0)) 0xff)) msg.

Definition toy_cmac (key msg : list Z) : list Z :=
  concat (replicate 4 (Snow3g.be_bytes (zsum (fun b => b) msg + nth 0 key 0))).

#[export] Instance toy : Platform := {
  EVP_aes_128_ctr := toy_ctr;
  CMAC_aes_128 := toy_cmac;
  stack_words := replicate 32 0xdeadbeef;
  stack_table := replicate 8 (replicate 256 0x55)
}.

#[export] Instance toy_laws : PlatformLaws toy.
Proof.
  split; cbn [EVP_aes_128_ctr CMAC_aes_128 stack_words stack_table toy].
  - intros. apply length_map.
  - intros. unfold toy_ctr. rewrite map_map. rewrite <- (map_id msg) at 2. apply map_ext.
    intros b. by rewrite Z.lxor_assoc, Z.lxor_nilpotent, Z.lxor_0_r.
  - intros key iv msg Hm. apply Forall_map. eapply Forall_impl; [exact Hm|]. intros b Hb.
    apply SnowTables.is_byte_lxor; [done|apply Width.is_byte_land].
  - done.
  - intros. apply Forall_concat, Forall_replicate, Width.be_bytes_ok.
  - done.
  - split; [done|]. by apply Forall_replicate.
Qed.

Definition key1 : list Z := seqZ 1 16.
Definition key2 : list Z := seqZ 101 16.

(** SNOW 3G, AES and null security. *)
Definition snow_keys : security_t := mk_security 1 1 key1 key2.
Definition aes_keys : security_t := mk_security 2 2 key1 key2.
Definition no_keys : security_t := mk_security 0 0 key1 key2.
Definition integrity_keys : security_t := mk_security 1 0 key1 key2.

Definition entity_of (ty : nr_pdcp_entity_type_t) (gnb : bool) (n : Z) (p : security_t) : res t :=
  new_nr_pdcp_entity ty gnb 1 0 false false n 100 (-1) p.

Definition ok_or (e : t) (r : res t) : t := match r with Ok e => e | Fault _ => e end.

Definition blank : t :=
  mk_entity NR_PDCP_DRB_AM 1 0 false false 12 100 (-1) 4095 2048 0 0 0 0 0 0 false false
    (mk_security 0 0 (replicate 16 0) (replicate 16 0)) None None true [] 0 stats_0 false.

Definition gnb_snow : t := Eval vm_compute in
  ok_or blank (entity_of NR_PDCP_DRB_AM true SHORT_SN_SIZE snow_keys).
Definition ue_snow : t := Eval vm_compute in
  ok_or blank (entity_of NR_PDCP_DRB_AM false SHORT_SN_SIZE snow_keys).
Definition gnb_plain : t := Eval vm_compute in
  ok_or blank (entity_of NR_PDCP_DRB_AM true SHORT_SN_SIZE no_keys).
Definition srb_plain : t := Eval vm_compute in
  ok_or blank (entity_of NR_PDCP_SRB false SHORT_SN_SIZE no_keys).
Definition srb_gnb : t := Eval vm_compute in
  ok_or blank (entity_of NR_PDCP_SRB true SHORT_SN_SIZE integrity_keys).
Definition srb_ue : t := Eval vm_compute in
  ok_or blank (entity_of NR_PDCP_SRB false SHORT_SN_SIZE integrity_keys).

(** A PDU with SN 1 arrives first, at time 5. *)
Definition gnb_waiting : t := Eval vm_compute in
  match nr_pdcp_entity_recv_pdu ({| gnb_plain with t_current := 5 |}) [0x80; 1; 7; 8; 9] with
  | Ok (e, _) => e
  | Fault _ => blank
  end.

Lemma key_ok1 : is_key key1.
Proof. split; [done|]. apply Forall_forall. intros x Hx. apply elem_of_seqZ in Hx. unfold is_byte. lia. Qed.

Lemma key_ok2 : is_key key2.
Proof. split; [done|]. apply Forall_forall. intros x Hx. apply elem_of_seqZ in Hx. unfold is_byte. lia. Qed.

Lemma keys_valid i c : -1 <= i <= 2 -> -1 <= c <= 2 -> valid_parameters (mk_security i c key1 key2).
Proof. intros. split; [done|done|apply key_ok1|apply key_ok2]. Qed.

Lemma entity_inv ty gnb n p e : n = SHORT_SN_SIZE \/ n = LONG_SN_SIZE -> valid_parameters p ->
  entity_of ty gnb n p = Ok e -> inv e.
Proof.
  intros Hn Hv E. unfold entity_of in E.
  destruct (new_ok ty gnb 1 0 false false n 100 (-1) p) as (e' & E' & Hi & _); [done|lia|done|].
  rewrite E in E'. by injection E' as ->.
Qed.

Lemma gnb_snow_inv : inv gnb_snow.
Proof.
  apply (entity_inv NR_PDCP_DRB_AM true SHORT_SN_SIZE snow_keys);
    [by left|by apply keys_valid|vm_compute; reflexivity].
Qed.

Lemma ue_snow_inv : inv ue_snow.
Proof.
  apply (entity_inv NR_PDCP_DRB_AM false SHORT_SN_SIZE snow_keys);
    [by left|by apply keys_valid|vm_compute; reflexivity].
Qed.

Lemma gnb_plain_inv : inv gnb_plain.
Proof.
  apply (entity_inv NR_PDCP_DRB_AM true SHORT_SN_SIZE no_keys);
    [by left|by apply keys_valid|vm_compute; reflexivity].
Qed.

Lemma srb_gnb_inv : inv srb_gnb.
Proof.
  apply (entity_inv NR_PDCP_SRB true SHORT_SN_SIZE integrity_keys);
    [by left|by apply keys_valid|vm_compute; reflexivity].
Qed.

Lemma srb_ue_inv : inv srb_ue.
Proof.
  apply (entity_inv NR_PDCP_SRB false SHORT_SN_SIZE integrity_keys);
    [by left|by apply keys_valid|vm_compute; reflexivity].
Qed.

Lemma bytes_dec (l : list Z) : forallb (fun b => (0 <=? b) && (b <? 256)) l = true -> Forall is_byte l.
Proof. rewrite forallb_forall. intros H. apply Forall_forall. intros b Hb%list_elem_of_In. specialize (H b Hb). unfold is_byte. lia. Qed.

Lemma gnb_waiting_inv : inv gnb_waiting.
Proof.
  assert (Hi : inv ({| gnb_plain with t_current := 5 |})).
  { destruct (pdcp_set_time_ok gnb_plain 5 gnb_plain_inv) as (e' & out & E & Hi & _).
    vm_compute in E. injection E as <- _. exact Hi. }
  destruct (pdcp_recv_ok _ [0x80; 1; 7; 8; 9] Hi) as (e' & out & E & Hi' & _).
  { split; [by apply bytes_dec|]. right. vm_compute. split; [done|reflexivity]. }
  vm_compute in E. injection E as <- _. exact Hi'.
Qed.

End PdcpFixtures.

(** * PDCP and SNOW 3G: executions that go wrong

    Concrete runs of the model, each showing a behaviour of the code that its
    authors do not mean; the comments name the place in the sources. *)
Module PdcpScenarios.
Import Secu Pdcp PdcpFixtures.

(** [recv_pdu] reads the second byte of the header before it checks the size: a
    PDU of one byte makes it read past the end. *)
Example short_pdu_is_read_past_its_end :
  nr_pdcp_entity_recv_pdu gnb_plain [0x80] = Fault OutOfBounds.
Proof. vm_compute. reflexivity. Qed.

(** With HFN 0, a SN in the upper half of the window gets HFN 2^32 - 1: the PDU is
    not discarded as old but stored with a COUNT near 2^32. *)
Definition after_underflow : res (t * list PdcpSdu.t) :=
  '(e, _) ← nr_pdcp_entity_recv_pdu ({| gnb_plain with t_current := 1 |}) [0x88; 0; 1];
  mret (nr_pdcp_entity_set_time e 200).

Example hfn_underflow_is_delivered :
  ('(e, out) ← after_underflow; mret (map PdcpSdu.count out, rx_deliv e))
  = Ok ([0xfffff800], 0xfffff801).
Proof. vm_compute. reflexivity. Qed.

(** ... and from then on the PDUs of the peer are discarded. *)
Example hfn_underflow_locks_the_receiver :
  ('(e, _) ← after_underflow;
   '(e', out) ← nr_pdcp_entity_recv_pdu e [0x80; 0; 42];
   mret (out, rx_list e', rx_deliv e')) = Ok ([], [], 0xfffff801).
Proof. vm_compute. reflexivity. Qed.

(** [rx_size] counts the MAC-I of a stored PDU and never gives it back. *)
Example rx_size_keeps_the_mac :
  ('(e, out) ← nr_pdcp_entity_recv_pdu srb_plain [0; 0; 1; 2; 3; 0; 0; 0; 0];
   mret (length out, rx_list e, rx_size e)) = Ok (1%nat, [], 4).
Proof. vm_compute. reflexivity. Qed.

(** An SDU that is only its SDAP header has nothing to cipher; NEA2 asserts that
    it has. *)
Example nea2_sdap_header_alone_aborts :
  (e ← new_nr_pdcp_entity NR_PDCP_DRB_AM true 1 0 true true LONG_SN_SIZE 100 (-1)
         (mk_security 0 2 key1 key2);
   nr_pdcp_entity_process_sdu e [0x80] (replicate 64 0)) = Fault Exit.
Proof. vm_compute. reflexivity. Qed.

(** The integrity function reads before the message when the message is empty. *)
Example empty_message_is_read_before_its_start :
  Snow3g.snow3g_integrity (replicate 32 0) (replicate 8 (replicate 256 0)) 0 0 0 key1 []
  = Fault OutOfBounds.
Proof. vm_compute. reflexivity. Qed.

End PdcpScenarios.

(** * The user plane: concrete nodes

    A UE and a gNB that RRC has configured with one DRB for two QoS flows, built with
    the functions of the model, for the witnesses of the theorems of the user plane. *)
Module UpFixtures.
Import Secu Events PdcpUe PdcpUeSpec PdcpTx PdcpLink PdcpFixtures UserPlane.

(** The value of a computation that returns. *)
Definition ok_value {A} (d : A) (r : res A) : A := match r with Ok a => a | Fault _ => d end.

(** DRB 1 of PDU session 5, the default DRB, with headers in both directions and the
    QoS flows 1 and 2; SN of 12 bits, integrity and ciphering with SNOW 3G. *)
Definition rrc_sdap : Sdap.NR_SDAP_Config_t := Sdap.mk_nr_config 5 true true true (Some [1; 2]) None.
Definition rrc_pdcp : NR_PDCP_Config_t :=
  mk_pdcp_config (Some (mk_drb_config (Some 15) (Some 0) (Some 0) true)) (Some 14) false.

Definition no_config : Sdap.sdap_config_t := Sdap.mk_config 0 0 0 false [] [].
Definition sdap_config (g : bool) : Sdap.sdap_config_t := Eval vm_compute in
  if g then ok_value no_config (Sdap.nr_sdap_get_config true rrc_sdap 1)
  else ok_value no_config (Sdap.nr_sdap_get_config false rrc_sdap 1).

Definition idu : Z := 0.
Definition idg : Z := 7.

Definition with_drb (g : bool) (id : Z) : manager := Eval vm_compute in
  ok_value (new_nr_pdcp_ue_manager 1)
    (nr_pdcp_add_drb (new_nr_pdcp_ue_manager 1) g id rrc_pdcp (sdap_config g) snow_keys).
Definition ue_manager : manager := Eval vm_compute in with_drb false idu.
Definition gnb_manager : manager := Eval vm_compute in with_drb true idg.

Definition ue_drb : Pdcp.t := Eval vm_compute in default blank (bearer ue_manager idu false 1).
Definition gnb_drb : Pdcp.t := Eval vm_compute in default blank (bearer gnb_manager idg false 1).

Definition plain_node : Sdap.node_t := Sdap.mk_node false 10 (fun _ => 0).

(** The F1 identifiers of the gNB: the DU knows UE 7 as 21. *)
Definition f1_table : F1apIds.table :=
  ok_value None (ht ← F1apIds.cu_init_f1_ue_data None;
                 '(ht, _) ← F1apIds.cu_add_f1_ue_data ht idg (F1apIds.mk_ue_data 21 0 0);
                 mret ht).
Definition ue_node : pdcp_node := mk_pdcp_node false true None.
Definition gnb_node : pdcp_node := mk_pdcp_node false false f1_table.

Definition ue_sdap : list Sdap.t := Eval vm_compute in
  ok_value [] ('(_, l, _) ← Sdap.nr_sdap_addmod_entity (A := pdcp_api ue_node) plain_node ue_manager []
                               false idu (sdap_config false);
               l ← Sdap.set_qfi l 1 5 idu;
               '(l, _) ← Sdap.start_sdap_tun_ue l idu 5 33;
               mret l).
Definition gnb_sdap : list Sdap.t := Eval vm_compute in
  ok_value [] ('(_, l, _) ← Sdap.nr_sdap_addmod_entity (A := pdcp_api gnb_node) plain_node gnb_manager []
                               true idg (sdap_config true);
               mret l).

Definition blank_entity : Sdap.t := Sdap.new_entity true 0 no_config.
Definition ue_entity : Sdap.t := Eval vm_compute in default blank_entity (head ue_sdap).
Definition gnb_entity : Sdap.t := Eval vm_compute in default blank_entity (head gnb_sdap).

Definition ue_world : world := mk_world ue_manager ue_sdap.
Definition gnb_world : world := mk_world gnb_manager gnb_sdap.

(** ** Their invariants *)

Lemma drb_inv (g : bool) e :
  Pdcp.new_nr_pdcp_entity Pdcp.NR_PDCP_DRB_AM g 1 5 true true Pdcp.SHORT_SN_SIZE 100 (-1) snow_keys = Ok e ->
  PdcpRun.inv e.
Proof.
  intros E. destruct (PdcpRun.new_ok Pdcp.NR_PDCP_DRB_AM g 1 5 true true Pdcp.SHORT_SN_SIZE 100 (-1) snow_keys)
    as (e' & E' & Hi & _); [by left|lia|by apply keys_valid|]. rewrite E in E'. by injection E' as ->.
Qed.

Lemma ue_drb_inv : PdcpRun.inv ue_drb.
Proof. apply (drb_inv false). vm_compute. reflexivity. Qed.

Lemma gnb_drb_inv : PdcpRun.inv gnb_drb.
Proof. apply (drb_inv true). vm_compute. reflexivity. Qed.

Lemma one_ue_wf m u : ue_list m = [u] -> length (srb u) = 3%nat -> length (drb u) = 32%nat -> PdcpUeSpec.wf m.
Proof.
  intros E H1 H2. split; rewrite E; [apply NoDup_singleton|]. by apply Forall_singleton.
Qed.

Lemma ue_manager_wf : PdcpUeSpec.wf ue_manager.
Proof. eapply one_ue_wf; reflexivity. Qed.

Lemma gnb_manager_wf : PdcpUeSpec.wf gnb_manager.
Proof. eapply one_ue_wf; reflexivity. Qed.

Lemma synced_up : synced ue_drb gnb_drb.
Proof. split; [apply ue_drb_inv|apply gnb_drb_inv|by split|done..]. Qed.

Lemma synced_down : synced gnb_drb ue_drb.
Proof. split; [apply gnb_drb_inv|apply ue_drb_inv|by split|done..]. Qed.

Lemma rules_dec (e : Sdap.t) : length (Sdap.qfi2drb_table e) = 64%nat ->
  forallb (fun r => (0 <=? Sdap.drb_id r) && (Sdap.drb_id r <=? 32)) (Sdap.qfi2drb_table e) = true ->
  SdapSpec.wf e.
Proof.
  intros Hl Hf. split; [unfold zlen; by rewrite Hl|]. rewrite forallb_forall in Hf.
  apply Forall_forall. intros r Hr%list_elem_of_In. specialize (Hf r Hr).
  unfold Sdap.MAX_DRBS_PER_UE. lia.
Qed.

Lemma ue_entity_wf : SdapSpec.wf ue_entity.
Proof. by apply rules_dec. Qed.

Lemma gnb_entity_wf : SdapSpec.wf gnb_entity.
Proof. by apply rules_dec. Qed.

Lemma uplink_ready : uplink gnb_node idg 1 ue_entity gnb_entity ue_manager gnb_world ue_drb gnb_drb.
Proof.
  split; [|reflexivity|done| |done|reflexivity|reflexivity|reflexivity|reflexivity| |reflexivity].
  - split; [apply ue_manager_wf|apply gnb_manager_wf|reflexivity|reflexivity|apply synced_up].
  - apply ue_entity_wf.
  - split; [by exists O|apply gnb_entity_wf].
Qed.

Lemma downlink_ready :
  downlink gnb_node ue_node gnb_sdap idg 5 2 idu 1 gnb_entity ue_entity gnb_manager ue_world gnb_drb ue_drb.
Proof.
  split; [|reflexivity| |reflexivity| | |done|reflexivity|reflexivity|reflexivity| |reflexivity].
  - split; [apply gnb_manager_wf|apply ue_manager_wf|reflexivity|reflexivity|apply synced_down].
  - exists (F1apIds.mk_ue_data 21 0 0). vm_compute. reflexivity.
  - by exists O.
  - apply gnb_entity_wf.
  - split; [by exists O|apply ue_entity_wf].
Qed.

Lemma packet_dec pkt : forallb (fun b => (0 <=? b) && (b <? 256)) pkt = true -> 0 < zlen pkt <= 8999 -> packet pkt.
Proof. intros Hb Hl. split; [by apply bytes_dec|done]. Qed.

(** A configuration, checked. *)
Definition qfi_in_range (q : Z) : bool := (0 <=? q) && (q <? Sdap.SDAP_MAX_QFI).
Definition config_check (c : Sdap.sdap_config_t) : bool :=
  (0 <? Sdap.cfg_drb_id c) && (Sdap.cfg_drb_id c <=? Sdap.MAX_DRBS_PER_UE) &&
  (0 <=? Sdap.cfg_role c) && (Sdap.cfg_role c <? 16) &&
  forallb qfi_in_range (Sdap.mappedQFIs2Add c) && forallb qfi_in_range (Sdap.mappedQFIs2Release c).

Lemma config_dec c : config_check c = true -> SdapSpec.config_ok c.
Proof.
  unfold config_check. rewrite !andb_true_iff. intros (((((H1 & H2) & H3) & H4) & H5) & H6).
  rewrite forallb_forall in H5, H6. unfold qfi_in_range in *.
  split; [lia|lia|..]; apply Forall_forall; intros q Hq%list_elem_of_In;
    [specialize (H5 q Hq)|specialize (H6 q Hq)]; lia.
Qed.

Lemma ue_markers : markers_accepted ue_manager.
Proof.
  split; [apply ue_manager_wf|]. intros id rb e. unfold bearer. cbn [find_ue UeTable.find ue_list ue_manager list_find fmap option_fmap option_map].
  case_decide; [|done]. cbn [snd]. intros E. apply get_rb_range in E as (Hr & _ & E). cbn [drb] in E.
  destruct (Z.to_nat (rb - 1)) as [|k]; cbn in E.
  - injection E as <-. split_and!; [apply ue_drb_inv|done|done].
  - exfalso. clear -E. do 31 (destruct k as [|k]; [done|]). done.
Qed.
End UpFixtures.

(** * The user plane: behaviours worth knowing

    Concrete executions of SDAP and of the table of PDCP that a reader of the code
    would not expect. *)
Module UpScenarios.
Import Secu Events PdcpUe PdcpUeSpec PdcpFixtures UpFixtures.

(** A gNB whose bearer [rb] of UE 7 holds an SDU that waits for a lost one. *)
Definition waiting_in (rb : Z) : world :=
  mk_world (mk_manager [set_rb (new_ue idg) rb false (Some gnb_waiting)] 1) [].

Definition waits (w : world) (rb : Z) : bool :=
  match bearer (pdcp w) idg false rb with
  | Some e => negb (bool_decide (Pdcp.rx_list e = []))
  | None => false
  end.

Definition waits_after (now rb : Z) : bool :=
  match timer_tick gnb_node (waiting_in rb) now with
  | Ok (w, _) => waits w rb
  | Fault _ => false
  end.

(** The timer thread reaches the first five DRBs only: the reordering timer of the
    sixth one never expires and its SDUs wait for ever. *)
Lemma timer_never_reaches_sixth_drb :
  waits (waiting_in 5) 5 = true /\ waits_after 1000 5 = false /\
  waits (waiting_in 6) 6 = true /\ waits_after 1000 6 = true.
Proof. vm_compute. done. Qed.

(** Removing a UE frees five of its DRBs. *)
Lemma removed_ue_leaks_drbs : (nr_pdcp_manager_remove_ue (pdcp (waiting_in 6)) idg).2 = [] /\
  (nr_pdcp_manager_remove_ue (pdcp (waiting_in 5)) idg).2 = [gnb_waiting].
Proof. vm_compute. done. Qed.

(** Ciphering with NEA2, no integrity protection, SDAP headers: the DRB of a UE. *)
Definition rrc_no_integrity : NR_PDCP_Config_t :=
  mk_pdcp_config (Some (mk_drb_config (Some 15) (Some 0) (Some 0) false)) (Some 14) false.
Definition aes_manager : manager := Eval vm_compute in
  ok_value (new_nr_pdcp_ue_manager 1)
    (nr_pdcp_add_drb (new_nr_pdcp_ue_manager 1) false idu rrc_no_integrity (sdap_config false) aes_keys).

(** RRC moves QoS flow 1 to DRB 2: the end marker is one byte of SDAP header, which
    leaves nothing to cipher, and the assertion of [nr_pdcp_security_nea2_cipher]
    stops the UE. *)
Lemma end_marker_stops_ue_with_nea2 :
  Sdap.nr_reconfigure_sdap_entity (A := pdcp_api ue_node) aes_manager ue_sdap
    (Sdap.mk_nr_config 5 true true false (Some [1]) None) idu 5 2 = Fault Exit.
Proof. vm_compute. reflexivity. Qed.

(** With integrity protection the same reconfiguration sends its end marker. *)
Lemma end_marker_sent_with_integrity : exists m l x,
  Sdap.nr_reconfigure_sdap_entity (A := pdcp_api ue_node) ue_manager ue_sdap
    (Sdap.mk_nr_config 5 true true false (Some [1]) None) idu 5 2 = Ok (m, l, [RlcDataReq x]) /\
  rb_idP x = 1.
Proof. eexists _, _, _. split; [vm_compute; reflexivity|reflexivity]. Qed.

(** A downlink PDU with the RDI bit for a QoS flow without a rule, on a UE with a
    default DRB: the end marker goes to the default DRB twice. *)
Definition no_rule_entity : Sdap.t := Eval vm_compute in
  let e := ue_entity in {| e with Sdap.qfi2drb_table := <[3%nat := Sdap.mk_qfi2drb 0 8]> (Sdap.qfi2drb_table e) |}.

Lemma reflective_mapping_sends_two_markers : exists m e x y,
  Sdap.reflective_mapping (A := pdcp_api ue_node) ue_manager no_rule_entity 2 idu 3
    = Ok (m, e, [RlcDataReq x; RlcDataReq y]) /\ rb_idP x = 1 /\ rb_idP y = 1.
Proof. eexists _, _, _, _. split; [vm_compute; reflexivity|done]. Qed.

(** The end marker of a UE leaves the gNB towards the core network as an empty packet. *)
Lemma end_marker_reaches_gtpu :
  Sdap.nr_sdap_rx_entity (A := pdcp_api gnb_node) gnb_manager gnb_entity 1 true true 1 5 idg
    [Sdap.nr_sdap_construct_ctrl_pdu 1] = Ok (gnb_manager, gnb_entity, [GtpuSend idg 5 []]).
Proof. vm_compute. reflexivity. Qed.

(** Deleting an entity when there is none at all reads through a null pointer. *)
Lemma delete_without_entities : Sdap.nr_sdap_delete_entity [] idg 5 = Fault NullDeref.
Proof. reflexivity. Qed.

(** Changing the length of the SN leaves its mask and the window as they were. *)
Lemma reconfigured_sn_size_keeps_window : exists m e,
  nr_pdcp_reconfigure_drb gnb_manager idg 1
    (Some (mk_pdcp_config (Some (mk_drb_config None (Some 1) (Some 1) false)) None false)) = Ok m /\
  bearer m idg false 1 = Some e /\ Pdcp.sn_size e = 18 /\ Pdcp.sn_max e = 4095 /\ Pdcp.window_size e = 2048.
Proof. eexists _, _. split; [vm_compute; reflexivity|]. vm_compute. done. Qed.

(** Reading the statistics of a UE that does not exist adds it to the table. *)
Lemma unknown_ue_is_added : exists m,
  nr_pdcp_get_statistics gnb_manager 99 false 1 = Ok (m, None) /\ length (ue_list m) = 2%nat.
Proof. eexists. split; [vm_compute; reflexivity|reflexivity]. Qed.
End UpScenarios.
