(* ===== verification/PdcpProperties.v ===== *)
(** * Properties of the PDCP entity

    The theorems about [nr_pdcp_entity.c] and the files it uses, with their
    witnesses.  They hold for any platform that satisfies [PlatformLaws]. *)

From S2P Require Import Prelude Snow3g Snow3gSpec Snow3gMac Secu PdcpSdu PdcpEntity.
From S2P Require Import PdcpSecurity PdcpRx PdcpRecv PdcpTx PdcpRun PdcpFixtures.
From S2P Require Import Snow3gTables.

Module PdcpProperties.
Import Secu Pdcp PdcpSecurity PdcpRx PdcpRecv PdcpTx PdcpRun PdcpLink PdcpFixtures.

(** ** Reception *)

(** C35: receiving any bytes that hold a PDCP header never faults and keeps the
    invariant of the entity.  Either the PDU is dropped (too short, wrong MAC-I, old
    or already stored) and nothing moves, or its SDU is added to the stored ones and
    exactly the run of consecutive COUNTs from [rx_deliv] on is delivered. *)
Theorem pdcp_recv_pdu `{P : Platform} `{L : !PlatformLaws P} e buffer :
  inv e -> entity_suspended e = false -> Forall is_byte buffer ->
  hsize e <= zlen buffer < 2 ^ 29 ->
  exists e' out, nr_pdcp_entity_recv_pdu e buffer = Ok (e', out) /\ inv e' /\
    in_order e out e' /\ outcome e buffer e' out.
Proof.
  intros Hi Hsus Hb Hl. rewrite recv_pdu_eq by (done || apply Hi).
  destruct (reception e buffer) as [e' out] eqn:E. exists e', out.
  destruct (pdcp_reception_ok e buffer e' out) as (Hw & Hr & Ho & Hout); [apply Hi|done|done|].
  split_and!; [done|by apply (inv_received e)|done|done].
Qed.

Lemma pdcp_recv_pdu_witness : exists e' out,
  nr_pdcp_entity_recv_pdu gnb_waiting [0x80; 0; 5] = Ok (e', out) /\ inv e' /\
  in_order gnb_waiting out e' /\ outcome gnb_waiting [0x80; 0; 5] e' out.
Proof.
  apply (pdcp_recv_pdu gnb_waiting [0x80; 0; 5]);
    [exact gnb_waiting_inv|reflexivity|apply bytes_dec; reflexivity|vm_compute; split; [discriminate|reflexivity] ].
Defined.

(** The COUNT of a PDU is recovered from its SN whenever the PDU was sent
    within the window around [rx_deliv], also across a change of the HFN. *)
Theorem pdcp_count_of_sn e c : configured e -> count_range (rx_deliv e) -> count_range c ->
  rx_deliv e - window_size e <= c < rx_deliv e + window_size e ->
  count_of_sn e (c mod 2 ^ sn_size e) = c.
Proof. apply count_of_sn_ok. Qed.

(** C38: when the reordering timer expires, every stored SDU below [rx_reord] is
    delivered, then the run from [rx_reord] on; the SDUs are delivered in order, none
    is lost, and [rx_deliv] moves forward: no SDU waits for ever for a lost one. *)
Theorem pdcp_t_reordering `{P : Platform} `{L : !PlatformLaws P} e now :
  inv e -> expired ({| e with t_current := now |}) = true ->
  exists e' out, nr_pdcp_entity_set_time e now = (e', out) /\ inv e' /\
    out ++ rx_list e' = rx_list e /\ ordered e out e' /\
    Forall (fun s => rx_reord e < PdcpSdu.count s) (rx_list e') /\
    (rx_deliv e < rx_deliv e' \/ Exists (fun s => PdcpSdu.count s = 2 ^ 32 - 1) out).
Proof.
  intros Hi Hx. destruct (pdcp_set_time_ok e now Hi) as (e' & out & E & Hi' & Ho).
  exists e', out. unfold nr_pdcp_entity_set_time in *. set (e1 := {| e with t_current := now |}) in *.
  assert (Hw : rx_wf e1).
  { destruct Hi as [[[[H1 H2 H3] H4 H5 H6 H7 H8] H9] _ _]. by split; [split; [split|..]|]. }
  destruct (check_t_reordering_ok e1 Hw Hx) as (e2 & o1 & o2 & E2 & Hw2 & _ & El & Hb & Hseq & Hd).
  rewrite E in E2. injection E2 as -> ->. cbn [rx_list rx_reord e1] in *.
  assert (Hlt : rx_deliv e < rx_reord e) by (apply Hi; unfold expired in Hx; simpl in Hx; lia).
  assert (Hup : rx_reord e <= rx_deliv e2 \/ Exists (fun s => PdcpSdu.count s = 2 ^ 32 - 1) (o1 ++ o2)).
  { destruct (consecutive_end o2 (rx_reord e)) as [[Hle _]|Hmax];
      [apply Hi|done| |apply Hi|left; by rewrite Hd|right; apply Exists_app; by right].
    apply Forall_forall. intros s Hin. apply (proj1 (Forall_forall _ _) (rx_after e1 (rx_ok e1 Hw)) s).
    cbn. rewrite <- El. rewrite !elem_of_app. by right; left. }
  split_and!; [done|done|by rewrite <- app_assoc|done| |].
  - apply Forall_forall. intros s Hin. destruct Hup as [Hup|Hmax].
    + pose proof (proj1 (Forall_forall _ _) (rx_after e2 (rx_ok e2 Hw2)) s Hin). simpl in *. lia.
    + assert (Hs : PdcpSdu.sorted ((o1 ++ o2) ++ rx_list e2)) by (rewrite <- app_assoc, El; apply Hi).
      apply PdcpSdu.sorted_app in Hs as (_ & _ & Hs). apply Exists_exists in Hmax as (x & Hx' & Ex).
      specialize (Hs x s Hx' Hin). unfold PdcpSdu.before in Hs.
      pose proof (proj1 (Forall_forall _ _) (rx_after e2 (rx_ok e2 Hw2)) s Hin). simpl in *. lia.
  - destruct Hup as [Hup|Hmax]; [left; lia|by right].
Qed.

Lemma pdcp_t_reordering_witness : exists e' out,
  nr_pdcp_entity_set_time gnb_waiting 106 = (e', out) /\ inv e' /\
  out ++ rx_list e' = rx_list gnb_waiting /\ ordered gnb_waiting out e' /\
  Forall (fun s => rx_reord gnb_waiting < PdcpSdu.count s) (rx_list e') /\
  (rx_deliv gnb_waiting < rx_deliv e' \/ Exists (fun s => PdcpSdu.count s = 2 ^ 32 - 1) out).
Proof. apply (pdcp_t_reordering gnb_waiting 106); [exact gnb_waiting_inv|reflexivity]. Defined.

(** ** Transmission *)

(** An SDU is turned into one PDU at the start of the buffer (header with the
    SN of [tx_next], SDU, MAC-I, ciphered from the SDAP header on), inside the buffer
    that the caller gave; [tx_next] moves to the next COUNT. *)
Theorem pdcp_process_sdu `{P : Platform} `{L : !PlatformLaws P} e sdu pdu_buffer :
  inv e -> entity_suspended e = false -> Forall is_byte sdu ->
  zlen sdu + 7 <= zlen pdu_buffer -> zlen sdu + 7 < 2 ^ 29 ->
  (has_ciphering e = true -> sdap_tx e < zlen sdu + integrity_size e) ->
  exists n buf e', nr_pdcp_entity_process_sdu e sdu pdu_buffer = Ok (n, buf, e') /\ inv e' /\
    n = hsize e + zlen sdu + integrity_size e /\ take (Z.to_nat n) buf = pdu_of e sdu /\
    tx_next e' = u32 (tx_next e + 1) /\ rx_list e' = rx_list e /\ rx_deliv e' = rx_deliv e.
Proof.
  intros Hi Hsus Hb Hroom Hbig Hc.
  destruct (process_sdu_ok e sdu pdu_buffer) as (rest & E); [apply Hi|apply Hi|done..|].
  destruct (process_sdu_inv e sdu pdu_buffer Hi) as (n & b & e' & E' & Hi' & _); [done|].
  rewrite E in E'. injection E' as <- <- <-. eexists _, _, _. split; [exact E|].
  split_and!; [done|by rewrite pdu_length by apply Hi| |done|done|done].
  unfold zlen. by rewrite Nat2Z.id, take_app_length.
Qed.

(** C36: an SDU sent by an entity and received by its peer, with the same keys and
    algorithms (ciphering, integrity, both or none), arrives with its COUNT and
    exactly its bytes: it is stored, and it is delivered at once when it is the one
    the peer waits for. *)
Theorem pdcp_transfer `{P : Platform} `{L : !PlatformLaws P} s r sdu pdu_buffer :
  inv s -> inv r -> peers s r -> entity_suspended s = false -> entity_suspended r = false ->
  Forall is_byte sdu -> zlen sdu + 7 <= zlen pdu_buffer -> zlen sdu + 7 < 2 ^ 29 ->
  sdap_tx s < zlen sdu ->
  rx_deliv r <= tx_next s < rx_deliv r + window_size r ->
  PdcpSdu.nr_pdcp_sdu_in_list (rx_list r) (tx_next s) = false ->
  exists n buf s' r' out x,
    nr_pdcp_entity_process_sdu s sdu pdu_buffer = Ok (n, buf, s') /\
    nr_pdcp_entity_recv_pdu r (take (Z.to_nat n) buf) = Ok (r', out) /\ inv s' /\ inv r' /\
    PdcpSdu.count x = tx_next s /\ PdcpSdu.buffer x = sdu /\
    out ++ rx_list r' = PdcpSdu.nr_pdcp_sdu_list_add (rx_list r) x /\
    (tx_next s = rx_deliv r -> x ∈ out).
Proof. apply transfer_ok. Qed.

Lemma pdcp_transfer_witness : exists n buf s' r' out x,
  nr_pdcp_entity_process_sdu gnb_snow [1; 2; 3] (replicate 32 0) = Ok (n, buf, s') /\
  nr_pdcp_entity_recv_pdu ue_snow (take (Z.to_nat n) buf) = Ok (r', out) /\ inv s' /\ inv r' /\
  PdcpSdu.count x = tx_next gnb_snow /\ PdcpSdu.buffer x = [1; 2; 3] /\
  out ++ rx_list r' = PdcpSdu.nr_pdcp_sdu_list_add (rx_list ue_snow) x /\
  (tx_next gnb_snow = rx_deliv ue_snow -> x ∈ out).
Proof.
  apply (pdcp_transfer gnb_snow ue_snow [1; 2; 3] (replicate 32 0));
    [exact gnb_snow_inv|exact ue_snow_inv|split; reflexivity|reflexivity|reflexivity
    |apply bytes_dec; reflexivity|vm_compute; discriminate|vm_compute; reflexivity
    |vm_compute; reflexivity|vm_compute; split; [discriminate|reflexivity]|reflexivity].
Defined.

(** ** Security *)

(** RRC can check a message that arrived before integrity was active: the
    receiver keeps the header, the COUNT and the MAC-I of an SRB message, and with the
    keys of the sender [check_integrity] accepts the message (sent with integrity and
    without ciphering). *)
Theorem pdcp_check_integrity `{P : Platform} `{L : !PlatformLaws P} s r r0 sdu :
  inv s -> inv r -> peers s r -> has_integrity s = true -> has_ciphering s = false ->
  is_srb r0 = true -> sn_size r0 = sn_size s -> Forall is_byte sdu -> zlen sdu + 7 < 2 ^ 29 ->
  nr_pdcp_entity_check_integrity r sdu (kept_integrity r0 (tx_next s) (pdu_of s sdu)) = Ok true.
Proof. intros Hs Hr **. by apply (check_integrity_ok s r (inv_sec s Hs)); [|apply inv_sec|..]. Qed.

(** ** Life cycle *)

(** C37: no run of a PDCP entity faults: from a new entity, after any sequence of
    permitted calls, every permitted call returns; the invariant holds, and as long
    as the calls are those of the data path the SDUs come out in strictly increasing
    order of COUNT, each at most once (until the last COUNT of 2^32 is used). *)
Theorem pdcp_run `{P : Platform} `{L : !PlatformLaws P} ty gnb rb pdu srx stx n tr dt p e cs e' out :
  n = SHORT_SN_SIZE \/ n = LONG_SN_SIZE -> 1 <= rb < 32 -> valid_parameters p ->
  new_nr_pdcp_entity ty gnb rb pdu srx stx n tr dt p = Ok e -> run e cs e' out ->
  inv e' /\ (forall c, permitted e' c -> exists e'' o, exec e' c = Ok (e'', o) /\ inv e'') /\
  (forallb is_data cs = true ->
   PdcpSdu.sorted out \/ Exists (fun s => PdcpSdu.count s = 2 ^ 32 - 1) out).
Proof.
  intros Hn Hrb Hv E Hr. destruct (new_ok ty gnb rb pdu srx stx n tr dt p Hn Hrb Hv) as (e0 & E0 & Hi & _).
  rewrite E in E0. injection E0 as <-. destruct (run_ok e cs e' out Hi Hr) as [Hi' Ho].
  split_and!; [done| |].
  - intros c Hc. destruct (pdcp_exec_ok e' c Hi' Hc) as (e'' & o & Ee & Hi'' & _). eauto.
  - intros Hd. destruct (Ho Hd) as [Hx|[Hs _]]; [by right|by left].
Qed.

Lemma pdcp_run_witness : exists e' out,
  run gnb_plain [RecvPdu [0x80; 0; 5]; ProcessSdu [1; 2] (replicate 16 0)] e' out /\
  inv e' /\ (forall c, permitted e' c -> exists e'' o, exec e' c = Ok (e'', o) /\ inv e'') /\
  (forallb is_data [RecvPdu [0x80; 0; 5]; ProcessSdu [1; 2] (replicate 16 0)] = true ->
   PdcpSdu.sorted out \/ Exists (fun s => PdcpSdu.count s = 2 ^ 32 - 1) out).
Proof.
  assert (Hrun : exists e' out,
    run gnb_plain [RecvPdu [0x80; 0; 5]; ProcessSdu [1; 2] (replicate 16 0)] e' out).
  { eexists _, _. eapply run_cons.
    - split; [apply bytes_dec; reflexivity|]. right. vm_compute. split; [discriminate|reflexivity].
    - vm_compute. reflexivity.
    - eapply run_cons.
      + split; [apply bytes_dec; reflexivity|]. vm_compute.
        split_and!; [discriminate|reflexivity|discriminate].
      + vm_compute. reflexivity.
      + apply run_nil. }
  destruct Hrun as (e' & out & Hrun). exists e', out. split; [exact Hrun|].
  apply (pdcp_run NR_PDCP_DRB_AM true 1 0 false false SHORT_SN_SIZE 100 (-1) no_keys gnb_plain
           [RecvPdu [0x80; 0; 5]; ProcessSdu [1; 2] (replicate 16 0)] e' out);
    [by left|lia|by apply keys_valid|vm_compute; reflexivity|exact Hrun].
Defined.

(** A suspended entity has started its COUNTs again, has delivered the stored
    SDUs when the reordering timer was running, and neither accepts a PDU nor
    processes an SDU; re-establishment makes it accept traffic again, with the
    invariant. *)
Theorem pdcp_suspend `{P : Platform} `{L : !PlatformLaws P} e p buffer sdu pdu_buffer :
  inv e -> valid_parameters p -> zlen sdu + 7 <= zlen pdu_buffer ->
  exists e' out e'' out'', nr_pdcp_entity_suspend e = (e', out) /\ inv e' /\
    out ++ rx_list e' = rx_list e /\ tx_next e' = 0 /\ rx_next e' = 0 /\ rx_deliv e' = 0 /\
    nr_pdcp_entity_recv_pdu e' buffer = Ok (e', []) /\
    nr_pdcp_entity_process_sdu e' sdu pdu_buffer = Ok (-1, pdu_buffer, e') /\
    reestablish_entity e' p = Ok (e'', out'') /\ inv e'' /\ entity_suspended e'' = false.
Proof.
  intros Hi Hv Hroom. destruct (suspend_ok e Hi) as (e' & out & E & Hi' & El).
  destruct (reestablish_ok e' p Hi' Hv) as (e'' & out'' & Er & Hi'' & Hsus).
  exists e', out, e'', out''. unfold nr_pdcp_entity_suspend in E.
  assert (Hst : tx_next e' = 0 /\ rx_next e' = 0 /\ rx_deliv e' = 0 /\ entity_suspended e' = true).
  { cbn [t_reordering_start] in E.
    destruct (negb _); [rewrite deliver_all_ok in E|]; by injection E as <- _. }
  destruct Hst as (H1 & H2 & H3 & H4). split_and!; try done.
  - unfold nr_pdcp_entity_recv_pdu. by rewrite H4.
  - unfold nr_pdcp_entity_process_sdu. rewrite dev_assert_ok, H4; [done|].
    unfold nr_max_pdcp_pdu_size, LONG_PDCP_HEADER_SIZE, PDCP_INTEGRITY_SIZE. lia.
Qed.

(** A COUNT (HFN and SN within the SN size of the entity) that is set on an
    entity is the one that is read back, for both directions, and setting one
    direction leaves the other alone. *)
Theorem pdcp_count_roundtrip e c : configured e ->
  0 <= sn c < 2 ^ sn_size e -> 0 <= hfn c < 2 ^ (32 - sn_size e) ->
  nr_pdcp_entity_get_count_dl (nr_pdcp_entity_set_count_dl e c (sn_size e)) = c /\
  nr_pdcp_entity_get_count_ul (nr_pdcp_entity_set_count_ul e c (sn_size e)) = c /\
  nr_pdcp_entity_get_count_ul (nr_pdcp_entity_set_count_dl e c (sn_size e))
  = nr_pdcp_entity_get_count_ul e /\
  nr_pdcp_entity_get_count_dl (nr_pdcp_entity_set_count_ul e c (sn_size e))
  = nr_pdcp_entity_get_count_dl e.
Proof.
  intros Hcf Hs Hh. assert (Hn : 0 < sn_size e < 32) by (destruct Hcf as [[->| ->] _ _]; done).
  destruct (compose_count_ok (sn_size e) c Hn Hs Hh) as (_ & E1 & E2).
  unfold nr_pdcp_entity_get_count_dl, nr_pdcp_entity_get_count_ul; simpl.
  rewrite (cf_max e Hcf), !land_mask, E1, E2 by lia. by destruct c.
Qed.

End PdcpProperties.

(** * Properties of SNOW 3G

    The theorems about [openair3/SECU/snow3g.c], with their witnesses. *)
Module SnowProperties.
Import Snow3g SnowRef MacRef.

(** The key and the first bytes of the message of a published test set. *)
Definition test_key : list Z :=
  [0x2b; 0xd6; 0x45; 0x9f; 0x82; 0xc5; 0xb3; 0x00; 0x95; 0x2c; 0x49; 0x10; 0x48; 0x81; 0xff; 0x48].
Definition test_data : list Z := [0x7e; 0xc6; 0x12; 0x72; 0x74; 0x3b; 0xf1; 0x61].

(** The lookup tables of [snow3g.c] are right: the S-box functions [s1] and
    [s2], made of four table lookups, are the substitution and the mix of columns in
    GF(2^8), for every word; [MULa] and [DIVa] are the multiplication and the
    division by alpha, for every byte. *)
Theorem snow3g_tables w c : is_byte c ->
  s1 w = S1 w /\ s2 w = S2 w /\ MULa c = MULalpha c /\ DIVa c = DIValpha c.
Proof.
  intros Hc. split_and!; [apply SnowTables.s1_spec|apply SnowTables.s2_spec| |].
  - by apply SnowTables.MULa_spec.
  - by apply SnowTables.DIVa_spec.
Qed.

(** C39: [snow3g_ciphering] is the f8 function of the specification, whatever its
    uninitialised local array holds: it never reads it, never leaves it, keeps the
    length of the message, and ciphering twice gives the message back. *)
Theorem snow3g_cipher junk junk' count bearer direction key data :
  length junk = 32%nat -> length junk' = 32%nat -> length key = 16%nat ->
  exists out, snow3g_ciphering junk count bearer direction key data = Ok out /\
    out = f8 count bearer direction key data /\ length out = length data /\
    snow3g_ciphering junk' count bearer direction key out = Ok data.
Proof.
  intros Hj Hj' Hk. exists (f8 count bearer direction key data).
  rewrite !SnowLfsr.snow3g_ciphering_ok by done.
  rewrite SnowLfsr.f8_involutive, SnowLfsr.length_f8. done.
Qed.

Lemma snow3g_cipher_witness : exists out,
  snow3g_ciphering (replicate 32 7) 0x72a4f20f 0x0c 1 test_key test_data = Ok out /\
  out = f8 0x72a4f20f 0x0c 1 test_key test_data /\ length out = length test_data /\
  snow3g_ciphering (replicate 32 9) 0x72a4f20f 0x0c 1 test_key out = Ok test_data.
Proof. apply (snow3g_cipher (replicate 32 7) (replicate 32 9)); reflexivity. Defined.

(** The table of multiples that the integrity function fills at each call
    multiplies in GF(2^64): with the table of [p], whatever the memory held before,
    [mul_p] gives the product that [MUL64] computes bit by bit. *)
Theorem snow3g_mul_table junk p x :
  MacTable.shape junk -> 0 <= p < 2 ^ 64 -> 0 <= x < 2 ^ 64 ->
  exists pm, precompute junk p = Ok pm /\ mul_p pm x = Ok (MUL64 x p 0x1b).
Proof.
  intros Hj Hp Hx. destruct (MacTable.precompute_ok p junk Hj) as (pm & E & Hk).
  exists pm. split; [done|]. rewrite (MacTable.mul_p_ok p) by done. by rewrite Gf64.MUL64_comm.
Qed.

(** C40: [snow3g_integrity] computes the f9 function of the specification for every
    message that is not empty (and whose length in bits is an [int]), whatever its
    uninitialised local arrays hold. *)
Theorem snow3g_mac junk junk_pm count bearer direction key data :
  length junk = 32%nat -> MacTable.shape junk_pm -> length key = 16%nat ->
  Forall is_byte key -> Forall is_byte data -> 0 < zlen data < 2 ^ 27 ->
  snow3g_integrity junk junk_pm count bearer direction key data
  = Ok (f9 count (u32 (Z.shiftl bearer 27)) direction key data).
Proof. intros. apply MacTable._snow3g_integrity_ok; (done || lia). Qed.

Lemma snow3g_mac_witness :
  snow3g_integrity (replicate 32 7) (replicate 8 (replicate 256 7)) 0x38a6f056 3 0 test_key test_data
  = Ok (f9 0x38a6f056 0x18000000 0 test_key test_data).
Proof.
  apply (snow3g_mac (replicate 32 7) (replicate 8 (replicate 256 7)) 0x38a6f056 3 0 test_key test_data).
  - reflexivity.
  - split; [reflexivity|]. apply Forall_replicate. reflexivity.
  - reflexivity.
  - repeat (apply Forall_cons_2; [unfold is_byte; lia|]). apply Forall_nil_2.
  - repeat (apply Forall_cons_2; [unfold is_byte; lia|]). apply Forall_nil_2.
  - vm_compute. split; reflexivity.
Defined.

(** The test set: the first bytes of the ciphertext. *)
Example test_set_1 :
  snow3g_ciphering (replicate 32 7) 0x72a4f20f 0x0c 1 test_key test_data
  = Ok [0x8c; 0xeb; 0xa6; 0x29; 0x43; 0xdc; 0xed; 0x3a].
Proof. vm_compute. reflexivity. Qed.

End SnowProperties.
