(* ===== verification/Crc.v ===== *)
(** * Cyclic redundancy checks

    Models [openair1/PHY/CODING/crc_byte.c], built without SIMD instructions: the CRCs
    of transport blocks, code blocks and control channels.  A CRC is computed in a
    32-bit register, its bits at the top.  [crcbit] works bit by bit; the others take
    a byte at a time from tables that [crcTableInit] fills with [crcbit]. *)

From S2P Require Import Prelude.

Module Crc.

Definition poly24a : Z := 0x864cfb00.
Definition poly24b : Z := 0x80006300.
Definition poly24c : Z := 0xb2b11700.
Definition poly16 : Z := 0x10210000.
Definition poly12 : Z := 0x80F00000.
Definition poly8 : Z := 0x9B000000.
Definition poly6 : Z := 0x84000000.
Definition poly11 : Z := 0xc4200000.

(** The [i] rounds of the inner loop of [crcbit]. *)
Fixpoint crcbit_rounds (i : nat) (poly crc c : Z) : Z :=
  match i with
  | O => crc
  | S i =>
      let crc := if Z.testbit (Z.lxor c crc) 31 then Z.lxor (u32 (Z.shiftl crc 1)) poly
                 else u32 (Z.shiftl crc 1) in
      crcbit_rounds i poly crc (u32 (Z.shiftl c 1))
  end.

Definition crcbit_octet (poly crc b : Z) : Z := crcbit_rounds 8 poly crc (u32 (Z.shiftl b 24)).

Definition crcbit (input : list Z) (octetlen poly : Z) : res Z :=
  l ← zslice input 0 (Z.max 0 octetlen);
  mret (foldl (crcbit_octet poly) 0 l).

(** ** Tables *)

(** One table of [crcTableInit]: the CRC of each byte, moved down by [sh] bits. *)
Definition table (poly sh : Z) : list Z := map (fun c => Z.shiftr (crcbit_octet poly 0 c) sh) (seqZ 0 256).

Definition crc24aTable : list Z := table poly24a 0.
Definition crc24bTable : list Z := table poly24b 0.
Definition crc24cTable : list Z := table poly24c 0.
Definition crc16Table : list Z := table poly16 16.
Definition crc12Table : list Z := table poly12 16.
Definition crc11Table : list Z := table poly11 16.
Definition crc8Table : list Z := table poly8 24.
Definition crc6Table : list Z := table poly6 24.

(** [tab[i] << sh]. *)
Definition entry (tab : list Z) (sh i : Z) : res Z := v ← zget tab i; mret (u32 (Z.shiftl v sh)).

(** One round of the loop over the bytes. *)
Definition next_octet (tab : list Z) (sh crc b : Z) : res Z :=
  v ← entry tab sh (Z.lxor b (Z.shiftr crc 24)); mret (Z.lxor (u32 (Z.shiftl crc 8)) v).

(** The round of the CRCs of at most 8 bits: nothing of the register is left. *)
Definition short_octet (tab : list Z) (sh crc b : Z) : res Z := entry tab sh (Z.lxor b (Z.shiftr crc 24)).

(** The loop and the bits that are left. *)
Definition crc_lut (next : Z -> Z -> res Z) (tab : list Z) (sh : Z) (inptr : list Z) (bitlen : Z) : res Z :=
  let octetlen := Z.quot bitlen 8 in
  let resbit := Z.rem bitlen 8 in
  l ← zslice inptr 0 (Z.max 0 octetlen);
  crc ← res_foldl next 0 l;
  if resbit >? 0 then
    b ← zget inptr octetlen;
    v ← entry tab sh (Z.lxor (Z.shiftr b (8 - resbit)) (Z.shiftr crc (32 - resbit)));
    mret (Z.lxor (u32 (Z.shiftl crc resbit)) v)
  else mret crc.

Definition crc24a : list Z -> Z -> res Z := crc_lut (next_octet crc24aTable 0) crc24aTable 0.
Definition crc24b : list Z -> Z -> res Z := crc_lut (next_octet crc24bTable 0) crc24bTable 0.
Definition crc24c : list Z -> Z -> res Z := crc_lut (next_octet crc24cTable 0) crc24cTable 0.
Definition crc16 : list Z -> Z -> res Z := crc_lut (next_octet crc16Table 16) crc16Table 16.
Definition crc12 : list Z -> Z -> res Z := crc_lut (next_octet crc12Table 16) crc12Table 16.
Definition crc11 : list Z -> Z -> res Z := crc_lut (next_octet crc11Table 16) crc11Table 16.
Definition crc8 : list Z -> Z -> res Z := crc_lut (short_octet crc8Table 24) crc8Table 24.
Definition crc6 : list Z -> Z -> res Z := crc_lut (short_octet crc6Table 24) crc6Table 24.

(** ** Checking a block *)

Definition CRC24_A : Z := 0.
Definition CRC24_B : Z := 1.
Definition CRC16 : Z := 2.
Definition CRC8 : Z := 3.

Definition crc_len (crc_type : Z) : Z :=
  if (crc_type =? CRC24_A) || (crc_type =? CRC24_B) then 3
  else if crc_type =? CRC16 then 2
  else if crc_type =? CRC8 then 1
  else 0.

(** [oldcrc]: the bytes of the CRC, the first one at the top. *)
Definition read_crc (decoded_bytes : list Z) (n len : Z) : res Z :=
  res_foldl (fun oldcrc i =>
    b ← zget decoded_bytes (Z.shiftr n 3 - len + i);
    mret (Z.lor oldcrc (u32 (Z.shiftl b (Z.shiftl (len - 1 - i) 3))))) 0 (seqZ 0 len).

(** 1 when the CRC is right.  The assertions on the type of CRC always hold: an unknown
    type has no CRC. *)
Definition check_crc (decoded_bytes : list Z) (n crc_type : Z) : res Z :=
  oldcrc ← read_crc decoded_bytes n (crc_len crc_type);
  '(crc, oldcrc) ←
    (if crc_type =? CRC24_A then
       c ← crc24a decoded_bytes (n - 24); mret (Z.shiftr c 8, Z.land oldcrc 0x00ffffff)
     else if crc_type =? CRC24_B then
       c ← crc24b decoded_bytes (n - 24); mret (Z.shiftr c 8, Z.land oldcrc 0x00ffffff)
     else if crc_type =? CRC16 then
       c ← crc16 decoded_bytes (n - 16); mret (Z.shiftr c 16, Z.land oldcrc 0x0000ffff)
     else if crc_type =? CRC8 then
       c ← crc8 decoded_bytes (n - 8); mret (Z.shiftr c 24, Z.land oldcrc 0x000000ff)
     else mret (0, oldcrc));
  mret (if crc =? oldcrc then 1 else 0).
End Crc.
