(* ===== verification/CrcSpec.v ===== *)
(** * Cyclic redundancy checks: the register as a linear map

    One round of the register is the map [sigma]; it is linear, and feeding a bit adds
    it at the top before the round.  [crc_bits] feeds a sequence of bits; the functions
    of [crc_byte.c] compute it, the tables included, for any number of bits.  On the
    registers of a CRC of [deg] bits, [sigma] loses nothing: this gives what a CRC
    detects. *)

From S2P Require Import Prelude Crc.

Module CrcSpec.
Import Crc.

Definition reg (x : Z) : Prop := 0 <= x < 2 ^ 32.

Definition sigma (poly x : Z) : Z :=
  if Z.testbit x 31 then Z.lxor (u32 (Z.shiftl x 1)) poly else u32 (Z.shiftl x 1).

Definition feed (poly crc : Z) (b : bool) : Z := sigma poly (Z.lxor crc (Z.shiftl (b2z b) 31)).

(** The CRC of a sequence of bits. *)
Definition crc_bits (poly : Z) (l : list bool) : Z := foldl (feed poly) 0 l.

(** ** Bits of registers *)

Lemma u32_testbit x n : 0 <= n -> Z.testbit (u32 x) n = (n <? 32) && Z.testbit x n.
Proof.
  intros Hn. unfold u32. destruct (Z.ltb_spec n 32).
  - by rewrite Z.mod_pow2_bits_low by lia.
  - by rewrite Z.mod_pow2_bits_high by lia.
Qed.

Lemma reg_u32 x : reg x <-> u32 x = x.
Proof. unfold reg, u32. split; [apply Z.mod_small|intros <-; by apply Z.mod_pos_bound]. Qed.

Lemma u32_reg x : reg (u32 x).
Proof. by apply Z.mod_pos_bound. Qed.

Lemma reg_high x n : reg x -> 32 <= n -> Z.testbit x n = false.
Proof. intros <-%reg_u32 Hn. rewrite u32_testbit by lia. by destruct (Z.ltb_spec n 32); [lia|]. Qed.

Lemma reg_lxor x y : reg x -> reg y -> reg (Z.lxor x y).
Proof.
  intros Hx Hy. apply reg_u32, Z.bits_inj'. intros n Hn. rewrite u32_testbit by lia.
  destruct (Z.ltb_spec n 32); [done|]. by rewrite Z.lxor_spec, !reg_high.
Qed.

Lemma u32_lxor x y : u32 (Z.lxor x y) = Z.lxor (u32 x) (u32 y).
Proof.
  apply Z.bits_inj'. intros n Hn. rewrite Z.lxor_spec, !u32_testbit, Z.lxor_spec by lia.
  by destruct (n <? 32).
Qed.

Lemma u32_shiftl_twice x i j : 0 <= i -> 0 <= j -> u32 (Z.shiftl (u32 (Z.shiftl x i)) j) = u32 (Z.shiftl x (i + j)).
Proof.
  intros Hi Hj. apply Z.bits_inj'. intros n Hn. rewrite !u32_testbit, !Z.shiftl_spec by lia.
  destruct (Z.ltb_spec n 32); [|done]. cbn [andb]. destruct (Z.ltb_spec (n - j) 0).
  - by rewrite !Z.testbit_neg_r by lia.
  - rewrite u32_testbit, Z.shiftl_spec by lia. destruct (Z.ltb_spec (n - j) 32); [|lia].
    cbn [andb]. f_equal. lia.
Qed.

Lemma shiftl_small x i : 0 <= i -> 0 <= x < 2 ^ (32 - i) -> i <= 32 -> reg (Z.shiftl x i) /\ u32 (Z.shiftl x i) = Z.shiftl x i.
Proof.
  intros Hi Hx Hi'. assert (reg (Z.shiftl x i)); [|split; [done|by apply reg_u32] ].
  unfold reg. rewrite Z.shiftl_mul_pow2 by lia. split; [nia|].
  replace (2 ^ 32) with (2 ^ (32 - i) * 2 ^ i) by (rewrite <- Z.pow_add_r by lia; f_equal; lia). nia.
Qed.

Section poly.
Context (poly : Z) (Hpoly : reg poly).

Lemma sigma_reg x : reg (sigma poly x).
Proof using Hpoly. unfold sigma. destruct (Z.testbit x 31); [apply reg_lxor; [apply u32_reg|done]|apply u32_reg]. Qed.

Lemma sigma_lxor x y : sigma poly (Z.lxor x y) = Z.lxor (sigma poly x) (sigma poly y).
Proof using.
  unfold sigma. rewrite Z.shiftl_lxor, u32_lxor, Z.lxor_spec.
  destruct (Z.testbit x 31), (Z.testbit y 31); cbn [xorb];
    apply Z.bits_inj'; intros n _; rewrite !Z.lxor_spec;
    destruct (Z.testbit (u32 (Z.shiftl x 1)) n), (Z.testbit (u32 (Z.shiftl y 1)) n), (Z.testbit poly n); done.
Qed.

Definition sigmas (k : nat) (x : Z) : Z := Nat.iter k (sigma poly) x.

Lemma sigmas_S k x : sigmas (S k) x = sigmas k (sigma poly x).
Proof using. unfold sigmas. by rewrite Nat.iter_succ_r. Qed.

Lemma sigmas_add j k x : sigmas (j + k) x = sigmas j (sigmas k x).
Proof using. unfold sigmas. apply Nat.iter_add. Qed.

Lemma sigmas_lxor k x y : sigmas k (Z.lxor x y) = Z.lxor (sigmas k x) (sigmas k y).
Proof using. revert x y. induction k as [|k IH]; intros x y; [done|]. by rewrite !sigmas_S, sigma_lxor, IH. Qed.

Lemma sigmas_reg k x : reg x -> reg (sigmas k x).
Proof using Hpoly. intros Hx. destruct k; [done|]. apply sigma_reg. Qed.

(** Bits that do not reach the top only move. *)
Lemma sigmas_low (k : nat) x : (k <= 32)%nat -> 0 <= x < 2 ^ (32 - Z.of_nat k) ->
  sigmas k x = Z.shiftl x (Z.of_nat k).
Proof using.
  revert x. induction k as [|k IH]; intros x Hk Hx; [symmetry; apply Z.shiftl_0_r|].
  assert (Hx1 : 0 <= x < 2 ^ 31).
  { split; [lia|]. apply (Z.lt_le_trans _ (2 ^ (32 - Z.of_nat (S k)))); [lia|]. apply Z.pow_le_mono_r; lia. }
  rewrite sigmas_S. assert (sigma poly x = Z.shiftl x 1) as ->.
  { unfold sigma. destruct (Z.testbit x 31) eqn:Ht.
    - exfalso. rewrite <- (Z.mod_small x (2 ^ 31)), Z.mod_pow2_bits_high in Ht by lia. done.
    - apply shiftl_small; [lia|change (32 - 1) with 31; lia|lia]. }
  rewrite IH; [by rewrite Z.shiftl_shiftl, Nat2Z.inj_succ, Z.add_comm by lia|lia|].
  rewrite Z.shiftl_mul_pow2 by lia. rewrite Nat2Z.inj_succ in Hx.
  replace (32 - Z.of_nat k) with (32 - Z.succ (Z.of_nat k) + 1) by lia. rewrite Z.pow_add_r by lia. lia.
Qed.

(** *** [crcbit] *)

Lemma rounds_spec (k : nat) crc c : crcbit_rounds k poly crc c
  = Z.lxor (sigmas k (Z.lxor crc c)) (if (k =? 0)%nat then c else u32 (Z.shiftl c (Z.of_nat k))).
Proof using.
  revert crc c. induction k as [|k IH]; intros crc c; cbn [crcbit_rounds].
  { cbn. by rewrite Z.lxor_assoc, Z.lxor_nilpotent, Z.lxor_0_r. }
  set (crc' := if Z.testbit (Z.lxor c crc) 31 then _ else _).
  assert (Hd : Z.lxor crc' (u32 (Z.shiftl c 1)) = sigma poly (Z.lxor crc c)).
  { unfold crc', sigma. rewrite Z.shiftl_lxor, u32_lxor, (Z.lxor_comm c crc).
    destruct (Z.testbit (Z.lxor crc c) 31); [|done].
    by rewrite !Z.lxor_assoc, (Z.lxor_comm poly). }
  rewrite IH, Hd, sigmas_S. f_equal. cbn [Nat.eqb]. destruct k as [|k]; [done|]. cbn [Nat.eqb].
  rewrite u32_shiftl_twice by lia. do 2 f_equal. lia.
Qed.

Lemma octet_spec crc b : is_byte b -> crcbit_octet poly crc b = sigmas 8 (Z.lxor crc (Z.shiftl b 24)).
Proof using.
  intros Hb. unfold crcbit_octet. rewrite rounds_spec. cbn [Nat.eqb].
  rewrite u32_shiftl_twice by lia. change (24 + Z.of_nat 8) with 32.
  assert (u32 (Z.shiftl b 32) = 0) as ->.
  { unfold u32. rewrite Z.shiftl_mul_pow2 by lia. by apply Z.mod_mul. }
  rewrite Z.lxor_0_r. do 2 f_equal. apply shiftl_small; [lia|unfold is_byte in Hb; lia|lia].
Qed.

(** *** Sequences of bits *)

Lemma feed_bits (k : nat) v crc : (k <= 32)%nat ->
  foldl (feed poly) crc (bits k v) = sigmas k (Z.lxor crc (Z.shiftl (v mod 2 ^ Z.of_nat k) (32 - Z.of_nat k))).
Proof using.
  revert crc. induction k as [|k IH]; intros crc Hk.
  { cbn [bits foldl]. by rewrite Z.mod_1_r, Z.shiftl_0_l, Z.lxor_0_r. }
  cbn [bits foldl]. rewrite IH by lia. unfold feed. rewrite sigmas_S, !sigma_lxor, Z.lxor_assoc. do 2 f_equal.
  set (low := v mod 2 ^ Z.of_nat k). assert (Hlow : 0 <= low < 2 ^ Z.of_nat k) by (apply Z.mod_pos_bound; lia).
  assert (E : Z.shiftl low (32 - Z.of_nat k) = sigma poly (Z.shiftl low (31 - Z.of_nat k))).
  { assert (Hr : 0 <= Z.shiftl low (31 - Z.of_nat k) < 2 ^ (32 - Z.of_nat 1)).
    { rewrite Z.shiftl_mul_pow2 by lia. change (32 - Z.of_nat 1) with 31.
      replace (2 ^ 31) with (2 ^ Z.of_nat k * 2 ^ (31 - Z.of_nat k)) by (rewrite <- Z.pow_add_r by lia; f_equal; lia). nia. }
    change (sigma poly ?x) with (sigmas 1 x). rewrite sigmas_low by (done || lia).
    rewrite Z.shiftl_shiftl by lia. f_equal. lia. }
  rewrite E, <- sigma_lxor. f_equal. apply Z.bits_inj'. intros n Hn. rewrite Z.lxor_spec, !Z.shiftl_spec by lia.
  rewrite Nat2Z.inj_succ. replace (n - (32 - Z.succ (Z.of_nat k))) with (n - 31 + Z.of_nat k) by lia.
  replace (n - (31 - Z.of_nat k)) with (n - 31 + Z.of_nat k) by lia. unfold low.
  destruct (Z.ltb_spec (n - 31 + Z.of_nat k) 0) as [Hneg|Hpos].
  { rewrite !(Z.testbit_neg_r _ (n - 31 + Z.of_nat k)) by done. by rewrite Z.testbit_neg_r by lia. }
  destruct (Z.lt_trichotomy n 31) as [Hl|[->|Hg]].
  - rewrite !Z.mod_pow2_bits_low by lia. by rewrite (Z.testbit_neg_r _ (n - 31)) by lia.
  - change (31 - 31) with 0. rewrite Z.add_0_l.
    rewrite (Z.mod_pow2_bits_low v (Z.succ (Z.of_nat k))), (Z.mod_pow2_bits_high v (Z.of_nat k)) by lia.
    by destruct (Z.testbit v (Z.of_nat k)).
  - rewrite !Z.mod_pow2_bits_high by lia. destruct (Z.testbit v (Z.of_nat k)); cbn [b2z].
    + by rewrite Z.bits_above_log2 by (cbn; lia).
    + by rewrite Z.bits_0.
Qed.

Lemma feed_octets crc l : Forall is_byte l ->
  foldl (crcbit_octet poly) crc l = foldl (feed poly) crc (buffer_bits l).
Proof using.
  intros Hl. revert crc. induction Hl as [|b l Hb _ IH]; intros crc; [done|].
  unfold buffer_bits. cbn [foldl map concat]. rewrite foldl_app, feed_bits by lia.
  change (32 - Z.of_nat 8) with 24. change (2 ^ Z.of_nat 8) with 256. rewrite Z.mod_small by done.
  rewrite <- octet_spec by done. apply IH.
Qed.

(** *** Tables *)

(** The low bits of the register are not used. *)
Definition aligned (sh x : Z) : Prop := forall n, 0 <= n < sh -> Z.testbit x n = false.

Lemma aligned_lxor sh x y : aligned sh x -> aligned sh y -> aligned sh (Z.lxor x y).
Proof using. intros Hx Hy n Hn. by rewrite Z.lxor_spec, Hx, Hy. Qed.

Lemma aligned_shiftl sh x k : sh <= k -> aligned sh (Z.shiftl x k).
Proof using. intros Hk n Hn. rewrite Z.shiftl_spec by lia. apply Z.testbit_neg_r. lia. Qed.

Lemma aligned_back sh x : 0 <= sh -> reg x -> aligned sh x -> u32 (Z.shiftl (Z.shiftr x sh) sh) = x.
Proof using.
  intros Hs Hx Ha. apply Z.bits_inj'. intros n Hn. rewrite u32_testbit, Z.shiftl_spec by lia.
  destruct (Z.ltb_spec n 32); [|by rewrite (reg_high x n Hx)]. cbn [andb]. destruct (Z.ltb_spec n sh).
  - rewrite Z.testbit_neg_r by lia. symmetry. by apply Ha.
  - rewrite Z.shiftr_spec by lia. f_equal. lia.
Qed.

Lemma aligned_unshift s x : 0 <= s -> aligned s x -> Z.shiftl (Z.shiftr x s) s = x.
Proof using.
  intros Hs Ha. apply Z.bits_inj'. intros n Hn. rewrite Z.shiftl_spec by lia. destruct (Z.ltb_spec n s).
  - rewrite Z.testbit_neg_r by lia. symmetry. by apply Ha.
  - rewrite Z.shiftr_spec by lia. f_equal. lia.
Qed.

Context (sh : Z) (Hsh : 0 <= sh <= 24) (Hal : aligned sh poly).

Lemma sigma_aligned x : aligned sh x -> aligned sh (sigma poly x).
Proof using Hsh Hal.
  intros Hx. assert (H : aligned sh (u32 (Z.shiftl x 1))).
  { intros n Hn. rewrite u32_testbit, Z.shiftl_spec by lia. destruct (Z.ltb_spec n 32); [|done].
    destruct (Z.ltb_spec (n - 1) 0); [by rewrite Z.testbit_neg_r|]. apply Hx. lia. }
  unfold sigma. destruct (Z.testbit x 31); [by apply aligned_lxor|done].
Qed.

Lemma sigmas_aligned k x : aligned sh x -> aligned sh (sigmas k x).
Proof using Hsh Hal. revert x. induction k as [|k IH]; intros x Hx; [done|]. rewrite sigmas_S. by apply IH, sigma_aligned. Qed.

Lemma byte_reg b : is_byte b -> reg (Z.shiftl b 24).
Proof using. intros Hb. apply shiftl_small; [lia|unfold is_byte in Hb; lia|lia]. Qed.

Lemma octet_reg crc b : reg crc -> is_byte b -> reg (crcbit_octet poly crc b).
Proof using Hpoly. intros Hc Hb. rewrite octet_spec by done. by apply sigmas_reg, reg_lxor; [|apply byte_reg]. Qed.

Lemma octet_aligned crc b : aligned sh crc -> is_byte b -> aligned sh (crcbit_octet poly crc b).
Proof using Hsh Hal.
  intros Hc Hb. rewrite octet_spec by done. apply sigmas_aligned, aligned_lxor; [done|]. apply aligned_shiftl. lia.
Qed.

Lemma entry_ok c : is_byte c -> entry (table poly sh) sh c = Ok (sigmas 8 (Z.shiftl c 24)).
Proof using Hpoly Hsh Hal.
  intros Hc. unfold entry, table.
  rewrite (proj2 (zget_ok _ _ (Z.shiftr (crcbit_octet poly 0 c) sh))).
  - rewrite res_bind_unfold, aligned_back.
    + by rewrite octet_spec.
    + lia.
    + by apply octet_reg.
    + apply octet_aligned; [|done]. intros n Hn. apply Z.bits_0.
  - unfold is_byte in Hc. split; [lia|]. rewrite list_lookup_fmap, lookup_seqZ_lt by lia. cbn. by rewrite Z.add_0_l, Z2Nat.id by lia.
Qed.

(** A register in two parts: what leaves it in [k] rounds, and the rest. *)
Lemma reg_split (k : nat) crc v : (1 <= k <= 8)%nat -> reg crc -> 0 <= v < 2 ^ Z.of_nat k ->
  sigmas k (Z.lxor crc (Z.shiftl v (32 - Z.of_nat k))) =
  Z.lxor (u32 (Z.shiftl crc (Z.of_nat k)))
    (sigmas k (Z.shiftl (Z.lxor v (Z.shiftr crc (32 - Z.of_nat k))) (32 - Z.of_nat k))).
Proof using.
  intros Hk Hc Hv. set (m := 32 - Z.of_nat k). set (low := crc mod 2 ^ m).
  assert (Hlow : 0 <= low < 2 ^ m) by (apply Z.mod_pos_bound; lia).
  assert (E : Z.lxor crc (Z.shiftl v m) = Z.lxor low (Z.shiftl (Z.lxor v (Z.shiftr crc m)) m)).
  { apply Z.bits_inj'. intros n Hn. rewrite Z.shiftl_lxor, !Z.lxor_spec, !Z.shiftl_spec by lia. unfold low.
    destruct (Z.ltb_spec n m).
    - rewrite Z.mod_pow2_bits_low by lia. rewrite !(Z.testbit_neg_r _ (n - m)) by lia. done.
    - rewrite Z.mod_pow2_bits_high by lia. rewrite Z.shiftr_spec by lia. replace (n - m + m) with n by lia.
      by destruct (Z.testbit crc n), (Z.testbit v (n - m)). }
  rewrite E, sigmas_lxor. f_equal. rewrite sigmas_low by (lia || done).
  apply Z.bits_inj'. intros n Hn. rewrite u32_testbit, !Z.shiftl_spec by lia. unfold low.
  destruct (Z.ltb_spec n 32); cbn [andb].
  - destruct (Z.ltb_spec (n - Z.of_nat k) 0); [by rewrite !Z.testbit_neg_r|]. by rewrite Z.mod_pow2_bits_low by lia.
  - by rewrite Z.mod_pow2_bits_high by lia.
Qed.

Lemma shiftr_small crc m : reg crc -> 0 <= m <= 32 -> 0 <= Z.shiftr crc m < 2 ^ (32 - m).
Proof using.
  intros Hc Hm. unfold reg in Hc. rewrite Z.shiftr_div_pow2 by lia. split; [apply Z.div_pos; lia|].
  apply Z.div_lt_upper_bound; [lia|]. rewrite <- Z.pow_add_r by lia. replace (m + (32 - m)) with 32 by lia. lia.
Qed.

Lemma lxor_small n a b : 0 <= n -> 0 <= a < 2 ^ n -> 0 <= b < 2 ^ n -> 0 <= Z.lxor a b < 2 ^ n.
Proof using.
  intros Hn Ha Hb. assert (E : Z.lxor a b mod 2 ^ n = Z.lxor a b).
  { apply Z.bits_inj'. intros i Hi. destruct (Z.ltb_spec i n); [by rewrite Z.mod_pow2_bits_low|].
    rewrite Z.mod_pow2_bits_high, Z.lxor_spec by lia.
    rewrite <- (Z.mod_small a (2 ^ n)), <- (Z.mod_small b (2 ^ n)) by done.
    by rewrite !Z.mod_pow2_bits_high by lia. }
  rewrite <- E. apply Z.mod_pos_bound. lia.
Qed.

Lemma next_octet_ok crc b : reg crc -> is_byte b ->
  next_octet (table poly sh) sh crc b = Ok (crcbit_octet poly crc b).
Proof using Hpoly Hsh Hal.
  intros Hc Hb. unfold next_octet. pose proof (shiftr_small crc 24 Hc) as Hs.
  rewrite entry_ok, res_bind_unfold; [|apply (lxor_small 8); [lia|done|apply Hs; lia] ].
  rewrite octet_spec by done. pose proof (reg_split 8 crc b ltac:(lia) Hc Hb) as E.
  change (32 - Z.of_nat 8) with 24 in E. by rewrite E.
Qed.

Lemma short_octet_ok crc b : sh = 24 -> reg crc -> aligned sh crc -> is_byte b ->
  short_octet (table poly sh) sh crc b = Ok (crcbit_octet poly crc b).
Proof using Hpoly Hsh Hal.
  intros E24 Hc Ha Hb. pose proof (next_octet_ok crc b Hc Hb) as H. unfold next_octet in H. unfold short_octet.
  destruct (entry _ _ _) as [v|]; [|done]. rewrite res_bind_unfold in H.
  assert (u32 (Z.shiftl crc 8) = 0) as E; [|by rewrite E, Z.lxor_0_l in H].
  apply Z.bits_inj'. intros n Hn. rewrite u32_testbit, Z.shiftl_spec, Z.bits_0 by lia.
  destruct (Z.ltb_spec n 32); [|done]. destruct (Z.ltb_spec (n - 8) 0); [by rewrite Z.testbit_neg_r|].
  apply Ha. lia.
Qed.

Lemma take_bits (k : nat) b : (k <= 8)%nat -> take k (bits 8 b) = bits k (Z.shiftr b (8 - Z.of_nat k)).
Proof using.
  intros Hk. do 9 (destruct k as [|k]; [cbn [bits take]; rewrite ?Z.shiftr_spec by lia; repeat f_equal; lia|]). lia.
Qed.

(** The loop, the rest, and the whole function. *)
Lemma lut_ok next l bitlen :
  (forall crc b, reg crc -> aligned sh crc -> is_byte b -> next crc b = Ok (crcbit_octet poly crc b)) ->
  Forall is_byte l -> 0 <= bitlen <= 8 * zlen l ->
  crc_lut next (table poly sh) sh l bitlen = Ok (crc_bits poly (take (Z.to_nat bitlen) (buffer_bits l))).
Proof using Hpoly Hsh Hal.
  intros Hnext Hl Hlen. unfold crc_lut. rewrite Z.quot_div_nonneg, Z.rem_mod_nonneg by lia.
  pose proof (Z.div_mod bitlen 8 ltac:(lia)) as Hdm. pose proof (Z.mod_pos_bound bitlen 8 ltac:(lia)) as Hm.
  set (q := bitlen / 8) in *. set (r := bitlen mod 8) in *. rewrite Z.max_r by lia.
  rewrite zslice_ok, res_bind_unfold by lia. rewrite drop_0. set (l1 := take (Z.to_nat q) l).
  assert (Hb1 : Forall is_byte l1) by (by apply Forall_take).
  assert (Hfold : forall crc, reg crc -> aligned sh crc ->
    res_foldl next crc l1 = Ok (foldl (crcbit_octet poly) crc l1) /\ reg (foldl (crcbit_octet poly) crc l1)).
  { induction Hb1 as [|b l' Hb _ IH]; intros crc Hc Ha; cbn [res_foldl foldl]; [done|].
    rewrite Hnext, res_bind_unfold by done. apply IH; [by apply octet_reg|by apply octet_aligned]. }
  destruct (Hfold 0) as [-> Hreg]; [done|intros n _; apply Z.bits_0|]. rewrite res_bind_unfold.
  assert (Hbits : take (Z.to_nat bitlen) (buffer_bits l)
                  = buffer_bits l1 ++ take (Z.to_nat r) (buffer_bits (drop (Z.to_nat q) l))).
  { rewrite <- (take_drop (Z.to_nat q) l) at 1. fold l1. rewrite buffer_bits_app.
    assert (Hl1 : length (buffer_bits l1) = (8 * Z.to_nat q)%nat).
    { rewrite length_buffer_bits. unfold l1. rewrite length_take. unfold zlen in Hlen. lia. }
    rewrite take_app, Hl1. f_equal; [apply take_ge; lia|f_equal; lia]. }
  unfold crc_bits. rewrite Hbits, foldl_app, <- feed_octets by done.
  set (crc := foldl (crcbit_octet poly) 0 l1) in *. destruct (Z.gtb_spec r 0) as [Hr|Hr].
  2: { replace r with 0 by lia. by rewrite take_0. }
  destruct (drop (Z.to_nat q) l) as [|b l2] eqn:Ed.
  { apply (f_equal length) in Ed. rewrite length_drop in Ed. unfold zlen in Hlen. cbn in Ed. lia. }
  assert (Hlb : l !! Z.to_nat q = Some b) by (by rewrite <- (Nat.add_0_r (Z.to_nat q)), <- lookup_drop, Ed).
  assert (Hb : is_byte b) by (by apply (proj1 (Forall_lookup _ _) Hl (Z.to_nat q))).
  rewrite (proj2 (zget_ok l q b)), res_bind_unfold by (split; [lia|done]).
  unfold buffer_bits. cbn [map concat]. rewrite take_app_le by (rewrite length_bits; lia). rewrite take_bits by lia.
  rewrite feed_bits by lia. rewrite Z2Nat.id by lia. set (v := Z.shiftr b (8 - r)).
  assert (Hv : 0 <= v < 2 ^ r).
  { unfold v, is_byte in *. rewrite Z.shiftr_div_pow2 by lia. split; [apply Z.div_pos; lia|].
    apply Z.div_lt_upper_bound; [lia|]. rewrite <- Z.pow_add_r by lia. replace (8 - r + r) with 8 by lia. lia. }
  rewrite (Z.mod_small v) by done. pose proof (reg_split (Z.to_nat r) crc v) as E. rewrite Z2Nat.id in E by lia.
  rewrite E by (lia || done). set (i := Z.lxor v (Z.shiftr crc (32 - r))).
  assert (Hi : 0 <= i < 2 ^ r).
  { apply lxor_small; [lia|done|]. pose proof (shiftr_small crc (32 - r) Hreg ltac:(lia)) as Hs.
    by replace (32 - (32 - r)) with r in Hs by lia. }
  assert (Hi8 : 2 ^ r <= 2 ^ 8) by (apply Z.pow_le_mono_r; lia).
  rewrite entry_ok, res_bind_unfold by (unfold is_byte; lia). do 2 f_equal.
  replace 8%nat with (Z.to_nat r + Z.to_nat (8 - r))%nat by lia. rewrite sigmas_add. f_equal.
  assert (Hi24 : 0 <= Z.shiftl i 24 < 2 ^ (32 - Z.of_nat (Z.to_nat (8 - r)))).
  { rewrite Z2Nat.id, Z.shiftl_mul_pow2 by lia. replace (32 - (8 - r)) with (r + 24) by lia.
    rewrite Z.pow_add_r by lia. nia. }
  rewrite sigmas_low by (done || lia). rewrite Z2Nat.id, Z.shiftl_shiftl by lia. f_equal. lia.
Qed.
End poly.

(** *** The eight CRCs *)

Lemma aligned_of poly sh : 0 <= sh -> Z.shiftl (Z.shiftr poly sh) sh = poly -> aligned sh poly.
Proof. intros Hs E. rewrite <- E. by apply aligned_shiftl. Qed.

Section functions.
Context (l : list Z) (n : Z) (Hl : Forall is_byte l) (Hn : 0 <= n <= 8 * zlen l).
Let msg := take (Z.to_nat n) (buffer_bits l).

Lemma lut_next poly sh : reg poly -> 0 <= sh <= 24 -> Z.shiftl (Z.shiftr poly sh) sh = poly ->
  crc_lut (next_octet (table poly sh) sh) (table poly sh) sh l n = Ok (crc_bits poly msg).
Proof using Hl Hn.
  intros Hp Hs Ha%aligned_of; [|lia]. apply lut_ok; try done. intros. by apply next_octet_ok.
Qed.

Lemma lut_short poly : reg poly -> Z.shiftl (Z.shiftr poly 24) 24 = poly ->
  crc_lut (short_octet (table poly 24) 24) (table poly 24) 24 l n = Ok (crc_bits poly msg).
Proof using Hl Hn.
  intros Hp Ha%aligned_of; [|lia]. apply lut_ok; try done. intros. by apply short_octet_ok.
Qed.

Lemma crc24a_ok : crc24a l n = Ok (crc_bits poly24a msg).
Proof using Hl Hn. by apply lut_next. Qed.

Lemma crc24b_ok : crc24b l n = Ok (crc_bits poly24b msg).
Proof using Hl Hn. by apply lut_next. Qed.

Lemma crc24c_ok : crc24c l n = Ok (crc_bits poly24c msg).
Proof using Hl Hn. by apply lut_next. Qed.

Lemma crc16_ok : crc16 l n = Ok (crc_bits poly16 msg).
Proof using Hl Hn. by apply lut_next. Qed.

Lemma crc12_ok : crc12 l n = Ok (crc_bits poly12 msg).
Proof using Hl Hn. by apply lut_next. Qed.

Lemma crc11_ok : crc11 l n = Ok (crc_bits poly11 msg).
Proof using Hl Hn. by apply lut_next. Qed.

Lemma crc8_ok : crc8 l n = Ok (crc_bits poly8 msg).
Proof using Hl Hn. by apply lut_short. Qed.

Lemma crc6_ok : crc6 l n = Ok (crc_bits poly6 msg).
Proof using Hl Hn. by apply lut_short. Qed.

End functions.

(** ** What a CRC detects *)

(** A generator of degree [deg], whose constant coefficient is 1. *)
Record generator (poly deg : Z) : Prop := {
  g_reg : reg poly;
  g_deg : 8 <= deg <= 24;
  g_aligned : aligned (32 - deg) poly;
  g_one : Z.testbit poly (32 - deg) = true
}.

Section detection.
Context (poly deg : Z) (Hg : generator poly deg).

Lemma feed_lxor a b l1 l2 : length l1 = length l2 ->
  foldl (feed poly) (Z.lxor a b) (zip_with xorb l1 l2) = Z.lxor (foldl (feed poly) a l1) (foldl (feed poly) b l2).
Proof using.
  intros Hl. revert a b l2 Hl. induction l1 as [|x l1 IH]; intros a b [|y l2] Hl; try done. cbn [zip_with foldl].
  rewrite <- IH by (cbn in Hl; lia). f_equal. unfold feed. rewrite <- sigma_lxor. f_equal.
  assert (b2z (xorb x y) = Z.lxor (b2z x) (b2z y)) as -> by (by destruct x, y).
  rewrite Z.shiftl_lxor. apply Z.bits_inj'. intros n _. rewrite !Z.lxor_spec.
  destruct (Z.testbit a n), (Z.testbit b n), (Z.testbit (Z.shiftl (b2z x) 31) n), (Z.testbit (Z.shiftl (b2z y) 31) n); done.
Qed.

Lemma crc_bits_lxor l1 l2 : length l1 = length l2 ->
  crc_bits poly (zip_with xorb l1 l2) = Z.lxor (crc_bits poly l1) (crc_bits poly l2).
Proof using. apply (feed_lxor 0 0). Qed.

(** [sigma] loses nothing. *)
Lemma sigma_zero x : reg x -> aligned (32 - deg) x -> sigma poly x = 0 -> x = 0.
Proof using Hg.
  destruct Hg as [H1 H2 H3 H4]. intros Hx Ha E. unfold sigma in E. destruct (Z.testbit x 31) eqn:Ht.
  - exfalso. apply Z.lxor_eq in E. rewrite <- E in H4. rewrite u32_testbit, Z.shiftl_spec in H4 by lia.
    apply andb_true_iff in H4 as [_ H4]. destruct (Z.ltb_spec (32 - deg - 1) 0).
    + by rewrite Z.testbit_neg_r in H4.
    + rewrite Ha in H4 by lia. done.
  - apply Z.bits_inj'. intros n Hn. rewrite Z.bits_0. destruct (Z.ltb_spec n 31).
    + assert (Hb : Z.testbit (u32 (Z.shiftl x 1)) (n + 1) = false) by (rewrite E; apply Z.bits_0).
      rewrite u32_testbit, Z.shiftl_spec in Hb by lia. destruct (Z.ltb_spec (n + 1) 32); [|lia].
      cbn [andb] in Hb. by replace (n + 1 - 1) with n in Hb by lia.
    + destruct (decide (n = 31)) as [->|]; [done|]. apply reg_high; [done|lia].
Qed.

Lemma sigmas_zero k x : reg x -> aligned (32 - deg) x -> sigmas poly k x = 0 -> x = 0.
Proof using Hg.
  pose proof (g_deg _ _ Hg) as Hd. revert x. induction k as [|k IH]; intros x Hx Ha E; [done|].
  rewrite sigmas_S in E. apply sigma_zero; [done|done|]. apply IH; [apply sigma_reg, Hg| |done].
  apply (sigma_aligned poly (32 - deg)); [lia|apply Hg|done].
Qed.

Lemma crc_feed_ok crc b : aligned (32 - deg) crc -> reg (feed poly crc b) /\ aligned (32 - deg) (feed poly crc b).
Proof using Hg.
  intros Ha. pose proof (g_deg _ _ Hg). split; [apply sigma_reg, Hg|].
  apply (sigma_aligned poly (32 - deg)); [lia|apply Hg|]. apply aligned_lxor; [done|]. apply aligned_shiftl. lia.
Qed.

Lemma feeds_ok l crc : reg crc -> aligned (32 - deg) crc ->
  reg (foldl (feed poly) crc l) /\ aligned (32 - deg) (foldl (feed poly) crc l).
Proof using Hg.
  revert crc. induction l as [|b l IH]; intros crc Hr Ha; [done|]. cbn [foldl].
  destruct (crc_feed_ok crc b Ha). by apply IH.
Qed.

Lemma crc_bits_ok l : reg (crc_bits poly l) /\ aligned (32 - deg) (crc_bits poly l).
Proof using Hg. apply feeds_ok; [done|]. intros n _. apply Z.bits_0. Qed.

Lemma value_reg (k : nat) v : Z.of_nat k <= deg -> 0 <= v < 2 ^ Z.of_nat k ->
  reg (Z.shiftl v (32 - Z.of_nat k)) /\ aligned (32 - deg) (Z.shiftl v (32 - Z.of_nat k)).
Proof using Hg.
  pose proof (g_deg _ _ Hg). intros Hk Hv. split; [|apply aligned_shiftl; lia].
  apply shiftl_small; [lia| |lia]. by replace (32 - (32 - Z.of_nat k)) with (Z.of_nat k) by lia.
Qed.

(** A message with its CRC has the CRC 0, and only with its CRC. *)
Lemma codeword m v : 0 <= v < 2 ^ deg ->
  crc_bits poly (m ++ bits (Z.to_nat deg) v) = 0 <-> crc_bits poly m = Z.shiftl v (32 - deg).
Proof using Hg.
  pose proof (g_deg _ _ Hg). intros Hv. unfold crc_bits at 1. rewrite foldl_app. fold (crc_bits poly m).
  rewrite feed_bits by lia. rewrite Z2Nat.id, Z.mod_small by lia.
  destruct (crc_bits_ok m) as [Hr Ha]. destruct (value_reg (Z.to_nat deg) v) as [Hr' Ha']; [lia|by rewrite Z2Nat.id by lia|].
  rewrite Z2Nat.id in Hr', Ha' by lia. split.
  - intros E. apply Z.lxor_eq. apply sigmas_zero in E; [done|by apply reg_lxor|by apply aligned_lxor].
  - intros ->. rewrite Z.lxor_nilpotent. clear. induction (Z.to_nat deg) as [|k IH]; [done|]. by rewrite sigmas_S.
Qed.

Lemma feed_zeros k crc : foldl (feed poly) crc (replicate k false) = sigmas poly k crc.
Proof using.
  revert crc. induction k as [|k IH]; intros crc; [done|]. cbn [replicate foldl]. rewrite IH, sigmas_S.
  unfold feed. by rewrite Z.lxor_0_r.
Qed.

Lemma sigmas_0 k : sigmas poly k 0 = 0.
Proof using. induction k as [|k IH]; [done|]. by rewrite sigmas_S. Qed.

Lemma bits_of_val bs : bits (length bs) (bits_val bs) = bs.
Proof using.
  induction bs as [|b bs IH]; [done|]. rewrite bits_val_cons. cbn [length bits].
  pose proof (bits_val_range bs) as Hr. unfold zlen in *. f_equal.
  - rewrite <- (Z.add_0_l (Z.of_nat (length bs))) at 2. rewrite <- Z.div_pow2_bits by lia.
    rewrite Z.div_add_l, Z.div_small by lia. by destruct b.
  - transitivity (bits (length bs) (bits_val bs)); [|done]. apply bits_ext. intros i Hi.
    rewrite <- (Z.mod_pow2_bits_low (b2z b * _ + _) (Z.of_nat (length bs))) by lia.
    by rewrite Z.add_comm, Z.mod_add, Z.mod_small by lia.
Qed.

(** No burst of at most [deg] wrong bits is missed. *)
Lemma burst_detected a bs c : Z.of_nat (length bs) <= deg -> true ∈ bs ->
  crc_bits poly (replicate a false ++ bs ++ replicate c false) <> 0.
Proof using Hg.
  pose proof (g_deg _ _ Hg). intros Hl Ht E. unfold crc_bits in E.
  rewrite !foldl_app, !feed_zeros, sigmas_0 in E. rewrite <- (bits_of_val bs), feed_bits in E by lia.
  pose proof (bits_val_range bs) as Hr. unfold zlen in Hr. rewrite Z.mod_small, Z.lxor_0_l, <- sigmas_add in E by lia.
  destruct (value_reg (length bs) (bits_val bs) Hl Hr) as [H1 H2]. apply sigmas_zero in E; [|done..].
  apply Z.shiftl_eq_0_iff in E; [|lia]. assert (Hz : forallb negb bs = true).
  { rewrite <- (bits_of_val bs), E. clear. induction (length bs) as [|n IH]; [done|]. cbn. by rewrite Z.bits_0. }
  rewrite forallb_forall in Hz. by specialize (Hz true (proj1 (list_elem_of_In _ _) Ht)).
Qed.
End detection.

(** ** [check_crc] *)

Lemma generator24a : generator poly24a 24.
Proof. split; [done|done|by apply aligned_of|done]. Qed.
Lemma generator24b : generator poly24b 24.
Proof. split; [done|done|by apply aligned_of|done]. Qed.
Lemma generator16 : generator poly16 16.
Proof. split; [done|done|by apply aligned_of|done]. Qed.
Lemma generator8 : generator poly8 8.
Proof. split; [done|done|by apply aligned_of|done]. Qed.

Definition poly_of (crc_type : Z) : Z :=
  if crc_type =? CRC24_A then poly24a else if crc_type =? CRC24_B then poly24b
  else if crc_type =? CRC16 then poly16 else poly8.

Lemma generator_of t : 0 <= t < 4 -> generator (poly_of t) (8 * crc_len t).
Proof.
  intros Ht. assert (t = 0 \/ t = 1 \/ t = 2 \/ t = 3) as [->|[->|[->| ->] ] ] by lia;
    [apply generator24a|apply generator24b|apply generator16|apply generator8].
Qed.

Lemma bytes_val_cons b l : is_byte b ->
  bits_val (buffer_bits (b :: l)) = b * 2 ^ (8 * zlen l) + bits_val (buffer_bits l).
Proof.
  intros Hb. unfold buffer_bits at 1. cbn [map concat]. unfold bits_val at 1. rewrite foldl_app.
  fold (bits_val (bits 8 b)). fold (buffer_bits l). rewrite bits_val_id, bits_val_acc by done.
  unfold zlen. rewrite length_buffer_bits. do 3 f_equal. lia.
Qed.

Lemma bytes_val_nil : bits_val (buffer_bits []) = 0.
Proof. done. Qed.

(** The bytes of the CRC. *)
Lemma read_crc_ok l m t : 0 <= t < 4 -> Forall is_byte l -> crc_len t <= m <= zlen l ->
  read_crc l (8 * m) (crc_len t)
  = Ok (bits_val (buffer_bits (drop (Z.to_nat (m - crc_len t)) (take (Z.to_nat m) l)))).
Proof.
  intros Ht Hl Hlen. set (k := Z.to_nat (m - crc_len t)). set (l' := take (Z.to_nat m) l).
  assert (Hs : Z.shiftr (8 * m) 3 = m).
  { rewrite Z.shiftr_div_pow2 by lia. change (2 ^ 3) with 8. by rewrite Z.mul_comm, Z.div_mul. }
  assert (Hd : forall i b, drop k l' !! Z.to_nat i = Some b -> 0 <= i -> zget l (m - crc_len t + i) = Ok b).
  { intros i b Hb Hi. apply zget_ok. split; [lia|]. unfold l' in Hb. rewrite lookup_drop in Hb.
    apply lookup_take_Some in Hb as [Hb _]. rewrite <- Hb. f_equal. lia. }
  assert (Hb : Forall is_byte (drop k l')) by (by apply Forall_drop, Forall_take).
  assert (Hk : length (drop k l') = Z.to_nat (crc_len t))
    by (unfold l'; rewrite length_drop, length_take; unfold k, zlen in *; lia).
  unfold read_crc. rewrite Hs. set (d := drop k l') in *. clearbody d k.
  assert (Hu : forall b i, is_byte b -> 0 <= i <= 24 -> u32 (Z.shiftl b i) = b * 2 ^ i).
  { intros b i Hbb Hi. unfold u32, is_byte in *. rewrite Z.shiftl_mul_pow2 by lia. apply Z.mod_small.
    assert (0 < 2 ^ i) by lia. assert (2 ^ i <= 2 ^ 24) by (apply Z.pow_le_mono_r; lia). nia. }
  assert (Ht' : crc_len t = 3 \/ crc_len t = 2 \/ crc_len t = 1).
  { assert (t = 0 \/ t = 1 \/ t = 2 \/ t = 3) as [->|[->|[->| ->] ] ] by lia; auto. }
  destruct Ht' as [E|[E|E]]; rewrite E in *; (destruct d as [|b0 [|b1 [|b2 [|] ] ] ]; try done); clear Hk;
    rewrite !Forall_cons in Hb; cbn [seqZ]; change (seqZ 0 3) with [0; 1; 2]; change (seqZ 0 2) with [0; 1];
    change (seqZ 0 1) with [0]; cbn [res_foldl].
  - destruct Hb as (B0 & B1 & B2 & _). rewrite (Hd 0 b0), (Hd 1 b1), (Hd 2 b2), !res_bind_unfold by done.
    rewrite ?res_ret_bind, ?res_bind_unfold, !Hu, Z.lor_0_l by done. f_equal. unfold is_byte in *.
    change (2 ^ Z.shiftl (3 - 1 - 0) 3) with (2 ^ 16). change (2 ^ Z.shiftl (3 - 1 - 1) 3) with (2 ^ 8).
    change (2 ^ Z.shiftl (3 - 1 - 2) 3) with 1. rewrite lor_split by lia.
    replace (b0 * 2 ^ 16 + b1 * 2 ^ 8) with ((b0 * 2 ^ 8 + b1) * 2 ^ 8) by lia.
    rewrite lor_split, !bytes_val_cons, bytes_val_nil by (done || lia). unfold zlen. cbn [length]. lia.
  - destruct Hb as (B0 & B1 & _). rewrite (Hd 0 b0), (Hd 1 b1), !res_bind_unfold by done.
    rewrite ?res_ret_bind, ?res_bind_unfold, !Hu, Z.lor_0_l by done. f_equal. unfold is_byte in *.
    change (2 ^ Z.shiftl (2 - 1 - 0) 3) with (2 ^ 8). change (2 ^ Z.shiftl (2 - 1 - 1) 3) with 1.
    rewrite lor_split, !bytes_val_cons, bytes_val_nil by (done || lia). unfold zlen. cbn [length]. lia.
  - destruct Hb as (B0 & _). rewrite (Hd 0 b0), !res_bind_unfold by done.
    rewrite ?res_ret_bind, ?res_bind_unfold, !Hu, Z.lor_0_l by done. f_equal.
    rewrite !bytes_val_cons, bytes_val_nil by done. unfold zlen; cbn [length]. unfold is_byte in *.
    change (2 ^ Z.shiftl (1 - 1 - 0) 3) with 1. lia.
Qed.

(** [check_crc] accepts [m] bytes exactly when the CRC of all of them is 0. *)
Lemma check_crc_ok l m t : 0 <= t < 4 -> Forall is_byte l -> crc_len t <= m <= zlen l ->
  check_crc l (8 * m) t = Ok (if crc_bits (poly_of t) (buffer_bits (take (Z.to_nat m) l)) =? 0 then 1 else 0).
Proof.
  intros Ht Hl Hlen. pose proof (generator_of t Ht) as Hg. pose proof (g_deg _ _ Hg) as Hdeg.
  set (deg := 8 * crc_len t) in *. set (k := Z.to_nat (m - crc_len t)). set (l' := take (Z.to_nat m) l).
  set (msg := take k l'). set (tail := drop k l'). set (v := bits_val (buffer_bits tail)).
  assert (Hlt : length (buffer_bits tail) = Z.to_nat deg).
  { rewrite length_buffer_bits. unfold tail, l', deg. rewrite length_drop, length_take. unfold k, zlen in *. lia. }
  assert (Hv : 0 <= v < 2 ^ deg).
  { pose proof (bits_val_range (buffer_bits tail)) as H. unfold zlen in H. rewrite Hlt, Z2Nat.id in H by lia. done. }
  assert (Hall : buffer_bits l' = buffer_bits msg ++ bits (Z.to_nat deg) v).
  { rewrite <- Hlt. unfold v. rewrite bits_of_val, <- buffer_bits_app. unfold msg, tail. by rewrite take_drop. }
  assert (Hm : take (Z.to_nat (8 * m - deg)) (buffer_bits l) = buffer_bits msg).
  { rewrite <- (take_drop (Z.to_nat m) l), buffer_bits_app. fold l'. rewrite Hall, <- app_assoc, take_app_length'; [done|].
    rewrite length_buffer_bits. unfold msg, l'. rewrite !length_take. unfold k, deg, zlen in *. lia. }
  assert (Hcrc : (Z.shiftr (crc_bits (poly_of t) (buffer_bits msg)) (32 - deg) =? v)
                 = (crc_bits (poly_of t) (buffer_bits l') =? 0)).
  { rewrite Hall. destruct (crc_bits_ok (poly_of t) deg Hg (buffer_bits msg)) as [Hr Ha].
    destruct (Z.eqb_spec (Z.shiftr (crc_bits (poly_of t) (buffer_bits msg)) (32 - deg)) v) as [E|E],
      (Z.eqb_spec (crc_bits (poly_of t) (buffer_bits msg ++ bits (Z.to_nat deg) v)) 0) as [E'|E']; try done; exfalso.
    - apply E', (codeword _ _ Hg _ v Hv). rewrite <- E. symmetry. by apply aligned_unshift; [lia|].
    - apply (codeword _ _ Hg _ v Hv) in E'. apply E. rewrite E', Z.shiftr_shiftl_l by lia.
      by rewrite Z.sub_diag, Z.shiftl_0_r. }
  assert (Hmask : Z.land v (2 ^ deg - 1) = v) by (rewrite land_mask by lia; by apply Z.mod_small).
  assert (Hn : 0 <= 8 * m - deg <= 8 * zlen l) by lia.
  unfold check_crc. rewrite read_crc_ok, res_bind_unfold by done. fold l' k tail v.
  pose proof (crc24a_ok l _ Hl Hn) as H0. pose proof (crc24b_ok l _ Hl Hn) as H1.
  pose proof (crc16_ok l _ Hl Hn) as H2. pose proof (crc8_ok l _ Hl Hn) as H3. rewrite Hm in H0, H1, H2, H3.
  rewrite <- Hcrc. clear Hcrc Hall Hm Hlt Hv Hg Hn Hlen.
  assert (t = 0 \/ t = 1 \/ t = 2 \/ t = 3) as [->|[->|[->| ->] ] ] by lia; unfold deg in *; clearbody v msg.
  - change (8 * crc_len 0) with 24 in *. cbn [Z.eqb CRC24_A]. rewrite H0.
    change 16777215 with (2 ^ 24 - 1). rewrite res_bind_unfold. cbn -[Z.pow Z.land]. by rewrite Hmask.
  - change (8 * crc_len 1) with 24 in *. cbn [Z.eqb CRC24_A CRC24_B]. rewrite H1.
    change 16777215 with (2 ^ 24 - 1). rewrite res_bind_unfold. cbn -[Z.pow Z.land]. by rewrite Hmask.
  - change (8 * crc_len 2) with 16 in *. cbn [Z.eqb CRC24_A CRC24_B CRC16]. rewrite H2.
    change 65535 with (2 ^ 16 - 1). rewrite res_bind_unfold. cbn -[Z.pow Z.land]. by rewrite Hmask.
  - change (8 * crc_len 3) with 8 in *. cbn [Z.eqb CRC24_A CRC24_B CRC16 CRC8]. rewrite H3.
    change 255 with (2 ^ 8 - 1). rewrite res_bind_unfold. cbn -[Z.pow Z.land]. by rewrite Hmask.
Qed.

(** A block that differs from a right one by a burst as long as the CRC is refused. *)
Lemma check_crc_burst l l' t (a c : nat) bs : 0 <= t < 4 -> Forall is_byte l -> Forall is_byte l' ->
  zlen l' = zlen l -> crc_len t <= zlen l ->
  buffer_bits l' = zip_with xorb (buffer_bits l) (replicate a false ++ bs ++ replicate c false) ->
  (a + length bs + c = 8 * length l)%nat -> Z.of_nat (length bs) <= 8 * crc_len t -> true ∈ bs ->
  check_crc l (8 * zlen l) t = Ok 1 -> check_crc l' (8 * zlen l') t = Ok 0.
Proof.
  intros Ht Hl Hl' Hlen Hc E Hs Hb Hin. rewrite !check_crc_ok by (done || lia).
  unfold zlen. rewrite !Nat2Z.id, !take_ge, E by lia. rewrite crc_bits_lxor.
  2: { rewrite length_buffer_bits, !length_app, !length_replicate. lia. }
  pose proof (burst_detected _ _ (generator_of t Ht) a bs c Hb Hin) as Hd.
  destruct (Z.eqb_spec (crc_bits (poly_of t) (buffer_bits l)) 0) as [->|]; [intros _|done].
  rewrite Z.lxor_0_l. by destruct (Z.eqb_spec (crc_bits (poly_of t) (replicate a false ++ bs ++ replicate c false)) 0).
Qed.
End CrcSpec.
