(* ===== verification/Tbs.v ===== *)
(** * Transport block sizes

    Models [openair2/LAYER2/NR_MAC_COMMON/nr_compute_tbs_common.c], the choice of the
    LDPC base graph ([get_BG] of [nr_mac_common.c]) and [nr_tbs_tools.c] of the physical
    layer: the size of a transport block, the coded bits of an allocation, and the
    coded bits of each code block.  Arithmetic is on [uint32_t]. *)

From S2P Require Import Prelude.

Module Tbs.

Definition NR_MAX_PDSCH_TBS : Z := 3824.

Definition CEILIDIV (a b : Z) : Z := Z.quot (a + b - 1) b.
Definition ROUNDIDIV (a b : Z) : Z := Z.quot (Z.shiftl a 1 + b) (Z.shiftl b 1).

Definition Tbstable_nr : list Z := [
    24;   32;   40;   48;   56;   64;   72;   80;   88;   96;   104;  112;  120;  128;  136;  144;  152;  160;  168;
    176;  184;  192;  208;  224;  240;  256;  272;  288;  304;  320;  336;  352;  368;  384;  408;  432;  456;  480;
    504;  528;  552;  576;  608;  640;  672;  704;  736;  768;  808;  848;  888;  928;  984;  1032; 1064; 1128; 1160;
    1192; 1224; 1256; 1288; 1320; 1352; 1416; 1480; 1544; 1608; 1672; 1736; 1800; 1864; 1928; 2024; 2088; 2152; 2216;
    2280; 2408; 2472; 2536; 2600; 2664; 2728; 2792; 2856; 2976; 3104; 3240; 3368; 3496; 3624; 3752; 3824].

Definition NPRB_LBRM : list Z := [32; 66; 107; 135; 162; 217; 273].

(** The first value of a table that is at least [x], 0 when there is none. *)
Fixpoint first_ge (tab : list Z) (x : Z) : Z :=
  match tab with
  | [] => 0
  | t :: tab => if t >=? x then t else first_ge tab x
  end.

(** The size of at most [NR_MAX_PDSCH_TBS] bits.  The logarithm of 0 is minus infinity: [n] is 3. *)
Definition small_tbs (Ninfo : Z) : Z :=
  let n := Z.max 3 (Z.log2 Ninfo - 6) in
  first_ge Tbstable_nr (Z.max 24 (Z.shiftl (Z.shiftr Ninfo n) n)).

(** The size above, for a low code rate or not. *)
Definition large_tbs (Ninfo : Z) (low_rate : bool) : Z :=
  let n := Z.log2 (Ninfo - 24) - 5 in
  let Np_info := Z.max 3840 (Z.shiftl (ROUNDIDIV (Ninfo - 24) (Z.shiftl 1 n)) n) in
  if low_rate then
    let C := CEILIDIV (Np_info + 24) 3816 in
    Z.shiftl C 3 * CEILIDIV (Np_info + 24) (Z.shiftl C 3) - 24
  else if Np_info >? 8424 then
    let C := CEILIDIV (Np_info + 24) 8424 in
    Z.shiftl C 3 * CEILIDIV (Np_info + 24) (Z.shiftl C 3) - 24
  else Z.shiftl (CEILIDIV (Np_info + 24) 8) 3 - 24.

(** The information bits, the product modulo [2 ^ 32]. *)
Definition tbs_ninfo (Qm R nb_rb nb_symb_sch nb_dmrs_prb nb_rb_oh tb_scaling Nl : Z) : Z :=
  let nbp_re := u32 (12 * nb_symb_sch - nb_dmrs_prb - nb_rb_oh) in
  let nb_re := u32 (Z.min 156 nbp_re * nb_rb) in
  let R_5 := Z.quot R 5 in
  Z.shiftr (Z.shiftr (u32 (nb_re * R_5 * Qm * Nl)) 11) tb_scaling.

Definition nr_compute_tbs (Qm R nb_rb nb_symb_sch nb_dmrs_prb nb_rb_oh tb_scaling Nl : Z) : Z :=
  if (Qm =? 0) || (R =? 0) || (nb_rb =? 0) || (Nl =? 0) then 0
  else
    let Ninfo := tbs_ninfo Qm R nb_rb nb_symb_sch nb_dmrs_prb nb_rb_oh tb_scaling Nl in
    if Ninfo <=? NR_MAX_PDSCH_TBS then small_tbs Ninfo else large_tbs Ninfo (R <=? 2560).

(** The size for limited buffer rate matching. *)
Definition nr_compute_tbslbrm (table nb_rb Nl : Z) : Z :=
  let nb_rb_lbrm := first_ge NPRB_LBRM nb_rb in
  let Qm := if table =? 1 then 8 else 6 in
  let R := 948 in
  let nb_re := 156 * nb_rb_lbrm in
  let Ninfo := Z.shiftr (u32 (nb_re * R * Qm * Nl)) 10 in
  if Ninfo <=? NR_MAX_PDSCH_TBS then small_tbs Ninfo else large_tbs Ninfo (R <=? 256).

(** [R / 10240] is compared as a float with [0.6667] and [0.25]: [R] is at most 6827 or 2560. *)
Definition get_BG (A R : Z) : Z :=
  if (A <=? 292) || ((A <=? NR_MAX_PDSCH_TBS) && (R <=? 6827)) || (R <=? 2560) then 2 else 1.

(** ** Coded bits *)

Definition NR_NB_SC_PER_RB : Z := 12.

Definition nr_get_G (nb_rb nb_symb_sch nb_re_dmrs length_dmrs unav_res Qm Nl : Z) : Z :=
  let G := u32 ((NR_NB_SC_PER_RB * nb_symb_sch - nb_re_dmrs * length_dmrs) * nb_rb * Qm * Nl) in
  u32 (G - u32 (unav_res * Qm * Nl)).

(** The coded bits of code block [r] of [C].  The division by [C = 0] stops the program
    as a failed assertion does. *)
Definition nr_get_E (G C Qm Nl r : Z) : res Z :=
  _ ← dev_assert (Nl >? 0);
  _ ← dev_assert (Qm >? 0);
  _ ← dev_assert (negb (C =? 0));
  mret (if r <=? u32 (C - Z.rem (Z.quot G (Nl * Qm)) C - 1)
        then u32 (Nl * Qm * Z.quot G (Nl * Qm * C))
        else u32 (Nl * Qm * (Z.quot G (Nl * Qm * C) + 1))).
End Tbs.
