(* ===== verification/Transport.v ===== *)
(** * Transport blocks: CRC attachment, segmentation, reassembly

    Models [openair1/PHY/CODING/nr_segmentation.c], and around it what the two sides do
    with a transport block: the first part of [nr_ulsch_pre_encoding] and of
    [nr_dlsch_encoding] (sender), the end of [nr_ulsch_decoding], the CRC check of
    [nr_ulsch_procedures] and the end of [nr_dlsch_decoding] (receiver).  The LDPC
    coder and decoder lie between them: a decoded code block and the decoder's verdict
    are inputs here.  Buffers are lists of bytes; a buffer keeps what it held where
    nothing is written. *)

From S2P Require Import Prelude Crc Tbs.

Module Transport.
Import Crc Tbs.

Definition lenWithCrc (nbSeg len : Z) : Z :=
  if nbSeg >? 1 then Z.quot (len + 24 + 24 * nbSeg) nbSeg
  else len + (if len >? NR_MAX_PDSCH_TBS then 24 else 16).

Definition crcType (nbSeg len : Z) : Z :=
  if nbSeg >? 1 then CRC24_B else if len >? NR_MAX_PDSCH_TBS then CRC24_A else CRC16.

(** [((uint8_t * )&x)[i]], on a little-endian machine. *)
Definition octet_at (x i : Z) : Z := Z.land (Z.shiftr x (8 * i)) 0xff.

(** The three bytes of a CRC of 24 bits, from [buf[i]]. *)
Definition put_crc24 (buf : list Z) (i crc : Z) : res (list Z) :=
  buf ← zset buf i (octet_at crc 2);
  buf ← zset buf (1 + i) (octet_at crc 1);
  zset buf (2 + i) (octet_at crc 0).

Definition put_crc16 (buf : list Z) (i crc : Z) : res (list Z) :=
  buf ← zset buf i (octet_at crc 1);
  zset buf (1 + i) (octet_at crc 0).

(** ** Segmentation *)

(** What [nr_segmentation] returns through its pointers. *)
Record seg := {
  C : Z;
  K : Z;
  Zc : Z;
  F : Z
}.

(** The lifting size, [None] for a code word that is too long. *)
Definition lifting_size (z : Z) : option Z :=
  let up (n : Z) := let k := Z.shiftl (Z.shiftr z n) n in if k <? z then k + Z.shiftl 1 n else k in
  if z <=? 2 then Some 2
  else if z <=? 16 then Some z
  else if z <=? 32 then Some (up 1)
  else if z <=? 64 then Some (up 2)
  else if z <=? 128 then Some (up 3)
  else if z <=? 256 then Some (up 4)
  else if z <=? 384 then Some (up 5)
  else None.

(** The number of code blocks, and the CRC bits of each. *)
Definition seg_count (B BG : Z) : Z * Z :=
  let Kcb := if BG =? 1 then 8448 else 3840 in
  if B <=? Kcb then (1, 0)
  else
    let C := Z.quot B (Kcb - 24) in
    (if (Kcb - 24) * C <? B then C + 1 else C, 24).

Definition seg_Kb (B BG : Z) : Z :=
  if BG =? 1 then 22
  else if B >? 640 then 10
  else if B >? 560 then 9
  else if B >? 192 then 8
  else 6.

(** The bits of a code block before the filler bits. *)
Definition seg_Kprime (B BG : Z) : Z :=
  let '(C, L) := seg_count B BG in Z.quot (u32 (B + u32 (C * L))) C.

(** One code block: [(Kprime - L) >> 3] bytes from [input_buffer + s], its CRC when there
    are several, and the filler bytes. *)
Definition seg_block (input_buffer : list Z) (o : seg) (Kprime L s : Z) (out : list Z) : res (list Z) :=
  let n := Z.shiftr (Kprime - L) 3 in
  src ← zslice input_buffer s n;
  out ← zwrite out 0 src;
  out ← (if C o >? 1 then
           c ← crc24b out (Kprime - L);
           put_crc24 out n (Z.shiftr c 8)
         else mret out);
  if F o >? 0 then
    res_foldl (fun out k => zset out k 0) out
      (seqZ (Z.shiftr Kprime 3) (Z.shiftr (K o) 3 - Z.shiftr Kprime 3))
  else mret out.

(** The loop over the code blocks [r = 0 .. C - 1]. *)
Definition seg_blocks (input_buffer : list Z) (o : seg) (Kprime L : Z) (bufs : list (list Z)) : res (list (list Z)) :=
  '(_, bufs) ← res_foldl (fun '(s, bufs) r =>
      out ← zget bufs r;
      out ← seg_block input_buffer o Kprime L s out;
      bufs ← zset bufs r out;
      mret (s + Z.shiftr (Kprime - L) 3, bufs)) (0, bufs) (seqZ 0 (C o));
  mret bufs.

(** [nr_segmentation] on the buffers, [None] for null pointers.  [old] is what the
    pointers held: a code word that is too long sets [C] only. *)
Definition nr_segmentation (buffers : option (list Z * list (list Z))) (B BG : Z) (old : seg)
    : res (Z * seg * option (list (list Z))) :=
  let '(C, L) := seg_count B BG in
  let Kprime := seg_Kprime B BG in
  let Kb := seg_Kb B BG in
  let z := if Z.rem Kprime Kb >? 0 then Z.quot Kprime Kb + 1 else Z.quot Kprime Kb in
  match lifting_size z with
  | None => mret (-1, {| C := C; K := K old; Zc := Zc old; F := F old |}, snd <$> buffers)
  | Some zc =>
      let K := if BG =? 1 then zc * 22 else zc * 10 in
      let o := {| C := C; K := K; Zc := zc; F := u32 (K - Kprime) |} in
      match buffers with
      | None => mret (Kb, o, None)
      | Some (input_buffer, output_buffers) =>
          bufs ← seg_blocks input_buffer o Kprime L output_buffers;
          mret (Kb, o, Some bufs)
      end
  end.

(** ** Sender *)

(** The CRC after the [A] bits of a transport block, and the number of bits with it. *)
Definition crc_attach (buf : list Z) (A max_bytes : Z) : res (list Z * Z) :=
  if A >? NR_MAX_PDSCH_TBS then
    crc ← crc24a buf A;
    buf ← put_crc24 buf (Z.shiftr A 3) (Z.shiftr crc 8);
    _ ← dev_assert (Z.quot A 8 + 4 <=? max_bytes);
    mret (buf, A + 24)
  else
    crc ← crc16 buf A;
    buf ← put_crc16 buf (Z.shiftr A 3) (Z.shiftr crc 16);
    _ ← dev_assert (Z.quot A 8 + 3 <=? max_bytes);
    mret (buf, A + 16).

Definition MAX_NUM_NR_ULSCH_SEGMENTS_PER_LAYER : Z := 34.
Definition MAX_NUM_NR_DLSCH_SEGMENTS_PER_LAYER : Z := 36.

(** What the coding reads of a [nfapi_nr_ue_pusch_pdu_t]. *)
Record pusch_pdu := {
  harq_process_id : Z;
  tb_size : Z;
  nrOfLayers : Z;
  ldpcBaseGraph : Z
}.

(** What it reads and writes of a [NR_UL_UE_HARQ_t]. *)
Record ul_harq := {
  payload_AB : list Z;
  c : list (list Z);
  harq_seg : seg;
  Kb : Z;
  BG : Z
}.

(** The body of the loop for one HARQ process; [false] when there are too many segments,
    which is only seen after they were written. *)
Definition ulsch_pre_encode (pdu : pusch_pdu) (h : ul_harq) : res (bool * ul_harq) :=
  let A := u32 (Z.shiftl (tb_size pdu) 3) in
  let max_payload_bytes := MAX_NUM_NR_ULSCH_SEGMENTS_PER_LAYER * nrOfLayers pdu * 1056 in
  '(payload, B) ← crc_attach (payload_AB h) A max_payload_bytes;
  '(kb, o, bufs) ← nr_segmentation (Some (payload, c h)) B (ldpcBaseGraph pdu) (harq_seg h);
  let h := {| payload_AB := payload; c := default (c h) bufs; harq_seg := o; Kb := u32 kb; BG := ldpcBaseGraph pdu |} in
  mret (negb (C o >? MAX_NUM_NR_DLSCH_SEGMENTS_PER_LAYER * nrOfLayers pdu), h).

(** 0, or -1 at the first block with too many segments.  [pusch_pdu] is that of [ulsch[0]]
    whatever [ULSCH_id] is. *)
Fixpoint nr_ulsch_pre_encoding (ulsch : list pusch_pdu) (ULSCH_ids : list Z) (harqs : list ul_harq)
    : res (Z * list ul_harq) :=
  match ULSCH_ids with
  | [] => mret (0, harqs)
  | ULSCH_id :: ids =>
      u ← zget ulsch ULSCH_id;
      h ← zget harqs (harq_process_id u);
      pdu ← zget ulsch 0;
      '(ok, h) ← ulsch_pre_encode pdu h;
      harqs ← zset harqs (harq_process_id u) h;
      if ok : bool then nr_ulsch_pre_encoding ulsch ids harqs else mret (-1, harqs)
  end.

(** A [NR_gNB_DLSCH_t] with its PDSCH PDU. *)
Record dlsch := {
  pdu : list Z;
  b : list Z;
  dl_c : list (list Z);
  TBSize : Z;
  dl_layers : Z;
  dl_BG : Z
}.

(** The parameters of a transport block that the first loop sets. *)
Record tb_params := {
  tb_A : Z;
  tb_BG : Z;
  tb_Kb : Z;
  tb_seg : seg
}.

Definition no_seg : seg := {| C := 0; K := 0; Zc := 0; F := 0 |}.

(** The body of the first loop of [nr_dlsch_encoding]: one byte more than the CRC is
    copied to [b]. *)
Definition dlsch_pre_encode (d : dlsch) : res (bool * dlsch * tb_params) :=
  let A := u32 (Z.shiftl (TBSize d) 3) in
  let max_bytes := MAX_NUM_NR_DLSCH_SEGMENTS_PER_LAYER * dl_layers d * 1056 in
  '(a, B) ← crc_attach (pdu d) A max_bytes;
  src ← zslice a 0 (Z.quot A 8 + (if A >? NR_MAX_PDSCH_TBS then 4 else 3));
  bb ← zwrite (b d) 0 src;
  '(kb, o, bufs) ← nr_segmentation (Some (bb, dl_c d)) B (dl_BG d) no_seg;
  let d' := {| pdu := a; b := bb; dl_c := default (dl_c d) bufs; TBSize := TBSize d;
               dl_layers := dl_layers d; dl_BG := dl_BG d |} in
  mret (negb (C o >? MAX_NUM_NR_DLSCH_SEGMENTS_PER_LAYER * dl_layers d), d',
        {| tb_A := A; tb_BG := dl_BG d; tb_Kb := u32 kb; tb_seg := o |}).

(** ** Receiver *)

(** The segmentation of the receiver, which only computes its parameters. *)
Definition rx_segmentation (A BG : Z) (old : seg) : res seg :=
  '(_, o, _) ← nr_segmentation None (u32 (lenWithCrc 1 A)) BG old; mret o.

(** The limits on the number of segments of [nr_ulsch_decoding]. *)
Definition ulsch_segments_ok (C nb_layers nb_rb : Z) : bool :=
  let a_segments := (MAX_NUM_NR_ULSCH_SEGMENTS_PER_LAYER * nb_layers) mod 2 ^ 16 in
  let a_segments' :=
    if nb_rb =? 273 then a_segments else (Z.quot ((a_segments * nb_rb) mod 2 ^ 16) 273 + 1) mod 2 ^ 16 in
  negb (C >? a_segments) && negb (C >? a_segments').

(** What [nr_process_decode_segment] leaves in [c] and [decodeSuccess], from the bytes of
    the LDPC decoder or its failure. *)
Definition decoded (o : seg) (out : option (list Z)) (c : list Z) : res (bool * list Z) :=
  match out with
  | Some llrProcBuf => src ← zslice llrProcBuf 0 (Z.shiftr (K o) 3); c ← zwrite c 0 src; mret (true, c)
  | None => c ← zwrite c 0 (replicate (Z.to_nat (Z.shiftr (K o) 3)) 0); mret (false, c)
  end.

(** [processedSegments]. *)
Definition processed (segs : list (bool * list Z)) : Z := zsum (fun s => b2z (fst s)) segs.

(** The bytes that a segment adds to the transport block. *)
Definition seg_bytes (o : seg) : Z :=
  u32 (Z.shiftr (K o) 3 - Z.shiftr (F o) 3 - (if C o >? 1 then 3 else 0)).

(** The copy of the decoded segments. *)
Definition reassemble (o : seg) (segs : list (bool * list Z)) (b : list Z) : res (list Z) :=
  '(_, b) ← res_foldl (fun '(offset, b) '(decodeSuccess, c) =>
      b ← (if decodeSuccess : bool then src ← zslice c 0 (seg_bytes o); zwrite b offset src else mret b);
      mret (u32 (offset + seg_bytes o), b)) (0, b) segs;
  mret b.

(** [crc_valid] of [nr_ulsch_procedures]; [TBS] is in bytes. *)
Definition crc_valid (processedSegments : Z) (o : seg) (b : list Z) (TBS : Z) : res bool :=
  if processedSegments =? C o then
    if C o >? 1 then
      v ← check_crc b (lenWithCrc 1 (Z.shiftl TBS 3)) (crcType 1 (Z.shiftl TBS 3)); mret (negb (v =? 0))
    else mret true
  else mret false.

(** The receiver after the LDPC decoder, whose results are [outs]: the code blocks, the
    transport block and its check. *)
Fixpoint decode_segments (o : seg) (outs : list (option (list Z))) (cs : list (list Z)) : res (list (bool * list Z)) :=
  match outs, cs with
  | out :: outs, c :: cs => s ← decoded o out c; segs ← decode_segments o outs cs; mret (s :: segs)
  | [], _ => mret []
  | _ :: _, [] => Fault OutOfBounds
  end.

Definition ulsch_receive (o : seg) (outs : list (option (list Z))) (cs : list (list Z)) (b : list Z) (TBS : Z)
    : res (bool * list Z) :=
  segs ← decode_segments o outs cs;
  b ← reassemble o segs b;
  v ← crc_valid (processed segs) o b TBS;
  mret (v, b).

(** The number of bytes 0 at the start of a buffer. *)
Fixpoint zeros (l : list Z) : Z :=
  match l with
  | x :: l => if x =? 0 then 1 + zeros l else 0
  | [] => 0
  end.

(** [decodeResult] of [nr_dlsch_decoding]: a block of zeros is taken for a false
    reception.  [TBS] is in bits. *)
Definition decodeResult (processedSegments : Z) (o : seg) (b : list Z) (TBS : Z) : res bool :=
  crc_ok ← (if (processedSegments =? C o) && (C o >? 1) then
              v ← check_crc b (lenWithCrc 1 TBS) (crcType 1 TBS); mret (negb (v =? 0))
            else mret (processedSegments =? C o));
  if crc_ok : bool then
    let sz := Z.quot TBS 8 in
    b0 ← zget b sz;
    b1 ← (if b0 =? 0 then zget b (sz + 1) else mret 1);
    if (b0 =? 0) && (b1 =? 0) then mret (negb (Z.min (zeros b) sz =? sz)) else mret true
  else mret false.

Definition dlsch_receive (o : seg) (outs : list (option (list Z))) (cs : list (list Z)) (b : list Z) (TBS : Z)
    : res (bool * list Z) :=
  segs ← decode_segments o outs cs;
  b ← reassemble o segs b;
  v ← decodeResult (processed segs) o b TBS;
  mret (v, b).
End Transport.
