(* ===== verification/TransportSpec.v ===== *)
(** * Transport blocks: what segmentation computes

    The lifting sizes of 38.212 and the rule of [nr_segmentation]; the code blocks as
    lists of bytes; reassembly is the inverse of segmentation when the size of the
    block splits into equal numbers of bytes, which the sizes of [nr_compute_tbs] do. *)

From S2P Require Import Prelude Crc CrcSpec Tbs Transport.

Module TransportSpec.
Import Crc CrcSpec Tbs Transport.

(** ** Lifting sizes *)

(** Table 5.3.2-1 of 38.212: [a * 2 ^ j], at most 384. *)
Definition lifting_sizes : list Z :=
  filter (fun z => z <= 384)
    (concat (map (fun a => map (fun j => a * 2 ^ j) (seqZ 0 8)) [2; 3; 5; 7; 9; 11; 13; 15])).

(** [zc] is the least lifting size that is at least [z]. *)
Definition least_lifting (z zc : Z) : Prop :=
  zc ∈ lifting_sizes /\ z <= zc /\ forall y, y ∈ lifting_sizes -> z <= y -> zc <= y.

Definition lifting_check (z : Z) : bool :=
  match lifting_size z with
  | Some zc => bool_decide (zc ∈ lifting_sizes) && (z <=? zc)
               && forallb (fun y => (y <? z) || (zc <=? y)) lifting_sizes
  | None => false
  end.

Lemma lifting_checked : forallb lifting_check (seqZ 0 385) = true.
Proof. vm_compute. reflexivity. Qed.

Lemma lifting_size_ok z : 0 <= z <= 384 -> exists zc, lifting_size z = Some zc /\ least_lifting z zc.
Proof.
  intros Hz. pose proof lifting_checked as H. rewrite forallb_forall in H.
  specialize (H z ltac:(apply list_elem_of_In, elem_of_seqZ; lia)). unfold lifting_check in H.
  destruct (lifting_size z) as [zc|]; [|done]. apply andb_true_iff in H as [[H1 H2]%andb_true_iff H3].
  exists zc. split; [done|]. apply bool_decide_eq_true in H1. split; [done|]. split; [lia|].
  intros y Hy Hzy. rewrite forallb_forall in H3. specialize (H3 y (proj1 (list_elem_of_In _ _) Hy)). lia.
Qed.

Lemma lifting_sizes_range y : y ∈ lifting_sizes -> 2 <= y <= 384.
Proof.
  intros Hy. assert (H : forallb (fun y => (2 <=? y) && (y <=? 384)) lifting_sizes = true) by (vm_compute; done).
  rewrite forallb_forall in H. specialize (H y (proj1 (list_elem_of_In _ _) Hy)). lia.
Qed.

(** ** Parameters *)

Definition max_code_block (BG : Z) : Z := if BG =? 1 then 8448 else 3840.

Lemma seg_count_ok B BG : 0 < B -> exists C L, seg_count B BG = (C, L) /\
  ((B <= max_code_block BG /\ C = 1 /\ L = 0)
   \/ (max_code_block BG < B /\ 2 <= C /\ L = 24 /\ (C - 1) * (max_code_block BG - 24) < B <= C * (max_code_block BG - 24))).
Proof.
  intros HB. unfold seg_count, max_code_block. destruct (BG =? 1); zcases; eexists _, _; (split; [done|]);
    [left; lia|right|right|left; lia|right|right]; rewrite Z.quot_div_nonneg in * by lia; (repeat split); zmod.
Qed.

(** The parameters that [nr_segmentation] chooses: as few code blocks as fit, and the
    least lifting size. *)
Record good_seg (B BG : Z) (o : seg) (L : Z) : Prop := {
  gs_count : seg_count B BG = (C o, L);
  gs_Kprime : seg_Kprime B BG = Z.quot (B + C o * L) (C o);
  gs_C : 1 <= C o <= B;
  gs_L : (C o = 1 /\ L = 0) \/ (2 <= C o /\ L = 24);
  gs_low : L < seg_Kprime B BG;
  gs_lift : least_lifting (Z.quot (seg_Kprime B BG + seg_Kb B BG - 1) (seg_Kb B BG)) (Zc o);
  gs_K : K o = (if BG =? 1 then 22 else 10) * Zc o;
  gs_F : F o = K o - seg_Kprime B BG;
  gs_fit : 0 < seg_Kprime B BG <= K o;
  gs_max : K o <= 8448
}.

Lemma seg_Kb_range B BG : 6 <= seg_Kb B BG <= 22 /\ seg_Kb B BG <= (if BG =? 1 then 22 else 10).
Proof. unfold seg_Kb. zcases; lia. Qed.

Lemma seg_Kprime_ok B BG C L : 0 < B <= 2 ^ 31 -> seg_count B BG = (C, L) ->
  seg_Kprime B BG = Z.quot (B + C * L) C /\ 1 <= C <= B /\ 0 < seg_Kprime B BG <= max_code_block BG /\ L < seg_Kprime B BG
  /\ (seg_Kprime B BG <= B \/ 640 < B).
Proof.
  intros HB E. destruct (seg_count_ok B BG) as (C' & L' & E' & H); [lia|]. rewrite E in E'. injection E' as <- <-.
  unfold seg_Kprime. rewrite E. unfold u32.
  destruct H as [(H & -> & ->)|(H & HC & -> & H1 & H2)].
  - change (1 * 0) with 0. rewrite (Z.mod_small 0), Z.add_0_r, Z.mod_small, Z.quot_1_r by lia.
    unfold max_code_block in *. destruct (BG =? 1); lia.
  - assert (HBC : 24 * C <= B) by (unfold max_code_block in *; destruct (BG =? 1); nia).
    rewrite (Z.mod_small (C * 24)) by lia. rewrite Z.mod_small by lia.
    rewrite Z.quot_div_nonneg by lia. split; [done|].
    assert (Hd : 24 < (B + C * 24) `div` C <= max_code_block BG).
    { unfold max_code_block in *; destruct (BG =? 1); zmod. }
    unfold max_code_block in *. destruct (BG =? 1); lia.
Qed.

Lemma ceil_quot x y : 0 <= x -> 0 < y ->
  (if Z.rem x y >? 0 then Z.quot x y + 1 else Z.quot x y) = Z.quot (x + y - 1) y.
Proof.
  intros Hx Hy. rewrite Z.rem_mod_nonneg, !Z.quot_div_nonneg by lia.
  pose proof (Z.div_mod x y ltac:(lia)) as E. pose proof (Z.mod_pos_bound x y Hy) as Hm. set (q := x `div` y) in *.
  destruct (Z.gtb_spec (x mod y) 0).
  - apply Z.div_unique with (x mod y - 1); lia.
  - apply Z.div_unique with (y - 1); lia.
Qed.

(** [nr_segmentation] never finds a code word too long. *)
Lemma segmentation_ok B BG : 0 < B <= 2 ^ 31 -> exists o L, good_seg B BG o L /\
  forall buffers old, nr_segmentation buffers B BG old =
    match buffers with
    | None => Ok (seg_Kb B BG, o, None)
    | Some (input, bufs) => bufs ← seg_blocks input o (seg_Kprime B BG) L bufs; mret (seg_Kb B BG, o, Some bufs)
    end.
Proof.
  intros HB. destruct (seg_count_ok B BG) as (C0 & L & Ec & Hc); [lia|].
  destruct (seg_Kprime_ok B BG C0 L HB Ec) as (EK & HC & HK & HL & HK2).
  pose proof (seg_Kb_range B BG) as [Hkb Hkb2]. set (z := Z.quot (seg_Kprime B BG + seg_Kb B BG - 1) (seg_Kb B BG)).
  assert (Hz : 0 <= z <= 384 /\ seg_Kprime B BG <= seg_Kb B BG * z).
  { unfold z. rewrite Z.quot_div_nonneg by lia. unfold max_code_block, seg_Kb in *. clear Ec Hc EK z.
    split; zcases; zmod. }
  destruct (lifting_size_ok z) as (zc & Ez & Hlift); [lia|].
  pose proof (lifting_sizes_range zc ltac:(apply Hlift)) as Hzc. destruct Hlift as (Hin & Hle & Hmin).
  set (K0 := (if BG =? 1 then 22 else 10) * zc).
  assert (HKK : seg_Kprime B BG <= K0 <= 8448) by (unfold K0; destruct (BG =? 1); nia).
  exists {| C := C0; K := K0; Zc := zc; F := K0 - seg_Kprime B BG |}, L. split.
  { split; cbn [C K F Zc]; try done; try lia. }
  intros buffers old. unfold nr_segmentation. rewrite Ec, ceil_quot by lia. fold z. rewrite Ez.
  assert ((if BG =? 1 then zc * 22 else zc * 10) = K0) as -> by (unfold K0; destruct (BG =? 1); lia).
  assert (u32 (K0 - seg_Kprime B BG) = K0 - seg_Kprime B BG) as -> by (apply Z.mod_small; lia).
  by destruct buffers as [[? ?]|].
Qed.

(** ** Code blocks *)

Definition crc_octets24 (v : Z) : list Z := [octet_at v 2; octet_at v 1; octet_at v 0].
Definition crc_octets16 (v : Z) : list Z := [octet_at v 1; octet_at v 0].

Lemma octet_at_byte x i : is_byte (octet_at x i).
Proof. unfold octet_at. change 255 with (2 ^ 8 - 1). rewrite land_mask by lia. by apply Z.mod_pos_bound. Qed.

Lemma octet_bits x i : 0 <= i -> bits 8 (octet_at x i) = bits 8 (Z.shiftr x (8 * i)).
Proof.
  intros Hi. apply bits_ext. intros j Hj. unfold octet_at. change 255 with (2 ^ 8 - 1).
  rewrite land_mask, Z.mod_pow2_bits_low by lia. done.
Qed.

Lemma octets24_bits v : buffer_bits (crc_octets24 v) = bits 24 v.
Proof.
  unfold crc_octets24, buffer_bits. cbn [map concat]. rewrite !octet_bits, app_nil_r by lia. cbn [bits app].
  rewrite !Z.shiftr_spec by lia. done.
Qed.

Lemma octets16_bits v : buffer_bits (crc_octets16 v) = bits 16 v.
Proof.
  unfold crc_octets16, buffer_bits. cbn [map concat]. rewrite !octet_bits, app_nil_r by lia. cbn [bits app].
  rewrite !Z.shiftr_spec by lia. done.
Qed.

(** Writes in a buffer, one after the other. *)
Lemma zset_at {A} (pre : list A) x post i v : i = zlen pre -> zset (pre ++ x :: post) i v = Ok (pre ++ v :: post).
Proof.
  intros ->. rewrite zset_ok by (autorewrite with rlc_len; pose proof (zlen_nonneg pre); pose proof (zlen_nonneg post); lia).
  f_equal. unfold zlen. rewrite Nat2Z.id, insert_app_r_alt, Nat.sub_diag by lia. done.
Qed.

Lemma put_crc24_ok pre post x0 x1 x2 v : put_crc24 (pre ++ x0 :: x1 :: x2 :: post) (zlen pre) v = Ok (pre ++ crc_octets24 v ++ post).
Proof.
  unfold put_crc24. rewrite zset_at, res_bind_unfold by done.
  change (pre ++ ?a :: ?b :: ?c :: post) with (pre ++ [a] ++ b :: c :: post).
  rewrite app_assoc, zset_at, res_bind_unfold by (autorewrite with rlc_len; lia).
  change (?p ++ ?b :: ?c :: post) with (p ++ [b] ++ c :: post).
  rewrite app_assoc, zset_at by (autorewrite with rlc_len; lia). unfold crc_octets24. by rewrite <- !app_assoc.
Qed.

Lemma put_crc16_ok pre post x0 x1 v : put_crc16 (pre ++ x0 :: x1 :: post) (zlen pre) v = Ok (pre ++ crc_octets16 v ++ post).
Proof.
  unfold put_crc16. rewrite zset_at, res_bind_unfold by done.
  change (pre ++ ?a :: ?b :: post) with (pre ++ [a] ++ b :: post).
  rewrite app_assoc, zset_at by (autorewrite with rlc_len; lia). unfold crc_octets16. by rewrite <- !app_assoc.
Qed.

Lemma put_crc24_rest pre rest i v : zlen pre = i -> 3 <= zlen rest ->
  put_crc24 (pre ++ rest) i v = Ok (pre ++ crc_octets24 v ++ drop 3 rest).
Proof.
  intros <- Hr. destruct rest as [|x0 [|x1 [|x2 rest] ] ]; try (unfold zlen in Hr; cbn in Hr; lia). apply put_crc24_ok.
Qed.

Lemma put_crc16_rest pre rest i v : zlen pre = i -> 2 <= zlen rest ->
  put_crc16 (pre ++ rest) i v = Ok (pre ++ crc_octets16 v ++ drop 2 rest).
Proof.
  intros <- Hr. destruct rest as [|x0 [|x1 rest] ]; try (unfold zlen in Hr; cbn in Hr; lia). apply put_crc16_ok.
Qed.

Lemma fill_ok (n : nat) pre mid post : length mid = n ->
  res_foldl (fun out k => zset out k 0) (pre ++ mid ++ post) (seqZ (zlen pre) (Z.of_nat n)) = Ok (pre ++ replicate n 0 ++ post).
Proof.
  revert pre mid. induction n as [|n IH]; intros pre mid Hm.
  { by apply nil_length_inv in Hm as ->. }
  destruct mid as [|x mid]; [done|]. rewrite Nat2Z.inj_succ, seqZ_cons by lia. cbn [res_foldl].
  cbn [app]. rewrite zset_at, res_bind_unfold by done.
  replace (Z.succ (zlen pre)) with (zlen (pre ++ [0])) by (autorewrite with rlc_len; lia).
  rewrite Z.pred_succ. change (pre ++ 0 :: mid ++ post) with (pre ++ [0] ++ mid ++ post).
  rewrite app_assoc, IH by (cbn in Hm; lia). by rewrite <- app_assoc.
Qed.
Lemma fill_from pre rest a n : zlen pre = a -> 0 <= n <= zlen rest ->
  res_foldl (fun out k => zset out k 0) (pre ++ rest) (seqZ a n)
  = Ok (pre ++ replicate (Z.to_nat n) 0 ++ drop (Z.to_nat n) rest).
Proof.
  intros <- Hn. pose proof (fill_ok (Z.to_nat n) pre (take (Z.to_nat n) rest) (drop (Z.to_nat n) rest)) as H.
  rewrite Z2Nat.id, take_drop in H by lia. apply H. rewrite length_take. unfold zlen in *. lia.
Qed.

(** A message followed by its CRC has the CRC 0. *)
Lemma attach_zero poly deg m : generator poly deg ->
  crc_bits poly (m ++ bits (Z.to_nat deg) (Z.shiftr (crc_bits poly m) (32 - deg))) = 0.
Proof.
  intros Hg. pose proof (g_deg _ _ Hg). destruct (crc_bits_ok poly deg Hg m) as [Hr Ha].
  apply (codeword poly deg Hg).
  - pose proof (shiftr_small _ (32 - deg) Hr ltac:(lia)) as Hs. by replace (32 - (32 - deg)) with deg in Hs by lia.
  - symmetry. apply aligned_unshift; [lia|done].
Qed.

Lemma take_octets l r k : length l = k -> take (8 * k) (buffer_bits (l ++ r)) = buffer_bits l.
Proof. intros <-. rewrite buffer_bits_app. apply take_app_length'. by rewrite length_buffer_bits. Qed.

(** The CRC of a code block. *)
Definition block_crc (o : seg) (src : list Z) : list Z :=
  if C o >? 1 then crc_octets24 (Z.shiftr (crc_bits poly24b (buffer_bits src)) 8) else [].

(** The bytes of a code block: part of the transport block, CRC, filler. *)
Definition code_block (o : seg) (Kprime : Z) (src : list Z) : list Z :=
  src ++ block_crc o src ++ replicate (Z.to_nat (Z.shiftr (K o) 3 - Z.shiftr Kprime 3)) 0.

Section blocks.
Context (B BG : Z) (o : seg) (L : Z) (Hgs : good_seg B BG o L).
Context (n : Z) (Heven : B = 8 * (C o * n)).

Lemma even_Kprime : seg_Kprime B BG = 8 * n + L /\ 0 < n.
Proof using Hgs Heven.
  destruct Hgs as [_ EK HC HL _ _ _ _ Hfit _]. rewrite EK, Heven in *.
  replace (8 * (C o * n) + C o * L) with ((8 * n + L) * C o) in * by lia.
  rewrite Z.quot_mul in * by lia. split; [done|]. nia.
Qed.

Lemma even_shifts : Z.shiftr (seg_Kprime B BG - L) 3 = n
  /\ Z.shiftr (seg_Kprime B BG) 3 = n + (if C o >? 1 then 3 else 0)
  /\ 0 <= Z.shiftr (seg_Kprime B BG) 3 <= Z.shiftr (K o) 3
  /\ seg_bytes o = n /\ Z.shiftr (K o) 3 <= 1056.
Proof using Hgs Heven.
  destruct even_Kprime as [EK Hn]. destruct Hgs as [_ _ HC HL _ _ _ HF Hfit Hmax].
  unfold seg_bytes. rewrite HF, EK in *. rewrite !Z.shiftr_div_pow2 by lia. change (2 ^ 3) with 8.
  assert (Hb : u32 (K o `div` 8 - (K o - (8 * n + L)) `div` 8 - (if C o >? 1 then 3 else 0)) = n).
  { unfold u32. rewrite Z.mod_small; destruct HL as [[-> ->]|[? ->] ]; zcases; zmod. }
  rewrite Hb. destruct HL as [[-> ->]|[? ->] ]; zcases; repeat split; zmod.
Qed.

Lemma block_crc_len src : zlen (block_crc o src) = if C o >? 1 then 3 else 0.
Proof using. unfold block_crc. by destruct (C o >? 1). Qed.

Lemma code_block_len src : zlen src = n -> zlen (code_block o (seg_Kprime B BG) src) = Z.shiftr (K o) 3.
Proof using Hgs Heven.
  intros Hs. destruct even_shifts as (_ & E & H & _). unfold code_block. rewrite !zlen_app, block_crc_len, Hs.
  unfold zlen at 1. rewrite length_replicate. lia.
Qed.

Lemma seg_block_ok input s out : Forall is_byte input -> Forall is_byte out ->
  0 <= s -> s + n <= zlen input -> Z.shiftr (K o) 3 <= zlen out ->
  let src := take (Z.to_nat n) (drop (Z.to_nat s) input) in
  seg_block input o (seg_Kprime B BG) L s out
  = Ok (code_block o (seg_Kprime B BG) src ++ drop (Z.to_nat (Z.shiftr (K o) 3)) out).
Proof using Hgs Heven.
  intros Hi Ho Hs Hsn Hk src. destruct even_shifts as (E1 & E2 & H3 & _ & _). destruct even_Kprime as [EK Hn].
  assert (Hsrc : zlen src = n) by (unfold src; autorewrite with rlc_len; lia).
  assert (Hroom : n <= zlen out /\ (if C o >? 1 then 3 else 0) <= zlen out - n /\ 0 <= (if C o >? 1 then 3 else 0))
    by (destruct (C o >? 1); lia).
  unfold seg_block. rewrite E1, zslice_ok, res_bind_unfold by lia. fold src.
  rewrite zwrite_ok, res_bind_unfold by lia. change (take (Z.to_nat 0) out) with (@nil Z). rewrite app_nil_l, Z.add_0_l, Hsrc.
  set (rest := drop (Z.to_nat n) out).
  assert (Hcrc : (if C o >? 1 then c ← crc24b (src ++ rest) (seg_Kprime B BG - L); put_crc24 (src ++ rest) n (Z.shiftr c 8)
                  else mret (src ++ rest))
                 = Ok ((src ++ block_crc o src) ++ drop (Z.to_nat (if C o >? 1 then 3 else 0)) rest)).
  { unfold block_crc. destruct (C o >? 1); [|by rewrite app_nil_r].
    assert (Hb : Forall is_byte (src ++ rest)).
    { apply Forall_app; split; [by apply Forall_take, Forall_drop|by apply Forall_drop]. }
    rewrite crc24b_ok, res_bind_unfold; [|done|unfold zlen in *; rewrite length_app; lia].
    replace (Z.to_nat (seg_Kprime B BG - L)) with (8 * Z.to_nat n)%nat by lia.
    rewrite take_octets by (unfold zlen in Hsrc; lia).
    assert (Hrl : 3 <= zlen rest) by (unfold rest; autorewrite with rlc_len; lia).
    rewrite put_crc24_rest, <- app_assoc by done. done. }
  rewrite Hcrc, res_bind_unfold, E2. clear Hcrc.
  set (pre := src ++ block_crc o src). set (k := Z.shiftr (K o) 3) in *.
  assert (Hpre : zlen pre = n + (if C o >? 1 then 3 else 0)) by (unfold pre; rewrite zlen_app, block_crc_len; lia).
  assert (Hdone : pre ++ replicate (Z.to_nat (k - zlen pre)) 0
      ++ drop (Z.to_nat (k - zlen pre)) (drop (Z.to_nat (if C o >? 1 then 3 else 0)) rest)
      = code_block o (seg_Kprime B BG) src ++ drop (Z.to_nat k) out).
  { unfold code_block, rest. fold k. rewrite !drop_drop, Hpre, E2. unfold pre. rewrite <- !app_assoc. do 4 f_equal. lia. }
  rewrite <- Hdone, <- Hpre. destruct (Z.gtb_spec (F o) 0) as [HF|HF].
  - apply fill_from; [done|]. unfold rest. autorewrite with rlc_len. lia.
  - assert (k = zlen pre) as ->; [|by rewrite Z.sub_diag]. rewrite Hpre, <- E2.
    pose proof (gs_F _ _ _ _ Hgs). pose proof (gs_fit _ _ _ _ Hgs). unfold k. f_equal. lia.
Qed.

(** The part of the block that goes to code block [r]. *)
Definition piece (input : list Z) (r : nat) : list Z := take (Z.to_nat n) (drop (r * Z.to_nat n) input).

(** Output buffer [r], which held [out]. *)
Definition seg_output (input : list Z) (r : nat) (out : list Z) : list Z :=
  code_block o (seg_Kprime B BG) (piece input r) ++ drop (Z.to_nat (Z.shiftr (K o) 3)) out.

Lemma seg_blocks_ok input bufs : Forall is_byte input -> Forall (Forall is_byte) bufs ->
  Forall (fun out => Z.shiftr (K o) 3 <= zlen out) bufs -> B <= 8 * zlen input -> C o <= zlen bufs ->
  seg_blocks input o (seg_Kprime B BG) L bufs
  = Ok (imap (seg_output input) (take (Z.to_nat (C o)) bufs) ++ drop (Z.to_nat (C o)) bufs).
Proof using Hgs Heven.
  intros Hi Hb Hk HB HC. destruct even_shifts as (E1 & _). destruct even_Kprime as [_ Hn].
  pose proof (gs_C _ _ _ _ Hgs) as HCo. unfold seg_blocks.
  destruct (res_foldl_seqZ (fun i '(s, bs) => s = i * n /\
      bs = imap (seg_output input) (take (Z.to_nat i) bufs) ++ drop (Z.to_nat i) bufs)
    (fun '(s, bufs) r => out ← zget bufs r; out ← seg_block input o (seg_Kprime B BG) L s out;
       bufs ← zset bufs r out; mret (s + Z.shiftr (seg_Kprime B BG - L) 3, bufs)) (0, bufs) 0 (C o))
    as ([s bs] & E & -> & ->); [lia|done| |by rewrite E].
  intros i [s bs] Hi2 [-> ->].
  destruct (lookup_lt_is_Some_2 bufs (Z.to_nat i)) as [out Hout]; [unfold zlen in HC; lia|].
  assert (Hsplit : imap (seg_output input) (take (Z.to_nat i) bufs) ++ drop (Z.to_nat i) bufs
    = imap (seg_output input) (take (Z.to_nat i) bufs) ++ out :: drop (S (Z.to_nat i)) bufs)
    by (f_equal; by apply drop_S).
  assert (Hlen : zlen (imap (seg_output input) (take (Z.to_nat i) bufs)) = i).
  { pose proof (lookup_lt_Some _ _ _ Hout). unfold zlen. rewrite length_imap, length_take. lia. }
  assert (Hget : zget (imap (seg_output input) (take (Z.to_nat i) bufs) ++ out :: drop (S (Z.to_nat i)) bufs) i = Ok out).
  { apply zget_ok. split; [lia|]. apply list_lookup_middle. unfold zlen in Hlen. lia. }
  rewrite Hsplit, Hget, res_bind_unfold.
  rewrite seg_block_ok, res_bind_unfold; [|done|by eapply Forall_lookup_1|nia|nia|by eapply Forall_lookup_1 in Hk].
  rewrite zset_at, res_bind_unfold by done. eexists. split; [done|]. rewrite E1. split; [lia|].
  replace (Z.to_nat (i + 1)) with (S (Z.to_nat i)) by lia. rewrite (take_S_r _ _ out), imap_app, <- app_assoc by done.
  f_equal. cbn [imap app]. f_equal. unfold seg_output, piece. rewrite length_take.
  pose proof (lookup_lt_Some _ _ _ Hout). do 4 f_equal. lia.
Qed.
End blocks.

(** ** Reassembly *)

Lemma reassemble_ok o cs b : Forall (fun c => seg_bytes o <= zlen c) cs -> 0 <= seg_bytes o ->
  zlen cs * seg_bytes o <= zlen b -> zlen cs * seg_bytes o < 2 ^ 32 ->
  reassemble o (map (pair true) cs) b
  = Ok (concat (map (take (Z.to_nat (seg_bytes o))) cs) ++ drop (Z.to_nat (zlen cs * seg_bytes o)) b).
Proof.
  intros Hc Hn Hb Hmax. set (n := seg_bytes o) in *. unfold reassemble. fold n.
  assert (H : forall pre rest, zlen cs * n <= zlen rest -> zlen pre + zlen cs * n < 2 ^ 32 ->
    res_foldl (fun '(offset, b) '(decodeSuccess, c) =>
      b ← (if decodeSuccess : bool then src ← zslice c 0 n; zwrite b offset src else mret b);
      mret (u32 (offset + n), b)) (zlen pre, pre ++ rest) (map (pair true) cs)
    = Ok (zlen pre + zlen cs * n, pre ++ concat (map (take (Z.to_nat n)) cs) ++ drop (Z.to_nat (zlen cs * n)) rest)).
  { clear Hb Hmax b. induction Hc as [|c cs Hc _ IH]; intros pre rest Hr Hm.
    { cbn. rewrite Z.add_0_r. done. }
    rewrite zlen_cons in *. pose proof (zlen_nonneg cs). cbn [map res_foldl].
    rewrite zslice_ok, res_bind_unfold by lia. change (drop (Z.to_nat 0) c) with c.
    set (src := take (Z.to_nat n) c). assert (Hs : zlen src = n) by (unfold src; autorewrite with rlc_len; lia).
    rewrite zwrite_append, !res_bind_unfold by (done || nia).
    assert (Hs' : Z.of_nat (length src) = n) by done. assert (Happ : zlen (pre ++ src) = zlen pre + n) by (rewrite zlen_app; lia).
    assert (u32 (zlen pre + n) = zlen (pre ++ src)) as ->.
    { rewrite Happ. apply Z.mod_small. pose proof (zlen_nonneg pre). nia. }
    rewrite IH; [|rewrite zlen_drop; nia|rewrite Happ; nia].
    f_equal. f_equal; [rewrite Happ; lia|]. rewrite drop_drop. cbn [concat]. rewrite <- !app_assoc. do 4 f_equal. nia. }
  specialize (H [] b Hb). cbn [app] in H. rewrite zlen_nil in H. by rewrite H by lia.
Qed.

(** The decoded blocks are counted. *)
Lemma processed_all cs : processed (map (pair true) cs) = zlen cs.
Proof. unfold processed. rewrite zsum_map. cbn [fst b2z]. induction cs as [|c cs IH]; [done|]. by rewrite zsum_cons, zlen_cons, IH. Qed.

Lemma concat_pieces (input : list Z) (n k : nat) : (k * n <= length input)%nat ->
  concat (map (fun r => take n (drop (r * n) input)) (seq 0 k)) = take (k * n) input.
Proof.
  induction k as [|k IH]; intros Hk; [done|]. rewrite seq_S, map_app, concat_app, IH by lia. cbn [map concat]. rewrite app_nil_r.
  rewrite Nat.add_0_l. replace (S k * n)%nat with (k * n + n)%nat by lia. by rewrite take_take_drop.
Qed.

(** ** Attachment and check of the CRC of a transport block *)

Definition tb_crc (tb : list Z) : list Z :=
  if 8 * zlen tb >? NR_MAX_PDSCH_TBS then crc_octets24 (Z.shiftr (crc_bits poly24a (buffer_bits tb)) 8)
  else crc_octets16 (Z.shiftr (crc_bits poly16 (buffer_bits tb)) 16).

Lemma tb_crc_len tb : lenWithCrc 1 (8 * zlen tb) = 8 * zlen (tb ++ tb_crc tb) /\ 2 <= zlen (tb_crc tb) <= 3.
Proof.
  unfold lenWithCrc, tb_crc. change (1 >? 1) with false. destruct (_ >? _); cbn iota; rewrite zlen_app;
    unfold crc_octets24, crc_octets16; autorewrite with rlc_len; lia.
Qed.

Lemma crc_attach_ok tb rest max_bytes : Forall is_byte (tb ++ rest) -> 3 <= zlen rest -> zlen tb + 4 <= max_bytes ->
  crc_attach (tb ++ rest) (8 * zlen tb) max_bytes
  = Ok (tb ++ tb_crc tb ++ drop (length (tb_crc tb)) rest, lenWithCrc 1 (8 * zlen tb)).
Proof.
  intros Hb Hr Hm. pose proof (zlen_nonneg tb) as Ht. assert (Hs : Z.shiftr (8 * zlen tb) 3 = zlen tb).
  { rewrite Z.shiftr_div_pow2 by lia. change (2 ^ 3) with 8. by rewrite Z.mul_comm, Z.div_mul. }
  assert (Hq : Z.quot (8 * zlen tb) 8 = zlen tb) by (by rewrite Z.mul_comm, Z.quot_mul).
  assert (Hn : Z.to_nat (8 * zlen tb) = (8 * length tb)%nat) by (unfold zlen; lia).
  assert (Hlen : 0 <= 8 * zlen tb <= 8 * zlen (tb ++ rest)) by (rewrite zlen_app; lia).
  unfold crc_attach, lenWithCrc, tb_crc. change (1 >? 1) with false. rewrite Hs, Hq.
  destruct (_ >? _).
  - rewrite crc24a_ok, res_bind_unfold by done. rewrite Hn, take_octets by done.
    rewrite put_crc24_rest, res_bind_unfold by (done || lia). rewrite dev_assert_ok, res_bind_unfold by lia. done.
  - rewrite crc16_ok, res_bind_unfold by done. rewrite Hn, take_octets by done.
    rewrite put_crc16_rest, res_bind_unfold by (done || lia). rewrite dev_assert_ok, res_bind_unfold by lia. done.
Qed.

Lemma tb_crc_zero tb : crc_bits (poly_of (crcType 1 (8 * zlen tb))) (buffer_bits (tb ++ tb_crc tb)) = 0.
Proof.
  unfold crcType, tb_crc. change (1 >? 1) with false. rewrite buffer_bits_app. destruct (_ >? _); cbn iota.
  - rewrite octets24_bits. apply (attach_zero _ 24 _ generator24a).
  - rewrite octets16_bits. apply (attach_zero _ 16 _ generator16).
Qed.

Lemma crcType_range n len : 0 <= crcType n len < 4.
Proof. unfold crcType. zcases; done. Qed.

(** The receiver's check accepts what the sender attached. *)
Lemma tb_crc_check tb rest : Forall is_byte (tb ++ tb_crc tb ++ rest) ->
  check_crc (tb ++ tb_crc tb ++ rest) (lenWithCrc 1 (8 * zlen tb)) (crcType 1 (8 * zlen tb)) = Ok 1.
Proof.
  intros Hb. pose proof (tb_crc_len tb) as [-> Hl]. rewrite check_crc_ok; [|apply crcType_range|done|].
  - unfold zlen at 2. rewrite Nat2Z.id, app_assoc, take_app_length. by rewrite tb_crc_zero.
  - rewrite !zlen_app. pose proof (zlen_nonneg tb). pose proof (zlen_nonneg rest).
    unfold crcType, tb_crc in *. change (1 >? 1) with false in *.
    destruct (_ >? _); unfold crc_octets24, crc_octets16 in *; autorewrite with rlc_len in *; unfold crc_len; cbn; lia.
Qed.
End TransportSpec.

(** * Transport block sizes: how they split

    The sizes of [nr_compute_tbs] are whole bytes and, with their CRC, split into code
    blocks of equal numbers of bytes, for the base graph of [get_BG]. *)
Module TbsSpec.
Import Tbs Transport TransportSpec.

(** The block of [A] bits and its CRC split into [C] equal numbers of bytes. *)
Definition splits (A BG : Z) : Prop :=
  exists n, lenWithCrc 1 A = 8 * (fst (seg_count (lenWithCrc 1 A) BG) * n).

Lemma first_ge_in tab x : Exists (fun t => x <= t) tab -> first_ge tab x ∈ tab /\ x <= first_ge tab x.
Proof.
  induction 1 as [t tab Ht|t tab _ IH]; cbn [first_ge]; rewrite Z.geb_leb; destruct (Z.leb_spec x t); try (split; [set_solver|lia]).
  lia.
Qed.

Lemma tbstable_ok x : x ∈ Tbstable_nr -> 24 <= x <= 3824 /\ x mod 8 = 0.
Proof.
  intros Hx. assert (H : forallb (fun x => (24 <=? x) && (x <=? 3824) && (x mod 8 =? 0)) Tbstable_nr = true) by (vm_compute; done).
  rewrite forallb_forall in H. specialize (H x (proj1 (list_elem_of_In _ _) Hx)). lia.
Qed.

(** The small sizes: at least the information bits rounded down, and one code block. *)
Lemma small_tbs_ok Ninfo : 0 <= Ninfo <= 3824 -> 24 <= small_tbs Ninfo <= 3824 /\ small_tbs Ninfo mod 8 = 0.
Proof.
  intros HN. unfold small_tbs. set (n := Z.max 3 (Z.log2 Ninfo - 6)). set (x := Z.max 24 (Z.shiftl (Z.shiftr Ninfo n) n)).
  assert (Hx : x <= 3824).
  { unfold x. rewrite Z.shiftr_div_pow2, Z.shiftl_mul_pow2 by lia.
    pose proof (Z.mul_div_le Ninfo (2 ^ n) ltac:(apply Z.pow_pos_nonneg; lia)). lia. }
  apply tbstable_ok, (first_ge_in Tbstable_nr x), Exists_exists. exists 3824. split; [|lia].
  apply (bool_decide_unpack (3824 ∈ Tbstable_nr)). vm_compute. exact I.
Qed.

Lemma CEILIDIV_ok a b : 0 <= a -> 0 < b -> a <= b * CEILIDIV a b < a + b.
Proof. intros. unfold CEILIDIV. rewrite Z.quot_div_nonneg by lia. zmod. Qed.

Lemma CEILIDIV_le a b m : 0 <= a -> 0 < b -> a <= b * m -> CEILIDIV a b <= m.
Proof. intros. pose proof (CEILIDIV_ok a b). nia. Qed.

(** Blocks of several segments: as many segments as the size was computed for. *)
Lemma many_splits x Kcb C : Kcb - 24 = 8 * Z.quot (Kcb - 24) 8 -> 24 < Kcb -> Kcb < x -> C = CEILIDIV x (Kcb - 24) ->
  let B := 8 * C * CEILIDIV x (8 * C) in
  Kcb < B <= C * (Kcb - 24) /\ (C - 1) * (Kcb - 24) < B /\ 2 <= C.
Proof.
  intros H8 HK Hx ->. set (C := CEILIDIV x (Kcb - 24)). set (k := Z.quot (Kcb - 24) 8) in *.
  pose proof (CEILIDIV_ok x (Kcb - 24) ltac:(lia) ltac:(lia)) as HC. fold C in HC.
  assert (0 < C) by nia. pose proof (CEILIDIV_ok x (8 * C) ltac:(lia) ltac:(lia)) as Hm.
  pose proof (CEILIDIV_le x (8 * C) k ltac:(lia) ltac:(lia) ltac:(nia)) as Hk. cbn zeta. nia.
Qed.

(** The rounded information bits. *)
Lemma round_ok x n : 0 <= x -> 0 <= n -> 0 <= Z.shiftl (ROUNDIDIV x (Z.shiftl 1 n)) n <= x + 2 ^ n.
Proof.
  intros Hx Hn. unfold ROUNDIDIV. rewrite !Z.shiftl_mul_pow2 by lia. set (p := 2 ^ n).
  assert (0 < p) by (apply Z.pow_pos_nonneg; lia). rewrite Z.quot_div_nonneg by lia.
  pose proof (Z.mul_div_le (x * 2 ^ 1 + 1 * p) (1 * p * 2 ^ 1) ltac:(lia)) as Hd.
  pose proof (Z.div_pos (x * 2 ^ 1 + 1 * p) (1 * p * 2 ^ 1) ltac:(lia) ltac:(lia)) as H0. nia.
Qed.

Lemma large_tbs_ok Ninfo (low : bool) : 3824 < Ninfo < 2 ^ 21 ->
  let A := large_tbs Ninfo low in
  3824 < A < 2 ^ 26 /\ A mod 8 = 0 /\ splits A (if low then 2 else 1).
Proof.
  intros HN. unfold large_tbs. set (n := Z.log2 (Ninfo - 24) - 5).
  assert (Hlog : 11 <= Z.log2 (Ninfo - 24) < 21).
  { split; [apply Z.log2_le_pow2; lia|apply Z.log2_lt_pow2; lia]. }
  pose proof (round_ok (Ninfo - 24) n ltac:(lia) ltac:(lia)) as Hr.
  assert (Hp : 2 ^ n <= 2 ^ 15) by (apply Z.pow_le_mono_r; lia).
  set (Np := Z.max 3840 (Z.shiftl (ROUNDIDIV (Ninfo - 24) (Z.shiftl 1 n)) n)).
  assert (HNp : 3840 <= Np < 2 ^ 22) by (unfold Np; lia). clearbody Np. clear Hr Hp Hlog HN n Ninfo.
  assert (Hmany : forall BG, let Kcb := max_code_block BG in Kcb < Np + 24 ->
    let A := Z.shiftl (CEILIDIV (Np + 24) (Kcb - 24)) 3 * CEILIDIV (Np + 24) (Z.shiftl (CEILIDIV (Np + 24) (Kcb - 24)) 3) - 24 in
    3824 < A < 2 ^ 26 /\ A mod 8 = 0 /\ splits A BG).
  { intros BG Kcb HK A. set (C := CEILIDIV (Np + 24) (Kcb - 24)) in *.
    assert (Kcb - 24 = 8 * Z.quot (Kcb - 24) 8 /\ 3840 <= Kcb) as [H8 HK'] by (unfold Kcb, max_code_block; by destruct (BG =? 1)).
    pose proof (many_splits (Np + 24) Kcb C H8 ltac:(lia) HK eq_refl) as HB. cbn zeta in HB.
    unfold A. rewrite Z.shiftl_mul_pow2 by lia. change (2 ^ 3) with 8. rewrite (Z.mul_comm C 8).
    set (m := CEILIDIV (Np + 24) (8 * C)) in *.
    assert (HBm : Np + 24 <= 8 * C * m < Np + 24 + 8 * C) by (apply CEILIDIV_ok; lia).
    assert (HCm : C <= Np + 24) by (apply CEILIDIV_le; nia).
    split; [lia|]. split.
    { replace (8 * C * m - 24) with ((C * m - 3) * 8) by lia. by rewrite Z.mod_mul. }
    exists m. unfold lenWithCrc. change (1 >? 1) with false. cbn iota. unfold NR_MAX_PDSCH_TBS.
    destruct (Z.gtb_spec (8 * C * m - 24) 3824) as [_|]; [|lia]. replace (8 * C * m - 24 + 24) with (8 * C * m) by lia.
    destruct (seg_count_ok (8 * C * m) BG) as (C' & L & -> & Hc); [lia|]. fold Kcb in Hc. cbn [fst].
    destruct Hc as [(Hc & _)|(_ & H2 & _ & Hc)]; [lia|]. assert (C' = C) as -> by nia. lia. }
  destruct low.
  - apply (Hmany 2). unfold max_code_block. cbn. lia.
  - destruct (Z.gtb_spec Np 8424); [apply (Hmany 1); unfold max_code_block; cbn; lia|].
    pose proof (CEILIDIV_ok (Np + 24) 8 ltac:(lia) ltac:(lia)) as H8. rewrite Z.shiftl_mul_pow2 by lia. change (2 ^ 3) with 8.
    set (m := CEILIDIV (Np + 24) 8) in *. split; [lia|]. split.
    { replace (m * 8 - 24) with ((m - 3) * 8) by lia. by rewrite Z.mod_mul. }
    exists m. unfold lenWithCrc. change (1 >? 1) with false. cbn iota. unfold NR_MAX_PDSCH_TBS.
    destruct (Z.gtb_spec (m * 8 - 24) 3824) as [_|]; [|lia]. unfold seg_count.
    change (1 =? 1) with true. cbn iota. destruct (Z.leb_spec (m * 8 - 24 + 24) 8448); cbn [fst]; lia.
Qed.

Lemma ninfo_range Qm R nb_rb symb dmrs oh scaling Nl : 0 <= scaling -> 0 <= tbs_ninfo Qm R nb_rb symb dmrs oh scaling Nl < 2 ^ 21.
Proof.
  intros Hs. unfold tbs_ninfo. set (x := _ * Qm * Nl). pose proof (Z.mod_pos_bound x (2 ^ 32) ltac:(lia)) as Hx. fold (u32 x) in Hx.
  rewrite Z.shiftr_shiftr, Z.shiftr_div_pow2 by lia. assert (Hp : 2 ^ 11 <= 2 ^ (11 + scaling)) by (apply Z.pow_le_mono_r; lia).
  split; [apply Z.div_pos; lia|]. apply Z.div_lt_upper_bound; nia.
Qed.

(** The sizes of [nr_compute_tbs]. *)
Lemma compute_tbs_ok Qm R nb_rb symb dmrs oh scaling Nl : 0 <= scaling ->
  let A := nr_compute_tbs Qm R nb_rb symb dmrs oh scaling Nl in
  A = 0 \/ (24 <= A < 2 ^ 26 /\ A mod 8 = 0 /\ splits A (get_BG A R)).
Proof.
  intros Hs. unfold nr_compute_tbs. destruct (_ || _); [by left|right].
  set (Ninfo := tbs_ninfo Qm R nb_rb symb dmrs oh scaling Nl).
  assert (HN : 0 <= Ninfo < 2 ^ 21) by (by apply ninfo_range).
  clearbody Ninfo. destruct (Z.leb_spec Ninfo NR_MAX_PDSCH_TBS) as [H|H]; unfold NR_MAX_PDSCH_TBS in H.
  - destruct (small_tbs_ok Ninfo ltac:(lia)) as [Hr Hm]. set (A := small_tbs Ninfo) in *. split; [lia|]. split; [done|].
    exists (A `div` 8 + 2). unfold lenWithCrc. change (1 >? 1) with false. cbn iota. unfold NR_MAX_PDSCH_TBS.
    destruct (Z.gtb_spec A 3824); [lia|]. unfold seg_count.
    destruct (Z.leb_spec (A + 16) (if get_BG A R =? 1 then 8448 else 3840)) as [_|Hk]; [cbn [fst]; zmod|].
    destruct (get_BG A R =? 1); lia.
  - destruct (large_tbs_ok Ninfo (R <=? 2560) ltac:(lia)) as (Hr & Hm & Hsp). set (A := large_tbs Ninfo (R <=? 2560)) in *.
    split; [lia|]. split; [done|]. assert (get_BG A R = if R <=? 2560 then 2 else 1) as ->; [|done].
    unfold get_BG, NR_MAX_PDSCH_TBS. destruct (Z.leb_spec A 292), (Z.leb_spec A 3824); try lia. done.
Qed.

(** A block that is not asked for with a zero has a size. *)
Lemma compute_tbs_pos Qm R nb_rb symb dmrs oh scaling Nl : 0 < Qm -> 0 < R -> 0 < nb_rb -> 0 < Nl -> 0 <= scaling ->
  nr_compute_tbs Qm R nb_rb symb dmrs oh scaling Nl <> 0.
Proof.
  intros HQ HR Hrb HN Hs. unfold nr_compute_tbs.
  destruct (Z.eqb_spec Qm 0), (Z.eqb_spec R 0), (Z.eqb_spec nb_rb 0), (Z.eqb_spec Nl 0); try lia. cbn [orb].
  pose proof (ninfo_range Qm R nb_rb symb dmrs oh scaling Nl Hs) as Hn. set (Ninfo := tbs_ninfo _ _ _ _ _ _ _ _) in *.
  destruct (Z.leb_spec Ninfo NR_MAX_PDSCH_TBS) as [H|H]; unfold NR_MAX_PDSCH_TBS in H.
  - destruct (small_tbs_ok Ninfo ltac:(lia)). lia.
  - destruct (large_tbs_ok Ninfo (R <=? 2560) ltac:(lia)). lia.
Qed.

(** No product overflows for the allocations of one cell and four layers. *)
Lemma ninfo_exact Qm R nb_rb symb dmrs oh scaling Nl :
  0 <= Qm <= 8 -> 0 <= R <= 9480 -> 0 <= nb_rb <= 275 -> 0 <= Nl <= 4 -> 0 <= scaling ->
  0 <= 12 * symb - dmrs - oh < 2 ^ 32 ->
  tbs_ninfo Qm R nb_rb symb dmrs oh scaling Nl
  = (Z.min 156 (12 * symb - dmrs - oh) * nb_rb * (R / 5) * Qm * Nl) / 2 ^ (11 + scaling).
Proof.
  intros HQ HR Hrb HN Hs Hre. unfold tbs_ninfo. unfold u32 at 3. rewrite (Z.mod_small (12 * symb - dmrs - oh)) by lia.
  set (re := Z.min 156 (12 * symb - dmrs - oh)). assert (Hr : 0 <= re <= 156) by lia.
  rewrite Z.quot_div_nonneg by lia. assert (H5 : 0 <= R / 5 <= 1896) by zmod.
  assert (Hx : 0 <= re * nb_rb <= 42900) by nia. unfold u32. rewrite (Z.mod_small (re * nb_rb)) by lia.
  assert (Hy : 0 <= re * nb_rb * (R / 5) <= 81338400) by nia. assert (Hz : 0 <= re * nb_rb * (R / 5) * Qm <= 650707200) by nia.
  rewrite Z.mod_small by nia. rewrite Z.shiftr_shiftr, Z.shiftr_div_pow2 by lia. done.
Qed.
End TbsSpec.

(** * Transport blocks: from the sender to the receiver

    When the LDPC decoder gives back the code blocks that the encoder got, the receiver
    has the transport block of the sender and accepts it; both sides compute the same
    segmentation. *)
Module TransportChain.
Import Crc CrcSpec Tbs Transport TransportSpec TbsSpec.

(** The LDPC decoder returns the first [k] bytes of the code blocks. *)
Definition ldpc_returns (k : Z) (blocks : list (list Z)) (outs : list (option (list Z))) : Prop :=
  Forall2 (fun c out => exists l, out = Some l /\ Forall is_byte l /\ take (Z.to_nat k) l = take (Z.to_nat k) c) blocks outs.

(** Buffers for code blocks. *)
Definition block_buffers (cs : list (list Z)) : Prop := Forall (fun c => Forall is_byte c /\ 1056 <= zlen c) cs.

Lemma decode_segments_ok o blocks outs cs : let k := Z.shiftr (K o) 3 in ldpc_returns k blocks outs -> Forall (fun c => k <= zlen c) blocks ->
  zlen blocks <= zlen cs -> Forall (fun c => k <= zlen c) cs -> 0 <= k ->
  exists cs', decode_segments o outs cs = Ok (map (pair true) cs')
    /\ Forall2 (fun c c' => take (Z.to_nat k) c' = take (Z.to_nat k) c /\ k <= zlen c') blocks cs'.
Proof.
  intros k Hl Hb Hlen Hcs Hk. revert cs Hb Hlen Hcs. induction Hl as [|c out blocks outs (l & -> & Hl & E) _ IH]; intros cs Hb Hlen Hcs.
  { exists []. split; [by destruct cs|constructor]. }
  destruct cs as [|c0 cs]; [rewrite zlen_cons, zlen_nil in Hlen; pose proof (zlen_nonneg blocks); lia|].
  apply Forall_cons in Hb as [Hc Hb]. apply Forall_cons in Hcs as [Hc0 Hcs]. rewrite !zlen_cons in Hlen.
  destruct (IH cs Hb ltac:(lia) Hcs) as (cs' & Hd & Hf).
  assert (Hll : k <= zlen l).
  { apply (f_equal length) in E. rewrite !length_take in E. unfold zlen in *. lia. }
  assert (Hs : zlen (take (Z.to_nat k) l) = k) by (autorewrite with rlc_len; lia).
  exists ((take (Z.to_nat k) l ++ drop (length (take (Z.to_nat k) l)) c0) :: cs'). split.
  - cbn [decode_segments decoded]. fold k. rewrite zslice_ok, res_bind_unfold by lia. change (drop (Z.to_nat 0) l) with l.
    pose proof (zwrite_append [] (take (Z.to_nat k) l) c0 0 eq_refl ltac:(lia)) as Hw. cbn [app] in Hw.
    rewrite Hw, res_bind_unfold, res_ret_bind, Hd. done.
  - constructor; [|done]. split.
    + rewrite take_app_length'; [done|]. unfold zlen in Hs. lia.
    + rewrite zlen_app, Hs. pose proof (zlen_nonneg (drop (length (take (Z.to_nat k) l)) c0)). lia.
Qed.

Section chain.
Context (tb : list Z) (BG : Z).
Let A := 8 * zlen tb.
Let B := lenWithCrc 1 A.
Context (o : seg) (L n : Z) (Hgs : good_seg B BG o L) (Heven : B = 8 * (C o * n)) (Hmax : B <= 2 ^ 31).
Let k := Z.shiftr (K o) 3.

Lemma chain_bytes : zlen (tb ++ tb_crc tb) = C o * n.
Proof using Heven. pose proof (tb_crc_len tb) as [H _]. unfold B, A in *. lia. Qed.

(** The receiver copies the parts of the transport block. *)
Lemma chain_reassemble_ok rest bufs cs' b : Forall is_byte (tb ++ tb_crc tb ++ rest) -> block_buffers bufs -> C o <= zlen bufs ->
  Forall2 (fun c c' => take (Z.to_nat k) c' = take (Z.to_nat k) c /\ k <= zlen c')
    (imap (seg_output B BG o n (tb ++ tb_crc tb ++ rest)) (take (Z.to_nat (C o)) bufs)) cs' ->
  C o * n <= zlen b ->
  reassemble o (map (pair true) cs') b = Ok (tb ++ tb_crc tb ++ drop (Z.to_nat (C o * n)) b).
Proof using Hgs Heven Hmax.
  intros Hb Hbufs HC Hf Hbl. set (input := tb ++ tb_crc tb ++ rest) in *.
  destruct (even_shifts _ _ _ _ Hgs _ Heven) as (_ & E2 & Hk & Hn & Hk2). fold k in Hk, Hk2.
  destruct (even_Kprime _ _ _ _ Hgs _ Heven) as [_ Hn0].
  pose proof (Forall2_length _ _ _ Hf) as Hlen. rewrite length_imap, length_take in Hlen.
  pose proof (gs_C _ _ _ _ Hgs) as HCo. assert (Hz : zlen cs' = C o) by (unfold zlen in *; lia).
  assert (Hnk : n <= k) by (destruct (C o >? 1); lia).
  rewrite reassemble_ok; rewrite ?Hn, ?Hz; try lia.
  2: { eapply Forall2_Forall_r; [exact Hf|]. apply Forall_true. intros c c' [_ ?]. lia. }
  f_equal. rewrite app_assoc. f_equal. rewrite <- (take_app_length' (tb ++ tb_crc tb) rest (Z.to_nat (C o) * Z.to_nat n)%nat).
  2: { pose proof chain_bytes as H. unfold zlen in H. nia. }
  rewrite <- app_assoc. fold input. rewrite <- concat_pieces.
  2: { pose proof chain_bytes as H. unfold input. rewrite app_assoc, length_app. unfold zlen in H. nia. }
  f_equal. apply list_eq. intros i. rewrite !list_lookup_fmap.
  destruct (cs' !! i) as [c'|] eqn:Ec.
  - pose proof (lookup_lt_Some _ _ _ Ec) as Hi. rewrite lookup_seq_lt by (unfold zlen in Hz; lia). cbn [fmap option_fmap option_map].
    f_equal. destruct (Forall2_lookup_r _ _ _ _ _ Hf Ec) as (c & Hc & E & _).
    rewrite list_lookup_imap in Hc. apply fmap_Some in Hc as (out & _ & ->).
    assert (E' : take (Z.to_nat n) c' = take (Z.to_nat n) (seg_output B BG o n input i out)).
    { transitivity (take (Z.to_nat n) (take (Z.to_nat k) c')); [by rewrite take_take, Nat.min_l by lia|].
      rewrite E, take_take, Nat.min_l by lia. done. }
    rewrite E'. unfold seg_output, code_block. rewrite <- app_assoc, take_app_length'; [done|].
    unfold piece. rewrite length_take, length_drop. pose proof chain_bytes as H. unfold input. rewrite app_assoc, length_app.
    unfold zlen in H, Hz. nia.
  - apply lookup_ge_None in Ec. rewrite lookup_seq_ge by (unfold zlen in Hz; lia). done.
Qed.
End chain.

(** *** The segmentation of a block *)

Lemma block_segmentation tb BG : lenWithCrc 1 (8 * zlen tb) <= 2 ^ 31 -> splits (8 * zlen tb) BG ->
  let B := lenWithCrc 1 (8 * zlen tb) in
  exists o L n, good_seg B BG o L /\ B = 8 * (C o * n)
    /\ C o = fst (seg_count B BG)
    /\ (forall old, rx_segmentation (8 * zlen tb) BG old = Ok o)
    /\ forall rest bufs old, Forall is_byte (tb ++ tb_crc tb ++ rest) -> block_buffers bufs -> C o <= zlen bufs ->
         nr_segmentation (Some (tb ++ tb_crc tb ++ rest, bufs)) B BG old
         = Ok (seg_Kb B BG, o, Some (imap (seg_output B BG o n (tb ++ tb_crc tb ++ rest)) (take (Z.to_nat (C o)) bufs)
                                     ++ drop (Z.to_nat (C o)) bufs)).
Proof.
  intros Hmax [n Hn] B. pose proof (tb_crc_len tb) as [HB Hl]. pose proof (zlen_nonneg tb) as Ht.
  assert (HB0 : 0 < B <= 2 ^ 31) by (unfold B; rewrite HB in *; rewrite zlen_app in *; lia).
  destruct (segmentation_ok B BG HB0) as (o & L & Hgs & Hseg). exists o, L, n. fold B in Hn.
  rewrite (gs_count _ _ _ _ Hgs) in Hn |- *. cbn [fst] in Hn |- *. split; [done|]. split; [done|]. split; [done|]. split.
  - intros old. unfold rx_segmentation. fold B. assert (u32 B = B) as -> by (apply Z.mod_small; lia). by rewrite Hseg.
  - intros rest bufs old Hb Hbufs HC. rewrite Hseg.
    destruct (even_shifts _ _ _ _ Hgs _ Hn) as (_ & _ & _ & _ & Hk).
    rewrite (seg_blocks_ok _ _ _ _ Hgs _ Hn); [done|done| | | |done].
    + eapply Forall_impl; [exact Hbufs|]. by intros c [? _].
    + eapply Forall_impl; [exact Hbufs|]. intros c [_ ?]. lia.
    + rewrite app_assoc, zlen_app. unfold B. rewrite HB. pose proof (zlen_nonneg rest). lia.
Qed.

(** What both directions share: the decoded blocks give the transport block. *)
Lemma blocks_received tb BG o L n rest bufs outs cs b :
  let B := lenWithCrc 1 (8 * zlen tb) in
  good_seg B BG o L -> B = 8 * (C o * n) -> B <= 2 ^ 31 ->
  Forall is_byte (tb ++ tb_crc tb ++ rest) -> block_buffers bufs -> C o <= zlen bufs ->
  ldpc_returns (Z.shiftr (K o) 3)
    (imap (seg_output B BG o n (tb ++ tb_crc tb ++ rest)) (take (Z.to_nat (C o)) bufs)) outs ->
  block_buffers cs -> C o <= zlen cs -> C o * n <= zlen b ->
  exists cs', decode_segments o outs cs = Ok (map (pair true) cs') /\ zlen cs' = C o
    /\ reassemble o (map (pair true) cs') b = Ok (tb ++ tb_crc tb ++ drop (Z.to_nat (C o * n)) b).
Proof.
  intros B Hgs Hn Hmax Hb Hbufs HC Hl Hcs HCc Hbl.
  destruct (even_shifts _ _ _ _ Hgs _ Hn) as (_ & _ & Hk0 & _ & Hk). destruct (even_Kprime _ _ _ _ Hgs _ Hn) as [_ Hn0].
  pose proof (gs_C _ _ _ _ Hgs) as HCo. set (blocks := imap _ _) in *.
  assert (Hbl' : length blocks = Z.to_nat (C o)) by (unfold blocks; rewrite length_imap, length_take; unfold zlen in HC; lia).
  destruct (decode_segments_ok o blocks outs cs) as (cs' & Hd & Hf); [done| |unfold zlen in *; lia| |lia|].
  - apply Forall_lookup. intros i c Hi. unfold blocks in Hi. rewrite list_lookup_imap in Hi.
    apply fmap_Some in Hi as (out & Ho & ->). unfold seg_output. rewrite zlen_app.
    apply lookup_take_Some in Ho as [_ Hi]. rewrite (code_block_len _ _ _ _ Hgs _ Hn); [pose proof (zlen_nonneg (drop (Z.to_nat (K o ≫ 3)) out)); lia|].
    pose proof (chain_bytes tb o n Hn) as H. unfold piece. rewrite zlen_take, zlen_drop, app_assoc, zlen_app, H.
    pose proof (zlen_nonneg rest). nia.
  - eapply Forall_impl; [exact Hcs|]. intros c [_ ?]. lia.
  - exists cs'. split; [done|]. split; [apply Forall2_length in Hf; unfold zlen; lia|].
    by apply (chain_reassemble_ok tb BG o L n Hgs Hn Hmax rest bufs).
Qed.
(** *** Uplink *)

(** A UE that sends [tb]: its HARQ process and its PUSCH PDU. *)
Record ue_sends (pdu : pusch_pdu) (h : ul_harq) (tb rest : list Z) : Prop := {
  us_payload : payload_AB h = tb ++ rest;
  us_bytes : Forall is_byte (tb ++ rest);
  us_rest : 3 <= zlen rest;
  us_size : tb_size pdu = zlen tb;
  us_max : zlen tb + 4 <= MAX_NUM_NR_ULSCH_SEGMENTS_PER_LAYER * nrOfLayers pdu * 1056;
  us_width : lenWithCrc 1 (8 * zlen tb) <= 2 ^ 31;
  us_split : splits (8 * zlen tb) (ldpcBaseGraph pdu);
  us_bufs : block_buffers (c h);
  us_count : fst (seg_count (lenWithCrc 1 (8 * zlen tb)) (ldpcBaseGraph pdu))
             <= Z.min (zlen (c h)) (MAX_NUM_NR_DLSCH_SEGMENTS_PER_LAYER * nrOfLayers pdu)
}.

Lemma tb_crc_bytes tb : Forall is_byte (tb_crc tb).
Proof. unfold tb_crc. destruct (_ >? _); repeat (constructor; [apply octet_at_byte|]); constructor. Qed.

Lemma u32_tb_bits (tb : list Z) : lenWithCrc 1 (8 * zlen tb) <= 2 ^ 31 -> u32 (Z.shiftl (zlen tb) 3) = 8 * zlen tb.
Proof.
  intros H. pose proof (tb_crc_len tb) as [HB Hl]. rewrite HB, zlen_app in H. pose proof (zlen_nonneg tb).
  unfold u32. rewrite Z.shiftl_mul_pow2 by lia. change (2 ^ 3) with 8. rewrite Z.mod_small; lia.
Qed.

Lemma uplink_block pdu h tb rest : ue_sends pdu h tb rest ->
  exists h', ulsch_pre_encode pdu h = Ok (true, h')
    /\ (forall old, rx_segmentation (8 * zlen tb) (ldpcBaseGraph pdu) old = Ok (harq_seg h'))
    /\ forall outs cs b,
         ldpc_returns (Z.shiftr (K (harq_seg h')) 3) (take (Z.to_nat (C (harq_seg h'))) (c h')) outs ->
         block_buffers cs -> C (harq_seg h') <= zlen cs ->
         Forall is_byte b -> zlen tb + 3 <= zlen b ->
         exists b', ulsch_receive (harq_seg h') outs cs b (zlen tb) = Ok (true, b') /\ take (length tb) b' = tb.
Proof.
  intros [Hp Hb Hr Hs Hm Hw Hsp Hbf Hc].
  destruct (block_segmentation tb (ldpcBaseGraph pdu) Hw Hsp) as (o & L & n & Hgs & Hn & HC & Hrx & Hseg).
  rewrite <- HC in Hc. pose proof (gs_C _ _ _ _ Hgs) as HCo.
  assert (Hb' : forall r, Forall is_byte r -> Forall is_byte (tb ++ tb_crc tb ++ r)).
  { intros r Hr'. apply Forall_app in Hb as [Htb _]. apply Forall_app; split; [done|]. apply Forall_app; split; [apply tb_crc_bytes|done]. }
  pose proof (Forall_drop is_byte (length (tb_crc tb)) rest (proj2 (proj1 (Forall_app _ _ _) Hb))) as Hrest.
  eexists. split; [|split].
  - unfold ulsch_pre_encode. rewrite Hs, u32_tb_bits, Hp, crc_attach_ok, res_bind_unfold by (done || lia).
    rewrite Hseg, res_bind_unfold by (auto || lia).
    assert ((C o >? MAX_NUM_NR_DLSCH_SEGMENTS_PER_LAYER * nrOfLayers pdu) = false) as -> by lia. reflexivity.
  - exact Hrx.
  - cbn [harq_seg c from_option id]. intros outs cs b Hl Hcs HCc Hbb Hbl.
    rewrite take_app_length' in Hl by (rewrite length_imap, length_take; unfold zlen in Hc; lia).
    pose proof (tb_crc_len tb) as [HB Hl3]. assert (Hbytes : C o * n <= zlen b).
    { pose proof (chain_bytes tb o n Hn) as H. rewrite zlen_app in H. lia. }
    destruct (blocks_received tb (ldpcBaseGraph pdu) o L n (drop (length (tb_crc tb)) rest) (c h) outs cs b)
      as (cs' & Hd & Hlen & Hre); try (done || lia); [by apply Hb'|].
    eexists. split; [|apply take_app_length]. unfold ulsch_receive. rewrite Hd, res_bind_unfold, Hre, res_bind_unfold.
    unfold crc_valid. rewrite processed_all, Hlen, Z.eqb_refl. destruct (C o >? 1); [|done].
    rewrite Z.shiftl_mul_pow2, (Z.mul_comm (zlen tb)) by lia. change (2 ^ 3) with 8.
    rewrite tb_crc_check; [done|]. apply Hb'. by apply Forall_drop.
Qed.

(** *** Downlink *)

(** A gNB that sends [tb]. *)
Record gnb_sends (d : dlsch) (tb rest : list Z) : Prop := {
  gn_payload : pdu d = tb ++ rest;
  gn_bytes : Forall is_byte (tb ++ rest);
  gn_rest : 4 <= zlen rest;
  gn_size : TBSize d = zlen tb;
  gn_max : zlen tb + 4 <= MAX_NUM_NR_DLSCH_SEGMENTS_PER_LAYER * dl_layers d * 1056;
  gn_width : lenWithCrc 1 (8 * zlen tb) <= 2 ^ 31;
  gn_split : splits (8 * zlen tb) (dl_BG d);
  gn_b : Forall is_byte (b d) /\ zlen tb + 4 <= zlen (b d);
  gn_bufs : block_buffers (dl_c d);
  gn_count : fst (seg_count (lenWithCrc 1 (8 * zlen tb)) (dl_BG d))
             <= Z.min (zlen (dl_c d)) (MAX_NUM_NR_DLSCH_SEGMENTS_PER_LAYER * dl_layers d)
}.

Lemma zeros_nonneg l : 0 <= zeros l.
Proof. induction l as [|x l IH]; cbn [zeros]; [lia|]. destruct (x =? 0); lia. Qed.

Lemma zeros_app l r : zlen l <= zeros (l ++ r) <-> Forall (fun x => x = 0) l.
Proof.
  induction l as [|x l IH]; [split; [done|]; intros _; apply zeros_nonneg|].
  rewrite zlen_cons. cbn [app zeros]. rewrite Forall_cons. pose proof (zlen_nonneg l). destruct (Z.eqb_spec x 0).
  - rewrite <- IH. lia.
  - lia.
Qed.

Lemma crc_bits_zeros poly k : crc_bits poly (replicate k false) = 0.
Proof. unfold crc_bits. rewrite feed_zeros. apply sigmas_0. Qed.

Lemma zero_bits l : Forall (fun x => x = 0) l -> buffer_bits l = replicate (8 * length l) false.
Proof.
  induction 1 as [|x l -> _ IH]; [done|]. unfold buffer_bits in *. cbn [map concat length]. rewrite IH.
  replace (8 * S (length l))%nat with (8 + 8 * length l)%nat by lia. by rewrite replicate_add.
Qed.

Lemma zero_crc tb : Forall (fun x => x = 0) tb -> Forall (fun x => x = 0) (tb_crc tb).
Proof.
  intros H. unfold tb_crc. rewrite (zero_bits tb H), !crc_bits_zeros. destruct (_ >? _); repeat constructor.
Qed.

(** The UE's verdict on a block that it received whole: all but the zeros. *)
Lemma decodeResult_ok o tb rest : Forall is_byte (tb ++ tb_crc tb ++ rest) ->
  decodeResult (C o) o (tb ++ tb_crc tb ++ rest) (8 * zlen tb) = Ok (negb (forallb (fun x => x =? 0) tb)).
Proof.
  intros Hb. unfold decodeResult. rewrite Z.eqb_refl, tb_crc_check by done. cbn [andb].
  assert (forall x : bool, (if x then v ← Ok 1; mret (negb (v =? 0)) else mret true) = Ok true) as -> by (by intros []).
  rewrite res_bind_unfold. assert (Z.quot (8 * zlen tb) 8 = zlen tb) as -> by (by rewrite Z.mul_comm, Z.quot_mul).
  pose proof (tb_crc_len tb) as [_ Hl]. destruct (tb_crc tb) as [|c0 [|c1 cr] ] eqn:Ec; [unfold zlen in Hl; cbn in Hl; lia..|].
  assert (Hget : forall i x, (c0 :: c1 :: cr) !! i = Some x -> zget (tb ++ (c0 :: c1 :: cr) ++ rest) (zlen tb + Z.of_nat i) = Ok x).
  { intros i x Hi. apply zget_ok. split; [pose proof (zlen_nonneg tb); lia|]. rewrite lookup_app_r by (unfold zlen; lia).
    rewrite <- Hi, <- (lookup_app_l (c0 :: c1 :: cr) rest) by (by eapply lookup_lt_Some). f_equal. unfold zlen. lia. }
  pose proof (Hget 0%nat c0 eq_refl) as G0. pose proof (Hget 1%nat c1 eq_refl) as G1. rewrite Z.add_0_r in G0. change (Z.of_nat 1) with 1 in G1.
  rewrite G0, res_bind_unfold, G1.
  assert (Hz : forallb (fun x => x =? 0) tb = true <-> Forall (fun x => x = 0) tb).
  { rewrite forallb_forall, Forall_forall. setoid_rewrite list_elem_of_In. setoid_rewrite Z.eqb_eq. done. }
  pose proof (zeros_app tb ((c0 :: c1 :: cr) ++ rest)) as Hza. set (all := tb ++ _) in *.
  destruct (forallb (fun x => x =? 0) tb) eqn:Ef.
  - pose proof (proj1 Hz eq_refl) as Hzz. pose proof (zero_crc tb Hzz) as Hc. rewrite Ec in Hc.
    apply Forall_cons in Hc as [-> [-> _]%Forall_cons]. apply Hza in Hzz. rewrite Z.eqb_refl. cbn [andb mbind res_bind].
    assert ((Z.min (zeros all) (zlen tb) =? zlen tb) = true) as -> by lia. done.
  - destruct (Z.eqb_spec c0 0) as [_|_]; [|done]. rewrite res_bind_unfold. destruct (c1 =? 0); [|done]. cbn [andb].
    assert (Hn : ~ (zlen tb <= zeros all)) by (rewrite Hza, <- Hz; done).
    assert ((Z.min (zeros all) (zlen tb) =? zlen tb) = false) as -> by lia. done.
Qed.

Lemma downlink_block d tb rest : gnb_sends d tb rest ->
  exists d' t, dlsch_pre_encode d = Ok (true, d', t)
    /\ (forall old, rx_segmentation (8 * zlen tb) (dl_BG d) old = Ok (tb_seg t))
    /\ forall outs cs b,
         ldpc_returns (Z.shiftr (K (tb_seg t)) 3) (take (Z.to_nat (C (tb_seg t))) (dl_c d')) outs ->
         block_buffers cs -> C (tb_seg t) <= zlen cs ->
         Forall is_byte b -> zlen tb + 3 <= zlen b ->
         exists b', dlsch_receive (tb_seg t) outs cs b (8 * zlen tb) = Ok (negb (forallb (fun x => x =? 0) tb), b')
                    /\ take (length tb) b' = tb.
Proof.
  intros [Hp Hb Hr Hs Hm Hw Hsp [Hdb Hdl] Hbf Hc].
  destruct (block_segmentation tb (dl_BG d) Hw Hsp) as (o & L & n & Hgs & Hn & HC & Hrx & Hseg).
  rewrite <- HC in Hc. pose proof (gs_C _ _ _ _ Hgs) as HCo. pose proof (tb_crc_len tb) as [HB Hl3].
  assert (Hb' : forall r, Forall is_byte r -> Forall is_byte (tb ++ tb_crc tb ++ r)).
  { intros r Hr'. apply Forall_app in Hb as [Htb _]. apply Forall_app; split; [done|]. apply Forall_app; split; [apply tb_crc_bytes|done]. }
  set (rest' := drop (length (tb_crc tb)) rest).
  assert (Hrest : Forall is_byte rest') by (apply Forall_drop, (proj2 (proj1 (Forall_app _ _ _) Hb))).
  set (extra := if 8 * zlen tb >? NR_MAX_PDSCH_TBS then 4 else 3).
  assert (Hx : extra = zlen (tb_crc tb) + 1) by (unfold extra, tb_crc; by destruct (_ >? _)).
  set (src := take (Z.to_nat (zlen tb + extra)) (tb ++ tb_crc tb ++ rest')).
  assert (Hsrc : src = tb ++ tb_crc tb ++ take 1 rest').
  { unfold src. rewrite Hx, !app_assoc. pose proof (zlen_app tb (tb_crc tb)) as H. unfold zlen in *.
    replace (Z.to_nat _) with (length (tb ++ tb_crc tb) + 1)%nat by lia. by rewrite take_app_add. }
  assert (Hsl : zlen src <= zlen (b d)).
  { rewrite Hsrc, !zlen_app, zlen_take. lia. }
  eexists _, _. split; [|split].
  - unfold dlsch_pre_encode. rewrite Hs, u32_tb_bits, Hp, crc_attach_ok, res_bind_unfold by (done || lia). fold rest' extra.
    assert (Z.quot (8 * zlen tb) 8 = zlen tb) as -> by (by rewrite Z.mul_comm, Z.quot_mul).
    rewrite zslice_ok, res_bind_unfold; [|lia|pose proof (zlen_nonneg tb); lia|].
    2: { rewrite !zlen_app. unfold rest'. rewrite zlen_drop. unfold zlen in *. lia. }
    change (drop (Z.to_nat 0) ?l) with l. fold src.
    pose proof (zwrite_append [] src (b d) 0 eq_refl Hsl) as Hwr. cbn [app] in Hwr. rewrite Hwr, res_bind_unfold.
    set (tail := drop (length src) (b d)). rewrite Hsrc, <- !app_assoc.
    rewrite Hseg, res_bind_unfold; [|apply Hb', Forall_app; split; [by apply Forall_take|by apply Forall_drop]|done|lia].
    assert ((C o >? MAX_NUM_NR_DLSCH_SEGMENTS_PER_LAYER * dl_layers d) = false) as -> by lia. reflexivity.
  - exact Hrx.
  - cbn [tb_seg dl_c from_option id]. intros outs cs bb Hl Hcs HCc Hbb Hbl.
    rewrite take_app_length' in Hl by (rewrite length_imap, length_take; unfold zlen in Hc; lia).
    assert (Hbytes : C o * n <= zlen bb).
    { pose proof (chain_bytes tb o n Hn) as H. rewrite zlen_app in H. lia. }
    destruct (blocks_received tb (dl_BG d) o L n (take 1 rest' ++ drop (length src) (b d)) (dl_c d) outs cs bb)
      as (cs' & Hd & Hlen & Hre); try (done || lia);
      [by apply Hb', Forall_app; split; [apply Forall_take|apply Forall_drop]|].
    eexists. split; [|apply take_app_length]. unfold dlsch_receive. rewrite Hd, res_bind_unfold, Hre, res_bind_unfold.
    rewrite processed_all, Hlen, decodeResult_ok, res_bind_unfold; [done|]. apply Hb'. by apply Forall_drop.
Qed.
End TransportChain.
