(* ===== verification/RateMatch.v ===== *)
(** * Rate matching and bit interleaving

    Models [nrLDPC_coding_segment/nr_rate_matching.c], built without AVX-512: the
    selection of the coded bits of a code block from its circular buffer and their
    interleaving, and the two inverse steps of the receiver on soft values
    ([int16_t]). *)

From S2P Require Import Prelude.

Module RateMatch.

Definition index_k0 : list (list Z) := [[0; 17; 33; 56]; [0; 13; 25; 43]].

(** ** Interleaving *)

Definition mod_order (Qm : Z) : bool := (Qm =? 2) || (Qm =? 4) || (Qm =? 6) || (Qm =? 8).

(** Row [j] of the interleaver is [e + j * (E / Qm)]; it is read column by column. *)
Definition nr_interleaving_ldpc (E Qm : Z) (e f : list Z) : res (list Z) :=
  let EQm := Z.quot E Qm in
  f ← zwrite f 0 (replicate (Z.to_nat E) 0);
  _ ← dev_assert (mod_order Qm);
  '(_, f) ← res_foldl (fun st i =>
      res_foldl (fun '(p, f) j => v ← zget e (j * EQm + i); f ← zset f p v; mret (p + 1, f)) st (seqZ 0 Qm))
    (0, f) (seqZ 0 EQm);
  mret f.

Definition nr_deinterleaving_ldpc (E Qm : Z) (e f : list Z) : res (list Z) :=
  _ ← dev_assert (mod_order Qm);
  _ ← dev_assert (Z.rem E Qm =? 0);
  '(_, e) ← res_foldl (fun st i =>
      res_foldl (fun '(p, e) j => v ← zget f p; e ← zset e (j * Z.quot E Qm + i) v; mret (p + 1, e)) st (seqZ 0 Qm))
    (0, e) (seqZ 0 (Z.quot E Qm));
  mret e.

(** ** Bit selection *)

(** The sizes [N] and [Ncb] of the circular buffer, and where the redundancy version
    starts in it.  The division by [N = 0] stops the program. *)
Definition buffer_size (Tbslbrm BG Zc C : Z) : Z * Z :=
  let N := if BG =? 1 then 66 * Zc else 50 * Zc in
  (N, if Tbslbrm =? 0 then N else Z.min N (Z.quot (u32 (3 * Tbslbrm)) (2 * C))).

Definition start_index (BG Zc rvidx N Ncb : Z) : res Z :=
  row ← zget index_k0 (BG - 1);
  k0 ← zget row rvidx;
  _ ← dev_assert (negb (N =? 0));
  mret (u32 (Z.quot (u32 (k0 * Ncb)) N * Zc)).

Section tx.
Context (d : list Z) (Foffset F Ncb E : Z).

(** [for (ind = 0; (ind < Ncb) && (k < E); ind++)], the filler bits skipped. *)
Fixpoint tx_pass (fuel : nat) (ind k : Z) (e : list Z) : res (Z * list Z) :=
  if (ind <? Ncb) && (k <? E) then
    match fuel with
    | O => Fault NoFuel
    | S fuel =>
        let ind := if ind =? Foffset then F + Foffset else ind in
        v ← zget d ind;
        e ← zset e k v;
        tx_pass fuel (ind + 1) (k + 1) e
    end
  else mret (k, e).

(** [while (k < E)]. *)
Fixpoint tx_repeat (fuel : nat) (k : Z) (e : list Z) : res (list Z) :=
  if k <? E then
    match fuel with
    | O => Fault NoFuel
    | S fuel => '(k, e) ← tx_pass (Z.to_nat E) 0 k e; tx_repeat fuel k e
    end
  else mret e.

(** The bits from [ind] to the end of the buffer, and how many there are. *)
Definition tx_first (ind : Z) (e : list Z) : res (Z * list Z) :=
  if ind <? Foffset then
    src ← zslice d ind (Foffset - ind);
    e ← zwrite e 0 src;
    if E + F <=? Ncb - ind then
      src ← zslice d (Foffset + F) (E - Foffset + ind);
      e ← zwrite e (Foffset - ind) src;
      mret (E, e)
    else
      src ← zslice d (Foffset + F) (u32 (Ncb - Foffset - F));
      e ← zwrite e (Foffset - ind) src;
      mret (Ncb - F - ind, e)
  else if E <=? Ncb - ind then
    src ← zslice d ind E;
    e ← zwrite e 0 src;
    mret (E, e)
  else
    src ← zslice d ind (u32 (Ncb - ind));
    e ← zwrite e 0 src;
    mret (Ncb - ind, e).
End tx.

(** 0 and the bits selected, or -1. *)
Definition nr_rate_matching_ldpc (Tbslbrm BG Zc : Z) (d e : list Z) (C F Foffset rvidx E : Z) : res (Z * list Z) :=
  if C =? 0 then mret (-1, e)
  else
    let '(N, Ncb) := buffer_size Tbslbrm BG Zc C in
    ind ← start_index BG Zc rvidx N Ncb;
    if Foffset >? E then mret (-1, e)
    else if Foffset >? Ncb then mret (-1, e)
    else
      let ind := if (ind >=? Foffset) && (ind <? F + Foffset) then F + Foffset else ind in
      '(k, e) ← tx_first d Foffset F Ncb E ind e;
      e ← tx_repeat d Foffset F Ncb E (Z.to_nat E) k e;
      mret (0, e).

(** ** The receiver *)

Definition i16 (z : Z) : Z := (z + 2 ^ 15) mod 2 ^ 16 - 2 ^ 15.

Section rx.
Context (soft_input : list Z) (E : Z).

(** [for (; (ind < lim) && (k < E); ind++) d[ind] += soft_input[k++];] *)
Fixpoint rx_range (fuel : nat) (ind lim k : Z) (d : list Z) : res (Z * Z * list Z) :=
  if (ind <? lim) && (k <? E) then
    match fuel with
    | O => Fault NoFuel
    | S fuel =>
        v ← zget d ind;
        s ← zget soft_input k;
        d ← zset d ind (i16 (v + s));
        rx_range fuel (ind + 1) lim (k + 1) d
    end
  else mret (ind, k, d).

Context (Foffset F Ncb : Z).

Fixpoint rx_repeat (fuel : nat) (k : Z) (d : list Z) : res (list Z) :=
  if k <? E then
    match fuel with
    | O => Fault NoFuel
    | S fuel =>
        '(_, k, d) ← rx_range (Z.to_nat E) 0 Foffset k d;
        '(_, k, d) ← rx_range (Z.to_nat E) (Foffset + F) Ncb k d;
        rx_repeat fuel k d
    end
  else mret d.
End rx.

Definition nr_rate_matching_ldpc_rx (Tbslbrm BG Zc : Z) (d soft_input : list Z) (C rvidx clear E F Foffset : Z)
    : res (Z * list Z) :=
  if C =? 0 then mret (-1, d)
  else
    let '(N, Ncb) := buffer_size Tbslbrm BG Zc C in
    ind ← start_index BG Zc rvidx N Ncb;
    if Foffset >? E then mret (-1, d)
    else if Foffset >? Ncb then mret (-1, d)
    else
      d ← (if clear =? 1 then zwrite d 0 (replicate (Z.to_nat Ncb) 0) else mret d);
      '(ind, k, d) ← (if ind <? Foffset then rx_range soft_input E (Z.to_nat E) ind Foffset 0 d else mret (ind, 0, d));
      let ind := if (ind >=? Foffset) && (ind <? Foffset + F) then Foffset + F else ind in
      '(_, k, d) ← rx_range soft_input E (Z.to_nat E) ind Ncb k d;
      d ← rx_repeat soft_input E Foffset F Ncb (Z.to_nat E) k d;
      mret (0, d).
End RateMatch.
