(* ===== verification/RateMatchSpec.v ===== *)
(** * Rate matching: the bits selected

    38.212 5.4.2.1 reads the circular buffer from [k0] on, again and again, without its
    filler bits, until [E] bits are read: [positions] lists where.  Both functions of
    [nr_rate_matching.c] visit the buffer in this order, the sender to read it and the
    receiver to add its soft values. *)

From S2P Require Import Prelude RateMatch Tbs.

Module RateMatchSpec.
Import RateMatch.

(** ** Visits *)

(** A loop over positions that stops after [E] of them. *)
Section visits.
Context {S : Type} (step : S -> Z -> Z -> res S) (E : Z).

Definition visit (st : Z * S) (i : Z) : res (Z * S) :=
  if st.1 <? E then s ← step st.2 i st.1; mret (st.1 + 1, s) else mret st.

Definition visits : Z * S -> list Z -> res (Z * S) := res_foldl visit.

Lemma visits_app st l1 l2 : visits st (l1 ++ l2) = (st ← visits st l1; visits st l2).
Proof.
  revert st. induction l1 as [|i l1 IH]; intros st; [done|]. unfold visits in *. cbn [app res_foldl].
  destruct (visit st i) as [st'|]; [apply IH|done].
Qed.

Lemma visits_done k s l : E <= k -> visits (k, s) l = Ok (k, s).
Proof.
  intros Hk. induction l as [|i l IH]; [done|]. unfold visits in *. cbn [res_foldl].
  assert (visit (k, s) i = Ok (k, s)) as ->; [|done]. unfold visit. cbn [fst]. by destruct (Z.ltb_spec k E); [lia|].
Qed.

Lemma visits_cons k s i l : k < E -> visits (k, s) (i :: l) = (s ← step s i k; visits (k + 1, s) l).
Proof.
  intros Hk. unfold visits. cbn [res_foldl].
  assert (visit (k, s) i = (s ← step s i k; mret (k + 1, s))) as ->; [|by destruct (step s i k)].
  unfold visit. cbn [fst snd]. by destruct (Z.ltb_spec k E); [|lia].
Qed.

Lemma visits_count k s l k' s' : k <= E -> visits (k, s) l = Ok (k', s') -> k' = Z.min E (k + zlen l).
Proof.
  revert k s. induction l as [|i l IH]; intros k s Hk H.
  { injection H as <- <-. rewrite zlen_nil. lia. }
  rewrite zlen_cons. pose proof (zlen_nonneg l). destruct (Z.ltb_spec k E).
  - rewrite visits_cons in H by done. destruct (step s i k); [|done]. rewrite res_bind_unfold in H. apply IH in H; lia.
  - rewrite visits_done in H by lia. injection H as <- <-. lia.
Qed.

(** Only the first [E - k] positions count. *)
Lemma visits_take k s l : k <= E -> visits (k, s) (take (Z.to_nat (E - k)) l) = visits (k, s) l.
Proof.
  intros Hk. rewrite <- (take_drop (Z.to_nat (E - k)) l) at 2. rewrite visits_app.
  destruct (visits (k, s) (take (Z.to_nat (E - k)) l)) as [ [k' s']|] eqn:Hv; [|done].
  rewrite res_bind_unfold. destruct (decide (length l <= Z.to_nat (E - k))%nat).
  - by rewrite drop_ge.
  - apply visits_count in Hv; [|done]. rewrite visits_done; [done|]. rewrite zlen_take in Hv. unfold zlen in Hv. lia.
Qed.
End visits.

(** ** Positions *)

Section positions.
Context (Foffset F Ncb : Z).

(** The coded bits from [k0] to the end of the buffer. *)
Definition coded_from (k0 : Z) : list Z :=
  filter (fun i => i < Foffset \/ Foffset + F <= i) (seqZ k0 (Ncb - k0)).

(** Where the [E] bits of a redundancy version are. *)
Definition positions (k0 E : Z) : list Z :=
  take (Z.to_nat E) (coded_from k0 ++ concat (replicate (Z.to_nat E) (coded_from 0))).

Lemma filter_coded (l : list Z) : (forall i, i ∈ l -> i < Foffset \/ Foffset + F <= i) ->
  filter (fun i => i < Foffset \/ Foffset + F <= i) l = l.
Proof using.
  induction l as [|i l IH]; intros H; [done|]. rewrite filter_cons_True by (apply H; set_solver). f_equal. apply IH. set_solver.
Qed.

Lemma filter_filler (l : list Z) : (forall i, i ∈ l -> Foffset <= i < Foffset + F) ->
  filter (fun i => i < Foffset \/ Foffset + F <= i) l = [].
Proof using.
  induction l as [|i l IH]; intros H; [done|].
  rewrite filter_cons_False by (specialize (H i ltac:(set_solver)); lia). apply IH. set_solver.
Qed.

Lemma coded_after k0 : Foffset + F <= k0 <= Ncb -> coded_from k0 = seqZ k0 (Ncb - k0).
Proof using. intros H. apply filter_coded. intros i Hi%elem_of_seqZ. lia. Qed.

Lemma coded_range k0 i : 0 <= k0 -> i ∈ coded_from k0 -> k0 <= i < Ncb /\ (i < Foffset \/ Foffset + F <= i).
Proof using. intros Hk. unfold coded_from. rewrite list_elem_of_filter, elem_of_seqZ. lia. Qed.

Lemma positions_range k0 E i : 0 <= k0 -> i ∈ positions k0 E -> 0 <= i < Ncb /\ (i < Foffset \/ Foffset + F <= i).
Proof using.
  intros Hk Hi. unfold positions in Hi. apply elem_of_take in Hi as (j & Hj & _). apply list_elem_of_lookup_2 in Hj.
  apply elem_of_app in Hj as [Hj|Hj]; [apply coded_range in Hj; lia|].
  apply list_elem_of_In, in_concat in Hj as (l & Hl & Hi). apply list_elem_of_In in Hl, Hi.
  apply elem_of_replicate in Hl as [-> _]. apply coded_range in Hi; lia.
Qed.

Context (HF : 0 <= Foffset /\ 0 <= F /\ Foffset + F < Ncb).

Lemma coded_filler k0 : Foffset <= k0 < Foffset + F -> coded_from k0 = coded_from (Foffset + F).
Proof using HF.
  intros H. unfold coded_from. replace (Ncb - k0) with (Foffset + F - k0 + (Ncb - (Foffset + F))) by lia.
  rewrite seqZ_app, filter_app, filter_filler by lia || (intros i Hi%elem_of_seqZ; lia).
  cbn [app]. do 2 f_equal. lia.
Qed.

Lemma coded_before k0 : 0 <= k0 < Foffset -> coded_from k0 = seqZ k0 (Foffset - k0) ++ coded_from (Foffset + F).
Proof using HF.
  intros H. unfold coded_from at 1. replace (Ncb - k0) with (Foffset - k0 + (F + (Ncb - (Foffset + F)))) by lia.
  rewrite !seqZ_app, !filter_app by lia. rewrite (filter_coded (seqZ k0 _)) by (intros i Hi%elem_of_seqZ; lia).
  rewrite filter_filler by (intros i Hi%elem_of_seqZ; lia). cbn [app]. unfold coded_from. do 3 f_equal. lia.
Qed.

Lemma coded_0 : coded_from 0 = seqZ 0 Foffset ++ coded_from (Foffset + F).
Proof using HF.
  destruct (decide (0 < Foffset)); [rewrite coded_before, Z.sub_0_r by lia; done|].
  assert (seqZ 0 Foffset = []) as -> by (by assert (Foffset = 0) as -> by lia). rewrite app_nil_l.
  destruct (decide (0 < F)); [apply coded_filler; lia|]. f_equal. lia.
Qed.

Lemma coded_0_len : 0 < zlen (coded_from 0).
Proof using HF. rewrite coded_0, coded_after, zlen_app by lia. unfold zlen. rewrite !length_seqZ. lia. Qed.

Lemma positions_len k0 E : 0 <= E -> zlen (positions k0 E) = E.
Proof using HF.
  intros HE. unfold positions. rewrite zlen_take, zlen_app, Z2Nat.id by lia.
  assert (Hr : forall n, Z.of_nat n <= zlen (concat (replicate n (coded_from 0)))).
  { induction n as [|n IH]; [done|]. cbn [replicate concat]. rewrite zlen_app. pose proof coded_0_len. lia. }
  specialize (Hr (Z.to_nat E)). pose proof (zlen_nonneg (coded_from k0)). lia.
Qed.
End positions.

(** ** The sender *)

Definition tx_step (d e : list Z) (i k : Z) : res (list Z) := v ← zget d i; zset e k v.

Lemma tx_step_eq d e i k : tx_step d e i k = (v ← zget d i; zset e k v).
Proof. done. Qed.

(** [d[i]]. *)
Definition at_ (d : list Z) (i : Z) : Z := nth (Z.to_nat i) d 0.

Lemma zget_at d i : 0 <= i < zlen d -> zget d i = Ok (at_ d i).
Proof.
  intros Hi. apply zget_ok. split; [lia|]. unfold at_. rewrite nth_lookup.
  destruct (lookup_lt_is_Some_2 d (Z.to_nat i)) as [x ->]; [unfold zlen in Hi; lia|done].
Qed.

(** The bits visited, one after the other. *)
Lemma tx_visits d E l pre rest : Forall (fun i => 0 <= i < zlen d) l -> zlen pre <= E -> E <= zlen (pre ++ rest) ->
  let m := take (Z.to_nat (E - zlen pre)) l in
  visits (tx_step d) E (zlen pre, pre ++ rest) l
  = Ok (Z.min E (zlen pre + zlen l), pre ++ map (at_ d) m ++ drop (length m) rest).
Proof.
  intros Hl. revert pre rest. induction Hl as [|i l Hi _ IH]; intros pre rest Hp HE m.
  { unfold m. rewrite take_nil, zlen_nil. unfold visits. cbn. do 2 f_equal. lia. }
  rewrite zlen_cons. pose proof (zlen_nonneg l). rewrite zlen_app in HE. destruct (Z.ltb_spec (zlen pre) E).
  - rewrite visits_cons by done. rewrite tx_step_eq, zget_at, res_bind_unfold by done.
    destruct rest as [|x rest]; [rewrite zlen_nil in HE; lia|]. rewrite zset_ok by (rewrite zlen_app, zlen_cons in *; pose proof (zlen_nonneg pre); lia).
    rewrite res_bind_unfold. unfold zlen at 2. rewrite Nat2Z.id, insert_app_r_alt, Nat.sub_diag by lia. cbn [insert list_insert].
    change (pre ++ at_ d i :: rest) with (pre ++ [at_ d i] ++ rest). rewrite app_assoc.
    assert (Hp1 : zlen (pre ++ [at_ d i]) = zlen pre + 1) by (rewrite zlen_app; done). rewrite <- Hp1 at 1. rewrite zlen_cons in HE.
    rewrite IH; [|lia|rewrite zlen_app; lia]. rewrite Hp1. f_equal. f_equal; [lia|].
    unfold m. replace (Z.to_nat (E - zlen pre)) with (S (Z.to_nat (E - (zlen pre + 1)))) by lia. cbn [take map length drop].
    by rewrite <- app_assoc.
  - assert (m = []) as -> by (unfold m; by replace (Z.to_nat (E - zlen pre)) with 0%nat by lia).
    rewrite visits_done by lia. cbn. do 2 f_equal. lia.
Qed.

Lemma tx_visits_all d E l e : Forall (fun i => 0 <= i < zlen d) l -> 0 <= E <= zlen e ->
  visits (tx_step d) E (0, e) l
  = Ok (Z.min E (zlen l), map (at_ d) (take (Z.to_nat E) l) ++ drop (length (take (Z.to_nat E) l)) e).
Proof.
  intros Hl HE. pose proof (tx_visits d E l [] e Hl ltac:(rewrite zlen_nil; lia) ltac:(cbn [app]; lia)) as H.
  cbn zeta in H. rewrite zlen_nil, Z.sub_0_r, Z.add_0_l in H. exact H.
Qed.

Section selection.
Context (Foffset F Ncb E : Z) (HF : 0 <= Foffset /\ 0 <= F /\ Foffset + F < Ncb) (HE : Foffset <= E).

Lemma tx_pass_after d (fuel : nat) ind k e : Foffset < ind <= Ncb -> k <= E -> E - k <= Z.of_nat fuel ->
  tx_pass d Foffset F Ncb E fuel ind k e = visits (tx_step d) E (k, e) (seqZ ind (Ncb - ind)).
Proof using.
  revert ind k e. induction fuel as [|fuel IH]; intros ind k e Hi Hk Hf; cbn [tx_pass].
  { rewrite visits_done by lia. destruct (Z.ltb_spec k E); [lia|]. by rewrite andb_false_r. }
  destruct (Z.ltb_spec k E); [|rewrite visits_done by lia; by rewrite andb_false_r].
  destruct (Z.ltb_spec ind Ncb); cbn [andb].
  - destruct (Z.eqb_spec ind Foffset); [lia|]. rewrite seqZ_cons, visits_cons by lia. rewrite tx_step_eq.
    destruct (zget d ind) as [v|]; [|done]. rewrite !res_bind_unfold. destruct (zset e k v) as [e'|]; [|done].
    rewrite !res_bind_unfold, IH by lia. f_equal. f_equal; lia.
  - assert (Ncb - ind = 0) as -> by lia. done.
Qed.

Lemma tx_pass_before d (fuel : nat) ind k e : 0 <= ind <= Foffset -> k <= E -> E - k <= Z.of_nat fuel ->
  tx_pass d Foffset F Ncb E fuel ind k e
  = visits (tx_step d) E (k, e) (seqZ ind (Foffset - ind) ++ coded_from Foffset F Ncb (Foffset + F)).
Proof using HF.
  revert ind k e. induction fuel as [|fuel IH]; intros ind k e Hi Hk Hf; cbn [tx_pass].
  { rewrite visits_done by lia. destruct (Z.ltb_spec k E); [lia|]. by rewrite andb_false_r. }
  destruct (Z.ltb_spec k E); [|rewrite visits_done by lia; by rewrite andb_false_r].
  destruct (Z.ltb_spec ind Ncb); [|lia]. cbn [andb].
  destruct (Z.eqb_spec ind Foffset) as [->|].
  - rewrite Z.sub_diag. change (seqZ Foffset 0) with (@nil Z). rewrite app_nil_l, coded_after, seqZ_cons, visits_cons by lia.
    rewrite tx_step_eq, (Z.add_comm F).
    destruct (zget d (Foffset + F)) as [v|]; [|done]. rewrite !res_bind_unfold. destruct (zset e k v) as [e'|]; [|done].
    rewrite !res_bind_unfold, tx_pass_after by lia. f_equal. f_equal; lia.
  - rewrite seqZ_cons by lia. cbn [app]. rewrite visits_cons by lia. rewrite tx_step_eq.
    destruct (zget d ind) as [v|]; [|done]. rewrite !res_bind_unfold. destruct (zset e k v) as [e'|]; [|done].
    rewrite !res_bind_unfold, IH by lia. do 2 f_equal. f_equal; lia.
Qed.

Lemma tx_repeat_ok d (fuel : nat) k e : 0 <= k <= E -> E - k <= Z.of_nat fuel ->
  tx_repeat d Foffset F Ncb E fuel k e
  = (st ← visits (tx_step d) E (k, e) (concat (replicate fuel (coded_from Foffset F Ncb 0))); mret st.2).
Proof using HF.
  revert k e. induction fuel as [|fuel IH]; intros k e Hk Hf; cbn [tx_repeat].
  { destruct (Z.ltb_spec k E); [lia|done]. }
  destruct (Z.ltb_spec k E); [|by rewrite visits_done by lia].
  cbn [replicate concat]. rewrite visits_app, tx_pass_before by lia. rewrite Z.sub_0_r, <- (coded_0 Foffset F Ncb HF).
  destruct (visits _ E (k, e) (coded_from Foffset F Ncb 0)) as [ [k' e']|] eqn:Hv; [|done]. rewrite !res_bind_unfold.
  apply visits_count in Hv; [|lia]. pose proof (coded_0_len Foffset F Ncb HF). apply IH; lia.
Qed.

(** A [memcpy] is a visit of consecutive positions. *)
Lemma map_at_seqZ d a n : 0 <= a -> 0 <= n -> a + n <= zlen d ->
  map (at_ d) (seqZ a n) = take (Z.to_nat n) (drop (Z.to_nat a) d).
Proof using.
  intros Ha Hn Hd. apply list_eq. intros j. rewrite list_lookup_fmap. destruct (decide (j < Z.to_nat n)%nat) as [Hj|Hj].
  - rewrite lookup_seqZ_lt, lookup_take_lt, lookup_drop by lia. cbn [fmap option_fmap option_map]. unfold at_.
    rewrite nth_lookup. replace (Z.to_nat (a + Z.of_nat j)) with (Z.to_nat a + j)%nat by lia.
    destruct (lookup_lt_is_Some_2 d (Z.to_nat a + j)) as [x ->]; [unfold zlen in Hd; lia|done].
  - rewrite lookup_seqZ_ge by lia. symmetry. apply lookup_ge_None. rewrite length_take. lia.
Qed.

Lemma map_at_take d a n m : 0 <= a -> 0 <= n <= m -> a + m <= zlen d ->
  map (at_ d) (take (Z.to_nat n) (seqZ a m)) = take (Z.to_nat n) (drop (Z.to_nat a) d).
Proof using.
  intros Ha Hn Hd. rewrite <- map_at_seqZ by lia. f_equal. replace m with (n + (m - n)) by lia.
  rewrite seqZ_app by lia. apply take_app_length'. by rewrite length_seqZ.
Qed.

Lemma tx_copies d e s1 s2 (n : nat) : Forall (fun i => 0 <= i < zlen d) (s1 ++ s2) -> 0 <= E <= zlen e ->
  zlen s1 <= E -> n = Z.to_nat (Z.min (zlen s2) (E - zlen s1)) ->
  (e ← zwrite e 0 (map (at_ d) s1); e ← zwrite e (zlen s1) (map (at_ d) (take n s2)); mret (Z.min E (zlen s1 + zlen s2), e))
  = visits (tx_step d) E (0, e) (s1 ++ s2).
Proof using.
  intros Hr He H1 ->. rewrite (tx_visits_all d E (s1 ++ s2) e Hr He), zlen_app.
  assert (Hm1 : zlen (map (at_ d) s1) = zlen s1) by (unfold zlen; by rewrite length_map).
  pose proof (zwrite_append [] (map (at_ d) s1) e 0 eq_refl ltac:(lia)) as Hw. cbn [app] in Hw. rewrite Hw, res_bind_unfold. clear Hw.
  rewrite zwrite_append, res_bind_unfold; [|done|unfold zlen in *; rewrite length_map, length_take, length_drop, length_map; lia].
  cbn. f_equal. f_equal. rewrite drop_drop.
  assert (take (Z.to_nat E) (s1 ++ s2) = s1 ++ take (Z.to_nat (Z.min (zlen s2) (E - zlen s1))) s2) as ->.
  { rewrite take_app. rewrite take_ge by (unfold zlen in H1; lia). f_equal. unfold zlen in *.
    destruct (decide (Z.of_nat (length s2) <= E - Z.of_nat (length s1))); [rewrite !take_ge by lia; done|f_equal; lia]. }
  rewrite map_app, <- !app_assoc, length_app, !length_map. done.
Qed.

Lemma tx_first_ok d e ind : 0 <= ind <= Ncb -> ind < Foffset \/ Foffset + F <= ind -> Ncb <= zlen d -> E <= zlen e ->
  Ncb < 2 ^ 32 ->
  tx_first d Foffset F Ncb E ind e = visits (tx_step d) E (0, e) (coded_from Foffset F Ncb ind).
Proof using HF HE.
  intros Hi Hf Hd He HN. unfold tx_first. destruct (Z.ltb_spec ind Foffset) as [Hlt|Hge].
  - rewrite coded_before, coded_after by lia. set (s1 := seqZ ind (Foffset - ind)). set (s2 := seqZ (Foffset + F) (Ncb - (Foffset + F))).
    assert (H1 : zlen s1 = Foffset - ind) by (unfold zlen, s1; rewrite length_seqZ; lia).
    assert (H2 : zlen s2 = Ncb - (Foffset + F)) by (unfold zlen, s2; rewrite length_seqZ; lia).
    assert (Hr : Forall (fun i => 0 <= i < zlen d) (s1 ++ s2)).
    { apply Forall_app; split; apply Forall_seqZ; lia. }
    rewrite <- (tx_copies d e s1 s2 _ Hr ltac:(lia) ltac:(lia) eq_refl), H1.
    rewrite (zslice_ok d ind), <- map_at_seqZ, res_bind_unfold by lia. fold s1.
    destruct (zwrite e 0 (map (at_ d) s1)) as [e1|]; [|done]. rewrite !res_bind_unfold.
    rewrite H2. unfold s2. destruct (Z.leb_spec (E + F) (Ncb - ind)).
    + rewrite (Z.min_r (Ncb - (Foffset + F))), map_at_take, zslice_ok, res_bind_unfold by lia. replace (E - (Foffset - ind)) with (E - Foffset + ind) by lia.
      destruct (zwrite e1 _ _); [|done]. rewrite !res_bind_unfold. do 2 f_equal. lia.
    + rewrite (Z.min_l (Ncb - (Foffset + F))), map_at_take by lia. unfold u32. rewrite Z.mod_small, zslice_ok, res_bind_unfold by lia.
      replace (Ncb - Foffset - F) with (Ncb - (Foffset + F)) by lia.
      destruct (zwrite e1 _ _); [|done]. rewrite !res_bind_unfold. do 2 f_equal. lia.
  - rewrite coded_after by lia. assert (Hlen : zlen (seqZ ind (Ncb - ind)) = Ncb - ind) by (unfold zlen; rewrite length_seqZ; lia).
    rewrite <- (app_nil_l (seqZ ind (Ncb - ind))).
    rewrite <- (tx_copies d e [] (seqZ ind (Ncb - ind)) _ ltac:(apply Forall_seqZ; lia) ltac:(lia) ltac:(rewrite zlen_nil; lia) eq_refl).
    pose proof (zwrite_append [] [] e 0 eq_refl ltac:(apply zlen_nonneg)) as Hw. cbn [app length drop] in Hw.
    change (drop 0 e) with e in Hw. change (map (at_ d) []) with (@nil Z). change (zlen (@nil Z)) with 0.
    rewrite Hw, res_bind_unfold, Hlen, Z.sub_0_r, Z.add_0_l. destruct (Z.leb_spec E (Ncb - ind)).
    + rewrite (Z.min_r (Ncb - ind)), map_at_take, zslice_ok, res_bind_unfold, Z.min_l by lia. done.
    + rewrite (Z.min_l (Ncb - ind)), map_at_take, Z.min_r by lia. unfold u32. rewrite Z.mod_small, zslice_ok, res_bind_unfold by lia. done.
Qed.
End selection.

(** ** The receiver *)

Definition rx_step (soft d : list Z) (i k : Z) : res (list Z) := v ← zget d i; s ← zget soft k; zset d i (i16 (v + s)).

Lemma rx_step_eq soft d i k : rx_step soft d i k = (v ← zget d i; s ← zget soft k; zset d i (i16 (v + s))).
Proof. done. Qed.

(** What the visits of [l], from soft value [k] on, add at [i]. *)
Fixpoint soft_at (soft : list Z) (k : Z) (l : list Z) (i : Z) : Z :=
  match l with
  | [] => 0
  | p :: l => (if p =? i then at_ soft k else 0) + soft_at soft (k + 1) l i
  end.

Lemma i16_add a b : i16 (i16 a + b) = i16 (a + b).
Proof.
  unfold i16. replace ((a + 2 ^ 15) mod 2 ^ 16 - 2 ^ 15 + b + 2 ^ 15) with ((a + 2 ^ 15) mod 2 ^ 16 + b) by lia.
  rewrite Zplus_mod_idemp_l. do 2 f_equal. lia.
Qed.

Lemma at_insert d i v j : 0 <= i < zlen d -> 0 <= j -> at_ (<[Z.to_nat i := v]> d) j = if i =? j then v else at_ d j.
Proof.
  intros Hi Hj. unfold at_. rewrite !nth_lookup. destruct (Z.eqb_spec i j) as [->|].
  - by rewrite list_lookup_insert_eq by (unfold zlen in Hi; lia).
  - by rewrite list_lookup_insert_ne by lia.
Qed.

Lemma rx_visits soft E l k d : Forall (fun i => 0 <= i < zlen d) l -> 0 <= k -> k + zlen l <= E -> E <= zlen soft ->
  exists d', visits (rx_step soft) E (k, d) l = Ok (k + zlen l, d') /\ zlen d' = zlen d /\
    forall i, 0 <= i < zlen d ->
      at_ d' i = if bool_decide (i ∈ l) then i16 (at_ d i + soft_at soft k l i) else at_ d i.
Proof.
  revert k d. induction l as [|p l IH]; intros k d Hl Hk HkE HE.
  { exists d. rewrite zlen_nil, Z.add_0_r. split; [done|]. split; [done|]. intros i Hi. by rewrite bool_decide_false by set_solver. }
  apply Forall_cons in Hl as [Hp Hl]. rewrite zlen_cons in *. pose proof (zlen_nonneg l).
  rewrite visits_cons, rx_step_eq, (zget_at d p), res_bind_unfold by lia. rewrite (zget_at soft k), res_bind_unfold, zset_ok, res_bind_unfold by lia.
  set (d1 := <[Z.to_nat p := i16 (at_ d p + at_ soft k)]> d). assert (Hd1 : zlen d1 = zlen d) by apply zlen_insert.
  destruct (IH (k + 1) d1) as (d' & E' & Hd' & Hat); [by rewrite Hd1|lia|lia|lia|]. exists d'. rewrite E'. split; [do 2 f_equal; lia|].
  split; [lia|]. intros i Hi. rewrite Hat by lia. cbn [soft_at]. unfold d1. rewrite at_insert by lia.
  destruct (Z.eqb_spec p i) as [<-|Hpi].
  - rewrite (bool_decide_true (p ∈ p :: l)) by set_solver. destruct (decide (p ∈ l)) as [Hin|Hin].
    + rewrite bool_decide_true, i16_add by done. f_equal. lia.
    + rewrite bool_decide_false by done. f_equal. assert (soft_at soft (k + 1) l p = 0); [|lia].
      clear -Hin. generalize (k + 1). induction l as [|q l IH]; intros m; [done|]. cbn [soft_at].
      destruct (Z.eqb_spec q p) as [->|]; [set_solver|]. rewrite IH by set_solver. lia.
  - destruct (decide (i ∈ l)).
    + by rewrite !bool_decide_true by set_solver.
    + rewrite !bool_decide_false by set_solver. done.
Qed.

Lemma rx_range_ok soft E (fuel : nat) ind lim k d : ind <= lim -> k <= E -> E - k <= Z.of_nat fuel ->
  rx_range soft E fuel ind lim k d
  = (st ← visits (rx_step soft) E (k, d) (seqZ ind (lim - ind)); mret (ind + Z.min (lim - ind) (E - k), st.1, st.2)).
Proof.
  revert ind k d. induction fuel as [|fuel IH]; intros ind k d Hi Hk Hf; cbn [rx_range].
  { rewrite visits_done by lia. destruct (Z.ltb_spec k E); [lia|]. rewrite andb_false_r, res_bind_unfold. cbn [fst snd].
    do 3 f_equal. lia. }
  destruct (Z.ltb_spec k E).
  2: { rewrite visits_done by lia. rewrite andb_false_r, res_bind_unfold. cbn [fst snd]. do 3 f_equal. lia. }
  destruct (Z.ltb_spec ind lim); cbn [andb].
  - rewrite seqZ_cons, visits_cons, rx_step_eq by lia. destruct (zget d ind) as [v|]; [|done]. rewrite !res_bind_unfold.
    destruct (zget soft k) as [s|]; [|done]. rewrite !res_bind_unfold. destruct (zset d ind (i16 (v + s))) as [d'|]; [|done].
    rewrite !res_bind_unfold, IH by lia. replace (Z.succ ind) with (ind + 1) by lia.
    replace (Z.pred (lim - ind)) with (lim - (ind + 1)) by lia. destruct (visits _ _ _ _) as [st|]; [|done].
    rewrite !res_bind_unfold. do 3 f_equal. lia.
  - assert (lim - ind = 0) as -> by lia. change (seqZ ind 0) with (@nil Z). cbn [visits res_foldl]. unfold visits. cbn [res_foldl].
    rewrite res_bind_unfold. cbn [fst snd]. do 3 f_equal. lia.
Qed.

Lemma rx_repeat_ok Foffset F Ncb E soft (fuel : nat) k d : 0 <= Foffset /\ 0 <= F /\ Foffset + F < Ncb ->
  0 <= k <= E -> E - k <= Z.of_nat fuel ->
  rx_repeat soft E Foffset F Ncb fuel k d
  = (st ← visits (rx_step soft) E (k, d) (concat (replicate fuel (coded_from Foffset F Ncb 0))); mret st.2).
Proof.
  intros HF. revert k d. induction fuel as [|fuel IH]; intros k d Hk Hf; cbn [rx_repeat].
  { destruct (Z.ltb_spec k E); [lia|done]. }
  destruct (Z.ltb_spec k E); [|by rewrite visits_done by lia].
  cbn [replicate concat]. rewrite visits_app, rx_range_ok by lia. rewrite Z.sub_0_r.
  pose proof (coded_0_len Foffset F Ncb HF) as Hlen. pose proof (coded_0 Foffset F Ncb HF) as H0. rewrite (coded_after _ _ _ (Foffset + F)) in H0 by lia.
  rewrite H0 at 1. rewrite visits_app.
  destruct (visits _ E (k, d) (seqZ 0 Foffset)) as [ [k1 d1]|] eqn:Hv1; [|done]. rewrite !res_bind_unfold. cbn [fst snd].
  apply visits_count in Hv1; [|lia]. pose proof (zlen_nonneg (seqZ 0 Foffset)).
  rewrite rx_range_ok by lia.
  destruct (visits _ E (k1, d1) (seqZ (Foffset + F) (Ncb - (Foffset + F)))) as [ [k2 d2]|] eqn:Hv2; [|done].
  rewrite !res_bind_unfold. cbn [fst snd]. apply visits_count in Hv2; [|lia]. rewrite H0, zlen_app in Hlen.
  pose proof (zlen_nonneg (seqZ (Foffset + F) (Ncb - (Foffset + F)))).
  apply IH; lia.
Qed.

(** ** Both functions *)

(** Where a redundancy version starts (Table 5.4.2.1-2 of 38.212). *)
Definition k0_of (BG Zc rvidx N Ncb : Z) : Z :=
  Z.quot (at_ (nth (Z.to_nat (BG - 1)) index_k0 []) rvidx * Ncb) N * Zc.

(** The parameters of a code block. *)
Record rm_params (Tbslbrm BG Zc C F Foffset rvidx E N Ncb : Z) : Prop := {
  rp_BG : BG = 1 \/ BG = 2;
  rp_Zc : 0 < Zc <= 384;
  rp_C : 0 < C;
  rp_rv : 0 <= rvidx < 4;
  rp_size : buffer_size Tbslbrm BG Zc C = (N, Ncb);
  rp_filler : 0 <= Foffset /\ 0 <= F /\ Foffset + F < Ncb;
  rp_E : Foffset <= E
}.

Section functions.
Context (Tbslbrm BG Zc C F Foffset rvidx E N Ncb : Z).
Context (Hp : rm_params Tbslbrm BG Zc C F Foffset rvidx E N Ncb).
Let k0 := k0_of BG Zc rvidx N Ncb.

Lemma size_range : 0 < N <= 25344 /\ 0 < Ncb <= N /\ N = (if BG =? 1 then 66 else 50) * Zc.
Proof using Hp.
  destruct Hp as [HB HZ HC _ Hs HF _]. unfold buffer_size in Hs. injection Hs as <- Hn.
  assert (HN : (if BG =? 1 then 66 * Zc else 50 * Zc) = (if BG =? 1 then 66 else 50) * Zc) by (by destruct (BG =? 1)).
  rewrite HN in *. split; [destruct (BG =? 1); lia|]. split; [|done]. split; [lia|]. subst Ncb. destruct (Tbslbrm =? 0); lia.
Qed.

Lemma start_index_ok : start_index BG Zc rvidx N Ncb = Ok k0 /\ 0 <= k0 < Ncb.
Proof using Hp.
  pose proof size_range as (HN & HNcb & EN). destruct Hp as [HB HZ HC Hrv _ HF _].
  assert (Hrow : exists row idx, index_k0 !! Z.to_nat (BG - 1) = Some row /\ row !! Z.to_nat rvidx = Some idx
            /\ 0 <= idx <= (if BG =? 1 then 56 else 43)).
  { assert (Hr : rvidx = 0 \/ rvidx = 1 \/ rvidx = 2 \/ rvidx = 3) by lia.
    destruct HB as [-> | ->], Hr as [-> |[-> |[-> | ->] ] ]; eexists _, _; (split; [done|]; split; [done|]; done). }
  destruct Hrow as (row & idx & H1 & H2 & Hi).
  assert (Ek : at_ (nth (Z.to_nat (BG - 1)) index_k0 []) rvidx = idx) by (unfold at_; rewrite !nth_lookup, H1; cbn; by rewrite H2).
  unfold start_index. rewrite (proj2 (zget_ok index_k0 _ row)), res_bind_unfold by (split; [lia|done]).
  rewrite (proj2 (zget_ok row _ idx)), res_bind_unfold by (split; [lia|done]).
  rewrite dev_assert_ok, res_bind_unfold by lia. unfold k0, k0_of. rewrite Ek.
  assert (Hprod : 0 <= idx * Ncb < 2 ^ 32) by (destruct (BG =? 1); nia).
  unfold u32 at 2. rewrite (Z.mod_small (idx * Ncb)), Z.quot_div_nonneg by lia.
  pose proof (Z.mul_div_le (idx * Ncb) N ltac:(lia)) as Hd. pose proof (Z.div_pos (idx * Ncb) N ltac:(lia) ltac:(lia)) as Hd0.
  assert (Hr : 0 <= (idx * Ncb) `div` N * Zc < Ncb) by (destruct (BG =? 1); nia).
  split; [|done]. unfold u32. rewrite Z.mod_small by lia. done.
Qed.

(** The index after the filler bits, when it starts in them. *)
Lemma start_coded : let ind := if (k0 >=? Foffset) && (k0 <? Foffset + F) then Foffset + F else k0 in
  0 <= ind <= Ncb /\ (ind < Foffset \/ Foffset + F <= ind) /\ coded_from Foffset F Ncb ind = coded_from Foffset F Ncb k0.
Proof using Hp.
  destruct start_index_ok as [_ Hk]. pose proof (rp_filler _ _ _ _ _ _ _ _ _ _ Hp) as HF. cbn zeta. rewrite Z.geb_leb.
  destruct (Z.leb_spec Foffset k0), (Z.ltb_spec k0 (Foffset + F)); cbn [andb]; (split; [lia|]; split; [lia|]); try done.
  symmetry. apply coded_filler; [done|lia].
Qed.

Lemma visits_positions {S} (step : S -> Z -> Z -> res S) s :
  visits step E (0, s) (coded_from Foffset F Ncb k0 ++ concat (replicate (Z.to_nat E) (coded_from Foffset F Ncb 0)))
  = visits step E (0, s) (positions Foffset F Ncb k0 E).
Proof using Hp.
  destruct Hp as [_ _ _ _ _ HF HE]. rewrite <- visits_take by lia. by rewrite Z.sub_0_r.
Qed.

Lemma nr_rate_matching_ok d e : Ncb <= zlen d -> E <= zlen e ->
  nr_rate_matching_ldpc Tbslbrm BG Zc d e C F Foffset rvidx E
  = Ok (0, map (at_ d) (positions Foffset F Ncb k0 E) ++ drop (Z.to_nat E) e).
Proof using Hp.
  intros Hd He. destruct start_index_ok as [Hst Hk0]. destruct start_coded as (Hi1 & Hi2 & Hi3). pose proof size_range as (HN & HNcb & _).
  destruct Hp as [_ _ HC _ Hs HF HE]. unfold nr_rate_matching_ldpc. destruct (Z.eqb_spec C 0); [lia|]. rewrite Hs, Hst, res_bind_unfold.
  destruct (Z.gtb_spec Foffset E); [lia|]. destruct (Z.gtb_spec Foffset Ncb); [lia|].
  rewrite (Z.add_comm F Foffset), tx_first_ok, Hi3 by (done || lia).
  pose proof (visits_positions (tx_step d) e) as Hvp. rewrite visits_app in Hvp.
  pose proof (positions_len Foffset F Ncb HF k0 E ltac:(lia)) as Hpl.
  pose proof (tx_visits_all d E (positions Foffset F Ncb k0 E) e) as Hv.
  rewrite take_ge, Hpl, Z.min_id in Hv by (unfold zlen in Hpl; lia). rewrite Hv in Hvp; [| |lia].
  2: { apply Forall_forall. intros i Hi. apply positions_range in Hi; lia. }
  destruct (visits (tx_step d) E (0, e) (coded_from Foffset F Ncb k0)) as [ [k1 e1]|] eqn:Hv1; [|done].
  rewrite res_bind_unfold in Hvp |- *. apply visits_count in Hv1; [|lia].
  pose proof (zlen_nonneg (coded_from Foffset F Ncb k0)). rewrite tx_repeat_ok, Hvp, !res_bind_unfold by (done || lia). cbn [snd].
  assert (length (positions Foffset F Ncb k0 E) = Z.to_nat E) as -> by (unfold zlen in Hpl; lia). done.
Qed.

Lemma nr_rate_matching_rx_ok d soft clear : Ncb <= zlen d -> E <= zlen soft ->
  let d0 := if clear =? 1 then replicate (Z.to_nat Ncb) 0 ++ drop (Z.to_nat Ncb) d else d in
  let p := positions Foffset F Ncb k0 E in
  exists d', nr_rate_matching_ldpc_rx Tbslbrm BG Zc d soft C rvidx clear E F Foffset = Ok (0, d') /\ zlen d' = zlen d
    /\ forall i, 0 <= i < zlen d ->
         at_ d' i = if bool_decide (i ∈ p) then i16 (at_ d0 i + soft_at soft 0 p i) else at_ d0 i.
Proof using Hp.
  intros Hd He d0 p. destruct start_index_ok as [Hst Hk0]. destruct start_coded as (Hi1 & Hi2 & Hi3). pose proof size_range as (HN & HNcb & _).
  destruct Hp as [_ _ HC _ Hs HF HE].
  assert (Hclear : (if clear =? 1 then zwrite d 0 (replicate (Z.to_nat Ncb) 0) else mret d) = Ok d0 /\ zlen d0 = zlen d).
  { unfold d0. destruct (clear =? 1); [|done]. pose proof (zwrite_append [] (replicate (Z.to_nat Ncb) 0) d 0 eq_refl) as Hw.
    cbn [app] in Hw. unfold zlen in Hw at 1. rewrite length_replicate in Hw. rewrite Hw by lia. split; [done|].
    rewrite zlen_app, zlen_drop. unfold zlen at 1. rewrite length_replicate. lia. }
  destruct Hclear as [Hclear Hd0]. pose proof (positions_len Foffset F Ncb HF k0 E ltac:(lia)) as Hpl. fold p in Hpl.
  destruct (rx_visits soft E p 0 d0) as (d' & Hv & Hd' & Hat); [|lia|lia|lia|].
  { apply Forall_forall. intros i Hi. unfold p in Hi. apply positions_range in Hi; lia. }
  exists d'. split; [|split; [lia|]; intros i Hi; apply Hat; lia]. 
  rewrite Hpl in Hv. pose proof (visits_positions (rx_step soft) d0) as Hvp. fold p in Hvp. rewrite Hv, visits_app in Hvp. clear Hv Hat.
  unfold nr_rate_matching_ldpc_rx. destruct (Z.eqb_spec C 0); [lia|]. rewrite Hs, Hst, res_bind_unfold.
  destruct (Z.gtb_spec Foffset E); [lia|]. destruct (Z.gtb_spec Foffset Ncb); [lia|]. rewrite Hclear, res_bind_unfold.
  destruct (visits (rx_step soft) E (0, d0) (coded_from Foffset F Ncb k0)) as [ [k1 d1]|] eqn:Hv1; [|done].
  assert (Hk1 : k1 = Z.min E (0 + zlen (coded_from Foffset F Ncb k0))) by (eapply visits_count; [|exact Hv1]; lia).
  pose proof (zlen_nonneg (coded_from Foffset F Ncb k0)). rewrite res_bind_unfold in Hvp.
  assert (Hend : forall ind, ind = Foffset + F \/ Foffset + F <= ind <= Ncb ->
    forall k d2, 0 <= k <= E -> visits (rx_step soft) E (k, d2) (coded_from Foffset F Ncb ind) = Ok (k1, d1) ->
    ('(_, k, d) ← rx_range soft E (Z.to_nat E) ind Ncb k d2;
     d ← rx_repeat soft E Foffset F Ncb (Z.to_nat E) k d; mret (0, d)) = Ok (0, d')).
  { intros ind Hind k d2 Hk Hv2. rewrite rx_range_ok, <- (coded_after Foffset F) by lia. rewrite Hv2, !res_bind_unfold. cbn [fst snd].
    rewrite rx_repeat_ok, Hvp, !res_bind_unfold by (done || lia). done. }
  destruct (Z.ltb_spec k0 Foffset) as [Hlt|Hge].
  - rewrite coded_before, visits_app in Hv1 by lia. rewrite rx_range_ok by lia.
    destruct (visits (rx_step soft) E (0, d0) (seqZ k0 (Foffset - k0))) as [ [k2 d2]|] eqn:Hv2; [|done].
    cbn [mbind res_bind] in Hv1. apply visits_count in Hv2; [|lia]. pose proof (zlen_nonneg (seqZ k0 (Foffset - k0))).
    rewrite !res_bind_unfold. cbn [fst snd]. rewrite Z.min_l by lia.
    replace (k0 + (Foffset - k0)) with Foffset by lia. apply Hend; [rewrite Z.geb_leb; zcases; cbn [andb]; lia|lia|].
    assert ((if (Foffset >=? Foffset) && (Foffset <? Foffset + F) then Foffset + F else Foffset) = Foffset + F) as -> by (rewrite Z.geb_leb; zcases; cbn [andb]; lia).
    done.
  - rewrite res_ret_bind. apply Hend; [rewrite Z.geb_leb; zcases; cbn [andb]; lia|lia|]. by rewrite Hi3.
Qed.
End functions.
End RateMatchSpec.

(** * Interleaving, and the coded bits of the code blocks

    Deinterleaving undoes interleaving; the code blocks of a transport block share all
    its coded bits, in amounts that the interleaver can write. *)
Module InterleaveSpec.
Import Tbs RateMatch RateMatchSpec.

Lemma order_pos Qm : mod_order Qm = true -> 2 <= Qm <= 8.
Proof. unfold mod_order. lia. Qed.

Section interleaver.
Context (Qm m : Z) (HQ : mod_order Qm = true) (Hm : 0 <= m).
Let E := Qm * m.

(** Bit [q] after interleaving is bit [cell q] before. *)
Definition cell (q : Z) : Z := (q mod Qm) * m + q / Qm.

Lemma order_quot : Z.quot E Qm = m.
Proof using HQ Hm. pose proof (order_pos Qm HQ) as HQm. unfold E. rewrite Z.mul_comm. by apply Z.quot_mul; lia. Qed.

Lemma cell_at i j : 0 <= j < Qm -> cell (i * Qm + j) = j * m + i.
Proof using HQ Hm.
  pose proof (order_pos Qm HQ) as HQm. intros Hj. unfold cell. rewrite (Z.add_comm (i * Qm) j), Z.mod_add, Z.mod_small, Z.div_add, Z.div_small by lia. lia.
Qed.

Lemma cell_onto x : 0 <= x < E -> exists q, 0 <= q < E /\ cell q = x.
Proof using HQ Hm.
  pose proof (order_pos Qm HQ) as HQm. unfold E. intros Hx. assert (0 < m) by nia. exists ((x mod m) * Qm + x / m).
  pose proof (Z.mod_pos_bound x m ltac:(lia)). pose proof (Z.div_pos x m ltac:(lia) ltac:(lia)).
  assert (x / m < Qm) by (apply Z.div_lt_upper_bound; lia).
  split; [nia|]. rewrite cell_at by lia. pose proof (Z.div_mod x m ltac:(lia)). lia.
Qed.

Lemma interleave_ok e f : E <= zlen e -> E <= zlen f ->
  exists f', nr_interleaving_ldpc E Qm e f = Ok f' /\ zlen f' = zlen f
    /\ forall q, 0 <= q < E -> at_ f' q = at_ e (cell q).
Proof using HQ Hm.
  intros He Hf. pose proof (order_pos Qm HQ) as HQm. unfold nr_interleaving_ldpc. rewrite order_quot.
  assert (HE : 0 <= E) by (unfold E; nia).
  pose proof (zwrite_append [] (replicate (Z.to_nat E) 0) f 0 eq_refl) as Hw. cbn [app] in Hw.
  rewrite Hw, res_bind_unfold, dev_assert_ok, res_bind_unfold by (done || (unfold zlen at 1; rewrite length_replicate; lia)).
  set (f0 := replicate (Z.to_nat E) 0 ++ _). assert (Hf0 : zlen f0 = zlen f).
  { unfold f0. rewrite zlen_app, zlen_drop. unfold zlen at 1. rewrite !length_replicate. lia. }
  clearbody f0. clear Hw.
  destruct (res_foldl_seqZ (fun i st => st.1 = i * Qm /\ zlen st.2 = zlen f /\
      forall q, 0 <= q < st.1 -> at_ st.2 q = at_ e (cell q))
    (fun st i => res_foldl (fun '(p, f) j => v ← zget e (j * m + i); f ← zset f p v; mret (p + 1, f)) st (seqZ 0 Qm))
    (0, f0) 0 m) as ([p f'] & Hl & Hp & Hlen & Hat); [lia| | |].
  - cbn [fst snd]. split; [done|]. split; [done|]. intros q Hq. lia.
  - intros i st Hi Hst.
    destruct (res_foldl_seqZ (fun j st => st.1 = i * Qm + j /\ zlen st.2 = zlen f /\
        forall q, 0 <= q < st.1 -> at_ st.2 q = at_ e (cell q))
      (fun '(p, f) j => v ← zget e (j * m + i); f ← zset f p v; mret (p + 1, f)) st 0 Qm) as (st' & Hl & H1 & H2 & H3);
      [lia|by rewrite Z.add_0_r| |].
    + intros j [p g] Hj (Hp & Hg & Hat). cbn [fst snd] in *. subst p. unfold E in *.
      rewrite zget_at, res_bind_unfold, zset_ok, res_bind_unfold by nia. eexists. split; [done|]. cbn [fst snd].
      split; [lia|]. split; [by rewrite zlen_insert|]. intros q Hq. rewrite at_insert by nia.
      destruct (Z.eqb_spec (i * Qm + j) q) as [<-|]; [by rewrite cell_at by lia|]. apply Hat. lia.
    + exists st'. split; [done|]. rewrite Z.add_0_l in H1. split; [lia|]. done.
  - rewrite Hl, res_bind_unfold. exists f'. cbn [fst snd] in *. split; [done|]. split; [done|]. intros q Hq. apply Hat. unfold E in *. lia.
Qed.

Lemma deinterleave_ok e0 e f : E <= zlen e -> E <= zlen f -> (forall q, 0 <= q < E -> at_ f q = at_ e0 (cell q)) ->
  exists e', nr_deinterleaving_ldpc E Qm e f = Ok e' /\ zlen e' = zlen e /\ forall x, 0 <= x < E -> at_ e' x = at_ e0 x.
Proof using HQ Hm.
  intros He Hf Hfq. pose proof (order_pos Qm HQ) as HQm. unfold nr_deinterleaving_ldpc. rewrite order_quot.
  rewrite (dev_assert_ok (mod_order Qm) HQ), res_bind_unfold.
  rewrite dev_assert_ok, res_bind_unfold by (unfold E; rewrite Z.mul_comm, Z.rem_mul by lia; done).
  destruct (res_foldl_seqZ (fun i st => st.1 = i * Qm /\ zlen st.2 = zlen e /\
      forall q, 0 <= q < st.1 -> at_ st.2 (cell q) = at_ e0 (cell q))
    (fun st i => res_foldl (fun '(p, e) j => v ← zget f p; e ← zset e (j * m + i) v; mret (p + 1, e)) st (seqZ 0 Qm))
    (0, e) 0 m) as ([p e'] & Hl & Hp & Hlen & Hat); [lia| | |].
  - cbn [fst snd]. split; [done|]. split; [done|]. intros q Hq. lia.
  - intros i st Hi Hst.
    destruct (res_foldl_seqZ (fun j st => st.1 = i * Qm + j /\ zlen st.2 = zlen e /\
        forall q, 0 <= q < st.1 -> at_ st.2 (cell q) = at_ e0 (cell q))
      (fun '(p, e) j => v ← zget f p; e ← zset e (j * m + i) v; mret (p + 1, e)) st 0 Qm) as (st' & Hl & H1 & H2 & H3);
      [lia|by rewrite Z.add_0_r| |].
    + intros j [p g] Hj (Hp & Hg & Hat). cbn [fst snd] in *. subst p. unfold E in *.
      rewrite zget_at, res_bind_unfold, zset_ok, res_bind_unfold by nia. eexists. split; [done|]. cbn [fst snd].
      split; [lia|]. split; [by rewrite zlen_insert|]. intros q Hq.
      assert (0 <= cell q) by (unfold cell; pose proof (Z.mod_pos_bound q Qm ltac:(lia)); pose proof (Z.div_pos q Qm ltac:(lia) ltac:(lia)); nia).
      rewrite at_insert by nia. destruct (Z.eqb_spec (j * m + i) (cell q)) as [Ec|].
      * rewrite Hfq by nia. rewrite cell_at, Ec by lia. done.
      * apply Hat. destruct (decide (q = i * Qm + j)) as [->|]; [|lia]. by rewrite cell_at in n by lia.
    + exists st'. split; [done|]. rewrite Z.add_0_l in H1. split; [lia|]. done.
  - rewrite Hl, res_bind_unfold. exists e'. cbn [fst snd] in *. split; [done|]. split; [done|]. intros x Hx.
    destruct (cell_onto x Hx) as (q & Hq & <-). apply Hat. unfold E in *. lia.
Qed.
End interleaver.

Lemma at_ext (l1 l2 : list Z) n : n <= zlen l1 -> n <= zlen l2 -> (forall i, 0 <= i < n -> at_ l1 i = at_ l2 i) ->
  take (Z.to_nat n) l1 = take (Z.to_nat n) l2.
Proof.
  intros H1 H2 Hat. apply list_eq. intros i. destruct (decide (i < Z.to_nat n)%nat) as [Hi|Hi].
  - rewrite !lookup_take_lt by done. specialize (Hat (Z.of_nat i) ltac:(lia)). unfold at_ in Hat. rewrite Nat2Z.id, !nth_lookup in Hat.
    destruct (lookup_lt_is_Some_2 l1 i) as [x Hx]; [unfold zlen in H1; lia|].
    destruct (lookup_lt_is_Some_2 l2 i) as [y Hy]; [unfold zlen in H2; lia|]. rewrite Hx, Hy in *. cbn in Hat. by subst.
  - rewrite !lookup_take_ge by lia. done.
Qed.

(** ** Coded bits of the code blocks *)

(** The coded bits of code block [r]: the symbols of the allocation, shared out. *)
Definition coded_bits (G C Qm Nl r : Z) : Z :=
  let g := G / (Nl * Qm) in Nl * Qm * (g / C + (if r <? C - g mod C then 0 else 1)).

Lemma get_E_ok G C Qm Nl r : 0 <= G < 2 ^ 32 -> 0 < C < 2 ^ 8 -> 0 < Qm -> 0 < Nl -> 0 <= r < C ->
  nr_get_E G C Qm Nl r = Ok (coded_bits G C Qm Nl r).
Proof.
  intros HG HC HQ HN Hr. unfold nr_get_E, coded_bits. set (P := Nl * Qm). assert (HP : 0 < P) by (unfold P; nia).
  rewrite (dev_assert_ok (Nl >? 0)), (dev_assert_ok (Qm >? 0)), (dev_assert_ok (negb (C =? 0))), !res_bind_unfold by lia.
  rewrite !Z.quot_div_nonneg, Z.rem_mod_nonneg, <- Z.div_div by (try apply Z.div_pos; lia).
  pose proof (Z.mul_div_le G P HP) as Hg. pose proof (Z.div_pos G P ltac:(lia) HP) as Hg0. set (g := G / P) in *.
  pose proof (Z.mod_pos_bound g C ltac:(lia)) as Hm. pose proof (Z.div_mod g C ltac:(lia)) as Hd.
  pose proof (Z.div_pos g C Hg0 ltac:(lia)) as Hq. set (q := g / C) in *.
  unfold u32 at 1. rewrite (Z.mod_small (C - g mod C - 1)) by lia. cbn. f_equal.
  destruct (Z.leb_spec r (C - g mod C - 1)), (Z.ltb_spec r (C - g mod C)); try lia.
  - rewrite Z.add_0_r. unfold u32. apply Z.mod_small. nia.
  - unfold u32. apply Z.mod_small. assert (2 * q <= C * q) by nia. assert (q + 1 <= g) by lia.
    assert (P * (q + 1) <= P * g) by nia. nia.
Qed.

Lemma count_from (n : nat) t : 0 <= t ->
  zsum (fun r => if r <? t then 0 else 1) (seqZ 0 (Z.of_nat n)) = Z.of_nat n - Z.min (Z.of_nat n) t.
Proof.
  intros Ht. induction n as [|n IH]; [change (seqZ 0 (Z.of_nat 0)) with (@nil Z); rewrite zsum_nil; lia|]. rewrite Nat2Z.inj_succ, <- Z.add_1_r, seqZ_app, zsum_app, IH by lia.
  rewrite seqZ_cons by lia. change (seqZ _ (Z.pred 1)) with (@nil Z). rewrite zsum_cons, zsum_nil.
  destruct (Z.ltb_spec (0 + Z.of_nat n) t); lia.
Qed.

(** All the symbols are used. *)
Lemma coded_bits_sum G C Qm Nl : 0 <= G -> 0 < C -> 0 < Qm -> 0 < Nl ->
  zsum (coded_bits G C Qm Nl) (seqZ 0 C) = Nl * Qm * (G / (Nl * Qm)).
Proof.
  intros HG HC HQ HN. unfold coded_bits. set (g := G / (Nl * Qm)). assert (Hlin : forall (a b : Z) (f : Z -> Z) l,
    zsum (fun r => a * (b + f r)) l = a * (b * zlen l + zsum f l)).
  { intros a b f l. induction l as [|x l IH]; [change (0 = a * (b * 0 + 0)); lia|]. rewrite !zsum_cons, zlen_cons, IH. lia. }
  rewrite Hlin. f_equal. unfold zlen. rewrite length_seqZ, Z2Nat.id by lia. pose proof (Z.mod_pos_bound g C HC).
  pose proof (count_from (Z.to_nat C) (C - g mod C) ltac:(lia)) as Hc. rewrite Z2Nat.id in Hc by lia. rewrite Hc.
  pose proof (Z.div_mod g C ltac:(lia)). lia.
Qed.

(** ** From the coded bits to the soft buffer *)

(** The bits of [d] through a channel that gives the soft value [phi b] for a bit [b]. *)
Definition coded_link (phi : Z -> Z) (Tbslbrm BG Zc C F Foffset rvidx clear E Qm : Z) (d e f e' d' : list Z) : res (list Z) :=
  '(_, e) ← nr_rate_matching_ldpc Tbslbrm BG Zc d e C F Foffset rvidx E;
  f ← nr_interleaving_ldpc E Qm e f;
  soft ← nr_deinterleaving_ldpc E Qm e' (map phi f);
  '(_, d') ← nr_rate_matching_ldpc_rx Tbslbrm BG Zc d' soft C rvidx clear E F Foffset;
  mret d'.

(** What is in the soft buffer before the transmission is added: with [clear] the
    transmission is the first of its block, without it the values of the earlier
    transmissions are kept. *)
Definition before (clear : Z) (d' : list Z) (i : Z) : Z := if clear =? 1 then 0 else at_ d' i.

(** How many times [i] is in [l]. *)
Definition times (i : Z) (l : list Z) : Z := zsum (fun p => if p =? i then 1 else 0) l.

Lemma times_absent i l : i ∉ l -> times i l = 0.
Proof.
  induction l as [|p l IH]; intros H; [done|]. unfold times in *. rewrite zsum_cons.
  destruct (Z.eqb_spec p i) as [->|]; [set_solver|]. rewrite IH by set_solver. lia.
Qed.

Lemma soft_at_times phi d soft i l k :
  (forall j p, l !! j = Some p -> at_ soft (k + Z.of_nat j) = phi (at_ d p)) ->
  soft_at soft k l i = times i l * phi (at_ d i).
Proof.
  revert k. induction l as [|p l IH]; intros k H; [done|]. cbn [soft_at]. unfold times. rewrite zsum_cons. fold (times i l).
  rewrite IH.
  - pose proof (H 0%nat p eq_refl) as H0. rewrite Z.add_0_r in H0. destruct (Z.eqb_spec p i) as [<-|]; [rewrite H0; lia|lia].
  - intros j q Hj. rewrite <- (H (S j) q Hj). f_equal. lia.
Qed.

Lemma at_map phi l i : 0 <= i < zlen l -> at_ (map phi l) i = phi (at_ l i).
Proof.
  intros Hi. unfold at_. rewrite !nth_lookup, list_lookup_fmap.
  destruct (lookup_lt_is_Some_2 l (Z.to_nat i)) as [x Hx]; [unfold zlen in Hi; lia|]. by rewrite Hx.
Qed.

Lemma zlen_map {A B} (g : A -> B) (l : list A) : zlen (map g l) = zlen l.
Proof. unfold zlen. by rewrite length_map. Qed.

Lemma cell_range Qm m q : mod_order Qm = true -> 0 <= q < Qm * m -> 0 <= cell Qm m q < Qm * m.
Proof.
  intros HQ Hq. pose proof (order_pos Qm HQ). unfold cell. pose proof (Z.mod_pos_bound q Qm ltac:(lia)).
  pose proof (Z.div_pos q Qm ltac:(lia) ltac:(lia)). assert (q / Qm < m) by (apply Z.div_lt_upper_bound; lia). nia.
Qed.

Lemma coded_link_ok phi Tbslbrm BG Zc C F Foffset rvidx clear m Qm N Ncb d e f e' d' :
  let E := Qm * m in
  rm_params Tbslbrm BG Zc C F Foffset rvidx E N Ncb -> mod_order Qm = true -> 0 <= m ->
  Ncb <= zlen d -> Ncb <= zlen d' -> E <= zlen e -> E <= zlen f -> E <= zlen e' ->
  let p := positions Foffset F Ncb (k0_of BG Zc rvidx N Ncb) E in
  exists out, coded_link phi Tbslbrm BG Zc C F Foffset rvidx clear E Qm d e f e' d' = Ok out
    /\ forall i, 0 <= i < Ncb -> at_ out i =
         if bool_decide (i ∈ p) then i16 (before clear d' i + times i p * phi (at_ d i)) else before clear d' i.
Proof.
  intros E Hp HQ Hm Hd Hd' He Hf He' p. pose proof (rp_filler _ _ _ _ _ _ _ _ _ _ Hp) as HF.
  pose proof (order_pos Qm HQ) as HQm. assert (HE : 0 <= E) by (unfold E; nia).
  pose proof (positions_len Foffset F Ncb HF (k0_of BG Zc rvidx N Ncb) E HE) as Hpl. fold p in Hpl.
  unfold coded_link. rewrite (nr_rate_matching_ok _ _ _ _ _ _ _ _ _ _ Hp) by done. rewrite res_bind_unfold. fold p.
  set (e1 := map (at_ d) p ++ drop (Z.to_nat E) e).
  assert (He1 : E <= zlen e1) by (unfold e1; rewrite zlen_app, zlen_map, zlen_drop; lia).
  destruct (interleave_ok Qm m HQ Hm e1 f He1 Hf) as (f1 & Hi & Hf1 & Hat1). fold E in Hi, Hat1. rewrite Hi, res_bind_unfold.
  destruct (deinterleave_ok Qm m HQ Hm (map phi e1) e' (map phi f1)) as (s & Hdi & Hs & Hat2); [done|fold E; rewrite zlen_map; lia| |].
  { fold E. intros q Hq. pose proof (cell_range Qm m q HQ Hq). rewrite !at_map, Hat1 by lia. done. }
  fold E in Hdi, Hat2. rewrite Hdi, res_bind_unfold.
  destruct (nr_rate_matching_rx_ok _ _ _ _ _ _ _ _ _ _ Hp d' s clear Hd' ltac:(lia)) as (out & Hrx & Hol & Hat3). fold p in Hat3.
  rewrite Hrx, res_bind_unfold. exists out. split; [done|]. intros i Hi2. rewrite Hat3 by lia.
  assert (Hz : at_ (if clear =? 1 then replicate (Z.to_nat Ncb) 0 ++ drop (Z.to_nat Ncb) d' else d') i = before clear d' i).
  { unfold before. destruct (clear =? 1); [|done]. unfold at_. rewrite nth_lookup, lookup_app_l by (rewrite length_replicate; lia).
    by rewrite lookup_replicate_2 by lia. }
  rewrite Hz. destruct (decide (i ∈ p)) as [Hin|Hin].
  - rewrite bool_decide_true by done. f_equal. f_equal. apply soft_at_times. intros j x Hj.
    pose proof (lookup_lt_Some _ _ _ Hj) as Hjl. rewrite Z.add_0_l, Hat2 by (unfold zlen in Hpl; lia).
    rewrite at_map by (unfold zlen in Hpl; lia). f_equal. unfold e1, at_ at 1. rewrite Nat2Z.id, nth_lookup, lookup_app_l, list_lookup_fmap, Hj by (rewrite length_map; done).
    done.
  - by rewrite bool_decide_false by done.
Qed.
End InterleaveSpec.
