(* ===== verification/PhyProperties.v ===== *)
(** * Transport blocks: concrete blocks

    The blocks of the witnesses, and what the code does in corner cases that its callers
    avoid or do not know. *)

From S2P Require Import Prelude Crc Tbs Transport RateMatch CrcSpec TransportSpec.
From S2P Require Import RateMatchSpec.

Module PhyScenarios.
Import Crc Tbs Transport RateMatch.

(** A block of 481 bytes in two code blocks of base graph 2. *)
Definition tb0 : list Z := map (fun i => i mod 251) (seqZ 1 481).
Definition spare : list Z := replicate 10 170.
Definition stale_buffers (n : nat) : list (list Z) := replicate n (replicate 1056 255).

Definition pdu0 : pusch_pdu := {| harq_process_id := 0; tb_size := 481; nrOfLayers := 1; ldpcBaseGraph := 2 |}.
Definition harq0 : ul_harq :=
  {| payload_AB := tb0 ++ spare; c := stale_buffers 2; harq_seg := no_seg; Kb := 0; BG := 0 |}.
Definition dlsch0 : dlsch :=
  {| pdu := tb0 ++ spare; b := replicate 500 255; dl_c := stale_buffers 2; TBSize := 481; dl_layers := 1; dl_BG := 2 |}.

Definition value {A B} (dflt : B) (f : A -> B) (r : res A) : B := match r with Ok x => f x | Fault _ => dflt end.
Definition harq1 : ul_harq := value harq0 snd (ulsch_pre_encode pdu0 harq0).
Definition dlsch1 : dlsch := value dlsch0 (fun x => snd (fst x)) (dlsch_pre_encode dlsch0).
Definition seg1 : seg := value no_seg (fun x => tb_seg (snd x)) (dlsch_pre_encode dlsch0).

(** The code blocks as an LDPC decoder returns them. *)
Definition returned (blocks : list (list Z)) : list (option (list Z)) := map (fun c => Some (take 480 c)) blocks.

(** The check value of the CRC catalogue for CRC24A. *)
Lemma crc24a_check_value : crc24a [49; 50; 51; 52; 53; 54; 55; 56; 57] 72 = Ok 0xCDE70300.
Proof. vm_compute. reflexivity. Qed.

(** [AssertFatal(1, ...)] never fails: a block with an unknown type of CRC is accepted. *)
Lemma unknown_crc_type_accepted : check_crc [1; 2; 3] 24 7 = Ok 1.
Proof. vm_compute. reflexivity. Qed.

(** Filler bits in the last, incomplete byte of a code block keep what the buffer held:
    here [K] is 330 and [Kprime] 312, and bits 328 and 329 are 1. *)
Lemma stale_filler_bits :
  exists o bufs, nr_segmentation (Some (replicate 39 0, [replicate 50 255])) 312 1 no_seg = Ok (22, o, Some bufs)
    /\ K o = 330 /\ F o = 18
    /\ bufs = [replicate 41 0 ++ replicate 9 255].
Proof. eexists _, _. split; [vm_compute; reflexivity|]. split; [reflexivity|]. split; reflexivity. Qed.

(** The second block of a slot is coded with the size of the first: its CRC is put inside
    it. *)
Lemma second_block_has_the_first_size :
  let u0 := {| harq_process_id := 0; tb_size := 3; nrOfLayers := 1; ldpcBaseGraph := 2 |} in
  let u1 := {| harq_process_id := 1; tb_size := 10; nrOfLayers := 1; ldpcBaseGraph := 2 |} in
  let h := {| payload_AB := replicate 20 9; c := [replicate 60 0]; harq_seg := no_seg; Kb := 0; BG := 0 |} in
  exists hs h1, nr_ulsch_pre_encoding [u0; u1] [1] [h; h] = Ok (0, hs) /\ hs !! 1%nat = Some h1
    /\ take 3 (payload_AB h1) = replicate 3 9 /\ take 10 (payload_AB h1) <> replicate 10 9.
Proof.
  eexists _, _. split; [vm_compute; reflexivity|]. split; [reflexivity|]. split; [reflexivity|]. vm_compute. congruence.
Qed.

(** With eight layers on a whole cell the information bits are computed modulo [2 ^ 32]. *)
Lemma eight_layers_overflow :
  tbs_ninfo 8 9480 273 14 12 0 0 8 < tbs_ninfo 8 9480 273 14 12 0 0 4.
Proof. vm_compute. reflexivity. Qed.

(** When the filler bits end the circular buffer the repetition of the sender reads one
    value beyond it. *)
Lemma filler_at_the_end : tx_pass (seqZ 0 20) 10 4 14 12 12 0 0 (replicate 12 77)
  = Ok (11, [0; 1; 2; 3; 4; 5; 6; 7; 8; 9; 14; 77]).
Proof. vm_compute. reflexivity. Qed.
End PhyScenarios.

(** * Properties of the coding of transport blocks

    The claims on CRCs, transport block sizes, segmentation and reassembly, and rate
    matching. *)
Module PhyProperties.
Import Crc CrcSpec Tbs Transport TransportSpec TbsSpec TransportChain RateMatch RateMatchSpec InterleaveSpec PhyScenarios.

(** ** Checks of the concrete blocks *)

Lemma octets_dec l : forallb (fun x => (0 <=? x) && (x <? 256)) l = true -> Forall is_byte l.
Proof.
  rewrite forallb_forall. intros H. apply Forall_forall. intros x Hx. specialize (H x (proj1 (list_elem_of_In _ _) Hx)).
  unfold is_byte. lia.
Qed.

Lemma buffers_dec cs : forallb (fun c => forallb (fun x => (0 <=? x) && (x <? 256)) c && (1056 <=? zlen c)) cs = true -> block_buffers cs.
Proof.
  rewrite forallb_forall. intros H. apply Forall_forall. intros x Hx. specialize (H x (proj1 (list_elem_of_In _ _) Hx)).
  apply andb_true_iff in H as [H1%octets_dec H2]. split; [done|lia].
Qed.

Lemma returned_dec k cs : (Z.to_nat k <=? 480)%nat && forallb (forallb (fun x => (0 <=? x) && (x <? 256))) cs = true ->
  ldpc_returns k cs (returned cs).
Proof.
  intros [Hk H]%andb_true_iff. apply Nat.leb_le in Hk. rewrite forallb_forall in H. unfold ldpc_returns, returned.
  apply Forall2_fmap_r, Forall_Forall2_diag, Forall_forall. intros x Hx. exists (take 480 x). split; [done|].
  split; [by apply Forall_take, octets_dec, H, list_elem_of_In|]. by rewrite take_take, Nat.min_l.
Qed.

(** C21: The table-driven CRC functions compute, for any number of bits, the same CRC as
    the polynomial division that takes one bit at a time. *)
Theorem crc_reference (l : list Z) (n : Z) (Hl : Forall is_byte l) (Hn : 0 <= n <= 8 * zlen l) :
  let msg := take (Z.to_nat n) (buffer_bits l) in
  crc24a l n = Ok (crc_bits poly24a msg) /\ crc24b l n = Ok (crc_bits poly24b msg)
  /\ crc24c l n = Ok (crc_bits poly24c msg) /\ crc16 l n = Ok (crc_bits poly16 msg)
  /\ crc12 l n = Ok (crc_bits poly12 msg) /\ crc11 l n = Ok (crc_bits poly11 msg)
  /\ crc8 l n = Ok (crc_bits poly8 msg) /\ crc6 l n = Ok (crc_bits poly6 msg).
Proof.
  repeat split; [by apply crc24a_ok|by apply crc24b_ok|by apply crc24c_ok|by apply crc16_ok|by apply crc12_ok
                |by apply crc11_ok|by apply crc8_ok|by apply crc6_ok].
Qed.

(** The nine digits and half of the last one. *)
Lemma crc_reference_witness :
  let l := [49; 50; 51; 52; 53; 54; 55; 56; 57] in
  crc24a l 68 = Ok (crc_bits poly24a (take 68 (buffer_bits l))) /\ crc11 l 68 = Ok (crc_bits poly11 (take 68 (buffer_bits l))).
Proof.
  destruct (crc_reference [49; 50; 51; 52; 53; 54; 55; 56; 57] 68) as (H1 & _ & _ & _ & _ & H2 & _);
    [repeat (constructor; [done|]); constructor|done|]. split; assumption.
Defined.

(** C22: A block whose CRC is right is refused once any of its bits are changed within a
    window as long as the CRC: [check_crc] misses no burst of 24, 16 or 8 bits. *)
Theorem crc_burst (l l' : list Z) (t : Z) (a c : nat) (bs : list bool)
    (Ht : 0 <= t < 4) (Hl : Forall is_byte l) (Hl' : Forall is_byte l') (Hlen : zlen l' = zlen l) (Hc : crc_len t <= zlen l)
    (Hdiff : buffer_bits l' = zip_with xorb (buffer_bits l) (replicate a false ++ bs ++ replicate c false))
    (Hsplit : (a + length bs + c = 8 * length l)%nat) (Hburst : Z.of_nat (length bs) <= 8 * crc_len t) (Hin : true ∈ bs)
    (Hok : check_crc l (8 * zlen l) t = Ok 1) :
  check_crc l' (8 * zlen l') t = Ok 0.
Proof. by apply (check_crc_burst l l' t a c bs). Qed.

(** Three digits with their CRC16, six wrong bits across two bytes. *)
Lemma crc_burst_witness : check_crc [49; 51; 203; 0x97; 0x52] 40 CRC16 = Ok 0.
Proof.
  apply (crc_burst [49; 50; 51; 0x97; 0x52] [49; 51; 203; 0x97; 0x52] CRC16 15 19 [true; true; true; true; true; true]);
    try (by vm_compute); try (repeat (constructor; [done|]); constructor).
Defined.

(** C23: For any block [nr_segmentation] finds a segmentation: as few code blocks as the
    base graph allows, the least lifting size of the standard for which they fit, and
    filler bits up to the size of the code; its error branch is never taken. *)
Theorem segmentation_least (B BG : Z) (old : seg) (HB : 0 < B <= 2 ^ 31) :
  exists o L, good_seg B BG o L /\ nr_segmentation None B BG old = Ok (seg_Kb B BG, o, None)
    /\ B <= C o * (max_code_block BG - L) /\ (C o = 1 \/ (C o - 1) * (max_code_block BG - L) < B).
Proof.
  destruct (segmentation_ok B BG HB) as (o & L & Hgs & Hseg). exists o, L. split; [done|]. split; [by rewrite Hseg|].
  destruct (seg_count_ok B BG) as (C' & L' & Ec & Hc); [lia|]. rewrite (gs_count _ _ _ _ Hgs) in Ec. injection Ec as <- <-. lia.
Qed.

Lemma segmentation_least_witness :
  exists o L, good_seg 20000 1 o L /\ nr_segmentation None 20000 1 no_seg = Ok (seg_Kb 20000 1, o, None)
    /\ 20000 <= C o * (max_code_block 1 - L) /\ (C o = 1 \/ (C o - 1) * (max_code_block 1 - L) < 20000).
Proof. apply (segmentation_least 20000 1 no_seg). lia. Defined.

(** C24: A size of [nr_compute_tbs] is a whole number of bytes and, with the CRC of the
    block and the base graph of [get_BG], splits into code blocks of equal numbers of
    bytes; the product of its computation does not overflow for one cell and four layers. *)
Theorem tbs_splits (Qm R nb_rb symb dmrs oh scaling Nl : Z)
    (HQ : 0 < Qm <= 8) (HR : 0 < R <= 9480) (Hrb : 0 < nb_rb <= 275) (HN : 0 < Nl <= 4) (Hs : 0 <= scaling)
    (Hre : 0 <= 12 * symb - dmrs - oh < 2 ^ 32) :
  let A := nr_compute_tbs Qm R nb_rb symb dmrs oh scaling Nl in
  24 <= A < 2 ^ 26 /\ A mod 8 = 0 /\ splits A (get_BG A R)
  /\ tbs_ninfo Qm R nb_rb symb dmrs oh scaling Nl
     = (Z.min 156 (12 * symb - dmrs - oh) * nb_rb * (R / 5) * Qm * Nl) / 2 ^ (11 + scaling).
Proof.
  cbn zeta. pose proof (compute_tbs_ok Qm R nb_rb symb dmrs oh scaling Nl Hs) as H. cbn zeta in H.
  rewrite ninfo_exact by lia. destruct H as [H|H]; [|by destruct H as (? & ? & ?)].
  exfalso. by apply (compute_tbs_pos Qm R nb_rb symb dmrs oh scaling Nl) in H; try lia.
Qed.

Lemma tbs_splits_witness : splits 102416 (get_BG 102416 6660).
Proof. destruct (tbs_splits 6 6660 100 12 12 0 0 2) as (_ & _ & H & _); try lia. exact H. Defined.
(** C25: Uplink: the UE attaches the CRC to its transport block and writes its code blocks
    without fault; the gNB computes the same segmentation, and when its LDPC decoder
    returns the code blocks it rebuilds the transport block and finds its CRC valid. *)
Theorem uplink_transport_block (u : pusch_pdu) (h : ul_harq) (tb rest : list Z) (Hs : ue_sends u h tb rest) :
  exists h', ulsch_pre_encode u h = Ok (true, h')
    /\ (forall old, rx_segmentation (8 * zlen tb) (ldpcBaseGraph u) old = Ok (harq_seg h'))
    /\ forall outs cs b,
         ldpc_returns (Z.shiftr (K (harq_seg h')) 3) (take (Z.to_nat (C (harq_seg h'))) (c h')) outs ->
         block_buffers cs -> C (harq_seg h') <= zlen cs ->
         Forall is_byte b -> zlen tb + 3 <= zlen b ->
         exists b', ulsch_receive (harq_seg h') outs cs b (zlen tb) = Ok (true, b') /\ take (length tb) b' = tb.
Proof. by apply (uplink_block u h tb rest). Qed.

(** Two code blocks, in buffers that hold old data. *)
Lemma uplink_transport_block_witness :
  exists b', ulsch_receive (harq_seg harq1) (returned (take (Z.to_nat (C (harq_seg harq1))) (c harq1)))
               (stale_buffers 2) (replicate 500 255) (zlen tb0) = Ok (true, b')
    /\ take (length tb0) b' = tb0.
Proof.
  destruct (uplink_transport_block pdu0 harq0 tb0 spare) as (h' & E & _ & H).
  - constructor; try (vm_compute; congruence); [apply octets_dec; reflexivity|by exists 242|apply buffers_dec; reflexivity].
  - assert (h' = harq1) as -> by (unfold harq1; rewrite E; reflexivity).
    apply (H _ (stale_buffers 2) (replicate 500 255));
      [apply returned_dec; vm_compute; reflexivity|apply buffers_dec; reflexivity|vm_compute; congruence|apply octets_dec; reflexivity|vm_compute; congruence].
Defined.

(** C26: Downlink: the gNB prepares its transport block without fault and the UE, with the
    same segmentation, rebuilds it from the code blocks of its LDPC decoder and accepts
    it, unless all its bytes are 0. *)
Theorem downlink_transport_block (g : dlsch) (tb rest : list Z) (Hs : gnb_sends g tb rest) :
  exists g' t, dlsch_pre_encode g = Ok (true, g', t)
    /\ (forall old, rx_segmentation (8 * zlen tb) (dl_BG g) old = Ok (tb_seg t))
    /\ forall outs cs b,
         ldpc_returns (Z.shiftr (K (tb_seg t)) 3) (take (Z.to_nat (C (tb_seg t))) (dl_c g')) outs ->
         block_buffers cs -> C (tb_seg t) <= zlen cs ->
         Forall is_byte b -> zlen tb + 3 <= zlen b ->
         exists b', dlsch_receive (tb_seg t) outs cs b (8 * zlen tb) = Ok (negb (forallb (fun x => x =? 0) tb), b')
                    /\ take (length tb) b' = tb.
Proof. by apply (downlink_block g tb rest). Qed.

Lemma downlink_transport_block_witness :
  exists b', dlsch_receive seg1 (returned (take (Z.to_nat (C seg1)) (dl_c dlsch1)))
               (stale_buffers 2) (replicate 500 255) (8 * zlen tb0) = Ok (negb (forallb (fun x => x =? 0) tb0), b')
    /\ take (length tb0) b' = tb0.
Proof.
  destruct (downlink_transport_block dlsch0 tb0 spare) as (g' & t & E & _ & H).
  - constructor; try (vm_compute; congruence);
      [apply octets_dec; reflexivity|by exists 242|split; [apply octets_dec; reflexivity|vm_compute; congruence]|apply buffers_dec; reflexivity].
  - assert (g' = dlsch1) as -> by (unfold dlsch1; rewrite E; reflexivity).
    assert (Et : tb_seg t = seg1) by (unfold seg1; rewrite E; reflexivity). rewrite Et in H.
    apply (H _ (stale_buffers 2) (replicate 500 255));
      [apply returned_dec; vm_compute; reflexivity|apply buffers_dec; reflexivity|vm_compute; congruence|apply octets_dec; reflexivity|vm_compute; congruence].
Defined.

(** C27: Rate matching selects the bits that 38.212 names: those of the circular buffer from
    the start of the redundancy version on, without the filler bits, around as many times
    as the allocation needs; it always ends and writes nothing beyond them. *)
Theorem rate_matching_selects (Tbslbrm BG Zc C F Foffset rvidx E N Ncb : Z) (d e : list Z)
    (Hp : rm_params Tbslbrm BG Zc C F Foffset rvidx E N Ncb) (Hd : Ncb <= zlen d) (He : E <= zlen e) :
  nr_rate_matching_ldpc Tbslbrm BG Zc d e C F Foffset rvidx E
  = Ok (0, map (at_ d) (positions Foffset F Ncb (k0_of BG Zc rvidx N Ncb) E) ++ drop (Z.to_nat E) e)
  /\ Forall (fun i => 0 <= i < Ncb /\ (i < Foffset \/ Foffset + F <= i)) (positions Foffset F Ncb (k0_of BG Zc rvidx N Ncb) E).
Proof.
  split; [by apply nr_rate_matching_ok|]. destruct (start_index_ok _ _ _ _ _ _ _ _ _ _ Hp) as [_ Hk].
  apply Forall_forall. intros i Hi. apply positions_range in Hi; [done|lia].
Qed.

(** A code block of base graph 2 with 4 filler bits, redundancy version 1, read one and a
    half times. *)
Lemma rate_matching_selects_witness :
  nr_rate_matching_ldpc 0 2 2 (seqZ 0 100) (replicate 150 0) 1 4 12 1 140
  = Ok (0, map (at_ (seqZ 0 100)) (positions 12 4 100 (k0_of 2 2 1 100 100) 140) ++ drop 140 (replicate 150 0)).
Proof.
  apply (rate_matching_selects 0 2 2 1 4 12 1 140 100 100 (seqZ 0 100) (replicate 150 0)).
  - constructor; [by right|lia|lia|lia|reflexivity|lia|lia].
  - vm_compute. congruence.
  - vm_compute. congruence.
Defined.

(** C28: through a channel that gives the soft value [phi b] for a coded bit [b], one
    transmission of a code block, with any redundancy version, adds to the soft buffer of
    the receiver, at each coded bit that was sent, the soft value of that bit once for
    each time it was sent (in 16 bits), and leaves the other places as they are.  With
    [clear] (the first transmission) the buffer counts as zero before; without it (a
    retransmission) the values of the earlier transmissions are kept, which is how the
    receiver combines them. *)
Theorem coded_bits_link (phi : Z -> Z) (Tbslbrm BG Zc C F Foffset rvidx clear m Qm N Ncb : Z) (d e f e' d' : list Z)
    (Hp : rm_params Tbslbrm BG Zc C F Foffset rvidx (Qm * m) N Ncb) (HQ : mod_order Qm = true) (Hm : 0 <= m)
    (Hd : Ncb <= zlen d) (Hd' : Ncb <= zlen d') (He : Qm * m <= zlen e) (Hf : Qm * m <= zlen f) (He' : Qm * m <= zlen e') :
  let sent := positions Foffset F Ncb (k0_of BG Zc rvidx N Ncb) (Qm * m) in
  exists out, coded_link phi Tbslbrm BG Zc C F Foffset rvidx clear (Qm * m) Qm d e f e' d' = Ok out
    /\ forall i, 0 <= i < Ncb -> at_ out i =
         if bool_decide (i ∈ sent) then i16 (before clear d' i + times i sent * phi (at_ d i)) else before clear d' i.
Proof. by apply coded_link_ok. Qed.

(** The same code block with QPSK, as a retransmission into a buffer of sevens. *)
Lemma coded_bits_link_witness :
  let sent := positions 12 4 100 (k0_of 2 2 1 100 100) (2 * 70) in
  exists out, coded_link (fun b => 16 - 32 * (b mod 2)) 0 2 2 1 4 12 1 0 (2 * 70) 2 (seqZ 0 100) (replicate 140 0)
      (replicate 140 0) (replicate 140 0) (replicate 100 7) = Ok out
    /\ forall i, 0 <= i < 100 -> at_ out i =
         if bool_decide (i ∈ sent)
         then i16 (before 0 (replicate 100 7) i + times i sent * (16 - 32 * (at_ (seqZ 0 100) i mod 2)))
         else before 0 (replicate 100 7) i.
Proof.
  apply (coded_bits_link (fun b => 16 - 32 * (b mod 2)) 0 2 2 1 4 12 1 0 70 2 100 100).
  - constructor; [by right|lia|lia|lia|reflexivity|lia|lia].
  - done.
  - lia.
  - vm_compute. congruence.
  - vm_compute. congruence.
  - vm_compute. congruence.
  - vm_compute. congruence.
  - vm_compute. congruence.
Defined.
End PhyProperties.
