(* ===== verification/RlcPdu.v ===== *)
(** * RLC PDUs: reception list and bit-level header codec

    Models [nr_rlc_pdu.c] and [nr_rlc_pdu.h].  [Module Pdu] has the received
    PDU segment and the ordered insertion of the UM reception list;
    [Module Codec] has the bit decoder and the bit encoder that every RLC
    header is read and written with.  The codec theorems are stated on the bit
    sequence of a buffer: the decoder reads consecutive bits, the encoder
    appends bits, hence what is written field by field is read back. *)

From S2P Require Import Prelude.

Module Pdu.

(** ** Received PDU segments *)

(** [nr_rlc_pdu_t].  [data] is [None] once the SDU has been delivered (the C
    code frees the bytes and stores [NULL]); [is_first]/[is_last] are C flags. *)
Record nr_rlc_pdu_t := mk_pdu {
  sn : Z;
  data : option (list Z);
  size : Z;
  so : Z;
  is_first : bool;
  is_last : bool
}.

Definition nr_rlc_new_pdu (sn so : Z) (is_first is_last : bool) (data : list Z) : nr_rlc_pdu_t :=
  {| sn := sn; data := Some data; size := zlen data; so := so;
     is_first := is_first; is_last := is_last |}.

(** The insertion loop: [true] stops in front of the current element. *)
Fixpoint insert_before (stop : nr_rlc_pdu_t -> bool) (pdu : nr_rlc_pdu_t)
    (l : list nr_rlc_pdu_t) : list nr_rlc_pdu_t :=
  match l with
  | [] => [pdu]
  | cur :: l' => if stop cur then pdu :: cur :: l' else cur :: insert_before stop pdu l'
  end.

(** Order is by 'sn', if 'sn' is the same then order is by 'so'. *)
Definition nr_rlc_pdu_list_add (sn_compare : Z -> Z -> Z) (l : list nr_rlc_pdu_t)
    (pdu : nr_rlc_pdu_t) : list nr_rlc_pdu_t :=
  insert_before (fun cur => (sn_compare (sn cur) (sn pdu) >? 0)
                            || ((sn cur =? sn pdu) && (so cur >? so pdu))) pdu l.

Lemma insert_before_perm stop pdu l : insert_before stop pdu l ≡ₚ pdu :: l.
Proof.
  induction l as [|cur l IH]; simpl; [done|].
  destruct (stop cur); [done|]. rewrite IH. apply Permutation_swap.
Qed.

(** Insertion into a list ordered by a total preorder keeps it ordered, when
    the stop test is the strict order. *)
Lemma insert_before_sorted (R : nr_rlc_pdu_t -> nr_rlc_pdu_t -> Prop)
    (stop : nr_rlc_pdu_t -> bool) pdu l :
  Transitive R ->
  Forall (fun cur => if stop cur then R pdu cur else R cur pdu) l ->
  StronglySorted R l -> StronglySorted R (insert_before stop pdu l).
Proof.
  intros Htr Hstop Hl. induction Hl as [|cur l Hl IH Hcur]; simpl.
  { repeat constructor. }
  inversion_clear Hstop as [|?? Hc Hl'].
  destruct (stop cur); constructor; auto.
  - by constructor.
  - constructor; [done|]. eapply Forall_impl; [exact Hcur|]. intros x ?. by transitivity cur.
  - rewrite insert_before_perm. by constructor.
Qed.

End Pdu.

Module Codec.

(** ** Decoder *)

Record nr_rlc_pdu_decoder_t := mk_decoder {
  dec_error : bool;
  dec_byte : Z;            (** next byte to decode *)
  dec_bit : Z;             (** next bit in next byte to decode *)
  dec_buffer : list Z;
  dec_size : Z
}.

(** The caller passes a buffer of exactly [size] bytes. *)
Definition nr_rlc_pdu_decoder_init (buffer : list Z) : nr_rlc_pdu_decoder_t :=
  {| dec_error := false; dec_byte := 0; dec_bit := 0; dec_buffer := buffer;
     dec_size := zlen buffer |}.

Definition nr_rlc_pdu_decoder_in_error (d : nr_rlc_pdu_decoder_t) : bool := dec_error d.

(** [(buffer[byte] >> (7 - bit)) & 1] on a [char]: sign extension does not
    reach the bit that is kept. *)
Definition get_bit (d : nr_rlc_pdu_decoder_t) : Z * nr_rlc_pdu_decoder_t :=
  if dec_byte d >=? dec_size d then (0, {| d with dec_error := true |})
  else
    let b := nth (Z.to_nat (dec_byte d)) (dec_buffer d) 0 in
    let ret := Z.land (Z.shiftr b (7 - dec_bit d)) 1 in
    let bit := dec_bit d + 1 in
    if bit =? 8 then (ret, {| d with dec_bit := 0; dec_byte := dec_byte d + 1 |})
    else (ret, {| d with dec_bit := bit |}).

Fixpoint get_bits_loop (n : nat) (ret : Z) (d : nr_rlc_pdu_decoder_t)
    : Z * nr_rlc_pdu_decoder_t :=
  match n with
  | O => (ret, d)
  | S n' =>
      let '(b, d') := get_bit d in
      let ret' := Z.lor (Z.shiftl ret 1) b in
      if dec_error d' then (-1, d') else get_bits_loop n' ret' d'
  end.

Definition nr_rlc_pdu_decoder_get_bits (d : nr_rlc_pdu_decoder_t) (count : Z)
    : res (Z * nr_rlc_pdu_decoder_t) :=
  if count >? 31 then Fault Exit else Ok (get_bits_loop (Z.to_nat count) 0 d).

(** [R(decoder)]: an error of the decoder ends the decoding with [discard]. *)
Definition checked {A} (m : res (Z * nr_rlc_pdu_decoder_t)) (discard : A)
    (k : Z -> nr_rlc_pdu_decoder_t -> res A) : res A :=
  '(v, d) ← m;
  match nr_rlc_pdu_decoder_in_error d with
  | true => mret discard
  | false => k v d
  end.

(** ** Encoder *)

Record nr_rlc_pdu_encoder_t := mk_encoder {
  enc_byte : Z;            (** next byte to encode *)
  enc_bit : Z;             (** next bit in next byte to encode *)
  enc_buffer : list Z;
  enc_size : Z
}.

Definition nr_rlc_pdu_encoder_init (buffer : list Z) (size : Z) : nr_rlc_pdu_encoder_t :=
  {| enc_byte := 0; enc_bit := 0; enc_buffer := buffer; enc_size := size |}.

Definition put_bit (e : nr_rlc_pdu_encoder_t) (bit : bool) : res nr_rlc_pdu_encoder_t :=
  if enc_byte e =? enc_size e then Fault Exit
  else
    old ← zget (enc_buffer e) (enc_byte e);
    let b := u8 (Z.shiftl old 1) in
    let b := if bit then Z.lor b 1 else b in
    buffer ← zset (enc_buffer e) (enc_byte e) b;
    let nbit := enc_bit e + 1 in
    if nbit =? 8
    then mret {| e with enc_buffer := buffer; enc_bit := 0; enc_byte := enc_byte e + 1 |}
    else mret {| e with enc_buffer := buffer; enc_bit := nbit |}.

Fixpoint put_bits_loop (n : nat) (x value : Z) (e : nr_rlc_pdu_encoder_t)
    : res nr_rlc_pdu_encoder_t :=
  match n with
  | O => mret e
  | S n' =>
      e' ← put_bit e (negb (Z.land value x =? 0));
      put_bits_loop n' (Z.shiftr x 1) value e'
  end.

Definition nr_rlc_pdu_encoder_put_bits (e : nr_rlc_pdu_encoder_t) (value count : Z)
    : res nr_rlc_pdu_encoder_t :=
  if count >? 31 then Fault Exit
  else put_bits_loop (Z.to_nat count) (Z.shiftl 1 (count - 1)) value e.

(** A header written field by field: [(value, width)] pairs. *)
Fixpoint put_fields (e : nr_rlc_pdu_encoder_t) (fs : list (Z * Z))
    : res nr_rlc_pdu_encoder_t :=
  match fs with
  | [] => mret e
  | (v, n) :: fs' => e' ← nr_rlc_pdu_encoder_put_bits e v n; put_fields e' fs'
  end.

(** A header read field by field. *)
Fixpoint get_fields (d : nr_rlc_pdu_decoder_t) (ns : list Z)
    : res (list Z * nr_rlc_pdu_decoder_t) :=
  match ns with
  | [] => mret ([], d)
  | n :: ns' =>
      '(v, d') ← nr_rlc_pdu_decoder_get_bits d n;
      '(vs, d'') ← get_fields d' ns';
      mret (v :: vs, d'')
  end.

(** ** The decoder reads consecutive bits *)

(** Bits of the buffer the decoder has not read yet. *)
Definition unread (d : nr_rlc_pdu_decoder_t) : list bool :=
  drop (Z.to_nat (8 * dec_byte d + dec_bit d)) (buffer_bits (dec_buffer d)).

(** A decoder that has been initialised and has met no error. *)
Record dec_wf (d : nr_rlc_pdu_decoder_t) : Prop := {
  dwf_error : dec_error d = false;
  dwf_bit : 0 <= dec_bit d < 8;
  dwf_byte : 0 <= dec_byte d;
  dwf_size : dec_size d = zlen (dec_buffer d)
}.

Lemma decoder_init_wf buffer : dec_wf (nr_rlc_pdu_decoder_init buffer).
Proof. constructor; simpl; done || lia. Qed.

Lemma unread_init buffer : unread (nr_rlc_pdu_decoder_init buffer) = buffer_bits buffer.
Proof. reflexivity. Qed.

Lemma length_unread d :
  dec_wf d ->
  Z.of_nat (length (unread d)) = Z.max 0 (8 * dec_size d - (8 * dec_byte d + dec_bit d)).
Proof.
  intros [_ ? ? ->]. unfold unread. rewrite length_drop, length_buffer_bits. unfold zlen. lia.
Qed.

(** The bit at a position of a buffer, split into byte and bit offsets. *)
Lemma buffer_bits_at buf i j :
  (i < length buf)%nat -> (j < 8)%nat ->
  drop (8 * i + j) (buffer_bits buf)
  = Z.testbit (nth i buf 0) (Z.of_nat (7 - j)) :: drop (8 * i + j + 1) (buffer_bits buf).
Proof.
  revert i. induction buf as [|b buf IH]; intros i Hi Hj; simpl in Hi; [lia|].
  change (buffer_bits (b :: buf)) with (bits 8 b ++ buffer_bits buf).
  destruct i as [|i].
  - rewrite !drop_app, !length_bits.
    do 8 (destruct j as [|j]; [reflexivity|]). lia.
  - replace (8 * S i + j)%nat with (8 + (8 * i + j))%nat by lia.
    replace (8 + (8 * i + j) + 1)%nat with (8 + (8 * i + j + 1))%nat by lia.
    change 8%nat with (length (bits 8 b)) at 1 4. rewrite !drop_app_add. simpl nth.
    apply IH; lia.
Qed.

(** One bit: it is read and the position advances, or the buffer is exhausted
    and the error flag is raised. *)
Lemma get_bit_spec d :
  dec_wf d ->
  match unread d with
  | [] => get_bit d = (0, {| d with dec_error := true |})
  | b :: bs => exists d', get_bit d = (b2z b, d') /\ dec_wf d' /\ unread d' = bs
      /\ dec_buffer d' = dec_buffer d
      /\ 8 * dec_byte d' + dec_bit d' = 8 * dec_byte d + dec_bit d + 1
  end.
Proof.
  intros Hwf. pose proof (length_unread d Hwf) as Hlen.
  destruct Hwf as [Herr Hbit Hbyte Hsize]. unfold get_bit.
  rewrite Z.geb_leb. destruct (Z.leb_spec (dec_size d) (dec_byte d)) as [Hge|Hlt].
  { destruct (unread d); simpl in Hlen; [done|lia]. }
  assert (Hu : unread d = Z.testbit (nth (Z.to_nat (dec_byte d)) (dec_buffer d) 0) (7 - dec_bit d)
    :: drop (Z.to_nat (8 * dec_byte d + dec_bit d + 1)) (buffer_bits (dec_buffer d))).
  { unfold unread, zlen in *.
    replace (Z.to_nat (8 * dec_byte d + dec_bit d))
      with (8 * Z.to_nat (dec_byte d) + Z.to_nat (dec_bit d))%nat by lia.
    rewrite buffer_bits_at by lia. f_equal; f_equal; lia. }
  rewrite Hu, land_shiftr_1 by lia.
  destruct (Z.eqb_spec (dec_bit d + 1) 8); eexists; (split; [reflexivity|]);
    (split; [constructor; simpl; done || lia|]);
    unfold unread; simpl; (split; [do 2 f_equal; lia|]); (split; [done|lia]).
Qed.

Lemma get_bits_loop_spec n : forall r d,
  dec_wf d -> (n <= length (unread d))%nat ->
  exists d', get_bits_loop n r d = (r * 2 ^ Z.of_nat n + bits_val (take n (unread d)), d')
    /\ dec_wf d' /\ unread d' = drop n (unread d) /\ dec_buffer d' = dec_buffer d
    /\ 8 * dec_byte d' + dec_bit d' = 8 * dec_byte d + dec_bit d + Z.of_nat n.
Proof.
  induction n as [|n IH]; intros r d Hwf Hn.
  { exists d. simpl. split; [f_equal; unfold bits_val; simpl; lia|].
    repeat split; try apply Hwf; lia. }
  pose proof (get_bit_spec d Hwf) as Hb. destruct (unread d) as [|b bs] eqn:Eu; [simpl in Hn; lia|].
  destruct Hb as (d1 & Eb & Hwf1 & Hu1 & Hbuf1 & Hp1).
  cbn [get_bits_loop]. rewrite Eb. rewrite (dwf_error _ Hwf1).
  destruct (IH (Z.lor (Z.shiftl r 1) (b2z b)) d1 Hwf1) as (d' & E & Hwf' & Hu' & Hbuf' & Hp').
  { rewrite Hu1. simpl in Hn. lia. }
  exists d'. rewrite E. split; [|repeat split; try apply Hwf'; try congruence; try lia].
  2: { rewrite Hu', Hu1. done. }
  f_equal. rewrite Hu1. simpl take. rewrite bits_val_cons.
  assert (Hzl : zlen (take n bs) = Z.of_nat n).
  { rewrite zlen_take. unfold zlen. simpl in Hn. lia. }
  rewrite Hzl, Nat2Z.inj_succ, Z.pow_succ_r by lia.
  rewrite lor_shift_in. lia.
Qed.

(** Not enough bits: the error flag is raised and [-1] is returned. *)
Lemma get_bits_loop_short n : forall r d,
  dec_wf d -> (length (unread d) < n)%nat ->
  exists d', get_bits_loop n r d = (-1, d') /\ dec_error d' = true.
Proof.
  induction n as [|n IH]; intros r d Hwf Hn; [lia|].
  pose proof (get_bit_spec d Hwf) as Hb. cbn [get_bits_loop].
  destruct (unread d) as [|b bs] eqn:Eu.
  - rewrite Hb. simpl. eauto.
  - destruct Hb as (d1 & Eb & Hwf1 & Hu1 & _). rewrite Eb, (dwf_error _ Hwf1).
    apply IH; [done|]. rewrite Hu1. simpl in Hn. lia.
Qed.

(** ** The encoder appends bits *)

(** Bits written so far: the complete bytes, then the low bits of the byte
    being filled. *)
Definition written (e : nr_rlc_pdu_encoder_t) : list bool :=
  buffer_bits (take (Z.to_nat (enc_byte e)) (enc_buffer e))
  ++ bits (Z.to_nat (enc_bit e)) (nth (Z.to_nat (enc_byte e)) (enc_buffer e) 0).

Record enc_wf (e : nr_rlc_pdu_encoder_t) : Prop := {
  ewf_bit : 0 <= enc_bit e < 8;
  ewf_byte : 0 <= enc_byte e;
  ewf_size : enc_size e <= zlen (enc_buffer e)
}.

(** Number of bits the encoder still has room for. *)
Definition room (e : nr_rlc_pdu_encoder_t) : Z := 8 * enc_size e - (8 * enc_byte e + enc_bit e).

(** [e'] is [e] after the bits [bs]: bytes past the one being filled are
    untouched. *)
Definition extends (e e' : nr_rlc_pdu_encoder_t) (bs : list bool) : Prop :=
  enc_wf e' /\ written e' = written e ++ bs
  /\ enc_size e' = enc_size e /\ zlen (enc_buffer e') = zlen (enc_buffer e)
  /\ 8 * enc_byte e' + enc_bit e' = 8 * enc_byte e + enc_bit e + zlen bs
  /\ (forall k, 8 * enc_byte e' + enc_bit e' <= 8 * Z.of_nat k ->
        drop k (enc_buffer e') = drop k (enc_buffer e)).

Lemma encoder_init_wf buffer size :
  size <= zlen buffer -> enc_wf (nr_rlc_pdu_encoder_init buffer size).
Proof. intros. constructor; simpl; lia. Qed.

Lemma extends_nil e : enc_wf e -> extends e e [].
Proof. intros. repeat split; try apply H; rewrite ?app_nil_r, ?zlen_nil; done || lia. Qed.

Lemma extends_trans e1 e2 e3 bs1 bs2 :
  extends e1 e2 bs1 -> extends e2 e3 bs2 -> extends e1 e3 (bs1 ++ bs2).
Proof.
  intros (W1 & B1 & S1 & L1 & P1 & D1) (W2 & B2 & S2 & L2 & P2 & D2).
  split; [done|]. rewrite B2, B1, <- app_assoc, zlen_app. repeat split; try congruence; try lia.
  intros k Hk. rewrite D2 by done. apply D1. pose proof (zlen_nonneg bs2). lia.
Qed.

Lemma put_bit_spec e b :
  enc_wf e -> 0 < room e -> exists e', put_bit e b = Ok e' /\ extends e e' [b].
Proof.
  intros [Hbit Hbyte Hsize] Hroom. unfold room in Hroom. unfold put_bit.
  destruct (Z.eqb_spec (enc_byte e) (enc_size e)) as [|Hne]; [lia|].
  assert (Hlt : (Z.to_nat (enc_byte e) < length (enc_buffer e))%nat) by (unfold zlen in *; lia).
  destruct (lookup_lt_is_Some_2 _ _ Hlt) as [old Hold].
  rewrite (proj2 (zget_ok _ _ _) (conj Hbyte Hold)), res_bind_unfold.
  set (b' := if b then Z.lor (u8 (Z.shiftl old 1)) 1 else u8 (Z.shiftl old 1)).
  rewrite zset_ok, res_bind_unfold by (unfold zlen in *; lia).
  set (i := Z.to_nat (enc_byte e)) in *. set (buf := <[i:=b']> (enc_buffer e)).
  assert (Hnth : nth i buf 0 = b').
  { apply nth_lookup_Some. by apply list_lookup_insert_eq. }
  assert (Hnth0 : nth i (enc_buffer e) 0 = old) by (by apply nth_lookup_Some).
  assert (Htake : take i buf = take i (enc_buffer e)) by (by apply take_insert_ge).
  assert (Hsh : bits (S (Z.to_nat (enc_bit e))) b' = bits (Z.to_nat (enc_bit e)) old ++ [b]).
  { apply bits_shift_in. lia. }
  assert (Hdrop : forall k, (i < k)%nat -> drop k buf = drop k (enc_buffer e)).
  { intros. apply drop_insert_lt. lia. }
  assert (Hz : zlen [b] = 1) by done.
  destruct (Z.eqb_spec (enc_bit e + 1) 8) as [E8|E8]; eexists; (split; [reflexivity|]);
    split_and!; simpl; rewrite ?Hz; try done; try lia;
    try (constructor; simpl; unfold buf; rewrite ?zlen_insert; lia);
    try (unfold buf; by rewrite zlen_insert);
    try (intros k Hk; apply Hdrop; subst i; lia).
  - unfold written. simpl. rewrite app_nil_r.
    replace (Z.to_nat (enc_byte e + 1)) with (S i) by (subst i; lia). fold i.
    rewrite Hnth0, (take_S_r buf i b'), Htake, buffer_bits_app, <- app_assoc.
    + f_equal. rewrite <- Hsh. replace (S (Z.to_nat (enc_bit e))) with 8%nat by lia.
      unfold buffer_bits. simpl. done.
    + by apply list_lookup_insert_eq.
  - unfold written. simpl. fold i. rewrite Hnth, Hnth0, Htake, <- app_assoc. f_equal.
    rewrite <- Hsh. f_equal. lia.
Qed.

Lemma put_bits_loop_spec n : forall v e,
  enc_wf e -> Z.of_nat n <= room e ->
  exists e', put_bits_loop n (Z.shiftl 1 (Z.of_nat n - 1)) v e = Ok e'
    /\ extends e e' (bits n v).
Proof.
  induction n as [|n IH]; intros v e Hwf Hroom.
  { exists e. split; [done|]. by apply extends_nil. }
  cbn [put_bits_loop bits].
  replace (Z.of_nat (S n) - 1) with (Z.of_nat n) by lia. rewrite land_pow2_testbit by lia.
  destruct (put_bit_spec e (Z.testbit v (Z.of_nat n)) Hwf) as (e1 & E1 & X1); [lia|].
  rewrite E1, res_bind_unfold.
  rewrite Z.shiftr_shiftl_l by lia.
  destruct (IH v e1) as (e' & E' & X'); [apply X1| |].
  { destruct X1 as (_ & _ & S1 & _ & P1 & _). unfold room in *. rewrite zlen_cons, zlen_nil in P1. lia. }
  exists e'. split; [done|].
  change (Z.testbit v (Z.of_nat n) :: bits n v) with ([Z.testbit v (Z.of_nat n)] ++ bits n v).
  by eapply extends_trans.
Qed.

(** ** Fields *)

Definition field_bits (fs : list (Z * Z)) : list bool :=
  concat (map (fun f => bits (Z.to_nat f.2) f.1) fs).

Definition width (ns : list Z) : Z := zsum id ns.

Definition field_ok (f : Z * Z) : Prop := 0 <= f.2 <= 31 /\ 0 <= f.1 < 2 ^ f.2.

Lemma put_fields_spec fs : forall e,
  enc_wf e -> Forall (fun f => 0 <= f.2 <= 31) fs -> width (map snd fs) <= room e ->
  exists e', put_fields e fs = Ok e' /\ extends e e' (field_bits fs).
Proof.
  induction fs as [|[v n] fs IH]; intros e Hwf Hfs Hroom.
  { exists e. split; [done|]. by apply extends_nil. }
  inversion_clear Hfs as [|?? Hn Hfs']. simpl in Hn.
  change (width (map snd ((v, n) :: fs))) with (n + width (map snd fs)) in Hroom.
  assert (0 <= width (map snd fs)).
  { apply zsum_nonneg. rewrite Forall_map. eapply Forall_impl; [exact Hfs'|]. simpl. intros; lia. }
  cbn [put_fields]. unfold nr_rlc_pdu_encoder_put_bits. rewrite Z.gtb_ltb.
  destruct (Z.ltb_spec 31 n); [lia|].
  destruct (put_bits_loop_spec (Z.to_nat n) v e Hwf) as (e1 & E1 & X1); [lia|].
  rewrite Z2Nat.id in E1 by lia. rewrite E1, res_bind_unfold.
  destruct (IH e1) as (e' & E' & X'); [apply X1|done| |].
  { destruct X1 as (_ & _ & S1 & _ & P1 & _). unfold room in *. rewrite zlen_bits in P1. lia. }
  exists e'. split; [done|]. by eapply extends_trans.
Qed.

Lemma get_fields_spec fs : forall d rest,
  dec_wf d -> Forall field_ok fs -> unread d = field_bits fs ++ rest ->
  exists d', get_fields d (map snd fs) = Ok (map fst fs, d')
    /\ dec_wf d' /\ unread d' = rest /\ dec_buffer d' = dec_buffer d
    /\ 8 * dec_byte d' + dec_bit d' = 8 * dec_byte d + dec_bit d + width (map snd fs).
Proof.
  induction fs as [|[v n] fs IH]; intros d rest Hwf Hfs Hu.
  { exists d. split; [done|]. repeat split; try apply Hwf; try done. unfold width. simpl. lia. }
  inversion_clear Hfs as [|?? [Hn Hv] Hfs']. simpl in Hn, Hv.
  change (width (map snd ((v, n) :: fs))) with (n + width (map snd fs)).
  change (field_bits ((v, n) :: fs)) with (bits (Z.to_nat n) v ++ field_bits fs) in Hu.
  rewrite <- app_assoc in Hu.
  cbn [get_fields map snd fst]. unfold nr_rlc_pdu_decoder_get_bits. rewrite Z.gtb_ltb.
  destruct (Z.ltb_spec 31 n); [lia|].
  destruct (get_bits_loop_spec (Z.to_nat n) 0 d Hwf) as (d1 & E1 & W1 & U1 & B1 & P1).
  { rewrite Hu, length_app, length_bits. lia. }
  rewrite E1, res_bind_unfold. rewrite Hu in U1 |- *.
  rewrite drop_app_length' in U1 by (by rewrite length_bits).
  rewrite take_app_length' by (by rewrite length_bits).
  destruct (IH d1 rest W1 Hfs' U1) as (d' & E' & W' & U' & B' & P').
  rewrite E'. exists d'. split.
  { cbn. rewrite bits_val_id by (rewrite Z2Nat.id by lia; lia). do 2 f_equal. }
  split_and!; try done; [congruence|lia].
Qed.

(** The next field of the buffer, read with its error check. *)
Lemma checked_field {A} d v n rest (x : A) k :
  dec_wf d -> field_ok (v, n) -> unread d = bits (Z.to_nat n) v ++ rest ->
  exists d', checked (nr_rlc_pdu_decoder_get_bits d n) x k = k v d'
    /\ dec_wf d' /\ unread d' = rest /\ dec_buffer d' = dec_buffer d
    /\ 8 * dec_byte d' + dec_bit d' = 8 * dec_byte d + dec_bit d + n.
Proof.
  intros Hwf [Hn Hv] Hu. simpl in Hn, Hv.
  unfold checked, nr_rlc_pdu_decoder_get_bits. rewrite Z.gtb_ltb.
  destruct (Z.ltb_spec 31 n); [lia|].
  destruct (get_bits_loop_spec (Z.to_nat n) 0 d Hwf) as (d1 & E1 & W1 & U1 & B1 & P1).
  { rewrite Hu, length_app, length_bits. lia. }
  exists d1. rewrite E1, res_bind_unfold. rewrite Hu in U1 |- *.
  rewrite drop_app_length' in U1 by (by rewrite length_bits).
  rewrite take_app_length' by (by rewrite length_bits).
  unfold nr_rlc_pdu_decoder_in_error. rewrite (dwf_error _ W1).
  rewrite bits_val_id by (rewrite Z2Nat.id by lia; lia). split_and!; try done; try lia.
Qed.

(** A field that is not there: the decoding ends. *)
Lemma checked_short {A} d n (x : A) k :
  dec_wf d -> n <= 31 -> Z.of_nat (length (unread d)) < n ->
  checked (nr_rlc_pdu_decoder_get_bits d n) x k = Ok x.
Proof.
  intros Hwf Hn Hs. unfold checked, nr_rlc_pdu_decoder_get_bits. rewrite Z.gtb_ltb.
  destruct (Z.ltb_spec 31 n); [lia|].
  destruct (get_bits_loop_short (Z.to_nat n) 0 d Hwf) as (d' & E & He); [lia|].
  rewrite E, res_bind_unfold. unfold nr_rlc_pdu_decoder_in_error. by rewrite He.
Qed.

(** A checked field of any buffer: it is read, or the decoding ends. *)
Lemma checked_cases {A} d n (x : A) k :
  dec_wf d -> 0 < n <= 31 ->
  checked (nr_rlc_pdu_decoder_get_bits d n) x k = Ok x
  \/ exists v d', checked (nr_rlc_pdu_decoder_get_bits d n) x k = k v d'
       /\ nr_rlc_pdu_decoder_get_bits d n = Ok (v, d')
       /\ dec_wf d' /\ 0 <= v < 2 ^ n /\ dec_buffer d' = dec_buffer d
       /\ 8 * dec_byte d' + dec_bit d' = 8 * dec_byte d + dec_bit d + n
       /\ 8 * dec_byte d' + dec_bit d' <= 8 * zlen (dec_buffer d).
Proof.
  intros Hwf Hn. destruct (decide (Z.of_nat (length (unread d)) < n)) as [Hs|Hs].
  { left. apply checked_short; done || lia. }
  right. unfold checked, nr_rlc_pdu_decoder_get_bits. rewrite Z.gtb_ltb.
  destruct (Z.ltb_spec 31 n); [lia|].
  destruct (get_bits_loop_spec (Z.to_nat n) 0 d Hwf) as (d1 & E1 & W1 & U1 & B1 & P1); [lia|].
  eexists _, d1. rewrite E1, res_bind_unfold. unfold nr_rlc_pdu_decoder_in_error.
  rewrite (dwf_error _ W1). split; [done|]. split; [done|]. split; [done|].
  pose proof (bits_val_range (take (Z.to_nat n) (unread d))) as Hr.
  pose proof (length_unread d Hwf) as Hlu. rewrite (dwf_size _ Hwf) in Hlu.
  rewrite zlen_take in Hr.
  replace (Z.min (Z.of_nat (Z.to_nat n)) (zlen (unread d))) with n in Hr by (unfold zlen; lia).
  split_and!; try done; lia.
Qed.

(** A header that fills whole bytes: its bits are the fields, and the bytes
    behind it are untouched. *)
Lemma put_header fs buffer size :
  size <= zlen buffer -> Forall (fun f => 0 <= f.2 <= 31) fs -> (8 | width (map snd fs)) ->
  width (map snd fs) <= 8 * size ->
  exists e, put_fields (nr_rlc_pdu_encoder_init buffer size) fs = Ok e
    /\ enc_byte e = width (map snd fs) / 8 /\ enc_bit e = 0 /\ enc_size e = size
    /\ zlen (enc_buffer e) = zlen buffer
    /\ (forall k, enc_byte e <= Z.of_nat k -> drop k (enc_buffer e) = drop k buffer)
    /\ buffer_bits (take (Z.to_nat (enc_byte e)) (enc_buffer e)) = field_bits fs.
Proof.
  intros Hsize Hw [q Hq] Hroom.
  destruct (put_fields_spec fs (nr_rlc_pdu_encoder_init buffer size)) as (e & E & X);
    [by apply encoder_init_wf|done|unfold room; simpl; lia|].
  destruct X as (We & Bw & Se & Le & Pe & De). simpl in Se, Le, Pe, De.
  assert (Hzl : zlen (field_bits fs) = width (map snd fs)).
  { clear -Hw. induction Hw as [|[v n] fs Hn _ IH]; [done|].
    change (zlen (bits (Z.to_nat n) v ++ field_bits fs) = n + width (map snd fs)).
    simpl in Hn. rewrite zlen_app, zlen_bits. lia. }
  rewrite Hzl, Hq in Pe. pose proof (ewf_bit _ We). pose proof (ewf_byte _ We).
  assert (enc_byte e = q /\ enc_bit e = 0) as [Eq Eb] by lia.
  exists e. rewrite Hq, Z.div_mul by lia. split_and!; try done.
  { intros k Hk. apply De. lia. }
  unfold written in Bw. rewrite Eb in Bw. simpl in Bw. rewrite !app_nil_r in Bw. exact Bw.
Qed.

(** A header that fills whole bytes is read back field by field, whatever the
    buffer held before and whatever follows. *)
Lemma fields_roundtrip fs buffer size :
  size <= zlen buffer -> Forall field_ok fs -> (8 | width (map snd fs)) ->
  width (map snd fs) <= 8 * size ->
  exists e, put_fields (nr_rlc_pdu_encoder_init buffer size) fs = Ok e
    /\ enc_byte e = width (map snd fs) / 8 /\ enc_bit e = 0
    /\ (forall k, enc_byte e <= Z.of_nat k -> drop k (enc_buffer e) = drop k buffer)
    /\ forall tail,
         let hdr := take (Z.to_nat (enc_byte e)) (enc_buffer e) in
         exists d, get_fields (nr_rlc_pdu_decoder_init (hdr ++ tail)) (map snd fs)
                     = Ok (map fst fs, d)
           /\ dec_error d = false /\ dec_byte d = enc_byte e /\ dec_bit d = 0.
Proof.
  intros Hsize Hfs Hdiv Hroom.
  assert (Hw : Forall (fun f : Z * Z => 0 <= f.2 <= 31) fs).
  { eapply Forall_impl; [exact Hfs|]. intros f []; done. }
  destruct (put_header fs buffer size Hsize Hw Hdiv Hroom) as (e & E & Eby & Ebi & _ & _ & Hd & Hb).
  exists e. split_and!; try done. intros tail hdr.
  destruct (get_fields_spec fs (nr_rlc_pdu_decoder_init (hdr ++ tail)) (buffer_bits tail))
    as (d & Ed & Wd & _ & _ & Pd); [apply decoder_init_wf|done| |].
  { rewrite unread_init, buffer_bits_app. by rewrite <- Hb. }
  exists d. simpl in Pd. pose proof (dwf_bit _ Wd). pose proof (dwf_byte _ Wd).
  destruct Hdiv as [q Hq]. rewrite Hq, Z.div_mul in Eby by lia.
  split_and!; try done; [apply Wd|lia|lia].
Qed.

End Codec.

(** ** Tactics on decoding *)

(** The goal reads a field with value [val] from a decoder whose unread bits
    are known. *)
Ltac decode_field val :=
  lazymatch goal with
  | Hwf : Codec.dec_wf ?dec, Hu : Codec.unread ?dec = _
    |- context [Codec.checked (Codec.nr_rlc_pdu_decoder_get_bits ?dec ?len) ?dflt ?cont] =>
      let d' := fresh "d" in let E := fresh "E" in let W := fresh "W" in
      let U := fresh "U" in let P := fresh "P" in let HF := fresh "HF" in let HV := fresh "HV" in
      eassert (HF : Codec.unread dec = bits (Z.to_nat len) val ++ _)
        by (etransitivity; [exact Hu|reflexivity]);
      assert (HV : Codec.field_ok (val, len)) by (split; simpl; lia);
      destruct (Codec.checked_field dec val len _ dflt cont Hwf HV HF)
        as (d' & E & W & U & _ & P);
      rewrite E; clear E HF HV Hwf Hu
  end.

(** Evaluate the tests on the constants that were read. *)
Ltac eval_tests :=
  repeat match goal with
  | |- context [Z.land ?a ?b =? 0] =>
      let v := eval vm_compute in (Z.land a b =? 0) in change (Z.land a b =? 0) with v
  | |- context [Zpos ?a =? Zpos ?b] =>
      let v := eval vm_compute in (Zpos a =? Zpos b) in change (Zpos a =? Zpos b) with v
  | |- context [Z0 =? Zpos ?b] => change (Z0 =? Zpos b) with false
  | |- context [Zpos ?b =? Z0] => change (Zpos b =? Z0) with false
  | |- context [Z0 =? Z0] => change (Z0 =? Z0) with true
  end; cbn [andb orb negb]; cbv iota beta zeta.

(** One field read with [Codec.checked]: the header is discarded, or the value
    and the position are in range. *)
Ltac checked_step v d W Hv P :=
  lazymatch goal with
  | Hwf : Codec.dec_wf ?dec |- context [Codec.checked (Codec.nr_rlc_pdu_decoder_get_bits ?dec ?len) ?x ?k] =>
      let E := fresh "E" in let B := fresh "B" in let Pb := fresh "Pbound" in
      let G := fresh "G" in
      destruct (Codec.checked_cases dec len x k Hwf) as [E|(v & d & E & G & W & Hv & B & P & Pb)];
      [lia|rewrite E; eexists; split; [reflexivity|done]|rewrite E; clear E]
  end.
