(* ===== verification/RlcSdu.v ===== *)
(** * RLC SDUs, SDU segments and their shared store

    Models [nr_rlc_sdu.c] and [nr_rlc_sdu.h].  Several segments point to one
    SDU header, so the SDU headers live in a [store] (a finite map from
    pointers) and segments carry the pointer: reading the header of a freed
    SDU is the fault [Dangling].  Segments are the nodes of the linked lists
    of the entities; a list is the sequence of its nodes, and the tail pointer
    the C code keeps beside a list is the identity of a node.

    [store_ok st l] says that [l] are the live segments of [st]: the reference
    counters of every SDU count them exactly.  The operations preserve it, so
    an SDU is freed with its last segment, never before and never later. *)

From S2P Require Import Prelude.

Abbreviation ptr := nat (only parsing).

Module Sdu.
(** [nr_rlc_sdu_t]. *)
Record t := mk_sdu {
  sn : Z;                    (** [-1] until an SN is assigned *)
  upper_layer_id : Z;
  data : list Z;
  size : Z;
  retx_count : Z;
  ref_count : Z;             (** incremented each time the SDU is segmented *)
  free_count : Z;            (** incremented each time a segment is freed *)
  time_of_arrival : Z        (** unit microsecond *)
}.
End Sdu.

Module Seg.
(** [nr_rlc_sdu_segment_t]; [node] is the address of the segment itself. *)
Record t := mk_seg {
  node : ptr;
  sdu : ptr;
  size : Z;
  so : Z;
  is_first : bool;
  is_last : bool
}.
End Seg.

Module Store.

(** The heap cells the segments of an entity share, and the allocator. *)
Record t := mk_store {
  sdus : gmap ptr Sdu.t;
  fresh : ptr
}.

Definition empty : t := {| sdus := ∅; fresh := O |}.

(** [s->sdu]. *)
Definition deref (st : t) (s : Seg.t) : res Sdu.t := of_option Dangling (sdus st !! Seg.sdu s).

(** [*(s->sdu) = d]. *)
Definition update (st : t) (s : Seg.t) (d : Sdu.t) : t :=
  {| st with sdus := <[Seg.sdu s := d]> (sdus st) |}.

(** ** Operations of [nr_rlc_sdu.c] *)

Definition nr_rlc_new_sdu (st : t) (buffer : list Z) (upper_layer_id : Z) : Seg.t * t :=
  let p := fresh st in
  let sdu := {| Sdu.sn := -1; Sdu.upper_layer_id := upper_layer_id; Sdu.data := buffer;
                Sdu.size := zlen buffer; Sdu.retx_count := -1; Sdu.ref_count := 1;
                Sdu.free_count := 0; Sdu.time_of_arrival := 0 |} in
  ({| Seg.node := S p; Seg.sdu := p; Seg.size := zlen buffer; Seg.so := 0;
      Seg.is_first := true; Seg.is_last := true |},
   {| sdus := <[p := sdu]> (sdus st); fresh := S (S p) |}).

(** Returns [true] if the SDU has been freed too. *)
Definition nr_rlc_free_sdu_segment (st : t) (s : Seg.t) : res (bool * t) :=
  d ← deref st s;
  let d := {| d with Sdu.free_count := Sdu.free_count d + 1 |} in
  if Sdu.free_count d =? Sdu.ref_count d
  then mret (true, {| st with sdus := delete (Seg.sdu s) (sdus st) |})
  else mret (false, update st s d).

(** The nodes of a list up to and including node [p]. *)
Fixpoint upto (p : ptr) (l : list Seg.t) : option (list Seg.t) :=
  match l with
  | [] => None
  | s :: l' => if decide (Seg.node s = p) then Some [s] else cons s <$> upto p l'
  end.

(** Links [s] behind the node the tail pointer designates: whatever followed
    that node is unlinked, and a tail pointer that is not a node of the list is
    stale. *)
Definition nr_rlc_sdu_segment_list_append (l : list Seg.t) (end_ : option ptr) (s : Seg.t)
    : res (list Seg.t * option ptr) :=
  match l with
  | [] => mret ([s], Some (Seg.node s))
  | _ =>
      p ← of_option NullDeref end_;
      kept ← of_option Dangling (upto p l);
      mret (kept ++ [s], Some (Seg.node s))
  end.

Fixpoint nr_rlc_free_sdu_segment_list (st : t) (l : list Seg.t) : res t :=
  match l with
  | [] => mret st
  | s :: l' => '(_, st') ← nr_rlc_free_sdu_segment st s; nr_rlc_free_sdu_segment_list st' l'
  end.

(** ** Reference counting *)

(** Number of segments of [l] that point to the SDU [p]. *)
Definition nrefs (p : ptr) (l : list Seg.t) : Z :=
  zsum (fun s => if decide (Seg.sdu s = p) then 1 else 0) l.

#[global] Arguments nrefs : simpl never.

(** Bytes of all the SDUs of the store. *)
Definition bytes (st : t) : Z := map_fold (fun _ d acc => Sdu.size d + acc) 0 (sdus st).

(** A segment denotes a range of the bytes of its SDU. *)
Definition in_range (d : Sdu.t) (s : Seg.t) : Prop :=
  Sdu.size d = zlen (Sdu.data d) /\ 0 <= Seg.so s /\ 0 <= Seg.size s
  /\ Seg.so s + Seg.size s <= Sdu.size d.

(** [l] are the live segments of [st]. *)
Record store_ok (st : t) (l : list Seg.t) : Prop := {
  ok_live : Forall (fun s => exists d, sdus st !! Seg.sdu s = Some d /\ in_range d s) l;
  ok_refs : forall p d, sdus st !! p = Some d ->
    Sdu.ref_count d - Sdu.free_count d = nrefs p l /\ 0 < nrefs p l;
  ok_fresh_sdu : forall p d, sdus st !! p = Some d -> (p < fresh st)%nat;
  ok_fresh_node : Forall (fun s => (Seg.node s < fresh st)%nat) l;
  ok_nodup : NoDup (map Seg.node l)
}.

(** The order of the live segments is irrelevant. *)
#[global] Instance store_ok_proper : Proper ((=) ==> (≡ₚ) ==> iff) store_ok.
Proof.
  intros st ? <- l1 l2 Hl.
  assert (Himp : forall la lb, la ≡ₚ lb -> store_ok st la -> store_ok st lb).
  { intros la lb Hp [? Hr ? ? ?]. constructor; try done.
    - by rewrite <- Hp.
    - intros p d Hd. unfold nrefs. rewrite <- (zsum_perm _ _ _ Hp). by apply Hr.
    - by rewrite <- Hp.
    - by rewrite <- (fmap_Permutation Seg.node _ _ Hp). }
  split; apply Himp; done.
Qed.

Lemma nrefs_cons p s l :
  nrefs p (s :: l) = (if decide (Seg.sdu s = p) then 1 else 0) + nrefs p l.
Proof. reflexivity. Qed.

Lemma nrefs_nonneg p l : 0 <= nrefs p l.
Proof. apply zsum_nonneg. apply Forall_true. intros s. case_decide; lia. Qed.

Lemma nrefs_0_fresh p l :
  Forall (fun s => Seg.sdu s <> p) l -> nrefs p l = 0.
Proof. induction 1; [done|]. rewrite nrefs_cons. case_decide; [done|lia]. Qed.

Lemma nrefs_0_inv p l : nrefs p l = 0 -> Forall (fun s => Seg.sdu s <> p) l.
Proof.
  induction l as [|s l IH]; constructor; rewrite nrefs_cons in H;
    pose proof (nrefs_nonneg p l); case_decide; try done; try lia. apply IH; lia.
Qed.

Lemma store_ok_empty : store_ok empty [].
Proof. constructor; try done; constructor. Qed.

Lemma bytes_insert_fresh st p d f :
  sdus st !! p = None ->
  bytes {| sdus := <[p := d]> (sdus st); fresh := f |} = bytes st + Sdu.size d.
Proof.
  intros Hp. unfold bytes. simpl.
  rewrite map_fold_insert_L; [lia| |done]. intros. lia.
Qed.

Lemma bytes_delete st p d :
  sdus st !! p = Some d ->
  bytes {| st with sdus := delete p (sdus st) |} = bytes st - Sdu.size d.
Proof.
  intros Hp. unfold bytes. simpl.
  rewrite (map_fold_delete_L _ 0 p d (sdus st)); [lia| |done]. intros. lia.
Qed.

Lemma bytes_update st p d d' :
  sdus st !! p = Some d -> Sdu.size d' = Sdu.size d ->
  bytes {| st with sdus := <[p := d']> (sdus st) |} = bytes st.
Proof.
  intros Hp Hs. pose proof (bytes_delete st p d Hp) as Hd. revert Hd.
  unfold bytes. simpl. rewrite <- insert_delete_eq.
  rewrite map_fold_insert_L; [lia|intros; lia|]. apply lookup_delete_eq.
Qed.

Lemma deref_ok st l s :
  store_ok st l -> s ∈ l -> exists d, deref st s = Ok d /\ sdus st !! Seg.sdu s = Some d
    /\ in_range d s.
Proof.
  intros Hok Hs. destruct (proj1 (Forall_forall _ _) (ok_live _ _ Hok) s Hs) as (d & Hd & Hr).
  exists d. unfold deref. by rewrite Hd.
Qed.

(** A new SDU has one segment, which covers it. *)
Lemma new_sdu_ok st l buffer id s st' :
  store_ok st l -> nr_rlc_new_sdu st buffer id = (s, st') ->
  store_ok st' (s :: l) /\ bytes st' = bytes st + zlen buffer
  /\ Seg.size s = zlen buffer /\ Seg.so s = 0 /\ Seg.is_first s = true /\ Seg.is_last s = true.
Proof.
  intros Hok E. unfold nr_rlc_new_sdu in E. injection E as <- <-.
  assert (Hnew : sdus st !! fresh st = None).
  { destruct (sdus st !! fresh st) eqn:E; [|done].
    pose proof (ok_fresh_sdu _ _ Hok _ _ E). lia. }
  assert (Hother : Forall (fun s => Seg.sdu s <> fresh st) l).
  { eapply Forall_impl; [exact (ok_live _ _ Hok)|]. intros s (d & Hd & _) Heq. congruence. }
  split_and!; try done; [|by rewrite bytes_insert_fresh].
  constructor; simpl.
  - constructor.
    + eexists. rewrite lookup_insert_eq. split; [done|]. unfold in_range. simpl.
      pose proof (zlen_nonneg buffer). lia.
    + rewrite Forall_forall in *. intros s Hs. simpl.
      rewrite lookup_insert_ne by (specialize (Hother s Hs); congruence).
      by apply (proj1 (Forall_forall _ _) (ok_live _ _ Hok)).
  - intros p d Hd. rewrite nrefs_cons. simpl. destruct (decide (fresh st = p)) as [<-|Hne].
    + rewrite lookup_insert_eq in Hd. injection Hd as <-. simpl. rewrite nrefs_0_fresh by done. lia.
    + rewrite lookup_insert_ne in Hd by done. pose proof (ok_refs _ _ Hok p d Hd). lia.
  - intros p d. destruct (decide (fresh st = p)) as [<-|Hne]; [lia|].
    rewrite lookup_insert_ne by done. intros Hd. pose proof (ok_fresh_sdu _ _ Hok _ _ Hd). lia.
  - constructor; [simpl; lia|]. eapply Forall_impl; [exact (ok_fresh_node _ _ Hok)|]. simpl. lia.
  - constructor; [|apply (ok_nodup _ _ Hok)].
    intros Hin. apply list_elem_of_fmap in Hin as (s & Hs & Hin).
    pose proof (proj1 (Forall_forall _ _) (ok_fresh_node _ _ Hok) s Hin). simpl in *. lia.
Qed.

Lemma new_sdu_header st buffer id s st' :
  nr_rlc_new_sdu st buffer id = (s, st') ->
  exists d, sdus st' !! Seg.sdu s = Some d /\ Sdu.size d = zlen buffer /\ Sdu.sn d = -1
    /\ Sdu.upper_layer_id d = id.
Proof.
  unfold nr_rlc_new_sdu. intros [= <- <-]. eexists. simpl. by rewrite lookup_insert_eq.
Qed.

(** Freeing a live segment succeeds, and frees the SDU exactly when no other
    live segment points to it. *)
Lemma free_segment_ok st l s :
  store_ok st (s :: l) ->
  exists b st' d, nr_rlc_free_sdu_segment st s = Ok (b, st') /\ store_ok st' l
    /\ sdus st !! Seg.sdu s = Some d
    /\ (b = true <-> nrefs (Seg.sdu s) l = 0)
    /\ bytes st' = bytes st - (if b then Sdu.size d else 0)
    /\ fresh st' = fresh st
    /\ (forall p, p <> Seg.sdu s -> sdus st' !! p = sdus st !! p)
    /\ (if b then sdus st' !! Seg.sdu s = None
        else sdus st' !! Seg.sdu s = Some {| d with Sdu.free_count := Sdu.free_count d + 1 |}).
Proof.
  intros Hok. destruct (deref_ok _ _ s Hok) as (d & Hd & Hlk & Hr); [left|].
  pose proof (ok_refs _ _ Hok _ _ Hlk) as [Hcnt _]. rewrite nrefs_cons, decide_True in Hcnt by done.
  pose proof (nrefs_nonneg (Seg.sdu s) l) as Hnn.
  unfold nr_rlc_free_sdu_segment. rewrite Hd, res_bind_unfold. simpl.
  inversion_clear Hok as [Hlive Hrefs Hfs Hfn Hnd]. apply Forall_cons in Hlive as [_ Hlive].
  apply Forall_cons in Hfn as [_ Hfn]. apply NoDup_cons in Hnd as [_ Hnd].
  destruct (Z.eqb_spec (Sdu.free_count d + 1) (Sdu.ref_count d)) as [Heq|Hne].
  - eexists true, _, d. split; [reflexivity|].
    assert (H0 : nrefs (Seg.sdu s) l = 0) by lia.
    pose proof (nrefs_0_inv _ _ H0) as Hno.
    split_and!; try done.
    + constructor; simpl; try done.
      * rewrite Forall_forall in *. intros x Hx. destruct (Hlive x Hx) as (dx & ? & ?).
        exists dx. rewrite lookup_delete_ne by (specialize (Hno x Hx); congruence). done.
      * intros p dp Hp. destruct (decide (Seg.sdu s = p)) as [<-|Hp'].
        { by rewrite lookup_delete_eq in Hp. }
        rewrite lookup_delete_ne in Hp by done. pose proof (Hrefs _ _ Hp) as Hrp.
        rewrite nrefs_cons, decide_False in Hrp by done. lia.
      * intros p dp Hp. apply lookup_delete_Some in Hp as [_ Hp]. eauto.
    + by rewrite (bytes_delete st _ d).
    + intros p Hp. simpl. by rewrite lookup_delete_ne.
    + simpl. apply lookup_delete_eq.
  - eexists false, _, d. split; [reflexivity|]. split_and!; try done.
    + constructor; simpl; try done.
      * rewrite Forall_forall in *. intros x Hx. destruct (Hlive x Hx) as (dx & Hdx & Hrx).
        destruct (decide (Seg.sdu s = Seg.sdu x)) as [Heq|Hne'].
        { rewrite Heq, lookup_insert_eq. eexists. split; [done|].
          assert (dx = d) as -> by congruence. exact Hrx. }
        rewrite lookup_insert_ne by done. eauto.
      * intros p dp Hp. destruct (decide (Seg.sdu s = p)) as [<-|Hp'].
        { rewrite lookup_insert_eq in Hp. injection Hp as <-. simpl. lia. }
        rewrite lookup_insert_ne in Hp by done. pose proof (Hrefs _ _ Hp) as Hrp.
        rewrite nrefs_cons, decide_False in Hrp by done. lia.
      * intros p dp Hp. destruct (decide (Seg.sdu s = p)) as [<-|Hp']; [eauto|].
        rewrite lookup_insert_ne in Hp by done. eauto.
    + split; [done|]. lia.
    + unfold update. rewrite (bytes_update st (Seg.sdu s) d) by done. lia.
    + intros p Hp. simpl. by rewrite lookup_insert_ne.
    + simpl. apply lookup_insert_eq.
Qed.

(** Freeing all the live segments empties the store. *)
Lemma free_list_ok l : forall st rest,
  store_ok st (l ++ rest) ->
  exists st', nr_rlc_free_sdu_segment_list st l = Ok st' /\ store_ok st' rest.
Proof.
  induction l as [|s l IH]; intros st rest Hok; [by eexists|].
  destruct (free_segment_ok st (l ++ rest) s Hok) as (b & st1 & d & E & Hok1 & _).
  cbn [nr_rlc_free_sdu_segment_list]. rewrite E, res_bind_unfold. by apply IH.
Qed.

Lemma store_ok_nil st : store_ok st [] -> sdus st = ∅.
Proof.
  intros Hok. apply map_empty. intros p. destruct (sdus st !! p) as [d|] eqn:E; [|done].
  pose proof (ok_refs _ _ Hok p d E) as [_ H]. unfold nrefs in H. simpl in H. lia.
Qed.

(** ** Tail pointers *)

(** The identity of the last node, which the tail pointer has to be. *)
Definition tail_of (l : list Seg.t) : option ptr := Seg.node <$> last l.

Lemma upto_last l s :
  NoDup (map Seg.node (l ++ [s])) -> upto (Seg.node s) (l ++ [s]) = Some (l ++ [s]).
Proof.
  induction l as [|x l IH]; simpl; intros Hnd; [by rewrite decide_True|].
  apply NoDup_cons in Hnd as [Hni Hnd]. rewrite decide_False.
  - by rewrite IH.
  - intros Heq. apply Hni. rewrite Heq, map_app. apply elem_of_app. right. left.
Qed.

Lemma append_ok l s :
  NoDup (map Seg.node l) ->
  nr_rlc_sdu_segment_list_append l (tail_of l) s = Ok (l ++ [s], Some (Seg.node s)).
Proof.
  intros Hnd. destruct l as [|x l] using rev_ind; [done|]. clear IHl.
  unfold nr_rlc_sdu_segment_list_append, tail_of. rewrite last_snoc. simpl.
  destruct (l ++ [x]) as [|y k] eqn:E; [destruct l; discriminate|]. rewrite <- E in *.
  by rewrite upto_last.
Qed.

Lemma tail_of_snoc l s : tail_of (l ++ [s]) = Some (Seg.node s).
Proof. unfold tail_of. by rewrite last_snoc. Qed.

Lemma tail_of_cons s l : l <> [] -> tail_of (s :: l) = tail_of l.
Proof. intros. by destruct l. Qed.

(** Taking the head off the list, or putting a new head in front of it, keeps
    the tail pointer right. *)
Lemma tail_of_tail s rest :
  match rest with [] => None | _ => tail_of (s :: rest) end = tail_of rest.
Proof. by destruct rest. Qed.

Lemma tail_of_push (rest : list Seg.t) s :
  match tail_of rest with None => Some (Seg.node s) | end_ => end_ end
  = tail_of (s :: rest).
Proof.
  destruct rest as [|x rest] using rev_ind; [done|].
  rewrite tail_of_cons by (by destruct rest). by rewrite tail_of_snoc.
Qed.

(** ** Segmentation *)

(** What [resegment] does to a segment and to its SDU: the segment keeps its
    first [n] bytes, a new segment covers the others, and the SDU has one more
    reference. *)
Definition shrink (s : Seg.t) (n : Z) : Seg.t :=
  {| s with Seg.size := n; Seg.is_last := false |}.

Definition remainder (st : t) (s : Seg.t) (n : Z) : Seg.t :=
  {| s with Seg.node := fresh st; Seg.size := Seg.size s - n; Seg.so := Seg.so s + n;
            Seg.is_first := false |}.

Definition add_ref (st : t) (s : Seg.t) (d : Sdu.t) : t :=
  {| sdus := <[Seg.sdu s := {| d with Sdu.ref_count := Sdu.ref_count d + 1 |}]> (sdus st);
     fresh := S (fresh st) |}.

Lemma split_ok st l s d n :
  store_ok st (s :: l) -> sdus st !! Seg.sdu s = Some d -> 0 <= n <= Seg.size s ->
  store_ok (add_ref st s d) (shrink s n :: remainder st s n :: l)
  /\ bytes (add_ref st s d) = bytes st.
Proof.
  intros [Hlive Hrefs Hfs Hfn Hnd] Hd Hn. split.
  2: { unfold add_ref. rewrite <- (bytes_update st (Seg.sdu s) d
         {| d with Sdu.ref_count := Sdu.ref_count d + 1 |}) by done. done. }
  apply Forall_cons in Hlive as [(d0 & Hd0 & Hr) Hlive].
  assert (d0 = d) as -> by congruence. unfold in_range in Hr.
  apply Forall_cons in Hfn as [Hfs0 Hfn].
  assert (Hlk : forall x : Seg.t, (exists dx, sdus st !! Seg.sdu x = Some dx /\ in_range dx x) ->
    exists dx, sdus (add_ref st s d) !! Seg.sdu x = Some dx /\ in_range dx x).
  { intros x (dx & Hdx & Hrx). unfold add_ref. simpl.
    destruct (decide (Seg.sdu s = Seg.sdu x)) as [Heq|Hne].
    - rewrite Heq, lookup_insert_eq. eexists. split; [done|].
      assert (dx = d) as -> by congruence. exact Hrx.
    - rewrite lookup_insert_ne by done. eauto. }
  constructor.
  - rewrite !Forall_cons; split_and!.
    + apply Hlk. exists d. split; [done|]. unfold in_range, shrink. simpl. lia.
    + apply Hlk. exists d. split; [done|]. unfold in_range, remainder. simpl. lia.
    + eapply Forall_impl; [exact Hlive|]. exact Hlk.
  - intros p dp Hp. rewrite !nrefs_cons. simpl. unfold add_ref in Hp. simpl in Hp.
    destruct (decide (Seg.sdu s = p)) as [<-|Hne].
    + rewrite lookup_insert_eq in Hp. injection Hp as <-. simpl.
      pose proof (Hrefs _ _ Hd) as Hc. rewrite nrefs_cons, decide_True in Hc by done. lia.
    + rewrite lookup_insert_ne in Hp by done. pose proof (Hrefs _ _ Hp) as Hc.
      rewrite nrefs_cons, decide_False in Hc by done. lia.
  - intros p dp Hp. unfold add_ref in *. simpl in *.
    destruct (decide (Seg.sdu s = p)) as [<-|Hne]; [pose proof (Hfs _ _ Hd); lia|].
    rewrite lookup_insert_ne in Hp by done. pose proof (Hfs _ _ Hp). lia.
  - unfold add_ref. simpl. rewrite !Forall_cons; split_and!; simpl; [lia|lia|].
    eapply Forall_impl; [exact Hfn|]. simpl. lia.
  - simpl. apply NoDup_cons in Hnd as [Hni Hnd]. apply NoDup_cons. split.
    { intros Hin. apply elem_of_cons in Hin as [Heq|Hin]; [|done]. lia. }
    apply NoDup_cons. split; [|done]. intros Hin.
    apply list_elem_of_fmap in Hin as (x & Hx & Hin).
    pose proof (proj1 (Forall_forall _ _) Hfn x Hin). simpl in *. lia.
Qed.

(** ** Updates of other header fields *)

(** Two headers with the same bytes and the same reference counters. *)
Definition same_refs (d d' : Sdu.t) : Prop :=
  Sdu.data d' = Sdu.data d /\ Sdu.size d' = Sdu.size d
  /\ Sdu.ref_count d' = Sdu.ref_count d /\ Sdu.free_count d' = Sdu.free_count d.

Lemma update_ok st l s d d' :
  store_ok st l -> sdus st !! Seg.sdu s = Some d -> same_refs d d' ->
  store_ok (update st s d') l /\ bytes (update st s d') = bytes st.
Proof.
  intros [Hlive Hrefs Hfs Hfn Hnd] Hd (Hdt & Hsz & Hrc & Hfc). split.
  2: by apply (bytes_update st (Seg.sdu s) d).
  constructor; unfold update; simpl; try done.
  - eapply Forall_impl; [exact Hlive|]. intros x (dx & Hdx & Hr).
    destruct (decide (Seg.sdu s = Seg.sdu x)) as [Heq|Hne].
    + rewrite Heq, lookup_insert_eq. exists d'. split; [done|].
      assert (dx = d) as -> by congruence. unfold in_range in *. by rewrite Hdt, Hsz.
    + rewrite lookup_insert_ne by done. eauto.
  - intros p dp Hp. destruct (decide (Seg.sdu s = p)) as [<-|Hne].
    + rewrite lookup_insert_eq in Hp. injection Hp as <-. rewrite Hrc, Hfc. by apply Hrefs.
    + rewrite lookup_insert_ne in Hp by done. by apply Hrefs.
  - intros p dp Hp. destruct (decide (Seg.sdu s = p)) as [<-|Hne]; [by eapply Hfs|].
    rewrite lookup_insert_ne in Hp by done. by eapply Hfs.
Qed.

(** The bytes a segment stands for. *)
Definition seg_bytes (st : t) (s : Seg.t) : list Z :=
  match sdus st !! Seg.sdu s with
  | Some d => take (Z.to_nat (Seg.size s)) (drop (Z.to_nat (Seg.so s)) (Sdu.data d))
  | None => []
  end.

(** A store whose SDUs still have the bytes they had in another one. *)
Definition same_data (st st' : t) (l : list Seg.t) : Prop :=
  Forall (fun s => seg_bytes st' s = seg_bytes st s) l.

Lemma same_data_lookup st st' l :
  (forall s, s ∈ l -> Sdu.data <$> sdus st' !! Seg.sdu s = Sdu.data <$> sdus st !! Seg.sdu s) ->
  same_data st st' l.
Proof.
  intros H. apply Forall_forall. intros s Hs. specialize (H s Hs). unfold seg_bytes.
  destruct (sdus st' !! Seg.sdu s), (sdus st !! Seg.sdu s); simpl in H; try done.
  by injection H as ->.
Qed.

Lemma free_same_data st s l b st' :
  store_ok st (s :: l) -> nr_rlc_free_sdu_segment st s = Ok (b, st') -> same_data st st' l.
Proof.
  intros Hok E. destruct (free_segment_ok st l s Hok)
    as (b1 & st1 & d & E1 & Hok1 & Hd & Hb & _ & _ & Hne & Heq).
  rewrite E1 in E. injection E as -> ->. apply same_data_lookup. intros x Hx.
  destruct (decide (Seg.sdu x = Seg.sdu s)) as [Hxs|Hxs]; [|by rewrite Hne].
  rewrite Hxs, Hd. destruct b; [|by rewrite Heq].
  destruct (deref_ok _ _ x Hok1 Hx) as (dx & _ & Hdx & _). rewrite Hxs, Heq in Hdx. done.
Qed.

Lemma update_same_data st s d d' l :
  sdus st !! Seg.sdu s = Some d -> same_refs d d' -> same_data st (update st s d') l.
Proof.
  intros Hd (Hdt & _). apply same_data_lookup. intros x _. unfold update. simpl.
  destruct (decide (Seg.sdu s = Seg.sdu x)) as [Heq|Hne].
  - rewrite Heq, lookup_insert_eq, <- Heq, Hd. simpl. by rewrite Hdt.
  - by rewrite lookup_insert_ne.
Qed.

Lemma new_sdu_same_data st l buffer id s st' :
  store_ok st l -> nr_rlc_new_sdu st buffer id = (s, st') ->
  same_data st st' l /\ seg_bytes st' s = buffer.
Proof.
  intros Hok E. unfold nr_rlc_new_sdu in E. injection E as <- <-. split.
  - apply same_data_lookup. intros x Hx. simpl.
    destruct (deref_ok _ _ x Hok Hx) as (dx & _ & Hdx & _).
    pose proof (ok_fresh_sdu _ _ Hok _ _ Hdx). by rewrite lookup_insert_ne by lia.
  - unfold seg_bytes. simpl. rewrite lookup_insert_eq. simpl. rewrite drop_0.
    apply take_ge. unfold zlen. lia.
Qed.

(** Every segment of [l] still has its SDU header, related by [R] to the one it
    had. *)
Definition related (R : Sdu.t -> Sdu.t -> Prop) (st st' : t) (l : list Seg.t) : Prop :=
  Forall (fun s => exists d d', sdus st !! Seg.sdu s = Some d
                   /\ sdus st' !! Seg.sdu s = Some d' /\ R d d') l.

(** Headers with the same bytes; headers with the same bytes, SN and identity. *)
Definition same_bytes (d d' : Sdu.t) : Prop :=
  Sdu.data d' = Sdu.data d /\ Sdu.size d' = Sdu.size d.

Definition same_hdr (d d' : Sdu.t) : Prop :=
  same_bytes d d' /\ Sdu.sn d' = Sdu.sn d /\ Sdu.upper_layer_id d' = Sdu.upper_layer_id d.

Lemma related_impl (R1 R2 : Sdu.t -> Sdu.t -> Prop) st st' l :
  (forall d d', R1 d d' -> R2 d d') -> related R1 st st' l -> related R2 st st' l.
Proof.
  intros HR H. eapply Forall_impl; [exact H|]. intros s (d & d' & ? & ? & ?). exists d, d'. auto.
Qed.

Lemma related_bytes st st' l : related same_hdr st st' l -> related same_bytes st st' l.
Proof. apply related_impl. by intros ?? []. Qed.

Lemma related_trans (R : Sdu.t -> Sdu.t -> Prop) st1 st2 st3 l :
  Transitive R -> related R st1 st2 l -> related R st2 st3 l -> related R st1 st3 l.
Proof.
  intros HR H1 H2. unfold related in *. rewrite Forall_forall in *. intros s Hs.
  destruct (H1 s Hs) as (d1 & d2 & L1 & L2 & R12), (H2 s Hs) as (d2' & d3 & L2' & L3 & R23).
  exists d1, d3. split_and!; try done. assert (d2' = d2) as -> by congruence. by transitivity d2.
Qed.

#[global] Instance same_bytes_trans : Transitive same_bytes.
Proof. intros ??? [] []. split; congruence. Qed.

#[global] Instance same_hdr_trans : Transitive same_hdr.
Proof. intros ??? [? []] [? []]. split; [by etransitivity|]. split; congruence. Qed.

Lemma related_sub R st st' l l' : l' ⊆ l -> related R st st' l -> related R st st' l'.
Proof. intros Hs H. unfold related in *. rewrite Forall_forall in *. auto. Qed.

Lemma related_same_data st st' l : related same_bytes st st' l -> same_data st st' l.
Proof.
  intros H. eapply Forall_impl; [exact H|]. intros s (d & d' & L & L' & Hd & _).
  unfold seg_bytes. by rewrite L, L', Hd.
Qed.

Lemma free_related st s l b st' :
  store_ok st (s :: l) -> nr_rlc_free_sdu_segment st s = Ok (b, st') -> related same_hdr st st' l.
Proof.
  intros Hok E. destruct (free_segment_ok st l s Hok)
    as (b1 & st1 & d & E1 & Hok1 & Hd & Hb & _ & _ & Hne & Heq).
  rewrite E1 in E. injection E as -> ->. apply Forall_forall. intros x Hx.
  destruct (deref_ok _ _ x Hok1 Hx) as (dx & _ & Hdx & _).
  destruct (deref_ok _ _ x Hok ltac:(by right)) as (dx0 & _ & Hdx0 & _).
  exists dx0, dx. split_and!; try done.
  destruct (decide (Seg.sdu x = Seg.sdu s)) as [Hxs|Hxs].
  - rewrite Hxs in *. destruct b; rewrite Heq in Hdx; [done|]. by simplify_eq.
  - rewrite Hne in Hdx by done. by simplify_eq.
Qed.

Lemma update_related (R : Sdu.t -> Sdu.t -> Prop) st s d d' l :
  Reflexive R -> store_ok st l -> sdus st !! Seg.sdu s = Some d -> R d d' ->
  related R st (update st s d') l.
Proof.
  intros Hrefl Hok Hd HR. apply Forall_forall. intros x Hx.
  destruct (deref_ok _ _ x Hok Hx) as (dx & _ & Hdx & _). unfold update. simpl.
  destruct (decide (Seg.sdu s = Seg.sdu x)) as [Heq|Hne].
  - exists d, d'. rewrite <- Heq. split_and!; [done|by rewrite lookup_insert_eq|done].
  - exists dx, dx. split_and!; [done|by rewrite lookup_insert_ne|reflexivity].
Qed.

#[global] Instance same_bytes_refl : Reflexive same_bytes.
Proof. done. Qed.

#[global] Instance same_hdr_refl : Reflexive same_hdr.
Proof. done. Qed.

Lemma new_sdu_related st l buffer id s st' :
  store_ok st l -> nr_rlc_new_sdu st buffer id = (s, st') -> related same_hdr st st' l.
Proof.
  intros Hok E. unfold nr_rlc_new_sdu in E. injection E as <- <-. apply Forall_forall.
  intros x Hx. destruct (deref_ok _ _ x Hok Hx) as (dx & _ & Hdx & _). exists dx, dx.
  pose proof (ok_fresh_sdu _ _ Hok _ _ Hdx). simpl. by rewrite lookup_insert_ne by lia.
Qed.

Lemma add_ref_related st s d l :
  store_ok st l -> sdus st !! Seg.sdu s = Some d -> related same_hdr st (add_ref st s d) l.
Proof.
  intros Hok Hd.
  by apply (update_related same_hdr st s d {| d with Sdu.ref_count := Sdu.ref_count d + 1 |} l).
Qed.

(** Segmentation splits the bytes. *)
Lemma shrink_bytes st s d n :
  sdus st !! Seg.sdu s = Some d -> 0 <= n <= Seg.size s ->
  seg_bytes (add_ref st s d) (shrink s n) = take (Z.to_nat n) (seg_bytes st s).
Proof.
  intros Hd Hn. unfold seg_bytes, add_ref, shrink. simpl. rewrite lookup_insert_eq, Hd. simpl.
  rewrite take_take. f_equal. lia.
Qed.

Lemma remainder_bytes st s d n :
  sdus st !! Seg.sdu s = Some d -> 0 <= n <= Seg.size s -> 0 <= Seg.so s ->
  seg_bytes (add_ref st s d) (remainder st s n) = drop (Z.to_nat n) (seg_bytes st s).
Proof.
  intros Hd Hn Hso. unfold seg_bytes, add_ref, remainder. simpl. rewrite lookup_insert_eq, Hd. simpl.
  replace (Z.to_nat (Seg.so s + n)) with (Z.to_nat (Seg.so s) + Z.to_nat n)%nat by lia.
  rewrite <- drop_drop.
  replace (Z.to_nat (Seg.size s)) with (Z.to_nat n + Z.to_nat (Seg.size s - n))%nat by lia.
  by rewrite <- take_drop_commute.
Qed.

Lemma zlen_seg_bytes st l s : store_ok st l -> s ∈ l -> zlen (seg_bytes st s) = Seg.size s.
Proof.
  intros Hok Hs. destruct (deref_ok _ _ s Hok Hs) as (d & _ & Hd & Hr).
  unfold seg_bytes. rewrite Hd. unfold in_range in Hr. autorewrite with rlc_len. lia.
Qed.

End Store.
