(* ===== verification/RlcRxManager.v ===== *)
(** * RLC AM reception window

    Models [nr_rlc_rx_manager.c] and [nr_rlc_rx_manager.h]: a circular buffer
    with one slot per sequence number of the reception window; a slot holds the
    received segments of that SDU ordered by segment offset.

    [window m] is the abstract state: the list of slots from [sn_start] on.
    Every operation on the circular buffer is the obvious operation on that
    list ([get_spec], [set_slot_spec], [slide_spec]), which is what the AM entity
    relies on. *)

From S2P Require Import Prelude RlcPdu.

Module RxManager.

(** [nr_rlc_rx_manager_t]; a slot that holds [NULL] is the empty list. *)
Record t := mk_rx_manager {
  rx_list : list (list Pdu.nr_rlc_pdu_t);
  size : Z;
  start : Z;
  sn_start : Z
}.

Definition nr_rlc_new_rx_manager (size : Z) : t :=
  {| rx_list := replicate (Z.to_nat size) []; size := size; start := 0; sn_start := 0 |}.

(** The segments are freed and every slot is set to [NULL]. *)
Definition nr_rlc_clear_rx_manager (m : t) : t :=
  {| m with rx_list := replicate (Z.to_nat (size m)) []; start := 0; sn_start := 0 |}.

(** C's [%] is the truncated remainder. *)
Definition get_pos (m : t) (sn : Z) : Z :=
  Z.rem (start m + (sn - sn_start m + size m * 2)) (size m).

Definition nr_rlc_rx_manager_get_pdu_from_sn (m : t) (sn : Z) : res (list Pdu.nr_rlc_pdu_t) :=
  zget (rx_list m) (get_pos m sn).

(** Stores a slot; [nr_rlc_rx_manager_clear_pdu] stores [NULL]. *)
Definition set_slot (m : t) (sn : Z) (l : list Pdu.nr_rlc_pdu_t) : res t :=
  rl ← zset (rx_list m) (get_pos m sn) l; mret {| m with rx_list := rl |}.

Definition nr_rlc_rx_manager_clear_pdu (m : t) (sn : Z) : res t := set_slot m sn [].

Definition nr_rlc_rx_manager_advance (m : t) (count : Z) : t :=
  {| m with start := Z.rem (start m + count) (size m) |}.

Definition nr_rlc_rx_manager_set_start (m : t) (sn_start : Z) : t :=
  {| m with sn_start := sn_start |}.

(** Order by 'so'. *)
Definition nr_rlc_rx_manager_add_pdu (m : t) (pdu : Pdu.nr_rlc_pdu_t) : res t :=
  cur ← nr_rlc_rx_manager_get_pdu_from_sn m (Pdu.sn pdu);
  set_slot m (Pdu.sn pdu)
    (Pdu.insert_before (fun c => Pdu.so c >? Pdu.so pdu) pdu cur).

(** ** The sliding window *)

(** Sequence numbers have one bit more than window positions. *)
Record wf (m : t) : Prop := {
  wf_size : 0 < size m;
  wf_len : zlen (rx_list m) = size m;
  wf_start : 0 <= start m < size m;
  wf_sn_start : 0 <= sn_start m < 2 * size m
}.

(** The slots, from the one of [sn_start] on. *)
Definition window (m : t) : list (list Pdu.nr_rlc_pdu_t) :=
  rotate (Z.to_nat (start m)) (rx_list m).

(** Distance of an SN from the start of the window. *)
Definition offset (m : t) (sn : Z) : Z := (sn - sn_start m) mod (2 * size m).

(** The index of the slot that serves an SN.  SNs at distance [size] share it. *)
Definition slot (m : t) (sn : Z) : nat := Z.to_nat (offset m sn mod size m).

Definition is_sn (m : t) (sn : Z) : Prop := 0 <= sn < 2 * size m.

Definition in_window (m : t) (sn : Z) : Prop := is_sn m sn /\ offset m sn < size m.

Lemma length_window m : wf m -> Z.of_nat (length (window m)) = size m.
Proof. intros Hwf. unfold window. rewrite length_rotate. apply (wf_len _ Hwf). Qed.

Lemma slot_lt m sn : wf m -> (slot m sn < length (window m))%nat.
Proof.
  intros Hwf. pose proof (length_window m Hwf). pose proof (wf_size _ Hwf). unfold slot.
  pose proof (Z.mod_pos_bound (offset m sn) (size m)). lia.
Qed.

Lemma slot_in_window m sn : wf m -> in_window m sn -> slot m sn = Z.to_nat (offset m sn).
Proof.
  intros Hwf [_ Ho]. unfold slot. rewrite Z.mod_small; [done|].
  pose proof (wf_size _ Hwf). pose proof (Z.mod_pos_bound (sn - sn_start m) (2 * size m)).
  unfold offset in *. lia.
Qed.

(** Distinct SNs of the window have distinct slots. *)
Lemma slot_inj m sn1 sn2 :
  wf m -> in_window m sn1 -> in_window m sn2 -> slot m sn1 = slot m sn2 -> sn1 = sn2.
Proof.
  intros Hwf H1 H2. rewrite !slot_in_window by done. unfold offset.
  destruct H1 as [? _], H2 as [? _]. pose proof (wf_size _ Hwf).
  pose proof (Z.mod_pos_bound (sn1 - sn_start m) (2 * size m)).
  pose proof (Z.mod_pos_bound (sn2 - sn_start m) (2 * size m)).
  intros Heq. apply (sub_mod_inj (2 * size m) sn1 sn2 (sn_start m)); unfold is_sn in *; lia.
Qed.

(** The index computed by [get_pos] is the rotated slot. *)
Lemma get_pos_slot m sn :
  wf m -> is_sn m sn ->
  0 <= get_pos m sn /\
  Z.to_nat (get_pos m sn) = rotate_nat_add (Z.to_nat (start m)) (slot m sn) (length (rx_list m)).
Proof.
  intros [Hs Hl Hst Hsn] Hin. unfold get_pos, is_sn in *.
  rewrite Z.rem_mod_nonneg by lia.
  pose proof (Z.mod_pos_bound (start m + (sn - sn_start m + size m * 2)) (size m) Hs).
  split; [lia|]. unfold rotate_nat_add. f_equal. unfold zlen in Hl. rewrite Hl.
  unfold slot. rewrite !Z2Nat.id by (try apply Z.mod_pos_bound; lia).
  rewrite Z.add_mod_idemp_r by lia.
  unfold offset. rewrite (Z.mod_eq (sn - sn_start m) (2 * size m)) by lia.
  set (q := (sn - sn_start m) / (2 * size m)).
  replace (start m + (sn - sn_start m - 2 * size m * q))
    with (start m + (sn - sn_start m + size m * 2) + (- 2 * q - 2) * size m) by ring.
  by rewrite Z.mod_add by lia.
Qed.

Lemma get_spec m sn :
  wf m -> is_sn m sn ->
  exists l, nr_rlc_rx_manager_get_pdu_from_sn m sn = Ok l /\ window m !! slot m sn = Some l.
Proof.
  intros Hwf Hsn. destruct (lookup_lt_is_Some_2 _ _ (slot_lt m sn Hwf)) as [l Hl].
  exists l. split; [|done]. unfold nr_rlc_rx_manager_get_pdu_from_sn.
  destruct (get_pos_slot m sn Hwf Hsn) as [Hp Hpos].
  apply zget_ok. split; [done|]. rewrite Hpos.
  rewrite <- (lookup_rotate_r (rx_list m) _ (slot m sn)); [done|].
  pose proof (slot_lt m sn Hwf). unfold window in *. by rewrite length_rotate in *.
Qed.

Lemma set_slot_spec m sn l :
  wf m -> is_sn m sn ->
  exists m', set_slot m sn l = Ok m' /\ wf m' /\ window m' = <[slot m sn := l]> (window m)
    /\ size m' = size m /\ sn_start m' = sn_start m /\ start m' = start m.
Proof.
  intros Hwf Hsn. destruct (get_pos_slot m sn Hwf Hsn) as [Hp Hpos].
  pose proof (slot_lt m sn Hwf) as Hlt. unfold window in Hlt. rewrite length_rotate in Hlt.
  unfold set_slot. rewrite zset_ok, res_bind_unfold.
  - eexists. split; [reflexivity|]. destruct Hwf as [? Hl ? ?]. split_and!; simpl; try done.
    + constructor; simpl; try done. by rewrite zlen_insert.
    + unfold window. simpl. rewrite Hpos. by rewrite rotate_insert_l.
  - split; [done|]. unfold get_pos. rewrite Z.rem_mod_nonneg.
    + rewrite (wf_len _ Hwf). apply Z.mod_pos_bound, Hwf.
    + destruct Hwf, Hsn. lia.
    + apply Hwf.
Qed.

(** Sliding the window by [count] slots. *)
Lemma slide_spec m count sn :
  wf m -> 0 <= count <= size m -> 0 <= sn < 2 * size m ->
  let m' := nr_rlc_rx_manager_set_start (nr_rlc_rx_manager_advance m count) sn in
  wf m' /\ window m' = rotate (Z.to_nat count) (window m) /\ size m' = size m
  /\ sn_start m' = sn.
Proof.
  intros [Hs Hl Hst Hsn] Hc Hsn' m'. unfold m'. simpl.
  assert (Hr : Z.rem (start m + count) (size m) = (start m + count) mod size m).
  { apply Z.rem_mod_nonneg; lia. }
  pose proof (Z.mod_pos_bound (start m + count) (size m) Hs).
  split_and!; try done.
  { constructor; simpl; try done; rewrite ?Hr; lia. }
  unfold window. simpl. rewrite Hr. apply list_eq. intros i.
  destruct (decide (i < length (rx_list m))%nat) as [Hi|Hi].
  2: { rewrite !lookup_ge_None_2 by (rewrite ?length_rotate; lia). done. }
  rewrite !lookup_rotate_r by (rewrite ?length_rotate; lia). rewrite length_rotate.
  rewrite lookup_rotate_r.
  2: { unfold rotate_nat_add. pose proof (Z.mod_pos_bound
         (Z.of_nat (Z.to_nat count) + Z.of_nat i) (Z.of_nat (length (rx_list m)))). lia. }
  f_equal. unfold rotate_nat_add. f_equal.
  unfold zlen in Hl. rewrite Hl, !Z2Nat.id by (try apply Z.mod_pos_bound; lia).
  rewrite Z.add_mod_idemp_l, Z.add_mod_idemp_r by lia. f_equal. lia.
Qed.

Lemma new_spec n :
  0 < n -> wf (nr_rlc_new_rx_manager n)
  /\ window (nr_rlc_new_rx_manager n) = replicate (Z.to_nat n) [].
Proof.
  intros. split.
  - constructor; simpl; try lia. unfold zlen. rewrite length_replicate. lia.
  - unfold window. simpl. apply rotate_replicate.
Qed.

Lemma clear_manager_spec m :
  wf m -> wf (nr_rlc_clear_rx_manager m)
  /\ window (nr_rlc_clear_rx_manager m) = replicate (Z.to_nat (size m)) [].
Proof.
  intros [Hs _ _ _]. split.
  - constructor; simpl; try lia. unfold zlen. rewrite length_replicate. lia.
  - unfold window. simpl. apply rotate_replicate.
Qed.

(** A PDU that was added is found, and only its slot changes. *)
Lemma add_get m pdu :
  wf m -> in_window m (Pdu.sn pdu) ->
  exists m' l, nr_rlc_rx_manager_get_pdu_from_sn m (Pdu.sn pdu) = Ok l
    /\ nr_rlc_rx_manager_add_pdu m pdu = Ok m' /\ wf m'
    /\ nr_rlc_rx_manager_get_pdu_from_sn m' (Pdu.sn pdu)
       = Ok (Pdu.insert_before (fun c => Pdu.so c >? Pdu.so pdu) pdu l)
    /\ forall sn, in_window m sn -> sn <> Pdu.sn pdu ->
         nr_rlc_rx_manager_get_pdu_from_sn m' sn = nr_rlc_rx_manager_get_pdu_from_sn m sn.
Proof.
  intros Hwf Hin. destruct (get_spec m (Pdu.sn pdu) Hwf (proj1 Hin)) as (l & El & _).
  unfold nr_rlc_rx_manager_add_pdu. rewrite El, res_bind_unfold.
  set (l' := Pdu.insert_before _ pdu l).
  destruct (set_slot_spec m (Pdu.sn pdu) l' Hwf (proj1 Hin)) as (m' & E & Hwf' & Hw & Hs & Hn & _).
  exists m', l. split; [done|]. split; [done|]. split; [done|].
  assert (Hslot : forall a, slot m' a = slot m a) by (intros; unfold slot, offset; by rewrite Hs, Hn).
  assert (His : forall a, is_sn m a -> is_sn m' a) by (unfold is_sn; by rewrite Hs).
  split.
  - destruct (get_spec m' (Pdu.sn pdu) Hwf' (His _ (proj1 Hin))) as (x & -> & Hx).
    rewrite Hw, Hslot, list_lookup_insert_eq in Hx by (by apply slot_lt). by injection Hx as <-.
  - intros sn Hsn Hne. destruct (get_spec m' sn Hwf' (His _ (proj1 Hsn))) as (x & -> & Hx).
    destruct (get_spec m sn Hwf (proj1 Hsn)) as (y & -> & Hy).
    rewrite Hw, Hslot, list_lookup_insert_ne in Hx; [congruence|].
    intros Heq. by apply Hne, (slot_inj m); [| | |symmetry].
Qed.

(** The SNs that stay in the window keep their segments. *)
Lemma slide_get m count :
  wf m -> 0 <= count <= size m ->
  let m' := nr_rlc_rx_manager_set_start (nr_rlc_rx_manager_advance m count)
              ((sn_start m + count) mod (2 * size m)) in
  wf m' /\ forall sn, is_sn m sn -> count <= offset m sn < size m ->
    in_window m' sn
    /\ nr_rlc_rx_manager_get_pdu_from_sn m' sn = nr_rlc_rx_manager_get_pdu_from_sn m sn.
Proof.
  intros Hwf Hc m'. pose proof Hwf as [Hs Hl Hst Hss].
  pose proof (Z.mod_pos_bound (sn_start m + count) (2 * size m) ltac:(lia)) as Hb.
  destruct (slide_spec m count _ Hwf Hc Hb) as (Hwf' & _). split; [exact Hwf'|].
  intros sn Hsn Ho. unfold is_sn in Hsn.
  pose proof (Z.div_mod (sn_start m + count) (2 * size m) ltac:(lia)) as Hq.
  set (q := (sn_start m + count) / (2 * size m)) in Hq.
  split.
  - split; [exact Hsn|]. unfold offset in *. simpl sn_start. simpl size.
    assert (E : (sn - (sn_start m + count) mod (2 * size m)) mod (2 * size m)
      = (sn - sn_start m) mod (2 * size m) - count).
    { symmetry. apply Z.mod_unique with (q := (sn - sn_start m) / (2 * size m) - (- q)); [left; lia|].
      pose proof (Z.div_mod (sn - sn_start m) (2 * size m) ltac:(lia)). lia. }
    rewrite E. lia.
  - unfold nr_rlc_rx_manager_get_pdu_from_sn. change (rx_list m') with (rx_list m). f_equal.
    unfold get_pos. simpl start. simpl sn_start. simpl size.
    rewrite (Z.rem_mod_nonneg (start m + count)) by lia.
    rewrite !Z.rem_mod_nonneg by (try (pose proof (Z.mod_pos_bound (start m + count) (size m) Hs)); lia).
    rewrite Z.add_mod_idemp_l by lia.
    replace (start m + count + (sn - (sn_start m + count) mod (2 * size m) + size m * 2))
      with (start m + (sn - sn_start m + size m * 2) + (2 * q) * size m) by lia.
    by rewrite Z.mod_add by lia.
Qed.

End RxManager.
