(* ===== verification/RlcEntity.v ===== *)
(** * The part common to the three RLC modes

    Models [nr_rlc_entity.h]: the statistics, the buffer status, and the part
    [common] of every entity.  The callbacks an entity calls ([deliver_sdu],
    [sdu_successful_delivery], [max_retx_reached]) are the events of a trace,
    in the order of the calls.

    [Module Chain] has the loops over the received segments of one SDU, which
    [nr_rlc_entity_am.c] and [nr_rlc_entity_um.c] have in common: is the SDU
    complete, are bytes missing, has a segment been received already, and the
    reassembly itself, with the copy bounds checked. *)

From S2P Require Import Prelude TimeStat RlcPdu RlcSdu.

(** ** Common state *)

Module Entity.

Definition NR_SDU_MAX : Z := 16000.

Inductive nr_rlc_mode_t := NR_RLC_AM | NR_RLC_UM | NR_RLC_TM.

#[export] Instance nr_rlc_mode_eq_dec : EqDecision nr_rlc_mode_t.
Proof. solve_decision. Defined.

(** The counters of [nr_rlc_statistics_t] that the code updates: 32 bits wide,
    except [txsdu_bytes] and [rxsdu_bytes], which have 64 bits. *)
Record nr_rlc_statistics_t := mk_stats {
  mode : nr_rlc_mode_t;
  txpdu_pkts : Z;
  txpdu_bytes : Z;
  txpdu_dd_pkts : Z;
  txpdu_dd_bytes : Z;
  txpdu_retx_pkts : Z;
  txpdu_retx_bytes : Z;
  txpdu_segmented : Z;
  txpdu_status_pkts : Z;
  txpdu_status_bytes : Z;
  rxpdu_pkts : Z;
  rxpdu_bytes : Z;
  rxpdu_dup_pkts : Z;
  rxpdu_dup_bytes : Z;
  rxpdu_dd_pkts : Z;
  rxpdu_dd_bytes : Z;
  rxpdu_ow_pkts : Z;
  rxpdu_ow_bytes : Z;
  txsdu_pkts : Z;
  txsdu_bytes : Z;
  rxsdu_pkts : Z;
  rxsdu_bytes : Z;
  rxsdu_dd_pkts : Z;
  rxsdu_dd_bytes : Z
}.

Definition zero_stats (m : nr_rlc_mode_t) : nr_rlc_statistics_t :=
  {| mode := m; txpdu_pkts := 0; txpdu_bytes := 0; txpdu_dd_pkts := 0; txpdu_dd_bytes := 0;
     txpdu_retx_pkts := 0; txpdu_retx_bytes := 0; txpdu_segmented := 0; txpdu_status_pkts := 0;
     txpdu_status_bytes := 0; rxpdu_pkts := 0; rxpdu_bytes := 0; rxpdu_dup_pkts := 0;
     rxpdu_dup_bytes := 0; rxpdu_dd_pkts := 0; rxpdu_dd_bytes := 0; rxpdu_ow_pkts := 0;
     rxpdu_ow_bytes := 0; txsdu_pkts := 0; txsdu_bytes := 0; rxsdu_pkts := 0; rxsdu_bytes := 0;
     rxsdu_dd_pkts := 0; rxsdu_dd_bytes := 0 |}.

(** Counter updates: one packet and [n] bytes. *)
Definition count_txpdu (n : Z) (s : nr_rlc_statistics_t) :=
  {| s with txpdu_pkts := u32 (txpdu_pkts s + 1); txpdu_bytes := u32 (txpdu_bytes s + n) |}.
Definition count_txpdu_dd (n : Z) (s : nr_rlc_statistics_t) :=
  {| s with txpdu_dd_pkts := u32 (txpdu_dd_pkts s + 1); txpdu_dd_bytes := u32 (txpdu_dd_bytes s + n) |}.
Definition count_txpdu_retx (n : Z) (s : nr_rlc_statistics_t) :=
  {| s with txpdu_retx_pkts := u32 (txpdu_retx_pkts s + 1);
            txpdu_retx_bytes := u32 (txpdu_retx_bytes s + n) |}.
Definition count_txpdu_status (n : Z) (s : nr_rlc_statistics_t) :=
  {| s with txpdu_status_pkts := u32 (txpdu_status_pkts s + 1);
            txpdu_status_bytes := u32 (txpdu_status_bytes s + n) |}.
Definition count_segmented (s : nr_rlc_statistics_t) :=
  {| s with txpdu_segmented := u32 (txpdu_segmented s + 1) |}.
Definition count_rxpdu (n : Z) (s : nr_rlc_statistics_t) :=
  {| s with rxpdu_pkts := u32 (rxpdu_pkts s + 1); rxpdu_bytes := u32 (rxpdu_bytes s + n) |}.
Definition count_rxpdu_dup (n : Z) (s : nr_rlc_statistics_t) :=
  {| s with rxpdu_dup_pkts := u32 (rxpdu_dup_pkts s + 1);
            rxpdu_dup_bytes := u32 (rxpdu_dup_bytes s + n) |}.
Definition count_rxpdu_dd (n : Z) (s : nr_rlc_statistics_t) :=
  {| s with rxpdu_dd_pkts := u32 (rxpdu_dd_pkts s + 1); rxpdu_dd_bytes := u32 (rxpdu_dd_bytes s + n) |}.
Definition count_rxpdu_ow (n : Z) (s : nr_rlc_statistics_t) :=
  {| s with rxpdu_ow_pkts := u32 (rxpdu_ow_pkts s + 1); rxpdu_ow_bytes := u32 (rxpdu_ow_bytes s + n) |}.
Definition count_txsdu_pkt (s : nr_rlc_statistics_t) :=
  {| s with txsdu_pkts := u32 (txsdu_pkts s + 1) |}.
Definition count_txsdu_bytes (n : Z) (s : nr_rlc_statistics_t) :=
  {| s with txsdu_bytes := u64 (txsdu_bytes s + n) |}.
Definition count_rxsdu_pkt (s : nr_rlc_statistics_t) :=
  {| s with rxsdu_pkts := u32 (rxsdu_pkts s + 1) |}.
Definition count_rxsdu_bytes (n : Z) (s : nr_rlc_statistics_t) :=
  {| s with rxsdu_bytes := u64 (rxsdu_bytes s + n) |}.
Definition count_rxsdu_dd (n : Z) (s : nr_rlc_statistics_t) :=
  {| s with rxsdu_dd_pkts := u32 (rxsdu_dd_pkts s + 1); rxsdu_dd_bytes := u32 (rxsdu_dd_bytes s + n) |}.

Record nr_rlc_entity_buffer_status_t := mk_bstatus {
  status_size : Z;
  tx_size : Z;
  retx_size : Z
}.

(** Calls to the upper layers. *)
Inductive rlc_event :=
| DeliverSdu (buf : list Z)
| SduSuccessfulDelivery (sdu_id : Z)
| MaxRetxReached.

(** [nr_rlc_entity_t] without the function pointers. *)
Record nr_rlc_entity_t := mk_common {
  bstatus : nr_rlc_entity_buffer_status_t;
  stats : nr_rlc_statistics_t;
  txsdu_avg_time_to_tx : TimeStat.time_average_t;
  avg_time_is_on : bool;
  trace : list rlc_event
}.

(** What the constructors store in [common]. *)
Definition new_common (m : nr_rlc_mode_t) : res nr_rlc_entity_t :=
  avg ← TimeStat.time_average_new (100 * 1000) 1024;
  mret {| bstatus := {| status_size := 0; tx_size := 0; retx_size := 0 |};
          stats := zero_stats m; txsdu_avg_time_to_tx := avg; avg_time_is_on := false;
          trace := [] |}.

Definition upd_stats (f : nr_rlc_statistics_t -> nr_rlc_statistics_t) (c : nr_rlc_entity_t) :=
  {| c with stats := f (stats c) |}.

Definition emit (ev : rlc_event) (c : nr_rlc_entity_t) := {| c with trace := trace c ++ [ev] |}.

(** [bstatus.tx_size += n], [bstatus.retx_size += n]. *)
Definition add_bs_tx (n : Z) (c : nr_rlc_entity_t) :=
  {| c with bstatus := {| (bstatus c) with tx_size := tx_size (bstatus c) + n |} |}.
Definition add_bs_retx (n : Z) (c : nr_rlc_entity_t) :=
  {| c with bstatus := {| (bstatus c) with retx_size := retx_size (bstatus c) + n |} |}.
Definition clear_bs_tx (c : nr_rlc_entity_t) :=
  {| c with bstatus := {| (bstatus c) with tx_size := 0 |} |}.
Definition clear_bs_retx (c : nr_rlc_entity_t) :=
  {| c with bstatus := {| (bstatus c) with retx_size := 0 |} |}.

(** [time_average_add] of the waiting time of an SDU that arrived at
    [arrival], when the measure is on; [now_us] is [time_average_now()]. *)
Definition measure_wait (now_us arrival : Z) (c : nr_rlc_entity_t) : res nr_rlc_entity_t :=
  if avg_time_is_on c then
    avg ← TimeStat.time_average_add (txsdu_avg_time_to_tx c) now_us (u64 (now_us - arrival));
    mret {| c with txsdu_avg_time_to_tx := avg |}
  else mret c.

(** [sdu->sdu->time_of_arrival = time_average_now()], when the measure is on. *)
Definition stamp_arrival (now_us : Z) (c : nr_rlc_entity_t) (st : Store.t) (s : Seg.t)
    : res Store.t :=
  if avg_time_is_on c then
    d ← Store.deref st s;
    mret (Store.update st s {| d with Sdu.time_of_arrival := now_us |})
  else mret st.

Lemma measure_wait_ok now_us arrival c :
  TimeStat.wf (txsdu_avg_time_to_tx c) ->
  exists avg, measure_wait now_us arrival c = Ok {| c with txsdu_avg_time_to_tx := avg |}
    /\ TimeStat.wf avg.
Proof.
  intros Hwf. unfold measure_wait. destruct (avg_time_is_on c) eqn:Eon.
  - destruct (TimeStat.add_spec _ now_us (u64 (now_us - arrival)) Hwf)
      as (avg & _ & _ & E & Hw & _). rewrite E. eauto.
  - exists (txsdu_avg_time_to_tx c). split; [|done]. rewrite <- Eon. by destruct c.
Qed.

Lemma stamp_arrival_ok now_us c st l s :
  Store.store_ok st l -> s ∈ l ->
  exists st', stamp_arrival now_us c st s = Ok st' /\ Store.store_ok st' l
    /\ Store.related Store.same_hdr st st' l.
Proof.
  intros Hok Hs. unfold stamp_arrival. destruct (avg_time_is_on c).
  - destruct (Store.deref_ok _ _ s Hok Hs) as (d & Hd & Hlk & _).
    rewrite Hd, res_bind_unfold. eexists. split; [reflexivity|].
    destruct (Store.update_ok st l s d {| d with Sdu.time_of_arrival := now_us |} Hok Hlk)
      as [H1 _]; [done|]. split; [done|].
    by apply (Store.update_related _ _ _ d).
  - exists st. split_and!; try done. apply Forall_forall. intros x Hx.
    destruct (Store.deref_ok _ _ x Hok Hx) as (dx & _ & Hdx & _). by exists dx, dx.
Qed.

Lemma new_common_ok m c :
  new_common m = Ok c -> TimeStat.wf (txsdu_avg_time_to_tx c) /\ tx_size (bstatus c) = 0
    /\ retx_size (bstatus c) = 0 /\ trace c = [].
Proof.
  unfold new_common. intros H. res_inv. simpl. split_and!; try done.
  by eapply TimeStat.average_new_wf; [|eassumption].
Qed.

End Entity.

(** ** Received segments of one SDU *)

Module Chain.
Import Pdu.

(** [sdu_full]: all the bytes up to a last segment are there. *)
Fixpoint full_loop (last_byte : Z) (l : list nr_rlc_pdu_t) : bool :=
  match l with
  | [] => false
  | p :: l' =>
      if so p >? last_byte + 1 then false
      else if is_last p then true
      else full_loop (Z.max last_byte (so p + size p - 1)) l'
  end.

(** [l != NULL && l->data == NULL]: the SDU has already been delivered. *)
Definition delivered (l : list nr_rlc_pdu_t) : bool :=
  match l with
  | [] => false
  | p :: _ => match data p with None => true | Some _ => false end
  end.

Definition full (l : list nr_rlc_pdu_t) : bool :=
  if delivered l then false else full_loop (-1) l.

(** [sdu_has_missing_bytes]: there is a gap before the last received byte. *)
Fixpoint missing_loop (last_byte : Z) (l : list nr_rlc_pdu_t) : bool :=
  match l with
  | [] => false
  | p :: l' =>
      if so p >? last_byte + 1 then true
      else missing_loop (Z.max last_byte (so p + size p - 1)) l'
  end.

Definition has_missing_bytes (l : list nr_rlc_pdu_t) : bool :=
  if delivered l then false else missing_loop (-1) l.

(** [segment_already_received]: the bytes [so .. so+size-1] are all there. *)
Fixpoint already_received (l : list nr_rlc_pdu_t) (so_ size_ : Z) : bool :=
  match l with
  | [] => size_ <=? 0
  | p :: l' =>
      if size_ <=? 0 then true
      else if (so p <=? so_) && (so_ <? so p + size p) then
        let covered := size p - (so_ - so p) in
        already_received l' (so_ + covered) (size_ - covered)
      else if (so p <=? so_ + size_ - 1) && (so_ + size_ - 1 <? so p + size p) then
        let covered := size_ - (so p - so_) in
        already_received l' so_ (size_ - covered)
      else already_received l' so_ size_
  end.

(** The copies of [reassemble_and_deliver]: [acc] is the part of the SDU buffer
    that has been filled, its length is the C variable [so]. *)
Fixpoint reassemble_loop (l : list nr_rlc_pdu_t) (acc : list Z) (bad_sdu : bool)
    : res (list Z * bool) :=
  match l with
  | [] => mret (acc, bad_sdu)
  | p :: l' =>
      let len := size p - (zlen acc - so p) in
      let bad_sdu := bad_sdu || (zlen acc + len >? Entity.NR_SDU_MAX) in
      if negb bad_sdu && (len >? 0) then
        d ← of_option NullDeref (data p);
        src ← zslice d (zlen acc - so p) len;
        reassemble_loop l' (acc ++ src) bad_sdu
      else reassemble_loop l' acc bad_sdu
  end.

(** [None] is a bad SDU, too big, which is discarded. *)
Definition reassemble (l : list nr_rlc_pdu_t) : res (option (list Z)) :=
  '(sdu, bad_sdu) ← reassemble_loop l [] false;
  mret (match bad_sdu with true => None | false => Some sdu end).

(** [free(pdu->data); pdu->data = NULL; pdu->size = 0], once the SDU has been
    reassembled. *)
Definition free_data (p : nr_rlc_pdu_t) : nr_rlc_pdu_t := {| p with data := None; size := 0 |}.

(** [while (sdu_delivered(entity, sn)) sn = (sn + 1) % sn_modulus].  With
    [sn_modulus] as fuel every SN has been tried, so running out of fuel is the
    loop that never ends. *)
Fixpoint first_undelivered (fuel : nat) (sdu_delivered : Z -> res bool) (sn_modulus sn : Z)
    : res Z :=
  match fuel with
  | O => Fault NoFuel
  | S fuel' =>
      b ← sdu_delivered sn;
      match b with
      | true => first_undelivered fuel' sdu_delivered sn_modulus ((sn + 1) mod sn_modulus)
      | false => mret sn
      end
  end.

(** Bytes held by the segments of a list ([rx_size] counts them). *)
Definition rx_bytes (l : list nr_rlc_pdu_t) : Z := zsum size l.

(** ** What the loops compute *)

(** Some segment of the list has byte [b] of the SDU. *)
Definition has_byte (l : list nr_rlc_pdu_t) (b : Z) : Prop :=
  Exists (fun p => so p <= b < so p + size p) l.

(** A segment is a slice of the SDU [D]; the last one ends where [D] ends. *)
Record slice_of (D : list Z) (p : nr_rlc_pdu_t) : Prop := {
  sl_so : 0 <= so p;
  sl_size : 0 < size p;
  sl_end : so p + size p <= zlen D;
  sl_last : is_last p = true <-> so p + size p = zlen D;
  sl_data : data p = Some (take (Z.to_nat (size p)) (drop (Z.to_nat (so p)) D))
}.

Lemma already_received_sound l : forall so_ size_,
  already_received l so_ size_ = true ->
  forall b, so_ <= b < so_ + size_ -> has_byte l b.
Proof.
  induction l as [|p l IH]; intros so_ size_ H b Hb; simpl in H.
  { zcases; [lia|done]. }
  unfold has_byte. rewrite Exists_cons.
  destruct (Z.leb_spec size_ 0); [lia|].
  destruct (Z.leb_spec (so p) so_), (Z.ltb_spec so_ (so p + size p)); simpl in H.
  - destruct (decide (b < so p + size p)); [left; lia|right].
    apply (IH _ _ H). lia.
  - destruct (Z.leb_spec (so p) (so_ + size_ - 1)), (Z.ltb_spec (so_ + size_ - 1) (so p + size p));
      simpl in H; right; try (by apply (IH _ _ H)). lia.
  - destruct (Z.leb_spec (so p) (so_ + size_ - 1)), (Z.ltb_spec (so_ + size_ - 1) (so p + size p));
      simpl in H; try (right; by apply (IH _ _ H)).
    destruct (decide (so p <= b)); [left; lia|right]. apply (IH _ _ H). lia.
  - destruct (Z.leb_spec (so p) (so_ + size_ - 1)), (Z.ltb_spec (so_ + size_ - 1) (so p + size p));
      simpl in H; try (right; by apply (IH _ _ H)).
    destruct (decide (so p <= b)); [left; lia|right]. apply (IH _ _ H). lia.
Qed.

(** [full]: there is a prefix of the list that ends with a last segment and
    leaves no gap. *)
Lemma full_loop_has_byte l : forall last_byte,
  full_loop last_byte l = true ->
  exists p, p ∈ l /\ is_last p = true
    /\ forall b, last_byte < b < so p + size p -> has_byte l b.
Proof.
  induction l as [|p l IH]; intros last_byte H; simpl in H; [done|].
  rewrite Z.gtb_ltb in H. destruct (Z.ltb_spec (last_byte + 1) (so p)); [done|].
  destruct (is_last p) eqn:El.
  - exists p. split_and!; [left|done|]. intros b Hb. left. lia.
  - destruct (IH _ H) as (q & Hq & Hlast & Hb). exists q.
    split_and!; [by right|done|]. intros b Hbb. unfold has_byte. rewrite Exists_cons.
    destruct (decide (b < so p + size p)); [left; lia|right]. apply Hb. lia.
Qed.

(** The copy of one segment extends the reassembled prefix. *)
Lemma reassemble_step D p n :
  slice_of D p -> 0 <= n -> so p <= n < so p + size p ->
  exists d, data p = Some d
    /\ zslice d (n - so p) (size p - (n - so p))
       = Ok (take (Z.to_nat (so p + size p - n)) (drop (Z.to_nat n) D)).
Proof.
  intros [Hso Hsz Hend _ ->] Hn Hr. eexists. split; [reflexivity|].
  rewrite zslice_ok by (rewrite ?zlen_take, ?zlen_drop; lia). f_equal.
  replace (Z.to_nat (size p)) with (Z.to_nat (n - so p) + Z.to_nat (so p + size p - n))%nat by lia.
  rewrite <- take_drop_commute, drop_drop.
  replace (Z.to_nat (so p) + Z.to_nat (n - so p))%nat with (Z.to_nat n) by lia.
  rewrite take_take. f_equal. lia.
Qed.

(** Reassembly of the segments of [D] from the prefix [n] on, while the SDU is
    not complete ([full_loop]) or once it is. *)
Lemma reassemble_loop_spec D l : forall n,
  zlen D <= Entity.NR_SDU_MAX -> Forall (slice_of D) l -> 0 <= n <= zlen D ->
  full_loop (n - 1) l = true \/ n = zlen D ->
  reassemble_loop l (take (Z.to_nat n) D) false = Ok (D, false).
Proof.
  induction l as [|p l IH]; intros n Hmax Hl Hn Hf; cbn [reassemble_loop].
  { destruct Hf as [Hf| ->]; [done|]. unfold mret, res_ret. do 2 f_equal.
    apply take_ge. unfold zlen. lia. }
  apply Forall_cons in Hl as [Hp Hl]. pose proof Hp as [Hso Hsz Hend Hlast Hdata].
  assert (Hz : zlen (take (Z.to_nat n) D) = n) by (rewrite zlen_take; lia).
  rewrite Hz. simpl orb. rewrite !Z.gtb_ltb.
  destruct (Z.ltb_spec Entity.NR_SDU_MAX (n + (size p - (n - so p)))); [lia|]. simpl negb.
  assert (Hgap : n = zlen D \/ so p <= n).
  { destruct Hf as [Hf|]; [right|by left]. simpl in Hf. rewrite Z.gtb_ltb in Hf.
    destruct (Z.ltb_spec (n - 1 + 1) (so p)); [done|lia]. }
  destruct (Z.ltb_spec 0 (size p - (n - so p))) as [Hlen|Hlen]; simpl andb; cbv iota.
  - destruct (reassemble_step D p n Hp) as (d & -> & Hs); [lia|lia|].
    simpl. rewrite Hs, res_bind_unfold.
    replace (take (Z.to_nat n) D ++ take (Z.to_nat (so p + size p - n)) (drop (Z.to_nat n) D))
      with (take (Z.to_nat (so p + size p)) D).
    2: { rewrite take_take_drop. f_equal. lia. }
    apply IH; try done; [lia|].
    destruct Hf as [Hf|]; [|lia]. simpl in Hf. rewrite Z.gtb_ltb in Hf.
    destruct (Z.ltb_spec (n - 1 + 1) (so p)); [done|].
    destruct (is_last p); [right; by apply Hlast|left].
    by rewrite Z.max_r in Hf by lia.
  - apply IH; try done. destruct Hf as [Hf|]; [|by right]. simpl in Hf. rewrite Z.gtb_ltb in Hf.
    destruct (Z.ltb_spec (n - 1 + 1) (so p)); [done|].
    destruct (is_last p); [right; pose proof (proj1 Hlast eq_refl); lia|left].
    by rewrite Z.max_l in Hf by lia.
Qed.

(** Reassembly of a complete SDU gives its bytes back. *)
Lemma reassemble_correct D l :
  zlen D <= Entity.NR_SDU_MAX -> Forall (slice_of D) l -> full l = true ->
  reassemble l = Ok (Some D).
Proof.
  intros Hmax Hl Hf. unfold reassemble.
  assert (Hf' : full_loop (-1) l = true) by (unfold full in Hf; by destruct (delivered l)).
  pose proof (zlen_nonneg D).
  pose proof (reassemble_loop_spec D l 0 Hmax Hl ltac:(lia) (or_introl Hf')) as E.
  change (take (Z.to_nat 0) D) with (@nil Z) in E. by rewrite E.
Qed.

(** A complete SDU is recognised: when the segments are ordered by offset (the
    order the reception lists keep), [full_loop] is exact. *)
Lemma full_loop_complete D l : forall last_byte,
  Forall (slice_of D) l -> StronglySorted (fun p q => so p <= so q) l ->
  last_byte + 1 < zlen D ->
  (forall b, last_byte < b < zlen D -> has_byte l b) -> full_loop last_byte l = true.
Proof.
  induction l as [|p l IH]; intros last_byte Hl Hs Hlt Hb.
  { pose proof (Hb (last_byte + 1) ltac:(lia)) as H. inversion H. }
  apply Forall_cons in Hl as [[Hso Hsz Hend Hlast _] Hl].
  apply StronglySorted_inv in Hs as [Hs Hp]. rewrite Forall_forall in Hp.
  simpl. rewrite Z.gtb_ltb. destruct (Z.ltb_spec (last_byte + 1) (so p)) as [Hgap|Hok].
  { pose proof (Hb (last_byte + 1) ltac:(lia)) as H. unfold has_byte in H.
    apply Exists_cons in H as [H|H]; [lia|]. apply Exists_exists in H as (q & Hq & Hr).
    specialize (Hp q Hq). simpl in Hp. lia. }
  destruct (is_last p) eqn:El; [done|].
  assert (so p + size p < zlen D).
  { destruct (decide (so p + size p = zlen D)) as [He|]; [|lia]. by apply Hlast in He. }
  apply IH; try done; [lia|]. intros b Hbb.
  pose proof (Hb b ltac:(lia)) as H'. unfold has_byte in H'.
  apply Exists_cons in H' as [H'|H']; [lia|done].
Qed.

(** The search for the next SDU that is not delivered ends at the first one,
    when there is one. *)
Lemma first_undelivered_spec (f : Z -> res bool) (del : Z -> bool) M : 
  0 < M -> (forall sn, 0 <= sn < M -> f sn = Ok (del sn)) ->
  forall fuel sn k, 0 <= sn < M -> (k < fuel)%nat -> del ((sn + Z.of_nat k) mod M) = false ->
  exists j, (j <= k)%nat /\ first_undelivered fuel f M sn = Ok ((sn + Z.of_nat j) mod M)
    /\ del ((sn + Z.of_nat j) mod M) = false
    /\ forall i, (i < j)%nat -> del ((sn + Z.of_nat i) mod M) = true.
Proof.
  intros HM Hf fuel. induction fuel as [|fuel IH]; intros sn k Hsn Hk Hd; [lia|].
  assert (H0 : (sn + Z.of_nat 0) mod M = sn) by (rewrite Z.add_0_r; by apply Z.mod_small).
  cbn [first_undelivered]. rewrite Hf, res_bind_unfold by done. destruct (del sn) eqn:Ed.
  - destruct k as [|k]; [congruence|].
    assert (Hs : forall n : nat, ((sn + 1) mod M + Z.of_nat n) mod M = (sn + Z.of_nat (S n)) mod M).
    { intros n. rewrite Z.add_mod_idemp_l by lia. f_equal. lia. }
    destruct (IH ((sn + 1) mod M) k) as (j & Hj & E & Hdj & Hij).
    { by apply Z.mod_pos_bound. }
    { lia. }
    { by rewrite Hs. }
    exists (S j). rewrite Hs in E, Hdj. split_and!; try done; [lia|].
    intros [|i] Hi; [by rewrite H0|]. rewrite <- Hs. apply Hij. lia.
  - exists 0%nat. rewrite H0. split_and!; try done; lia.
Qed.

(** When every SDU is delivered, the search never ends. *)
Lemma first_undelivered_diverges (f : Z -> res bool) M fuel : forall sn,
  0 < M -> (forall sn, 0 <= sn < M -> f sn = Ok true) -> 0 <= sn < M ->
  first_undelivered fuel f M sn = Fault NoFuel.
Proof.
  induction fuel as [|fuel IH]; intros sn HM Hf Hsn; [done|].
  cbn [first_undelivered]. rewrite Hf, res_bind_unfold by done.
  apply IH; [done..|by apply Z.mod_pos_bound].
Qed.

End Chain.
