(* ===== verification/RlcTm.v ===== *)
(** * RLC transparent mode

    Models [nr_rlc_entity_tm.c] and the TM constructor of [nr_rlc_entity.c]:
    SDUs are queued and handed to MAC unchanged, one per PDU.  The theorems
    say that the queue, the counters and the shared SDU store stay consistent
    under every operation, that no operation faults, and that PDUs come out in
    the order and with the bytes the SDUs came in. *)

From S2P Require Import Prelude TimeStat RlcPdu RlcSdu RlcEntity.

Module Tm.
Import Entity.

(** [nr_rlc_entity_tm_t]; [st] holds the SDU headers [tx_list] points to. *)
Record t := mk_tm {
  common : nr_rlc_entity_t;
  t_current : Z;
  t_log_buffer_full : Z;
  sdu_rejected : Z;
  tx_list : list Seg.t;
  tx_end : option nat;
  tx_size : Z;
  tx_maxsize : Z;
  st : Store.t
}.

Definition set_common (v : nr_rlc_entity_t) (e : t) := {| e with common := v |}.

Definition new_nr_rlc_entity_tm (tx_maxsize : Z) : res t :=
  c ← new_common NR_RLC_TM;
  mret {| common := c; t_current := 0; t_log_buffer_full := 0; sdu_rejected := 0;
          tx_list := []; tx_end := None; tx_size := 0; tx_maxsize := tx_maxsize;
          st := Store.empty |}.

Definition nr_rlc_entity_tm_recv_pdu (e : t) (buffer : list Z) : t :=
  let size := zlen buffer in
  let c := upd_stats (count_rxpdu size) (common e) in
  let c := emit (DeliverSdu buffer) c in
  set_common (upd_stats (fun s => count_txsdu_bytes size (count_txsdu_pkt s)) c) e.

(** Returns the PDU size and the buffer; [now_us] is the clock reading of the
    statistics. *)
Definition generate_tx_pdu (now_us : Z) (e : t) (buffer : list Z) (size : Z)
    : res (Z * list Z * t) :=
  match tx_list e with
  | [] => mret (0, buffer, e)
  | sdu :: rest =>
      (* not enough room? do nothing *)
      if Seg.size sdu >? size then mret (0, buffer, e)
      else
        let end_ := match rest with [] => None | _ => tx_end e end in
        d ← Store.deref (st e) sdu;
        src ← zslice (Sdu.data d) 0 (Seg.size sdu);
        buffer ← zwrite buffer 0 src;
        let c := upd_stats (count_txpdu size) (common e) in
        c ← measure_wait now_us (Sdu.time_of_arrival d) c;
        let c := add_bs_tx (- Seg.size sdu) c in
        '(_, st') ← Store.nr_rlc_free_sdu_segment (st e) sdu;
        mret (Seg.size sdu, buffer,
              {| e with common := c; tx_list := rest; tx_end := end_;
                        tx_size := tx_size e - Seg.size sdu; st := st' |})
  end.

Definition nr_rlc_entity_tm_buffer_status (e : t) (maxsize : Z) : nr_rlc_entity_buffer_status_t :=
  {| status_size := 0; Entity.tx_size := Entity.tx_size (bstatus (common e)); retx_size := 0 |}.

Definition nr_rlc_entity_tm_generate_pdu (now_us : Z) (e : t) (buffer : list Z) (size : Z)
    : res (Z * list Z * t) := generate_tx_pdu now_us e buffer size.

Definition nr_rlc_entity_tm_recv_sdu (now_us : Z) (e : t) (buffer : list Z) (sdu_id : Z) : res t :=
  let size := zlen buffer in
  let e := set_common
    (upd_stats (fun s => count_rxsdu_bytes size (count_rxsdu_pkt s)) (common e)) e in
  if size >? NR_SDU_MAX then Fault Exit
  else
    (* log SDUs rejected, at most once per second *)
    let e := if negb (sdu_rejected e =? 0)
                && (t_current e >? u64 (t_log_buffer_full e + 1000))
             then {| e with sdu_rejected := 0; t_log_buffer_full := t_current e |} else e in
    if tx_size e + size >? tx_maxsize e then
      let e := {| e with sdu_rejected := sdu_rejected e + 1 |} in
      mret (set_common (upd_stats (count_rxsdu_dd size) (common e)) e)
    else
      let '(sdu, st') := Store.nr_rlc_new_sdu (st e) buffer sdu_id in
      '(l, end_) ← Store.nr_rlc_sdu_segment_list_append (tx_list e) (tx_end e) sdu;
      let c := add_bs_tx (Seg.size sdu) (common e) in
      st'' ← stamp_arrival now_us c st' sdu;
      mret {| e with common := c; tx_size := tx_size e + size; tx_list := l; tx_end := end_;
                     st := st'' |}.

Definition nr_rlc_entity_tm_set_time (e : t) (now : Z) : t := {| e with t_current := now |}.

(** Nothing to do. *)
Definition nr_rlc_entity_tm_discard_sdu (e : t) (sdu_id : Z) : t := e.

Definition clear_entity (e : t) : res t :=
  st' ← Store.nr_rlc_free_sdu_segment_list (st e) (tx_list e);
  mret {| e with t_current := 0; t_log_buffer_full := 0; sdu_rejected := 0; tx_list := [];
                 tx_end := None; tx_size := 0; common := clear_bs_tx (common e); st := st' |}.

Definition nr_rlc_entity_tm_reestablishment (e : t) : res t := clear_entity e.

Definition nr_rlc_entity_tm_available_tx_space (e : t) : Z := tx_maxsize e - tx_size e.

Definition nr_rlc_entity_tm_tx_list_occupancy (e : t) : Z := tx_size e.

(** ** Invariant *)

Record wf (e : t) : Prop := {
  wf_store : Store.store_ok (st e) (tx_list e);
  wf_end : tx_end e = Store.tail_of (tx_list e);
  wf_tx_size : tx_size e = zsum Seg.size (tx_list e);
  wf_bstatus : Entity.tx_size (bstatus (common e)) = zsum Seg.size (tx_list e);
  wf_whole : Forall (fun s => Seg.so s = 0) (tx_list e);
  wf_avg : TimeStat.wf (txsdu_avg_time_to_tx (common e))
}.

(** The SDUs waiting for transmission, as byte strings. *)
Definition queue (e : t) : list (list Z) := map (Store.seg_bytes (st e)) (tx_list e).

Lemma tm_new_wf n e : new_nr_rlc_entity_tm n = Ok e -> wf e /\ queue e = [].
Proof.
  unfold new_nr_rlc_entity_tm. intros H. apply res_bind_ok in H as (c & Hc & H). res_inv.
  apply new_common_ok in Hc as (? & ? & _). split; [|done].
  constructor; simpl; try done. apply Store.store_ok_empty.
Qed.

Lemma queue_same_data st1 st2 l :
  Store.same_data st1 st2 l -> map (Store.seg_bytes st2) l = map (Store.seg_bytes st1) l.
Proof. induction 1; simpl; congruence. Qed.

(** An SDU is queued, or rejected when the buffer would overflow. *)
Lemma tm_recv_sdu_spec now_us e buffer id :
  wf e -> zlen buffer <= NR_SDU_MAX ->
  exists e', nr_rlc_entity_tm_recv_sdu now_us e buffer id = Ok e' /\ wf e'
    /\ tx_maxsize e' = tx_maxsize e
    /\ queue e' = (if tx_size e + zlen buffer >? tx_maxsize e then queue e
                   else queue e ++ [buffer])
    /\ tx_size e' = (if tx_size e + zlen buffer >? tx_maxsize e then tx_size e
                     else tx_size e + zlen buffer).
Proof.
  intros [Hst Hend Hts Hbs Hwh Havg] Hmax. unfold nr_rlc_entity_tm_recv_sdu.
  rewrite Z.gtb_ltb. destruct (Z.ltb_spec NR_SDU_MAX (zlen buffer)); [lia|].
  set (e1 := if _ && _ then _ else _).
  assert (H1 : tx_size e1 = tx_size e /\ tx_maxsize e1 = tx_maxsize e /\ st e1 = st e
    /\ tx_list e1 = tx_list e /\ tx_end e1 = tx_end e
    /\ bstatus (common e1) = bstatus (common e)
    /\ txsdu_avg_time_to_tx (common e1) = txsdu_avg_time_to_tx (common e)).
  { unfold e1. by destruct (_ && _). }
  clearbody e1. destruct H1 as (E1 & E2 & E3 & E4 & E5 & E6 & E7).
  rewrite E1, E2, E3, E4, E5. destruct (tx_size e + zlen buffer >? tx_maxsize e).
  - eexists. split; [reflexivity|]. unfold queue. simpl. rewrite ?E2, ?E3, ?E4.
    split_and!; try done. constructor; simpl; rewrite ?E1, ?E3, ?E4, ?E5, ?E6, ?E7; done.
  - destruct (Store.nr_rlc_new_sdu (st e) buffer id) as [s st'] eqn:En.
    destruct (Store.new_sdu_ok _ _ _ _ _ _ Hst En) as (Hok & _ & Hsz & Hso & _).
    destruct (Store.new_sdu_same_data _ _ _ _ _ _ Hst En) as [Hsame Hb].
    rewrite Hend, (Store.append_ok _ _ (Store.ok_nodup _ _ Hst)), res_bind_unfold.
    destruct (stamp_arrival_ok now_us (add_bs_tx (Seg.size s) (common e1)) st' _ s Hok)
      as (st2 & Es & Hok2 & Hs2); [left|].
    rewrite Es, res_bind_unfold. eexists. split; [reflexivity|].
    apply (Store.related_impl _ Store.same_bytes) in Hs2; [|by intros ?? []].
    apply Store.related_same_data, Forall_cons in Hs2 as [Hs2 Hs2'].
    split; [|split; [done|split; [|simpl; congruence]]].
    + constructor; simpl; rewrite ?E6, ?E7, ?zsum_app; cbn [zsum foldr]; try lia; try done.
      * rewrite Permutation_app_comm. exact Hok2.
      * by rewrite Store.tail_of_snoc.
      * apply Forall_app. by repeat constructor.
    + unfold queue. simpl. rewrite map_app. simpl. rewrite Hs2, Hb. f_equal.
      rewrite (queue_same_data _ _ _ Hs2'). by rewrite (queue_same_data _ _ _ Hsame).
Qed.

(** The head of the queue is copied to the buffer when it fits. *)
Lemma generate_pdu_spec now_us e buffer size :
  wf e -> size <= zlen buffer ->
  exists n buffer' e', nr_rlc_entity_tm_generate_pdu now_us e buffer size = Ok (n, buffer', e')
    /\ wf e' /\ tx_maxsize e' = tx_maxsize e /\ zlen buffer' = zlen buffer
    /\ match queue e with
       | x :: q => if zlen x >? size then n = 0 /\ e' = e
                   else n = zlen x /\ take (Z.to_nat n) buffer' = x /\ queue e' = q
       | [] => n = 0 /\ e' = e
       end.
Proof.
  intros Hwf Hsize. pose proof Hwf as [Hst Hend Hts Hbs Hwh Havg].
  unfold nr_rlc_entity_tm_generate_pdu, generate_tx_pdu, queue.
  destruct (tx_list e) as [|s rest] eqn:El; [by exists 0, buffer, e|]. cbn [map]. cbv beta iota.
  rewrite (Store.zlen_seg_bytes (st e) (s :: rest)) by (done || left).
  destruct (Seg.size s >? size) eqn:Ef; [by exists 0, buffer, e|].
  rewrite Z.gtb_ltb in Ef. apply Z.ltb_ge in Ef.
  destruct (Store.deref_ok _ _ s Hst) as (d & Hd & Hlk & Hr); [left|].
  rewrite Hd, res_bind_unfold. unfold Store.in_range in Hr.
  apply Forall_cons in Hwh as [Hso Hwh].
  rewrite zslice_ok, res_bind_unfold by lia. rewrite drop_0.
  assert (Hb : Store.seg_bytes (st e) s = take (Z.to_nat (Seg.size s)) (Sdu.data d)).
  { unfold Store.seg_bytes. rewrite Hlk, Hso. done. }
  rewrite <- Hb. pose proof (Store.zlen_seg_bytes _ _ s Hst ltac:(left)) as Hlen.
  rewrite zwrite_ok, res_bind_unfold by lia.
  destruct (measure_wait_ok now_us (Sdu.time_of_arrival d) (upd_stats (count_txpdu size) (common e)) Havg)
    as (avg & Em & Hw). rewrite Em, res_bind_unfold.
  destruct (Store.free_segment_ok (st e) rest s Hst) as (b & st' & ? & Ef' & Hok' & _).
  rewrite Ef', res_bind_unfold. eexists _, _, _. split; [reflexivity|].
  rewrite zsum_cons in Hts, Hbs.
  split_and!; try done.
  - constructor; simpl; try done; try lia. rewrite Hend. by destruct rest.
  - autorewrite with rlc_len. lia.
  - unfold mret in *. simpl. rewrite take_app_length' by (unfold zlen in *; lia). done.
  - simpl. apply queue_same_data. by eapply Store.free_same_data.
Qed.

(** Re-establishment empties the entity and frees every SDU. *)
Lemma tm_clear_spec e :
  wf e -> exists e', clear_entity e = Ok e' /\ wf e' /\ queue e' = []
    /\ Store.sdus (st e') = ∅ /\ tx_maxsize e' = tx_maxsize e.
Proof.
  intros [Hst Hend Hts Hbs Hwh Havg]. unfold clear_entity.
  destruct (Store.free_list_ok (tx_list e) (st e) []) as (st' & E & Hok); [by rewrite app_nil_r|].
  rewrite E, res_bind_unfold. eexists. split; [reflexivity|].
  split_and!; try done; by apply Store.store_ok_nil.
Qed.

End Tm.
