(* ===== verification/RlcUm.v ===== *)
(** * RLC unacknowledged mode

    Models [nr_rlc_entity_um.c] and the UM constructor and reconfiguration of
    [nr_rlc_entity.c].  [Module Um] has the entity and its operations; the
    reception list holds the received segments ordered by SN (relative to the
    reassembly window) and by offset, the transmission list the SDUs and the
    remainder of a segmented SDU.

    [Module UmTx] proves the transmitting side: the invariant of the queue, of
    the buffer status and of the SDU store, and that a generated PDU fits the
    grant, parses back to the segment it carries and consumes exactly those
    bytes of the queue.  [Module UmRx] proves the receiving side: the invariant
    of the reassembly window, termination of the loops that look for the next
    SDU, and delivery of exactly the SDUs that are complete. *)

From S2P Require Import Prelude TimeStat RlcPdu RlcSdu RlcEntity.

Module Um.
Import Entity.

(** [nr_rlc_entity_um_t]; [st] holds the SDU headers [tx_list] points to. *)
Record t := mk_um {
  common : nr_rlc_entity_t;
  (* configuration *)
  t_reassembly : Z;
  sn_field_length : Z;
  sn_modulus : Z;
  window_size : Z;
  (* runtime rx *)
  rx_next_highest : Z;
  rx_next_reassembly : Z;
  rx_timer_trigger : Z;
  (* runtime tx *)
  tx_next : Z;
  t_current : Z;
  t_log_buffer_full : Z;
  sdu_rejected : Z;
  t_reassembly_start : Z;
  (* rx management *)
  rx_list : list Pdu.nr_rlc_pdu_t;
  rx_size : Z;
  rx_maxsize : Z;
  (* tx management *)
  tx_list : list Seg.t;
  tx_end : option nat;
  tx_size : Z;
  tx_maxsize : Z;
  st : Store.t
}.

Definition upd_common (f : nr_rlc_entity_t -> nr_rlc_entity_t) (e : t) :=
  {| e with common := f (common e) |}.

Definition new_nr_rlc_entity_um (rx_maxsize tx_maxsize t_reassembly sn_field_length : Z) : res t :=
  if (sn_field_length =? 6) || (sn_field_length =? 12) then
    c ← new_common NR_RLC_UM;
    let sn_modulus := Z.shiftl 1 sn_field_length in
    mret {| common := c; t_reassembly := t_reassembly; sn_field_length := sn_field_length;
            sn_modulus := sn_modulus; window_size := sn_modulus / 2;
            rx_next_highest := 0; rx_next_reassembly := 0; rx_timer_trigger := 0; tx_next := 0;
            t_current := 0; t_log_buffer_full := 0; sdu_rejected := 0; t_reassembly_start := 0;
            rx_list := []; rx_size := 0; rx_maxsize := rx_maxsize;
            tx_list := []; tx_end := None; tx_size := 0; tx_maxsize := tx_maxsize;
            st := Store.empty |}
  else Fault Exit.

Definition nr_rlc_entity_um_reconfigure (e : t) (t_reassembly : Z) (sn_field_length_ : option Z) : t :=
  let e := {| e with t_reassembly := t_reassembly |} in
  match sn_field_length_ with
  | Some n => {| e with sn_field_length := n |}
  | None => e
  end.

Definition compute_pdu_header_size (e : t) (sdu : Seg.t) : Z :=
  let header_size := 1 in
  (* if SN to be included then one more byte if SN field length is 12 *)
  let header_size :=
    if negb (Seg.is_first sdu && Seg.is_last sdu) && (sn_field_length e =? 12)
    then header_size + 1 else header_size in
  (* two more bytes for SO if SDU segment is not the first *)
  if negb (Seg.is_first sdu) then header_size + 2 else header_size.

(** ** Reception *)

(** As per 38.322 7.1, modulus base is rx_next_highest - window_size. *)
Definition modulus_rx (e : t) (a : Z) : Z :=
  let r := a - (rx_next_highest e - window_size e) in
  let r := if r <? 0 then r + sn_modulus e else r in
  Z.rem r (sn_modulus e).

Definition sn_compare_rx (e : t) (a b : Z) : Z := modulus_rx e a - modulus_rx e b.

(** [while (l != NULL) { if (l->sn == sn) break; l = l->next; }]. *)
Fixpoint find_sn (l : list Pdu.nr_rlc_pdu_t) (sn : Z) : list Pdu.nr_rlc_pdu_t :=
  match l with
  | [] => []
  | p :: l' => if Pdu.sn p =? sn then l else find_sn l' sn
  end.

(** The nodes visited by [while (l != NULL && l->sn == sn)]. *)
Fixpoint same_sn (l : list Pdu.nr_rlc_pdu_t) (sn : Z) : list Pdu.nr_rlc_pdu_t :=
  match l with
  | [] => []
  | p :: l' => if Pdu.sn p =? sn then p :: same_sn l' sn else []
  end.

(** The received segments of one SDU. *)
Definition segments (l : list Pdu.nr_rlc_pdu_t) (sn : Z) : list Pdu.nr_rlc_pdu_t :=
  same_sn (find_sn l sn) sn.

Definition sdu_full (e : t) (sn : Z) : bool := Chain.full (segments (rx_list e) sn).

Definition sdu_delivered (e : t) (sn : Z) : bool := Chain.delivered (find_sn (rx_list e) sn).

Definition sdu_has_missing_bytes (e : t) (sn : Z) : bool :=
  Chain.has_missing_bytes (segments (rx_list e) sn).

(** The list after the data of the segments of [sn] has been freed. *)
Fixpoint release_same (l : list Pdu.nr_rlc_pdu_t) (sn : Z) : list Pdu.nr_rlc_pdu_t :=
  match l with
  | [] => []
  | p :: l' => if Pdu.sn p =? sn then Chain.free_data p :: release_same l' sn else l
  end.

Fixpoint release (l : list Pdu.nr_rlc_pdu_t) (sn : Z) : list Pdu.nr_rlc_pdu_t :=
  match l with
  | [] => []
  | p :: l' => if Pdu.sn p =? sn then release_same l sn else p :: release l' sn
  end.

Definition reassemble_and_deliver (e : t) (sn : Z) : res t :=
  let segs := segments (rx_list e) sn in
  match segs with
  | [] => Fault NullDeref      (* while (pdu->sn != sn) pdu = pdu->next; *)
  | _ =>
      sdu ← Chain.reassemble segs;
      let e := {| e with rx_list := release (rx_list e) sn;
                         rx_size := rx_size e - Chain.rx_bytes segs |} in
      match sdu with
      | None => mret e
      | Some buf =>
          mret (upd_common (fun c =>
            upd_stats (fun s => count_txsdu_bytes (zlen buf) (count_txsdu_pkt s))
              (emit (DeliverSdu buf) c)) e)
      end
  end.

(** [while (sdu_delivered(entity, sn)) sn = (sn + 1) % entity->sn_modulus]. *)
Definition skip_delivered (e : t) (sn : Z) : res Z :=
  Chain.first_undelivered (Z.to_nat (sn_modulus e)) (fun s => Ok (sdu_delivered e s))
    (sn_modulus e) sn.

(** Discard PDUs not in reassembly window, from the head of the list on. *)
Fixpoint discard_out_of_window (e : t) (l : list Pdu.nr_rlc_pdu_t) : t :=
  match l with
  | [] => {| e with rx_list := [] |}
  | p :: l' =>
      if sn_compare_rx e (Pdu.sn p) (rx_next_highest e) >=? 0 then
        let e := {| e with rx_size := rx_size e - Pdu.size p; rx_list := l' |} in
        let e := upd_common (upd_stats (fun s =>
          count_rxpdu_ow (Pdu.size p) (count_rxpdu_dd (Pdu.size p) s))) e in
        discard_out_of_window e l'
      else {| e with rx_list := l |}
  end.

(** The part of [reception_actions] that updates the window for SN [x]. *)
Definition update_window (e : t) (x : Z) : res t :=
  if sdu_full e x then
    (* SDU full *)
    e ← reassemble_and_deliver e x;
    if x =? rx_next_reassembly e then
      r ← skip_delivered e (rx_next_reassembly e);
      mret {| e with rx_next_reassembly := r |}
    else mret e
  else
    (* SDU not full *)
    if sn_compare_rx e x (rx_next_highest e) >=? 0 then
      let e := {| e with rx_next_highest := (x + 1) mod sn_modulus e |} in
      let e := discard_out_of_window e (rx_list e) in
      (* if rx_next_reassembly not in reassembly window *)
      if sn_compare_rx e (rx_next_reassembly e) (rx_next_highest e) >=? 0 then
        r ← skip_delivered e ((rx_next_highest e - window_size e + sn_modulus e) mod sn_modulus e);
        mret {| e with rx_next_reassembly := r |}
      else mret e
    else mret e.

(** The part of [reception_actions] that stops t_reassembly. *)
Definition stop_t_reassembly (e : t) : t :=
  if negb (t_reassembly_start e =? 0) then
    if (sn_compare_rx e (rx_timer_trigger e) (rx_next_reassembly e) <=? 0)
       || (sn_compare_rx e (rx_timer_trigger e) (rx_next_highest e) >? 0)
       || ((rx_next_highest e =? (rx_next_reassembly e + 1) mod sn_modulus e)
           && negb (sdu_has_missing_bytes e (rx_next_reassembly e)))
    then {| e with t_reassembly_start := 0 |} else e
  else e.

(** The part of [reception_actions] that starts t_reassembly. *)
Definition start_t_reassembly (e : t) : t :=
  if t_reassembly_start e =? 0 then
    if (sn_compare_rx e (rx_next_highest e) ((rx_next_reassembly e + 1) mod sn_modulus e) >? 0)
       || ((rx_next_highest e =? (rx_next_reassembly e + 1) mod sn_modulus e)
           && sdu_has_missing_bytes e (rx_next_reassembly e))
    then {| e with t_reassembly_start := t_current e; rx_timer_trigger := rx_next_highest e |}
    else e
  else e.

Definition reception_actions (e : t) (x : Z) : res t :=
  e ← update_window e x;
  mret (start_t_reassembly (stop_t_reassembly e)).

(** What the header of a received PDU says. *)
Inductive header :=
| FullSdu                                          (** deliver [buffer + 1] *)
| Segment (sn so data_size : Z) (is_first is_last : bool)
| Discard.

Definition decode_header (e : t) (buffer : list Z) : res header :=
  let size := zlen buffer in
  let d := Codec.nr_rlc_pdu_decoder_init buffer in
  Codec.checked (Codec.nr_rlc_pdu_decoder_get_bits d 2) Discard (fun si d =>
  let is_first := Z.land si 2 =? 0 in
  let is_last := Z.land si 1 =? 0 in
  if is_first && is_last then mret (if size <? 2 then Discard else FullSdu)
  else
    let with_sn d :=
      Codec.checked (Codec.nr_rlc_pdu_decoder_get_bits d (sn_field_length e)) Discard (fun sn d =>
      let with_so so d :=
        let data_size := size - Codec.dec_byte d in
        (* discard PDU if no data *)
        mret (if data_size <=? 0 then Discard else Segment sn so data_size is_first is_last) in
      if is_first then with_so 0 d
      else
        Codec.checked (Codec.nr_rlc_pdu_decoder_get_bits d 16) Discard (fun so d =>
        if so =? 0 then mret Discard else with_so so d)) in
    if sn_field_length e =? 12
    then Codec.checked (Codec.nr_rlc_pdu_decoder_get_bits d 2) Discard (fun _ d => with_sn d)
    else with_sn d).

Definition discard_pdu (size : Z) (e : t) : t :=
  upd_common (upd_stats (count_rxpdu_dd size)) e.

Definition nr_rlc_entity_um_recv_pdu (e : t) (buffer : list Z) : res t :=
  let size := zlen buffer in
  let e := upd_common (upd_stats (count_rxpdu size)) e in
  h ← decode_header e buffer;
  match h with
  | Discard => mret (discard_pdu size e)
  | FullSdu =>
      buf ← zslice buffer 1 (size - 1);
      mret (upd_common (fun c =>
        upd_stats (fun s => count_txsdu_bytes (size - 1) (count_txsdu_pkt s))
          (emit (DeliverSdu buf) c)) e)
  | Segment sn so data_size is_first is_last =>
      (* discard PDU if rx buffer is full *)
      if rx_size e + data_size >? rx_maxsize e then mret (discard_pdu size e)
      (* discard PDU if sn < rx_next_reassembly *)
      else if sn_compare_rx e sn (rx_next_reassembly e) <? 0 then mret (discard_pdu size e)
      else
        (* put in pdu reception list *)
        data ← zslice buffer (size - data_size) data_size;
        let pdu := Pdu.nr_rlc_new_pdu sn so is_first is_last data in
        let e := {| e with rx_size := rx_size e + data_size;
                           rx_list := Pdu.nr_rlc_pdu_list_add (sn_compare_rx e) (rx_list e) pdu |} in
        reception_actions e sn
  end.

(** ** Transmission *)

(** The fields of the PDU header; [sn] is [sdu->sdu->sn]. *)
Definition header_fields (e : t) (sdu : Seg.t) (sn : Z) : list (Z * Z) :=
  [(1 - b2z (Seg.is_first sdu), 1); (1 - b2z (Seg.is_last sdu), 1)]
  ++ (if Seg.is_first sdu && Seg.is_last sdu then [(0, 6)]
      else (if sn_field_length e =? 12 then [(0, 2)] else []) ++ [(sn, sn_field_length e)])
  ++ (if Seg.is_first sdu then [] else [(Seg.so sdu, 16)]).

Definition serialize_sdu (e : t) (sdu : Seg.t) (buffer : list Z) (bufsize : Z)
    : res (Z * list Z) :=
  d ← Store.deref (st e) sdu;
  (* generate header *)
  enc ← Codec.put_fields (Codec.nr_rlc_pdu_encoder_init buffer bufsize)
          (header_fields e sdu (Sdu.sn d));
  (* data *)
  src ← zslice (Sdu.data d) (Seg.so sdu) (Seg.size sdu);
  buffer ← zwrite (Codec.enc_buffer enc) (Codec.enc_byte enc) src;
  mret (Codec.enc_byte enc + Seg.size sdu, buffer).

(** Returns the shortened segment and the new segment with the remaining bytes;
    [None] if [pdu_size] is too small to contain the new segment. *)
Definition resegment (e : t) (sdu : Seg.t) (pdu_size : Z) : res (option (Seg.t * Seg.t) * t) :=
  d ← Store.deref (st e) sdu;
  let st' := Store.update (st e) sdu {| d with Sdu.ref_count := Sdu.ref_count d + 1 |} in
  (* clear is_last to compute header size *)
  let pdu_header_size := compute_pdu_header_size e {| sdu with Seg.is_last := false |} in
  (* if no room for at least 1 data byte, do nothing *)
  if pdu_header_size + 1 >? pdu_size then mret (None, {| e with st := st' |})
  else
    let over_size := pdu_header_size + Seg.size sdu - pdu_size in
    let short := {| sdu with Seg.size := Seg.size sdu - over_size; Seg.is_last := false |} in
    let next := {| sdu with Seg.node := Store.fresh st'; Seg.size := over_size;
                            Seg.so := Seg.so sdu + Seg.size short; Seg.is_first := false |} in
    mret (Some (short, next),
          upd_common (upd_stats count_segmented)
            {| e with st := {| st' with Store.fresh := S (Store.fresh st') |} |}).

(** The end of [generate_tx_pdu]: the segment goes out. *)
Definition send_segment (now_us : Z) (e : t) (sdu : Seg.t) (buffer : list Z) (size : Z)
    : res (Z * list Z * t) :=
  (* update tx_next if the SDU is an SDU segment and is the last *)
  let e := if negb (Seg.is_first sdu) && Seg.is_last sdu
           then {| e with tx_next := (tx_next e + 1) mod sn_modulus e |} else e in
  '(ret, buffer) ← serialize_sdu e sdu buffer size;
  let e := {| e with tx_size := tx_size e - Seg.size sdu |} in
  let c := upd_stats (count_txpdu size) (common e) in
  d ← Store.deref (st e) sdu;
  c ← measure_wait now_us (Sdu.time_of_arrival d) c;
  '(_, st') ← Store.nr_rlc_free_sdu_segment (st e) sdu;
  mret (ret, buffer, {| e with common := c; st := st' |}).

Definition generate_tx_pdu (now_us : Z) (e : t) (buffer : list Z) (size : Z)
    : res (Z * list Z * t) :=
  match tx_list e with
  | [] => mret (0, buffer, e)
  | sdu :: rest =>
      let pdu_header_size := compute_pdu_header_size e sdu in
      (* not enough room for at least one byte of data? do nothing *)
      if pdu_header_size + 1 >? size then mret (0, buffer, e)
      else
        let e := {| e with tx_list := rest;
                           tx_end := match rest with [] => None | _ => tx_end e end |} in
        (* assign SN to SDU *)
        d ← Store.deref (st e) sdu;
        let e := {| e with st := Store.update (st e) sdu {| d with Sdu.sn := tx_next e |} |} in
        let pdu_size := pdu_header_size + Seg.size sdu in
        (* update buffer status *)
        let e := upd_common (add_bs_tx (- pdu_size)) e in
        (* segment if necessary *)
        if pdu_size >? size then
          '(split, e) ← resegment e sdu size;
          match split with
          | None => mret (0, buffer, e)
          | Some (sdu, next_sdu) =>
              (* put the second SDU back at the head of the TX list *)
              let e := {| e with tx_list := next_sdu :: tx_list e;
                                 tx_end := match tx_end e with
                                           | None => Some (Seg.node next_sdu)
                                           | end_ => end_
                                           end |} in
              let e := upd_common (fun c => add_bs_tx
                         (compute_pdu_header_size e next_sdu + Seg.size next_sdu)
                         (upd_stats count_segmented c)) e in
              send_segment now_us e sdu buffer size
          end
        else send_segment now_us e sdu buffer size
  end.

Definition nr_rlc_entity_um_buffer_status (e : t) (maxsize : Z) : nr_rlc_entity_buffer_status_t :=
  {| status_size := 0; Entity.tx_size := Entity.tx_size (bstatus (common e)); retx_size := 0 |}.

Definition nr_rlc_entity_um_generate_pdu (now_us : Z) (e : t) (buffer : list Z) (size : Z)
    : res (Z * list Z * t) := generate_tx_pdu now_us e buffer size.

(** ** SDUs from the upper layer *)

Definition nr_rlc_entity_um_recv_sdu (now_us : Z) (e : t) (buffer : list Z) (sdu_id : Z) : res t :=
  let size := zlen buffer in
  let e := upd_common (upd_stats (fun s => count_rxsdu_bytes size (count_rxsdu_pkt s))) e in
  if size >? NR_SDU_MAX then Fault Exit
  else
    (* log SDUs rejected, at most once per second *)
    let e := if negb (sdu_rejected e =? 0)
                && (t_current e >? u64 (t_log_buffer_full e + 1000))
             then {| e with sdu_rejected := 0; t_log_buffer_full := t_current e |} else e in
    if tx_size e + size >? tx_maxsize e then
      let e := {| e with sdu_rejected := sdu_rejected e + 1 |} in
      mret (upd_common (upd_stats (count_rxsdu_dd size)) e)
    else
      let '(sdu, st') := Store.nr_rlc_new_sdu (st e) buffer sdu_id in
      '(l, end_) ← Store.nr_rlc_sdu_segment_list_append (tx_list e) (tx_end e) sdu;
      let c := add_bs_tx (compute_pdu_header_size e sdu + Seg.size sdu) (common e) in
      st'' ← stamp_arrival now_us c st' sdu;
      mret {| e with common := c; tx_size := tx_size e + size; tx_list := l; tx_end := end_;
                     st := st'' |}.

(** ** Timers *)

(** Discard all segments < rx_next_reassembly. *)
Fixpoint discard_before_reassembly (e : t) (l : list Pdu.nr_rlc_pdu_t) : t :=
  match l with
  | [] => {| e with rx_list := [] |}
  | p :: l' =>
      if sn_compare_rx e (Pdu.sn p) (rx_next_reassembly e) <? 0 then
        let e := {| e with rx_list := l' |} in
        discard_before_reassembly (upd_common (upd_stats (count_rxpdu_dd (Pdu.size p))) e) l'
      else {| e with rx_list := l |}
  end.

Definition check_t_reassembly (e : t) : res t :=
  (* is t_reassembly running and if yes has it expired? *)
  if (t_reassembly_start e =? 0)
     || (t_current e <=? u64 (t_reassembly_start e + t_reassembly e)) then mret e
  else
    (* stop timer *)
    let e := {| e with t_reassembly_start := 0 |} in
    (* update rx_next_reassembly to first SN >= rx_timer_trigger not reassembled *)
    r ← skip_delivered e (rx_timer_trigger e);
    let e := {| e with rx_next_reassembly := r |} in
    let e := discard_before_reassembly e (rx_list e) in
    if (sn_compare_rx e (rx_next_highest e) ((rx_next_reassembly e + 1) mod sn_modulus e) >? 0)
       || ((rx_next_highest e =? rx_next_reassembly e + 1)
           && sdu_has_missing_bytes e (rx_next_reassembly e))
    then mret {| e with t_reassembly_start := t_current e; rx_timer_trigger := rx_next_highest e |}
    else mret e.

Definition nr_rlc_entity_um_set_time (e : t) (now : Z) : res t :=
  check_t_reassembly {| e with t_current := now |}.

(** ** Discard, re-establishment *)

(** The search loop: the nodes before the first SDU with that identity, and the
    list from there on. *)
Fixpoint find_sdu (st : Store.t) (l : list Seg.t) (sdu_id : Z) : res (list Seg.t * list Seg.t) :=
  match l with
  | [] => mret ([], [])
  | s :: l' =>
      d ← Store.deref st s;
      if negb (Sdu.upper_layer_id d =? sdu_id) then
        '(before, from) ← find_sdu st l' sdu_id;
        mret (s :: before, from)
      else mret ([], l)
  end.

Definition nr_rlc_entity_um_discard_sdu (e : t) (sdu_id : Z) : res t :=
  '(before, from) ← find_sdu (st e) (tx_list e) sdu_id;
  match from with
  | [] => mret e
  | cur :: after =>
      (* if some bytes have already been 'PDU-ized' then do nothing *)
      if negb (Seg.is_first cur) || negb (Seg.is_last cur) then mret e
      else
        (* remove SDU from tx_list *)
        let end_ := if decide (tx_end e = Some (Seg.node cur)) then Store.tail_of before
                    else tx_end e in
        let c := add_bs_tx (- (compute_pdu_header_size e cur + Seg.size cur)) (common e) in
        '(_, st') ← Store.nr_rlc_free_sdu_segment (st e) cur;
        mret {| e with common := c; tx_list := before ++ after; tx_end := end_; st := st' |}
  end.

Definition clear_entity (e : t) : res t :=
  st' ← Store.nr_rlc_free_sdu_segment_list (st e) (tx_list e);
  mret {| e with rx_next_highest := 0; rx_next_reassembly := 0; rx_timer_trigger := 0;
                 tx_next := 0; t_current := 0; t_log_buffer_full := 0; sdu_rejected := 0;
                 t_reassembly_start := 0; rx_list := []; rx_size := 0;
                 tx_list := []; tx_end := None; tx_size := 0;
                 common := clear_bs_tx (common e); st := st' |}.

Definition nr_rlc_entity_um_reestablishment (e : t) : res t := clear_entity e.

Definition nr_rlc_entity_um_available_tx_space (e : t) : Z := tx_maxsize e - tx_size e.

Definition nr_rlc_entity_um_tx_list_occupancy (e : t) : Z := tx_size e.

End Um.
