(* ===== verification/RlcUmTx.v ===== *)
(** * RLC unacknowledged mode: correctness of the transmitting side

    [wf] is the invariant of the transmission queue: the SDU store and the tail
    pointer are consistent with the list, the buffer status reported to MAC is
    the sum of the PDU sizes the queue needs, and every element of the list is
    the end of its SDU, a whole SDU unless it is the head.  Every operation of
    the transmitting side preserves it and returns. *)

From S2P Require Import Prelude TimeStat RlcPdu RlcSdu RlcEntity RlcUm.

Module UmTx.
Import Entity Um.

(** The configuration made by the constructor. *)
Record cfg (e : t) : Prop := {
  cfg_len : sn_field_length e = 6 \/ sn_field_length e = 12;
  cfg_mod : sn_modulus e = 2 ^ sn_field_length e;
  cfg_win : window_size e = sn_modulus e / 2
}.

(** The end of an SDU; only a segment that is not the first has an offset. *)
Definition seg_ok (st : Store.t) (s : Seg.t) : Prop :=
  exists d, Store.sdus st !! Seg.sdu s = Some d /\ Seg.is_last s = true
    /\ Seg.so s + Seg.size s = Sdu.size d /\ Sdu.size d <= NR_SDU_MAX
    /\ (if Seg.is_first s then Seg.so s = 0 else 0 < Seg.so s /\ 0 < Seg.size s).

(** Size of the PDU that carries a segment. *)
Definition pdu_size (e : t) (s : Seg.t) : Z := compute_pdu_header_size e s + Seg.size s.

Record wf (e : t) : Prop := {
  wf_cfg : cfg e;
  wf_tx_next : 0 <= tx_next e < sn_modulus e;
  wf_store : Store.store_ok (st e) (tx_list e);
  wf_end : tx_end e = Store.tail_of (tx_list e);
  wf_tx_size : zsum Seg.size (tx_list e) <= tx_size e;
  wf_bstatus : Entity.tx_size (bstatus (common e)) = zsum (pdu_size e) (tx_list e);
  wf_segs : Forall (seg_ok (st e)) (tx_list e);
  wf_tail : Forall (fun s => Seg.is_first s = true) (tail (tx_list e));
  wf_avg : TimeStat.wf (txsdu_avg_time_to_tx (common e))
}.

(** What the receiving side of the entity depends on. *)
Definition rx_part (e : t) :=
  (sn_field_length e, sn_modulus e, window_size e, t_reassembly e, rx_next_highest e,
   rx_next_reassembly e, rx_timer_trigger e, t_reassembly_start e, rx_list e, rx_size e,
   rx_maxsize e, trace (common e)).

(** The SDUs and SDU ends that wait for transmission: offset and bytes. *)
Definition queue (e : t) : list (Z * list Z) :=
  map (fun s => (Seg.so s, Store.seg_bytes (st e) s)) (tx_list e).

Lemma um_seg_ok_related st st' l :
  Store.related Store.same_bytes st st' l -> Forall (seg_ok st) l -> Forall (seg_ok st') l.
Proof.
  intros Hr Hl. unfold Store.related in Hr. rewrite Forall_forall in *. intros s Hs.
  destruct (Hr s Hs) as (d & d' & L & L' & _ & Hsz).
  destruct (Hl s Hs) as (d1 & L1 & H). exists d'. assert (d1 = d) as -> by congruence.
  by rewrite Hsz.
Qed.

Lemma um_queue_related st st' l :
  Store.related Store.same_bytes st st' l ->
  map (fun s => (Seg.so s, Store.seg_bytes st' s)) l
  = map (fun s => (Seg.so s, Store.seg_bytes st s)) l.
Proof.
  intros Hr%Store.related_same_data. induction Hr as [|s l Hs Hl IH]; simpl; [done|].
  by rewrite Hs, IH.
Qed.

(** The header has the size the buffer status counts. *)
Lemma um_header_width e s sn :
  cfg e -> Codec.width (map snd (header_fields e s sn)) = 8 * compute_pdu_header_size e s.
Proof.
  intros [Hlen _ _]. unfold header_fields, compute_pdu_header_size, Codec.width, zsum.
  destruct Hlen as [-> | ->], (Seg.is_first s), (Seg.is_last s); done.
Qed.

Lemma um_header_size_bounds e s : 1 <= compute_pdu_header_size e s <= 4.
Proof.
  unfold compute_pdu_header_size.
  destruct (Seg.is_first s), (Seg.is_last s), (sn_field_length e =? 12); simpl; lia.
Qed.

(** [pdu] is the header of segment [sg] with the SN [sn], followed by
    [data]. *)
Definition carries (e : t) (sg : Seg.t) (sn : Z) (pdu data : list Z) : Prop :=
  exists h, pdu = h ++ data /\ zlen h = compute_pdu_header_size e sg
    /\ buffer_bits h = Codec.field_bits (header_fields e sg sn).

Lemma um_carries_cfg e e' sg sn pdu data :
  sn_field_length e = sn_field_length e' -> carries e sg sn pdu data -> carries e' sg sn pdu data.
Proof. unfold carries, header_fields, compute_pdu_header_size. by intros ->. Qed.

Lemma um_serialize_ok e s d buffer size :
  cfg e -> Store.sdus (st e) !! Seg.sdu s = Some d -> Store.in_range d s ->
  size <= zlen buffer -> compute_pdu_header_size e s + Seg.size s <= size ->
  exists buffer', serialize_sdu e s buffer size
      = Ok (compute_pdu_header_size e s + Seg.size s, buffer')
    /\ zlen buffer' = zlen buffer
    /\ carries e s (Sdu.sn d)
         (take (Z.to_nat (compute_pdu_header_size e s + Seg.size s)) buffer')
         (Store.seg_bytes (st e) s).
Proof.
  intros Hcfg Hd Hr Hsz Hfit. unfold serialize_sdu.
  unfold Store.deref. rewrite Hd. simpl of_option. rewrite res_bind_unfold.
  pose proof (um_header_width e s (Sdu.sn d) Hcfg) as Hw.
  pose proof (um_header_size_bounds e s) as Hb. unfold Store.in_range in Hr.
  destruct (Codec.put_header (header_fields e s (Sdu.sn d)) buffer size)
    as (enc & E & Eby & Ebi & Es & El & Ed & Ebits); [done| | |lia|].
  { destruct (cfg_len _ Hcfg) as [H6|H12]; unfold header_fields; rewrite ?H6, ?H12;
      destruct (Seg.is_first s), (Seg.is_last s); repeat constructor; simpl; lia. }
  { rewrite Hw. by exists (compute_pdu_header_size e s); lia. }
  rewrite E, res_bind_unfold.
  rewrite Hw, Z.mul_comm, Z.div_mul in Eby by lia.
  rewrite zslice_ok, res_bind_unfold by lia.
  assert (Hsb : Store.seg_bytes (st e) s
    = take (Z.to_nat (Seg.size s)) (drop (Z.to_nat (Seg.so s)) (Sdu.data d))).
  { unfold Store.seg_bytes. by rewrite Hd. }
  rewrite <- Hsb.
  assert (Hlen : zlen (Store.seg_bytes (st e) s) = Seg.size s).
  { rewrite Hsb. autorewrite with rlc_len. lia. }
  rewrite zwrite_ok, res_bind_unfold by lia. eexists. rewrite Eby. split; [reflexivity|].
  split; [autorewrite with rlc_len; lia|].
  exists (take (Z.to_nat (compute_pdu_header_size e s)) (Codec.enc_buffer enc)).
  split_and!.
  - rewrite app_assoc, take_app_length'; [done|].
    unfold zlen in *. rewrite length_app, length_take. lia.
  - rewrite zlen_take. lia.
  - by rewrite <- Eby.
Qed.

(** ** Decoding a generated header *)

(** What follows the header is the data. *)
Ltac data_left :=
  lazymatch goal with
  | W : Codec.dec_wf ?d, Hd : 0 < zlen ?data
    |- context [zlen ?h + zlen ?data - Codec.dec_byte ?d] =>
      pose proof (Codec.dwf_bit _ W);
      replace (zlen h + zlen data - Codec.dec_byte d) with (zlen data) by lia;
      destruct (Z.leb_spec (zlen data) 0); [lia|];
      repeat match goal with
      | |- context [?a =? 0] => destruct (Z.eqb_spec a 0); [lia|]
      end; reflexivity
  end.

Lemma carries_decodes e peer sg sn pdu data :
  cfg e -> sn_field_length peer = sn_field_length e ->
  0 <= sn < sn_modulus e -> 0 <= Seg.so sg < 65536 ->
  (Seg.is_first sg = false -> 0 < Seg.so sg) -> 0 < zlen data ->
  carries e sg sn pdu data ->
  decode_header peer pdu
  = Ok (if Seg.is_first sg && Seg.is_last sg then FullSdu
        else Segment sn (if Seg.is_first sg then 0 else Seg.so sg) (zlen data)
               (Seg.is_first sg) (Seg.is_last sg))
  /\ drop (Z.to_nat (compute_pdu_header_size e sg)) pdu = data.
Proof.
  intros [Hlen Hmod _] Hpeer Hsn Hso Hnf Hdata (h & -> & Hh & Hbits).
  split; [|rewrite drop_app_length'; [done|unfold zlen in Hh; lia]].
  rewrite Hmod in Hsn. unfold decode_header. rewrite Hpeer.
  pose proof (Codec.decoder_init_wf (h ++ data)) as W0.
  assert (U0 : Codec.unread (Codec.nr_rlc_pdu_decoder_init (h ++ data))
    = Codec.field_bits (header_fields e sg sn) ++ buffer_bits data).
  { rewrite Codec.unread_init, buffer_bits_app. by rewrite Hbits. }
  set (d0 := Codec.nr_rlc_pdu_decoder_init (h ++ data)) in *.
  assert (P0 : 8 * Codec.dec_byte d0 + Codec.dec_bit d0 = 0) by done.
  clearbody d0. revert U0 Hh. unfold header_fields, compute_pdu_header_size, Codec.field_bits.
  rewrite zlen_app.
  destruct Hlen as [Hlen|Hlen]; rewrite Hlen in *;
  destruct (Seg.is_first sg) eqn:Ef, (Seg.is_last sg) eqn:El;
    intros U0 Hh; cbn in U0, Hh; try specialize (Hnf eq_refl).
  - decode_field 0. eval_tests. destruct (Z.ltb_spec (zlen h + zlen data) 2); [lia|done].
  - decode_field 1. eval_tests. decode_field sn. data_left.
  - decode_field 2. eval_tests. decode_field sn. decode_field (Seg.so sg). data_left.
  - decode_field 3. eval_tests. decode_field sn. decode_field (Seg.so sg). data_left.
  - decode_field 0. eval_tests. destruct (Z.ltb_spec (zlen h + zlen data) 2); [lia|done].
  - decode_field 1. eval_tests. decode_field 0. decode_field sn. data_left.
  - decode_field 2. eval_tests. decode_field 0. decode_field sn. decode_field (Seg.so sg). data_left.
  - decode_field 3. eval_tests. decode_field 0. decode_field sn. decode_field (Seg.so sg). data_left.
Qed.

(** ** Operations *)

Lemma um_new_wf rx_maxsize tx_maxsize t_reas len e :
  new_nr_rlc_entity_um rx_maxsize tx_maxsize t_reas len = Ok e ->
  wf e /\ queue e = [] /\ tx_next e = 0.
Proof.
  unfold new_nr_rlc_entity_um. intros H.
  destruct ((len =? 6) || (len =? 12)) eqn:El; [|done].
  apply res_bind_ok in H as (c & Hc & H). res_inv.
  apply new_common_ok in Hc as (? & ? & _).
  assert (Hlen : len = 6 \/ len = 12).
  { apply orb_true_iff in El as [El|El]; apply Z.eqb_eq in El; auto. }
  split; [|done]. constructor; simpl; try done; try (by constructor).
  - constructor; simpl; [done| |done]. rewrite Z.shiftl_1_l. done.
  - split; [lia|]. by destruct Hlen as [-> | ->].
  - apply Store.store_ok_empty.
Qed.

(** The header size depends on the configuration only. *)
Lemma um_pdu_size_cfg e e' s : sn_field_length e' = sn_field_length e -> pdu_size e' s = pdu_size e s.
Proof. intros H. unfold pdu_size, compute_pdu_header_size. by rewrite H. Qed.

Lemma um_zsum_pdu_size_cfg e e' l :
  sn_field_length e' = sn_field_length e -> zsum (pdu_size e') l = zsum (pdu_size e) l.
Proof. intros H. induction l; simpl; [done|]. rewrite IHl. by erewrite um_pdu_size_cfg. Qed.

(** What the transmitting side depends on. *)
Definition tx_part (e : t) :=
  (sn_field_length e, sn_modulus e, window_size e, tx_next e, tx_list e, tx_end e, tx_size e,
   st e, bstatus (common e), txsdu_avg_time_to_tx (common e)).

Lemma um_wf_tx_part e e' : tx_part e' = tx_part e -> wf e -> wf e'.
Proof.
  unfold tx_part. intros [= E1 E2 E3 E4 E5 E6 E7 E8 E9 E10] [[? ? ?] ? ? ? ? ? ? ? ?].
  constructor; rewrite ?E4, ?E5, ?E6, ?E7, ?E8, ?E9, ?E10; try done.
  - constructor; rewrite ?E1, ?E2, ?E3; done.
  - by rewrite E2.
  - by rewrite (um_zsum_pdu_size_cfg e).
Qed.

(** An SDU from the upper layer is queued, or rejected when the buffer would
    overflow. *)
Lemma um_recv_sdu_spec now_us e buffer id :
  wf e -> zlen buffer <= NR_SDU_MAX ->
  exists e', nr_rlc_entity_um_recv_sdu now_us e buffer id = Ok e' /\ wf e'
    /\ rx_part e' = rx_part e /\ tx_maxsize e' = tx_maxsize e /\ tx_next e' = tx_next e
    /\ queue e' = (if tx_size e + zlen buffer >? tx_maxsize e then queue e
                   else queue e ++ [(0, buffer)])
    /\ tx_size e' = (if tx_size e + zlen buffer >? tx_maxsize e then tx_size e
                     else tx_size e + zlen buffer).
Proof.
  intros Hwf Hmax. unfold nr_rlc_entity_um_recv_sdu. cbv zeta.
  rewrite Z.gtb_ltb. destruct (Z.ltb_spec NR_SDU_MAX (zlen buffer)); [lia|].
  set (e1 := if _ && _ then _ else _).
  assert (H1 : tx_part e1 = tx_part e /\ rx_part e1 = rx_part e /\ tx_maxsize e1 = tx_maxsize e).
  { unfold e1. by destruct (_ && _). }
  clearbody e1. destruct H1 as (Ht & Hr & Hm).
  pose proof (um_wf_tx_part _ _ Ht Hwf) as Hwf1. pose proof Ht as [= _ _ _ En El _ Ets Est _ _].
  rewrite <- Ets, <- Hm, <- Hr, <- En.
  replace (queue e) with (queue e1) by (unfold queue; by rewrite El, Est).
  clear Ht Hr Hm En El Ets Est Hwf. clear e. rename e1 into e.
  destruct (tx_size e + zlen buffer >? tx_maxsize e).
  - eexists. split; [reflexivity|]. split_and!; try done. by apply (um_wf_tx_part e).
  - destruct Hwf1 as [Hcfg Hn Hst Hend Hts Hbs Hsegs Htl Havg].
    destruct (Store.nr_rlc_new_sdu (st e) buffer id) as [s st'] eqn:Enew.
    destruct (Store.new_sdu_ok _ _ _ _ _ _ Hst Enew) as (Hok & _ & Hsz & Hso & Hfst & Hlst).
    destruct (Store.new_sdu_same_data _ _ _ _ _ _ Hst Enew) as [_ Hb].
    pose proof (Store.new_sdu_related _ _ _ _ _ _ Hst Enew) as Hrel.
    rewrite Hend, (Store.append_ok _ _ (Store.ok_nodup _ _ Hst)), res_bind_unfold.
    set (c := add_bs_tx _ _).
    destruct (stamp_arrival_ok now_us c st' _ s Hok) as (st2 & Es & Hok2 & Hrel2); [left|].
    rewrite Es, res_bind_unfold. eexists. split; [reflexivity|].
    apply (Store.related_impl _ Store.same_bytes) in Hrel; [|by intros ?? []].
    apply (Store.related_impl _ Store.same_bytes) in Hrel2; [|by intros ?? []].
    pose proof (Store.related_sub _ _ _ (s :: tx_list e) (tx_list e) ltac:(set_solver) Hrel2) as Hrel2'.
    pose proof (Store.related_trans _ _ _ _ _ _ Hrel Hrel2') as Hrel3.
    assert (Hsok : seg_ok st2 s).
    { destruct (Store.new_sdu_header _ _ _ _ _ Enew) as (d1 & L1 & Hs1 & _).
      apply Forall_cons in Hrel2 as [(d1' & d & L1' & L & _ & Hsd) _].
      assert (d1' = d1) as -> by congruence.
      exists d. rewrite Hfst, Hlst. split_and!; try done; lia. }
    split_and!; try done.
    + constructor; simpl; try done.
      * by constructor; apply Hcfg.
      * rewrite Permutation_app_comm. exact Hok2.
      * by rewrite Store.tail_of_snoc.
      * rewrite zsum_app. simpl. lia.
      * rewrite (um_zsum_pdu_size_cfg e) by done. rewrite Hbs, zsum_app. cbn [zsum foldr].
        unfold pdu_size at 3. lia.
      * apply Forall_app. split; [|by constructor].
        by apply (um_seg_ok_related (st e)).
      * destruct (tx_list e) as [|x l]; simpl; [constructor|]. simpl in Htl.
        apply Forall_app. by repeat constructor.
    + unfold queue. simpl. rewrite map_app. simpl. rewrite Hso.
      apply Store.related_same_data, Forall_cons in Hrel2 as [-> _]. rewrite Hb.
      by rewrite (um_queue_related (st e)).
Qed.

(** SN of the next SDU after segment [s] was sent. *)
Definition next_sn (e : t) (s : Seg.t) : Z :=
  if negb (Seg.is_first s) && Seg.is_last s then (tx_next e + 1) mod sn_modulus e else tx_next e.

(** Sending a segment that was taken from the list. *)
Lemma send_ok now_us e s buffer size :
  cfg e -> Store.store_ok (st e) (s :: tx_list e) ->
  TimeStat.wf (txsdu_avg_time_to_tx (common e)) ->
  size <= zlen buffer -> pdu_size e s <= size ->
  exists buffer' e', send_segment now_us e s buffer size = Ok (pdu_size e s, buffer', e')
    /\ zlen buffer' = zlen buffer
    /\ (forall d, Store.sdus (st e) !! Seg.sdu s = Some d ->
         carries e s (Sdu.sn d) (take (Z.to_nat (pdu_size e s)) buffer')
           (Store.seg_bytes (st e) s))
    /\ rx_part e' = rx_part e /\ tx_maxsize e' = tx_maxsize e
    /\ tx_list e' = tx_list e /\ tx_end e' = tx_end e
    /\ tx_size e' = tx_size e - Seg.size s /\ tx_next e' = next_sn e s
    /\ bstatus (common e') = bstatus (common e)
    /\ TimeStat.wf (txsdu_avg_time_to_tx (common e'))
    /\ Store.store_ok (st e') (tx_list e)
    /\ Store.related Store.same_bytes (st e) (st e') (tx_list e).
Proof.
  intros Hcfg Hst Havg Hsz Hfit. unfold send_segment.
  set (e1 := if negb (Seg.is_first s) && Seg.is_last s then _ else _).
  assert (H1 : rx_part e1 = rx_part e /\ tx_maxsize e1 = tx_maxsize e /\ tx_list e1 = tx_list e
    /\ tx_end e1 = tx_end e /\ tx_size e1 = tx_size e /\ tx_next e1 = next_sn e s
    /\ common e1 = common e /\ st e1 = st e).
  { unfold e1, next_sn. by destruct (_ && _). }
  clearbody e1. destruct H1 as (Hr & Hm & Hl & Hend & Hts & Hn & Hc & Hs).
  pose proof Hr as [= R1 R2 R3 _ _ _ _ _ _ _ _ _].
  assert (Hcfg1 : cfg e1).
  { destruct Hcfg. constructor; rewrite ?R1, ?R2, ?R3; done. }
  destruct (Store.deref_ok _ _ s Hst) as (d & Hd & Hlk & Hrg); [left|].
  assert (Hh : compute_pdu_header_size e1 s = compute_pdu_header_size e s).
  { unfold compute_pdu_header_size. by rewrite R1. }
  destruct (um_serialize_ok e1 s d buffer size Hcfg1) as (buffer' & Eser & Hlen & Hcar);
    [by rewrite Hs|done|done|unfold pdu_size in Hfit; lia|].
  rewrite Eser, res_bind_unfold. simpl st. rewrite Hs in *. rewrite Hd, res_bind_unfold.
  simpl common. rewrite Hc.
  destruct (measure_wait_ok now_us (Sdu.time_of_arrival d) (upd_stats (count_txpdu size) (common e)) Havg)
    as (avg & Em & Hw). rewrite Em, res_bind_unfold.
  destruct (Store.free_segment_ok (st e) (tx_list e) s Hst) as (b & st' & ? & Ef & Hok' & _).
  rewrite Ef, res_bind_unfold. rewrite Hh in *. eexists _, _. split; [reflexivity|].
  split_and!; simpl; try done; try congruence.
  - intros d' Hd'. assert (d' = d) as -> by congruence. by apply (um_carries_cfg e1).
  - unfold rx_part in *. simpl. congruence.
  - eapply Store.related_impl; [|by eapply Store.free_related]. by intros ?? [].
Qed.

(** What a grant of [size] bytes lets out of segment [s]: the bytes, and the
    segment that carries them. *)
Definition first_header (e : t) (s : Seg.t) : Z :=
  compute_pdu_header_size e {| s with Seg.is_last := false |}.

Definition chunk (e : t) (s : Seg.t) (size : Z) : Z :=
  if pdu_size e s <=? size then Seg.size s else size - first_header e s.

Definition sent (e : t) (s : Seg.t) (size : Z) : Seg.t :=
  if pdu_size e s <=? size then s else Store.shrink s (chunk e s size).

Lemma um_resegment_ok e s d size :
  Store.sdus (st e) !! Seg.sdu s = Some d -> first_header e s + 1 <= size ->
  resegment e s size
  = Ok (Some (Store.shrink s (size - first_header e s),
              Store.remainder (st e) s (size - first_header e s)),
        upd_common (upd_stats count_segmented) {| e with st := Store.add_ref (st e) s d |}).
Proof.
  intros Hd Hsz. unfold resegment, Store.deref. rewrite Hd. simpl of_option.
  rewrite res_bind_unfold. fold (first_header e s). rewrite Z.gtb_ltb.
  destruct (Z.ltb_spec size (first_header e s + 1)); [lia|].
  unfold Store.shrink, Store.remainder, Store.add_ref. simpl. do 4 f_equal; try (f_equal; lia).
Qed.

(** The outcome of a grant for the head [s] of the list. *)
Definition granted (e : t) (s : Seg.t) (rest : list Seg.t) (size n : Z) (buffer' : list Z) (e' : t)
    : Prop :=
  let k := chunk e s size in
  n = pdu_size e (sent e s size) /\ 0 < n <= size
  /\ carries e (sent e s size) (tx_next e) (take (Z.to_nat n) buffer')
       (take (Z.to_nat k) (Store.seg_bytes (st e) s))
  /\ tx_next e' = next_sn e (sent e s size)
  /\ queue e' = (if k =? Seg.size s then [] else
                    [(Seg.so s + k, drop (Z.to_nat k) (Store.seg_bytes (st e) s))])
                ++ tail (queue e)
  /\ tx_size e' = tx_size e - k.

Lemma generate_whole now_us e s rest buffer size :
  wf e -> tx_list e = s :: rest -> size <= zlen buffer -> pdu_size e s <= size ->
  compute_pdu_header_size e s + 1 <= size ->
  exists n buffer' e', generate_tx_pdu now_us e buffer size = Ok (n, buffer', e') /\ wf e'
    /\ rx_part e' = rx_part e /\ tx_maxsize e' = tx_maxsize e /\ zlen buffer' = zlen buffer
    /\ granted e s rest size n buffer' e'.
Proof.
  intros [Hcfg Hn Hst Hend Hts Hbs Hsegs Htl Havg] El Hsz Hfit Hroom.
  rewrite El in *. unfold generate_tx_pdu. rewrite El.
  pose proof (um_header_size_bounds e s) as Hb. unfold pdu_size in Hfit. rewrite !Z.gtb_ltb.
  destruct (Z.ltb_spec size (compute_pdu_header_size e s + 1)); [lia|].
  destruct (Store.deref_ok _ _ s Hst) as (d & Hd & Hlk & Hrg); [left|].
  simpl st. rewrite Hd, res_bind_unfold.
  destruct (Z.ltb_spec size (compute_pdu_header_size e s + Seg.size s)); [lia|].
  set (d1 := {| d with Sdu.sn := tx_next e |}).
  destruct (Store.update_ok (st e) _ s d d1 Hst Hlk) as [Hst1 _]; [done|].
  pose proof (Store.update_related Store.same_bytes (st e) s d d1 _ _ Hst Hlk ltac:(done)) as Hrel1.
  set (e1 := upd_common _ _).
  destruct (send_ok now_us e1 s buffer size) as (buffer' & e' & E & Hlen & Hcar & Hrx & Hm & Hl & He
    & Hs & Hnx & Hbs' & Havg' & Hst' & Hrel); try done.
  { by constructor; apply Hcfg. }
  simpl tx_list in Hl, Hst', Hrel. simpl st in Hrel.
  apply Forall_cons in Hsegs as [_ Hsegs]. simpl in Htl. rewrite !zsum_cons in Hts, Hbs.
  apply Forall_cons in Hrel1 as [(? & ? & L1 & L2 & Hd12) Hrel1].
  pose proof (Store.related_trans _ _ _ _ _ _ Hrel1 Hrel) as Hrel2.
  specialize (Hcar d1 ltac:(by simpl; rewrite lookup_insert_eq)).
  apply (um_carries_cfg e1 e) in Hcar; [|done].
  exists (pdu_size e s), buffer', e'. split; [exact E|].
  subst e1. simpl in Hs, Hbs', He, Hnx, Hm, Hcar. split_and!; try done.
  - pose proof Hrx as [= R1 R2 R3 _ _ _ _ _ _ _ _ _]. constructor.
    + constructor; rewrite ?R1, ?R2, ?R3; apply Hcfg.
    + rewrite Hnx, R2. unfold next_sn. destruct (_ && _); [|done]. apply Z.mod_pos_bound. simpl in *. lia.
    + by rewrite Hl.
    + rewrite He, Hl. simpl. rewrite Hend. by destruct rest.
    + rewrite Hs, Hl. simpl. lia.
    + rewrite Hbs', Hl, (um_zsum_pdu_size_cfg e) by done. simpl. rewrite Hbs.
      change (pdu_size e s) with (compute_pdu_header_size e s + Seg.size s). lia.
    + rewrite Hl. by apply (um_seg_ok_related (st e)).
    + rewrite Hl. by destruct Htl.
    + done.
  - unfold Store.in_range in Hrg. unfold granted, chunk, sent, pdu_size. zcases; try lia. split_and!; try done; try lia.
    + rewrite (take_ge (Store.seg_bytes (st e) s))
        by (pose proof (Store.zlen_seg_bytes _ _ s Hst ltac:(left)); unfold zlen in *; lia).
      replace (Store.seg_bytes (st e) s) with (Store.seg_bytes (Store.update (st e) s d1) s); [done|].
      unfold Store.seg_bytes. simpl. by rewrite lookup_insert_eq, Hlk.
    + unfold queue. rewrite Hl, El. simpl. by apply um_queue_related.
Qed.

(** A grant smaller than the PDU of the head [s] of the list. *)
Section split.
Context (now_us : Z) (e : t) (s : Seg.t) (rest : list Seg.t) (buffer : list Z) (size : Z) (d : Sdu.t).
Context (Hwf : wf e) (El : tx_list e = s :: rest) (Hsz : size <= zlen buffer)
  (Hfit : size < pdu_size e s) (Hroom : first_header e s + 1 <= size)
  (Hlk : Store.sdus (st e) !! Seg.sdu s = Some d).

Let d1 := {| d with Sdu.sn := tx_next e |}.
Let st1 := Store.update (st e) s d1.
Let k := size - first_header e s.
Let next := Store.remainder st1 s k.
Let st2 := Store.add_ref st1 s d1.

Lemma split_head_ok : Seg.so s + Seg.size s = Sdu.size d /\ Sdu.size d <= NR_SDU_MAX
  /\ Seg.is_last s = true /\ Store.in_range d s /\ 1 <= k < Seg.size s.
Proof using Hwf El Hfit Hroom Hlk.
  pose proof (wf_segs _ Hwf) as Hsegs. rewrite El in Hsegs.
  apply Forall_cons in Hsegs as [(d0 & L0 & Hlast & Hso & Hmax & Hf) _].
  assert (d0 = d) as -> by congruence.
  pose proof (wf_store _ Hwf) as Hst. rewrite El in Hst.
  destruct (Store.deref_ok _ _ s Hst) as (d0 & _ & L & Hrg); [left|].
  assert (d0 = d) as -> by congruence. split_and!; try done; [unfold k; lia|].
  assert (compute_pdu_header_size e s <= first_header e s).
  { unfold first_header, compute_pdu_header_size. simpl. rewrite andb_false_r.
    destruct (Seg.is_first s), (Seg.is_last s), (sn_field_length e =? 12); simpl; lia. }
  unfold k, pdu_size in *. lia.
Qed.

Lemma split_store_ok :
  Store.sdus st1 !! Seg.sdu s = Some d1
  /\ Store.store_ok st2 (Store.shrink s k :: next :: rest)
  /\ Store.related Store.same_bytes (st e) st2 (s :: rest)
  /\ Store.sdus st2 !! Seg.sdu s = Some {| d1 with Sdu.ref_count := Sdu.ref_count d1 + 1 |}
  /\ Store.seg_bytes st2 (Store.shrink s k) = take (Z.to_nat k) (Store.seg_bytes (st e) s)
  /\ Store.seg_bytes st2 next = drop (Z.to_nat k) (Store.seg_bytes (st e) s).
Proof using Hwf El Hfit Hroom Hlk.
  destruct split_head_ok as (_ & _ & _ & Hrg & Hk). unfold Store.in_range in Hrg.
  pose proof (wf_store _ Hwf) as Hst. rewrite El in Hst.
  destruct (Store.update_ok (st e) _ s d d1 Hst Hlk) as [Hst1 _]; [done|].
  pose proof (Store.update_related Store.same_bytes (st e) s d d1 _ _ Hst Hlk ltac:(done)) as Hrel1.
  assert (Hlk1 : Store.sdus st1 !! Seg.sdu s = Some d1) by apply lookup_insert_eq.
  destruct (Store.split_ok st1 rest s d1 k Hst1 Hlk1) as [Hst2 _]; [lia|].
  pose proof (Store.add_ref_related st1 s d1 _ Hst1 Hlk1) as Hrel2.
  apply (Store.related_impl _ Store.same_bytes) in Hrel2; [|by intros ?? []].
  assert (Hb1 : Store.seg_bytes st1 s = Store.seg_bytes (st e) s).
  { unfold Store.seg_bytes. by rewrite Hlk1, Hlk. }
  split_and!; try done.
  - exact (Store.related_trans _ _ _ _ _ _ Hrel1 Hrel2).
  - apply lookup_insert_eq.
  - unfold st2. by rewrite Store.shrink_bytes, Hb1 by (done || lia).
  - unfold st2, next. by rewrite Store.remainder_bytes, Hb1 by (done || lia).
Qed.

(** The first part is sent from a state in which the rest was put back. *)
Lemma send_split e3 :
  tx_part e3 = (sn_field_length e, sn_modulus e, window_size e, tx_next e, next :: rest,
    Store.tail_of (next :: rest), tx_size e, st2,
    {| (bstatus (common e)) with Entity.tx_size := zsum (pdu_size e) (next :: rest) |},
    txsdu_avg_time_to_tx (common e)) ->
  rx_part e3 = rx_part e -> tx_maxsize e3 = tx_maxsize e ->
  exists n buffer' e', send_segment now_us e3 (Store.shrink s k) buffer size = Ok (n, buffer', e')
    /\ wf e' /\ rx_part e' = rx_part e /\ tx_maxsize e' = tx_maxsize e
    /\ zlen buffer' = zlen buffer /\ granted e s rest size n buffer' e'.
Proof using Hwf El Hsz Hfit Hroom Hlk.
  intros T3 X3 M3. injection T3 as Tl Tm Tw Tn Tx Te Ts Tst Tb Ta.
  destruct split_head_ok as (Hso & Hmax & Hlast & Hrg & Hk).
  destruct split_store_ok as (Hlk1 & Hst2 & Hrel12 & Hlk2 & Hb2 & Hbn).
  assert (Hpe : pdu_size e3 (Store.shrink s k) = size).
  { rewrite (um_pdu_size_cfg e) by done. change (first_header e s + k = size). unfold k. lia. }
  pose proof Hwf as [Hcfg Hn Hst Hend Hts Hbs Hsegs Htl Havg]. rewrite El in *.
  destruct (send_ok now_us e3 (Store.shrink s k) buffer size) as (buffer' & e' & E & Hlen & Hcar & Hrx
    & Hm & Hl & He & Hs & Hnx & Hbs' & Havg' & Hst' & Hrel);
    [constructor; rewrite ?Tl, ?Tm, ?Tw; apply Hcfg|by rewrite Tst, Tx|by rewrite Ta|done|lia|].
  rewrite Hpe, ?Tx, ?Tst in *. specialize (Hcar _ Hlk2).
  apply (um_carries_cfg e3 e) in Hcar; [|done]. rewrite X3 in Hrx.
  assert (Hnx' : tx_next e' = tx_next e).
  { rewrite Hnx. unfold next_sn. simpl. by rewrite andb_false_r, Tn. }
  apply Forall_cons in Hrel12 as [_ Hrel12]. apply Store.related_same_data in Hrel as Hsd.
  apply Forall_cons in Hrel as [(da & db & La & Lb & _ & Hsz2) Hrel].
  apply Forall_cons in Hsd as [Hsd _].
  pose proof (Store.related_trans _ _ _ _ _ _ Hrel12 Hrel) as Hrel3.
  exists size, buffer', e'. split; [exact E|].
  split; [|split; [exact Hrx|split; [congruence|split; [exact Hlen|]]]].
  - pose proof Hrx as [= R1 R2 R3 _ _ _ _ _ _ _ _ _]. constructor; rewrite ?Hl; try done.
    + constructor; rewrite ?R1, ?R2, ?R3; apply Hcfg.
    + by rewrite Hnx', R2.
    + by rewrite He, Te.
    + rewrite Hs, Ts, zsum_cons. rewrite zsum_cons in Hts. simpl. lia.
    + by rewrite Hbs', Tb, (um_zsum_pdu_size_cfg e e').
    + apply Forall_cons in Hsegs as [_ Hsegs]. constructor; [|by apply (um_seg_ok_related (st e))].
      change (Seg.sdu next) with (Seg.sdu s) in La. rewrite Hlk2 in La. injection La as <-. simpl in Hsz2. exists db. split; [done|]. simpl. unfold Store.in_range in Hrg.
      split_and!; done || lia.
  - unfold granted, sent, chunk. destruct (Z.leb_spec (pdu_size e s) size); [lia|]. fold k.
    pose proof (um_header_size_bounds e {| s with Seg.is_last := false |}) as Hb.
    fold (first_header e s) in Hb. split; [by rewrite <- Hpe, (um_pdu_size_cfg e e3)|].
    split; [lia|]. split; [by rewrite Hb2 in Hcar|]. split; [unfold next_sn; simpl; by rewrite andb_false_r|].
    destruct (Z.eqb_spec k (Seg.size s)); [lia|].
    split; [|rewrite Hs, Ts; simpl; lia].
    unfold queue. rewrite Hl, El. simpl. by rewrite (um_queue_related (st e) _ _ Hrel3), Hsd, Hbn.
Qed.

Lemma generate_split :
  exists n buffer' e', generate_tx_pdu now_us e buffer size = Ok (n, buffer', e') /\ wf e'
    /\ rx_part e' = rx_part e /\ tx_maxsize e' = tx_maxsize e /\ zlen buffer' = zlen buffer
    /\ granted e s rest size n buffer' e'.
Proof using Hwf El Hsz Hfit Hroom Hlk.
  destruct split_head_ok as (_ & _ & _ & _ & Hk).
  destruct split_store_ok as (Hlk1 & _).
  pose proof Hwf as [_ _ Hst Hend _ Hbs _ _ _]. rewrite El in *.
  unfold generate_tx_pdu. rewrite El, !Z.gtb_ltb. unfold k in Hk.
  assert (Hhh : compute_pdu_header_size e s <= first_header e s).
  { unfold first_header, compute_pdu_header_size. simpl. rewrite andb_false_r.
    destruct (Seg.is_first s), (Seg.is_last s), (sn_field_length e =? 12); simpl; lia. }
  destruct (Z.ltb_spec size (compute_pdu_header_size e s + 1)); [lia|].
  simpl st. unfold Store.deref at 1. rewrite Hlk. simpl of_option. rewrite res_bind_unfold. cbv beta.
  destruct (Z.ltb_spec size (compute_pdu_header_size e s + Seg.size s)) as [_|];
    [|unfold pdu_size in *; lia].
  set (e1 := upd_common _ _).
  assert (T1 : tx_part e1 = (sn_field_length e, sn_modulus e, window_size e, tx_next e, rest,
    Store.tail_of rest, tx_size e, st1,
    {| (bstatus (common e)) with Entity.tx_size := zsum (pdu_size e) rest |},
    txsdu_avg_time_to_tx (common e))).
  { unfold tx_part, e1. simpl. rewrite Hend, Store.tail_of_tail. do 3 f_equal.
    rewrite Hbs, zsum_cons. change (pdu_size e s) with (compute_pdu_header_size e s + Seg.size s). lia. }
  assert (X1 : rx_part e1 = rx_part e /\ tx_maxsize e1 = tx_maxsize e) by done.
  clearbody e1. destruct X1 as [X1 M1]. injection T1 as Tl Tm Tw Tn Tx Te Ts Tst Tb Ta.
  assert (Hfh : first_header e1 s = first_header e s).
  { unfold first_header, compute_pdu_header_size. by rewrite Tl. }
  rewrite (um_resegment_ok e1 s d1 size) by (rewrite ?Tst, ?Hfh; assumption).
  rewrite res_bind_unfold, Hfh, Tst. cbv beta iota. fold k next st2.
  apply send_split; [|exact X1|exact M1].
  unfold tx_part. simpl. rewrite Tl, Tm, Tw, Tn, Tx, Te, Ts, Tb, Ta.
  change (Store.fresh (st e)) with (Seg.node next). rewrite Store.tail_of_push. do 3 f_equal.
  simpl. unfold pdu_size at 2. unfold compute_pdu_header_size. simpl. lia.
Qed.

End split.

(** Grants for which the code sends something from the head of the queue: with
    a 12-bit SN a grant of 2 bytes has room for the header and one byte of a
    whole SDU, but not of a segment. *)
Definition grant_ok (e : t) (size : Z) : Prop := sn_field_length e = 6 \/ size <> 2.

Lemma generate_spec now_us e buffer size :
  wf e -> size <= zlen buffer -> grant_ok e size ->
  exists n buffer' e', nr_rlc_entity_um_generate_pdu now_us e buffer size = Ok (n, buffer', e')
    /\ wf e' /\ rx_part e' = rx_part e /\ tx_maxsize e' = tx_maxsize e
    /\ zlen buffer' = zlen buffer
    /\ match tx_list e with
       | s :: rest => if size <? compute_pdu_header_size e s + 1 then n = 0 /\ e' = e
                      else granted e s rest size n buffer' e'
       | [] => n = 0 /\ e' = e
       end.
Proof.
  intros Hwf Hsz Hg. unfold nr_rlc_entity_um_generate_pdu.
  destruct (tx_list e) as [|s rest] eqn:El.
  { exists 0, buffer, e. unfold generate_tx_pdu. by rewrite El. }
  destruct (Z.ltb_spec size (compute_pdu_header_size e s + 1)) as [Hsm|Hroom].
  { exists 0, buffer, e. unfold generate_tx_pdu. rewrite El, Z.gtb_ltb.
    by destruct (Z.ltb_spec size (compute_pdu_header_size e s + 1)); [|lia]. }
  destruct (decide (pdu_size e s <= size)) as [Hfit|Hfit]; [by apply generate_whole|].
  pose proof (wf_store _ Hwf) as Hst. rewrite El in Hst.
  destruct (Store.deref_ok _ _ s Hst) as (d & _ & Hlk & _); [left|].
  apply (generate_split now_us e s rest buffer size d); try done; [lia|].
  unfold first_header, compute_pdu_header_size, grant_ok in *. simpl. rewrite andb_false_r.
  destruct (Seg.is_first s), (Seg.is_last s), (Z.eqb_spec (sn_field_length e) 12);
    simpl in *; lia.
Qed.

(** ** Discard and re-establishment *)

Lemma find_sdu_ok st l id : forall live,
  Store.store_ok st live -> l ⊆ live ->
  exists before from, find_sdu st l id = Ok (before, from) /\ l = before ++ from.
Proof.
  induction l as [|s l IH]; intros live Hok Hsub; [by eexists [], []|].
  destruct (Store.deref_ok _ _ s Hok) as (d & Hd & _); [set_solver|].
  simpl. rewrite Hd, res_bind_unfold. destruct (negb (Sdu.upper_layer_id d =? id)).
  - destruct (IH live Hok) as (before & from & E & ->); [set_solver|].
    rewrite E, res_bind_unfold. by eexists (s :: before), from.
  - by eexists [], (s :: l).
Qed.

(** The tail pointer after one node was unlinked. *)
Lemma tail_of_remove (before : list Seg.t) cur after :
  NoDup (map Seg.node (before ++ cur :: after)) ->
  (if decide (Store.tail_of (before ++ cur :: after) = Some (Seg.node cur))
   then Store.tail_of before else Store.tail_of (before ++ cur :: after))
  = Store.tail_of (before ++ after).
Proof.
  intros Hnd. destruct after as [|x after _] using rev_ind.
  { rewrite Store.tail_of_snoc, app_nil_r. by rewrite decide_True. }
  rewrite app_comm_cons, !app_assoc, !Store.tail_of_snoc. rewrite decide_False; [done|].
  intros [= Heq]. rewrite !map_app in Hnd. simpl in Hnd.
  apply NoDup_app in Hnd as (_ & _ & Hnd). apply NoDup_cons in Hnd as [Hni _]. apply Hni.
  rewrite <- Heq, map_app. simpl. set_solver.
Qed.

(** A discarded SDU leaves the queue and the buffer status. *)
Lemma discard_spec e id :
  wf e ->
  exists e', nr_rlc_entity_um_discard_sdu e id = Ok e' /\ wf e' /\ rx_part e' = rx_part e
    /\ tx_maxsize e' = tx_maxsize e /\ tx_next e' = tx_next e /\ tx_size e' = tx_size e
    /\ (queue e' = queue e
        \/ exists q1 x q2, queue e = q1 ++ (0, x) :: q2 /\ queue e' = q1 ++ q2).
Proof.
  intros Hwf. pose proof Hwf as [Hcfg Hn Hst Hend Hts Hbs Hsegs Htl Havg].
  unfold nr_rlc_entity_um_discard_sdu.
  destruct (find_sdu_ok (st e) (tx_list e) id (tx_list e) Hst) as (before & from & E & El); [done|].
  rewrite E, res_bind_unfold. destruct from as [|cur after].
  { exists e. split_and!; try done. by left. }
  destruct (Seg.is_first cur) eqn:Ef; simpl negb; [|exists e; split_and!; try done; by left].
  destruct (Seg.is_last cur) eqn:Elst; simpl orb; [|exists e; split_and!; try done; by left].
  rewrite El in *. assert (Hp : before ++ cur :: after ≡ₚ cur :: before ++ after) by solve_Permutation.
  pose proof Hst as Hst0. rewrite Hp in Hst.
  destruct (Store.free_segment_ok _ _ _ Hst) as (b & st' & d & Efr & Hst' & _).
  rewrite Efr, res_bind_unfold. eexists. split; [reflexivity|].
  pose proof (Store.free_related _ _ _ _ _ Hst Efr) as Hrel.
  apply (Store.related_impl _ Store.same_bytes) in Hrel; [|by intros ?? []].
  rewrite (zsum_perm _ _ _ Hp), zsum_cons in Hts. rewrite (zsum_perm _ _ _ Hp), zsum_cons in Hbs.
  pose proof (wf_segs _ Hwf) as Hs0. rewrite El in Hs0. rewrite Hp in Hs0.
  apply Forall_cons in Hs0 as [Hcur Hsegs']. destruct Hcur as (d0 & _ & _ & _ & _ & Hso).
  rewrite Ef in Hso.
  split; [|split_and!; try done].
  - constructor; simpl; try done.
    + by constructor; apply Hcfg.
    + rewrite Hend. apply tail_of_remove, (Store.ok_nodup _ _ Hst0).
    + destruct (Store.deref_ok _ _ cur Hst) as (d1 & _ & _ & Hr); [left|].
      unfold Store.in_range in Hr. lia.
    + rewrite (um_zsum_pdu_size_cfg e) by done. rewrite Hbs.
      change (pdu_size e cur) with (compute_pdu_header_size e cur + Seg.size cur). lia.
    + by apply (um_seg_ok_related (st e)).
    + destruct before as [|x before]; simpl in *; [by destruct Htl|].
      rewrite Forall_app in *. destruct Htl as [? Htl]. by apply Forall_cons in Htl as [_ ?].
  - right. unfold queue. rewrite El. simpl. rewrite (um_queue_related (st e) _ _ Hrel), !map_app. simpl.
    rewrite Hso. eauto.
Qed.

(** Re-establishment empties the entity and frees every SDU. *)
Lemma um_clear_spec e :
  wf e -> exists e', clear_entity e = Ok e' /\ wf e' /\ queue e' = [] /\ tx_next e' = 0
    /\ tx_size e' = 0 /\ rx_list e' = [] /\ rx_size e' = 0 /\ Store.sdus (st e') = ∅.
Proof.
  intros [Hcfg Hn Hst Hend Hts Hbs Hsegs Htl Havg]. unfold clear_entity.
  destruct (Store.free_list_ok (tx_list e) (st e) []) as (st' & E & Hok); [by rewrite app_nil_r|].
  rewrite E, res_bind_unfold. eexists. split; [reflexivity|].
  split; [|split_and!; try done; by apply Store.store_ok_nil].
  constructor; simpl; try done; [by constructor; apply Hcfg|lia].
Qed.

End UmTx.
