(* ===== verification/RlcUmRx.v ===== *)
(** * RLC unacknowledged mode: correctness of the receiving side

    [wf] is the invariant of the reassembly window: the received segments have
    an SN of the window and are ordered by SN and offset, the segments of a
    delivered SDU have lost their data, first segment included.  [honest D]
    says that the segments not delivered yet are slices of the SDUs [D sn] of
    the peer.  Reception of a segment then never faults, keeps both, and
    delivers exactly the SDU [D sn] when the segment completes it. *)

From S2P Require Import Prelude TimeStat RlcPdu RlcSdu RlcEntity RlcUm RlcUmTx.

Module UmRx.
Import Entity Um.

(** ** The segments of one SDU *)

(** Distance of an SN from the start of the reassembly window. *)
Definition off (e : t) (a : Z) : Z := (a - (rx_next_highest e - window_size e)) mod sn_modulus e.

(** The order of the reception list. *)
Definition ord (o : Z -> Z) (p q : Pdu.nr_rlc_pdu_t) : Prop :=
  o (Pdu.sn p) < o (Pdu.sn q) \/ (Pdu.sn p = Pdu.sn q /\ Pdu.so p <= Pdu.so q).

Definition chain (l : list Pdu.nr_rlc_pdu_t) (sn : Z) : list Pdu.nr_rlc_pdu_t :=
  filter (fun p => Pdu.sn p = sn) l.

#[global] Instance ord_trans o : Transitive (ord o).
Proof.
  intros p q r [H1|[E1 H1]] [H2|[E2 H2]]; unfold ord; [left; lia| | |right; lia].
  - left. by rewrite <- E2.
  - left. by rewrite E1.
Qed.

Lemma ord_le o p q : ord o p q -> o (Pdu.sn p) <= o (Pdu.sn q).
Proof. intros [?|[-> _]]; lia. Qed.

(** Behind a segment of another SDU, there is no segment of this one. *)
Lemma chain_after o p l sn :
  Forall (ord o p) l -> o sn < o (Pdu.sn p) -> chain l sn = [].
Proof.
  intros Hl Hlt. induction Hl as [|q l Hq _ IH]; [done|]. unfold chain. rewrite filter_cons_False.
  - exact IH.
  - intros <-. apply ord_le in Hq. lia.
Qed.

Lemma same_sn_chain o p l sn :
  Pdu.sn p = sn -> Forall (ord o p) l -> StronglySorted (ord o) l -> same_sn l sn = chain l sn.
Proof.
  intros Hp Hl Hs. induction Hs as [|q l Hs IH Hq]; [done|]. simpl.
  apply Forall_cons in Hl as [Hpq Hl]. destruct (Z.eqb_spec (Pdu.sn q) sn) as [E|E].
  - unfold chain. rewrite filter_cons_True by done. f_equal. by apply IH.
  - unfold chain. rewrite filter_cons_False by done. symmetry. apply (chain_after o q); [done|].
    destruct Hpq as [H|[H _]]; [by rewrite Hp in H|congruence].
Qed.

(** In an ordered list, the C loops see all the segments of an SDU. *)
Lemma segments_chain o l sn : StronglySorted (ord o) l -> segments l sn = chain l sn.
Proof.
  intros Hs. induction Hs as [|p l Hs IH Hp]; [done|]. unfold segments in *. simpl.
  destruct (Z.eqb_spec (Pdu.sn p) sn) as [E|E].
  - simpl. rewrite <- E, Z.eqb_refl. unfold chain. rewrite filter_cons_True by done. f_equal.
    rewrite E. by apply (same_sn_chain o p).
  - unfold chain. by rewrite filter_cons_False by done.
Qed.

Lemma delivered_find l sn : Chain.delivered (find_sn l sn) = Chain.delivered (segments l sn).
Proof.
  unfold segments. induction l as [|p l IH]; simpl; [done|].
  destruct (Z.eqb_spec (Pdu.sn p) sn) as [E|E]; [|done]. simpl. by rewrite <- E, Z.eqb_refl.
Qed.

Lemma sdu_delivered_chain e sn :
  StronglySorted (ord (off e)) (rx_list e) ->
  sdu_delivered e sn = Chain.delivered (chain (rx_list e) sn).
Proof. intros Hs. unfold sdu_delivered. by rewrite delivered_find, (segments_chain (off e)). Qed.

Lemma release_same_map o p l sn :
  Pdu.sn p = sn -> Forall (ord o p) l -> StronglySorted (ord o) l ->
  release_same l sn = map (fun q => if Pdu.sn q =? sn then Chain.free_data q else q) l.
Proof.
  intros Hp Hl Hs. induction Hs as [|q l Hs IH Hq]; [done|]. simpl.
  apply Forall_cons in Hl as [Hpq Hl]. destruct (Z.eqb_spec (Pdu.sn q) sn) as [E|E].
  - f_equal. by apply IH.
  - f_equal. assert (Hlt : o sn < o (Pdu.sn q)) by (destruct Hpq as [H|[H _]]; [by rewrite Hp in H|congruence]).
    clear -Hq Hlt. induction Hq as [|r l Hr _ IH]; [done|]. simpl.
    destruct (Z.eqb_spec (Pdu.sn r) sn) as [<-|]; [apply ord_le in Hr; lia|]. by rewrite <- IH.
Qed.

Lemma release_map o l sn :
  StronglySorted (ord o) l ->
  release l sn = map (fun q => if Pdu.sn q =? sn then Chain.free_data q else q) l.
Proof.
  intros Hs. induction Hs as [|p l Hs IH Hp]; [done|]. simpl.
  destruct (Z.eqb_spec (Pdu.sn p) sn) as [E|E].
  - f_equal. by apply (release_same_map o p).
  - by rewrite IH.
Qed.

(** ** Invariant *)

(** A received segment: it holds bytes until its SDU is delivered. *)
Definition node_ok (M : Z) (p : Pdu.nr_rlc_pdu_t) : Prop :=
  0 <= Pdu.sn p < M /\ 0 <= Pdu.so p /\ (Pdu.is_first p = true <-> Pdu.so p = 0)
  /\ ~ (Pdu.is_first p = true /\ Pdu.is_last p = true)
  /\ match Pdu.data p with
     | None => Pdu.size p = 0
     | Some d => Pdu.size p = zlen d /\ 0 < Pdu.size p
     end.

(** The first segment of an SDU tells whether the SDU was delivered. *)
Definition heads_ok (l : list Pdu.nr_rlc_pdu_t) : Prop :=
  forall sn p, p ∈ chain l sn -> Pdu.data p = None ->
    exists h tl, chain l sn = h :: tl /\ Pdu.data h = None /\ Pdu.so h = 0.

Record list_ok (o : Z -> Z) (M : Z) (l : list Pdu.nr_rlc_pdu_t) : Prop := {
  lo_sorted : StronglySorted (ord o) l;
  lo_nodes : Forall (node_ok M) l;
  lo_heads : heads_ok l
}.

(** The reassembly window is [rx_next_highest - window_size, rx_next_highest). *)
Definition in_window (e : t) (p : Pdu.nr_rlc_pdu_t) : Prop := off e (Pdu.sn p) < window_size e.

(** The invariant without the timer. *)
Record core (e : t) : Prop := {
  c_cfg : UmTx.cfg e;
  c_highest : 0 <= rx_next_highest e < sn_modulus e;
  c_reassembly : 0 <= rx_next_reassembly e < sn_modulus e;
  c_trigger : 0 <= rx_timer_trigger e < sn_modulus e;
  c_next : off e (rx_next_reassembly e) <= window_size e;
  c_list : list_ok (off e) (sn_modulus e) (rx_list e);
  c_window : Forall (in_window e) (rx_list e);
  c_size : Chain.rx_bytes (rx_list e) <= rx_size e;
  c_max : rx_size e <= rx_maxsize e
}.

Definition timer_ok (e : t) : Prop :=
  t_reassembly_start e <> 0 -> off e (rx_timer_trigger e) <= window_size e.

Definition wf (e : t) : Prop := core e /\ timer_ok e.

Lemma um_cfg_window e : UmTx.cfg e -> sn_modulus e = 2 * window_size e /\ 0 < window_size e.
Proof.
  intros [Hl Hm Hw]. rewrite Hw, Hm. by destruct Hl as [-> | ->].
Qed.

(** The C comparison of SNs is the comparison of distances. *)
Lemma um_modulus_rx_off e a :
  UmTx.cfg e -> 0 <= rx_next_highest e < sn_modulus e -> 0 <= a < sn_modulus e ->
  modulus_rx e a = off e a.
Proof.
  intros Hc Hh Ha. destruct (um_cfg_window e Hc) as [Hm Hw]. unfold modulus_rx, off.
  destruct (Z.ltb_spec (a - (rx_next_highest e - window_size e)) 0).
  - rewrite Z.rem_mod_nonneg by lia.
    by rewrite <- (Z.mod_add (a - _) 1 (sn_modulus e)), Z.mul_1_l by lia.
  - by rewrite Z.rem_mod_nonneg by lia.
Qed.

Lemma compare_off e a b :
  UmTx.cfg e -> 0 <= rx_next_highest e < sn_modulus e ->
  0 <= a < sn_modulus e -> 0 <= b < sn_modulus e -> sn_compare_rx e a b = off e a - off e b.
Proof. intros. unfold sn_compare_rx. by rewrite !um_modulus_rx_off. Qed.

Lemma off_highest e : UmTx.cfg e -> off e (rx_next_highest e) = window_size e.
Proof.
  intros Hc. destruct (um_cfg_window e Hc). unfold off.
  replace (rx_next_highest e - (rx_next_highest e - window_size e)) with (window_size e) by lia.
  apply Z.mod_small. lia.
Qed.

Lemma um_off_range e a : UmTx.cfg e -> 0 <= off e a < sn_modulus e.
Proof. intros Hc. destruct (um_cfg_window e Hc). apply Z.mod_pos_bound. lia. Qed.

(** ** Operations on ordered lists *)

(** Segments with a distance below some bound are a prefix of the list, and
    nothing that matters is in it when it is removed. *)
Lemma list_ok_suffix o M l1 l2 :
  list_ok o M (l1 ++ l2) -> Forall (fun p => Forall (fun q => o (Pdu.sn q) < o (Pdu.sn p)) l1) l2 ->
  list_ok o M l2.
Proof.
  intros [Hs Hn Hh] Hlt. constructor.
  - clear -Hs. induction l1 as [|p l1 IH]; [done|]. inversion Hs; subst. auto.
  - by apply Forall_app in Hn as [_ Hn].
  - intros sn p Hp Hd. assert (Hc : chain l1 sn = []).
    { apply list_elem_of_filter in Hp as [Hsn Hp]. rewrite Forall_forall in Hlt.
      specialize (Hlt p Hp). clear -Hlt Hsn. unfold chain.
      induction Hlt as [|q l Hq _ IH]; [done|]. rewrite filter_cons_False; [done|].
      intros E. rewrite Hsn, E in Hq. lia. }
    assert (Hc2 : chain (l1 ++ l2) sn = chain l2 sn).
    { unfold chain in *. by rewrite filter_app, Hc. }
    specialize (Hh sn p). rewrite Hc2 in Hh. auto.
Qed.

(** Another distance with the same order. *)
Lemma list_ok_ext o o' M l :
  list_ok o M l ->
  (forall p q, p ∈ l -> q ∈ l -> o (Pdu.sn p) < o (Pdu.sn q) -> o' (Pdu.sn p) < o' (Pdu.sn q)) ->
  list_ok o' M l.
Proof.
  intros [Hs Hn Hh] Hoo. constructor; try done. clear Hn Hh.
  induction Hs as [|p l Hs IH Hp]; constructor.
  - apply IH. intros; apply Hoo; by try right.
  - rewrite Forall_forall in *. intros q Hq. specialize (Hp q Hq).
    destruct Hp as [Hp|Hp]; [left|by right]. apply Hoo; [left|by right|done].
Qed.

Section insertion.
Context (e : t) (Hc : UmTx.cfg e) (Hh : 0 <= rx_next_highest e < sn_modulus e).
Context (pdu : Pdu.nr_rlc_pdu_t) (Hpdu : node_ok (sn_modulus e) pdu).

Let stop (cur : Pdu.nr_rlc_pdu_t) : bool :=
  (sn_compare_rx e (Pdu.sn cur) (Pdu.sn pdu) >? 0)
  || ((Pdu.sn cur =? Pdu.sn pdu) && (Pdu.so cur >? Pdu.so pdu)).

Lemma stop_spec cur :
  node_ok (sn_modulus e) cur ->
  if stop cur then ord (off e) pdu cur else ord (off e) cur pdu.
Proof using Hc Hh Hpdu.
  intros [Hcur _]. destruct Hpdu as [Hp _]. unfold stop. rewrite compare_off by done.
  rewrite !Z.gtb_ltb. unfold ord.
  destruct (Z.ltb_spec 0 (off e (Pdu.sn cur) - off e (Pdu.sn pdu))); simpl; [left; lia|].
  destruct (Z.eqb_spec (Pdu.sn cur) (Pdu.sn pdu)) as [E|E]; simpl.
  - destruct (Z.ltb_spec (Pdu.so pdu) (Pdu.so cur)); right; lia.
  - left. destruct (decide (off e (Pdu.sn cur) = off e (Pdu.sn pdu))) as [Eo|]; [|lia].
    exfalso. apply E. by apply (sub_mod_inj (sn_modulus e) _ _ (rx_next_highest e - window_size e)).
Qed.

Lemma chain_insert_head l h tl :
  StronglySorted (ord (off e)) l -> Forall (node_ok (sn_modulus e)) l ->
  chain l (Pdu.sn pdu) = h :: tl -> Pdu.so h = 0 ->
  exists tl', chain (Pdu.insert_before stop pdu l) (Pdu.sn pdu) = h :: tl'.
Proof using Hc Hh Hpdu.
  intros Hs Hn Ech Hso. induction Hs as [|q l Hs IH Hq]; [done|].
  apply Forall_cons in Hn as [Hq0 Hn]. unfold chain in Ech |- *. simpl.
  destruct (decide (Pdu.sn q = Pdu.sn pdu)) as [E|E].
  - rewrite filter_cons_True in Ech by done. injection Ech as -> _.
    assert (Hst : stop h = false).
    { destruct Hpdu as (Hp & Hpso & _). unfold stop. rewrite compare_off by (apply Hq0 || done).
      rewrite E, !Z.gtb_ltb. zcases; simpl; try lia; done. }
    rewrite Hst, filter_cons_True by done. eauto.
  - rewrite filter_cons_False in Ech by done.
    assert (Hin : h ∈ l).
    { assert (h ∈ h :: tl) as Hin by left. rewrite <- Ech in Hin.
      by apply list_elem_of_filter in Hin as [_ Hin]. }
    assert (Hsn : Pdu.sn h = Pdu.sn pdu).
    { assert (h ∈ h :: tl) as Hin' by left. rewrite <- Ech in Hin'.
      by apply list_elem_of_filter in Hin' as [? _]. }
    assert (Hst : stop q = false).
    { rewrite Forall_forall in Hq. specialize (Hq h Hin).
      pose proof (stop_spec q Hq0) as Hsp. destruct (stop q); [|done].
      destruct Hq as [Hq|[Hq _]]; [|congruence]. apply ord_le in Hsp. rewrite Hsn in Hq. lia. }
    rewrite Hst, filter_cons_False by done. by apply IH.
Qed.

Lemma chain_insert l :
  chain (Pdu.insert_before stop pdu l) (Pdu.sn pdu) ≡ₚ pdu :: chain l (Pdu.sn pdu).
Proof.
  unfold chain. rewrite (Pdu.insert_before_perm stop pdu l). by rewrite filter_cons_True.
Qed.

Lemma chain_insert_other l sn :
  sn <> Pdu.sn pdu -> chain (Pdu.insert_before stop pdu l) sn = chain l sn.
Proof.
  intros Hne. unfold chain. induction l as [|q l IH]; simpl; [by rewrite filter_cons_False|].
  destruct (stop q); [by rewrite (filter_cons_False (fun p => Pdu.sn p = sn) pdu)|].
  destruct (decide (Pdu.sn q = sn)); [rewrite !filter_cons_True by done|
    rewrite !filter_cons_False by done]; by rewrite IH.
Qed.

Lemma insert_ok l :
  Pdu.data pdu <> None -> list_ok (off e) (sn_modulus e) l ->
  list_ok (off e) (sn_modulus e) (Pdu.nr_rlc_pdu_list_add (sn_compare_rx e) l pdu).
Proof using Hc Hh Hpdu.
  intros Hd [Hs Hn Hhd]. unfold Pdu.nr_rlc_pdu_list_add. fold stop. constructor.
  - apply Pdu.insert_before_sorted; [apply _| |done].
    eapply Forall_impl; [exact Hn|]. apply stop_spec.
  - rewrite Pdu.insert_before_perm. by constructor.
  - intros sn p Hp Hpd. destruct (decide (sn = Pdu.sn pdu)) as [->|Hne].
    + assert (Hp' : p ∈ chain l (Pdu.sn pdu)).
      { rewrite chain_insert in Hp. apply elem_of_cons in Hp as [->|Hp]; done. }
      destruct (Hhd _ p Hp' Hpd) as (h & tl & Ech & Hhn & Hhs).
      destruct (chain_insert_head l h tl Hs Hn Ech Hhs) as (tl' & ->). eauto.
    + rewrite chain_insert_other in * by done. eauto.
Qed.

(** A segment alone does not complete an SDU. *)
Lemma full_needs_others l :
  chain l (Pdu.sn pdu) = [] ->
  Chain.full (chain (Pdu.insert_before stop pdu l) (Pdu.sn pdu)) = false.
Proof using Hpdu.
  intros Hl. pose proof (chain_insert l) as Hp. rewrite Hl in Hp.
  apply Permutation_singleton_r in Hp. rewrite Hp. unfold Chain.full. simpl.
  destruct (Pdu.data pdu); [|done]. destruct Hpdu as (_ & Hso & Hf & Hfl & _).
  rewrite Z.gtb_ltb. destruct (Z.ltb_spec (-1 + 1) (Pdu.so pdu)); [done|].
  destruct (Pdu.is_last pdu); [|done]. exfalso. apply Hfl. split; [|done]. apply Hf. lia.
Qed.

End insertion.

(** ** The window *)

Lemma off_add e a j :
  UmTx.cfg e -> 0 <= j -> off e a + j < sn_modulus e ->
  off e ((a + j) mod sn_modulus e) = off e a + j.
Proof.
  intros Hc Hj Hlt. destruct (um_cfg_window e Hc). pose proof (um_off_range e a Hc).
  unfold off in *. rewrite Zminus_mod_idemp_l.
  replace (a + j - (rx_next_highest e - window_size e))
    with (a - (rx_next_highest e - window_size e) + j) by lia.
  rewrite <- Z.add_mod_idemp_l by lia. apply Z.mod_small. lia.
Qed.

Lemma to_highest e a :
  UmTx.cfg e -> 0 <= rx_next_highest e < sn_modulus e ->
  (a + (window_size e - off e a)) mod sn_modulus e = rx_next_highest e.
Proof.
  intros Hc Hh. destruct (um_cfg_window e Hc). unfold off.
  rewrite (Z.mod_eq (a - _)) by lia.
  set (q := (a - (rx_next_highest e - window_size e)) / sn_modulus e).
  replace (a + _) with (rx_next_highest e + q * sn_modulus e) by lia.
  rewrite Z.mod_add by lia. by apply Z.mod_small.
Qed.

(** When the window moves up to [x], distances shrink by the same amount. *)
Lemma off_slide e e' x a :
  UmTx.cfg e -> sn_modulus e' = sn_modulus e -> window_size e' = window_size e ->
  rx_next_highest e' = (x + 1) mod sn_modulus e ->
  off e' a = (off e a - (off e x - window_size e + 1)) mod sn_modulus e.
Proof.
  intros Hc Hm Hw Hh. destruct (um_cfg_window e Hc). unfold off. rewrite Hm, Hw, Hh.
  set (M := sn_modulus e) in *. set (W := window_size e) in *. set (h := rx_next_highest e) in *.
  rewrite (Z.mod_eq (x + 1)), (Z.mod_eq (a - (h - W))), (Z.mod_eq (x - (h - W))) by lia.
  set (q1 := (x + 1) / M). set (q2 := (a - (h - W)) / M). set (q3 := (x - (h - W)) / M).
  replace (a - (h - W) - M * q2 - (x - (h - W) - M * q3 - W + 1))
    with (a - (x + 1 - M * q1 - W) + (q3 - q2 - q1) * M) by ring.
  by rewrite Z.mod_add by lia.
Qed.

(** The loops that look for the next SDU end inside the window. *)
Lemma um_skip_ok e a :
  UmTx.cfg e -> 0 <= rx_next_highest e < sn_modulus e ->
  StronglySorted (ord (off e)) (rx_list e) -> Forall (in_window e) (rx_list e) ->
  0 <= a < sn_modulus e -> off e a <= window_size e ->
  exists r, skip_delivered e a = Ok r /\ 0 <= r < sn_modulus e
    /\ off e a <= off e r <= window_size e /\ sdu_delivered e r = false
    /\ forall b, 0 <= b < sn_modulus e -> off e a <= off e b < off e r -> sdu_delivered e b = true.
Proof.
  intros Hc Hh Hs Hw Ha Hoa. destruct (um_cfg_window e Hc) as [Hm Hpos].
  pose proof (um_off_range e a Hc) as Hr.
  assert (Hdh : sdu_delivered e (rx_next_highest e) = false).
  { rewrite sdu_delivered_chain by done. replace (chain _ _) with (@nil Pdu.nr_rlc_pdu_t); [done|].
    symmetry. clear -Hw Hc. unfold chain. induction Hw as [|p l Hp _ IH]; [done|].
    rewrite filter_cons_False; [done|]. intros E. unfold in_window in Hp.
    rewrite E, off_highest in Hp by done. lia. }
  destruct (Chain.first_undelivered_spec (fun s => Ok (sdu_delivered e s)) (sdu_delivered e)
    (sn_modulus e) ltac:(lia) ltac:(done) (Z.to_nat (sn_modulus e)) a
    (Z.to_nat (window_size e - off e a)) Ha) as (j & Hj & E & Hd & Hlt); [lia| |].
  { rewrite Z2Nat.id, to_highest by (done || lia). done. }
  exists ((a + Z.of_nat j) mod sn_modulus e). unfold skip_delivered.
  rewrite off_add by (done || lia). split_and!; try done; try lia.
  1-2: apply Z.mod_pos_bound; lia.
  intros b Hb Hob. specialize (Hlt (Z.to_nat (off e b - off e a)) ltac:(lia)).
  rewrite Z2Nat.id in Hlt by lia. replace ((a + _) mod _) with b in Hlt; [done|].
  apply (sub_mod_inj (sn_modulus e) _ _ (rx_next_highest e - window_size e)); [done| |].
  { apply Z.mod_pos_bound. lia. }
  change (off e b = off e ((a + (off e b - off e a)) mod sn_modulus e)).
  rewrite off_add by (done || lia). lia.
Qed.

(** What the receiving side does not change, the trace apart. *)
Definition frame (e : t) := (UmTx.tx_part e, tx_maxsize e, t_current e, t_reassembly e, rx_maxsize e).

Definition rx_vars (e : t) :=
  (rx_next_highest e, rx_next_reassembly e, rx_timer_trigger e, t_reassembly_start e,
   trace (common e)).

Lemma discard_out_of_window_spec l : forall e,
  exists pre rest e', discard_out_of_window e l = e' /\ l = pre ++ rest
    /\ Forall (fun p => sn_compare_rx e (Pdu.sn p) (rx_next_highest e) >= 0) pre
    /\ Forall (fun p => sn_compare_rx e (Pdu.sn p) (rx_next_highest e) < 0) (take 1 rest)
    /\ rx_list e' = rest /\ rx_size e' = rx_size e - Chain.rx_bytes pre
    /\ frame e' = frame e /\ rx_vars e' = rx_vars e.
Proof.
  induction l as [|p l IH]; intros e; cbn [discard_out_of_window].
  { eexists [], [], _. split; [reflexivity|]. split_and!; try done; try constructor. simpl. lia. }
  rewrite Z.geb_leb. destruct (Z.leb_spec 0 (sn_compare_rx e (Pdu.sn p) (rx_next_highest e))) as [H|H].
  - set (e1 := upd_common _ _).
    assert (F : frame e1 = frame e /\ rx_vars e1 = rx_vars e
      /\ rx_size e1 = rx_size e - Pdu.size p
      /\ (forall a, sn_compare_rx e1 a (rx_next_highest e1) = sn_compare_rx e a (rx_next_highest e)))
      by done.
    clearbody e1. destruct F as (F & V & S & C).
    destruct (IH e1) as (pre & rest & e' & -> & -> & Hpre & Hrest & Hl & Hsz & F' & V').
    eexists (p :: pre), rest, _. split; [reflexivity|]. split_and!; try done; try congruence.
    + constructor; [lia|]. eapply Forall_impl; [exact Hpre|]. intros q. cbv beta. by rewrite C.
    + eapply Forall_impl; [exact Hrest|]. intros q. cbv beta. by rewrite C.
    + unfold Chain.rx_bytes in *. rewrite zsum_cons. lia.
  - eexists [], (p :: l), _. split; [reflexivity|]. split_and!; try done; simpl; try lia.
    repeat constructor. done.
Qed.

Lemma discard_before_reassembly_spec l : forall e,
  exists pre rest e', discard_before_reassembly e l = e' /\ l = pre ++ rest
    /\ Forall (fun p => sn_compare_rx e (Pdu.sn p) (rx_next_reassembly e) < 0) pre
    /\ Forall (fun p => 0 <= sn_compare_rx e (Pdu.sn p) (rx_next_reassembly e)) (take 1 rest)
    /\ rx_list e' = rest /\ rx_size e' = rx_size e
    /\ frame e' = frame e /\ rx_vars e' = rx_vars e.
Proof.
  induction l as [|p l IH]; intros e; cbn [discard_before_reassembly].
  { eexists [], [], _. split; [reflexivity|]. split_and!; try done; constructor. }
  destruct (Z.ltb_spec (sn_compare_rx e (Pdu.sn p) (rx_next_reassembly e)) 0) as [H|H].
  - set (e1 := upd_common _ _).
    assert (F : frame e1 = frame e /\ rx_vars e1 = rx_vars e /\ rx_size e1 = rx_size e
      /\ (forall a, sn_compare_rx e1 a (rx_next_reassembly e1)
                   = sn_compare_rx e a (rx_next_reassembly e))) by done.
    clearbody e1. destruct F as (F & V & S & C).
    destruct (IH e1) as (pre & rest & e' & -> & -> & Hpre & Hrest & Hl & Hsz & F' & V').
    eexists (p :: pre), rest, _. split; [reflexivity|]. split_and!; try done; try congruence.
    + constructor; [lia|]. eapply Forall_impl; [exact Hpre|]. intros q. cbv beta. by rewrite C.
    + eapply Forall_impl; [exact Hrest|]. intros q. cbv beta. by rewrite C.
  - eexists [], (p :: l), _. split; [reflexivity|]. split_and!; try done; simpl; try lia.
    repeat constructor. done.
Qed.

(** The segments whose distance is at least [b] are behind the others. *)
Lemma cut_sorted o b pre rest :
  StronglySorted (ord o) (pre ++ rest) -> Forall (fun p => o (Pdu.sn p) < b) pre ->
  Forall (fun p => b <= o (Pdu.sn p)) (take 1 rest) ->
  Forall (fun p => b <= o (Pdu.sn p)) rest
  /\ Forall (fun p => Forall (fun q => o (Pdu.sn q) < o (Pdu.sn p)) pre) rest.
Proof.
  intros Hs Hpre Hrest.
  assert (Hall : Forall (fun p => b <= o (Pdu.sn p)) rest).
  { destruct rest as [|r rest]; [done|]. apply Forall_cons in Hrest as [Hr _]. constructor; [done|].
    assert (Hs' : StronglySorted (ord o) (r :: rest)).
    { clear -Hs. induction pre as [|p pre IH]; [done|]. inversion Hs; subst. auto. }
    inversion Hs' as [|?? _ Hf]; subst. eapply Forall_impl; [exact Hf|].
    intros q Hq%ord_le. lia. }
  split; [done|]. eapply Forall_impl; [exact Hall|]. intros p Hp.
  eapply Forall_impl; [exact Hpre|]. intros q Hq. cbv beta in *. lia.
Qed.

(** ** Delivery *)

(** The segments not delivered yet are slices of the SDUs of the peer. *)
Definition honest (D : Z -> list Z) (l : list Pdu.nr_rlc_pdu_t) : Prop :=
  Forall (fun p => Pdu.data p <> None ->
            Chain.slice_of (D (Pdu.sn p)) p /\ zlen (D (Pdu.sn p)) <= NR_SDU_MAX) l.

Lemma full_head l : Chain.full l = true -> exists h tl, l = h :: tl /\ Pdu.data h <> None /\ Pdu.so h <= 0.
Proof.
  unfold Chain.full. destruct l as [|h tl]; [done|]. simpl.
  destruct (Pdu.data h) eqn:Ed; [|done]. rewrite Z.gtb_ltb.
  destruct (Z.ltb_spec (-1 + 1) (Pdu.so h)); [done|]. intros _. exists h, tl. rewrite Ed.
  split_and!; done || lia.
Qed.

(** A complete SDU is reassembled. *)
Lemma reassemble_full D l sn :
  honest D l -> heads_ok l -> Chain.full (chain l sn) = true ->
  Chain.reassemble (chain l sn) = Ok (Some (D sn)).
Proof.
  intros Hh Hhd Hf. destruct (full_head _ Hf) as (h & tl & Ech & Hd & _).
  assert (Hnn : forall p, p ∈ chain l sn -> Pdu.data p <> None).
  { intros p Hp Hpn. destruct (Hhd sn p Hp Hpn) as (h' & tl' & Ech' & Hd' & _). congruence. }
  unfold honest in Hh. rewrite Forall_forall in Hh.
  assert (Hin : forall p, p ∈ chain l sn -> Chain.slice_of (D sn) p /\ zlen (D sn) <= NR_SDU_MAX).
  { intros p Hp. pose proof (Hnn p Hp). apply list_elem_of_filter in Hp as [<- Hp]. by apply Hh. }
  apply Chain.reassemble_correct; [|apply Forall_forall; intros p Hp; by apply Hin|done].
  apply (Hin h). rewrite Ech. left.
Qed.

(** What delivery does to the list. *)
Definition freed (sn : Z) (p : Pdu.nr_rlc_pdu_t) : Pdu.nr_rlc_pdu_t :=
  if Pdu.sn p =? sn then Chain.free_data p else p.

Lemma freed_key sn p : Pdu.sn (freed sn p) = Pdu.sn p /\ Pdu.so (freed sn p) = Pdu.so p.
Proof. unfold freed. by destruct (Pdu.sn p =? sn). Qed.

Lemma chain_freed sn l a : chain (map (freed sn) l) a = map (freed sn) (chain l a).
Proof.
  unfold chain. induction l as [|p l IH]; [done|]. simpl. destruct (freed_key sn p) as [E _].
  destruct (decide (Pdu.sn p = a)); [rewrite !filter_cons_True by congruence|
    rewrite !filter_cons_False by congruence]; simpl; by rewrite IH.
Qed.

Lemma freed_ok o M sn l :
  list_ok o M l -> Chain.full (chain l sn) = true -> list_ok o M (map (freed sn) l).
Proof.
  intros [Hs Hn Hh] Hf. constructor.
  - clear -Hs. induction Hs as [|p l Hs IH Hp]; simpl; constructor; [done|].
    apply Forall_map. eapply Forall_impl; [exact Hp|]. intros q Hq. unfold ord in *.
    destruct (freed_key sn p) as [-> ->], (freed_key sn q) as [-> ->]. done.
  - apply Forall_map. eapply Forall_impl; [exact Hn|]. intros p Hp. unfold freed.
    destruct (Pdu.sn p =? sn); [|done]. destruct Hp as (? & ? & ? & ? & _). done.
  - intros a p Hp Hd. rewrite chain_freed in *. destruct (decide (a = sn)) as [->|Hne].
    + destruct (full_head _ Hf) as (h & tl & Ech & _ & Hso). rewrite Ech. simpl.
      assert (Hin : h ∈ chain l sn) by (rewrite Ech; left).
      apply list_elem_of_filter in Hin as [Hsn Hin]. rewrite Forall_forall in Hn.
      destruct (Hn h Hin) as (_ & ? & _). exists (freed sn h), (map (freed sn) tl).
      split_and!; [done| |destruct (freed_key sn h) as [_ ->]; lia].
      unfold freed. by rewrite Hsn, Z.eqb_refl.
    + assert (E : map (freed sn) (chain l a) = chain l a).
      { clear -Hne. unfold chain. induction l as [|q l IH]; [done|].
        destruct (decide (Pdu.sn q = a)) as [E|E]; [rewrite !filter_cons_True by done|
          rewrite !filter_cons_False by done; done]. simpl. rewrite IH. f_equal.
        unfold freed. destruct (Z.eqb_spec (Pdu.sn q) sn); [congruence|done]. }
      rewrite E in *. by apply (Hh a p).
Qed.

Lemma honest_sub D l l' : l' ⊆ l -> honest D l -> honest D l'.
Proof. intros Hs H. unfold honest in *. rewrite Forall_forall in *. auto. Qed.

Lemma honest_freed D sn l : honest D l -> honest D (map (freed sn) l).
Proof.
  intros H. apply Forall_map. eapply Forall_impl; [exact H|]. intros p Hp. unfold freed.
  by destruct (Pdu.sn p =? sn).
Qed.

Lemma rx_bytes_freed M sn l :
  Forall (node_ok M) l ->
  Chain.rx_bytes (map (freed sn) l) = Chain.rx_bytes l - Chain.rx_bytes (chain l sn).
Proof.
  unfold Chain.rx_bytes, chain. induction 1 as [|p l Hp _ IH]; [done|]. simpl map.
  rewrite !zsum_cons, IH. unfold freed. destruct (Z.eqb_spec (Pdu.sn p) sn) as [E|E].
  - rewrite filter_cons_True, zsum_cons by done. simpl. lia.
  - rewrite filter_cons_False by done. lia.
Qed.

Lemma rx_bytes_nonneg M l : Forall (node_ok M) l -> 0 <= Chain.rx_bytes l.
Proof.
  intros Hn. apply zsum_nonneg. eapply Forall_impl; [exact Hn|].
  intros p (_ & _ & _ & _ & Hd). destruct (Pdu.data p); lia.
Qed.

(** The state after a segment of SDU [x] was put in the list. *)
Record inserted (e : t) (x : Z) : Prop := {
  i_cfg : UmTx.cfg e;
  i_highest : 0 <= rx_next_highest e < sn_modulus e;
  i_reassembly : 0 <= rx_next_reassembly e < sn_modulus e;
  i_trigger : 0 <= rx_timer_trigger e < sn_modulus e;
  i_x : 0 <= x < sn_modulus e;
  i_next : off e (rx_next_reassembly e) <= window_size e;
  i_list : list_ok (off e) (sn_modulus e) (rx_list e);
  i_window : Forall (fun p => in_window e p \/ Pdu.sn p = x) (rx_list e);
  i_alone : window_size e <= off e x -> Chain.full (chain (rx_list e) x) = false;
  i_size : Chain.rx_bytes (rx_list e) <= rx_size e;
  i_max : rx_size e <= rx_maxsize e
}.

Lemma inserted_window e x :
  inserted e x -> off e x < window_size e -> Forall (in_window e) (rx_list e).
Proof.
  intros Hi Hx. eapply Forall_impl; [apply (i_window _ _ Hi)|]. intros p [H|H]; [done|].
  unfold in_window. by rewrite H.
Qed.

(** The invariant depends on the fields of the receiving side only. *)
Definition rx_fields (e : t) :=
  (sn_field_length e, sn_modulus e, window_size e, rx_next_highest e, rx_list e, rx_size e,
   rx_maxsize e).

Lemma um_core_fields e e' :
  rx_fields e' = rx_fields e -> core e ->
  0 <= rx_next_reassembly e' < sn_modulus e -> off e (rx_next_reassembly e') <= window_size e ->
  0 <= rx_timer_trigger e' < sn_modulus e -> core e'.
Proof.
  intros [= E1 E2 E3 E4 E5 E6 E7] [[? ? ?] ? ? ? ? ? Hw ? ?] H1 H2 H3.
  assert (Eo : off e' = off e) by (unfold off; by rewrite E2, E3, E4).
  constructor; rewrite ?Eo, ?E2, ?E3, ?E4, ?E5, ?E6, ?E7; try done.
  - constructor; by rewrite ?E1, ?E2, ?E3.
  - eapply Forall_impl; [exact Hw|]. intros p. unfold in_window. by rewrite Eo, E3.
Qed.

Lemma core_set_next e r :
  core e -> 0 <= r < sn_modulus e -> off e r <= window_size e ->
  core {| e with rx_next_reassembly := r |}.
Proof. intros Hco Hr Ho. apply (um_core_fields e); try done. apply Hco. Qed.

(** Starting the timer, and stopping it. *)
Lemma core_timer e t0 :
  core e -> core {| e with t_reassembly_start := t0; rx_timer_trigger := rx_next_highest e |}
  /\ core {| e with t_reassembly_start := t0 |}.
Proof. intros Hco. split; apply (um_core_fields e); try done; apply Hco. Qed.

(** The SDU [x] is complete: it is delivered. *)
Lemma um_deliver_ok D e x :
  inserted e x -> honest D (rx_list e) -> sdu_full e x = true ->
  exists e', reassemble_and_deliver e x = Ok e' /\ core e' /\ honest D (rx_list e')
    /\ frame e' = frame e
    /\ rx_vars e' = (rx_next_highest e, rx_next_reassembly e, rx_timer_trigger e,
                     t_reassembly_start e, trace (common e) ++ [DeliverSdu (D x)]).
Proof.
  intros Hi Hh Hf. pose proof Hi as [Hc H1 H2 H3 Hx H4 Hl _ Ha H5 H6].
  unfold sdu_full in Hf. pose proof (lo_sorted _ _ _ Hl) as Hs.
  rewrite (segments_chain (off e)) in Hf by done.
  assert (Hxw : off e x < window_size e).
  { destruct (decide (window_size e <= off e x)) as [H|]; [|lia]. specialize (Ha H). congruence. }
  pose proof (inserted_window _ _ Hi Hxw) as Hw.
  unfold reassemble_and_deliver. rewrite (segments_chain (off e)) by done.
  rewrite (reassemble_full D _ _ Hh (lo_heads _ _ _ Hl) Hf).
  destruct (full_head _ Hf) as (h & tl & Ech & _). rewrite Ech. rewrite res_bind_unfold, <- Ech.
  rewrite (release_map (off e)) by done. eexists. split; [reflexivity|].
  split; [|split; [by apply honest_freed|done]].
  constructor; simpl; try done; [by constructor; apply Hc|by apply freed_ok| | |].
  - apply Forall_map. eapply Forall_impl; [exact Hw|]. intros p Hp. unfold in_window, freed in *.
    by destruct (Pdu.sn p =? x).
  - change (Chain.rx_bytes (map (freed x) (rx_list e)) <= rx_size e - Chain.rx_bytes (chain (rx_list e) x)).
    rewrite (rx_bytes_freed (sn_modulus e)) by apply Hl. lia.
  - assert (0 <= Chain.rx_bytes (chain (rx_list e) x)); [|lia].
    apply (rx_bytes_nonneg (sn_modulus e)), Forall_forall. intros p Hp.
    apply list_elem_of_filter in Hp as [_ Hp]. by apply (proj1 (Forall_forall _ _) (lo_nodes _ _ _ Hl)).
Qed.

(** The window moves up to SN [x], which lies behind it. *)
Section slide.
Context (e e1 : t) (x : Z) (Hi : inserted e x) (Hx : window_size e <= off e x).
Context (Hcfg1 : sn_field_length e1 = sn_field_length e) (Hm : sn_modulus e1 = sn_modulus e)
  (Hw : window_size e1 = window_size e) (Hh : rx_next_highest e1 = (x + 1) mod sn_modulus e).

Let delta := off e x - window_size e + 1.

Lemma slide_cfg : UmTx.cfg e1 /\ 0 <= rx_next_highest e1 < sn_modulus e1 /\ 1 <= delta <= window_size e.
Proof using Hi Hx Hcfg1 Hm Hw Hh.
  pose proof Hi as [Hc _ _ _ _ _ _ _ _ _ _]. destruct (um_cfg_window e Hc).
  pose proof (um_off_range e x Hc). pose proof (Z.mod_pos_bound (x + 1) (sn_modulus e)).
  split; [|rewrite Hh, Hm; unfold delta; lia].
  destruct Hc. constructor; rewrite ?Hcfg1, ?Hm, ?Hw; done.
Qed.

Lemma slide_off a :
  off e1 a = if delta <=? off e a then off e a - delta else off e a - delta + sn_modulus e.
Proof using Hi Hx Hcfg1 Hm Hw Hh.
  pose proof Hi as [Hc _ _ _ _ _ _ _ _ _ _]. destruct slide_cfg as (_ & _ & Hd).
  destruct (um_cfg_window e Hc). pose proof (um_off_range e a Hc).
  rewrite (off_slide e e1 x a) by done. fold delta. destruct (Z.leb_spec delta (off e a)).
  - apply Z.mod_small. lia.
  - rewrite <- (Z.mod_add _ 1) by lia. rewrite Z.mul_1_l. apply Z.mod_small. lia.
Qed.

(** What is left of the list when the segments behind the window are gone. *)
Lemma slide_list pre rest :
  rx_list e = pre ++ rest ->
  Forall (fun p => sn_compare_rx e1 (Pdu.sn p) (rx_next_highest e1) >= 0) pre ->
  Forall (fun p => sn_compare_rx e1 (Pdu.sn p) (rx_next_highest e1) < 0) (take 1 rest) ->
  list_ok (off e1) (sn_modulus e1) rest /\ Forall (in_window e1) rest.
Proof using Hi Hx Hcfg1 Hm Hw Hh.
  intros El Hpre Hrest. pose proof Hi as [Hc _ _ _ _ _ Hl Hwin _ _ _].
  destruct slide_cfg as (Hc1 & Hh1 & Hd). destruct (um_cfg_window e Hc).
  rewrite El in Hl, Hwin. pose proof (lo_nodes _ _ _ Hl) as Hn. rewrite Hm.
  assert (Hle : forall p, p ∈ pre ++ rest -> 0 <= Pdu.sn p < sn_modulus e /\ off e (Pdu.sn p) <= off e x).
  { intros p Hp. split; [by apply (proj1 (Forall_forall _ _) Hn p Hp)|].
    destruct (proj1 (Forall_forall _ _) Hwin p Hp) as [Hq|Hq]; [unfold in_window in Hq; lia|by rewrite Hq]. }
  assert (Hcmp : forall p, p ∈ pre ++ rest ->
    sn_compare_rx e1 (Pdu.sn p) (rx_next_highest e1)
    = (if delta <=? off e (Pdu.sn p) then off e (Pdu.sn p) - delta
       else off e (Pdu.sn p) - delta + sn_modulus e) - window_size e).
  { intros p Hp. destruct (Hle p Hp). rewrite compare_off by (done || by rewrite Hm).
    by rewrite off_highest, slide_off, Hw by done. }
  assert (Hpre' : Forall (fun p => off e (Pdu.sn p) < delta) pre).
  { rewrite Forall_forall in *. intros p Hp. specialize (Hpre p Hp). cbv beta in Hpre.
    assert (Hin : p ∈ pre ++ rest) by (apply elem_of_app; auto).
    rewrite Hcmp in Hpre by done. destruct (Hle p Hin).
    destruct (Z.leb_spec delta (off e (Pdu.sn p))); [unfold delta in *; lia|done]. }
  assert (Hrest' : Forall (fun p => delta <= off e (Pdu.sn p)) (take 1 rest)).
  { rewrite Forall_forall in *. intros p Hp. specialize (Hrest p Hp). cbv beta in Hrest.
    assert (Hin : p ∈ pre ++ rest).
    { apply elem_of_app. right. rewrite <- (take_drop 1 rest). apply elem_of_app. by left. }
    rewrite Hcmp in Hrest by done. pose proof (um_off_range e (Pdu.sn p) Hc).
    destruct (Z.leb_spec delta (off e (Pdu.sn p))); [done|lia]. }
  destruct (cut_sorted (off e) delta pre rest (lo_sorted _ _ _ Hl) Hpre' Hrest') as [Hall Hlt].
  assert (Hoff : forall p, p ∈ rest -> off e1 (Pdu.sn p) = off e (Pdu.sn p) - delta).
  { intros p Hp. rewrite slide_off. pose proof (proj1 (Forall_forall _ _) Hall p Hp) as Hq. cbv beta in Hq.
    by destruct (Z.leb_spec delta (off e (Pdu.sn p))); [|lia]. }
  split.
  - apply (list_ok_ext (off e)); [by apply (list_ok_suffix _ _ pre)|].
    intros p q Hp Hq. rewrite !Hoff by done. lia.
  - apply Forall_forall. intros p Hp. unfold in_window. rewrite Hoff, Hw by done.
    destruct (Hle p) as [_ H2]; [apply elem_of_app; auto|]. unfold delta. lia.
Qed.

End slide.

Lemma update_window_slide D e x :
  inserted e x -> honest D (rx_list e) -> sdu_full e x = false -> window_size e <= off e x ->
  exists e', update_window e x = Ok e' /\ core e' /\ honest D (rx_list e') /\ frame e' = frame e
    /\ t_reassembly_start e' = t_reassembly_start e /\ trace (common e') = trace (common e).
Proof.
  intros Hi Hh Ef Hge. unfold update_window. rewrite Ef.
  pose proof Hi as [Hc H1 H2 H3 Hx H4 Hl _ _ H5 H6]. rewrite compare_off by done.
  rewrite off_highest, Z.geb_leb by done.
  destruct (Z.leb_spec 0 (off e x - window_size e)) as [_|]; [|lia].
  set (e0 := {| e with rx_next_highest := _ |}).
  destruct (discard_out_of_window_spec (rx_list e0) e0)
    as (pre & rest & e1 & -> & El & Hpre & Hrest & Hl1 & Hsz1 & F1 & V1).
  injection V1 as V1 V2 V3 V4 V5. pose proof F1 as F1'. injection F1' as T1 T2 T3 _ _ _ _ _ _ _ _ _ _ T4.
  destruct (slide_cfg e e1 x) as (Hc1 & Hh1 & _); try done.
  destruct (slide_list e e1 x) with (pre := pre) (rest := rest) as [Hlo Hwin]; try done.
  { eapply Forall_impl; [exact Hpre|]. intros p. unfold sn_compare_rx, modulus_rx.
    cbv beta. by rewrite V1, T2, T3. }
  { eapply Forall_impl; [exact Hrest|]. intros p. unfold sn_compare_rx, modulus_rx.
    cbv beta. by rewrite V1, T2, T3. }
  change (rx_list e0) with (rx_list e) in El.
  assert (Hb : Chain.rx_bytes pre + Chain.rx_bytes rest = Chain.rx_bytes (rx_list e)
    /\ 0 <= Chain.rx_bytes pre).
  { rewrite El. unfold Chain.rx_bytes. rewrite zsum_app. split; [done|].
    apply (rx_bytes_nonneg (sn_modulus e)). pose proof (lo_nodes _ _ _ Hl) as Hn.
    rewrite El in Hn. by apply Forall_app in Hn as [Hn _]. }
  assert (Hcore : forall r, 0 <= r < sn_modulus e1 -> off e1 r <= window_size e1 ->
    core {| e1 with rx_next_reassembly := r |}).
  { change (rx_size e0) with (rx_size e) in Hsz1. change (sn_modulus e0) with (sn_modulus e) in T2.
    change (rx_timer_trigger e0) with (rx_timer_trigger e) in V3.
    change (rx_maxsize e0) with (rx_maxsize e) in T4.
    intros r Hr Ho. constructor; simpl; rewrite ?Hl1; try done; try lia; [by constructor; apply Hc1]. }
  assert (Hh1' : honest D rest).
  { apply (honest_sub D (rx_list e)); [|done]. rewrite El. set_solver. }
  change (sn_modulus e0) with (sn_modulus e) in T2.
  change (rx_next_reassembly e0) with (rx_next_reassembly e) in V2.
  rewrite compare_off by (done || rewrite ?T2, ?V2; done).
  rewrite off_highest, Z.geb_leb by done.
  destruct (Z.leb_spec 0 (off e1 (rx_next_reassembly e1) - window_size e1)) as [Hout|Hin].
  + set (a := (rx_next_highest e1 - window_size e1 + sn_modulus e1) mod sn_modulus e1).
    destruct (um_cfg_window e1 Hc1).
    assert (Ha : 0 <= a < sn_modulus e1) by (apply Z.mod_pos_bound; lia).
    assert (Hoa : off e1 a = 0).
    { unfold off, a. rewrite Zminus_mod_idemp_l.
      replace (_ - _) with (1 * sn_modulus e1) by lia. apply Z.mod_mul. lia. }
    destruct (um_skip_ok e1 a) as (r & Er & Hr & Ho & _ & _);
      [done|done|rewrite Hl1; apply Hlo|by rewrite Hl1|done|lia|].
    rewrite Er, res_bind_unfold. eexists. split; [reflexivity|].
    split; [apply Hcore; [done|lia]|]. rewrite <- Hl1 in Hh1'. done.
  + exists e1. split; [done|]. split; [|rewrite Hl1; done].
    replace e1 with {| e1 with rx_next_reassembly := rx_next_reassembly e1 |} by (by destruct e1).
    apply Hcore; [by rewrite V2, T2|lia].
Qed.

Lemma um_update_window_ok D e x :
  inserted e x -> honest D (rx_list e) ->
  exists e', update_window e x = Ok e' /\ core e' /\ honest D (rx_list e') /\ frame e' = frame e
    /\ t_reassembly_start e' = t_reassembly_start e
    /\ trace (common e') = trace (common e) ++ (if sdu_full e x then [DeliverSdu (D x)] else []).
Proof.
  intros Hi Hh. destruct (sdu_full e x) eqn:Ef.
  - unfold update_window. rewrite Ef.
    destruct (um_deliver_ok D e x Hi Hh Ef) as (e1 & E & Hco & Hh1 & F1 & V1).
    rewrite E, res_bind_unfold. injection V1 as V1 V2 V3 V4 V5.
    destruct (x =? rx_next_reassembly e1); [|by exists e1].
    pose proof Hco as [Hc1 Hh' Hr' _ Hn' Hl' Hw' _ _].
    destruct (um_skip_ok e1 (rx_next_reassembly e1)) as (r & Er & Hr & Ho & _ & _); try done; [apply Hl'|].
    rewrite Er, res_bind_unfold. eexists. split; [reflexivity|].
    split; [apply core_set_next; [done|done|lia]|].
    split; [done|]. split; [exact F1|]. split; [exact V4|exact V5].
  - rewrite app_nil_r.
    destruct (decide (window_size e <= off e x)) as [Hge|Hlt]; [by apply update_window_slide|].
    unfold update_window. rewrite Ef. pose proof Hi as [Hc H1 H2 H3 Hx H4 Hl _ _ H5 H6].
    rewrite compare_off, off_highest, Z.geb_leb by done.
    destruct (Z.leb_spec 0 (off e x - window_size e)) as [|_]; [lia|].
    exists e. split_and!; try done. constructor; try done. apply (inserted_window e x Hi). lia.
Qed.

(** ** The timer *)

(** What the timer functions leave alone. *)
Definition timer_frame (e : t) :=
  (rx_fields e, frame e, trace (common e), rx_next_reassembly e).

Lemma um_stop_ok e : core e -> wf (stop_t_reassembly e) /\ timer_frame (stop_t_reassembly e) = timer_frame e.
Proof.
  intros Hco. pose proof Hco as [Hc H1 H2 H3 H4 Hl Hw H5 H6]. unfold stop_t_reassembly.
  rewrite (compare_off e (rx_timer_trigger e) (rx_next_highest e)), off_highest, Z.gtb_ltb by done.
  destruct (Z.eqb_spec (t_reassembly_start e) 0) as [E0|E0]; simpl negb; cbv iota.
  { split; [|done]. split; [done|]. intros Hne. congruence. }
  destruct (Z.ltb_spec 0 (off e (rx_timer_trigger e) - window_size e)) as [Hgt|Hle].
  - rewrite orb_true_r. simpl orb. cbv iota. split; [|done]. by split; [apply core_timer|intros []].
  - destruct (_ || _ || _); (split; [|done]); [by split; [apply core_timer|intros []]|].
    split; [done|]. intros _. lia.
Qed.

Lemma start_timer_ok e :
  wf e -> wf {| e with t_reassembly_start := t_current e; rx_timer_trigger := rx_next_highest e |}.
Proof.
  intros [Hco _]. split; [by apply core_timer|]. intros _.
  change (off e (rx_next_highest e) <= window_size e). rewrite off_highest; [done|apply Hco].
Qed.

Lemma um_start_ok e : wf e -> wf (start_t_reassembly e) /\ timer_frame (start_t_reassembly e) = timer_frame e.
Proof.
  intros Hwf. unfold start_t_reassembly. destruct (t_reassembly_start e =? 0); [|done].
  destruct (_ || _); [|done]. split; [by apply start_timer_ok|done].
Qed.

(** When t_reassembly expires, the window moves to the trigger and the segments
    before it are dropped. *)
Lemma um_check_t_reassembly_ok D e :
  wf e -> honest D (rx_list e) ->
  exists e', check_t_reassembly e = Ok e' /\ wf e' /\ honest D (rx_list e') /\ frame e' = frame e
    /\ trace (common e') = trace (common e).
Proof.
  intros [Hco Ht] Hh. unfold check_t_reassembly.
  destruct (t_reassembly_start e =? 0) eqn:E0; simpl orb; [by exists e|].
  apply Z.eqb_neq in E0. destruct (t_current e <=? _); [by exists e|].
  pose proof Hco as [Hc H1 H2 H3 H4 Hl Hw H5 H6].
  set (e0 := {| e with t_reassembly_start := 0 |}).
  assert (Hco0 : core e0) by (by apply core_timer).
  destruct (um_skip_ok e0 (rx_timer_trigger e)) as (r & Er & Hr & Ho & _ & _);
    [apply Hco0|done|apply Hl|done|done|by apply Ht|].
  change (skip_delivered e0 (rx_timer_trigger e0) = Ok r) in Er. rewrite Er, res_bind_unfold.
  pose proof (core_set_next e0 r Hco0 Hr ltac:(lia)) as Hco1.
  assert (F0 : frame {| e0 with rx_next_reassembly := r |} = frame e) by done.
  assert (V0 : rx_vars {| e0 with rx_next_reassembly := r |}
    = (rx_next_highest e, r, rx_timer_trigger e, 0, trace (common e))) by done.
  assert (Hl0 : rx_list {| e0 with rx_next_reassembly := r |} = rx_list e) by done.
  clear Hc H1 H2 H3 H4 Hl Hw H5 H6 Hr Ho Er. cbv zeta. set (e1 := {| e0 with rx_next_reassembly := r |}) in *.
  clearbody e1. clear e0 Hco0.
  pose proof Hco1 as [Hc H1 H2 H3 H4 Hl Hw H5 H6].
  destruct (discard_before_reassembly_spec (rx_list e1) e1)
    as (pre & rest & e2 & -> & El & Hpre & Hrest & Hl2 & Hs2 & F2 & V2).
  injection V2 as V21 V22 V23 V24 V25. pose proof F2 as F2'.
  injection F2' as T1 T2 T3 _ _ _ _ _ _ _ _ _ _ T4.
  pose proof (lo_nodes _ _ _ Hl) as Hn. rewrite El in Hl, Hw, Hn, H5.
  destruct (cut_sorted (off e1) (off e1 (rx_next_reassembly e1)) pre rest (lo_sorted _ _ _ Hl))
    as [_ Hlt].
  { rewrite Forall_forall in *. intros p Hp. specialize (Hpre p Hp). cbv beta in Hpre.
    destruct (Hn p) as [Hsn _]; [set_solver|]. rewrite compare_off in Hpre by done. lia. }
  { rewrite Forall_forall in *. intros p Hp. specialize (Hrest p Hp). cbv beta in Hrest.
    destruct (Hn p) as [Hsn _].
    { apply elem_of_app. right. rewrite <- (take_drop 1 rest). apply elem_of_app. by left. }
    rewrite compare_off in Hrest by done. lia. }
  assert (Eo : off e2 = off e1) by (unfold off; by rewrite V21, T2, T3).
  assert (Hco2 : core e2).
  { apply Forall_app in Hw as [_ Hw]. apply Forall_app in Hn as [Hn1 Hn2].
    pose proof (rx_bytes_nonneg _ _ Hn1). unfold Chain.rx_bytes in *. rewrite zsum_app in H5.
    constructor; rewrite ?Eo, ?T2, ?T3, ?V21, ?V22, ?V23, ?Hl2, ?Hs2, ?T4; try done.
    - destruct Hc. constructor; by rewrite ?T1, ?T2, ?T3.
    - by apply (list_ok_suffix _ _ pre).
    - eapply Forall_impl; [exact Hw|]. intros p. unfold in_window. by rewrite Eo, T3.
    - unfold Chain.rx_bytes. lia. }
  injection V0 as V01 V02 V03 V04 V05.
  assert (Hwf2 : wf e2) by (split; [done|intros Hne; congruence]).
  assert (Hh2 : honest D rest).
  { apply (honest_sub D (rx_list e)); [|done]. rewrite <- Hl0, El. set_solver. }
  destruct (_ || _); eexists; (split; [reflexivity|]).
  - split; [by apply start_timer_ok|]. simpl. rewrite Hl2. split; [done|].
    split; [|congruence]. rewrite <- F0, <- F2. done.
  - rewrite Hl2. split_and!; try done; congruence.
Qed.

(** Time passes. *)
Lemma set_time_ok D e now :
  wf e -> honest D (rx_list e) ->
  exists e', nr_rlc_entity_um_set_time e now = Ok e' /\ wf e' /\ honest D (rx_list e')
    /\ UmTx.tx_part e' = UmTx.tx_part e /\ tx_maxsize e' = tx_maxsize e
    /\ trace (common e') = trace (common e) /\ t_current e' = now.
Proof.
  intros [Hco Ht] Hh. unfold nr_rlc_entity_um_set_time.
  set (e0 := {| e with t_current := now |}).
  assert (Hwf0 : wf e0).
  { split; [|done]. apply (um_core_fields e); try done; apply Hco. }
  destruct (um_check_t_reassembly_ok D e0 Hwf0 Hh) as (e' & -> & Hwf' & Hh' & F & Tr).
  assert (H : UmTx.tx_part e' = UmTx.tx_part e0 /\ tx_maxsize e' = tx_maxsize e0
    /\ t_current e' = t_current e0) by (unfold frame in F; split_and!; congruence).
  destruct H as (HA & HB & HC). exists e'. by split_and!.
Qed.

(** ** Received PDUs *)

(** A received segment: [n] bytes at offset [so] of the SDU [sn]. *)
Definition accepts (e : t) (sn n : Z) : bool :=
  negb (rx_size e + n >? rx_maxsize e) && negb (sn_compare_rx e sn (rx_next_reassembly e) <? 0).

(** The list once the segment was put in it. *)
Definition with_segment (e : t) (pdu : Pdu.nr_rlc_pdu_t) : list Pdu.nr_rlc_pdu_t :=
  Pdu.nr_rlc_pdu_list_add (sn_compare_rx e) (rx_list e) pdu.

Lemma inserted_ok e pdu :
  core e -> node_ok (sn_modulus e) pdu -> Pdu.data pdu <> None ->
  rx_size e + Pdu.size pdu <= rx_maxsize e ->
  inserted {| e with rx_size := rx_size e + Pdu.size pdu; rx_list := with_segment e pdu |} (Pdu.sn pdu).
Proof.
  intros [Hc H1 H2 H3 H4 Hl Hw H5 H6] Hp Hd Hmax.
  constructor; simpl; try done; try (by constructor; apply Hc); try apply Hp.
  - exact (insert_ok e Hc H1 pdu Hp (rx_list e) Hd Hl).
  - unfold with_segment, Pdu.nr_rlc_pdu_list_add. rewrite Pdu.insert_before_perm.
    constructor; [by right|]. eapply Forall_impl; [exact Hw|]. by left.
  - intros Hge. apply (full_needs_others e pdu Hp). unfold chain.
    change (window_size e <= off e (Pdu.sn pdu)) in Hge. clear -Hw Hge.
    induction Hw as [|q l Hq _ IH]; [done|]. rewrite filter_cons_False; [done|]. intros E.
    unfold in_window in Hq. rewrite E in Hq. lia.
  - unfold with_segment, Pdu.nr_rlc_pdu_list_add, Chain.rx_bytes in *.
    rewrite (zsum_perm _ _ _ (Pdu.insert_before_perm _ pdu _)), zsum_cons. lia.
Qed.

Lemma reception_ok D e pdu :
  wf e -> honest D (with_segment e pdu) -> node_ok (sn_modulus e) pdu -> Pdu.data pdu <> None ->
  rx_size e + Pdu.size pdu <= rx_maxsize e ->
  exists e', reception_actions {| e with rx_size := rx_size e + Pdu.size pdu;
                                         rx_list := with_segment e pdu |} (Pdu.sn pdu) = Ok e'
    /\ wf e' /\ honest D (rx_list e') /\ frame e' = frame e
    /\ trace (common e') = trace (common e)
         ++ (if Chain.full (chain (with_segment e pdu) (Pdu.sn pdu))
             then [DeliverSdu (D (Pdu.sn pdu))] else []).
Proof.
  intros [Hco _] Hh Hp Hd Hmax. pose proof (inserted_ok e pdu Hco Hp Hd Hmax) as Hi.
  unfold reception_actions.
  destruct (um_update_window_ok D _ _ Hi Hh) as (e1 & E & Hco1 & Hh1 & F1 & _ & Tr1).
  rewrite E, res_bind_unfold. eexists. split; [reflexivity|].
  destruct (um_stop_ok e1 Hco1) as [Hwf2 F2]. destruct (um_start_ok _ Hwf2) as [Hwf3 F3].
  split; [done|]. rewrite F2 in F3.
  assert (H3 : rx_list (start_t_reassembly (stop_t_reassembly e1)) = rx_list e1
    /\ frame (start_t_reassembly (stop_t_reassembly e1)) = frame e1
    /\ trace (common (start_t_reassembly (stop_t_reassembly e1))) = trace (common e1)).
  { unfold timer_frame, rx_fields in F3. split_and!; congruence. }
  destruct H3 as (-> & -> & ->). split; [done|]. split; [exact F1|]. rewrite Tr1.
  unfold sdu_full. rewrite (segments_chain (off e)) by apply (lo_sorted _ _ _ (i_list _ _ Hi)). done.
Qed.

(** What a decoded header satisfies, whatever was received. *)
Definition header_ok (e : t) (size : Z) (h : header) : Prop :=
  match h with
  | Segment sn so n is_first is_last =>
      0 <= sn < sn_modulus e /\ 0 <= so < 65536 /\ (is_first = true <-> so = 0)
      /\ ~ (is_first = true /\ is_last = true) /\ 0 < n <= size
  | FullSdu => 2 <= size
  | Discard => True
  end.

Lemma um_decode_header_ok e buffer :
  UmTx.cfg e -> exists h, decode_header e buffer = Ok h /\ header_ok e (zlen buffer) h.
Proof.
  intros [Hlen Hmod _]. unfold decode_header.
  pose proof (Codec.decoder_init_wf buffer) as W0.
  assert (B0 : Codec.dec_buffer (Codec.nr_rlc_pdu_decoder_init buffer) = buffer) by done.
  assert (P0 : 8 * Codec.dec_byte (Codec.nr_rlc_pdu_decoder_init buffer)
    + Codec.dec_bit (Codec.nr_rlc_pdu_decoder_init buffer) = 0) by done.
  revert W0 B0 P0. generalize (Codec.nr_rlc_pdu_decoder_init buffer) as d0. intros d0 W0 B0 P0.
  checked_step si d1 W1 Hsi P1. cbv beta.
  destruct ((Z.land si 2 =? 0) && (Z.land si 1 =? 0)) eqn:Efl.
  { eexists. split; [reflexivity|]. destruct (Z.ltb_spec (zlen buffer) 2); simpl; done || lia. }
  assert (Hsn : forall d, Codec.dec_wf d ->
    exists h, Codec.checked (Codec.nr_rlc_pdu_decoder_get_bits d (sn_field_length e)) Discard
      (fun sn d =>
        let with_so so d :=
          let data_size := zlen buffer - Codec.dec_byte d in
          mret (if data_size <=? 0 then Discard
                else Segment sn so data_size (Z.land si 2 =? 0) (Z.land si 1 =? 0)) in
        if Z.land si 2 =? 0 then with_so 0 d
        else Codec.checked (Codec.nr_rlc_pdu_decoder_get_bits d 16) Discard (fun so d =>
          if so =? 0 then mret Discard else with_so so d)) = Ok h /\ header_ok e (zlen buffer) h).
  { clear W0 W1. intros d W. checked_step vsn d2 W2 Hsn P2. cbv beta zeta. rewrite <- Hmod in Hsn.
    assert (Hby : forall d', Codec.dec_wf d' -> 0 <= Codec.dec_byte d') by (intros d' H; apply H).
    pose proof (Hby d2 W2). apply andb_false_iff in Efl.
    destruct (Z.land si 2 =? 0) eqn:E2.
    - destruct Efl as [Efl|Efl]; [done|]. eexists. split; [reflexivity|].
      destruct (Z.leb_spec (zlen buffer - Codec.dec_byte d2) 0); simpl; [done|].
      rewrite Efl. split_and!; try done; try lia; by intros [].
    - checked_step vso d3 W3 Hso P3. pose proof (Hby d3 W3). destruct (Z.eqb_spec vso 0).
      { eexists. by split. }
      eexists. split; [reflexivity|].
      destruct (Z.leb_spec (zlen buffer - Codec.dec_byte d3) 0); simpl; [done|].
      split_and!; try done; try lia; by intros []. }
  destruct (sn_field_length e =? 12).
  - checked_step vr d2 W2 Hr P2. by apply Hsn.
  - by apply Hsn.
Qed.

(** Reception of a PDU whose header announces a segment. *)
Lemma recv_segment_ok D e buffer sn so n is_first is_last :
  wf e -> decode_header e buffer = Ok (Segment sn so n is_first is_last) ->
  let pdu := Pdu.nr_rlc_new_pdu sn so is_first is_last (drop (Z.to_nat (zlen buffer - n)) buffer) in
  0 < n <= zlen buffer -> node_ok (sn_modulus e) pdu -> honest D (with_segment e pdu) ->
  exists e', nr_rlc_entity_um_recv_pdu e buffer = Ok e' /\ wf e' /\ honest D (rx_list e')
    /\ frame e' = frame e
    /\ trace (common e') = trace (common e)
         ++ (if accepts e sn n && Chain.full (chain (with_segment e pdu) sn)
             then [DeliverSdu (D sn)] else []).
Proof.
  intros Hwf Hdec pdu Hn Hp Hh. unfold nr_rlc_entity_um_recv_pdu.
  set (e0 := upd_common _ e).
  assert (Hd0 : decode_header e0 buffer = decode_header e buffer) by done.
  rewrite Hd0, Hdec, res_bind_unfold. unfold accepts.
  change (rx_size e0) with (rx_size e). change (rx_maxsize e0) with (rx_maxsize e).
  change (sn_compare_rx e0) with (sn_compare_rx e).
  change (rx_next_reassembly e0) with (rx_next_reassembly e).
  assert (Hwf0 : wf e0).
  { destruct Hwf as [Hco Ht]. split; [|done]. apply (um_core_fields e); try done; apply Hco. }
  assert (Hdis : wf (discard_pdu (zlen buffer) e0)).
  { destruct Hwf as [Hco Ht]. split; [|done]. apply (um_core_fields e); try done; apply Hco. }
  assert (Hh0 : honest D (rx_list e)).
  { eapply honest_sub; [|exact Hh]. unfold with_segment, Pdu.nr_rlc_pdu_list_add.
    intros q Hq. rewrite Pdu.insert_before_perm. by right. }
  rewrite Z.gtb_ltb. destruct (Z.ltb_spec (rx_maxsize e) (rx_size e + n)).
  { eexists. split; [reflexivity|]. simpl. by rewrite app_nil_r. }
  destruct (sn_compare_rx e sn (rx_next_reassembly e) <? 0).
  { eexists. split; [reflexivity|]. simpl. by rewrite app_nil_r. }
  rewrite zslice_ok, res_bind_unfold by lia.
  rewrite take_ge by (rewrite length_drop; unfold zlen in *; lia). fold pdu.
  assert (Hsz : Pdu.size pdu = n).
  { simpl. rewrite zlen_drop. unfold zlen in *. lia. }
  destruct (reception_ok D e0 pdu) as (e' & E & Hwf' & Hh' & F & Tr); try done; [simpl in *; lia|].
  rewrite Hsz in E. exists e'. split; [exact E|]. split_and!; try done.
Qed.

(** What the peer has to satisfy for a received PDU. *)
Definition honest_pdu (D : Z -> list Z) (e : t) (buffer : list Z) : Prop :=
  forall sn so n is_first is_last, decode_header e buffer = Ok (Segment sn so n is_first is_last) ->
    Chain.slice_of (D sn)
      (Pdu.nr_rlc_new_pdu sn so is_first is_last (drop (Z.to_nat (zlen buffer - n)) buffer))
    /\ zlen (D sn) <= NR_SDU_MAX.

(** The calls to [deliver_sdu] a received PDU causes. *)
Definition deliveries (D : Z -> list Z) (e : t) (buffer : list Z) : list rlc_event :=
  match decode_header e buffer with
  | Ok FullSdu => [DeliverSdu (drop 1 buffer)]
  | Ok (Segment sn so n is_first is_last) =>
      let pdu := Pdu.nr_rlc_new_pdu sn so is_first is_last (drop (Z.to_nat (zlen buffer - n)) buffer) in
      if accepts e sn n && Chain.full (chain (with_segment e pdu) sn)
      then [DeliverSdu (D sn)] else []
  | _ => []
  end.

Lemma um_recv_pdu_ok D e buffer :
  wf e -> honest D (rx_list e) -> honest_pdu D e buffer ->
  exists e', nr_rlc_entity_um_recv_pdu e buffer = Ok e' /\ wf e' /\ honest D (rx_list e')
    /\ frame e' = frame e /\ trace (common e') = trace (common e) ++ deliveries D e buffer.
Proof.
  intros Hwf Hh Hp. pose proof Hwf as [Hco Ht].
  destruct (um_decode_header_ok e buffer (c_cfg _ Hco)) as (h & Ed & Hok).
  unfold deliveries. destruct h as [|sn so n f l|]; rewrite Ed.
  - unfold nr_rlc_entity_um_recv_pdu. set (e0 := upd_common _ e).
    change (decode_header e0 buffer) with (decode_header e buffer). rewrite Ed, res_bind_unfold.
    simpl in Hok. rewrite zslice_ok, res_bind_unfold by lia. eexists. split; [reflexivity|].
    rewrite take_ge by (rewrite length_drop; unfold zlen in *; lia).
    split; [|done]. split; [|done]. apply (um_core_fields e); try done; apply Hco.
  - destruct (Hp _ _ _ _ _ Ed) as [Hsl Hmax]. destruct Hok as (Hsn & Hso & Hf & Hfl & Hn).
    apply recv_segment_ok; try done.
    + split_and!; try done; try (simpl; lia). simpl. rewrite zlen_drop. unfold zlen in *. lia.
    + unfold honest, with_segment, Pdu.nr_rlc_pdu_list_add. rewrite Pdu.insert_before_perm.
      constructor; [|done]. done.
  - unfold nr_rlc_entity_um_recv_pdu. set (e0 := upd_common _ e).
    change (decode_header e0 buffer) with (decode_header e buffer). rewrite Ed, res_bind_unfold.
    eexists. split; [reflexivity|]. rewrite app_nil_r. split; [|done]. split; [|done].
    apply (um_core_fields e); try done; apply Hco.
Qed.

Lemma umrx_new_wf rx_maxsize tx_maxsize t_reas len e :
  0 <= rx_maxsize -> new_nr_rlc_entity_um rx_maxsize tx_maxsize t_reas len = Ok e ->
  wf e /\ rx_list e = [] /\ trace (common e) = [].
Proof.
  intros Hm Hnew. pose proof (UmTx.um_new_wf _ _ _ _ _ Hnew) as (Htx & _).
  unfold new_nr_rlc_entity_um in Hnew. destruct (_ || _); [|done].
  apply res_bind_ok in Hnew as (c & Hc & Hnew). apply new_common_ok in Hc as (_ & _ & _ & Htr).
  pose proof (UmTx.wf_cfg _ Htx) as Hcfg. res_inv. split; [|done]. split; [|by intros []].
  destruct (um_cfg_window _ Hcfg) as [HM HW]. constructor; simpl; try done; try lia.
  - simpl in *. lia.
  - simpl in *. lia.
  - simpl in *. lia.
  - unfold off. simpl in *. rewrite Z.mod_small by lia. lia.
  - constructor; simpl; try constructor. by intros sn p Hp%elem_of_nil.
Qed.

End UmRx.
