(* ===== verification/RlcAm.v ===== *)
(** * RLC acknowledged mode: the entity

    The state of [nr_rlc_entity_am.h], the AM constructor and reconfiguration
    of [nr_rlc_entity.c], and the functions of [nr_rlc_entity_am.c] that the
    receiving and the transmitting side share: header sizes, SN arithmetic and
    the questions about the received segments of an SDU. *)

From S2P Require Import Prelude TimeStat RlcPdu RlcSdu RlcRxManager RlcEntity.

Module Am.
Import Entity.

(** [nr_rlc_entity_am_t]; [st] holds the SDU headers that [tx_list],
    [wait_list] and [retransmit_list] point to. *)
Record t := mk_am {
  common : nr_rlc_entity_t;
  (* configuration *)
  t_poll_retransmit : Z;
  t_reassembly : Z;
  t_status_prohibit : Z;
  poll_pdu : Z;              (** -1 means infinity *)
  poll_byte : Z;             (** -1 means infinity *)
  max_retx_threshold : Z;
  sn_field_length : Z;
  sn_modulus : Z;
  window_size : Z;
  (* runtime rx *)
  rx_next : Z;
  rx_next_status_trigger : Z;
  rx_highest_status : Z;
  rx_next_highest : Z;
  status_triggered : bool;
  (* runtime tx *)
  tx_next : Z;
  tx_next_ack : Z;
  poll_sn : Z;
  pdu_without_poll : Z;
  byte_without_poll : Z;
  force_poll : bool;
  t_current : Z;
  t_log_buffer_full : Z;
  sdu_rejected : Z;
  (* timers, 0 means not active *)
  t_poll_retransmit_start : Z;
  t_reassembly_start : Z;
  t_status_prohibit_start : Z;
  (* rx management *)
  rx : RxManager.t;
  rx_size : Z;
  rx_maxsize : Z;
  (* tx management *)
  tx_list : list Seg.t;
  tx_end : option nat;
  tx_size : Z;
  tx_maxsize : Z;
  wait_list : list Seg.t;
  wait_end : option nat;
  retransmit_list : list Seg.t;
  st : Store.t
}.

Definition upd_common (f : nr_rlc_entity_t -> nr_rlc_entity_t) (e : t) :=
  {| e with common := f (common e) |}.

Definition new_nr_rlc_entity_am (rx_maxsize_ tx_maxsize_ t_poll_retransmit_ t_reassembly_
    t_status_prohibit_ poll_pdu_ poll_byte_ max_retx_threshold_ sn_field_length_ : Z) : res t :=
  if (sn_field_length_ =? 12) || (sn_field_length_ =? 18) then
    let modulus := Z.shiftl 1 sn_field_length_ in
    c ← new_common NR_RLC_AM;
    mret {| common := c;
            t_poll_retransmit := t_poll_retransmit_; t_reassembly := t_reassembly_;
            t_status_prohibit := t_status_prohibit_; poll_pdu := poll_pdu_;
            poll_byte := poll_byte_; max_retx_threshold := max_retx_threshold_;
            sn_field_length := sn_field_length_; sn_modulus := modulus;
            window_size := modulus / 2;
            rx_next := 0; rx_next_status_trigger := 0; rx_highest_status := 0;
            rx_next_highest := 0; status_triggered := false;
            tx_next := 0; tx_next_ack := 0; poll_sn := 0; pdu_without_poll := 0;
            byte_without_poll := 0; force_poll := false;
            t_current := 0; t_log_buffer_full := 0; sdu_rejected := 0;
            t_poll_retransmit_start := 0; t_reassembly_start := 0; t_status_prohibit_start := 0;
            rx := RxManager.nr_rlc_new_rx_manager (Z.shiftl 1 (sn_field_length_ - 1));
            rx_size := 0; rx_maxsize := rx_maxsize_ * 5;
            tx_list := []; tx_end := None; tx_size := 0; tx_maxsize := tx_maxsize_ * 5;
            wait_list := []; wait_end := None; retransmit_list := []; st := Store.empty |}
  else Fault Exit.

Definition nr_rlc_entity_am_reconfigure (e : t) (t_poll_retransmit_ t_reassembly_
    t_status_prohibit_ poll_pdu_ poll_byte_ max_retx_threshold_ : Z)
    (sn_field_length_ : option Z) : t :=
  let e := {| e with t_poll_retransmit := t_poll_retransmit_; t_reassembly := t_reassembly_;
                     t_status_prohibit := t_status_prohibit_; poll_pdu := poll_pdu_;
                     poll_byte := poll_byte_; max_retx_threshold := max_retx_threshold_ |} in
  match sn_field_length_ with
  | Some n => {| e with sn_field_length := n |}
  | None => e
  end.

Definition compute_pdu_header_size (e : t) (sdu : Seg.t) : Z :=
  let header_size := 2 in
  (* one more byte if SN field length is 18 *)
  let header_size := if sn_field_length e =? 18 then header_size + 1 else header_size in
  (* two more bytes for SO if SDU segment is not the first *)
  if negb (Seg.is_first sdu) then header_size + 2 else header_size.

(** ** Sequence numbers *)

(** As per 38.322 7.1, modulus base is rx_next. *)
Definition modulus_rx (e : t) (a : Z) : Z :=
  let r := a - rx_next e in
  if r <? 0 then r + sn_modulus e else r.

Definition modulus_tx (e : t) (a : Z) : Z :=
  let r := a - tx_next_ack e in
  if r <? 0 then r + sn_modulus e else r.

Definition sn_in_recv_window (e : t) (sn : Z) : bool := modulus_rx e sn <? window_size e.

Definition sn_compare_rx (e : t) (a b : Z) : Z := modulus_rx e a - modulus_rx e b.

Definition sn_compare_tx (e : t) (a b : Z) : Z := modulus_tx e a - modulus_tx e b.

(** Order is by 'sn', if 'sn' is the same then order is by 'so'. *)
Fixpoint nr_rlc_tx_sdu_segment_list_add (e : t) (l : list Seg.t) (s : Seg.t)
    : res (list Seg.t) :=
  match l with
  | [] => mret [s]
  | cur :: l' =>
      dc ← Store.deref (st e) cur;
      d ← Store.deref (st e) s;
      if (sn_compare_tx e (Sdu.sn dc) (Sdu.sn d) >? 0)
         || ((Sdu.sn dc =? Sdu.sn d) && (Seg.so cur >? Seg.so s))
      then mret (s :: cur :: l')
      else l'' ← nr_rlc_tx_sdu_segment_list_add e l' s; mret (cur :: l'')
  end.

(** ** Received segments of an SDU *)

Definition get_pdus (e : t) (sn : Z) : res (list Pdu.nr_rlc_pdu_t) :=
  RxManager.nr_rlc_rx_manager_get_pdu_from_sn (rx e) sn.

Definition segment_already_received (e : t) (sn so size : Z) : res bool :=
  l ← get_pdus e sn; mret (Chain.already_received l so size).

Definition sdu_full (e : t) (sn : Z) : res bool := l ← get_pdus e sn; mret (Chain.full l).

Definition sdu_delivered (e : t) (sn : Z) : res bool :=
  l ← get_pdus e sn; mret (Chain.delivered l).

Definition sdu_has_missing_bytes (e : t) (sn : Z) : res bool :=
  l ← get_pdus e sn; mret (Chain.has_missing_bytes l).

(** [while (sdu_delivered(entity, sn)) sn = (sn + 1) % entity->sn_modulus]. *)
Definition skip_delivered (e : t) (sn : Z) : res Z :=
  Chain.first_undelivered (Z.to_nat (sn_modulus e)) (sdu_delivered e) (sn_modulus e) sn.

(** ** Window and polling *)

(** We are stalling if tx_next is not:
    tx_next_ack <= tx_next < tx_next_ack + window_size. *)
Definition is_window_stalling (e : t) : bool :=
  negb ((sn_compare_tx e (tx_next_ack e) (tx_next e) <=? 0)
        && (sn_compare_tx e (tx_next e) ((tx_next_ack e + window_size e) mod sn_modulus e) <? 0)).

Definition check_poll_after_pdu_assembly (e : t) : bool :=
  let transmission_buffer_empty := match tx_list e with [] => true | _ => false end in
  let retransmission_buffer_empty := match retransmit_list e with [] => true | _ => false end in
  (transmission_buffer_empty && retransmission_buffer_empty) || is_window_stalling e.

Definition status_to_report (e : t) : bool :=
  status_triggered e
  && ((t_status_prohibit_start e =? 0)
      || (u64 (t_current e - t_status_prohibit_start e) >? u64 (t_status_prohibit e))).

End Am.
