(* ===== verification/RlcAmStatus.v ===== *)
(** * RLC acknowledged mode: status reports

    Models the part of [nr_rlc_entity_am.c] between the markers "TX functions -
    status reporting": the search for missing bytes in the reception window
    ([next_missing]), the serialisation of the NACKs ([generate_missing],
    [generate_status]) and the size computation MAC asks for ([missing_size],
    [status_size]).

    A pointer to a received segment is the list of the segments of its SDU from
    that one on; [NULL] is the empty list. *)

From S2P Require Import Prelude TimeStat RlcPdu RlcSdu RlcRxManager RlcEntity RlcAm.

Module AmStatus.
Import Entity Am.

(** [missing_data_t]; no more missing part to report ([sn_start] set to -1) is
    [None] in the functions below. *)
Record missing_data_t := mk_missing {
  sn_start : Z;
  so_start : Z;
  sn_end : Z;
  so_end : Z;
  next : list Pdu.nr_rlc_pdu_t       (** pdu to use for next call to 'next_missing' *)
}.

(** [while (sn != last_sn)] over the slots, up to a slot that is not empty. *)
Fixpoint scan_rx (fuel : nat) (e : t) (sn last_sn : Z) : res (list Pdu.nr_rlc_pdu_t) :=
  match fuel with
  | O => Fault NoFuel
  | S fuel' =>
      l ← get_pdus e sn;
      if sn =? last_sn then mret l
      else match l with
           | [] => scan_rx fuel' e ((sn + 1) mod sn_modulus e) last_sn
           | _ => mret l
           end
  end.

(** Every SN is tried at most once before [last_sn]. *)
Definition scan_fuel (e : t) : nat := S (Z.to_nat (sn_modulus e)).

Definition get_first_rx_pdu (e : t) : res (list Pdu.nr_rlc_pdu_t) :=
  scan_rx (scan_fuel e) e (rx_next e) (rx_highest_status e).

Definition get_next_rx_pdu (e : t) (cur : Pdu.nr_rlc_pdu_t) (rest : list Pdu.nr_rlc_pdu_t)
    : res (list Pdu.nr_rlc_pdu_t) :=
  match rest with
  | _ :: _ => mret rest
  | [] =>
      (* don't process past rx_highest_status *)
      if Pdu.sn cur =? rx_highest_status e then mret []
      else scan_rx (scan_fuel e) e ((Pdu.sn cur + 1) mod sn_modulus e) (rx_highest_status e)
  end.

(** [rx_highest_status - 1]. *)
Definition last_reportable (e : t) : Z := (rx_highest_status e - 1 + sn_modulus e) mod sn_modulus e.

(** Don't report if out of reporting window. *)
Definition in_reporting_window (e : t) (sn : Z) : bool :=
  negb (sn_compare_rx e (rx_highest_status e) sn <=? 0).

(** Label [set_end_different_sdu]. *)
Definition set_end_different_sdu (e : t) (sn_start so_start : Z) (cur : Pdu.nr_rlc_pdu_t)
    (rest : list Pdu.nr_rlc_pdu_t) : missing_data_t :=
  let m :=
    (* if cur is the head of a SDU, then use cur-1 *)
    if Pdu.is_first cur then
      {| sn_start := sn_start; so_start := so_start;
         sn_end := (Pdu.sn cur - 1 + sn_modulus e) mod sn_modulus e; so_end := 65535;
         next := cur :: rest |}
    else
      {| sn_start := sn_start; so_start := so_start; sn_end := Pdu.sn cur;
         so_end := Pdu.so cur - 1; next := cur :: rest |} in
  (* don't go more than rx_highest_status - 1 *)
  if sn_compare_rx e (rx_highest_status e) (sn_end m) <=? 0
  then {| m with sn_end := last_reportable e; so_end := 65535; next := [] |}
  else m.

(** The case of [next_missing] with no next PDU. *)
Definition missing_to_highest (e : t) (cur : Pdu.nr_rlc_pdu_t) (max_so : Z) (last_reached : bool)
    : option missing_data_t :=
  let '(start, so) :=
    match Pdu.data cur with
    | None => ((Pdu.sn cur + 1) mod sn_modulus e, 0)   (* already processed *)
    | Some _ => if last_reached then ((Pdu.sn cur + 1) mod sn_modulus e, 0)
                else (Pdu.sn cur, max_so + 1)
    end in
  if in_reporting_window e start then
    Some {| sn_start := start; so_start := so; sn_end := last_reportable e; so_end := 65535;
            next := [] |}
  else None.

(** The cases of [next_missing] with a discontinuity between SDU [sn] and
    [cur]. *)
Definition missing_gap (e : t) (sn max_so : Z) (last_reached : bool)
    (cur : Pdu.nr_rlc_pdu_t) (rest : list Pdu.nr_rlc_pdu_t) : option missing_data_t :=
  if Pdu.sn cur =? sn then
    (* discontinuity in same SDU *)
    if in_reporting_window e sn then
      Some {| sn_start := sn; so_start := max_so + 1; sn_end := sn; so_end := Pdu.so cur - 1;
              next := cur :: rest |}
    else None
  else
    (* discontinuity between different SDUs *)
    let '(start, so) := if last_reached then ((sn + 1) mod sn_modulus e, 0)
                        else (sn, max_so + 1) in
    if in_reporting_window e start then Some (set_end_different_sdu e start so cur rest)
    else None.

(** Label [next_pdu]; every round goes to a later received segment. *)
Fixpoint next_pdu (fuel : nat) (e : t) (cur : Pdu.nr_rlc_pdu_t) (rest : list Pdu.nr_rlc_pdu_t)
    (max_so : Z) (last_reached : bool) : res (option missing_data_t) :=
  match fuel with
  | O => Fault NoFuel
  | S fuel' =>
      let sn := Pdu.sn cur in
      let cur_max_so := Pdu.so cur + Pdu.size cur - 1 in
      let max_so := if cur_max_so >? max_so then cur_max_so else max_so in
      let last_reached := last_reached || Pdu.is_last cur in
      cur_next ← get_next_rx_pdu e cur rest;
      match cur_next with
      | [] => mret (missing_to_highest e cur max_so last_reached)
      | cur :: rest =>
          (* no discontinuity in data => process to next PDU *)
          if (Pdu.sn cur =? sn) && (max_so >=? Pdu.so cur - 1) then
            next_pdu fuel' e cur rest max_so last_reached
          else if (Pdu.sn cur =? (sn + 1) mod sn_modulus e) && last_reached && Pdu.is_first cur then
            next_pdu fuel' e cur rest 0 false
          else
            (* discontinuity in data *)
            mret (missing_gap e sn max_so last_reached cur rest)
      end
  end.

(** The received segments are as many as the rounds of the loop. *)
Definition rx_count (e : t) : nat := length (concat (RxManager.rx_list (rx e))).

Definition next_missing (e : t) (cur : Pdu.nr_rlc_pdu_t) (rest : list Pdu.nr_rlc_pdu_t)
    (check_head : bool) : res (option missing_data_t) :=
  (* special case: missing part before the head of RX list *)
  if check_head && (negb (Pdu.sn cur =? rx_next e) || negb (Pdu.is_first cur)) then
    if in_reporting_window e (rx_next e)
    then mret (Some (set_end_different_sdu e (rx_next e) 0 cur rest))
    else mret None
  else next_pdu (S (rx_count e)) e cur rest 0 false.

Definition nack_size (e : t) (m : missing_data_t) : Z :=
  let nack_length := 2 + b2z (sn_field_length e =? 18) in
  if sn_start m =? sn_end m then
    if (so_start m =? 0) && (so_end m =? 65535) then nack_length else nack_length + 4
  else
    if (so_start m =? 0) && (so_end m =? 65535) then nack_length + 1 else nack_length + 5.

(** The range that a round of [generate_missing] and of [missing_size] reports,
    with the number of SNs in it: at most 255 SNs. *)
Definition cut_range (e : t) (m : missing_data_t) (start sn_count : Z) : missing_data_t * Z :=
  let cur_sn_count := if sn_count >? 255 then 255 else sn_count in
  let so := if start =? sn_start m then so_start m else 0 in
  if cur_sn_count =? sn_count then
    ({| m with sn_start := start; so_start := so |}, cur_sn_count)
  else
    ({| m with sn_start := start; so_start := so;
               sn_end := (start + 254) mod sn_modulus e; so_end := 65535 |}, cur_sn_count).

Definition sn_count_of (e : t) (m : missing_data_t) : Z :=
  (sn_end m - sn_start m + sn_modulus e) mod sn_modulus e + 1.

(** ** Generation *)

(** What [generate_missing] changes: the encoder, the position of the last e1
    bit, the address of the last so_end. *)
Record gen_state := mk_gen {
  enc : Codec.nr_rlc_pdu_encoder_t;
  e1_byte : Z;
  e1_bit : Z;
  so_end_address : option Z
}.

(** [buffer[i] |= v]. *)
Definition or_byte (buffer : list Z) (i v : Z) : res (list Z) :=
  b ← zget buffer i; zset buffer i (u8 (Z.lor b v)).

Definition get_e1_position (e : t) (encoder : Codec.nr_rlc_pdu_encoder_t) : Z * Z :=
  if sn_field_length e =? 18 then (Codec.enc_byte encoder + 2, 5)
  else (Codec.enc_byte encoder + 1, 3).

(** The serialisation of one nack; returns the last SN of the range. *)
Definition generate_nack (e : t) (g : gen_state) (m : missing_data_t) (cur_sn_count : Z)
    : res (Z * gen_state) :=
  let r_bits := if sn_field_length e =? 18 then 3 else 1 in
  (* set the previous e1 bit to 1 *)
  buffer ← or_byte (Codec.enc_buffer (enc g)) (e1_byte g) (Z.shiftl 1 (e1_bit g));
  let encoder := {| (enc g) with Codec.enc_buffer := buffer |} in
  let '(e1_byte_, e1_bit_) := get_e1_position e encoder in
  let e2 := negb ((so_start m =? 0) && (so_end m =? 65535)) in
  let e3 := negb (sn_start m =? sn_end m) in
  encoder ← Codec.put_fields encoder
    [(sn_start m, sn_field_length e); (0, 1); (b2z e2, 1); (b2z e3, 1); (0, r_bits)];
  '(encoder, address) ←
    (if e2 then
       encoder ← Codec.nr_rlc_pdu_encoder_put_bits encoder (so_start m) 16;
       let address := Codec.enc_byte encoder in
       encoder ← Codec.nr_rlc_pdu_encoder_put_bits encoder (so_end m) 16;
       mret (encoder, Some address)
     else mret (encoder, None));
  '(encoder, last_nack) ←
    (if e3 then
       encoder ← Codec.nr_rlc_pdu_encoder_put_bits encoder cur_sn_count 8;
       mret (encoder, sn_start m + cur_sn_count - 1)
     else mret (encoder, sn_start m));
  mret (last_nack, {| enc := encoder; e1_byte := e1_byte_; e1_bit := e1_bit_;
                      so_end_address := address |}).

(** [while (sn_count)]: [sn_count] decreases in each round.  Returns the last
    nack SN generated (-1 if none) and whether the generation was truncated. *)
Fixpoint generate_missing_loop (fuel : nat) (e : t) (g : gen_state) (m : missing_data_t)
    (start sn_count last_nack : Z) : res (Z * bool * gen_state) :=
  match fuel with
  | O => Fault NoFuel
  | S fuel' =>
      if sn_count =? 0 then mret (last_nack, false, g)
      else
        let '(m_nack, cur_sn_count) := cut_range e m start sn_count in
        (* check that there is room for a nack *)
        if Codec.enc_byte (enc g) + nack_size e m_nack >? Codec.enc_size (enc g)
        then mret (last_nack, true, g)
        else
          '(last_nack, g) ← generate_nack e g m_nack cur_sn_count;
          generate_missing_loop fuel' e g m ((start + cur_sn_count) mod sn_modulus e)
            (sn_count - cur_sn_count) last_nack
  end.

Definition generate_missing (e : t) (g : gen_state) (m : missing_data_t)
    : res (Z * bool * gen_state) :=
  generate_missing_loop (S (Z.to_nat (sn_count_of e m))) e g m (sn_start m) (sn_count_of e m) (-1).

(** The loop of [generate_status] over the missing parts; a round that does not
    end it has written a nack. *)
Fixpoint generate_nacks (fuel : nat) (e : t) (g : gen_state) (cur : list Pdu.nr_rlc_pdu_t)
    (check_head : bool) (last_nack : Z) : res (Z * gen_state) :=
  match fuel with
  | O => Fault NoFuel
  | S fuel' =>
      match cur with
      | [] => mret (last_nack, g)
      | p :: rest =>
          om ← next_missing e p rest check_head;
          match om with
          | None => mret (last_nack, g)
          | Some m =>
              '(ln, truncated, g) ← generate_missing e g m;
              (* remember the last nack put, if any *)
              let last_nack := if ln =? -1 then last_nack else ln in
              match truncated : bool, so_end_address g with
              | true, Some a =>
                  (* we nack until the end of the PDU to be sure *)
                  buffer ← zset (Codec.enc_buffer (enc g)) a 255;
                  buffer ← zset buffer (a + 1) 255;
                  mret (last_nack, {| g with enc := {| (enc g) with Codec.enc_buffer := buffer |} |})
              | true, None => mret (last_nack, g)
              | false, _ => generate_nacks fuel' e g (next m) false last_nack
              end
          end
      end
  end.

(** The first 3 bytes of the status PDU, once ack_sn is known. *)
Definition put_ack_sn (e : t) (buffer : list Z) (ack_sn : Z) : res (list Z) :=
  if sn_field_length e =? 12 then
    buffer ← zset buffer 0 (u8 (Z.shiftr ack_sn 8));
    zset buffer 1 (Z.land ack_sn 255)
  else
    buffer ← zset buffer 0 (u8 (Z.shiftr ack_sn 14));
    buffer ← zset buffer 1 (Z.land (Z.shiftr ack_sn 6) 255);
    or_byte buffer 2 (Z.shiftl (Z.land ack_sn 63) 2).

Definition generate_status (e : t) (buffer : list Z) (size : Z) : res (Z * list Z * t) :=
  (* if not enough room, do nothing *)
  if size <? 3 then mret (0, buffer, e)
  else
    (* initial last_nack is rx_next - 1 *)
    let last_nack := (rx_next e - 1 + sn_modulus e) mod sn_modulus e in
    (* first 3 bytes, ack_sn and e1 will be set later *)
    encoder ← Codec.nr_rlc_pdu_encoder_put_bits
                (Codec.nr_rlc_pdu_encoder_init buffer size) 0 (8 * 3);
    cur ← get_first_rx_pdu e;
    let g := {| enc := encoder; e1_byte := 2;
                e1_bit := if sn_field_length e =? 18 then 1 else 7; so_end_address := None |} in
    '(last_nack, g) ← generate_nacks (S (Z.to_nat size)) e g cur true last_nack;
    (* put ack_sn, which is last_nack + 1 *)
    let ack_sn := (last_nack + 1) mod sn_modulus e in
    buffer ← put_ack_sn e (Codec.enc_buffer (enc g)) ack_sn;
    let n := Codec.enc_byte (enc g) in
    mret (n, buffer,
          upd_common (upd_stats (fun s => count_txpdu_status n (count_txpdu n s)))
            {| e with status_triggered := false; t_status_prohibit_start := t_current e |}).

(** ** Size *)

(** Returns the number of ranges, the size and whether the generation was
    truncated ([m->next = NULL]). *)
Fixpoint missing_size_loop (fuel : nat) (e : t) (m : missing_data_t)
    (start sn_count range_count size maxsize : Z) : res (Z * Z * bool) :=
  let r_bits := if sn_field_length e =? 18 then 3 else 1 in
  match fuel with
  | O => Fault NoFuel
  | S fuel' =>
      if sn_count =? 0 then mret (range_count, size, false)
      else
        let '(m_nack, cur_sn_count) := cut_range e m start sn_count in
        (* check that there is room for a nack *)
        if size + nack_size e m_nack >? maxsize then mret (range_count, size, true)
        else
          let whole := (so_start m_nack =? 0) && (so_end m_nack =? 65535) in
          let bits :=
            if sn_start m_nack =? sn_end m_nack then
              if whole then sn_field_length e + 3 + r_bits
              else sn_field_length e + 3 + r_bits + 16 * 2
            else
              if whole then sn_field_length e + 3 + r_bits + 8
              else sn_field_length e + 3 + r_bits + 16 * 2 + 8 in
          missing_size_loop fuel' e m ((start + cur_sn_count) mod sn_modulus e)
            (sn_count - cur_sn_count) (range_count + 1) (size + Z.quot bits 8) maxsize
  end.

Definition missing_size (e : t) (m : missing_data_t) (size maxsize : Z) : res (Z * Z * bool) :=
  missing_size_loop (S (Z.to_nat (sn_count_of e m))) e m (sn_start m) (sn_count_of e m)
    0 size maxsize.

Fixpoint status_size_loop (fuel : nat) (e : t) (cur : list Pdu.nr_rlc_pdu_t)
    (nack_count size maxsize : Z) : res Z :=
  match fuel with
  | O => Fault NoFuel
  | S fuel' =>
      match cur with
      | [] => mret size
      | p :: rest =>
          om ← next_missing e p rest (nack_count =? 0);
          match om with
          | None => mret size
          | Some m =>
              '(count, size, truncated) ← missing_size e m size maxsize;
              match truncated : bool with
              | true => mret size
              | false => status_size_loop fuel' e (next m) (nack_count + count) size maxsize
              end
          end
      end
  end.

Definition status_size (e : t) (maxsize : Z) : res Z :=
  (* if not enough room, do nothing *)
  if maxsize <? 3 then mret 0
  else
    cur ← get_first_rx_pdu e;
    status_size_loop (S (Z.to_nat maxsize)) e cur 0 3 maxsize.

End AmStatus.
