(* ===== verification/RlcAmControl.v ===== *)
(** * RLC acknowledged mode: received status reports

    Models [process_control_pdu] of [nr_rlc_entity_am.c]: the control PDU is
    read a first time to validate it, then a second time to move the segments
    that are not acknowledged from the wait list to the retransmit list, and to
    free those that are.

    The two linked lists are walked with pointers to the previous and to the
    current node.  [ctl] has them: [wait_done] are the nodes up to
    [prev_wait_list] and [wait_rest] those behind it, [wait_null] tells that
    [cur_wait_list] was set to [NULL] before the end of the list; [retx_new] is
    the retransmit list under construction, [retx_cur] what is left of the old
    one. *)

From S2P Require Import Prelude TimeStat RlcPdu RlcSdu RlcRxManager RlcEntity RlcAm.

Module AmControl.
Import Entity Am.

Definition so_overlap (s1 e1 s2 e2 : Z) : bool :=
  if s1 <? s2 then (e1 =? -1) || (e1 >=? s2)
  else (e2 =? -1) || (s1 <=? e2).

(** ** Validation *)

(** A NACK block: [n_so_end] is -1 for 'all bytes to the end'. *)
Record nack_block := mk_nack {
  nack_sn : Z;
  n_e1 : bool;
  n_so_start : Z;
  n_so_end : Z;
  n_range : Z
}.

(** Outcome of the validation: the loop goes on with [Some], the PDU is
    discarded with [None]. *)
Definition decode_ack_checked (e : t) (d : Codec.nr_rlc_pdu_decoder_t)
    : res (option (Z * bool * Codec.nr_rlc_pdu_decoder_t)) :=
  Codec.checked (Codec.nr_rlc_pdu_decoder_get_bits d 1) None (fun _ d =>
  Codec.checked (Codec.nr_rlc_pdu_decoder_get_bits d 3) None (fun cpt d =>
  if negb (cpt =? 0) then mret None
  else
    Codec.checked (Codec.nr_rlc_pdu_decoder_get_bits d (sn_field_length e)) None (fun ack_sn d =>
    Codec.checked (Codec.nr_rlc_pdu_decoder_get_bits d 1) None (fun e1 d =>
    Codec.checked (Codec.nr_rlc_pdu_decoder_get_bits d
                     (if sn_field_length e =? 18 then 1 else 7)) None (fun _ d =>
    mret (Some (ack_sn, negb (e1 =? 0), d))))))).

Definition decode_so_checked (d : Codec.nr_rlc_pdu_decoder_t) (e2 : bool)
    (k : Z -> Z -> Codec.nr_rlc_pdu_decoder_t ->
         res (option (nack_block * Codec.nr_rlc_pdu_decoder_t))) :=
  if e2 then
    Codec.checked (Codec.nr_rlc_pdu_decoder_get_bits d 16) None (fun so_start d =>
    Codec.checked (Codec.nr_rlc_pdu_decoder_get_bits d 16) None (fun so_end d => k so_start so_end d))
  else k 0 65535 d.

Definition decode_nack_checked (e : t) (d : Codec.nr_rlc_pdu_decoder_t)
    : res (option (nack_block * Codec.nr_rlc_pdu_decoder_t)) :=
  Codec.checked (Codec.nr_rlc_pdu_decoder_get_bits d (sn_field_length e)) None (fun nack_sn d =>
  Codec.checked (Codec.nr_rlc_pdu_decoder_get_bits d 1) None (fun e1 d =>
  Codec.checked (Codec.nr_rlc_pdu_decoder_get_bits d 1) None (fun e2 d =>
  Codec.checked (Codec.nr_rlc_pdu_decoder_get_bits d 1) None (fun e3 d =>
  Codec.checked (Codec.nr_rlc_pdu_decoder_get_bits d
                   (if sn_field_length e =? 18 then 3 else 1)) None (fun _ d =>
  decode_so_checked d (negb (e2 =? 0)) (fun so_start so_end d =>
  let block range := {| nack_sn := nack_sn; n_e1 := negb (e1 =? 0); n_so_start := so_start;
                        n_so_end := if so_end =? 65535 then -1 else so_end; n_range := range |} in
  if negb (e3 =? 0) then
    Codec.checked (Codec.nr_rlc_pdu_decoder_get_bits d 8) None (fun range d =>
    mret (Some (block range, d)))
  else mret (Some (block 1, d)))))))).

(** The NACKs of a block, as the [for] loops enumerate them: SN, first byte,
    last byte. *)
Definition nack_at (e : t) (b : nack_block) (i : Z) : Z * Z * Z :=
  ((nack_sn b + i) mod sn_modulus e,
   (if i =? 0 then n_so_start b else 0),
   (if i =? n_range b - 1 then n_so_end b else -1)).

(** The tests of the validation loop.  The variables [prev_nack_sn] and
    [prev_so_end] it compares with are assigned before the loop and nowhere in
    it. *)
Definition nack_valid (e : t) (prev_nack_sn prev_so_end ack_sn : Z) (n : Z * Z * Z) : bool :=
  let '(cur_nack_sn, cur_so_start, _) := n in
  let cmp := sn_compare_tx e cur_nack_sn prev_nack_sn in
  let bad_order := (cmp <? 0)
                   || ((cmp =? 0) && ((prev_so_end =? -1) || (cur_so_start <=? prev_so_end))) in
  negb (negb (prev_nack_sn =? -1) && bad_order)
  && negb (sn_compare_tx e cur_nack_sn ack_sn >? 0).

Definition block_valid (e : t) (ack_sn : Z) (b : nack_block) : bool :=
  forallb (fun i => nack_valid e (-1) 0 ack_sn (nack_at e b (Z.of_nat i)))
    (seq 0 (Z.to_nat (n_range b))).

(** [while (e1)]: each round consumes bytes of the PDU. *)
Fixpoint validate_nacks (fuel : nat) (e : t) (d : Codec.nr_rlc_pdu_decoder_t) (ack_sn : Z)
    (e1 : bool) : res bool :=
  match fuel with
  | O => Fault NoFuel
  | S fuel' =>
      match e1 with
      | false => mret true
      | true =>
          ob ← decode_nack_checked e d;
          match ob with
          | None => mret false
          | Some (b, d) =>
              if block_valid e ack_sn b then validate_nacks fuel' e d ack_sn (n_e1 b)
              else mret false
          end
      end
  end.

Definition validate_control_pdu (e : t) (buffer : list Z) : res bool :=
  oa ← decode_ack_checked e (Codec.nr_rlc_pdu_decoder_init buffer);
  match oa with
  | None => mret false
  | Some (ack_sn, e1, d) =>
      (* discard the whole control PDU if ack_sn is invalid *)
      if sn_compare_tx e ack_sn (tx_next e) >? 0 then mret false
      else validate_nacks (S (length buffer)) e d ack_sn e1
  end.

(** ** Second reading, without checks *)

Definition decode_ack (e : t) (d : Codec.nr_rlc_pdu_decoder_t)
    : res (Z * bool * Codec.nr_rlc_pdu_decoder_t) :=
  '(vs, d) ← Codec.get_fields d
     [1; 3; sn_field_length e; 1; if sn_field_length e =? 18 then 1 else 7];
  match vs with
  | [_; _; ack_sn; e1; _] => mret (ack_sn, negb (e1 =? 0), d)
  | _ => Fault Exit
  end.

Definition decode_nack (e : t) (d : Codec.nr_rlc_pdu_decoder_t)
    : res (nack_block * Codec.nr_rlc_pdu_decoder_t) :=
  '(vs, d) ← Codec.get_fields d
     [sn_field_length e; 1; 1; 1; if sn_field_length e =? 18 then 3 else 1];
  match vs with
  | [sn; e1; e2; e3; _] =>
      '(so_start, so_end, d) ←
        (if negb (e2 =? 0) then
           '(s, d) ← Codec.nr_rlc_pdu_decoder_get_bits d 16;
           '(f, d) ← Codec.nr_rlc_pdu_decoder_get_bits d 16;
           mret (s, f, d)
         else mret (0, 65535, d));
      '(range, d) ←
        (if negb (e3 =? 0) then Codec.nr_rlc_pdu_decoder_get_bits d 8 else mret (1, d));
      mret ({| nack_sn := sn; n_e1 := negb (e1 =? 0); n_so_start := so_start;
               n_so_end := if so_end =? 65535 then -1 else so_end; n_range := range |}, d)
  | _ => Fault Exit
  end.

(** ** The walk over the two lists *)

Record ctl := mk_ctl {
  ent : t;                          (** the entity: its lists are written back at the end *)
  wait_done : list Seg.t;
  wait_rest : list Seg.t;
  wait_null : bool;
  end_wait : option (option nat);   (** [end_wait_list]; [Some None] is the list head *)
  retx_new : list Seg.t;
  retx_cur : list Seg.t
}.

(** [cur_wait_list], with the nodes behind it. *)
Definition cur_wait (c : ctl) : list Seg.t := if wait_null c then [] else wait_rest c.

(** [if (cur_wait_list == entity->wait_end) end_wait_list = prev_wait_list]. *)
Definition note_end (c : ctl) (s : Seg.t) : option (option nat) :=
  if decide (wait_end (ent c) = Some (Seg.node s)) then Some (Store.tail_of (wait_done c))
  else end_wait c.

(** The segment is acked: free it, indicate successful delivery if fully
    acked. *)
Definition free_acked (e : t) (s : Seg.t) : res t :=
  d ← Store.deref (st e) s;
  '(freed, st') ← Store.nr_rlc_free_sdu_segment (st e) s;
  let e := {| e with st := st' |} in
  mret (match freed : bool with
        | true =>
            upd_common (fun c => emit (SduSuccessfulDelivery (Sdu.upper_layer_id d))
                (upd_stats (count_txsdu_bytes (Sdu.size d)) c))
              {| e with tx_size := tx_size e - Sdu.size d |}
        | false => e
        end).

(** Where the [goto]s of the walk lead. *)
Inductive walk :=
| NextPdu (c : ctl)        (** [process_next_pdu] *)
| DoneNack (c : ctl)       (** [done_nack] *)
| ListsOver (c : ctl).     (** [lists_over] *)

(** Put the nacked segment [s] at the end of the new retransmit list. *)
Definition nack_wait_head (c : ctl) (s : Seg.t) (rest : list Seg.t) : res ctl :=
  let e := ent c in
  d ← Store.deref (st e) s;
  let d := {| d with Sdu.retx_count := Sdu.retx_count d + 1 |} in
  let e := {| e with st := Store.update (st e) s d |} in
  let e := if Sdu.retx_count d >=? max_retx_threshold e * Sdu.ref_count d
           then upd_common (emit MaxRetxReached) e else e in
  let e := upd_common (add_bs_retx (compute_pdu_header_size e s + Seg.size s)) e in
  mret {| c with ent := e; wait_rest := rest; end_wait := note_end c s;
                 retx_new := retx_new c ++ [s] |}.

(** Label [process_wait_list_head], for the segment [s]. *)
Definition process_wait_list_head (c : ctl) (s : Seg.t) (rest : list Seg.t)
    (ack_sn : Z) (n : Z * Z * Z) : res walk :=
  let '(cur_nack_sn, cur_so_start, cur_so_end) := n in
  let e := ent c in
  d ← Store.deref (st e) s;
  (* if nack overlaps with current segment, put it in retransmit list *)
  if (Sdu.sn d =? cur_nack_sn)
     && so_overlap cur_so_start cur_so_end (Seg.so s) (Seg.so s + Seg.size s - 1)
  then c ← nack_wait_head c s rest; mret (NextPdu c)
  else
    (* if current segment SN > current NACK, we can't classify it yet *)
    let cmp := sn_compare_tx e (Sdu.sn d) cur_nack_sn in
    if (cmp >? 0) || ((cmp =? 0) && (Seg.so s >? cur_so_start)) then mret (DoneNack c)
    (* if current segment is acked, free it *)
    else if sn_compare_tx e (Sdu.sn d) ack_sn <? 0 then
      let ew := note_end c s in
      e ← free_acked e s;
      mret (NextPdu {| c with ent := e; wait_rest := rest; end_wait := ew |})
    (* if current segment SN > ack_sn, we're done with this list *)
    else if sn_compare_tx e (Sdu.sn d) ack_sn >? 0 then
      mret (NextPdu {| c with wait_null := true |})
    (* current segment SN == ack_sn, skip this segment and move to the next *)
    else mret (NextPdu {| c with wait_done := wait_done c ++ [s]; wait_rest := rest |}).

(** [bstatus.retx_size -= header + size; free] of an acked segment of the
    retransmit list. *)
Definition free_acked_retx (e : t) (s : Seg.t) : res t :=
  free_acked (upd_common (add_bs_retx (- (compute_pdu_header_size e s + Seg.size s))) e) s.

(** Label [process_retransmit_list_head], for the segment [s]. *)
Definition process_retransmit_list_head (c : ctl) (s : Seg.t) (rest : list Seg.t)
    (ack_sn : Z) (n : Z * Z * Z) : res walk :=
  let '(cur_nack_sn, cur_so_start, cur_so_end) := n in
  let e := ent c in
  d ← Store.deref (st e) s;
  (* if nack overlaps with current segment, leave it in retransmit list *)
  if (Sdu.sn d =? cur_nack_sn)
     && so_overlap cur_so_start cur_so_end (Seg.so s) (Seg.so s + Seg.size s - 1)
  then mret (NextPdu {| c with retx_new := retx_new c ++ [s]; retx_cur := rest |})
  else
    (* if current segment SN > current NACK, we can't classify it yet *)
    let cmp := sn_compare_tx e (Sdu.sn d) cur_nack_sn in
    if (cmp >? 0) || ((cmp =? 0) && (Seg.so s >? cur_so_start)) then mret (DoneNack c)
    (* if current segment is acked, free it *)
    else if sn_compare_tx e (Sdu.sn d) ack_sn <? 0 then
      e ← free_acked_retx e s;
      mret (NextPdu {| c with ent := e; retx_cur := rest |})
    else
      (* current segment SN >= ack_sn *)
      match cur_wait c with
      | [] =>
          (* the rest of the list is hung behind the last node of the new list,
             a link that [new_retransmit_list->next = cur_retransmit_list]
             (with [cur_retransmit_list] = NULL now) overwrites in the end *)
          mret (ListsOver {| c with retx_cur := [] |})
      | _ => mret (NextPdu {| c with retx_new := retx_new c ++ [s]; retx_cur := rest |})
      end.

(** Label [process_next_pdu]: process smallest SN either from wait_list or
    retransmit list. *)
Definition process_next_pdu (c : ctl) (ack_sn : Z) (n : Z * Z * Z) : res walk :=
  match cur_wait c, retx_cur c with
  | [], [] => mret (ListsOver c)
  | [], r :: rr => process_retransmit_list_head c r rr ack_sn n
  | w :: wr, [] => process_wait_list_head c w wr ack_sn n
  | w :: wr, r :: rr =>
      dw ← Store.deref (st (ent c)) w;
      dr ← Store.deref (st (ent c)) r;
      let cmp := sn_compare_tx (ent c) (Sdu.sn dw) (Sdu.sn dr) in
      if (cmp <? 0) || ((cmp =? 0) && (Seg.so w <? Seg.so r))
      then process_wait_list_head c w wr ack_sn n
      else process_retransmit_list_head c r rr ack_sn n
  end.

(** Rounds a walk can take: each one consumes a node, or the wait list. *)
Definition walk_fuel (c : ctl) : nat := (length (wait_rest c) + length (retx_cur c) + 2)%nat.

(** The walk for one nack; [true] if the lists are over. *)
Fixpoint process_nack (fuel : nat) (c : ctl) (ack_sn : Z) (n : Z * Z * Z) : res (bool * ctl) :=
  match fuel with
  | O => Fault NoFuel
  | S fuel' =>
      w ← process_next_pdu c ack_sn n;
      match w with
      | NextPdu c => process_nack fuel' c ack_sn n
      | DoneNack c => mret (false, c)
      | ListsOver c => mret (true, c)
      end
  end.

(** [for (i = 0; i < range; i++)]. *)
Fixpoint process_range (k : nat) (i : Z) (c : ctl) (ack_sn : Z) (b : nack_block) : res ctl :=
  match k with
  | O => mret c
  | S k' =>
      '(over, c) ← process_nack (walk_fuel c) c ack_sn (nack_at (ent c) b i);
      match over : bool with
      | true => mret c
      | false => process_range k' (i + 1) c ack_sn b
      end
  end.

(** 38.322 5.3.3.3: stop t_poll_retransmit if a NACK is received for poll_sn. *)
Definition stop_poll_on_nack (e : t) (b : nack_block) : t :=
  if (sn_compare_tx e (nack_sn b) (poll_sn e) <=? 0)
     && (sn_compare_tx e (poll_sn e) ((nack_sn b + n_range b) mod sn_modulus e) <? 0)
  then {| e with t_poll_retransmit_start := 0 |} else e.

Fixpoint process_nacks (fuel : nat) (c : ctl) (d : Codec.nr_rlc_pdu_decoder_t) (ack_sn : Z)
    (e1 : bool) : res ctl :=
  match fuel with
  | O => Fault NoFuel
  | S fuel' =>
      match e1 with
      | false => mret c
      | true =>
          '(b, d) ← decode_nack (ent c) d;
          c ← process_range (Z.to_nat (n_range b)) 0 c ack_sn b;
          process_nacks fuel' {| c with ent := stop_poll_on_nack (ent c) b |} d ack_sn (n_e1 b)
      end
  end.

(** ** Nacks done, finish with ack *)

Fixpoint ack_wait (c : ctl) (l : list Seg.t) (ack_sn : Z) : res ctl :=
  match l with
  | [] => mret c
  | s :: rest =>
      d ← Store.deref (st (ent c)) s;
      if sn_compare_tx (ent c) (Sdu.sn d) ack_sn <? 0 then
        let ew := note_end c s in
        e ← free_acked (ent c) s;
        ack_wait {| c with ent := e; wait_rest := rest; end_wait := ew |} rest ack_sn
      else mret c
  end.

Fixpoint ack_retx (c : ctl) (l : list Seg.t) (ack_sn : Z) : res ctl :=
  match l with
  | [] => mret c
  | s :: rest =>
      d ← Store.deref (st (ent c)) s;
      if sn_compare_tx (ent c) (Sdu.sn d) ack_sn <? 0 then
        e ← free_acked_retx (ent c) s;
        ack_retx {| c with ent := e; retx_cur := rest |} rest ack_sn
      else mret c
  end.

(** [if (l != NULL && sn_compare_tx(l->sdu->sn, v) < 0) v = l->sdu->sn]. *)
Definition min_with_head (e : t) (l : list Seg.t) (v : Z) : res Z :=
  match l with
  | [] => mret v
  | s :: _ =>
      d ← Store.deref (st e) s;
      mret (if sn_compare_tx e (Sdu.sn d) v <? 0 then Sdu.sn d else v)
  end.

(** Write the lists back and update tx_next_ack. *)
Definition finish_control (c : ctl) (ack_sn : Z) : res t :=
  let e := ent c in
  let e := {| e with wait_list := wait_done c ++ wait_rest c;
                     retransmit_list := retx_new c ++ retx_cur c;
                     wait_end := match end_wait c with
                                 | Some p => p
                                 | None => wait_end e
                                 end |} in
  v ← min_with_head e (wait_list e) (tx_next e);
  v ← min_with_head e (retransmit_list e) v;
  let v := if sn_compare_tx e ack_sn v <? 0 then ack_sn else v in
  mret {| e with tx_next_ack := v |}.

Definition apply_control_pdu (e : t) (buffer : list Z) : res t :=
  '(ack_sn, e1, d) ← decode_ack e (Codec.nr_rlc_pdu_decoder_init buffer);
  (* 38.322 5.3.3.3: stop t_poll_retransmit if an ACK is received for poll_sn *)
  let e := if sn_compare_tx e (poll_sn e) ack_sn <? 0
           then {| e with t_poll_retransmit_start := 0 |} else e in
  let c := {| ent := e; wait_done := []; wait_rest := wait_list e; wait_null := false;
              end_wait := None; retx_new := []; retx_cur := retransmit_list e |} in
  c ← process_nacks (S (length buffer)) c d ack_sn e1;
  c ← ack_wait c (cur_wait c) ack_sn;
  c ← ack_retx c (retx_cur c) ack_sn;
  finish_control c ack_sn.

Definition process_control_pdu (e : t) (buffer : list Z) : res t :=
  valid ← validate_control_pdu e buffer;
  match valid : bool with
  | true => apply_control_pdu e buffer
  | false => mret e
  end.

End AmControl.
