(* ===== verification/RlcAmRx.v ===== *)
(** * RLC acknowledged mode: reception of PDUs

    Models the functions of [nr_rlc_entity_am.c] that receive data PDUs:
    [reassemble_and_deliver], [reception_actions], the dispatcher
    [nr_rlc_entity_am_recv_pdu], and the reassembly timer. *)

From S2P Require Import Prelude TimeStat RlcPdu RlcSdu RlcRxManager RlcEntity RlcAm.
From S2P Require Import RlcAmControl.

Module AmRx.
Import Entity Am.

(** [free(pdu->data); pdu->data = NULL]: the sizes are kept, they tell later
    duplicates. *)
Definition drop_data (p : Pdu.nr_rlc_pdu_t) : Pdu.nr_rlc_pdu_t := {| p with Pdu.data := None |}.

Definition reassemble_and_deliver (e : t) (sn : Z) : res t :=
  l ← get_pdus e sn;
  sdu ← Chain.reassemble l;
  m ← RxManager.set_slot (rx e) sn (map drop_data l);
  let e := {| e with rx := m; rx_size := rx_size e - Chain.rx_bytes l |} in
  match sdu with
  | None => mret e
  | Some buf =>
      mret (upd_common (fun c => upd_stats count_txsdu_pkt (emit (DeliverSdu buf) c)) e)
  end.

(** Free all delivered SDUs at the head of the window: returns the new window,
    rx_next and the number of SDUs. *)
Fixpoint free_delivered (fuel : nat) (e : t) (rx_next count : Z) : res (RxManager.t * Z * Z) :=
  match fuel with
  | O => Fault NoFuel
  | S fuel' =>
      l ← get_pdus e rx_next;
      match Chain.delivered l with
      | true =>
          m ← RxManager.nr_rlc_rx_manager_clear_pdu (rx e) rx_next;
          free_delivered fuel' {| e with rx := m |} ((rx_next + 1) mod sn_modulus e) (count + 1)
      | false => mret (rx e, rx_next, count)
      end
  end.

(** Update of [rx_next] when the SDU at the start of the window is complete. *)
Definition advance_rx_next (e : t) : res t :=
  '(m, rx_next_, count) ← free_delivered (S (Z.to_nat (window_size e))) e (rx_next e) 0;
  mret {| e with rx_next := rx_next_;
                 rx := RxManager.nr_rlc_rx_manager_set_start
                         (RxManager.nr_rlc_rx_manager_advance m count) rx_next_ |}.

(** The first part of [reception_actions]: the reception of a complete SDU. *)
Definition update_window (e : t) (x : Z) : res t :=
  let e := if sn_compare_rx e x (rx_next_highest e) >=? 0
           then {| e with rx_next_highest := (x + 1) mod sn_modulus e |} else e in
  full ← sdu_full e x;
  match full : bool with
  | false => mret e
  | true =>
      e ← reassemble_and_deliver e x;
      e ← (if x =? rx_highest_status e then
             r ← skip_delivered e (rx_highest_status e);
             mret {| e with rx_highest_status := r |}
           else mret e);
      if x =? rx_next e then advance_rx_next e else mret e
  end.

(** The second part of [reception_actions]: t_reassembly. *)
Definition stop_t_reassembly (e : t) : res t :=
  let next := (rx_next e + 1) mod sn_modulus e in
  missing ← sdu_has_missing_bytes e (rx_next e);
  mret (if negb (t_reassembly_start e =? 0)
           && ((rx_next_status_trigger e =? rx_next e)
               || ((rx_next_status_trigger e =? next) && negb missing)
               || (negb (sn_in_recv_window e (rx_next_status_trigger e))
                   && negb (rx_next_status_trigger e =? (rx_next e + window_size e) mod sn_modulus e)))
        then {| e with t_reassembly_start := 0 |} else e).

(** Starts the timer when bytes are missing from SDU [sn] on. *)
Definition start_t_reassembly (e : t) (sn : Z) : res t :=
  let next := (sn + 1) mod sn_modulus e in
  missing ← sdu_has_missing_bytes e sn;
  mret (if (sn_compare_rx e (rx_next_highest e) next >? 0)
           || ((rx_next_highest e =? next) && missing)
        then {| e with t_reassembly_start := t_current e;
                       rx_next_status_trigger := rx_next_highest e |}
        else e).

Definition reception_actions (e : t) (x : Z) : res t :=
  e ← update_window e x;
  e ← stop_t_reassembly e;
  if t_reassembly_start e =? 0 then start_t_reassembly e (rx_next e) else mret e.

Definition check_t_reassembly (e : t) : res t :=
  (* is t_reassembly running and if yes has it expired? *)
  if (t_reassembly_start e =? 0)
     || (t_current e <=? u64 (t_reassembly_start e + t_reassembly e)) then mret e
  else
    (* stop timer *)
    let e := {| e with t_reassembly_start := 0 |} in
    (* update RX_Highest_Status *)
    sn ← skip_delivered e (rx_next_status_trigger e);
    (* trigger status report *)
    let e := {| e with rx_highest_status := sn; status_triggered := true |} in
    start_t_reassembly e (rx_highest_status e).

(** ** Received PDUs *)

(** What the header of a received PDU says; [p] is the poll bit, as far as it
    was read. *)
Inductive header :=
| ControlPdu
| DataPdu (p : bool) (sn so data_size : Z) (is_first is_last : bool)
| Discard (p : bool).

Definition decode_header (e : t) (buffer : list Z) : res header :=
  let size := zlen buffer in
  let d := Codec.nr_rlc_pdu_decoder_init buffer in
  Codec.checked (Codec.nr_rlc_pdu_decoder_get_bits d 1) (Discard false) (fun dc d =>
  if dc =? 0 then mret ControlPdu
  else
    (* an error in reading p leaves -1 in it, which is true *)
    Codec.checked (Codec.nr_rlc_pdu_decoder_get_bits d 1) (Discard true) (fun p d =>
    let p := negb (p =? 0) in
    Codec.checked (Codec.nr_rlc_pdu_decoder_get_bits d 2) (Discard p) (fun si d =>
    let is_first := Z.land si 2 =? 0 in
    let is_last := Z.land si 1 =? 0 in
    let with_sn d :=
      Codec.checked (Codec.nr_rlc_pdu_decoder_get_bits d (sn_field_length e)) (Discard p) (fun sn d =>
      let with_so so d :=
        let data_size := size - Codec.dec_byte d in
        (* discard PDU if no data *)
        mret (if data_size <=? 0 then Discard p else DataPdu p sn so data_size is_first is_last) in
      if is_first then with_so 0 d
      else
        Codec.checked (Codec.nr_rlc_pdu_decoder_get_bits d 16) (Discard p) (fun so d =>
        if so =? 0 then mret (Discard p) else with_so so d)) in
    if sn_field_length e =? 18
    then Codec.checked (Codec.nr_rlc_pdu_decoder_get_bits d 2) (Discard p) (fun _ d => with_sn d)
    else with_sn d))).

(** Labels [err] and [discard]. *)
Definition discard_pdu (p : bool) (size : Z) (e : t) : t :=
  let e := if p then {| e with status_triggered := true |} else e in
  upd_common (upd_stats (count_rxpdu_dd size)) e.

(** A data PDU, once its header is read. *)
Definition recv_data_pdu (e : t) (buffer : list Z) (p : bool) (sn so data_size : Z)
    (is_first is_last : bool) : res t :=
  let size := zlen buffer in
  (* discard PDU if rx buffer is full *)
  if rx_size e + data_size >? rx_maxsize e then mret (discard_pdu p size e)
  else if negb (sn_in_recv_window e sn) then
    mret (discard_pdu p size (upd_common (upd_stats (count_rxpdu_ow size)) e))
  else
    (* discard segment if all the bytes of the segment are already there *)
    dup ← segment_already_received e sn so data_size;
    match dup : bool with
    | true => mret (discard_pdu p size (upd_common (upd_stats (count_rxpdu_dup size)) e))
    | false =>
        (* put in pdu reception list *)
        data ← zslice buffer (size - data_size) data_size;
        m ← RxManager.nr_rlc_rx_manager_add_pdu (rx e)
              (Pdu.nr_rlc_new_pdu sn so is_first is_last data);
        e ← reception_actions {| e with rx := m; rx_size := rx_size e + data_size |} sn;
        mret (match p with
              | true => {| e with status_triggered := true |}
              | false => e
              end)
    end.

Definition nr_rlc_entity_am_recv_pdu (e : t) (buffer : list Z) : res t :=
  let size := zlen buffer in
  let e := upd_common (upd_stats (count_rxpdu size)) e in
  h ← decode_header e buffer;
  match h with
  | ControlPdu => AmControl.process_control_pdu e buffer
  | Discard p => mret (discard_pdu p size e)
  | DataPdu p sn so data_size is_first is_last =>
      recv_data_pdu e buffer p sn so data_size is_first is_last
  end.

End AmRx.
