(* ===== verification/RlcAmRxSpec.v ===== *)
(** * RLC acknowledged mode: correctness of the receiving side

    The reception window is a list of slots, one per SN from [rx_next] on
    ([RxManager.window]).  [wf] is its invariant: a slot has the segments of its
    SN ordered by offset, [rx_next] is not delivered, the state variables are
    ordered rx_next <= rx_highest_status <= rx_next_highest <= rx_next +
    window_size.  [honest D] says that the segments not delivered yet are slices
    of the SDUs [D sn] of the peer. *)

From S2P Require Import Prelude TimeStat RlcPdu RlcSdu RlcRxManager RlcEntity RlcAm.
From S2P Require Import RlcAmControl RlcAmRx.

Module AmRxSpec.
Import Entity Am AmRx.

(** The configuration made by the constructor. *)
Record cfg (e : t) : Prop := {
  cfg_len : sn_field_length e = 12 \/ sn_field_length e = 18;
  cfg_mod : sn_modulus e = 2 ^ sn_field_length e;
  cfg_win : window_size e = sn_modulus e / 2
}.

Lemma cfg_window e : cfg e -> sn_modulus e = 2 * window_size e /\ 1 < window_size e.
Proof. intros [Hl Hm Hw]. rewrite Hw, Hm. by destruct Hl as [-> | ->]. Qed.

(** Distance of an SN from [rx_next]. *)
Definition off (e : t) (a : Z) : Z := (a - rx_next e) mod sn_modulus e.

Lemma modulus_rx_off e a :
  cfg e -> 0 <= rx_next e < sn_modulus e -> 0 <= a < sn_modulus e -> modulus_rx e a = off e a.
Proof.
  intros Hc Hn Ha. unfold modulus_rx, off. destruct (Z.ltb_spec (a - rx_next e) 0).
  - rewrite <- (Z.mod_add (a - rx_next e) 1), Z.mul_1_l, Z.mod_small by lia. done.
  - by rewrite Z.mod_small by lia.
Qed.

Lemma off_range e a : cfg e -> 0 <= off e a < sn_modulus e.
Proof. intros Hc. destruct (cfg_window e Hc). apply Z.mod_pos_bound. lia. Qed.

Lemma off_inj e a b :
  0 <= a < sn_modulus e -> 0 <= b < sn_modulus e -> off e a = off e b -> a = b.
Proof. intros. by apply (sub_mod_inj (sn_modulus e) a b (rx_next e)). Qed.

(** The SN at a distance. *)
Definition sn_at (e : t) (i : Z) : Z := (rx_next e + i) mod sn_modulus e.

Lemma off_sn_at e i : 0 <= i < sn_modulus e -> off e (sn_at e i) = i.
Proof.
  intros Hi. unfold off, sn_at. rewrite Zminus_mod_idemp_l.
  replace (rx_next e + i - rx_next e) with i by lia. by apply Z.mod_small.
Qed.

Lemma sn_at_off e a : 0 <= a < sn_modulus e -> sn_at e (off e a) = a.
Proof.
  intros Ha. unfold off, sn_at. rewrite Z.add_mod_idemp_r by lia.
  replace (rx_next e + (a - rx_next e)) with a by lia. by apply Z.mod_small.
Qed.

Lemma sn_at_range e i : cfg e -> 0 <= sn_at e i < sn_modulus e.
Proof. intros Hc. destruct (cfg_window e Hc). apply Z.mod_pos_bound. lia. Qed.

(** ** Slots *)

Definition so_le (p q : Pdu.nr_rlc_pdu_t) : Prop := Pdu.so p <= Pdu.so q.

(** A received segment: the data is freed when the SDU is delivered. *)
Definition node_ok (p : Pdu.nr_rlc_pdu_t) : Prop :=
  0 <= Pdu.so p /\ (Pdu.is_first p = true <-> Pdu.so p = 0) /\ 0 < Pdu.size p
  /\ forall d, Pdu.data p = Some d -> Pdu.size p = zlen d.

(** The slot of SN [sn]; its first segment tells whether the SDU was
    delivered. *)
Record slot_ok (sn : Z) (l : list Pdu.nr_rlc_pdu_t) : Prop := {
  s_sorted : StronglySorted so_le l;
  s_nodes : Forall (fun p => Pdu.sn p = sn /\ node_ok p) l;
  s_head : forall p, p ∈ l -> Pdu.data p = None ->
    exists h tl, l = h :: tl /\ Pdu.data h = None /\ Pdu.so h = 0
}.

Lemma slot_ok_nil sn : slot_ok sn [].
Proof. constructor; try constructor. by intros p Hp%elem_of_nil. Qed.

Definition stop_so (pdu c : Pdu.nr_rlc_pdu_t) : bool := Pdu.so c >? Pdu.so pdu.

Lemma insert_slot_ok sn l pdu :
  slot_ok sn l -> Pdu.sn pdu = sn -> node_ok pdu -> Pdu.data pdu <> None ->
  slot_ok sn (Pdu.insert_before (stop_so pdu) pdu l).
Proof.
  intros [Hs Hn Hh] Hsn Hp Hd. constructor.
  - apply Pdu.insert_before_sorted; [intros ???; unfold so_le; lia| |done].
    apply Forall_true. intros c. unfold stop_so, so_le. rewrite Z.gtb_ltb.
    destruct (Z.ltb_spec (Pdu.so pdu) (Pdu.so c)); lia.
  - rewrite Pdu.insert_before_perm. by constructor.
  - intros p Hin Hpn. assert (Hin' : p ∈ l).
    { rewrite Pdu.insert_before_perm in Hin. apply elem_of_cons in Hin as [->|]; done. }
    destruct (Hh p Hin' Hpn) as (h & tl & -> & Hhn & Hhs). simpl. unfold stop_so at 1.
    rewrite Hhs, Z.gtb_ltb. destruct Hp as [Hso _].
    destruct (Z.ltb_spec (Pdu.so pdu) 0); [lia|]. eauto.
Qed.

Lemma drop_data_slot_ok sn l : slot_ok sn l -> Chain.full l = true -> slot_ok sn (map drop_data l).
Proof.
  intros [Hs Hn Hh] Hf. constructor.
  - clear -Hs. induction Hs as [|p l Hs IH Hp]; simpl; constructor; [done|]. by apply Forall_map.
  - apply Forall_map. eapply Forall_impl; [exact Hn|].
    intros p (? & ? & ? & ? & _). split_and!; try done.
  - intros p _ _. destruct l as [|h tl]; [done|]. exists (drop_data h), (map drop_data tl).
    split_and!; try done. apply Forall_cons in Hn as [(_ & Hso & _) _].
    unfold Chain.full in Hf. simpl in Hf. destruct (Pdu.data h); [|done].
    rewrite Z.gtb_ltb in Hf. destruct (Z.ltb_spec (-1 + 1) (Pdu.so h)); [done|]. simpl. lia.
Qed.

(** The segments not delivered yet are slices of the SDUs of the peer; all the
    segments end within the size of an SDU. *)
Definition honest_slot (D : Z -> list Z) (l : list Pdu.nr_rlc_pdu_t) : Prop :=
  Forall (fun p => Pdu.so p + Pdu.size p <= NR_SDU_MAX
            /\ (Pdu.data p <> None ->
                Chain.slice_of (D (Pdu.sn p)) p /\ zlen (D (Pdu.sn p)) <= NR_SDU_MAX)) l.

Lemma reassemble_slot D sn l :
  slot_ok sn l -> honest_slot D l -> Chain.full l = true -> Chain.reassemble l = Ok (Some (D sn)).
Proof.
  intros [Hs Hn Hh] Hho Hf.
  destruct l as [|h tl]; [done|].
  assert (Hd : Pdu.data h <> None).
  { unfold Chain.full in Hf. simpl in Hf. by destruct (Pdu.data h). }
  assert (Hall : forall p, p ∈ h :: tl -> Chain.slice_of (D sn) p /\ zlen (D sn) <= NR_SDU_MAX).
  { intros p Hp. unfold honest_slot in Hho. rewrite Forall_forall in Hho, Hn.
    destruct (Hn p Hp) as [<- _]. apply Hho; [done|]. intros Hpn.
    destruct (Hh p Hp Hpn) as (h' & tl' & [= <- <-] & Hd' & _). done. }
  apply Chain.reassemble_correct; [|apply Forall_forall; intros p Hp; by apply Hall|done].
  apply (Hall h). left.
Qed.

(** Bytes held by a slot. *)
Definition held (l : list Pdu.nr_rlc_pdu_t) : Z :=
  zsum (fun p => match Pdu.data p with Some _ => Pdu.size p | None => 0 end) l.

Lemma held_nonneg sn l : slot_ok sn l -> 0 <= held l.
Proof.
  intros [_ Hn _]. apply zsum_nonneg. eapply Forall_impl; [exact Hn|].
  intros p (_ & _ & _ & ? & _). cbv beta. destruct (Pdu.data p); lia.
Qed.

(** ** The window *)

Definition win (e : t) : list (list Pdu.nr_rlc_pdu_t) := RxManager.window (rx e).

(** The slot at distance [i]; SNs behind the window share the slots of the
    window. *)
Definition slot_at (e : t) (i : Z) : list Pdu.nr_rlc_pdu_t :=
  nth (Z.to_nat (i mod window_size e)) (win e) [].

Record win_ok (e : t) : Prop := {
  wo_cfg : cfg e;
  wo_rx : RxManager.wf (rx e);
  wo_size : RxManager.size (rx e) = window_size e;
  wo_start : RxManager.sn_start (rx e) = rx_next e;
  wo_next : 0 <= rx_next e < sn_modulus e;
  wo_slots : forall i, 0 <= i < window_size e -> slot_ok (sn_at e i) (slot_at e i)
}.

Lemma length_win e : win_ok e -> Z.of_nat (length (win e)) = window_size e.
Proof. intros Hw. unfold win. rewrite RxManager.length_window by apply Hw. apply Hw. Qed.

Lemma slot_off e a :
  win_ok e -> RxManager.slot (rx e) a = Z.to_nat (off e a mod window_size e).
Proof.
  intros Hw. destruct (cfg_window e (wo_cfg _ Hw)). unfold RxManager.slot, RxManager.offset, off.
  rewrite (wo_size _ Hw), (wo_start _ Hw). do 3 f_equal. lia.
Qed.

Lemma is_sn_ok e a : win_ok e -> 0 <= a < sn_modulus e -> RxManager.is_sn (rx e) a.
Proof.
  intros Hw Ha. destruct (cfg_window e (wo_cfg _ Hw)). unfold RxManager.is_sn.
  rewrite (wo_size _ Hw). lia.
Qed.

Lemma get_pdus_ok e a :
  win_ok e -> 0 <= a < sn_modulus e -> get_pdus e a = Ok (slot_at e (off e a)).
Proof.
  intros Hw Ha. destruct (RxManager.get_spec (rx e) a (wo_rx _ Hw) (is_sn_ok e a Hw Ha)) as (l & E & Hl).
  unfold get_pdus. rewrite E. f_equal. unfold slot_at, win. rewrite (slot_off e a Hw) in Hl.
  symmetry. by apply nth_lookup_Some.
Qed.

Lemma delivered_ok e a :
  win_ok e -> 0 <= a < sn_modulus e ->
  sdu_delivered e a = Ok (Chain.delivered (slot_at e (off e a))).
Proof. intros. unfold sdu_delivered. by rewrite get_pdus_ok. Qed.

(** Writing a slot of the window. *)
Lemma set_slot_ok e a l :
  win_ok e -> 0 <= a < sn_modulus e -> off e a < window_size e -> slot_ok a l ->
  exists m, RxManager.set_slot (rx e) a l = Ok m
    /\ win_ok {| e with rx := m |}
    /\ RxManager.window m = <[Z.to_nat (off e a) := l]> (win e)
    /\ forall i, 0 <= i < window_size e ->
         slot_at {| e with rx := m |} i = if i =? off e a then l else slot_at e i.
Proof.
  intros Hw Ha Ho Hl. pose proof (off_range e a (wo_cfg _ Hw)) as Hr.
  destruct (RxManager.set_slot_spec (rx e) a l (wo_rx _ Hw) (is_sn_ok e a Hw Ha))
    as (m & E & Hm & Ewin & Esz & Est & _).
  rewrite (slot_off e a Hw), Z.mod_small in Ewin by lia. pose proof (length_win e Hw) as Hlen.
  assert (Hsl : forall i, 0 <= i < window_size e ->
    slot_at {| e with rx := m |} i = if i =? off e a then l else slot_at e i).
  { intros i Hi. unfold slot_at, win. simpl. rewrite !Z.mod_small, Ewin by lia.
    destruct (Z.eqb_spec i (off e a)) as [->|Hne].
    - apply nth_lookup_Some. apply list_lookup_insert_eq. unfold win in *. lia.
    - rewrite !nth_lookup. by rewrite list_lookup_insert_ne by lia. }
  exists m. split_and!; try done. destruct Hw as [Hc H1 H2 H3 H4 H5].
  constructor; simpl; try done; [by constructor; apply Hc|congruence|congruence|].
  intros i Hi. rewrite Hsl by done. destruct (Z.eqb_spec i (off e a)) as [->|].
  - change (slot_ok (sn_at e (off e a)) l). by rewrite sn_at_off.
  - change (slot_ok (sn_at e i) (slot_at e i)). by apply H5.
Qed.

(** The loops that look for the next SDU that is not delivered stop at the
    first one; behind the window comes the slot of [rx_next] again. *)
Lemma skip_ok e a k :
  win_ok e -> 0 <= a < sn_modulus e -> off e a <= k <= window_size e ->
  Chain.delivered (slot_at e k) = false ->
  exists r, skip_delivered e a = Ok r /\ 0 <= r < sn_modulus e
    /\ off e a <= off e r <= k /\ Chain.delivered (slot_at e (off e r)) = false
    /\ forall i, off e a <= i < off e r -> Chain.delivered (slot_at e i) = true.
Proof.
  intros Hw Ha Hk Hd. destruct (cfg_window e (wo_cfg _ Hw)) as [HM HW].
  pose proof (off_range e a (wo_cfg _ Hw)) as Hr.
  assert (Hoff : forall j, 0 <= j -> off e a + j < sn_modulus e ->
    off e ((a + j) mod sn_modulus e) = off e a + j).
  { intros j Hj Hlt. rewrite <- (sn_at_off e a) at 1 by done. unfold sn_at at 1.
    rewrite Z.add_mod_idemp_l by lia. rewrite <- Z.add_assoc. apply off_sn_at. lia. }
  set (del := fun s => Chain.delivered (slot_at e (off e s))).
  destruct (Chain.first_undelivered_spec (sdu_delivered e) del (sn_modulus e) ltac:(lia)) with
    (fuel := Z.to_nat (sn_modulus e)) (sn := a) (k := Z.to_nat (k - off e a))
    as (j & Hj & E & Hdj & Hlt); [intros s Hs; by apply delivered_ok|done|lia| |].
  { unfold del. rewrite Z2Nat.id by lia. rewrite Hoff by lia.
    by replace (off e a + (k - off e a)) with k by lia. }
  exists ((a + Z.of_nat j) mod sn_modulus e). unfold del in Hdj. rewrite Hoff in Hdj |- * by lia.
  split; [exact E|]. split; [apply Z.mod_pos_bound; lia|]. split; [lia|]. split; [done|].
  intros i Hi. specialize (Hlt (Z.to_nat (i - off e a)) ltac:(lia)). unfold del in Hlt.
  rewrite Z2Nat.id, Hoff in Hlt by lia. by replace (off e a + (i - off e a)) with i in Hlt by lia.
Qed.

(** ** The start of the window *)

Section advance.
Context (e : t) (n : Z) (Hw : win_ok e) (Hn : 1 <= n <= window_size e).
Context (Hdel : forall i, 0 <= i < n -> Chain.delivered (slot_at e i) = true)
  (Hstop : n < window_size e -> Chain.delivered (slot_at e n) = false).

(** [e'] is [e] with the first [c] slots cleared. *)
Definition cleared (c : Z) (e' : t) : Prop :=
  win_ok e' /\ (rx_next e', sn_modulus e', window_size e') = (rx_next e, sn_modulus e, window_size e)
  /\ forall i, 0 <= i < window_size e -> slot_at e' i = if i <? c then [] else slot_at e i.

Lemma free_delivered_ok fuel : forall c e',
  cleared c e' -> 0 <= c <= n -> n - c < Z.of_nat fuel ->
  exists m, free_delivered fuel e' (sn_at e c) c = Ok (m, sn_at e n, n)
    /\ cleared n {| e' with rx := m |}.
Proof using Hw Hn Hdel Hstop.
  destruct (cfg_window e (wo_cfg _ Hw)) as [HM HW].
  induction fuel as [|fuel IH]; intros c e' Hcl Hc Hf; [lia|].
  pose proof Hcl as (Hw' & [= E1 E2 E3] & Hsl). cbn [free_delivered].
  assert (Hoff : off e' (sn_at e c) = c).
  { replace (sn_at e c) with (sn_at e' c) by (unfold sn_at; by rewrite E1, E2).
    apply off_sn_at. lia. }
  pose proof (sn_at_range e c (wo_cfg _ Hw)) as Hr. rewrite <- E2 in Hr.
  rewrite get_pdus_ok, res_bind_unfold, Hoff by done.
  destruct (decide (c = n)) as [->|Hne].
  - assert (Hd : Chain.delivered (slot_at e' n) = false).
    { destruct (decide (n < window_size e)) as [Hlt|Hge].
      - rewrite Hsl by lia. destruct (Z.ltb_spec n n); [lia|]. by apply Hstop.
      - replace n with (window_size e) by lia. unfold slot_at. rewrite E3, Z.mod_same by lia.
        specialize (Hsl 0 ltac:(lia)). unfold slot_at in Hsl. rewrite E3, Z.mod_0_l in Hsl by lia.
        rewrite Hsl. by destruct (Z.ltb_spec 0 n); [|lia]. }
    rewrite Hd. exists (rx e'). split; [done|]. by destruct e'.
  - assert (Hd : Chain.delivered (slot_at e' c) = true).
    { rewrite Hsl by lia. destruct (Z.ltb_spec c c); [lia|]. apply Hdel. lia. }
    rewrite Hd. unfold RxManager.nr_rlc_rx_manager_clear_pdu.
    destruct (set_slot_ok e' (sn_at e c) []) as (m & Em & Hwm & _ & Hslm);
      [done|done|lia|apply slot_ok_nil|].
    rewrite Em, res_bind_unfold.
    assert (Hnext : (sn_at e c + 1) mod sn_modulus e' = sn_at e (c + 1)).
    { unfold sn_at. rewrite E2, Z.add_mod_idemp_l by lia. f_equal. lia. }
    rewrite Hnext. apply (IH (c + 1) {| e' with rx := m |}); [|lia|lia].
    split; [done|]. split; [simpl; congruence|]. intros i Hi. rewrite Hslm by lia.
    rewrite Hoff, Hsl by lia.
    destruct (Z.eqb_spec i c), (Z.ltb_spec i c), (Z.ltb_spec i (c + 1)); done || lia.
Qed.

Lemma advance_ok :
  exists e', advance_rx_next e = Ok e' /\ win_ok e'
    /\ e' = {| e with rx_next := sn_at e n; rx := rx e' |}
    /\ forall i, 0 <= i < window_size e ->
         slot_at e' i = if i + n <? window_size e then slot_at e (i + n) else [].
Proof using Hw Hn Hdel Hstop.
  destruct (cfg_window e (wo_cfg _ Hw)) as [HM HW]. unfold advance_rx_next.
  assert (E0 : sn_at e 0 = rx_next e).
  { unfold sn_at. rewrite Z.add_0_r. apply Z.mod_small, Hw. }
  destruct (free_delivered_ok (S (Z.to_nat (window_size e))) 0 e) as (m & E & Hwm & _ & Hslm);
    [|lia|lia|].
  { split; [done|]. split; [done|]. intros i Hi. by destruct (Z.ltb_spec i 0); [lia|]. }
  rewrite E0 in E. rewrite E, res_bind_unfold. eexists. split; [reflexivity|].
  pose proof (sn_at_range e n (wo_cfg _ Hw)) as Hr.
  pose proof (wo_rx _ Hwm) as Hm. simpl in Hm. pose proof (wo_size _ Hwm) as Hms. simpl in Hms.
  destruct (RxManager.slide_spec m n (sn_at e n)) as (Hm' & Ewin & Esz & Est); [done|lia|lia|].
  set (m' := RxManager.nr_rlc_rx_manager_set_start _ _) in *.
  pose proof (length_win _ Hwm) as Hlen. unfold win in Hlen. simpl in Hlen.
  assert (Hsl : forall i, 0 <= i < window_size e ->
    slot_at {| e with rx_next := sn_at e n; rx := m' |} i
    = if i + n <? window_size e then slot_at e (i + n) else []).
  { intros i Hi. unfold slot_at at 1, win. simpl. rewrite Ewin, Z.mod_small, nth_lookup by lia.
    rewrite lookup_rotate_r by lia. rewrite <- nth_lookup. unfold rotate_nat_add.
    rewrite Hlen, !Z2Nat.id by lia.
    change (slot_at {| e with rx := m |} (n + i) = if i + n <? window_size e then slot_at e (i + n) else []).
    destruct (Z.ltb_spec (i + n) (window_size e)).
    - rewrite Hslm by lia. destruct (Z.ltb_spec (n + i) n); [lia|]. f_equal. lia.
    - transitivity (slot_at {| e with rx := m |} (n + i - window_size e)).
      + unfold slot_at. simpl. do 2 f_equal. rewrite <- (Z.mod_add (n + i - _) 1) by lia. f_equal. lia.
      + rewrite Hslm by lia. by destruct (Z.ltb_spec (n + i - window_size e) n); [|lia]. }
  split; [|by split].
  pose proof Hw as [Hc H1 H2 H3 H4 H5].
  constructor; [by constructor; apply Hc|exact Hm'|exact (eq_trans Esz Hms)|exact Est|exact Hr|].
  intros i Hi. rewrite Hsl by done.
  destruct (Z.ltb_spec (i + n) (window_size e)); [|apply slot_ok_nil].
  replace (sn_at {| e with rx_next := sn_at e n; rx := m' |} i) with (sn_at e (i + n)); [apply H5; lia|].
  unfold sn_at. simpl. unfold sn_at. rewrite Z.add_mod_idemp_l by lia. f_equal. lia.
Qed.

End advance.

(** ** Invariant *)

(** Bytes held by the window. *)
Definition win_held (e : t) : Z := zsum held (win e).

Record core (e : t) : Prop := {
  c_win : win_ok e;
  c_highest : 0 <= rx_next_highest e < sn_modulus e;
  c_status : 0 <= rx_highest_status e < sn_modulus e;
  c_trigger : 0 <= rx_next_status_trigger e < sn_modulus e;
  c_off_highest : off e (rx_next_highest e) <= window_size e;
  c_off_status : off e (rx_highest_status e) <= off e (rx_next_highest e);
  c_status_und : Chain.delivered (slot_at e (off e (rx_highest_status e))) = false;
  c_next_und : Chain.delivered (slot_at e 0) = false;
  c_empty : forall i, off e (rx_next_highest e) <= i < window_size e -> slot_at e i = [];
  c_size : win_held e <= rx_size e;
  c_max : rx_size e <= rx_maxsize e
}.

Definition timer_ok (e : t) : Prop :=
  t_reassembly_start e <> 0 ->
  1 <= off e (rx_next_status_trigger e) <= off e (rx_next_highest e).

Definition wf (e : t) : Prop := core e /\ timer_ok e.

Definition honest (D : Z -> list Z) (e : t) : Prop :=
  forall i, 0 <= i < window_size e -> honest_slot D (slot_at e i).

(** What the receiving side does not change, the trace apart. *)
Definition tx_part (e : t) :=
  (sn_field_length e, sn_modulus e, window_size e, t_poll_retransmit e, poll_pdu e, poll_byte e,
   max_retx_threshold e, tx_next e, tx_next_ack e, poll_sn e, pdu_without_poll e,
   byte_without_poll e, force_poll e, t_poll_retransmit_start e,
   (tx_list e, tx_end e, tx_size e, tx_maxsize e, wait_list e, wait_end e, retransmit_list e,
    st e, bstatus (common e), txsdu_avg_time_to_tx (common e))).

Definition frame (e : t) :=
  (tx_part e, t_current e, t_reassembly e, t_status_prohibit e, t_status_prohibit_start e,
   rx_maxsize e).

Lemma win_map e : win_ok e -> win e = map (slot_at e) (seqZ 0 (window_size e)).
Proof.
  intros Hw. pose proof (length_win e Hw) as Hlen. apply list_eq. intros i.
  destruct (decide (i < length (win e))%nat) as [Hi|Hi].
  - rewrite list_lookup_fmap. rewrite lookup_seqZ_lt by lia. simpl.
    destruct (lookup_lt_is_Some_2 _ _ Hi) as [l Hl]. rewrite Hl. f_equal. symmetry.
    unfold slot_at. rewrite Z.mod_small by lia. apply nth_lookup_Some.
    by replace (Z.to_nat (0 + Z.of_nat i)) with i by lia.
  - rewrite !lookup_ge_None_2; [done| |lia]. rewrite length_map, length_seqZ. lia.
Qed.

Lemma win_held_slots e :
  win_ok e -> win_held e = zsum (fun i => held (slot_at e i)) (seqZ 0 (window_size e)).
Proof. intros Hw. unfold win_held. by rewrite win_map, zsum_map. Qed.

Lemma win_held_nonneg e : win_ok e -> 0 <= win_held e.
Proof.
  intros Hw. rewrite win_held_slots by done. apply zsum_nonneg, Forall_forall. intros i Hi%elem_of_seqZ.
  eapply held_nonneg, Hw. lia.
Qed.

(** Advancing the window only releases bytes. *)
Lemma advance_held e e' n :
  win_ok e -> win_ok e' -> window_size e' = window_size e -> 0 <= n <= window_size e ->
  (forall i, 0 <= i < window_size e ->
     slot_at e' i = if i + n <? window_size e then slot_at e (i + n) else []) ->
  win_held e' <= win_held e.
Proof.
  intros Hw Hw' HW Hn Hsl. rewrite !win_held_slots by done. rewrite HW.
  replace (seqZ 0 (window_size e)) with (seqZ 0 n ++ seqZ n (window_size e - n)) at 2
    by (rewrite <- seqZ_app by lia; f_equal; lia).
  replace (seqZ 0 (window_size e)) with (seqZ 0 (window_size e - n) ++ seqZ (window_size e - n) n) at 1
    by (rewrite <- (Z.add_0_l (window_size e - n)) at 2; rewrite <- seqZ_app by lia; f_equal; lia).
  rewrite !zsum_app.
  rewrite (zsum_ext _ (fun _ => 0) (seqZ (window_size e - n) n)).
  2: { intros i Hi. apply elem_of_seqZ in Hi. rewrite Hsl by lia.
       destruct (Z.ltb_spec (i + n) (window_size e)); [lia|done]. }
  rewrite (zsum_ext _ (fun i => held (slot_at e (n + i))) (seqZ 0 (window_size e - n))).
  2: { intros i Hi. apply elem_of_seqZ in Hi. rewrite Hsl by lia.
       destruct (Z.ltb_spec (i + n) (window_size e)); [|lia]. do 2 f_equal. lia. }
  rewrite <- (zsum_map (fun i => held (slot_at e i)) (Z.add n)).
  replace (map (Z.add n) (seqZ 0 (window_size e - n))) with (seqZ n (window_size e - n)).
  2: { change (seqZ n (window_size e - n) = Z.add n <$> seqZ 0 (window_size e - n)).
       rewrite fmap_add_seqZ. f_equal. lia. }
  assert (H0 : zsum (fun _ : Z => 0) (seqZ (window_size e - n) n) = 0).
  { generalize (seqZ (window_size e - n) n). induction l; simpl; lia. }
  assert (0 <= zsum (fun i => held (slot_at e i)) (seqZ 0 n)); [|lia].
  apply zsum_nonneg, Forall_forall. intros i Hi. apply elem_of_seqZ in Hi.
  apply (held_nonneg (sn_at e i)), Hw. lia.
Qed.

(** ** A complete SDU *)

Lemma slot_at_wrap e : win_ok e -> slot_at e (window_size e) = slot_at e 0.
Proof.
  intros Hw. destruct (cfg_window e (wo_cfg _ Hw)). unfold slot_at.
  by rewrite Z.mod_same, Z.mod_0_l by lia.
Qed.

(** The window once the SDU [x] was handed up: it is [core] but for [x]. *)
Record handed (e : t) (x : Z) : Prop := {
  h_win : win_ok e;
  h_highest : 0 <= rx_next_highest e < sn_modulus e;
  h_status : 0 <= rx_highest_status e < sn_modulus e;
  h_trigger : 0 <= rx_next_status_trigger e < sn_modulus e;
  h_off_highest : off e (rx_next_highest e) <= window_size e;
  h_off_status : off e (rx_highest_status e) <= off e (rx_next_highest e);
  h_x : 0 <= x < sn_modulus e;
  h_off_x : off e x < off e (rx_next_highest e);
  h_und : forall i, 0 <= i < window_size e -> i <> off e x ->
    i = 0 \/ i = off e (rx_highest_status e) -> Chain.delivered (slot_at e i) = false;
  h_del : Chain.delivered (slot_at e (off e x)) = true;
  h_empty : forall i, off e (rx_next_highest e) <= i < window_size e -> slot_at e i = [];
  h_size : win_held e <= rx_size e;
  h_max : rx_size e <= rx_maxsize e
}.

(** Some SDU of the window other than its start is not delivered. *)
Definition has_gap (e : t) : Prop :=
  exists i, 1 <= i < window_size e /\ Chain.delivered (slot_at e i) = false.

Definition gap (e : t) : bool :=
  existsb (fun i => negb (Chain.delivered (slot_at e i))) (seqZ 1 (window_size e - 1)).

Lemma gap_spec e : reflect (has_gap e) (gap e).
Proof.
  apply iff_reflect. unfold gap. rewrite existsb_exists. unfold has_gap. split.
  - intros (i & Hi & Hd). exists i. rewrite Hd. split; [|done]. apply list_elem_of_In, elem_of_seqZ. lia.
  - intros (i & Hi%list_elem_of_In%elem_of_seqZ & Hd). exists i. split; [lia|]. by apply negb_true_iff.
Qed.

(** rx_highest_status moves to the next SDU that is not delivered. *)
Lemma status_moves e x :
  handed e x -> x = rx_highest_status e -> (x = rx_next e -> has_gap e) ->
  exists r, skip_delivered e (rx_highest_status e) = Ok r /\ 0 <= r < sn_modulus e
    /\ off e x < off e r <= off e (rx_next_highest e)
    /\ (off e r < window_size e -> Chain.delivered (slot_at e (off e r)) = false)
    /\ (forall i, off e x <= i < off e r -> Chain.delivered (slot_at e i) = true)
    /\ (x = rx_next e -> off e r < window_size e).
Proof.
  intros [Hw H1 H2 H3 H4 H5 Hx Hox Hu Hd He _ _] Ex Hgap. destruct (cfg_window e (wo_cfg _ Hw)).
  pose proof (off_range e x (wo_cfg _ Hw)).
  assert (Hk : exists k, off e x <= k <= off e (rx_next_highest e)
    /\ Chain.delivered (slot_at e k) = false /\ (x = rx_next e -> k < window_size e)).
  { destruct (decide (off e (rx_next_highest e) < window_size e)) as [Hlt|Hge].
    - exists (off e (rx_next_highest e)). split; [lia|]. rewrite He by lia. done.
    - destruct (decide (x = rx_next e)) as [En|En].
      + destruct (Hgap En) as (i & Hi & Hid). exists i. split; [|split; [done|lia]].
        assert (off e x = 0); [|lia]. unfold off. rewrite En, Z.sub_diag. by apply Z.mod_0_l; lia.
      + exists (window_size e). split; [lia|]. split; [|done]. rewrite slot_at_wrap by done.
        apply Hu; [lia| |by left]. intros E0. apply En, (off_inj e); [done|apply Hw|].
        rewrite <- E0. unfold off. by rewrite Z.sub_diag, Z.mod_0_l by lia. }
  destruct Hk as (k & Hk & Hkd & Hkn). rewrite <- Ex.
  destruct (skip_ok e x k) as (r & Er & Hr & Ho & Hrd & Hrl); [done|done|lia|done|].
  exists r. split; [done|]. split; [done|]. split.
  { split; [|lia]. destruct (decide (off e r = off e x)) as [E|]; [congruence|lia]. }
  split; [done|]. split; [done|]. intros En. specialize (Hkn En). lia.
Qed.

(** The number of delivered SDUs at the start of the window. *)
Lemma delivered_prefix e b :
  0 <= b -> exists n, 0 <= n <= b /\ (forall i, 0 <= i < n -> Chain.delivered (slot_at e i) = true)
    /\ (n < b -> Chain.delivered (slot_at e n) = false).
Proof.
  intros Hb. revert Hb. apply (natlike_ind (fun b => exists n, 0 <= n <= b
    /\ (forall i, 0 <= i < n -> Chain.delivered (slot_at e i) = true)
    /\ (n < b -> Chain.delivered (slot_at e n) = false))).
  - exists 0. split_and!; lia.
  - clear b. intros b Hb (n & Hn & Hd & Hs). destruct (decide (n < b)).
    + exists n. split_and!; [lia|lia|done|]. intros _. by apply Hs.
    + assert (n = b) as -> by lia. destruct (Chain.delivered (slot_at e b)) eqn:E.
      * exists (Z.succ b). split_and!; [lia|lia| |lia]. intros i Hi.
        destruct (decide (i = b)) as [->|]; [done|]. apply Hd. lia.
      * exists b. split_and!; [lia|lia|done|done].
Qed.

(** Distances after rx_next moved by [n]. *)
Lemma off_moved e e' n a :
  cfg e -> sn_modulus e' = sn_modulus e -> rx_next e' = sn_at e n -> 0 <= n <= window_size e ->
  off e' a = if n <=? off e a then off e a - n else off e a - n + sn_modulus e.
Proof.
  intros Hc Em En Hn. destruct (cfg_window e Hc). pose proof (off_range e a Hc).
  assert (E : off e' a = (off e a - n) mod sn_modulus e).
  { unfold off, sn_at in *. rewrite Em, En. rewrite Zminus_mod_idemp_r, Zminus_mod_idemp_l.
    f_equal. lia. }
  rewrite E. destruct (Z.leb_spec n (off e a)); [apply Z.mod_small; lia|].
  rewrite <- (Z.mod_add _ 1), Z.mul_1_l by lia. apply Z.mod_small. lia.
Qed.

Lemma off_next e : cfg e -> off e (rx_next e) = 0.
Proof. intros Hc. destruct (cfg_window e Hc). unfold off. rewrite Z.sub_diag. apply Z.mod_0_l. lia. Qed.

Lemma off_zero e a :
  cfg e -> 0 <= rx_next e < sn_modulus e -> 0 <= a < sn_modulus e -> a <> rx_next e -> 1 <= off e a.
Proof.
  intros Hc Hn Ha Hne. pose proof (off_range e a Hc).
  destruct (decide (off e a = 0)) as [E|]; [|lia]. exfalso. apply Hne, (off_inj e); [done..|].
  by rewrite E, off_next.
Qed.

(** What the reception of a PDU does to the variables: rx_next moves by [n], not
    beyond rx_next_highest. *)
Definition moved (e e' : t) : Prop :=
  frame e' = frame e /\ rx_next_status_trigger e' = rx_next_status_trigger e
  /\ t_reassembly_start e' = t_reassembly_start e /\ trace (common e') = trace (common e)
  /\ rx_next_highest e' = rx_next_highest e
  /\ exists n, 0 <= n <= off e (rx_next_highest e) /\ rx_next e' = sn_at e n.

Lemma moved_refl e : win_ok e -> moved e e.
Proof.
  intros Hw. pose proof (off_range e (rx_next_highest e) (wo_cfg _ Hw)).
  split_and!; try done. exists 0. split; [lia|]. unfold sn_at. rewrite Z.add_0_r.
  symmetry. apply Z.mod_small, Hw.
Qed.

(** The SDU is not at the start of the window. *)
Lemma handed_core e x :
  handed e x -> x <> rx_next e -> x <> rx_highest_status e -> core e.
Proof.
  intros [Hw H1 H2 H3 H4 H5 Hx Hox Hu Hd He Hs Hm] Hn Hr. destruct (cfg_window e (wo_cfg _ Hw)) as [HM HW].
  pose proof (off_zero e x (wo_cfg _ Hw) (wo_next _ Hw) Hx Hn) as H0.
  pose proof (off_range e (rx_highest_status e) (wo_cfg _ Hw)).
  assert (Hz : Chain.delivered (slot_at e 0) = false) by (apply Hu; [lia|lia|by left]).
  constructor; try done.
  destruct (decide (off e (rx_highest_status e) < window_size e)) as [Hlt|Hge].
  - apply Hu; [lia| |by right]. intros E. apply Hr, (off_inj e); done.
  - replace (off e (rx_highest_status e)) with (window_size e) by lia. by rewrite slot_at_wrap.
Qed.

(** The SDU is at the start of the window, which moves. *)
Lemma handed_advance D e x :
  handed e x -> honest D e -> x = rx_next e -> x <> rx_highest_status e ->
  exists e', advance_rx_next e = Ok e' /\ core e' /\ honest D e' /\ moved e e'.
Proof.
  intros [Hw H1 H2 H3 H4 H5 Hx Hox Hu Hd He Hs Hm] Hh Hn Hr. pose proof (wo_cfg _ Hw) as Hc.
  destruct (cfg_window e Hc) as [HM HW].
  assert (Hx0 : off e x = 0) by (rewrite Hn; by apply off_next). rewrite Hx0 in *.
  pose proof (off_zero e _ Hc (wo_next _ Hw) H2 ltac:(congruence)) as H0.
  destruct (delivered_prefix e (window_size e)) as (n & Hnr & Hpre & Hstop); [lia|].
  assert (Hn1 : 1 <= n).
  { destruct (decide (n = 0)) as [->|]; [|lia]. rewrite Hstop in Hd by lia. done. }
  assert (Hns : n <= off e (rx_highest_status e)).
  { destruct (decide (off e (rx_highest_status e) < n)) as [Hlt|]; [|lia].
    specialize (Hpre (off e (rx_highest_status e)) ltac:(lia)).
    rewrite Hu in Hpre; [done|lia|lia|by right]. }
  destruct (advance_ok e n Hw ltac:(lia) Hpre Hstop) as (e' & E & Hw' & Ee' & Hsl).
  assert (HF : frame e' = frame e /\ rx_next_status_trigger e' = rx_next_status_trigger e
    /\ t_reassembly_start e' = t_reassembly_start e /\ trace (common e') = trace (common e)
    /\ rx_next_highest e' = rx_next_highest e /\ rx_next e' = sn_at e n
    /\ rx_highest_status e' = rx_highest_status e /\ rx_size e' = rx_size e
    /\ rx_maxsize e' = rx_maxsize e /\ sn_modulus e' = sn_modulus e /\ window_size e' = window_size e).
  { by rewrite Ee'. }
  clear Ee'. destruct HF as (F1 & F2 & F3 & F4 & F5 & F6 & F7 & F8 & F9 & F10 & F11).
  pose proof (fun a => off_moved e e' n a Hc F10 F6 Hnr) as Hoff.
  assert (Eh : off e' (rx_next_highest e) = off e (rx_next_highest e) - n).
  { rewrite Hoff. destruct (Z.leb_spec n (off e (rx_next_highest e))); lia. }
  assert (Es : off e' (rx_highest_status e) = off e (rx_highest_status e) - n).
  { rewrite Hoff. destruct (Z.leb_spec n (off e (rx_highest_status e))); lia. }
  exists e'. split; [done|]. split; [|split].
  - constructor; rewrite ?F2, ?F5, ?F7, ?F8, ?F9, ?F10, ?F11, ?Eh, ?Es; try done; try lia.
    + rewrite Hsl by lia. zcases; [|done].
      replace (off e (rx_highest_status e) - n + n) with (off e (rx_highest_status e)) by lia.
      apply Hu; [lia|lia|by right].
    + rewrite Hsl by lia. zcases; [|done]. by apply Hstop.
    + intros i Hi. rewrite Hsl by lia. zcases; [|done]. apply He. lia.
    + etransitivity; [|exact Hs]. by apply (advance_held e e' n).
  - intros i Hi. rewrite F11 in Hi. rewrite Hsl by done. zcases; [|constructor]. apply Hh. lia.
  - split_and!; try done. exists n. split; [lia|done].
Qed.

Lemma handed_status e x r :
  handed e x -> 0 <= r < sn_modulus e -> off e x < off e r <= off e (rx_next_highest e) ->
  (off e r < window_size e -> Chain.delivered (slot_at e (off e r)) = false) ->
  handed {| e with rx_highest_status := r |} x.
Proof.
  intros [Hw H1 H2 H3 H4 H5 Hx Hox Hu Hd He Hs Hm] Hr Ho Hrd.
  constructor; simpl; try done; [by destruct Hw as [[]]; constructor|exact (proj2 Ho)|].
  intros i Hi Hne [->|E]; [apply Hu; auto|].
  change (i = off e r) in E. change (Chain.delivered (slot_at e i) = false). subst i. apply Hrd, Hi.
Qed.

(** What follows the delivery in [reception_actions]. *)
Definition complete (e : t) (x : Z) : res t :=
  e ← (if x =? rx_highest_status e then
         r ← skip_delivered e (rx_highest_status e);
         mret {| e with rx_highest_status := r |}
       else mret e);
  if x =? rx_next e then advance_rx_next e else mret e.

Lemma complete_ok D e x :
  handed e x -> honest D e -> (x = rx_next e -> x = rx_highest_status e -> has_gap e) ->
  exists e', complete e x = Ok e' /\ core e' /\ honest D e' /\ moved e e'.
Proof.
  intros Hd Hh Hgap. unfold complete. destruct (Z.eqb_spec x (rx_highest_status e)) as [Ex|Ex].
  - destruct (status_moves e x Hd Ex (fun En => Hgap En Ex)) as (r & Er & Hr & Ho & Hru & _ & _).
    rewrite Er. pose proof (handed_status e x r Hd Hr Ho Hru) as Hd'.
    assert (Hne : x <> r) by (intros <-; lia).
    rewrite !res_bind_unfold. cbv beta iota.
    set (e1 := {| e with rx_highest_status := r |}) in *.
    assert (Hh1 : honest D e1) by exact Hh.
    assert (Hm1 : moved e e1).
    { pose proof (moved_refl e (h_win _ _ Hd)) as (M1 & M2 & M3 & M4 & M5 & M6).
      split_and!; done. }
    assert (Hms : forall e', moved e1 e' -> moved e e') by done.
    change (x <> rx_highest_status e1) in Hne. clearbody e1.
    destruct (Z.eqb_spec x (rx_next e1)) as [En|En].
    + destruct (handed_advance D e1 x Hd' Hh1 En Hne) as (e' & E & Hco & Hh' & Hm').
      exists e'. split; [exact E|]. split; [done|]. split; [done|]. by apply Hms.
    + exists e1. split_and!; try done. by apply (handed_core e1 x).
  - rewrite res_bind_unfold. destruct (Z.eqb_spec x (rx_next e)) as [En|En].
    + by apply (handed_advance D e x).
    + exists e. split_and!; try done; [by apply (handed_core e x)|apply moved_refl, Hd].
Qed.

(** ** Delivery *)

Lemma full_undelivered l : Chain.full l = true -> Chain.delivered l = false.
Proof. unfold Chain.full. by destruct (Chain.delivered l). Qed.

(** The bytes of a slot that is not delivered are its sizes. *)
Lemma held_undelivered sn l : slot_ok sn l -> Chain.delivered l = false -> held l = Chain.rx_bytes l.
Proof.
  intros [_ _ Hh] Hd. apply zsum_ext. intros p Hp. destruct (Pdu.data p) eqn:E; [done|].
  destruct (Hh p Hp E) as (h & tl & -> & Hn & _). simpl in Hd. by rewrite Hn in Hd.
Qed.

Lemma held_dropped l : held (map drop_data l) = 0.
Proof. unfold held. rewrite zsum_map. induction l; simpl in *; [done|]. by rewrite IHl. Qed.

Lemma honest_dropped D l : honest_slot D l -> honest_slot D (map drop_data l).
Proof.
  intros Hl. apply Forall_map. eapply Forall_impl; [exact Hl|]. intros p [Hp _]. by split; [|intros []].
Qed.

Lemma win_held_insert e m i l :
  win_ok e -> 0 <= i < window_size e -> RxManager.window m = <[Z.to_nat i := l]> (win e) ->
  win_held {| e with rx := m |} = win_held e - held (slot_at e i) + held l.
Proof.
  intros Hw Hi Em. unfold win_held, win at 1. simpl. rewrite Em. pose proof (length_win e Hw).
  destruct (lookup_lt_is_Some_2 (win e) (Z.to_nat i)) as [l0 Hl0]; [lia|].
  rewrite (zsum_insert _ _ _ l0) by done. unfold slot_at. rewrite Z.mod_small by lia.
  rewrite (nth_lookup_Some _ _ _ l0) by done. lia.
Qed.

Lemma deliver_ok D e x :
  core e -> honest D e -> 0 <= x < sn_modulus e -> off e x < off e (rx_next_highest e) ->
  Chain.full (slot_at e (off e x)) = true ->
  exists e', reassemble_and_deliver e x = Ok e' /\ handed e' x /\ honest D e'
    /\ trace (common e') = trace (common e) ++ [DeliverSdu (D x)]
    /\ (forall i, 0 <= i < window_size e -> i <> off e x -> slot_at e' i = slot_at e i)
    /\ (frame e', rx_next e', rx_highest_status e', rx_next_highest e', rx_next_status_trigger e',
        t_reassembly_start e')
       = (frame e, rx_next e, rx_highest_status e, rx_next_highest e, rx_next_status_trigger e,
          t_reassembly_start e).
Proof.
  intros [Hw H1 H2 H3 H4 H5 Hsu Hnu He Hs Hm] Hh Hx Hox Hf. destruct (cfg_window e (wo_cfg _ Hw)) as [HM HW].
  pose proof (off_range e x (wo_cfg _ Hw)) as Hr.
  pose proof (wo_slots _ Hw (off e x) ltac:(lia)) as Hsl. rewrite sn_at_off in Hsl by done.
  unfold reassemble_and_deliver. rewrite get_pdus_ok, res_bind_unfold by done.
  rewrite (reassemble_slot D x) by (try done; apply Hh; lia). rewrite res_bind_unfold.
  destruct (set_slot_ok e x (map drop_data (slot_at e (off e x)))) as (m & Em & Hwm & Ewin & Hsm);
    [done|done|lia|by apply drop_data_slot_ok|].
  rewrite Em, res_bind_unfold. cbv zeta.
  pose proof (win_held_insert e m (off e x) _ Hw ltac:(lia) Ewin) as Hheld.
  rewrite held_dropped, (held_undelivered x) in Hheld by (done || by apply full_undelivered).
  pose proof (held_nonneg _ _ Hsl) as Hpos.
  rewrite (held_undelivered x) in Hpos by (done || by apply full_undelivered).
  set (e1 := {| e with rx := m; rx_size := _ |}).
  assert (Hsl1 : forall i, slot_at e1 i = slot_at {| e with rx := m |} i) by done.
  assert (Hdel : Chain.delivered (map drop_data (slot_at e (off e x))) = true).
  { destruct (slot_at e (off e x)) eqn:E; [|done]. done. }
  eexists. split; [reflexivity|]. set (e2 := upd_common _ e1).
  assert (Hsl2 : forall i, slot_at e2 i = slot_at {| e with rx := m |} i) by done.
  split.
  { constructor; try done.
    - destruct Hwm as [[]]. by constructor.
    - intros i Hi Hne Hor. rewrite Hsl2, Hsm by done. destruct (Z.eqb_spec i (off e x)); [done|].
      destruct Hor as [-> | ->]; [done|exact Hsu].
    - rewrite Hsl2, Hsm by exact (conj (proj1 Hr) (Z.lt_le_trans _ _ _ Hox H4)).
      change (off e2 x) with (off e x). by rewrite Z.eqb_refl.
    - intros i Hi. rewrite Hsl2, Hsm by (split; [|apply Hi]; etransitivity; [apply (off_range e (rx_next_highest e)), Hw|apply Hi]).
      destruct (Z.eqb_spec i (off e x)) as [->|]; [|by apply He].
      exfalso. destruct Hi as [Hi _]. change (off e (rx_next_highest e) <= off e x) in Hi. lia.
    - change (win_held {| e with rx := m |} <= rx_size e - Chain.rx_bytes (slot_at e (off e x))). lia.
    - change (rx_size e - Chain.rx_bytes (slot_at e (off e x)) <= rx_maxsize e). lia. }
  split.
  { intros i Hi. rewrite Hsl2, Hsm by done. destruct (Z.eqb_spec i (off e x)) as [->|]; [|by apply Hh].
    by apply honest_dropped, Hh. }
  split; [done|]. split; [|done].
  intros i Hi Hne. rewrite Hsl2, Hsm by done. by destruct (Z.eqb_spec i (off e x)).
Qed.

(** ** Reception of a segment *)

Lemma delivered_insert sn l pdu :
  slot_ok sn l -> node_ok pdu -> Pdu.data pdu <> None ->
  Chain.delivered (Pdu.insert_before (stop_so pdu) pdu l) = Chain.delivered l.
Proof.
  intros [_ _ Hh] [Hso _] Hd. destruct l as [|h tl]; simpl; [by destruct (Pdu.data pdu)|].
  unfold stop_so at 1. rewrite Z.gtb_ltb. destruct (Z.ltb_spec (Pdu.so pdu) (Pdu.so h)); simpl; [|done].
  destruct (Pdu.data h) eqn:E; [by destruct (Pdu.data pdu)|].
  destruct (Hh h ltac:(left) E) as (h' & tl' & [= <- <-] & _ & Hs). lia.
Qed.

Lemma held_insert l pdu :
  Pdu.data pdu <> None -> held (Pdu.insert_before (stop_so pdu) pdu l) = Pdu.size pdu + held l.
Proof.
  intros Hd. unfold held. rewrite (zsum_perm _ _ _ (Pdu.insert_before_perm _ pdu l)), zsum_cons.
  by destruct (Pdu.data pdu).
Qed.

(** The slot of [pdu] once it was put in it. *)
Definition with_segment (e : t) (pdu : Pdu.nr_rlc_pdu_t) : list Pdu.nr_rlc_pdu_t :=
  Pdu.insert_before (stop_so pdu) pdu (slot_at e (off e (Pdu.sn pdu))).

(** The first statement of [reception_actions]. *)
Definition bump (e : t) (x : Z) : t :=
  if sn_compare_rx e x (rx_next_highest e) >=? 0
  then {| e with rx_next_highest := (x + 1) mod sn_modulus e |} else e.

Section reception.
Context (e : t) (pdu : Pdu.nr_rlc_pdu_t) (Hco : core e) (Hp : node_ok pdu).
Context (Hd : Pdu.data pdu <> None) (Hsn : 0 <= Pdu.sn pdu < sn_modulus e).
Context (Hin : off e (Pdu.sn pdu) < window_size e) (Hmax : rx_size e + Pdu.size pdu <= rx_maxsize e).

Let x := Pdu.sn pdu.

Lemma bump_ok m :
  bump {| e with rx := m; rx_size := rx_size e + Pdu.size pdu |} x
  = {| e with rx := m; rx_size := rx_size e + Pdu.size pdu;
              rx_next_highest := if off e (rx_next_highest e) <=? off e x
                                 then (x + 1) mod sn_modulus e else rx_next_highest e |}.
Proof using Hco Hsn.
  pose proof Hco as [Hw H1 _ _ _ _ _ _ _ _ _]. unfold bump.
  change (sn_compare_rx {| e with rx := m; rx_size := rx_size e + Pdu.size pdu |} x)
    with (sn_compare_rx e x). unfold sn_compare_rx.
  rewrite !modulus_rx_off, Z.geb_leb by (done || apply Hw). simpl rx_next_highest.
  destruct (Z.leb_spec 0 (off e x - off e (rx_next_highest e))),
    (Z.leb_spec (off e (rx_next_highest e)) (off e x)); done || lia.
Qed.

Lemma added_ok :
  exists m, RxManager.nr_rlc_rx_manager_add_pdu (rx e) pdu = Ok m
    /\ let e1 := bump {| e with rx := m; rx_size := rx_size e + Pdu.size pdu |} x in
       core e1 /\ off e x < off e1 (rx_next_highest e1)
       /\ off e (rx_next_highest e) <= off e1 (rx_next_highest e1)
            <= Z.max (off e (rx_next_highest e)) (off e x + 1)
       /\ (forall i, 0 <= i < window_size e ->
             slot_at e1 i = if i =? off e x then with_segment e pdu else slot_at e i)
       /\ (frame e1, rx_next e1, rx_highest_status e1, rx_next_status_trigger e1,
            t_reassembly_start e1, trace (common e1))
          = (frame e, rx_next e, rx_highest_status e, rx_next_status_trigger e,
             t_reassembly_start e, trace (common e)).
Proof using Hco Hp Hd Hsn Hin Hmax.
  pose proof Hco as [Hw H1 H2 H3 H4 H5 Hsu Hnu He Hs Hm]. pose proof (wo_cfg _ Hw) as Hc.
  destruct (cfg_window e Hc) as [HM HW]. pose proof (off_range e x Hc) as Hr. fold x in Hsn, Hin.
  pose proof (wo_slots _ Hw (off e x) ltac:(lia)) as Hsl. rewrite sn_at_off in Hsl by done.
  unfold RxManager.nr_rlc_rx_manager_add_pdu. fold (get_pdus e (Pdu.sn pdu)).
  rewrite get_pdus_ok, res_bind_unfold by done. fold (stop_so pdu). fold (with_segment e pdu). fold x.
  destruct (set_slot_ok e x (with_segment e pdu)) as (m & Em & Hwm & Ewin & Hsm);
    [done|done|lia|by apply insert_slot_ok|].
  exists m. split; [exact Em|]. rewrite bump_ok.
  pose proof (win_held_insert e m (off e x) _ Hw ltac:(lia) Ewin) as Hheld.
  unfold with_segment in Hheld at 1. rewrite held_insert in Hheld by done. fold x in Hheld.
  assert (Hdel : forall i, 0 <= i < window_size e ->
    Chain.delivered (slot_at {| e with rx := m |} i) = Chain.delivered (slot_at e i)).
  { intros i Hi. rewrite Hsm by done. destruct (Z.eqb_spec i (off e x)) as [->|]; [|done].
    by apply (delivered_insert x). }
  assert (Hx1 : off e ((x + 1) mod sn_modulus e) = off e x + 1).
  { rewrite <- (sn_at_off e x) at 1 by done. unfold sn_at at 1.
    rewrite Z.add_mod_idemp_l, <- Z.add_assoc by lia. apply off_sn_at. lia. }
  set (h := if _ <=? _ then _ else _).
  assert (Hh : 0 <= h < sn_modulus e /\ off e x < off e h <= window_size e
    /\ off e (rx_next_highest e) <= off e h <= Z.max (off e (rx_next_highest e)) (off e x + 1)).
  { unfold h. pose proof (Z.mod_pos_bound (x + 1) (sn_modulus e) ltac:(lia)).
    destruct (Z.leb_spec (off e (rx_next_highest e)) (off e x)); lia. }
  clearbody h. destruct Hh as (Hh1 & Hh2 & Hh3). set (e1 := {| e with rx := m; rx_size := _; rx_next_highest := h |}).
  assert (Hsl1 : forall i, slot_at e1 i = slot_at {| e with rx := m |} i) by done.
  assert (Ho1 : forall a, off e1 a = off e a) by done. cbv zeta.
  split; [|split; [exact (proj1 Hh2)|split; [exact Hh3|split; [|done]]];
    intros i Hi; by rewrite Hsl1, Hsm].
  constructor; try done.
  - by destruct Hwm as [[]]; constructor.
  - exact (proj2 Hh2).
  - rewrite Ho1. change (off e (rx_highest_status e) <= off e h). lia.
  - rewrite Hsl1, Ho1. change (rx_highest_status e1) with (rx_highest_status e).
    pose proof (off_range e (rx_highest_status e) Hc).
    destruct (decide (off e (rx_highest_status e) < window_size e)); [rewrite Hdel by lia; done|].
    replace (off e (rx_highest_status e)) with (window_size e) by lia.
    pose proof (slot_at_wrap _ Hwm) as Hwr. simpl window_size in Hwr. by rewrite Hwr, Hdel by lia.
  - by rewrite Hsl1, Hdel by lia.
  - intros i Hi. rewrite Ho1 in Hi. change (off e h <= i < window_size e) in Hi.
    rewrite Hsl1, Hsm by lia. destruct (Z.eqb_spec i (off e x)); [lia|]. apply He. lia.
  - change (win_held {| e with rx := m |} <= rx_size e + Pdu.size pdu). lia.
Qed.

(** The timer between [update_window] and [stop_t_reassembly]: the window may
    have moved beyond the trigger. *)
Definition timer_mid (e : t) : Prop :=
  t_reassembly_start e <> 0 ->
  off e (rx_next_status_trigger e) <= off e (rx_next_highest e)
  \/ window_size e < off e (rx_next_status_trigger e).

Lemma moved_timer e1 e2 :
  win_ok e1 -> off e1 (rx_next_highest e1) <= window_size e1 -> timer_ok e1 -> moved e1 e2 ->
  timer_mid e2.
Proof.
  clear. intros Hw Hh Ht (F & E1 & E2 & _ & E3 & n & Hn & E4) Hs. rewrite E1, E3, E2 in *.
  assert (Hcfg : sn_modulus e2 = sn_modulus e1 /\ window_size e2 = window_size e1).
  { unfold frame, tx_part in F. split; congruence. }
  destruct Hcfg as [Em EW]. pose proof (wo_cfg _ Hw) as Hc. destruct (cfg_window e1 Hc) as [HM HW].
  specialize (Ht Hs). rewrite !(off_moved e1 e2 n _ Hc Em E4) by lia. rewrite EW.
  destruct (Z.leb_spec n (off e1 (rx_next_status_trigger e1))),
    (Z.leb_spec n (off e1 (rx_next_highest e1))); lia.
Qed.

(** The distances after the segment was received: rx_next_highest is beyond the
    SN received. *)
Definition highest_after (e' : t) : Prop :=
  off e (rx_next_highest e') <= Z.max (off e (rx_next_highest e)) (off e x + 1).

(** A segment that does not complete its SDU only enters the window. *)
Definition stored (e' : t) : Prop :=
  core e' /\ timer_ok e' /\ trace (common e') = trace (common e) /\ rx_next e' = rx_next e.

(** The SDU is complete: the state in which [complete] runs. *)
Definition handed_up (D : Z -> list Z) (e' : t) : Prop :=
  handed e' x /\ timer_ok e' /\ trace (common e') = trace (common e) ++ [DeliverSdu (D x)]
  /\ rx_next e' = rx_next e /\ rx_highest_status e' = rx_highest_status e
  /\ forall i, 0 <= i < window_size e -> i <> off e x -> slot_at e' i = slot_at e i.

Lemma window_added_ok D :
  timer_ok e -> honest D e -> honest_slot D [pdu] ->
  exists m e', RxManager.nr_rlc_rx_manager_add_pdu (rx e) pdu = Ok m
    /\ update_window {| e with rx := m; rx_size := rx_size e + Pdu.size pdu |} x
       = (if Chain.full (with_segment e pdu) then complete e' x else Ok e')
    /\ honest D e' /\ frame e' = frame e /\ highest_after e'
    /\ (if Chain.full (with_segment e pdu) then handed_up D e' else stored e').
Proof using Hco Hp Hd Hsn Hin Hmax.
  intros Ht Hh Hhp. destruct added_ok as (m & Em & Hco1 & Hx1 & Hle & Hsl1 & HF).
  exists m. cbv zeta in *. pose proof Hco as [Hw _ _ _ _ _ _ _ _ _ _].
  pose proof (off_range e x (wo_cfg _ Hw)) as Hr. fold x in Hin, Hsn.
  set (e0 := {| e with rx := m; rx_size := _ |}) in *.
  assert (Hupd : update_window e0 x
    = (full ← sdu_full (bump e0 x) x;
       match full : bool with
       | false => mret (bump e0 x)
       | true =>
           e ← reassemble_and_deliver (bump e0 x) x;
           complete e x
       end)) by done.
  rewrite Hupd. clear Hupd. revert Hco1 Hx1 Hle Hsl1 HF. generalize (bump e0 x) as e1. clear e0.
  intros e1 Hco1 Hx1 Hle Hsl1 HF.
  assert (HE : frame e1 = frame e /\ trace (common e1) = trace (common e) /\ rx_next e1 = rx_next e
    /\ rx_highest_status e1 = rx_highest_status e
    /\ rx_next_status_trigger e1 = rx_next_status_trigger e
    /\ t_reassembly_start e1 = t_reassembly_start e
    /\ sn_modulus e1 = sn_modulus e /\ window_size e1 = window_size e).
  { unfold frame, tx_part in *. split_and!; congruence. }
  clear HF. destruct HE as (F & Tr & En & Es & Et & Ets & EM & EW).
  assert (Eo : forall a, off e1 a = off e a) by (intros a; unfold off; by rewrite En, EM).
  pose proof (c_win _ Hco1) as Hw1.
  assert (Ht1 : timer_ok e1).
  { intros Hs. rewrite Et, Ets, ?Eo in *. specialize (Ht Hs). lia. }
  assert (Hsx : slot_at e1 (off e1 x) = with_segment e pdu).
  { rewrite Eo, Hsl1 by lia. by rewrite Z.eqb_refl. }
  assert (Hh1 : honest D e1).
  { intros i Hi. rewrite EW in Hi. rewrite Hsl1 by done. destruct (i =? off e x); [|by apply Hh].
    unfold honest_slot, with_segment. rewrite Pdu.insert_before_perm.
    constructor; [by apply Forall_cons in Hhp as [Hhp _]|]. apply Hh. fold x. lia. }
  unfold sdu_full. rewrite get_pdus_ok, !res_bind_unfold by (done || by rewrite EM). rewrite Hsx.
  destruct (Chain.full (with_segment e pdu)) eqn:Ef; unfold mret, res_ret.
  - destruct (deliver_ok D e1 x) as (e2 & E2 & Hd2 & Hh2 & Tr2 & Hsl2 & HF2);
      [done|done|by rewrite EM|by rewrite Eo|by rewrite Hsx|].
    rewrite E2, res_bind_unfold.
    assert (HE2 : frame e2 = frame e1 /\ rx_next e2 = rx_next e1
      /\ rx_highest_status e2 = rx_highest_status e1 /\ rx_next_highest e2 = rx_next_highest e1
      /\ rx_next_status_trigger e2 = rx_next_status_trigger e1
      /\ t_reassembly_start e2 = t_reassembly_start e1
      /\ sn_modulus e2 = sn_modulus e1 /\ window_size e2 = window_size e1).
    { unfold frame, tx_part in *. split_and!; congruence. }
    clear HF2. destruct HE2 as (F2 & En2 & Es2 & Eh2 & Et2 & Ets2 & EM2 & EW2).
    assert (Eo2 : forall a, off e2 a = off e1 a) by (intros a; unfold off; by rewrite En2, EM2).
    exists e2. split; [done|]. split; [done|]. split; [done|]. split; [congruence|]. split.
    { unfold highest_after. rewrite Eh2. rewrite <- !(Eo (rx_next_highest e1)). lia. }
    split; [done|]. split.
    { intros Hs. rewrite Et2, Eh2, Ets2, !Eo2 in *. by apply Ht1. }
    split; [by rewrite Tr2, Tr|]. split_and!; [congruence..|]. intros i Hi Hne.
    rewrite Hsl2 by (rewrite ?EW, ?Eo; lia). rewrite Hsl1 by lia.
    by destruct (Z.eqb_spec i (off e x)).
  - exists e1. split_and!; try done. unfold highest_after. rewrite <- !(Eo (rx_next_highest e1)). lia.
Qed.

(** The SDU at the start of the window is complete, RX_Highest_Status is there and
    everything else in the window is delivered. *)
Definition closes_window : bool :=
  Chain.full (with_segment e pdu) && (x =? rx_next e) && (x =? rx_highest_status e) && negb (gap e).

Lemma update_window_ok D :
  timer_ok e -> honest D e -> honest_slot D [pdu] -> closes_window = false ->
  exists m e', RxManager.nr_rlc_rx_manager_add_pdu (rx e) pdu = Ok m
    /\ update_window {| e with rx := m; rx_size := rx_size e + Pdu.size pdu |} x = Ok e'
    /\ core e' /\ honest D e' /\ frame e' = frame e /\ timer_mid e'
    /\ trace (common e') = trace (common e)
         ++ (if Chain.full (with_segment e pdu) then [DeliverSdu (D x)] else [])
    /\ off e' (rx_next_highest e') <= Z.max (off e (rx_next_highest e)) (off e x + 1).
Proof using Hco Hp Hd Hsn Hin Hmax.
  intros Ht Hh Hhp Hcl. pose proof (wo_cfg _ (c_win _ Hco)) as Hc.
  destruct (window_added_ok D Ht Hh Hhp) as (m & e2 & Em & E2 & Hh2 & F2 & Hhi & H2).
  assert (HF : sn_modulus e2 = sn_modulus e /\ window_size e2 = window_size e).
  { unfold frame, tx_part in F2. split; congruence. }
  destruct HF as [EM EW]. unfold highest_after in Hhi. exists m. rewrite E2.
  destruct (Chain.full (with_segment e pdu)) eqn:Ef.
  - destruct H2 as (Hd2 & Ht2 & Tr2 & En & Es & Hsl).
    assert (Eo : forall a, off e2 a = off e a) by (intros a; unfold off; by rewrite En, EM).
    destruct (complete_ok D e2 x Hd2 Hh2) as (e3 & E3 & Hco3 & Hh3 & Hm3).
    { rewrite En, Es. intros E4 E5. unfold closes_window in Hcl.
      rewrite Ef, <- E4, <- E5, Z.eqb_refl in Hcl. destruct (gap_spec e) as [(i & Hi & Hid)|]; [|done].
      exists i. rewrite EW. split; [done|]. rewrite Hsl; [done|lia|]. rewrite E4, off_next by done. lia. }
    exists e3. split; [done|]. split; [exact E3|]. split; [done|]. split; [done|].
    pose proof Hm3 as (F3 & _ & _ & Tr3 & Eh3 & n & Hn & En3).
    split; [congruence|]. split; [by apply (moved_timer e2); [apply Hd2|apply Hd2|..]|].
    split; [by rewrite Tr3, Tr2|]. rewrite Eh3.
    assert (EM3 : sn_modulus e3 = sn_modulus e2) by (unfold frame, tx_part in F3; congruence).
    pose proof (h_off_highest _ _ Hd2). rewrite (off_moved e2 e3 n) by (apply Hd2 || lia || done).
    destruct (Z.leb_spec n (off e2 (rx_next_highest e2))); [|lia]. rewrite Eo in *. lia.
  - destruct H2 as (Hco2 & Ht2 & Tr2 & En). exists e2. rewrite app_nil_r. split_and!; try done.
    + intros Hs. left. by apply Ht2.
    + unfold off at 1. rewrite En, EM. exact Hhi.
Qed.

(** The search for the next SDU that is not delivered goes round all the SNs. *)
Lemma update_window_stalls D :
  timer_ok e -> honest D e -> honest_slot D [pdu] -> closes_window = true ->
  exists m, RxManager.nr_rlc_rx_manager_add_pdu (rx e) pdu = Ok m
    /\ update_window {| e with rx := m; rx_size := rx_size e + Pdu.size pdu |} x = Fault NoFuel.
Proof using Hco Hp Hd Hsn Hin Hmax.
  intros Ht Hh Hhp Hcl. unfold closes_window in Hcl.
  apply andb_true_iff in Hcl as [Hcl Hng%negb_true_iff]. apply andb_true_iff in Hcl as [Hcl E5%Z.eqb_eq].
  apply andb_true_iff in Hcl as [Ef E4%Z.eqb_eq]. pose proof (wo_cfg _ (c_win _ Hco)) as Hc.
  destruct (window_added_ok D Ht Hh Hhp) as (m & e2 & Em & E2 & Hh2 & F2 & _ & H2).
  rewrite Ef in E2, H2. destruct H2 as (Hd2 & _ & _ & En & Es & Hsl). exists m. split; [done|].
  rewrite E2. unfold complete. rewrite Es, <- E5, Z.eqb_refl. unfold skip_delivered.
  assert (HF : sn_modulus e2 = sn_modulus e /\ window_size e2 = window_size e).
  { unfold frame, tx_part in F2. split; congruence. }
  destruct HF as [EM EW]. destruct (cfg_window e Hc) as [HM HW].
  assert (Ex : off e x = 0) by (rewrite E4; by apply off_next).
  assert (Hall : forall i, Chain.delivered (slot_at e2 i) = true).
  { intros i. pose proof (Z.mod_pos_bound i (window_size e) ltac:(lia)) as Hb.
    assert (Hi : slot_at e2 i = slot_at e2 (i mod window_size e)).
    { unfold slot_at. by rewrite EW, Z.mod_mod by lia. }
    rewrite Hi. destruct (decide (i mod window_size e = 0)) as [->|Hne].
    - pose proof (h_del _ _ Hd2) as Hdl. unfold off in Hdl, Ex. by rewrite En, EM, Ex in Hdl.
    - rewrite Hsl by lia. apply not_false_iff_true. intros Hf. destruct (gap_spec e) as [|Hn]; [done|].
      apply Hn. exists (i mod window_size e). split; [lia|done]. }
  rewrite Chain.first_undelivered_diverges; [done|by rewrite EM; lia| |by rewrite EM].
  intros s Hs. rewrite delivered_ok by (done || apply Hd2). by rewrite Hall.
Qed.

End reception.

(** ** The reassembly timer *)

(** The fields [core] is about, the trigger of the timer apart. *)
Definition rx_fields (e : t) :=
  (sn_field_length e, sn_modulus e, window_size e, rx e, rx_next e, rx_highest_status e,
   rx_next_highest e, rx_size e, rx_maxsize e).

Lemma core_fields e e' :
  core e -> rx_fields e' = rx_fields e -> 0 <= rx_next_status_trigger e' < sn_modulus e -> core e'.
Proof.
  intros [[[C1 C2 C3] W1 W2 W3 W4 W5] H1 H2 H3 H4 H5 Hsu Hnu He Hs Hm] HF Ht.
  destruct e, e'. unfold rx_fields in HF. simpl in *. simplify_eq.
  by constructor.
Qed.

Lemma honest_fields D e e' : honest D e -> rx_fields e' = rx_fields e -> honest D e'.
Proof.
  intros Hh HF i. unfold rx_fields in HF.
  assert (HE : rx e' = rx e /\ window_size e' = window_size e) by (split; congruence).
  destruct HE as [ER EW]. unfold slot_at, win. rewrite ER, EW. apply Hh.
Qed.

Lemma timer_fields e e' :
  timer_ok e -> rx_fields e' = rx_fields e ->
  (t_reassembly_start e', rx_next_status_trigger e')
  = (t_reassembly_start e, rx_next_status_trigger e) -> timer_ok e'.
Proof.
  intros Ht HF [= E1 E2] Hs. rewrite E1 in Hs. specialize (Ht Hs). unfold rx_fields in HF.
  assert (HE : rx_next e' = rx_next e /\ sn_modulus e' = sn_modulus e
    /\ rx_next_highest e' = rx_next_highest e) by (split_and!; congruence).
  destruct HE as (E3 & E4 & E5). unfold off in *. by rewrite E2, E3, E4, E5.
Qed.

(** The last SN of the reception window was not received. *)
Definition room (e : t) : Prop := off e (rx_next_highest e) < window_size e.

Lemma room_fields e e' : rx_fields e' = rx_fields e -> room e -> room e'.
Proof.
  unfold rx_fields, room, off. intros HF.
  assert (HE : rx_next e' = rx_next e /\ sn_modulus e' = sn_modulus e
    /\ rx_next_highest e' = rx_next_highest e /\ window_size e' = window_size e)
    by (split_and!; congruence).
  destruct HE as (-> & -> & -> & ->). done.
Qed.

(** What the timer functions leave alone. *)
Definition timer_frame (e : t) := (rx_fields e, frame e, trace (common e)).

Lemma missing_ok e a :
  win_ok e -> 0 <= a < sn_modulus e ->
  sdu_has_missing_bytes e a = Ok (Chain.has_missing_bytes (slot_at e (off e a))).
Proof. intros. unfold sdu_has_missing_bytes. by rewrite get_pdus_ok. Qed.

Lemma stop_ok e :
  core e -> timer_mid e ->
  exists e', stop_t_reassembly e = Ok e' /\ wf e' /\ timer_frame e' = timer_frame e.
Proof.
  intros Hco Hmid. pose proof Hco as [Hw H1 H2 H3 H4 H5 _ _ _ _ _]. pose proof (wo_cfg _ Hw) as Hc.
  destruct (cfg_window e Hc) as [HM HW]. pose proof (off_range e (rx_next_status_trigger e) Hc).
  unfold stop_t_reassembly. rewrite missing_ok, res_bind_unfold by (done || apply Hw).
  unfold sn_in_recv_window. rewrite modulus_rx_off by (done || apply Hw).
  fold (sn_at e (window_size e)). destruct (_ && _) eqn:E; (eexists; split; [reflexivity|]).
  - split; [|done]. split; [by apply (core_fields e)|by intros []].
  - split; [|done]. split; [done|]. intros Hs. specialize (Hmid Hs).
    destruct (Z.eqb_spec (t_reassembly_start e) 0); [done|]. simpl in E.
    apply orb_false_iff in E as [E E3]. apply orb_false_iff in E as [E1 _]. apply Z.eqb_neq in E1.
    pose proof (off_zero e _ Hc (wo_next _ Hw) H3 E1). split; [lia|].
    destruct Hmid as [|Hgt]; [done|]. exfalso. apply andb_false_iff in E3 as [E3|E3].
    + destruct (Z.ltb_spec (off e (rx_next_status_trigger e)) (window_size e)); [lia|done].
    + apply negb_false_iff, Z.eqb_eq in E3. rewrite E3, off_sn_at in Hgt by lia. lia.
Qed.

Lemma start_ok e sn :
  wf e -> 0 <= sn < sn_modulus e -> off e sn <= window_size e ->
  exists e', start_t_reassembly e sn = Ok e' /\ wf e' /\ timer_frame e' = timer_frame e.
Proof.
  intros [Hco Ht] Hsn Hos. pose proof Hco as [Hw H1 H2 H3 H4 H5 _ _ _ _ _].
  pose proof (wo_cfg _ Hw) as Hc. destruct (cfg_window e Hc) as [HM HW]. pose proof (off_range e sn Hc).
  assert (Hx1 : off e ((sn + 1) mod sn_modulus e) = off e sn + 1).
  { rewrite <- (sn_at_off e sn) at 1 by done. unfold sn_at at 1.
    rewrite Z.add_mod_idemp_l, <- Z.add_assoc by lia. apply off_sn_at. lia. }
  assert (Hnr : 0 <= (sn + 1) mod sn_modulus e < sn_modulus e) by (apply Z.mod_pos_bound; lia).
  unfold start_t_reassembly. rewrite missing_ok, res_bind_unfold by done. unfold sn_compare_rx.
  rewrite !modulus_rx_off, Hx1, Z.gtb_ltb by (done || apply Hw).
  destruct (_ || _) eqn:E; (eexists; split; [reflexivity|]); [|done].
  split; [|done]. split; [by apply (core_fields e)|]. intros _.
  change (1 <= off e (rx_next_highest e) <= off e (rx_next_highest e)). split; [|lia].
  apply orb_true_iff in E as [E|E].
  - destruct (Z.ltb_spec 0 (off e (rx_next_highest e) - (off e sn + 1))); [lia|done].
  - apply andb_true_iff in E as [E%Z.eqb_eq _]. rewrite E, Hx1. lia.
Qed.

Lemma timer_frame_fields e e' :
  timer_frame e' = timer_frame e ->
  rx_fields e' = rx_fields e /\ frame e' = frame e /\ trace (common e') = trace (common e)
  /\ rx_next e' = rx_next e /\ sn_modulus e' = sn_modulus e /\ window_size e' = window_size e.
Proof. unfold timer_frame, rx_fields. intros. split_and!; congruence. Qed.

(** The timers after a segment was received. *)
Lemma timers_ok e :
  core e -> timer_mid e ->
  exists e', (e ← stop_t_reassembly e;
              if t_reassembly_start e =? 0 then start_t_reassembly e (rx_next e) else mret e) = Ok e'
    /\ wf e' /\ timer_frame e' = timer_frame e.
Proof.
  intros Hco Hmid. destruct (stop_ok e Hco Hmid) as (e1 & E1 & Hwf1 & F1).
  rewrite E1, res_bind_unfold. destruct (t_reassembly_start e1 =? 0); [|by exists e1].
  pose proof Hwf1 as [Hco1 _]. pose proof (c_win _ Hco1) as Hw1. pose proof (wo_cfg _ Hw1) as Hc1.
  destruct (cfg_window e1 Hc1). destruct (start_ok e1 (rx_next e1)) as (e2 & E2 & Hwf2 & F2);
    [done|apply Hw1|rewrite off_next by done; lia|]. exists e2. split_and!; [done|done|congruence].
Qed.

(** When t_reassembly expires, RX_Highest_Status moves to the first SDU from the
    trigger on that is not delivered, and a status report is triggered. *)
Lemma check_t_reassembly_ok D e :
  wf e -> honest D e ->
  exists e', check_t_reassembly e = Ok e' /\ wf e' /\ honest D e' /\ frame e' = frame e
    /\ trace (common e') = trace (common e) /\ win e' = win e
    /\ (rx_next e', rx_next_highest e') = (rx_next e, rx_next_highest e).
Proof.
  intros [Hco Ht] Hh. unfold check_t_reassembly. destruct (_ || _) eqn:E0; [by exists e|].
  apply orb_false_iff in E0 as [E0%Z.eqb_neq _]. specialize (Ht E0).
  pose proof Hco as [Hw H1 H2 H3 H4 H5 Hsu Hnu He Hs Hm]. pose proof (wo_cfg _ Hw) as Hc.
  destruct (cfg_window e Hc) as [HM HW].
  destruct (skip_ok e (rx_next_status_trigger e) (off e (rx_next_highest e)))
    as (r & Er & Hr & Ho & Hrd & _); [done|done|lia| |].
  { destruct (decide (off e (rx_next_highest e) < window_size e)); [by rewrite He by lia|].
    replace (off e (rx_next_highest e)) with (window_size e) by lia. by rewrite slot_at_wrap. }
  change (skip_delivered {| e with t_reassembly_start := 0 |}) with (skip_delivered e).
  simpl rx_next_status_trigger. rewrite Er, res_bind_unfold. cbv zeta.
  set (e1 := {| e with t_reassembly_start := 0; rx_highest_status := r; status_triggered := true |}).
  change (start_t_reassembly _ _) with (start_t_reassembly e1 (rx_highest_status e1)).
  assert (Hwf1 : wf e1).
  { split; [|by intros []]. constructor; try done; [by destruct Hw as [[]]; constructor|exact (proj2 Ho)]. }
  assert (HF1 : honest D e1 /\ frame e1 = frame e /\ trace (common e1) = trace (common e)
    /\ win e1 = win e /\ (rx_next e1, rx_next_highest e1) = (rx_next e, rx_next_highest e) /\ rx_highest_status e1 = r /\ off e1 r = off e r
    /\ sn_modulus e1 = sn_modulus e /\ window_size e1 = window_size e) by done.
  clearbody e1. destruct HF1 as (Hh1 & F1 & Tr1 & W1 & N1 & R1 & O1 & M1 & WS1).
  destruct (start_ok e1 (rx_highest_status e1)) as (e2 & E2 & Hwf2 & F2);
    [done|by rewrite R1, M1|rewrite R1, O1, WS1; lia|].
  exists e2. split; [done|]. split; [done|].
  pose proof (timer_frame_fields _ _ F2) as (G1 & G2 & G3 & G4 & _).
  split; [by apply (honest_fields D e1)|].
  assert (rx e2 = rx e1 /\ rx_next_highest e2 = rx_next_highest e1) as [G5 G6]
    by (unfold rx_fields in G1; split; congruence).
  unfold win in *. split_and!; congruence.
Qed.

(** ** Received PDUs *)

(** What a decoded header satisfies, whatever was received. *)
Definition header_ok (e : t) (size : Z) (h : header) : Prop :=
  match h with
  | DataPdu _ sn so n is_first is_last =>
      0 <= sn < sn_modulus e /\ 0 <= so < 65536 /\ (is_first = true <-> so = 0) /\ 0 < n <= size
  | ControlPdu | Discard _ => True
  end.

Lemma decode_header_ok e buffer :
  cfg e -> exists h, decode_header e buffer = Ok h /\ header_ok e (zlen buffer) h.
Proof.
  intros [Hlen Hmod _]. unfold decode_header.
  pose proof (Codec.decoder_init_wf buffer) as W0. revert W0.
  generalize (Codec.nr_rlc_pdu_decoder_init buffer) as d0. intros d0 W0.
  checked_step dc d1 W1 Hdc P1. cbv beta. destruct (dc =? 0); [by eexists|].
  clear W0. checked_step p d2 W2 Hp P2. cbv beta zeta. clear W1.
  checked_step si d3 W3 Hsi P3. cbv beta zeta. clear W2.
  assert (Hby : forall d', Codec.dec_wf d' -> 0 <= Codec.dec_byte d') by (intros d' H; apply H).
  assert (Hsn : forall d, Codec.dec_wf d ->
    exists h, Codec.checked (Codec.nr_rlc_pdu_decoder_get_bits d (sn_field_length e)) (Discard (negb (p =? 0)))
      (fun sn d =>
        if Z.land si 2 =? 0
        then mret (if zlen buffer - Codec.dec_byte d <=? 0 then Discard (negb (p =? 0))
                   else DataPdu (negb (p =? 0)) sn 0 (zlen buffer - Codec.dec_byte d)
                          (Z.land si 2 =? 0) (Z.land si 1 =? 0))
        else Codec.checked (Codec.nr_rlc_pdu_decoder_get_bits d 16) (Discard (negb (p =? 0))) (fun so d =>
          if so =? 0 then mret (Discard (negb (p =? 0)))
          else mret (if zlen buffer - Codec.dec_byte d <=? 0 then Discard (negb (p =? 0))
                     else DataPdu (negb (p =? 0)) sn so (zlen buffer - Codec.dec_byte d)
                            (Z.land si 2 =? 0) (Z.land si 1 =? 0)))) = Ok h
      /\ header_ok e (zlen buffer) h).
  { clear W3 P3. intros d W. checked_step vsn d4 W4 Hsn P4. cbv beta zeta. rewrite <- Hmod in Hsn.
    pose proof (Hby d4 W4). clear W. destruct (Z.land si 2 =? 0) eqn:E2.
    - eexists. split; [reflexivity|].
      destruct (Z.leb_spec (zlen buffer - Codec.dec_byte d4) 0); simpl; [done|].
      split_and!; try done; lia.
    - checked_step vso d5 W5 Hso P5. pose proof (Hby d5 W5). destruct (Z.eqb_spec vso 0).
      { eexists. by split. }
      eexists. split; [reflexivity|].
      destruct (Z.leb_spec (zlen buffer - Codec.dec_byte d5) 0); simpl; [done|].
      split_and!; try done; lia. }
  destruct (sn_field_length e =? 18); [|by apply Hsn].
  checked_step vr d4 W4 Hr P4. by apply Hsn.
Qed.

(** Is the segment put in the window? *)
Definition accepts (e : t) (sn so n : Z) : bool :=
  negb (rx_size e + n >? rx_maxsize e) && sn_in_recv_window e sn
  && negb (Chain.already_received (slot_at e (off e sn)) so n).

Section data_pdu.
Context (D : Z -> list Z) (e : t) (buffer : list Z) (p : bool) (sn so n : Z) (is_first is_last : bool).
Let pdu := Pdu.nr_rlc_new_pdu sn so is_first is_last (drop (Z.to_nat (zlen buffer - n)) buffer).

Lemma recv_data_pdu_ok :
  wf e -> honest D e -> header_ok e (zlen buffer) (DataPdu p sn so n is_first is_last) ->
  honest_slot D [pdu] ->
  if accepts e sn so n && closes_window e pdu
  then recv_data_pdu e buffer p sn so n is_first is_last = Fault NoFuel
  else exists e', recv_data_pdu e buffer p sn so n is_first is_last = Ok e'
    /\ wf e' /\ honest D e' /\ frame e' = frame e
    /\ trace (common e') = trace (common e)
         ++ (if accepts e sn so n && Chain.full (with_segment e pdu) then [DeliverSdu (D sn)] else [])
    /\ (room e -> off e sn <> window_size e - 1 -> room e')
    /\ (p = true -> status_triggered e' = true).
Proof.
  intros [Hco Ht] Hh (Hsn & Hso & Hf & Hn) Hp.
  pose proof (c_win _ Hco) as Hw.
  assert (Hdis : forall e', timer_frame e' = timer_frame e ->
    (t_reassembly_start e', rx_next_status_trigger e')
    = (t_reassembly_start e, rx_next_status_trigger e) ->
    wf e' /\ honest D e' /\ frame e' = frame e /\ trace (common e') = trace (common e)
    /\ (room e -> room e')).
  { intros e' F V. destruct (timer_frame_fields _ _ F) as (G1 & G2 & G3 & _).
    split; [split; [|by apply (timer_fields e)]|split; [by apply (honest_fields D e)|]].
    { apply (core_fields e); try done. injection V as _ ->. apply Hco. }
    split; [done|]. split; [done|]. by apply room_fields. }
  unfold recv_data_pdu, accepts. destruct (_ >? _) eqn:Emax; simpl negb; simpl andb.
  { eexists. split; [reflexivity|]. rewrite app_nil_r.
    destruct (Hdis (discard_pdu p (zlen buffer) e)) as (R1 & R2 & R3 & R4 & R5); [by destruct p..|].
    split_and!; try done; [auto|by intros ->]. }
  destruct (sn_in_recv_window e sn) eqn:Ewin; simpl negb; simpl andb; cbv iota.
  2: { eexists. split; [reflexivity|]. rewrite app_nil_r.
       destruct (Hdis (discard_pdu p (zlen buffer) (upd_common (upd_stats (count_rxpdu_ow (zlen buffer))) e)))
         as (R1 & R2 & R3 & R4 & R5); [by destruct p..|]. split_and!; try done; [auto|by intros ->]. }
  unfold segment_already_received. rewrite get_pdus_ok, !res_bind_unfold by done.
  unfold mret at 1, res_ret at 1. cbv iota beta.
  destruct (Chain.already_received (slot_at e (off e sn)) so n); simpl negb; simpl andb; cbv iota.
  { eexists. split; [reflexivity|]. rewrite app_nil_r.
    destruct (Hdis (discard_pdu p (zlen buffer) (upd_common (upd_stats (count_rxpdu_dup (zlen buffer))) e)))
      as (R1 & R2 & R3 & R4 & R5); [by destruct p..|]. split_and!; try done; [auto|by intros ->]. }
  rewrite zslice_ok, res_bind_unfold by lia.
  rewrite take_ge by (rewrite length_drop; unfold zlen in *; lia). fold pdu.
  assert (Hsz : Pdu.size pdu = n).
  { simpl. rewrite zlen_drop. unfold zlen in *. lia. }
  unfold sn_in_recv_window in Ewin. rewrite modulus_rx_off in Ewin by (done || apply Hw).
  apply Z.ltb_lt in Ewin. rewrite Z.gtb_ltb in Emax. apply Z.ltb_ge in Emax.
  assert (Hnode : node_ok pdu).
  { split_and!; simpl; [lia|done|simpl in Hsz; lia|by intros d [= <-]]. }
  destruct (closes_window e pdu) eqn:Ecl; simpl.
  { destruct (update_window_stalls e pdu) with (D := D) as (m & Em & E1); try done; [by rewrite Hsz|].
    rewrite Em, res_bind_unfold. unfold reception_actions. rewrite Hsz in E1. change (Pdu.sn pdu) with sn in E1.
    by rewrite E1. }
  destruct (update_window_ok e pdu) with (D := D)
    as (m & e1 & Em & E1 & Hco1 & Hh1 & F1 & Hmid & Tr1 & Hhi1); try done; [by rewrite Hsz|].
  rewrite Em, res_bind_unfold. unfold reception_actions. rewrite Hsz in E1.
  change (Pdu.sn pdu) with sn in E1, Tr1, Hhi1. rewrite E1.
  rewrite (res_bind_unfold e1). cbv beta iota.
  destruct (timers_ok e1 Hco1 Hmid) as (e2 & E2 & [Hco2 Ht2] & F2). rewrite E2.
  destruct (timer_frame_fields _ _ F2) as (G1 & G2 & G3 & _).
  pose proof (honest_fields D e1 e2 Hh1 G1) as Hh2.
  rewrite (res_bind_unfold e2). eexists. split; [reflexivity|].
  assert (Hlast : wf (if p then {| e2 with status_triggered := true |} else e2)).
  { destruct p; split; try done. by apply (core_fields e2), Hco2. }
  split; [exact Hlast|].
  assert (Hroom : room e -> off e sn <> window_size e - 1 -> room e2).
  { intros Hr Hne. apply (room_fields e1); [done|]. unfold room in *.
    assert (window_size e1 = window_size e) as -> by (unfold frame, tx_part in F1; congruence). lia. }
  rewrite <- Tr1, <- G3, <- F1, <- G2. destruct p; by split_and!.
Qed.

End data_pdu.

(** What the peer has to satisfy for a received data PDU. *)
Definition honest_pdu (D : Z -> list Z) (e : t) (buffer : list Z) : Prop :=
  forall p sn so n is_first is_last,
    decode_header e buffer = Ok (DataPdu p sn so n is_first is_last) ->
    Chain.slice_of (D sn)
      (Pdu.nr_rlc_new_pdu sn so is_first is_last (drop (Z.to_nat (zlen buffer - n)) buffer))
    /\ zlen (D sn) <= NR_SDU_MAX.

(** The PDU fills the last gap of a window whose other SDUs are all delivered
    while RX_Highest_Status is still at its start: the search for the next SDU
    that is not delivered never ends (see [window_full_loops]). *)
Definition stalls (e : t) (buffer : list Z) : bool :=
  match decode_header e buffer with
  | Ok (DataPdu _ sn so n is_first is_last) =>
      accepts e sn so n
      && closes_window e
           (Pdu.nr_rlc_new_pdu sn so is_first is_last (drop (Z.to_nat (zlen buffer - n)) buffer))
  | _ => false
  end.

(** The PDU does not have the last SN of the reception window. *)
Definition leaves_last (e : t) (buffer : list Z) : Prop :=
  forall p sn so n is_first is_last,
    decode_header e buffer = Ok (DataPdu p sn so n is_first is_last) ->
    off e sn <> window_size e - 1.

Lemma room_stalls e buffer : wf e -> room e -> stalls e buffer = false.
Proof.
  intros [Hco _] Hr. unfold stalls. destruct (decode_header e buffer) as [[|p sn so n f l|]|]; try done.
  apply andb_false_iff. right. apply andb_false_iff. right. apply negb_false_iff.
  destruct (gap_spec e) as [|Hn]; [done|]. destruct Hn.
  destruct (cfg_window e (wo_cfg _ (c_win _ Hco))). exists (window_size e - 1). split; [lia|].
  unfold room in Hr. by rewrite (c_empty _ Hco) by lia.
Qed.

(** The calls to [deliver_sdu] a received data PDU causes. *)
Definition deliveries (D : Z -> list Z) (e : t) (buffer : list Z) : list rlc_event :=
  match decode_header e buffer with
  | Ok (DataPdu _ sn so n is_first is_last) =>
      let pdu := Pdu.nr_rlc_new_pdu sn so is_first is_last (drop (Z.to_nat (zlen buffer - n)) buffer) in
      if accepts e sn so n && Chain.full (with_segment e pdu) then [DeliverSdu (D sn)] else []
  | _ => []
  end.

Lemma recv_pdu_ok D e buffer :
  wf e -> honest D e -> honest_pdu D e buffer -> decode_header e buffer <> Ok ControlPdu ->
  if stalls e buffer then nr_rlc_entity_am_recv_pdu e buffer = Fault NoFuel
  else exists e', nr_rlc_entity_am_recv_pdu e buffer = Ok e' /\ wf e' /\ honest D e'
    /\ frame e' = frame e /\ trace (common e') = trace (common e) ++ deliveries D e buffer
    /\ (room e -> leaves_last e buffer -> room e').
Proof.
  intros [Hco Ht] Hh Hp Hnc. unfold nr_rlc_entity_am_recv_pdu, deliveries, stalls.
  destruct (decode_header_ok e buffer (wo_cfg _ (c_win _ Hco))) as (h & Ed & Hok).
  set (e0 := upd_common _ e).
  assert (Hwf0 : wf e0).
  { split; [by apply (core_fields e), Hco|by apply (timer_fields e)]. }
  assert (Hh0 : honest D e0) by exact Hh.
  change (decode_header e0 buffer) with (decode_header e buffer). rewrite Ed, res_bind_unfold.
  destruct h as [|p sn so n f l|p]; [by destruct Hnc| |].
  - destruct (Hp _ _ _ _ _ _ Ed) as [Hsl Hmax].
    pose proof (recv_data_pdu_ok D e0 buffer p sn so n f l Hwf0 Hh0 Hok) as H.
    set (pdu := Pdu.nr_rlc_new_pdu _ _ _ _ _) in *.
    change (accepts e0) with (accepts e) in H. change (closes_window e0 pdu) with (closes_window e pdu) in H.
    change (with_segment e0 pdu) with (with_segment e pdu) in H.
    destruct (accepts e sn so n && closes_window e pdu).
    { apply H, Forall_singleton. split; [|done]. pose proof (Chain.sl_end _ _ Hsl). lia. }
    destruct H as (e' & E & Hwf' & Hh' & F & Tr & Hr & _).
    { apply Forall_singleton. split; [|done]. pose proof (Chain.sl_end _ _ Hsl). lia. }
    exists e'. split_and!; try done. intros Hroom Hl. apply Hr; [exact Hroom|]. exact (Hl _ _ _ _ _ _ Ed).
  - eexists. split; [reflexivity|]. rewrite app_nil_r. destruct Hwf0 as [Hco0 Ht0].
    destruct p; (split; [|done]); (split; [by apply (core_fields e0), Hco0|by apply (timer_fields e0)]).
Qed.

Lemma empty_room e : cfg e -> rx_next_highest e = rx_next e -> room e.
Proof. intros Hc E. unfold room. rewrite E, off_next by done. by destruct (cfg_window e Hc); lia. Qed.

(** An entity with an empty window that starts at SN 0. *)
Lemma empty_wf e :
  cfg e -> RxManager.wf (rx e) -> win e = replicate (Z.to_nat (window_size e)) [] ->
  RxManager.size (rx e) = window_size e -> RxManager.sn_start (rx e) = 0 ->
  (rx_next e, rx_next_highest e, rx_highest_status e, rx_next_status_trigger e, rx_size e,
   t_reassembly_start e) = (0, 0, 0, 0, 0, 0) ->
  0 <= rx_maxsize e -> wf e /\ forall D, honest D e.
Proof.
  intros Hc Hrx Hwin Hsize Hstart HE Hm. injection HE as E1 E2 E3 E4 E5 E6.
  destruct (cfg_window e Hc) as [HM HW].
  assert (Hslots : forall i, slot_at e i = []).
  { intros i. unfold slot_at. rewrite Hwin, nth_lookup.
    destruct (_ !! _) eqn:E; [|done]. by apply lookup_replicate in E as [-> _]. }
  assert (Ho0 : off e 0 = 0) by (rewrite <- E1 at 1; apply off_next, Hc).
  assert (Hw : win_ok e).
  { constructor; try done; [by rewrite E1|lia|]. intros i _. rewrite Hslots. apply slot_ok_nil. }
  split; [split; [|by intros []]|].
  - constructor; rewrite ?Hslots, ?E2, ?E3, ?E4, ?Ho0; try done; try lia.
    rewrite win_held_slots by done.
    rewrite (zsum_ext _ (fun _ => 0)) by (intros; by rewrite Hslots).
    rewrite E5. induction (seqZ 0 (window_size e)); simpl; lia.
  - intros D i _. rewrite Hslots. constructor.
Qed.

Lemma am_new_wf rx_max tx_max tp tr ts pp pb mr len e :
  0 <= rx_max -> new_nr_rlc_entity_am rx_max tx_max tp tr ts pp pb mr len = Ok e ->
  wf e /\ (forall D, honest D e) /\ trace (common e) = [] /\ rx_maxsize e = rx_max * 5.
Proof.
  intros Hm Hnew. unfold new_nr_rlc_entity_am in Hnew. destruct (_ || _) eqn:El; [|done].
  apply res_bind_ok in Hnew as (c & Hc & Hnew). apply new_common_ok in Hc as (_ & _ & _ & Htr).
  assert (Hlen : len = 12 \/ len = 18).
  { apply orb_true_iff in El as [E%Z.eqb_eq|E%Z.eqb_eq]; auto. }
  injection Hnew as <-. set (e := mk_am _ _ _ _ _ _ _ _ _ _ _ _ _ _ _ _ _ _ _ _ _ _ _ _ _ _ _ _ _ _ _ _ _ _ _ _ _ _).
  assert (Hw2 : 2 <= Z.shiftl 1 (len - 1) /\ Z.shiftl 1 len / 2 = Z.shiftl 1 (len - 1)
    /\ Z.shiftl 1 len = 2 ^ len) by (by destruct Hlen as [-> | ->]).
  destruct Hw2 as (Hw1 & Hw2 & Hw3).
  destruct (RxManager.new_spec (Z.shiftl 1 (len - 1))) as (Hrx & Hwin); [lia|].
  assert (H : wf e /\ forall D, honest D e).
  { assert (Hws : window_size e = Z.shiftl 1 (len - 1)) by exact Hw2.
    apply empty_wf; rewrite ?Hws; try done; simpl rx_maxsize; lia. }
  by destruct H.
Qed.

(** ** The loop that does not end *)

(** The data PDU with SN [sn] (12 bits) that carries the SDU [b]. *)
Definition whole_pdu (sn b : Z) : list Z := [128 + sn / 256; sn mod 256; b].

(** SDUs 1 to window_size - 1 are delivered while SDU 0 is missing. *)
Definition all_but_first : res t :=
  e ← new_nr_rlc_entity_am 1000 1000 45 35 0 (-1) (-1) 8 12;
  res_foldl nr_rlc_entity_am_recv_pdu e (map (fun sn => whole_pdu sn 7) (seqZ 1 2047)).

(** The window is full of delivered SDUs when SDU 0 comes: the search for the next
    SDU that is not delivered never ends. *)
Lemma window_full_loops :
  (e ← all_but_first; nr_rlc_entity_am_recv_pdu e (whole_pdu 0 7)) = Fault NoFuel
  /\ (e ← all_but_first; mret (rx_next e, rx_highest_status e, zlen (trace (common e))))
     = Ok (0, 0, 2047).
Proof. split; vm_compute; reflexivity. Qed.

End AmRxSpec.
