(* ===== verification/RlcAmTx.v ===== *)
(** * RLC acknowledged mode: transmission

    Models the functions of [nr_rlc_entity_am.c] that send PDUs, accept SDUs,
    run the poll timer, discard SDUs and re-establish the entity. *)

From S2P Require Import Prelude TimeStat RlcPdu RlcSdu RlcRxManager RlcEntity RlcAm RlcAmStatus.
From S2P Require Import RlcAmRx RlcUm.

Module AmTx.
Import Entity Am.

(** [buffer[0] |= 0x40] and the polling variables. *)
Definition include_poll (e : t) (buffer : list Z) : res (list Z * t) :=
  buffer ← AmStatus.or_byte buffer 0 64;
  mret (buffer,
        {| e with pdu_without_poll := 0; byte_without_poll := 0;
                  poll_sn := (tx_next e - 1 + sn_modulus e) mod sn_modulus e;
                  t_poll_retransmit_start := t_current e |}).

(** The fields of the PDU header; [sn] is [sdu->sdu->sn]. *)
Definition header_fields (e : t) (sdu : Seg.t) (sn : Z) : list (Z * Z) :=
  [(1, 1); (0, 1); (1 - b2z (Seg.is_first sdu), 1); (1 - b2z (Seg.is_last sdu), 1)]
  ++ (if sn_field_length e =? 18 then [(0, 2)] else [])
  ++ [(sn, sn_field_length e)]
  ++ (if Seg.is_first sdu then [] else [(Seg.so sdu, 16)]).

Definition serialize_sdu (e : t) (sdu : Seg.t) (buffer : list Z) (bufsize : Z) (p : bool)
    : res (Z * list Z * t) :=
  d ← Store.deref (st e) sdu;
  (* generate header *)
  enc ← Codec.put_fields (Codec.nr_rlc_pdu_encoder_init buffer bufsize)
          (header_fields e sdu (Sdu.sn d));
  (* data *)
  src ← zslice (Sdu.data d) (Seg.so sdu) (Seg.size sdu);
  buffer ← zwrite (Codec.enc_buffer enc) (Codec.enc_byte enc) src;
  '(buffer, e) ← (if p then include_poll e buffer else mret (buffer, e));
  mret (Codec.enc_byte enc + Seg.size sdu, buffer, e).

(** Returns the shortened segment and the new segment with the remaining
    bytes. *)
Definition resegment (e : t) (sdu : Seg.t) (pdu_size : Z) : res (Seg.t * Seg.t * t) :=
  d ← Store.deref (st e) sdu;
  let pdu_header_size := compute_pdu_header_size e sdu in
  let over_size := pdu_header_size + Seg.size sdu - pdu_size in
  let short := {| sdu with Seg.size := Seg.size sdu - over_size; Seg.is_last := false |} in
  let next := {| sdu with Seg.node := Store.fresh (st e); Seg.size := over_size;
                          Seg.so := Seg.so sdu + Seg.size short; Seg.is_first := false |} in
  let st' := Store.update (st e) sdu {| d with Sdu.ref_count := Sdu.ref_count d + 1 |} in
  mret (short, next, {| e with st := {| st' with Store.fresh := S (Store.fresh st') |} |}).

(** The node the tail pointer of the wait list designates. *)
Definition wait_tail (e : t) (p : nat) : res Seg.t :=
  of_option Dangling (list_find (fun s => Seg.node s = p) (wait_list e) ≫= fun x => Some x.2).

(** The test of the speedup: the new sdu comes after the end of the wait
    list. *)
Definition after_wait_end (e : t) (sdu : Seg.t) : res bool :=
  match wait_end e with
  | None => mret true
  | Some p =>
      last ← wait_tail e p;
      dl ← Store.deref (st e) last;
      d ← Store.deref (st e) sdu;
      mret ((sn_compare_tx e (Sdu.sn d) (Sdu.sn dl) >? 0)
            || ((sn_compare_tx e (Sdu.sn d) (Sdu.sn dl) =? 0) && (Seg.so sdu >? Seg.so last)))
  end.

(** Put SDU/SDU segment in the wait list. *)
Definition put_in_wait_list (e : t) (sdu : Seg.t) : res t :=
  after ← after_wait_end e sdu;
  match after : bool with
  | true =>
      '(l, end_) ← Store.nr_rlc_sdu_segment_list_append (wait_list e) (wait_end e) sdu;
      mret {| e with wait_list := l; wait_end := end_ |}
  | false =>
      l ← nr_rlc_tx_sdu_segment_list_add e (wait_list e) sdu;
      mret {| e with wait_list := l;
                     wait_end := match l with
                                 | [s] => Some (Seg.node s)
                                 | _ => wait_end e
                                 end |}
  end.

(** [if (entity->force_poll) { p = 1; entity->force_poll = 0; }]. *)
Definition apply_force_poll (e : t) (p : bool) : bool * t :=
  if force_poll e then (true, {| e with force_poll := false |}) else (p, e).

Definition generate_retx_pdu (e : t) (buffer : list Z) (size : Z) : res (Z * list Z * t) :=
  match retransmit_list e with
  | [] => Fault NullDeref
  | sdu :: rest =>
      let pdu_header_size := compute_pdu_header_size e sdu in
      (* not enough room for at least one byte of data? do nothing *)
      if pdu_header_size + 1 >? size then mret (0, buffer, e)
      else
        let e := {| e with retransmit_list := rest |} in
        let pdu_size := pdu_header_size + Seg.size sdu in
        (* update buffer status *)
        let e := upd_common (add_bs_retx (- pdu_size)) e in
        (* segment if necessary *)
        '(sdu, e) ←
          (if pdu_size >? size then
             '(sdu, next_sdu, e) ← resegment e sdu size;
             (* put the second SDU back at the head of the retransmit list *)
             let e := {| e with retransmit_list := next_sdu :: retransmit_list e |} in
             mret (sdu, upd_common (fun c => upd_stats count_segmented
               (add_bs_retx (compute_pdu_header_size e next_sdu + Seg.size next_sdu) c)) e)
           else mret (sdu, e));
        e ← put_in_wait_list e sdu;
        let p := check_poll_after_pdu_assembly e in
        let '(p, e) := apply_force_poll e p in
        '(ret_size, buffer, e) ← serialize_sdu e sdu buffer size p;
        mret (ret_size, buffer,
              upd_common (upd_stats (fun s => count_txpdu_retx ret_size (count_txpdu ret_size s))) e)
  end.

(** Assign SN to SDU. *)
Definition assign_sn (e : t) (sdu : Seg.t) : res t :=
  d ← Store.deref (st e) sdu;
  if Sdu.sn d =? -1 then
    mret {| e with st := Store.update (st e) sdu {| d with Sdu.sn := tx_next e |};
                   tx_next := (tx_next e + 1) mod sn_modulus e |}
  else mret e.

(** Polling actions for a new PDU. *)
Definition poll_new_pdu (e : t) (sdu : Seg.t) : bool * t :=
  let e := {| e with pdu_without_poll := pdu_without_poll e + 1;
                     byte_without_poll := byte_without_poll e + Seg.size sdu |} in
  let p :=
    if (negb (poll_pdu e =? -1) && (pdu_without_poll e >=? poll_pdu e))
       || (negb (poll_byte e =? -1) && (byte_without_poll e >=? poll_byte e))
    then true else check_poll_after_pdu_assembly e in
  (p, e).

Definition generate_tx_pdu (now_us : Z) (e : t) (buffer : list Z) (size : Z)
    : res (Z * list Z * t) :=
  (* sn out of window (that is: we have window stalling)? do nothing *)
  if is_window_stalling e then mret (0, buffer, e)
  else match tx_list e with
  | [] => mret (0, buffer, e)
  | sdu :: rest =>
      let pdu_header_size := compute_pdu_header_size e sdu in
      (* not enough room for at least one byte of data? do nothing *)
      if pdu_header_size + 1 >? size then mret (0, buffer, e)
      else
        let e := {| e with tx_list := rest;
                           tx_end := match rest with [] => None | _ => tx_end e end |} in
        let pdu_size := pdu_header_size + Seg.size sdu in
        (* update buffer status *)
        let e := upd_common (add_bs_tx (- pdu_size)) e in
        e ← assign_sn e sdu;
        (* segment if necessary *)
        '(sdu, e) ←
          (if pdu_size >? size then
             '(sdu, next_sdu, e) ← resegment e sdu size;
             (* put the second SDU back at the head of the TX list *)
             let e := {| e with tx_list := next_sdu :: tx_list e;
                                tx_end := match tx_end e with
                                          | None => Some (Seg.node next_sdu)
                                          | end_ => end_
                                          end |} in
             mret (sdu, upd_common (fun c =>
               add_bs_tx (compute_pdu_header_size e next_sdu + Seg.size next_sdu)
                 (upd_stats count_segmented c)) e)
           else mret (sdu, e));
        e ← put_in_wait_list e sdu;
        let '(p, e) := poll_new_pdu e sdu in
        let '(p, e) := apply_force_poll e p in
        '(ret_size, buffer, e) ← serialize_sdu e sdu buffer size p;
        d ← Store.deref (st e) sdu;
        c ← measure_wait now_us (Sdu.time_of_arrival d)
              (upd_stats (count_txpdu ret_size) (common e));
        mret (ret_size, buffer, {| e with common := c |})
  end.

Definition nr_rlc_entity_am_buffer_status (e : t) (maxsize : Z)
    : res nr_rlc_entity_buffer_status_t :=
  s ← (if status_to_report e then AmStatus.status_size e maxsize else mret 0);
  mret {| Entity.status_size := s; Entity.tx_size := Entity.tx_size (bstatus (common e));
          retx_size := retx_size (bstatus (common e)) |}.

Definition nr_rlc_entity_am_generate_pdu (now_us : Z) (e : t) (buffer : list Z) (size : Z)
    : res (Z * list Z * t) :=
  '(ret, buffer, e) ← (if status_to_report e then AmStatus.generate_status e buffer size
                       else mret (0, buffer, e));
  if negb (ret =? 0) then mret (ret, buffer, e)
  else
    '(ret, buffer, e) ← (match retransmit_list e with
                         | [] => mret (0, buffer, e)
                         | _ => generate_retx_pdu e buffer size
                         end);
    if negb (ret =? 0) then mret (ret, buffer, e)
    else generate_tx_pdu now_us e buffer size.

(** ** SDUs from the upper layer *)

Definition nr_rlc_entity_am_recv_sdu (now_us : Z) (e : t) (buffer : list Z) (sdu_id : Z) : res t :=
  let size := zlen buffer in
  let e := upd_common (upd_stats count_rxsdu_pkt) e in
  if negb (size <=? NR_SDU_MAX) then Fault Exit
  else
    (* log SDUs rejected, at most once per second *)
    let e := if negb (sdu_rejected e =? 0)
                && (t_current e >? u64 (t_log_buffer_full e + 1000))
             then {| e with sdu_rejected := 0; t_log_buffer_full := t_current e |} else e in
    if tx_size e + size >? tx_maxsize e then
      let e := {| e with sdu_rejected := sdu_rejected e + 1 |} in
      mret (upd_common (upd_stats (count_txpdu_dd size)) e)
    else
      let '(sdu, st') := Store.nr_rlc_new_sdu (st e) buffer sdu_id in
      '(l, end_) ← Store.nr_rlc_sdu_segment_list_append (tx_list e) (tx_end e) sdu;
      let c := add_bs_tx (compute_pdu_header_size e sdu + Seg.size sdu)
                 (upd_stats (count_rxsdu_bytes size) (common e)) in
      st'' ← stamp_arrival now_us c st' sdu;
      mret {| e with common := c; tx_size := tx_size e + size; tx_list := l; tx_end := end_;
                     st := st'' |}.

(** ** Timers *)

(** The [do ... while]: the segments of the SDU at the head of the wait list
    go to the retransmit list. *)
Fixpoint retransmit_sn_loop (e : t) (l : list Seg.t) (retransmit_sn : Z) : res t :=
  match l with
  | [] => mret e
  | cur :: rest =>
      d ← Store.deref (st e) cur;
      if Sdu.sn d =? retransmit_sn then
        let e := {| e with wait_list := rest;
                           wait_end := match rest with [] => None | _ => wait_end e end |} in
        let e := upd_common (add_bs_retx (compute_pdu_header_size e cur + Seg.size cur)) e in
        (* put in retransmit list *)
        r ← nr_rlc_tx_sdu_segment_list_add e (retransmit_list e) cur;
        retransmit_sn_loop {| e with retransmit_list := r |} rest retransmit_sn
      else mret e
  end.

Definition check_t_poll_retransmit (e : t) : res t :=
  (* did t_poll_retransmit expire? *)
  if (t_poll_retransmit_start e =? 0)
     || (t_current e <=? u64 (t_poll_retransmit_start e + t_poll_retransmit e)) then mret e
  else
    (* stop timer, include a poll in the next PDU *)
    let e := {| e with t_poll_retransmit_start := 0; force_poll := true |} in
    (* do we meet conditions of 38.322 5.3.3.4? *)
    if negb (check_poll_after_pdu_assembly e) then mret e
    else match wait_list e with
    | [] => Fault NullDeref
    | cur :: _ =>
        (* increase retx count *)
        d ← Store.deref (st e) cur;
        let d := {| d with Sdu.retx_count := Sdu.retx_count d + 1 |} in
        let e := {| e with st := Store.update (st e) cur d |} in
        e ← retransmit_sn_loop e (wait_list e) (Sdu.sn d);
        mret (if Sdu.retx_count d >=? max_retx_threshold e
              then upd_common (emit MaxRetxReached) e else e)
    end.

Definition nr_rlc_entity_am_set_time (e : t) (now : Z) : res t :=
  e ← check_t_poll_retransmit {| e with t_current := now |};
  AmRx.check_t_reassembly e.

(** ** Discard, re-establishment *)

Definition nr_rlc_entity_am_discard_sdu (e : t) (sdu_id : Z) : res t :=
  '(before, from) ← Um.find_sdu (st e) (tx_list e) sdu_id;
  match from with
  | [] => mret e
  | cur :: after =>
      (* if some bytes have already been 'PDU-ized' then do nothing *)
      if negb (Seg.is_first cur) || negb (Seg.is_last cur) then mret e
      else
        (* remove SDU from tx_list *)
        let end_ := if decide (tx_end e = Some (Seg.node cur)) then Store.tail_of before
                    else tx_end e in
        let c := add_bs_tx (- (compute_pdu_header_size e cur + Seg.size cur)) (common e) in
        d ← Store.deref (st e) cur;
        '(_, st') ← Store.nr_rlc_free_sdu_segment (st e) cur;
        mret {| e with common := c; tx_list := before ++ after; tx_end := end_;
                       tx_size := tx_size e - Sdu.size d; st := st' |}
  end.

Definition clear_entity (e : t) : res t :=
  st1 ← Store.nr_rlc_free_sdu_segment_list (st e) (tx_list e);
  st2 ← Store.nr_rlc_free_sdu_segment_list st1 (wait_list e);
  st3 ← Store.nr_rlc_free_sdu_segment_list st2 (retransmit_list e);
  mret {| e with rx_next := 0; rx_next_status_trigger := 0; rx_highest_status := 0;
                 rx_next_highest := 0; status_triggered := false;
                 tx_next := 0; tx_next_ack := 0; poll_sn := 0; pdu_without_poll := 0;
                 byte_without_poll := 0; force_poll := false; t_current := 0;
                 t_log_buffer_full := 0; sdu_rejected := 0; t_poll_retransmit_start := 0;
                 t_reassembly_start := 0; t_status_prohibit_start := 0;
                 rx := RxManager.nr_rlc_clear_rx_manager (rx e); rx_size := 0;
                 tx_list := []; tx_end := None; tx_size := 0; wait_list := []; wait_end := None;
                 retransmit_list := []; common := clear_bs_retx (clear_bs_tx (common e));
                 st := st3 |}.

Definition nr_rlc_entity_am_reestablishment (e : t) : res t := clear_entity e.

Definition nr_rlc_entity_am_available_tx_space (e : t) : Z := tx_maxsize e - tx_size e.

Definition nr_rlc_entity_am_tx_list_occupancy (e : t) : Z := tx_size e.

End AmTx.
