(* ===== verification/RlcAmTxInv.v ===== *)
(** * RLC acknowledged mode: invariant of the transmitting side

    [mem e wait retx] is the invariant of the three lists of segments of the
    transmitting side and of the SDU headers they share: reference counters, tail
    pointer, buffer status and the number of buffered bytes are consistent with
    the lists.  The lists that wait for an acknowledgement and for
    retransmission are arguments, since [process_control_pdu] rebuilds them.
    This file proves the operations of the upper layer: new SDUs, discard and
    re-establishment. *)

From S2P Require Import Prelude TimeStat RlcPdu RlcSdu RlcRxManager RlcEntity RlcUm RlcUmTx.
From S2P Require Import RlcAm RlcAmStatus RlcAmControl RlcAmRx RlcAmRxSpec RlcAmTx.

Module AmTxInv.
Import Entity Am.

(** Size of the PDU that carries a segment. *)
Definition pdu_size (e : t) (s : Seg.t) : Z := compute_pdu_header_size e s + Seg.size s.

(** Only a segment that is not the first has an offset, only the last one ends
    where its SDU ends. *)
Definition seg_ok (st : Store.t) (s : Seg.t) : Prop :=
  exists d, Store.sdus st !! Seg.sdu s = Some d /\ Sdu.size d <= NR_SDU_MAX
    /\ (Seg.is_last s = true <-> Seg.so s + Seg.size s = Sdu.size d)
    /\ (if Seg.is_first s then Seg.so s = 0 else 0 < Seg.so s /\ 0 < Seg.size s).

(** The SDU of a segment has an SN. *)
Definition numbered (M : Z) (st : Store.t) (s : Seg.t) : Prop :=
  exists d, Store.sdus st !! Seg.sdu s = Some d /\ 0 <= Sdu.sn d < M.

(** A segment of the transmission list: the SN is assigned when the first part
    of the SDU is sent. *)
Definition unsent (M : Z) (st : Store.t) (s : Seg.t) : Prop :=
  exists d, Store.sdus st !! Seg.sdu s = Some d /\ Seg.is_last s = true
    /\ if Seg.is_first s then Sdu.sn d = -1 else 0 <= Sdu.sn d < M.

(** Two segments of an SDU have different bytes, two SDUs have different SNs. *)
Definition disjoint (s s' : Seg.t) : Prop :=
  (Seg.so s < Seg.so s' /\ Seg.so s + Seg.size s <= Seg.so s')
  \/ (Seg.so s' < Seg.so s /\ Seg.so s' + Seg.size s' <= Seg.so s).

Definition apart (st : Store.t) (l : list Seg.t) : Prop :=
  forall s s', s ∈ l -> s' ∈ l -> Seg.node s <> Seg.node s' ->
    if decide (Seg.sdu s = Seg.sdu s') then disjoint s s'
    else forall d d', Store.sdus st !! Seg.sdu s = Some d -> Store.sdus st !! Seg.sdu s' = Some d' ->
           0 <= Sdu.sn d -> Sdu.sn d <> Sdu.sn d'.

Record mem (e : t) (wait retx : list Seg.t) : Prop := {
  m_cfg : AmRxSpec.cfg e;
  m_next : 0 <= tx_next e < sn_modulus e;
  m_next_ack : 0 <= tx_next_ack e < sn_modulus e;
  m_store : Store.store_ok (st e) (tx_list e ++ wait ++ retx);
  m_bytes : Store.bytes (st e) = tx_size e;
  m_end : tx_end e = Store.tail_of (tx_list e);
  m_tx : Entity.tx_size (bstatus (common e)) = zsum (pdu_size e) (tx_list e);
  m_retx : retx_size (bstatus (common e)) = zsum (pdu_size e) retx;
  m_segs : Forall (seg_ok (st e)) (tx_list e ++ wait ++ retx);
  m_sdus : NoDup (map Seg.sdu (tx_list e));
  m_unsent : Forall (unsent (sn_modulus e) (st e)) (tx_list e);
  m_numbered : Forall (numbered (sn_modulus e) (st e)) (wait ++ retx);
  m_apart : apart (st e) (tx_list e ++ wait ++ retx);
  m_avg : TimeStat.wf (txsdu_avg_time_to_tx (common e))
}.

(** The entity between two calls; [lost] are segments that no list holds any
    more, see [AmControlSpec]. *)
Definition wf (e : t) (lost : list Seg.t) : Prop :=
  mem e (wait_list e) (retransmit_list e ++ lost)
  /\ wait_end e = Store.tail_of (wait_list e).

(** What the receiving side depends on. *)
Definition rx_part (e : t) :=
  (AmRxSpec.rx_fields e, rx_next_status_trigger e, t_reassembly_start e, t_current e,
   t_reassembly e).

(** The order of the two lists is irrelevant. *)
#[global] Instance mem_proper : Proper ((=) ==> (≡ₚ) ==> (≡ₚ) ==> iff) mem.
Proof.
  assert (Himp : forall e w w' r r', w ≡ₚ w' -> r ≡ₚ r' -> mem e w r -> mem e w' r').
  { intros e w w' r r' Hw Hr [H1 H2 H3 H4 H5 H6 H7 H8 H9 H10 H11 H12 H13 H14].
    constructor; try done; rewrite <- ?Hw, <- ?Hr; try done.
    - by rewrite <- (zsum_perm _ _ _ Hr).
    - intros s s' Hs Hs'. rewrite <- Hw, <- Hr in Hs, Hs'. by apply H13. }
  intros e ? <- w w' Hw r r' Hr. split; by apply Himp.
Qed.

Lemma seg_ok_related st st' l :
  Store.related Store.same_bytes st st' l -> Forall (seg_ok st) l -> Forall (seg_ok st') l.
Proof.
  intros Hr Hl. unfold Store.related in Hr. rewrite Forall_forall in *. intros s Hs.
  destruct (Hr s Hs) as (d & d' & L & L' & _ & Hsz). destruct (Hl s Hs) as (d1 & L1 & H).
  exists d'. assert (d1 = d) as -> by congruence. by rewrite Hsz.
Qed.

Lemma numbered_related M st st' l :
  Store.related Store.same_hdr st st' l -> Forall (numbered M st) l -> Forall (numbered M st') l.
Proof.
  intros Hr Hl. unfold Store.related in Hr. rewrite Forall_forall in *. intros s Hs.
  destruct (Hr s Hs) as (d & d' & L & L' & _ & Hsn & _). destruct (Hl s Hs) as (d1 & L1 & H).
  exists d'. assert (d1 = d) as -> by congruence. by rewrite Hsn.
Qed.

Lemma unsent_related M st st' l :
  Store.related Store.same_hdr st st' l -> Forall (unsent M st) l -> Forall (unsent M st') l.
Proof.
  intros Hr Hl. unfold Store.related in Hr. rewrite Forall_forall in *. intros s Hs.
  destruct (Hr s Hs) as (d & d' & L & L' & _ & Hsn & _). destruct (Hl s Hs) as (d1 & L1 & H).
  exists d'. assert (d1 = d) as -> by congruence. by rewrite Hsn.
Qed.

Lemma apart_nil st : apart st [].
Proof. by intros s s' Hs%elem_of_nil. Qed.

Lemma apart_related st st' l l' :
  Store.related Store.same_hdr st st' l' -> l' ⊆ l -> apart st l -> apart st' l'.
Proof.
  intros Hr Hsub Ha s s' Hs Hs' Hn. pose proof (Ha s s' (Hsub s Hs) (Hsub s' Hs') Hn) as H.
  destruct (decide _); [done|]. intros d d' L L' Hd. unfold Store.related in Hr.
  rewrite Forall_forall in Hr.
  destruct (Hr s Hs) as (d1 & d2 & L1 & L2 & _ & E & _).
  destruct (Hr s' Hs') as (d3 & d4 & L3 & L4 & _ & E' & _).
  assert (d2 = d) as -> by congruence. assert (d4 = d') as -> by congruence.
  rewrite E, E'. rewrite E in Hd. by apply (H d1 d3).
Qed.

(** A new SDU has no SN. *)
Lemma apart_new st st' l s d :
  Store.related Store.same_hdr st st' l -> apart st l -> Store.sdus st' !! Seg.sdu s = Some d ->
  Sdu.sn d = -1 -> Forall (fun x => Seg.sdu x <> Seg.sdu s) l -> apart st' (s :: l).
Proof.
  intros Hr Ha Hd Hsn Hne. apply (apart_related st st' l l) in Ha; [|done..].
  rewrite Forall_forall in Hne.
  intros x y Hx Hy Hxy. apply elem_of_cons in Hx as [->|Hx], Hy as [->|Hy]; [done| | |by apply Ha].
  - rewrite decide_False by (intros E; by apply (Hne y)). intros d1 d2 L1 _ H0.
    assert (d1 = d) as -> by congruence. lia.
  - rewrite decide_False by (by apply Hne). intros d1 d2 L1 L2 H0.
    assert (d2 = d) as -> by congruence. lia.
Qed.

(** The header size depends on the configuration only. *)
Lemma pdu_size_cfg e e' s : sn_field_length e' = sn_field_length e -> pdu_size e' s = pdu_size e s.
Proof. intros H. unfold pdu_size, compute_pdu_header_size. by rewrite H. Qed.

Lemma zsum_pdu_size_cfg e e' l :
  sn_field_length e' = sn_field_length e -> zsum (pdu_size e') l = zsum (pdu_size e) l.
Proof. intros H. induction l; simpl; [done|]. rewrite IHl. by erewrite pdu_size_cfg. Qed.

(** The fields of [mem], the store and the counters apart. *)
Definition base (e : t) :=
  (sn_field_length e, sn_modulus e, window_size e, tx_next e, tx_next_ack e, tx_list e, tx_end e).

Lemma base_cfg e e' : base e' = base e -> AmRxSpec.cfg e -> AmRxSpec.cfg e'.
Proof.
  intros E [H1 H2 H3]. unfold base in E. injection E as E1 E2 E3 _ _ _ _.
  constructor; by rewrite ?E1, ?E2, ?E3.
Qed.

Lemma base_fields e e' :
  base e' = base e ->
  sn_field_length e' = sn_field_length e /\ sn_modulus e' = sn_modulus e
  /\ tx_next e' = tx_next e /\ tx_next_ack e' = tx_next_ack e /\ tx_list e' = tx_list e
  /\ tx_end e' = tx_end e.
Proof. unfold base. intros. split_and!; congruence. Qed.

(** The store changed, and segments were taken away from the lists. *)
Lemma mem_shrink e e' w w' r r' :
  mem e w r -> base e' = base e ->
  Store.store_ok (st e') (tx_list e ++ w' ++ r') ->
  Store.related Store.same_hdr (st e) (st e') (tx_list e ++ w' ++ r') ->
  w' ++ r' ⊆ w ++ r ->
  Store.bytes (st e') = tx_size e' ->
  Entity.tx_size (bstatus (common e')) = Entity.tx_size (bstatus (common e)) ->
  retx_size (bstatus (common e')) = zsum (pdu_size e) r' ->
  TimeStat.wf (txsdu_avg_time_to_tx (common e')) ->
  mem e' w' r'.
Proof.
  intros [H1 H2 H3 H4 H5 H6 H7 H8 H9 H10 H11 H12 H13 H14] Hb Hst Hrel Hsub Hbytes Htx Hretx Havg.
  destruct (base_fields _ _ Hb) as (B1 & B2 & B3 & B4 & B5 & B6).
  pose proof (Store.related_bytes _ _ _ Hrel) as Hrel'.
  assert (Hsub' : tx_list e ++ w' ++ r' ⊆ tx_list e ++ w ++ r) by set_solver.
  constructor; rewrite ?B2, ?B3, ?B4, ?B5, ?B6, ?Htx, ?Hretx; try done.
  - by apply (base_cfg e).
  - by rewrite (zsum_pdu_size_cfg e e').
  - by rewrite (zsum_pdu_size_cfg e e').
  - apply (seg_ok_related (st e)); [done|]. rewrite Forall_forall in *. auto.
  - apply (unsent_related _ (st e)); [|done]. eapply Store.related_sub; [|exact Hrel]. set_solver.
  - apply (numbered_related _ (st e)); [|rewrite Forall_forall in *; auto].
    eapply Store.related_sub; [|exact Hrel]. set_solver.
  - by apply (apart_related (st e) _ (tx_list e ++ w ++ r)).
Qed.

(** The SDUs and SDU ends that were not sent yet: offset and bytes. *)
Definition queue (e : t) : list (Z * list Z) :=
  map (fun s => (Seg.so s, Store.seg_bytes (st e) s)) (tx_list e).

(** What the operations of the upper layer leave alone. *)
Definition upper_frame (e : t) :=
  (rx_part e, trace (common e), wait_list e, wait_end e, retransmit_list e, tx_maxsize e,
   (tx_next e, tx_next_ack e, poll_sn e, sn_field_length e, sn_modulus e, window_size e)).

(** What the transmitting side depends on. *)
Definition tx_part (e : t) :=
  (base e, tx_size e, wait_list e, wait_end e, retransmit_list e, st e, bstatus (common e),
   txsdu_avg_time_to_tx (common e)).

Lemma wf_tx_part e e' lost : tx_part e' = tx_part e -> wf e lost -> wf e' lost.
Proof.
  intros Ht [Hm Hend].
  assert (HE : base e' = base e /\ tx_size e' = tx_size e /\ wait_list e' = wait_list e
    /\ wait_end e' = wait_end e /\ retransmit_list e' = retransmit_list e /\ st e' = st e
    /\ bstatus (common e') = bstatus (common e)
    /\ txsdu_avg_time_to_tx (common e') = txsdu_avg_time_to_tx (common e))
    by (unfold tx_part in Ht; split_and!; congruence).
  destruct HE as (E1 & E2 & E3 & E4 & E5 & E6 & E7 & E8). split; [|congruence]. rewrite E3, E5.
  apply (mem_shrink e e' (wait_list e) _ (retransmit_list e ++ lost)); rewrite ?E6, ?E2, ?E7, ?E8;
    try done; try apply Hm.
  apply Forall_forall. intros s Hs.
  destruct (Store.deref_ok _ _ s (m_store _ _ _ Hm) Hs) as (d & _ & Hd & _). by exists d, d.
Qed.

Lemma new_mem rx_max tx_max tp tr ts pp pb mr len e :
  new_nr_rlc_entity_am rx_max tx_max tp tr ts pp pb mr len = Ok e ->
  wf e [] /\ queue e = [] /\ tx_maxsize e = tx_max * 5.
Proof.
  intros Hnew. unfold new_nr_rlc_entity_am in Hnew. destruct (_ || _) eqn:El; [|done].
  apply res_bind_ok in Hnew as (c & Hc & Hnew). apply new_common_ok in Hc as (Havg & Htx & Hretx & _).
  assert (Hlen : len = 12 \/ len = 18).
  { apply orb_true_iff in El as [E%Z.eqb_eq|E%Z.eqb_eq]; auto. }
  injection Hnew as <-. split; [|done]. split; [|done].
  assert (Hc : Z.shiftl 1 len = 2 ^ len /\ 0 < 2 ^ len) by (by destruct Hlen as [-> | ->]).
  destruct Hc as [Hc1 Hc2].
  constructor; simpl; first [done | lia | apply Store.store_ok_empty | by constructor | apply apart_nil].
Qed.

Lemma queue_related st st' l :
  Store.related Store.same_bytes st st' l ->
  map (fun s => (Seg.so s, Store.seg_bytes st' s)) l
  = map (fun s => (Seg.so s, Store.seg_bytes st s)) l.
Proof. apply UmTx.um_queue_related. Qed.

(** An SDU from the upper layer is queued, or rejected when the buffer would
    overflow. *)
Lemma recv_sdu_mem now_us e lost buffer id :
  wf e lost -> zlen buffer <= NR_SDU_MAX ->
  exists e', AmTx.nr_rlc_entity_am_recv_sdu now_us e buffer id = Ok e' /\ wf e' lost
    /\ upper_frame e' = upper_frame e
    /\ if tx_size e + zlen buffer >? tx_maxsize e then queue e' = queue e /\ tx_size e' = tx_size e
       else queue e' = queue e ++ [(0, buffer)] /\ tx_size e' = tx_size e + zlen buffer.
Proof.
  intros Hwf Hmax. unfold AmTx.nr_rlc_entity_am_recv_sdu. cbv zeta.
  destruct (Z.leb_spec (zlen buffer) NR_SDU_MAX); [|lia]. simpl negb. cbv iota.
  set (e1 := if _ && _ then _ else _).
  assert (H1 : tx_part e1 = tx_part e /\ upper_frame e1 = upper_frame e).
  { unfold e1. by destruct (_ && _). }
  clearbody e1. destruct H1 as (Ht & Hu).
  pose proof (wf_tx_part _ _ _ Ht Hwf) as Hwf1.
  assert (HE : tx_size e1 = tx_size e /\ tx_maxsize e1 = tx_maxsize e /\ queue e1 = queue e).
  { unfold tx_part, upper_frame, base in *. split; [congruence|]. split; [congruence|].
    unfold queue. by replace (tx_list e1) with (tx_list e) by congruence;
      replace (st e1) with (st e) by congruence. }
  destruct HE as (<- & <- & <-). rewrite <- Hu. clear Ht Hu Hwf. clear e. rename e1 into e.
  destruct (tx_size e + zlen buffer >? tx_maxsize e).
  - eexists. split; [reflexivity|]. split; [by apply (wf_tx_part e)|done].
  - destruct Hwf1 as [[Hcfg Hn Hna Hst Hby Hend Htx Hretx Hsegs Hnd Huns Hnum Hap Havg] Hwe].
    destruct (Store.nr_rlc_new_sdu (st e) buffer id) as [s st'] eqn:Enew.
    destruct (Store.new_sdu_ok _ _ _ _ _ _ Hst Enew) as (Hok & Hby' & Hsz & Hso & Hfst & Hlst).
    destruct (Store.new_sdu_same_data _ _ _ _ _ _ Hst Enew) as [_ Hb].
    destruct (Store.new_sdu_header _ _ _ _ _ Enew) as (d1 & L1 & Hs1 & Hsn1 & _).
    pose proof (Store.new_sdu_related _ _ _ _ _ _ Hst Enew) as Hrel.
    assert (Hnew : ~ Seg.sdu s ∈ map Seg.sdu (tx_list e)).
    { intros Hin. apply list_elem_of_fmap in Hin as (s0 & Es & Hin).
      rewrite Forall_forall in Huns. destruct (Huns s0 Hin) as (d0 & L0 & _).
      pose proof (Store.ok_fresh_sdu _ _ Hst _ _ L0) as Hlt.
      unfold Store.nr_rlc_new_sdu in Enew. injection Enew as <- _. simpl in Es. lia. }
    rewrite Hend, Store.append_ok, res_bind_unfold.
    2: { pose proof (Store.ok_nodup _ _ Hst) as Hnn. rewrite map_app in Hnn. by apply NoDup_app in Hnn as [? _]. }
    set (c := add_bs_tx _ _).
    destruct (stamp_arrival_ok now_us c st' _ s Hok) as (st2 & Es & Hok2 & Hrel2); [left|].
    assert (Hby2 : Store.bytes st2 = Store.bytes st').
    { unfold stamp_arrival in Es. destruct (avg_time_is_on c); [|by injection Es as <-].
      unfold Store.deref in Es. rewrite L1 in Es. injection Es as <-.
      by apply (Store.update_ok st' _ s d1 _ Hok L1). }
    rewrite Es, res_bind_unfold. eexists. split; [reflexivity|].
    pose proof Hrel2 as Hrel2'. apply Forall_cons in Hrel2' as [_ Hrel2'].
    pose proof (Store.related_trans _ _ _ _ _ _ Hrel Hrel2') as Hrel3.
    pose proof (Store.related_bytes _ _ _ Hrel3) as Hrel4.
    pose proof (Store.related_bytes _ _ _ Hrel2) as Hsd.
    apply Forall_cons in Hrel2 as [(d1' & d & L1' & L & (_ & Hsd2) & Hsn2 & _) _].
    assert (d1' = d1) as -> by congruence.
    split; [split; [|exact Hwe]|split; [done|]].
    + constructor; simpl; try done.
      * by constructor; apply Hcfg.
      * rewrite <- app_assoc. simpl.
        assert (Hp : s :: (tx_list e ++ wait_list e ++ retransmit_list e ++ lost)
          ≡ₚ tx_list e ++ s :: wait_list e ++ retransmit_list e ++ lost) by solve_Permutation.
        by rewrite <- Hp.
      * lia.
      * by rewrite Store.tail_of_snoc.
      * rewrite (zsum_pdu_size_cfg e) by done. rewrite Htx, zsum_app. cbn [zsum foldr].
        unfold pdu_size at 3. lia.
      * rewrite <- app_assoc. simpl.
        assert (Hp : s :: (tx_list e ++ wait_list e ++ retransmit_list e ++ lost)
          ≡ₚ tx_list e ++ s :: wait_list e ++ retransmit_list e ++ lost) by solve_Permutation.
        rewrite <- Hp. constructor; [|by apply (seg_ok_related (st e))].
        exists d. rewrite Hfst, Hlst, Hso, Hsd2, Hs1. split_and!; try done; lia.
      * rewrite map_app. apply NoDup_app. split_and!; [done| |apply NoDup_singleton].
        intros x Hx Hx'. apply list_elem_of_singleton in Hx' as ->. done.
      * apply Forall_app. split.
        -- apply (unsent_related _ (st e)); [|done]. eapply Store.related_sub; [|exact Hrel3]. set_solver.
        -- constructor; [|done]. exists d. rewrite Hfst, Hlst, Hsn2. done.
      * apply (numbered_related _ (st e)); [|done]. eapply Store.related_sub; [|exact Hrel3]. set_solver.
      * eapply (apart_related st2 _ (s :: _)); [| |eapply (apart_new (st e)); [exact Hrel3|done|exact L|congruence|]].
        -- apply Forall_forall. intros x Hx.
           destruct (Store.deref_ok _ _ x Hok2) as (dx & _ & Lx & _); [set_solver|]. by exists dx, dx.
        -- set_solver.
        -- rewrite Forall_forall. intros x Hx Heq. destruct (Store.deref_ok _ _ x Hst Hx) as (dx & _ & Lx & _).
           pose proof (Store.ok_fresh_sdu _ _ Hst _ _ Lx) as Hlt.
           unfold Store.nr_rlc_new_sdu in Enew. injection Enew as <- _. simpl in Heq. lia.
    + split; [|done]. unfold queue. simpl. rewrite map_app. simpl. rewrite Hso.
      apply Store.related_same_data, Forall_cons in Hsd as [-> _]. rewrite Hb.
      rewrite (queue_related (st e)); [done|]. eapply Store.related_sub; [|exact Hrel4]. set_solver.
Qed.

(** A discarded SDU leaves the queue, the buffer status and the buffer. *)
Lemma discard_mem e lost id :
  wf e lost ->
  exists e', AmTx.nr_rlc_entity_am_discard_sdu e id = Ok e' /\ wf e' lost
    /\ upper_frame e' = upper_frame e
    /\ ((queue e' = queue e /\ tx_size e' = tx_size e)
        \/ exists q1 x q2, queue e = q1 ++ (0, x) :: q2 /\ queue e' = q1 ++ q2
             /\ tx_size e' = tx_size e - zlen x).
Proof.
  intros Hwf. pose proof Hwf as [Hm Hwe]. unfold AmTx.nr_rlc_entity_am_discard_sdu.
  pose proof (m_store _ _ _ Hm) as Hst.
  destruct (UmTx.find_sdu_ok (st e) (tx_list e) id _ Hst) as (before & from & E & El); [set_solver|].
  rewrite E, res_bind_unfold. destruct from as [|cur after].
  { exists e. split_and!; try done. by left. }
  destruct (Seg.is_first cur) eqn:Ef; simpl negb; [|exists e; split_and!; try done; by left].
  destruct (Seg.is_last cur) eqn:Elst; simpl orb; [|exists e; split_and!; try done; by left].
  cbv iota. destruct Hm as [Hcfg Hn Hna _ Hby Hend Htx Hretx Hsegs Hnd Huns Hnum Hap Havg].
  rewrite El in *.
  set (rest := (before ++ after) ++ wait_list e ++ retransmit_list e ++ lost).
  assert (Hp : (before ++ cur :: after) ++ wait_list e ++ retransmit_list e ++ lost ≡ₚ cur :: rest)
    by (unfold rest; solve_Permutation).
  assert (Hp' : before ++ cur :: after ≡ₚ cur :: before ++ after) by solve_Permutation.
  pose proof (Store.ok_nodup _ _ Hst) as Hnn. rewrite map_app in Hnn. apply NoDup_app in Hnn as [Hnn _].
  rewrite Hp in Hst, Hsegs. apply Forall_cons in Hsegs as [(d0 & L0 & _ & Hl0 & Hf0) Hsegs].
  rewrite Ef in Hf0. pose proof (proj1 Hl0 Elst) as Hfull.
  destruct (Store.free_segment_ok _ _ _ Hst) as (b & st' & d & Efr & Hst' & Ld & Hb & Hby' & _).
  assert (d0 = d) as -> by congruence.
  unfold Store.deref. rewrite Ld. simpl of_option. rewrite res_bind_unfold, Efr, res_bind_unfold.
  eexists. split; [reflexivity|].
  pose proof (Store.free_related _ _ _ _ _ Hst Efr) as Hrel.
  assert (Hb1 : b = true).
  { apply Hb. apply Store.nrefs_0_fresh, Forall_forall. intros x Hx. unfold rest in Hx.
    apply elem_of_app in Hx as [Hx|Hx].
    - rewrite Hp' in Hnd. simpl in Hnd. apply NoDup_cons in Hnd as [Hni _]. intros Heq.
      apply Hni. rewrite <- Heq. by apply list_elem_of_fmap_2.
    - rewrite Forall_forall in Hnum, Huns. destruct (Hnum x Hx) as (dx & Lx & Hsx). intros Heq.
      destruct (Huns cur) as (dc & Lc & _ & Hc); [set_solver|]. rewrite Ef in Hc.
      rewrite Heq in Lx. assert (dx = dc) as -> by congruence. lia. }
  rewrite Hb1 in Hby'.
  assert (Hz : Seg.size cur = Sdu.size d /\ zlen (Store.seg_bytes (st e) cur) = Sdu.size d).
  { split; [lia|]. rewrite (Store.zlen_seg_bytes _ _ cur Hst) by left. lia. }
  destruct Hz as [Hz1 Hz2]. rewrite (zsum_perm _ _ _ Hp'), zsum_cons in Htx.
  split; [split; [|exact Hwe]|split; [done|]].
  - constructor; simpl; try done.
    + by constructor; apply Hcfg.
    + lia.
    + rewrite Hend. by apply UmTx.tail_of_remove.
    + rewrite (zsum_pdu_size_cfg e) by done. rewrite Htx.
      change (pdu_size e cur) with (compute_pdu_header_size e cur + Seg.size cur). lia.
    + apply (seg_ok_related (st e)); [by apply Store.related_bytes|done].
    + rewrite Hp' in Hnd. simpl in Hnd. by apply NoDup_cons in Hnd as [_ Hnd].
    + rewrite Hp' in Huns. apply Forall_cons in Huns as [_ Huns].
      apply (unsent_related _ (st e)); [|done]. eapply Store.related_sub; [|exact Hrel].
      unfold rest. set_solver.
    + apply (numbered_related _ (st e)); [|done]. eapply Store.related_sub; [|exact Hrel].
      unfold rest. set_solver.
    + eapply apart_related; [exact Hrel| |exact Hap]. rewrite Hp. set_solver.
  - right. unfold queue. rewrite El. simpl. rewrite (queue_related (st e) st'), !map_app.
    2: { eapply Store.related_sub; [|apply Store.related_bytes, Hrel]. unfold rest. set_solver. }
    simpl. rewrite Hf0. eexists _, _, _. split; [done|]. split; [done|]. by rewrite Hz2.
Qed.

(** ** Order *)

(** Distance of the SN of a segment from TX_Next_Ack. *)
Definition sn_key (e : t) (s : Seg.t) : Z :=
  match Store.sdus (st e) !! Seg.sdu s with
  | Some d => modulus_tx e (Sdu.sn d)
  | None => 0
  end.

Definition sorted (e : t) (l : list Seg.t) : Prop := StronglySorted Z.le (map (sn_key e) l).

(** The headers have their SNs and the window did not move. *)
Lemma sn_keys_related e e' l :
  Store.related Store.same_hdr (st e) (st e') l ->
  (sn_modulus e', tx_next_ack e') = (sn_modulus e, tx_next_ack e) ->
  map (sn_key e') l = map (sn_key e) l.
Proof.
  intros Hr [= EM EA]. apply map_ext_in. intros s Hs%list_elem_of_In.
  destruct (proj1 (Forall_forall _ _) Hr s Hs) as (d & d' & L & L' & _ & Hsn & _).
  unfold sn_key. rewrite L, L', Hsn. unfold modulus_tx. by rewrite EM, EA.
Qed.

(** Re-establishment empties the entity and frees every SDU of its lists. *)
Lemma clear_mem e :
  wf e [] -> exists e', AmTx.clear_entity e = Ok e' /\ wf e' [] /\ queue e' = [] /\ tx_size e' = 0
    /\ wait_list e' = [] /\ retransmit_list e' = [] /\ Store.sdus (st e') = ∅
    /\ trace (common e') = trace (common e).
Proof.
  intros [[Hcfg Hn Hna Hst Hby Hend Htx Hretx Hsegs Hnd Huns Hnum Hap Havg] Hwe].
  unfold AmTx.clear_entity. rewrite app_nil_r in Hst.
  destruct (Store.free_list_ok (tx_list e) (st e) (wait_list e ++ retransmit_list e))
    as (st1 & E1 & Hok1); [done|].
  destruct (Store.free_list_ok (wait_list e) st1 (retransmit_list e)) as (st2 & E2 & Hok2); [done|].
  destruct (Store.free_list_ok (retransmit_list e) st2 []) as (st3 & E3 & Hok3);
    [by rewrite app_nil_r|].
  rewrite E1, res_bind_unfold, E2, res_bind_unfold, E3, res_bind_unfold.
  eexists. split; [reflexivity|]. pose proof (Store.store_ok_nil _ Hok3) as H0.
  split; [|by split_and!].
  split; [|done]. constructor; simpl; try done; try lia; [by constructor; apply Hcfg| |constructor|apply apart_nil].
  unfold Store.bytes. rewrite H0. by rewrite map_fold_empty.
Qed.

End AmTxInv.
