(* ===== verification/RlcAmControlSpec.v ===== *)
(** * RLC acknowledged mode: status reports are safe

    Whatever the bytes of a received control PDU, [process_control_pdu] returns,
    keeps the invariant of the transmitting side, and reports as delivered only
    SDUs below the ACK_SN of the PDU.  Segments can get lost: when a NACK is for
    the ACK_SN itself and the wait list is exhausted, the rest of the retransmit
    list is unlinked but not freed.  [lost] has them; it stays empty when the
    NACKs are below the ACK_SN. *)

From S2P Require Import Prelude TimeStat RlcPdu RlcSdu RlcRxManager RlcEntity RlcUm RlcUmTx.
From S2P Require Import RlcAm RlcAmStatus RlcAmControl RlcAmRx RlcAmRxSpec RlcAmTx RlcAmTxInv.

Module AmControlSpec.
Import Entity Am AmControl AmTxInv.

(** What a control PDU leaves alone. *)
Definition keep (e : t) :=
  (rx_part e, base e, wait_end e, poll_sn e, tx_maxsize e, max_retx_threshold e).

Lemma keep_fields e e' :
  keep e' = keep e -> base e' = base e /\ wait_end e' = wait_end e /\ rx_part e' = rx_part e.
Proof. unfold keep. intros. split_and!; congruence. Qed.

(** ** Freeing an acknowledged segment *)

Lemma free_acked_ok e s w r d :
  mem e (s :: w) r -> Store.sdus (st e) !! Seg.sdu s = Some d ->
  exists e', free_acked e s = Ok e' /\ mem e' w r /\ keep e' = keep e
    /\ Store.related Store.same_hdr (st e) (st e') (tx_list e ++ w ++ r)
    /\ (trace (common e') = trace (common e)
        \/ trace (common e') = trace (common e) ++ [SduSuccessfulDelivery (Sdu.upper_layer_id d)]).
Proof.
  intros Hm Hd. unfold free_acked, Store.deref. rewrite Hd. simpl of_option. rewrite res_bind_unfold.
  pose proof (m_store _ _ _ Hm) as Hst.
  assert (Hp : tx_list e ++ (s :: w) ++ r ≡ₚ s :: tx_list e ++ w ++ r) by solve_Permutation.
  rewrite Hp in Hst.
  destruct (Store.free_segment_ok _ _ _ Hst) as (b & st' & d0 & E & Hst' & Ld & _ & Hby & _).
  assert (d0 = d) as -> by congruence.
  pose proof (Store.free_related _ _ _ _ _ Hst E) as Hrel.
  rewrite E, res_bind_unfold. pose proof (m_bytes _ _ _ Hm) as Hb0.
  eexists. split; [reflexivity|]. split.
  - apply (mem_shrink e _ (s :: w) w r r); try done; try (by destruct b).
    + set_solver.
    + destruct b; simpl; lia.
    + destruct b; apply (m_retx _ _ _ Hm).
    + destruct b; apply (m_avg _ _ _ Hm).
  - destruct b; (split; [done|]); (split; [done|]); [by right|by left].
Qed.

Lemma free_acked_retx_ok e s w r d :
  mem e w (s :: r) -> Store.sdus (st e) !! Seg.sdu s = Some d ->
  exists e', free_acked_retx e s = Ok e' /\ mem e' w r /\ keep e' = keep e
    /\ Store.related Store.same_hdr (st e) (st e') (tx_list e ++ w ++ r)
    /\ (trace (common e') = trace (common e)
        \/ trace (common e') = trace (common e) ++ [SduSuccessfulDelivery (Sdu.upper_layer_id d)]).
Proof.
  intros Hm Hd. unfold free_acked_retx.
  destruct (free_acked_ok (upd_common (add_bs_retx (- (pdu_size e s))) e) s w r d) as (e' & E & H);
    [|done|by exists e'].
  apply (mem_shrink e _ w (s :: w) (s :: r) r); try done; try apply Hm.
  - assert (Hp : tx_list e ++ (s :: w) ++ r ≡ₚ tx_list e ++ w ++ s :: r) by solve_Permutation.
    rewrite Hp. apply Hm.
  - apply Forall_forall. intros x Hx.
    destruct (Store.deref_ok _ _ x (m_store _ _ _ Hm)) as (dx & _ & Hdx & _); [set_solver|].
    by exists dx, dx.
  - set_solver.
  - simpl. rewrite (m_retx _ _ _ Hm), zsum_cons. lia.
Qed.

(** ** The walk *)

Section walk.
Context (e0 : t) (ack_sn : Z).

(** The calls to the upper layer. *)
Definition acked_event (ev : rlc_event) : Prop :=
  match ev with
  | SduSuccessfulDelivery id =>
      exists p d, Store.sdus (st e0) !! p = Some d /\ Sdu.upper_layer_id d = id
        /\ sn_compare_tx e0 (Sdu.sn d) ack_sn < 0
  | MaxRetxReached => True
  | DeliverSdu _ => False
  end.

(** The segments the walk still has. *)
Definition live (c : ctl) (lost : list Seg.t) : list Seg.t :=
  tx_list e0 ++ (wait_done c ++ wait_rest c) ++ (retx_new c ++ retx_cur c) ++ lost.

(** The tail pointer the wait list will get. *)
Definition new_end (c : ctl) : option nat :=
  match end_wait c with Some p => p | None => wait_end (ent c) end.

Record ctl_ok (c : ctl) (lost : list Seg.t) : Prop := {
  k_mem : mem (ent c) (wait_done c ++ wait_rest c) ((retx_new c ++ retx_cur c) ++ lost);
  k_end : new_end c = Store.tail_of (wait_done c ++ wait_rest c);
  k_some : end_wait c <> None -> wait_rest c = [];
  k_rel : Store.related Store.same_hdr (st e0) (st (ent c)) (live c lost);
  k_keep : keep (ent c) = keep e0;
  k_trace : exists evs, trace (common (ent c)) = trace (common e0) ++ evs /\ Forall acked_event evs
}.

Lemma k_base c lost : ctl_ok c lost -> base (ent c) = base e0 /\ tx_list (ent c) = tx_list e0.
Proof.
  intros Hk. destruct (keep_fields _ _ (k_keep _ _ Hk)) as (Hb & _).
  split; [done|]. by apply base_fields in Hb as (_ & _ & _ & _ & ? & _).
Qed.

Lemma compare_base e a b : base e = base e0 -> sn_compare_tx e a b = sn_compare_tx e0 a b.
Proof.
  intros Hb. apply base_fields in Hb as (_ & HM & _ & HA & _).
  unfold sn_compare_tx, modulus_tx. by rewrite HM, HA.
Qed.

(** A segment of the walk has its SDU, and the header it had at the start. *)
Lemma k_deref c lost s :
  ctl_ok c lost -> s ∈ live c lost ->
  exists d d0, Store.deref (st (ent c)) s = Ok d /\ Store.sdus (st (ent c)) !! Seg.sdu s = Some d
    /\ Store.sdus (st e0) !! Seg.sdu s = Some d0 /\ Store.same_hdr d0 d.
Proof.
  intros Hk Hs. destruct (proj1 (Forall_forall _ _) (k_rel _ _ Hk) s Hs) as (d0 & d & L0 & L & HR).
  exists d, d0. split_and!; try done. unfold Store.deref. by rewrite L.
Qed.

Lemma live_wait c s rest lost :
  wait_rest c = s :: rest ->
  live c lost ≡ₚ s :: tx_list e0 ++ (wait_done c ++ rest) ++ (retx_new c ++ retx_cur c) ++ lost.
Proof. intros E. unfold live. rewrite E. solve_Permutation. Qed.

(** The tail pointer when the head of [wait_rest] leaves the list. *)
Lemma note_end_ok c s rest lost :
  ctl_ok c lost -> wait_rest c = s :: rest ->
  (match note_end c s with Some p => p | None => wait_end (ent c) end)
  = Store.tail_of (wait_done c ++ rest)
  /\ (note_end c s <> None -> rest = []).
Proof.
  intros Hk E. assert (Hn : end_wait c = None).
  { destruct (end_wait c) eqn:Ew; [|done]. rewrite (k_some _ _ Hk) in E by (by rewrite Ew). done. }
  pose proof (k_end _ _ Hk) as He. unfold new_end in He. rewrite Hn, E in He.
  pose proof (Store.ok_nodup _ _ (m_store _ _ _ (k_mem _ _ Hk))) as Hnd. rewrite E, !map_app in Hnd.
  apply NoDup_app in Hnd as (_ & _ & Hnd). apply NoDup_app in Hnd as (Hnd & _ & _).
  rewrite <- map_app in Hnd. pose proof (UmTx.tail_of_remove (wait_done c) s rest Hnd) as Ht.
  unfold note_end. rewrite Hn, He. destruct (decide _) as [Eq|Ne]; [|done].
  split; [done|]. intros _. destruct rest as [|x rest _] using rev_ind; [done|]. exfalso.
  rewrite app_comm_cons, app_assoc, Store.tail_of_snoc in Eq. injection Eq as Eq.
  rewrite !map_app in Hnd. simpl in Hnd. apply NoDup_app in Hnd as (_ & _ & Hnd).
  apply NoDup_cons in Hnd as [Hni _]. apply Hni. rewrite <- Eq, map_app. simpl. set_solver.
Qed.

(** A nacked segment goes to the new retransmit list. *)
Lemma nack_wait_head_ok c s rest lost :
  ctl_ok c lost -> wait_rest c = s :: rest ->
  exists c', nack_wait_head c s rest = Ok c' /\ ctl_ok c' lost
    /\ wait_rest c' = rest /\ retx_cur c' = retx_cur c /\ wait_null c' = wait_null c.
Proof.
  intros Hk E. destruct (note_end_ok c s rest lost Hk E) as [He1 He2].
  destruct (k_deref c lost s Hk) as (d & d0 & Hd & L & L0 & HR).
  { rewrite (live_wait c s rest) by done. left. }
  unfold nack_wait_head. rewrite Hd, res_bind_unfold. cbv zeta.
  set (d1 := {| d with Sdu.retx_count := Sdu.retx_count d + 1 |}).
  set (e1 := {| (ent c) with st := Store.update (st (ent c)) s d1 |}).
  set (e2 := if _ >=? _ then _ else e1).
  pose proof (k_mem _ _ Hk) as Hm. pose proof (m_store _ _ _ Hm) as Hst.
  destruct (Store.update_ok _ _ s d d1 Hst L) as [Hst1 Hby1]; [done|].
  pose proof (Store.update_related Store.same_hdr _ s d d1 _ _ Hst L ltac:(done)) as Hrel1.
  assert (H2 : keep e2 = keep (ent c) /\ st e2 = Store.update (st (ent c)) s d1
    /\ tx_size e2 = tx_size (ent c) /\ bstatus (common e2) = bstatus (common (ent c))
    /\ txsdu_avg_time_to_tx (common e2) = txsdu_avg_time_to_tx (common (ent c))
    /\ exists evs, trace (common e2) = trace (common (ent c)) ++ evs /\ Forall acked_event evs).
  { unfold e2. destruct (_ >=? _); split_and!; try done.
    - exists [MaxRetxReached]. split; [done|]. by constructor.
    - exists []. split; [by rewrite app_nil_r|constructor]. }
  clearbody e2. destruct H2 as (K2 & S2 & T2 & B2 & A2 & Tr2).
  eexists. split; [reflexivity|]. split; [|done].
  destruct (keep_fields _ _ K2) as (Kb & Kw & _). destruct (k_base c lost Hk) as [_ Etx].
  assert (Hp : tx_list (ent c) ++ (wait_done c ++ wait_rest c) ++ (retx_new c ++ retx_cur c) ++ lost
    ≡ₚ tx_list (ent c) ++ (wait_done c ++ rest) ++ ((retx_new c ++ [s]) ++ retx_cur c) ++ lost).
  { rewrite E. solve_Permutation. }
  constructor; simpl.
  - assert (Hsh : forall e3, e3 = upd_common (add_bs_retx (compute_pdu_header_size e2 s + Seg.size s)) e2 ->
      mem e3 (wait_done c ++ rest) (((retx_new c ++ [s]) ++ retx_cur c) ++ lost)); [|by apply Hsh].
    intros e3 ->.
    apply (mem_shrink (ent c) _ (wait_done c ++ wait_rest c) _ ((retx_new c ++ retx_cur c) ++ lost));
      try done; rewrite <- ?Hp.
    + simpl. by rewrite S2.
    + simpl. rewrite S2. eapply Store.related_sub; [|exact Hrel1]. intros x. by rewrite Hp.
    + rewrite E. set_solver.
    + simpl. rewrite S2, T2, Hby1. apply Hm.
    + simpl. by rewrite B2.
    + simpl. rewrite B2, (m_retx _ _ _ Hm). rewrite !zsum_app. simpl.
      rewrite <- (pdu_size_cfg (ent c) e2 s) by (by apply base_fields in Kb as [? _]).
      change (compute_pdu_header_size e2 s + Seg.size s) with (pdu_size e2 s). lia.
    + simpl. rewrite A2. apply Hm.
  - unfold new_end. simpl. rewrite Kw. exact He1.
  - exact He2.
  - unfold live. simpl. rewrite S2. apply (Store.related_trans _ _ (st (ent c))); [apply _| |].
    + eapply Store.related_sub; [|exact (k_rel _ _ Hk)]. intros x. unfold live. rewrite <- Etx. by rewrite Hp.
    + eapply Store.related_sub; [|exact Hrel1]. intros x. rewrite <- Etx. by rewrite Hp.
  - rewrite <- (k_keep _ _ Hk), <- K2. done.
  - destruct (k_trace _ _ Hk) as (evs & Et & Hev). destruct Tr2 as (evs2 & Et2 & Hev2).
    exists (evs ++ evs2). rewrite Et2, Et, app_assoc. split; [done|]. by apply Forall_app.
Qed.

(** A segment below the ACK_SN leaves the wait list or the retransmit list. *)
Lemma ack_event_ok c lost s e' :
  ctl_ok c lost -> s ∈ live c lost ->
  (forall d, Store.sdus (st (ent c)) !! Seg.sdu s = Some d ->
     sn_compare_tx (ent c) (Sdu.sn d) ack_sn < 0
     /\ (trace (common e') = trace (common (ent c))
         \/ trace (common e')
            = trace (common (ent c)) ++ [SduSuccessfulDelivery (Sdu.upper_layer_id d)])) ->
  exists evs, trace (common e') = trace (common e0) ++ evs /\ Forall acked_event evs.
Proof.
  intros Hk Hs Ht. destruct (k_trace _ _ Hk) as (evs & Et & Hev).
  destruct (k_deref c lost s Hk Hs) as (d & d0 & _ & L & L0 & _ & Hsn & Hid).
  destruct (Ht d L) as [Hlt [E|E]]; rewrite E, Et; [by exists evs|].
  exists (evs ++ [SduSuccessfulDelivery (Sdu.upper_layer_id d)]). rewrite app_assoc.
  split; [done|]. apply Forall_app. split; [done|]. constructor; [|done].
  exists (Seg.sdu s), d0. split_and!; [done|congruence|]. destruct (k_base _ _ Hk) as [Hb _].
  by rewrite <- Hsn, <- (compare_base (ent c)).
Qed.

Lemma free_wait_ok c s rest lost d :
  ctl_ok c lost -> wait_rest c = s :: rest -> Store.sdus (st (ent c)) !! Seg.sdu s = Some d ->
  sn_compare_tx (ent c) (Sdu.sn d) ack_sn < 0 ->
  exists e', free_acked (ent c) s = Ok e'
    /\ ctl_ok {| c with ent := e'; wait_rest := rest; end_wait := note_end c s |} lost.
Proof.
  intros Hk E L Hlt. destruct (note_end_ok c s rest lost Hk E) as [He1 He2].
  pose proof (k_mem _ _ Hk) as Hm. destruct (k_base _ _ Hk) as [_ Etx].
  assert (Hm' : mem (ent c) (s :: wait_done c ++ rest) ((retx_new c ++ retx_cur c) ++ lost)).
  { assert (Hp : wait_done c ++ wait_rest c ≡ₚ s :: wait_done c ++ rest) by (rewrite E; solve_Permutation).
    by rewrite <- Hp. }
  destruct (free_acked_ok _ _ _ _ _ Hm' L) as (e' & Ef & Hme & Hke & Hrel & Htr).
  exists e'. split; [done|]. destruct (keep_fields _ _ Hke) as (_ & Hwe & _).
  constructor; simpl; try done.
  - unfold new_end. simpl. by rewrite Hwe.
  - unfold live. simpl. apply (Store.related_trans _ _ (st (ent c))); [apply _| |by rewrite <- Etx].
    eapply Store.related_sub; [|exact (k_rel _ _ Hk)]. rewrite (live_wait c s rest) by done. set_solver.
  - by rewrite Hke, (k_keep _ _ Hk).
  - apply (ack_event_ok c lost s e'); [done| |].
    + rewrite (live_wait c s rest) by done. left.
    + intros d' L'. assert (d' = d) as -> by congruence. done.
Qed.

Lemma free_retx_ok c s rest lost d :
  ctl_ok c lost -> retx_cur c = s :: rest -> Store.sdus (st (ent c)) !! Seg.sdu s = Some d ->
  sn_compare_tx (ent c) (Sdu.sn d) ack_sn < 0 ->
  exists e', free_acked_retx (ent c) s = Ok e' /\ ctl_ok {| c with ent := e'; retx_cur := rest |} lost.
Proof.
  intros Hk E L Hlt. pose proof (k_mem _ _ Hk) as Hm. destruct (k_base _ _ Hk) as [_ Etx].
  assert (Hp : (retx_new c ++ retx_cur c) ++ lost ≡ₚ s :: (retx_new c ++ rest) ++ lost)
    by (rewrite E; solve_Permutation).
  assert (Hm' : mem (ent c) (wait_done c ++ wait_rest c) (s :: (retx_new c ++ rest) ++ lost))
    by (by rewrite <- Hp).
  destruct (free_acked_retx_ok _ _ _ _ _ Hm' L) as (e' & Ef & Hme & Hke & Hrel & Htr).
  exists e'. split; [done|]. destruct (keep_fields _ _ Hke) as (_ & Hwe & _).
  constructor; simpl; try done.
  - unfold new_end. simpl. rewrite Hwe. apply (k_end _ _ Hk).
  - apply (k_some _ _ Hk).
  - unfold live. simpl. apply (Store.related_trans _ _ (st (ent c))); [apply _| |by rewrite <- Etx].
    eapply Store.related_sub; [|exact (k_rel _ _ Hk)]. unfold live. rewrite Hp. set_solver.
  - by rewrite Hke, (k_keep _ _ Hk).
  - apply (ack_event_ok c lost s e'); [done| |].
    + unfold live. rewrite Hp. set_solver.
    + intros d' L'. assert (d' = d) as -> by congruence. done.
Qed.

(** Rounds left in the walk. *)
Definition measure (c : ctl) : nat :=
  (length (wait_rest c) + length (retx_cur c) + if wait_null c then 0 else 1)%nat.

(** The outcome of a round for the nack [n]: nothing is lost when the NACK is
    below the ACK_SN. *)
Definition round_ok (c : ctl) (lost : list Seg.t) (n : Z * Z * Z) (w : walk) : Prop :=
  match w with
  | NextPdu c' => ctl_ok c' lost /\ (measure c' < measure c)%nat
  | DoneNack c' => ctl_ok c' lost
  | ListsOver c' => exists lost', ctl_ok c' lost' /\ (sn_compare_tx e0 n.1.1 ack_sn < 0 -> lost' = lost)
  end.

(** Moving nodes within the walk. *)
Lemma ctl_ok_move c c' lost lost' :
  ctl_ok c lost -> ent c' = ent c -> end_wait c' = end_wait c ->
  wait_done c' ++ wait_rest c' = wait_done c ++ wait_rest c ->
  (end_wait c <> None -> wait_rest c' = []) ->
  (retx_new c' ++ retx_cur c') ++ lost' ≡ₚ (retx_new c ++ retx_cur c) ++ lost ->
  ctl_ok c' lost'.
Proof.
  intros [H1 H2 H3 H4 H5 H6] Ee Ew Ewt Hs Hr. constructor; rewrite ?Ee; try done.
  - by rewrite Hr, Ewt.
  - unfold new_end in *. by rewrite Ew, Ee, Ewt.
  - by rewrite Ew.
  - unfold live. eapply Store.related_sub; [|exact H4]. unfold live. rewrite Ewt. by rewrite Hr.
Qed.

Lemma wait_head_ok c s rest lost n :
  ctl_ok c lost -> cur_wait c = s :: rest ->
  exists w, process_wait_list_head c s rest ack_sn n = Ok w /\ round_ok c lost n w.
Proof.
  intros Hk Ec. destruct n as [[nsn nso] nend].
  assert (HE : wait_null c = false /\ wait_rest c = s :: rest).
  { unfold cur_wait in Ec. by destruct (wait_null c). }
  destruct HE as [Hnull E].
  destruct (k_deref c lost s Hk) as (d & d0 & Hd & L & L0 & HR).
  { rewrite (live_wait c s rest) by done. left. }
  unfold process_wait_list_head. rewrite Hd, res_bind_unfold.
  destruct (_ && so_overlap _ _ _ _).
  { destruct (nack_wait_head_ok c s rest lost Hk E) as (c' & E' & Hk' & R1 & R2 & R3).
    rewrite E'. eexists. split; [reflexivity|]. split; [done|]. unfold measure.
    rewrite R1, R2, R3, E, Hnull. simpl. lia. }
  destruct (_ || _); [by eexists|].
  destruct (Z.ltb_spec (sn_compare_tx (ent c) (Sdu.sn d) ack_sn) 0) as [Hlt|Hge].
  { destruct (free_wait_ok c s rest lost d Hk E L Hlt) as (e' & Ef & Hk').
    rewrite Ef. eexists. split; [reflexivity|]. split; [done|]. unfold measure. simpl.
    rewrite E, Hnull. simpl. lia. }
  destruct (_ >? _); (eexists; split; [reflexivity|]); split.
  - apply (ctl_ok_move c _ lost); try done. apply (k_some _ _ Hk).
  - unfold measure. simpl. rewrite Hnull. lia.
  - apply (ctl_ok_move c _ lost); try done; simpl; [by rewrite E, <- app_assoc|].
    intros Hne. rewrite (k_some _ _ Hk Hne) in E. done.
  - unfold measure. simpl. rewrite E, Hnull. simpl. lia.
Qed.

Lemma retx_head_ok c s rest lost n :
  ctl_ok c lost -> retx_cur c = s :: rest ->
  exists w, process_retransmit_list_head c s rest ack_sn n = Ok w /\ round_ok c lost n w.
Proof.
  intros Hk E. destruct n as [[nsn nso] nend].
  destruct (k_deref c lost s Hk) as (d & d0 & Hd & L & L0 & HR).
  { unfold live. rewrite E. set_solver. }
  assert (Hkeep : ctl_ok {| c with retx_new := retx_new c ++ [s]; retx_cur := rest |} lost
    /\ (measure {| c with retx_new := retx_new c ++ [s]; retx_cur := rest |} < measure c)%nat).
  { split; [|unfold measure; simpl; rewrite E; simpl; lia].
    apply (ctl_ok_move c _ lost); try done; [apply (k_some _ _ Hk)|]. simpl. rewrite E. solve_Permutation. }
  unfold process_retransmit_list_head. rewrite Hd, res_bind_unfold.
  destruct (_ && so_overlap _ _ _ _); [by eexists|].
  destruct (_ || _) eqn:Ecmp; [by eexists|].
  destruct (Z.ltb_spec (sn_compare_tx (ent c) (Sdu.sn d) ack_sn) 0) as [Hlt|Hge].
  { destruct (free_retx_ok c s rest lost d Hk E L Hlt) as (e' & Ef & Hk').
    rewrite Ef. eexists. split; [reflexivity|]. split; [done|]. unfold measure. simpl. rewrite E. simpl. lia. }
  destruct (cur_wait c); [|by eexists].
  eexists. split; [reflexivity|]. exists (retx_cur c ++ lost). split.
  - apply (ctl_ok_move c _ lost); try done; [apply (k_some _ _ Hk)|]. simpl. by rewrite app_nil_r, <- app_assoc.
  - simpl. intros Hn. exfalso. apply orb_false_iff in Ecmp as [Ecmp _].
    rewrite Z.gtb_ltb in Ecmp. apply Z.ltb_ge in Ecmp. destruct (k_base _ _ Hk) as [Hb _].
    rewrite !(compare_base (ent c)) in * by done. unfold sn_compare_tx in *. lia.
Qed.

Lemma next_pdu_ok c lost n :
  ctl_ok c lost -> exists w, process_next_pdu c ack_sn n = Ok w /\ round_ok c lost n w.
Proof.
  intros Hk. unfold process_next_pdu. destruct (cur_wait c) as [|w wr] eqn:Ew.
  - destruct (retx_cur c) as [|r rr] eqn:Er; [|by apply retx_head_ok].
    eexists. split; [reflexivity|]. by exists lost.
  - destruct (retx_cur c) as [|r rr] eqn:Er; [by apply wait_head_ok|].
    assert (HE : wait_rest c = w :: wr) by (unfold cur_wait in Ew; by destruct (wait_null c)).
    destruct (k_deref c lost w Hk) as (dw & _ & Hdw & _).
    { rewrite (live_wait c w wr) by done. left. }
    destruct (k_deref c lost r Hk) as (dr & _ & Hdr & _).
    { unfold live. rewrite Er. set_solver. }
    rewrite Hdw, res_bind_unfold, Hdr, res_bind_unfold. cbv zeta.
    destruct (_ || _); [by apply wait_head_ok|by apply retx_head_ok].
Qed.

(** The walk for one NACK ends. *)
Lemma process_nack_ok fuel n : forall c lost,
  ctl_ok c lost -> (measure c < fuel)%nat ->
  exists b c' lost', process_nack fuel c ack_sn n = Ok (b, c') /\ ctl_ok c' lost'
    /\ (sn_compare_tx e0 n.1.1 ack_sn < 0 -> lost' = lost).
Proof.
  induction fuel as [|fuel IH]; intros c lost Hk Hf; [lia|].
  destruct (next_pdu_ok c lost n Hk) as (w & E & Hw). cbn [process_nack]. rewrite E, res_bind_unfold.
  destruct w as [c'|c'|c']; simpl in Hw.
  - destruct Hw as [Hk' Hlt]. destruct (IH c' lost Hk') as (b & c2 & lost2 & E2 & H2); [lia|]. eauto 10.
  - eauto 10.
  - destruct Hw as (lost' & Hk' & Hl). eauto 10.
Qed.

End walk.

(** ** Reading the control PDU *)

(** The read that checks and the read that does not agree; every NACK takes at
    least one byte. *)
Definition nack_read (e : t) (d : Codec.nr_rlc_pdu_decoder_t)
    (r : option (nack_block * Codec.nr_rlc_pdu_decoder_t)) : Prop :=
  match r with
  | None => True
  | Some (b, d') =>
      Codec.dec_wf d' /\ Codec.dec_byte d < Codec.dec_byte d' <= zlen (Codec.dec_buffer d)
      /\ Codec.dec_buffer d' = Codec.dec_buffer d /\ decode_nack e d = Ok (b, d')
  end.

Definition ack_read (e : t) (d : Codec.nr_rlc_pdu_decoder_t)
    (r : option (Z * bool * Codec.nr_rlc_pdu_decoder_t)) : Prop :=
  match r with
  | None => True
  | Some (ack_sn, e1, d') =>
      Codec.dec_wf d' /\ 0 <= Codec.dec_byte d' <= zlen (Codec.dec_buffer d) /\ 0 <= ack_sn < sn_modulus e
      /\ Codec.dec_buffer d' = Codec.dec_buffer d /\ decode_ack e d = Ok (ack_sn, e1, d')
  end.

(** Close the goal for a block whose reads [G..] are known. *)
Ltac block_read :=
  eexists; split; [reflexivity|]; cbv iota beta;
  repeat match goal with
  | W : Codec.dec_wf ?d |- _ => 
      lazymatch goal with
      | _ : 0 <= Codec.dec_bit d < 8 |- _ => fail
      | _ => pose proof (Codec.dwf_bit _ W)
      end
  end;
  repeat match goal with
  | B : Codec.dec_buffer ?d' = Codec.dec_buffer ?d |- _ => rewrite B in *; clear B
  end;
  split; [done|]; split; [lia|].

Lemma decode_nack_ok e d :
  AmRxSpec.cfg e -> Codec.dec_wf d ->
  exists r, decode_nack_checked e d = Ok r /\ nack_read e d r.
Proof.
  intros [Hlen _ _] W0. unfold decode_nack_checked, nack_read, decode_nack.
  destruct Hlen as [Hl|Hl]; rewrite Hl; cbn [Z.eqb Pos.eqb];
    checked_step vsn d1 W1 Hsn P1; checked_step e1 d2 W2 He1 P2; checked_step e2 d3 W3 He2 P3;
    checked_step e3 d4 W4 He3 P4; checked_step rr d5 W5 Hrr P5; cbv beta;
    unfold decode_so_checked; destruct (e2 =? 0) eqn:E2; cbn [negb].
  all: try (checked_step s d6 W6 Hs P6; checked_step f d7 W7 Hf P7; cbv beta).
  all: destruct (e3 =? 0) eqn:E3; cbn [negb]; cbv beta zeta.
  all: try (checked_step rg d8 W8 Hrg P8; cbv beta).
  all: block_read; split; [done|].
  all: cbn [Codec.get_fields].
  all: repeat (first [rewrite G | rewrite G0 | rewrite G1 | rewrite G2 | rewrite G3 | rewrite G4
    | rewrite G5 | rewrite G6]; rewrite ?res_bind_unfold; cbv beta iota).
  all: rewrite ?E2, ?E3; cbn [negb]; unfold mret, res_ret; rewrite ?res_bind_unfold; cbv iota beta.
  all: repeat (first [rewrite G4 | rewrite G5 | rewrite G6]; rewrite ?res_bind_unfold; cbv beta iota).
  all: reflexivity.
Qed.

Lemma decode_ack_ok e d :
  AmRxSpec.cfg e -> Codec.dec_wf d -> exists r, decode_ack_checked e d = Ok r /\ ack_read e d r.
Proof.
  intros [Hlen Hmod _] W0. unfold decode_ack_checked, ack_read, decode_ack. rewrite Hmod.
  destruct Hlen as [Hl|Hl]; rewrite Hl; cbn [Z.eqb Pos.eqb];
    checked_step dc d1 W1 Hdc P1; checked_step cpt d2 W2 Hcpt P2; cbv beta;
    (destruct (negb (cpt =? 0)); [eexists; split; [reflexivity|done]|]);
    checked_step vsn d3 W3 Hsn P3; checked_step e1 d4 W4 He1 P4; checked_step rr d5 W5 Hrr P5; cbv beta;
    (eexists; split; [reflexivity|]); cbv iota beta;
    (split; [done|]); (split; [pose proof (Codec.dwf_byte _ W5); pose proof (Codec.dwf_bit _ W5);
      rewrite <- B, <- B0, <- B1, <- B2; lia|]); (split; [done|]); (split; [congruence|]);
    cbn [Codec.get_fields];
    rewrite G, res_bind_unfold; cbv beta iota; rewrite G0, res_bind_unfold; cbv beta iota;
    rewrite G1, res_bind_unfold; cbv beta iota; rewrite G2, res_bind_unfold; cbv beta iota;
    rewrite G3, res_bind_unfold; reflexivity.
Qed.

(** The validation ends. *)
Lemma validate_nacks_ok e ack_sn fuel : forall d e1,
  AmRxSpec.cfg e -> Codec.dec_wf d ->
  0 <= zlen (Codec.dec_buffer d) - Codec.dec_byte d < Z.of_nat fuel ->
  exists b, validate_nacks fuel e d ack_sn e1 = Ok b.
Proof.
  induction fuel as [|fuel IH]; intros d e1 Hc W Hf; [lia|].
  cbn [validate_nacks]. destruct e1; [|by eexists].
  destruct (decode_nack_ok e d Hc W) as (r & E & Hr). rewrite E, res_bind_unfold.
  destruct r as [[b d']|]; [|by eexists]. destruct Hr as (W' & Hlt & Hbuf & _).
  destruct (block_valid e ack_sn b); [|by eexists]. apply IH; try done. rewrite Hbuf. lia.
Qed.

(** ** All the NACKs *)

(** The blocks of the PDU, and whether their NACKs are below the ACK_SN. *)
Fixpoint blocks (fuel : nat) (e : t) (d : Codec.nr_rlc_pdu_decoder_t) (e1 : bool) : list nack_block :=
  match fuel, e1 with
  | S fuel', true =>
      match decode_nack_checked e d with
      | Ok (Some (b, d')) => b :: blocks fuel' e d' (n_e1 b)
      | _ => []
      end
  | _, _ => []
  end.

Definition below (e : t) (ack_sn : Z) (b : nack_block) : Prop :=
  forall i, 0 <= i < n_range b -> sn_compare_tx e (nack_at e b i).1.1 ack_sn < 0.

Lemma process_range_ok e0 ack_sn b k : forall i c lost,
  ctl_ok e0 ack_sn c lost -> 0 <= i ->
  exists c' lost', process_range k i c ack_sn b = Ok c' /\ ctl_ok e0 ack_sn c' lost'
    /\ (below e0 ack_sn b -> i + Z.of_nat k <= Z.max i (n_range b) -> lost' = lost).
Proof.
  induction k as [|k IH]; intros i c lost Hk Hi; [by exists c, lost|].
  cbn [process_range].
  destruct (process_nack_ok e0 ack_sn (walk_fuel c) (nack_at (ent c) b i) c lost Hk)
    as (o & c1 & lost1 & E & Hk1 & Hl1).
  { unfold measure, walk_fuel. destruct (wait_null c); lia. }
  rewrite E, res_bind_unfold.
  assert (Hn : nack_at (ent c) b i = nack_at e0 b i).
  { destruct (k_base _ _ _ _ Hk) as [Hb _]. apply base_fields in Hb as (_ & HM & _).
    unfold nack_at. by rewrite HM. }
  rewrite Hn in Hl1.
  destruct o.
  - exists c1, lost1. split_and!; try done. intros Hb Hr. apply Hl1, Hb. lia.
  - destruct (IH (i + 1) c1 lost1 Hk1) as (c2 & lost2 & E2 & Hk2 & Hl2); [lia|].
    exists c2, lost2. split_and!; try done. intros Hb Hr. rewrite Hl2 by (done || lia). apply Hl1, Hb. lia.
Qed.

Lemma stop_poll_ctl e0 ack_sn c lost b :
  ctl_ok e0 ack_sn c lost ->
  ctl_ok e0 ack_sn {| c with ent := stop_poll_on_nack (ent c) b |} lost.
Proof.
  intros Hk. unfold stop_poll_on_nack. destruct (_ && _); [|by destruct c].
  destruct Hk as [H1 H2 H3 H4 H5 H6]. constructor; try done.
  apply (mem_shrink (ent c) _ (wait_done c ++ wait_rest c) _ ((retx_new c ++ retx_cur c) ++ lost));
    try done; try apply H1.
  apply Forall_forall. intros s Hs. destruct (Store.deref_ok _ _ s (m_store _ _ _ H1) Hs) as (d & _ & Hd & _).
  by exists d, d.
Qed.

Lemma process_nacks_ok e0 ack_sn fuel : forall d e1 c lost,
  ctl_ok e0 ack_sn c lost -> AmRxSpec.cfg e0 -> Codec.dec_wf d ->
  validate_nacks fuel e0 d ack_sn e1 = Ok true ->
  exists c' lost', process_nacks fuel c d ack_sn e1 = Ok c' /\ ctl_ok e0 ack_sn c' lost'
    /\ (Forall (below e0 ack_sn) (blocks fuel e0 d e1) -> lost' = lost).
Proof.
  induction fuel as [|fuel IH]; intros d e1 c lost Hk Hc W Hv; [done|].
  cbn [validate_nacks process_nacks blocks] in *. destruct e1; [|by exists c, lost].
  destruct (decode_nack_ok e0 d Hc W) as (r & E & Hr). rewrite E, res_bind_unfold in Hv. rewrite E.
  destruct r as [[b d']|]; [|done]. destruct Hr as (W' & _ & _ & Hdec).
  assert (Hl : sn_field_length (ent c) = sn_field_length e0).
  { destruct (k_base _ _ _ _ Hk) as [Hb _]. by apply base_fields in Hb as [? _]. }
  assert (Hdec' : decode_nack (ent c) d = Ok (b, d')) by (unfold decode_nack in *; by rewrite Hl).
  rewrite Hdec', res_bind_unfold.
  destruct (process_range_ok e0 ack_sn b (Z.to_nat (n_range b)) 0 c lost Hk) as (c1 & lost1 & E1 & Hk1 & Hl1);
    [lia|].
  rewrite E1, res_bind_unfold. destruct (block_valid e0 ack_sn b); [|done].
  destruct (IH d' (n_e1 b) _ lost1 (stop_poll_ctl _ _ _ _ b Hk1) Hc W' Hv) as (c2 & lost2 & E2 & Hk2 & Hl2).
  exists c2, lost2. split; [exact E2|]. split; [done|]. intros Hb. apply Forall_cons in Hb as [Hb Hbs].
  rewrite Hl2 by done. apply Hl1; [done|lia].
Qed.

(** ** The ACK *)

Lemma ack_wait_ok e0 ack_sn l : forall c lost,
  ctl_ok e0 ack_sn c lost -> l = [] \/ wait_rest c = l ->
  exists c', ack_wait c l ack_sn = Ok c' /\ ctl_ok e0 ack_sn c' lost /\ retx_cur c' = retx_cur c.
Proof.
  induction l as [|s l IH]; intros c lost Hk Hl; [by exists c|].
  destruct Hl as [|E]; [done|]. cbn [ack_wait].
  destruct (k_deref _ _ c lost s Hk) as (d & d0 & Hd & L & _).
  { rewrite (live_wait e0 c s l) by done. left. }
  rewrite Hd, res_bind_unfold. destruct (Z.ltb_spec (sn_compare_tx (ent c) (Sdu.sn d) ack_sn) 0); [|by exists c].
  destruct (free_wait_ok _ _ c s l lost d Hk E L) as (e' & Ef & Hk'); [done|].
  rewrite Ef, res_bind_unfold. apply (IH _ lost Hk'). by right.
Qed.

Lemma ack_retx_ok e0 ack_sn l : forall c lost,
  ctl_ok e0 ack_sn c lost -> retx_cur c = l ->
  exists c', ack_retx c l ack_sn = Ok c' /\ ctl_ok e0 ack_sn c' lost.
Proof.
  induction l as [|s l IH]; intros c lost Hk E; [by exists c|]. cbn [ack_retx].
  destruct (k_deref _ _ c lost s Hk) as (d & d0 & Hd & L & _).
  { unfold live. rewrite E. set_solver. }
  rewrite Hd, res_bind_unfold. destruct (Z.ltb_spec (sn_compare_tx (ent c) (Sdu.sn d) ack_sn) 0); [|by exists c].
  destruct (free_retx_ok _ _ c s l lost d Hk E L) as (e' & Ef & Hk'); [done|].
  rewrite Ef, res_bind_unfold. by apply (IH _ lost Hk').
Qed.

Lemma min_with_head_ok e l v :
  Forall (numbered (sn_modulus e) (st e)) l -> 0 <= v < sn_modulus e ->
  exists v', min_with_head e l v = Ok v' /\ 0 <= v' < sn_modulus e.
Proof.
  intros Hl Hv. destruct l as [|s l]; [by exists v|]. apply Forall_cons in Hl as [(d & L & Hs) _].
  unfold min_with_head, Store.deref. rewrite L. simpl of_option. rewrite res_bind_unfold.
  eexists. split; [reflexivity|]. by destruct (_ <? _).
Qed.

(** What a control PDU leaves alone, the start of the window included in what
    it changes. *)
Definition frame (e : t) :=
  (rx_part e, sn_field_length e, sn_modulus e, window_size e, tx_next e, tx_list e, tx_end e,
   poll_sn e, tx_maxsize e, max_retx_threshold e).

Lemma finish_ok e0 ack_sn c lost :
  ctl_ok e0 ack_sn c lost -> 0 <= ack_sn < sn_modulus e0 ->
  exists e', finish_control c ack_sn = Ok e' /\ wf e' lost /\ frame e' = frame e0
    /\ trace (common e') = trace (common (ent c)).
Proof.
  intros Hk Ha. unfold finish_control. cbv zeta.
  destruct (k_base _ _ _ _ Hk) as [Hb _]. apply base_fields in Hb as (_ & HM & _).
  pose proof (k_mem _ _ _ _ Hk) as Hm. pose proof (m_numbered _ _ _ Hm) as Hnum.
  apply Forall_app in Hnum as [Hn1 Hn2]. apply Forall_app in Hn2 as [Hn2 _].
  set (e1 := {| (ent c) with wait_list := _; retransmit_list := _; wait_end := _ |}).
  assert (H1 : st e1 = st (ent c) /\ sn_modulus e1 = sn_modulus (ent c) /\ tx_next e1 = tx_next (ent c)
    /\ wait_list e1 = wait_done c ++ wait_rest c /\ retransmit_list e1 = retx_new c ++ retx_cur c
    /\ wait_end e1 = new_end c /\ trace (common e1) = trace (common (ent c))
    /\ base e1 = base (ent c) /\ frame e1 = frame (ent c) /\ tx_size e1 = tx_size (ent c)
    /\ common e1 = common (ent c)) by done.
  clearbody e1. destruct H1 as (E1 & E2 & E3 & E4 & E5 & E6 & E7 & E8 & E9 & E10 & E11).
  destruct (min_with_head_ok e1 (wait_list e1) (tx_next e1)) as (v1 & -> & Hv1).
  { by rewrite E1, E2, E4. }
  { rewrite E2, E3. apply Hm. }
  rewrite res_bind_unfold.
  destruct (min_with_head_ok e1 (retransmit_list e1) v1) as (v2 & -> & Hv2); [by rewrite E1, E2, E5|done|].
  rewrite res_bind_unfold. set (v := if _ <? _ then ack_sn else v2).
  assert (Hv : 0 <= v < sn_modulus (ent c)).
  { unfold v. rewrite E2 in Hv2. rewrite HM in *. destruct (_ <? _); lia. }
  clearbody v. eexists. split; [reflexivity|]. split; [split|].
  - simpl. rewrite E4, E5.
    destruct Hm as [M1 M2 M3 M4 M5 M6 M7 M8 M9 M10 M11 M12 M13].
    unfold base in E8. injection E8 as B1 B2 B3 B4 B5 B6 B7.
    constructor; simpl; rewrite ?E1, ?B2, ?B4, ?B6, ?B7, ?E10, ?E11; try done.
    + destruct M1 as [C1 C2 C3]. constructor; simpl; by rewrite ?B1, ?B2, ?B3.
    + rewrite M7. symmetry. apply zsum_pdu_size_cfg. done.
    + rewrite M8. symmetry. apply zsum_pdu_size_cfg. done.
  - simpl. rewrite E6, E4. apply (k_end _ _ _ _ Hk).
  - split; [|exact E7]. transitivity (frame e1); [done|]. rewrite E9.
    pose proof (k_keep _ _ _ _ Hk) as K. unfold keep, base in K. unfold frame. congruence.
Qed.

(** ** The control PDU *)

(** All the NACKs of the PDU are below its ACK_SN. *)
Definition nacks_below (e : t) (buffer : list Z) : Prop :=
  forall ack_sn e1 d, decode_ack_checked e (Codec.nr_rlc_pdu_decoder_init buffer) = Ok (Some (ack_sn, e1, d)) ->
    Forall (below e ack_sn) (blocks (S (length buffer)) e d e1).

(** The statistics have no influence. *)
Lemma nacks_below_stats f e buffer : nacks_below e buffer -> nacks_below (upd_common f e) buffer.
Proof.
  intros H ack_sn e1 d Hd. specialize (H ack_sn e1 d Hd).
  assert (Hb : forall fuel d e1, blocks fuel (upd_common f e) d e1 = blocks fuel e d e1); [|by rewrite Hb].
  clear. intros fuel. induction fuel as [|fuel IH]; intros d [|]; try done. simpl.
  change (decode_nack_checked (upd_common f e) d) with (decode_nack_checked e d).
  destruct (decode_nack_checked e d) as [[[b d']|]|]; try done. by rewrite IH.
Qed.

(** The calls to the upper layer: delivered SDUs are below the ACK_SN. *)
Definition reported (e : t) (buffer : list Z) (evs : list rlc_event) : Prop :=
  evs = [] \/ exists ack_sn e1 d,
    decode_ack_checked e (Codec.nr_rlc_pdu_decoder_init buffer) = Ok (Some (ack_sn, e1, d))
    /\ Forall (acked_event e ack_sn) evs.

Lemma ctl_start e lost ack_sn start :
  wf e lost ->
  ctl_ok e ack_sn
    {| ent := {| e with t_poll_retransmit_start := start |}; wait_done := []; wait_rest := wait_list e;
       wait_null := false; end_wait := None; retx_new := []; retx_cur := retransmit_list e |} lost.
Proof.
  intros [Hm Hwe].
  assert (Hrel : Store.related Store.same_hdr (st e) (st e)
    (tx_list e ++ wait_list e ++ retransmit_list e ++ lost)).
  { apply Forall_forall. intros s Hs.
    destruct (Store.deref_ok _ _ s (m_store _ _ _ Hm) Hs) as (d & _ & Hd & _). by exists d, d. }
  constructor; simpl; try done.
  - apply (mem_shrink e _ (wait_list e) _ (retransmit_list e ++ lost)); try done; apply Hm.
  - exists []. split; [by rewrite app_nil_r|constructor].
Qed.

Lemma process_control_ok e lost buffer :
  wf e lost ->
  exists e' lost' evs, process_control_pdu e buffer = Ok e' /\ wf e' lost' /\ frame e' = frame e
    /\ (nacks_below e buffer -> lost' = lost)
    /\ trace (common e') = trace (common e) ++ evs /\ reported e buffer evs.
Proof.
  intros Hwf. pose proof Hwf as [Hm _]. pose proof (m_cfg _ _ _ Hm) as Hc.
  unfold process_control_pdu, validate_control_pdu.
  destruct (decode_ack_ok e (Codec.nr_rlc_pdu_decoder_init buffer) Hc (Codec.decoder_init_wf _))
    as (r & E & Hr).
  assert (Hdisc : exists e' lost' evs, Ok e = Ok e' /\ wf e' lost' /\ frame e' = frame e
    /\ (nacks_below e buffer -> lost' = lost)
    /\ trace (common e') = trace (common e) ++ evs /\ reported e buffer evs).
  { exists e, lost, []. split_and!; try done; [by rewrite app_nil_r|by left]. }
  rewrite E, res_bind_unfold. destruct r as [[[ack_sn e1] d]|]; [|exact Hdisc].
  destruct Hr as (W & Hby & Ha & Hbuf & Hack). cbv beta iota.
  destruct (_ >? _); [exact Hdisc|].
  destruct (validate_nacks_ok e ack_sn (S (length buffer)) d e1 Hc W) as (b & Ev).
  { rewrite Hbuf. simpl Codec.dec_buffer in *. unfold zlen in *. lia. }
  rewrite Ev, res_bind_unfold. destruct b; [|exact Hdisc].
  unfold apply_control_pdu. rewrite Hack, res_bind_unfold. cbv beta iota zeta.
  set (c0 := {| ent := _; wait_done := []; wait_rest := _; wait_null := false; end_wait := None;
                retx_new := []; retx_cur := _ |}).
  assert (Hk0 : ctl_ok e ack_sn c0 lost).
  { unfold c0. destruct (_ <? 0); [exact (ctl_start e lost ack_sn 0 Hwf)|].
    pose proof (ctl_start e lost ack_sn (t_poll_retransmit_start e) Hwf) as H. by destruct e. }
  clearbody c0.
  destruct (process_nacks_ok e ack_sn _ d e1 c0 lost Hk0 Hc W Ev) as (c1 & lost1 & E1 & Hk1 & Hl1).
  rewrite E1, res_bind_unfold.
  destruct (ack_wait_ok e ack_sn (cur_wait c1) c1 lost1 Hk1) as (c2 & E2 & Hk2 & _).
  { unfold cur_wait. destruct (wait_null c1); auto. }
  rewrite E2, res_bind_unfold.
  destruct (ack_retx_ok e ack_sn (retx_cur c2) c2 lost1 Hk2 eq_refl) as (c3 & E3 & Hk3).
  rewrite E3, res_bind_unfold.
  destruct (finish_ok e ack_sn c3 lost1 Hk3 Ha) as (e' & E4 & Hwf' & Hf & Htr).
  destruct (k_trace _ _ _ _ Hk3) as (evs & Et & Hev).
  exists e', lost1, evs. split; [done|]. split; [done|]. split; [done|]. split.
  - intros Hn. by apply Hl1, (Hn _ _ _ E).
  - split; [by rewrite Htr|]. right. by exists ack_sn, e1, d.
Qed.

End AmControlSpec.
