(* ===== verification/RlcAmTxSpec.v ===== *)
(** * RLC acknowledged mode: generated PDUs

    A generated data PDU has the header of the segment it carries and the bytes
    of the segment; the peer reads the same fields back.  New transmissions and
    retransmissions keep the invariant of the transmitting side, put what was
    sent in the wait list, and leave the rest where it was when the segment had
    to be cut. *)

From S2P Require Import Prelude TimeStat RlcPdu RlcSdu RlcRxManager RlcEntity RlcUm RlcUmTx.
From S2P Require Import RlcAm RlcAmStatus RlcAmControl RlcAmRx RlcAmRxSpec RlcAmTx RlcAmTxInv.

Module AmTxSpec.
Import Entity Am AmTx AmTxInv.

(** ** PDUs *)

(** The header with the poll bit. *)
Definition pdu_fields (e : t) (sg : Seg.t) (sn : Z) (p : bool) : list (Z * Z) :=
  (1, 1) :: (b2z p, 1) :: drop 2 (header_fields e sg sn).

(** [pdu] is the header of segment [sg] with the SN [sn] and the poll bit [p],
    followed by [data]. *)
Definition carries (e : t) (sg : Seg.t) (sn : Z) (p : bool) (pdu data : list Z) : Prop :=
  exists h, pdu = h ++ data /\ zlen h = compute_pdu_header_size e sg
    /\ buffer_bits h = Codec.field_bits (pdu_fields e sg sn p).

Lemma carries_cfg e e' sg sn p pdu data :
  sn_field_length e = sn_field_length e' -> carries e sg sn p pdu data -> carries e' sg sn p pdu data.
Proof. unfold carries, pdu_fields, header_fields, compute_pdu_header_size. by intros ->. Qed.

Lemma header_width e s sn :
  AmRxSpec.cfg e -> Codec.width (map snd (header_fields e s sn)) = 8 * compute_pdu_header_size e s.
Proof.
  intros [Hlen _ _]. unfold header_fields, compute_pdu_header_size, Codec.width, zsum.
  destruct Hlen as [-> | ->], (Seg.is_first s); done.
Qed.

Lemma header_size_bounds e s : 2 <= compute_pdu_header_size e s <= 5.
Proof.
  unfold compute_pdu_header_size. destruct (Seg.is_first s), (sn_field_length e =? 18); simpl; lia.
Qed.

(** Setting the poll bit. *)
Lemma poll_byte_bits b :
  bits 8 (u8 (Z.lor b 64))
  = [Z.testbit b 7; true; Z.testbit b 5; Z.testbit b 4; Z.testbit b 3; Z.testbit b 2; Z.testbit b 1;
     Z.testbit b 0].
Proof.
  cbn [bits]. unfold u8. rewrite !Z.mod_pow2_bits_low by lia. rewrite !Z.lor_spec.
  repeat (f_equal; [first [exact (orb_false_r _) | exact (orb_true_r _)]|]).
  f_equal. exact (orb_false_r _).
Qed.

Lemma set_poll_bits e s sn h :
  buffer_bits h = Codec.field_bits (header_fields e s sn) -> zlen h = compute_pdu_header_size e s ->
  exists h', (forall tl, AmStatus.or_byte (h ++ tl) 0 64 = Ok (h' ++ tl)) /\ zlen h' = zlen h
    /\ buffer_bits h' = Codec.field_bits (pdu_fields e s sn true).
Proof.
  intros Hb Hl. pose proof (header_size_bounds e s). destruct h as [|b h]; [simpl in Hl; unfold zlen in Hl; simpl in Hl; lia|].
  exists (u8 (Z.lor b 64) :: h). split; [|split; [done|]].
  - intros tl. unfold AmStatus.or_byte. change (zget ((b :: h) ++ tl) 0) with (Ok b).
    rewrite res_bind_unfold. unfold zset. rewrite <- app_comm_cons, zlen_cons.
    pose proof (zlen_nonneg (h ++ tl)). destruct (Z.ltb_spec 0 (1 + zlen (h ++ tl))); [done|lia].
  - change (bits 8 (u8 (Z.lor b 64)) ++ buffer_bits h = Codec.field_bits (pdu_fields e s sn true)).
    change (bits 8 b ++ buffer_bits h = Codec.field_bits (header_fields e s sn)) in Hb.
    rewrite poll_byte_bits. set (F := Codec.field_bits (drop 2 (header_fields e s sn))).
    change (Codec.field_bits (header_fields e s sn)) with (true :: false :: F) in Hb.
    change (Codec.field_bits (pdu_fields e s sn true)) with (true :: true :: F).
    change (bits 8 b) with [Z.testbit b 7; Z.testbit b 6; Z.testbit b 5; Z.testbit b 4; Z.testbit b 3;
      Z.testbit b 2; Z.testbit b 1; Z.testbit b 0] in Hb.
    revert Hb. generalize (Z.testbit b 7), (Z.testbit b 6), (Z.testbit b 5), (Z.testbit b 4),
      (Z.testbit b 3), (Z.testbit b 2), (Z.testbit b 1), (Z.testbit b 0). clearbody F.
    intros b7 b6 b5 b4 b3 b2 b1 b0 Hb. injection Hb as -> _ <-. done.
Qed.

(** The polling variables once a PDU with poll bit [p] was assembled. *)
Definition polled (e : t) (p : bool) : t :=
  if p then {| e with pdu_without_poll := 0; byte_without_poll := 0;
                      poll_sn := (tx_next e - 1 + sn_modulus e) mod sn_modulus e;
                      t_poll_retransmit_start := t_current e |} else e.

Lemma serialize_ok e s d buffer size p :
  AmRxSpec.cfg e -> Store.sdus (st e) !! Seg.sdu s = Some d -> Store.in_range d s ->
  size <= zlen buffer -> pdu_size e s <= size ->
  exists buffer', serialize_sdu e s buffer size p = Ok (pdu_size e s, buffer', polled e p)
    /\ zlen buffer' = zlen buffer
    /\ carries e s (Sdu.sn d) p (take (Z.to_nat (pdu_size e s)) buffer') (Store.seg_bytes (st e) s).
Proof.
  intros Hcfg Hd Hr Hsz Hfit. unfold serialize_sdu, pdu_size in *.
  unfold Store.deref. rewrite Hd. simpl of_option. rewrite res_bind_unfold.
  pose proof (header_width e s (Sdu.sn d) Hcfg) as Hw.
  pose proof (header_size_bounds e s) as Hb. unfold Store.in_range in Hr.
  destruct (Codec.put_header (header_fields e s (Sdu.sn d)) buffer size)
    as (enc & E & Eby & Ebi & Es & El & Ed & Ebits); [done| | |lia|].
  { destruct (AmRxSpec.cfg_len _ Hcfg) as [H6|H12]; unfold header_fields; rewrite ?H6, ?H12;
      destruct (Seg.is_first s); repeat constructor; simpl; lia. }
  { rewrite Hw. by exists (compute_pdu_header_size e s); lia. }
  rewrite E, res_bind_unfold.
  rewrite Hw, Z.mul_comm, Z.div_mul in Eby by lia.
  rewrite zslice_ok, res_bind_unfold by lia.
  assert (Hsb : Store.seg_bytes (st e) s
    = take (Z.to_nat (Seg.size s)) (drop (Z.to_nat (Seg.so s)) (Sdu.data d))).
  { unfold Store.seg_bytes. by rewrite Hd. }
  rewrite <- Hsb.
  assert (Hlen : zlen (Store.seg_bytes (st e) s) = Seg.size s).
  { rewrite Hsb. autorewrite with rlc_len. lia. }
  rewrite zwrite_ok, res_bind_unfold by lia. rewrite Eby in *.
  set (h := take (Z.to_nat (compute_pdu_header_size e s)) (Codec.enc_buffer enc)) in *.
  assert (Hh : zlen h = compute_pdu_header_size e s) by (unfold h; rewrite zlen_take; lia).
  set (tl := drop _ (Codec.enc_buffer enc)).
  assert (Htl : zlen h + Seg.size s + zlen tl = zlen buffer).
  { unfold tl. autorewrite with rlc_len. lia. }
  assert (Hcut : forall h', zlen h' = zlen h ->
    take (Z.to_nat (compute_pdu_header_size e s + Seg.size s)) (h' ++ Store.seg_bytes (st e) s ++ tl)
    = h' ++ Store.seg_bytes (st e) s).
  { intros h' Hh'. rewrite app_assoc, take_app_length'; [done|].
    unfold zlen in *. rewrite length_app. lia. }
  destruct p.
  - destruct (set_poll_bits e s (Sdu.sn d) h Ebits Hh) as (h' & Hor & Hl' & Hb').
    unfold include_poll. rewrite Hor, res_bind_unfold. unfold mret at 1, res_ret at 1.
    rewrite res_bind_unfold. eexists. split; [reflexivity|].
    split; [rewrite !zlen_app; lia|]. exists h'. rewrite Hcut by done. split_and!; try done. lia.
  - unfold mret at 1, res_ret at 1. rewrite res_bind_unfold. eexists. split; [reflexivity|].
    split; [rewrite !zlen_app; lia|]. exists h. rewrite Hcut by done. by split_and!.
Qed.

(** The peer reads the header back. *)
Lemma carries_reads e peer sg vsn p pdu data :
  AmRxSpec.cfg e -> sn_field_length peer = sn_field_length e ->
  0 <= vsn < sn_modulus e -> 0 <= Seg.so sg < 65536 ->
  (Seg.is_first sg = false -> 0 < Seg.so sg) -> 0 < zlen data ->
  carries e sg vsn p pdu data ->
  AmRx.decode_header peer pdu
  = Ok (AmRx.DataPdu p vsn (if Seg.is_first sg then 0 else Seg.so sg) (zlen data)
          (Seg.is_first sg) (Seg.is_last sg))
  /\ drop (Z.to_nat (compute_pdu_header_size e sg)) pdu = data.
Proof.
  intros [Hlen Hmod _] Hpeer Hsn Hso Hnf Hdata (h & -> & Hh & Hbits).
  split; [|rewrite drop_app_length'; [done|unfold zlen in Hh; lia]].
  rewrite Hmod in Hsn. unfold AmRx.decode_header. rewrite Hpeer.
  pose proof (Codec.decoder_init_wf (h ++ data)) as W0.
  assert (U0 : Codec.unread (Codec.nr_rlc_pdu_decoder_init (h ++ data))
    = Codec.field_bits (pdu_fields e sg vsn p) ++ buffer_bits data).
  { rewrite Codec.unread_init, buffer_bits_app. by rewrite Hbits. }
  set (d0 := Codec.nr_rlc_pdu_decoder_init (h ++ data)) in *.
  assert (P0 : 8 * Codec.dec_byte d0 + Codec.dec_bit d0 = 0) by done.
  clearbody d0. revert U0 Hh.
  unfold pdu_fields, header_fields, compute_pdu_header_size, Codec.field_bits. rewrite zlen_app.
  destruct Hlen as [Hlen|Hlen]; rewrite Hlen in *;
  destruct (Seg.is_first sg) eqn:Ef, (Seg.is_last sg) eqn:El, p;
    intros U0 Hh; cbn in U0, Hh; try specialize (Hnf eq_refl);
    decode_field 1; eval_tests.
  all: first [decode_field 1; eval_tests | decode_field 0; eval_tests].
  all: first [decode_field 0; eval_tests | decode_field 1; eval_tests | decode_field 2; eval_tests
    | decode_field 3; eval_tests].
  all: try (decode_field 0; eval_tests).
  all: decode_field vsn.
  all: try (decode_field (Seg.so sg)).
  all: UmTx.data_left.
Qed.

(** ** The wait list *)

(** The test of [nr_rlc_tx_sdu_segment_list_add]. *)
Definition goes_before (e : t) (s : Seg.t) (sn : Z) (cur : Seg.t) : Prop :=
  exists d, Store.sdus (st e) !! Seg.sdu cur = Some d
    /\ ((sn_compare_tx e (Sdu.sn d) sn >? 0) || ((Sdu.sn d =? sn) && (Seg.so cur >? Seg.so s)))
       = true.

Lemma list_add_ok e s d l : 
  Forall (fun x => exists dx, Store.sdus (st e) !! Seg.sdu x = Some dx) l ->
  Store.sdus (st e) !! Seg.sdu s = Some d ->
  exists l1 l2, nr_rlc_tx_sdu_segment_list_add e l s = Ok (l1 ++ s :: l2) /\ l = l1 ++ l2
    /\ Forall (fun x => ~ goes_before e s (Sdu.sn d) x) l1
    /\ (sorted e l -> sorted e (l1 ++ s :: l2)).
Proof.
  intros Hl Hd. induction Hl as [|cur l (dc & Hdc) _ IH].
  { exists [], []. split_and!; try done. intros _. repeat constructor. }
  simpl. unfold Store.deref. rewrite Hdc, Hd. simpl of_option. rewrite !res_bind_unfold.
  assert (Ks : sn_key e s = modulus_tx e (Sdu.sn d)) by (unfold sn_key; by rewrite Hd).
  assert (Kc : sn_key e cur = modulus_tx e (Sdu.sn dc)) by (unfold sn_key; by rewrite Hdc).
  destruct (_ || _) eqn:E.
  { exists [], (cur :: l). split_and!; try done. unfold sorted. simpl. intros Hs. constructor; [done|].
    assert (Hle : sn_key e s <= sn_key e cur).
    { rewrite Z.gtb_ltb in E. unfold sn_compare_tx in E. apply orb_true_iff in E as [E%Z.ltb_lt|E]; [lia|].
      apply andb_true_iff in E as [E%Z.eqb_eq _]. rewrite E in Kc. lia. }
    inversion Hs as [|? ? _ Hall]; subst. constructor; [done|]. eapply Forall_impl; [exact Hall|]. simpl. lia. }
  destruct IH as (l1 & l2 & E2 & -> & H1 & Hsort). rewrite E2. exists (cur :: l1), l2.
  split; [done|]. split; [done|]. split.
  { constructor; [|done]. intros (d' & L' & H'). assert (d' = dc) as -> by congruence. congruence. }
  unfold sorted. simpl. intros Hs. inversion Hs as [|? ? Hs' Hall]; subst. constructor; [by apply Hsort|].
  apply orb_false_iff in E as [E _]. rewrite Z.gtb_ltb in E. apply Z.ltb_ge in E. unfold sn_compare_tx in E.
  rewrite map_app in Hall |- *. apply Forall_app in Hall as [Ha1 Ha2]. apply Forall_app. split; [done|].
  simpl. constructor; [lia|done].
Qed.

Lemma sorted_snoc e l x s :
  sn_key e x <= sn_key e s -> sorted e (l ++ [x]) -> sorted e ((l ++ [x]) ++ [s]).
Proof.
  intros Hle. unfold sorted. rewrite !map_app. simpl. induction (map (sn_key e) l) as [|k ks IH]; simpl.
  - intros _. repeat constructor. done.
  - intros Hs. inversion Hs as [|? ? Hs' Hall]; subst. constructor; [by apply IH|].
    apply Forall_app. split; [done|]. apply Forall_app in Hall as [_ Hall].
    apply Forall_cons in Hall as [Hx _]. constructor; [lia|done].
Qed.

Lemma find_last l (x : Seg.t) :
  NoDup (map Seg.node (l ++ [x])) ->
  list_find (fun s => Seg.node s = Seg.node x) (l ++ [x]) = Some (length l, x).
Proof.
  intros Hnd. apply list_find_Some. split; [by rewrite lookup_app_r, Nat.sub_diag by lia|].
  split; [done|]. intros j y Hy Hj Heq. rewrite lookup_app_l in Hy by done.
  rewrite map_app in Hnd. apply NoDup_app in Hnd as (_ & Hnd & _).
  apply (Hnd (Seg.node y)); [apply list_elem_of_fmap_2; by eapply list_elem_of_lookup_2|].
  rewrite Heq. left.
Qed.

Lemma sn_compare_zero e a b :
  0 <= a < sn_modulus e -> 0 <= b < sn_modulus e -> sn_compare_tx e a b = 0 -> a = b.
Proof.
  intros Ha Hb. unfold sn_compare_tx, modulus_tx. cbv zeta. zcases; lia.
Qed.

(** A segment that was sent goes to its place in the wait list, and the tail
    pointer stays right. *)
Lemma put_ok e s r :
  mem e (s :: wait_list e) r -> wait_end e = Store.tail_of (wait_list e) ->
  exists l, put_in_wait_list e s = Ok {| e with wait_list := l; wait_end := Store.tail_of l |}
    /\ l ≡ₚ s :: wait_list e /\ (sorted e (wait_list e) -> sorted e l).
Proof.
  intros Hm Hend. pose proof (m_store _ _ _ Hm) as Hst. pose proof (m_numbered _ _ _ Hm) as Hnum.
  rewrite <- app_comm_cons in Hnum. apply Forall_cons in Hnum as [(d & Hd & Hsn) Hnum].
  apply Forall_app in Hnum as [Hnum _].
  pose proof (Store.ok_nodup _ _ Hst) as Hnd. rewrite <- app_comm_cons, map_app in Hnd. simpl in Hnd.
  apply NoDup_app in Hnd as (_ & _ & Hnd). apply NoDup_cons in Hnd as [Hni Hnd].
  rewrite map_app in Hnd. apply NoDup_app in Hnd as (Hnd & _ & _).
  unfold put_in_wait_list, after_wait_end. rewrite Hend.
  destruct (wait_list e) as [|last wl _] eqn:Ew using rev_ind.
  { simpl. exists [s]. split_and!; try done. intros _. repeat constructor. }
  rewrite Store.tail_of_snoc. unfold wait_tail. rewrite Ew, find_last by done. simpl of_option.
  rewrite res_bind_unfold. apply Forall_app in Hnum as Hnum'. destruct Hnum' as [_ Hlast].
  apply Forall_cons in Hlast as [(dl & Hdl & Hsl) _].
  unfold Store.deref. rewrite Hdl, Hd. simpl of_option. rewrite !res_bind_unfold.
  destruct (_ || _) eqn:Eafter.
  - rewrite <- (Store.tail_of_snoc wl last), (Store.append_ok _ _ Hnd), res_bind_unfold.
    exists ((wl ++ [last]) ++ [s]). split; [by rewrite Store.tail_of_snoc|].
    split; [by rewrite Permutation_app_comm|]. apply sorted_snoc. unfold sn_key. rewrite Hdl, Hd.
    rewrite Z.gtb_ltb in Eafter. unfold sn_compare_tx in Eafter.
    apply orb_true_iff in Eafter as [Ea%Z.ltb_lt|Ea]; [lia|]. apply andb_true_iff in Ea as [Ea%Z.eqb_eq _]. lia.
  - destruct (list_add_ok e s d (wl ++ [last])) as (l1 & l2 & E & Hl & Hno & Hsort); [|done|].
    { eapply Forall_impl; [exact Hnum|]. intros x (dx & Hdx & _). eauto. }
    rewrite E, res_bind_unfold. exists (l1 ++ s :: l2). split.
    2: { split; [|done]. rewrite Hl. solve_Permutation. }
    assert (Hb : goes_before e s (Sdu.sn d) last).
    { exists dl. split; [done|]. apply orb_false_iff in Eafter as [E1 E2].
      rewrite Z.gtb_ltb in E1. apply Z.ltb_ge in E1. apply orb_true_iff.
      destruct (decide (sn_compare_tx e (Sdu.sn d) (Sdu.sn dl) = 0)) as [H0|H0].
      - right. apply sn_compare_zero in H0; [|done..]. rewrite H0 in *.
        rewrite Z.eqb_refl. simpl. unfold sn_compare_tx in E2. rewrite Z.sub_diag in E2. simpl in E2.
        rewrite Z.gtb_ltb in E2 |- *. apply Z.ltb_ge in E2. apply Z.ltb_lt.
        assert (Ha : Seg.so s <> Seg.so last); [|lia].
        pose proof (m_apart _ _ _ Hm s last) as Hap.
        specialize (Hap ltac:(set_solver) ltac:(set_solver)).
        assert (Hne : Seg.node s <> Seg.node last).
        { intros Heq. apply Hni. rewrite Heq, map_app. apply elem_of_app. left.
          rewrite map_app. set_solver. }
        specialize (Hap Hne). destruct (decide _); [unfold disjoint in Hap; lia|].
        exfalso. apply (Hap d dl); try done; lia.
      - left. rewrite Z.gtb_ltb. apply Z.ltb_lt. unfold sn_compare_tx in *. lia. }
    assert (Hl2 : exists l2', l2 = l2' ++ [last]).
    { destruct l2 as [|x l2 _] using rev_ind.
      - rewrite app_nil_r in Hl. rewrite <- Hl in Hno. apply Forall_app in Hno as [_ Hno].
        apply Forall_cons in Hno as [Hno _]. done.
      - rewrite app_assoc in Hl. apply app_inj_tail in Hl as [_ ->]. by exists l2. }
    destruct Hl2 as (l2' & ->).
    assert (Ht : Store.tail_of (l1 ++ s :: l2' ++ [last]) = Some (Seg.node last)).
    { rewrite app_comm_cons, app_assoc. apply Store.tail_of_snoc. }
    rewrite Ht. unfold mret, res_ret. do 2 f_equal.
    destruct l1 as [|y l1]; simpl; [by destruct l2'|]. by destruct l1.
Qed.

(** ** Segmentation *)

(** The entity after [wait_list], [retx_size] and so on were set; [mem] does not
    depend on them. *)
Lemma mem_ext e e' w r :
  mem e w r -> base e' = base e -> st e' = st e -> tx_size e' = tx_size e ->
  bstatus (common e') = bstatus (common e) ->
  TimeStat.wf (txsdu_avg_time_to_tx (common e')) -> mem e' w r.
Proof.
  intros Hm Hb Hs Ht Hbs Ha. apply (mem_shrink e e' w w r r); rewrite ?Hs, ?Ht, ?Hbs; try done; try apply Hm.
  apply Forall_forall. intros x Hx. destruct (Store.deref_ok _ _ x (m_store _ _ _ Hm) Hx) as (d & _ & Hd & _).
  by exists d, d.
Qed.

Lemma apart_split st l s d k :
  Store.store_ok st (s :: l) -> apart st (s :: l) -> Store.sdus st !! Seg.sdu s = Some d ->
  1 <= k < Seg.size s -> apart (Store.add_ref st s d) (Store.shrink s k :: Store.remainder st s k :: l).
Proof.
  intros Hok Hap Hd Hk.
  pose proof (apart_related _ _ _ (s :: l) (Store.add_ref_related st s d _ Hok Hd) ltac:(done) Hap) as Ha.
  pose proof (Store.ok_nodup _ _ Hok) as Hnd. simpl in Hnd. apply NoDup_cons in Hnd as [Hni _].
  assert (Hl : forall x, x ∈ l -> Seg.node s <> Seg.node x).
  { intros x Hx Heq. apply Hni. rewrite Heq. by apply list_elem_of_fmap_2. }
  assert (Hs : forall x s', x ∈ l -> s' = Store.shrink s k \/ s' = Store.remainder st s k ->
    (if decide (Seg.sdu s = Seg.sdu x) then disjoint s' x /\ disjoint x s'
     else forall d0 d', Store.sdus (Store.add_ref st s d) !! Seg.sdu s = Some d0 ->
            Store.sdus (Store.add_ref st s d) !! Seg.sdu x = Some d' ->
            (0 <= Sdu.sn d0 -> Sdu.sn d0 <> Sdu.sn d') /\ (0 <= Sdu.sn d' -> Sdu.sn d' <> Sdu.sn d0))).
  { intros x s' Hx Hs'. pose proof (Ha s x ltac:(left) ltac:(by right) (Hl x Hx)) as H1.
    pose proof (Ha x s ltac:(by right) ltac:(left) (not_eq_sym (Hl x Hx))) as H2.
    destruct (decide (Seg.sdu s = Seg.sdu x)) as [E|E].
    - unfold disjoint in *. destruct Hs' as [-> | ->]; simpl; lia.
    - rewrite decide_False in H2 by congruence. intros d0 d' L0 L'. split; [by apply H1|by apply H2]. }
  assert (Hsd : forall s', s' = Store.shrink s k \/ s' = Store.remainder st s k -> Seg.sdu s' = Seg.sdu s)
    by (by intros s' [-> | ->]).
  assert (Hcase : forall x, x ∈ Store.shrink s k :: Store.remainder st s k :: l ->
    (x = Store.shrink s k \/ x = Store.remainder st s k) \/ x ∈ l).
  { intros x Hx. apply elem_of_cons in Hx as [->|Hx]; [by left; left|].
    apply elem_of_cons in Hx as [->|Hx]; [by left; right|by right]. }
  intros x y Hx Hy Hxy. destruct (Hcase x Hx) as [Cx|Hxl], (Hcase y Hy) as [Cy|Hyl].
  - rewrite (Hsd x Cx), (Hsd y Cy), decide_True by done.
    unfold disjoint. destruct Cx as [-> | ->], Cy as [-> | ->]; simpl in *; try done; lia.
  - rewrite (Hsd x Cx). pose proof (Hs y x Hyl Cx) as H. destruct (decide _); [apply H|].
    intros d0 d' L0 L'. by apply (H d0 d').
  - rewrite (Hsd y Cy). pose proof (Hs x y Hxl Cy) as H.
    destruct (decide (Seg.sdu s = Seg.sdu x)) as [E|E];
      [rewrite decide_True by done; apply H|rewrite decide_False by congruence].
    intros d0 d' L0 L'. by apply (H d' d0).
  - apply Ha; [by right..|done].
Qed.

(** What a grant of [size] bytes lets out of segment [s]. *)
Definition chunk (e : t) (s : Seg.t) (size : Z) : Z :=
  if pdu_size e s <=? size then Seg.size s else size - compute_pdu_header_size e s.

Definition sent (e : t) (s : Seg.t) (size : Z) : Seg.t :=
  if pdu_size e s <=? size then s else Store.shrink s (chunk e s size).

Lemma sent_pdu_size e s size :
  compute_pdu_header_size e s + 1 <= size -> 0 <= Seg.size s ->
  pdu_size e (sent e s size) = compute_pdu_header_size e s + chunk e s size
  /\ pdu_size e (sent e s size) <= size /\ 0 < pdu_size e (sent e s size).
Proof.
  intros Hr Hs. pose proof (header_size_bounds e s). unfold sent, chunk.
  destruct (Z.leb_spec (pdu_size e s) size); unfold pdu_size in *; [lia|].
  change (compute_pdu_header_size e (Store.shrink s (size - compute_pdu_header_size e s)))
    with (compute_pdu_header_size e s). simpl. lia.
Qed.

Lemma resegment_ok e s d size :
  Store.sdus (st e) !! Seg.sdu s = Some d ->
  resegment e s size
  = Ok (Store.shrink s (size - compute_pdu_header_size e s),
        Store.remainder (st e) s (size - compute_pdu_header_size e s),
        {| e with st := Store.add_ref (st e) s d |}).
Proof.
  intros Hd. unfold resegment, Store.deref. rewrite Hd. simpl of_option. rewrite res_bind_unfold.
  unfold Store.shrink, Store.remainder, Store.add_ref. simpl.
  unfold mret, res_ret. do 3 f_equal; f_equal; lia.
Qed.

(** The parts of a segment that was cut. *)
Lemma split_lists e s d k w r :
  mem e (s :: w) r -> Store.sdus (st e) !! Seg.sdu s = Some d -> 1 <= k < Seg.size s ->
  let st2 := Store.add_ref (st e) s d in
  let sh := Store.shrink s k in let nx := Store.remainder (st e) s k in
  let l := tx_list e ++ w ++ r in
  Store.store_ok st2 (sh :: nx :: l) /\ Store.bytes st2 = Store.bytes (st e)
  /\ Store.related Store.same_hdr (st e) st2 (s :: l)
  /\ Forall (seg_ok st2) (sh :: nx :: l) /\ apart st2 (sh :: nx :: l)
  /\ Forall (numbered (sn_modulus e) st2) (sh :: nx :: w ++ r).
Proof.
  intros Hm Hd Hk. cbv zeta.
  assert (Hp : tx_list e ++ (s :: w) ++ r ≡ₚ s :: tx_list e ++ w ++ r) by solve_Permutation.
  pose proof (m_store _ _ _ Hm) as Hst. rewrite Hp in Hst.
  destruct (Store.split_ok (st e) _ s d k Hst Hd) as [Hst2 Hby]; [lia|].
  pose proof (Store.add_ref_related (st e) s d _ Hst Hd) as Hrel.
  pose proof (m_segs _ _ _ Hm) as Hsegs. rewrite Hp in Hsegs.
  apply (seg_ok_related _ _ _ (Store.related_bytes _ _ _ Hrel)) in Hsegs.
  apply Forall_cons in Hsegs as [(d' & Hd' & Hmax & Hlast & Hf) Hsegs].
  pose proof (m_numbered _ _ _ Hm) as Hnum. rewrite <- app_comm_cons in Hnum.
  apply (numbered_related _ _ (Store.add_ref (st e) s d)) in Hnum.
  2: { eapply Store.related_sub; [|exact Hrel]. set_solver. }
  apply Forall_cons in Hnum as [Hns Hnum].
  split; [done|]. split; [done|]. split; [done|]. split; [|split].
  - pose proof (Store.ok_live _ _ Hst) as Hlv. apply Forall_cons in Hlv as [(d0 & Hd0 & Hr) _].
    assert (d0 = d) as -> by congruence. unfold Store.in_range in Hr.
    assert (Hsz : Sdu.size d' = Sdu.size d).
    { unfold Store.add_ref in Hd'. simpl in Hd'. rewrite lookup_insert_eq in Hd'. by injection Hd' as <-. }
    constructor; [|constructor; [|done]].
    + exists d'. split; [done|]. split; [done|]. simpl. split; [split; [done|lia]|].
      destruct (Seg.is_first s); [done|lia].
    + exists d'. split; [done|]. split; [done|]. simpl. split; [|lia].
      replace (Seg.so s + k + (Seg.size s - k)) with (Seg.so s + Seg.size s) by lia. done.
  - apply apart_split; try done. pose proof (m_apart _ _ _ Hm) as Ha.
    intros x y Hx Hy. apply Ha; by rewrite Hp.
  - constructor; [exact Hns|]. constructor; [exact Hns|]. done.
Qed.

(** A segment of the retransmit list was cut: the first part goes to the wait
    list, the other one stays. *)
Lemma split_mem_retx e1 e2 s d k w r :
  mem e1 (s :: w) r -> Store.sdus (st e1) !! Seg.sdu s = Some d -> 1 <= k < Seg.size s ->
  base e2 = base e1 -> st e2 = Store.add_ref (st e1) s d -> tx_size e2 = tx_size e1 ->
  bstatus (common e2)
  = {| (bstatus (common e1)) with
       retx_size := retx_size (bstatus (common e1)) + pdu_size e1 (Store.remainder (st e1) s k) |} ->
  txsdu_avg_time_to_tx (common e2) = txsdu_avg_time_to_tx (common e1) ->
  mem e2 (Store.shrink s k :: w) (Store.remainder (st e1) s k :: r).
Proof.
  intros Hm Hd Hk Hb Hs Ht Hbs Ha.
  destruct (split_lists e1 s d k w r Hm Hd Hk) as (Hst2 & Hby2 & Hrel2 & Hseg2 & Hap2 & Hnum2).
  destruct (base_fields _ _ Hb) as (B1 & B2 & B3 & B4 & B5 & B6).
  assert (Hp : tx_list e1 ++ (Store.shrink s k :: w) ++ Store.remainder (st e1) s k :: r
    ≡ₚ Store.shrink s k :: Store.remainder (st e1) s k :: tx_list e1 ++ w ++ r) by solve_Permutation.
  assert (Hp' : (Store.shrink s k :: w) ++ Store.remainder (st e1) s k :: r
    ≡ₚ Store.shrink s k :: Store.remainder (st e1) s k :: w ++ r) by solve_Permutation.
  destruct Hm as [M1 M2 M3 M4 M5 M6 M7 M8 M9 M10 M11 M12 M13 M14].
  constructor; rewrite ?B2, ?B3, ?B4, ?B5, ?B6, ?Hs, ?Hp, ?Hp'; try done.
  - by apply (base_cfg e1).
  - congruence.
  - by rewrite (zsum_pdu_size_cfg e1 e2), Hbs.
  - rewrite (zsum_pdu_size_cfg e1 e2), Hbs, zsum_cons by done. simpl. lia.
  - apply (unsent_related _ (st e1)); [|done]. eapply Store.related_sub; [|exact Hrel2]. set_solver.
  - intros x y Hx Hy. rewrite Hp in Hx, Hy. by apply Hap2.
  - congruence.
Qed.

(** A segment of the transmission list was cut. *)
Lemma split_mem_tx e1 e2 s d k w r :
  mem e1 (s :: w) r -> Store.sdus (st e1) !! Seg.sdu s = Some d -> 1 <= k < Seg.size s ->
  Seg.is_last s = true -> ~ Seg.sdu s ∈ map Seg.sdu (tx_list e1) ->
  let nx := Store.remainder (st e1) s k in
  base e2 = (sn_field_length e1, sn_modulus e1, window_size e1, tx_next e1, tx_next_ack e1,
             nx :: tx_list e1, Store.tail_of (nx :: tx_list e1)) ->
  st e2 = Store.add_ref (st e1) s d -> tx_size e2 = tx_size e1 ->
  bstatus (common e2)
  = {| (bstatus (common e1)) with
       Entity.tx_size := Entity.tx_size (bstatus (common e1)) + pdu_size e1 nx |} ->
  txsdu_avg_time_to_tx (common e2) = txsdu_avg_time_to_tx (common e1) ->
  mem e2 (Store.shrink s k :: w) r.
Proof.
  intros Hm Hd Hk Hlast Hni nx Hb Hs Ht Hbs Ha.
  destruct (split_lists e1 s d k w r Hm Hd Hk) as (Hst2 & Hby2 & Hrel2 & Hseg2 & Hap2 & Hnum2).
  fold nx in Hst2, Hseg2, Hap2, Hnum2.
  unfold base in Hb. injection Hb as B1 B2 B3 B4 B5 B6 B7.
  assert (Hp : (nx :: tx_list e1) ++ (Store.shrink s k :: w) ++ r
    ≡ₚ Store.shrink s k :: nx :: tx_list e1 ++ w ++ r) by solve_Permutation.
  destruct Hm as [M1 M2 M3 M4 M5 M6 M7 M8 M9 M10 M11 M12 M13 M14].
  apply Forall_cons in Hnum2 as [Hn1 Hnum2]. apply Forall_cons in Hnum2 as [(dn & Ln & Hn2) Hnum2].
  constructor; rewrite ?B2, ?B4, ?B5, ?B6, ?B7, ?Hs, ?Hp; try done.
  - destruct M1. constructor; by rewrite ?B1, ?B2, ?B3.
  - congruence.
  - rewrite (zsum_pdu_size_cfg e1 e2), Hbs, zsum_cons by done. simpl. lia.
  - by rewrite (zsum_pdu_size_cfg e1 e2), Hbs.
  - by apply NoDup_cons.
  - constructor; [by exists dn|]. apply (unsent_related _ (st e1)); [|done].
    eapply Store.related_sub; [|exact Hrel2]. set_solver.
  - by constructor.
  - intros x y Hx Hy. rewrite Hp in Hx, Hy. by apply Hap2.
  - congruence.
Qed.

(** ** Sending a segment *)

(** What sending leaves alone. *)
Definition send_frame (e : t) :=
  (rx_part e, trace (common e), tx_maxsize e, tx_next_ack e, tx_size e,
   (sn_field_length e, sn_modulus e, window_size e, max_retx_threshold e, status_triggered e)).

(** The lists of the transmitting side. *)
Definition lists (e : t) := (tx_next e, tx_list e, wait_list e, retransmit_list e, st e).

(** The end of [generate_retx_pdu] and [generate_tx_pdu]: [s] goes to the wait
    list, the poll bit is decided by [poll] and the PDU is written. *)
Definition emit_pdu (poll : t -> bool * t) (e : t) (s : Seg.t) (buffer : list Z) (size : Z)
    : res (Z * list Z * t) :=
  e ← put_in_wait_list e s;
  let '(p, e) := poll e in
  let '(p, e) := apply_force_poll e p in
  serialize_sdu e s buffer size p.

(** Deciding about the poll bit changes no list and no counter of the buffer. *)
Definition poll_ok (poll : t -> bool * t) : Prop :=
  forall e, (tx_part (poll e).2, send_frame (poll e).2, tx_next (poll e).2, force_poll (poll e).2)
            = (tx_part e, send_frame e, tx_next e, force_poll e).

Lemma emit_ok poll e s d buffer size lost :
  poll_ok poll ->
  mem e (s :: wait_list e) (retransmit_list e ++ lost) -> wait_end e = Store.tail_of (wait_list e) ->
  Store.sdus (st e) !! Seg.sdu s = Some d -> size <= zlen buffer -> pdu_size e s <= size ->
  exists buffer' e' p l, emit_pdu poll e s buffer size = Ok (pdu_size e s, buffer', e')
    /\ wf e' lost /\ send_frame e' = send_frame e /\ zlen buffer' = zlen buffer
    /\ carries e s (Sdu.sn d) p (take (Z.to_nat (pdu_size e s)) buffer') (Store.seg_bytes (st e) s)
    /\ lists e' = (tx_next e, tx_list e, l, retransmit_list e, st e)
    /\ (l ≡ₚ s :: wait_list e /\ (sorted e (wait_list e) -> sorted e l))
    /\ bstatus (common e') = bstatus (common e) /\ base e' = base e
    /\ txsdu_avg_time_to_tx (common e') = txsdu_avg_time_to_tx (common e)
    /\ (force_poll e = true -> p = true) /\ force_poll e' = false.
Proof.
  intros Hp Hm Hend Hd Hsz Hfit. unfold emit_pdu.
  destruct (put_ok e s _ Hm Hend) as (l & E & Hl & Hsort). rewrite E, res_bind_unfold.
  set (e1 := {| e with wait_list := l; wait_end := Store.tail_of l |}).
  assert (H1 : tx_part e1 = (base e, tx_size e, l, Store.tail_of l, retransmit_list e, st e,
      bstatus (common e), txsdu_avg_time_to_tx (common e)) /\ send_frame e1 = send_frame e
    /\ force_poll e1 = force_poll e) by done.
  clearbody e1. destruct H1 as (T1 & F1 & P1).
  pose proof (Hp e1) as Hp1. destruct (poll e1) as [p1 e2]. simpl in Hp1.
  assert (H2 : tx_part e2 = tx_part e1 /\ send_frame e2 = send_frame e /\ force_poll e2 = force_poll e)
    by (split_and!; congruence).
  clear Hp1. destruct H2 as (T2 & F2 & P2). unfold apply_force_poll.
  assert (H3 : exists p3 e3, (if force_poll e2 then (true, {| e2 with force_poll := false |}) else (p1, e2))
      = (p3, e3) /\ tx_part e3 = tx_part e1 /\ send_frame e3 = send_frame e
      /\ (force_poll e = true -> p3 = true) /\ force_poll e3 = false).
  { rewrite <- P2. destruct (force_poll e2) eqn:Ef; eexists _, _; (split; [reflexivity|]); done. }
  destruct H3 as (p & e3 & -> & T3 & F3 & P3 & P3'). rewrite T1 in T3.
  assert (HE : base e3 = base e /\ tx_size e3 = tx_size e /\ wait_list e3 = l
    /\ wait_end e3 = Store.tail_of l /\ retransmit_list e3 = retransmit_list e /\ st e3 = st e
    /\ bstatus (common e3) = bstatus (common e)
    /\ txsdu_avg_time_to_tx (common e3) = txsdu_avg_time_to_tx (common e)).
  { unfold tx_part in T3. split_and!; congruence. }
  destruct HE as (B3 & S3 & W3 & We3 & R3 & St3 & Bs3 & A3).
  assert (Hm3 : mem e3 l (retransmit_list e ++ lost)).
  { apply (mem_ext e); try done; [by rewrite Hl|]. rewrite A3. apply Hm. }
  destruct (base_fields _ _ B3) as (L3 & _ & N3 & _ & X3 & _).
  assert (Hps : pdu_size e3 s = pdu_size e s) by (by apply pdu_size_cfg).
  destruct (Store.deref_ok _ _ s (m_store _ _ _ Hm)) as (d0 & _ & Hd0 & Hr); [set_solver|].
  assert (d0 = d) as -> by congruence.
  destruct (serialize_ok e3 s d buffer size p) as (buffer' & Es & Hlen & Hcar);
    [apply Hm3|by rewrite St3|done|done|lia|].
  rewrite Es. rewrite Hps, St3 in *.
  assert (H4 : tx_part (polled e3 p) = tx_part e3 /\ send_frame (polled e3 p) = send_frame e3
    /\ lists (polled e3 p) = lists e3 /\ force_poll (polled e3 p) = force_poll e3) by (by destruct p).
  destruct H4 as (T4 & F4 & L4 & P4).
  exists buffer', (polled e3 p), p, l. split; [done|].
  split; [apply (wf_tx_part e3); [done|]; split; [by rewrite W3, R3|by rewrite We3, W3]|].
  split; [congruence|]. split; [done|]. split; [by apply (carries_cfg e3)|].
  split; [rewrite L4; unfold lists; by rewrite N3, X3, W3, R3, St3|].
  split; [done|]. unfold tx_part in T4.
  split; [congruence|]. split; [congruence|]. split; [congruence|]. split; [done|congruence].
Qed.

(** ** Retransmissions *)

(** The outcome of a grant for the head [s] of the retransmit list. *)
Definition retransmitted (e : t) (lost : list Seg.t) (s : Seg.t) (rest : list Seg.t) (size n : Z)
    (buffer' : list Z) (e' : t) : Prop :=
  let k := chunk e s size in
  n = pdu_size e (sent e s size) /\ 0 < n <= size
  /\ (exists d p, Store.sdus (st e) !! Seg.sdu s = Some d
       /\ carries e (sent e s size) (Sdu.sn d) p (take (Z.to_nat n) buffer')
            (take (Z.to_nat k) (Store.seg_bytes (st e) s))
       /\ (force_poll e = true -> p = true))
  /\ (tx_next e', tx_list e') = (tx_next e, tx_list e)
  /\ wait_list e' ≡ₚ sent e s size :: wait_list e
  /\ retransmit_list e'
     = (if k =? Seg.size s then [] else [Store.remainder (st e) s k]) ++ rest
  /\ Store.related Store.same_hdr (st e) (st e') (tx_list e ++ wait_list e ++ retransmit_list e ++ lost)
  /\ (sorted e (wait_list e) -> sorted e' (wait_list e')).

Lemma retx_poll_ok : poll_ok (fun e => (check_poll_after_pdu_assembly e, e)).
Proof. done. Qed.

Lemma related_refl st l : Store.store_ok st l -> Store.related Store.same_hdr st st l.
Proof.
  intros Hok. apply Forall_forall. intros x Hx.
  destruct (Store.deref_ok _ _ x Hok Hx) as (d & _ & Hd & _). by exists d, d.
Qed.

(** The last statements of [generate_retx_pdu]. *)
Definition retx_stats (r : Z * list Z * t) : Z * list Z * t :=
  let '(n, buffer, e) := r in
  (n, buffer, upd_common (upd_stats (fun s => count_txpdu_retx n (count_txpdu n s))) e).

Lemma retx_tail e s buffer size :
  (e ← put_in_wait_list e s;
   let p := check_poll_after_pdu_assembly e in
   let '(p, e) := apply_force_poll e p in
   '(ret_size, buffer, e) ← serialize_sdu e s buffer size p;
   mret (ret_size, buffer,
         upd_common (upd_stats (fun s => count_txpdu_retx ret_size (count_txpdu ret_size s))) e))
  = retx_stats <$> emit_pdu (fun e => (check_poll_after_pdu_assembly e, e)) e s buffer size.
Proof.
  unfold emit_pdu. destruct (put_in_wait_list e s) as [e1|]; [|done]. rewrite !res_bind_unfold.
  cbv zeta. destruct (apply_force_poll _ _) as [p e2].
  by destruct (serialize_sdu e2 s buffer size p) as [[[n b] e3]|].
Qed.

Section retx.
Context (e : t) (lost : list Seg.t) (s : Seg.t) (rest : list Seg.t) (buffer : list Z) (size : Z).
Context (Hwf : wf e lost) (El : retransmit_list e = s :: rest) (Hsz : size <= zlen buffer)
  (Hroom : compute_pdu_header_size e s + 1 <= size).

Let k := chunk e s size.
Let n := pdu_size e (sent e s size).

(** The head was taken from the list. *)
Lemma retx_taken :
  let e1 := upd_common (add_bs_retx (- pdu_size e s)) {| e with retransmit_list := rest |} in
  mem e1 (s :: wait_list e) (rest ++ lost)
  /\ exists d, Store.sdus (st e) !! Seg.sdu s = Some d /\ Store.in_range d s.
Proof using Hwf El Hsz Hroom.
  destruct Hwf as [Hm _]. cbv zeta. rewrite El in Hm. split.
  - assert (Hp : tx_list e ++ (s :: wait_list e) ++ rest ++ lost
      ≡ₚ tx_list e ++ wait_list e ++ (s :: rest) ++ lost) by solve_Permutation.
    apply (mem_shrink e _ (wait_list e) _ ((s :: rest) ++ lost)); try done; try apply Hm.
    + rewrite Hp. apply Hm.
    + apply related_refl. rewrite Hp. apply Hm.
    + set_solver.
    + simpl. rewrite (m_retx _ _ _ Hm), <- app_comm_cons, zsum_cons. lia.
  - destruct (Store.deref_ok _ _ s (m_store _ _ _ Hm)) as (d & _ & Hd & Hr); [set_solver|]. eauto.
Qed.

(** The state the segment is sent from: the rest was put back. *)
Lemma retx_emit e2 d :
  Store.sdus (st e) !! Seg.sdu s = Some d ->
  mem e2 (sent e s size :: wait_list e2) (retransmit_list e2 ++ lost) ->
  (wait_list e2, wait_end e2, send_frame e2, tx_next e2, tx_list e2, force_poll e2)
  = (wait_list e, wait_end e, send_frame e, tx_next e, tx_list e, force_poll e) ->
  retransmit_list e2 = (if k =? Seg.size s then [] else [Store.remainder (st e) s k]) ++ rest ->
  Store.related Store.same_hdr (st e) (st e2)
    (tx_list e ++ wait_list e ++ retransmit_list e ++ lost) ->
  Store.seg_bytes (st e2) (sent e s size) = take (Z.to_nat k) (Store.seg_bytes (st e) s) ->
  exists buffer' e',
    (retx_stats <$> emit_pdu (fun e => (check_poll_after_pdu_assembly e, e)) e2 (sent e s size) buffer size)
    = Ok (n, buffer', e')
    /\ wf e' lost /\ send_frame e' = send_frame e /\ zlen buffer' = zlen buffer
    /\ retransmitted e lost s rest size n buffer' e'.
Proof using Hwf El Hsz Hroom.
  intros Hd Hm2 HF Hr2 Hrel Hbytes.
  assert (HE : wait_list e2 = wait_list e /\ wait_end e2 = wait_end e /\ send_frame e2 = send_frame e
    /\ tx_next e2 = tx_next e /\ tx_list e2 = tx_list e /\ force_poll e2 = force_poll e
    /\ sn_field_length e2 = sn_field_length e).
  { unfold send_frame in *. split_and!; congruence. }
  destruct HE as (W2 & We2 & F2 & N2 & X2 & P2 & L2).
  assert (Hs : s ∈ tx_list e ++ wait_list e ++ retransmit_list e ++ lost) by (rewrite El; set_solver).
  destruct (proj1 (Forall_forall _ _) Hrel s Hs) as (d0 & d2 & L0 & Ld2 & _ & Hsn & _).
  assert (d0 = d) as -> by congruence.
  assert (Hsd : Seg.sdu (sent e s size) = Seg.sdu s).
  { unfold sent. by destruct (_ <=? _). }
  destruct (sent_pdu_size e s size Hroom) as (_ & Hle & Hpos).
  { destruct Hwf as [Hm _]. destruct (Store.deref_ok _ _ s (m_store _ _ _ Hm) Hs) as (d1 & _ & _ & Hr).
    unfold Store.in_range in Hr. lia. }
  destruct (emit_ok (fun e => (check_poll_after_pdu_assembly e, e)) e2 (sent e s size) d2 buffer size lost)
    as (buffer' & e' & p & l & E & Hwf' & F' & Hlen & Hcar & Hls & (Hl & Hsort) & _ & _ & _ & Hfp & _);
    [apply retx_poll_ok|done|rewrite W2, We2; apply Hwf|by rewrite Hsd|done|rewrite (pdu_size_cfg e e2) by done; done|].
  rewrite (pdu_size_cfg e e2) in * by done. fold n in E, Hcar. rewrite E.
  eexists buffer', _. split; [reflexivity|].
  split; [by apply (wf_tx_part e')|]. split; [rewrite <- F2, <- F'; done|]. split; [done|].
  unfold lists in Hls. injection Hls as I1 I2 I3 I4 I5. split; [done|]. split; [unfold n; lia|].
  split.
  { exists d, p. split; [done|]. split; [|by rewrite <- P2].
    rewrite Hsn, Hbytes in Hcar. by apply (carries_cfg e2). }
  simpl. split; [congruence|]. split; [by rewrite I3, Hl, W2|]. split; [by rewrite I4|]. rewrite I5.
  split; [done|]. intros Hso. rewrite I3. 
  assert (HK : sn_modulus e2 = sn_modulus e /\ tx_next_ack e2 = tx_next_ack e
    /\ sn_modulus e' = sn_modulus e2 /\ tx_next_ack e' = tx_next_ack e2).
  { unfold send_frame in *. split_and!; congruence. }
  destruct HK as (K1 & K2 & K3 & K4). rewrite W2 in Hsort. unfold sorted in Hso, Hsort |- *.
  rewrite (sn_keys_related e e2) in Hsort;
    [|eapply Store.related_sub; [|exact Hrel]; set_solver|congruence].
  specialize (Hsort Hso). erewrite map_ext; [exact Hsort|]. intros x. unfold sn_key, modulus_tx. simpl.
  by rewrite I5, K3, K4.
Qed.

Lemma generate_retx_ok :
  exists buffer' e', generate_retx_pdu e buffer size = Ok (n, buffer', e')
    /\ wf e' lost /\ send_frame e' = send_frame e /\ zlen buffer' = zlen buffer
    /\ retransmitted e lost s rest size n buffer' e'.
Proof using Hwf El Hsz Hroom.
  destruct retx_taken as (Hm1 & d & Hd & Hr). unfold Store.in_range in Hr.
  unfold generate_retx_pdu. rewrite El, !Z.gtb_ltb.
  destruct (Z.ltb_spec size (compute_pdu_header_size e s + 1)); [lia|]. cbv zeta.
  set (e1 := upd_common _ {| e with retransmit_list := rest |}).
  change (mem e1 (s :: wait_list e1) (rest ++ lost)) in Hm1.
  assert (H1 : (wait_list e1, wait_end e1, send_frame e1, tx_next e1, tx_list e1, force_poll e1)
    = (wait_list e, wait_end e, send_frame e, tx_next e, tx_list e, force_poll e)
    /\ retransmit_list e1 = rest /\ st e1 = st e /\ sn_field_length e1 = sn_field_length e) by done.
  clearbody e1. destruct H1 as (F1 & R1 & S1 & L1).
  pose proof (m_store _ _ _ (proj1 Hwf)) as Hst0.
  destruct (Z.ltb_spec size (compute_pdu_header_size e s + Seg.size s)) as [Hcut|Hwhole].
  - assert (Hk : k = size - compute_pdu_header_size e s).
    { unfold k, chunk, pdu_size. by destruct (Z.leb_spec (compute_pdu_header_size e s + Seg.size s) size); [lia|]. }
    assert (Hsent : sent e s size = Store.shrink s k).
    { unfold sent, pdu_size. by destruct (Z.leb_spec (compute_pdu_header_size e s + Seg.size s) size); [lia|]. }
    rewrite (resegment_ok e1 s d size) by (by rewrite S1). rewrite res_bind_unfold.
    assert (Hh : compute_pdu_header_size e1 s = compute_pdu_header_size e s)
      by (unfold compute_pdu_header_size; by rewrite L1).
    rewrite Hh, <- Hk, S1. cbv beta iota. rewrite res_ret_bind, retx_tail, <- Hsent.
    assert (Hrelx : Store.related Store.same_hdr (st e) (Store.add_ref (st e) s d)
      (tx_list e ++ wait_list e ++ retransmit_list e ++ lost)).
    { apply (Store.add_ref_related (st e) s d); done. }
    apply (retx_emit _ d); try done.
    + rewrite Hsent. simpl wait_list. simpl retransmit_list. rewrite R1, <- app_comm_cons, <- S1.
      apply (split_mem_retx e1 _ s d k); try done; [by rewrite S1|lia].
    + simpl. rewrite R1. destruct (Z.eqb_spec k (Seg.size s)); [lia|done].
    + simpl. rewrite Hsent. apply Store.shrink_bytes; [done|lia].
  - assert (Hk : k = Seg.size s).
    { unfold k, chunk, pdu_size. by destruct (Z.leb_spec (compute_pdu_header_size e s + Seg.size s) size); [|lia]. }
    assert (Hsent : sent e s size = s).
    { unfold sent, pdu_size. by destruct (Z.leb_spec (compute_pdu_header_size e s + Seg.size s) size); [|lia]. }
    rewrite res_ret_bind, retx_tail. pose proof (retx_emit e1 d Hd) as He. rewrite Hsent in He.
    apply He; try done.
    + by rewrite R1.
    + rewrite R1, Hk, Z.eqb_refl. done.
    + rewrite S1. by apply related_refl.
    + rewrite S1, Hk, take_ge; [done|].
      pose proof (Store.zlen_seg_bytes _ _ s Hst0 ltac:(rewrite El; set_solver)). unfold zlen in *. lia.
Qed.

End retx.

(** ** New transmissions *)

(** SN of the SDU of the head [s] of the transmission list. *)
Definition sn_of (e : t) (s : Seg.t) (d : Sdu.t) : Z := if Seg.is_first s then tx_next e else Sdu.sn d.

Lemma sn_of_range e lost s rest d :
  wf e lost -> tx_list e = s :: rest -> Store.sdus (st e) !! Seg.sdu s = Some d ->
  0 <= sn_of e s d < sn_modulus e.
Proof.
  intros [Hm _] El Hd. unfold sn_of. pose proof (m_unsent _ _ _ Hm) as Hu. rewrite El in Hu.
  apply Forall_cons in Hu as [(d0 & L & _ & H) _]. assert (d0 = d) as -> by congruence.
  destruct (Seg.is_first s); [apply Hm|done].
Qed.

(** No live SDU has the next SN: it is the case while TX_Next is in the window. *)
Definition sn_free (e : t) (lost : list Seg.t) : Prop :=
  forall x d, x ∈ tx_list e ++ wait_list e ++ retransmit_list e ++ lost ->
    Store.sdus (st e) !! Seg.sdu x = Some d -> Sdu.sn d <> tx_next e.

Section taken.
Context (e : t) (lost : list Seg.t) (s : Seg.t) (rest : list Seg.t) (d : Sdu.t).
Context (Hwf : wf e lost) (El : tx_list e = s :: rest) (Hd : Store.sdus (st e) !! Seg.sdu s = Some d).
Context (Hfree : Seg.is_first s = true -> sn_free e lost).

Let others := rest ++ wait_list e ++ retransmit_list e ++ lost.
Let d1 := {| d with Sdu.sn := tx_next e |}.

(** The head was taken from the list. *)
Definition untied : t :=
  upd_common (add_bs_tx (- pdu_size e s))
    {| e with tx_list := rest; tx_end := match rest with [] => None | _ => tx_end e end |}.

Lemma head_facts :
  Seg.is_last s = true /\ (if Seg.is_first s then Sdu.sn d = -1 else 0 <= Sdu.sn d < sn_modulus e)
  /\ ~ Seg.sdu s ∈ map Seg.sdu rest
  /\ (Seg.is_first s = true -> Forall (fun x => Seg.sdu x <> Seg.sdu s) others).
Proof using Hwf El Hd Hfree.
  destruct Hwf as [Hm _]. pose proof (m_unsent _ _ _ Hm) as Hu. rewrite El in Hu.
  apply Forall_cons in Hu as [(d0 & L0 & Hlast & Hsn) _]. assert (d0 = d) as -> by congruence.
  pose proof (m_sdus _ _ _ Hm) as Hnd. rewrite El in Hnd. simpl in Hnd. apply NoDup_cons in Hnd as [Hni _].
  split_and!; try done. intros Hf. rewrite Hf in Hsn. apply Forall_forall. intros x Hx Heq.
  unfold others in Hx. apply elem_of_app in Hx as [Hx|Hx].
  - apply Hni. rewrite <- Heq. by apply list_elem_of_fmap_2.
  - destruct (proj1 (Forall_forall _ _) (m_numbered _ _ _ Hm) x Hx) as (dx & Lx & Hnx).
    rewrite Heq in Lx. assert (dx = d) as -> by congruence. lia.
Qed.

(** Only the SDU of the head gets an SN. *)
Lemma assigned_related :
  Seg.is_first s = true -> Store.related Store.same_hdr (st e) (Store.update (st e) s d1) others.
Proof using Hwf El Hd Hfree.
  intros Hf. destruct head_facts as (_ & _ & _ & Hne). specialize (Hne Hf).
  rewrite Forall_forall in Hne. destruct Hwf as [Hm _].
  apply Forall_forall. intros x Hx. destruct (Store.deref_ok _ _ x (m_store _ _ _ Hm)) as (dx & _ & Lx & _).
  { rewrite El. unfold others in Hx. set_solver. }
  exists dx, dx. split_and!; try done. unfold Store.update. simpl.
  by rewrite lookup_insert_ne by (apply not_eq_sym; auto).
Qed.

Lemma untied_perm :
  tx_list e ++ wait_list e ++ retransmit_list e ++ lost
  ≡ₚ rest ++ (s :: wait_list e) ++ retransmit_list e ++ lost.
Proof using Hwf El Hd Hfree. rewrite El. solve_Permutation. Qed.

(** The store once the SN was assigned. *)
Definition numbered_store : Store.t := if Seg.is_first s then Store.update (st e) s d1 else st e.

Lemma assign_ok :
  exists e1, assign_sn untied s = Ok e1 /\ st e1 = numbered_store
    /\ base e1 = (sn_field_length e, sn_modulus e, window_size e,
                  (if Seg.is_first s then (tx_next e + 1) mod sn_modulus e else tx_next e),
                  tx_next_ack e, rest, Store.tail_of rest)
    /\ (send_frame e1, wait_list e1, wait_end e1, retransmit_list e1, force_poll e1)
       = (send_frame e, wait_list e, wait_end e, retransmit_list e, force_poll e)
    /\ common e1 = add_bs_tx (- pdu_size e s) (common e).
Proof using Hwf El Hd Hfree.
  destruct head_facts as (_ & Hsn & _). destruct Hwf as [Hm _].
  assert (Htl : match rest with [] => None | _ => tx_end e end = Store.tail_of rest).
  { rewrite (m_end _ _ _ Hm), El. apply Store.tail_of_tail. }
  unfold assign_sn, Store.deref, numbered_store. change (st untied) with (st e). rewrite Hd.
  simpl of_option. rewrite res_bind_unfold. destruct (Seg.is_first s).
  - rewrite Hsn. eexists. split; [reflexivity|]. split; [done|].
    split; [unfold base; simpl; by rewrite Htl|done].
  - destruct (Z.eqb_spec (Sdu.sn d) (-1)); [lia|]. eexists. split; [reflexivity|]. split; [done|].
    split; [unfold base; simpl; by rewrite Htl|done].
Qed.

Lemma numbered_store_ok :
  Store.store_ok numbered_store (tx_list e ++ wait_list e ++ retransmit_list e ++ lost)
  /\ Store.bytes numbered_store = Store.bytes (st e)
  /\ Store.related Store.same_bytes (st e) numbered_store
       (tx_list e ++ wait_list e ++ retransmit_list e ++ lost)
  /\ Store.related Store.same_hdr (st e) numbered_store others
  /\ exists d', Store.sdus numbered_store !! Seg.sdu s = Some d' /\ Sdu.sn d' = sn_of e s d
       /\ Sdu.time_of_arrival d' = Sdu.time_of_arrival d.
Proof using Hwf El Hd Hfree.
  pose proof assigned_related as Hr. destruct Hwf as [Hm _]. pose proof (m_store _ _ _ Hm) as Hst.
  unfold numbered_store, sn_of. destruct (Seg.is_first s).
  - destruct (Store.update_ok (st e) _ s d d1 Hst Hd) as [Hst1 Hby]; [done|].
    split_and!; try done; [by apply (Store.update_related _ _ _ d)|by apply Hr|].
    exists d1. unfold Store.update. simpl. by rewrite lookup_insert_eq.
  - split_and!; try done; [by apply Store.related_bytes, related_refl| |by exists d].
    eapply Store.related_sub; [|by apply related_refl]. rewrite El. unfold others. set_solver.
Qed.

Lemma numbered_apart :
  apart numbered_store (tx_list e ++ wait_list e ++ retransmit_list e ++ lost).
Proof using Hwf El Hd Hfree.
  destruct head_facts as (_ & Hsn & _ & Hne). destruct numbered_store_ok as (_ & _ & _ & Hr & d' & Ld' & Hd' & _).
  destruct Hwf as [Hm _]. pose proof (m_apart _ _ _ Hm) as Ha.
  unfold numbered_store, sn_of in *. destruct (Seg.is_first s) eqn:Ef; [|done].
  specialize (Hne eq_refl). specialize (Hfree eq_refl). rewrite Forall_forall in Hne.
  assert (Hp : tx_list e ++ wait_list e ++ retransmit_list e ++ lost ≡ₚ s :: others)
    by (rewrite El; unfold others; solve_Permutation).
  assert (Ho : apart (Store.update (st e) s d1) others).
  { eapply apart_related; [exact Hr| |exact Ha]. rewrite Hp. set_solver. }
  assert (Hsnx : forall x dx, x ∈ others -> Store.sdus (Store.update (st e) s d1) !! Seg.sdu x = Some dx ->
    Sdu.sn dx <> tx_next e).
  { intros x dx Hx Lx. unfold Store.update in Lx. simpl in Lx.
    rewrite lookup_insert_ne in Lx by (apply not_eq_sym; auto). apply (Hfree x dx); [|done].
    rewrite Hp. by right. }
  intros x y Hx Hy Hxy. rewrite Hp in Hx, Hy.
  apply elem_of_cons in Hx as [->|Hx], Hy as [->|Hy]; [done| | |by apply Ho].
  - rewrite decide_False by (intros E; by apply (Hne y)). intros da db La Lb _.
    assert (da = d') as -> by congruence. rewrite Hd'. apply not_eq_sym. by apply (Hsnx y).
  - rewrite decide_False by auto. intros da db La Lb _.
    assert (db = d') as -> by congruence. rewrite Hd'. by apply (Hsnx x).
Qed.

(** The head as a segment that was sent. *)
Lemma taken_mem e1 :
  st e1 = numbered_store ->
  base e1 = (sn_field_length e, sn_modulus e, window_size e,
             (if Seg.is_first s then (tx_next e + 1) mod sn_modulus e else tx_next e),
             tx_next_ack e, rest, Store.tail_of rest) ->
  tx_size e1 = tx_size e -> common e1 = add_bs_tx (- pdu_size e s) (common e) ->
  mem e1 (s :: wait_list e) (retransmit_list e ++ lost).
Proof using Hwf El Hd Hfree.
  intros S1 B1 T1 C1. destruct head_facts as (Hlast & Hsn & Hni & _).
  destruct numbered_store_ok as (Hst & Hby & Hrb & Hrh & d' & Ld' & Hd' & _).
  pose proof numbered_apart as Hap. rewrite untied_perm in Hst.
  unfold base in B1. injection B1 as L1 M1 W1 N1 A1 X1 E1.
  destruct Hwf as [[Hcfg Hn Hna _ Hby0 Hend Htx Hretx Hsegs Hnd Huns Hnum _ Havg] _].
  assert (Hl : sn_field_length e1 = sn_field_length e) by done.
  constructor; rewrite ?M1, ?N1, ?A1, ?X1, ?E1, ?S1, ?T1, ?C1; try done.
  - destruct Hcfg. constructor; by rewrite ?L1, ?M1, ?W1.
  - destruct (Seg.is_first s); [|done]. apply Z.mod_pos_bound. lia.
  - congruence.
  - rewrite (zsum_pdu_size_cfg e e1) by done. simpl. rewrite Htx, El, zsum_cons. lia.
  - rewrite (zsum_pdu_size_cfg e e1) by done. simpl. done.
  - rewrite <- untied_perm. by apply (seg_ok_related (st e)).
  - rewrite El in Hnd. simpl in Hnd. by apply NoDup_cons in Hnd as [_ Hnd].
  - rewrite El in Huns. apply Forall_cons in Huns as [_ Huns]. apply (unsent_related _ (st e)); [|done].
    eapply Store.related_sub; [|exact Hrh]. unfold others. set_solver.
  - rewrite <- app_comm_cons. constructor.
    + exists d'. split; [done|]. rewrite Hd'. unfold sn_of. by destruct (Seg.is_first s).
    + apply (numbered_related _ (st e)); [|done]. eapply Store.related_sub; [|exact Hrh].
      unfold others. set_solver.
  - intros x y Hx Hy. rewrite <- untied_perm in Hx, Hy. by apply Hap.
Qed.

End taken.

(** The outcome of a grant for the head [s] of the transmission list. *)
Definition transmitted (e : t) (lost : list Seg.t) (s : Seg.t) (rest : list Seg.t) (size n : Z)
    (buffer' : list Z) (e' : t) : Prop :=
  let k := chunk e s size in
  n = pdu_size e (sent e s size) /\ 0 < n <= size
  /\ (exists d p, Store.sdus (st e) !! Seg.sdu s = Some d
       /\ carries e (sent e s size) (sn_of e s d) p (take (Z.to_nat n) buffer')
            (take (Z.to_nat k) (Store.seg_bytes (st e) s))
       /\ (force_poll e = true -> p = true))
  /\ tx_next e' = (if Seg.is_first s then (tx_next e + 1) mod sn_modulus e else tx_next e)
  /\ queue e' = (if k =? Seg.size s then [] else
                    [(Seg.so s + k, drop (Z.to_nat k) (Store.seg_bytes (st e) s))])
                ++ tail (queue e)
  /\ wait_list e' ≡ₚ sent e s size :: wait_list e
  /\ retransmit_list e' = retransmit_list e
  /\ Store.related Store.same_hdr (st e) (st e') (rest ++ wait_list e ++ retransmit_list e ++ lost)
  /\ (exists d', Store.sdus (st e') !! Seg.sdu s = Some d'
       /\ forall d, Store.sdus (st e) !! Seg.sdu s = Some d -> Sdu.sn d' = sn_of e s d)
  /\ Forall (fun x => x ∈ rest \/ Seg.sdu x = Seg.sdu s) (tx_list e')
  /\ (sorted e (wait_list e) -> sorted e' (wait_list e')).

Lemma tx_poll_ok s : poll_ok (fun e => poll_new_pdu e s).
Proof. intros e. unfold poll_new_pdu. by destruct (_ || _). Qed.

(** The last statements of [generate_tx_pdu]. *)
Definition tx_tail (now_us : Z) (s : Seg.t) (r : Z * list Z * t) : res (Z * list Z * t) :=
  let '(n, buffer, e) := r in
  d ← Store.deref (st e) s;
  c ← measure_wait now_us (Sdu.time_of_arrival d) (upd_stats (count_txpdu n) (common e));
  mret (n, buffer, {| e with common := c |}).

Lemma tx_tail_emit now_us e s buffer size :
  (e ← put_in_wait_list e s;
   let '(p, e) := poll_new_pdu e s in
   let '(p, e) := apply_force_poll e p in
   '(ret_size, buffer, e) ← serialize_sdu e s buffer size p;
   d ← Store.deref (st e) s;
   c ← measure_wait now_us (Sdu.time_of_arrival d) (upd_stats (count_txpdu ret_size) (common e));
   mret (ret_size, buffer, {| e with common := c |}))
  = (emit_pdu (fun e => poll_new_pdu e s) e s buffer size ≫= tx_tail now_us s).
Proof.
  unfold emit_pdu. destruct (put_in_wait_list e s) as [e1|]; [|done]. rewrite !res_bind_unfold.
  destruct (poll_new_pdu e1 s) as [p e2]. destruct (apply_force_poll e2 p) as [p' e3].
  by destruct (serialize_sdu e3 s buffer size p') as [[[n b] e4]|].
Qed.

Section tx.
Context (now_us : Z) (e : t) (lost : list Seg.t) (s : Seg.t) (rest : list Seg.t) (buffer : list Z) (size : Z).
Context (Hwf : wf e lost) (El : tx_list e = s :: rest) (Hsz : size <= zlen buffer)
  (Hroom : compute_pdu_header_size e s + 1 <= size).
Context (d : Sdu.t) (Hd : Store.sdus (st e) !! Seg.sdu s = Some d)
  (Hfree : Seg.is_first s = true -> sn_free e lost).

Let k := chunk e s size.
Let n := pdu_size e (sent e s size).

(** The state the segment is sent from: the SN is assigned, the rest of the
    segment was put back. *)
Lemma tx_emit e2 d2 :
  mem e2 (sent e s size :: wait_list e) (retransmit_list e ++ lost) ->
  (wait_list e2, wait_end e2, retransmit_list e2, send_frame e2, force_poll e2)
  = (wait_list e, wait_end e, retransmit_list e, send_frame e, force_poll e) ->
  tx_next e2 = (if Seg.is_first s then (tx_next e + 1) mod sn_modulus e else tx_next e) ->
  Store.sdus (st e2) !! Seg.sdu s = Some d2 -> Sdu.sn d2 = sn_of e s d ->
  queue e2 = (if k =? Seg.size s then [] else
                [(Seg.so s + k, drop (Z.to_nat k) (Store.seg_bytes (st e) s))]) ++ tail (queue e) ->
  Forall (fun x => x ∈ rest \/ Seg.sdu x = Seg.sdu s) (tx_list e2) ->
  Store.related Store.same_hdr (st e) (st e2) (rest ++ wait_list e ++ retransmit_list e ++ lost) ->
  Store.seg_bytes (st e2) (sent e s size) = take (Z.to_nat k) (Store.seg_bytes (st e) s) ->
  exists buffer' e',
    (emit_pdu (fun e' => poll_new_pdu e' (sent e s size)) e2 (sent e s size) buffer size
       ≫= tx_tail now_us (sent e s size)) = Ok (n, buffer', e')
    /\ wf e' lost /\ send_frame e' = send_frame e /\ zlen buffer' = zlen buffer
    /\ transmitted e lost s rest size n buffer' e'.
Proof using Hwf El Hsz Hroom Hd Hfree.
  intros Hm2 HF Hn2 Ld2 Hsn Hq Htx Hrel Hbytes.
  assert (HE : wait_list e2 = wait_list e /\ wait_end e2 = wait_end e
    /\ retransmit_list e2 = retransmit_list e /\ send_frame e2 = send_frame e
    /\ force_poll e2 = force_poll e /\ sn_field_length e2 = sn_field_length e).
  { unfold send_frame in *. split_and!; congruence. }
  destruct HE as (W2 & We2 & R2 & F2 & P2 & L2).
  assert (Hsd : Seg.sdu (sent e s size) = Seg.sdu s).
  { unfold sent. by destruct (_ <=? _). }
  destruct (sent_pdu_size e s size Hroom) as (_ & Hle & Hpos).
  { destruct Hwf as [Hm _]. destruct (Store.deref_ok _ _ s (m_store _ _ _ Hm)) as (d1 & _ & _ & Hr);
      [rewrite El; set_solver|]. unfold Store.in_range in Hr. lia. }
  destruct (emit_ok (fun e' => poll_new_pdu e' (sent e s size)) e2 (sent e s size) d2 buffer size lost)
    as (buffer' & e' & p & l & E & Hwf' & F' & Hlen & Hcar & Hls & (Hl & Hsort) & Hbs & Hb & Hav & Hfp & _);
    [apply tx_poll_ok|by rewrite W2, R2|rewrite W2, We2; apply Hwf|by rewrite Hsd|done
    |rewrite (pdu_size_cfg e e2) by done; done|].
  rewrite (pdu_size_cfg e e2) in * by done. fold n in E, Hcar. rewrite E, res_bind_unfold.
  unfold lists in Hls. injection Hls as I1 I2 I3 I4 I5.
  unfold tx_tail, Store.deref. rewrite I5, Hsd, Ld2. simpl of_option. rewrite res_bind_unfold.
  destruct (measure_wait_ok now_us (Sdu.time_of_arrival d2) (upd_stats (count_txpdu n) (common e')))
    as (avg & Em & Hw); [simpl; rewrite Hav; apply Hm2|].
  rewrite Em, res_bind_unfold. eexists buffer', _. split; [reflexivity|].
  split; [|split; [rewrite <- F2, <- F'; done|split; [done|]]].
  - destruct Hwf' as [Hm' He']. split; [|exact He']. by apply (mem_ext e').
  - split; [done|]. split; [unfold n; lia|]. split.
    { exists d, p. split; [done|]. split; [|by rewrite <- P2].
      rewrite Hsn, Hbytes in Hcar. by apply (carries_cfg e2). }
    simpl. split; [congruence|]. split.
    { etransitivity; [|exact Hq]. unfold queue. simpl. by rewrite I2. }
    split; [by rewrite I3, Hl, W2|]. split; [congruence|]. split; [done|].
    split; [exists d2; split; [done|]; intros d0 L0; congruence|]. rewrite I2. split; [done|].
    intros Hso. rewrite I3.
    assert (HK : sn_modulus e2 = sn_modulus e /\ tx_next_ack e2 = tx_next_ack e
      /\ sn_modulus e' = sn_modulus e2 /\ tx_next_ack e' = tx_next_ack e2).
    { unfold send_frame in *. split_and!; congruence. }
    destruct HK as (K1 & K2 & K3 & K4). rewrite W2 in Hsort. unfold sorted in Hso, Hsort |- *.
    rewrite (sn_keys_related e e2) in Hsort;
      [|eapply Store.related_sub; [|exact Hrel]; set_solver|congruence].
    specialize (Hsort Hso). erewrite map_ext; [exact Hsort|]. intros x. unfold sn_key, modulus_tx. simpl.
    by rewrite K3, K4.
Qed.

Lemma queue_rest st' :
  Store.related Store.same_hdr (st e) st' rest ->
  map (fun s => (Seg.so s, Store.seg_bytes st' s)) rest = tail (queue e).
Proof using Hwf El Hsz Hroom Hd Hfree.
  intros Hr. unfold queue. rewrite El. simpl. by apply queue_related, Store.related_bytes.
Qed.

Lemma generate_tx_ok :
  is_window_stalling e = false ->
  exists buffer' e', generate_tx_pdu now_us e buffer size = Ok (n, buffer', e')
    /\ wf e' lost /\ send_frame e' = send_frame e /\ zlen buffer' = zlen buffer
    /\ transmitted e lost s rest size n buffer' e'.
Proof using Hwf El Hsz Hroom Hd Hfree.
  intros Hst. unfold generate_tx_pdu. rewrite Hst, El, !Z.gtb_ltb.
  destruct (Z.ltb_spec size (compute_pdu_header_size e s + 1)); [lia|]. cbv zeta.
  change (upd_common _ {| e with tx_list := rest; tx_end := _ |}) with (untied e s rest).
  destruct (assign_ok e lost s rest d Hwf El Hd Hfree) as (e1 & E1 & S1 & B1 & F1 & C1).
  rewrite E1, res_bind_unfold.
  destruct (head_facts e lost s rest d Hwf El Hd Hfree) as (Hlast & _ & Hni & _).
  destruct (numbered_store_ok e lost s rest d Hwf El Hd Hfree) as (Hok1 & _ & Hrb & Hrh & d1 & Ld1 & Hsn1 & _).
  rewrite <- S1 in Hok1, Hrb, Hrh, Ld1.
  assert (HE : wait_list e1 = wait_list e /\ wait_end e1 = wait_end e
    /\ retransmit_list e1 = retransmit_list e /\ send_frame e1 = send_frame e
    /\ force_poll e1 = force_poll e /\ sn_field_length e1 = sn_field_length e /\ tx_size e1 = tx_size e
    /\ tx_list e1 = rest /\ tx_end e1 = Store.tail_of rest
    /\ tx_next e1 = (if Seg.is_first s then (tx_next e + 1) mod sn_modulus e else tx_next e)).
  { unfold send_frame, base in *. split_and!; congruence. }
  destruct HE as (W1 & We1 & R1 & G1 & P1 & L1 & T1 & X1 & Xe1 & N1).
  pose proof (taken_mem e lost s rest d Hwf El Hd Hfree e1 S1 B1 T1 C1) as Hm1.
  assert (Hs : s ∈ tx_list e ++ wait_list e ++ retransmit_list e ++ lost) by (rewrite El; set_solver).
  assert (Hb1 : Store.seg_bytes (st e1) s = Store.seg_bytes (st e) s).
  { apply Store.related_same_data in Hrb. by apply (proj1 (Forall_forall _ _) Hrb s). }
  assert (Hrw : Store.related Store.same_hdr (st e) (st e1) (rest ++ wait_list e ++ retransmit_list e ++ lost))
    by exact Hrh.
  assert (Hrr : Store.related Store.same_hdr (st e) (st e1) rest).
  { eapply Store.related_sub; [|exact Hrh]. set_solver. }
  destruct (Store.deref_ok _ _ s (m_store _ _ _ (proj1 Hwf)) Hs) as (d0 & _ & L0 & Hr).
  assert (d0 = d) as -> by congruence. unfold Store.in_range in Hr.
  destruct (Z.ltb_spec size (compute_pdu_header_size e s + Seg.size s)) as [Hcut|Hwhole].
  - assert (Hk : k = size - compute_pdu_header_size e s).
    { unfold k, chunk, pdu_size. by destruct (Z.leb_spec (compute_pdu_header_size e s + Seg.size s) size); [lia|]. }
    assert (Hsent : sent e s size = Store.shrink s k).
    { unfold sent, pdu_size. by destruct (Z.leb_spec (compute_pdu_header_size e s + Seg.size s) size); [lia|]. }
    rewrite (resegment_ok e1 s d1 size Ld1), res_bind_unfold.
    assert (Hh : compute_pdu_header_size e1 s = compute_pdu_header_size e s)
      by (unfold compute_pdu_header_size; by rewrite L1).
    rewrite Hh, <- Hk. cbv beta iota. rewrite res_ret_bind, tx_tail_emit, <- Hsent.
    pose proof (Store.add_ref_related (st e1) s d1 _ Hok1 Ld1) as Hra.
    set (nx := Store.remainder (st e1) s k). 
    lazymatch goal with |- context [emit_pdu _ ?x _ _ _] => set (e2 := x) end.
    assert (H2 : (wait_list e2, wait_end e2, retransmit_list e2, send_frame e2, force_poll e2)
        = (wait_list e1, wait_end e1, retransmit_list e1, send_frame e1, force_poll e1)
      /\ tx_next e2 = tx_next e1 /\ st e2 = Store.add_ref (st e1) s d1 /\ tx_size e2 = tx_size e1
      /\ base e2 = (sn_field_length e1, sn_modulus e1, window_size e1, tx_next e1, tx_next_ack e1,
                    nx :: tx_list e1, match tx_end e1 with None => Some (Seg.node nx) | x => x end)
      /\ bstatus (common e2) = {| (bstatus (common e1)) with
           Entity.tx_size := Entity.tx_size (bstatus (common e1)) + pdu_size e1 nx |}
      /\ txsdu_avg_time_to_tx (common e2) = txsdu_avg_time_to_tx (common e1)
      /\ tx_list e2 = nx :: tx_list e1) by done.
    clearbody e2. destruct H2 as (F2 & N2 & S2 & T2 & B2 & Bs2 & A2 & X2).
    rewrite Xe1, X1, Store.tail_of_push in B2. rewrite X1 in X2.
    assert (Hra' : Store.related Store.same_hdr (st e1) (st e2)
      (tx_list e ++ wait_list e ++ retransmit_list e ++ lost)) by (by rewrite S2).
    apply (tx_emit e2 {| d1 with Sdu.ref_count := Sdu.ref_count d1 + 1 |}).
    + rewrite Hsent. apply (split_mem_tx e1 e2 s d1 k); try done; [lia|by rewrite X1|]. by rewrite X1.
    + congruence.
    + congruence.
    + rewrite S2. apply lookup_insert_eq.
    + done.
    + unfold queue at 1. rewrite X2. destruct (Z.eqb_spec k (Seg.size s)); [lia|]. simpl.
      assert (Hbn : Store.seg_bytes (st e2) nx = drop (Z.to_nat k) (Store.seg_bytes (st e) s)).
      { unfold nx. by rewrite S2, (Store.remainder_bytes (st e1) s d1 k Ld1), Hb1 by lia. }
      rewrite Hbn. f_equal. apply queue_rest. apply (Store.related_trans _ _ (st e1)); [apply _|done|].
      eapply Store.related_sub; [|exact Hra']. rewrite El. set_solver.
    + rewrite X2. constructor; [by right|]. apply Forall_forall. intros x Hx. by left.
    + apply (Store.related_trans _ _ (st e1)); [apply _|done|].
      eapply Store.related_sub; [|exact Hra']. rewrite El. set_solver.
    + rewrite Hsent, S2, (Store.shrink_bytes (st e1) s d1 k Ld1), Hb1 by lia. done.
  - assert (Hk : k = Seg.size s).
    { unfold k, chunk, pdu_size. by destruct (Z.leb_spec (compute_pdu_header_size e s + Seg.size s) size); [|lia]. }
    assert (Hsent : sent e s size = s).
    { unfold sent, pdu_size. by destruct (Z.leb_spec (compute_pdu_header_size e s + Seg.size s) size); [|lia]. }
    rewrite res_ret_bind, tx_tail_emit. pose proof (tx_emit e1 d1) as He. rewrite Hsent in He.
    apply He; try done.
    + congruence.
    + rewrite Hk, Z.eqb_refl. unfold queue at 1. rewrite X1. simpl. by apply queue_rest.
    + rewrite X1. apply Forall_forall. intros x Hx. by left.
    + rewrite Hb1, Hk, take_ge; [done|].
      pose proof (Store.zlen_seg_bytes _ _ s (m_store _ _ _ (proj1 Hwf)) Hs). unfold zlen in *. lia.
Qed.

End tx.

End AmTxSpec.
