(* ===== verification/RlcAmOrder.v ===== *)
(** * RLC acknowledged mode: the order of the transmitting side

    The wait list and the retransmit list are ordered by SN, seen from
    TX_Next_Ack, and every SN in use lies between TX_Next_Ack and TX_Next, which
    are at most a window apart.  So the SN that the next SDU gets is free.  This
    file proves that every operation of the transmitting side keeps the order. *)

From stdpp Require Import sorting.
From S2P Require Import Prelude TimeStat RlcPdu RlcSdu RlcRxManager RlcEntity RlcUm RlcUmTx.
From S2P Require Import RlcAm RlcAmStatus RlcAmControl RlcAmRx RlcAmRxSpec RlcAmTx RlcAmTxInv.
From S2P Require Import RlcAmTxSpec RlcAmControlSpec.

Module AmOrder.
Import Entity Am AmTx AmTxInv.

(** The ends of the SDUs of which only a part was sent. *)
Definition begun (e : t) : list Seg.t := filter (fun s => Seg.is_first s = false) (tx_list e).

(** The segments that have an SN. *)
Definition in_flight (e : t) : list Seg.t := begun e ++ wait_list e ++ retransmit_list e.

Record ordered (e : t) : Prop := {
  o_next : modulus_tx e (tx_next e) <= window_size e;
  o_wait : sorted e (wait_list e);
  o_retx : sorted e (retransmit_list e);
  o_below : Forall (fun k => k < modulus_tx e (tx_next e)) (map (sn_key e) (in_flight e))
}.

(** ** Distances *)

Lemma modulus_tx_range e a :
  0 <= tx_next_ack e < sn_modulus e -> 0 <= a < sn_modulus e -> 0 <= modulus_tx e a < sn_modulus e.
Proof. unfold modulus_tx. cbv zeta. intros. zcases; lia. Qed.

Lemma modulus_tx_succ e a :
  0 <= tx_next_ack e < sn_modulus e -> 0 <= a < sn_modulus e -> modulus_tx e a + 1 < sn_modulus e ->
  modulus_tx e ((a + 1) mod sn_modulus e) = modulus_tx e a + 1.
Proof.
  unfold modulus_tx. cbv zeta. intros Hn Ha.
  assert (Hm : (a + 1) mod sn_modulus e = if a + 1 =? sn_modulus e then 0 else a + 1).
  { destruct (Z.eqb_spec (a + 1) (sn_modulus e)) as [->|]; [apply Z.mod_same|apply Z.mod_small]; lia. }
  rewrite Hm. destruct (Z.eqb_spec (a + 1) (sn_modulus e)), (Z.ltb_spec (a - tx_next_ack e) 0);
    intros Hlt; zcases; lia.
Qed.

(** The distances when TX_Next_Ack moves to [v]. *)
Lemma modulus_tx_moved e e' a :
  sn_modulus e' = sn_modulus e -> 0 <= tx_next_ack e < sn_modulus e ->
  0 <= tx_next_ack e' < sn_modulus e -> 0 <= a < sn_modulus e ->
  modulus_tx e (tx_next_ack e') <= modulus_tx e a ->
  modulus_tx e' a = modulus_tx e a - modulus_tx e (tx_next_ack e').
Proof. unfold modulus_tx. cbv zeta. intros ->. intros. zcases; lia. Qed.

Lemma not_stalling e :
  AmRxSpec.cfg e -> 0 <= tx_next_ack e < sn_modulus e -> is_window_stalling e = false ->
  modulus_tx e (tx_next e) < window_size e.
Proof.
  intros Hc Hn. destruct (AmRxSpec.cfg_window e Hc) as [HM HW]. unfold is_window_stalling.
  intros H%negb_false_iff%andb_true_iff. destruct H as [_ H%Z.ltb_lt]. unfold sn_compare_tx in H.
  assert (modulus_tx e ((tx_next_ack e + window_size e) mod sn_modulus e) = window_size e); [|lia].
  unfold modulus_tx. cbv zeta.
  destruct (decide (tx_next_ack e + window_size e < sn_modulus e)).
  - rewrite Z.mod_small by lia. zcases; lia.
  - rewrite <- (Z.mod_add _ (-1)), Z.mod_small by lia. zcases; lia.
Qed.

(** ** Keeping the order *)

Definition order_cfg (e : t) := (sn_modulus e, window_size e, tx_next_ack e, tx_next e).

Lemma ordered_keep e e' :
  ordered e -> order_cfg e' = order_cfg e -> begun e' ⊆ begun e ->
  wait_list e' = wait_list e -> retransmit_list e' = retransmit_list e ->
  Store.related Store.same_hdr (st e) (st e') (begun e' ++ wait_list e ++ retransmit_list e) ->
  ordered e'.
Proof.
  intros [H1 H2 H3 H4] [= EM EW EA EN] Hb Ew Er Hrel.
  assert (Hk : forall l, l ⊆ begun e' ++ wait_list e ++ retransmit_list e ->
    map (sn_key e') l = map (sn_key e) l).
  { intros l Hl. apply sn_keys_related; [|congruence]. by eapply Store.related_sub. }
  assert (Hn : modulus_tx e' (tx_next e') = modulus_tx e (tx_next e))
    by (unfold modulus_tx; by rewrite EM, EA, EN).
  constructor; rewrite ?Hn, ?EW; unfold sorted, in_flight; rewrite ?Ew, ?Er, ?Hk; try done; [set_solver..|].
  apply Forall_map. apply Forall_map in H4. rewrite Forall_forall in H4 |- *. intros x Hx. apply H4.
  unfold in_flight. set_solver.
Qed.

Lemma ordered_tx_part e e' : tx_part e' = tx_part e -> ordered e -> ordered e'.
Proof.
  intros Ht [H1 H2 H3 H4]. destruct e, e'. unfold tx_part, base in Ht. simpl in Ht. simplify_eq.
  by constructor.
Qed.

(** Nothing is in flight. *)
Lemma ordered_empty e :
  AmRxSpec.cfg e -> tx_list e = [] -> wait_list e = [] -> retransmit_list e = [] ->
  tx_next e = tx_next_ack e -> ordered e.
Proof.
  intros Hc Ht Hw Hr Hn. destruct (AmRxSpec.cfg_window e Hc) as [HM HW].
  constructor; unfold sorted, in_flight, begun; rewrite ?Ht, ?Hw, ?Hr; simpl; try constructor.
  unfold modulus_tx. rewrite Hn, Z.sub_diag. simpl. lia.
Qed.

(** The next SN is free. *)
Lemma ordered_sn_free e : wf e [] -> ordered e -> AmTxSpec.sn_free e [].
Proof.
  intros [Hm _] Ho x d Hx Hd Heq. rewrite app_nil_r in Hx.
  assert (Hfl : x ∈ in_flight e -> False).
  { intros Hf. pose proof (o_below _ Ho) as Hb. rewrite Forall_map, Forall_forall in Hb.
    specialize (Hb x Hf). unfold sn_key in Hb. rewrite Hd, Heq in Hb. simpl in Hb. lia. }
  apply elem_of_app in Hx as [Hx|Hx]; [|apply Hfl; unfold in_flight; set_solver].
  destruct (Seg.is_first x) eqn:Ef.
  - destruct (proj1 (Forall_forall _ _) (m_unsent _ _ _ Hm) x Hx) as (d0 & L0 & _ & H0). rewrite Ef in H0.
    assert (d0 = d) as -> by congruence. pose proof (m_next _ _ _ Hm). lia.
  - apply Hfl. unfold in_flight. apply elem_of_app. left. by apply list_elem_of_filter.
Qed.

(** ** The upper layer *)

Lemma begun_snoc e e' s :
  tx_list e' = tx_list e ++ [s] -> Seg.is_first s = true -> begun e' = begun e.
Proof.
  intros El Hf. unfold begun. rewrite El, filter_app, filter_cons_False by (by rewrite Hf).
  apply app_nil_r.
Qed.

Lemma recv_sdu_ordered now_us e lost buffer id e' :
  wf e lost -> nr_rlc_entity_am_recv_sdu now_us e buffer id = Ok e' -> ordered e -> ordered e'.
Proof.
  intros Hwf E Ho. unfold nr_rlc_entity_am_recv_sdu in E. cbv zeta in E.
  destruct (negb _); [done|]. set (e1 := if _ && _ then _ else _) in E.
  assert (Ht : tx_part e1 = tx_part e) by (unfold e1; by destruct (_ && _)).
  clearbody e1. apply (ordered_tx_part _ _ Ht) in Ho. apply (wf_tx_part _ _ _ Ht) in Hwf. clear Ht e.
  destruct (_ >? _); [injection E as <-; by apply (ordered_tx_part e1)|].
  destruct (Store.nr_rlc_new_sdu (st e1) buffer id) as [s st'] eqn:Enew.
  destruct Hwf as [Hm _]. pose proof (m_store _ _ _ Hm) as Hst.
  destruct (Store.new_sdu_ok _ _ _ _ _ _ Hst Enew) as (Hok & _ & _ & _ & Hfst & _).
  pose proof (Store.new_sdu_related _ _ _ _ _ _ Hst Enew) as Hrel.
  rewrite (m_end _ _ _ Hm), Store.append_ok, res_bind_unfold in E.
  2: { pose proof (Store.ok_nodup _ _ Hst) as Hnn. rewrite map_app in Hnn. by apply NoDup_app in Hnn as [? _]. }
  set (c := add_bs_tx _ _) in E.
  destruct (stamp_arrival_ok now_us c st' _ s Hok) as (st2 & Es & _ & Hrel2); [left|].
  rewrite Es, res_bind_unfold in E. injection E as <-. apply Forall_cons in Hrel2 as [_ Hrel2].
  apply (ordered_keep e1); try done.
  - by rewrite (begun_snoc e1 _ s).
  - simpl st. rewrite (begun_snoc e1 _ s) by done.
    eapply Store.related_sub; [|exact (Store.related_trans _ _ _ _ _ _ Hrel Hrel2)].
    unfold begun. intros x. rewrite !elem_of_app, list_elem_of_filter. naive_solver.
Qed.

Lemma discard_ordered e lost id e' :
  wf e lost -> nr_rlc_entity_am_discard_sdu e id = Ok e' -> ordered e -> ordered e'.
Proof.
  intros [Hm _] E Ho. unfold nr_rlc_entity_am_discard_sdu in E. pose proof (m_store _ _ _ Hm) as Hst.
  destruct (UmTx.find_sdu_ok (st e) (tx_list e) id _ Hst) as (before & from & Ef & El); [set_solver|].
  rewrite Ef, res_bind_unfold in E. destruct from as [|cur after]; [by injection E as <-|].
  destruct (_ || _); [by injection E as <-|]. apply res_bind_ok in E as (d & _ & E).
  apply res_bind_ok in E as ([b st'] & Efr & E). injection E as <-.
  assert (Hp : tx_list e ++ wait_list e ++ retransmit_list e ++ lost
    ≡ₚ cur :: (before ++ after) ++ wait_list e ++ retransmit_list e ++ lost)
    by (rewrite El; solve_Permutation).
  rewrite Hp in Hst. pose proof (Store.free_related _ _ _ _ _ Hst Efr) as Hrel.
  apply (ordered_keep e); try done.
  - unfold begun. simpl tx_list. rewrite El. intros x. rewrite !list_elem_of_filter. set_solver.
  - eapply Store.related_sub; [|exact Hrel]. unfold begun. simpl tx_list. intros x.
    rewrite !elem_of_app, list_elem_of_filter. set_solver.
Qed.

(** ** Grants *)

Lemma sn_key_sdu e s s' : Seg.sdu s = Seg.sdu s' -> sn_key e s = sn_key e s'.
Proof. unfold sn_key. by intros ->. Qed.

Lemma sent_sdu e s size : Seg.sdu (AmTxSpec.sent e s size) = Seg.sdu s.
Proof. unfold AmTxSpec.sent. by destruct (_ <=? _). Qed.

(** The keys of the segments of a list, when the headers are related. *)
Lemma sn_key_related e e' l x :
  Store.related Store.same_hdr (st e) (st e') l ->
  (sn_modulus e', tx_next_ack e') = (sn_modulus e, tx_next_ack e) -> x ∈ l ->
  sn_key e' x = sn_key e x.
Proof.
  intros Hr HE Hx. assert (H : map (sn_key e') [x] = map (sn_key e) [x]); [|by injection H].
  apply sn_keys_related; [|done]. eapply Store.related_sub; [|exact Hr]. set_solver.
Qed.

Lemma send_cfg e e' :
  AmTxSpec.send_frame e' = AmTxSpec.send_frame e ->
  sn_modulus e' = sn_modulus e /\ window_size e' = window_size e /\ tx_next_ack e' = tx_next_ack e
  /\ (sn_modulus e', tx_next_ack e') = (sn_modulus e, tx_next_ack e)
  /\ forall a, modulus_tx e' a = modulus_tx e a.
Proof.
  intros F. assert (H : sn_modulus e' = sn_modulus e /\ window_size e' = window_size e
    /\ tx_next_ack e' = tx_next_ack e) by (unfold AmTxSpec.send_frame in F; split_and!; congruence).
  destruct H as (H1 & H2 & H3). split_and!; try done; [congruence|]. intros a. unfold modulus_tx.
  by rewrite H1, H3.
Qed.

Lemma retx_ordered e lost s rest size n buffer' e' :
  retransmit_list e = s :: rest -> AmTxSpec.retransmitted e lost s rest size n buffer' e' ->
  AmTxSpec.send_frame e' = AmTxSpec.send_frame e -> ordered e -> ordered e'.
Proof.
  intros El (_ & _ & _ & [= HN HX] & Hw & Hr & Hrel & Hsort) F [H1 H2 H3 H4].
  destruct (send_cfg _ _ F) as (EM & EW & EA & EMA & Hmod).
  assert (Hk : forall x, x ∈ tx_list e ++ wait_list e ++ retransmit_list e ++ lost ->
    sn_key e' x = sn_key e x) by (intros x Hx; by apply (sn_key_related e e' _ x Hrel EMA)).
  assert (Hrest : map (sn_key e') rest = map (sn_key e) rest).
  { apply map_ext_in. intros x Hx%list_elem_of_In. apply Hk. rewrite El. set_solver. }
  assert (Hs : sn_key e' s = sn_key e s) by (apply Hk; rewrite El; set_solver).
  unfold sorted in H3. rewrite El in H3. simpl in H3.
  rewrite Forall_map, Forall_forall in H4. unfold in_flight in H4. rewrite El in H4.
  constructor; rewrite ?HN, ?Hmod, ?EW; [done|by apply Hsort|..].
  - rewrite Hr. unfold sorted. destruct (_ =? _); simpl; rewrite Hrest; [by inversion H3|].
    rewrite (sn_key_sdu e' _ s), Hs by done. done.
  - apply Forall_map, Forall_forall. intros x. unfold in_flight, begun. rewrite HX. fold (begun e).
    rewrite !elem_of_app, Hw, Hr, elem_of_app, elem_of_cons. cbv beta.
    intros [Hx|[[->|Hx]|[Hx|Hx]]].
    + rewrite Hk; [apply H4; set_solver|]. apply list_elem_of_filter in Hx as [_ Hx]. set_solver.
    + rewrite (sn_key_sdu e' _ s), Hs by apply sent_sdu. apply H4. set_solver.
    + rewrite Hk by set_solver. apply H4. set_solver.
    + destruct (_ =? _); [by apply elem_of_nil in Hx|]. apply list_elem_of_singleton in Hx as ->.
      rewrite (sn_key_sdu e' _ s), Hs by done. apply H4. set_solver.
    + rewrite Hk by (rewrite El; set_solver). apply H4. set_solver.
Qed.

Lemma tx_ordered e lost s rest size n buffer' e' :
  wf e lost -> tx_list e = s :: rest -> is_window_stalling e = false ->
  AmTxSpec.transmitted e lost s rest size n buffer' e' ->
  AmTxSpec.send_frame e' = AmTxSpec.send_frame e -> ordered e -> ordered e'.
Proof.
  intros [Hm _] El Hst (_ & _ & _ & HN & _ & Hw & Hr & Hrel & (d' & Ld' & Hd') & Htx & Hsort) F [H1 H2 H3 H4].
  destruct (send_cfg _ _ F) as (EM & EW & EA & EMA & Hmod).
  pose proof (m_cfg _ _ _ Hm) as Hc. destruct (AmRxSpec.cfg_window e Hc) as [HM HW].
  pose proof (not_stalling e Hc (m_next_ack _ _ _ Hm) Hst) as Hlt.
  assert (Hk : forall x, x ∈ rest ++ wait_list e ++ retransmit_list e ++ lost ->
    sn_key e' x = sn_key e x) by (intros x Hx; by apply (sn_key_related e e' _ x Hrel EMA)).
  rewrite Forall_map, Forall_forall in H4. unfold in_flight in H4.
  assert (Hb : forall x, x ∈ tx_list e -> Seg.is_first x = false -> x ∈ begun e)
    by (intros x Hx Hf; by apply list_elem_of_filter).
  assert (Hnext : modulus_tx e (tx_next e) <= modulus_tx e (tx_next e') <= window_size e
    /\ sn_key e' s < modulus_tx e (tx_next e')).
  { destruct (Store.deref_ok _ _ s (m_store _ _ _ Hm)) as (d & _ & Ld & _); [rewrite El; set_solver|].
    assert (Hs : sn_key e' s = modulus_tx e (AmTxSpec.sn_of e s d)).
    { unfold sn_key. by rewrite Ld', Hmod, (Hd' d Ld). }
    rewrite Hs, HN. unfold AmTxSpec.sn_of. destruct (Seg.is_first s) eqn:Ef.
    - rewrite modulus_tx_succ by (apply Hm || lia). lia.
    - split; [lia|]. specialize (H4 s). unfold sn_key in H4. rewrite Ld in H4. apply H4.
      apply elem_of_app. left. apply Hb; [rewrite El; left|done]. }
  destruct Hnext as [Hnext Hs].
  constructor; rewrite ?Hmod, ?EW; [lia|by apply Hsort|..].
  - rewrite Hr. unfold sorted in H3 |- *. erewrite map_ext_in; [exact H3|].
    intros x Hx%list_elem_of_In. apply Hk. set_solver.
  - apply Forall_map, Forall_forall. intros x. unfold in_flight.
    rewrite !elem_of_app, Hw, Hr, elem_of_cons. cbv beta. intros [Hx|[[->|Hx]|Hx]].
    + unfold begun in Hx. apply list_elem_of_filter in Hx as [Hf Hx]. rewrite Forall_forall in Htx.
      destruct (Htx x Hx) as [Hx'|Hx']; [|by rewrite (sn_key_sdu e' x s)].
      rewrite Hk by set_solver. eapply Z.lt_le_trans; [apply H4|apply Hnext].
      apply elem_of_app. left. apply Hb; [rewrite El; set_solver|done].
    + by rewrite (sn_key_sdu e' _ s) by apply sent_sdu.
    + rewrite Hk by set_solver. eapply Z.lt_le_trans; [apply H4|apply Hnext]. set_solver.
    + rewrite Hk by set_solver. eapply Z.lt_le_trans; [apply H4|apply Hnext]. set_solver.
Qed.

(** ** The poll timer *)

Lemma keys_app e l1 l2 :
  sorted e (l1 ++ l2)
  <-> (forall x y, x ∈ l1 -> y ∈ l2 -> sn_key e x <= sn_key e y) /\ sorted e l1 /\ sorted e l2.
Proof.
  unfold sorted. rewrite map_app, StronglySorted_app. split.
  - intros (H & H1 & H2). split_and!; try done. intros x y Hx Hy. apply H; by apply list_elem_of_fmap_2.
  - intros (H & H1 & H2). split_and!; try done. intros x y Hx Hy.
    apply list_elem_of_fmap in Hx as (? & -> & ?), Hy as (? & -> & ?). by apply H.
Qed.

Lemma keys_cons e x l :
  sorted e (x :: l) <-> (forall y, y ∈ l -> sn_key e x <= sn_key e y) /\ sorted e l.
Proof.
  change (x :: l) with ([x] ++ l). rewrite keys_app. split.
  - intros (H & _ & H2). split; [|done]. intros y. by apply H, list_elem_of_singleton.
  - intros (H & H2). split_and!; [|repeat constructor|done].
    intros ? y ->%list_elem_of_singleton. by apply H.
Qed.

(** A part of what waits goes to its places in the retransmit list. *)
Lemma poll_ordered e lost e' moved :
  base e' = base e -> wait_list e = moved ++ wait_list e' ->
  retransmit_list e' ≡ₚ moved ++ retransmit_list e ->
  Store.related Store.same_hdr (st e) (st e') (tx_list e ++ wait_list e ++ retransmit_list e ++ lost) ->
  (sorted e (retransmit_list e) -> sorted e (retransmit_list e')) -> ordered e -> ordered e'.
Proof.
  intros Hb Hw Hr Hrel Hsort [H1 H2 H3 H4].
  assert (HB : sn_modulus e' = sn_modulus e /\ window_size e' = window_size e
    /\ tx_next_ack e' = tx_next_ack e /\ tx_next e' = tx_next e /\ tx_list e' = tx_list e).
  { unfold base in Hb. split_and!; congruence. }
  destruct HB as (EM & EW & EA & EN & EX).
  assert (Hmod : forall a, modulus_tx e' a = modulus_tx e a) by (intros; unfold modulus_tx; by rewrite EM, EA).
  assert (Hk : forall l, l ⊆ tx_list e ++ wait_list e ++ retransmit_list e ++ lost ->
    map (sn_key e') l = map (sn_key e) l).
  { intros l Hl. apply sn_keys_related; [|congruence]. by eapply Store.related_sub. }
  assert (Hin : in_flight e' ⊆ in_flight e).
  { unfold in_flight, begun. rewrite EX, Hr, Hw. set_solver. }
  assert (Hall : in_flight e ⊆ tx_list e ++ wait_list e ++ retransmit_list e ++ lost).
  { unfold in_flight, begun. intros x. rewrite !elem_of_app, list_elem_of_filter. naive_solver. }
  constructor; rewrite ?EN, ?EW, ?Hmod; [done|..].
  - unfold sorted. rewrite Hk by (rewrite Hw; set_solver). rewrite Hw in H2. by apply keys_app in H2 as (_ & _ & ?).
  - unfold sorted. rewrite Hk; [by apply Hsort|]. rewrite Hr, Hw. set_solver.
  - rewrite Hk by set_solver. rewrite Forall_map, Forall_forall in H4 |- *. intros x Hx. by apply H4, Hin.
Qed.

(** ** Control PDUs *)

Import AmControl AmControlSpec.

Section walk.
Context (e0 : t) (ack_sn : Z).

(** The two lists are ordered, and what was put in the new retransmit list comes
    before what is still in front in the wait list. *)
Record ctl_ord (c : ctl) : Prop := {
  w_wait : sorted e0 (wait_done c ++ wait_rest c);
  w_retx : sorted e0 (retx_new c ++ retx_cur c);
  w_front : forall x y, x ∈ retx_new c -> y ∈ cur_wait c -> sn_key e0 x <= sn_key e0 y;
  w_sub : (wait_done c ++ wait_rest c) ++ retx_new c ++ retx_cur c ⊆ wait_list e0 ++ retransmit_list e0
}.

Definition walk_ord (w : walk) : Prop :=
  match w with NextPdu c | DoneNack c | ListsOver c => ctl_ord c end.

(** The code compares the keys the segments have in [e0]. *)
Lemma k_key c lost s d :
  ctl_ok e0 ack_sn c lost -> s ∈ live e0 c lost -> Store.deref (st (ent c)) s = Ok d ->
  modulus_tx (ent c) (Sdu.sn d) = sn_key e0 s.
Proof.
  intros Hk Hs Hd. destruct (k_deref _ _ c lost s Hk Hs) as (d' & d0 & Hd' & _ & L0 & _ & Hsn & _).
  assert (d' = d) as -> by congruence. unfold sn_key. rewrite L0, Hsn.
  destruct (k_base _ _ c lost Hk) as [Hb _]. apply base_fields in Hb as (_ & EM & _ & EA & _).
  unfold modulus_tx. by rewrite EM, EA.
Qed.

Lemma wait_head_ord c s rest n w :
  ctl_ord c -> cur_wait c = s :: rest -> (forall y, y ∈ retx_cur c -> sn_key e0 s <= sn_key e0 y) ->
  process_wait_list_head c s rest ack_sn n = Ok w -> walk_ord w.
Proof.
  intros Ho Ec Hmin E. pose proof Ho as [Hw Hr Hf Hsub]. destruct n as [[nsn nso] nend].
  assert (HE : wait_null c = false /\ wait_rest c = s :: rest).
  { unfold cur_wait in Ec. by destruct (wait_null c). }
  destruct HE as [Hnull Er]. rewrite Ec in Hf. rewrite Er in Hw, Hsub.
  apply keys_app in Hw as (Hd & Hdone & Hrest). apply keys_cons in Hrest as [Hs Hrest].
  assert (Hw' : sorted e0 (wait_done c ++ rest)).
  { apply keys_app. split_and!; try done. intros x y Hx Hy. apply Hd; [done|by right]. }
  assert (Hf' : forall x y, x ∈ retx_new c -> y ∈ rest -> sn_key e0 x <= sn_key e0 y).
  { intros x y Hx Hy. apply Hf; [done|by right]. }
  unfold process_wait_list_head in E. apply res_bind_ok in E as (d & _ & E).
  destruct (_ && so_overlap _ _ _ _).
  { apply res_bind_ok in E as (c' & E' & [= <-]). unfold nack_wait_head in E'.
    apply res_bind_ok in E' as (d' & _ & E'). injection E' as <-.
    apply keys_app in Hr as (Hr1 & Hnew & Hcur). constructor; simpl.
    - done.
    - rewrite <- app_assoc. apply keys_app. split_and!; try done.
      + intros x y Hx [->|Hy]%elem_of_cons; [apply Hf; [done|left]|by apply Hr1].
      + by apply keys_cons.
    - unfold cur_wait. simpl. rewrite Hnull. intros x y [Hx|Hx]%elem_of_app Hy; [by apply Hf'|].
      apply list_elem_of_singleton in Hx as ->. by apply Hs.
    - set_solver. }
  destruct (_ || _); [by injection E as <-|].
  destruct (_ <? _).
  { apply res_bind_ok in E as (e' & _ & [= <-]). constructor; simpl; try done; [|set_solver].
    unfold cur_wait. simpl. by rewrite Hnull. }
  destruct (_ >? _); injection E as <-; constructor; simpl; try done.
  - by rewrite Er; apply keys_app; split_and!; [..|apply keys_cons].
  - intros x y _ Hy. by apply elem_of_nil in Hy.
  - by rewrite Er.
  - rewrite <- app_assoc. apply keys_app. by split_and!; [..|apply keys_cons].
  - unfold cur_wait. simpl. by rewrite Hnull.
  - set_solver.
Qed.

Lemma retx_head_ord c s rest n w :
  ctl_ord c -> retx_cur c = s :: rest -> (forall y, y ∈ cur_wait c -> sn_key e0 s <= sn_key e0 y) ->
  process_retransmit_list_head c s rest ack_sn n = Ok w -> walk_ord w.
Proof.
  intros Ho Er Hmin E. pose proof Ho as [Hw Hr Hf Hsub]. destruct n as [[nsn nso] nend]. rewrite Er in Hr, Hsub.
  assert (Hkeep : ctl_ord {| c with retx_new := retx_new c ++ [s]; retx_cur := rest |}).
  { constructor; simpl; [done|by rewrite <- app_assoc| |set_solver].
    intros x y [Hx|Hx]%elem_of_app Hy; [by apply Hf|]. apply list_elem_of_singleton in Hx as ->.
    by apply Hmin. }
  apply keys_app in Hr as (Hr1 & Hnew & Hcur). apply keys_cons in Hcur as [_ Hcur].
  unfold process_retransmit_list_head in E. apply res_bind_ok in E as (d & _ & E).
  destruct (_ && so_overlap _ _ _ _); [by injection E as <-|].
  destruct (_ || _); [by injection E as <-|].
  destruct (_ <? _).
  { apply res_bind_ok in E as (e' & _ & [= <-]). constructor; simpl; try done; [|set_solver].
    apply keys_app. split_and!; try done. intros x y Hx Hy. apply Hr1; [done|by right]. }
  destruct (cur_wait c) eqn:Ec; injection E as <-; [|done].
  constructor; simpl; try done; [by rewrite app_nil_r| |set_solver]. change (cur_wait _) with (cur_wait c).
  by rewrite Ec.
Qed.

Lemma next_pdu_ord c lost n w :
  ctl_ok e0 ack_sn c lost -> ctl_ord c -> process_next_pdu c ack_sn n = Ok w -> walk_ord w.
Proof.
  intros Hk Ho E. unfold process_next_pdu in E. destruct (cur_wait c) as [|x wr] eqn:Ew.
  - destruct (retx_cur c) as [|r rr] eqn:Er; [by injection E as <-|].
    eapply (retx_head_ord c r rr); try done. rewrite Ew. intros y Hy. by apply elem_of_nil in Hy.
  - destruct (retx_cur c) as [|r rr] eqn:Er.
    { eapply (wait_head_ord c x wr); try done. rewrite Er. intros y Hy. by apply elem_of_nil in Hy. }
    assert (HE : wait_rest c = x :: wr) by (unfold cur_wait in Ew; by destruct (wait_null c)).
    apply res_bind_ok in E as (dw & Hdw & E). apply res_bind_ok in E as (dr & Hdr & E). cbv zeta in E.
    pose proof (k_key c lost x dw Hk) as Kw. pose proof (k_key c lost r dr Hk) as Kr.
    unfold sn_compare_tx in E. rewrite Kw, Kr in E; [|unfold live; rewrite Er; set_solver|done
      |rewrite (live_wait e0 c x wr) by done; left|done].
    pose proof Ho as [Hw Hr Hf _].
    assert (Hx : forall y, y ∈ wr -> sn_key e0 x <= sn_key e0 y).
    { rewrite HE in Hw. by apply keys_app in Hw as (_ & _ & [? _]%keys_cons). }
    assert (Hrr : forall y, y ∈ rr -> sn_key e0 r <= sn_key e0 y).
    { rewrite Er in Hr. by apply keys_app in Hr as (_ & _ & [? _]%keys_cons). }
    destruct (_ || _) eqn:Ecmp.
    + assert (Hle : sn_key e0 x <= sn_key e0 r).
      { apply orb_true_iff in Ecmp as [?%Z.ltb_lt|[?%Z.eqb_eq _]%andb_true_iff]; lia. }
      eapply (wait_head_ord c x wr); try done. rewrite Er.
      intros y [->|Hy]%elem_of_cons; [done|]. specialize (Hrr y Hy). lia.
    + assert (Hle : sn_key e0 r <= sn_key e0 x).
      { apply orb_false_iff in Ecmp as [?%Z.ltb_ge _]. lia. }
      eapply (retx_head_ord c r rr); try done. rewrite Ew.
      intros y [->|Hy]%elem_of_cons; [done|]. specialize (Hx y Hy). lia.
Qed.

Lemma process_nack_ord fuel n : forall c lost b c',
  ctl_ok e0 ack_sn c lost -> ctl_ord c -> process_nack fuel c ack_sn n = Ok (b, c') -> ctl_ord c'.
Proof.
  induction fuel as [|fuel IH]; intros c lost b c' Hk Ho E; [done|].
  cbn [process_nack] in E. destruct (next_pdu_ok e0 ack_sn c lost n Hk) as (w & Ew & Hw).
  pose proof (next_pdu_ord c lost n w Hk Ho Ew) as How. rewrite Ew, res_bind_unfold in E.
  destruct w as [c1|c1|c1]; [|by injection E as _ <-..]. destruct Hw as [Hk1 _]. by eapply IH.
Qed.

Lemma process_range_ord b k : forall i c lost c',
  ctl_ok e0 ack_sn c lost -> ctl_ord c -> process_range k i c ack_sn b = Ok c' -> ctl_ord c'.
Proof.
  induction k as [|k IH]; intros i c lost c' Hk Ho E; [by injection E as <-|]. cbn [process_range] in E.
  destruct (process_nack_ok e0 ack_sn (walk_fuel c) (nack_at (ent c) b i) c lost Hk)
    as (o & c1 & lost1 & E1 & Hk1 & _).
  { unfold measure, walk_fuel. destruct (wait_null c); lia. }
  pose proof (process_nack_ord _ _ c lost o c1 Hk Ho E1) as Ho1. rewrite E1, res_bind_unfold in E.
  destruct o; [by injection E as <-|]. by eapply IH.
Qed.

Lemma process_nacks_ord fuel : forall d e1 c lost c',
  ctl_ok e0 ack_sn c lost -> ctl_ord c -> process_nacks fuel c d ack_sn e1 = Ok c' -> ctl_ord c'.
Proof.
  induction fuel as [|fuel IH]; intros d e1 c lost c' Hk Ho E; [done|]. cbn [process_nacks] in E.
  destruct e1; [|by injection E as <-]. apply res_bind_ok in E as ([b d'] & _ & E).
  destruct (process_range_ok e0 ack_sn b (Z.to_nat (n_range b)) 0 c lost Hk) as (c1 & lost1 & E1 & Hk1 & _);
    [lia|].
  pose proof (process_range_ord _ _ _ c lost c1 Hk Ho E1) as Ho1. rewrite E1, res_bind_unfold in E.
  eapply IH; [|..|exact E]; [by apply stop_poll_ctl|by destruct Ho1; constructor].
Qed.

Lemma ack_wait_ord l : forall c lost c',
  ctl_ok e0 ack_sn c lost -> cur_wait c = l -> ctl_ord c -> ack_wait c l ack_sn = Ok c' -> ctl_ord c'.
Proof.
  induction l as [|s l IH]; intros c lost c' Hk Hl Ho E; [by injection E as <-|]. cbn [ack_wait] in E.
  assert (HE : wait_null c = false /\ wait_rest c = s :: l).
  { unfold cur_wait in Hl. by destruct (wait_null c). }
  destruct HE as [Hnull Er]. destruct (k_deref _ _ c lost s Hk) as (d & d0 & Hd & L & _).
  { rewrite (live_wait e0 c s l) by done. left. }
  rewrite Hd, res_bind_unfold in E.
  destruct (Z.ltb_spec (sn_compare_tx (ent c) (Sdu.sn d) ack_sn) 0); [|by injection E as <-].
  destruct (free_wait_ok _ _ c s l lost d Hk Er L) as (e' & Ef & Hk'); [done|].
  rewrite Ef, res_bind_unfold in E. eapply IH; [exact Hk'| |..|exact E].
  - unfold cur_wait. simpl. by rewrite Hnull.
  - destruct Ho as [Hw Hr Hf Hsub]. rewrite Hl in Hf. rewrite Er in Hw, Hsub.
    constructor; simpl; try done; [..|set_solver].
    + apply keys_app in Hw as (Hd1 & Hdone & [_ Hrest]%keys_cons). apply keys_app.
      split_and!; try done. intros x y Hx Hy. apply Hd1; [done|by right].
    + unfold cur_wait. simpl. rewrite Hnull. intros x y Hx Hy. apply Hf; [done|by right].
Qed.

Lemma ack_retx_ord l : forall c lost c',
  ctl_ok e0 ack_sn c lost -> retx_cur c = l -> ctl_ord c -> ack_retx c l ack_sn = Ok c' -> ctl_ord c'.
Proof.
  induction l as [|s l IH]; intros c lost c' Hk Er Ho E; [by injection E as <-|]. cbn [ack_retx] in E.
  destruct (k_deref _ _ c lost s Hk) as (d & d0 & Hd & L & _).
  { unfold live. rewrite Er. set_solver. }
  rewrite Hd, res_bind_unfold in E.
  destruct (Z.ltb_spec (sn_compare_tx (ent c) (Sdu.sn d) ack_sn) 0); [|by injection E as <-].
  destruct (free_retx_ok _ _ c s l lost d Hk Er L) as (e' & Ef & Hk'); [done|].
  rewrite Ef, res_bind_unfold in E. eapply IH; [exact Hk'|done| |exact E].
  destruct Ho as [Hw Hr Hf Hsub]. rewrite Er in Hr, Hsub. constructor; simpl; try done; [|set_solver].
  apply keys_app in Hr as (Hd1 & Hnew & [_ Hcur]%keys_cons). apply keys_app.
  split_and!; try done. intros x y Hx Hy. apply Hd1; [done|by right].
Qed.

(** ** TX_Next_Ack *)

Section finish.
Context (e1 : t) (HM : 0 <= tx_next_ack e1 < sn_modulus e1).

(** The SN at the head of an ordered list comes before those of the list. *)
Lemma min_with_head_ord l v v' :
  sorted e1 l -> Forall (numbered (sn_modulus e1) (st e1)) l -> 0 <= v < sn_modulus e1 ->
  min_with_head e1 l v = Ok v' ->
  0 <= v' < sn_modulus e1 /\ modulus_tx e1 v' <= modulus_tx e1 v
  /\ forall x, x ∈ l -> modulus_tx e1 v' <= sn_key e1 x.
Proof using HM.
  intros Hs Hl Hv E. destruct l as [|s l].
  { injection E as <-. split_and!; [lia..|]. intros x Hx. by apply elem_of_nil in Hx. }
  apply keys_cons in Hs as [Hs _]. apply Forall_cons in Hl as [(d & L & Hd) _].
  unfold min_with_head, Store.deref in E. rewrite L in E. simpl of_option in E.
  rewrite res_bind_unfold in E. injection E as <-.
  assert (Ks : sn_key e1 s = modulus_tx e1 (Sdu.sn d)) by (unfold sn_key; by rewrite L).
  assert (Hx : forall x, x ∈ s :: l -> sn_key e1 s <= sn_key e1 x).
  { intros x [->|Hx]%elem_of_cons; [lia|by apply Hs]. }
  unfold sn_compare_tx. destruct (Z.ltb_spec (modulus_tx e1 (Sdu.sn d) - modulus_tx e1 v) 0);
    (split_and!; [lia..|]); intros x Hin; specialize (Hx x Hin); lia.
Qed.

(** The order after the window moved. *)
Lemma ordered_moved e' :
  st e' = st e1 -> (sn_modulus e', window_size e', tx_next e', wait_list e', retransmit_list e', tx_list e')
    = (sn_modulus e1, window_size e1, tx_next e1, wait_list e1, retransmit_list e1, tx_list e1) ->
  0 <= tx_next_ack e' < sn_modulus e1 -> 0 <= tx_next e1 < sn_modulus e1 ->
  Forall (numbered (sn_modulus e1) (st e1)) (in_flight e1) ->
  modulus_tx e1 (tx_next_ack e') <= modulus_tx e1 (tx_next e1) ->
  (forall x, x ∈ in_flight e1 -> modulus_tx e1 (tx_next_ack e') <= sn_key e1 x) ->
  ordered e1 -> ordered e'.
Proof using HM.
  intros ES [= EM EW EN EWt ER EX] Hv Hn Hnum Hle Hall [H1 H2 H3 H4].
  set (kv := modulus_tx e1 (tx_next_ack e')) in *.
  assert (Hkv : 0 <= kv) by (by apply modulus_tx_range).
  assert (Hin : in_flight e' = in_flight e1) by (unfold in_flight, begun; by rewrite EX, EWt, ER).
  assert (Hk : forall l, l ⊆ in_flight e1 -> map (sn_key e') l = (fun k => k - kv) <$> map (sn_key e1) l).
  { intros l Hl. unfold fmap. rewrite map_map. apply map_ext_in. intros x Hx%list_elem_of_In.
    destruct (proj1 (Forall_forall _ _) Hnum x (Hl x Hx)) as (d & L & Hd).
    specialize (Hall x (Hl x Hx)). unfold sn_key in *. rewrite ES, L in *.
    by apply modulus_tx_moved. }
  assert (Hn' : modulus_tx e' (tx_next e') = modulus_tx e1 (tx_next e1) - kv)
    by (rewrite EN; by apply modulus_tx_moved).
  assert (Hmono : forall l, l ⊆ in_flight e1 -> sorted e1 l -> sorted e' l).
  { intros l Hl Hs. unfold sorted. rewrite Hk by done.
    apply (StronglySorted_fmap _ Z.le Z.le); [|done]. intros. lia. }
  constructor; rewrite ?EWt, ?ER, ?Hin, ?EW, ?Hn'; [lia|apply Hmono; [unfold in_flight; set_solver|done]..|].
  rewrite Hk by done. apply Forall_fmap. eapply Forall_impl; [exact H4|]. simpl. lia.
Qed.

End finish.

Lemma finish_ord c lost e' :
  ctl_ok e0 ack_sn c lost -> ctl_ord c -> ordered e0 -> Forall (numbered (sn_modulus e0) (st e0)) (begun e0) ->
  0 <= ack_sn < sn_modulus e0 -> modulus_tx e0 ack_sn <= modulus_tx e0 (tx_next e0) ->
  (forall x, x ∈ begun e0 -> modulus_tx e0 ack_sn <= sn_key e0 x) ->
  finish_control c ack_sn = Ok e' -> ordered e'.
Proof.
  intros Hk [Hw Hr _ Hsub] Ho Hnb Ha Hle Hbg E. unfold finish_control in E. cbv zeta in E.
  destruct (k_base _ _ c lost Hk) as [Hb Etx].
  assert (HB : sn_modulus (ent c) = sn_modulus e0 /\ window_size (ent c) = window_size e0
    /\ tx_next_ack (ent c) = tx_next_ack e0 /\ tx_next (ent c) = tx_next e0).
  { unfold base in Hb. split_and!; congruence. }
  destruct HB as (EM & EW & EA & EN). pose proof (k_mem _ _ _ _ Hk) as Hm.
  pose proof (m_numbered _ _ _ Hm) as Hnum. apply Forall_app in Hnum as [Hn1 Hn2].
  apply Forall_app in Hn2 as [Hn2 _]. pose proof (m_next_ack _ _ _ Hm) as HA. pose proof (m_next _ _ _ Hm) as HN.
  pose proof (k_rel _ _ _ _ Hk) as Hrel. unfold live in Hrel.
  set (e1 := {| (ent c) with wait_list := _; retransmit_list := _; wait_end := _ |}) in E.
  assert (H1 : st e1 = st (ent c) /\ sn_modulus e1 = sn_modulus (ent c) /\ tx_next e1 = tx_next (ent c)
    /\ tx_next_ack e1 = tx_next_ack (ent c) /\ window_size e1 = window_size (ent c)
    /\ wait_list e1 = wait_done c ++ wait_rest c /\ retransmit_list e1 = retx_new c ++ retx_cur c
    /\ tx_list e1 = tx_list (ent c)) by done.
  clearbody e1. destruct H1 as (E1 & E2 & E3 & E4 & E5 & E6 & E7 & E8).
  rewrite <- E1 in Hn1, Hn2, Hrel. rewrite <- E2 in Hn1, Hn2, HA, HN, EM. rewrite <- E4 in HA, EA.
  rewrite <- E3 in HN, EN. rewrite <- E5 in EW. rewrite Etx in E8. rewrite <- E6 in *. rewrite <- E7 in *.
  clear E1 E2 E3 E4 E5 E6 E7 Etx Hb Hm Hk.
  assert (Hmod : forall a, modulus_tx e1 a = modulus_tx e0 a) by (intros; unfold modulus_tx; by rewrite EM, EA).
  assert (Hbe : begun e1 = begun e0) by (unfold begun; by rewrite E8).
  assert (Hkeys : forall l, l ⊆ in_flight e1 -> map (sn_key e1) l = map (sn_key e0) l).
  { intros l Hl. apply sn_keys_related; [|congruence]. eapply Store.related_sub; [|exact Hrel].
    intros x Hx. apply Hl in Hx. unfold in_flight in Hx. rewrite Hbe in Hx.
    unfold begun in Hx. rewrite !elem_of_app, list_elem_of_filter in Hx. rewrite !elem_of_app.
    clear -Hx. tauto. }
  assert (Hsub' : in_flight e1 ⊆ in_flight e0).
  { unfold in_flight. rewrite Hbe. set_solver. }
  assert (Hsort : forall l, l ⊆ in_flight e1 -> sorted e0 l -> sorted e1 l).
  { intros l Hl. unfold sorted. by rewrite Hkeys. }
  assert (Ho1 : ordered e1).
  { destruct Ho as [O1 O2 O3 O4]. constructor; rewrite ?EN, ?EW, ?Hmod; [done| | |].
    - apply Hsort; [unfold in_flight; set_solver|done].
    - apply Hsort; [unfold in_flight; set_solver|done].
    - rewrite Hkeys by done. rewrite Forall_map, Forall_forall in O4 |- *. auto. }
  assert (Hkey1 : forall x, x ∈ begun e1 -> modulus_tx e1 ack_sn <= sn_key e1 x).
  { intros x Hx. assert (Hkx : map (sn_key e1) [x] = map (sn_key e0) [x]).
    { apply Hkeys. unfold in_flight. set_solver. }
    injection Hkx as ->. rewrite Hmod. apply Hbg. by rewrite <- Hbe. }
  assert (Hnb1 : Forall (numbered (sn_modulus e1) (st e1)) (begun e1)).
  { rewrite EM, Hbe. apply (numbered_related _ (st e0)); [|done]. eapply Store.related_sub; [|exact Hrel].
    intros x Hx. unfold begun in Hx. rewrite list_elem_of_filter in Hx. rewrite !elem_of_app. tauto. }
  apply res_bind_ok in E as (v1 & Ev1 & E). apply res_bind_ok in E as (v2 & Ev2 & E).
  destruct (min_with_head_ord e1 HA _ _ _ (o_wait _ Ho1) Hn1 HN Ev1) as (Hr1 & Hl1 & Ha1).
  destruct (min_with_head_ord e1 HA _ _ _ (o_retx _ Ho1) Hn2 Hr1 Ev2) as (Hr2 & Hl2 & Ha2).
  rewrite <- !Hmod, <- EN in Hle. rewrite <- EM in Ha.
  set (v := if _ <? _ then ack_sn else v2) in E.
  assert (Hv : 0 <= v < sn_modulus e1 /\ modulus_tx e1 v <= modulus_tx e1 v2
    /\ modulus_tx e1 v <= modulus_tx e1 ack_sn).
  { unfold v, sn_compare_tx. destruct (Z.ltb_spec (modulus_tx e1 ack_sn - modulus_tx e1 v2) 0); lia. }
  clearbody v. destruct Hv as (Hv & Hv2 & Hva). injection E as <-.
  apply (ordered_moved e1 HA); try done; simpl.
  - unfold in_flight. apply Forall_app. split; [done|]. by apply Forall_app.
  - lia.
  - unfold in_flight. intros x [Hx|[Hx|Hx]%elem_of_app]%elem_of_app.
    + specialize (Hkey1 x Hx). lia.
    + specialize (Ha1 x Hx). lia.
    + specialize (Ha2 x Hx). lia.
Qed.

End walk.

(** The ACK_SN is not beyond an SDU of which only a part was sent. *)
Definition acks_sent (e : t) (buffer : list Z) : Prop :=
  forall ack_sn e1 d, decode_ack_checked e (Codec.nr_rlc_pdu_decoder_init buffer) = Ok (Some (ack_sn, e1, d)) ->
    forall x, x ∈ begun e -> modulus_tx e ack_sn <= sn_key e x.

Lemma process_control_ordered e lost buffer e' :
  wf e lost -> ordered e -> acks_sent e buffer -> process_control_pdu e buffer = Ok e' -> ordered e'.
Proof.
  intros Hwf Ho Hacks E. pose proof Hwf as [Hm _]. pose proof (m_cfg _ _ _ Hm) as Hc.
  unfold process_control_pdu, validate_control_pdu in E.
  destruct (decode_ack_ok e (Codec.nr_rlc_pdu_decoder_init buffer) Hc (Codec.decoder_init_wf _))
    as (r & Er & Hr).
  rewrite Er, res_bind_unfold in E. destruct r as [[[ack_sn e1] d]|]; [|by injection E as <-].
  destruct Hr as (W & Hby & Ha & Hbuf & Hack). cbv beta iota in E. rewrite Z.gtb_ltb in E.
  destruct (Z.ltb_spec 0 (sn_compare_tx e ack_sn (tx_next e))) as [|Hle]; [by injection E as <-|].
  apply res_bind_ok in E as (b & Ev & E). destruct b; [|by injection E as <-].
  unfold apply_control_pdu in E. rewrite Hack, res_bind_unfold in E. cbv beta iota zeta in E.
  set (c0 := {| ent := _; wait_done := []; wait_rest := _; wait_null := false; end_wait := None;
                retx_new := []; retx_cur := _ |}) in E.
  assert (Hk0 : ctl_ok e ack_sn c0 lost /\ ctl_ord e c0).
  { split.
    - unfold c0. destruct (_ <? 0); [exact (ctl_start e lost ack_sn 0 Hwf)|].
      pose proof (ctl_start e lost ack_sn (t_poll_retransmit_start e) Hwf) as H. by destruct e.
    - assert (H : wait_done c0 = [] /\ wait_rest c0 = wait_list e /\ retx_new c0 = []
        /\ retx_cur c0 = retransmit_list e) by (unfold c0; by destruct (_ <? 0)).
      clearbody c0. destruct H as (H1 & H2 & H3 & H4). constructor; rewrite ?H1, ?H2, ?H3, ?H4; simpl; try done.
      + apply Ho.
      + apply Ho.
      + intros x y Hx. by apply elem_of_nil in Hx. }
  clearbody c0. destruct Hk0 as [Hk0 Ho0].
  destruct (process_nacks_ok e ack_sn _ d e1 c0 lost Hk0 Hc W Ev) as (c1 & lost1 & E1 & Hk1 & _).
  pose proof (process_nacks_ord _ _ _ _ _ _ _ _ Hk0 Ho0 E1) as Ho1. rewrite E1, res_bind_unfold in E.
  destruct (ack_wait_ok e ack_sn (cur_wait c1) c1 lost1 Hk1) as (c2 & E2 & Hk2 & _).
  { unfold cur_wait. destruct (wait_null c1); auto. }
  pose proof (ack_wait_ord _ _ _ _ _ _ Hk1 eq_refl Ho1 E2) as Ho2. rewrite E2, res_bind_unfold in E.
  destruct (ack_retx_ok e ack_sn (retx_cur c2) c2 lost1 Hk2 eq_refl) as (c3 & E3 & Hk3).
  pose proof (ack_retx_ord _ _ _ _ _ _ Hk2 eq_refl Ho2 E3) as Ho3. rewrite E3, res_bind_unfold in E.
  eapply finish_ord; [exact Hk3|exact Ho3|done|..|exact E]; [|done|unfold sn_compare_tx in Hle; lia|].
  - apply Forall_forall. intros x. unfold begun. rewrite list_elem_of_filter. intros [Hf Hx].
    destruct (proj1 (Forall_forall _ _) (m_unsent _ _ _ Hm) x Hx) as (dx & Lx & _ & Hdx).
    rewrite Hf in Hdx. by exists dx.
  - by apply (Hacks _ _ _ Er).
Qed.

End AmOrder.
