(* ===== verification/RlcAmStatusSearch.v ===== *)
(** * RLC acknowledged mode: the search for missing bytes

    [next_missing] walks over the received segments of the reception window and
    returns the next part that is missing.  A position of the window is a
    distance from [rx_next] and a byte of the SDU there; [got] says that nothing
    is missing at a position.  The search is sound: whatever lies between the
    place it starts from and the missing part it returns has been received, and
    the next search starts right behind the missing part.  It terminates, since
    each round goes to a later segment of the window. *)

From S2P Require Import Prelude TimeStat RlcPdu RlcSdu RlcRxManager RlcEntity RlcAm.
From S2P Require Import RlcAmStatus RlcAmControl RlcAmRx RlcAmRxSpec RlcAmTx RlcAmTxInv.
From S2P Require Import RlcAmControlSpec.

Module AmSearch.
Import Entity Am AmStatus AmRxSpec.

(** Byte [b] of the SDU at distance [i] has been received, or is behind the end
    of the SDU. *)
Definition got (e : t) (i b : Z) : Prop :=
  Chain.delivered (slot_at e i) = true
  \/ Chain.has_byte (slot_at e i) b
  \/ exists p, p ∈ slot_at e i /\ Pdu.is_last p = true /\ Pdu.so p + Pdu.size p <= b.

(** [Q] holds for all the positions before byte [c] of distance [i]. *)
Definition upto (Q : Z -> Z -> Prop) (i c : Z) : Prop :=
  forall j b, 0 <= j -> 0 <= b -> j < i \/ (j = i /\ b < c) -> Q j b.

Lemma upto_mono (Q Q' : Z -> Z -> Prop) i c :
  (forall j b, Q j b -> Q' j b) -> upto Q i c -> upto Q' i c.
Proof. intros HQ H j b Hj Hb Hlt. apply HQ, H; done. Qed.

Lemma upto_weaken Q i c i' c' : upto Q i c -> i' < i \/ (i' = i /\ c' <= c) -> upto Q i' c'.
Proof. intros H Hlt j b Hj Hb Hp. apply H; try done. lia. Qed.

(** What follows a part that ends with byte [f] of distance [i]; 65535 is the
    end of the SDU. *)
Definition behind (i f : Z) : Z * Z := if f =? 65535 then (i + 1, 0) else (i, f + 1).

(** The last reportable distance is below [rx_highest_status]. *)
Definition high (e : t) : Z := off e (rx_highest_status e).

(** The reports are about a window whose SNs are in different slots, and about
    segments whose offsets fit 16 bits. *)
Record scope (e : t) : Prop := {
  sc_win : win_ok e;
  sc_high : high e < window_size e;
  sc_sn : 0 <= rx_highest_status e < sn_modulus e;
  sc_short : forall i, 0 <= i < window_size e ->
    Forall (fun p => Pdu.so p + Pdu.size p <= NR_SDU_MAX) (slot_at e i)
}.

(** A pointer to segment [cur] of the slot at distance [i]. *)
Definition cursor (e : t) (i : Z) (pre : list Pdu.nr_rlc_pdu_t) (cur : Pdu.nr_rlc_pdu_t)
    (rest : list Pdu.nr_rlc_pdu_t) : Prop :=
  0 <= i <= high e /\ slot_at e i = pre ++ cur :: rest.

(** The missing part [m] goes from distance [s] to distance [t_]. *)
Record part (e : t) (m : missing_data_t) (s t_ : Z) : Prop := {
  pt_start : sn_start m = sn_at e s;
  pt_end : sn_end m = sn_at e t_;
  pt_range : 0 <= s <= t_;
  pt_high : t_ < high e;
  pt_so : 0 <= so_start m <= NR_SDU_MAX;
  pt_so_end : so_end m = 65535 \/ (0 <= so_end m < NR_SDU_MAX /\ (s = t_ -> so_start m <= so_end m))
}.

(** Where the search goes on after [m]. *)
Definition resumes (e : t) (m : missing_data_t) (t_ : Z) : Prop :=
  (next m = [] /\ t_ = high e - 1 /\ so_end m = 65535)
  \/ exists i pre cur rest, next m = cur :: rest /\ cursor e i pre cur rest
       /\ (i, Pdu.so cur) = behind t_ (so_end m).

(** A search that starts with [Q] proved of all the positions before. *)
Definition found (e : t) (Q : Z -> Z -> Prop) (om : option missing_data_t) : Prop :=
  match om with
  | None => upto Q (high e) 0
  | Some m => exists s t_, part e m s t_ /\ upto Q s (so_start m) /\ resumes e m t_
  end.

Section search.
Context (e : t) (Hsc : scope e).

Lemma modulus_window : sn_modulus e = 2 * window_size e /\ 1 < window_size e.
Proof using Hsc. apply cfg_window, Hsc. Qed.

Lemma high_range : 0 <= high e < window_size e.
Proof using Hsc. split; [|apply Hsc]. apply (off_range e _ (wo_cfg _ (sc_win _ Hsc))). Qed.

Lemma next_sn_at i : (sn_at e i + 1) mod sn_modulus e = sn_at e (i + 1).
Proof using Hsc.
  destruct modulus_window. unfold sn_at. rewrite Z.add_mod_idemp_l by lia. f_equal. lia.
Qed.

Lemma prev_sn_at i : (sn_at e i - 1 + sn_modulus e) mod sn_modulus e = sn_at e (i - 1).
Proof using Hsc.
  destruct modulus_window. unfold sn_at.
  rewrite <- (Z.mod_add (rx_next e + (i - 1)) 1), Z.mul_1_l by lia.
  rewrite <- Z.add_sub_swap, <- Z.add_sub_assoc, Z.add_mod_idemp_l by lia. f_equal. lia.
Qed.

Lemma highest_sn_at : rx_highest_status e = sn_at e (high e).
Proof using Hsc. unfold high. symmetry. apply sn_at_off, Hsc. Qed.

Lemma last_reportable_sn_at : last_reportable e = sn_at e (high e - 1).
Proof using Hsc. unfold last_reportable. rewrite highest_sn_at. apply prev_sn_at. Qed.

Lemma compare_rx_sn_at i j :
  0 <= i < sn_modulus e -> 0 <= j < sn_modulus e ->
  sn_compare_rx e (sn_at e i) (sn_at e j) = i - j.
Proof using Hsc.
  intros Hi Hj. pose proof (sc_win _ Hsc) as Hw. unfold sn_compare_rx.
  rewrite !modulus_rx_off, !off_sn_at; try done; try apply Hw; apply sn_at_range, Hw.
Qed.

Lemma sn_at_inj i j :
  0 <= i < sn_modulus e -> 0 <= j < sn_modulus e -> sn_at e i = sn_at e j -> i = j.
Proof using Hsc. intros Hi Hj E. rewrite <- (off_sn_at e i), <- (off_sn_at e j), E by done. done. Qed.

Lemma reporting_window i :
  0 <= i < sn_modulus e -> in_reporting_window e (sn_at e i) = (i <? high e).
Proof using Hsc.
  intros Hi. pose proof high_range. destruct modulus_window. unfold in_reporting_window.
  rewrite highest_sn_at, compare_rx_sn_at by lia.
  destruct (Z.leb_spec (high e - i) 0), (Z.ltb_spec i (high e)); simpl; done || lia.
Qed.

(** ** Segments of the window *)

Lemma cursor_node i pre cur rest :
  cursor e i pre cur rest ->
  Pdu.sn cur = sn_at e i /\ node_ok cur /\ Pdu.so cur + Pdu.size cur <= NR_SDU_MAX.
Proof using Hsc.
  intros [Hi E]. pose proof high_range.
  assert (Hin : cur ∈ slot_at e i) by (rewrite E; set_solver).
  pose proof (wo_slots _ (sc_win _ Hsc) i ltac:(lia)) as [_ Hn _].
  pose proof (sc_short _ Hsc i ltac:(lia)) as Hs. rewrite Forall_forall in Hn, Hs.
  destruct (Hn cur Hin). split_and!; try done. by apply Hs.
Qed.

Lemma cursor_next i pre cur p rest :
  cursor e i pre cur (p :: rest) -> cursor e i (pre ++ [cur]) p rest.
Proof using. intros [Hi E]. split; [done|]. by rewrite E, <- app_assoc. Qed.

Lemma cursor_head i p rest : 0 <= i <= high e -> slot_at e i = p :: rest -> cursor e i [] p rest.
Proof using. by split. Qed.

Lemma cursor_sorted i pre cur rest p :
  cursor e i pre cur rest -> p ∈ rest -> Pdu.so cur <= Pdu.so p.
Proof using Hsc.
  intros [Hi E] Hp. pose proof high_range.
  pose proof (wo_slots _ (sc_win _ Hsc) i ltac:(lia)) as [Hs _ _]. rewrite E in Hs.
  clear -Hs Hp. induction pre as [|q pre IH]; simpl in Hs.
  - apply StronglySorted_inv in Hs as [_ Hf]. rewrite Forall_forall in Hf. by apply Hf.
  - apply StronglySorted_inv in Hs as [Hs _]. by apply IH.
Qed.

(** The scan over empty slots. *)
Lemma scan_ok fuel : forall i,
  0 <= i <= high e -> (Z.to_nat (high e - i) < fuel)%nat ->
  exists j, i <= j <= high e /\ scan_rx fuel e (sn_at e i) (rx_highest_status e) = Ok (slot_at e j)
    /\ (j < high e -> slot_at e j <> []) /\ forall k, i <= k < j -> slot_at e k = [].
Proof using Hsc.
  pose proof high_range as HH. destruct modulus_window as [HM HW].
  induction fuel as [|fuel IH]; intros i Hi Hf; [lia|].
  pose proof (sc_win _ Hsc) as Hw. cbn [scan_rx].
  rewrite get_pdus_ok, res_bind_unfold, off_sn_at by (done || lia || apply sn_at_range, Hw).
  destruct (Z.eqb_spec (sn_at e i) (rx_highest_status e)) as [E|E].
  { rewrite highest_sn_at in E. apply sn_at_inj in E; [|lia|lia]. subst i.
    exists (high e). split_and!; try done; lia. }
  assert (i <> high e) by (intros ->; apply E; symmetry; apply highest_sn_at).
  destruct (slot_at e i) as [|p l] eqn:Es.
  - rewrite next_sn_at. destruct (IH (i + 1)) as (j & Hj & Ej & Hne & Hem); [lia|lia|].
    exists j. split_and!; try done; try lia. intros k Hk.
    destruct (decide (k = i)) as [->|]; [done|apply Hem; lia].
  - exists i. rewrite Es. split_and!; try done; lia.
Qed.

Lemma scan_fuel_enough i : 0 <= i -> (Z.to_nat (high e - i) < scan_fuel e)%nat.
Proof using Hsc. pose proof high_range. destruct modulus_window. unfold scan_fuel. lia. Qed.

(** The pointer that follows [cur]. *)
Inductive follows (i : Z) (pre : list Pdu.nr_rlc_pdu_t) (cur : Pdu.nr_rlc_pdu_t)
    : list Pdu.nr_rlc_pdu_t -> list Pdu.nr_rlc_pdu_t -> Prop :=
| follows_same p rest : follows i pre cur (p :: rest) (p :: rest)
| follows_slot j p l :
    i < j <= high e -> slot_at e j = p :: l -> (forall k, i < k < j -> slot_at e k = []) ->
    follows i pre cur [] (p :: l)
| follows_none : (forall k, i < k <= high e -> slot_at e k = []) -> follows i pre cur [] [].

Lemma get_next_ok i pre cur rest :
  cursor e i pre cur rest ->
  exists l, get_next_rx_pdu e cur rest = Ok l /\ follows i pre cur rest l.
Proof using Hsc.
  intros Hc. destruct (cursor_node _ _ _ _ Hc) as (Esn & _). destruct Hc as [Hi _].
  pose proof high_range. destruct modulus_window as [HM HW].
  unfold get_next_rx_pdu. destruct rest as [|p rest]; [|eexists; split; [reflexivity|constructor]].
  rewrite Esn. destruct (Z.eqb_spec (sn_at e i) (rx_highest_status e)) as [E|E].
  { rewrite highest_sn_at in E. apply sn_at_inj in E; [|lia|lia].
    eexists. split; [reflexivity|]. constructor. lia. }
  assert (i <> high e) by (intros ->; apply E; symmetry; apply highest_sn_at).
  rewrite next_sn_at.
  destruct (scan_ok (scan_fuel e) (i + 1)) as (j & Hj & Ej & Hne & Hem);
    [lia|apply scan_fuel_enough; lia|].
  eexists. split; [exact Ej|]. destruct (slot_at e j) as [|p l] eqn:Es.
  - assert (j = high e) as -> by (destruct (decide (j < high e)) as [Hl|]; [by destruct (Hne Hl)|lia]).
    constructor. intros k Hk. destruct (decide (k = high e)) as [->|]; [done|apply Hem; lia].
  - econstructor; [|exact Es|]; [lia|]. intros k Hk. apply Hem. lia.
Qed.

(** Segments from [cur] on, up to [rx_highest_status]: the measure of the
    search. *)
Definition ahead (i : Z) (rest : list Pdu.nr_rlc_pdu_t) : nat :=
  (length rest
   + length (concat (map (slot_at e) (seqZ (i + 1) (high e - i)))))%nat.

Lemma ahead_slot i j p l :
  i < j <= high e -> slot_at e j = p :: l -> (ahead j l < ahead i [])%nat.
Proof using.
  intros Hij Es. unfold ahead. simpl length at 3.
  replace (high e - i) with ((j - i - 1) + (1 + (high e - j))) by lia.
  rewrite seqZ_app, map_app, concat_app, length_app by lia.
  replace (i + 1 + (j - i - 1)) with j by lia. rewrite (seqZ_cons j) by lia.
  replace (Z.pred (1 + (high e - j))) with (high e - j) by lia.
  cbn [map concat]. rewrite Es, length_app. simpl length. rewrite <- Z.add_1_r. lia.
Qed.

Lemma ahead_bound i pre cur rest : cursor e i pre cur rest -> (ahead i rest < rx_count e)%nat.
Proof using Hsc.
  intros [Hi E]. pose proof high_range as HH. pose proof (sc_win _ Hsc) as Hw.
  pose proof (length_win e Hw) as Hlen.
  pose proof (win_map e Hw) as Hwin.
  assert (Hcount : rx_count e = length (concat (win e))).
  { unfold rx_count, win. unfold RxManager.window. apply Permutation_length.
    unfold rotate. rewrite <- (take_drop (Z.to_nat (RxManager.start (rx e)) mod
      length (RxManager.rx_list (rx e))) (RxManager.rx_list (rx e))) at 1.
    rewrite !concat_app. apply Permutation_app_comm. }
  rewrite Hcount, Hwin. unfold ahead.
  replace (window_size e) with (i + (1 + ((high e - i) + (window_size e - high e - 1)))) by lia.
  rewrite seqZ_app, (seqZ_cons (0 + i)) by lia.
  replace (Z.pred _) with ((high e - i) + (window_size e - high e - 1)) by lia.
  rewrite seqZ_app, !map_app by lia. cbn [map concat]. rewrite Z.add_0_l, E, <- Z.add_1_r.
  rewrite map_app, !concat_app. cbn [concat]. rewrite concat_app, !length_app. simpl length. lia.
Qed.

(** ** One missing part *)

Lemma max_fits : NR_SDU_MAX < 65535.
Proof using. done. Qed.

(** The end of a part that lies before the segment [cur]. *)
Lemma set_end_ok i pre cur rest s so_ :
  cursor e i pre cur rest -> 0 <= s < high e -> 0 <= so_ <= NR_SDU_MAX ->
  (if Pdu.is_first cur then s < i else s < i \/ (s = i /\ so_ < Pdu.so cur)) ->
  exists t_, part e (set_end_different_sdu e (sn_at e s) so_ cur rest) s t_
    /\ resumes e (set_end_different_sdu e (sn_at e s) so_ cur rest) t_
    /\ so_start (set_end_different_sdu e (sn_at e s) so_ cur rest) = so_.
Proof using Hsc.
  intros Hc Hs Hso Hlt. destruct (cursor_node _ _ _ _ Hc) as (Esn & (H0 & Hf & Hz & _) & Hmax).
  pose proof Hc as [Hi _]. pose proof high_range as HH. destruct modulus_window as [HM HW].
  pose proof max_fits. unfold set_end_different_sdu. rewrite Esn.
  destruct (Pdu.is_first cur) eqn:Ef; cbn [sn_end].
  - rewrite prev_sn_at, highest_sn_at, compare_rx_sn_at by lia.
    destruct (Z.leb_spec (high e - (i - 1)) 0); [lia|]. exists (i - 1).
    split; [constructor; simpl; try done; lia|]. split; [|done]. right. exists i, pre, cur, rest.
    split_and!; try done. simpl. unfold behind. cbn [Z.eqb Pos.eqb].
    rewrite (proj1 Hf eq_refl). f_equal. lia.
  - assert (Pdu.so cur <> 0) by (intros E0; apply Hf in E0; congruence).
    rewrite highest_sn_at, compare_rx_sn_at by lia.
    destruct (Z.leb_spec (high e - i) 0).
    + exists (high e - 1). rewrite last_reportable_sn_at.
      split; [constructor; simpl; try done; lia|]. split; [|done]. by left.
    + exists i. split; [constructor; simpl; try done; lia|].
      split; [|done]. right. exists i, pre, cur, rest. split_and!; try done. simpl.
      unfold behind. destruct (Z.eqb_spec (Pdu.so cur - 1) 65535); [lia|]. f_equal. lia.
Qed.

Section walk.
Context (Q : Z -> Z -> Prop).
Context (HQ : forall i b, 0 <= i < window_size e -> 0 <= b -> got e i b -> Q i b).

(** The segments of the slot at [i] have been looked at up to [cur]: everything
    up to byte [max_so] is there, and the rest too when the last segment was
    seen. *)
Definition seen (i max_so : Z) (last_reached : bool) : Prop :=
  upto Q i (max_so + 1) /\ (last_reached = true -> upto Q (i + 1) 0) /\ 0 <= max_so < NR_SDU_MAX.

(** What the walk knows when it comes to [cur]. *)
Definition ready (i : Z) (cur : Pdu.nr_rlc_pdu_t) (max_so : Z) (last_reached : bool) : Prop :=
  upto Q i (Pdu.so cur)
  /\ ((max_so = 0 /\ last_reached = false) \/ seen i max_so last_reached).

Lemma upto_next i c :
  upto Q i c -> (forall b, c <= b -> 0 <= b -> Q i b) -> upto Q (i + 1) 0.
Proof using.
  intros H Hi j b Hj Hb Hlt. destruct (decide (j < i)); [apply H; lia|].
  assert (j = i) as -> by lia. destruct (decide (b < c)); [apply H; lia|apply Hi; lia].
Qed.

Lemma see_segment i pre cur rest max_so last_reached :
  cursor e i pre cur rest -> ready i cur max_so last_reached ->
  let cur_max_so := Pdu.so cur + Pdu.size cur - 1 in
  seen i (if cur_max_so >? max_so then cur_max_so else max_so) (last_reached || Pdu.is_last cur).
Proof using Hsc HQ.
  intros Hc [Hu Hr] cur_max_so. destruct (cursor_node _ _ _ _ Hc) as (_ & (H0 & _ & Hz & _) & Hmax).
  pose proof Hc as [Hi E]. pose proof high_range as HH. subst cur_max_so.
  assert (Hin : cur ∈ slot_at e i) by (rewrite E; set_solver).
  assert (Hcur : upto Q i (Pdu.so cur + Pdu.size cur)).
  { intros j b Hj Hb Hlt. destruct (decide (j < i \/ b < Pdu.so cur)); [apply Hu; lia|].
    assert (j = i) as -> by lia. apply HQ; [lia|lia|]. right; left.
    apply Exists_exists. exists cur. split; [done|lia]. }
  rewrite Z.gtb_ltb. destruct (Z.ltb_spec max_so (Pdu.so cur + Pdu.size cur - 1)).
  - split; [|split]; [by rewrite Z.sub_add| |lia]. intros Hl.
    apply orb_true_iff in Hl as [Hl|Hl].
    + destruct Hr as [[_ ->]|(_ & Hr & _)]; [done|by apply Hr].
    + eapply upto_next; [exact Hcur|]. intros b Hb Hb0. apply HQ; [lia|lia|].
      right; right. by exists cur.
  - assert (Hm : upto Q i (max_so + 1)).
    { destruct Hr as [[-> _]|(Hm & _)]; [|done].
      replace (0 + 1) with (Pdu.so cur + Pdu.size cur) by lia. done. }
    split; [done|]. split.
    + intros Hl. apply orb_true_iff in Hl as [Hl|Hl].
      * destruct Hr as [[_ ->]|(_ & Hr & _)]; [done|by apply Hr].
      * eapply upto_next; [exact Hm|]. intros b Hb Hb0. apply HQ; [lia|lia|].
        right; right. exists cur. split_and!; try done. lia.
    + destruct Hr as [[-> _]|(_ & _ & ?)]; [|done]. split; [lia|done].
Qed.

(** No segment behind [cur]: the part up to [rx_highest_status] is missing. *)
Lemma to_highest_ok i pre cur rest max_so last_reached :
  cursor e i pre cur rest -> seen i max_so last_reached ->
  found e Q (missing_to_highest e cur max_so last_reached).
Proof using Hsc HQ.
  intros Hc (Hm & Hl & Hr). destruct (cursor_node _ _ _ _ Hc) as (Esn & _).
  pose proof Hc as [Hi E]. pose proof high_range as HH. destruct modulus_window as [HM HW].
  assert (Hnext : upto Q (i + 1) 0 -> found e Q
    (if in_reporting_window e (sn_at e (i + 1)) then
       Some {| sn_start := sn_at e (i + 1); so_start := 0; sn_end := last_reportable e;
               so_end := 65535; next := [] |} else None)).
  { intros Hu. rewrite reporting_window by lia. destruct (Z.ltb_spec (i + 1) (high e)).
    - exists (i + 1), (high e - 1). rewrite last_reportable_sn_at.
      split; [constructor; simpl; try done; lia|]. split; [done|]. by left.
    - eapply upto_weaken; [exact Hu|]. lia. }
  unfold missing_to_highest. rewrite Esn, next_sn_at.
  destruct (Pdu.data cur) eqn:Ed; [destruct last_reached|]; [apply Hnext, Hl; done| |].
  - rewrite reporting_window by lia. destruct (Z.ltb_spec i (high e)).
    + exists i, (high e - 1). rewrite last_reportable_sn_at.
      split; [constructor; simpl; try done; lia|]. split; [done|]. by left.
    + eapply upto_weaken; [exact Hm|]. lia.
  - apply Hnext. eapply upto_next; [exact Hm|]. intros b _ Hb. apply HQ; [lia|done|]. left.
    destruct (s_head _ _ (wo_slots _ (sc_win _ Hsc) i ltac:(lia)) cur) as (h & tl & -> & Hd & _);
      [rewrite E; set_solver|done|]. simpl. by rewrite Hd.
Qed.

(** A gap before the next segment of the same SDU. *)
Lemma same_gap_ok i pre cur rest sn_ max_so last_reached :
  cursor e i pre cur rest -> sn_ = sn_at e i -> seen i max_so last_reached ->
  max_so < Pdu.so cur - 1 -> found e Q (missing_gap e sn_ max_so last_reached cur rest).
Proof using Hsc.
  intros Hc -> (Hm & _ & Hr) Hgap. destruct (cursor_node _ _ _ _ Hc) as (Esn & (_ & _ & Hz & _) & Hmax).
  pose proof Hc as [Hi _]. pose proof high_range as HH. destruct modulus_window as [HM HW].
  pose proof max_fits. unfold missing_gap. rewrite Esn, Z.eqb_refl, reporting_window by lia.
  destruct (Z.ltb_spec i (high e)); [|eapply upto_weaken; [exact Hm|]; lia].
  exists i, i. split; [constructor; simpl; try done; lia|]. split; [done|]. right.
  exists i, pre, cur, rest. split_and!; try done. simpl. unfold behind.
  destruct (Z.eqb_spec (Pdu.so cur - 1) 65535); [lia|]. f_equal. lia.
Qed.

(** A gap before the first segment of a later SDU. *)
Lemma other_gap_ok i j cur rest max_so last_reached :
  0 <= i < j -> cursor e j [] cur rest -> seen i max_so last_reached ->
  (j = i + 1 -> last_reached = true -> Pdu.is_first cur = false) ->
  found e Q (missing_gap e (sn_at e i) max_so last_reached cur rest).
Proof using Hsc.
  intros Hij Hc (Hm & Hl & Hr) Hno. destruct (cursor_node _ _ _ _ Hc) as (Esn & (H0 & Hf & _) & _).
  pose proof Hc as [Hj _]. pose proof high_range as HH. destruct modulus_window as [HM HW].
  assert (Hend : forall s so_, 0 <= s <= i + 1 -> 0 <= so_ <= NR_SDU_MAX -> upto Q s so_ ->
    (if Pdu.is_first cur then s < j else s < j \/ (s = j /\ so_ < Pdu.so cur)) ->
    found e Q (if in_reporting_window e (sn_at e s)
               then Some (set_end_different_sdu e (sn_at e s) so_ cur rest) else None)).
  { intros s so_ Hs Hso Hu Hlt. rewrite reporting_window by lia.
    destruct (Z.ltb_spec s (high e)); [|eapply upto_weaken; [exact Hu|]; lia].
    destruct (set_end_ok j [] cur rest s so_) as (t_ & Hp & Hres & Eso); try done; [lia|].
    exists s, t_. by rewrite Eso. }
  unfold missing_gap. rewrite Esn.
  destruct (Z.eqb_spec (sn_at e j) (sn_at e i)) as [E|_]; [apply sn_at_inj in E; lia|].
  rewrite next_sn_at. destruct last_reached.
  - apply Hend; [lia|done|by apply Hl|]. destruct (Pdu.is_first cur) eqn:Ef.
    + destruct (decide (j = i + 1)) as [Ej|]; [|lia]. by specialize (Hno Ej eq_refl).
    + destruct (decide (i + 1 = j)); [right|left; lia]. split; [done|].
      assert (Pdu.so cur <> 0) by (intros E0; apply Hf in E0; done). lia.
  - apply Hend; [lia|lia|done|]. destruct (Pdu.is_first cur); lia.
Qed.

Lemma segment_walk_ok fuel : forall i pre cur rest max_so last_reached,
  cursor e i pre cur rest -> ready i cur max_so last_reached -> (ahead i rest < fuel)%nat ->
  exists om, next_pdu fuel e cur rest max_so last_reached = Ok om /\ found e Q om.
Proof using Hsc HQ.
  induction fuel as [|fuel IH]; intros i pre cur rest max_so lr Hc Hr Hf; [lia|].
  pose proof (see_segment _ _ _ _ _ _ Hc Hr) as Hsee. cbn [next_pdu]. cbv zeta in Hsee |- *.
  set (ms := if _ >? _ then _ else max_so) in *. set (l' := lr || _) in *. clearbody ms l'.
  destruct (get_next_ok _ _ _ _ Hc) as (l & E & Hfo). rewrite E, res_bind_unfold.
  destruct (cursor_node _ _ _ _ Hc) as (Esn & _). rewrite Esn.
  pose proof high_range as HH. destruct modulus_window as [HM HW].
  pose proof Hc as [Hi _]. destruct Hfo as [p rest|j p l Hj Es Hem|Hem].
  - pose proof (cursor_next _ _ _ _ _ Hc) as Hc'.
    destruct (cursor_node _ _ _ _ Hc') as (Esn' & (H0 & _) & _). rewrite Esn', Z.eqb_refl. simpl.
    rewrite Z.geb_leb. destruct (Z.leb_spec (Pdu.so p - 1) ms) as [Hle|Hgt].
    + apply (IH i (pre ++ [cur])); [done| |unfold ahead in *; simpl in Hf; lia]. split; [|by right].
      eapply upto_weaken; [exact (proj1 Hsee)|]. lia.
    + rewrite next_sn_at. destruct (Z.eqb_spec (sn_at e i) (sn_at e (i + 1))) as [Ei|_].
      { apply sn_at_inj in Ei; lia. }
      eexists. split; [reflexivity|]. by eapply same_gap_ok.
  - assert (Hc' : cursor e j [] p l) by (apply cursor_head; [lia|done]).
    destruct (cursor_node _ _ _ _ Hc') as (Esn' & (H0 & Hfi & _) & _). rewrite Esn', next_sn_at.
    destruct (Z.eqb_spec (sn_at e j) (sn_at e i)) as [Ei|_]; [apply sn_at_inj in Ei; lia|]. simpl.
    destruct (Z.eqb_spec (sn_at e j) (sn_at e (i + 1))) as [Ei|Hne]; simpl.
    + apply sn_at_inj in Ei; [|lia|lia]. subst j.
      destruct l' eqn:El, (Pdu.is_first p) eqn:Ep; simpl;
        try (eexists; split; [reflexivity|]; eapply other_gap_ok; try done; lia).
      apply (IH (i + 1) []); [done| |].
      * split; [|by left]. rewrite (proj1 Hfi eq_refl). by apply Hsee.
      * pose proof (ahead_slot i (i + 1) p l ltac:(lia) Es). lia.
    + eexists. split; [reflexivity|]. eapply other_gap_ok; try done; [lia|]. intros ->. done.
  - eexists. split; [reflexivity|]. by eapply to_highest_ok.
Qed.

Lemma next_missing_ok i pre cur rest (check_head : bool) :
  cursor e i pre cur rest ->
  (if check_head then pre = [] /\ forall k, 0 <= k < i -> slot_at e k = []
   else upto Q i (Pdu.so cur)) ->
  exists om, next_missing e cur rest check_head = Ok om /\ found e Q om.
Proof using Hsc HQ.
  intros Hc Hup. destruct (cursor_node _ _ _ _ Hc) as (Esn & (H0 & Hfi & _) & _).
  pose proof high_range as HH. destruct modulus_window as [HM HW]. pose proof Hc as [Hi E].
  assert (Hwalk : upto Q i (Pdu.so cur) ->
    exists om, next_pdu (S (rx_count e)) e cur rest 0 false = Ok om /\ found e Q om).
  { intros Hu. eapply segment_walk_ok; [exact Hc|split; [done|by left]|].
    pose proof (ahead_bound _ _ _ _ Hc). lia. }
  unfold next_missing. destruct check_head; [|by apply Hwalk]. cbn [andb].
  assert (E0 : rx_next e = sn_at e 0).
  { unfold sn_at. rewrite Z.add_0_r, Z.mod_small by apply (sc_win _ Hsc). done. }
  destruct (Z.eqb_spec (Pdu.sn cur) (rx_next e)) as [Ec|Ec]; rewrite Esn, E0 in Ec.
  - apply sn_at_inj in Ec; [|lia|lia]. subst i. simpl.
    destruct (Pdu.is_first cur) eqn:Ef; simpl.
    + apply Hwalk. intros j b. rewrite (proj1 Hfi eq_refl). lia.
    + rewrite E0, reporting_window by lia.
      destruct (Z.ltb_spec 0 (high e)); [|eexists; split; [reflexivity|]; intros ???; lia].
      assert (Pdu.so cur <> 0) by (intros Ez; apply Hfi in Ez; done).
      destruct (set_end_ok 0 pre cur rest 0 0) as (t_ & Hp & Hres & Eso); try done;
        [rewrite Ef; lia|].
      eexists. split; [reflexivity|]. exists 0, t_. rewrite Eso. split_and!; try done. intros ???; lia.
  - simpl. rewrite E0, reporting_window by lia.
    destruct (Z.ltb_spec 0 (high e)); [|eexists; split; [reflexivity|]; intros ???; lia].
    assert (i <> 0) by (intros ->; done).
    destruct (set_end_ok i pre cur rest 0 0) as (t_ & Hp & Hres & Eso); try done;
      [destruct (Pdu.is_first cur); lia|].
    eexists. split; [reflexivity|]. exists 0, t_. rewrite Eso. split_and!; try done. intros ???; lia.
Qed.

End walk.

Lemma get_first_ok :
  exists l, get_first_rx_pdu e = Ok l
    /\ match l with
       | [] => True
       | p :: rest => exists i, cursor e i [] p rest /\ forall k, 0 <= k < i -> slot_at e k = []
       end.
Proof using Hsc.
  unfold get_first_rx_pdu. pose proof high_range.
  assert (E0 : rx_next e = sn_at e 0).
  { unfold sn_at. rewrite Z.add_0_r, Z.mod_small by apply (sc_win _ Hsc). done. }
  destruct (scan_ok (scan_fuel e) 0) as (j & Hj & Ej & _ & Hem);
    [lia|apply scan_fuel_enough; lia|].
  rewrite <- E0 in Ej. rewrite Ej. eexists. split; [reflexivity|].
  destruct (slot_at e j) as [|p l] eqn:Es; [done|]. exists j. split; [by apply cursor_head|done].
Qed.

End search.
End AmSearch.

(** * RLC acknowledged mode: the bits of a status PDU

    [generate_status] writes the NACKs one behind the other and goes back to the
    bytes already written: to set the e1 bit of the previous NACK, to overwrite
    so_end when the report is cut, and to put ACK_SN when it is known.  [body] is
    the bit sequence of a status PDU with the NACKs [rl] (the last one first);
    [gen_ok] says that the bytes written so far are that sequence. *)
Module StatusBits.
Import Entity Am AmStatus AmRxSpec.

(** ** Writing into a buffer that is known bit by bit *)

Lemma bits_app n m v : bits (n + m) v = bits n (Z.shiftr v (Z.of_nat m)) ++ bits m v.
Proof.
  induction n as [|n IH]; [done|]. simpl. rewrite IH, Z.shiftr_spec by lia.
  do 2 f_equal. lia.
Qed.

Lemma bits_u8 v : bits 8 (u8 v) = bits 8 v.
Proof. apply bits_ext. intros i Hi. unfold u8. by rewrite Z.mod_pow2_bits_low by lia. Qed.

Lemma buffer_bits_insert buf i v :
  (i < length buf)%nat ->
  buffer_bits (<[i := v]> buf)
  = take (8 * i) (buffer_bits buf) ++ bits 8 v ++ drop (8 * i + 8) (buffer_bits buf).
Proof.
  revert i. induction buf as [|b buf IH]; intros i Hi; simpl in Hi; [lia|].
  change (buffer_bits (b :: buf)) with (bits 8 b ++ buffer_bits buf). destruct i as [|i].
  - change (<[0%nat := v]> (b :: buf)) with (v :: buf).
    change (buffer_bits (v :: buf)) with (bits 8 v ++ buffer_bits buf). done.
  - change (<[S i := v]> (b :: buf)) with (b :: <[i := v]> buf).
    change (buffer_bits (b :: <[i := v]> buf)) with (bits 8 b ++ buffer_bits (<[i := v]> buf)).
    rewrite IH by lia. replace (8 * S i)%nat with (8 + 8 * i)%nat by lia.
    rewrite take_app_add', <- Nat.add_assoc, drop_app_add' by done. by rewrite <- app_assoc.
Qed.

Section write.
Context (n : nat) (buf : list Z) (i : Z) (A X C : list bool).
Context (Hbits : buffer_bits (take n buf) = A ++ X ++ C).
Context (HA : zlen A = 8 * i) (HX : length X = 8%nat).

Lemma write_index : 0 <= i /\ (Z.to_nat i < length (take n buf))%nat /\ i < zlen buf.
Proof using Hbits HA HX.
  pose proof (zlen_nonneg A). assert (Hl := f_equal length Hbits).
  rewrite length_buffer_bits, !length_app, HX in Hl. unfold zlen in *.
  rewrite length_take in Hl |- *. lia.
Qed.

(** One byte is overwritten. *)
Lemma zset_bits v :
  exists buf', zset buf i v = Ok buf' /\ zlen buf' = zlen buf
    /\ buffer_bits (take n buf') = A ++ bits 8 v ++ C.
Proof using Hbits HA HX.
  destruct write_index as (H0 & Hlt & Hz). pose proof Hlt as Hlt'. rewrite length_take in Hlt'.
  exists (<[Z.to_nat i := v]> buf). rewrite zset_ok by lia. rewrite zlen_insert.
  split_and!; try done. rewrite take_insert_lt by lia. rewrite buffer_bits_insert, Hbits by done.
  replace (8 * Z.to_nat i)%nat with (length A) by (unfold zlen in HA; lia).
  rewrite take_app_length, drop_app_add, drop_app_length' by done. done.
Qed.

(** The byte that is there. *)
Lemma zget_bits : exists b, zget buf i = Ok b /\ bits 8 b = X.
Proof using Hbits HA HX.
  destruct write_index as (H0 & Hlt & Hz).
  destruct (lookup_lt_is_Some_2 buf (Z.to_nat i)) as [b Hb]; [unfold zlen in Hz; lia|].
  exists b. split; [by apply zget_ok|].
  assert (Hb' : take n buf !! Z.to_nat i = Some b).
  { rewrite lookup_take_lt; [done|]. rewrite length_take in Hlt. lia. }
  pose proof (buffer_bits_insert (take n buf) (Z.to_nat i) b Hlt) as E.
  rewrite list_insert_id in E by done. rewrite Hbits in E.
  replace (8 * Z.to_nat i)%nat with (length A) in E by (unfold zlen in HA; lia).
  rewrite take_app_length in E. apply app_inv_head in E.
  apply app_inj_1 in E as [E _]; [done|]. by rewrite length_bits.
Qed.

(** Bits are added to one byte. *)
Lemma or_byte_bits v Y :
  (forall b, bits 8 b = X -> bits 8 (Z.lor b v) = Y) ->
  exists buf', or_byte buf i v = Ok buf' /\ zlen buf' = zlen buf
    /\ buffer_bits (take n buf') = A ++ Y ++ C.
Proof using Hbits HA HX.
  intros HY. destruct zget_bits as (b & Eb & Hb). unfold or_byte. rewrite Eb, res_bind_unfold.
  destruct (zset_bits (u8 (Z.lor b v))) as (buf' & E & Hl & Hw). exists buf'.
  rewrite bits_u8, HY in Hw by done. done.
Qed.
End write.

Lemma bits_lor_pow2 b j :
  0 <= j < 8 ->
  bits 8 (Z.lor b (Z.shiftl 1 j)) = <[Z.to_nat (7 - j) := true]> (bits 8 b).
Proof.
  intros Hj. assert (j = 0 \/ j = 1 \/ j = 2 \/ j = 3 \/ j = 4 \/ j = 5 \/ j = 6 \/ j = 7) as Hc by lia.
  destruct Hc as [-> | [-> | [-> | [-> | [-> | [-> | [-> | ->] ] ] ] ] ] ]; cbn [bits]; rewrite !Z.lor_spec;
    cbn -[Z.testbit]; rewrite ?orb_true_r, ?orb_false_r;
    repeat match goal with |- context [Z.testbit (Z.pos ?p) ?k] =>
      let v := eval vm_compute in (Z.testbit (Z.pos p) k) in change (Z.testbit (Z.pos p) k) with v
    end; rewrite ?orb_true_r, ?orb_false_r; done.
Qed.

(** A single bit, set by [buffer[i] |= 1 << j]. *)
Lemma set_bit_ok n buf i j A C b :
  buffer_bits (take n buf) = A ++ b :: C -> zlen A = 8 * i + 7 - j -> 0 <= j < 8 ->
  exists buf', or_byte buf i (Z.shiftl 1 j) = Ok buf' /\ zlen buf' = zlen buf
    /\ buffer_bits (take n buf') = A ++ true :: C.
Proof.
  intros Hb HA Hj. pose proof (zlen_nonneg A).
  assert (Hl := f_equal length Hb). rewrite length_buffer_bits, length_app in Hl. simpl in Hl.
  unfold zlen in HA. assert (HA1 : (Z.to_nat (7 - j) <= length A)%nat) by lia.
  set (k := (length A - Z.to_nat (7 - j))%nat).
  set (m := Z.to_nat j).
  assert (HC : (m <= length C)%nat).
  { assert (exists q, length A = 8 * q + Z.to_nat (7 - j))%nat as [q Hq] by (exists (Z.to_nat i); lia).
    subst m. rewrite Hq in Hl. lia. }
  destruct (or_byte_bits n buf i (take k A) (drop k A ++ b :: take m C) (drop m C)) with
    (v := Z.shiftl 1 j) (Y := drop k A ++ true :: take m C) as (buf' & E & Hlen & Hw).
  - rewrite <- !app_assoc. simpl. by rewrite take_drop, (app_assoc (take k A)), take_drop.
  - unfold zlen. rewrite length_take. subst k. lia.
  - rewrite length_app. simpl. rewrite length_drop, length_take. subst k m. lia.
  - intros x Hx. rewrite bits_lor_pow2, Hx by done.
    replace (Z.to_nat (7 - j)) with (length (drop k A)) by (rewrite length_drop; subst k; lia).
    rewrite insert_app_r_alt by lia. by rewrite Nat.sub_diag.
  - exists buf'. split_and!; try done. rewrite Hw, <- !app_assoc. simpl.
    by rewrite take_drop, (app_assoc (take k A)), take_drop.
Qed.

(** ** The layout of a status PDU *)

(** A NACK of the PDU: the byte range and the number of SNs are optional. *)
Record nack := mk_nack_entry {
  k_sn : Z;
  k_so : option (Z * Z);
  k_range : option Z
}.

Definition is_some {A} (o : option A) : bool := match o with Some _ => true | None => false end.

(** The NACK that reports the part [m] of [cnt] SNs. *)
Definition nack_of (m : missing_data_t) (cnt : Z) : nack :=
  {| k_sn := sn_start m;
     k_so := if (so_start m =? 0) && (so_end m =? 65535) then None else Some (so_start m, so_end m);
     k_range := if sn_start m =? sn_end m then None else Some cnt |}.

Definition r_bits (e : t) : Z := if sn_field_length e =? 18 then 3 else 1.

Definition so_fields (k : nack) : list (Z * Z) :=
  match k_so k with Some (s, f) => [(s, 16); (f, 16)] | None => [] end.

Definition range_fields (k : nack) : list (Z * Z) :=
  match k_range k with Some c => [(c, 8)] | None => [] end.

Definition nack_fields (e : t) (k : nack) (e1 : bool) : list (Z * Z) :=
  [(k_sn k, sn_field_length e); (b2z e1, 1); (b2z (is_some (k_so k)), 1);
   (b2z (is_some (k_range k)), 1); (0, r_bits e)] ++ so_fields k ++ range_fields k.

Definition ack_fields (e : t) (ack_sn : Z) (e1 : bool) : list (Z * Z) :=
  [(0, 1); (0, 3); (ack_sn, sn_field_length e); (b2z e1, 1);
   (0, if sn_field_length e =? 18 then 1 else 7)].

(** The PDU with the NACKs [rl], the last one first; [e1] is its last e1 bit. *)
Fixpoint body (e : t) (ack_sn : Z) (rl : list nack) (e1 : bool) : list bool :=
  match rl with
  | [] => Codec.field_bits (ack_fields e ack_sn e1)
  | k :: rl' => body e ack_sn rl' true ++ Codec.field_bits (nack_fields e k e1)
  end.

(** Bytes of a NACK and of the PDU. *)
Definition nack_bytes (e : t) (k : nack) : Z :=
  2 + b2z (sn_field_length e =? 18) + (if is_some (k_so k) then 4 else 0)
  + (if is_some (k_range k) then 1 else 0).

Definition body_bytes (e : t) (rl : list nack) : Z := 3 + zsum (nack_bytes e) rl.

Lemma nack_size_bytes e m cnt : nack_size e m = nack_bytes e (nack_of m cnt).
Proof.
  unfold nack_size, nack_bytes, nack_of. simpl.
  destruct (sn_start m =? sn_end m), ((so_start m =? 0) && (so_end m =? 65535)); simpl; lia.
Qed.

Lemma nack_bytes_pos e k : 2 <= nack_bytes e k.
Proof.
  unfold nack_bytes. destruct (sn_field_length e =? 18), (is_some (k_so k)), (is_some (k_range k));
    simpl; lia.
Qed.

Lemma field_bits_app fs gs : Codec.field_bits (fs ++ gs) = Codec.field_bits fs ++ Codec.field_bits gs.
Proof. unfold Codec.field_bits. by rewrite map_app, concat_app. Qed.

Lemma field_bits_cons v n fs : Codec.field_bits ((v, n) :: fs) = bits (Z.to_nat n) v ++ Codec.field_bits fs.
Proof. done. Qed.

Lemma zlen_field_bits fs :
  Forall (fun f : Z * Z => 0 <= f.2) fs -> zlen (Codec.field_bits fs) = Codec.width (map snd fs).
Proof.
  induction 1 as [|[v n] fs Hn _ IH]; [done|].
  rewrite field_bits_cons. change (Codec.width (map snd ((v, n) :: fs))) with (n + Codec.width (map snd fs)).
  simpl in Hn. rewrite zlen_app, zlen_bits, IH. lia.
Qed.

Section layout.
Context (e : t) (Hlen : sn_field_length e = 12 \/ sn_field_length e = 18).

Lemma nack_fields_widths k e1 : Forall (fun f : Z * Z => 0 <= f.2 <= 31) (nack_fields e k e1).
Proof using Hlen.
  unfold nack_fields, r_bits, so_fields, range_fields.
  destruct Hlen as [-> | ->], (k_so k) as [[]|], (k_range k); simpl;
    repeat constructor; simpl; lia.
Qed.

Lemma nack_fields_width k e1 : Codec.width (map snd (nack_fields e k e1)) = 8 * nack_bytes e k.
Proof using Hlen.
  unfold nack_fields, nack_bytes, r_bits, so_fields, range_fields, Codec.width.
  destruct Hlen as [-> | ->], (k_so k) as [[]|], (k_range k); simpl; unfold id; lia.
Qed.

Lemma zlen_nack_bits k e1 : zlen (Codec.field_bits (nack_fields e k e1)) = 8 * nack_bytes e k.
Proof using Hlen.
  rewrite zlen_field_bits; [apply nack_fields_width|].
  eapply Forall_impl; [apply nack_fields_widths|]. simpl. lia.
Qed.

Lemma zlen_body ack_sn rl : forall e1, zlen (body e ack_sn rl e1) = 8 * body_bytes e rl.
Proof using Hlen.
  induction rl as [|k rl IH]; intros e1.
  - unfold body, ack_fields. rewrite zlen_field_bits; destruct Hlen as [Hl | Hl]; rewrite Hl;
      try reflexivity; repeat constructor; simpl; lia.
  - cbn [body]. rewrite zlen_app, IH, zlen_nack_bits. unfold body_bytes. simpl. lia.
Qed.

(** Position of the last e1 bit. *)
Definition e1_at (rl : list nack) : Z :=
  match rl with
  | [] => 4 + sn_field_length e
  | _ :: rl' => 8 * body_bytes e rl' + sn_field_length e
  end.

Lemma body_e1 ack_sn rl :
  exists A C, zlen A = e1_at rl /\ forall e1, body e ack_sn rl e1 = A ++ e1 :: C.
Proof using Hlen.
  assert (Hb : forall b, bits 1 (b2z b) = [b]) by (by intros []).
  destruct rl as [|k rl].
  - exists (Codec.field_bits [(0, 1); (0, 3); (ack_sn, sn_field_length e)]),
      (Codec.field_bits [(0, if sn_field_length e =? 18 then 1 else 7)]).
    split; [|intros e1; unfold body, ack_fields].
    + unfold e1_at. rewrite zlen_field_bits; destruct Hlen as [Hl | Hl]; rewrite Hl;
        try reflexivity; repeat constructor; simpl; lia.
    + change [(0, 1); (0, 3); (ack_sn, sn_field_length e); (b2z e1, 1);
        (0, if sn_field_length e =? 18 then 1 else 7)]
      with ([(0, 1); (0, 3); (ack_sn, sn_field_length e)] ++ [(b2z e1, 1)] ++
        [(0, if sn_field_length e =? 18 then 1 else 7)]).
      rewrite !field_bits_app. f_equal. rewrite field_bits_cons, <- app_assoc.
      change (Z.to_nat 1) with 1%nat. by rewrite Hb.
  - exists (body e ack_sn rl true ++ Codec.field_bits [(k_sn k, sn_field_length e)]),
      (Codec.field_bits ([(b2z (is_some (k_so k)), 1); (b2z (is_some (k_range k)), 1); (0, r_bits e)]
         ++ so_fields k ++ range_fields k)).
    split.
    + rewrite zlen_app, zlen_body, zlen_field_bits by (constructor; [simpl; lia|constructor]).
      unfold e1_at, Codec.width. simpl. unfold id. lia.
    + intros e1. cbn [body]. rewrite <- app_assoc. f_equal. unfold nack_fields.
      cbn [app]. rewrite !field_bits_cons. change (Z.to_nat 1) with 1%nat. rewrite Hb.
      rewrite app_nil_r. done.
Qed.

(** Address of so_end in the last NACK. *)
Definition so_end_at (rl : list nack) : option Z :=
  match rl with
  | [] => None
  | k :: rl' =>
      match k_so k with
      | Some _ => Some (body_bytes e rl' + 4 + b2z (sn_field_length e =? 18))
      | None => None
      end
  end.

(** The last NACK up to the end of the SDU. *)
Definition to_end (rl : list nack) : list nack :=
  match rl with
  | k :: rl' =>
      match k_so k with
      | Some (s, _) => {| k with k_so := Some (s, 65535) |} :: rl'
      | None => rl
      end
  | [] => []
  end.

Lemma body_so_end ack_sn rl e1 a :
  so_end_at rl = Some a ->
  exists A X1 X2 C, zlen A = 8 * a /\ length X1 = 8%nat /\ length X2 = 8%nat
    /\ body e ack_sn rl e1 = A ++ X1 ++ X2 ++ C
    /\ body e ack_sn (to_end rl) e1 = A ++ bits 8 255 ++ bits 8 255 ++ C.
Proof using Hlen.
  destruct rl as [|k rl]; simpl; [done|]. destruct (k_so k) as [[s f]|] eqn:Eso; [|done].
  intros [= <-].
  set (pre := [(k_sn k, sn_field_length e); (b2z e1, 1); (1, 1); (b2z (is_some (k_range k)), 1);
    (0, r_bits e); (s, 16)]).
  exists (body e ack_sn rl true ++ Codec.field_bits pre), (bits 8 (Z.shiftr f 8)), (bits 8 f),
    (Codec.field_bits (range_fields k)).
  assert (Hf : forall v, Codec.field_bits (pre ++ [(v, 16)] ++ range_fields k)
    = Codec.field_bits pre ++ bits 8 (Z.shiftr v 8) ++ bits 8 v ++ Codec.field_bits (range_fields k)).
  { intros v. rewrite !field_bits_app. f_equal. rewrite field_bits_cons.
    change (Z.to_nat 16) with (8 + 8)%nat. rewrite bits_app.
    change (Codec.field_bits []) with (@nil bool). by rewrite <- !app_assoc. }
  split_and!; try apply length_bits.
  - rewrite zlen_app, zlen_body, zlen_field_bits.
    + unfold pre, Codec.width, r_bits. destruct Hlen as [-> | ->]; simpl; unfold id; lia.
    + unfold pre, r_bits. destruct Hlen as [-> | ->]; simpl; repeat constructor; simpl; lia.
  - rewrite <- app_assoc. f_equal. rewrite <- Hf. unfold nack_fields, so_fields. by rewrite Eso.
  - cbn [body]. rewrite <- app_assoc. f_equal. exact (Hf 65535).
Qed.

(** What the generation has written so far. *)
Record gen_ok (size len : Z) (g : gen_state) (rl : list nack) : Prop := {
  go_wf : Codec.enc_wf (enc g);
  go_size : Codec.enc_size (enc g) = size;
  go_len : zlen (Codec.enc_buffer (enc g)) = len;
  go_bit : Codec.enc_bit (enc g) = 0;
  go_byte : Codec.enc_byte (enc g) = body_bytes e rl;
  go_fits : body_bytes e rl <= size;
  go_bits : buffer_bits (take (Z.to_nat (body_bytes e rl)) (Codec.enc_buffer (enc g)))
            = body e 0 rl false;
  go_e1 : 8 * e1_byte g + 7 - e1_bit g = e1_at rl /\ 0 <= e1_bit g < 8;
  go_addr : so_end_address g = so_end_at rl
}.

Lemma body_bytes_pos rl : 3 <= body_bytes e rl.
Proof using.
  unfold body_bytes. enough (0 <= zsum (nack_bytes e) rl) by lia. apply zsum_nonneg.
  apply Forall_true. intros k. pose proof (nack_bytes_pos e k). lia.
Qed.

Lemma put_bits_ok enc0 v n :
  Codec.enc_wf enc0 -> 0 <= n <= 31 -> n <= Codec.room enc0 ->
  exists enc', Codec.nr_rlc_pdu_encoder_put_bits enc0 v n = Ok enc'
    /\ Codec.extends enc0 enc' (Codec.field_bits [(v, n)]).
Proof using.
  intros Hw Hn Hr. unfold Codec.nr_rlc_pdu_encoder_put_bits. rewrite Z.gtb_ltb.
  destruct (Z.ltb_spec 31 n); [lia|].
  destruct (Codec.put_bits_loop_spec (Z.to_nat n) v enc0 Hw) as (enc' & E & X); [lia|].
  rewrite Z2Nat.id in E by lia. exists enc'. split; [done|]. simpl in X.
  unfold Codec.field_bits. simpl. by rewrite app_nil_r.
Qed.

Lemma extends_room enc0 enc' bs :
  Codec.extends enc0 enc' bs -> Codec.room enc' = Codec.room enc0 - zlen bs.
Proof using. intros (_ & _ & S & _ & P & _). unfold Codec.room. lia. Qed.

(** ** Writing one NACK *)

(** The encoder after the NACK [k]. *)
Lemma gen_append size len g rl k buf enc' b1 j1 :
  gen_ok size len g rl -> zlen buf = len -> body_bytes e (k :: rl) <= size ->
  buffer_bits (take (Z.to_nat (body_bytes e rl)) buf) = body e 0 rl true ->
  Codec.extends {| (enc g) with Codec.enc_buffer := buf |} enc'
    (Codec.field_bits (nack_fields e k false)) ->
  8 * b1 + 7 - j1 = e1_at (k :: rl) -> 0 <= j1 < 8 ->
  gen_ok size len {| enc := enc'; e1_byte := b1; e1_bit := j1; so_end_address := so_end_at (k :: rl) |}
    (k :: rl).
Proof using Hlen.
  intros Hg Hbl Hfit Hbits (Hw & Hwr & Hs & Hl & Hp & _) He1 Hj1. simpl in Hs, Hl, Hp.
  rewrite zlen_nack_bits in Hp. pose proof (Codec.ewf_bit _ Hw). pose proof (Codec.ewf_byte _ Hw).
  pose proof (go_bit _ _ _ _ Hg) as Hz. pose proof (go_byte _ _ _ _ Hg) as Hby.
  assert (Hb : body_bytes e (k :: rl) = nack_bytes e k + body_bytes e rl).
  { unfold body_bytes. rewrite zsum_cons. lia. }
  assert (Hpos : Codec.enc_byte enc' = body_bytes e (k :: rl) /\ Codec.enc_bit enc' = 0) by lia.
  destruct Hpos as [Eby Ebi].
  constructor; cbn [enc e1_byte e1_bit so_end_address]; try done.
  - rewrite Hs. apply (go_size _ _ _ _ Hg).
  - lia.
  - unfold Codec.written in Hwr. cbn [Codec.enc_byte Codec.enc_bit Codec.enc_buffer] in Hwr.
    rewrite Ebi, Eby, Hz, Hby in Hwr. cbn [Z.to_nat bits] in Hwr. rewrite !app_nil_r, Hbits in Hwr.
    exact Hwr.
Qed.

Lemma enc_written g rl buf size len :
  gen_ok size len g rl -> zlen buf = len -> Codec.enc_wf {| (enc g) with Codec.enc_buffer := buf |}
  /\ Codec.room {| (enc g) with Codec.enc_buffer := buf |} = 8 * (size - body_bytes e rl).
Proof using.
  intros Hg Hl. destruct (go_wf _ _ _ _ Hg) as [H1 H2 H3]. rewrite (go_len _ _ _ _ Hg) in H3.
  split; [constructor; simpl; try done; lia|]. unfold Codec.room. simpl.
  rewrite (go_size _ _ _ _ Hg), (go_bit _ _ _ _ Hg), (go_byte _ _ _ _ Hg). lia.
Qed.

(** The optional fields. *)
Definition put_so (enc0 : Codec.nr_rlc_pdu_encoder_t) (so : option (Z * Z))
    : res (Codec.nr_rlc_pdu_encoder_t * option Z) :=
  match so with
  | Some (s, f) =>
      encoder ← Codec.nr_rlc_pdu_encoder_put_bits enc0 s 16;
      let address := Codec.enc_byte encoder in
      encoder ← Codec.nr_rlc_pdu_encoder_put_bits encoder f 16;
      mret (encoder, Some address)
  | None => mret (enc0, None)
  end.

Definition put_range (enc0 : Codec.nr_rlc_pdu_encoder_t) (sn_ : Z) (range : option Z)
    : res (Codec.nr_rlc_pdu_encoder_t * Z) :=
  match range with
  | Some c => encoder ← Codec.nr_rlc_pdu_encoder_put_bits enc0 c 8; mret (encoder, sn_ + c - 1)
  | None => mret (enc0, sn_)
  end.

Lemma put_so_ok enc0 (so : option (Z * Z)) :
  Codec.enc_wf enc0 -> (is_some so = true -> 32 <= Codec.room enc0) ->
  exists enc', put_so enc0 so = Ok (enc', match so with
                       | Some _ => Some ((8 * Codec.enc_byte enc0 + Codec.enc_bit enc0 + 16) / 8)
                       | None => None
                       end)
    /\ Codec.extends enc0 enc'
         (Codec.field_bits (match so with Some (s, f) => [(s, 16); (f, 16)] | None => [] end)).
Proof using.
  intros Hw Hr. unfold put_so. destruct so as [[s f]|]; [|exists enc0; split; [done|by apply Codec.extends_nil]].
  specialize (Hr eq_refl).
  destruct (put_bits_ok enc0 s 16) as (enc1 & E1 & X1); [done|lia|lia|]. rewrite E1, res_bind_unfold.
  pose proof (extends_room _ _ _ X1) as Hr1. change (zlen _) with 16 in Hr1. cbv zeta.
  destruct (put_bits_ok enc1 f 16) as (enc2 & E2 & X2); [apply X1|lia|lia|].
  rewrite E2, res_bind_unfold. exists enc2. split.
  - do 2 f_equal. destruct X1 as (W1 & _ & _ & _ & P1 & _). change (zlen _) with 16 in P1.
    pose proof (Codec.ewf_bit _ W1). f_equal. symmetry. rewrite <- P1.
    rewrite Z.mul_comm, Z.div_add_l, Z.div_small by lia. lia.
  - change [(s, 16); (f, 16)] with ([(s, 16)] ++ [(f, 16)]). rewrite field_bits_app.
    by eapply Codec.extends_trans.
Qed.

Lemma put_range_ok enc0 sn_ (range : option Z) :
  Codec.enc_wf enc0 -> (is_some range = true -> 8 <= Codec.room enc0) ->
  exists enc', put_range enc0 sn_ range
      = Ok (enc', match range with Some c => sn_ + c - 1 | None => sn_ end)
    /\ Codec.extends enc0 enc' (Codec.field_bits (match range with Some c => [(c, 8)] | None => [] end)).
Proof using.
  intros Hw Hr. unfold put_range. destruct range as [c|]; [|exists enc0; split; [done|by apply Codec.extends_nil]].
  specialize (Hr eq_refl). destruct (put_bits_ok enc0 c 8) as (enc1 & E1 & X1); [done|lia|lia|].
  rewrite E1, res_bind_unfold. by exists enc1.
Qed.

(** The last SN that a NACK reports, before the reduction modulo. *)
Definition last_sn (k : nack) : Z := k_sn k + match k_range k with Some c => c - 1 | None => 0 end.

(** The fields of a NACK in the order they are written. *)
Definition first_fields (k : nack) : list (Z * Z) :=
  [(k_sn k, sn_field_length e); (b2z false, 1); (b2z (is_some (k_so k)), 1);
   (b2z (is_some (k_range k)), 1); (0, r_bits e)].

Definition put_nack (enc0 : Codec.nr_rlc_pdu_encoder_t) (k : nack)
    : res (Codec.nr_rlc_pdu_encoder_t * option Z * Z) :=
  encoder ← Codec.put_fields enc0 (first_fields k);
  '(encoder, address) ← put_so encoder (k_so k);
  '(encoder, last_nack) ← put_range encoder (k_sn k) (k_range k);
  mret (encoder, address, last_nack).

Lemma generate_nack_put g m cnt :
  generate_nack e g m cnt =
  (buffer ← or_byte (Codec.enc_buffer (enc g)) (e1_byte g) (Z.shiftl 1 (e1_bit g));
   let encoder := {| (enc g) with Codec.enc_buffer := buffer |} in
   '(enc', address, last_nack) ← put_nack encoder (nack_of m cnt);
   mret (last_nack, {| enc := enc'; e1_byte := (get_e1_position e encoder).1;
                       e1_bit := (get_e1_position e encoder).2; so_end_address := address |})).
Proof using.
  unfold generate_nack, put_nack, put_so, put_range, first_fields, nack_of, r_bits.
  destruct (or_byte _ _ _) as [buf|]; [|done]. rewrite !res_bind_unfold.
  destruct (get_e1_position e _) as [b1 j1]. cbn [k_sn k_so k_range fst snd].
  destruct ((so_start m =? 0) && (so_end m =? 65535)), (sn_start m =? sn_end m);
    cbn [is_some negb b2z];
    (destruct (Codec.put_fields _ _) as [enc1|]; [|done]); rewrite !res_bind_unfold; try done;
    (destruct (Codec.nr_rlc_pdu_encoder_put_bits enc1 _ _) as [enc2|]; [|done]);
    rewrite !res_bind_unfold; try done; cbv zeta;
    (destruct (Codec.nr_rlc_pdu_encoder_put_bits enc2 _ _) as [enc3|]; [|done]);
    rewrite !res_bind_unfold; try done.
  by destruct (Codec.nr_rlc_pdu_encoder_put_bits enc3 _ _).
Qed.

Lemma first_fields_width : sn_field_length e + 3 + r_bits e = 8 * (2 + b2z (sn_field_length e =? 18)).
Proof using Hlen. unfold r_bits. by destruct Hlen as [-> | ->]. Qed.

Lemma put_nack_ok enc0 k :
  Codec.enc_wf enc0 -> Codec.enc_bit enc0 = 0 -> 8 * nack_bytes e k <= Codec.room enc0 ->
  exists enc', put_nack enc0 k
      = Ok (enc', match k_so k with
                  | Some _ => Some (Codec.enc_byte enc0 + 4 + b2z (sn_field_length e =? 18))
                  | None => None
                  end, last_sn k)
    /\ Codec.extends enc0 enc' (Codec.field_bits (nack_fields e k false)).
Proof using Hlen.
  intros Hw H0 Hroom. unfold put_nack, nack_bytes in *. pose proof first_fields_width as Hr8.
  pose proof (nack_fields_widths k false) as Hall. apply Forall_app in Hall as [Hfive _].
  change [(k_sn k, sn_field_length e); (b2z false, 1); (b2z (is_some (k_so k)), 1);
          (b2z (is_some (k_range k)), 1); (0, r_bits e)] with (first_fields k) in Hfive.
  assert (Hz1 : Codec.width (map snd (first_fields k)) = sn_field_length e + 3 + r_bits e).
  { unfold Codec.width, first_fields. simpl. unfold id. lia. }
  destruct (Codec.put_fields_spec (first_fields k) enc0 Hw Hfive) as (enc1 & E1 & X1).
  { rewrite Hz1. destruct (is_some (k_so k)), (is_some (k_range k)); lia. }
  rewrite <- zlen_field_bits in Hz1 by (eapply Forall_impl; [exact Hfive|]; simpl; lia).
  pose proof (extends_room _ _ _ X1) as Hr1. rewrite Hz1, Hr8 in Hr1. rewrite E1, res_bind_unfold.
  destruct (put_so_ok enc1 (k_so k)) as (enc2 & E2 & X2); [apply X1| |].
  { intros Hs. rewrite Hs in Hroom. destruct (is_some (k_range k)); lia. }
  pose proof (extends_room _ _ _ X2) as Hr2. rewrite E2, res_bind_unfold.
  destruct (put_range_ok enc2 (k_sn k) (k_range k)) as (enc3 & E3 & X3);
    [apply X2| |].
  { intros Hs. rewrite Hs in Hroom. rewrite Hr2, Hr1.
    destruct (k_so k) as [[]|]; cbn [is_some] in Hroom |- *;
      [change (zlen _) with 32|change (zlen _) with 0]; lia. }
  rewrite E3, res_bind_unfold. exists enc3. split.
  - unfold mret, res_ret. do 2 f_equal; [f_equal|].
    + destruct X1 as (_ & _ & _ & _ & P1 & _). rewrite P1, H0, Hz1, Hr8.
      destruct (k_so k); [|done]. f_equal.
      replace (_ + 16) with ((Codec.enc_byte enc0 + 4 + b2z (sn_field_length e =? 18)) * 8) by lia.
      apply Z.div_mul. lia.
    + unfold last_sn. destruct (k_range k); lia.
  - unfold nack_fields. rewrite !field_bits_app.
    eapply Codec.extends_trans; [exact X1|]. eapply Codec.extends_trans; [exact X2|exact X3].
Qed.

Lemma generate_nack_ok size len g rl m cnt :
  gen_ok size len g rl -> body_bytes e rl + nack_size e m <= size ->
  exists g', generate_nack e g m cnt = Ok (last_sn (nack_of m cnt), g')
    /\ gen_ok size len g' (nack_of m cnt :: rl).
Proof using Hlen.
  intros Hg Hfit. rewrite (nack_size_bytes e m cnt) in Hfit. set (k := nack_of m cnt) in *.
  rewrite generate_nack_put. fold k. destruct (body_e1 0 rl) as (A & C & HA & Hbody).
  destruct (go_e1 _ _ _ _ Hg) as [Hpos Hbit]. pose proof (go_bits _ _ _ _ Hg) as Hb.
  rewrite Hbody in Hb. rewrite <- HA in Hpos.
  destruct (set_bit_ok _ _ _ _ _ _ _ Hb (eq_sym Hpos) Hbit) as (buf & Eb & Hbl & Hbt).
  rewrite <- Hbody in Hbt. rewrite (go_len _ _ _ _ Hg) in Hbl. rewrite Eb, res_bind_unfold.
  destruct (enc_written _ _ buf _ _ Hg Hbl) as [Hw Hroom].
  pose proof (go_bit _ _ _ _ Hg) as Hb0. pose proof (go_byte _ _ _ _ Hg) as Hby. cbv zeta.
  destruct (put_nack_ok {| (enc g) with Codec.enc_buffer := buf |} k) as (enc' & E & X);
    [done|done|lia|].
  rewrite E, res_bind_unfold. eexists. split; [reflexivity|].
  change (Codec.enc_byte {| (enc g) with Codec.enc_buffer := buf |}) with (Codec.enc_byte (enc g)).
  rewrite Hby. change (match k_so k with Some _ => Some (body_bytes e rl + 4 +
    b2z (sn_field_length e =? 18)) | None => None end) with (so_end_at (k :: rl)).
  eapply gen_append; try done.
  - unfold body_bytes in *. rewrite zsum_cons. lia.
  - unfold get_e1_position, e1_at. simpl.
    destruct Hlen as [-> | ->]; simpl; lia.
  - unfold get_e1_position. destruct Hlen as [-> | ->]; simpl; lia.
Qed.

(** ** The first and the last steps *)

Lemma gen_start buffer size :
  3 <= size <= zlen buffer ->
  exists encoder,
    Codec.nr_rlc_pdu_encoder_put_bits (Codec.nr_rlc_pdu_encoder_init buffer size) 0 (8 * 3) = Ok encoder
    /\ gen_ok size (zlen buffer)
         {| enc := encoder; e1_byte := 2; e1_bit := if sn_field_length e =? 18 then 1 else 7;
            so_end_address := None |} [].
Proof using Hlen.
  intros Hs. destruct (put_bits_ok (Codec.nr_rlc_pdu_encoder_init buffer size) 0 (8 * 3))
    as (encoder & E & X); [apply Codec.encoder_init_wf; lia|lia|unfold Codec.room; simpl; lia|].
  exists encoder. split; [done|]. destruct X as (W & Wr & S & L & P & _). simpl in S, L, P.
  change (zlen _) with 24 in P. pose proof (Codec.ewf_bit _ W). pose proof (Codec.ewf_byte _ W).
  assert (Codec.enc_byte encoder = 3 /\ Codec.enc_bit encoder = 0) as [Eby Ebi] by lia.
  constructor; simpl; try done; try (unfold body_bytes; simpl; lia).
  - unfold Codec.written in Wr. rewrite Eby, Ebi in Wr. simpl in Wr. rewrite app_nil_r in Wr.
    change (Z.to_nat (body_bytes e [])) with (Z.to_nat 3). rewrite Wr. unfold ack_fields. by destruct Hlen as [-> | ->].
  - unfold e1_at. by destruct Hlen as [-> | ->].
Qed.

Lemma body_bytes_to_end rl : body_bytes e (to_end rl) = body_bytes e rl.
Proof using.
  destruct rl as [|k rl]; [done|]. simpl. destruct (k_so k) as [[s f]|] eqn:E; [|done].
  unfold body_bytes, nack_bytes. rewrite !zsum_cons. simpl. by rewrite E.
Qed.

(** The forced end of the last NACK. *)
Lemma force_end_ok size len g rl a :
  gen_ok size len g rl -> so_end_address g = Some a ->
  exists buf1 buf2, zset (Codec.enc_buffer (enc g)) a 255 = Ok buf1 /\ zset buf1 (a + 1) 255 = Ok buf2
    /\ zlen buf2 = len
    /\ buffer_bits (take (Z.to_nat (body_bytes e rl)) buf2) = body e 0 (to_end rl) false.
Proof using Hlen.
  intros Hg Ha. rewrite (go_addr _ _ _ _ Hg) in Ha.
  destruct (body_so_end 0 rl false a Ha) as (A & X1 & X2 & C & HA & H1 & H2 & Hb & Hb').
  pose proof (go_bits _ _ _ _ Hg) as Hbits. rewrite Hb in Hbits.
  destruct (zset_bits _ _ a A X1 (X2 ++ C) Hbits HA H1 255) as (buf1 & E1 & L1 & B1).
  destruct (zset_bits (Z.to_nat (body_bytes e rl)) buf1 (a + 1) (A ++ bits 8 255) X2 C)
    with (v := 255) as (buf2 & E2 & L2 & B2).
  - by rewrite B1, <- app_assoc.
  - rewrite zlen_app, HA, zlen_bits. lia.
  - done.
  - exists buf1, buf2. split_and!; try done.
    + rewrite L2, L1. apply (go_len _ _ _ _ Hg).
    + rewrite B2, Hb', <- app_assoc. done.
Qed.

(** The NACKs behind the first three bytes, in the order of the PDU. *)
Fixpoint nacks_bits (ks : list nack) (e1 : bool) : list bool :=
  match ks with
  | [] => []
  | k :: ks' =>
      Codec.field_bits (nack_fields e k (match ks' with [] => e1 | _ => true end)) ++ nacks_bits ks' e1
  end.

Lemma nacks_bits_snoc ks k e1 :
  nacks_bits (ks ++ [k]) e1 = nacks_bits ks true ++ Codec.field_bits (nack_fields e k e1).
Proof using.
  induction ks as [|k0 ks IH]; simpl; [by rewrite app_nil_r|]. rewrite IH, <- app_assoc. f_equal.
  destruct ks; done.
Qed.

Lemma body_split ack_sn rl : forall e1,
  body e ack_sn rl e1
  = Codec.field_bits (ack_fields e ack_sn (match rl with [] => e1 | _ => true end))
    ++ nacks_bits (rev rl) e1.
Proof using.
  induction rl as [|k rl IH]; intros e1; cbn [body]; [simpl; by rewrite app_nil_r|].
  rewrite IH. cbn [rev]. rewrite nacks_bits_snoc, app_assoc. do 2 f_equal. by destruct rl.
Qed.

Lemma bits_high n m v : 0 <= v < 2 ^ Z.of_nat m -> bits (n + m) v = bits n 0 ++ bits m v.
Proof using.
  intros Hv. rewrite bits_app. f_equal. rewrite Z.shiftr_div_pow2, Z.div_small by lia. done.
Qed.

Lemma ack_bits_12 ack_sn e1 :
  sn_field_length e = 12 -> 0 <= ack_sn < 2 ^ 12 ->
  Codec.field_bits (ack_fields e ack_sn e1)
  = bits 8 (Z.shiftr ack_sn 8) ++ bits 8 ack_sn ++ e1 :: bits 7 0.
Proof using.
  intros Hl Ha. unfold ack_fields. rewrite Hl. rewrite !field_bits_cons.
  change (Codec.field_bits []) with (@nil bool). rewrite app_assoc.
  change (bits (Z.to_nat 1) 0 ++ bits (Z.to_nat 3) 0) with (bits 4 0).
  change (Z.to_nat 12) with 12%nat. rewrite app_assoc, <- (bits_high 4 12 ack_sn Ha).
  change (4 + 12)%nat with (8 + 8)%nat. rewrite bits_app, <- app_assoc. by destruct e1.
Qed.

Lemma ack_bits_18 ack_sn e1 :
  sn_field_length e = 18 -> 0 <= ack_sn < 2 ^ 18 ->
  Codec.field_bits (ack_fields e ack_sn e1)
  = bits 8 (Z.shiftr ack_sn 14) ++ bits 8 (Z.shiftr ack_sn 6) ++ bits 6 ack_sn ++ [e1; false].
Proof using.
  intros Hl Ha. unfold ack_fields. rewrite Hl. rewrite !field_bits_cons.
  change (Codec.field_bits []) with (@nil bool). rewrite app_assoc.
  change (bits (Z.to_nat 1) 0 ++ bits (Z.to_nat 3) 0) with (bits 4 0).
  change (Z.to_nat 18) with 18%nat. rewrite app_assoc, <- (bits_high 4 18 ack_sn Ha).
  change (4 + 18)%nat with (8 + (8 + 6))%nat. rewrite (bits_app 8), (bits_app 8 6), <- !app_assoc.
  by destruct e1.
Qed.

Lemma bits_testbit n v w :
  bits n v = bits n w -> forall i, (i < n)%nat -> Z.testbit v (Z.of_nat i) = Z.testbit w (Z.of_nat i).
Proof using.
  induction n as [|n IH]; intros E i Hi; [lia|]. injection E as Eh Et.
  destruct (decide (i = n)) as [->|]; [done|apply IH; [done|lia]].
Qed.

Lemma bits_lor_ack x ack_sn e1 :
  bits 8 x = bits 6 0 ++ [e1; false] ->
  bits 8 (Z.lor x (Z.shiftl (Z.land ack_sn 63) 2)) = bits 6 ack_sn ++ [e1; false].
Proof using.
  change 8%nat with (6 + 2)%nat. rewrite !bits_app. intros E.
  apply app_inj_1 in E as [Ehi Elo]; [|by rewrite !length_bits]. rewrite <- Elo. f_equal.
  - apply bits_ext. intros i Hi. pose proof (bits_testbit _ _ _ Ehi i Hi) as Ht.
    rewrite Z.shiftr_spec in Ht |- * by lia. rewrite Z.lor_spec, Ht, Z.bits_0. simpl orb.
    rewrite Z.shiftl_spec by lia. replace (Z.of_nat i + Z.of_nat 2 - 2) with (Z.of_nat i) by lia.
    change 63 with (Z.ones 6). rewrite Z.land_spec, Z.ones_spec_low by lia. by rewrite andb_true_r.
  - apply bits_ext. intros i Hi. rewrite Z.lor_spec, Z.shiftl_spec_low by lia. by rewrite orb_false_r.
Qed.

(** ACK_SN is put in the first bytes. *)
Lemma put_ack_ok buf rl ack_sn :
  0 <= ack_sn < 2 ^ sn_field_length e ->
  buffer_bits (take (Z.to_nat (body_bytes e rl)) buf) = body e 0 rl false ->
  exists buf', put_ack_sn e buf ack_sn = Ok buf' /\ zlen buf' = zlen buf
    /\ buffer_bits (take (Z.to_nat (body_bytes e rl)) buf') = body e ack_sn rl false.
Proof using Hlen.
  intros Ha Hb. rewrite body_split in Hb |- *. set (b := match rl with [] => false | _ => true end) in *.
  set (T := nacks_bits (rev rl) false) in *. set (n := Z.to_nat (body_bytes e rl)) in *.
  unfold put_ack_sn. destruct Hlen as [Hl|Hl]; rewrite Hl in Ha |- *; cbn [Z.eqb Pos.eqb].
  - rewrite ack_bits_12 in Hb |- * by done. rewrite <- !app_assoc in Hb |- *.
    destruct (zset_bits n buf 0 [] _ _ Hb eq_refl (length_bits _ _) (u8 (Z.shiftr ack_sn 8)))
      as (b1 & E1 & L1 & B1). rewrite E1, res_bind_unfold, bits_u8 in *. rewrite app_nil_l in B1.
    destruct (zset_bits n b1 1 _ _ _ B1 (zlen_bits _ _) (length_bits _ _) (Z.land ack_sn 255))
      as (b2 & E2 & L2 & B2). exists b2. rewrite E2. split_and!; [done|congruence|].
    rewrite B2. change 255 with (Z.ones 8). rewrite Z.land_ones by lia.
    change (ack_sn mod 2 ^ 8) with (u8 ack_sn). by rewrite bits_u8.
  - rewrite ack_bits_18 in Hb |- * by done. rewrite <- !app_assoc in Hb |- *.
    destruct (zset_bits n buf 0 [] _ _ Hb eq_refl (length_bits _ _) (u8 (Z.shiftr ack_sn 14)))
      as (b1 & E1 & L1 & B1). rewrite E1, res_bind_unfold, bits_u8 in *. rewrite app_nil_l in B1.
    destruct (zset_bits n b1 1 _ _ _ B1 (zlen_bits _ _) (length_bits _ _) (Z.land (Z.shiftr ack_sn 6) 255))
      as (b2 & E2 & L2 & B2). rewrite E2, res_bind_unfold.
    change 255 with (Z.ones 8) in B2. rewrite Z.land_ones in B2 by lia.
    change (Z.shiftr ack_sn 6 mod 2 ^ 8) with (u8 (Z.shiftr ack_sn 6)) in B2. rewrite bits_u8 in B2.
    destruct (or_byte_bits n b2 2 (bits 8 (Z.shiftr ack_sn 14) ++ bits 8 (Z.shiftr ack_sn 6))
      (bits 6 0 ++ [b; false]) T) with (v := Z.shiftl (Z.land ack_sn 63) 2)
      (Y := bits 6 ack_sn ++ [b; false]) as (b3 & E3 & L3 & B3).
    + by rewrite B2, <- !app_assoc.
    + by rewrite zlen_app, !zlen_bits.
    + done.
    + intros x Hx. by apply bits_lor_ack.
    + exists b3. rewrite E3. split_and!; [done|congruence|]. by rewrite B3, <- !app_assoc.
Qed.

(** ** Reading the PDU back *)

(** The fields fit their widths. *)
Definition nack_ok (k : nack) : Prop :=
  0 <= k_sn k < 2 ^ sn_field_length e
  /\ (forall s f, k_so k = Some (s, f) -> 0 <= s < 2 ^ 16 /\ 0 <= f < 2 ^ 16)
  /\ (forall c, k_range k = Some c -> 0 <= c < 2 ^ 8).

(** The block the receiver of the PDU makes of a NACK. *)
Definition block_of (k : nack) (e1 : bool) : AmControl.nack_block :=
  {| AmControl.nack_sn := k_sn k; AmControl.n_e1 := e1;
     AmControl.n_so_start := match k_so k with Some (s, _) => s | None => 0 end;
     AmControl.n_so_end := match k_so k with Some (_, f) => if f =? 65535 then -1 else f | None => -1 end;
     AmControl.n_range := match k_range k with Some c => c | None => 1 end |}.

Fixpoint blocks_of (ks : list nack) : list AmControl.nack_block :=
  match ks with
  | [] => []
  | k :: ks' => block_of k (match ks' with [] => false | _ => true end) :: blocks_of ks'
  end.

Lemma decode_nack_bits d k e1 rest :
  Codec.dec_wf d -> nack_ok k -> Codec.unread d = Codec.field_bits (nack_fields e k e1) ++ rest ->
  exists d', AmControl.decode_nack_checked e d = Ok (Some (block_of k e1, d'))
    /\ Codec.dec_wf d' /\ Codec.unread d' = rest.
Proof using Hlen.
  intros W (Hsn & Hso & Hrg) U. unfold nack_fields, so_fields, range_fields, r_bits in U.
  assert (Hb2z : forall b, 0 <= b2z b < 2 ^ 1) by (intros []; simpl; lia).
  assert (Hneg : forall b, negb (b2z b =? 0) = b) by (by intros []).
  unfold AmControl.decode_nack_checked, block_of.
  pose proof (Hb2z e1). pose proof (Hb2z (is_some (k_so k))). pose proof (Hb2z (is_some (k_range k))).
  destruct (k_so k) as [[s f]|] eqn:Es, (k_range k) as [c|] eqn:Ec;
    [pose proof (Hso _ _ eq_refl); pose proof (Hrg _ eq_refl)|pose proof (Hso _ _ eq_refl)
    |pose proof (Hrg _ eq_refl)|];
    clear Hso Hrg; cbn [is_some] in *;
    (destruct Hlen as [Hl|Hl]; rewrite Hl in Hsn, U |- *; cbn [Z.eqb Pos.eqb] in U |- *;
     cbn [app] in U; rewrite !field_bits_cons, <- !app_assoc in U;
     decode_field (k_sn k); decode_field (b2z e1));
    [ decode_field (b2z true); decode_field (b2z true)
    | decode_field (b2z true); decode_field (b2z true)
    | decode_field (b2z true); decode_field (b2z false)
    | decode_field (b2z true); decode_field (b2z false)
    | decode_field (b2z false); decode_field (b2z true)
    | decode_field (b2z false); decode_field (b2z true)
    | decode_field (b2z false); decode_field (b2z false)
    | decode_field (b2z false); decode_field (b2z false) ];
    decode_field 0; rewrite !Hneg; cbv beta; unfold AmControl.decode_so_checked; cbv iota beta zeta.
  all: try (decode_field s; decode_field f; cbv beta).
  all: try (decode_field c; cbv beta).
  all: eexists; split; [reflexivity|]; split; [done|]; etransitivity; [eassumption|done].
Qed.

Lemma decode_ack_bits d ack_sn e1 rest :
  Codec.dec_wf d -> 0 <= ack_sn < 2 ^ sn_field_length e ->
  Codec.unread d = Codec.field_bits (ack_fields e ack_sn e1) ++ rest ->
  exists d', AmControl.decode_ack_checked e d = Ok (Some (ack_sn, e1, d'))
    /\ Codec.dec_wf d' /\ Codec.unread d' = rest.
Proof using Hlen.
  intros W Ha U. unfold ack_fields in U.
  assert (0 <= b2z e1 < 2 ^ 1) by (destruct e1; simpl; lia).
  assert (Hneg : negb (b2z e1 =? 0) = e1) by (by destruct e1).
  unfold AmControl.decode_ack_checked. destruct Hlen as [Hl|Hl];
    rewrite Hl in Ha, U |- *; cbn [Z.eqb Pos.eqb] in U |- *;
    rewrite !field_bits_cons, <- !app_assoc in U;
    decode_field 0; decode_field 0; cbn [Z.eqb negb]; decode_field ack_sn; decode_field (b2z e1);
    decode_field 0; rewrite Hneg;
    (eexists; split; [reflexivity|]; split; [done|]; etransitivity; [eassumption|done]).
Qed.

Lemma decode_blocks ks : forall d fuel,
  Codec.dec_wf d -> Forall nack_ok ks -> Codec.unread d = nacks_bits ks false ->
  (length ks <= fuel)%nat ->
  AmControlSpec.blocks fuel e d (match ks with [] => false | _ => true end) = blocks_of ks.
Proof using Hlen.
  induction ks as [|k ks IH]; intros d fuel W Hok U Hf; [by destruct fuel|].
  apply Forall_cons in Hok as [Hk Hok]. destruct fuel as [|fuel]; [simpl in Hf; lia|].
  cbn [AmControlSpec.blocks]. cbn [nacks_bits] in U.
  destruct (decode_nack_bits d k _ _ W Hk U) as (d' & E & W' & U'). rewrite E.
  cbn [blocks_of]. f_equal. apply IH; try done. simpl in Hf. lia.
Qed.

End layout.

(** The bits depend on the length of the SN field only. *)
Lemma body_length e e' ack_sn rl :
  sn_field_length e' = sn_field_length e -> forall e1, body e' ack_sn rl e1 = body e ack_sn rl e1.
Proof.
  intros Hl. induction rl as [|k rl IH]; intros e1; cbn [body].
  - unfold ack_fields. by rewrite Hl.
  - rewrite IH. unfold nack_fields, r_bits. by rewrite Hl.
Qed.

(** A peer that receives the first bytes of [buf]. *)
Lemma peer_reads e pe buf n ack_sn rl :
  sn_field_length e = 12 \/ sn_field_length e = 18 -> sn_field_length pe = sn_field_length e ->
  0 <= ack_sn < 2 ^ sn_field_length e -> Forall (nack_ok e) rl ->
  buffer_bits (take n buf) = body e ack_sn rl false ->
  exists d, AmControl.decode_ack_checked pe (Codec.nr_rlc_pdu_decoder_init (take n buf))
      = Ok (Some (ack_sn, match rl with [] => false | _ => true end, d))
    /\ AmControlSpec.blocks (S (length (take n buf))) pe d (match rl with [] => false | _ => true end)
       = blocks_of (rev rl).
Proof.
  intros Hlen Hl Ha Hok Hb. rewrite <- (body_length e pe), body_split in Hb by done.
  rewrite <- Hl in Hlen, Ha.
  destruct (decode_ack_bits pe Hlen (Codec.nr_rlc_pdu_decoder_init (take n buf)) ack_sn
    (match rl with [] => false | _ => true end) (nacks_bits pe (rev rl) false))
    as (d & E & W & U); [apply Codec.decoder_init_wf|done|by rewrite Codec.unread_init|].
  exists d. split; [done|].
  assert (Hrev : match rl with [] => false | _ => true end
    = match rev rl with [] => false | _ => true end).
  { destruct rl as [|k rl]; [done|]. simpl. by destruct (rev rl). }
  rewrite Hrev. apply decode_blocks; try done.
  - apply Forall_rev. unfold nack_ok in *. by rewrite Hl.
  - assert (Hz := f_equal length Hb). rewrite length_app, length_buffer_bits in Hz.
    assert (Hk : forall ks, (length ks * 8 <= length (nacks_bits pe ks false))%nat).
    { induction ks as [|k ks IH]; [simpl; lia|]. cbn [nacks_bits]. rewrite length_app.
      pose proof (zlen_nack_bits pe Hlen k (match ks with [] => false | _ => true end)) as Hzl.
      pose proof (nack_bytes_pos pe k). unfold zlen in Hzl. simpl length at 1. lia. }
    specialize (Hk (rev rl)). lia.
Qed.

End StatusBits.
