(* ===== verification/RlcAmStatusSpec.v ===== *)
(** * RLC acknowledged mode: status reports tell the truth

    [generate_status] returns a PDU that fits the grant and that the peer reads
    as ACK_SN and a list of NACKs; every byte of an SDU below ACK_SN has been
    received or is in a NACK, also when the report had to be cut because the
    grant is too small.  [status_size] announces exactly the size of that PDU. *)

From S2P Require Import Prelude TimeStat RlcPdu RlcSdu RlcRxManager RlcEntity RlcAm RlcAmStatus.
From S2P Require Import RlcAmControl RlcAmRx RlcAmRxSpec RlcAmTx RlcAmTxInv RlcAmControlSpec.
From S2P Require Import RlcAmStatusSearch.

Module AmStatusSpec.
Import Entity Am AmStatus AmRxSpec AmSearch StatusBits.

(** The block reports byte [b] of the SDU [sn] as missing. *)
Definition reports (e : t) (blk : AmControl.nack_block) (sn_ b : Z) : Prop :=
  exists j s f, 0 <= j < AmControl.n_range blk /\ AmControl.nack_at e blk j = (sn_, s, f)
    /\ s <= b /\ (f = -1 \/ b <= f).

Section status.
Context (e : t) (Hsc : scope e).

(** Received, or reported by one of the NACKs. *)
Definition told (rl : list nack) (i b : Z) : Prop :=
  got e i b \/ Exists (fun k => reports e (block_of k false) (sn_at e i) b) rl.

Lemma told_got rl i b : got e i b -> told rl i b.
Proof using. by left. Qed.

Lemma told_cons k rl i b : told rl i b -> told (k :: rl) i b.
Proof using. intros [H|H]; [by left|right]. by apply Exists_cons_tl. Qed.

(** ** What one NACK reports *)

Lemma reports_range k s c so_ f i b :
  0 <= s -> s + c <= high e ->
  k_sn k = sn_at e s -> AmControl.n_range (block_of k false) = c ->
  AmControl.n_so_start (block_of k false) = so_ -> AmControl.n_so_end (block_of k false) = f ->
  s <= i < s + c -> 0 <= b -> (i = s -> so_ <= b) -> (i = s + c - 1 -> f = -1 \/ b <= f) ->
  reports e (block_of k false) (sn_at e i) b.
Proof using Hsc.
  intros Hs Hc Hk Hrg Hso Hf Hi Hb Hlo Hhi. destruct (modulus_window e Hsc) as [HM HW].
  exists (i - s). unfold AmControl.nack_at. rewrite Hrg, Hso, Hf.
  change (AmControl.nack_sn (block_of k false)) with (k_sn k). rewrite Hk.
  do 2 eexists. split; [lia|]. split; [f_equal; f_equal|].
  - unfold sn_at. rewrite Z.add_mod_idemp_l by lia. f_equal. lia.
  - split.
    + destruct (Z.eqb_spec (i - s) 0); [apply Hlo; lia|done].
    + destruct (Z.eqb_spec (i - s) (c - 1)); [apply Hhi; lia|by left].
Qed.

(** A part of [c] SNs from distance [s] on, as [cut_range] makes them. *)
Record piece (m : missing_data_t) (s c : Z) : Prop := {
  pc_start : sn_start m = sn_at e s;
  pc_end : sn_end m = sn_at e (s + c - 1);
  pc_range : 0 <= s /\ 1 <= c <= 255 /\ s + c <= high e;
  pc_so : 0 <= so_start m <= NR_SDU_MAX;
  pc_so_end : so_end m = 65535 \/ 0 <= so_end m < NR_SDU_MAX
}.

Section piece.
Context (m : missing_data_t) (s c : Z) (Hp : piece m s c).

Lemma piece_one : (sn_start m =? sn_end m) = (c =? 1).
Proof using Hsc Hp.
  destruct Hp as [E1 E2 (Hs & Hc & Hh) _ _]. pose proof (high_range e Hsc).
  destruct (modulus_window e Hsc). rewrite E1, E2.
  destruct (Z.eqb_spec (sn_at e s) (sn_at e (s + c - 1))) as [E|E], (Z.eqb_spec c 1); try done.
  - apply (sn_at_inj e Hsc) in E; lia.
  - subst c. exfalso. apply E. f_equal. lia.
Qed.

Lemma piece_block :
  AmControl.n_range (block_of (nack_of m c) false) = c
  /\ AmControl.n_so_start (block_of (nack_of m c) false) = so_start m
  /\ AmControl.n_so_end (block_of (nack_of m c) false)
     = (if so_end m =? 65535 then -1 else so_end m).
Proof using Hsc Hp.
  unfold block_of, nack_of. simpl. rewrite piece_one.
  split; [destruct (Z.eqb_spec c 1); lia|].
  destruct (Z.eqb_spec (so_start m) 0), (Z.eqb_spec (so_end m) 65535); simpl; split; zcases; done || lia.
Qed.

Lemma piece_nack_ok : nack_ok e (nack_of m c).
Proof using Hsc Hp.
  pose proof (sc_win _ Hsc) as Hw. pose proof max_fits.
  destruct Hp as [E1 _ (_ & Hc & _) Hso Hse]. unfold nack_ok, nack_of. simpl.
  rewrite E1, <- (cfg_mod _ (wo_cfg _ Hw)). split; [apply sn_at_range, Hw|]. split.
  - intros x y. destruct ((so_start m =? 0) && (so_end m =? 65535)); [done|]. intros [= <- <-]. lia.
  - intros x. destruct (_ =? sn_end m); [done|]. intros [= <-]. lia.
Qed.

Lemma piece_last : (last_sn (nack_of m c) + 1) mod sn_modulus e = sn_at e (s + c)
  /\ last_sn (nack_of m c) <> -1.
Proof using Hsc Hp.
  pose proof (sc_win _ Hsc) as Hw. destruct (modulus_window e Hsc) as [HM HW].
  pose proof (sn_at_range e s (wo_cfg _ Hw)). pose proof piece_one as H1.
  destruct Hp as [E1 _ (Hs & Hc & _) _ _].
  assert (El : last_sn (nack_of m c) = sn_at e s + c - 1).
  { unfold last_sn, nack_of. simpl. rewrite H1, E1. destruct (Z.eqb_spec c 1); lia. }
  rewrite El. split; [|lia]. unfold sn_at. replace (_ + c - 1 + 1) with ((rx_next e + s) mod sn_modulus e + c) by lia.
  rewrite Z.add_mod_idemp_l by lia. f_equal. lia.
Qed.

(** With the NACK written, the positions behind the part are told; with its end
    forced, all the bytes of its last SN are. *)
Lemma piece_told rl :
  upto (told rl) s (so_start m) ->
  upto (told (nack_of m c :: rl)) (behind (s + c - 1) (so_end m)).1 (behind (s + c - 1) (so_end m)).2
  /\ upto (told (to_end (nack_of m c :: rl))) (s + c) 0.
Proof using Hsc Hp.
  intros Hu. destruct piece_block as (B1 & B2 & B3).
  pose proof Hp as [E1 _ (Hs & Hc & Hh) Hso Hse].
  assert (Hold : forall k i b, (i < s \/ (i = s /\ b < so_start m)) -> 0 <= i -> 0 <= b -> told (k :: rl) i b).
  { intros k i b Hlt Hi Hb. apply told_cons, Hu; done. }
  split.
  - intros i b Hi Hb Hlt. destruct (decide (i < s \/ (i = s /\ b < so_start m))); [by apply Hold|].
    right. apply Exists_cons_hd. unfold behind in Hlt.
    destruct (Z.eqb_spec (so_end m) 65535) as [Ee|Ee]; simpl in Hlt;
      eapply (reports_range _ s c); try done; lia.
  - set (k' := {| k_sn := sn_start m; k_so := k_so (nack_of m c) ≫= fun x => Some (x.1, 65535);
                  k_range := k_range (nack_of m c) |}).
    assert (Et : to_end (nack_of m c :: rl) = k' :: rl).
    { unfold to_end, k'. destruct (k_so (nack_of m c)) as [[]|] eqn:Ek; [done|].
      simpl. rewrite <- Ek. done. }
    rewrite Et. intros i b Hi Hb Hlt.
    destruct (decide (i < s \/ (i = s /\ b < so_start m))); [by apply Hold|].
    right. apply Exists_cons_hd.
    assert (Bs : AmControl.n_so_start (block_of k' false) = so_start m
      /\ AmControl.n_so_end (block_of k' false) = -1).
    { rewrite <- B2. unfold k', block_of. simpl. by destruct ((so_start m =? 0) && (so_end m =? 65535)). }
    destruct Bs as [Bs Be]. eapply (reports_range _ s c); try done; lia.
Qed.
End piece.

(** ** Cutting a part into pieces *)

(** First byte of the piece that starts at distance [s']. *)
Definition so_from (m : missing_data_t) (s s' : Z) : Z := if s' =? s then so_start m else 0.

Lemma cut_ok m s t_ s' :
  part e m s t_ -> s <= s' <= t_ ->
  let c := Z.min 255 (t_ - s' + 1) in
  exists m', cut_range e m (sn_at e s') (t_ - s' + 1) = (m', c)
    /\ piece m' s' c /\ so_start m' = so_from m s s'
    /\ so_end m' = (if c =? t_ - s' + 1 then so_end m else 65535).
Proof using Hsc.
  intros [E1 E2 Hr Hh Hso Hse] Hs' c. pose proof (high_range e Hsc).
  destruct (modulus_window e Hsc) as [HM HW]. unfold cut_range.
  assert (Ec : (if t_ - s' + 1 >? 255 then 255 else t_ - s' + 1) = c).
  { rewrite Z.gtb_ltb. subst c. destruct (Z.ltb_spec 255 (t_ - s' + 1)); lia. }
  assert (Es : (if sn_at e s' =? sn_start m then so_start m else 0) = so_from m s s').
  { unfold so_from. rewrite E1. destruct (Z.eqb_spec s' s) as [->|Hne]; [by rewrite Z.eqb_refl|].
    destruct (Z.eqb_spec (sn_at e s') (sn_at e s)) as [E|_]; [|done].
    apply (sn_at_inj e Hsc) in E; lia. }
  rewrite Ec, Es. assert (Hfrom : 0 <= so_from m s s' <= NR_SDU_MAX).
  { unfold so_from. destruct (s' =? s); [done|]. split; [lia|done]. }
  destruct (Z.eqb_spec c (t_ - s' + 1)) as [E|E]; eexists; (split; [reflexivity|]);
    (split; [|by split]); constructor; cbn [sn_start sn_end so_start so_end]; try done; try lia.
  - rewrite E2. f_equal. lia.
  - assert (c = 255) as -> by lia. unfold sn_at. rewrite Z.add_mod_idemp_l by lia. f_equal. lia.
Qed.

(** ** The loops *)

Context (size len : Z).

Lemma status_len : sn_field_length e = 12 \/ sn_field_length e = 18.
Proof using Hsc. apply (cfg_len _ (wo_cfg _ (sc_win _ Hsc))). Qed.

(** With ACK_SN behind [last_nack] everything below is told, once the end of the
    last NACK is forced. *)
Definition acked (rl : list nack) (last_nack : Z) : Prop :=
  exists x, -1 <= x /\ (x = -1 \/ x < high e)
    /\ (last_nack + 1) mod sn_modulus e = sn_at e (x + 1) /\ upto (told rl) (x + 1) 0.

(** The state of the generation: the NACKs [rl] are written. *)
Record progress (g : gen_state) (rl : list nack) (last_nack : Z) : Prop := {
  pr_gen : gen_ok e size len g rl;
  pr_nacks : Forall (nack_ok e) rl;
  pr_acked : acked (to_end rl) last_nack
}.

Definition behind_part (rl : list nack) (m : missing_data_t) (t_ : Z) : Prop :=
  upto (told rl) (behind t_ (so_end m)).1 (behind t_ (so_end m)).2.

(** One piece. *)
Lemma progress_piece g rl last_nack m s c :
  progress g rl last_nack -> piece m s c -> upto (told rl) s (so_start m) ->
  body_bytes e rl + nack_size e m <= size ->
  exists g', generate_nack e g m c = Ok (last_sn (nack_of m c), g')
    /\ progress g' (nack_of m c :: rl) (last_sn (nack_of m c))
    /\ behind_part (nack_of m c :: rl) m (s + c - 1).
Proof using Hsc.
  intros [Hg Hn Ha] Hp Hu Hfit.
  destruct (generate_nack_ok e status_len size len g rl m c Hg Hfit) as (g' & E & Hg').
  destruct (piece_told m s c Hp rl Hu) as [Hb Ht]. destruct (piece_last m s c Hp) as [Hl _].
  exists g'. split; [done|]. split; [|done]. constructor; [done| |].
  - constructor; [by eapply piece_nack_ok|done].
  - destruct (pc_range _ _ _ Hp) as (Hs & Hc & Hh). exists (s + c - 1).
    replace (s + c - 1 + 1) with (s + c) by lia. split_and!; try done; lia.
Qed.

(** The sizes [missing_size] adds are those of the NACKs. *)
Lemma nack_bits_size m c :
  Z.quot (if sn_start m =? sn_end m then
            if (so_start m =? 0) && (so_end m =? 65535)
            then sn_field_length e + 3 + (if sn_field_length e =? 18 then 3 else 1)
            else sn_field_length e + 3 + (if sn_field_length e =? 18 then 3 else 1) + 16 * 2
          else
            if (so_start m =? 0) && (so_end m =? 65535)
            then sn_field_length e + 3 + (if sn_field_length e =? 18 then 3 else 1) + 8
            else sn_field_length e + 3 + (if sn_field_length e =? 18 then 3 else 1) + 16 * 2 + 8) 8
  = nack_bytes e (nack_of m c).
Proof using Hsc.
  unfold nack_bytes, nack_of. destruct status_len as [-> | ->];
    destruct (sn_start m =? sn_end m), ((so_start m =? 0) && (so_end m =? 65535)); done.
Qed.

Section one_part.
Context (m : missing_data_t) (s t_ : Z) (Hpart : part e m s t_) (outer : Z).

(** The last NACK so far: [generate_missing] returns -1 if it wrote none. *)
Definition merged (last : Z) : Z := if last =? -1 then outer else last.

Lemma missing_loop_ok fuel : forall s' g rl last rc,
  s <= s' <= t_ -> progress g rl (merged last) -> upto (told rl) s' (so_from m s s') ->
  t_ - s' + 1 < Z.of_nat fuel ->
  exists last' truncated g' rl',
    generate_missing_loop fuel e g m (sn_at e s') (t_ - s' + 1) last = Ok (last', truncated, g')
    /\ missing_size_loop fuel e m (sn_at e s') (t_ - s' + 1) rc (body_bytes e rl) size
       = Ok (rc + (zlen rl' - zlen rl), body_bytes e rl', truncated)
    /\ progress g' rl' (merged last') /\ (exists new, rl' = new ++ rl)
    /\ (truncated = false -> zlen rl < zlen rl' /\ behind_part rl' m t_).
Proof using Hsc Hpart.
  destruct (modulus_window e Hsc) as [HM HW]. pose proof (high_range e Hsc).
  induction fuel as [|fuel IH]; intros s' g rl last rc Hs' Hpr Hu Hf; [lia|].
  destruct (cut_ok m s t_ s' Hpart Hs') as (m' & Ecut & Hp & Eso & Ese). cbv zeta in Ecut, Hp, Ese.
  set (c := Z.min 255 (t_ - s' + 1)) in *. cbn [generate_missing_loop missing_size_loop].
  destruct (Z.eqb_spec (t_ - s' + 1) 0); [lia|]. rewrite Ecut.
  rewrite (go_byte _ _ _ _ _ (pr_gen _ _ _ Hpr)), (go_size _ _ _ _ _ (pr_gen _ _ _ Hpr)).
  rewrite Z.gtb_ltb. destruct (Z.ltb_spec size (body_bytes e rl + nack_size e m')) as [Hno|Hfit].
  { exists last, true, g, rl. split; [done|]. split; [unfold mret, res_ret; do 3 f_equal; lia|].
    split; [done|]. split; [by exists []|done]. }
  rewrite <- Eso in Hu. destruct (progress_piece g rl _ m' s' c Hpr Hp Hu Hfit) as (g1 & E1 & Hp1 & Hb1).
  rewrite E1, res_bind_unfold. cbv zeta. rewrite (nack_bits_size m' c).
  assert (Hbytes : body_bytes e rl + nack_bytes e (nack_of m' c) = body_bytes e (nack_of m' c :: rl)).
  { unfold body_bytes. rewrite zsum_cons. lia. }
  rewrite Hbytes. assert (Hst : (sn_at e s' + c) mod sn_modulus e = sn_at e (s' + c)).
  { unfold sn_at. rewrite Z.add_mod_idemp_l by lia. f_equal. lia. }
  rewrite Hst. assert (Hm : merged (last_sn (nack_of m' c)) = last_sn (nack_of m' c)).
  { destruct (piece_last m' s' c Hp) as [_ Hne]. unfold merged. by destruct (Z.eqb_spec (last_sn (nack_of m' c)) (-1)). }
  rewrite <- Hm in Hp1. pose proof (zlen_cons (nack_of m' c) rl) as Hz.
  destruct (Z.eqb_spec c (t_ - s' + 1)) as [Ec|Ec].
  - rewrite Ec, Z.sub_diag. destruct fuel as [|fuel]; [lia|]. cbn [generate_missing_loop missing_size_loop].
    exists (last_sn (nack_of m' c)), false, g1, (nack_of m' c :: rl).
    rewrite <- Ec. split; [done|]. split; [unfold mret, res_ret; do 3 f_equal; lia|].
    split; [done|]. split; [by exists [nack_of m' c]|]. intros _. split; [lia|]. unfold behind_part in *.
    rewrite Ese in Hb1. by replace t_ with (s' + c - 1) by lia.
  - assert (c = 255) by lia.
    destruct (IH (s' + c) g1 (nack_of m' c :: rl) (last_sn (nack_of m' c)) (rc + 1))
      as (last' & tr & g' & rl' & EG & ES & Hpr' & (new & Enew) & Htr); [lia|done| |lia|].
    { unfold behind_part, behind in Hb1. rewrite Ese in Hb1. cbn in Hb1. unfold so_from.
      destruct (Z.eqb_spec (s' + c) s); [lia|]. by replace (s' + c) with (s' + c - 1 + 1) by lia. }
    replace (t_ - s' + 1 - c) with (t_ - (s' + c) + 1) by lia. exists last', tr, g', rl'.
    split; [exact EG|]. split; [rewrite ES; do 3 f_equal; lia|]. split; [done|].
    split; [exists (new ++ [nack_of m' c]); by rewrite Enew, <- app_assoc|]. intros Hf'. destruct (Htr Hf'). split; [lia|done].
Qed.

Lemma generate_missing_ok g rl rc :
  progress g rl outer -> upto (told rl) s (so_start m) ->
  exists last' truncated g' rl',
    generate_missing e g m = Ok (last', truncated, g')
    /\ missing_size_loop (S (Z.to_nat (sn_count_of e m))) e m (sn_start m) (sn_count_of e m)
         rc (body_bytes e rl) size
       = Ok (rc + (zlen rl' - zlen rl), body_bytes e rl', truncated)
    /\ progress g' rl' (merged last') /\ (exists new, rl' = new ++ rl)
    /\ (truncated = false -> zlen rl < zlen rl' /\ behind_part rl' m t_).
Proof using Hsc Hpart.
  intros Hpr Hu. destruct (modulus_window e Hsc) as [HM HW]. pose proof (high_range e Hsc).
  assert (Hcount : sn_count_of e m = t_ - s + 1).
  { unfold sn_count_of. destruct Hpart as [-> -> ? ? _ _]. f_equal. unfold sn_at.
    rewrite <- (Z.mod_add _ 1), Z.mul_1_l by lia.
    replace ((rx_next e + t_) mod sn_modulus e - (rx_next e + s) mod sn_modulus e + sn_modulus e
      + sn_modulus e) with ((rx_next e + t_) mod sn_modulus e - (rx_next e + s) mod sn_modulus e
      + 2 * sn_modulus e) by lia.
    rewrite Z.mod_add, <- Zminus_mod by lia.
    replace (rx_next e + t_ - (rx_next e + s)) with (t_ - s) by lia. apply Z.mod_small. lia. }
  unfold generate_missing. rewrite Hcount, (pt_start _ _ _ _ Hpart).
  pose proof (pt_range _ _ _ _ Hpart).
  apply missing_loop_ok; [lia|done| |lia]. unfold so_from. by rewrite Z.eqb_refl.
Qed.
End one_part.

(** Where the outer loop is. *)
Definition at_cursor (rl : list nack) (cur : list Pdu.nr_rlc_pdu_t) : Prop :=
  match cur with
  | [] => rl = [] \/ upto (told rl) (high e) 0
  | p :: rest =>
      exists i pre, cursor e i pre p rest
        /\ if zlen rl =? 0 then pre = [] /\ forall k, 0 <= k < i -> slot_at e k = []
           else upto (told rl) i (Pdu.so p)
  end.

(** The PDU is written, ACK_SN apart. *)
Record complete (g : gen_state) (rl : list nack) (last_nack : Z) : Prop := {
  cp_byte : Codec.enc_byte (enc g) = body_bytes e rl;
  cp_fits : body_bytes e rl <= size;
  cp_len : zlen (Codec.enc_buffer (enc g)) = len;
  cp_bits : buffer_bits (take (Z.to_nat (body_bytes e rl)) (Codec.enc_buffer (enc g)))
            = body e 0 rl false;
  cp_nacks : Forall (nack_ok e) rl;
  cp_acked : acked rl last_nack
}.

Lemma progress_complete g rl last_nack :
  progress g rl last_nack -> acked rl last_nack -> complete g rl last_nack.
Proof using. intros [[] ? _] Ha. by constructor. Qed.

(** Nothing is left to report. *)
Lemma acked_all g rl last_nack :
  progress g rl last_nack -> rl = [] \/ upto (told rl) (high e) 0 -> complete g rl last_nack.
Proof using.
  intros Hp Hd. apply progress_complete; [done|]. destruct Hd as [->|Hu]; [apply Hp|].
  destruct (pr_acked _ _ _ Hp) as (x & H1 & H2 & H3 & _). exists x. split_and!; try done.
  destruct H2 as [->|H2]; [intros ???; lia|]. eapply upto_weaken; [exact Hu|]. lia.
Qed.

(** The report was cut. *)
Lemma cut_complete g rl last_nack :
  progress g rl last_nack ->
  exists g', (match so_end_address g with
              | Some a =>
                  buffer ← zset (Codec.enc_buffer (enc g)) a 255;
                  buffer ← zset buffer (a + 1) 255;
                  mret (last_nack, {| g with enc := {| (enc g) with Codec.enc_buffer := buffer |} |})
              | None => mret (last_nack, g)
              end) = Ok (last_nack, g')
    /\ complete g' (to_end rl) last_nack.
Proof using Hsc.
  intros Hp. pose proof Hp as [Hg Hn Ha]. destruct (so_end_address g) as [a|] eqn:Ea.
  - destruct (force_end_ok e status_len size len g rl a Hg Ea) as (b1 & b2 & E1 & E2 & Hl & Hb).
    rewrite E1, res_bind_unfold, E2, res_bind_unfold. eexists. split; [reflexivity|].
    constructor; simpl; rewrite ?body_bytes_to_end; try done; try apply Hg.
    destruct rl as [|k rl]; [done|]. simpl. apply Forall_cons in Hn as [Hk Hn].
    destruct (k_so k) as [[s0 f0]|] eqn:Ek; [|by constructor]. constructor; [|done].
    destruct Hk as (K1 & K2 & K3). split; [done|]. split; [|done]. intros s f [= <- <-].
    destruct (K2 _ _ Ek). split; [done|lia].
  - exists g. split; [done|]. rewrite (go_addr _ _ _ _ _ Hg) in Ea.
    assert (Et : to_end rl = rl).
    { destruct rl as [|k rl]; [done|]. simpl in Ea |- *. by destruct (k_so k) as [[]|]. }
    rewrite Et in Ha |- *. by apply progress_complete.
Qed.

Lemma generate_nacks_ok fuel : forall g rl cur last_nack,
  progress g rl last_nack -> at_cursor rl cur -> size - body_bytes e rl < Z.of_nat fuel ->
  exists last' g' rl',
    generate_nacks fuel e g cur (zlen rl =? 0) last_nack = Ok (last', g')
    /\ status_size_loop fuel e cur (zlen rl) (body_bytes e rl) size = Ok (body_bytes e rl')
    /\ complete g' rl' last'.
Proof using Hsc.
  induction fuel as [|fuel IH]; intros g rl cur last_nack Hp Hc Hf.
  { pose proof (go_fits _ _ _ _ _ (pr_gen _ _ _ Hp)). lia. }
  cbn [generate_nacks status_size_loop]. destruct cur as [|p rest].
  { exists last_nack, g, rl. split_and!; try done. by apply acked_all. }
  destruct Hc as (i & pre & Hc & Hup).
  destruct (next_missing_ok e Hsc (told rl) (fun i b _ _ => told_got rl i b) i pre p rest
    (zlen rl =? 0) Hc Hup) as (om & E & Hfound). rewrite E, !res_bind_unfold.
  destruct om as [m|]; cbn [found] in Hfound.
  2: { exists last_nack, g, rl. split_and!; try done. apply acked_all; [done|by right]. }
  destruct Hfound as (s & t_ & Hpart & Hu & Hres).
  destruct (generate_missing_ok m s t_ Hpart last_nack g rl 0 Hp Hu)
    as (ln & tr & g1 & rl1 & EG & ES & Hp1 & (new & Enew) & Htr).
  unfold missing_size. rewrite EG, ES, !res_bind_unfold. fold (merged last_nack ln).
  destruct tr.
  - destruct (cut_complete g1 rl1 _ Hp1) as (g2 & E2 & Hcomp).
    exists (merged last_nack ln), g2, (to_end rl1). split; [|by rewrite body_bytes_to_end].
    destruct (so_end_address g1); exact E2.
  - destruct (Htr eq_refl) as [Hlt Hb]. pose proof (zlen_nonneg rl).
    replace (zlen rl + (0 + (zlen rl1 - zlen rl))) with (zlen rl1) by lia.
    assert (Hz : (zlen rl1 =? 0) = false) by (apply Z.eqb_neq; lia). rewrite <- Hz.
    apply IH; [done| |].
    + unfold behind_part in Hb. unfold at_cursor. rewrite Hz.
      destruct Hres as [(-> & -> & Ee)|(i' & pre' & cur' & rest' & -> & Hc' & Eb)].
      * right. rewrite Ee in Hb. cbn in Hb. by replace (high e - 1 + 1) with (high e) in Hb by lia.
      * exists i', pre'. split; [done|]. by rewrite <- Eb in Hb.
    + subst rl1. rewrite zlen_app in Hlt. unfold body_bytes in Hf |- *. rewrite zsum_app.
      destruct new as [|k new]; [rewrite zlen_nil in Hlt; lia|]. rewrite zsum_cons.
      pose proof (nack_bytes_pos e k). enough (0 <= zsum (nack_bytes e) new) by lia.
      apply zsum_nonneg, Forall_true. intros k'. pose proof (nack_bytes_pos e k'). lia.
Qed.

End status.

(** What [generate_status] changes in the entity, for a PDU of [n] bytes. *)
Definition status_sent (e : t) (n : Z) : t :=
  upd_common (upd_stats (fun s => count_txpdu_status n (count_txpdu n s)))
    {| e with status_triggered := false; t_status_prohibit_start := t_current e |}.

Lemma generate_status_ok e buffer size :
  scope e -> 3 <= size <= zlen buffer ->
  exists n buffer' ack_sn rl,
    generate_status e buffer size = Ok (n, buffer', status_sent e n)
    /\ status_size e size = Ok n /\ 3 <= n <= size /\ zlen buffer' = zlen buffer
    /\ 0 <= ack_sn < sn_modulus e /\ off e ack_sn <= high e /\ Forall (nack_ok e) rl
    /\ buffer_bits (take (Z.to_nat n) buffer') = body e ack_sn rl false
    /\ upto (told e rl) (off e ack_sn) 0.
Proof.
  intros Hsc Hs. pose proof (sc_win _ Hsc) as Hw. pose proof (status_len e Hsc) as Hlen.
  destruct (modulus_window e Hsc) as [HM HW]. pose proof (high_range e Hsc) as HH.
  unfold generate_status, status_size. destruct (Z.ltb_spec size 3); [lia|].
  destruct (gen_start e Hlen buffer size Hs) as (encoder & E0 & Hg0). rewrite E0, res_bind_unfold.
  destruct (get_first_ok e Hsc) as (cur & E1 & Hcur). rewrite E1, !res_bind_unfold. cbv zeta.
  set (g0 := mk_gen _ _ _ _) in *. set (ln0 := (rx_next e - 1 + sn_modulus e) mod sn_modulus e).
  assert (Hp0 : progress e size (zlen buffer) g0 [] ln0).
  { constructor; [done|constructor|]. exists (-1). split; [lia|]. split; [by left|]. split.
    - subst ln0. rewrite Z.add_mod_idemp_l by lia. unfold sn_at. rewrite <- (Z.mod_add (rx_next e + _) 1) by lia.
      f_equal. lia.
    - intros ???. lia. }
  destruct (generate_nacks_ok e Hsc size (zlen buffer) (S (Z.to_nat size)) g0 [] cur ln0 Hp0)
    as (ln & g & rl & EG & ES & Hc).
  { destruct cur as [|p rest]; [by left|]. destruct Hcur as (i & Hi & Hem). by exists i, []. }
  { unfold body_bytes. simpl. lia. }
  change (zlen (@nil nack) =? 0) with true in EG. change (zlen (@nil nack)) with 0 in ES.
  change (body_bytes e []) with 3 in ES. rewrite EG, ES, res_bind_unfold.
  destruct Hc as [C1 C2 C3 C4 C5 (x & Hx & Hxh & Ex & Hu)].
  assert (Hack : 0 <= (ln + 1) mod sn_modulus e < sn_modulus e) by (apply Z.mod_pos_bound; lia).
  destruct (put_ack_ok e Hlen (Codec.enc_buffer (enc g)) rl ((ln + 1) mod sn_modulus e))
    as (buf' & EA & Hl & Hb); [by rewrite <- (cfg_mod _ (wo_cfg _ Hw))|done|].
  rewrite EA, res_bind_unfold, C1. pose proof (body_bytes_pos e rl).
  assert (Hoff : off e ((ln + 1) mod sn_modulus e) = x + 1) by (rewrite Ex; apply off_sn_at; lia).
  exists (body_bytes e rl), buf', ((ln + 1) mod sn_modulus e), rl. rewrite Hoff.
  split_and!; try done; try lia; congruence.
Qed.

(** What the peer makes of the report. *)
Lemma reports_e1 e k e1 sn_ b : reports e (block_of k false) sn_ b -> reports e (block_of k e1) sn_ b.
Proof. done. Qed.

Lemma reports_peer e pe blk sn_ b :
  sn_modulus pe = sn_modulus e -> reports e blk sn_ b -> reports pe blk sn_ b.
Proof. intros HM (j & s & f & H). exists j, s, f. unfold AmControl.nack_at in *. by rewrite HM. Qed.

Lemma exists_blocks (P : AmControl.nack_block -> Prop) rl :
  (forall k e1, P (block_of k false) -> P (block_of k e1)) ->
  Exists (fun k => P (block_of k false)) rl -> Exists P (blocks_of (rev rl)).
Proof.
  intros HP Hex. apply Exists_rev in Hex. rename Hex into Hr.
  induction Hr as [k ks Hk|k ks _ IH]; cbn [blocks_of];
    [apply Exists_cons_hd; by apply HP|by apply Exists_cons_tl].
Qed.

(** The report, as the peer reads it, tells the truth about the SDUs below
    ACK_SN. *)
Definition truthful (e pe : t) (pdu : list Z) : Prop :=
  exists ack_sn e1 d,
    AmControl.decode_ack_checked pe (Codec.nr_rlc_pdu_decoder_init pdu) = Ok (Some (ack_sn, e1, d))
    /\ off e ack_sn <= off e (rx_highest_status e)
    /\ forall i b, 0 <= i < off e ack_sn -> 0 <= b ->
         got e i b \/ Exists (fun blk => reports pe blk (sn_at e i) b)
                        (AmControlSpec.blocks (S (length pdu)) pe d e1).

Lemma status_truthful e pe buffer size :
  scope e -> sn_field_length pe = sn_field_length e -> sn_modulus pe = sn_modulus e ->
  3 <= size <= zlen buffer ->
  exists n buffer', generate_status e buffer size = Ok (n, buffer', status_sent e n)
    /\ status_size e size = Ok n /\ 3 <= n <= size /\ zlen buffer' = zlen buffer
    /\ truthful e pe (take (Z.to_nat n) buffer').
Proof.
  intros Hsc Hpl HpM Hs. pose proof (wo_cfg _ (sc_win _ Hsc)) as Hcfg.
  destruct (generate_status_ok e buffer size Hsc Hs)
    as (n & buf & ack_sn & rl & E & ES & Hn & Hl & Ha & Hoff & Hok & Hb & Hu).
  exists n, buf. split_and!; try done; try lia.
  destruct (peer_reads e pe buf (Z.to_nat n) ack_sn rl) as (d & Ed & Ebl);
    [by apply status_len|done|by rewrite <- (cfg_mod _ Hcfg)|done|done|].
  exists ack_sn, (match rl with [] => false | _ => true end), d. split; [done|]. split; [done|].
  intros i b Hi Hbb. destruct (Hu i b ltac:(lia) Hbb ltac:(lia)) as [Hg|Hex]; [by left|right].
  rewrite Ebl. apply exists_blocks.
  - intros k e1. by apply reports_e1.
  - eapply Exists_impl; [exact Hex|]. intros k. by apply reports_peer.
Qed.

End AmStatusSpec.
