(* ===== verification/RlcAmTimers.v ===== *)
(** * RLC AM: timers and re-establishment of a whole entity

    [check_t_poll_retransmit] moves the segments of the SDU at the head of the
    wait list to the retransmit list; [nr_rlc_entity_am_set_time] runs both
    timers; [nr_rlc_entity_am_reestablishment] resets the two sides. *)

From S2P Require Import Prelude TimeStat RlcPdu RlcSdu RlcRxManager RlcEntity RlcAm.
From S2P Require Import RlcAmStatus RlcAmControl RlcAmRx RlcAmRxSpec RlcAmTx RlcAmTxInv.
From S2P Require Import RlcAmTxSpec RlcAmControlSpec RlcAmOrder RlcAmStatusSearch.
From S2P Require Import RlcAmStatusSpec.

Module AmTimers.
Import Entity Am AmTx AmTxInv.

(** What the poll timer leaves alone. *)
Definition poll_frame (e : t) :=
  (rx_part e, base e, tx_size e, tx_maxsize e, max_retx_threshold e, status_triggered e,
   (t_status_prohibit e, t_status_prohibit_start e, poll_sn e)).

(** The segment has the SN [vsn]. *)
Definition has_sn (e : t) (vsn : Z) (s : Seg.t) : Prop :=
  exists d, Store.sdus (st e) !! Seg.sdu s = Some d /\ Sdu.sn d = vsn.

(** A segment goes from the wait list to the retransmit list. *)
Lemma mem_to_retx e s rest r r' lost :
  mem e (s :: rest) (r ++ lost) -> r' ≡ₚ s :: r ->
  mem (upd_common (add_bs_retx (pdu_size e s)) {| e with wait_list := rest; retransmit_list := r' |})
    rest (r' ++ lost).
Proof.
  intros Hm Hr.
  assert (Hp : tx_list e ++ rest ++ r' ++ lost ≡ₚ tx_list e ++ (s :: rest) ++ r ++ lost)
    by (rewrite Hr; solve_Permutation).
  apply (mem_shrink e _ (s :: rest) _ (r ++ lost)); try done; try apply Hm.
  - rewrite Hp. apply Hm.
  - eapply Store.related_sub; [|apply AmTxSpec.related_refl, Hm]. intros x. simpl. by rewrite Hp.
  - rewrite Hr. set_solver.
  - simpl. rewrite (m_retx _ _ _ Hm), (zsum_perm _ _ _ (Permutation_app_tail lost Hr)). simpl. lia.
Qed.

Lemma retransmit_loop_ok vsn l : forall e lost,
  mem e l (retransmit_list e ++ lost) -> wait_list e = l -> wait_end e = Store.tail_of l ->
  exists e' moved, retransmit_sn_loop e l vsn = Ok e' /\ wf e' lost
    /\ poll_frame e' = poll_frame e /\ trace (common e') = trace (common e) /\ st e' = st e
    /\ l = moved ++ wait_list e' /\ retransmit_list e' ≡ₚ moved ++ retransmit_list e
    /\ Forall (has_sn e vsn) moved
    /\ (forall s q, wait_list e' = s :: q -> ~ has_sn e vsn s)
    /\ (sorted e (retransmit_list e) -> sorted e (retransmit_list e')).
Proof.
  induction l as [|s rest IH]; intros e lost Hm Hl He.
  { exists e, []. split; [done|]. split; [by split; rewrite Hl|].
    by rewrite Hl. }
  pose proof (m_store _ _ _ Hm) as Hst.
  destruct (Store.deref_ok _ _ s Hst) as (d & Hd & L & _); [set_solver|].
  cbn [retransmit_sn_loop]. rewrite Hd, res_bind_unfold.
  destruct (Z.eqb_spec (Sdu.sn d) vsn) as [Hsn|Hsn].
  2: { exists e, []. split; [done|]. split; [by split; rewrite Hl|]. rewrite Hl. split_and!; try done.
       intros s' q [= <- <-] (d' & L' & E'). congruence. }
  cbv zeta. set (e1 := upd_common _ _).
  assert (H1 : retransmit_list e1 = retransmit_list e /\ st e1 = st e /\ sn_modulus e1 = sn_modulus e
    /\ poll_frame e1 = poll_frame e /\ trace (common e1) = trace (common e)
    /\ wait_end e1 = match rest with [] => None | _ => wait_end e end) by done.
  destruct H1 as (R1 & S1 & M1 & F1 & T1 & We1).
  destruct (AmTxSpec.list_add_ok e1 s d (retransmit_list e)) as (l1 & l2 & E1 & Er & _ & Hs1).
  { rewrite S1. apply Forall_forall. intros x Hx.
    destruct (Store.deref_ok _ _ x Hst) as (dx & _ & Lx & _); [set_solver|]. eauto. }
  { by rewrite S1. }
  rewrite R1, E1, res_bind_unfold. set (e2 := {| e1 with retransmit_list := l1 ++ s :: l2 |}).
  assert (Hr : retransmit_list e2 ≡ₚ s :: retransmit_list e).
  { simpl. rewrite Er. solve_Permutation. }
  destruct (IH e2 lost) as (e' & moved & E' & Hwf & F & T & S & El & Hr' & Hmv & Hstop & Hs2).
  - pose proof (mem_to_retx e s rest _ _ lost Hm Hr) as Hm2.
    apply (AmTxSpec.mem_ext _ e2) in Hm2; try done. apply Hm.
  - done.
  - simpl. rewrite He. apply Store.tail_of_tail.
  - rewrite E'. exists e', (s :: moved). split; [done|]. split; [done|].
    split; [by rewrite F|]. split; [by rewrite T|]. split; [by rewrite S|].
    split; [by rewrite El|]. split; [rewrite Hr', Hr; solve_Permutation|].
    split; [constructor; [by exists d|done]|]. split; [done|]. intros Hs. exact (Hs2 (Hs1 Hs)).
Qed.

(** [t_poll_retransmit] runs out at time [now] with nothing to send, and nothing
    waits for an acknowledgement: the head of the wait list, which is [NULL], is
    to be retransmitted. *)
Definition poll_faults (e : t) (now : Z) : bool :=
  negb (t_poll_retransmit_start e =? 0)
  && (u64 (t_poll_retransmit_start e + t_poll_retransmit e) <? now)
  && check_poll_after_pdu_assembly e
  && match wait_list e with [] => true | _ => false end.

Lemma poll_retransmit_faults e :
  poll_faults e (t_current e) = true -> check_t_poll_retransmit e = Fault NullDeref.
Proof.
  unfold poll_faults, check_t_poll_retransmit. intros H.
  apply andb_true_iff in H as [H Hw]. apply andb_true_iff in H as [H Hc].
  apply andb_true_iff in H as [Hs%negb_true_iff Ht%Z.ltb_lt]. rewrite Hs.
  destruct (Z.leb_spec (t_current e) (u64 (t_poll_retransmit_start e + t_poll_retransmit e))); [lia|].
  simpl orb. cbv iota zeta. change (check_poll_after_pdu_assembly _) with (check_poll_after_pdu_assembly e).
  rewrite Hc. simpl negb. cbv iota. simpl wait_list. by destruct (wait_list e).
Qed.

(** When the timer runs out with nothing else to send, the SDU at the head of
    the wait list is to be retransmitted. *)
Lemma poll_retransmit_ok e lost :
  wf e lost -> poll_faults e (t_current e) = false ->
  exists e' moved evs, check_t_poll_retransmit e = Ok e' /\ wf e' lost
    /\ poll_frame e' = poll_frame e
    /\ wait_list e = moved ++ wait_list e' /\ retransmit_list e' ≡ₚ moved ++ retransmit_list e
    /\ (exists vsn, Forall (has_sn e vsn) moved)
    /\ trace (common e') = trace (common e) ++ evs /\ (evs = [] \/ evs = [MaxRetxReached])
    /\ Store.related Store.same_hdr (st e) (st e') (tx_list e ++ wait_list e ++ retransmit_list e ++ lost)
    /\ (AmOrder.ordered e -> AmOrder.ordered e').
Proof.
  intros Hwf Hpf. pose proof (AmTxSpec.related_refl _ _ (m_store _ _ _ (proj1 Hwf))) as Hrefl. unfold check_t_poll_retransmit. destruct (_ || _) eqn:Eexp.
  { exists e, [], []. split_and!; try done; [by exists 0|by rewrite app_nil_r|by left]. }
  set (e1 := {| e with t_poll_retransmit_start := 0; force_poll := true |}).
  change (check_poll_after_pdu_assembly e1) with (check_poll_after_pdu_assembly e).
  assert (Hwf1 : wf e1 lost) by (by apply (wf_tx_part e)).
  destruct (check_poll_after_pdu_assembly e) eqn:Ecp; simpl negb; cbv iota.
  2: { exists e1, [], []. split_and!; try done; [by exists 0|by rewrite app_nil_r|by left|].
       by apply AmOrder.ordered_tx_part. }
  assert (exists s rest, wait_list e = s :: rest) as (s & rest & El).
  { unfold poll_faults in Hpf. apply orb_false_iff in Eexp as [E1 E2%Z.leb_gt].
    rewrite E1, Ecp in Hpf. destruct (wait_list e) as [|s rest]; [|eauto].
    destruct (Z.ltb_spec (u64 (t_poll_retransmit_start e + t_poll_retransmit e)) (t_current e)); [done|lia]. }
  assert (El1 : wait_list e1 = s :: rest) by exact El.
  destruct Hwf1 as [Hm Hend]. rewrite El1 in Hm, Hend.
  assert (Hmatch : forall T (a : T) f, match wait_list e1 with [] => a | c :: _ => f c end = f s)
    by (intros; by rewrite El1).
  rewrite Hmatch.
  pose proof (m_store _ _ _ Hm) as Hst.
  destruct (Store.deref_ok _ _ s Hst) as (d & Hd & L & _); [set_solver|].
  rewrite Hd, res_bind_unfold. cbv zeta.
  set (d1 := {| d with Sdu.retx_count := Sdu.retx_count d + 1 |}).
  set (e2 := {| e1 with st := Store.update (st e1) s d1 |}).
  destruct (Store.update_ok _ _ s d d1 Hst L) as [Hst2 Hby2]; [done|].
  pose proof (Store.update_related Store.same_hdr _ s d d1 _ _ Hst L ltac:(done)) as Hrel.
  change (Store.update (st e1) s d1) with (st e2) in Hrel.
  assert (Hm2 : mem e2 (s :: rest) (retransmit_list e2 ++ lost)).
  { apply (mem_shrink e1 _ (s :: rest) _ (retransmit_list e1 ++ lost)); try done; try apply Hm.
    transitivity (Store.bytes (st e1)); [exact Hby2|]. apply Hm. }
  assert (El2 : wait_list e2 = s :: rest) by exact El. rewrite El2, El.
  destruct (retransmit_loop_ok (Sdu.sn d1) (s :: rest) e2 lost Hm2 El2 Hend)
    as (e3 & moved & E3 & Hwf3 & F3 & T3 & S3 & L3 & R3 & Hmv & _ & Hs3).
  rewrite E3, res_bind_unfold.
  assert (Hsn : Forall (has_sn e (Sdu.sn d1)) moved).
  { apply Forall_forall. intros x Hx. rewrite Forall_forall in Hmv.
    destruct (Hmv x Hx) as (dx & Lx & Ex). unfold Store.related in Hrel. rewrite Forall_forall in Hrel.
    destruct (Hrel x) as (da & db & La & Lb & _ & Eab & _).
    { apply elem_of_app. right. rewrite L3. set_solver. }
    exists da. split; [done|]. congruence. }
  exists (if Sdu.retx_count d1 >=? max_retx_threshold e3 then upd_common (emit MaxRetxReached) e3 else e3),
    moved, (if Sdu.retx_count d1 >=? max_retx_threshold e3 then [MaxRetxReached] else []).
  rewrite <- S3 in Hrel.
  assert (Ho : AmOrder.ordered e -> AmOrder.ordered e3).
  { apply (AmOrder.poll_ordered e lost e3 moved);
      [change (base e) with (base e2); unfold poll_frame in F3; congruence|by rewrite El|done|by rewrite El|].
    change (retransmit_list e2) with (retransmit_list e) in Hs3. unfold sorted in Hs3.
    rewrite S3 in Hrel.
    assert (Hk : forall l, l ⊆ (moved ++ wait_list e3) ++ retransmit_list e ->
      map (sn_key e2) l = map (sn_key e) l).
    { intros l Hl. apply sn_keys_related; [|done]. eapply Store.related_sub; [|exact Hrel].
      rewrite L3. change (retransmit_list e1) with (retransmit_list e). set_solver. }
    change (retransmit_list e2) with (retransmit_list e) in R3.
    by rewrite !Hk in Hs3 by (rewrite ?R3; set_solver). }
  split; [done|]. destruct (Sdu.retx_count d1 >=? max_retx_threshold e3).
  - split_and!; try done; [by apply (wf_tx_part e3)|eauto|simpl; by rewrite T3|by right|].
    intros H. by apply (AmOrder.ordered_tx_part e3), Ho.
  - split_and!; try done; [eauto|by rewrite T3, app_nil_r|by left].
Qed.

(** ** The clock *)

Lemma rx_wf_part e e' : rx_part e' = rx_part e -> AmRxSpec.wf e -> AmRxSpec.wf e'.
Proof.
  intros Hp [Hco Ht]. unfold rx_part in Hp.
  assert (H : AmRxSpec.rx_fields e' = AmRxSpec.rx_fields e
    /\ rx_next_status_trigger e' = rx_next_status_trigger e
    /\ t_reassembly_start e' = t_reassembly_start e) by (split_and!; congruence).
  destruct H as (H1 & H2 & H3). split.
  - apply (AmRxSpec.core_fields e); [done..|]. rewrite H2. apply Hco.
  - apply (AmRxSpec.timer_fields e); [done..|]. by rewrite H2, H3.
Qed.

Lemma honest_part D e e' : rx_part e' = rx_part e -> AmRxSpec.honest D e -> AmRxSpec.honest D e'.
Proof. intros Hp Hh. apply (AmRxSpec.honest_fields D e); [done|]. unfold rx_part in Hp. congruence. Qed.

Lemma tx_wf_frame e e' lost : AmRxSpec.tx_part e' = AmRxSpec.tx_part e -> wf e lost -> wf e' lost.
Proof.
  intros Hp. apply wf_tx_part. unfold AmRxSpec.tx_part in Hp. unfold tx_part, base. congruence.
Qed.

Lemma am_set_time_ok D e lost now :
  wf e lost -> AmRxSpec.wf e -> AmRxSpec.honest D e ->
  if poll_faults e now then nr_rlc_entity_am_set_time e now = Fault NullDeref
  else exists e' moved evs, nr_rlc_entity_am_set_time e now = Ok e'
    /\ wf e' lost /\ AmRxSpec.wf e' /\ AmRxSpec.honest D e' /\ t_current e' = now
    /\ wait_list e = moved ++ wait_list e' /\ retransmit_list e' ≡ₚ moved ++ retransmit_list e
    /\ (exists vsn, Forall (has_sn e vsn) moved)
    /\ queue e' = queue e /\ AmRxSpec.win e' = AmRxSpec.win e
    /\ trace (common e') = trace (common e) ++ evs /\ (evs = [] \/ evs = [MaxRetxReached])
    /\ (AmOrder.ordered e -> AmOrder.ordered e') /\ (AmRxSpec.room e -> AmRxSpec.room e').
Proof.
  intros Hwf Hrx Hh. unfold nr_rlc_entity_am_set_time.
  set (e0 := {| e with t_current := now |}).
  change (poll_faults e now) with (poll_faults e0 (t_current e0)).
  destruct (poll_faults e0 (t_current e0)) eqn:Hw; [by rewrite poll_retransmit_faults|].
  assert (Hwf0 : wf e0 lost) by (by apply (wf_tx_part e)).
  assert (Hrx0 : AmRxSpec.wf e0).
  { destruct Hrx as [Hco Ht]. split; [apply (AmRxSpec.core_fields e); try done; apply Hco|].
    by apply (AmRxSpec.timer_fields e). }
  assert (Hh0 : AmRxSpec.honest D e0) by (by apply (AmRxSpec.honest_fields D e)).
  destruct (poll_retransmit_ok e0 lost Hwf0 Hw)
    as (e1 & moved & evs & E1 & Hwf1 & F1 & Wt & Rt & Hsn & T1 & Hev & Hrel & Ho).
  rewrite E1, res_bind_unfold.
  assert (HP : rx_part e1 = rx_part e0 /\ tx_list e1 = tx_list e0).
  { unfold poll_frame, base in F1. split; congruence. }
  destruct HP as [HP HX].
  destruct (AmRxSpec.check_t_reassembly_ok D e1) as (e2 & E2 & Hrx2 & Hh2 & F2 & T2 & W2 & V2).
  { by apply (rx_wf_part e0). }
  { by apply (honest_part D e0). }
  assert (HF : AmRxSpec.tx_part e2 = AmRxSpec.tx_part e1 /\ t_current e2 = t_current e1).
  { unfold AmRxSpec.frame in F2. split; congruence. }
  destruct HF as [HT HC].
  assert (HL : wait_list e2 = wait_list e1 /\ retransmit_list e2 = retransmit_list e1
    /\ tx_list e2 = tx_list e1 /\ st e2 = st e1).
  { unfold AmRxSpec.tx_part in HT. split_and!; congruence. }
  destruct HL as (L1 & L2 & L3 & L4).
  exists e2, moved, evs. split; [done|]. split; [by apply (tx_wf_frame e1)|].
  split; [done|]. split; [done|]. split; [|split; [by rewrite L1|split; [by rewrite L2|]]].
  { rewrite HC. unfold rx_part in HP. change now with (t_current e0). congruence. }
  split; [done|]. split; [|split; [|split; [by rewrite T2|split; [done|split]]]].
  - unfold queue. rewrite L3, L4, HX. apply queue_related, Store.related_bytes.
    eapply Store.related_sub; [|exact Hrel]. set_solver.
  - rewrite W2. unfold AmRxSpec.win. f_equal. unfold rx_part, AmRxSpec.rx_fields in HP.
    change (rx e) with (rx e0). congruence.
  - intros H. apply (AmOrder.ordered_tx_part e1); [|by apply Ho, (AmOrder.ordered_tx_part e)].
    unfold AmRxSpec.tx_part in HT. unfold tx_part, base. congruence.
  - intros H. assert (Hr1 : AmRxSpec.room e1).
    { apply (AmRxSpec.room_fields e); [|done]. change (AmRxSpec.rx_fields e) with (AmRxSpec.rx_fields e0).
      unfold rx_part in HP. congruence. }
    injection V2 as V3 V4. unfold AmRxSpec.room, AmRxSpec.off in Hr1 |- *. rewrite V3, V4.
    assert (sn_modulus e2 = sn_modulus e1 /\ window_size e2 = window_size e1) as [-> ->]; [|done].
    unfold AmRxSpec.tx_part in HT. split; congruence.
Qed.

(** ** Re-establishment *)

Lemma am_clear_ok e :
  wf e [] -> AmRxSpec.wf e ->
  exists e', clear_entity e = Ok e' /\ wf e' [] /\ AmRxSpec.wf e' /\ (forall D, AmRxSpec.honest D e')
    /\ (AmRxSpec.room e' /\ AmOrder.ordered e')
    /\ queue e' = [] /\ tx_size e' = 0 /\ wait_list e' = [] /\ retransmit_list e' = []
    /\ Store.sdus (st e') = ∅ /\ rx_size e' = 0
    /\ AmRxSpec.win e' = replicate (Z.to_nat (window_size e)) []
    /\ trace (common e') = trace (common e).
Proof.
  intros Hwf [Hco _]. destruct (clear_mem e Hwf) as (e' & E & Hwf' & Hq & Ht & Hw & Hr & Hs & Htr).
  pose proof (AmRxSpec.c_win _ Hco) as Hwin.
  destruct (RxManager.clear_manager_spec (rx e) (AmRxSpec.wo_rx _ Hwin)) as [Hrx Hwn].
  assert (HF : rx e' = RxManager.nr_rlc_clear_rx_manager (rx e) /\ window_size e' = window_size e
    /\ sn_modulus e' = sn_modulus e /\ sn_field_length e' = sn_field_length e
    /\ rx_maxsize e' = rx_maxsize e /\ rx_size e' = 0
    /\ (rx_next e', rx_next_highest e', rx_highest_status e', rx_next_status_trigger e', rx_size e',
        t_reassembly_start e') = (0, 0, 0, 0, 0, 0)).
  { unfold clear_entity in E.
    apply res_bind_ok in E as (? & _ & E). apply res_bind_ok in E as (? & _ & E).
    apply res_bind_ok in E as (? & _ & E). injection E as <-. done. }
  destruct HF as (F1 & F2 & F3 & F4 & F5 & F6 & F7).
  assert (W : AmRxSpec.win e' = replicate (Z.to_nat (window_size e)) []).
  { unfold AmRxSpec.win. by rewrite F1, Hwn, (AmRxSpec.wo_size _ Hwin). }
  assert (H : AmRxSpec.wf e' /\ forall D, AmRxSpec.honest D e').
  { apply AmRxSpec.empty_wf; rewrite ?F1, ?F2; try done; [apply Hwf'|apply Hwin|].
    rewrite F5. pose proof (AmRxSpec.c_max _ Hco). pose proof (AmRxSpec.c_size _ Hco).
    pose proof (AmRxSpec.win_held_nonneg e Hwin). lia. }
  assert (HT : tx_list e' = [] /\ tx_next e' = tx_next_ack e').
  { unfold clear_entity in E.
    apply res_bind_ok in E as (? & _ & E). apply res_bind_ok in E as (? & _ & E).
    apply res_bind_ok in E as (? & _ & E). injection E as <-. done. }
  destruct H. exists e'. split_and!; try done; [|by apply AmOrder.ordered_empty; [apply Hwf'|apply HT|..|apply HT]].
  apply AmRxSpec.empty_room; [apply Hwf'|]. congruence.
Qed.

End AmTimers.

(** * RLC acknowledged mode: the whole entity

    The answer of an entity to a grant ([nr_rlc_entity_am_generate_pdu]): a status
    report, a retransmission, new data, or nothing, in this order; and the runs
    of an entity: sequences of calls from the upper layer, from MAC, from the peer
    and from the clock.  [permitted] restricts what the environment does, never
    the state of the entity; [faults] tells the calls that dereference [NULL]. *)
Module AmEntity.
Import Entity Am AmTx AmTxInv.

(** The invariant of the two sides: no segment is lost, the SNs in flight are
    ordered and within a window, and the last SN of the reception window was not
    received. *)
Record inv (D : Z -> list Z) (e : t) : Prop := {
  i_tx : wf e [];
  i_order : AmOrder.ordered e;
  i_rx : AmRxSpec.wf e;
  i_honest : AmRxSpec.honest D e;
  i_room : AmRxSpec.room e
}.

(** The status reports cover less than the window. *)
Lemma inv_scope D e : inv D e -> AmSearch.scope e.
Proof.
  intros [_ _ [Hco _] Hh Hr]. pose proof (AmRxSpec.c_off_status _ Hco). unfold AmRxSpec.room in Hr.
  constructor; try apply Hco; [exact (Z.le_lt_trans _ _ _ H Hr)|].
  intros i Hi. eapply Forall_impl; [exact (Hh i Hi)|]. by intros p [].
Qed.

Lemma inv_rx_part D e e' :
  wf e' [] -> AmOrder.ordered e' -> rx_part e' = rx_part e -> inv D e -> inv D e'.
Proof.
  intros Ht Ho Hr [_ _ H2 H3 H4]. constructor; try done; [by apply (AmTimers.rx_wf_part e)|
    by apply (AmTimers.honest_part D e)|]. apply (AmRxSpec.room_fields e); [|done].
  unfold rx_part in Hr. congruence.
Qed.

Lemma inv_parts D e e' :
  tx_part e' = tx_part e -> rx_part e' = rx_part e -> inv D e -> inv D e'.
Proof.
  intros Ht Hr Hi. apply (inv_rx_part D e); try done.
  - apply (wf_tx_part e); [done|apply Hi].
  - apply (AmOrder.ordered_tx_part e); [done|apply Hi].
Qed.

(** ** The answer to a grant *)

Inductive answer (e : t) (buffer : list Z) (size n : Z) (buffer' : list Z) (e' : t) : Prop :=
| AnswerStatus :
    status_to_report e = true -> 3 <= n <= size -> AmStatus.status_size e size = Ok n ->
    e' = AmStatusSpec.status_sent e n ->
    (forall pe, sn_field_length pe = sn_field_length e -> sn_modulus pe = sn_modulus e ->
       AmStatusSpec.truthful e pe (take (Z.to_nat n) buffer')) ->
    answer e buffer size n buffer' e'
| AnswerRetx s rest :
    status_to_report e = false \/ size < 3 -> retransmit_list e = s :: rest ->
    compute_pdu_header_size e s + 1 <= size ->
    AmTxSpec.retransmitted e [] s rest size n buffer' e' ->
    answer e buffer size n buffer' e'
| AnswerNew s rest :
    status_to_report e = false \/ size < 3 ->
    (forall r rs, retransmit_list e = r :: rs -> size < compute_pdu_header_size e r + 1) ->
    is_window_stalling e = false -> tx_list e = s :: rest -> compute_pdu_header_size e s + 1 <= size ->
    AmTxSpec.transmitted e [] s rest size n buffer' e' ->
    answer e buffer size n buffer' e'
| AnswerNothing :
    status_to_report e = false \/ size < 3 ->
    (forall r rs, retransmit_list e = r :: rs -> size < compute_pdu_header_size e r + 1) ->
    is_window_stalling e = true
    \/ (forall s rest, tx_list e = s :: rest -> size < compute_pdu_header_size e s + 1) ->
    n = 0 -> buffer' = buffer -> e' = e ->
    answer e buffer size n buffer' e'.

Definition granted (D : Z -> list Z) (e : t) (buffer : list Z) (size : Z)
    (r : res (Z * list Z * t)) : Prop :=
  exists n buffer' e', r = Ok (n, buffer', e') /\ inv D e' /\ zlen buffer' = zlen buffer
    /\ trace (common e') = trace (common e) /\ answer e buffer size n buffer' e'.

Section grant.
Context (D : Z -> list Z) (now_us : Z) (e : t) (buffer : list Z) (size : Z).
Context (Hinv : inv D e) (Hsz : size <= zlen buffer).

Lemma status_granted :
  status_to_report e = true -> 3 <= size ->
  exists n buffer' e', AmStatus.generate_status e buffer size = Ok (n, buffer', e') /\ n <> 0
    /\ granted D e buffer size (Ok (n, buffer', e')).
Proof using Hinv Hsz.
  intros Hs H3. pose proof (inv_scope D e Hinv) as Hsc.
  destruct (AmStatusSpec.status_truthful e e buffer size Hsc) as (n & buf & E & ES & Hn & Hl & _);
    [done|done|lia|].
  exists n, buf, (AmStatusSpec.status_sent e n). split; [done|]. split; [lia|].
  exists n, buf, (AmStatusSpec.status_sent e n). split; [done|]. split; [by apply (inv_parts D e)|].
  split; [done|]. split; [done|]. apply AnswerStatus; try done. intros pe Hpl HpM.
  destruct (AmStatusSpec.status_truthful e pe buffer size Hsc) as (n' & buf' & E' & _ & _ & _ & Ht);
    [done|done|lia|].
  rewrite E in E'. by injection E' as <- <-.
Qed.

Lemma nothing_granted :
  status_to_report e = false \/ size < 3 ->
  (forall r rs, retransmit_list e = r :: rs -> size < compute_pdu_header_size e r + 1) ->
  is_window_stalling e = true
  \/ (forall s rest, tx_list e = s :: rest -> size < compute_pdu_header_size e s + 1) ->
  granted D e buffer size (Ok (0, buffer, e)).
Proof using Hinv. intros. exists 0, buffer, e. split_and!; try done. by apply AnswerNothing. Qed.

Lemma new_granted :
  status_to_report e = false \/ size < 3 ->
  (forall r rs, retransmit_list e = r :: rs -> size < compute_pdu_header_size e r + 1) ->
  granted D e buffer size (generate_tx_pdu now_us e buffer size).
Proof using Hinv Hsz.
  intros Hst Hre. destruct (is_window_stalling e) eqn:Ew.
  { unfold generate_tx_pdu. rewrite Ew. apply nothing_granted; auto. }
  destruct (tx_list e) as [|s rest] eqn:El.
  { unfold generate_tx_pdu. rewrite Ew, El. apply nothing_granted; [done..|]. right. by rewrite El. }
  destruct (decide (compute_pdu_header_size e s + 1 <= size)) as [Hroom|Hroom].
  2: { unfold generate_tx_pdu. rewrite Ew, El, Z.gtb_ltb. cbv zeta.
       destruct (Z.ltb_spec size (compute_pdu_header_size e s + 1)); [|lia].
       apply nothing_granted; [done..|]. right. rewrite El. by intros ? ? [= <- <-]. }
  destruct (Store.deref_ok _ _ s (m_store _ _ _ (proj1 (i_tx _ _ Hinv)))) as (d & _ & Hd & _);
    [rewrite El; set_solver|].
  destruct (AmTxSpec.generate_tx_ok now_us e [] s rest buffer size (i_tx _ _ Hinv) El Hsz Hroom d Hd
    (fun _ => AmOrder.ordered_sn_free e (i_tx _ _ Hinv) (i_order _ _ Hinv)) Ew)
    as (b & e' & E & Hwf & Hf & Hl & Ht).
  eexists _, b, e'. split; [done|].
  assert (HF : rx_part e' = rx_part e /\ trace (common e') = trace (common e)).
  { unfold AmTxSpec.send_frame in Hf. split; congruence. }
  destruct HF as [HF HT]. split.
  { apply (inv_rx_part D e); try done. by eapply (AmOrder.tx_ordered e); [apply Hinv|..|apply Hinv]. }
  split; [done|]. split; [done|]. by eapply AnswerNew.
Qed.

Lemma generate_pdu_granted :
  granted D e buffer size (nr_rlc_entity_am_generate_pdu now_us e buffer size).
Proof using Hinv Hsz.
  unfold nr_rlc_entity_am_generate_pdu.
  assert (Hstat : (status_to_report e = true /\ 3 <= size)
    \/ ((status_to_report e = false \/ size < 3)
        /\ (if status_to_report e then AmStatus.generate_status e buffer size
            else mret (0, buffer, e)) = Ok (0, buffer, e))).
  { destruct (status_to_report e); [|right; auto]. destruct (decide (3 <= size)); [by left|right].
    split; [right; lia|]. unfold AmStatus.generate_status. by destruct (Z.ltb_spec size 3); [|lia]. }
  destruct Hstat as [[Hs H3]|[Hs ->]].
  { destruct (status_granted Hs H3) as (n & b & e' & E & Hn & H). rewrite Hs, E, res_bind_unfold.
    by destruct (Z.eqb_spec n 0). }
  rewrite res_bind_unfold. cbn [Z.eqb negb].
  destruct (retransmit_list e) as [|s rest] eqn:El.
  { rewrite res_ret_bind. cbn [Z.eqb negb]. apply new_granted; [done|]. by rewrite El. }
  destruct (decide (compute_pdu_header_size e s + 1 <= size)) as [Hroom|Hroom].
  - destruct (AmTxSpec.generate_retx_ok e [] s rest buffer size (i_tx _ _ Hinv) El Hsz Hroom)
      as (b & e' & E & Hwf & Hf & Hl & Ht).
    rewrite E, res_bind_unfold. pose proof Ht as (_ & Hpos & _).
    destruct (Z.eqb_spec (pdu_size e (AmTxSpec.sent e s size)) 0); [lia|]. cbn [negb].
    eexists _, b, e'. split; [done|].
    assert (HF : rx_part e' = rx_part e /\ trace (common e') = trace (common e)).
    { unfold AmTxSpec.send_frame in Hf. split; congruence. }
    destruct HF as [HF HT]. split.
    { apply (inv_rx_part D e); try done. by eapply (AmOrder.retx_ordered e); [..|apply Hinv]. }
    split; [done|]. split; [done|]. by eapply AnswerRetx.
  - unfold generate_retx_pdu. rewrite El, Z.gtb_ltb. cbv zeta.
    destruct (Z.ltb_spec size (compute_pdu_header_size e s + 1)); [|lia].
    rewrite res_ret_bind. cbn [Z.eqb negb]. apply new_granted; [done|].
    rewrite El. intros r rs [= <- <-]. lia.
Qed.
End grant.

(** ** Runs *)

Inductive call :=
| RecvSdu (now_us : Z) (sdu : list Z) (id : Z)
| DiscardSdu (id : Z)
| GeneratePdu (now_us : Z) (buffer : list Z) (size : Z)
| RecvPdu (pdu : list Z)
| SetTime (now : Z)
| Reestablish.

Definition exec (e : t) (c : call) : res t :=
  match c with
  | RecvSdu now_us sdu id => nr_rlc_entity_am_recv_sdu now_us e sdu id
  | DiscardSdu id => nr_rlc_entity_am_discard_sdu e id
  | GeneratePdu now_us buffer size =>
      '(_, _, e) ← nr_rlc_entity_am_generate_pdu now_us e buffer size; mret e
  | RecvPdu pdu => AmRx.nr_rlc_entity_am_recv_pdu e pdu
  | SetTime now => nr_rlc_entity_am_set_time e now
  | Reestablish => nr_rlc_entity_am_reestablishment e
  end.

(** What the users of an entity and its peer respect: SDUs and grants fit their
    buffers; data PDUs carry segments of the SDUs [D] of the peer, which leaves
    the last SN of its window free; status reports NACK below their ACK_SN, which
    is not beyond an SDU of which only a part was sent. *)
Definition permitted (D : Z -> list Z) (e : t) (c : call) : Prop :=
  match c with
  | RecvSdu _ sdu _ => zlen sdu <= NR_SDU_MAX
  | GeneratePdu _ buffer size => size <= zlen buffer
  | RecvPdu pdu =>
      match AmRx.decode_header e pdu with
      | Ok AmRx.ControlPdu => AmControlSpec.nacks_below e pdu /\ AmOrder.acks_sent e pdu
      | _ => AmRxSpec.honest_pdu D e pdu /\ AmRxSpec.leaves_last e pdu
      end
  | DiscardSdu _ | SetTime _ | Reestablish => True
  end.

(** The call that dereferences [NULL]: the poll timer runs out and nothing
    waits for an acknowledgement. *)
Definition faults (e : t) (c : call) : bool :=
  match c with SetTime now => AmTimers.poll_faults e now | _ => false end.

(** The calls to the upper layer that a call causes. *)
Definition upcall_ok (D : Z -> list Z) (e : t) (c : call) (evs : list rlc_event) : Prop :=
  match c with
  | RecvPdu pdu =>
      match AmRx.decode_header e pdu with
      | Ok AmRx.ControlPdu =>
          AmControlSpec.reported (upd_common (upd_stats (count_rxpdu (zlen pdu))) e) pdu evs
      | _ => evs = AmRxSpec.deliveries D e pdu
      end
  | SetTime _ => evs = [] \/ evs = [MaxRetxReached]
  | _ => evs = []
  end.

Lemma recv_control_ok D e pdu :
  inv D e -> AmRx.decode_header e pdu = Ok AmRx.ControlPdu -> AmControlSpec.nacks_below e pdu ->
  AmOrder.acks_sent e pdu -> exists e' evs, AmRx.nr_rlc_entity_am_recv_pdu e pdu = Ok e' /\ inv D e'
    /\ trace (common e') = trace (common e) ++ evs
    /\ AmControlSpec.reported (upd_common (upd_stats (count_rxpdu (zlen pdu))) e) pdu evs.
Proof.
  intros Hi Hd Hn Hs. unfold AmRx.nr_rlc_entity_am_recv_pdu.
  set (e0 := upd_common _ e). change (AmRx.decode_header e0 pdu) with (AmRx.decode_header e pdu).
  rewrite Hd, res_bind_unfold.
  destruct (AmControlSpec.process_control_ok e0 [] pdu) as (e' & lost' & evs & E & Hwf & F & Hl & Tr & Hr).
  { apply (wf_tx_part e); [done|apply Hi]. }
  assert (Hn0 : AmControlSpec.nacks_below e0 pdu) by (by apply AmControlSpec.nacks_below_stats).
  exists e', evs. split; [done|]. split; [|done]. rewrite (Hl Hn0) in Hwf.
  apply (inv_rx_part D e); [done| |change (rx_part e) with (rx_part e0)|done].
  - eapply (AmOrder.process_control_ordered e0 [] pdu); [| |exact Hs|exact E].
    + apply (wf_tx_part e); [done|apply Hi].
    + apply (AmOrder.ordered_tx_part e); [done|apply Hi].
  - unfold AmControlSpec.frame in F. congruence.
Qed.

Lemma recv_data_ok D e pdu :
  inv D e -> AmRx.decode_header e pdu <> Ok AmRx.ControlPdu ->
  AmRxSpec.honest_pdu D e pdu -> AmRxSpec.leaves_last e pdu ->
  exists e' evs, AmRx.nr_rlc_entity_am_recv_pdu e pdu = Ok e' /\ inv D e'
    /\ trace (common e') = trace (common e) ++ evs /\ evs = AmRxSpec.deliveries D e pdu.
Proof.
  intros Hi Hd Hh Hs.
  pose proof (AmRxSpec.recv_pdu_ok D e pdu (i_rx _ _ Hi) (i_honest _ _ Hi) Hh Hd) as H.
  rewrite AmRxSpec.room_stalls in H by apply Hi. destruct H as (e' & E & H1 & H2 & F & Tr & Hr).
  assert (HT : AmRxSpec.tx_part e' = AmRxSpec.tx_part e) by (unfold AmRxSpec.frame in F; congruence).
  exists e', (AmRxSpec.deliveries D e pdu). split_and!; try done.
  constructor; try done; [apply (AmTimers.tx_wf_frame e); [done|apply Hi]| |by apply Hr; [apply Hi|]].
  apply (AmOrder.ordered_tx_part e); [|apply Hi].
  unfold AmRxSpec.tx_part in HT. unfold tx_part, base. congruence.
Qed.

Lemma exec_ok D e c :
  inv D e -> permitted D e c ->
  if faults e c then exec e c = Fault NullDeref
  else exists e' evs, exec e c = Ok e' /\ inv D e'
    /\ trace (common e') = trace (common e) ++ evs /\ upcall_ok D e c evs.
Proof.
  intros Hi Hp. destruct c as [now sdu id|id|now buffer size|pdu|now|]; simpl in Hp |- *.
  - destruct (recv_sdu_mem now e [] sdu id (i_tx _ _ Hi) Hp) as (e' & E & Hwf & F & _).
    assert (HF : rx_part e' = rx_part e /\ trace (common e') = trace (common e)).
    { unfold upper_frame in F. split; congruence. }
    destruct HF. exists e', []. rewrite app_nil_r. split_and!; try done. apply (inv_rx_part D e); try done.
    eapply AmOrder.recv_sdu_ordered; [|exact E|]; apply Hi.
  - destruct (discard_mem e [] id (i_tx _ _ Hi)) as (e' & E & Hwf & F & _).
    assert (HF : rx_part e' = rx_part e /\ trace (common e') = trace (common e)).
    { unfold upper_frame in F. split; congruence. }
    destruct HF. exists e', []. rewrite app_nil_r. split_and!; try done. apply (inv_rx_part D e); try done.
    eapply AmOrder.discard_ordered; [|exact E|]; apply Hi.
  - destruct (generate_pdu_granted D now e buffer size Hi Hp) as (n & b & e' & E & Hi' & _ & Tr & _).
    exists e', []. rewrite E, app_nil_r. by split_and!.
  - destruct (AmRxSpec.decode_header_ok e pdu (m_cfg _ _ _ (proj1 (i_tx _ _ Hi)))) as (h & Eh & _).
    rewrite Eh in Hp |- *. destruct h as [|p vsn so n f l|p]; [by apply recv_control_ok; try apply Hp|..];
      apply recv_data_ok; rewrite ?Eh; try done; apply Hp.
  - pose proof (AmTimers.am_set_time_ok D e [] now (i_tx _ _ Hi) (i_rx _ _ Hi) (i_honest _ _ Hi)) as H.
    destruct (AmTimers.poll_faults e now); [done|].
    destruct H as (e' & moved & evs & E & H1 & H2 & H3 & _ & _ & _ & _ & _ & _ & Tr & Hev & Ho & Hr).
    exists e', evs. split_and!; try done. constructor; try done; [apply Ho|apply Hr]; apply Hi.
  - destruct (AmTimers.am_clear_ok e (i_tx _ _ Hi) (i_rx _ _ Hi))
      as (e' & E & H1 & H2 & H3 & [H4 H5] & _ & _ & _ & _ & _ & _ & _ & Tr).
    exists e', []. rewrite app_nil_r. by split_and!.
Qed.

(** The peer uses an SN again for another SDU: not while segments of it are
    held. *)
Definition renews (D D' : Z -> list Z) (e : t) : Prop :=
  forall i p, 0 <= i < window_size e -> p ∈ AmRxSpec.slot_at e i -> Pdu.data p <> None ->
    D' (Pdu.sn p) = D (Pdu.sn p).

Lemma renews_inv D D' e : renews D D' e -> inv D e -> inv D' e.
Proof.
  intros Hr [H1 H2 H3 H4 H5]. constructor; try done. intros i Hi. specialize (H4 i Hi).
  unfold AmRxSpec.honest_slot in *. rewrite Forall_forall in *. intros p Hp.
  destruct (H4 p Hp) as [Ha Hb]. split; [done|]. intros Hd. rewrite (Hr i p) by done. by apply Hb.
Qed.

(** Runs: the calls in order, each permitted in the state it is made in and
    returning; [D] are the SDUs of the peer at the start, [D'] at the end. *)
Inductive run : (Z -> list Z) -> t -> list call -> (Z -> list Z) -> t -> Prop :=
| run_nil D e : run D e [] D e
| run_cons D e c e1 cs D2 e2 :
    permitted D e c -> exec e c = Ok e1 -> run D e1 cs D2 e2 -> run D e (c :: cs) D2 e2
| run_renew D D1 e cs D2 e2 : renews D D1 e -> run D1 e cs D2 e2 -> run D e cs D2 e2.

Lemma run_inv D e cs D' e' : run D e cs D' e' -> inv D e -> inv D' e'.
Proof.
  induction 1 as [|D e c e1 cs D2 e2 Hp E _ IH|D D1 e cs D2 e2 Hr _ IH]; [done| |].
  - intros Hi. apply IH. pose proof (exec_ok D e c Hi Hp) as H. destruct (faults e c).
    { rewrite E in H. done. }
    destruct H as (e1' & evs & E' & Hi' & _). rewrite E in E'. by injection E' as ->.
  - intros Hi. by apply IH, (renews_inv D).
Qed.

(** A new entity. *)
Lemma new_inv D rx_max tx_max tp tr ts pp pb mr len e :
  0 <= rx_max -> new_nr_rlc_entity_am rx_max tx_max tp tr ts pp pb mr len = Ok e -> inv D e.
Proof.
  intros Hm Hnew. destruct (AmRxSpec.am_new_wf _ _ _ _ _ _ _ _ _ _ Hm Hnew) as (H1 & H2 & _).
  destruct (new_mem _ _ _ _ _ _ _ _ _ _ Hnew) as (H5 & _). pose proof (m_cfg _ _ _ (proj1 H5)) as Hc.
  assert (H : rx_next_highest e = rx_next e /\ tx_list e = [] /\ wait_list e = []
    /\ retransmit_list e = [] /\ tx_next e = tx_next_ack e).
  { unfold new_nr_rlc_entity_am in Hnew. destruct (_ || _); [|done].
    apply res_bind_ok in Hnew as (c & _ & Hnew). injection Hnew as <-. done. }
  destruct H as (E1 & E2 & E3 & E4 & E5).
  constructor; try done; [by apply AmOrder.ordered_empty|by apply AmRxSpec.empty_room].
Qed.

End AmEntity.
