(* ===== verification/RlcApi.v ===== *)
(** * RLC: the entity as its users see it

    The upper layer calls an entity through the function pointers of
    [nr_rlc_entity_t], which the constructors of [nr_rlc_entity.c] set for the
    mode.  [RlcTransmitter] is the part of that interface that concerns SDUs to
    be sent, [RlcTransmitterLaws] what every mode promises about it; users of the
    interface are verified against the laws.  [nr_rlc_entity] is an entity of any
    mode, with the calls dispatched, and [nr_rlc_entity_get_stats]. *)

From S2P Require Import Prelude TimeStat RlcPdu RlcSdu RlcRxManager RlcEntity RlcTm RlcUm.
From S2P Require Import RlcUmTx RlcAm RlcAmStatus RlcAmControl RlcAmRx RlcAmRxSpec RlcAmTx.
From S2P Require Import RlcAmTxInv.

Import Entity.

(** ** The interface *)

Class RlcTransmitter (E : Type) := {
  recv_sdu : Z -> E -> list Z -> Z -> res E;
  reestablishment : E -> res E;
  available_tx_space : E -> Z;
  pending : E -> list (list Z);     (** the bytes that wait for a grant, per SDU *)
  tx_inv : E -> Prop
}.

(** An SDU is queued behind the others when there is space for it, and rejected
    otherwise; re-establishment empties the queue. *)
Class RlcTransmitterLaws (E : Type) `{!RlcTransmitter E} := {
  recv_sdu_law now_us e buffer id :
    tx_inv e -> zlen buffer <= NR_SDU_MAX ->
    exists e', recv_sdu now_us e buffer id = Ok e' /\ tx_inv e'
      /\ (pending e', available_tx_space e')
         = if zlen buffer <=? available_tx_space e
           then (pending e ++ [buffer], available_tx_space e - zlen buffer)
           else (pending e, available_tx_space e);
  reestablishment_law e :
    tx_inv e -> exists e', reestablishment e = Ok e' /\ tx_inv e' /\ pending e' = []
}.

(** ** The three modes *)

#[export] Instance tm_transmitter : RlcTransmitter Tm.t := {
  recv_sdu := Tm.nr_rlc_entity_tm_recv_sdu;
  reestablishment := Tm.nr_rlc_entity_tm_reestablishment;
  available_tx_space := Tm.nr_rlc_entity_tm_available_tx_space;
  pending := Tm.queue;
  tx_inv := Tm.wf
}.

#[export] Instance um_transmitter : RlcTransmitter Um.t := {
  recv_sdu := Um.nr_rlc_entity_um_recv_sdu;
  reestablishment := Um.nr_rlc_entity_um_reestablishment;
  available_tx_space := Um.nr_rlc_entity_um_available_tx_space;
  pending e := map snd (UmTx.queue e);
  tx_inv := UmTx.wf
}.

#[export] Instance am_transmitter : RlcTransmitter Am.t := {
  recv_sdu := AmTx.nr_rlc_entity_am_recv_sdu;
  reestablishment := AmTx.nr_rlc_entity_am_reestablishment;
  available_tx_space := AmTx.nr_rlc_entity_am_available_tx_space;
  pending e := map snd (AmTxInv.queue e);
  tx_inv e := AmTxInv.wf e []
}.

#[export] Instance tm_laws : RlcTransmitterLaws Tm.t.
Proof.
  constructor; simpl.
  - intros now_us e buffer id Hwf Hmax.
    destruct (Tm.tm_recv_sdu_spec now_us e buffer id Hwf Hmax) as (e' & E & Hwf' & Hm & Hq & Hs).
    exists e'. split; [done|]. split; [done|]. unfold Tm.nr_rlc_entity_tm_available_tx_space.
    rewrite Hq, Hs, Hm, Z.gtb_ltb.
    destruct (Z.ltb_spec (Tm.tx_maxsize e) (Tm.tx_size e + zlen buffer)),
      (Z.leb_spec (zlen buffer) (Tm.tx_maxsize e - Tm.tx_size e)); try lia; [done|]. f_equal. lia.
  - intros e Hwf. destruct (Tm.tm_clear_spec e Hwf) as (e' & E & Hwf' & Hq & _). eauto.
Qed.

#[export] Instance um_laws : RlcTransmitterLaws Um.t.
Proof.
  constructor; simpl.
  - intros now_us e buffer id Hwf Hmax.
    destruct (UmTx.um_recv_sdu_spec now_us e buffer id Hwf Hmax) as (e' & E & Hwf' & _ & Hm & _ & Hq & Hs).
    exists e'. split; [done|]. split; [done|]. unfold Um.nr_rlc_entity_um_available_tx_space.
    rewrite Hq, Hs, Hm, Z.gtb_ltb.
    destruct (Z.ltb_spec (Um.tx_maxsize e) (Um.tx_size e + zlen buffer)),
      (Z.leb_spec (zlen buffer) (Um.tx_maxsize e - Um.tx_size e)); try lia; [done|].
    rewrite map_app. f_equal. lia.
  - intros e Hwf. destruct (UmTx.um_clear_spec e Hwf) as (e' & E & Hwf' & Hq & _).
    exists e'. by rewrite Hq.
Qed.

#[export] Instance am_laws : RlcTransmitterLaws Am.t.
Proof.
  constructor; simpl.
  - intros now_us e buffer id Hwf Hmax.
    destruct (AmTxInv.recv_sdu_mem now_us e [] buffer id Hwf Hmax) as (e' & E & Hwf' & Hf & Hq).
    exists e'. split; [done|]. split; [done|]. unfold AmTx.nr_rlc_entity_am_available_tx_space.
    assert (Am.tx_maxsize e' = Am.tx_maxsize e) as -> by (unfold AmTxInv.upper_frame in Hf; congruence).
    rewrite Z.gtb_ltb in Hq.
    destruct (Z.ltb_spec (Am.tx_maxsize e) (Am.tx_size e + zlen buffer)),
      (Z.leb_spec (zlen buffer) (Am.tx_maxsize e - Am.tx_size e)); try lia; destruct Hq as [-> ->]; [done|].
    rewrite map_app. f_equal. lia.
  - intros e Hwf. destruct (AmTxInv.clear_mem e Hwf) as (e' & E & Hwf' & Hq & _).
    exists e'. by rewrite Hq.
Qed.

(** ** An entity of any mode *)

Inductive nr_rlc_entity :=
| EntityTM (e : Tm.t)
| EntityUM (e : Um.t)
| EntityAM (e : Am.t).

(** The function pointers [recv_sdu], [reestablishment] and
    [available_tx_space] of [nr_rlc_entity_t]. *)
#[export] Instance entity_transmitter : RlcTransmitter nr_rlc_entity := {
  recv_sdu now_us x buffer id :=
    match x with
    | EntityTM e => EntityTM <$> recv_sdu now_us e buffer id
    | EntityUM e => EntityUM <$> recv_sdu now_us e buffer id
    | EntityAM e => EntityAM <$> recv_sdu now_us e buffer id
    end;
  reestablishment x :=
    match x with
    | EntityTM e => EntityTM <$> reestablishment e
    | EntityUM e => EntityUM <$> reestablishment e
    | EntityAM e => EntityAM <$> reestablishment e
    end;
  available_tx_space x :=
    match x with
    | EntityTM e => available_tx_space e
    | EntityUM e => available_tx_space e
    | EntityAM e => available_tx_space e
    end;
  pending x :=
    match x with
    | EntityTM e => pending e
    | EntityUM e => pending e
    | EntityAM e => pending e
    end;
  tx_inv x :=
    match x with
    | EntityTM e => tx_inv e
    | EntityUM e => tx_inv e
    | EntityAM e => tx_inv e
    end
}.

#[export] Instance entity_laws : RlcTransmitterLaws nr_rlc_entity.
Proof.
  constructor.
  - intros now_us [e|e|e] buffer id Hi Hmax;
      destruct (recv_sdu_law now_us e buffer id Hi Hmax) as (e' & E & Hi' & Hp);
      cbn [recv_sdu entity_transmitter]; rewrite E; eexists; (split; [reflexivity|]); done.
  - intros [e|e|e] Hi; destruct (reestablishment_law e Hi) as (e' & E & Hi' & Hp);
      cbn [reestablishment entity_transmitter]; rewrite E; eexists; (split; [reflexivity|]); done.
Qed.

(** ** Users of the interface *)

Section feed.
Context {E : Type} `{HT : !RlcTransmitter E, HL : !RlcTransmitterLaws E}.

(** The upper layer hands over a sequence of SDUs (bytes and identity). *)
Definition feed (now_us : Z) (e : E) (sdus : list (list Z * Z)) : res E :=
  res_foldl (fun e s => recv_sdu now_us e s.1 s.2) e sdus.

(** The SDUs that find space, in order. *)
Fixpoint accepted (space : Z) (sdus : list (list Z)) : list (list Z) :=
  match sdus with
  | [] => []
  | x :: l => if zlen x <=? space then x :: accepted (space - zlen x) l else accepted space l
  end.

Lemma feed_ok now_us sdus : forall e,
  tx_inv e -> Forall (fun s : list Z * Z => zlen s.1 <= NR_SDU_MAX) sdus ->
  exists e', feed now_us e sdus = Ok e' /\ tx_inv e'
    /\ pending e' = pending e ++ accepted (available_tx_space e) (map fst sdus).
Proof using HL.
  induction sdus as [|[x id] sdus IH]; intros e Hi Hl; simpl.
  { exists e. by rewrite app_nil_r. }
  apply Forall_cons in Hl as [Hx Hl]. simpl in Hx. unfold feed. cbn [res_foldl fst snd].
  destruct (recv_sdu_law now_us e x id Hi Hx) as (e1 & E1 & Hi1 & Hp).
  rewrite E1, res_bind_unfold. destruct (IH e1 Hi1 Hl) as (e2 & E2 & Hi2 & Hp2).
  exists e2. split; [exact E2|]. split; [done|]. rewrite Hp2.
  destruct (zlen x <=? available_tx_space e); injection Hp as -> ->; [by rewrite <- app_assoc|done].
Qed.

End feed.

(** ** Statistics *)

(** The head of the line: the segment whose SDU waits longest. *)
Definition head_of_line (x : nr_rlc_entity) : option (Store.t * Seg.t) :=
  match x with
  | EntityAM e =>
      match Am.retransmit_list e with
      | s :: _ => Some (Am.st e, s)
      | [] => match Am.tx_list e with s :: _ => Some (Am.st e, s) | [] => None end
      end
  | EntityUM e => match Um.tx_list e with s :: _ => Some (Um.st e, s) | [] => None end
  | EntityTM e => match Tm.tx_list e with s :: _ => Some (Tm.st e, s) | [] => None end
  end.

Definition common_of (x : nr_rlc_entity) : nr_rlc_entity_t :=
  match x with
  | EntityTM e => Tm.common e
  | EntityUM e => Um.common e
  | EntityAM e => Am.common e
  end.

Definition set_avg (avg : TimeStat.time_average_t) (x : nr_rlc_entity) : nr_rlc_entity :=
  match x with
  | EntityTM e => EntityTM {| e with Tm.common := {| (Tm.common e) with txsdu_avg_time_to_tx := avg |} |}
  | EntityUM e => EntityUM {| e with Um.common := {| (Um.common e) with txsdu_avg_time_to_tx := avg |} |}
  | EntityAM e => EntityAM {| e with Am.common := {| (Am.common e) with txsdu_avg_time_to_tx := avg |} |}
  end.

(** The statistics, [txsdu_wt_us] and [txsdu_avg_time_to_tx] (a quotient); the
    average forgets old measures. *)
Definition nr_rlc_entity_get_stats (time_now : Z) (x : nr_rlc_entity)
    : res (nr_rlc_statistics_t * Z * (Z * Z) * nr_rlc_entity) :=
  (* compute HOL waittime *)
  wt ← (match head_of_line x with
        | Some (st, sdu) => d ← Store.deref st sdu; mret (u32 (time_now - Sdu.time_of_arrival d))
        | None => mret 0
        end);
  if avg_time_is_on (common_of x) then
    '(num, den, avg) ← TimeStat.time_average_get_average (txsdu_avg_time_to_tx (common_of x)) time_now;
    mret (stats (common_of x), wt, (num, den), set_avg avg x)
  else mret (stats (common_of x), wt, (0, 1), x).

Lemma head_of_line_live x st s :
  tx_inv x -> head_of_line x = Some (st, s) -> exists d, Store.deref st s = Ok d.
Proof.
  intros Hi E. destruct x as [e|e|e]; simpl in *.
  - destruct (Tm.tx_list e) as [|y l] eqn:El; [done|]. injection E as <- <-.
    pose proof (Tm.wf_store _ Hi) as Hok. rewrite El in Hok.
    destruct (Store.deref_ok _ _ y Hok) as (d & Hd & _); [left|]. eauto.
  - destruct (Um.tx_list e) as [|y l] eqn:El; [done|]. injection E as <- <-.
    pose proof (UmTx.wf_store _ Hi) as Hok. rewrite El in Hok.
    destruct (Store.deref_ok _ _ y Hok) as (d & Hd & _); [left|]. eauto.
  - destruct Hi as [Hm _]. pose proof (AmTxInv.m_store _ _ _ Hm) as Hok.
    destruct (Am.retransmit_list e) as [|y l] eqn:Er.
    + destruct (Am.tx_list e) as [|y l] eqn:El; [done|]. injection E as <- <-.
      destruct (Store.deref_ok _ _ y Hok) as (d & Hd & _); [set_solver|]. eauto.
    + injection E as <- <-. destruct (Store.deref_ok _ _ y Hok) as (d & Hd & _); [set_solver|]. eauto.
Qed.

Lemma get_stats_ok now x :
  tx_inv x -> TimeStat.wf (txsdu_avg_time_to_tx (common_of x)) ->
  exists wt avg x', nr_rlc_entity_get_stats now x = Ok (stats (common_of x), wt, avg, x')
    /\ head_of_line x' = head_of_line x /\ TimeStat.wf (txsdu_avg_time_to_tx (common_of x'))
    /\ match head_of_line x with
       | Some (st, s) => exists d, Store.deref st s = Ok d /\ wt = u32 (now - Sdu.time_of_arrival d)
       | None => wt = 0
       end.
Proof.
  intros Hi Ha. unfold nr_rlc_entity_get_stats.
  assert (Hwt : exists wt, (match head_of_line x with
      | Some (st, sdu) => d ← Store.deref st sdu; mret (u32 (now - Sdu.time_of_arrival d))
      | None => mret 0
      end) = Ok wt
    /\ match head_of_line x with
       | Some (st, s) => exists d, Store.deref st s = Ok d /\ wt = u32 (now - Sdu.time_of_arrival d)
       | None => wt = 0
       end).
  { destruct (head_of_line x) as [[st s]|] eqn:E; [|by exists 0].
    destruct (head_of_line_live x st s Hi E) as (d & Hd). rewrite Hd. eexists. split; [done|]. eauto. }
  destruct Hwt as (wt & -> & Hwt). rewrite res_bind_unfold.
  destruct (avg_time_is_on (common_of x)).
  - destruct (TimeStat.get_average_spec (txsdu_avg_time_to_tx (common_of x)) now Ha)
      as (num & den & avg & -> & Hwf).
    rewrite res_bind_unfold. exists wt, (num, den), (set_avg avg x). split; [done|].
    split; [by destruct x|]. split; [by destruct x|done].
  - exists wt, (0, 1), x. done.
Qed.

(** Without the measure, SDUs have no time of arrival: the waiting time that is
    reported is the clock itself. *)
Lemma stats_without_measure :
  (e ← Tm.new_nr_rlc_entity_tm 100; e ← Tm.nr_rlc_entity_tm_recv_sdu 5000 e [1; 2] 0;
   '(_, wt, _, _) ← nr_rlc_entity_get_stats 6000 (EntityTM e); mret wt) = Ok 6000.
Proof. vm_compute. reflexivity. Qed.
