(* ===== verification/RlcUe.v ===== *)
(** * RLC: the table of UEs and its interface

    Models [openair2/LAYER2/nr_rlc/nr_rlc_ue_manager.c], [asn1_utils.c] and
    [nr_rlc_oai_api.c]: the entities of all UEs and the functions that MAC, PDCP, F1
    and RRC call.  A pointer to a UE is its place in the list and a pointer to an
    entity its place in the UE.  The mutex of the table makes each function atomic.
    The callbacks of an entity ([deliver_sdu], [successful_delivery],
    [max_retx_reached]) only read the table; the model runs them, in order, after the
    function of the entity that makes the calls. *)

From S2P Require Import Prelude Asn1 TimeStat Hashtable F1apIds PdcpSdu Events.
From S2P Require Import RlcPdu RlcSdu RlcRxManager RlcEntity RlcTm RlcUm RlcAm RlcAmStatus.
From S2P Require Import RlcAmControl RlcAmRx RlcAmTx RlcApi.

Module RlcUe.
Import Asn1 Events.

Definition MAX_DRBS_PER_UE : Z := 32.
Definition RLC_TX_MAXSIZE : Z := 30000000.
Definition RLC_RX_MAXSIZE : Z := 30000000.

(** ** Function pointers of an entity *)

Definition set_time (x : nr_rlc_entity) (now : Z) : res nr_rlc_entity :=
  match x with
  | EntityTM e => mret (EntityTM (Tm.nr_rlc_entity_tm_set_time e now))
  | EntityUM e => EntityUM <$> Um.nr_rlc_entity_um_set_time e now
  | EntityAM e => EntityAM <$> AmTx.nr_rlc_entity_am_set_time e now
  end.

Definition recv_pdu (x : nr_rlc_entity) (buffer : list Z) : res nr_rlc_entity :=
  match x with
  | EntityTM e => mret (EntityTM (Tm.nr_rlc_entity_tm_recv_pdu e buffer))
  | EntityUM e => EntityUM <$> Um.nr_rlc_entity_um_recv_pdu e buffer
  | EntityAM e => EntityAM <$> AmRx.nr_rlc_entity_am_recv_pdu e buffer
  end.

Definition generate_pdu (now_us : Z) (x : nr_rlc_entity) (buffer : list Z) (size : Z)
    : res (Z * list Z * nr_rlc_entity) :=
  match x with
  | EntityTM e => '(n, b, e) ← Tm.nr_rlc_entity_tm_generate_pdu now_us e buffer size; mret (n, b, EntityTM e)
  | EntityUM e => '(n, b, e) ← Um.nr_rlc_entity_um_generate_pdu now_us e buffer size; mret (n, b, EntityUM e)
  | EntityAM e => '(n, b, e) ← AmTx.nr_rlc_entity_am_generate_pdu now_us e buffer size; mret (n, b, EntityAM e)
  end.

Definition buffer_status (x : nr_rlc_entity) (maxsize : Z) : res Entity.nr_rlc_entity_buffer_status_t :=
  match x with
  | EntityTM e => mret (Tm.nr_rlc_entity_tm_buffer_status e maxsize)
  | EntityUM e => mret (Um.nr_rlc_entity_um_buffer_status e maxsize)
  | EntityAM e => AmTx.nr_rlc_entity_am_buffer_status e maxsize
  end.

Definition tx_list_occupancy (x : nr_rlc_entity) : Z :=
  match x with
  | EntityTM e => Tm.nr_rlc_entity_tm_tx_list_occupancy e
  | EntityUM e => Um.nr_rlc_entity_um_tx_list_occupancy e
  | EntityAM e => AmTx.nr_rlc_entity_am_tx_list_occupancy e
  end.

(** ** The table *)

(** [nr_lcid_rb_t]: what a logical channel serves. *)
Inductive nr_lcid_rb_t :=
| NR_LCID_NONE
| NR_LCID_SRB (srb_id : Z)
| NR_LCID_DRB (drb_id : Z).

(** [struct srb0_data]; the two pointers are opaque. *)
Record srb0_data := mk_srb0 { s0_ue_id : Z; s0_data : Z; s0_callback : Z }.

(** [nr_rlc_ue_t]; [srb] has 3 places, [drb] [MAX_DRBS_PER_UE] and [lcid2rb] 32. *)
Record nr_rlc_ue_t := mk_ue {
  ue_id : Z;
  srb0 : option (nr_rlc_entity * srb0_data);
  srb : list (option nr_rlc_entity);
  drb : list (option nr_rlc_entity);
  lcid2rb : list nr_lcid_rb_t;
  rlf_handler : option Z
}.

Inductive nr_rlc_op_mode_t :=
| NR_RLC_OP_MODE_SPLIT_GNB
| NR_RLC_OP_MODE_MONO_GNB
| NR_RLC_OP_MODE_UE.

#[global] Instance nr_rlc_op_mode_eq_dec : EqDecision nr_rlc_op_mode_t.
Proof. solve_decision. Defined.

(** [nr_rlc_ue_manager_internal_t], with [nr_rlc_current_time]. *)
Record manager := mk_manager {
  ue_list : list nr_rlc_ue_t;
  mode : nr_rlc_op_mode_t;
  nr_rlc_current_time : Z
}.

Definition new_nr_rlc_ue_manager (m : nr_rlc_op_mode_t) : manager := mk_manager [] m 0.

Definition nr_rlc_manager_rlc_is_split (m : manager) : bool :=
  bool_decide (mode m = NR_RLC_OP_MODE_SPLIT_GNB).

Definition nr_rlc_manager_get_gnb_flag (m : manager) : bool :=
  negb (bool_decide (mode m = NR_RLC_OP_MODE_UE)).

Definition new_ue (id : Z) : nr_rlc_ue_t :=
  mk_ue id None (replicate 3 None) (replicate (Z.to_nat MAX_DRBS_PER_UE) None)
    (replicate 32 NR_LCID_NONE) None.

(** The manager, the place of the UE and the UE; a UE that is not there is added. *)
Definition nr_rlc_manager_get_ue (m : manager) (id : Z) : manager * nat * nr_rlc_ue_t :=
  match list_find (fun u => ue_id u = id) (ue_list m) with
  | Some (i, u) => (m, i, u)
  | None => ({| m with ue_list := ue_list m ++ [new_ue id] |}, length (ue_list m), new_ue id)
  end.

Definition nr_rlc_manager_remove_ue (m : manager) (id : Z) : manager :=
  match list_find (fun u => ue_id u = id) (ue_list m) with
  | None => m
  | Some (i, _) => {| m with ue_list := delete i (ue_list m) |}
  end.

(** An entity for a place that is free. *)
Definition add_to (places : list (option nr_rlc_entity)) (i : Z) (x : nr_rlc_entity)
    : res (list (option nr_rlc_entity)) :=
  o ← zget places i;
  match o with
  | Some _ => Fault Exit
  | None => zset places i (Some x)
  end.

(** [srb_id] 1 to 3. *)
Definition nr_rlc_ue_add_srb_rlc_entity (u : nr_rlc_ue_t) (srb_id : Z) (x : nr_rlc_entity) : res nr_rlc_ue_t :=
  if (srb_id <? 1) || (srb_id >? 3) then Fault Exit
  else s ← add_to (srb u) (srb_id - 1) x; mret {| u with srb := s |}.

(** The special case of [srb_id] 0; the data of the callback is with the entity. *)
Definition nr_rlc_ue_add_srb0 (u : nr_rlc_ue_t) (x : nr_rlc_entity) (d : srb0_data) : res nr_rlc_ue_t :=
  match srb0 u with
  | Some _ => Fault Exit
  | None => mret {| u with srb0 := Some (x, d) |}
  end.

Definition nr_rlc_ue_add_drb_rlc_entity (u : nr_rlc_ue_t) (drb_id : Z) (x : nr_rlc_entity) : res nr_rlc_ue_t :=
  if (drb_id <? 1) || (drb_id >? MAX_DRBS_PER_UE) then Fault Exit
  else d ← add_to (drb u) (drb_id - 1) x; mret {| u with drb := d |}.

(** ** Places of entities *)

(** Where a pointer to an entity comes from: [ue->srb0], [ue->srb[i]], [ue->drb[i]]. *)
Inductive place := Srb0 | Srb (i : Z) | Drb (i : Z).

Definition entity_at (u : nr_rlc_ue_t) (p : place) : res (option nr_rlc_entity) :=
  match p with
  | Srb0 => mret (fst <$> srb0 u)
  | Srb i => zget (srb u) i
  | Drb i => zget (drb u) i
  end.

Definition put_at (u : nr_rlc_ue_t) (p : place) (x : option nr_rlc_entity) : nr_rlc_ue_t :=
  match p with
  | Srb0 => {| u with srb0 := match x, srb0 u with Some x, Some (_, d) => Some (x, d) | _, _ => None end |}
  | Srb i => {| u with srb := <[Z.to_nat i := x]> (srb u) |}
  | Drb i => {| u with drb := <[Z.to_nat i := x]> (drb u) |}
  end.

Definition store (m : manager) (i : nat) (p : place) (x : option nr_rlc_entity) : manager :=
  {| m with ue_list := alter (fun u => put_at u p x) i (ue_list m) |}.

(** The place that [get_rlc_entity_from_lcid] reads. *)
Definition place_of_lcid (u : nr_rlc_ue_t) (channel_id : Z) : res (option place) :=
  if channel_id =? 0 then mret (Some Srb0)
  else
    rb ← zget (lcid2rb u) (channel_id - 1);
    match rb with
    | NR_LCID_NONE => mret None
    | NR_LCID_SRB srb_id => _ ← dev_assert (srb_id >? 0); mret (Some (Srb (srb_id - 1)))
    | NR_LCID_DRB drb_id => mret (Some (Drb (drb_id - 1)))
    end.

Definition get_rlc_entity_from_lcid (u : nr_rlc_ue_t) (channel_id : Z) : res (option nr_rlc_entity) :=
  p ← place_of_lcid u channel_id;
  match p with
  | None => mret None
  | Some p => entity_at u p
  end.

(** The place that [nr_rlc_data_req] and [nr_rlc_get_statistics] read: SRBs 1 and 2, and
    the DRBs up to [drbs]. *)
Definition place_of_rb (drbs : Z) (srb_flag : bool) (rb_id : Z) : option place :=
  if srb_flag then if (rb_id >=? 1) && (rb_id <=? 2) then Some (Srb (rb_id - 1)) else None
  else if (rb_id >=? 1) && (rb_id <=? drbs) then Some (Drb (rb_id - 1)) else None.

(** ** Callbacks *)

(** The calls to the upper layer that turn [x] into [x']. *)
Definition new_calls (x x' : nr_rlc_entity) : list Entity.rlc_event :=
  drop (length (Entity.trace (common_of x))) (Entity.trace (common_of x')).

Section node.
(** The F1 identifiers of the DU. *)
Context (du2cu : F1apIds.table).

(** The search for the entity in [ue->srb] and [ue->drb] gives back its place. *)
Definition deliver_sdu (m : manager) (u : nr_rlc_ue_t) (is_srb : bool) (rb_id : Z) (buf : list Z)
    : res (list event) :=
  let is_gnb := nr_rlc_manager_get_gnb_flag m in
  rnti ← (if is_gnb then d ← F1apIds.du_get_f1_ue_data du2cu (ue_id u); mret (F1apIds.secondary_ue d)
          else mret (u64 (ue_id u)));
  mret (if is_gnb && nr_rlc_manager_rlc_is_split m then
          if is_srb then [UlRrcMessage (u32 rnti) (u32 (ue_id u)) rb_id buf]
          else [F1uUplink (u64 (ue_id u)) rb_id buf]
        else [PdcpDataInd (mk_ind_item (ctxt_of is_gnb rnti) is_srb rb_id buf)]).

(** Only the first two SRBs are searched. *)
Definition successful_delivery (is_srb : bool) (rb_id : Z) : res (list event) :=
  if is_srb && (rb_id >? 2) then Fault Exit else mret [].

Definition max_retx_reached (u : nr_rlc_ue_t) (is_srb : bool) (rb_id : Z) : res (list event) :=
  if is_srb && (rb_id >? 2) then Fault Exit
  else mret (match rlf_handler u with Some h => [RlfHandler h (ue_id u)] | None => [] end).

Definition deliver_sdu_srb0 (d : srb0_data) (buf : list Z) : list event :=
  [InitialUlRrcMessage (s0_callback d) (s0_ue_id d) buf (s0_data d)].

(** The callback of an entity at a place; an SRB0 has [deliver_sdu] only. *)
Definition callback (m : manager) (u : nr_rlc_ue_t) (p : place) (c : Entity.rlc_event) : res (list event) :=
  match p with
  | Srb0 =>
      match srb0 u, c with
      | Some (_, d), Entity.DeliverSdu buf => mret (deliver_sdu_srb0 d buf)
      | _, _ => Fault NullDeref
      end
  | Srb i =>
      match c with
      | Entity.DeliverSdu buf => deliver_sdu m u true (i + 1) buf
      | Entity.SduSuccessfulDelivery _ => successful_delivery true (i + 1)
      | Entity.MaxRetxReached => max_retx_reached u true (i + 1)
      end
  | Drb i =>
      match c with
      | Entity.DeliverSdu buf => deliver_sdu m u false (i + 1) buf
      | Entity.SduSuccessfulDelivery _ => successful_delivery false (i + 1)
      | Entity.MaxRetxReached => max_retx_reached u false (i + 1)
      end
  end.

Fixpoint callbacks (m : manager) (u : nr_rlc_ue_t) (p : place) (l : list Entity.rlc_event) : res (list event) :=
  match l with
  | [] => mret []
  | c :: l => ev ← callback m u p c; ev' ← callbacks m u p l; mret (ev ++ ev')
  end.

(** [get_ue], the entity at a place of the UE, [f] on it; [none] when there is none. *)
Definition with_entity {B} (m : manager) (id : Z) (sel : nr_rlc_ue_t -> res (option place)) (none : B)
    (f : nr_rlc_entity -> res (nr_rlc_entity * B)) : res (manager * list event * B) :=
  let '(m, i, u) := nr_rlc_manager_get_ue m id in
  p ← sel u;
  match p with
  | None => mret (m, [], none)
  | Some p =>
      o ← entity_at u p;
      match o with
      | None => mret (m, [], none)
      | Some x =>
          '(x', b) ← f x;
          ev ← callbacks m u p (new_calls x x');
          mret (store m i p (Some x'), ev, b)
      end
  end.

(** ** MAC *)

(** The identifier of the UE is a [uint16_t] here. *)
Definition nr_mac_rlc_data_ind (m : manager) (id channel_id : Z) (buffer : list Z) : res (manager * list event) :=
  '(m, ev, _) ← with_entity m (u16 id) (fun u => place_of_lcid u channel_id) tt (fun x =>
     x ← set_time x (nr_rlc_current_time m);
     x ← recv_pdu x buffer;
     mret (x, tt));
  mret (m, ev).

(** The size of the PDU, 0 when there is none, and the buffer of MAC. *)
Definition nr_mac_rlc_data_req (now_us : Z) (m : manager) (id channel_id tb_size : Z) (buffer : list Z)
    : res (manager * list event * (Z * list Z)) :=
  with_entity m (u16 id) (fun u => place_of_lcid u channel_id) (0, buffer) (fun x =>
    x ← set_time x (nr_rlc_current_time m);
    '(n, buffer, x) ← generate_pdu now_us x buffer tb_size;
    mret (x, (n, buffer))).

(** [bytes_in_buffer]; the other fields of the answer are 0. *)
Definition nr_mac_rlc_status_ind (m : manager) (id channel_id : Z) : res (manager * list event * Z) :=
  with_entity m (u16 id) (fun u => place_of_lcid u channel_id) 0 (fun x =>
    x ← set_time x (nr_rlc_current_time m);
    s ← buffer_status x (1000 * 1000);
    mret (x, Entity.status_size s + Entity.retx_size s + Entity.tx_size s)).

(** ** PDCP and RRC *)

Definition nr_rlc_data_req (now_us : Z) (m : manager) (ctxt : protocol_ctxt_t) (srb_flag : bool) (rb_id mui : Z)
    (sdu : list Z) : res (manager * list event) :=
  '(m, ev, _) ← with_entity m (i32 (rntiMaybeUEid ctxt))
     (fun _ => mret (place_of_rb MAX_DRBS_PER_UE srb_flag rb_id)) tt (fun x =>
       x ← set_time x (nr_rlc_current_time m);
       x ← recv_sdu now_us x sdu mui;
       mret (x, tt));
  mret (m, ev).

Definition nr_rlc_srb_recv_sdu (now_us : Z) (m : manager) (id channel_id : Z) (buf : list Z)
    : res (manager * list event) :=
  '(m, ev, found) ← with_entity m id
     (fun _ => mret (Some (if channel_id =? 0 then Srb0 else Srb (channel_id - 1)))) false (fun x =>
       x ← set_time x (nr_rlc_current_time m);
       x ← recv_sdu now_us x buf (-1);
       mret (x, true));
  _ ← dev_assert found;
  mret (m, ev).

Definition nr_rlc_get_available_tx_space (m : manager) (id channel_id : Z) : res (manager * Z) :=
  '(m, _, n) ← with_entity m id (fun u => place_of_lcid u channel_id) (-1)
     (fun x => mret (x, available_tx_space x));
  mret (m, n).

Definition nr_rlc_tx_list_occupancy (m : manager) (id lcid : Z) : res (manager * Z) :=
  '(m, _, n) ← with_entity m id (fun u => place_of_lcid u lcid) 0 (fun x => mret (x, tx_list_occupancy x));
  mret (m, n).

Definition nr_rlc_reestablish_entity (m : manager) (id lc_id : Z) : res (manager * list event) :=
  '(m, ev, _) ← with_entity m id (fun u => place_of_lcid u lc_id) tt (fun x =>
     x ← reestablishment x; mret (x, tt));
  mret (m, ev).

Definition nr_rlc_set_rlf_handler (m : manager) (id : Z) (h : option Z) : manager :=
  let '(m, i, _) := nr_rlc_manager_get_ue m id in
  {| m with ue_list := alter (fun u => {| u with rlf_handler := h |}) i (ue_list m) |}.

Fixpoint find_lcid (l : list nr_lcid_rb_t) (id : Z) (is_srb : bool) (rb_id : Z) : Z :=
  match l with
  | [] => 0
  | rb :: l =>
      match rb with
      | NR_LCID_SRB n => if is_srb && (n =? rb_id) then id else find_lcid l (id + 1) is_srb rb_id
      | NR_LCID_DRB n => if negb is_srb && (n =? rb_id) then id else find_lcid l (id + 1) is_srb rb_id
      | NR_LCID_NONE => find_lcid l (id + 1) is_srb rb_id
      end
  end.

(** 0 when there is no such channel. *)
Definition nr_rlc_get_lcid_from_rb (m : manager) (id : Z) (is_srb : bool) (rb_id : Z) : manager * Z :=
  let '(m, _, u) := nr_rlc_manager_get_ue m id in
  (m, find_lcid (lcid2rb u) 1 is_srb rb_id).

Definition release_rlc_entity_from_lcid (u : nr_rlc_ue_t) (channel_id : Z) : res nr_rlc_ue_t :=
  _ ← dev_assert (negb (channel_id =? 0));
  rb ← zget (lcid2rb u) (channel_id - 1);
  match rb with
  | NR_LCID_NONE => mret u
  | NR_LCID_SRB srb_id =>
      _ ← dev_assert (srb_id - 1 >=? 0);
      _ ← zget (srb u) (srb_id - 1);
      mret (put_at u (Srb (srb_id - 1)) None)
  | NR_LCID_DRB drb_id =>
      _ ← zget (drb u) (drb_id - 1);
      mret (put_at u (Drb (drb_id - 1)) None)
  end.

(** A UE at its place replaced. *)
Definition set_ue (m : manager) (i : nat) (u : nr_rlc_ue_t) : manager :=
  {| m with ue_list := alter (fun _ => u) i (ue_list m) |}.

Definition nr_rlc_release_entity (m : manager) (id channel_id : Z) : res manager :=
  let '(m, i, u) := nr_rlc_manager_get_ue m id in
  if channel_id =? 0 then mret (store m i Srb0 None)
  else u ← release_rlc_entity_from_lcid u channel_id; mret (set_ue m i u).

(** ** Configuration *)

Definition VALUES_NR_RLC_T_POLL_RETRANSMIT : list Z :=
  [5; 10; 15; 20; 25; 30; 35; 40; 45; 50; 55; 60; 65; 70; 75; 80; 85; 90; 95; 100; 105; 110; 115; 120; 125;
   130; 135; 140; 145; 150; 155; 160; 165; 170; 175; 180; 185; 190; 195; 200; 205; 210; 215; 220; 225; 230;
   235; 240; 245; 250; 300; 350; 400; 450; 500; 800; 1000; 2000; 4000; 1; 2; 4].
Definition VALUES_NR_RLC_T_REASSEMBLY : list Z :=
  [0; 5; 10; 15; 20; 25; 30; 35; 40; 45; 50; 55; 60; 65; 70; 75; 80; 85; 90; 95; 100; 110; 120; 130; 140; 150;
   160; 170; 180; 190; 200].
Definition VALUES_NR_RLC_T_STATUS_PROHIBIT : list Z :=
  [0; 5; 10; 15; 20; 25; 30; 35; 40; 45; 50; 55; 60; 65; 70; 75; 80; 85; 90; 95; 100; 105; 110; 115; 120; 125;
   130; 135; 140; 145; 150; 155; 160; 165; 170; 175; 180; 185; 190; 195; 200; 205; 210; 215; 220; 225; 230;
   235; 240; 245; 250; 300; 350; 400; 450; 500; 800; 1000; 1200; 1600; 2000; 2400].
Definition VALUES_NR_RLC_POLL_PDU : list Z :=
  [4; 8; 16; 32; 64; 128; 256; 512; 1024; 2048; 4096; 6144; 8192; 12288; 16384; 20480; 24576; 28672; 32768;
   40960; 49152; 57344; 65536; -1].
Definition VALUES_NR_RLC_POLL_BYTE : list Z :=
  [1024 * 1; 1024 * 2; 1024 * 5; 1024 * 8; 1024 * 10; 1024 * 15; 1024 * 25; 1024 * 50; 1024 * 75;
   1024 * 100; 1024 * 125; 1024 * 250; 1024 * 375; 1024 * 500; 1024 * 750; 1024 * 1000; 1024 * 1250;
   1024 * 1500; 1024 * 2000; 1024 * 3000; 1024 * 4000; 1024 * 4500; 1024 * 5000; 1024 * 5500;
   1024 * 6000; 1024 * 6500; 1024 * 7000; 1024 * 7500;
   1024 * 1024 * 8; 1024 * 1024 * 9; 1024 * 1024 * 10; 1024 * 1024 * 11; 1024 * 1024 * 12;
   1024 * 1024 * 13; 1024 * 1024 * 14; 1024 * 1024 * 15; 1024 * 1024 * 16; 1024 * 1024 * 17;
   1024 * 1024 * 18; 1024 * 1024 * 20; 1024 * 1024 * 25; 1024 * 1024 * 30; 1024 * 1024 * 40; -1].
Definition VALUES_NR_RLC_MAX_RETX_THRESHOLD : list Z := [1; 2; 3; 4; 6; 8; 16; 32].
Definition VALUES_NR_RLC_SN_FIELD_LENGTH_AM : list Z := [12; 18].
Definition VALUES_NR_RLC_SN_FIELD_LENGTH_UM : list Z := [6; 12].

Definition decode_t_reassembly := decode_value VALUES_NR_RLC_T_REASSEMBLY.
Definition decode_t_status_prohibit := decode_value VALUES_NR_RLC_T_STATUS_PROHIBIT.
Definition decode_t_poll_retransmit := decode_value VALUES_NR_RLC_T_POLL_RETRANSMIT.
Definition decode_poll_pdu := decode_value VALUES_NR_RLC_POLL_PDU.
Definition decode_poll_byte := decode_value VALUES_NR_RLC_POLL_BYTE.
Definition decode_max_retx_threshold := decode_value VALUES_NR_RLC_MAX_RETX_THRESHOLD.
Definition decode_sn_field_length_am := decode_value VALUES_NR_RLC_SN_FIELD_LENGTH_AM.
Definition decode_sn_field_length_um := decode_value VALUES_NR_RLC_SN_FIELD_LENGTH_UM.

(** [NR_RLC_Config_t], as decoded from RRC; [None] is a null pointer. *)
Record NR_RLC_Config_am := mk_am_config {
  dl_sn_FieldLength : option Z;
  dl_t_Reassembly : Z;
  dl_t_StatusProhibit : Z;
  ul_sn_FieldLength : option Z;
  ul_t_PollRetransmit : Z;
  ul_pollPDU : Z;
  ul_pollByte : Z;
  ul_maxRetxThreshold : Z
}.
Record NR_RLC_Config_um := mk_um_config {
  um_dl_sn_FieldLength : option Z;
  um_dl_t_Reassembly : Z;
  um_ul_sn_FieldLength : option Z
}.
Inductive NR_RLC_Config_t :=
| NR_RLC_Config_PR_am (c : NR_RLC_Config_am)
| NR_RLC_Config_PR_um_Bi_Directional (c : NR_RLC_Config_um)
| NR_RLC_Config_PR_other.

(** [NR_RLC_BearerConfig_t]. *)
Inductive servedRadioBearer_t := PR_srb_Identity (srb_Identity : Z) | PR_drb_Identity (drb_Identity : Z).
Record NR_RLC_BearerConfig_t := mk_bearer_config {
  logicalChannelIdentity : Z;
  servedRadioBearer : option servedRadioBearer_t;
  rlc_Config : option NR_RLC_Config_t
}.

(** The values of an AM entity. *)
Record am_values := mk_am_values {
  v_t_poll_retransmit : Z;
  v_t_reassembly : Z;
  v_t_status_prohibit : Z;
  v_poll_pdu : Z;
  v_poll_byte : Z;
  v_max_retx_threshold : Z
}.

(** Default values as in 9.2.1 of 38.331. *)
Definition default_values : am_values := mk_am_values 45 35 0 (-1) (-1) 8.

Definition decode_am (c : NR_RLC_Config_am) : res am_values :=
  t_reassembly ← decode_t_reassembly (dl_t_Reassembly c);
  t_status_prohibit ← decode_t_status_prohibit (dl_t_StatusProhibit c);
  t_poll_retransmit ← decode_t_poll_retransmit (ul_t_PollRetransmit c);
  poll_pdu ← decode_poll_pdu (ul_pollPDU c);
  poll_byte ← decode_poll_byte (ul_pollByte c);
  max_retx_threshold ← decode_max_retx_threshold (ul_maxRetxThreshold c);
  mret (mk_am_values t_poll_retransmit t_reassembly t_status_prohibit poll_pdu poll_byte max_retx_threshold).

(** [*dl != *ul] is fatal; both pointers are read. *)
Definition same_length (dl ul : option Z) : res Z :=
  dl ← of_option NullDeref dl;
  ul ← of_option NullDeref ul;
  if dl =? ul then mret dl else Fault Exit.

(** The lengths in a reconfiguration: both or none, and equal. *)
Definition optional_length (decode : Z -> res Z) (dl ul : option Z) : res (option Z) :=
  match dl, ul with
  | Some dl, Some ul => _ ← dev_assert (dl =? ul); n ← decode dl; mret (Some n)
  | None, None => mret None
  | _, _ => Fault Exit
  end.

Definition new_am (v : am_values) (sn_field_length : Z) : res nr_rlc_entity :=
  EntityAM <$> Am.new_nr_rlc_entity_am RLC_RX_MAXSIZE RLC_TX_MAXSIZE (v_t_poll_retransmit v) (v_t_reassembly v)
    (v_t_status_prohibit v) (v_poll_pdu v) (v_poll_byte v) (v_max_retx_threshold v) sn_field_length.

(** [nr_rlc_entity_am_reconfigure] takes the entity for an AM entity. *)
Definition reconfigure_am (x : nr_rlc_entity) (v : am_values) (n : option Z) : res nr_rlc_entity :=
  match x with
  | EntityAM e =>
      mret (EntityAM (Am.nr_rlc_entity_am_reconfigure e (v_t_poll_retransmit v) (v_t_reassembly v)
              (v_t_status_prohibit v) (v_poll_pdu v) (v_poll_byte v) (v_max_retx_threshold v) n))
  | _ => Fault Exit
  end.

Definition reconfigure (c : option NR_RLC_Config_t) (x : nr_rlc_entity) : res nr_rlc_entity :=
  match c with
  | None => reconfigure_am x default_values (Some 12)
  | Some c =>
      match x with
      | EntityTM _ => Fault Exit
      | EntityAM _ =>
          match c with
          | NR_RLC_Config_PR_am am =>
              v ← decode_am am;
              n ← optional_length decode_sn_field_length_am (dl_sn_FieldLength am) (ul_sn_FieldLength am);
              reconfigure_am x v n
          | _ => Fault Exit
          end
      | EntityUM e =>
          match c with
          | NR_RLC_Config_PR_um_Bi_Directional um =>
              t_reassembly ← decode_t_reassembly (um_dl_t_Reassembly um);
              n ← optional_length decode_sn_field_length_um (um_dl_sn_FieldLength um) (um_ul_sn_FieldLength um);
              mret (EntityUM (Um.nr_rlc_entity_um_reconfigure e t_reassembly n))
          | _ => Fault Exit
          end
      end
  end.

(** An entity that does not exist is read through a null pointer. *)
Definition nr_rlc_reconfigure_entity (m : manager) (id lc_id : Z) (c : option NR_RLC_Config_t) : res manager :=
  '(m, _, found) ← with_entity m id (fun u => place_of_lcid u lc_id) false (fun x =>
     x ← reconfigure c x; mret (x, true));
  if (found : bool) then mret m else Fault NullDeref.

(** [ue->lcid2rb[logicalChannelIdentity - 1] = rb]. *)
Definition map_lcid (u : nr_rlc_ue_t) (c : NR_RLC_BearerConfig_t) (rb : nr_lcid_rb_t) : res nr_rlc_ue_t :=
  l ← zset (lcid2rb u) (logicalChannelIdentity c - 1) rb; mret {| u with lcid2rb := l |}.

Definition srb_values (c : NR_RLC_BearerConfig_t) : res (am_values * Z) :=
  match rlc_Config c with
  | Some (NR_RLC_Config_PR_am am) =>
      v ← decode_am am;
      n ← same_length (dl_sn_FieldLength am) (ul_sn_FieldLength am);
      n ← decode_sn_field_length_am n;
      mret (v, n)
  | _ => mret (default_values, 12)
  end.

Definition nr_rlc_add_srb (m : manager) (id srb_id : Z) (c : NR_RLC_BearerConfig_t) : res manager :=
  _ ← dev_assert ((srb_id >? 0) && (srb_id <? 4));
  '(v, n) ← srb_values c;
  let '(m, i, u) := nr_rlc_manager_get_ue m id in
  match servedRadioBearer c with
  | Some (PR_srb_Identity k) =>
      u ← map_lcid u c (NR_LCID_SRB k);
      o ← zget (srb u) (srb_id - 1);
      match o with
      | Some _ => mret (set_ue m i u)
      | None =>
          x ← new_am v n;
          u ← nr_rlc_ue_add_srb_rlc_entity u srb_id x;
          mret (set_ue m i u)
      end
  | _ => Fault Exit
  end.

(** The common end of [add_drb_am] and [add_drb_um]. *)
Definition add_drb (m : manager) (id drb_id : Z) (c : NR_RLC_BearerConfig_t) (new : res nr_rlc_entity)
    : res manager :=
  let '(m, i, u) := nr_rlc_manager_get_ue m id in
  match servedRadioBearer c with
  | Some (PR_drb_Identity k) =>
      u ← map_lcid u c (NR_LCID_DRB k);
      o ← zget (drb u) (drb_id - 1);
      match o with
      | Some _ => mret (set_ue m i u)
      | None =>
          x ← new;
          u ← nr_rlc_ue_add_drb_rlc_entity u drb_id x;
          mret (set_ue m i u)
      end
  | _ => Fault Exit
  end.

Definition add_drb_am (m : manager) (id drb_id : Z) (c : NR_RLC_BearerConfig_t) (am : NR_RLC_Config_am)
    : res manager :=
  _ ← dev_assert ((drb_id >? 0) && (drb_id <=? MAX_DRBS_PER_UE));
  v ← decode_am am;
  n ← same_length (dl_sn_FieldLength am) (ul_sn_FieldLength am);
  n ← decode_sn_field_length_am n;
  add_drb m id drb_id c (new_am v n).

Definition add_drb_um (m : manager) (id drb_id : Z) (c : NR_RLC_BearerConfig_t) (um : NR_RLC_Config_um)
    : res manager :=
  _ ← dev_assert ((drb_id >? 0) && (drb_id <=? MAX_DRBS_PER_UE));
  t_reassembly ← decode_t_reassembly (um_dl_t_Reassembly um);
  n ← same_length (um_dl_sn_FieldLength um) (um_ul_sn_FieldLength um);
  n ← decode_sn_field_length_um n;
  add_drb m id drb_id c (EntityUM <$> Um.new_nr_rlc_entity_um RLC_RX_MAXSIZE RLC_TX_MAXSIZE t_reassembly n).

Definition nr_rlc_add_drb (m : manager) (id drb_id : Z) (c : NR_RLC_BearerConfig_t) : res manager :=
  match rlc_Config c with
  | None => Fault NullDeref
  | Some (NR_RLC_Config_PR_am am) => add_drb_am m id drb_id c am
  | Some (NR_RLC_Config_PR_um_Bi_Directional um) => add_drb_um m id drb_id c um
  | Some NR_RLC_Config_PR_other => Fault Exit
  end.

Definition nr_rlc_activate_srb0 (m : manager) (id data callback : Z) : res (manager * bool) :=
  let '(m, i, u) := nr_rlc_manager_get_ue m id in
  match srb0 u with
  | Some _ => mret (m, false)
  | None =>
      x ← Tm.new_nr_rlc_entity_tm 10000;
      u ← nr_rlc_ue_add_srb0 u (EntityTM x) (mk_srb0 id data callback);
      mret (set_ue m i u, true)
  end.

(** ** Other functions *)

Definition nr_rlc_remove_ue (m : manager) (id : Z) : manager := nr_rlc_manager_remove_ue m id.

(** The UE gets its new identifier, then SRB1 is re-established. *)
Definition nr_rlc_update_id (m : manager) (from_id to_id : Z) : res (manager * bool) :=
  let '(m, i, u) := nr_rlc_manager_get_ue m from_id in
  let u := {| u with ue_id := to_id |} in
  o ← zget (srb u) 0;
  match o with
  | None => mret (set_ue m i u, true)
  | Some x => x ← reestablishment x; mret (set_ue m i (put_at u (Srb 0) (Some x)), true)
  end.

Definition nr_rlc_test_trigger_reestablishment (m : manager) (id : Z) : res manager :=
  let '(m, i, u) := nr_rlc_manager_get_ue m id in
  o ← zget (srb u) 0;
  x ← of_option NullDeref o;
  x ← reestablishment x;
  let u := put_at u (Srb 0) (Some x) in
  o ← zget (drb u) 0;
  match o with
  | None => mret (set_ue m i u)
  | Some y => y ← reestablishment y; mret (set_ue m i (put_at u (Drb 0) (Some y)))
  end.

Definition nr_rlc_ms_tick (m : manager) : manager :=
  {| m with nr_rlc_current_time := u64 (nr_rlc_current_time m + 1) |}.

Definition upd_common (f : Entity.nr_rlc_entity_t -> Entity.nr_rlc_entity_t) (x : nr_rlc_entity) : nr_rlc_entity :=
  match x with
  | EntityTM e => EntityTM {| e with Tm.common := f (Tm.common e) |}
  | EntityUM e => EntityUM {| e with Um.common := f (Um.common e) |}
  | EntityAM e => EntityAM {| e with Am.common := f (Am.common e) |}
  end.

(** Channels 1 to 3 are SRBs and channels 4 to 8 the first DRBs here, whatever
    [lcid2rb] says. *)
Definition nr_rlc_activate_avg_time_to_tx (m : manager) (id channel_id : Z) (is_on : bool) : res manager :=
  '(m, _, _) ← with_entity m id (fun _ => mret (
       if (1 <=? channel_id) && (channel_id <=? 3) then Some (Srb (channel_id - 1))
       else if (4 <=? channel_id) && (channel_id <=? 8) then Some (Drb (channel_id - 4)) else None)) tt
     (fun x => mret (upd_common (fun c =>
        {| c with Entity.avg_time_is_on := is_on;
                  Entity.txsdu_avg_time_to_tx := TimeStat.time_average_reset (Entity.txsdu_avg_time_to_tx c) |}) x,
        tt));
  mret m.

(** The statistics of the entity, the waiting time, the average, and [rxbuf_occ_bytes],
    [txbuf_occ_bytes]. *)
Definition nr_rlc_get_statistics (time_now : Z) (m : manager) (id : Z) (srb_flag : bool) (rb_id : Z)
    : res (manager * option (Entity.nr_rlc_statistics_t * Z * (Z * Z) * Z * Z)) :=
  '(m, _, r) ← with_entity m id (fun _ => mret (place_of_rb 5 srb_flag rb_id)) None (fun x =>
     '(s, wt, avg, x) ← nr_rlc_entity_get_stats time_now x;
     b ← buffer_status x (1000 * 1000);
     mret (x, Some (s, wt, avg, u32 (Entity.status_size b), u32 (Entity.tx_size b + Entity.retx_size b))));
  mret (m, r).

(** [inited] and [inited_ue]: the layer is initialised once for each side.  The clock
    [now] is not reset. *)
Definition nr_rlc_module_init (inited inited_ue : bool) (now : Z) (m : nr_rlc_op_mode_t)
    : res (bool * bool * manager) :=
  let gnb_flag := negb (bool_decide (m = NR_RLC_OP_MODE_UE)) in
  if gnb_flag && inited then Fault Exit
  else if negb gnb_flag && inited_ue then Fault Exit
  else mret (if gnb_flag then true else inited, if gnb_flag then inited_ue else true,
             {| (new_nr_rlc_ue_manager m) with nr_rlc_current_time := now |}).
End node.
End RlcUe.
