(* ===== verification/RlcUeSpec.v ===== *)
(** * RLC: the table of UEs as a map

    [ue_of] sees the list of UEs as a total map: a UE that is not in the list has no
    entity, which is what [nr_rlc_manager_get_ue] makes of it.  A function that works on
    an entity through the table is a function on one UE ([on_ue]); the table adds the
    frame: every other UE keeps its entities, and a fault of the entity is a fault of
    the function. *)

From S2P Require Import Prelude Asn1 F1apIds Events RlcEntity RlcUm RlcAm RlcApi RlcUe.

Module RlcUeSpec.
Import Asn1 Events RlcUe.

Record ue_wf (u : nr_rlc_ue_t) : Prop := {
  srb_places : length (srb u) = 3%nat;
  drb_places : length (drb u) = 32%nat;
  channels : length (lcid2rb u) = 32%nat
}.

Record wf (m : manager) : Prop := {
  ids_unique : NoDup (map ue_id (ue_list m));
  ues_wf : Forall ue_wf (ue_list m)
}.

Definition ue_of (m : manager) (id : Z) : nr_rlc_ue_t :=
  default (new_ue id) (UeTable.find ue_id (ue_list m) id).

(** The part of the manager that is not the list. *)
Definition settings (m : manager) : nr_rlc_op_mode_t * Z := (mode m, nr_rlc_current_time m).

(** [m'] is [m], but for one UE. *)
Record changed (m m' : manager) (id : Z) (u : nr_rlc_ue_t) : Prop := {
  ch_wf : wf m';
  ch_settings : settings m' = settings m;
  ch_ues : forall id', ue_of m' id' = if decide (id' = id) then u else ue_of m id'
}.

(** ** Places *)

Lemma new_ue_wf id : ue_wf (new_ue id).
Proof. by split. Qed.

Lemma ue_of_id m id : wf m -> ue_id (ue_of m id) = id /\ ue_wf (ue_of m id).
Proof.
  intros [Hn Hw]. unfold ue_of. destruct (UeTable.find ue_id (ue_list m) id) as [u|] eqn:E; cbn [default from_option].
  - apply UeTable.find_in in E as [Hin Hk]; [|done]. split; [done|]. by apply (proj1 (Forall_forall _ _) Hw).
  - split; [done|apply new_ue_wf].
Qed.

Lemma put_at_wf u p x : ue_wf u -> ue_wf (put_at u p x) /\ ue_id (put_at u p x) = ue_id u.
Proof. intros [H1 H2 H3]. destruct p; (split; [split; cbn; by rewrite ?length_insert|done]). Qed.

(** ** The table *)

Lemma rlc_get_ue_ok m id : wf m -> exists m' i,
  nr_rlc_manager_get_ue m id = (m', i, ue_of m id) /\ changed m m' id (ue_of m id) /\
  ue_list m' !! i = Some (ue_of m id).
Proof.
  intros Hm. pose proof Hm as [Hn Hw]. unfold nr_rlc_manager_get_ue, ue_of at 1 3.
  unfold UeTable.find. destruct (list_find (fun u => ue_id u = id) (ue_list m)) as [[i u]|] eqn:E; cbn.
  - exists m, i. pose proof (proj1 (list_find_Some _ _ _ _) E) as (Hi & Hk & _).
    split; [done|]. split; [|done]. split; [done|done|]. intros id'. case_decide; [congruence|done].
  - assert (Hf : UeTable.find ue_id (ue_list m) id = None) by (unfold UeTable.find; by rewrite E).
    destruct (UeTable.find_snoc ue_id (ue_list m) (new_ue id) Hn Hf) as [Hn' Hfind].
    eexists _, _. split; [done|]. cbn [ue_list]. split; [|by rewrite lookup_app_r, Nat.sub_diag by lia].
    split; [|done|].
    + split; [done|]. apply Forall_app. split; [done|]. by repeat constructor.
    + intros id'. unfold ue_of. cbn [ue_list]. rewrite Hfind. cbn [ue_id new_ue].
      case_decide; [subst; by rewrite Hf|done].
Qed.

(** A UE changed in its place. *)
Lemma alter_ok m i u f : wf m -> ue_list m !! i = Some u -> ue_id (f u) = ue_id u -> ue_wf (f u) ->
  changed m {| m with ue_list := alter f i (ue_list m) |} (ue_id u) (f u).
Proof.
  intros [Hn Hw] Hi Hk Hu. destruct (UeTable.find_alter ue_id f _ i u Hn Hi Hk) as [Hn' Hfind].
  split; [|done|].
  - split; [done|]. apply Forall_alter; [done|]. intros v Hv. by rewrite Hi in Hv; injection Hv as <-.
  - intros id'. unfold ue_of. cbn [ue_list]. rewrite Hfind. by case_decide.
Qed.

Lemma changed_trans m m1 m2 id u1 u2 : changed m m1 id u1 -> changed m1 m2 id u2 -> changed m m2 id u2.
Proof.
  intros [H1 S1 U1] [H2 S2 U2]. split; [done|congruence|]. intros id'. rewrite U2, U1. by case_decide.
Qed.

Section entry.
Context (du2cu : F1apIds.table).

Lemma callback_mode m m' u p c : mode m' = mode m -> callback du2cu m' u p c = callback du2cu m u p c.
Proof.
  intros E. unfold callback, deliver_sdu, nr_rlc_manager_get_gnb_flag, nr_rlc_manager_rlc_is_split.
  by rewrite E.
Qed.

Lemma callbacks_mode m m' u p l : mode m' = mode m -> callbacks du2cu m' u p l = callbacks du2cu m u p l.
Proof.
  intros E. induction l as [|c l IH]; cbn [callbacks]; [done|]. by rewrite (callback_mode m m'), IH.
Qed.

(** A function of an entity, on one UE. *)
Definition on_ue {B} (m : manager) (u : nr_rlc_ue_t) (sel : nr_rlc_ue_t -> res (option place)) (none : B)
    (f : nr_rlc_entity -> res (nr_rlc_entity * B)) : res (nr_rlc_ue_t * list event * B) :=
  p ← sel u;
  match p with
  | None => mret (u, [], none)
  | Some p =>
      o ← entity_at u p;
      match o with
      | None => mret (u, [], none)
      | Some x =>
          '(x', b) ← f x;
          ev ← callbacks du2cu m u p (new_calls x x');
          mret (put_at u p (Some x'), ev, b)
      end
  end.

(** The same function through the table. *)
Lemma rlc_with_entity_ok {B} m id sel (none : B) f : wf m ->
  match on_ue m (ue_of m id) sel none f with
  | Ok (u, ev, b) => exists m', with_entity du2cu m id sel none f = Ok (m', ev, b) /\ changed m m' id u
  | Fault y => with_entity du2cu m id sel none f = Fault y
  end.
Proof.
  intros Hm. destruct (rlc_get_ue_ok m id Hm) as (m1 & i & E & Hc & Hi). unfold with_entity, on_ue. rewrite E.
  destruct (ue_of_id m id Hm) as [Hid Hu]. destruct (sel (ue_of m id)) as [[p|]|y]; cbn [mbind res_bind]; [| |done].
  2: by exists m1.
  destruct (entity_at (ue_of m id) p) as [[x|]|y]; cbn [mbind res_bind]; [| |done].
  2: by exists m1.
  destruct (f x) as [[x' b]|y]; cbn [mbind res_bind]; [|done].
  assert (Hmode : mode m1 = mode m) by (pose proof (ch_settings _ _ _ _ Hc); unfold settings in *; congruence).
  rewrite (callbacks_mode m m1) by done.
  destruct (callbacks du2cu m (ue_of m id) p (new_calls x x')) as [ev|y]; cbn [mbind res_bind]; [|done].
  eexists. split; [done|]. apply (changed_trans _ m1 _ _ (ue_of m id)); [done|].
  destruct (put_at_wf (ue_of m id) p (Some x') Hu) as [Hu' Hk].
  pose proof (alter_ok m1 i (ue_of m id) (fun u => put_at u p (Some x')) (ch_wf _ _ _ _ Hc) Hi Hk Hu') as Ha.
  by rewrite Hid in Ha.
Qed.
End entry.

(** ** Setting up a DRB *)

(** Enumerated values that RRC can carry. *)
Definition value_ok (tab : list Z) (v : Z) : Prop := 0 <= v < zlen tab.

Lemma decode_total tab v : value_ok tab v -> exists x, decode_value tab v = Ok x /\ tab !! Z.to_nat v = Some x.
Proof.
  intros Hv. destruct (lookup_lt_is_Some_2 tab (Z.to_nat v)) as [x Hx]; [unfold value_ok, zlen in Hv; lia|].
  exists x. split; [|done]. apply decode_ok. split; [apply Hv|done].
Qed.

Definition same_length_ok (tab : list Z) (dl ul : option Z) : Prop :=
  dl = ul /\ exists n, ul = Some n /\ value_ok tab n.

Definition config_ok (c : NR_RLC_Config_t) : Prop :=
  match c with
  | NR_RLC_Config_PR_am a =>
      same_length_ok VALUES_NR_RLC_SN_FIELD_LENGTH_AM (dl_sn_FieldLength a) (ul_sn_FieldLength a) /\
      value_ok VALUES_NR_RLC_T_REASSEMBLY (dl_t_Reassembly a) /\
      value_ok VALUES_NR_RLC_T_STATUS_PROHIBIT (dl_t_StatusProhibit a) /\
      value_ok VALUES_NR_RLC_T_POLL_RETRANSMIT (ul_t_PollRetransmit a) /\
      value_ok VALUES_NR_RLC_POLL_PDU (ul_pollPDU a) /\
      value_ok VALUES_NR_RLC_POLL_BYTE (ul_pollByte a) /\
      value_ok VALUES_NR_RLC_MAX_RETX_THRESHOLD (ul_maxRetxThreshold a)
  | NR_RLC_Config_PR_um_Bi_Directional u =>
      same_length_ok VALUES_NR_RLC_SN_FIELD_LENGTH_UM (um_dl_sn_FieldLength u) (um_ul_sn_FieldLength u) /\
      value_ok VALUES_NR_RLC_T_REASSEMBLY (um_dl_t_Reassembly u)
  | NR_RLC_Config_PR_other => False
  end.

(** The configuration of a DRB, as RRC sends it. *)
Record drb_config (drb_id : Z) (c : NR_RLC_BearerConfig_t) (cfg : NR_RLC_Config_t) : Prop := {
  dc_drb : 1 <= drb_id <= MAX_DRBS_PER_UE;
  dc_served : servedRadioBearer c = Some (PR_drb_Identity drb_id);
  dc_lcid : 1 <= logicalChannelIdentity c <= 32;
  dc_config : rlc_Config c = Some cfg;
  dc_ok : config_ok cfg
}.

(** A new entity with the values of the configuration. *)
Definition created (c : NR_RLC_Config_t) (x : nr_rlc_entity) : Prop :=
  match c, x with
  | NR_RLC_Config_PR_am a, EntityAM e => exists n v,
      new_am v n = Ok x /\
      (VALUES_NR_RLC_SN_FIELD_LENGTH_AM !! Z.to_nat (default 0 (dl_sn_FieldLength a)),
       VALUES_NR_RLC_T_POLL_RETRANSMIT !! Z.to_nat (ul_t_PollRetransmit a),
       VALUES_NR_RLC_T_REASSEMBLY !! Z.to_nat (dl_t_Reassembly a),
       VALUES_NR_RLC_T_STATUS_PROHIBIT !! Z.to_nat (dl_t_StatusProhibit a),
       VALUES_NR_RLC_POLL_PDU !! Z.to_nat (ul_pollPDU a),
       VALUES_NR_RLC_POLL_BYTE !! Z.to_nat (ul_pollByte a),
       VALUES_NR_RLC_MAX_RETX_THRESHOLD !! Z.to_nat (ul_maxRetxThreshold a))
      = (Some n, Some (v_t_poll_retransmit v), Some (v_t_reassembly v), Some (v_t_status_prohibit v),
         Some (v_poll_pdu v), Some (v_poll_byte v), Some (v_max_retx_threshold v))
  | NR_RLC_Config_PR_um_Bi_Directional u, EntityUM e => exists n t,
      Um.new_nr_rlc_entity_um RLC_RX_MAXSIZE RLC_TX_MAXSIZE t n = Ok e /\
      (VALUES_NR_RLC_SN_FIELD_LENGTH_UM !! Z.to_nat (default 0 (um_dl_sn_FieldLength u)),
       VALUES_NR_RLC_T_REASSEMBLY !! Z.to_nat (um_dl_t_Reassembly u)) = (Some n, Some t)
  | _, _ => False
  end.

(** The UE with the DRB: the channel leads to it; an entity that is there stays. *)
Definition with_drb (u : nr_rlc_ue_t) (lcid drb_id : Z) (x : nr_rlc_entity) : nr_rlc_ue_t :=
  {| u with lcid2rb := <[Z.to_nat (lcid - 1) := NR_LCID_DRB drb_id]> (lcid2rb u);
            drb := <[Z.to_nat (drb_id - 1) := Some (default x (mjoin (drb u !! Z.to_nat (drb_id - 1))))]> (drb u) |}.

Lemma with_drb_wf u lcid drb_id x : ue_wf u -> ue_wf (with_drb u lcid drb_id x).
Proof. intros [H1 H2 H3]. split; cbn; by rewrite ?length_insert. Qed.

Lemma zget_total {A} (l : list A) i n : length l = n -> 0 <= i < Z.of_nat n -> exists x,
  zget l i = Ok x /\ l !! Z.to_nat i = Some x.
Proof.
  intros Hl Hi. destruct (lookup_lt_is_Some_2 l (Z.to_nat i)) as [x Hx]; [lia|].
  exists x. split; [|done]. apply zget_ok. split; [lia|done].
Qed.

Lemma add_drb_ok m id drb_id c cfg x : wf m -> drb_config drb_id c cfg -> exists m',
  add_drb m id drb_id c (Ok x) = Ok m' /\
  changed m m' id (with_drb (ue_of m id) (logicalChannelIdentity c) drb_id x).
Proof.
  intros Hm [Hd Hs Hl _ _]. unfold MAX_DRBS_PER_UE in Hd.
  destruct (rlc_get_ue_ok m id Hm) as (m1 & i & E & Hc & Hi). destruct (ue_of_id m id Hm) as [Hid Hu].
  set (u := ue_of m id) in *. pose proof Hu as [H1 H2 H3].
  assert (Hall : forall u', ue_wf u' -> ue_id u' = ue_id u -> changed m (set_ue m1 i u') id u').
  { intros u' Hu' Hk. apply (changed_trans _ m1 _ _ u); [done|].
    pose proof (alter_ok m1 i u (fun _ => u') (ch_wf _ _ _ _ Hc) Hi Hk Hu') as Ha. by rewrite Hid in Ha. }
  unfold add_drb. rewrite E, Hs. unfold map_lcid.
  rewrite zset_ok, !res_bind_unfold by (unfold zlen; rewrite H3; lia). cbn [mret res_ret drb].
  destruct (zget_total (drb u) (drb_id - 1) 32 H2) as (o & Eo & Ho); [lia|]. rewrite Eo, res_bind_unfold.
  assert (Hu' : changed m (set_ue m1 i (with_drb u (logicalChannelIdentity c) drb_id x)) id
    (with_drb u (logicalChannelIdentity c) drb_id x)) by (apply Hall; [by apply with_drb_wf|done]).
  eexists. split; [|exact Hu']. unfold with_drb. rewrite Ho. destruct o as [y|].
  - cbn. by rewrite (list_insert_id (drb u)).
  - unfold nr_rlc_ue_add_drb_rlc_entity, MAX_DRBS_PER_UE, add_to. rewrite ?res_bind_unfold, ?res_ret_bind.
    destruct (Z.ltb_spec drb_id 1), (Z.gtb_spec drb_id 32); cbn [orb]; try lia. cbn [drb].
    by rewrite Eo, res_bind_unfold, zset_ok by (unfold zlen; rewrite H2; lia).
Qed.

(** What the channel leads to. *)
Lemma with_drb_place u lcid drb_id x : ue_wf u -> 1 <= lcid <= 32 ->
  place_of_lcid (with_drb u lcid drb_id x) lcid = Ok (Some (Drb (drb_id - 1))).
Proof.
  intros [_ _ H3] Hl. unfold place_of_lcid, with_drb. cbn [lcid2rb]. destruct (Z.eqb_spec lcid 0); [lia|].
  rewrite (proj2 (zget_ok _ _ (NR_LCID_DRB drb_id))); [done|]. split; [lia|].
  apply list_lookup_insert_eq. lia.
Qed.

Lemma with_drb_entity u lcid drb_id x : ue_wf u -> 1 <= lcid <= 32 -> 1 <= drb_id <= MAX_DRBS_PER_UE ->
  get_rlc_entity_from_lcid (with_drb u lcid drb_id x) lcid
  = Ok (Some (default x (mjoin (drb u !! Z.to_nat (drb_id - 1))))).
Proof.
  intros Hu Hl Hd. unfold get_rlc_entity_from_lcid. rewrite with_drb_place, res_bind_unfold by done.
  unfold MAX_DRBS_PER_UE in Hd. destruct Hu as [_ H2 _]. cbn [entity_at with_drb drb].
  apply zget_ok. split; [lia|]. apply list_lookup_insert_eq. lia.
Qed.

(** *** The entity *)

Lemma new_common_total md : exists c, Entity.new_common md = Ok c.
Proof. destruct md; eexists; reflexivity. Qed.

Lemma new_um_total t n : n ∈ VALUES_NR_RLC_SN_FIELD_LENGTH_UM -> exists e,
  Um.new_nr_rlc_entity_um RLC_RX_MAXSIZE RLC_TX_MAXSIZE t n = Ok e.
Proof.
  intros Hn. destruct (new_common_total Entity.NR_RLC_UM) as [c Hc]. unfold Um.new_nr_rlc_entity_um.
  assert ((n =? 6) || (n =? 12) = true) as -> by (unfold VALUES_NR_RLC_SN_FIELD_LENGTH_UM in Hn; set_solver by lia).
  rewrite Hc. by eexists.
Qed.

Lemma new_am_total v n : n ∈ VALUES_NR_RLC_SN_FIELD_LENGTH_AM -> exists e, new_am v n = Ok (EntityAM e).
Proof.
  intros Hn. destruct (new_common_total Entity.NR_RLC_AM) as [c Hc]. unfold new_am, Am.new_nr_rlc_entity_am.
  assert ((n =? 12) || (n =? 18) = true) as -> by (unfold VALUES_NR_RLC_SN_FIELD_LENGTH_AM in Hn; set_solver by lia).
  rewrite Hc. by eexists.
Qed.

Lemma same_length_total tab dl ul : same_length_ok tab dl ul -> exists k n,
  same_length dl ul = Ok k /\ decode_value tab k = Ok n /\ tab !! Z.to_nat (default 0 dl) = Some n.
Proof.
  intros (-> & k & -> & Hk). destruct (decode_total tab k Hk) as (n & E & Hn). exists k, n.
  split; [|done]. unfold same_length. cbn [of_option]. rewrite !res_bind_unfold. by rewrite Z.eqb_refl.
Qed.

Lemma rlc_add_drb_ok m id drb_id c cfg : wf m -> drb_config drb_id c cfg -> exists m' x,
  nr_rlc_add_drb m id drb_id c = Ok m' /\ created cfg x /\
  changed m m' id (with_drb (ue_of m id) (logicalChannelIdentity c) drb_id x).
Proof.
  intros Hm Hc. pose proof Hc as [Hd _ _ Hcfg Hok]. unfold nr_rlc_add_drb. rewrite Hcfg.
  assert (Hassert : dev_assert ((drb_id >? 0) && (drb_id <=? MAX_DRBS_PER_UE)) = mret tt)
    by (apply dev_assert_ok; lia).
  destruct cfg as [a|u|]; [| |done]; cbn [config_ok] in Hok.
  - destruct Hok as (Hlen & H1 & H2 & H3 & H4 & H5 & H6).
    destruct (same_length_total _ _ _ Hlen) as (k & n & E0 & E0' & L0).
    destruct (decode_total _ _ H1) as (v1 & E1 & L1), (decode_total _ _ H2) as (v2 & E2 & L2).
    destruct (decode_total _ _ H3) as (v3 & E3 & L3), (decode_total _ _ H4) as (v4 & E4 & L4).
    destruct (decode_total _ _ H5) as (v5 & E5 & L5), (decode_total _ _ H6) as (v6 & E6 & L6).
    set (v := mk_am_values v3 v1 v2 v4 v5 v6).
    destruct (new_am_total v n) as (e & Ee); [by eapply list_elem_of_lookup_2|].
    destruct (add_drb_ok m id drb_id c _ (EntityAM e) Hm Hc) as (m' & Em & Hch).
    exists m', (EntityAM e). unfold add_drb_am, decode_am.
    unfold decode_t_reassembly, decode_t_status_prohibit, decode_t_poll_retransmit, decode_poll_pdu,
      decode_poll_byte, decode_max_retx_threshold, decode_sn_field_length_am.
    rewrite Hassert, res_ret_bind, E1, E2, E3, E4, E5, E6, !res_bind_unfold, ?res_ret_bind, E0, res_bind_unfold, E0',
      res_bind_unfold. fold v. rewrite Ee. split; [done|]. split; [|done].
    exists n, v. split; [done|]. by rewrite L0, L1, L2, L3, L4, L5, L6.
  - destruct Hok as (Hlen & H1). destruct (same_length_total _ _ _ Hlen) as (k & n & E0 & E0' & L0).
    destruct (decode_total _ _ H1) as (v1 & E1 & L1).
    destruct (new_um_total v1 n) as (e & Ee); [by eapply list_elem_of_lookup_2|].
    destruct (add_drb_ok m id drb_id c _ (EntityUM e) Hm Hc) as (m' & Em & Hch).
    exists m', (EntityUM e). unfold add_drb_um, decode_t_reassembly, decode_sn_field_length_um.
    rewrite Hassert, res_ret_bind, E1, res_bind_unfold, E0, res_bind_unfold, E0', res_bind_unfold, Ee.
    split; [done|]. split; [|done]. exists n, v1. by rewrite L0, L1.
Qed.

(** *** Configurations that the code does not accept *)

Definition length_ok (tab : list Z) (o : option Z) : Prop :=
  match o with Some v => value_ok tab v | None => True end.

(** A configuration that RRC can carry: the SN lengths are optional, and the two
    directions may have different ones. *)
Definition carried (c : NR_RLC_Config_t) : Prop :=
  match c with
  | NR_RLC_Config_PR_am a =>
      length_ok VALUES_NR_RLC_SN_FIELD_LENGTH_AM (dl_sn_FieldLength a) /\
      length_ok VALUES_NR_RLC_SN_FIELD_LENGTH_AM (ul_sn_FieldLength a) /\
      value_ok VALUES_NR_RLC_T_REASSEMBLY (dl_t_Reassembly a) /\
      value_ok VALUES_NR_RLC_T_STATUS_PROHIBIT (dl_t_StatusProhibit a) /\
      value_ok VALUES_NR_RLC_T_POLL_RETRANSMIT (ul_t_PollRetransmit a) /\
      value_ok VALUES_NR_RLC_POLL_PDU (ul_pollPDU a) /\
      value_ok VALUES_NR_RLC_POLL_BYTE (ul_pollByte a) /\
      value_ok VALUES_NR_RLC_MAX_RETX_THRESHOLD (ul_maxRetxThreshold a)
  | NR_RLC_Config_PR_um_Bi_Directional u =>
      length_ok VALUES_NR_RLC_SN_FIELD_LENGTH_UM (um_dl_sn_FieldLength u) /\
      length_ok VALUES_NR_RLC_SN_FIELD_LENGTH_UM (um_ul_sn_FieldLength u) /\
      value_ok VALUES_NR_RLC_T_REASSEMBLY (um_dl_t_Reassembly u)
  | NR_RLC_Config_PR_other => True
  end.

Record drb_request (drb_id : Z) (c : NR_RLC_BearerConfig_t) (cfg : NR_RLC_Config_t) : Prop := {
  dr_drb : 1 <= drb_id <= MAX_DRBS_PER_UE;
  dr_served : servedRadioBearer c = Some (PR_drb_Identity drb_id);
  dr_lcid : 1 <= logicalChannelIdentity c <= 32;
  dr_config : rlc_Config c = Some cfg;
  dr_ok : carried cfg
}.

(** What stops the set-up, if anything does: a bearer of one direction only, an SN
    length that is not there, or two lengths that differ. *)
Definition refused (c : NR_RLC_Config_t) : option fault :=
  match c with
  | NR_RLC_Config_PR_am (mk_am_config (Some dl) _ _ (Some ul) _ _ _ _)
  | NR_RLC_Config_PR_um_Bi_Directional (mk_um_config (Some dl) _ (Some ul)) =>
      if dl =? ul then None else Some Exit
  | NR_RLC_Config_PR_other => Some Exit
  | _ => Some NullDeref
  end.

Lemma request_config drb_id c cfg : drb_request drb_id c cfg -> refused cfg = None -> drb_config drb_id c cfg.
Proof.
  intros [Hd Hs Hl Hc Hok] Hr. split; try done.
  destruct cfg as [[dl ? ? ul ? ? ? ?]|[dl ? ul]|]; [| |done]; destruct dl as [dl|], ul as [ul|]; try done;
    cbn in Hr; destruct (Z.eqb_spec dl ul) as [->|]; try done; destruct Hok as (H0 & _ & Hok);
    (split; [split; [done|by exists ul]|exact Hok]).
Qed.

Lemma decode_am_total a : carried (NR_RLC_Config_PR_am a) -> exists v, decode_am a = Ok v.
Proof.
  intros (_ & _ & H1 & H2 & H3 & H4 & H5 & H6).
  destruct (decode_total _ _ H1) as (v1 & E1 & _), (decode_total _ _ H2) as (v2 & E2 & _).
  destruct (decode_total _ _ H3) as (v3 & E3 & _), (decode_total _ _ H4) as (v4 & E4 & _).
  destruct (decode_total _ _ H5) as (v5 & E5 & _), (decode_total _ _ H6) as (v6 & E6 & _).
  unfold decode_am, decode_t_reassembly, decode_t_status_prohibit, decode_t_poll_retransmit, decode_poll_pdu,
    decode_poll_byte, decode_max_retx_threshold.
  rewrite E1, E2, E3, E4, E5, E6. by eexists.
Qed.

Lemma rlc_add_drb_refused m id drb_id c cfg y : drb_request drb_id c cfg -> refused cfg = Some y ->
  nr_rlc_add_drb m id drb_id c = Fault y.
Proof.
  intros [Hd Hs Hl Hc Hok] Hr. unfold nr_rlc_add_drb. rewrite Hc.
  assert (Ha : dev_assert ((drb_id >? 0) && (drb_id <=? MAX_DRBS_PER_UE)) = mret tt)
    by (apply dev_assert_ok; lia).
  destruct cfg as [a|u|]; [| |by injection Hr as <-].
  - destruct (decode_am_total a Hok) as (v & Ev). unfold add_drb_am. rewrite Ha, res_ret_bind, Ev, res_bind_unfold.
    destruct a as [dl ? ? ul ? ? ? ?]. destruct dl as [dl|], ul as [ul|]; cbn in Hr |- *;
      try destruct (dl =? ul); by simplify_eq.
  - destruct Hok as (_ & _ & Ht). destruct (decode_total _ _ Ht) as (t & Et & _).
    unfold add_drb_um, decode_t_reassembly. rewrite Ha, res_ret_bind, Et, res_bind_unfold.
    destruct u as [dl ? ul]. destruct dl as [dl|], ul as [ul|]; cbn in Hr |- *;
      try destruct (dl =? ul); by simplify_eq.
Qed.
End RlcUeSpec.
