(* ===== verification/RlcLink.v ===== *)
(** * RLC: two peers

    What an entity sends, seen by the entity of the other side: the PDUs that
    [generate_tx_pdu] and [generate_retx_pdu] write are PDUs of an honest peer in
    the sense of [AmRxSpec] and [UmRx], whatever the sizes of the grants.  The
    theorems on reception then apply to them. *)

From S2P Require Import Prelude TimeStat RlcPdu RlcSdu RlcRxManager RlcEntity RlcUm RlcUmTx.
From S2P Require Import RlcUmRx RlcAm RlcAmStatus RlcAmControl RlcAmRx RlcAmRxSpec RlcAmTx.
From S2P Require Import RlcAmTxInv RlcAmTxSpec RlcAmControlSpec RlcAmOrder RlcAmStatusSearch.
From S2P Require Import RlcAmStatusSpec RlcAmTimers.

Module Link.
Import Entity.

(** The first [k] bytes of a segment are a slice of its SDU. *)
Lemma piece_slice st s d k vsn first last :
  Store.sdus st !! Seg.sdu s = Some d -> Store.in_range d s -> 0 < k <= Seg.size s ->
  (last = true <-> Seg.so s + k = Sdu.size d) ->
  Chain.slice_of (Sdu.data d)
    (Pdu.nr_rlc_new_pdu vsn (Seg.so s) first last (take (Z.to_nat k) (Store.seg_bytes st s))).
Proof.
  intros Hd (Hsz & Hso & _ & Hend) Hk Hl.
  assert (Hlen : zlen (take (Z.to_nat k) (Store.seg_bytes st s)) = k).
  { unfold Store.seg_bytes. rewrite Hd. unfold zlen in *.
    rewrite !length_take, length_drop. lia. }
  constructor; simpl; rewrite ?Hlen; try lia; [by rewrite <- Hsz|].
  f_equal. unfold Store.seg_bytes. rewrite Hd, take_take. f_equal. lia.
Qed.

(** ** Acknowledged mode *)

Section am.
Import Am.
Context (e : t) (lost : list Seg.t) (s : Seg.t) (d : Sdu.t) (size : Z).
Context (Hwf : AmTxInv.wf e lost) (Hs : s ∈ tx_list e ++ wait_list e ++ retransmit_list e ++ lost)
  (Hd : Store.sdus (st e) !! Seg.sdu s = Some d)
  (Hroom : compute_pdu_header_size e s + 1 <= size) (Hpos : 0 < Seg.size s).

Let k := AmTxSpec.chunk e s size.
Let sg := AmTxSpec.sent e s size.

Lemma am_seg_facts :
  Store.in_range d s /\ Sdu.size d <= NR_SDU_MAX
  /\ (Seg.is_last s = true <-> Seg.so s + Seg.size s = Sdu.size d)
  /\ (if Seg.is_first s then Seg.so s = 0 else 0 < Seg.so s).
Proof using Hwf Hs Hd.
  destruct Hwf as [Hm _]. destruct (Store.deref_ok _ _ s (AmTxInv.m_store _ _ _ Hm) Hs)
    as (d0 & _ & L0 & Hr). assert (d0 = d) as -> by congruence.
  destruct (proj1 (Forall_forall _ _) (AmTxInv.m_segs _ _ _ Hm) s Hs) as (d0 & L1 & Hmax & Hl & Hf).
  assert (d0 = d) as -> by congruence. split_and!; try done.
  destruct (Seg.is_first s); [done|by destruct Hf].
Qed.

Lemma am_sent_facts :
  0 < k <= Seg.size s /\ Seg.so sg = Seg.so s /\ Seg.is_first sg = Seg.is_first s
  /\ (Seg.is_last sg = true <-> Seg.so s + k = Sdu.size d).
Proof using Hwf Hs Hd Hroom Hpos.
  destruct am_seg_facts as ((_ & _ & _ & Hend) & _ & Hl & _). unfold k, sg, AmTxSpec.sent, AmTxSpec.chunk.
  unfold AmTxInv.pdu_size. destruct (Z.leb_spec (compute_pdu_header_size e s + Seg.size s) size); simpl.
  - split_and!; try done; lia.
  - split_and!; try done; lia.
Qed.

(** The peer reads the segment, and it is a slice of the SDU. *)
Lemma am_pdu_honest D peer vsn p pdu :
  sn_field_length peer = sn_field_length e -> 0 <= vsn < sn_modulus e -> D vsn = Sdu.data d ->
  AmTxSpec.carries e sg vsn p pdu (take (Z.to_nat k) (Store.seg_bytes (st e) s)) ->
  AmRx.decode_header peer pdu
  = Ok (AmRx.DataPdu p vsn (Seg.so s) k (Seg.is_first sg) (Seg.is_last sg))
  /\ AmRxSpec.honest_pdu D peer pdu.
Proof using Hwf Hs Hd Hroom Hpos.
  intros Hlen Hsn HD Hc. destruct am_seg_facts as (Hr & Hmax & _ & Hf).
  destruct am_sent_facts as (Hk & Eso & Ef & El). pose proof Hr as (Hdat & Hso & _ & Hend).
  assert (Hz : zlen (take (Z.to_nat k) (Store.seg_bytes (st e) s)) = k).
  { unfold zlen. rewrite length_take. pose proof (Store.zlen_seg_bytes _ _ s
      (AmTxInv.m_store _ _ _ (proj1 Hwf)) Hs). unfold zlen in *. lia. }
  unfold NR_SDU_MAX in Hmax.
  destruct (AmTxSpec.carries_reads e peer sg vsn p pdu (take (Z.to_nat k) (Store.seg_bytes (st e) s)))
    as [Hread _]; rewrite ?Eso; try done; try lia; [apply Hwf| |].
  { rewrite Ef. intros Hff. by rewrite Hff in Hf. }
  rewrite Hz in Hread.
  assert (Hso' : (if Seg.is_first sg then 0 else Seg.so s) = Seg.so s).
  { rewrite Ef. by destruct (Seg.is_first s). }
  rewrite Eso, Hso' in Hread. split; [done|].
  intros p' sn' so' n' f' l' E'. rewrite Hread in E'. injection E' as <- <- <- <- <- <-.
  assert (Hdr : drop (Z.to_nat (zlen pdu - k)) pdu = take (Z.to_nat k) (Store.seg_bytes (st e) s)).
  { destruct Hc as (h & -> & _). rewrite zlen_app, Hz, Z.add_simpl_r. unfold zlen at 1.
    rewrite Nat2Z.id. apply drop_app_length. }
  rewrite Hdr, HD. split; [by apply piece_slice|unfold NR_SDU_MAX; lia].
Qed.

End am.

(** A segment that is a whole SDU completes its slot. *)
Lemma full_whole pdu :
  Pdu.so pdu = 0 -> Pdu.is_last pdu = true -> Pdu.data pdu <> None -> Chain.full [pdu] = true.
Proof.
  intros Hso Hl Hd. unfold Chain.full, Chain.delivered. simpl. destruct (Pdu.data pdu); [|done].
  by rewrite Hso, Hl.
Qed.

(** ** From one AM entity to its peer *)

Section am_link.
Import Am.

(** The SDUs [D] of the peer are those that [e] is about to send, and they are
    not empty. *)
Definition sends (D : Z -> list Z) (e : t) : Prop :=
  (forall s rest d, retransmit_list e = s :: rest -> Store.sdus (st e) !! Seg.sdu s = Some d ->
     D (Sdu.sn d) = Sdu.data d /\ 0 < Seg.size s)
  /\ (forall s rest d, tx_list e = s :: rest -> Store.sdus (st e) !! Seg.sdu s = Some d ->
     D (AmTxSpec.sn_of e s d) = Sdu.data d /\ 0 < Seg.size s).

Context (D : Z -> list Z) (e r : t) (size : Z) (Hwf : AmTxInv.wf e []) (HD : sends D e).
Context (Hlen : sn_field_length r = sn_field_length e).

(** What a grant for data makes the peer read. *)
Lemma am_answer_honest buffer n buffer' e' :
  AmEntity.answer e buffer size n buffer' e' -> status_to_report e = false \/ size < 3 -> n <> 0 ->
  AmRx.decode_header r (take (Z.to_nat n) buffer') <> Ok AmRx.ControlPdu
  /\ AmRxSpec.honest_pdu D r (take (Z.to_nat n) buffer').
Proof using Hwf HD Hlen.
  assert (Hrec : forall s d vsn p,
    s ∈ tx_list e ++ wait_list e ++ retransmit_list e ++ [] -> Store.sdus (st e) !! Seg.sdu s = Some d ->
    n = AmTxInv.pdu_size e (AmTxSpec.sent e s size) -> 0 < n <= size -> 0 < Seg.size s ->
    0 <= vsn < sn_modulus e -> D vsn = Sdu.data d ->
    AmTxSpec.carries e (AmTxSpec.sent e s size) vsn p (take (Z.to_nat n) buffer')
      (take (Z.to_nat (AmTxSpec.chunk e s size)) (Store.seg_bytes (st e) s)) ->
    compute_pdu_header_size e s + 1 <= size ->
    AmRx.decode_header r (take (Z.to_nat n) buffer') <> Ok AmRx.ControlPdu
    /\ AmRxSpec.honest_pdu D r (take (Z.to_nat n) buffer')).
  { intros s d vsn p Hs Hd Hn Hb Hpos Hv Hdat Hc Hroom.
    destruct (am_pdu_honest e [] s d size Hwf Hs Hd Hroom Hpos D r vsn p _ Hlen Hv Hdat Hc) as [H1 H2].
    split; [by rewrite H1|done]. }
  destruct HD as [HR HT].
  intros [Hst Hn _ _ _|s rest _ El Hroom H|s rest _ _ _ El Hroom H|_ _ _ Hn _ _] Hs Hne.
  - destruct Hs; [congruence|lia].
  - destruct H as (Hn & Hb & (d & p & Hd & Hc & _) & _). destruct (HR s rest d El Hd) as [Hdat Hpos].
    apply (Hrec s d (Sdu.sn d) p); try done; [rewrite El; set_solver|].
    destruct (proj1 (Forall_forall _ _) (AmTxInv.m_numbered _ _ _ (proj1 Hwf)) s) as (d0 & L0 & H0);
      [rewrite El; set_solver|]. congruence.
  - destruct H as (Hn & Hb & (d & p & Hd & Hc & _) & _). destruct (HT s rest d El Hd) as [Hdat Hpos].
    apply (Hrec s d (AmTxSpec.sn_of e s d) p); try done; [rewrite El; set_solver|].
    by apply (AmTxSpec.sn_of_range e [] s rest d).
  - done.
Qed.

(** A new SDU that fits the grant reaches a peer that has nothing of it yet. *)
Lemma am_answer_whole buffer n buffer' e' s rest d :
  AmEntity.answer e buffer size n buffer' e' -> status_to_report e = false \/ size < 3 ->
  retransmit_list e = [] -> is_window_stalling e = false -> tx_list e = s :: rest ->
  Store.sdus (st e) !! Seg.sdu s = Some d -> Seg.is_first s = true -> AmTxInv.pdu_size e s <= size ->
  AmRxSpec.accepts r (tx_next e) 0 (Seg.size s) = true ->
  AmRxSpec.slot_at r (AmRxSpec.off r (tx_next e)) = [] ->
  AmRxSpec.deliveries D r (take (Z.to_nat n) buffer') = [DeliverSdu (Sdu.data d)].
Proof using Hwf HD Hlen.
  intros Ha Hs Hre Hw El Hd Hf Hfit Hacc Hslot. destruct HD as [_ HT].
  destruct (HT s rest d El Hd) as [Hdat Hpos].
  destruct Ha as [Hst Hn _ _ _|s' rest' _ El' _ _|s' rest' _ _ _ El' Hroom H|_ _ [Hw'|Hno] _ _ _].
  - destruct Hs; [congruence|lia].
  - congruence.
  - rewrite El in El'. injection El' as <- <-. destruct H as (_ & _ & (d0 & p & Hd0 & Hc & _) & _).
    assert (d0 = d) as -> by congruence.
    assert (Hin : s ∈ tx_list e ++ wait_list e ++ retransmit_list e ++ []) by (rewrite El; set_solver).
    destruct (am_pdu_honest e [] s d size Hwf Hin Hd Hroom Hpos D r _ p _ Hlen
      (AmTxSpec.sn_of_range e [] s rest d Hwf El Hd) Hdat Hc) as [Hdec _].
    destruct (am_seg_facts e [] s d Hwf Hin Hd) as (_ & _ & _ & Hso). rewrite Hf in Hso.
    pose proof (AmTxInv.m_unsent _ _ _ (proj1 Hwf)) as Hu. rewrite El in Hu.
    apply Forall_cons in Hu as [(d1 & _ & Hlast & _) _].
    unfold AmRxSpec.deliveries. rewrite Hdec. unfold AmTxSpec.sn_of in Hdat |- *. rewrite Hf in Hdat |- *.
    unfold AmTxSpec.sent, AmTxSpec.chunk. destruct (Z.leb_spec (AmTxInv.pdu_size e s) size); [|lia].
    rewrite Hso, Hacc, Hlast. simpl andb. unfold AmRxSpec.with_segment. simpl Pdu.sn. rewrite Hslot.
    simpl Pdu.insert_before. by rewrite full_whole, Hdat.
  - congruence.
  - specialize (Hno s rest El). unfold AmTxInv.pdu_size in Hfit. lia.
Qed.

End am_link.

(** ** Unacknowledged mode *)

Section um.
Import Um.
Context (e : t) (s : Seg.t) (rest : list Seg.t) (d : Sdu.t) (size : Z).
Context (Hwf : UmTx.wf e) (El : tx_list e = s :: rest)
  (Hd : Store.sdus (st e) !! Seg.sdu s = Some d)
  (Hroom : compute_pdu_header_size e s + 1 <= size) (Hgrant : UmTx.grant_ok e size)
  (Hpos : 0 < Seg.size s).

Let k := UmTx.chunk e s size.
Let sg := UmTx.sent e s size.

Lemma um_seg_facts :
  Store.in_range d s /\ Sdu.size d <= NR_SDU_MAX /\ Seg.is_last s = true
  /\ Seg.so s + Seg.size s = Sdu.size d
  /\ (if Seg.is_first s then Seg.so s = 0 else 0 < Seg.so s).
Proof using Hwf El Hd.
  assert (Hs : s ∈ tx_list e) by (rewrite El; left).
  destruct (Store.deref_ok _ _ s (UmTx.wf_store _ Hwf) Hs) as (d0 & _ & L0 & Hr).
  assert (d0 = d) as -> by congruence.
  destruct (proj1 (Forall_forall _ _) (UmTx.wf_segs _ Hwf) s Hs) as (d0 & L1 & Hl & Hsz & Hmax & Hf).
  assert (d0 = d) as -> by congruence. split_and!; try done.
  destruct (Seg.is_first s); [done|by destruct Hf].
Qed.

Lemma um_first_header : UmTx.first_header e s + 1 <= size \/ UmTx.pdu_size e s <= size.
Proof using Hwf Hroom Hgrant Hpos.
  destruct (UmTx.wf_cfg _ Hwf) as [Hlen _ _].
  unfold UmTx.first_header, UmTx.pdu_size, UmTx.grant_ok, compute_pdu_header_size in *. simpl.
  destruct (Seg.is_first s), (Seg.is_last s), Hlen as [L | L]; rewrite L in *; simpl in *; lia.
Qed.

Lemma um_sent_facts :
  0 < k <= Seg.size s /\ Seg.so sg = Seg.so s /\ Seg.is_first sg = Seg.is_first s
  /\ (Seg.is_last sg = true <-> Seg.so s + k = Sdu.size d).
Proof using Hwf El Hd Hroom Hgrant Hpos.
  destruct um_seg_facts as (_ & _ & Hl & Hend & _). pose proof um_first_header as Hh.
  unfold k, sg, UmTx.sent, UmTx.chunk.
  destruct (Z.leb_spec (UmTx.pdu_size e s) size); simpl.
  - split_and!; try done; lia.
  - assert (compute_pdu_header_size e s <= UmTx.first_header e s).
    { unfold UmTx.first_header, compute_pdu_header_size. simpl.
      destruct (Seg.is_first s), (Seg.is_last s), (sn_field_length e =? 12); simpl; lia. }
    unfold UmTx.pdu_size in *. split_and!; try done; lia.
Qed.

Lemma um_pdu_honest D peer pdu :
  sn_field_length peer = sn_field_length e -> D (tx_next e) = Sdu.data d ->
  UmTx.carries e sg (tx_next e) pdu (take (Z.to_nat k) (Store.seg_bytes (st e) s)) ->
  decode_header peer pdu
  = Ok (if Seg.is_first sg && Seg.is_last sg then FullSdu
        else Segment (tx_next e) (Seg.so s) k (Seg.is_first sg) (Seg.is_last sg))
  /\ drop (Z.to_nat (zlen pdu - k)) pdu = take (Z.to_nat k) (Store.seg_bytes (st e) s)
  /\ UmRx.honest_pdu D peer pdu.
Proof using Hwf El Hd Hroom Hgrant Hpos.
  intros Hlen HD Hc. destruct um_seg_facts as (Hr & Hmax & _ & _ & Hf).
  destruct um_sent_facts as (Hk & Eso & Ef & Elast). pose proof Hr as (Hdat & Hso & _ & Hend).
  assert (Hz : zlen (take (Z.to_nat k) (Store.seg_bytes (st e) s)) = k).
  { unfold zlen. rewrite length_take. pose proof (Store.zlen_seg_bytes _ _ s
      (UmTx.wf_store _ Hwf) ltac:(rewrite El; left)). unfold zlen in *. lia. }
  unfold NR_SDU_MAX in Hmax.
  destruct (UmTx.carries_decodes e peer sg (tx_next e) pdu (take (Z.to_nat k) (Store.seg_bytes (st e) s)))
    as [Hread _]; rewrite ?Eso; try done; try lia; [apply Hwf..| |].
  { rewrite Ef. intros Hff. by rewrite Hff in Hf. }
  rewrite Hz in Hread.
  assert (Hso' : (if Seg.is_first sg then 0 else Seg.so s) = Seg.so s).
  { rewrite Ef. by destruct (Seg.is_first s). }
  rewrite Eso, Hso' in Hread. split; [done|].
  assert (Hdr : drop (Z.to_nat (zlen pdu - k)) pdu = take (Z.to_nat k) (Store.seg_bytes (st e) s)).
  { destruct Hc as (h & -> & _). rewrite zlen_app, Hz, Z.add_simpl_r. unfold zlen at 1.
    rewrite Nat2Z.id. apply drop_app_length. }
  split; [done|]. intros sn' so' n' f' l' E'. rewrite Hread in E'.
  destruct (Seg.is_first sg && Seg.is_last sg); [done|]. injection E' as <- <- <- <- <-.
  rewrite Hdr, HD. split; [by apply piece_slice|unfold NR_SDU_MAX; lia].
Qed.

(** The whole SDU was sent: the peer delivers it. *)
Lemma um_whole_delivered D peer pdu :
  sn_field_length peer = sn_field_length e -> D (tx_next e) = Sdu.data d ->
  UmTx.carries e sg (tx_next e) pdu (take (Z.to_nat k) (Store.seg_bytes (st e) s)) ->
  Seg.is_first s = true -> UmTx.pdu_size e sg = UmTx.pdu_size e s ->
  UmRx.deliveries D peer pdu = [DeliverSdu (Sdu.data d)].
Proof using Hwf El Hd Hroom Hgrant Hpos.
  intros Hlen HD Hc Hf Hn. destruct um_seg_facts as ((Hdat & _) & _ & Hl & Hend & Hso).
  rewrite Hf in Hso.
  assert (k = Seg.size s /\ sg = s) as [Ek Es].
  { unfold k, sg, UmTx.sent, UmTx.chunk in *.
    destruct (UmTx.pdu_size e s <=? size) eqn:E; [done|]. exfalso. apply Z.leb_gt in E.
    unfold UmTx.pdu_size, UmTx.first_header, compute_pdu_header_size in *. simpl in Hn, E.
    rewrite Hf, Hl in *. simpl in *. destruct (sn_field_length e =? 12); simpl in *; lia. }
  destruct (um_pdu_honest D peer pdu Hlen HD Hc) as (Hdec & _). rewrite Es, Hf, Hl in Hdec. simpl in Hdec.
  unfold UmRx.deliveries. rewrite Hdec. f_equal. f_equal.
  destruct Hc as (h & -> & Hh & _). rewrite Es in Hh.
  assert (Hh1 : length h = 1%nat).
  { unfold compute_pdu_header_size in Hh. rewrite Hf, Hl in Hh. unfold zlen in Hh. simpl in Hh. lia. }
  rewrite <- Hh1, drop_app_length, Ek. unfold Store.seg_bytes. rewrite Hd, Hso, drop_0.
  assert (Hfull : length (Sdu.data d) = Z.to_nat (Seg.size s)) by (unfold zlen in *; lia).
  rewrite !take_ge; [done|lia|]. rewrite length_take. lia.
Qed.

End um.

End Link.
