(* ===== verification/RlcUmLink.v ===== *)
(** * RLC unacknowledged mode: a link without losses

    Two UM entities, and MAC between them that loses no PDU and keeps their order.
    [in_step] is the state of the receiver: the first [got] bytes of the SDU with SN
    [x] are there, as a row of segments without holes, and nothing else waits.  A
    segment that comes next extends the row or completes the SDU.  The two entities
    together are a queue of SDUs: what enters on one side leaves on the other side
    once, in order and unchanged, however the grants cut it. *)

From S2P Require Import Prelude TimeStat RlcPdu RlcSdu RlcEntity RlcUm RlcUmTx RlcUmRx.
From S2P Require Import RlcRxManager RlcAm RlcAmStatus RlcAmControl RlcAmRx RlcAmRxSpec.
From S2P Require Import RlcAmTx RlcAmTxInv RlcAmTxSpec RlcLink.

Module UmLink.
Import Entity Um UmRx.

(** ** Rows of segments *)

(** Segments that follow each other from [so] to [stop], none of them the last. *)
Fixpoint row (so : Z) (l : list Pdu.nr_rlc_pdu_t) (stop : Z) : Prop :=
  match l with
  | [] => so = stop
  | p :: l => Pdu.so p = so /\ Pdu.is_last p = false /\ 0 < Pdu.size p /\ row (so + Pdu.size p) l stop
  end.

Lemma row_le so l stop : row so l stop -> so <= stop.
Proof.
  revert so. induction l as [|p l IH]; intros so; cbn; [lia|].
  intros (_ & _ & Hp & Hr). apply IH in Hr. lia.
Qed.

Lemma row_nil l so : row so l so -> l = [].
Proof. destruct l as [|p l]; [done|]. cbn. intros (_ & _ & Hp & Hr%row_le). lia. Qed.

Lemma row_so so l stop p : row so l stop -> p ∈ l -> Pdu.so p < stop.
Proof.
  revert so. induction l as [|q l IH]; intros so; cbn; [by intros _ Hp%elem_of_nil|].
  intros (Hq & _ & Hs & Hr) [->|Hp]%elem_of_cons; [apply row_le in Hr; lia|by apply (IH _ Hr)].
Qed.

Lemma row_snoc so l stop q : row so l stop -> Pdu.so q = stop -> Pdu.is_last q = false -> 0 < Pdu.size q ->
  row so (l ++ [q]) (stop + Pdu.size q).
Proof.
  intros Hr Hq Hl Hs. revert so Hr. induction l as [|p l IH]; intros so; cbn.
  - intros ->. by rewrite Hq.
  - intros (H1 & H2 & H3 & Hr). split_and!; try done. by apply IH.
Qed.

Lemma row_bytes so l stop : row so l stop -> Chain.rx_bytes l = stop - so.
Proof.
  unfold Chain.rx_bytes. revert so. induction l as [|p l IH]; intros so; cbn [row]; [cbn; lia|].
  intros (_ & _ & _ & Hr). rewrite zsum_cons, (IH _ Hr). lia.
Qed.

(** The row alone is not complete and has no hole; the next segment completes it when
    it is the last one. *)
Lemma row_full_loop so l stop q : row so l stop -> Pdu.so q = stop ->
  Chain.full_loop (so - 1) (l ++ [q]) = Pdu.is_last q.
Proof.
  intros Hr Hq. revert so Hr. induction l as [|p l IH]; intros so; cbn [row app Chain.full_loop].
  - intros ->. rewrite Hq. destruct (Z.gtb_spec stop (stop - 1 + 1)); [lia|]. by destruct (Pdu.is_last q).
  - intros (H1 & -> & H3 & Hr). rewrite H1. destruct (Z.gtb_spec so (so - 1 + 1)); [lia|].
    rewrite Z.max_r by lia. by apply IH.
Qed.

Lemma row_missing_loop so l stop : row so l stop -> Chain.missing_loop (so - 1) l = false.
Proof.
  revert so. induction l as [|p l IH]; intros so; cbn [row Chain.missing_loop]; [done|].
  intros (H1 & _ & H3 & Hr). rewrite H1. destruct (Z.gtb_spec so (so - 1 + 1)); [lia|].
  rewrite Z.max_r by lia. by apply IH.
Qed.

Lemma row_has_missing so l : row 0 l so -> Chain.has_missing_bytes l = false.
Proof.
  intros Hr. unfold Chain.has_missing_bytes. destruct (Chain.delivered l); [done|].
  by apply (row_missing_loop 0 l so).
Qed.

Lemma row_full l stop q : row 0 l stop -> Pdu.so q = stop -> Forall (fun p => Pdu.data p <> None) (l ++ [q]) ->
  Chain.full (l ++ [q]) = Pdu.is_last q.
Proof.
  intros Hr Hq Hd. unfold Chain.full.
  assert (Chain.delivered (l ++ [q]) = false) as ->.
  { destruct l as [|p l]; apply Forall_cons in Hd as [Hd _]; cbn; by destruct (Pdu.data _). }
  by apply (row_full_loop 0 l stop).
Qed.

(** ** The receiver *)

Record in_step (D : Z -> list Z) (r : t) (x got : Z) : Prop := {
  s_core : core r;
  s_timer : t_reassembly_start r = 0;
  s_honest : honest D (rx_list r);
  s_next : rx_next_reassembly r = x;
  s_high : rx_next_highest r = if got =? 0 then x else (x + 1) mod sn_modulus r;
  s_size : rx_size r = got;
  s_row : row 0 (chain (rx_list r) x) got;
  s_other : Forall (fun p => Pdu.sn p <> x -> Pdu.data p = None) (rx_list r);
  s_max : NR_SDU_MAX <= rx_maxsize r
}.

(** The segment that comes next. *)
Record next_segment (D : Z -> list Z) (r : t) (x got : Z) (q : Pdu.nr_rlc_pdu_t) : Prop := {
  n_node : node_ok (sn_modulus r) q;
  n_sn : Pdu.sn q = x;
  n_so : Pdu.so q = got;
  n_slice : Chain.slice_of (D x) q;
  n_max : zlen (D x) <= NR_SDU_MAX
}.

(** The next segment goes behind the others. *)
Lemma chain_insert_last r q l :
  UmTx.cfg r -> 0 <= rx_next_highest r < sn_modulus r -> node_ok (sn_modulus r) q ->
  StronglySorted (ord (off r)) l -> Forall (node_ok (sn_modulus r)) l ->
  Forall (fun p => Pdu.sn p = Pdu.sn q -> Pdu.so p < Pdu.so q) l ->
  chain (Pdu.nr_rlc_pdu_list_add (sn_compare_rx r) l q) (Pdu.sn q) = chain l (Pdu.sn q) ++ [q].
Proof.
  intros Hc Hh Hq Hs Hn Hlt. unfold Pdu.nr_rlc_pdu_list_add.
  induction Hs as [|p l Hs IH Hp]; cbn [Pdu.insert_before].
  { unfold chain. by rewrite filter_cons_True. }
  apply Forall_cons in Hn as [Hp0 Hn]. apply Forall_cons in Hlt as [Hpq Hlt].
  pose proof (stop_spec r Hc Hh q Hq p Hp0) as Hst. cbv beta zeta in Hst.
  destruct (_ || _).
  - destruct Hst as [Hst|[Hsn Hso]]; [|specialize (Hpq (eq_sym Hsn)); lia].
    assert (Hne : Pdu.sn p <> Pdu.sn q) by (intros E; rewrite E in Hst; lia).
    pose proof (chain_after (off r) p l (Pdu.sn q) Hp Hst) as Hl. unfold chain in *.
    rewrite filter_cons_True, filter_cons_False by done. by rewrite Hl.
  - unfold chain in *. destruct (decide (Pdu.sn p = Pdu.sn q)).
    + rewrite !filter_cons_True by done. cbn [app]. f_equal. by apply IH.
    + rewrite !filter_cons_False by done. by apply IH.
Qed.

Section step.
Context (D : Z -> list Z) (r : t) (x got : Z) (q : Pdu.nr_rlc_pdu_t).
Context (Hr : in_step D r x got) (Hq : next_segment D r x got q).

Let r0 := {| r with rx_size := rx_size r + Pdu.size q; rx_list := with_segment r q |}.

Lemma x_range : 0 <= x < sn_modulus r.
Proof using Hr. rewrite <- (s_next _ _ _ _ Hr). apply Hr. Qed.

Lemma got_nonneg : 0 <= got.
Proof using Hr. by apply (row_le 0 (chain (rx_list r) x)), Hr. Qed.

Lemma q_data : Pdu.data q <> None.
Proof using Hq. by rewrite (Chain.sl_data _ _ (n_slice _ _ _ _ _ Hq)). Qed.

Lemma chain_q : chain (with_segment r q) x = chain (rx_list r) x ++ [q].
Proof using Hr Hq.
  pose proof (s_core _ _ _ _ Hr) as Hco. pose proof (n_sn _ _ _ _ _ Hq) as Hsn.
  rewrite <- Hsn. apply chain_insert_last; try apply Hco; [apply Hq|].
  apply Forall_forall. intros p Hp E. rewrite (n_so _ _ _ _ _ Hq).
  apply (row_so 0 (chain (rx_list r) x)); [apply Hr|]. apply list_elem_of_filter.
  split; [congruence|done].
Qed.

Lemma honest_q : honest D (rx_list r0).
Proof using Hr Hq.
  cbn [rx_list r0]. unfold with_segment, Pdu.nr_rlc_pdu_list_add, honest. rewrite Pdu.insert_before_perm.
  constructor; [|apply Hr]. intros _. rewrite (n_sn _ _ _ _ _ Hq). split; apply Hq.
Qed.

Lemma room_q : rx_size r + Pdu.size q <= rx_maxsize r.
Proof using Hr Hq.
  pose proof (Chain.sl_end _ _ (n_slice _ _ _ _ _ Hq)). rewrite (n_so _ _ _ _ _ Hq) in *.
  pose proof (n_max _ _ _ _ _ Hq). pose proof (s_max _ _ _ _ Hr). rewrite (s_size _ _ _ _ Hr). lia.
Qed.

Lemma inserted_q : inserted r0 x.
Proof using Hr Hq.
  rewrite <- (n_sn _ _ _ _ _ Hq). apply inserted_ok; [apply Hr|apply Hq|apply q_data|apply room_q].
Qed.

Lemma full_q : sdu_full r0 x = Pdu.is_last q.
Proof using Hr Hq.
  unfold sdu_full. pose proof inserted_q as Hi.
  rewrite (segments_chain (off r0)) by apply (lo_sorted _ _ _ (i_list _ _ Hi)).
  cbn [rx_list r0]. rewrite chain_q. apply (row_full _ got); [apply Hr|apply Hq|].
  apply Forall_app. split; [|by constructor; [apply q_data|]].
  pose proof (s_row _ _ _ _ Hr) as Hrow. pose proof (lo_nodes _ _ _ (c_list _ (s_core _ _ _ _ Hr))) as Hn.
  assert (Hn' : Forall (node_ok (sn_modulus r)) (chain (rx_list r) x))
    by (apply Forall_forall; intros p [_ Hp]%list_elem_of_filter; by apply (proj1 (Forall_forall _ _) Hn)).
  clear -Hrow Hn'. revert Hrow. generalize 0 as so.
  induction Hn' as [|p l (_ & _ & _ & _ & Hd) _ IH]; intros so; cbn [row]; [constructor|].
  intros (_ & _ & Hp & Hrow). constructor; [|by apply (IH _ Hrow)]. intros E. rewrite E in Hd. lia.
Qed.

(** Nothing starts the reassembly timer: there is no hole. *)
Lemma timer_idle e y : core e -> t_reassembly_start e = 0 -> rx_next_reassembly e = y ->
  (rx_next_highest e = y \/ (rx_next_highest e = (y + 1) mod sn_modulus e
     /\ sdu_has_missing_bytes e y = false)) ->
  start_t_reassembly (stop_t_reassembly e) = e.
Proof.
  intros Hco Ht Hn Hh. pose proof (c_cfg _ Hco) as Hc. destruct (um_cfg_window e Hc) as [HM HW].
  unfold stop_t_reassembly. rewrite Ht. cbn [Z.eqb negb]. unfold start_t_reassembly. rewrite Ht. cbn [Z.eqb].
  pose proof (c_highest _ Hco) as Hhi. pose proof (Z.mod_pos_bound (y + 1) (sn_modulus e)) as Hy1.
  rewrite Hn, compare_off by (done || lia). rewrite off_highest by done.
  destruct Hh as [Hh|[Hh Hm]].
  - rewrite <- Hh at 1. rewrite off_add, off_highest by (done || lia || rewrite off_highest by done; destruct Hc as [[L|L] M W]; rewrite M, L in *; lia).
    destruct (Z.gtb_spec (window_size e - (window_size e + 1)) 0); [lia|]. cbn [orb].
    destruct (Z.eqb_spec (rx_next_highest e) ((y + 1) mod sn_modulus e)) as [E|]; [|done]. exfalso.
    rewrite Hh in E. assert (off e y = off e ((y + 1) mod sn_modulus e)) as E' by congruence.
    rewrite <- Hh in E' at 1. rewrite off_add in E'; [|done|lia|].
    + rewrite <- Hh, off_highest in E' by done. lia.
    + rewrite <- Hh, off_highest by done. destruct Hc as [[L|L] M W]; rewrite M, L in *; lia.
  - rewrite <- Hh, off_highest, Z.sub_diag, Z.eqb_refl, Hm by done. done.
Qed.

(** Where [x] lies in the window. *)
Lemma off_x : off r x = if got =? 0 then window_size r else window_size r - 1.
Proof using Hr.
  pose proof (s_core _ _ _ _ Hr) as Hco. pose proof (c_cfg _ Hco) as Hc.
  destruct (um_cfg_window r Hc) as [HM HW]. pose proof (s_high _ _ _ _ Hr) as Hh.
  destruct (got =? 0); [by rewrite <- Hh, off_highest|].
  pose proof (c_next _ Hco) as Hle. rewrite (s_next _ _ _ _ Hr) in Hle.
  assert (H : off r ((x + 1) mod sn_modulus r) = window_size r) by (by rewrite <- Hh, off_highest).
  destruct (decide (off r x + 1 < sn_modulus r)) as [Hlt|].
  - rewrite off_add in H by (done || lia). lia.
  - destruct Hc as [[L|L] M W]; rewrite M, L in *; lia.
Qed.

Lemma other_q : Forall (fun p => Pdu.sn p <> x -> Pdu.data p = None) (rx_list r0).
Proof using Hr Hq.
  cbn [rx_list r0]. unfold with_segment, Pdu.nr_rlc_pdu_list_add. rewrite Pdu.insert_before_perm.
  constructor; [|apply Hr]. intros Hne. by destruct (Hne (n_sn _ _ _ _ _ Hq)).
Qed.

Lemma row_q : Pdu.is_last q = false -> row 0 (chain (rx_list r0) x) (got + Pdu.size q).
Proof using Hr Hq.
  intros Hl. cbn [rx_list r0]. rewrite chain_q.
  apply row_snoc; [apply Hr|apply Hq|done|apply (Chain.sl_size _ _ (n_slice _ _ _ _ _ Hq))].
Qed.

(** The row grows. *)
Lemma update_more : got <> 0 -> Pdu.is_last q = false ->
  update_window r0 x = Ok r0 /\ in_step D r0 x (got + Pdu.size q).
Proof using Hr Hq.
  intros Hg Hl. pose proof inserted_q as Hi. pose proof off_x as Hox. pose proof got_nonneg.
  pose proof (Chain.sl_size _ _ (n_slice _ _ _ _ _ Hq)) as Hsz.
  destruct (Z.eqb_spec got 0) as [|_]; [done|].
  assert (Hlt : off r0 x < window_size r0) by (change (off r x < window_size r); lia).
  split.
  - unfold update_window. rewrite full_q, Hl, compare_off, off_highest, Z.geb_leb by apply Hi.
    by destruct (Z.leb_spec 0 (off r0 x - window_size r0)); [lia|].
  - pose proof (s_high _ _ _ _ Hr) as Hh. pose proof (s_size _ _ _ _ Hr) as Hz.
    destruct (Z.eqb_spec got 0) as [|_]; [done|].
    split; [|apply Hr|apply honest_q|apply Hr| | |by apply row_q|apply other_q|apply Hr].
    + constructor; try apply Hi. by apply (inserted_window _ x).
    + destruct (Z.eqb_spec (got + Pdu.size q) 0); [lia|]. apply Hh.
    + cbn. by rewrite Hz.
Qed.

(** The SDU is complete and delivered. *)
Lemma update_last : Pdu.is_last q = true -> exists r', update_window r0 x = Ok r' /\
  frame r' = frame r /\ trace (common r') = trace (common r) ++ [DeliverSdu (D x)] /\
  in_step D r' ((x + 1) mod sn_modulus r) 0.
Proof using Hr Hq.
  intros Hl. pose proof inserted_q as Hi. pose proof off_x as Hox. pose proof got_nonneg as Hg0.
  pose proof x_range as Hx.
  assert (Hg : got <> 0).
  { destruct (n_node _ _ _ _ _ Hq) as (_ & _ & Hf & Hfl & _). intros E. apply Hfl. split; [|done].
    apply Hf. by rewrite (n_so _ _ _ _ _ Hq). }
  destruct (Z.eqb_spec got 0) as [|_]; [done|].
  pose proof full_q as Hf. rewrite Hl in Hf. unfold update_window. rewrite Hf.
  destruct (um_deliver_ok D r0 x Hi honest_q Hf) as (r1 & E & Hco1 & Hh1 & F1 & V1).
  rewrite E, res_bind_unfold. injection V1 as V1 V2 V3 V4 V5.
  change (rx_next_reassembly r0) with (rx_next_reassembly r) in V2. rewrite (s_next _ _ _ _ Hr) in V2.
  change (rx_next_highest r0) with (rx_next_highest r) in V1.
  rewrite V2, Z.eqb_refl. pose proof F1 as F1'. injection F1' as T1 T2 T3 _ _ _ _ _ _ _ _ _ _ T4.
  change (sn_modulus r0) with (sn_modulus r) in T2. change (window_size r0) with (window_size r) in T3.
  assert (Eo : off r1 = off r) by (unfold off; by rewrite T2, T3, V1).
  assert (Hlist : rx_list r1 = map (freed x) (rx_list r0) /\ rx_size r1 = 0).
  { unfold reassemble_and_deliver in E.
    pose proof (lo_sorted _ _ _ (i_list _ _ Hi)) as Hs.
    rewrite (segments_chain (off r0)), (release_map (off r0)) in E by done.
    cbn [rx_list r0] in E. rewrite chain_q in E.
    destruct (chain (rx_list r) x ++ [q]) as [|p0 l0] eqn:Ec; [by destruct (chain (rx_list r) x)|].
    apply res_bind_ok in E as (sdu & _ & E).
    assert (Hb : Chain.rx_bytes (p0 :: l0) = got + Pdu.size q).
    { rewrite <- Ec. unfold Chain.rx_bytes. rewrite zsum_app.
      pose proof (row_bytes _ _ _ (s_row _ _ _ _ Hr)) as Hrb. unfold Chain.rx_bytes in Hrb. rewrite Hrb. cbn. lia. }
    change (Chain.rx_bytes (p0 :: l0)) with (Pdu.size p0 + Chain.rx_bytes l0) in Hb.
    destruct sdu; injection E as <-; cbn [rx_list rx_size upd_common r0];
      (split; [done|rewrite (s_size _ _ _ _ Hr); lia]). }
  destruct Hlist as [Hlist Hsize].
  destruct (um_skip_ok r1 x) as (y & Ey & Hy & Hoy & Hdy & Hbefore); try apply Hco1;
    [by rewrite T2|rewrite Eo, Hox, T3; lia|].
  rewrite Ey, res_bind_unfold. eexists. split; [reflexivity|].
  assert (Ehi : rx_next_highest r = (x + 1) mod sn_modulus r).
  { rewrite (s_high _ _ _ _ Hr). by destruct (Z.eqb_spec got 0). }
  assert (Ny : y <> x).
  { intros ->. rewrite sdu_delivered_chain in Hdy by apply (lo_sorted _ _ _ (c_list _ Hco1)).
    rewrite Hlist, chain_freed in Hdy. cbn [rx_list r0] in Hdy. rewrite chain_q in Hdy.
    assert (Hsns : Forall (fun p => Pdu.sn p = x) (chain (rx_list r) x ++ [q])).
    { rewrite <- chain_q. apply Forall_forall. by intros p [? _]%list_elem_of_filter. }
    destruct (chain (rx_list r) x ++ [q]) as [|p0 l0] eqn:Ec; [by destruct (chain (rx_list r) x)|].
    apply Forall_cons in Hsns as [Hp0 _]. cbn in Hdy. unfold freed in Hdy. by rewrite Hp0, Z.eqb_refl in Hdy. }
  assert (Hyh : y = rx_next_highest r1).
  { pose proof (c_highest _ Hco1) as Hhr. rewrite Eo, T3 in Hoy. rewrite Hox in Hoy.
    destruct (decide (off r y = window_size r)) as [Eoy|Noy].
    - apply (sub_mod_inj (sn_modulus r1) _ _ (rx_next_highest r1 - window_size r1)); [done..|].
      change (off r1 y = off r1 (rx_next_highest r1)). rewrite off_highest by apply Hco1. by rewrite Eo, T3.
    - destruct Ny. apply (sub_mod_inj (sn_modulus r) _ _ (rx_next_highest r - window_size r));
        [by rewrite <- T2|done|]. change (off r y = off r x). lia. }
  split; [exact F1|]. split; [exact V5|].
  split; cbn [rx_next_reassembly rx_next_highest rx_list rx_size t_reassembly_start Z.eqb].
  - apply core_set_next; [done|done|]. lia.
  - rewrite V4. apply Hr.
  - done.
  - by rewrite Hyh, V1.
  - by rewrite V1.
  - done.
  - assert (chain (rx_list r1) ((x + 1) mod sn_modulus r) = []) as ->; [|done].
    rewrite <- Ehi, <- V1. pose proof (c_window _ Hco1) as Hw. clear -Hw Hco1. unfold chain.
    induction Hw as [|p l Hp _ IH]; [done|]. rewrite filter_cons_False; [done|]. intros Ep.
    unfold in_window in Hp. rewrite Ep, off_highest in Hp by apply Hco1. lia.
  - rewrite Hlist. apply Forall_map. eapply Forall_impl; [apply other_q|]. intros p Hp _. cbv beta in Hp.
    unfold freed. destruct (Z.eqb_spec (Pdu.sn p) x) as [|Hne]; [done|by apply Hp].
  - rewrite T4. apply Hr.
Qed.

(** The first segment of an SDU moves the window. *)
Lemma update_first : got = 0 -> exists r', update_window r0 x = Ok r' /\
  frame r' = frame r /\ trace (common r') = trace (common r) /\ in_step D r' x (Pdu.size q).
Proof using Hr Hq.
  intros Hg. pose proof inserted_q as Hi. pose proof off_x as Hox. pose proof x_range as Hx.
  pose proof (Chain.sl_size _ _ (n_slice _ _ _ _ _ Hq)) as Hsz.
  assert (Hl : Pdu.is_last q = false).
  { destruct (n_node _ _ _ _ _ Hq) as (_ & _ & Hf & Hfl & _). destruct (Pdu.is_last q); [|done].
    destruct Hfl. split; [|done]. apply Hf. by rewrite (n_so _ _ _ _ _ Hq). }
  destruct (Z.eqb_spec got 0) as [_|]; [|done].
  pose proof (i_cfg _ _ Hi) as Hc. destruct (um_cfg_window r0 Hc) as [HM HW].
  change (off r x) with (off r0 x) in Hox. change (window_size r) with (window_size r0) in Hox.
  assert (Hge : window_size r0 <= off r0 x) by lia.
  destruct (update_window_slide D r0 x Hi honest_q) as (r' & E & Hco' & Hh' & F' & Ht' & Tr');
    [by rewrite full_q|done|].
  exists r'. split; [done|]. split; [exact F'|]. split; [exact Tr'|].
  unfold update_window in E. rewrite full_q, Hl, compare_off, off_highest, Z.geb_leb in E by (apply Hi || done).
  destruct (Z.leb_spec 0 (off r0 x - window_size r0)) as [_|]; [|lia].
  set (r1 := {| r0 with rx_next_highest := _ |}) in E.
  destruct (discard_out_of_window_spec (rx_list r1) r1)
    as (pre & rest & r2 & E2 & El & Hpre & _ & Hl2 & Hsz2 & F2 & V2).
  rewrite E2 in E. injection V2 as V1 V2 V3 V4 V5.
  injection F2 as T1 T2 T3 _ _ _ _ _ _ _ _ _ _ T4.
  change (rx_next_reassembly r1) with (rx_next_reassembly r) in V2. rewrite (s_next _ _ _ _ Hr) in V2.
  change (sn_modulus r2 = sn_modulus r0) in T2. change (window_size r2 = window_size r0) in T3.
  assert (Hh2 : rx_next_highest r2 = (x + 1) mod sn_modulus r0) by done.
  assert (Hc2 : UmTx.cfg r2) by (destruct Hc; constructor; by rewrite ?T1, ?T2, ?T3).
  assert (Hhr : 0 <= (x + 1) mod sn_modulus r0 < sn_modulus r0) by (apply Z.mod_pos_bound; lia).
  assert (Hox2 : off r2 x = window_size r2 - 1).
  { rewrite (slide_off r0 r2 x) by (done || lia). rewrite T3. destruct (Z.leb_spec (off r0 x - window_size r0 + 1) (off r0 x)); lia. }
  rewrite V2, compare_off, off_highest, Hox2, Z.geb_leb in E by (done || by rewrite ?Hh2, ?T2).
  destruct (Z.leb_spec 0 (window_size r2 - 1 - window_size r2)) as [|_]; [lia|]. injection E as <-.
  (* no segment of [x] is dropped *)
  assert (Hpx : Forall (fun p => Pdu.sn p <> x) pre).
  { eapply Forall_impl; [exact Hpre|]. intros p Hp Hpx. cbv beta in Hp. rewrite Hpx in Hp.
    assert (Hcmp : sn_compare_rx r1 x (rx_next_highest r1) = off r2 x - off r2 (rx_next_highest r2)).
    { rewrite <- compare_off by (done || by rewrite ?Hh2, ?T2).
      unfold sn_compare_rx, modulus_rx. by rewrite T2, T3, V1. }
    rewrite Hcmp, off_highest, Hox2 in Hp by done. lia. }
  assert (Hchain : chain (rx_list r2) x = chain (with_segment r q) x).
  { rewrite Hl2. cbn [rx_list r1 r0] in El. rewrite El. unfold chain. rewrite filter_app.
    assert (filter (fun p => Pdu.sn p = x) pre = []) as ->; [|done]. clear -Hpx.
    induction Hpx as [|p l Hp _ IH]; [done|]. by rewrite filter_cons_False. }
  assert (Hb : Chain.rx_bytes pre = 0).
  { pose proof other_q as Ho. cbn [rx_list r1] in El. rewrite El in Ho. apply Forall_app in Ho as [Ho _].
    pose proof (lo_nodes _ _ _ (i_list _ _ Hi)) as Hn. rewrite El in Hn. apply Forall_app in Hn as [Hn _].
    clear -Hpx Ho Hn. unfold Chain.rx_bytes.
    induction pre as [|p l IH]; [done|]. apply Forall_cons in Hpx as [Hp Hpx].
    apply Forall_cons in Ho as [Hd Ho]. apply Forall_cons in Hn as [(_ & _ & _ & _ & Hz) Hn].
    rewrite (Hd Hp) in Hz. rewrite zsum_cons, IH by done. lia. }
  split; try done.
  - rewrite Ht'. apply Hr.
  - rewrite Hh2, T2. by destruct (Z.eqb_spec (Pdu.size q) 0); [lia|].
  - rewrite Hsz2, Hb. cbn [rx_size r1 r0]. rewrite (s_size _ _ _ _ Hr), Hg. lia.
  - rewrite Hchain. replace (Pdu.size q) with (got + Pdu.size q) by lia. by apply row_q.
  - pose proof other_q as Ho. cbn [rx_list r1] in El. rewrite El in Ho. apply Forall_app in Ho as [_ Ho].
    by rewrite Hl2.
  - rewrite T4. apply Hr.
Qed.
End step.

(** The fields [in_step] is about. *)
Definition rx_state (e : t) :=
  (rx_fields e, rx_next_reassembly e, rx_timer_trigger e, t_reassembly_start e).

Lemma in_step_fields D r r' x got : rx_state r' = rx_state r -> in_step D r x got -> in_step D r' x got.
Proof.
  intros [= E1 E2 E3 E4 E5 E6 E7 E8 E9 E10] [Hco Ht Hh Hn Hhi Hs Hrow Ho Hm].
  split; rewrite ?E2, ?E4, ?E5, ?E6, ?E7, ?E8, ?E10; try done.
  apply (um_core_fields r); [unfold rx_fields; congruence|done|..]; rewrite ?E8, ?E9; apply Hco.
Qed.

(** Between two SDUs the receiver depends on no content. *)
Lemma in_step_content D D' r x : in_step D r x 0 -> in_step D' r x 0.
Proof.
  intros [Hco Ht Hh Hn Hhi Hs Hrow Ho Hm]. split; try done.
  apply row_nil in Hrow. apply Forall_forall. intros p Hp Hd. destruct (decide (Pdu.sn p = x)) as [E|Hne].
  - assert (p ∈ chain (rx_list r) x) as Hin by (by apply list_elem_of_filter). rewrite Hrow in Hin.
    by apply elem_of_nil in Hin.
  - by destruct Hd, (proj1 (Forall_forall _ _) Ho p Hp).
Qed.

(** A PDU with the next segment. *)
Lemma recv_next D r x got buffer n first last :
  in_step D r x got -> decode_header r buffer = Ok (Segment x got n first last) ->
  Chain.slice_of (D x) (Pdu.nr_rlc_new_pdu x got first last (drop (Z.to_nat (zlen buffer - n)) buffer)) ->
  zlen (D x) <= NR_SDU_MAX -> exists r',
  nr_rlc_entity_um_recv_pdu r buffer = Ok r' /\ frame r' = frame r /\
  trace (common r') = trace (common r) ++ (if last then [DeliverSdu (D x)] else []) /\
  if last then in_step D r' ((x + 1) mod sn_modulus r) 0 else in_step D r' x (got + n).
Proof.
  intros Hr Ed Hsl Hmax. set (q := Pdu.nr_rlc_new_pdu _ _ _ _ _) in *.
  pose proof (s_core _ _ _ _ Hr) as Hco.
  destruct (um_decode_header_ok r buffer (c_cfg _ Hco)) as (h & Ed' & Hok). rewrite Ed in Ed'.
  injection Ed' as <-. destruct Hok as (Hsn & Hso & Hf & Hfl & Hn).
  assert (Hz : Pdu.size q = n) by (cbn; rewrite zlen_drop; unfold zlen in *; lia).
  assert (Hq : next_segment D r x got q).
  { split; try done. split_and!; try done; try (cbn; lia).
    change (Pdu.size q = Pdu.size q /\ 0 < Pdu.size q). lia. }
  unfold nr_rlc_entity_um_recv_pdu. set (r1 := upd_common _ r).
  assert (Hr1 : in_step D r1 x got) by (by apply (in_step_fields D r)).
  assert (Hq1 : next_segment D r1 x got q) by (destruct Hq; by split).
  change (decode_header r1 buffer) with (decode_header r buffer). rewrite Ed, res_bind_unfold.
  pose proof (room_q D r1 x got q Hr1 Hq1) as Hroom. rewrite Hz in Hroom.
  rewrite Z.gtb_ltb. destruct (Z.ltb_spec (rx_maxsize r1) (rx_size r1 + n)); [lia|].
  assert ((sn_compare_rx r1 x (rx_next_reassembly r1) <? 0) = false) as ->.
  { by rewrite (s_next _ _ _ _ Hr1), compare_off, Z.sub_diag by (apply (s_core _ _ _ _ Hr1) || done). }
  rewrite zslice_ok, res_bind_unfold by lia.
  rewrite take_ge by (rewrite length_drop; unfold zlen in *; lia). fold q.
  rewrite <- Hz. set (r2 := {| r1 with rx_size := rx_size r1 + Pdu.size q; rx_list := with_segment r1 q |}).
  cbv zeta. change (reception_actions _ x) with (reception_actions r2 x). unfold reception_actions.
  change (frame r) with (frame r1). change (trace (common r)) with (trace (common r1)).
  change (sn_modulus r) with (sn_modulus r1). destruct last.
  - destruct (update_last D r1 x got q Hr1 Hq1 eq_refl) as (r' & E & F & Tr & Hs).
    fold r2 in E. rewrite E, res_bind_unfold, (timer_idle r' ((x + 1) mod sn_modulus r1)).
    + by exists r'.
    + apply Hs.
    + apply Hs.
    + apply Hs.
    + left. pose proof (s_high _ _ _ _ Hs) as Hh. done.
  - rewrite app_nil_r.
    assert (Hu : exists r', update_window r2 x = Ok r' /\ frame r' = frame r1 /\
      trace (common r') = trace (common r1) /\ in_step D r' x (got + Pdu.size q)).
    { destruct (decide (got = 0)) as [->|Hg].
      - by apply (update_first D r1 x 0 q Hr1 Hq1).
      - exists r2. destruct (update_more D r1 x got q Hr1 Hq1 Hg eq_refl). by split_and!. }
    destruct Hu as (r' & E & F & Tr & Hs). rewrite E, res_bind_unfold, (timer_idle r' x).
    + by exists r'.
    + apply Hs.
    + apply Hs.
    + apply Hs.
    + right. pose proof (s_high _ _ _ _ Hs) as Hh.
      destruct (Z.eqb_spec (got + Pdu.size q) 0); [pose proof (got_nonneg D r x got Hr); lia|]. split; [done|].
      unfold sdu_has_missing_bytes. rewrite (segments_chain (off r')) by apply (lo_sorted _ _ _ (c_list _ (s_core _ _ _ _ Hs))).
      apply (row_has_missing (got + Pdu.size q)), Hs.
Qed.

(** A PDU with a whole SDU. *)
Lemma recv_whole D r x got buffer : in_step D r x got -> decode_header r buffer = Ok FullSdu -> exists r',
  nr_rlc_entity_um_recv_pdu r buffer = Ok r' /\ frame r' = frame r /\
  trace (common r') = trace (common r) ++ [DeliverSdu (drop 1 buffer)] /\ in_step D r' x got.
Proof.
  intros Hr Ed. destruct (um_decode_header_ok r buffer (c_cfg _ (s_core _ _ _ _ Hr))) as (h & Ed' & Hok).
  rewrite Ed in Ed'. injection Ed' as <-. cbn in Hok.
  unfold nr_rlc_entity_um_recv_pdu. set (r1 := upd_common _ r).
  change (decode_header r1 buffer) with (decode_header r buffer). rewrite Ed, res_bind_unfold.
  rewrite zslice_ok, res_bind_unfold by lia. rewrite take_ge by (rewrite length_drop; unfold zlen in *; lia).
  eexists. split; [reflexivity|]. split_and!; [done|done|]. by apply (in_step_fields D r).
Qed.

(** ** The two entities *)

(** The bytes that wait on the sending side, per SDU. *)
Definition waiting (e : t) : list (list Z) := map snd (UmTx.queue e).

(** [e] sends to [r], which has [got] of the SDU at the head of the queue. *)
Record link (e r : t) (got : list Z) : Prop := {
  k_tx : UmTx.wf e;
  k_len : sn_field_length r = sn_field_length e;
  k_rx : in_step (fun _ => got ++ hd [] (waiting e)) r (tx_next e) (zlen got);
  k_head : match UmTx.queue e with [] => got = [] | p :: _ => p.1 = zlen got end;
  k_bytes : Forall (fun b => b <> []) (waiting e)
}.

(** The SDUs between the two upper layers. *)
Definition content (e : t) (got : list Z) : list (list Z) :=
  match waiting e with
  | [] => []
  | b :: l => (got ++ b) :: l
  end.

Lemma link_modulus e r got : link e r got -> sn_modulus r = sn_modulus e.
Proof.
  intros Hk. rewrite (UmTx.cfg_mod _ (UmTx.wf_cfg _ (k_tx _ _ _ Hk))).
  rewrite (UmTx.cfg_mod _ (c_cfg _ (s_core _ _ _ _ (k_rx _ _ _ Hk)))). by rewrite (k_len _ _ _ Hk).
Qed.

(** The link depends on the transmitting side of [e] and on the receiving side of [r]. *)
Lemma link_frame e e' r r' got :
  UmTx.tx_part e' = UmTx.tx_part e -> rx_state r' = rx_state r -> link e r got -> link e' r' got.
Proof.
  intros Ht Hr [H1 H2 H3 H4 H5]. pose proof Ht as Ht'. injection Ht' as E1 _ _ E4 E5 _ _ E8 _ _.
  assert (Eq : UmTx.queue e' = UmTx.queue e) by (unfold UmTx.queue; by rewrite E5, E8).
  assert (Ew : waiting e' = waiting e) by (unfold waiting; by rewrite Eq).
  pose proof Hr as Hr'. injection Hr' as R1 _ _ _ _ _ _ _ _ _. split; rewrite ?Ew, ?Eq, ?E4; try done.
  - by apply (UmTx.um_wf_tx_part e).
  - congruence.
  - by apply (in_step_fields _ r).
Qed.

Lemma queue_tail_first e : UmTx.wf e -> Forall (fun p => p.1 = 0) (tail (UmTx.queue e)).
Proof.
  intros Hwf. pose proof (UmTx.wf_segs _ Hwf) as Hs. pose proof (UmTx.wf_tail _ Hwf) as Hf.
  unfold UmTx.queue. destruct (tx_list e) as [|s l]; [constructor|]. cbn [map tail] in *.
  apply Forall_cons in Hs as [_ Hs]. apply Forall_map. apply Forall_forall. intros x Hx. cbn.
  destruct (proj1 (Forall_forall _ _) Hs x Hx) as (d & _ & _ & _ & _ & Hso).
  by rewrite (proj1 (Forall_forall _ _) Hf x Hx) in Hso.
Qed.

(** The clock does nothing to an entity without holes. *)
Lemma clock_idle D r x got now : in_step D r x got ->
  nr_rlc_entity_um_set_time r now = Ok {| r with t_current := now |}.
Proof.
  intros Hr. unfold nr_rlc_entity_um_set_time, check_t_reassembly. cbn [t_reassembly_start].
  by rewrite (s_timer _ _ _ _ Hr).
Qed.

(** An SDU of the upper layer enters the link, when there is space for it. *)
Lemma link_submit now_us e r got b id : link e r got -> 0 < zlen b <= NR_SDU_MAX ->
  exists e', nr_rlc_entity_um_recv_sdu now_us e b id = Ok e' /\ UmTx.rx_part e' = UmTx.rx_part e /\
    tx_maxsize e' = tx_maxsize e /\ link e' r got /\
    if zlen b <=? tx_maxsize e - tx_size e
    then content e' got = content e got ++ [b] /\ tx_size e' = tx_size e + zlen b
    else content e' got = content e got /\ tx_size e' = tx_size e.
Proof.
  intros [H1 H2 H3 H4 H5] Hb.
  destruct (UmTx.um_recv_sdu_spec now_us e b id H1) as (e' & E & Hwf' & Hrx & Hmax & Hn & Hq & Hs); [lia|].
  exists e'. split; [done|]. split; [done|]. split; [done|].
  assert (Hlen : sn_field_length e' = sn_field_length e) by (unfold UmTx.rx_part in Hrx; congruence).
  rewrite Z.gtb_ltb in Hq, Hs.
  destruct (Z.ltb_spec (tx_maxsize e) (tx_size e + zlen b)),
    (Z.leb_spec (zlen b) (tx_maxsize e - tx_size e)); try lia.
  - assert (Ew : waiting e' = waiting e) by (unfold waiting; by rewrite Hq).
    split; [|unfold content; by rewrite Ew]. split; rewrite ?Ew, ?Hq, ?Hn; try done. congruence.
  - assert (Ew : waiting e' = waiting e ++ [b]) by (unfold waiting; by rewrite Hq, map_app).
    split.
    + split; [done|congruence| | |].
      * rewrite Hn, Ew. unfold waiting in *. destruct (UmTx.queue e) as [|p l]; [|done].
        rewrite H4 in *. by eapply in_step_content.
      * rewrite Hq. unfold waiting in *. destruct (UmTx.queue e) as [|p l]; [by rewrite H4|done].
      * rewrite Ew. apply Forall_app. split; [done|]. constructor; [|constructor]. intros ->. change (zlen []) with 0 in Hb. lia.
    + split; [|done]. unfold content. rewrite Ew. unfold waiting in *.
      destruct (UmTx.queue e) as [|p l]; [by rewrite H4|done].
Qed.

(** ** A grant *)

Section grant.
Context (e r : t) (got : list Z) (s : Seg.t) (rest : list Seg.t) (size : Z).
Context (Hk : link e r got) (El : tx_list e = s :: rest).
Context (Hroom : compute_pdu_header_size e s + 1 <= size) (Hg : UmTx.grant_ok e size).

Let b := Store.seg_bytes (st e) s.
Let k := UmTx.chunk e s size.
Let sg := UmTx.sent e s size.

Lemma head_queue : UmTx.queue e = (Seg.so s, b) :: tail (UmTx.queue e) /\ waiting e = b :: tail (waiting e).
Proof using El. unfold waiting, UmTx.queue. by rewrite El. Qed.

Lemma um_head_facts : exists d, Store.sdus (st e) !! Seg.sdu s = Some d /\ zlen b = Seg.size s /\ 0 < Seg.size s /\
  Seg.so s = zlen got /\ Seg.so s + Seg.size s = Sdu.size d /\ Sdu.size d <= NR_SDU_MAX /\
  Seg.is_last s = true /\ (if Seg.is_first s then Seg.so s = 0 else 0 < Seg.so s).
Proof using Hk El.
  clear k sg. pose proof (k_tx _ _ _ Hk) as Hwf. assert (Hs : s ∈ tx_list e) by (rewrite El; left).
  destruct (proj1 (Forall_forall _ _) (UmTx.wf_segs _ Hwf) s Hs) as (d & L & Hl & Hsz & Hmax & Hf).
  pose proof (Store.zlen_seg_bytes _ _ s (UmTx.wf_store _ Hwf) Hs) as Hz. fold b in Hz.
  destruct head_queue as [Eq Ew]. pose proof (k_head _ _ _ Hk) as Hh. rewrite Eq in Hh.
  pose proof (k_bytes _ _ _ Hk) as Hb. rewrite Ew in Hb. apply Forall_cons in Hb as [Hb _].
  exists d. split_and!; try done.
  - rewrite <- Hz. destruct (decide (zlen b = 0)) as [E|]; [|pose proof (zlen_nonneg b); lia].
    destruct Hb. apply nil_length_inv. unfold zlen in E. lia.
  - destruct (Seg.is_first s); [done|by destruct Hf].
Qed.

(** What the peer reads. *)
Lemma pdu_read pdu : UmTx.carries e sg (tx_next e) pdu (take (Z.to_nat k) b) ->
  0 < k <= Seg.size s /\ (Seg.is_last sg = true <-> k = Seg.size s) /\ Seg.is_first sg = Seg.is_first s /\
  decode_header r pdu = Ok (if Seg.is_first s && Seg.is_last sg then FullSdu
                            else Segment (tx_next e) (zlen got) k (Seg.is_first s) (Seg.is_last sg)) /\
  drop (Z.to_nat (zlen pdu - k)) pdu = take (Z.to_nat k) b /\
  (Seg.is_first s = true -> Seg.is_last sg = true -> drop 1 pdu = take (Z.to_nat k) b).
Proof using Hk El Hroom Hg.
  intros Hc. destruct um_head_facts as (d & Hd & Hz & Hpos & Hso & Hend & Hmax & Hl & Hf).
  pose proof (k_tx _ _ _ Hk) as Hwf.
  destruct (Link.um_sent_facts e s rest d size Hwf El Hd Hroom Hg Hpos) as (Hkk & Eso & Ef & Elast).
  fold k sg in Hkk, Eso, Ef, Elast.
  assert (Hlen : zlen (take (Z.to_nat k) b) = k) by (unfold zlen in *; rewrite length_take; lia).
  unfold NR_SDU_MAX in Hmax.
  destruct (UmTx.carries_decodes e r sg (tx_next e) pdu (take (Z.to_nat k) b)) as [Hread Hdrop];
    rewrite ?Eso; try apply Hwf; try apply Hk; try lia; try exact Hc.
  { pose proof (zlen_nonneg got). lia. }
  { rewrite Ef. intros E. by rewrite E in Hf. }
  split; [done|]. split; [rewrite Elast; lia|]. split; [done|].
  rewrite Hlen, Ef in Hread.
  assert (Hso' : (if Seg.is_first s then 0 else Seg.so sg) = zlen got)
    by (rewrite Eso; destruct (Seg.is_first s); lia).
  rewrite Hso' in Hread. split; [done|]. split.
  - destruct Hc as (h & -> & _). rewrite zlen_app, Hlen, Z.add_simpl_r. unfold zlen at 1.
    rewrite Nat2Z.id. apply drop_app_length.
  - intros F1 F2. unfold compute_pdu_header_size in Hdrop. by rewrite Ef, F1, F2 in Hdrop.
Qed.

Lemma next_slice f last : (last = true <-> k = Seg.size s) -> 0 < k <= Seg.size s ->
  Chain.slice_of (got ++ b) (Pdu.nr_rlc_new_pdu (tx_next e) (zlen got) f last (take (Z.to_nat k) b)).
Proof using Hk El.
  intros Hl Hkk. destruct um_head_facts as (d & _ & Hz & _).
  assert (Hlen : zlen (take (Z.to_nat k) b) = k) by (unfold zlen in *; rewrite length_take; lia).
  constructor; cbn [Pdu.so Pdu.size Pdu.is_last Pdu.data Pdu.nr_rlc_new_pdu]; rewrite ?Hlen, ?zlen_app, ?Hz;
    pose proof (zlen_nonneg got); try lia.
  - rewrite Hl. lia.
  - by rewrite drop_app_length' by (unfold zlen; lia).
Qed.

(** The queue after the PDU was sent. *)
Lemma sent_queue n buffer' e' : UmTx.granted e s rest size n buffer' e' -> 0 < k <= Seg.size s ->
  UmTx.queue e' = (if k =? Seg.size s then [] else [(zlen got + k, drop (Z.to_nat k) b)]) ++ tail (UmTx.queue e) /\
  waiting e' = (if k =? Seg.size s then [] else [drop (Z.to_nat k) b]) ++ tail (waiting e) /\
  Forall (fun x => x <> []) (waiting e') /\ zsum zlen (waiting e') = zsum zlen (waiting e) - k.
Proof using Hk El.
  intros (_ & _ & _ & _ & Hq & _) Hkk. fold b k in Hq.
  destruct um_head_facts as (d & _ & Hz & Hpos & Hso & _). destruct head_queue as [Eq Ew].
  rewrite Hso in Hq. split; [done|].
  pose proof (k_bytes _ _ _ Hk) as Hb. rewrite Ew in Hb. apply Forall_cons in Hb as [_ Hb].
  assert (Ew' : waiting e' = (if k =? Seg.size s then [] else [drop (Z.to_nat k) b]) ++ tail (waiting e)).
  { unfold waiting at 1. rewrite Hq, map_app. unfold waiting. destruct (UmTx.queue e); by destruct (k =? Seg.size s). }
  split; [done|]. rewrite Ew'.
  assert (Hzs : zsum zlen (waiting e) = zlen b + zsum zlen (tail (waiting e)))
    by (rewrite Ew at 1; by rewrite zsum_cons).
  assert (Hdl : zlen (drop (Z.to_nat k) b) = zlen b - k) by (rewrite zlen_drop; lia).
  destruct (Z.eqb_spec k (Seg.size s)) as [E|Hne]; cbn [app].
  - split; [done|lia].
  - split; [|rewrite zsum_cons; lia]. constructor; [|done]. intros E0. rewrite E0 in Hdl.
    change (zlen []) with 0 in Hdl. lia.
Qed.

(** The SDU at the head is through: the link goes on with the others. *)
Lemma link_rest n buffer' e' r' : UmTx.wf e' -> UmTx.rx_part e' = UmTx.rx_part e ->
  UmTx.granted e s rest size n buffer' e' -> k = Seg.size s -> frame r' = frame r ->
  in_step (fun _ => got ++ b) r' (tx_next e') 0 -> link e' r' [] /\ content e got = (got ++ b) :: content e' [].
Proof using Hk El.
  intros Hwf' Hrx Hgr E F Hs. destruct um_head_facts as (d & _ & _ & Hpos & _). destruct head_queue as [_ Ew].
  destruct (sent_queue n buffer' e' Hgr) as (Eq' & Ew' & Hb' & _); [lia|].
  rewrite E, Z.eqb_refl in Eq', Ew'. cbn [app] in Eq', Ew'. split.
  - split; [done| | | |done].
    + assert (sn_field_length r' = sn_field_length r) as -> by (unfold frame, UmTx.tx_part in F; congruence).
      rewrite (k_len _ _ _ Hk). unfold UmTx.rx_part in Hrx. congruence.
    + by eapply in_step_content.
    + rewrite Eq'. pose proof (queue_tail_first e (k_tx _ _ _ Hk)) as Htl.
      destruct (tail (UmTx.queue e)) as [|p l]; [done|]. by apply Forall_cons in Htl as [-> _].
  - unfold content. rewrite Ew', Ew. cbn [tail]. by destruct (tail (waiting e)).
Qed.

(** A part of the SDU went through. *)
Lemma link_part n buffer' e' r' : UmTx.wf e' -> UmTx.rx_part e' = UmTx.rx_part e ->
  UmTx.granted e s rest size n buffer' e' -> 0 < k < Seg.size s -> frame r' = frame r ->
  in_step (fun _ => got ++ b) r' (tx_next e') (zlen got + k) ->
  link e' r' (got ++ take (Z.to_nat k) b) /\ content e got = content e' (got ++ take (Z.to_nat k) b).
Proof using Hk El.
  intros Hwf' Hrx Hgr Hkk F Hs. destruct um_head_facts as (d & _ & Hz & _). destruct head_queue as [_ Ew].
  assert (Hlen : zlen (take (Z.to_nat k) b) = k) by (unfold zlen in *; rewrite length_take; lia).
  destruct (sent_queue n buffer' e' Hgr) as (Eq' & Ew' & Hb' & _); [lia|].
  destruct (Z.eqb_spec k (Seg.size s)) as [|_]; [lia|]. cbn [app] in Eq', Ew'. split.
  - split; [done| | | |done].
    + assert (sn_field_length r' = sn_field_length r) as -> by (unfold frame, UmTx.tx_part in F; congruence).
      rewrite (k_len _ _ _ Hk). unfold UmTx.rx_part in Hrx. congruence.
    + rewrite Ew'. cbn [hd]. by rewrite <- app_assoc, take_drop, zlen_app, Hlen.
    + rewrite Eq'. cbn. rewrite zlen_app. lia.
  - unfold content. rewrite Ew', Ew. cbn [tail]. by rewrite <- app_assoc, take_drop.
Qed.

(** The PDU goes from one side to the other: the bytes it carries move, and an SDU that
    is complete is delivered. *)
Lemma link_pdu n buffer' e' : UmTx.wf e' -> UmTx.rx_part e' = UmTx.rx_part e ->
  UmTx.granted e s rest size n buffer' e' -> exists r' got' out,
  nr_rlc_entity_um_recv_pdu r (take (Z.to_nat n) buffer') = Ok r' /\ frame r' = frame r /\
  trace (common r') = trace (common r) ++ map DeliverSdu out /\ link e' r' got' /\
  content e got = out ++ content e' got' /\ zsum zlen (waiting e') < zsum zlen (waiting e).
Proof using Hk El Hroom Hg.
  intros Hwf' Hrx Hgr. pose proof Hgr as (_ & _ & Hc & Hnext & _). fold b k sg in Hc, Hnext.
  destruct (pdu_read _ Hc) as (Hkk & Hlast & Hfirst & Hdec & Hdrop & Hdrop1).
  destruct um_head_facts as (d & _ & Hz & _ & Hso & Hend & Hmax & _ & Hf). destruct head_queue as [_ Ew].
  destruct (sent_queue n buffer' e' Hgr Hkk) as (_ & _ & _ & Hdecr).
  pose proof (k_rx _ _ _ Hk) as Hin. rewrite Ew in Hin. cbn [hd] in Hin.
  set (pdu := take (Z.to_nat n) buffer') in *. unfold UmTx.next_sn in Hnext. rewrite Hfirst in Hnext.
  destruct (Seg.is_first s && Seg.is_last sg) eqn:Efl.
  - apply andb_true_iff in Efl as [Ef Elst]. rewrite Ef, Elst in *. specialize (Hdrop1 eq_refl eq_refl).
    pose proof (proj1 Hlast eq_refl) as Ek.
    assert (Eg : got = []) by (apply nil_length_inv; unfold zlen in Hso; lia).
    destruct (recv_whole _ r _ _ pdu Hin Hdec) as (r' & E & F & Tr & Hs).
    cbn in Hnext. rewrite Eg in Hs. rewrite <- Hnext in Hs. rewrite Hdrop1, take_ge in Tr by (unfold zlen in *; lia).
    destruct (link_rest n buffer' e' r' Hwf' Hrx Hgr Ek F) as [Hlk Hcont]; [by rewrite Eg|].
    exists r', [], [b]. rewrite Hcont, Eg. split_and!; try done. lia.
  - assert (Hsl := next_slice (Seg.is_first s) (Seg.is_last sg) Hlast Hkk).
    destruct (recv_next (fun _ => got ++ b) r _ _ pdu k _ _ Hin Hdec) as (r' & E & F & Tr & Hs);
      [by rewrite Hdrop|rewrite zlen_app; lia|]. cbv beta in Tr. destruct (Seg.is_last sg) eqn:Elst.
    + assert (Ef : Seg.is_first s = false) by (by destruct (Seg.is_first s)). rewrite Ef in Hnext. cbn in Hnext.
      rewrite (link_modulus _ _ _ Hk), <- Hnext in Hs.
      destruct (link_rest n buffer' e' r' Hwf' Hrx Hgr (proj1 Hlast eq_refl) F Hs) as [Hlk Hcont].
      exists r', [], [got ++ b]. rewrite Hcont. split_and!; try done. lia.
    + rewrite andb_false_r in Hnext. rewrite <- Hnext in Hs.
      assert (Hne : k <> Seg.size s) by (intros Ek; apply Hlast in Ek; congruence).
      destruct (link_part n buffer' e' r' Hwf' Hrx Hgr ltac:(lia) F Hs) as [Hlk Hcont].
      exists r', (got ++ take (Z.to_nat k) b), []. rewrite Hcont. split_and!; try done. lia.
Qed.
End grant.

(** What a grant does to a link. *)
Lemma link_grant now_us e r got buffer size :
  link e r got -> size <= zlen buffer -> UmTx.grant_ok e size -> exists n buffer' e',
  nr_rlc_entity_um_generate_pdu now_us e buffer size = Ok (n, buffer', e') /\
  UmTx.rx_part e' = UmTx.rx_part e /\ tx_maxsize e' = tx_maxsize e /\ tx_size e' <= tx_size e /\
  zlen buffer' = zlen buffer /\
  if n =? 0 then e' = e /\ (waiting e = [] \/ size < 5)
  else n <= size /\ exists r' got' out,
    nr_rlc_entity_um_recv_pdu r (take (Z.to_nat n) buffer') = Ok r' /\ frame r' = frame r /\
    trace (common r') = trace (common r) ++ map DeliverSdu out /\ link e' r' got' /\
    content e got = out ++ content e' got' /\ zsum zlen (waiting e') < zsum zlen (waiting e).
Proof.
  intros Hk Hsz Hg. pose proof (k_tx _ _ _ Hk) as Hwf.
  destruct (UmTx.generate_spec now_us e buffer size Hwf Hsz Hg) as (n & buffer' & e' & E & Hwf' & Hrx & Hm & Hl & H).
  exists n, buffer', e'. split; [done|]. split; [done|]. split; [done|].
  destruct (tx_list e) as [|s rest] eqn:El.
  { destruct H as [-> ->]. split; [done|]. split; [done|]. cbn. split; [done|]. left.
    unfold waiting, UmTx.queue. by rewrite El. }
  pose proof (UmTx.um_header_size_bounds e s).
  destruct (Z.ltb_spec size (compute_pdu_header_size e s + 1)) as [Hsm|Hroom].
  { destruct H as [-> ->]. split; [done|]. split; [done|]. cbn. split; [done|]. right. lia. }
  pose proof H as (_ & Hn & Hc & _ & _ & Hts).
  destruct (pdu_read e r got s rest size Hk El Hroom Hg _ Hc) as (Hkk & _).
  split; [lia|]. split; [done|]. destruct (Z.eqb_spec n 0); [lia|]. split; [lia|].
  by apply (link_pdu e r got s rest size Hk El Hroom Hg n buffer' e').
Qed.

(** ** Runs *)

Inductive call :=
| Submit (sdu : list Z) (sdu_id : Z)    (** [recv_sdu] *)
| Grant (size : Z)                      (** [generate_pdu], and [recv_pdu] of the peer *)
| Clock (now : Z).                      (** [set_time] *)

(** [a] is called; its peer is [b]. *)
Definition act (now_us : Z) (a b : t) (c : call) : res (t * t) :=
  match c with
  | Submit sdu id => a ← nr_rlc_entity_um_recv_sdu now_us a sdu id; mret (a, b)
  | Grant size =>
      '(n, buffer, a) ← nr_rlc_entity_um_generate_pdu now_us a (replicate (Z.to_nat size) 0) size;
      if n =? 0 then mret (a, b)
      else b ← nr_rlc_entity_um_recv_pdu b (take (Z.to_nat n) buffer); mret (a, b)
  | Clock now => a ← nr_rlc_entity_um_set_time a now; mret (a, b)
  end.

Definition step (now_us : Z) (ab : t * t) (c : bool * call) : res (t * t) :=
  if c.1 then act now_us ab.1 ab.2 c.2 else '(b, a) ← act now_us ab.2 ab.1 c.2; mret (a, b).

(** Calls for entities with SNs of [n] bits: with 12 bits a grant of two bytes is left
    out, which loses the SDU at the head of the queue. *)
Definition permitted (n : Z) (c : call) : Prop :=
  match c with
  | Submit sdu _ => 0 < zlen sdu <= NR_SDU_MAX
  | Grant size => 0 <= size /\ (n = 6 \/ size <> 2)
  | Clock _ => True
  end.

Definition submits (c : call) : list (list Z) := match c with Submit sdu _ => [sdu] | _ => [] end.

(** The SDUs handed to one side in a run. *)
Definition submitted (side : bool) (cs : list (bool * call)) : list (list Z) :=
  cs ≫= (fun c => if bool_decide (c.1 = side) then submits c.2 else []).

Definition space (e : t) : Z := tx_maxsize e - tx_size e.

(** From one state to another, [sub] was handed to [e] and [out] delivered by [r]: the
    SDUs that enter go to the end of the content and the SDUs that leave come from its
    front; all enter when there is space for all. *)
Record flow (e r : t) (got : list Z) (e' r' : t) (got' : list Z) (sub out : list (list Z)) : Prop := {
  f_link : link e' r' got';
  f_len : sn_field_length e' = sn_field_length e;
  f_trace : trace (common r') = trace (common r) ++ map DeliverSdu out;
  f_fifo : exists acc, content e got ++ acc = out ++ content e' got' /\ acc `sublist_of` sub /\
    (zsum zlen sub <= space e -> acc = sub /\ space e - zsum zlen sub <= space e')
}.

Lemma flow_refl e r got e' r' : UmTx.tx_part e' = UmTx.tx_part e -> tx_maxsize e' = tx_maxsize e ->
  rx_state r' = rx_state r -> trace (common r') = trace (common r) -> link e r got -> flow e r got e' r' got [] [].
Proof.
  intros Ht Hm Hr Htr Hk. pose proof Ht as Hl. injection Hl as El _ _ _ _ _ _ _ _ _.
  split; [by eapply link_frame|done|by rewrite app_nil_r|]. exists [].
  injection Ht as _ _ _ _ E5 _ E7 E8 _ _. unfold content, waiting, UmTx.queue, space.
  rewrite E5, E7, E8, Hm, app_nil_r. split; [done|]. split; [done|]. intros _. split; [done|]. cbn. lia.
Qed.

Lemma flow_trans e r g e1 r1 g1 e2 r2 g2 s1 s2 o1 o2 :
  flow e r g e1 r1 g1 s1 o1 -> flow e1 r1 g1 e2 r2 g2 s2 o2 -> flow e r g e2 r2 g2 (s1 ++ s2) (o1 ++ o2).
Proof.
  intros [_ N1 T1 (a1 & C1 & S1 & P1)] [L2 N2 T2 (a2 & C2 & S2 & P2)]. split; [done|congruence| |].
  - by rewrite T2, T1, map_app, app_assoc.
  - exists (a1 ++ a2). split; [by rewrite app_assoc, C1, <- app_assoc, C2, app_assoc|].
    split; [by apply sublist_app|]. rewrite zsum_app. intros Hs.
    assert (0 <= zsum zlen s2) by (apply zsum_nonneg, Forall_forall; intros; apply zlen_nonneg).
    destruct P1 as [-> H1]; [lia|]. destruct P2 as [-> H2]; [lia|]. split; [done|lia].
Qed.

(** What the fields of the frames give. *)
Lemma rx_part_state e e' : UmTx.rx_part e' = UmTx.rx_part e ->
  rx_state e' = rx_state e /\ trace (common e') = trace (common e).
Proof. unfold UmTx.rx_part, rx_state, rx_fields. intros E. split; congruence. Qed.

Lemma rx_part_len e e' : UmTx.rx_part e' = UmTx.rx_part e -> sn_field_length e' = sn_field_length e.
Proof. unfold UmTx.rx_part. congruence. Qed.

Lemma frame_parts e e' : frame e' = frame e -> UmTx.tx_part e' = UmTx.tx_part e /\ tx_maxsize e' = tx_maxsize e.
Proof. unfold frame. intros E. split; congruence. Qed.

Lemma act_ok now_us a b ga gb c : link a b ga -> link b a gb -> permitted (sn_field_length a) c -> exists a' b' ga' out,
  act now_us a b c = Ok (a', b') /\ flow a b ga a' b' ga' (submits c) out /\ flow b a gb b' a' gb [] [].
Proof.
  intros Hab Hba Hc. destruct c as [sdu id|size|now]; cbn [act permitted submits] in *.
  - destruct (link_submit now_us a b ga sdu id Hab Hc) as (a' & E & Hrx & Hm & Hk & Hcont).
    destruct (rx_part_state _ _ Hrx) as [Hrs Htr].
    exists a', b, ga, []. rewrite E, res_bind_unfold. split; [done|]. split; [|by apply flow_refl].
    split; [done|by apply rx_part_len|by rewrite app_nil_r|]. unfold space. cbn [zsum foldr app]. rewrite Hm.
    destruct (Z.leb_spec (zlen sdu) (tx_maxsize a - tx_size a)); destruct Hcont as [Ec Es]; rewrite Ec, Es.
    + exists [sdu]. split; [done|]. split; [done|]. intros _. split; [done|lia].
    + exists []. rewrite app_nil_r. split; [done|]. split; [apply sublist_nil_l|]. lia.
  - assert (Hz : size <= zlen (replicate (Z.to_nat size) 0)) by (unfold zlen; rewrite length_replicate; lia).
    destruct (link_grant now_us a b ga _ size Hab Hz) as (n & buffer & a' & E & Hrx & Hm & Hs & _ & H); [apply Hc|].
    destruct (rx_part_state _ _ Hrx) as [Hrs Htr]. rewrite E, res_bind_unfold. destruct (n =? 0).
    + destruct H as [-> _]. exists a, b, ga, []. split; [done|]. split; by apply flow_refl.
    + destruct H as (_ & b' & ga' & out & E' & F & T & Hk & Hcont & _).
      destruct (frame_parts _ _ F) as [Ft Fm]. exists a', b', ga', out. rewrite E', res_bind_unfold.
      split; [done|]. split; [|by apply flow_refl]. split; [done|by apply rx_part_len|done|]. exists [].
      rewrite app_nil_r. split; [done|]. split; [done|]. intros _. split; [done|]. unfold space. cbn. lia.
  - rewrite (clock_idle _ _ _ _ now (k_rx _ _ _ Hba)), res_bind_unfold.
    eexists _, b, ga, []. split; [done|]. split; by apply flow_refl.
Qed.

Lemma link_run_ok now_us cs a b ga gb :
  link a b ga -> link b a gb -> Forall (fun c => permitted (sn_field_length a) c.2) cs -> exists a' b' ga' gb' outa outb,
  res_foldl (step now_us) (a, b) cs = Ok (a', b') /\
  flow a b ga a' b' ga' (submitted true cs) outa /\ flow b a gb b' a' gb' (submitted false cs) outb.
Proof.
  intros Hab Hba Hc. remember (sn_field_length a) as n eqn:Hn.
  revert a b ga gb Hab Hba Hn. induction Hc as [|[d c] cs Hp _ IH]; intros a b ga gb Hab Hba Hn.
  { exists a, b, ga, gb, [], []. split; [done|]. split; by apply flow_refl. }
  cbn [res_foldl]. cbn [snd] in Hp. unfold submitted. cbn [mbind list_bind fst snd].
  destruct d.
  - destruct (act_ok now_us a b ga gb c Hab Hba ltac:(by rewrite <- Hn)) as (a1 & b1 & g1 & o1 & E & F1 & F2).
    destruct (IH a1 b1 g1 gb (f_link _ _ _ _ _ _ _ _ F1) (f_link _ _ _ _ _ _ _ _ F2)
      ltac:(by rewrite (f_len _ _ _ _ _ _ _ _ F1)))
      as (a2 & b2 & ga2 & gb2 & oa & ob & E2 & G1 & G2).
    exists a2, b2, ga2, gb2, (o1 ++ oa), ob.
    change (step now_us (a, b) (true, c)) with (act now_us a b c). rewrite E, res_bind_unfold. split; [done|].
    split; [by apply (flow_trans _ _ _ a1 b1 g1)|]. by apply (flow_trans _ _ _ b1 a1 gb _ _ _ [] _ [] _).
  - destruct (act_ok now_us b a gb ga c Hba Hab ltac:(by rewrite (k_len _ _ _ Hab), <- Hn)) as (b1 & a1 & g1 & o1 & E & F1 & F2).
    destruct (IH a1 b1 ga g1 (f_link _ _ _ _ _ _ _ _ F2) (f_link _ _ _ _ _ _ _ _ F1)
      ltac:(by rewrite (f_len _ _ _ _ _ _ _ _ F2)))
      as (a2 & b2 & ga2 & gb2 & oa & ob & E2 & G1 & G2).
    exists a2, b2, ga2, gb2, oa, (o1 ++ ob).
    change (step now_us (a, b) (false, c)) with ('(b, a) ← act now_us b a c; mret (a, b)).
    rewrite E, !res_bind_unfold. split; [done|].
    split; [by apply (flow_trans _ _ _ a1 b1 ga _ _ _ [] _ [] _)|]. by apply (flow_trans _ _ _ b1 a1 g1).
Qed.

Lemma no_backlog a b ga : link a b ga -> zsum zlen (waiting a) <= 0 -> waiting a = [].
Proof.
  intros Hk Hz. pose proof (k_bytes _ _ _ Hk) as Hb. destruct (waiting a) as [|x l]; [done|]. exfalso.
  apply Forall_cons in Hb as [Hx _]. rewrite zsum_cons in Hz.
  assert (0 <= zsum zlen l) by (apply zsum_nonneg, Forall_forall; intros; apply zlen_nonneg).
  destruct x as [|y x]; [done|]. rewrite zlen_cons in Hz. pose proof (zlen_nonneg x). lia.
Qed.

(** Grants of at least five bytes, one for each byte that waits, bring everything to
    the other side. *)
Lemma drain_ok now_us size k a b ga gb :
  link a b ga -> link b a gb -> 5 <= size -> zsum zlen (waiting a) <= Z.of_nat k -> exists a' b',
  res_foldl (step now_us) (a, b) (replicate k (true, Grant size)) = Ok (a', b') /\
  link a' b' [] /\ link b' a' gb /\ waiting a' = [] /\
  trace (common b') = trace (common b) ++ map DeliverSdu (content a ga).
Proof.
  intros Hab Hba Hs. revert a b ga Hab Hba. induction k as [|k IH]; intros a b ga Hab Hba Hz.
  - pose proof (no_backlog _ _ _ Hab Hz) as Hw.
    assert (ga = []) as ->.
    { pose proof (k_head _ _ _ Hab) as Hh. unfold waiting in Hw. by destruct (UmTx.queue a). }
    exists a, b. unfold content. rewrite Hw, app_nil_r. done.
  - cbn [replicate res_foldl]. change (step now_us (a, b) (true, Grant size)) with (act now_us a b (Grant size)).
    cbn [act]. assert (Hlen : size <= zlen (replicate (Z.to_nat size) 0)) by (unfold zlen; rewrite length_replicate; lia).
    destruct (link_grant now_us a b ga _ size Hab Hlen) as (n & buffer & a1 & E & Hrx & Hm & _ & _ & H); [right; lia|].
    rewrite E, res_bind_unfold. destruct (n =? 0).
    + destruct H as [-> [Hw|]]; [|lia]. rewrite res_ret_bind. apply IH; [done|done|]. rewrite Hw. cbn. lia.
    + destruct H as (_ & b1 & g1 & out & E1 & F & T & Hk & Hc & Hlt).
      destruct (rx_part_state _ _ Hrx) as [Hrs Htr]. destruct (frame_parts _ _ F) as [Ft Fm].
      rewrite E1, !res_bind_unfold. assert (Hba1 : link b1 a1 gb) by (by eapply link_frame).
      destruct (IH a1 b1 g1 Hk Hba1) as (a2 & b2 & E2 & L1 & L2 & Hw & T2); [lia|].
      exists a2, b2. split; [done|]. split_and!; try done. by rewrite T2, T, Hc, map_app, app_assoc.
Qed.

Lemma new_sn_length rx tx t n e : new_nr_rlc_entity_um rx tx t n = Ok e -> sn_field_length e = n.
Proof. unfold new_nr_rlc_entity_um. intros H. destruct (_ || _); [|done]. by res_inv. Qed.

(** Two new entities. *)
Lemma link_new rx1 tx1 t1 rx2 tx2 t2 n a b :
  new_nr_rlc_entity_um rx1 tx1 t1 n = Ok a -> new_nr_rlc_entity_um rx2 tx2 t2 n = Ok b ->
  NR_SDU_MAX <= rx2 -> link a b [].
Proof.
  intros Ea Eb Hmax. unfold NR_SDU_MAX in Hmax. destruct (UmTx.um_new_wf _ _ _ _ _ Ea) as (Hwf & Hq & Hn).
  destruct (umrx_new_wf rx2 tx2 t2 n b) as ([Hco _] & Hl & _); [lia|done|].
  assert (Hf : sn_field_length a = n /\ sn_field_length b = n /\ rx_next_reassembly b = 0 /\ rx_next_highest b = 0
    /\ t_reassembly_start b = 0 /\ rx_size b = 0 /\ rx_maxsize b = rx2).
  { unfold new_nr_rlc_entity_um in Ea, Eb. destruct ((n =? 6) || (n =? 12)); [|done].
    res_inv. done. }
  destruct Hf as (F1 & F2 & F3 & F4 & F5 & F6 & F7).
  split; [done|congruence| |by rewrite Hq|unfold waiting; by rewrite Hq].
  rewrite Hn. split; rewrite ?Hl; try done; try apply Forall_nil_2. by rewrite F7.
Qed.

Lemma new_empty rx tx t n a : new_nr_rlc_entity_um rx tx t n = Ok a ->
  content a [] = [] /\ space a = tx /\ trace (common a) = [].
Proof.
  intros Ea. destruct (UmTx.um_new_wf _ _ _ _ _ Ea) as (_ & Hq & _). unfold content, waiting. rewrite Hq.
  split; [done|]. unfold new_nr_rlc_entity_um in Ea. destruct (_ || _); [|done].
  apply res_bind_ok in Ea as (c & Hc & Ea). apply new_common_ok in Hc as (_ & _ & _ & Htr). res_inv.
  split; [unfold space; cbn; lia|done].
Qed.
End UmLink.
