(* ===== verification/Stack.v ===== *)
(** * The whole uplink: TUN interface, SDAP, PDCP, RLC, MAC grants, and back up

    A UE and a gNB with one DRB in unacknowledged mode.  The UE reads packets from its
    TUN interface; SDAP and PDCP make PDUs of them, which wait in RLC; MAC gives grants,
    whose transport blocks reach the RLC layer of the gNB, which gives complete PDUs to
    PDCP, SDAP and GTP-U.  MAC loses nothing.  The threads between the layers
    ([rlc_data_req_thread], [rlc_data_ind_thread]) have run when a layer returns. *)

From S2P Require Import Prelude Hashtable F1apIds Secu PdcpSdu Events Sdap SdapSpec Asn1.
From S2P Require Import PdcpEntity PdcpUe PdcpUeSpec PdcpSecurity PdcpRx PdcpRecv PdcpTx PdcpRun.
From S2P Require Import UserPlane TimeStat RlcPdu RlcSdu RlcRxManager RlcEntity RlcUm.
From S2P Require Import RlcUmTx RlcUmRx RlcApi RlcUe RlcUeSpec RlcUmLink.

Module Stack.
Import Secu Events PdcpTx PdcpLink UserPlane.
Import RlcUe RlcUeSpec.

(** ** A UM entity in the table of RLC *)

Record um_at (m : manager) (id lcid drb_id : Z) (e : Um.t) : Prop := {
  ua_wf : wf m;
  ua_lcid : place_of_lcid (ue_of m id) lcid = Ok (Some (Drb (drb_id - 1)));
  ua_drb : 1 <= drb_id <= MAX_DRBS_PER_UE;
  ua_entity : drb (ue_of m id) !! Z.to_nat (drb_id - 1) = Some (Some (EntityUM e))
}.

Lemma um_at_put m m' id lcid drb_id e e' : um_at m id lcid drb_id e ->
  changed m m' id (put_at (ue_of m id) (Drb (drb_id - 1)) (Some (EntityUM e'))) -> um_at m' id lcid drb_id e'.
Proof.
  intros [Hw Hl Hd He] [Hw' _ Hu]. specialize (Hu id). rewrite decide_True in Hu by done.
  split; rewrite ?Hu; [done| |done|].
  - exact Hl.
  - cbn [put_at drb]. apply list_lookup_insert_eq. by apply lookup_lt_Some in He.
Qed.

Lemma um_at_clock m id lcid drb_id e t : um_at m id lcid drb_id e ->
  um_at {| m with nr_rlc_current_time := t |} id lcid drb_id e.
Proof. intros [[H1 H2] H3 H4 H5]. by split. Qed.

Section call.
Context (du2cu : F1apIds.table).

(** A function of the entity through the table. *)
Lemma um_call {B} m id lcid drb_id e sel (none b : B) f e' out ev : um_at m id lcid drb_id e ->
  sel (ue_of m id) = Ok (Some (Drb (drb_id - 1))) -> f (EntityUM e) = Ok (EntityUM e', b) ->
  Entity.trace (Um.common e') = Entity.trace (Um.common e) ++ out ->
  callbacks du2cu m (ue_of m id) (Drb (drb_id - 1)) out = Ok ev -> exists m',
  with_entity du2cu m id sel none f = Ok (m', ev, b) /\ um_at m' id lcid drb_id e' /\
  settings m' = settings m.
Proof.
  intros Ha Hsel Hf Htr Hcb. pose proof (rlc_with_entity_ok du2cu m id sel none f (ua_wf _ _ _ _ _ Ha)) as H.
  unfold on_ue in H. rewrite Hsel, res_bind_unfold in H. cbn [entity_at] in H.
  rewrite (proj2 (zget_ok _ _ (Some (EntityUM e)))) in H; [|split; [pose proof (ua_drb _ _ _ _ _ Ha); lia|apply Ha] ].
  rewrite res_bind_unfold, Hf, res_bind_unfold in H. unfold new_calls in H. cbn [common_of] in H.
  rewrite Htr, drop_app_length, Hcb in H. destruct H as (m' & E & Hc). exists m'. split; [done|].
  split; [by apply (um_at_put m m' id lcid drb_id e)|by apply Hc].
Qed.
End call.

(** ** The two nodes *)

Record stack := mk_stack {
  ue_pdcp : PdcpUe.manager;
  ue_rlc : manager;
  gnb : PdcpUe.world;
  gnb_rlc : manager;
  outputs : list event        (** what left the gNB *)
}.

Inductive op :=
| Packet (pkt : list Z)       (** a packet read from the TUN interface *)
| Grant (size : Z)            (** a transport block of this size for the channel *)
| UeTick                      (** a millisecond of the UE *)
| GnbTick.                    (** a millisecond of the gNB *)

Section stack.
Context `{P : Platform} `{L : !PlatformLaws P}.
Context (ndu ndg : PdcpUe.pdcp_node) (ue_f1 du2cu : F1apIds.table).
Context (eu : Sdap.t) (rnti lcid now_us : Z).

(** [rlc_data_req_thread]. *)
Definition to_rlc (m : manager) (e : event) : res manager :=
  match e with
  | RlcDataReq x =>
      '(m, _) ← nr_rlc_data_req ue_f1 now_us m (ctxt_pP x) (srb_flagP x) (rb_idP x) (muiP x) (sdu_pP x);
      mret m
  | _ => mret m
  end.

(** [rlc_data_ind_thread] of PDCP. *)
Definition to_pdcp (we : PdcpUe.world * list event) (e : event) : res (PdcpUe.world * list event) :=
  match e with
  | PdcpDataInd x =>
      '(w, ev) ← PdcpUe.do_pdcp_data_ind ndg we.1 (ind_ctxt x) (ind_srb_flag x) (ind_rb_id x) (ind_sdu_buffer x);
      mret (w, we.2 ++ ev)
  | _ => mret we
  end.

Definition step (st : stack) (o : op) : res stack :=
  match o with
  | Packet pkt =>
      '(m, ev, _) ← Sdap.tun_packet (A := PdcpUe.pdcp_api ndu) (ue_pdcp st) eu pkt;
      r ← res_foldl to_rlc (ue_rlc st) ev;
      mret {| st with ue_pdcp := m; ue_rlc := r |}
  | Grant size =>
      '(r, _, (n, buffer)) ← nr_mac_rlc_data_req ue_f1 now_us (ue_rlc st) (Sdap.ue_id eu) lcid size
                               (replicate (Z.to_nat size) 0);
      let st := {| st with ue_rlc := r |} in
      if n =? 0 then mret st
      else
        '(g, ev) ← nr_mac_rlc_data_ind du2cu (gnb_rlc st) rnti lcid (take (Z.to_nat n) buffer);
        '(w, out) ← res_foldl to_pdcp (gnb st, outputs st) ev;
        mret {| st with gnb := w; gnb_rlc := g; outputs := out |}
  | UeTick => mret {| st with ue_rlc := nr_rlc_ms_tick (ue_rlc st) |}
  | GnbTick => mret {| st with gnb_rlc := nr_rlc_ms_tick (gnb_rlc st) |}
  end.

(** ** Packets between the two ends *)

(** The PDUs of PDCP for a list of SDUs. *)
Fixpoint pdus (s : Pdcp.t) (l : list (list Z)) : list (list Z) :=
  match l with
  | [] => []
  | x :: l => pdu_of s x :: pdus (sent s x) l
  end.

Lemma pdus_snoc s l x : pdus s (l ++ [x]) = pdus s l ++ [pdu_of (foldl sent s l) x].
Proof. revert s. induction l as [|y l IH]; intros s; cbn; [done|]. by rewrite IH. Qed.

Lemma pdus_split s l xs ys : pdus s l = xs ++ ys -> exists l1 l2,
  l = l1 ++ l2 /\ xs = pdus s l1 /\ ys = pdus (foldl sent s l1) l2.
Proof.
  revert s l. induction xs as [|x xs IH]; intros s l E; [by exists [], l|].
  destruct l as [|y l]; [done|]. cbn in E. injection E as <- E.
  destruct (IH _ _ E) as (l1 & l2 & -> & -> & ->). by exists (y :: l1), l2.
Qed.

Context (idg drb_id ps : Z) (eg : Sdap.t).

(** [pkts] is between the two ends: [s0] is the sender of PDCP when it had sent what the
    gNB has received, and RLC holds the PDUs it has sent since. *)
Record flying (st : stack) (pkts : list (list Z)) (s0 r : Pdcp.t) (a b : Um.t) (ga gb : list Z) : Prop := {
  fl_gnb : gnb_ready ndg idg drb_id (Sdap.qfi eu) eg (gnb st) s0 r;
  fl_session : Pdcp.pdusession_id r = ps;
  fl_ue : sender (ue_pdcp st) (Sdap.ue_id eu) drb_id (foldl sent s0 (map (ul_sdu eu) pkts));
  fl_a : um_at (ue_rlc st) (Sdap.ue_id eu) lcid drb_id a;
  fl_b : um_at (gnb_rlc st) rnti lcid drb_id b;
  fl_mode : mode (gnb_rlc st) = NR_RLC_OP_MODE_MONO_GNB;
  fl_ab : UmLink.link a b ga;
  fl_ba : UmLink.link b a gb;
  fl_content : UmLink.content a ga = pdus s0 (map (ul_sdu eu) pkts);
  fl_pkts : Forall packet pkts
}.

(** What RRC and F1 have set up. *)
Record configured : Prop := {
  cf_mapping : ue_mapping eu drb_id;
  cf_id : u16 (Sdap.ue_id eu) = Sdap.ue_id eu;
  cf_rnti : u16 rnti = rnti;
  cf_f1 : exists d, F1apIds.du_get_f1_ue_data du2cu rnti = Ok d /\ F1apIds.secondary_ue d = idg
}.

(** [pkts] is between the two ends, RLC has room for [room] bytes and [backlog] bytes
    wait in it. *)
Definition carries (st : stack) (pkts : list (list Z)) (room backlog : Z) : Prop :=
  exists s0 r a b ga gb, flying st pkts s0 r a b ga gb /\ room <= UmLink.space a /\
    backlog = zsum zlen (UmLink.waiting a).

Lemma i32_of_u16 z : u16 z = z -> i32 z = z.
Proof.
  unfold u16, i32, u32. intros Hz. pose proof (Z.mod_pos_bound z (2 ^ 16)) as Hb.
  rewrite Z.mod_small by lia. cbv zeta. destruct (Z.ltb_spec z (2 ^ 31)); lia.
Qed.

Context (Hcf : configured).

Lemma sent_active s l : Pdcp.is_gnb (foldl sent s l) = Pdcp.is_gnb s.
Proof. revert s. induction l as [|x l IH]; intros s; cbn; [done|]. by rewrite IH. Qed.

(** The clock of the entity, before each function. *)
Lemma clocked a b ga gb now : UmLink.link a b ga -> UmLink.link b a gb -> exists a',
  set_time (EntityUM a) now = Ok (EntityUM a') /\ UmLink.link a' b ga /\ UmLink.link b a' gb /\
  UmLink.content a' ga = UmLink.content a ga /\ UmLink.space a' = UmLink.space a /\
  UmLink.waiting a' = UmLink.waiting a /\ Entity.trace (Um.common a') = Entity.trace (Um.common a).
Proof.
  intros Hab Hba. eexists. cbn [set_time]. rewrite (UmLink.clock_idle _ _ _ _ now (UmLink.k_rx _ _ _ Hba)).
  split; [done|]. split; [by apply (UmLink.link_frame a _ b)|]. split; [by apply (UmLink.link_frame b _ a)|done].
Qed.

(** *** A packet *)

Lemma data_req_ok m a b ga gb pdu mui : um_at m (Sdap.ue_id eu) lcid drb_id a ->
  UmLink.link a b ga -> UmLink.link b a gb -> 0 < zlen pdu <= Entity.NR_SDU_MAX -> zlen pdu <= UmLink.space a ->
  exists m' a',
  to_rlc m (PdcpUe.enqueue_pdu (ctxt_of false (Sdap.ue_id eu)) false drb_id mui pdu) = Ok m' /\
  um_at m' (Sdap.ue_id eu) lcid drb_id a' /\ UmLink.link a' b ga /\ UmLink.link b a' gb /\
  UmLink.content a' ga = UmLink.content a ga ++ [pdu] /\ UmLink.space a' = UmLink.space a - zlen pdu.
Proof using Hcf.
  intros Ha Hab Hba Hp Hroom.
  destruct (clocked a b ga gb (nr_rlc_current_time m) Hab Hba) as (a1 & E1 & Hab1 & Hba1 & C1 & S1 & _ & T1).
  destruct (UmLink.link_submit now_us a1 b ga pdu mui Hab1 Hp) as (a2 & E2 & Hrx & Hm & Hab2 & Hc).
  unfold UmLink.space in *. destruct (Z.leb_spec (zlen pdu) (Um.tx_maxsize a1 - Um.tx_size a1)) as [_|]; [|lia].
  destruct Hc as [C2 Z2]. destruct (UmLink.rx_part_state _ _ Hrx) as [Hrs Htr].
  destruct (um_call ue_f1 m (Sdap.ue_id eu) lcid drb_id a
    (fun _ => mret (place_of_rb MAX_DRBS_PER_UE false drb_id)) tt tt
    (fun x => x ← set_time x (nr_rlc_current_time m); x ← recv_sdu now_us x pdu mui; mret (x, tt)) a2 [] [] Ha)
    as (m' & E & Ha' & _); [| | |done|].
  - unfold place_of_rb. pose proof (ua_drb _ _ _ _ _ Ha).
    destruct (Z.geb_spec drb_id 1), (Z.leb_spec drb_id MAX_DRBS_PER_UE); try lia. done.
  - rewrite E1, res_bind_unfold. cbn [recv_sdu entity_transmitter um_transmitter]. by rewrite E2.
  - by rewrite app_nil_r, Htr, T1.
  - exists m', a2. unfold to_rlc, PdcpUe.enqueue_pdu, nr_rlc_data_req.
    cbn [ctxt_pP srb_flagP rb_idP muiP sdu_pP ctxt_of rntiMaybeUEid].
    rewrite (i32_of_u16 _ (cf_id Hcf)), E. split; [done|]. split; [done|]. split; [done|].
    split; [by apply (UmLink.link_frame b _ a1)|]. split; [by rewrite C2, C1|lia].
Qed.

Lemma packet_ok st pkts s0 r a b ga gb pkt : flying st pkts s0 r a b ga gb -> packet pkt ->
  zlen pkt + 8 <= UmLink.space a -> exists st' a',
  step st (Packet pkt) = Ok st' /\ flying st' (pkts ++ [pkt]) s0 r a' b ga gb /\
  UmLink.space a - (zlen pkt + 8) <= UmLink.space a' /\ outputs st' = outputs st.
Proof using Hcf L.
  intros [Hg Hps Hu Ha Hb Hmo Hab Hba Hc Hp] Hpk Hroom. pose proof (ua_drb _ _ _ _ _ Ha) as Hd.
  set (s := foldl sent s0 (map (ul_sdu eu) pkts)) in *.
  assert (Hus : Pdcp.is_gnb s = false) by (unfold s; rewrite sent_active; apply Hg).
  destruct (tun_send ndu eu drb_id (ue_pdcp st) s pkt (cf_mapping Hcf)) as (mu' & E1 & Hs');
    [lia|done|done|done|].
  pose proof (pdu_length s (ul_sdu eu pkt) (PdcpRun.inv_sec s (sd_inv _ _ _ _ Hu))) as Hpl.
  pose proof (PdcpRecv.hsize_range s). pose proof (PdcpRecv.isize_range s). destruct Hpk as [Hpb Hpz].
  assert (Hz : zlen (ul_sdu eu pkt) = 1 + zlen pkt) by apply zlen_cons.
  destruct (data_req_ok (ue_rlc st) a b ga gb (pdu_of s (ul_sdu eu pkt)) Sdap.RLC_MUI_UNDEFINED Ha Hab Hba)
    as (m' & a' & E2 & Ha' & Hab' & Hba' & C' & S'); [unfold Entity.NR_SDU_MAX; lia|lia|].
  eexists _, a'. unfold step. rewrite E1, res_bind_unfold. cbn [res_foldl]. rewrite E2, res_bind_unfold.
  split; [done|]. split; [|split; [lia|done] ].
  split; cbn [gnb ue_pdcp ue_rlc gnb_rlc]; try done.
  - by rewrite map_app, foldl_app.
  - rewrite C', Hc, map_app. cbn [map]. by rewrite pdus_snoc.
  - apply Forall_app. split; [done|]. by apply Forall_singleton.
Qed.

(** *** A grant *)

(** The calls that the RLC entity of the gNB makes. *)
Lemma gnb_callbacks m u out : mode m = NR_RLC_OP_MODE_MONO_GNB -> ue_id u = rnti ->
  callbacks du2cu m u (Drb (drb_id - 1)) (map Entity.DeliverSdu out)
  = Ok (map (fun x => PdcpDataInd (mk_ind_item (ctxt_of true idg) false drb_id x)) out).
Proof using Hcf.
  intros Hm Hu. destruct (cf_f1 Hcf) as (d & Hd & Hs).
  induction out as [|x out IH]; cbn [map callbacks callback]; [done|]. rewrite IH. unfold deliver_sdu.
  unfold nr_rlc_manager_get_gnb_flag, nr_rlc_manager_rlc_is_split. rewrite Hm, Hu. cbn [bool_decide negb].
  rewrite !bool_decide_false by done. cbn [negb andb]. rewrite Hd, res_bind_unfold, Hs.
  by rewrite Z.sub_add.
Qed.

(** PDCP and SDAP of the gNB, for the PDUs of a list of packets. *)
Lemma gnb_deliveries pkts wg s r ev : gnb_ready ndg idg drb_id (Sdap.qfi eu) eg wg s r -> Forall packet pkts ->
  exists wg' r',
  res_foldl to_pdcp (wg, ev) (map (fun x => PdcpDataInd (mk_ind_item (ctxt_of true idg) false drb_id x))
                                (pdus s (map (ul_sdu eu) pkts)))
    = Ok (wg', ev ++ map (GtpuSend idg (Pdcp.pdusession_id r)) pkts) /\
  gnb_ready ndg idg drb_id (Sdap.qfi eu) eg wg' (foldl sent s (map (ul_sdu eu) pkts)) r' /\
  Pdcp.pdusession_id r' = Pdcp.pdusession_id r.
Proof using Hcf L.
  intros Hg Hp. revert wg s r ev Hg. induction Hp as [|pkt pkts Hpkt _ IH]; intros wg s r ev Hg.
  { exists wg, r. cbn. by rewrite app_nil_r. }
  destruct (gnb_receive ndg idg drb_id eu eg wg s r pkt (cf_mapping Hcf) Hg Hpkt) as (w1 & r1 & E1 & Hg1 & P1).
  destruct (IH w1 _ r1 (ev ++ [GtpuSend idg (Pdcp.pdusession_id r) pkt]) Hg1) as (w2 & r2 & E2 & Hg2 & P2).
  exists w2, r2. split; [|split; [exact Hg2|congruence] ].
  cbn [map pdus res_foldl to_pdcp ind_ctxt ind_srb_flag ind_rb_id ind_sdu_buffer fst snd].
  rewrite E1, res_bind_unfold. cbn [mbind res_bind mret res_ret]. rewrite E2, P1. by rewrite <- app_assoc.
Qed.

Lemma grant_ok st pkts s0 r a b ga gb size : flying st pkts s0 r a b ga gb -> 0 <= size -> size <> 2 ->
  exists st' pkts1 pkts2 s0' r' a' b' ga',
  step st (Grant size) = Ok st' /\ pkts = pkts1 ++ pkts2 /\ flying st' pkts2 s0' r' a' b' ga' gb /\
  outputs st' = outputs st ++ map (GtpuSend idg ps) pkts1 /\ UmLink.space a <= UmLink.space a' /\
  (zsum zlen (UmLink.waiting a') < zsum zlen (UmLink.waiting a) \/
   UmLink.waiting a' = UmLink.waiting a /\ (UmLink.waiting a = [] \/ size < 5)).
Proof using Hcf L.
  intros [Hg Hps Hu Ha Hb Hmo Hab Hba Hc Hp] Hz H2.
  set (buf := replicate (Z.to_nat size) 0).
  assert (Hlen : size <= zlen buf) by (unfold buf, zlen; rewrite length_replicate; lia).
  destruct (clocked a b ga gb (nr_rlc_current_time (ue_rlc st)) Hab Hba)
    as (a1 & E1 & Hab1 & Hba1 & C1 & S1 & W1 & T1).
  destruct (clocked b a1 gb ga (nr_rlc_current_time (gnb_rlc st)) Hba1 Hab1)
    as (b1 & E2 & Hba2 & Hab2 & C2 & S2 & W2 & T2).
  destruct (UmLink.link_grant now_us a1 b1 ga buf size Hab2 Hlen) as (n & buf' & a2 & E3 & Hrx & Hm & Hts & _ & H);
    [right; lia|].
  destruct (UmLink.rx_part_state _ _ Hrx) as [Hrs Htr].
  destruct (um_call ue_f1 (ue_rlc st) (Sdap.ue_id eu) lcid drb_id a
    (fun u => place_of_lcid u lcid) (0, buf) (n, buf')
    (fun x => x ← set_time x (nr_rlc_current_time (ue_rlc st));
              '(n, buffer, x) ← generate_pdu now_us x buf size; mret (x, (n, buffer))) a2 [] [] Ha)
    as (m' & E & Ha' & _); [apply Ha| |by rewrite app_nil_r, Htr, T1|done|].
  { rewrite E1, res_bind_unfold. cbn [generate_pdu]. by rewrite E3. }
  assert (Hsp : UmLink.space a <= UmLink.space a2) by (unfold UmLink.space in *; lia).
  unfold step, nr_mac_rlc_data_req. fold buf. rewrite (cf_id Hcf), E, res_bind_unfold. cbn [gnb_rlc gnb outputs].
  destruct (n =? 0).
  { destruct H as [-> Hidle]. eexists _, [], pkts, s0, r, a1, b, ga. split; [done|]. split; [done|].
    split; [by split; cbn [gnb ue_pdcp ue_rlc gnb_rlc]; try done; rewrite C1|].
    cbn [outputs map]. rewrite app_nil_r. split; [done|]. split; [done|]. right. rewrite W1 in *. done. }
  destruct H as (_ & b2 & ga' & out & E4 & F & Tr & Hab3 & Hcont & Hdec).
  destruct (UmLink.frame_parts _ _ F) as [Ft Fm]. rewrite C1, Hc in Hcont.
  destruct (pdus_split _ _ _ _ Hcont) as (l1 & l2 & El & -> & Hc2).
  apply map_eq_app in El as (pkts1 & pkts2 & -> & <- & <-). apply Forall_app in Hp as [Hp1 Hp2].
  destruct (um_call du2cu (gnb_rlc st) rnti lcid drb_id b
    (fun u => place_of_lcid u lcid) tt tt
    (fun x => x ← set_time x (nr_rlc_current_time (gnb_rlc st));
              x ← recv_pdu x (take (Z.to_nat n) buf'); mret (x, tt)) b2
    (map Entity.DeliverSdu (pdus s0 (map (ul_sdu eu) pkts1)))
    (map (fun x => PdcpDataInd (mk_ind_item (ctxt_of true idg) false drb_id x)) (pdus s0 (map (ul_sdu eu) pkts1))) Hb)
    as (g' & Eg & Hb' & Hset); [apply Hb| |by rewrite Tr, T2|apply gnb_callbacks; [done|by apply ue_of_id, Hb]|].
  { rewrite E2, res_bind_unfold. cbn [recv_pdu]. by rewrite E4. }
  destruct (gnb_deliveries pkts1 (gnb st) s0 r (outputs st) Hg Hp1) as (w' & r' & Ew & Hg' & Hps').
  unfold nr_mac_rlc_data_ind. rewrite (cf_rnti Hcf), Eg, !res_bind_unfold, Ew, res_bind_unfold.
  eexists _, pkts1, pkts2, _, r', a2, b2, ga'. split; [done|]. split; [done|].
  split; [|split; [cbn [outputs]; by rewrite Hps|split; [done|left; by rewrite <- W1] ] ].
  split; cbn [gnb ue_pdcp ue_rlc gnb_rlc]; try done.
  - by rewrite Hps'.
  - by rewrite <- foldl_app, <- map_app.
  - unfold settings in Hset. congruence.
  - by apply (UmLink.link_frame b1 _ a1).
Qed.

(** ** Runs *)

Definition permitted (o : op) : Prop :=
  match o with
  | Packet pkt => packet pkt
  | Grant size => 0 <= size /\ size <> 2
  | UeTick | GnbTick => True
  end.

Definition packets (o : op) : list (list Z) := match o with Packet pkt => [pkt] | _ => [] end.

(** What an operation takes of the room of RLC: the packet, the headers and the MAC-I. *)
Definition cost (o : op) : Z := match o with Packet pkt => zlen pkt + 8 | _ => 0 end.

Lemma cost_nonneg o : 0 <= cost o.
Proof. destruct o as [pkt| | |]; cbn; [pose proof (zlen_nonneg pkt)|..]; lia. Qed.

Lemma step_ok st pkts room backlog o : carries st pkts room backlog -> permitted o -> cost o <= room ->
  exists st' out pkts' backlog', step st o = Ok st' /\ carries st' pkts' (room - cost o) backlog' /\
  pkts ++ packets o = out ++ pkts' /\ outputs st' = outputs st ++ map (GtpuSend idg ps) out.
Proof using Hcf L.
  intros (s0 & r & a & b & ga & gb & Hf & Hroom & Hback) Hp Hcost.
  destruct o as [pkt|size| |]; cbn [packets cost permitted] in *.
  - destruct (packet_ok st pkts s0 r a b ga gb pkt Hf Hp) as (st' & a' & E & Hf' & Hs & Ho); [lia|].
    exists st', [], (pkts ++ [pkt]). eexists. split; [done|]. cbn [map app]. rewrite app_nil_r.
    split; [|done]. exists s0, r, a', b, ga, gb. split; [done|]. split; [lia|reflexivity].
  - destruct Hp as [Hz H2].
    destruct (grant_ok st pkts s0 r a b ga gb size Hf Hz H2)
      as (st' & p1 & p2 & s1 & r1 & a1 & b1 & g1 & E & -> & Hf' & Ho & Hs & _).
    exists st', p1, p2. eexists. split; [done|]. rewrite app_nil_r. split; [|done].
    exists s1, r1, a1, b1, g1, gb. split; [done|]. split; [lia|reflexivity].
  - eexists _, [], pkts, backlog. split; [reflexivity|]. cbn [map app outputs]. rewrite !app_nil_r.
    split; [|done]. exists s0, r, a, b, ga, gb. split; [|split; [lia|done] ]. destruct Hf. split; try done.
    by apply um_at_clock.
  - eexists _, [], pkts, backlog. split; [reflexivity|]. cbn [map app outputs]. rewrite !app_nil_r.
    split; [|done]. exists s0, r, a, b, ga, gb. split; [|split; [lia|done] ]. destruct Hf. split; try done.
    by apply um_at_clock.
Qed.

Lemma stack_run_ok ops st pkts room backlog : carries st pkts room backlog -> Forall permitted ops ->
  zsum cost ops <= room -> exists st' out pkts' backlog', res_foldl step st ops = Ok st' /\
  carries st' pkts' (room - zsum cost ops) backlog' /\ pkts ++ (ops ≫= packets) = out ++ pkts' /\
  outputs st' = outputs st ++ map (GtpuSend idg ps) out.
Proof using Hcf L.
  intros Hc Hp. revert st pkts room backlog Hc. induction Hp as [|o ops Ho _ IH]; intros st pkts room backlog Hc Hr.
  { exists st, [], pkts, backlog. cbn. rewrite !app_nil_r, Z.sub_0_r. done. }
  rewrite zsum_cons in Hr |- *.
  assert (0 <= zsum cost ops) by (apply zsum_nonneg, Forall_forall; intros; apply cost_nonneg).
  destruct (step_ok st pkts room backlog o Hc Ho) as (st1 & out1 & p1 & b1 & E1 & Hc1 & P1 & O1); [lia|].
  destruct (IH st1 p1 (room - cost o) b1 Hc1) as (st2 & out2 & p2 & b2 & E2 & Hc2 & P2 & O2); [lia|].
  exists st2, (out1 ++ out2), p2, b2. cbn [res_foldl]. rewrite E1, res_bind_unfold. split; [done|].
  split; [by replace (room - (cost o + zsum cost ops)) with (room - cost o - zsum cost ops) by lia|].
  change ((o :: ops) ≫= packets) with (packets o ++ (ops ≫= packets)).
  rewrite app_assoc, P1, <- app_assoc, P2, app_assoc.
  split; [done|]. by rewrite O2, O1, map_app, app_assoc.
Qed.

Lemma nothing_flies st pkts s0 r a b ga gb :
  flying st pkts s0 r a b ga gb -> UmLink.waiting a = [] -> pkts = [].
Proof.
  intros Hf Hw. pose proof (fl_content _ _ _ _ _ _ _ _ Hf) as Hc. unfold UmLink.content in Hc.
  rewrite Hw in Hc. by destruct pkts.
Qed.

(** A grant for each byte that waits. *)
Lemma stack_drain_ok size k st pkts room backlog : carries st pkts room backlog -> 5 <= size ->
  backlog <= Z.of_nat k -> exists st', res_foldl step st (replicate k (Grant size)) = Ok st' /\
  carries st' [] room 0 /\ outputs st' = outputs st ++ map (GtpuSend idg ps) pkts.
Proof using Hcf L.
  intros Hc Hs. revert st pkts backlog Hc.
  induction k as [|k IH]; intros st pkts backlog (s0 & r & a & b & ga & gb & Hf & Hroom & ->) Hk.
  - pose proof (UmLink.no_backlog _ _ _ (fl_ab _ _ _ _ _ _ _ _ Hf) Hk) as Hw.
    pose proof (nothing_flies _ _ _ _ _ _ _ _ Hf Hw) as ->. exists st. split; [done|].
    split; [|by rewrite app_nil_r]. exists s0, r, a, b, ga, gb. split; [done|]. split; [done|]. by rewrite Hw.
  - destruct (grant_ok st pkts s0 r a b ga gb size Hf) as (st1 & p1 & p2 & s1 & r1 & a1 & b1 & g1 & E & -> & Hf1 & Ho & Hsp & Hd);
      [lia|lia|].
    destruct (IH st1 p2 (zsum zlen (UmLink.waiting a1))) as (st2 & E2 & Hc2 & O2).
    { exists s1, r1, a1, b1, g1, gb. split; [done|]. split; [lia|done]. }
    { destruct Hd as [Hd|[Ew [Hw|]]]; [lia| |lia]. rewrite Ew, Hw. cbn. lia. }
    exists st2. cbn [replicate res_foldl]. rewrite E, res_bind_unfold. split; [done|]. split; [done|].
    by rewrite O2, Ho, map_app, app_assoc.
Qed.
End stack.
End Stack.
