(* ===== verification/RlcFixtures.v ===== *)
(** * RLC: entities in concrete states

    Entities reached by calls from new ones, with the proof that they satisfy the
    invariants; the witnesses of the properties use them. *)

From S2P Require Import Prelude TimeStat RlcPdu RlcSdu RlcRxManager RlcEntity RlcTm RlcUm.
From S2P Require Import RlcUmTx RlcUmRx RlcAm RlcAmStatus RlcAmControl RlcAmRx RlcAmRxSpec.
From S2P Require Import RlcAmTx RlcAmTxInv RlcAmControlSpec RlcAmTxSpec RlcAmTimers Asn1.
From S2P Require Import Hashtable F1apIds Events RlcApi RlcUe RlcUeSpec.

Module Fixtures.
Import Entity.

Definition ok_or {A} (a : A) (r : res A) : A := match r with Ok x => x | Fault _ => a end.

Lemma ok_or_eq {A} (a x : A) r : r = Ok x -> ok_or a r = x.
Proof. by intros ->. Qed.

(** ** Acknowledged mode, 12-bit SNs *)

Lemma am_created : { e | Am.new_nr_rlc_entity_am 1000 1000 45 35 0 (-1) (-1) 8 12 = Ok e }.
Proof. eexists. vm_compute. reflexivity. Defined.

Definition am0 : Am.t := proj1_sig am_created.

(** An SDU of 3 bytes waits. *)
Definition am1 : Am.t := ok_or am0 (AmTx.nr_rlc_entity_am_recv_sdu 5 am0 [10; 11; 12] 77).

Definition buf20 : list Z := replicate 20 0.

(** It was sent whole; the peer reports it missing. *)
Definition am2 : Am.t :=
  ok_or am1 ('(_, _, e) ← AmTx.generate_tx_pdu 5 am1 buf20 20; mret e).

Definition nack_pdu : list Z := [0; 1; 128; 0; 0].

Lemma am0_rx_wf : AmRxSpec.wf am0 /\ forall D, AmRxSpec.honest D am0.
Proof.
  destruct (AmRxSpec.am_new_wf 1000 1000 45 35 0 (-1) (-1) 8 12 am0 ltac:(lia) (proj2_sig am_created)) as (H1 & H2 & _).
  done.
Qed.

(** The window is that of [am0] in all of them. *)
Lemma am2_rx_wf : AmRxSpec.wf am2 /\ forall D, AmRxSpec.honest D am2.
Proof.
  destruct am0_rx_wf as [Hwf Hh]. assert (Hp : AmTxInv.rx_part am2 = AmTxInv.rx_part am0) by (by vm_compute).
  split; [by apply (AmTimers.rx_wf_part am0)|]. intros D. by apply (AmTimers.honest_part D am0).
Qed.

(** The head of the transmission list, and its SDU. *)
Definition seg1 : Seg.t := List.hd (Seg.mk_seg 0 0 0 0 true true) (Am.tx_list am1).
Definition sdu1 : Sdu.t := ok_or (Sdu.mk_sdu 0 0 [] 0 0 0 0 0) (Store.deref (Am.st am1) seg1).

Lemma am1_head :
  Am.tx_list am1 = [seg1] /\ Store.sdus (Am.st am1) !! Seg.sdu seg1 = Some sdu1
  /\ Am.wait_list am1 = [] /\ Am.retransmit_list am1 = [].
Proof. vm_compute. done. Qed.

Lemma am0_inv D : AmEntity.inv D am0.
Proof.
  by apply (AmEntity.new_inv D 1000 1000 45 35 0 (-1) (-1) 8 12 am0 ltac:(lia) (proj2_sig am_created)).
Qed.

Definition calls2 : list AmEntity.call :=
  [AmEntity.RecvSdu 5 [10; 11; 12] 77; AmEntity.GeneratePdu 5 buf20 20].

Lemma run2 D : AmEntity.run D am0 calls2 D am2.
Proof.
  eapply AmEntity.run_cons; [by vm_compute|vm_compute; reflexivity|].
  eapply AmEntity.run_cons; [by vm_compute|vm_compute; reflexivity|]. exact (AmEntity.run_nil D am2).
Qed.

Lemma am1_inv D : AmEntity.inv D am1.
Proof.
  apply (AmEntity.run_inv D am0 [AmEntity.RecvSdu 5 [10; 11; 12] 77] D am1); [|apply am0_inv].
  eapply AmEntity.run_cons; [by vm_compute|vm_compute; reflexivity|]. exact (AmEntity.run_nil D am1).
Qed.

Lemma am2_inv D : AmEntity.inv D am2.
Proof. exact (AmEntity.run_inv _ _ _ _ _ (run2 D) (am0_inv D)). Qed.

Lemma am2_nacks_below : AmControlSpec.nacks_below am2 nack_pdu.
Proof.
  intros ack_sn e1 d Hd. vm_compute in Hd. injection Hd as <- <- <-.
  match goal with |- Forall _ ?l => let l' := eval vm_compute in l in change l with l' end.
  constructor; [|constructor]. intros i Hi. simpl in Hi. assert (i = 0) as -> by lia.
  vm_compute. done.
Qed.

(** SDU 1 was received, and the first two bytes of SDU 3; t_reassembly expired
    twice. *)
Definition sdus5 (sn : Z) : list Z := if sn =? 1 then [7] else [9; 8; 6].

Definition calls5 : list AmEntity.call :=
  [AmEntity.SetTime 10; AmEntity.RecvPdu [128; 1; 7]; AmEntity.RecvPdu [144; 3; 9; 8];
   AmEntity.SetTime 100; AmEntity.SetTime 200].

Definition am5 : Am.t := ok_or am0 (res_foldl AmEntity.exec am0 calls5).

(** A data PDU with the slice of an SDU. *)
Lemma permitted_data D e pdu p n so k f l :
  AmRx.decode_header e pdu = Ok (AmRx.DataPdu p n so k f l) ->
  AmRxSpec.off e n <> Am.window_size e - 1 ->
  Chain.slice_of (D n) (Pdu.nr_rlc_new_pdu n so f l (drop (Z.to_nat (zlen pdu - k)) pdu)) ->
  zlen (D n) <= NR_SDU_MAX -> AmEntity.permitted D e (AmEntity.RecvPdu pdu).
Proof.
  intros E Hn Hs Hm. unfold AmEntity.permitted. rewrite E. split.
  - intros p' n' so' k' f' l' E'. rewrite E in E'. by injection E' as <- <- <- <- <- <-.
  - intros p' n' so' k' f' l' E'. rewrite E in E'. by injection E' as <- <- <- <- <- <-.
Qed.

Lemma run5 : AmEntity.run sdus5 am0 calls5 sdus5 am5.
Proof.
  eapply AmEntity.run_cons; [done|vm_compute; reflexivity|].
  eapply AmEntity.run_cons; [|vm_compute; reflexivity|].
  { eapply permitted_data; [vm_compute; reflexivity|by vm_compute| |by vm_compute].
    constructor; by vm_compute. }
  eapply AmEntity.run_cons; [|vm_compute; reflexivity|].
  { eapply permitted_data; [vm_compute; reflexivity|by vm_compute| |by vm_compute].
    constructor; by vm_compute. }
  eapply AmEntity.run_cons; [done|vm_compute; reflexivity|].
  eapply AmEntity.run_cons; [done|vm_compute; reflexivity|].
  exact (AmEntity.run_nil sdus5 am5).
Qed.

Lemma am5_inv : AmEntity.inv sdus5 am5.
Proof. exact (AmEntity.run_inv _ _ _ _ _ run5 (am0_inv sdus5)). Qed.

(** ** Unacknowledged mode, 6-bit SNs *)

Lemma um_created : { e | Um.new_nr_rlc_entity_um 1000 1000 35 6 = Ok e }.
Proof. eexists. vm_compute. reflexivity. Defined.

Definition um0 : Um.t := proj1_sig um_created.
Definition um1 : Um.t := ok_or um0 (Um.nr_rlc_entity_um_recv_sdu 5 um0 [10; 11; 12] 77).

Lemma um0_rx_wf : UmRx.wf um0 /\ Um.rx_list um0 = [].
Proof.
  destruct (UmRx.umrx_new_wf 1000 1000 35 6 um0 ltac:(lia) (proj2_sig um_created)) as (H1 & H2 & _). done.
Qed.

Lemma um0_wf : UmTx.wf um0.
Proof. apply (UmTx.um_new_wf _ _ _ _ _ (proj2_sig um_created)). Qed.

Lemma um1_wf : UmTx.wf um1.
Proof.
  destruct (UmTx.um_recv_sdu_spec 5 um0 [10; 11; 12] 77 um0_wf) as (e & E & Hwf & _).
  { unfold zlen, NR_SDU_MAX. simpl. lia. }
  unfold um1. by rewrite E.
Qed.

Definition useg1 : Seg.t := List.hd (Seg.mk_seg 0 0 0 0 true true) (Um.tx_list um1).
Definition usdu1 : Sdu.t := ok_or (Sdu.mk_sdu 0 0 [] 0 0 0 0 0) (Store.deref (Um.st um1) useg1).

Lemma um1_head : Um.tx_list um1 = [useg1] /\ Store.sdus (Um.st um1) !! Seg.sdu useg1 = Some usdu1.
Proof. vm_compute. done. Qed.

(** ** Transparent mode *)

Lemma tm_created : { e | Tm.new_nr_rlc_entity_tm 1000 = Ok e }.
Proof. eexists. vm_compute. reflexivity. Defined.

Definition tm0 : Tm.t := proj1_sig tm_created.
Definition tm1 : Tm.t := ok_or tm0 (Tm.nr_rlc_entity_tm_recv_sdu 5 tm0 [10; 11; 12] 77).

Lemma tm0_wf : Tm.wf tm0.
Proof. apply (Tm.tm_new_wf _ _ (proj2_sig tm_created)). Qed.

Lemma tm1_wf : Tm.wf tm1.
Proof.
  destruct (Tm.tm_recv_sdu_spec 5 tm0 [10; 11; 12] 77 tm0_wf) as (e & E & Hwf & _).
  { unfold zlen, NR_SDU_MAX. simpl. lia. }
  unfold tm1. by rewrite E.
Qed.

End Fixtures.

(** * RLC: scenarios that show limits of the code

    Sequences of calls, evaluated on the model, that end in a state or in a fault
    the code does not mean to have.  Each one starts from a new entity. *)
Module Scenarios.
Import Entity.

(** ** Acknowledged mode *)

Definition new_am : res Am.t := Am.new_nr_rlc_entity_am 1000 1000 45 35 0 (-1) (-1) 8 12.

Definition am_recv (e : Am.t) (pdus : list (list Z)) : res Am.t :=
  res_foldl AmRx.nr_rlc_entity_am_recv_pdu e pdus.

(** [n] SDUs of 3 bytes, and [n] grants of 100 bytes. *)
Definition am_sdus (n : Z) (e : Am.t) : res Am.t :=
  res_foldl (fun e id => AmTx.nr_rlc_entity_am_recv_sdu 0 e [1; 2; 3] id) e (seqZ 0 n).

Definition am_send (n : nat) (e : Am.t) : res Am.t :=
  res_foldl (fun e buffer =>
    '(_, _, e) ← AmTx.nr_rlc_entity_am_generate_pdu 0 e buffer 100; mret e)
    e (replicate n (replicate 100 0)).

(** Three SDUs sent, all of them reported missing: they wait for
    retransmission.  The PDU is ACK_SN 3, NACK_SN 0 with range 3. *)
Definition three_nacked : res Am.t :=
  e ← new_am; e ← am_sdus 3 e; e ← am_send 3 e; am_recv e [[0; 3; 128; 0; 2; 3]].

(** A segment beyond the end of the SDU (bytes 10 to 10), then the whole SDU (3
    bytes): the copy of the first one reads before its buffer. *)
Lemma reassembly_reads_out_of_bounds :
  (e ← new_am; am_recv e [[176; 0; 0; 10; 1]; [128; 0; 1; 2; 3]]) = Fault OutOfBounds.
Proof. vm_compute. reflexivity. Qed.

(** A NACK for the ACK_SN (1) that matches no byte of the SDU: the SDUs 1 and 2
    leave the retransmit list, neither freed nor counted out of the buffer
    status. *)
Lemma retransmit_list_is_lost :
  (e ← three_nacked; mret (zlen (Am.retransmit_list e), retx_size (bstatus (Am.common e))))
  = Ok (3, 15)
  /\ (e ← three_nacked; e ← am_recv e [[0; 1; 128; 0; 20; 0; 5; 0; 9]];
      mret (zlen (Am.wait_list e), zlen (Am.retransmit_list e), zlen (Am.tx_list e),
            retx_size (bstatus (Am.common e)), Store.bytes (Am.st e)))
     = Ok (0, 0, 0, 10, 6).
Proof. split; vm_compute; reflexivity. Qed.

(** A status report whose NACKs (SN 2, then SN 0) decrease is valid. *)
Lemma decreasing_nacks_are_valid :
  (e ← new_am; e ← am_sdus 3 e; e ← am_send 3 e;
   AmControl.validate_control_pdu e [0; 3; 128; 0; 40; 0; 0]) = Ok true.
Proof. vm_compute. reflexivity. Qed.

(** SDU 0 (end only) and SDU 2047 (start only) are received, RX_Highest_Status is
    at the end of the window. *)
Definition both_ends : res Am.t :=
  e ← new_am;
  e ← am_recv {| e with Am.t_current := 10 |} [[160; 0; 0; 5; 9]; [151; 255; 1; 2]];
  e ← AmRx.check_t_reassembly {| e with Am.t_current := 100 |};
  AmRx.check_t_reassembly {| e with Am.t_current := 200 |}.

(** The status report goes on behind the window, SN 2302 to 2556 included
    (0x8f, 0xea, 255 is NACK_SN 2302 with range 255): it fills any grant. *)
Lemma status_report_wraps :
  (e ← both_ends; mret (Am.rx_next e, Am.rx_highest_status e)) = Ok (0, 2048)
  /\ (e ← both_ends; AmStatus.status_size e 300) = Ok 300
  /\ (e ← both_ends; '(n, buffer, _) ← AmStatus.generate_status e (replicate 300 0) 300;
      mret (n, take 3 (drop 43 buffer))) = Ok (300, [143; 234; 255]).
Proof. split_and!; vm_compute; reflexivity. Qed.

(** SDUs 1 to 4 are received and reported about: the ACK_SN is the SN behind the
    last NACK (1), not the next SN that is not received (5). *)
Definition first_missing : res Am.t :=
  e ← new_am;
  e ← am_recv {| e with Am.t_current := 10 |} (map (fun sn => [128; sn; 7]) [1; 2; 3; 4]);
  e ← AmRx.check_t_reassembly {| e with Am.t_current := 100 |};
  AmRx.check_t_reassembly {| e with Am.t_current := 200 |}.

Lemma ack_sn_follows_last_nack :
  (e ← first_missing; mret (Am.rx_highest_status e)) = Ok 5
  /\ (e ← first_missing; '(n, buffer, _) ← AmStatus.generate_status e (replicate 10 0) 10;
      mret (take (Z.to_nat n) buffer)) = Ok [0; 1; 128; 0; 0].
Proof. split; vm_compute; reflexivity. Qed.

(** SDU 0 is sent and reported missing (ACK_SN 1, NACK_SN 0); SDUs 1 to 2046 are
    sent and acknowledged, which leaves a trace in TX_Next only, then SDU 2047
    (ACK_SN 2048, NACK_SN 0).  SDU 0 is sent again, with a poll, and is reported
    missing again (ACK_SN 1, NACK_SN 0): the poll timer runs, the window stalls
    and no segment waits for an acknowledgement. *)
Definition missing_first (ack_sn : Z) : AmEntity.call :=
  AmEntity.RecvPdu [ack_sn / 256; ack_sn mod 256; 128; 0; 0].

Definition stalled_window : res Am.t :=
  let send := AmEntity.GeneratePdu 0 [0; 0; 0; 0] 4 in
  e ← new_am;
  e ← res_foldl AmEntity.exec {| e with Am.t_current := 10 |}
        [AmEntity.RecvSdu 0 [7] 0; send; missing_first 1];
  res_foldl AmEntity.exec {| e with Am.tx_next := 2047 |}
    [AmEntity.RecvSdu 0 [8] 1; send; send; missing_first 2048; send; missing_first 1].

(** When the timer expires, the head of the empty wait list is used all the
    same. *)
Lemma poll_retransmit_needs_wait_list :
  (e ← stalled_window; mret (length (Am.wait_list e), length (Am.retransmit_list e),
                             Am.is_window_stalling e)) = Ok (0%nat, 1%nat, true)
  /\ (e ← stalled_window; AmTx.nr_rlc_entity_am_set_time e 100) = Fault NullDeref.
Proof. split; vm_compute; reflexivity. Qed.

(** The first 2 bytes of an SDU of 4 are sent; t_reassembly of the peer expires
    and it reports the rest missing (ACK_SN 1, NACK_SN 0 from offset 2 on); the
    rest is sent, and the SDU is acknowledged (ACK_SN 1) three times. *)
Definition partly_sent : res Am.t :=
  e ← new_am;
  res_foldl AmEntity.exec {| e with Am.t_current := 10 |}
    [AmEntity.RecvSdu 0 [7; 8; 9; 10] 5; AmEntity.GeneratePdu 0 [0; 0; 0; 0] 4;
     AmEntity.RecvPdu [0; 1; 128; 0; 4; 0; 2; 255; 255];
     AmEntity.GeneratePdu 0 (replicate 10 0) 10;
     AmEntity.RecvPdu [0; 1; 0]; AmEntity.RecvPdu [0; 1; 0]; AmEntity.RecvPdu [0; 1; 0]].

(** TX_Next_Ack is beyond the SDU whose second half still waits: the
    acknowledgements are not for it any more, and the upper layer is never told. *)
Lemma partly_sent_never_acked :
  (e ← partly_sent; mret (Am.tx_next_ack e, map (fun s => (Seg.so s, Seg.size s)) (Am.wait_list e),
                          Entity.trace (Am.common e))) = Ok (1, [(2, 2)], []).
Proof. vm_compute. reflexivity. Qed.

(** ** Unacknowledged mode *)

Definition new_um (sn_field_length : Z) : res Um.t :=
  Um.new_nr_rlc_entity_um 1000 1000 35 sn_field_length.

(** With a 12-bit SN, a grant of 2 bytes takes an SDU off the list and sends
    nothing: the SDU is lost. *)
Lemma um_grant_of_two_bytes_loses_sdu :
  (e ← new_um 12; e ← Um.nr_rlc_entity_um_recv_sdu 0 e [1; 2; 3] 0;
   '(n, _, e) ← Um.nr_rlc_entity_um_generate_pdu 0 e [0; 0] 2;
   mret (n, zlen (Um.tx_list e), Um.tx_size e, Store.bytes (Um.st e))) = Ok (0, 0, 3, 3).
Proof. vm_compute. reflexivity. Qed.

(** A discarded SDU is still counted in [tx_size]. *)
Lemma um_discard_keeps_tx_size :
  (e ← new_um 6; e ← Um.nr_rlc_entity_um_recv_sdu 0 e [1; 2; 3] 5;
   e ← Um.nr_rlc_entity_um_discard_sdu e 5;
   mret (zlen (Um.tx_list e), Um.tx_size e)) = Ok (0, 3).
Proof. vm_compute. reflexivity. Qed.

(** Segments dropped when t_reassembly expires are still counted in
    [rx_size]. *)
Lemma um_reassembly_timeout_keeps_rx_size :
  (e ← new_um 6;
   e ← res_foldl Um.nr_rlc_entity_um_recv_pdu {| e with Um.t_current := 10 |} [[64; 1; 2; 3]; [65; 1; 2]];
   e ← Um.nr_rlc_entity_um_set_time e 100;
   mret (zlen (Um.rx_list e), Um.rx_size e)) = Ok (0, 5).
Proof. vm_compute. reflexivity. Qed.

End Scenarios.

(** * RLC: scenarios on the table of UEs

    Behaviours of [nr_rlc_oai_api.c] outside of what its callers expect, run on concrete
    tables. *)
Module RlcUeScenarios.
Import Events RlcUe.

Definition empty : manager := new_nr_rlc_ue_manager NR_RLC_OP_MODE_MONO_GNB.

(** SRB 3 on logical channel 3, with the default values. *)
Definition srb3 : NR_RLC_BearerConfig_t := mk_bearer_config 3 (Some (PR_srb_Identity 3)) None.

(** An SDU goes out on SRB 3, and the UE acknowledges it. *)
Definition srb3_acknowledged (ack : list Z) : res (manager * list event) :=
  m ← nr_rlc_add_srb empty 7 3 srb3;
  '(m, _) ← nr_rlc_srb_recv_sdu None 0 m 7 3 [1; 2; 3];
  '(m, _, _) ← nr_mac_rlc_data_req None 0 m 7 3 20 (replicate 20 0);
  nr_mac_rlc_data_ind None m 7 3 ack.

(** The acknowledgement of SN 0 stops the process: [successful_delivery] looks for SRBs
    1 and 2 only.  A status PDU that acknowledges nothing is harmless. *)
Lemma srb3_ack_exits :
  srb3_acknowledged [0; 1; 0] = Fault Exit /\ exists m, srb3_acknowledged [0; 0; 0] = Ok (m, []).
Proof. split; [vm_compute; reflexivity|]. eexists. vm_compute. reflexivity. Qed.

(** PDCP cannot send on SRB 3 either: the SDU is dropped. *)
Lemma srb3_data_req_drops :
  (m ← nr_rlc_add_srb empty 7 3 srb3;
   '(m, ev) ← nr_rlc_data_req None 0 m (ctxt_of true 7) true 3 0 [1; 2; 3];
   '(_, n) ← nr_rlc_tx_list_occupancy None m 7 3;
   mret (ev, n)) = Ok ([], 0).
Proof. vm_compute. reflexivity. Qed.

(** The functions that test for an unknown UE never see one: the UE is made.  The one
    for SRB 1 and DRB 1 then reads a null pointer. *)
Lemma reestablishment_of_unknown_ue :
  nr_rlc_test_trigger_reestablishment empty 7 = Fault NullDeref /\
  nr_rlc_update_id empty 7 8 = Ok ({| empty with ue_list := [new_ue 8] |}, true).
Proof. split; reflexivity. Qed.

Lemma reconfiguration_of_unknown_channel c : nr_rlc_reconfigure_entity None empty 7 4 c = Fault NullDeref.
Proof. reflexivity. Qed.

(** An identifier that is in use can be given a second time; the second UE is then out
    of reach. *)
Lemma update_id_in_use : exists m,
  nr_rlc_update_id {| empty with ue_list := [new_ue 2; new_ue 1] |} 1 2 = Ok (m, true) /\
  map ue_id (ue_list m) = [2; 2] /\ ~ RlcUeSpec.wf m.
Proof.
  eexists. split; [reflexivity|]. split; [reflexivity|]. intros [Hn _]. cbn in Hn.
  apply NoDup_cons in Hn as [Hn _]. apply Hn. apply list_elem_of_here.
Qed.

(** The measure of the average waiting time of channel 5 goes to DRB 2, whatever DRB
    the channel serves. *)
Definition crossed : NR_RLC_BearerConfig_t := mk_bearer_config 5 (Some (PR_drb_Identity 1))
  (Some (NR_RLC_Config_PR_um_Bi_Directional (mk_um_config (Some 1) 7 (Some 1)))).

Definition measured (m : manager) (id channel_id : Z) : res (option bool) :=
  o ← get_rlc_entity_from_lcid (RlcUeSpec.ue_of m id) channel_id;
  mret (match o with Some x => Some (Entity.avg_time_is_on (common_of x)) | None => None end).

Lemma average_of_the_wrong_drb :
  (m ← nr_rlc_add_drb empty 7 1 crossed;
   m ← nr_rlc_activate_avg_time_to_tx None m 7 5 true;
   measured m 7 5) = Ok (Some false).
Proof. vm_compute. reflexivity. Qed.
End RlcUeScenarios.
