(* ===== verification/AmProperties.v ===== *)
(** * Properties of the acknowledged mode

    The statements about [nr_rlc_entity_am.c] that the other files prepare, each
    with a witness: an entity in a concrete state that satisfies the
    hypotheses. *)

From S2P Require Import Prelude TimeStat RlcPdu RlcSdu RlcRxManager RlcEntity RlcAm.
From S2P Require Import RlcAmStatus RlcAmControl RlcAmRx RlcAmRxSpec RlcAmTx RlcAmTxInv.
From S2P Require Import RlcAmControlSpec RlcAmTxSpec RlcAmStatusSearch.
From S2P Require Import RlcAmOrder RlcAmStatusSpec RlcAmTimers RlcLink RlcFixtures RlcTm RlcUm.
From S2P Require Import RlcUmTx RlcUmRx RlcApi.

Module AmProperties.
Import Entity Am.

(** ** Reception *)

(** C29: the outcome of every data PDU of an honest peer (or PDU whose header is
    cut), in every state of the reception window.  When [stalls] holds (the segment
    is accepted and completes the SDU at the start of the window, RX_Highest_Status
    is there and every other SDU of the window is delivered) the search for the
    next SDU that is not delivered goes round all the SNs and does not end.
    Otherwise the function returns: the invariant of the reception window is kept,
    the transmitting side, the timers' configuration and the clock are not touched,
    and the calls to [deliver_sdu] are exactly [deliveries]: the SDU of the peer,
    whole and once, when the segment is accepted and completes it, and nothing
    otherwise. *)
Theorem am_recv_data_pdu D e buffer :
  AmRxSpec.wf e -> AmRxSpec.honest D e -> AmRxSpec.honest_pdu D e buffer ->
  AmRx.decode_header e buffer <> Ok AmRx.ControlPdu ->
  if AmRxSpec.stalls e buffer then AmRx.nr_rlc_entity_am_recv_pdu e buffer = Fault NoFuel
  else exists e', AmRx.nr_rlc_entity_am_recv_pdu e buffer = Ok e'
    /\ AmRxSpec.wf e' /\ AmRxSpec.honest D e' /\ AmRxSpec.frame e' = AmRxSpec.frame e
    /\ trace (common e') = trace (common e) ++ AmRxSpec.deliveries D e buffer.
Proof.
  intros Hwf Hh Hp Hc. pose proof (AmRxSpec.recv_pdu_ok D e buffer Hwf Hh Hp Hc) as H.
  destruct (AmRxSpec.stalls e buffer); [done|]. destruct H as (e' & E & H1 & H2 & F & Tr & _). by exists e'.
Qed.

(** An SDU of one byte, whole, on a new entity: it is delivered. *)
Lemma am_recv_data_pdu_witness :
  exists e', AmRx.nr_rlc_entity_am_recv_pdu Fixtures.am0 [128; 0; 7] = Ok e' /\ AmRxSpec.wf e'
    /\ trace (common e') = [DeliverSdu [7]].
Proof.
  assert (Hp : AmRxSpec.honest_pdu (fun _ => [7]) Fixtures.am0 [128; 0; 7]).
  { intros p sn so n f l Ed. vm_compute in Ed. injection Ed as <- <- <- <- <- <-.
    split; [|vm_compute; discriminate]. constructor; vm_compute; try done. }
  assert (Hc : AmRx.decode_header Fixtures.am0 [128; 0; 7] <> Ok AmRx.ControlPdu)
    by (vm_compute; discriminate).
  assert (Es : AmRxSpec.stalls Fixtures.am0 [128; 0; 7] = false) by (vm_compute; reflexivity).
  destruct Fixtures.am0_rx_wf as [Hwf Hh].
  pose proof (am_recv_data_pdu (fun _ => [7]) Fixtures.am0 [128; 0; 7] Hwf (Hh _) Hp Hc) as H.
  rewrite Es in H. destruct H as (e' & E & Hwf' & _ & _ & Tr).
  exists e'. split; [exact E|]. split; [exact Hwf'|]. rewrite Tr. vm_compute. reflexivity.
Defined.

(** C30: a control PDU is processed without fault whatever its bytes are: both
    sides keep their invariants, the queue of new SDUs and TX_Next are not
    touched, only SDUs with an SN below the received ACK_SN are reported to the
    upper layer as transmitted, and no segment gets lost when the NACKs are below
    the ACK_SN. *)
Theorem am_recv_control_pdu D e lost buffer :
  AmTxInv.wf e lost -> AmRxSpec.wf e -> AmRxSpec.honest D e ->
  AmRx.decode_header e buffer = Ok AmRx.ControlPdu ->
  exists e' lost' evs, AmRx.nr_rlc_entity_am_recv_pdu e buffer = Ok e'
    /\ AmTxInv.wf e' lost' /\ AmRxSpec.wf e' /\ AmRxSpec.honest D e'
    /\ tx_list e' = tx_list e /\ tx_next e' = tx_next e
    /\ (AmControlSpec.nacks_below e buffer -> lost' = lost)
    /\ trace (common e') = trace (common e) ++ evs /\ AmControlSpec.reported e buffer evs.
Proof.
  intros Hwf Hrx Hh Hd. unfold AmRx.nr_rlc_entity_am_recv_pdu.
  set (e0 := upd_common _ e). change (AmRx.decode_header e0 buffer) with (AmRx.decode_header e buffer).
  rewrite Hd, res_bind_unfold.
  destruct (AmControlSpec.process_control_ok e0 lost buffer) as (e' & lost' & evs & E & Hwf' & F & Hl & Tr & Hr).
  { by apply (AmTxInv.wf_tx_part e). }
  assert (HF : AmTxInv.rx_part e' = AmTxInv.rx_part e /\ tx_list e' = tx_list e /\ tx_next e' = tx_next e).
  { change (AmControlSpec.frame e0) with (AmControlSpec.frame e) in F.
    unfold AmControlSpec.frame in F. split_and!; congruence. }
  destruct HF as (HF & HX & HN). exists e', lost', evs. split; [exact E|].
  split_and!; try done; [by apply (AmTimers.rx_wf_part e)|by apply (AmTimers.honest_part D e)|].
  intros Hn. by apply Hl, AmControlSpec.nacks_below_stats.
Qed.

(** ACK_SN 1, NACK_SN 0 for an SDU that was sent: it waits for retransmission. *)
Lemma am_recv_control_pdu_witness :
  exists e', AmRx.nr_rlc_entity_am_recv_pdu Fixtures.am2 Fixtures.nack_pdu = Ok e'
    /\ AmTxInv.wf e' [] /\ retransmit_list e' = wait_list Fixtures.am2.
Proof.
  destruct (am_recv_control_pdu (fun _ => []) Fixtures.am2 [] Fixtures.nack_pdu)
    as (e' & lost' & evs & E & Hwf' & _ & _ & _ & _ & Hl & _).
  - apply (Fixtures.am2_inv (fun _ => [])).
  - apply (Fixtures.am2_inv (fun _ => [])).
  - apply (Fixtures.am2_inv (fun _ => [])).
  - vm_compute. reflexivity.
  - exists e'. split; [exact E|]. rewrite <- (Hl Fixtures.am2_nacks_below) at 1. split; [exact Hwf'|].
    vm_compute in E. injection E as <-. vm_compute. reflexivity.
Defined.

(** ** Transmission *)

(** A grant for new data: the PDU written has the size returned, fits the
    grant, and carries the next bytes of the SDU at the head of the queue with the
    SN TX_Next (or the SN of the SDU when it was already begun); exactly these
    bytes leave the queue, the segment sent waits for its acknowledgement, the
    retransmit list and the receiving side are not touched and the invariant is
    kept. *)
Theorem am_generate_new now_us e lost s rest d buffer size :
  AmTxInv.wf e lost -> tx_list e = s :: rest -> Store.sdus (st e) !! Seg.sdu s = Some d ->
  size <= zlen buffer -> compute_pdu_header_size e s + 1 <= size ->
  is_window_stalling e = false -> (Seg.is_first s = true -> AmTxSpec.sn_free e lost) ->
  exists n buffer' e', AmTx.generate_tx_pdu now_us e buffer size = Ok (n, buffer', e')
    /\ AmTxInv.wf e' lost /\ AmTxSpec.send_frame e' = AmTxSpec.send_frame e
    /\ zlen buffer' = zlen buffer /\ AmTxSpec.transmitted e lost s rest size n buffer' e'.
Proof.
  intros Hwf El Hd Hsz Hroom Hst Hfree.
  destruct (AmTxSpec.generate_tx_ok now_us e lost s rest buffer size Hwf El Hsz Hroom d Hd Hfree Hst)
    as (b & e' & H). by eexists _, b, e'.
Qed.

(** A grant for the retransmit list: the PDU carries the first bytes of its
    first segment with the SN the SDU was sent with; the part sent goes back to
    the wait list, the rest stays at the head of the retransmit list, the new data
    is not touched and the invariant is kept. *)
Theorem am_generate_retx e lost s rest buffer size :
  AmTxInv.wf e lost -> retransmit_list e = s :: rest ->
  size <= zlen buffer -> compute_pdu_header_size e s + 1 <= size ->
  exists n buffer' e', AmTx.generate_retx_pdu e buffer size = Ok (n, buffer', e')
    /\ AmTxInv.wf e' lost /\ AmTxSpec.send_frame e' = AmTxSpec.send_frame e
    /\ zlen buffer' = zlen buffer /\ AmTxSpec.retransmitted e lost s rest size n buffer' e'.
Proof.
  intros Hwf El Hsz Hroom.
  destruct (AmTxSpec.generate_retx_ok e lost s rest buffer size Hwf El Hsz Hroom) as (b & e' & H).
  by eexists _, b, e'.
Qed.

(** ** From peer to peer *)

(** C34: an entity answers a grant and its peer receives the PDU.  For any grant
    and any state the sender returns and keeps its invariant; when the PDU is a
    data PDU, new or retransmitted, whole or a segment, the peer reads a segment of
    an SDU of the sender and answers as in C29: the endless search when [stalls]
    holds, else it returns, keeps its invariant and delivers exactly [deliveries].
    A new SDU that fits the grant is delivered with its bytes by a peer that accepts
    it and has nothing of it yet. *)
Theorem am_transfer Ds D now_us e buffer size r :
  AmEntity.inv Ds e -> size <= zlen buffer -> Link.sends D e ->
  AmRxSpec.wf r -> AmRxSpec.honest D r -> sn_field_length r = sn_field_length e ->
  exists n buffer' e',
    AmTx.nr_rlc_entity_am_generate_pdu now_us e buffer size = Ok (n, buffer', e') /\ AmEntity.inv Ds e'
    /\ AmEntity.answer e buffer size n buffer' e'
    /\ let pdu := take (Z.to_nat n) buffer' in
       (status_to_report e = false \/ size < 3 -> n <> 0 ->
        if AmRxSpec.stalls r pdu then AmRx.nr_rlc_entity_am_recv_pdu r pdu = Fault NoFuel
        else exists r', AmRx.nr_rlc_entity_am_recv_pdu r pdu = Ok r'
          /\ AmRxSpec.wf r' /\ AmRxSpec.honest D r'
          /\ trace (common r') = trace (common r) ++ AmRxSpec.deliveries D r pdu)
       /\ (forall s rest d, status_to_report e = false \/ size < 3 ->
        retransmit_list e = [] -> is_window_stalling e = false -> tx_list e = s :: rest ->
        Store.sdus (st e) !! Seg.sdu s = Some d -> Seg.is_first s = true -> AmTxInv.pdu_size e s <= size ->
        AmRxSpec.accepts r (tx_next e) 0 (Seg.size s) = true ->
        AmRxSpec.slot_at r (AmRxSpec.off r (tx_next e)) = [] ->
        AmRxSpec.deliveries D r pdu = [DeliverSdu (Sdu.data d)]).
Proof.
  intros Hi Hsz HD Hwf Hh Hlen.
  destruct (AmEntity.generate_pdu_granted Ds now_us e buffer size Hi Hsz) as (n & b & e' & E & Hi' & _ & _ & Ha).
  exists n, b, e'. split; [done|]. split; [done|]. split; [done|]. split.
  - intros Hs Hn.
    destruct (Link.am_answer_honest D e r size (AmEntity.i_tx _ _ Hi) HD Hlen _ _ _ _ Ha Hs Hn) as [Hc Hp].
    pose proof (AmRxSpec.recv_pdu_ok D r _ Hwf Hh Hp Hc) as H. destruct (AmRxSpec.stalls _ _); [done|].
    destruct H as (r' & Er & H1 & H2 & _ & Tr & _). by exists r'.
  - intros s rest d Hs Hr Hw El Hd Hf Hfit Hacc Hslot.
    by apply (Link.am_answer_whole D e r size (AmEntity.i_tx _ _ Hi) HD Hlen buffer n b e' s rest).
Qed.

(** The SDU of [am1] reaches a new entity. *)
Lemma am_transfer_witness :
  exists n buffer' e' r',
    AmTx.nr_rlc_entity_am_generate_pdu 9 Fixtures.am1 Fixtures.buf20 20 = Ok (n, buffer', e')
    /\ AmRx.nr_rlc_entity_am_recv_pdu Fixtures.am0 (take (Z.to_nat n) buffer') = Ok r'
    /\ trace (common r') = [DeliverSdu [10; 11; 12]].
Proof.
  destruct Fixtures.am1_head as (E1 & E2 & _ & E4). destruct Fixtures.am0_rx_wf as [Hwf Hh].
  destruct (am_transfer (fun _ => []) (fun _ => [10; 11; 12]) 9 Fixtures.am1 Fixtures.buf20 20 Fixtures.am0)
    as (n & b & e' & E & _ & _ & Hr & Hw).
  - exact (Fixtures.am1_inv (fun _ => [])).
  - vm_compute. discriminate.
  - split; [rewrite E4; discriminate|]. intros s rest d El Hd. rewrite E1 in El. injection El as <- <-.
    rewrite E2 in Hd. injection Hd as <-. split; vm_compute; reflexivity.
  - exact Hwf.
  - apply Hh.
  - vm_compute. reflexivity.
  - assert (En : n = 5 /\ AmRxSpec.stalls Fixtures.am0 (take (Z.to_nat n) b) = false).
    { vm_compute in E. injection E as <- <- _. split; vm_compute; reflexivity. }
    destruct En as [En Es]. rewrite Es in Hr. destruct Hr as (r' & Er & _ & _ & Tr).
    + left. vm_compute. reflexivity.
    + rewrite En. discriminate.
    + exists n, b, e', r'. split; [exact E|]. split; [exact Er|]. rewrite Tr.
      rewrite (Hw Fixtures.seg1 [] Fixtures.sdu1); first [exact E1 | exact E2 | exact E4 | idtac];
        try (left; vm_compute; reflexivity); try (vm_compute; reflexivity). vm_compute. discriminate.
Defined.

(** ** The upper layer *)

(** An SDU of the upper layer is appended to the queue and counted, unless
    the buffer would overflow: then it is dropped; nothing else changes. *)
Theorem am_recv_sdu now_us e lost buffer id :
  AmTxInv.wf e lost -> zlen buffer <= NR_SDU_MAX ->
  exists e', AmTx.nr_rlc_entity_am_recv_sdu now_us e buffer id = Ok e' /\ AmTxInv.wf e' lost
    /\ AmTxInv.upper_frame e' = AmTxInv.upper_frame e
    /\ if tx_size e + zlen buffer >? tx_maxsize e
       then AmTxInv.queue e' = AmTxInv.queue e /\ tx_size e' = tx_size e
       else AmTxInv.queue e' = AmTxInv.queue e ++ [(0, buffer)] /\ tx_size e' = tx_size e + zlen buffer.
Proof. apply AmTxInv.recv_sdu_mem. Qed.

(** Discarding an SDU takes at most one element off the queue, a whole SDU of
    which nothing was sent, and gives its bytes back to the buffer; SDUs that were
    begun stay. *)
Theorem am_discard_sdu e lost id :
  AmTxInv.wf e lost ->
  exists e', AmTx.nr_rlc_entity_am_discard_sdu e id = Ok e' /\ AmTxInv.wf e' lost
    /\ AmTxInv.upper_frame e' = AmTxInv.upper_frame e
    /\ ((AmTxInv.queue e' = AmTxInv.queue e /\ tx_size e' = tx_size e)
        \/ exists q1 x q2, AmTxInv.queue e = q1 ++ (0, x) :: q2 /\ AmTxInv.queue e' = q1 ++ q2
             /\ tx_size e' = tx_size e - zlen x).
Proof. apply AmTxInv.discard_mem. Qed.

(** Re-establishment empties the two sides and frees every SDU; the entity
    satisfies its invariants again and the reception window is empty. *)
Theorem am_reestablishment e :
  AmTxInv.wf e [] -> AmRxSpec.wf e ->
  exists e', AmTx.nr_rlc_entity_am_reestablishment e = Ok e'
    /\ AmTxInv.wf e' [] /\ AmRxSpec.wf e' /\ (forall D, AmRxSpec.honest D e')
    /\ AmTxInv.queue e' = [] /\ tx_size e' = 0 /\ wait_list e' = [] /\ retransmit_list e' = []
    /\ Store.sdus (st e') = ∅ /\ rx_size e' = 0
    /\ AmRxSpec.win e' = replicate (Z.to_nat (window_size e)) []
    /\ trace (common e') = trace (common e).
Proof. intros H1 H2. destruct (AmTimers.am_clear_ok e H1 H2) as (e' & H). exists e'. naive_solver. Qed.

(** ** Timers *)

(** The clock runs the two timers; it dereferences [NULL] exactly when
    [poll_faults] holds: t_poll_retransmit expires with nothing else to send and the
    wait list is empty.  Otherwise the invariants are kept, segments of a single SN, the first of the wait list, go to the retransmit list and no
    segment is lost, the queue of new data and the reception window are not
    touched, and the only call to the upper layer is [max_retx_reached]. *)
Theorem am_set_time D e lost now :
  AmTxInv.wf e lost -> AmRxSpec.wf e -> AmRxSpec.honest D e ->
  if AmTimers.poll_faults e now then AmTx.nr_rlc_entity_am_set_time e now = Fault NullDeref
  else exists e' moved evs, AmTx.nr_rlc_entity_am_set_time e now = Ok e'
    /\ AmTxInv.wf e' lost /\ AmRxSpec.wf e' /\ AmRxSpec.honest D e' /\ t_current e' = now
    /\ wait_list e = moved ++ wait_list e' /\ retransmit_list e' ≡ₚ moved ++ retransmit_list e
    /\ (exists vsn, Forall (AmTimers.has_sn e vsn) moved)
    /\ AmTxInv.queue e' = AmTxInv.queue e /\ AmRxSpec.win e' = AmRxSpec.win e
    /\ trace (common e') = trace (common e) ++ evs /\ (evs = [] \/ evs = [MaxRetxReached]).
Proof.
  intros H1 H2 H3. pose proof (AmTimers.am_set_time_ok D e lost now H1 H2 H3) as H.
  destruct (AmTimers.poll_faults e now); [done|]. naive_solver.
Qed.

(** The expiry of t_reassembly keeps the invariant and moves neither the
    window nor what it holds; nothing is delivered. *)
Theorem am_reassembly_timer D e :
  AmRxSpec.wf e -> AmRxSpec.honest D e ->
  exists e', AmRx.check_t_reassembly e = Ok e' /\ AmRxSpec.wf e' /\ AmRxSpec.honest D e'
    /\ AmRxSpec.frame e' = AmRxSpec.frame e /\ trace (common e') = trace (common e)
    /\ AmRxSpec.win e' = AmRxSpec.win e
    /\ (rx_next e', rx_next_highest e') = (rx_next e, rx_next_highest e).
Proof. apply AmRxSpec.check_t_reassembly_ok. Qed.

(** ** Headers and constructor *)

(** Decoding the header of a received PDU never faults, whatever the
    bytes; a data PDU has an SN below the modulus, a segment offset on 16 bits
    that is 0 exactly for a first segment, and at least one byte of data inside
    the buffer. *)
Theorem am_decode_header e buffer :
  AmRxSpec.cfg e ->
  exists h, AmRx.decode_header e buffer = Ok h /\ AmRxSpec.header_ok e (zlen buffer) h.
Proof. apply AmRxSpec.decode_header_ok. Qed.

(** A new entity satisfies the invariants of its two sides; its queue and
    its trace are empty, and it has five times the buffers asked for. *)
Theorem am_new rx_max tx_max tp tr ts pp pb mr len e :
  0 <= rx_max -> new_nr_rlc_entity_am rx_max tx_max tp tr ts pp pb mr len = Ok e ->
  AmRxSpec.wf e /\ (forall D, AmRxSpec.honest D e) /\ AmTxInv.wf e [] /\ AmTxInv.queue e = []
  /\ trace (common e) = [] /\ rx_maxsize e = rx_max * 5 /\ tx_maxsize e = tx_max * 5.
Proof.
  intros Hm Hnew. destruct (AmRxSpec.am_new_wf _ _ _ _ _ _ _ _ _ _ Hm Hnew) as (H1 & H2 & H3 & H4).
  destruct (AmTxInv.new_mem _ _ _ _ _ _ _ _ _ _ Hnew) as (H5 & H6 & H7). done.
Qed.

(** ** Status reports *)

(** C31: a status report acknowledges only what was received.  In every state that
    satisfies the invariant, which includes that the last SN of the reception
    window was not received, and for every grant of at least 3 bytes,
    [generate_status] returns a PDU that fits it; the peer decodes it to an ACK_SN
    in the reporting window and to a list of NACKs, and every byte of every SDU
    below that ACK_SN has been received, is behind the end of its SDU, or is in the
    range of a NACK. *)
Theorem am_status_report D e pe buffer size :
  AmEntity.inv D e ->
  sn_field_length pe = sn_field_length e -> sn_modulus pe = sn_modulus e ->
  3 <= size <= zlen buffer ->
  exists n buffer' e', AmStatus.generate_status e buffer size = Ok (n, buffer', e')
    /\ 3 <= n <= size /\ zlen buffer' = zlen buffer /\ AmEntity.inv D e' /\ status_triggered e' = false
    /\ AmStatusSpec.truthful e pe (take (Z.to_nat n) buffer').
Proof.
  intros Hi Hpl HpM Hs. pose proof (AmEntity.inv_scope D e Hi) as Hsc.
  destruct (AmStatusSpec.status_truthful e pe buffer size Hsc Hpl HpM Hs) as (n & b & E & _ & Hn & Hl & Ht).
  exists n, b, (AmStatusSpec.status_sent e n). split_and!; try done; try lia.
  by apply (AmEntity.inv_parts D e).
Qed.

(** SDUs 0 and 2 and the end of SDU 3 are missing. *)
Lemma am_status_report_witness :
  exists buffer' e', AmStatus.generate_status Fixtures.am5 Fixtures.buf20 20 = Ok (13, buffer', e')
    /\ AmStatusSpec.truthful Fixtures.am5 Fixtures.am0 (take 13 buffer').
Proof.
  destruct (am_status_report Fixtures.sdus5 Fixtures.am5 Fixtures.am0 Fixtures.buf20 20)
    as (n & b & e' & E & _ & _ & _ & _ & Ht).
  - exact Fixtures.am5_inv.
  - vm_compute. reflexivity.
  - vm_compute. reflexivity.
  - vm_compute. split; discriminate.
  - assert (n = 13) as -> by (vm_compute in E; injection E as <- _ _; reflexivity).
    exists b, e'. split; [exact E|exact Ht].
Defined.

(** The size of the status report announced to MAC ([status_size]) is the
    size of the PDU that [generate_status] writes for a grant of that size. *)
Theorem am_status_size D e buffer size :
  AmEntity.inv D e -> size <= zlen buffer ->
  exists n buffer' e', AmStatus.status_size e size = Ok n
    /\ AmStatus.generate_status e buffer size = Ok (n, buffer', e').
Proof.
  intros Hi Hs. destruct (decide (3 <= size)) as [H3|H3].
  - destruct (AmStatusSpec.generate_status_ok e buffer size (AmEntity.inv_scope D e Hi))
      as (n & b & ack & rl & E & ES & _); [lia|].
    by eexists n, b, _.
  - exists 0, buffer, e. unfold AmStatus.status_size, AmStatus.generate_status.
    by destruct (Z.ltb_spec size 3); [|lia].
Qed.

(** ** The whole entity *)

(** C33: the answer to a grant, in every state that satisfies the invariant, which
    the calls of C32 keep.  The entity returns a status report when one is due and
    3 bytes are granted; else the first bytes of the head of the retransmit list,
    if one byte of it fits; else the next bytes of the first SDU that is not sent
    yet, if the window is not stalled and one byte of it fits; and it returns
    nothing, unchanged, only when none of these is possible.  What it returns fits
    the grant, the invariant is kept and the upper layer is not called. *)
Theorem am_generate_pdu D now_us e buffer size :
  AmEntity.inv D e -> size <= zlen buffer ->
  exists n buffer' e', AmTx.nr_rlc_entity_am_generate_pdu now_us e buffer size = Ok (n, buffer', e')
    /\ AmEntity.inv D e' /\ zlen buffer' = zlen buffer /\ trace (common e') = trace (common e)
    /\ AmEntity.answer e buffer size n buffer' e'.
Proof. intros Hi Hs. by apply AmEntity.generate_pdu_granted. Qed.

Lemma am_generate_pdu_witness :
  exists n buffer' e',
    AmTx.nr_rlc_entity_am_generate_pdu 5 Fixtures.am5 Fixtures.buf20 20 = Ok (n, buffer', e')
    /\ AmEntity.inv Fixtures.sdus5 e' /\ n = 13.
Proof.
  destruct (am_generate_pdu Fixtures.sdus5 5 Fixtures.am5 Fixtures.buf20 20) as (n & b & e' & E & Hi & _).
  - exact Fixtures.am5_inv.
  - vm_compute. discriminate.
  - exists n, b, e'. split; [exact E|]. split; [exact Hi|]. vm_compute in E. injection E as <- _ _. reflexivity.
Defined.



End AmProperties.

(** * Properties of the unacknowledged and of the transparent mode

    The statements about [nr_rlc_entity_um.c] and [nr_rlc_entity_tm.c], and about
    the interface that all the modes share, each with a witness. *)
Module UmProperties.
Import Entity Um.

(** A received UM PDU is processed without fault in every state: the
    invariant of the reassembly buffer is kept, the transmitting side is not
    touched, and the calls to [deliver_sdu] are exactly [deliveries]: a PDU with a
    whole SDU delivers it, a segment that completes its SDU delivers the SDU of
    the peer, nothing else is delivered. *)
Theorem um_recv_pdu D e buffer :
  UmRx.wf e -> UmRx.honest D (rx_list e) -> UmRx.honest_pdu D e buffer ->
  exists e', nr_rlc_entity_um_recv_pdu e buffer = Ok e' /\ UmRx.wf e' /\ UmRx.honest D (rx_list e')
    /\ UmRx.frame e' = UmRx.frame e
    /\ trace (common e') = trace (common e) ++ UmRx.deliveries D e buffer.
Proof. apply UmRx.um_recv_pdu_ok. Qed.

(** The answer of a UM entity to a grant: nothing when the queue is empty or
    no byte fits; otherwise a PDU of the returned size, that fits the grant and
    carries the next bytes of the SDU at the head of the queue with TX_Next;
    exactly these bytes leave the queue, and TX_Next grows when the last segment
    of an SDU is sent.  A grant of 2 bytes is excepted for 12-bit SNs. *)
Theorem um_generate_pdu now_us e buffer size :
  UmTx.wf e -> size <= zlen buffer -> UmTx.grant_ok e size ->
  exists n buffer' e', nr_rlc_entity_um_generate_pdu now_us e buffer size = Ok (n, buffer', e')
    /\ UmTx.wf e' /\ UmTx.rx_part e' = UmTx.rx_part e /\ tx_maxsize e' = tx_maxsize e
    /\ zlen buffer' = zlen buffer
    /\ match tx_list e with
       | s :: rest => if size <? compute_pdu_header_size e s + 1 then n = 0 /\ e' = e
                      else UmTx.granted e s rest size n buffer' e'
       | [] => n = 0 /\ e' = e
       end.
Proof. apply UmTx.generate_spec. Qed.

(** A PDU generated by a UM entity and received by its peer: both return
    and keep their invariants, and the peer delivers exactly [deliveries]; a PDU
    with a whole SDU delivers the bytes of the SDU. *)
Theorem um_transfer D now_us e s rest d buffer size r :
  UmTx.wf e -> tx_list e = s :: rest -> Store.sdus (st e) !! Seg.sdu s = Some d ->
  size <= zlen buffer -> compute_pdu_header_size e s + 1 <= size -> 0 < Seg.size s ->
  UmTx.grant_ok e size ->
  UmRx.wf r -> UmRx.honest D (rx_list r) -> sn_field_length r = sn_field_length e ->
  D (tx_next e) = Sdu.data d ->
  exists n buffer' e' r',
    nr_rlc_entity_um_generate_pdu now_us e buffer size = Ok (n, buffer', e') /\ UmTx.wf e'
    /\ (let pdu := take (Z.to_nat n) buffer' in
        nr_rlc_entity_um_recv_pdu r pdu = Ok r' /\ UmRx.wf r' /\ UmRx.honest D (rx_list r')
        /\ trace (common r') = trace (common r) ++ UmRx.deliveries D r pdu)
    /\ (Seg.is_first s = true -> n = UmTx.pdu_size e s ->
        trace (common r') = trace (common r) ++ [DeliverSdu (Sdu.data d)]).
Proof.
  intros Hwf El Hd Hsz Hroom Hpos Hg Hrx Hh Hlen HD.
  destruct (UmTx.generate_spec now_us e buffer size Hwf Hsz Hg) as (n & b & e' & E & Hwf' & _ & _ & _ & H).
  rewrite El in H. destruct (Z.ltb_spec size (compute_pdu_header_size e s + 1)); [lia|].
  destruct H as (Hn & _ & Hc & _).
  destruct (Link.um_pdu_honest e s rest d size Hwf El Hd Hroom Hg Hpos D r _ Hlen HD Hc)
    as (Hdec & Hdr & Hhon).
  destruct (UmRx.um_recv_pdu_ok D r (take (Z.to_nat n) b) Hrx Hh Hhon) as (r' & E' & Hrx' & Hh' & _ & Tr).
  exists n, b, e', r'. split; [done|]. split; [done|]. split; [done|].
  intros Hf Hn'. rewrite Tr. f_equal. rewrite Hn in Hn'.
  apply (Link.um_whole_delivered e s rest d size); done.
Qed.

(** The clock of a UM entity: when t_reassembly expires the segments that
    cannot be completed any more are dropped, the invariant is kept, nothing is
    delivered and the transmitting side is not touched. *)
Theorem um_set_time D e now :
  UmRx.wf e -> UmRx.honest D (rx_list e) ->
  exists e', nr_rlc_entity_um_set_time e now = Ok e' /\ UmRx.wf e' /\ UmRx.honest D (rx_list e')
    /\ UmTx.tx_part e' = UmTx.tx_part e /\ tx_maxsize e' = tx_maxsize e
    /\ trace (common e') = trace (common e) /\ t_current e' = now.
Proof. apply UmRx.set_time_ok. Qed.

(** Discarding an SDU in UM takes at most one element off the queue, a
    whole SDU; its bytes are still counted in [tx_size]. *)
Theorem um_discard_sdu e id :
  UmTx.wf e ->
  exists e', nr_rlc_entity_um_discard_sdu e id = Ok e' /\ UmTx.wf e' /\ UmTx.rx_part e' = UmTx.rx_part e
    /\ tx_maxsize e' = tx_maxsize e /\ tx_next e' = tx_next e /\ tx_size e' = tx_size e
    /\ (UmTx.queue e' = UmTx.queue e
        \/ exists q1 x q2, UmTx.queue e = q1 ++ (0, x) :: q2 /\ UmTx.queue e' = q1 ++ q2).
Proof. apply UmTx.discard_spec. Qed.

(** ** Transparent mode *)

(** A grant in TM sends the SDU at the head of the queue, unchanged and
    whole, when it fits, and nothing otherwise. *)
Theorem tm_generate_pdu now_us e buffer size :
  Tm.wf e -> size <= zlen buffer ->
  exists n buffer' e', Tm.nr_rlc_entity_tm_generate_pdu now_us e buffer size = Ok (n, buffer', e')
    /\ Tm.wf e' /\ Tm.tx_maxsize e' = Tm.tx_maxsize e /\ zlen buffer' = zlen buffer
    /\ match Tm.queue e with
       | x :: q => if zlen x >? size then n = 0 /\ e' = e
                   else n = zlen x /\ take (Z.to_nat n) buffer' = x /\ Tm.queue e' = q
       | [] => n = 0 /\ e' = e
       end.
Proof. apply Tm.generate_pdu_spec. Qed.

(** ** All the modes *)

(** An upper layer that hands over a sequence of SDUs to an entity, of any
    mode that satisfies the laws of [RlcTransmitter]: every SDU that finds space
    is queued, in order and unchanged, the others are rejected. *)
Theorem rlc_feed {E : Type} `{!RlcTransmitter E, !RlcTransmitterLaws E} now_us sdus (e : E) :
  tx_inv e -> Forall (fun s : list Z * Z => zlen s.1 <= NR_SDU_MAX) sdus ->
  exists e', feed now_us e sdus = Ok e' /\ tx_inv e'
    /\ pending e' = pending e ++ accepted (available_tx_space e) (map fst sdus).
Proof. apply feed_ok. Qed.

(** Re-establishment of an entity of any mode returns, empties its queue
    and keeps its invariant. *)
Theorem rlc_reestablishment x :
  tx_inv x -> exists x', reestablishment (E := nr_rlc_entity) x = Ok x' /\ tx_inv x' /\ pending x' = [].
Proof. apply reestablishment_law. Qed.

End UmProperties.

(** * Properties of the data structures the RLC entities share

    Segment chains, PDU headers, SDU reference counting, the reception window of
    the acknowledged mode and the sliding average of [time_stat.c]. *)
Module BaseProperties.

(** ** Segments of an SDU *)

Section chains.
Import Pdu.

(** A chain of segments of an SDU [D], ordered by offset and not delivered
    yet, is complete ([sdu_full]) exactly when every byte of [D] was received,
    whatever the overlaps between the segments. *)
Theorem chain_full_iff D l :
  Forall (Chain.slice_of D) l -> StronglySorted (fun p q => so p <= so q) l -> 0 < zlen D ->
  (Chain.full l = true <-> forall b, 0 <= b < zlen D -> Chain.has_byte l b).
Proof.
  intros Hs Hsort HD. unfold Chain.full.
  assert (Hnd : Chain.delivered l = false).
  { destruct Hs as [|p l Hp _]; [done|]. simpl. by rewrite (Chain.sl_data _ _ Hp). }
  rewrite Hnd. split.
  - intros Hf b Hb. destruct (Chain.full_loop_has_byte l (-1) Hf) as (p & Hp & Hl & Hall).
    apply Hall. rewrite Forall_forall in Hs. rewrite (proj1 (Chain.sl_last _ _ (Hs p Hp)) Hl). lia.
  - intros Hb. apply (Chain.full_loop_complete D l (-1)); try done. intros b Hr. apply Hb. lia.
Qed.

(** The reassembly of a complete chain gives back exactly the SDU, and
    never copies outside its buffers, whatever the overlaps. *)
Theorem chain_reassemble D l :
  zlen D <= Entity.NR_SDU_MAX -> Forall (Chain.slice_of D) l -> Chain.full l = true ->
  Chain.reassemble l = Ok (Some D).
Proof. apply Chain.reassemble_correct. Qed.

(** A segment that is discarded as a duplicate has no byte that the chain
    does not have. *)
Theorem chain_duplicate l so_ size_ :
  Chain.already_received l so_ size_ = true ->
  forall b, so_ <= b < so_ + size_ -> Chain.has_byte l b.
Proof. apply Chain.already_received_sound. Qed.

End chains.

(** ** Headers *)

(** A header written field by field with the encoder and read field by
    field with the decoder gives the fields back; the encoder writes whole bytes,
    only at the start of the buffer, and the decoder sees no error. *)
Theorem header_roundtrip fs buffer size :
  size <= zlen buffer -> Forall Codec.field_ok fs -> (8 | Codec.width (map snd fs)) ->
  Codec.width (map snd fs) <= 8 * size ->
  exists e, Codec.put_fields (Codec.nr_rlc_pdu_encoder_init buffer size) fs = Ok e
    /\ Codec.enc_byte e = Codec.width (map snd fs) / 8 /\ Codec.enc_bit e = 0
    /\ (forall k, Codec.enc_byte e <= Z.of_nat k -> drop k (Codec.enc_buffer e) = drop k buffer)
    /\ forall tail,
         let hdr := take (Z.to_nat (Codec.enc_byte e)) (Codec.enc_buffer e) in
         exists d, Codec.get_fields (Codec.nr_rlc_pdu_decoder_init (hdr ++ tail)) (map snd fs)
                     = Ok (map fst fs, d)
           /\ Codec.dec_error d = false /\ Codec.dec_byte d = Codec.enc_byte e /\ Codec.dec_bit d = 0.
Proof. apply Codec.fields_roundtrip. Qed.

(** ** SDU store *)

Section store.
Import Store.

(** Freeing a segment: the SDU is freed exactly when no other live segment
    uses it, and its size is given back once; every other SDU is untouched and
    every other segment stays valid. *)
Theorem sdu_free_segment st l s :
  store_ok st (s :: l) ->
  exists b st' d, nr_rlc_free_sdu_segment st s = Ok (b, st') /\ store_ok st' l
    /\ sdus st !! Seg.sdu s = Some d
    /\ (b = true <-> nrefs (Seg.sdu s) l = 0)
    /\ bytes st' = bytes st - (if b then Sdu.size d else 0)
    /\ (forall p, p <> Seg.sdu s -> sdus st' !! p = sdus st !! p)
    /\ same_data st st' l.
Proof.
  intros Hok. destruct (free_segment_ok st l s Hok) as (b & st' & d & E & Hok' & Hd & Hb & Hby & _ & Hne & _).
  exists b, st', d. split_and!; try done; try apply Hb. by apply (free_same_data st s l b).
Qed.

(** Cutting a segment: the two parts have together the bytes of the segment,
    in order, the SDU has one more reference and stays alive, and nothing is
    allocated for its bytes. *)
Theorem sdu_split st l s d n :
  store_ok st (s :: l) -> sdus st !! Seg.sdu s = Some d -> 0 <= n <= Seg.size s ->
  let st' := add_ref st s d in
  store_ok st' (shrink s n :: remainder st s n :: l) /\ bytes st' = bytes st
  /\ seg_bytes st' (shrink s n) ++ seg_bytes st' (remainder st s n) = seg_bytes st s.
Proof.
  intros Hok Hd Hn. destruct (split_ok st l s d n Hok Hd Hn) as [H1 H2]. split; [done|]. split; [done|].
  destruct (deref_ok _ _ s Hok) as (d' & _ & Hd' & Hr); [left|]. destruct Hr as (_ & Hso & _).
  rewrite (shrink_bytes st s d n Hd Hn), (remainder_bytes st s d n Hd Hn Hso). apply take_drop.
Qed.

End store.

(** ** Reception window *)

Section window.
Import RxManager.

(** A PDU added to the window is found under its SN, at its place among the
    segments of its SDU; the segments of every other SN of the window are
    untouched. *)
Theorem rx_manager_add m pdu :
  wf m -> in_window m (Pdu.sn pdu) ->
  exists m' l, nr_rlc_rx_manager_get_pdu_from_sn m (Pdu.sn pdu) = Ok l
    /\ nr_rlc_rx_manager_add_pdu m pdu = Ok m' /\ wf m'
    /\ nr_rlc_rx_manager_get_pdu_from_sn m' (Pdu.sn pdu)
       = Ok (Pdu.insert_before (fun c => Pdu.so c >? Pdu.so pdu) pdu l)
    /\ forall sn, in_window m sn -> sn <> Pdu.sn pdu ->
         nr_rlc_rx_manager_get_pdu_from_sn m' sn = nr_rlc_rx_manager_get_pdu_from_sn m sn.
Proof. apply add_get. Qed.

(** The window slides: after [advance] and [set_start] the SNs that stay in
    the window find the same segments. *)
Theorem rx_manager_slide m count :
  wf m -> 0 <= count <= size m ->
  let m' := nr_rlc_rx_manager_set_start (nr_rlc_rx_manager_advance m count)
              ((sn_start m + count) mod (2 * size m)) in
  wf m' /\ forall sn, is_sn m sn -> count <= offset m sn < size m ->
    in_window m' sn
    /\ nr_rlc_rx_manager_get_pdu_from_sn m' sn = nr_rlc_rx_manager_get_pdu_from_sn m sn.
Proof. apply slide_get. Qed.

End window.

(** ** Sliding average *)

Section average.
Import TimeStat.

(** Adding a measure: the measures that are too old leave the queue from
    its front, the new one goes to its end, the others stay in order, also when
    the ring was full and grows; the accumulated value is the sum of the queue on
    64 bits. *)
Theorem average_add t now v :
  wf t ->
  exists t' old kept, time_average_add t now v = Ok t' /\ wf t' /\ duration t' = duration t
    /\ contents (r t) = old ++ kept
    /\ contents (r t') = kept ++ [{| time := now; value := v |}]
    /\ Forall (fun x => time x < u64 (now - duration t)) old
    /\ (forall x q, kept = x :: q -> u64 (now - duration t) <= time x)
    /\ accumulated_value t' = u64 (zsum value (kept ++ [{| time := now; value := v |}])).
Proof.
  intros Hwf. destruct (add_spec t now v Hwf) as (t' & old & kept & E & Hwf' & Hd & Hc & Hc' & Ho & Hk).
  exists t', old, kept. split_and!; try done. rewrite <- Hc'. apply Hwf'.
Qed.

(** The average is the sum over the number of the measures that are not too
    old, and 0 when there is none. *)
Theorem average_get t now :
  wf t ->
  exists num den t' old, time_average_get_average t now = Ok (num, den, t') /\ wf t'
    /\ duration t' = duration t /\ contents (r t) = old ++ contents (r t')
    /\ Forall (fun x => time x < u64 (now - duration t)) old
    /\ (forall x q, contents (r t') = x :: q -> u64 (now - duration t) <= time x)
    /\ match contents (r t') with
       | [] => num = 0 /\ den = 1
       | l => num = u64 (zsum value l) /\ den = zlen l
       end.
Proof. apply get_average_full. Qed.

End average.

End BaseProperties.
