(* ===== verification/UpProperties.v ===== *)
(** * Properties of the user plane

    The theorems about SDAP, the tables and queues of PDCP, the hash table, and the
    data path through SDAP and PDCP, with their witnesses. *)

From S2P Require Import Prelude Queue Hashtable HashtableSpec F1apIds Secu PdcpSdu Events.
From S2P Require Import Sdap SdapSpec SdapList PdcpEntity PdcpUe PdcpUeSpec.
From S2P Require Import PdcpTx PdcpFixtures UserPlane PdcpRun.

Module UpProperties.
Import Secu Events PdcpUe PdcpUeSpec UserPlane PdcpFixtures UpFixtures.

(** ** The data path *)

(** Every IP packet that the UE reads from its TUN interface leaves the gNB towards
    the core network, in order, once and unchanged: through the SDAP header, the PDCP
    header, integrity protection and ciphering, and the tables of both sides. *)
Theorem user_plane_uplink `{P : Platform} `{L : !PlatformLaws P} ndu ndg idg drb eu eg mu wg s r pkts :
  uplink ndg idg drb eu eg mu wg s r -> Forall packet pkts -> exists mu' wg' s' r',
    res_foldl (uplink_packet ndu ndg idg eu) (mu, wg, []) pkts
      = Ok (mu', wg', map (GtpuSend idg (Pdcp.pdusession_id r)) pkts) /\
    uplink ndg idg drb eu eg mu' wg' s' r'.
Proof. intros Hu Hp. by apply (uplink_stream ndu ndg idg drb eu eg mu wg s r pkts []). Qed.

(** C6: IP packets of 1 to 8999 bytes that the core network sends for a QoS flow are
    written to the TUN interface of the UE, in order, once and unchanged: through the
    QoS rule and the header of SDAP, the header, integrity protection and ciphering of
    PDCP, and the tables of both sides.  This is for a gNB that is not split into CU
    and DU, a flow with a rule and an SDAP header in both directions of the rule, and
    two entities of PDCP in step; RLC and MAC are between them as a link that hands on
    every PDU once and in order. *)
Theorem user_plane_downlink `{P : Platform} `{L : !PlatformLaws P} ndg ndu lg idg ps q rqi idu drb eg eu mg wu s r pkts :
  downlink ndg ndu lg idg ps q idu drb eg eu mg wu s r -> Forall packet pkts -> exists mg' wu' s' r',
    res_foldl (downlink_packet ndg ndu lg idg ps q rqi idu) (mg, wu, []) pkts
      = Ok (mg', wu', map (TunWrite (Sdap.pdusession_sock eu)) pkts) /\
    downlink ndg ndu lg idg ps q idu drb eg eu mg' wu' s' r'.
Proof. intros Hu Hp. by apply (downlink_stream ndg ndu lg idg ps q rqi idu drb eg eu mg wu s r pkts []). Qed.

Lemma user_plane_downlink_witness : exists mg' wu' s' r',
  res_foldl (downlink_packet gnb_node ue_node gnb_sdap idg 5 2 true idu) (gnb_manager, ue_world, [])
    [[69; 0; 1]; [69; 0; 2; 9]]
    = Ok (mg', wu', map (TunWrite (Sdap.pdusession_sock ue_entity)) [[69; 0; 1]; [69; 0; 2; 9]]) /\
  downlink gnb_node ue_node gnb_sdap idg 5 2 idu 1 gnb_entity ue_entity mg' wu' s' r'.
Proof.
  apply (user_plane_downlink gnb_node ue_node gnb_sdap idg 5 2 true idu 1 gnb_entity ue_entity gnb_manager
    ue_world gnb_drb ue_drb); [exact downlink_ready|].
  repeat apply Forall_cons_2; [| |apply Forall_nil_2];
    (apply packet_dec; [reflexivity|vm_compute; split; [reflexivity|discriminate] ]).
Defined.

(** ** SDAP *)

(** C7: the linked list of SDAP entities is a finite map from (UE, PDU session): any
    sequence of calls, during which there are never more than
    [SDAP_MAX_NUM_OF_ENTITIES] entities at a time, gives on the list the results, the
    state of PDCP and the faults that it gives on the map, whatever PDCP is below, and
    each call the same events up to their order (the removal of all sessions of a UE
    stops their TUN threads in the order of the list). *)
Theorem sdap_list_refines_map {S : Type} `{A : Sdap.PdcpApi S} n s os :
  SdapList.fits n (s, ∅) os = true ->
  SdapList.run_agrees (SdapList.list_run n (s, []) os) (SdapList.map_run n (s, ∅) os).
Proof. intros Hf. apply (SdapList.list_run_ok n s []); [apply NoDup_nil_2|done]. Qed.

Definition sdap_ops : list SdapList.op :=
  [SdapList.AddMod true idg (sdap_config true); SdapList.SetQfi 1 5 idg; SdapList.Delete 3 5; SdapList.DeleteUe idg].

Lemma sdap_list_refines_map_witness :
  SdapList.run_agrees
    (SdapList.list_run (A := pdcp_api gnb_node) plain_node (gnb_manager, []) sdap_ops)
    (SdapList.map_run (A := pdcp_api gnb_node) plain_node (gnb_manager, ∅) sdap_ops).
Proof. apply (sdap_list_refines_map (A := pdcp_api gnb_node)). vm_compute. reflexivity. Defined.

(** C8: a configuration of QoS flows by RRC always ends, over any PDCP that accepts
    control PDUs, and leaves exactly the rules it describes: the flows to add have the
    DRB and the role of the configuration, the flows to release have no rule, the
    others keep theirs.  The gNB sends nothing. *)
Theorem sdap_configure {S : Type} `{A : Sdap.PdcpApi S} {I : S -> Prop} `{L : !SdapLaws.PdcpApiLaws S I} s e c :
  SdapSpec.wf e -> SdapSpec.config_ok c -> I s -> exists s' e' ev,
  Sdap.nr_sdap_qfi2drb_map_update s e c = Ok (s', e', ev) /\ I s' /\ SdapSpec.wf e' /\
  SdapSpec.same_entity e e' /\
  (forall q, 0 <= q -> SdapSpec.rule e' q = SdapSpec.configured_rule c q (SdapSpec.rule e q)) /\
  (Sdap.is_gnb e = true -> s' = s /\ ev = []).
Proof. apply SdapLaws.map_update_ok. Qed.

Lemma sdap_configure_witness : exists s' e' ev,
  Sdap.nr_sdap_qfi2drb_map_update (A := pdcp_api ue_node) ue_manager ue_entity
    (Sdap.mk_config 5 2 9 false [1; 3] [2]) = Ok (s', e', ev) /\ markers_accepted s' /\ SdapSpec.wf e' /\
  SdapSpec.same_entity ue_entity e' /\
  (forall q, 0 <= q -> SdapSpec.rule e' q =
     SdapSpec.configured_rule (Sdap.mk_config 5 2 9 false [1; 3] [2]) q (SdapSpec.rule ue_entity q)) /\
  (Sdap.is_gnb ue_entity = true -> s' = ue_manager /\ ev = []).
Proof.
  apply (sdap_configure (A := pdcp_api ue_node) (L := pdcp_api_laws ue_node));
    [exact ue_entity_wf| |exact ue_markers].
  apply config_dec; reflexivity.
Defined.

(** A downlink PDU with an SDAP header always reaches the TUN interface of the UE
    without its header, and makes its DRB the rule of its QoS flow exactly when the
    RDI bit asks for reflective mapping. *)
Theorem sdap_reflective {S : Type} `{A : Sdap.PdcpApi S} {I : S -> Prop} `{L : !SdapLaws.PdcpApiLaws S I}
    s e drb b q ps ue h sdu :
  SdapSpec.wf e -> I s -> 0 <= q < Sdap.SDAP_MAX_QFI -> 0 <= drb <= Sdap.MAX_DRBS_PER_UE ->
  Sdap.has_role (Sdap.entity_role (SdapSpec.rule e q)) Sdap.SDAP_DL_RX = true ->
  exists s' e' ev,
    Sdap.nr_sdap_rx_entity s e drb false b q ps ue (h :: sdu)
      = Ok (s', e', ev ++ [TunWrite (Sdap.pdusession_sock e) sdu]) /\ I s' /\ SdapSpec.wf e' /\
    SdapSpec.same_entity e e' /\
    forall q', 0 <= q' -> SdapSpec.rule e' q' =
      if decide (Sdap.hdr_bit7 h = Sdap.SDAP_REFLECTIVE_MAPPING /\ q' = Sdap.hdr_QFI h)
      then Sdap.mk_qfi2drb drb (Sdap.entity_role (SdapSpec.rule e q')) else SdapSpec.rule e q'.
Proof. apply SdapLaws.rx_ue_ok. Qed.

(** ** The table and the queues of PDCP *)

(** C9: an entry point of PDCP calls the function of exactly the entity it names, and
    changes no other entity; an unknown bearer or UE changes no entity at all. *)
Theorem pdcp_table_frame {B} m id rb fl (none : B) f : PdcpUeSpec.wf m ->
  match bearer m id fl rb with
  | None => exists m', with_rb m id rb fl none f = Ok (m', none) /\ PdcpUeSpec.wf m' /\ same_bearers m m'
  | Some e =>
      match f e with
      | Ok (e', b) => exists m', with_rb m id rb fl none f = Ok (m', b) /\ PdcpUeSpec.wf m' /\
          changed m m' id fl rb (Some e')
      | Fault x => with_rb m id rb fl none f = Fault x
      end
  end.
Proof. apply with_rb_ok. Qed.

Lemma pdcp_table_frame_witness : exists m',
  with_rb gnb_manager idg 1 false tt (fun e => mret ({| e with Pdcp.t_reordering := 5 |}, tt)) = Ok (m', tt) /\
  PdcpUeSpec.wf m' /\
  changed gnb_manager m' idg false 1 (Some (let e := gnb_drb in {| e with Pdcp.t_reordering := 5 |})).
Proof.
  exact (pdcp_table_frame gnb_manager idg 1 false tt
    (fun e => mret ({| e with Pdcp.t_reordering := 5 |}, tt)) gnb_manager_wf).
Defined.

(** C10: data for a bearer that does not exist is refused (downlink) or dropped
    (uplink); no entity of PDCP or SDAP changes and nothing is sent. *)
Theorem pdcp_unknown_bearer `{P : Platform} nd w id drb mui g data :
  PdcpUeSpec.wf (pdcp w) -> bearer (pdcp w) id false drb = None ->
  (exists m', nr_pdcp_data_req_drb nd (pdcp w) (ctxt_of g id) false drb mui data = Ok (m', [], false) /\
     same_bearers (pdcp w) m') /\
  (exists w', do_pdcp_data_ind nd w (ctxt_of g id) false drb data = Ok (w', []) /\
     same_bearers (pdcp w) (pdcp w') /\ sdap w' = sdap w).
Proof.
  intros Hw Hb. split.
  - unfold nr_pdcp_data_req_drb. cbn [negb dev_assert ctxt_of module_id instance eNB_index rntiMaybeUEid Z.eqb orb].
    pose proof (with_rb_ok (pdcp w) id drb false None (process_drb data) Hw) as H. rewrite Hb in H.
    destruct H as (m' & E & _ & Hs). exists m'. rewrite res_ret_bind, E. done.
  - unfold do_pdcp_data_ind, with_rb_deliver.
    cbn [negb ctxt_of module_id instance eNB_index brOption rntiMaybeUEid Z.eqb orb].
    pose proof (with_rb_ok (pdcp w) id drb false None (receive data) Hw) as H. rewrite Hb in H.
    destruct H as (m' & E & _ & Hs). unfold receive in E. rewrite E. by eexists.
Qed.

Lemma pdcp_unknown_bearer_witness :
  (exists m', nr_pdcp_data_req_drb gnb_node (pdcp gnb_world) (ctxt_of true idg) false 9 0 [1; 2] = Ok (m', [], false) /\
     same_bearers (pdcp gnb_world) m') /\
  (exists w', do_pdcp_data_ind gnb_node gnb_world (ctxt_of true idg) false 9 [1; 2] = Ok (w', []) /\
     same_bearers (pdcp gnb_world) (pdcp w') /\ sdap w' = sdap gnb_world).
Proof. apply (pdcp_unknown_bearer gnb_node gnb_world idg 9 0 true [1; 2]); [exact gnb_manager_wf|reflexivity]. Defined.

(** C11: the bounded queues between PDCP and RLC are first-in first-out under every
    interleaving of the producers and the consumer, with the sleeping and waking of
    [pthread_cond_wait] and [pthread_cond_signal]: what was handled is a prefix of what
    was put in, and at most [SIZE] items wait.  No wake-up is lost as long as at most
    [SIZE] threads put items in (each queue has 10000 slots): when the consumer sleeps,
    everything is handled and no producer sleeps; a producer that is awake goes on, and
    puts its item in when there is room; and from every reachable state the consumer,
    by its own steps, handles all that waits and wakes every producer that sleeps. *)
Theorem queue_fifo {item} (zero : item) SIZE n tr s :
  0 < SIZE -> Z.of_nat n <= SIZE -> Queue.run SIZE (Queue.initial SIZE zero n) tr s ->
  exists rest, Queue.enqueued tr = Queue.handled tr ++ rest /\ zlen rest <= SIZE /\
    (Queue.cons s = Queue.Asleep ->
       rest = [] /\ forall p x, Queue.prods s !! p <> Some (Queue.Sleeping x)) /\
    (forall p x, Queue.prods s !! p = Some (Queue.Ready x) -> exists s',
       Queue.step SIZE s (if Queue.full SIZE (Queue.queue s) then Queue.Sleep p else Queue.Enqueue p x) s') /\
    exists tr' s', Queue.run SIZE s tr' s' /\ forallb Queue.of_consumer tr' = true /\
      Queue.handled tr' = rest /\ Queue.length (Queue.queue s') = 0 /\
      forall p x, Queue.prods s' !! p <> Some (Queue.Sleeping x).
Proof.
  intros Hs Hn Hr.
  destruct (Queue.run_simulates SIZE Hs _ _ _ [] Hr) as (rest & Hsim & E); [by apply Queue.initial_simulates|].
  pose proof (Queue.simulates_bound SIZE _ _ Hsim) as Hb. pose proof (zlen_nonneg rest).
  exists rest. split_and!; [done|lia| | |by apply Queue.drain].
  - intros Ha. pose proof (Queue.sim_consumer _ _ _ Hsim Ha) as E0.
    split; [destruct rest; [done|rewrite zlen_cons in *; pose proof (zlen_nonneg rest); lia]|].
    intros p x Ep. apply Queue.sleepers_pos in Ep. pose proof (Queue.sim_producers _ _ _ Hsim). lia.
  - intros p x Ep. by apply (Queue.producer_step SIZE Hs s rest).
Qed.

(** A queue of two slots: two producers fill it and one of them sleeps. *)
Definition queue_trace : list (Queue.label Z) :=
  [Queue.ConsumerSleep; Queue.Call 0 5; Queue.Enqueue 0 5; Queue.Call 0 6; Queue.Enqueue 0 6;
   Queue.Call 1 7; Queue.Sleep 1; Queue.Claim; Queue.Handle 5].

Definition queue_state : Queue.state Z :=
  Queue.mk_state (Queue.mk_queue [5; 6] 0 2) Queue.Handled [Queue.Idle; Queue.Sleeping 7].

Lemma queue_fifo_witness :
  exists rest, Queue.enqueued queue_trace = Queue.handled queue_trace ++ rest /\ zlen rest <= 2 /\
    (Queue.cons queue_state = Queue.Asleep ->
       rest = [] /\ forall p x, Queue.prods queue_state !! p <> Some (Queue.Sleeping x)) /\
    (forall p x, Queue.prods queue_state !! p = Some (Queue.Ready x) -> exists s',
       Queue.step 2 queue_state
         (if Queue.full 2 (Queue.queue queue_state) then Queue.Sleep p else Queue.Enqueue p x) s') /\
    exists tr' s', Queue.run 2 queue_state tr' s' /\ forallb Queue.of_consumer tr' = true /\
      Queue.handled tr' = rest /\ Queue.length (Queue.queue s') = 0 /\
      forall p x, Queue.prods s' !! p <> Some (Queue.Sleeping x).
Proof.
  apply (queue_fifo 0 2 2 queue_trace queue_state); [done|done|].
  unfold queue_trace, queue_state, Queue.initial, Queue.zeroed.
  eapply Queue.run_cons; [by apply Queue.step_consumer_sleep|].
  eapply Queue.run_cons; [by apply Queue.step_call|].
  eapply Queue.run_cons; [eapply Queue.step_enqueue; [reflexivity..|by apply Queue.signal_consumer]|].
  eapply Queue.run_cons; [by apply Queue.step_call|].
  eapply Queue.run_cons;
    [eapply Queue.step_enqueue; [reflexivity..|by apply Queue.signal_nobody; [|intros [|[|?]]]]|].
  eapply Queue.run_cons; [by apply Queue.step_call|].
  eapply Queue.run_cons; [by eapply Queue.step_sleep|].
  eapply Queue.run_cons; [by apply Queue.step_claim|].
  eapply Queue.run_cons; [by apply Queue.step_handle|].
  apply Queue.run_nil.
Defined.

(** ** Hash tables *)

(** C12: a hash table answers every sequence of calls as a finite map does, with any hash
    function, and frees exactly the data that is overwritten or removed. *)
Theorem hashtable_refines_map {A} sizeP hashfuncP (os : list (Hashtable.op A)) : 0 < sizeP ->
  exists h outs,
    Hashtable.calls (Some (Hashtable.hashtable_create sizeP hashfuncP)) os = Ok (Some h, outs) /\
    Hashtable.wf h /\ Hashtable.map_calls ∅ os = (Hashtable.contents h, outs).
Proof.
  intros Hs. rewrite <- (HashtableSpec.create_contents sizeP hashfuncP).
  by apply HashtableSpec.table_calls_ok, HashtableSpec.create_wf.
Qed.

Definition colliding : list (Hashtable.op Z) :=
  [Hashtable.Insert 1 10; Hashtable.Insert 4 40; Hashtable.Insert 1 11; Hashtable.Remove 4; Hashtable.Get 1].

Lemma hashtable_refines_map_witness : exists h outs,
  Hashtable.calls (Some (Hashtable.hashtable_create 3 None)) colliding = Ok (Some h, outs) /\
  Hashtable.wf h /\ Hashtable.map_calls ∅ colliding = (Hashtable.contents h, outs).
Proof. apply (hashtable_refines_map 3 None colliding). reflexivity. Defined.

(** C13: the iterator of a hash table ends, after it has met the data of every entry of
    the table exactly once. *)
Theorem hashtable_iterator_ends {A} (h : Hashtable.t A) : Hashtable.wf h -> exists it ds it' it'',
  Hashtable.hashtable_get_iterator h = Ok it /\
  Hashtable.iterate (length ds) h it = Ok (map Some ds, it') /\
  ds ≡ₚ map snd (map_to_list (Hashtable.contents h)) /\
  Hashtable.hashtable_iterator_getnext h it' = Ok (None, it'').
Proof.
  intros Hw. destruct (HashtableSpec.iterator_start h Hw) as (it & Eit & Ei & Ea).
  destruct (HashtableSpec.iterate_ok h it Hw) as (it' & E & it'' & Eend); [lia|]. rewrite Ea in E.
  exists it, (map Hashtable.data (concat (Hashtable.nodes h))), it', it''.
  rewrite length_map, map_map. split_and!; [done|done| |done].
  rewrite <- (HashtableSpec.entries_perm h Hw), map_map. done.
Qed.

(** A table of three buckets with three entries, two of them in one bucket. *)
Definition filled_table : Hashtable.t Z :=
  match Hashtable.calls (Some (Hashtable.hashtable_create 3 None))
          [Hashtable.Insert 1 10; Hashtable.Insert 4 40; Hashtable.Insert 2 20] with
  | Ok (Some h, _) => h
  | _ => Hashtable.hashtable_create 3 None
  end.

Lemma filled_table_wf : Hashtable.wf filled_table.
Proof.
  destruct (HashtableSpec.table_calls_ok (Hashtable.hashtable_create (A := Z) 3 None)
    [Hashtable.Insert 1 10; Hashtable.Insert 4 40; Hashtable.Insert 2 20]) as (h & xs & E & Hw & _);
    [by apply HashtableSpec.create_wf|].
  unfold filled_table. by rewrite E.
Qed.

Lemma hashtable_iterator_ends_witness : exists it ds it' it'',
  Hashtable.hashtable_get_iterator filled_table = Ok it /\
  Hashtable.iterate (length ds) filled_table it = Ok (map Some ds, it') /\
  ds ≡ₚ map snd (map_to_list (Hashtable.contents filled_table)) /\
  Hashtable.hashtable_iterator_getnext filled_table it' = Ok (None, it'').
Proof. apply (hashtable_iterator_ends filled_table). exact filled_table_wf. Defined.
End UpProperties.
