(* ===== verification/StackProperties.v ===== *)
(** * Properties of the RLC tables, of UM links and of the whole uplink

    The theorems about [nr_rlc_oai_api.c] and [nr_rlc_ue_manager.c], about two UM
    entities over a MAC that loses nothing, and about the path of a packet through all
    the layers, with the nodes on which their witnesses run. *)

From S2P Require Import Prelude Asn1 Hashtable F1apIds Secu PdcpSdu Events Sdap SdapSpec.
From S2P Require Import PdcpEntity PdcpUe PdcpUeSpec PdcpSecurity PdcpRx PdcpRecv PdcpTx PdcpRun.
From S2P Require Import UserPlane PdcpFixtures TimeStat RlcPdu RlcSdu.
From S2P Require Import RlcRxManager RlcEntity RlcUm RlcUmTx RlcUmRx RlcApi RlcUe RlcUeSpec.
From S2P Require Import RlcUmLink Stack.

Module StackProperties.
Import Secu Events UserPlane PdcpFixtures UpFixtures.
Import RlcUe RlcUeSpec.

(** ** Nodes *)

(** A UM bearer for a UE that has none. *)
Lemma um_added md id drb_id c u :
  drb_config drb_id c (NR_RLC_Config_PR_um_Bi_Directional u) ->
  exists m n t e, nr_rlc_add_drb (new_nr_rlc_ue_manager md) id drb_id c = Ok m /\
    Stack.um_at m id (logicalChannelIdentity c) drb_id e /\ mode m = md /\
    Um.new_nr_rlc_entity_um RLC_RX_MAXSIZE RLC_TX_MAXSIZE t n = Ok e /\
    VALUES_NR_RLC_SN_FIELD_LENGTH_UM !! Z.to_nat (default 0 (um_dl_sn_FieldLength u)) = Some n.
Proof.
  intros Hc. assert (Hm : wf (new_nr_rlc_ue_manager md)) by (split; [apply NoDup_nil_2|apply Forall_nil_2]).
  destruct (rlc_add_drb_ok _ id drb_id c _ Hm Hc) as (m & x & E & Hx & Hch).
  destruct x as [|e|]; [done| |done]. destruct Hx as (n & t & Hn & Hv). exists m, n, t, e. split; [done|].
  pose proof Hc as [Hd _ Hl _ _]. destruct Hch as [Hw Hs Hu]. specialize (Hu id). rewrite decide_True in Hu by done.
  split_and!; [|unfold settings in Hs; by injection Hs|done|by injection Hv].
  assert (Hnone : drb (ue_of (new_nr_rlc_ue_manager md) id) !! Z.to_nat (drb_id - 1) = Some None).
  { unfold MAX_DRBS_PER_UE in Hd. apply (lookup_replicate_2 32 None). lia. }
  split; rewrite ?Hu; [done| |done|].
  - apply with_drb_place; [apply new_ue_wf|done].
  - unfold with_drb. cbn [drb]. rewrite Hnone. apply list_lookup_insert_eq. by apply lookup_lt_Some in Hnone.
Qed.

(** DRB 1 in UM on logical channel 4, with SNs of 12 bits and t-Reassembly of 35 ms. *)
Definition um_config : NR_RLC_Config_um := mk_um_config (Some 1) 7 (Some 1).
Definition um_bearer : NR_RLC_BearerConfig_t :=
  mk_bearer_config 4 (Some (PR_drb_Identity 1)) (Some (NR_RLC_Config_PR_um_Bi_Directional um_config)).

Definition rlc_with_drb (md : nr_rlc_op_mode_t) (id : Z) : manager :=
  ok_value (new_nr_rlc_ue_manager md) (nr_rlc_add_drb (new_nr_rlc_ue_manager md) id 1 um_bearer).

(** The DU knows the UE as 21; its identifier in the CU is [idg]. *)
Definition rnti : Z := 21.
Definition du_table : F1apIds.table :=
  ok_value None (ht ← F1apIds.cu_init_f1_ue_data None;
                 '(ht, _) ← F1apIds.cu_add_f1_ue_data ht rnti (F1apIds.mk_ue_data idg 0 0);
                 mret ht).

Definition stack0 : Stack.stack :=
  Stack.mk_stack ue_manager (rlc_with_drb NR_RLC_OP_MODE_UE idu) gnb_world
    (rlc_with_drb NR_RLC_OP_MODE_MONO_GNB rnti) [].

Lemma um_bearer_ok : drb_config 1 um_bearer (NR_RLC_Config_PR_um_Bi_Directional um_config).
Proof.
  split; [done|done|done|done|]. split; [|done]. split; [done|]. by exists 1.
Qed.

Lemma stack0_configured : Stack.configured du_table ue_entity rnti idg 1.
Proof.
  split.
  - split; [reflexivity|apply ue_entity_wf|done|reflexivity..].
  - reflexivity.
  - reflexivity.
  - exists (F1apIds.mk_ue_data idg 0 0). split; [vm_compute; reflexivity|reflexivity].
Qed.

Lemma stack0_carries :
  Stack.carries gnb_node ue_entity rnti 4 idg 1 5 gnb_entity stack0 [] RLC_TX_MAXSIZE 0.
Proof.
  destruct (um_added NR_RLC_OP_MODE_UE idu 1 um_bearer um_config um_bearer_ok)
    as (ma & na & ta & a & Ea & Ha & _ & Na & Va).
  destruct (um_added NR_RLC_OP_MODE_MONO_GNB rnti 1 um_bearer um_config um_bearer_ok)
    as (mb & nb & tb & b & Eb & Hb & Hmode & Nb & Vb).
  assert (na = nb) as -> by congruence.
  destruct (UmTx.um_new_wf _ _ _ _ _ Na) as (_ & Hq & _). destruct (UmLink.new_empty _ _ _ _ _ Na) as (Hct & Hsp & _).
  destruct (uplink_parts _ _ _ _ _ _ _ _ _ uplink_ready) as (_ & _ & Hs & Hg).
  exists ue_drb, gnb_drb, a, b, [], []. unfold stack0, rlc_with_drb. rewrite Ea, Eb. cbn [ok_value]. split.
  - split; try done.
    + eapply UmLink.link_new; [exact Na|exact Nb|done].
    + eapply UmLink.link_new; [exact Nb|exact Na|done].
  - unfold UmLink.waiting. rewrite Hq, Hsp. done.
Qed.

Lemma new_um_total' rx tx t : exists e, Um.new_nr_rlc_entity_um rx tx t 6 = Ok e.
Proof. destruct (new_common_total Entity.NR_RLC_UM) as [c Hc]. unfold Um.new_nr_rlc_entity_um. rewrite Hc. by eexists. Qed.

(** ** The whole uplink *)

(** C1: the uplink from the TUN interface of the UE to GTP-U at the gNB is a queue of
    packets.  The DRB is in UM, MAC loses nothing, packets have 1 to 8999 bytes and fit
    in the room that RLC has (the packet and 8 bytes of headers and MAC-I each), the
    identifiers have 16 bits, and grants have any size except two bytes, on which the
    code drops an SDU.  However such packets and grants and the ticks of the clocks
    interleave, and however the grants cut the PDUs, every function of SDAP, PDCP, RLC
    and of their tables returns, and the packets leave in order, once and unchanged;
    those that have not left are the last ones that entered. *)
Theorem uplink_stack `{P : Platform} `{L : !PlatformLaws P} ndu ndg ue_f1 du2cu eu rnti lcid now_us idg drb_id ps eg
    st pkts room backlog ops :
  Stack.configured du2cu eu rnti idg drb_id ->
  Stack.carries ndg eu rnti lcid idg drb_id ps eg st pkts room backlog ->
  Forall Stack.permitted ops -> zsum Stack.cost ops <= room -> exists st' out pkts' backlog',
  res_foldl (Stack.step ndu ndg ue_f1 du2cu eu rnti lcid now_us) st ops = Ok st' /\
  Stack.carries ndg eu rnti lcid idg drb_id ps eg st' pkts' (room - zsum Stack.cost ops) backlog' /\
  pkts ++ (ops ≫= Stack.packets) = out ++ pkts' /\
  Stack.outputs st' = Stack.outputs st ++ map (GtpuSend idg ps) out.
Proof. intros Hc Hs Hp Hr. by eapply (Stack.stack_run_ok ndu). Qed.

Definition ops0 : list Stack.op :=
  [Stack.Packet [69; 0; 1]; Stack.Grant 6; Stack.UeTick; Stack.Packet [69; 0; 2; 9]; Stack.Grant 7; Stack.GnbTick;
   Stack.Grant 30].

Lemma ops0_permitted : Forall Stack.permitted ops0.
Proof.
  unfold ops0.
  repeat apply Forall_cons_2; try apply Forall_nil_2; cbn [Stack.permitted]; try done;
    apply packet_dec; (reflexivity || (vm_compute; split; [reflexivity|discriminate])).
Qed.

Lemma uplink_stack_witness : exists st' out pkts' backlog',
  res_foldl (Stack.step ue_node gnb_node None du_table ue_entity rnti 4 9) stack0 ops0 = Ok st' /\
  Stack.carries gnb_node ue_entity rnti 4 idg 1 5 gnb_entity st' pkts'
    (RLC_TX_MAXSIZE - zsum Stack.cost ops0) backlog' /\
  [] ++ (ops0 ≫= Stack.packets) = out ++ pkts' /\
  Stack.outputs st' = Stack.outputs stack0 ++ map (GtpuSend idg 5) out.
Proof.
  apply (uplink_stack ue_node gnb_node None du_table ue_entity rnti 4 9 idg 1 5 gnb_entity stack0 []
    RLC_TX_MAXSIZE 0 ops0).
  - exact stack0_configured.
  - exact stack0_carries.
  - exact ops0_permitted.
  - vm_compute. discriminate.
Defined.

(** C2: packets do not stay on the way: one grant of at least five bytes for each byte
    that waits in RLC brings every packet from the UE to GTP-U at the gNB. *)
Theorem uplink_stack_drain `{P : Platform} `{L : !PlatformLaws P} ndu ndg ue_f1 du2cu eu rnti lcid now_us idg drb_id ps
    eg st pkts room backlog size k :
  Stack.configured du2cu eu rnti idg drb_id ->
  Stack.carries ndg eu rnti lcid idg drb_id ps eg st pkts room backlog ->
  5 <= size -> backlog <= Z.of_nat k -> exists st',
  res_foldl (Stack.step ndu ndg ue_f1 du2cu eu rnti lcid now_us) st (replicate k (Stack.Grant size)) = Ok st' /\
  Stack.carries ndg eu rnti lcid idg drb_id ps eg st' [] room 0 /\
  Stack.outputs st' = Stack.outputs st ++ map (GtpuSend idg ps) pkts.
Proof. intros Hc Hs Hz Hk. by eapply (Stack.stack_drain_ok ndu). Qed.

(** From the state that the operations of [ops0] reach. *)
Lemma uplink_stack_drain_witness : exists st1 pkts st2 k,
  res_foldl (Stack.step ue_node gnb_node None du_table ue_entity rnti 4 9) stack0 ops0 = Ok st1 /\
  res_foldl (Stack.step ue_node gnb_node None du_table ue_entity rnti 4 9) st1 (replicate k (Stack.Grant 5)) = Ok st2 /\
  Stack.carries gnb_node ue_entity rnti 4 idg 1 5 gnb_entity st2 [] (RLC_TX_MAXSIZE - zsum Stack.cost ops0) 0 /\
  Stack.outputs st2 = Stack.outputs st1 ++ map (GtpuSend idg 5) pkts.
Proof.
  destruct (Stack.stack_run_ok ue_node gnb_node None du_table ue_entity rnti 4 9 idg 1 5 gnb_entity
    stack0_configured ops0 stack0 [] RLC_TX_MAXSIZE 0 stack0_carries ops0_permitted)
    as (st1 & out & pkts & backlog & E & Hc & _); [vm_compute; discriminate|].
  destruct (uplink_stack_drain ue_node gnb_node None du_table ue_entity rnti 4 9 idg 1 5 gnb_entity st1 pkts
    (RLC_TX_MAXSIZE - zsum Stack.cost ops0) backlog 5 (Z.to_nat backlog)) as (st2 & E2 & Hc2 & Ho).
  - exact stack0_configured.
  - exact Hc.
  - lia.
  - lia.
  - exists st1, pkts, st2, (Z.to_nat backlog). split; [exact E|]. split; [exact E2|]. split; [exact Hc2|exact Ho].
Defined.

(** ** Two UM entities *)

(** C3: two UM entities with the same SN length, over a MAC that loses nothing, are two
    queues of SDUs, one in each direction, for any interleaving of SDUs of 1 to
    [NR_SDU_MAX] bytes, clock ticks and grants of any size, with one exception: with
    12-bit SNs no grant has exactly two bytes (on such a grant the code drops the SDU
    at the head of its queue).  Every call returns; the SDUs that one side has accepted
    are those that the other side has delivered, in order and unchanged, followed by
    those that are still on the way; an SDU is refused for lack of space only. *)
Theorem um_link_fifo rxa txa ta rxb txb tb n a b now_us cs :
  Um.new_nr_rlc_entity_um rxa txa ta n = Ok a -> Um.new_nr_rlc_entity_um rxb txb tb n = Ok b ->
  Entity.NR_SDU_MAX <= rxa -> Entity.NR_SDU_MAX <= rxb -> Forall (fun c => UmLink.permitted n c.2) cs ->
  exists a' b' ga gb outa outb acca accb,
  res_foldl (UmLink.step now_us) (a, b) cs = Ok (a', b') /\
  Entity.trace (Um.common b') = map Entity.DeliverSdu outa /\
  Entity.trace (Um.common a') = map Entity.DeliverSdu outb /\
  acca = outa ++ UmLink.content a' ga /\ accb = outb ++ UmLink.content b' gb /\
  acca `sublist_of` UmLink.submitted true cs /\ accb `sublist_of` UmLink.submitted false cs /\
  (zsum zlen (UmLink.submitted true cs) <= txa -> acca = UmLink.submitted true cs) /\
  (zsum zlen (UmLink.submitted false cs) <= txb -> accb = UmLink.submitted false cs).
Proof.
  intros Ea Eb Hra Hrb Hc.
  pose proof (UmLink.link_new _ _ _ _ _ _ _ _ _ Ea Eb Hrb) as Hab.
  pose proof (UmLink.link_new _ _ _ _ _ _ _ _ _ Eb Ea Hra) as Hba.
  destruct (UmLink.new_empty _ _ _ _ _ Ea) as (Ca & Sa & Ta), (UmLink.new_empty _ _ _ _ _ Eb) as (Cb & Sb & Tb).
  destruct (UmLink.link_run_ok now_us cs a b [] [] Hab Hba ltac:(by rewrite (UmLink.new_sn_length _ _ _ _ _ Ea)))
    as (a' & b' & ga & gb & outa & outb & E & [_ _ Tr1 (acca & F1 & S1 & P1)] & [_ _ Tr2 (accb & F2 & S2 & P2)]).
  rewrite Ca in F1. rewrite Cb in F2. rewrite Tb in Tr1. rewrite Ta in Tr2. rewrite Sa in P1. rewrite Sb in P2.
  exists a', b', ga, gb, outa, outb, acca, accb. split_and!; try done; intros Hs; [by apply P1|by apply P2].
Qed.

Definition link_calls : list (bool * UmLink.call) :=
  [(true, UmLink.Submit [1; 2; 3; 4; 5] 1); (true, UmLink.Grant 4); (false, UmLink.Submit [7] 2); (true, UmLink.Clock 3);
   (true, UmLink.Grant 2); (true, UmLink.Grant 20); (false, UmLink.Grant 9)].

Lemma um_link_fifo_witness : exists a b a' b' outa outb,
  Um.new_nr_rlc_entity_um 20000 100 35 6 = Ok a /\ Um.new_nr_rlc_entity_um 20000 100 35 6 = Ok b /\
  res_foldl (UmLink.step 9) (a, b) link_calls = Ok (a', b') /\
  Entity.trace (Um.common b') = map Entity.DeliverSdu outa /\
  Entity.trace (Um.common a') = map Entity.DeliverSdu outb.
Proof.
  destruct (new_um_total' 20000 100 35) as (a & Ea).
  destruct (um_link_fifo 20000 100 35 20000 100 35 6 a a 9 link_calls)
    as (a' & b' & ga & gb & outa & outb & acca & accb & E & T1 & T2 & _).
  - exact Ea.
  - exact Ea.
  - vm_compute. discriminate.
  - vm_compute. discriminate.
  - unfold link_calls. repeat apply Forall_cons_2; try apply Forall_nil_2; cbn; try done; split; try done; by left.
  - exists a, a, a', b', outa, outb. split; [exact Ea|]. split; [exact Ea|]. split; [exact E|]. split; [exact T1|exact T2].
Defined.

(** ** The table of UEs *)

(** C4: a function of an RLC entity that MAC, PDCP or RRC calls through the table has
    the effect it has on the UE alone, events included; the table stays sound, every
    other UE keeps its entities, a UE that is not there counts as one without bearers,
    and a fault of the entity is the fault of the call. *)
Theorem rlc_table_frame {B} du2cu m id sel (none : B) f : wf m ->
  match on_ue du2cu m (ue_of m id) sel none f with
  | Ok (u, ev, b) => exists m', with_entity du2cu m id sel none f = Ok (m', ev, b) /\ wf m' /\
      settings m' = settings m /\ forall id', ue_of m' id' = if decide (id' = id) then u else ue_of m id'
  | Fault y => with_entity du2cu m id sel none f = Fault y
  end.
Proof.
  intros Hm. pose proof (rlc_with_entity_ok du2cu m id sel none f Hm) as H.
  destruct (on_ue du2cu m (ue_of m id) sel none f) as [[[u ev] b]|y]; [|done].
  destruct H as (m' & E & [H1 H2 H3]). by exists m'.
Qed.

(** The space of the entity of channel 4, and the answer for a channel that is not there. *)
Lemma rlc_table_frame_witness :
  match on_ue None (rlc_with_drb NR_RLC_OP_MODE_UE idu) (ue_of (rlc_with_drb NR_RLC_OP_MODE_UE idu) idu)
          (fun u => place_of_lcid u 4) (-1) (fun x => mret (x, available_tx_space x)) with
  | Ok (u, ev, b) => exists m',
      with_entity None (rlc_with_drb NR_RLC_OP_MODE_UE idu) idu (fun u => place_of_lcid u 4) (-1)
        (fun x => mret (x, available_tx_space x)) = Ok (m', ev, b) /\ wf m' /\
      settings m' = settings (rlc_with_drb NR_RLC_OP_MODE_UE idu) /\
      forall id', ue_of m' id' = if decide (id' = idu) then u else ue_of (rlc_with_drb NR_RLC_OP_MODE_UE idu) id'
  | Fault y => with_entity None (rlc_with_drb NR_RLC_OP_MODE_UE idu) idu (fun u => place_of_lcid u 4) (-1)
                 (fun x => mret (x, available_tx_space x)) = Fault y
  end.
Proof.
  apply (rlc_table_frame None (rlc_with_drb NR_RLC_OP_MODE_UE idu) idu).
  destruct (um_added NR_RLC_OP_MODE_UE idu 1 um_bearer um_config um_bearer_ok) as (m & n & t & e & E & H & _).
  unfold rlc_with_drb. rewrite E. apply H.
Defined.

(** C5: setting up a DRB with any values that RRC can carry.  A bearer in AM or UM whose
    SN lengths of the two directions are both present and equal is always set up: the
    logical channel leads to an entity with the configured values, or to the one that
    is already there, and nothing else changes in the table.  Every other configuration
    stops the program: a length that is absent is a null pointer, lengths that differ
    and bearers of one direction only are fatal. *)
Theorem rlc_add_drb m id drb_id c cfg : wf m -> drb_request drb_id c cfg ->
  match refused cfg with
  | Some y => nr_rlc_add_drb m id drb_id c = Fault y
  | None => exists m' x,
      nr_rlc_add_drb m id drb_id c = Ok m' /\ wf m' /\ created cfg x /\
      get_rlc_entity_from_lcid (ue_of m' id) (logicalChannelIdentity c)
        = Ok (Some (default x (mjoin (drb (ue_of m id) !! Z.to_nat (drb_id - 1))))) /\
      forall id', ue_of m' id' =
        if decide (id' = id) then with_drb (ue_of m id) (logicalChannelIdentity c) drb_id x else ue_of m id'
  end.
Proof.
  intros Hm Hq. destruct (refused cfg) eqn:Hr; [by apply (rlc_add_drb_refused m id drb_id c cfg)|].
  pose proof (request_config _ _ _ Hq Hr) as Hc.
  destruct (rlc_add_drb_ok m id drb_id c cfg Hm Hc) as (m' & x & E & Hx & [Hw _ Hu]).
  exists m', x. split_and!; try done. rewrite Hu, decide_True by done.
  apply with_drb_entity; [by apply ue_of_id|apply Hc|apply Hc].
Qed.

Lemma rlc_add_drb_witness : exists m' x,
  nr_rlc_add_drb (new_nr_rlc_ue_manager NR_RLC_OP_MODE_UE) 3 1 um_bearer = Ok m' /\
  created (NR_RLC_Config_PR_um_Bi_Directional um_config) x /\
  get_rlc_entity_from_lcid (ue_of m' 3) 4 = Ok (Some x).
Proof.
  destruct (rlc_add_drb (new_nr_rlc_ue_manager NR_RLC_OP_MODE_UE) 3 1 um_bearer
    (NR_RLC_Config_PR_um_Bi_Directional um_config)) as (m' & x & E & _ & Hx & Hg & _).
  - split; [apply NoDup_nil_2|apply Forall_nil_2].
  - split; [done|done|done|done|]. split; [done|]. split; done.
  - exists m', x. split; [exact E|]. split; [exact Hx|exact Hg].
Defined.
End StackProperties.
