(* ===== verification/MacLists.v ===== *)
(** * The index lists of the NR MAC

    Models [NR_list_t] of [openair2/LAYER2/NR_MAC_gNB/nr_mac_gNB.h] and its functions
    in [gNB_scheduler_primitives.c].  A list of small numbers (HARQ processes) is kept
    in an array: [next[i]] is the number after [i], [-1] at the end, and [head] and
    [tail] are the ends.  The functions walk with pointers into the structure
    ([int *cur = &listP->head; cur = &listP->next[*cur]]): such a pointer is a [link].

    The second part is the specification: [encode n xs] is the one structure of [n]
    entries that stands for the sequence [xs], and each function is the function on
    sequences its comment describes. *)

From S2P Require Import Prelude.

Module MacLists.

(** [NR_list_t]. *)
Record NR_list_t := mk_list {
  head : Z;
  next : list Z;
  tail : Z;
  len : Z
}.

(** [int *]: the address of [head] or of an element of [next]. *)
Inductive link :=
| Head
| Next (i : Z).

(** [*p] and [*p = v]. *)
Definition deref (l : NR_list_t) (p : link) : res Z :=
  match p with
  | Head => mret (head l)
  | Next i => zget (next l) i
  end.

Definition store (l : NR_list_t) (p : link) (v : Z) : res NR_list_t :=
  match p with
  | Head => mret (mk_list v (next l) (tail l) (len l))
  | Next i => nx ← zset (next l) i v; mret (mk_list (head l) nx (tail l) (len l))
  end.

Definition set_tail (l : NR_list_t) (v : Z) : NR_list_t := mk_list (head l) (next l) v (len l).

(** The structure before [create_nr_list]: zeroed memory. *)
Definition zeroed : NR_list_t := mk_list 0 [] 0 0.

(** [create_nr_list]. *)
Definition create_nr_list (n : Z) : NR_list_t :=
  mk_list (-1) (replicate (Z.to_nat n) (-1)) (-1) n.

(** [resize_nr_list]. *)
Definition resize_nr_list (l : NR_list_t) (new_len : Z) : res NR_list_t :=
  if new_len =? len l then mret l
  else if new_len >? len l then
    mret (mk_list (head l) (next l ++ replicate (Z.to_nat (new_len - len l)) (-1)) (tail l) new_len)
  else
    _ ← dev_assert (head l <? new_len);
    _ ← dev_assert (tail l <? new_len);
    _ ← res_foldl (fun _ i => v ← zget (next l) i; dev_assert (v <? new_len)) tt
          (seqZ 0 (len l));
    mret (mk_list (head l) (take (Z.to_nat new_len) (next l)) (tail l) new_len).

(** The loop of [add_nr_list]: the link that holds the end of the list. *)
Fixpoint add_nr_list_loop (fuel : nat) (l : NR_list_t) (id : Z) (cur : link) : res link :=
  match fuel with
  | O => Fault NoFuel
  | S fuel' =>
      c ← deref l cur;
      if c >=? 0 then
        _ ← dev_assert (negb (c =? id));
        add_nr_list_loop fuel' l id (Next c)
      else mret cur
  end.

(** [add_nr_list]. *)
Definition add_nr_list (l : NR_list_t) (id : Z) : res NR_list_t :=
  cur ← add_nr_list_loop (S (length (next l))) l id Head;
  l ← store l cur id;
  n ← zget (next l) id;
  mret (if n <? 0 then set_tail l id else l).

(** The loop of [remove_nr_list]: [cur] and [prev] at its end. *)
Fixpoint remove_nr_list_loop (fuel : nat) (l : NR_list_t) (id : Z) (cur prev : link)
    : res (link * link) :=
  match fuel with
  | O => Fault NoFuel
  | S fuel' =>
      c ← deref l cur;
      if negb (c =? -1) && negb (c =? id)
      then remove_nr_list_loop fuel' l id (Next c) cur
      else mret (cur, prev)
  end.

(** [remove_nr_list]. *)
Definition remove_nr_list (l : NR_list_t) (id : Z) : res NR_list_t :=
  '(cur, prev) ← remove_nr_list_loop (S (length (next l))) l id Head Head;
  c ← deref l cur;
  _ ← dev_assert (negb (c =? -1));
  let nxt := Next c in
  v ← zget (next l) c;
  l ← store l cur v;
  l ← store l nxt (-1);
  p ← deref l prev;
  keep ← (if p >=? 0 then n ← zget (next l) p; mret (n >=? 0) else mret false);
  mret (set_tail l (if keep : bool then tail l else p)).

(** [add_tail_nr_list]. *)
Definition add_tail_nr_list (l : NR_list_t) (id : Z) : res NR_list_t :=
  let last := if tail l <? 0 then Head else Next (tail l) in
  l ← store l last id;
  l ← store l (Next id) (-1);
  mret (set_tail l id).

(** [add_front_nr_list]. *)
Definition add_front_nr_list (l : NR_list_t) (id : Z) : res NR_list_t :=
  let ohead := head l in
  l ← store l Head id;
  l ← store l (Next id) ohead;
  mret (if tail l <? 0 then set_tail l id else l).

(** [remove_front_nr_list]. *)
Definition remove_front_nr_list (l : NR_list_t) : res NR_list_t :=
  _ ← dev_assert (head l >=? 0);
  let ohead := head l in
  v ← zget (next l) ohead;
  l ← store l Head v;
  l ← store l (Next ohead) (-1);
  mret (if head l <? 0 then set_tail l (-1) else l).

(** ** The sequence a structure stands for *)

Definition first (xs : list Z) : Z := match xs with x :: _ => x | [] => -1 end.
Definition final (xs : list Z) : Z := List.last xs (-1).

(** The number after [x] in [xs]. *)
Fixpoint succ (xs : list Z) (x : Z) : Z :=
  match xs with
  | [] => -1
  | y :: ys => if x =? y then first ys else succ ys x
  end.

Definition encode (n : Z) (xs : list Z) : NR_list_t :=
  mk_list (first xs) (map (succ xs) (seqZ 0 n)) (final xs) n.

(** A sequence that a structure of [n] entries can hold. *)
Record fits (n : Z) (xs : list Z) : Prop := {
  fits_nodup : NoDup xs;
  fits_range x : x ∈ xs -> 0 <= x < n
}.

(** ** Arrays given by a function *)

Lemma length_table (f : Z -> Z) n : length (map f (seqZ 0 n)) = Z.to_nat n.
Proof. by rewrite length_map, length_seqZ. Qed.

Lemma zlen_table (f : Z -> Z) n : 0 <= n -> zlen (map f (seqZ 0 n)) = n.
Proof. intros. unfold zlen. rewrite length_table. lia. Qed.

Lemma lookup_table (f : Z -> Z) n (i : nat) :
  (Z.of_nat i < n) -> map f (seqZ 0 n) !! i = Some (f (Z.of_nat i)).
Proof.
  intros. change (map f (seqZ 0 n)) with (f <$> seqZ 0 n).
  rewrite list_lookup_fmap, lookup_seqZ_lt by lia. simpl. by rewrite Z.add_0_l.
Qed.

Lemma zget_table (f : Z -> Z) n i : 0 <= i < n -> zget (map f (seqZ 0 n)) i = Ok (f i).
Proof. intros. apply zget_ok. rewrite lookup_table by lia. rewrite Z2Nat.id by lia. split; [lia|done]. Qed.

Lemma table_ext (f g : Z -> Z) n :
  (forall i, 0 <= i < n -> f i = g i) -> map f (seqZ 0 n) = map g (seqZ 0 n).
Proof. intros H. apply map_ext_in. intros i Hi%list_elem_of_In%elem_of_seqZ. apply H. lia. Qed.

Lemma zset_table (f : Z -> Z) n i v : 0 <= i < n ->
  zset (map f (seqZ 0 n)) i v = Ok (map (fun j => if j =? i then v else f j) (seqZ 0 n)).
Proof.
  intros. rewrite zset_ok by (rewrite zlen_table; lia). f_equal. apply list_eq. intros j.
  destruct (decide (Z.of_nat j < n)) as [Hj|Hj].
  - rewrite (lookup_table _ _ j) by done. destruct (Z.eqb_spec (Z.of_nat j) i) as [<-|Hne].
    + rewrite Nat2Z.id, list_lookup_insert_eq; [done|]. rewrite length_table. lia.
    + rewrite list_lookup_insert_ne by lia. by rewrite lookup_table.
  - rewrite !lookup_ge_None_2; [done| |]; rewrite ?length_insert, length_table; lia.
Qed.

(** ** The order of a sequence *)

Lemma succ_fresh xs x : x ∉ xs -> succ xs x = -1.
Proof.
  induction xs as [|y ys IH]; [done|]. rewrite not_elem_of_cons. intros [Hne Hys]. simpl.
  destruct (Z.eqb_spec x y); [done|]. by apply IH.
Qed.

(** The number after the last one of a prefix. *)
Lemma succ_app xs ys x : NoDup (xs ++ ys) -> succ (xs ++ ys) x =
  if decide (x ∈ xs) then (if x =? final xs then first ys else succ xs x) else succ ys x.
Proof.
  induction xs as [|y xs IH]; intros Hnd; [done|]. rewrite <- app_comm_cons in *.
  apply NoDup_cons in Hnd as [Hy Hnd]. cbn [succ].
  destruct (Z.eqb_spec x y) as [->|Hne].
  - rewrite decide_True by (left). destruct xs as [|z xs].
    + unfold final. simpl. by rewrite Z.eqb_refl.
    + assert (Hf : y <> final (z :: xs)).
      { intros Hf. apply Hy. rewrite Hf. apply elem_of_app. left. unfold final.
        apply list_elem_of_In. destruct (exists_last (l := z :: xs)) as (a & b & E); [done|].
        rewrite E, last_last. apply in_or_app. right. by left. }
      change (final (y :: z :: xs)) with (final (z :: xs)).
      destruct (Z.eqb_spec y (final (z :: xs))); [done|]. done.
  - rewrite IH by done. destruct (decide (x ∈ xs)) as [Hx|Hx].
    + rewrite decide_True by (by right). destruct xs as [|z xs]; [by apply not_elem_of_nil in Hx|].
      done.
    + rewrite decide_False by (rewrite not_elem_of_cons; done). done.
Qed.

Lemma final_snoc xs x : final (xs ++ [x]) = x.
Proof. unfold final. apply last_last. Qed.

Lemma final_elem xs : xs <> [] -> final xs ∈ xs.
Proof.
  intros H. destruct (exists_last H) as (a & b & ->). rewrite final_snoc.
  apply elem_of_app. right. by left.
Qed.

Lemma final_app xs ys : ys <> [] -> final (xs ++ ys) = final ys.
Proof.
  intros H. destruct (exists_last H) as (a & b & ->). by rewrite app_assoc, !final_snoc.
Qed.

Lemma succ_final xs : NoDup xs -> succ xs (final xs) = -1.
Proof.
  intros Hnd. destruct (decide (xs = [])) as [->|Hne]; [done|].
  rewrite <- (app_nil_r xs) at 1. rewrite succ_app by (by rewrite app_nil_r).
  rewrite decide_True by (by apply final_elem). by rewrite Z.eqb_refl.
Qed.

Lemma succ_tail x xs y : y <> x -> succ (x :: xs) y = succ xs y.
Proof. intros. simpl. by destruct (Z.eqb_spec y x). Qed.

Section fits_lemmas.
Context (n : Z).
Implicit Types xs ys : list Z.

Lemma fits_nil : fits n [].
Proof. split; [constructor|]. intros x Hx. by apply not_elem_of_nil in Hx. Qed.

Lemma fits_final xs : fits n xs -> xs <> [] -> 0 <= final xs < n.
Proof. intros H Hne. apply (fits_range _ _ H), final_elem, Hne. Qed.

Lemma final_nonneg xs : fits n xs -> (final xs <? 0) = bool_decide (xs = []).
Proof.
  intros H. destruct xs as [|x xs]; [done|].
  assert (0 <= final (x :: xs) < n) by (by apply fits_final).
  rewrite bool_decide_eq_false_2 by done. apply Z.ltb_ge. lia.
Qed.

Lemma fits_first x xs : fits n (x :: xs) -> 0 <= x < n.
Proof. intros H. apply (fits_range _ _ H). left. Qed.

Lemma first_sign xs : fits n xs -> (first xs >=? 0) = negb (bool_decide (xs = [])).
Proof.
  intros H. destruct xs as [|x xs]; [done|].
  pose proof (fits_first x xs H). rewrite bool_decide_eq_false_2 by done. apply Z.geb_le. simpl. lia.
Qed.

Lemma fits_perm xs ys : xs ≡ₚ ys -> fits n xs -> fits n ys.
Proof.
  intros Hp [Hnd Hr]. split; [by rewrite <- Hp|]. intros x. rewrite <- Hp. apply Hr.
Qed.

#[export] Instance fits_proper : Proper ((≡ₚ) ==> iff) (fits n).
Proof. intros xs ys H. split; apply fits_perm; [done|by symmetry]. Qed.

Lemma fits_app_l xs ys : fits n (xs ++ ys) -> fits n xs.
Proof.
  intros [Hnd Hr]. apply NoDup_app in Hnd as (Hnd & _ & _). split; [done|].
  intros x Hx. apply Hr. apply elem_of_app. by left.
Qed.

Lemma fits_app_r xs ys : fits n (xs ++ ys) -> fits n ys.
Proof.
  intros [Hnd Hr]. apply NoDup_app in Hnd as (_ & _ & Hnd). split; [done|].
  intros x Hx. apply Hr. apply elem_of_app. by right.
Qed.

Lemma fits_snoc xs x : fits n xs -> 0 <= x < n -> x ∉ xs -> fits n (xs ++ [x]).
Proof.
  intros [Hnd Hr] Hx Hni. split.
  - apply NoDup_app. split; [done|]. split; [|apply NoDup_singleton].
    intros y Hy ->%list_elem_of_singleton. done.
  - intros y [Hy| ->%list_elem_of_singleton]%elem_of_app; [by apply Hr|done].
Qed.
End fits_lemmas.

Lemma fits_wider n m xs : n <= m -> fits n xs -> fits m xs.
Proof. intros Hle [Hnd Hr]. split; [done|]. intros x Hx. specialize (Hr x Hx). lia. Qed.

(** ** The functions on sequences *)

Lemma zget_encode n xs i : 0 <= i < n -> zget (next (encode n xs)) i = Ok (succ xs i).
Proof. apply zget_table. Qed.

Lemma store_head n xs v :
  store (encode n xs) Head v = Ok (mk_list v (map (succ xs) (seqZ 0 n)) (final xs) n).
Proof. done. Qed.

Lemma create_encode n : 0 <= n -> create_nr_list n = encode n [].
Proof.
  intros. unfold create_nr_list, encode. f_equal. apply list_eq. intros i.
  destruct (decide (Z.of_nat i < n)).
  - rewrite lookup_table by done. apply lookup_replicate. split; [done|lia].
  - rewrite !lookup_ge_None_2; [done| |]; rewrite ?length_table, ?length_replicate; lia.
Qed.

(** The link that holds the number after the prefix [pre]. *)
Definition link_to (pre : list Z) : link :=
  match pre with
  | [] => Head
  | _ => Next (final pre)
  end.

Lemma link_to_snoc pre x : link_to (pre ++ [x]) = Next x.
Proof. destruct pre as [|p pre]; [done|]. exact (f_equal Next (final_snoc (p :: pre) x)). Qed.

Lemma succ_snoc xs id y : NoDup (xs ++ [id]) ->
  succ (xs ++ [id]) y =
    if y =? id then -1 else if bool_decide (xs <> []) && (y =? final xs) then id else succ xs y.
Proof.
  intros Hnd. rewrite succ_app by done. destruct (Z.eqb_spec y id) as [->|Hy].
  { apply NoDup_app in Hnd as (_ & Hd & _). rewrite decide_False; [simpl; by rewrite Z.eqb_refl|].
    intros Hx. apply (Hd id Hx). left. }
  assert (E : succ [id] y = -1) by (simpl; by rewrite (proj2 (Z.eqb_neq y id))). rewrite E.
  destruct (decide (xs = [])) as [->|Hx].
  - rewrite decide_False by apply not_elem_of_nil. done.
  - rewrite bool_decide_eq_true_2 by done. cbn [andb].
    destruct (Z.eqb_spec y (final xs)) as [->|Hyf].
    + by rewrite decide_True by (by apply final_elem).
    + destruct (decide (y ∈ xs)); [done|]. by rewrite succ_fresh.
Qed.

(** Writing the new number at the end of the chain. *)
Lemma store_last n xs id : fits n xs -> 0 <= id < n -> id ∉ xs ->
  store (encode n xs) (link_to xs) id = Ok (set_tail (encode n (xs ++ [id])) (final xs)).
Proof.
  intros Hf Hid Hni. pose proof (fits_snoc _ _ _ Hf Hid Hni) as [Hnd _].
  unfold set_tail. cbn [encode head next len].
  rewrite (table_ext (succ (xs ++ [id])) _ n (fun y _ => succ_snoc xs id y Hnd)).
  assert (Hfresh : forall y, (y =? id) = true -> succ xs y = -1)
    by (intros y ->%Z.eqb_eq; by apply succ_fresh).
  destruct (decide (xs = [])) as [->|Hx].
  - cbn [link_to app]. rewrite store_head. unfold encode. do 2 f_equal. apply table_ext.
    intros i _. simpl. by destruct (i =? id).
  - replace (link_to xs) with (Next (final xs)) by (by destruct xs).
    pose proof (fits_final n xs Hf Hx). unfold store. cbn [encode next].
    rewrite zset_table, res_bind_unfold, bool_decide_eq_true_2 by done. cbn [head tail len].
    unfold mret, res_ret. do 2 f_equal; [by destruct xs|]. apply table_ext. intros i _. cbn [andb].
    destruct (Z.eqb_spec i id) as [->|]; [|done].
    destruct (Z.eqb_spec id (final xs)) as [->|]; [by destruct Hni; apply final_elem|].
    by apply succ_fresh.
Qed.

(** Writing the end of the chain where it is already. *)
Lemma store_end n xs t id : 0 <= id < n -> succ xs id = -1 ->
  store (set_tail (encode n xs) t) (Next id) (-1) = Ok (set_tail (encode n xs) t).
Proof.
  intros Hid Hs. unfold store, set_tail. cbn [encode next head tail len].
  rewrite zset_table, res_bind_unfold by done. unfold mret, res_ret. do 2 f_equal.
  apply table_ext. intros i _. by destruct (Z.eqb_spec i id) as [->|].
Qed.

Lemma succ_new n xs id : fits n xs -> 0 <= id < n -> id ∉ xs -> succ (xs ++ [id]) id = -1.
Proof.
  intros Hf Hid Hni. rewrite succ_snoc by (by apply (fits_snoc n)). by rewrite Z.eqb_refl.
Qed.

(** [add_tail_nr_list] appends. *)
Lemma add_tail_encode n xs id : fits n xs -> 0 <= id < n -> id ∉ xs ->
  add_tail_nr_list (encode n xs) id = Ok (encode n (xs ++ [id])).
Proof.
  intros Hf Hid Hni. unfold add_tail_nr_list. cbn [tail encode].
  rewrite (final_nonneg n) by done. fold (encode n xs).
  replace (if bool_decide (xs = []) then Head else Next (final xs)) with (link_to xs) by (by destruct xs).
  rewrite store_last, res_bind_unfold by done.
  rewrite store_end, res_bind_unfold by eauto using succ_new.
  unfold encode, set_tail. cbn [head next len]. by rewrite final_snoc.
Qed.

(** [add_front_nr_list] puts in front. *)
Lemma add_front_encode n xs id : fits n xs -> 0 <= id < n -> id ∉ xs ->
  add_front_nr_list (encode n xs) id = Ok (encode n (id :: xs)).
Proof.
  intros Hf Hid Hni. unfold add_front_nr_list. rewrite store_head, res_bind_unfold.
  unfold store. cbn [next head encode].
  rewrite zset_table, res_bind_unfold, res_ret_bind by done. cbn [tail].
  rewrite (final_nonneg n) by done. unfold encode. cbn [first succ]. case_bool_decide as Hx.
  - by subst xs.
  - destruct xs; done.
Qed.

(** [remove_front_nr_list] removes the first number, or exits. *)
Lemma remove_front_encode n x xs : fits n (x :: xs) ->
  remove_front_nr_list (encode n (x :: xs)) = Ok (encode n xs).
Proof.
  intros Hf. pose proof (fits_first _ _ _ Hf) as Hx. unfold remove_front_nr_list.
  cbn [head encode first]. rewrite dev_assert_ok, res_bind_unfold by (zcases; lia || done).
  rewrite zget_encode, res_bind_unfold by done.
  rewrite store_head, res_bind_unfold. unfold store. cbn [next].
  rewrite zset_table, res_bind_unfold, res_ret_bind by done. cbn [head succ]. rewrite Z.eqb_refl.
  pose proof (fits_app_r n [x] xs Hf) as Hf'.
  assert (E : map (fun j => if j =? x then -1 else if j =? x then first xs else succ xs j) (seqZ 0 n)
    = map (succ xs) (seqZ 0 n)).
  { apply table_ext. intros i _. destruct (Z.eqb_spec i x) as [->|]; [|done].
    symmetry. apply succ_fresh. by destruct Hf as [[Hn _]%NoDup_cons _]. }
  rewrite E. unfold encode. destruct xs as [|y ys]; [done|].
  pose proof (fits_first _ _ _ Hf'). cbn [first]. destruct (Z.ltb_spec y 0); [lia|]. done.
Qed.

Lemma remove_front_empty n : remove_front_nr_list (encode n []) = Fault Exit.
Proof. done. Qed.

Lemma deref_link_to n pre post : fits n (pre ++ post) ->
  deref (encode n (pre ++ post)) (link_to pre) = Ok (first post).
Proof.
  intros Hf. destruct (decide (pre = [])) as [->|Hl]; [done|].
  replace (link_to pre) with (Next (final pre)) by (by destruct pre).
  pose proof (fits_final n pre (fits_app_l _ _ _ Hf) Hl).
  cbn [deref]. rewrite zget_encode by done. f_equal. rewrite succ_app by apply Hf.
  rewrite decide_True by (by apply final_elem). by rewrite Z.eqb_refl.
Qed.

Lemma fits_length n xs : fits n xs -> (length xs <= Z.to_nat n)%nat.
Proof.
  intros [Hnd Hr]. rewrite <- (length_seqZ 0 n). apply submseteq_length, NoDup_submseteq; [done|].
  intros x Hx. apply elem_of_seqZ. specialize (Hr x Hx). lia.
Qed.

(** The loop of [remove_nr_list] stops at the link to [id]. *)
Lemma remove_loop_found n id post : forall pre done_ fuel prev,
  fits n (done_ ++ pre ++ id :: post) -> (length pre < fuel)%nat ->
  remove_nr_list_loop fuel (encode n (done_ ++ pre ++ id :: post)) id (link_to done_) prev
  = Ok (link_to (done_ ++ pre),
        match pre with [] => prev | _ => link_to (done_ ++ removelast pre) end).
Proof.
  intros pre. induction pre as [|x pre IH]; intros d fuel prev Hf Hfuel;
    (destruct fuel as [|fuel]; [lia|]); cbn [remove_nr_list_loop]; rewrite deref_link_to by done;
    rewrite res_bind_unfold; cbn [first app].
  - rewrite Z.eqb_refl, andb_false_r, app_nil_r. done.
  - assert (Hx : 0 <= x < n) by (apply (fits_range _ _ Hf), elem_of_app; right; left).
    assert (Hne : x <> id).
    { intros ->. destruct Hf as [Hnd _]. apply NoDup_app in Hnd as (_ & _ & Hnd).
      apply NoDup_cons in Hnd as [Hn _]. apply Hn, elem_of_app. right. left. }
    rewrite (proj2 (Z.eqb_neq x (-1))), (proj2 (Z.eqb_neq x id)) by lia. cbn [negb andb].
    rewrite <- (link_to_snoc d x).
    replace (d ++ x :: pre ++ id :: post) with ((d ++ [x]) ++ pre ++ id :: post)
      by (by rewrite <- app_assoc).
    cbn [length] in Hfuel.
    rewrite IH by (rewrite <- ?app_assoc; done || lia). rewrite <- app_assoc. cbn [app].
    destruct pre as [|y pre]; [by rewrite app_nil_r|].
    cbn [removelast]. by rewrite <- app_assoc.
Qed.

Lemma remove_loop_absent n id : forall xs d fuel prev,
  fits n (d ++ xs) -> id ∉ xs -> (length xs < fuel)%nat ->
  exists cp, remove_nr_list_loop fuel (encode n (d ++ xs)) id (link_to d) prev = Ok cp /\
    deref (encode n (d ++ xs)) (fst cp) = Ok (-1).
Proof.
  induction xs as [|x xs IH]; intros d fuel prev Hf Hni Hfuel;
    (destruct fuel as [|fuel]; [simpl in *; lia|]); cbn [remove_nr_list_loop];
    rewrite deref_link_to, res_bind_unfold by done; cbn [first].
  - eexists. split; [done|]. cbn [fst]. by rewrite deref_link_to.
  - apply not_elem_of_cons in Hni as [Hne Hni].
    assert (Hx : 0 <= x < n) by (apply (fits_range _ _ Hf), elem_of_app; right; left).
    rewrite (proj2 (Z.eqb_neq x (-1))), (proj2 (Z.eqb_neq x id)) by lia. cbn [negb andb length] in *.
    rewrite <- (link_to_snoc d x). replace (d ++ x :: xs) with ((d ++ [x]) ++ xs)
      by (by rewrite <- app_assoc).
    apply IH; [by rewrite <- app_assoc|done|lia].
Qed.

(** What is left after [id] has been removed from the middle. *)
Lemma succ_remove pre id post y : NoDup (pre ++ id :: post) -> 
  succ (pre ++ post) y =
    if y =? id then -1
    else if bool_decide (pre <> []) && (y =? final pre) then first post
    else succ (pre ++ id :: post) y.
Proof.
  intros Hnd. assert (Hnd' : NoDup (pre ++ post)).
  { rewrite <- Permutation_middle in Hnd. by apply NoDup_cons in Hnd as [_ ?]. }
  rewrite !succ_app by done. destruct (Z.eqb_spec y id) as [->|Hy].
  { apply NoDup_app in Hnd as (_ & Hd & [Hid _]%NoDup_cons).
    rewrite decide_False by (intros Hp; apply (Hd id Hp); left). by apply succ_fresh. }
  case_bool_decide as Hp; cbn [andb].
  - destruct (Z.eqb_spec y (final pre)) as [->|Hyf].
    + by rewrite decide_True by (by apply final_elem).
    + destruct (decide (y ∈ pre)); [done|]. by rewrite succ_tail.
  - assert (pre = []) as -> by (by destruct pre). rewrite decide_False by (by intros ?%not_elem_of_nil).
    by rewrite succ_tail.
Qed.

(** Unlinking [id]: what the two stores of [remove_nr_list] leave. *)
Lemma unlink n pre id post : fits n (pre ++ id :: post) ->
  (l ← store (encode n (pre ++ id :: post)) (link_to pre) (first post); store l (Next id) (-1))
  = Ok (set_tail (encode n (pre ++ post)) (final (pre ++ id :: post))).
Proof.
  intros Hf. assert (Hid : 0 <= id < n) by (apply (fits_range _ _ Hf), elem_of_app; right; left).
  unfold set_tail. cbn [encode head next len].
  rewrite (table_ext (succ (pre ++ post)) _ n
    (fun y _ => succ_remove pre id post y (fits_nodup _ _ Hf))).
  destruct pre as [|p pre].
  - cbn [link_to app]. rewrite store_head, res_bind_unfold. unfold store. cbn [next].
    rewrite zset_table by done. done.
  - rewrite bool_decide_eq_true_2 by done.
    pose proof (fits_final n (p :: pre) (fits_app_l _ _ _ Hf)) as Hl. specialize (Hl ltac:(done)).
    cbn [link_to store encode next]. rewrite zset_table, !res_bind_unfold by done. cbn [next].
    rewrite zset_table by done. done.
Qed.

(** The link before the last one: it leads to the last number of [pre], or to
    the first number of what is left. *)
Lemma deref_prev n pre post : fits n (pre ++ post) -> 
  deref (set_tail (encode n (pre ++ post)) 0) (match pre with [] => Head | _ => link_to (removelast pre) end)
  = Ok (if bool_decide (pre = []) then first post else final pre).
Proof.
  intros Hf. destruct (decide (pre = [])) as [->|Hl]; [by destruct post|].
  rewrite bool_decide_eq_false_2 by done.
  replace (match pre with [] => Head | _ => _ end) with (link_to (removelast pre)) by (by destruct pre).
  destruct (exists_last Hl) as (a & b & ->). rewrite removelast_last, final_snoc, <- app_assoc in *.
  change (deref (set_tail ?l 0) ?p) with (deref l p).
  rewrite deref_link_to by done. done.
Qed.

(** The tail [remove_nr_list] sets: the old one if the number [prev] leads to has a
    successor, that number otherwise. *)
Lemma tail_after_remove n pre id post p : fits n (pre ++ id :: post) ->
  p = (if bool_decide (pre = []) then first post else final pre) ->
  (if (p >=? 0) && (succ (pre ++ post) p >=? 0) then final (pre ++ id :: post) else p)
  = final (pre ++ post).
Proof.
  intros Hf ->. rewrite final_app by done.
  assert (Hf' : fits n (pre ++ post)).
  { rewrite <- Permutation_middle in Hf. by apply (fits_app_r n [id]) in Hf. }
  pose proof (fits_app_r _ _ _ Hf') as Hpost. case_bool_decide as Hp.
  - subst pre. destruct post as [|q post]; [done|]. cbn [app first succ]. rewrite Z.eqb_refl.
    pose proof (fits_first _ _ _ Hpost). rewrite (proj2 (Z.geb_le q 0)) by lia.
    rewrite (first_sign n) by apply (fits_app_r n [q] post Hpost).
    by destruct post.
  - pose proof (fits_final n pre (fits_app_l _ _ _ Hf') Hp) as Hr.
    rewrite (proj2 (Z.geb_le (final pre) 0)) by lia.
    rewrite succ_app by apply Hf'. rewrite decide_True by (by apply final_elem).
    rewrite Z.eqb_refl. destruct post as [|q post]; [by rewrite app_nil_r|].
    rewrite (first_sign n) by done. by rewrite final_app.
Qed.

(** [remove_nr_list] removes the number wherever it is, or exits. *)
Lemma remove_encode n pre id post : fits n (pre ++ id :: post) ->
  remove_nr_list (encode n (pre ++ id :: post)) id = Ok (encode n (pre ++ post)).
Proof.
  intros Hf. pose proof (fits_length _ _ Hf) as Hlen. rewrite length_app in Hlen. cbn [length] in Hlen.
  assert (Hid : 0 <= id < n) by (apply (fits_range _ _ Hf), elem_of_app; right; left).
  assert (Hf' : fits n (pre ++ post)).
  { rewrite <- Permutation_middle in Hf. by apply (fits_app_r n [id]) in Hf. }
  unfold remove_nr_list.
  pose proof (remove_loop_found n id post pre [] (S (length (next (encode n (pre ++ id :: post))))) Head Hf)
    as Hloop. cbn [encode next link_to app] in Hloop. rewrite length_table in Hloop.
  specialize (Hloop ltac:(lia)). cbn [encode next]. rewrite length_table. fold (encode n (pre ++ id :: post)).
  rewrite Hloop, res_bind_unfold, deref_link_to, res_bind_unfold by done. cbn [first].
  rewrite dev_assert_ok, res_bind_unfold by (apply negb_true_iff, Z.eqb_neq; lia).
  rewrite zget_table, res_bind_unfold by done.
  assert (Hs : succ (pre ++ id :: post) id = first post).
  { rewrite succ_app by apply Hf. destruct Hf as [(_ & Hd & _)%NoDup_app _].
    rewrite decide_False by (intros Hp; apply (Hd id Hp); left). simpl. by rewrite Z.eqb_refl. }
  rewrite Hs. pose proof (unlink n pre id post Hf) as Hu.
  apply res_bind_ok in Hu as (l1 & -> & Hu). rewrite res_bind_unfold, Hu, res_bind_unfold.
  pose proof (deref_prev n pre post Hf') as Hp.
  change (deref (set_tail ?l 0) ?p) with (deref (set_tail l (final (pre ++ id :: post))) p) in Hp.
  rewrite Hp, res_bind_unfold. set (p := if bool_decide (pre = []) then _ else _) in *.
  assert (Hpr : (p >=? 0) = true -> 0 <= p < n).
  { subst p. intros H0%Z.geb_le. case_bool_decide as He; [|by apply (fits_final n pre (fits_app_l _ _ _ Hf'))].
    destruct post; [done|]. apply (fits_first n z post). by apply fits_app_r in Hf'. }
  pose proof (tail_after_remove n pre id post p Hf eq_refl) as Ht.
  destruct (p >=? 0) eqn:E.
  - cbn [set_tail next]. rewrite zget_encode, !res_ret_bind by auto.
    cbn [andb] in Ht. unfold set_tail. cbn [tail head next len encode]. by rewrite Ht.
  - cbn [andb] in Ht. rewrite res_ret_bind. unfold set_tail. cbn [head next len encode]. by rewrite Ht.
Qed.

Lemma remove_absent n xs id : fits n xs -> id ∉ xs ->
  remove_nr_list (encode n xs) id = Fault Exit.
Proof.
  intros Hf Hni. pose proof (fits_length _ _ Hf) as Hlen. unfold remove_nr_list.
  destruct (remove_loop_absent n id xs [] (S (length (next (encode n xs)))) Head) as ([c p] & Hl & Hc);
    [done|done|cbn [encode next]; rewrite length_table; lia|].
  cbn [app link_to fst] in *. by rewrite Hl, res_bind_unfold, Hc, res_bind_unfold.
Qed.

(** The loop of [add_nr_list] stops at the end of the list, or exits at [id]. *)
Lemma add_loop_end n id : forall xs d fuel, fits n (d ++ xs) -> (length xs < fuel)%nat ->
  add_nr_list_loop fuel (encode n (d ++ xs)) id (link_to d)
  = if bool_decide (id ∈ xs) then Fault Exit else Ok (link_to (d ++ xs)).
Proof.
  induction xs as [|x xs IH]; intros d fuel Hf Hfuel;
    (destruct fuel as [|fuel]; [simpl in *; lia|]); cbn [add_nr_list_loop];
    rewrite deref_link_to, res_bind_unfold by done; cbn [first].
  - rewrite bool_decide_eq_false_2 by apply not_elem_of_nil. by rewrite app_nil_r.
  - assert (Hx : 0 <= x < n) by (apply (fits_range _ _ Hf), elem_of_app; right; left).
    rewrite (proj2 (Z.geb_le x 0)) by lia. cbn [length] in Hfuel.
    destruct (Z.eqb_spec x id) as [->|Hne].
    { rewrite bool_decide_eq_true_2 by left. done. }
    cbn [negb dev_assert]. rewrite res_ret_bind, <- (link_to_snoc d x).
    replace (d ++ x :: xs) with ((d ++ [x]) ++ xs) by (by rewrite <- app_assoc).
    rewrite IH by (rewrite <- ?app_assoc; done || lia).
    by rewrite (bool_decide_ext (id ∈ x :: xs) (id ∈ xs)) by (rewrite elem_of_cons; naive_solver).
Qed.

(** [add_nr_list] appends, and exits if the number is in the list already. *)
Lemma add_encode n xs id : fits n xs -> 0 <= id < n ->
  add_nr_list (encode n xs) id
  = if bool_decide (id ∈ xs) then Fault Exit else Ok (encode n (xs ++ [id])).
Proof.
  intros Hf Hid. pose proof (fits_length _ _ Hf) as Hlen. unfold add_nr_list.
  pose proof (add_loop_end n id xs [] (S (length (next (encode n xs)))) Hf) as Hl.
  cbn [app link_to encode next] in *. rewrite length_table in *. fold (encode n xs) in *.
  rewrite Hl by lia. case_bool_decide as Hin; [done|]. rewrite res_bind_unfold.
  rewrite store_last, res_bind_unfold by done. cbn [set_tail next].
  rewrite zget_encode, res_bind_unfold, (succ_new n) by done.
  unfold encode, set_tail. cbn [head next len]. by rewrite final_snoc.
Qed.

(** [resize_nr_list] keeps the sequence when the array grows. *)
Lemma resize_encode n m xs : fits n xs -> 0 <= n <= m ->
  resize_nr_list (encode n xs) m = Ok (encode m xs).
Proof.
  intros Hf Hm. unfold resize_nr_list. cbn [encode len head next tail].
  destruct (Z.eqb_spec m n) as [->|Hne]; [done|]. rewrite (proj2 (Z.gtb_lt m n)) by lia.
  unfold encode, mret, res_ret. do 2 f_equal. apply list_eq. intros i.
  destruct (decide (Z.of_nat i < n)).
  - rewrite lookup_app_l by (rewrite length_table; lia). by rewrite !lookup_table by lia.
  - rewrite lookup_app_r by (rewrite length_table; lia). rewrite length_table.
    destruct (decide (Z.of_nat i < m)).
    + rewrite lookup_table, lookup_replicate_2 by lia. f_equal. symmetry. apply succ_fresh.
      intros Hin. pose proof (fits_range _ _ Hf _ Hin). lia.
    + rewrite !lookup_ge_None_2; [done| |]; rewrite ?length_table, ?length_replicate; lia.
Qed.


(** The check of [resize_nr_list] over the array. *)
Lemma bounded_loop (f : Z -> Z) m n : 0 <= n ->
  res_foldl (fun _ i => v ← zget (map f (seqZ 0 n)) i; dev_assert (v <? m)) tt (seqZ 0 n)
  = if forallb (fun i => f i <? m) (seqZ 0 n) then Ok tt else Fault Exit.
Proof.
  intros Hn. assert (Hr : Forall (fun i => 0 <= i < n) (seqZ 0 n)).
  { apply Forall_forall. intros i Hi%elem_of_seqZ. lia. }
  revert Hr. generalize (seqZ 0 n) at 1 3 4. intros l Hr.
  induction Hr as [|i l Hi Hr IH]; [done|]. cbn [res_foldl forallb].
  rewrite zget_table, res_bind_unfold by done. destruct (f i <? m); cbn [dev_assert andb]; [|done].
  rewrite res_ret_bind. apply IH.
Qed.

(** Every number of a sequence is the first one or follows another one. *)
Lemma succ_onto xs x : NoDup xs -> x ∈ xs -> x = first xs \/ exists y, y ∈ xs /\ succ xs y = x.
Proof.
  intros Hnd (pre & post & ->)%list_elem_of_split.
  destruct (decide (pre = [])) as [->|Hp]; [by left|]. right. exists (final pre).
  pose proof (final_elem pre Hp). split; [apply elem_of_app; by left|].
  rewrite succ_app, decide_True by done. by rewrite Z.eqb_refl.
Qed.

Lemma first_elem xs : xs <> [] -> first xs ∈ xs.
Proof. destruct xs; [done|]. left. Qed.

Lemma succ_in xs y : succ xs y = -1 \/ succ xs y ∈ xs.
Proof.
  induction xs as [|x xs IH]; [by left|]. simpl. destruct (y =? x).
  - destruct xs; [by left|]. right. right. left.
  - destruct IH; [by left|]. right. by right.
Qed.

(** [resize_nr_list] to fewer entries keeps the sequence when it still fits, and
    exits otherwise. *)
Lemma resize_shorter n m xs : fits n xs -> 0 <= m < n ->
  resize_nr_list (encode n xs) m
  = if forallb (fun x => x <? m) xs then Ok (encode m xs) else Fault Exit.
Proof.
  intros Hf Hm. unfold resize_nr_list. cbn [encode len head next tail].
  rewrite (proj2 (Z.eqb_neq m n)), Z.gtb_ltb, (proj2 (Z.ltb_ge n m)), bounded_loop by lia.
  destruct (forallb (fun x => x <? m) xs) eqn:E.
  - rewrite forallb_forall in E. setoid_rewrite <- list_elem_of_In in E.
    setoid_rewrite Z.ltb_lt in E.
    assert (Hends : (first xs <? m) = true /\ (final xs <? m) = true).
    { rewrite !Z.ltb_lt. destruct (decide (xs = [])) as [->|H]; [unfold final; simpl; lia|].
      split; apply E; [by apply first_elem|by apply final_elem]. }
    destruct Hends as [-> ->]. cbn [dev_assert]. rewrite !res_ret_bind.
    rewrite (proj2 (forallb_forall _ _)), res_bind_unfold.
    2:{ intros i _. apply Z.ltb_lt. destruct (succ_in xs i) as [->|H]; [lia|]. by apply E. }
    unfold encode, mret, res_ret. do 2 f_equal. apply list_eq. intros i.
    destruct (decide (Z.of_nat i < m)).
    + rewrite lookup_take_lt by lia. by rewrite !lookup_table by lia.
    + rewrite !lookup_ge_None_2; [done| |]; rewrite ?length_take, ?length_table; lia.
  - destruct (first xs <? m) eqn:E1; [|done]. cbn [dev_assert]. rewrite res_ret_bind.
    destruct (final xs <? m) eqn:E2; [|done]. cbn [dev_assert]. rewrite res_ret_bind.
    replace (forallb _ (seqZ 0 n)) with false; [done|]. symmetry. apply not_true_is_false. intros Ha.
    rewrite forallb_forall in Ha. setoid_rewrite <- list_elem_of_In in Ha.
    apply (not_true_iff_false (forallb (fun x => x <? m) xs)); [done|]. apply forallb_forall.
    intros x Hx%list_elem_of_In. destruct (succ_onto xs x) as [-> | (y & Hy & <-)]; [apply Hf|done|done|].
    apply Ha, elem_of_seqZ. pose proof (fits_range _ _ Hf y Hy). lia.
Qed.

(** ** Reading the sequence back *)

(** The numbers in the order of the links. *)
Fixpoint follow (fuel : nat) (nx : list Z) (x : Z) : list Z :=
  match fuel with
  | O => []
  | S fuel' =>
      if x <? 0 then []
      else x :: match nx !! Z.to_nat x with Some y => follow fuel' nx y | None => [] end
  end.

Definition members (l : NR_list_t) : list Z := follow (length (next l)) (next l) (head l).

Lemma follow_encode n xs : forall pre fuel, fits n (pre ++ xs) -> (length xs <= fuel)%nat ->
  follow fuel (next (encode n (pre ++ xs))) (first xs) = xs.
Proof.
  induction xs as [|x xs IH]; intros pre fuel Hf Hfuel; [by destruct fuel|].
  destruct fuel as [|fuel]; [simpl in *; lia|]. cbn [follow first].
  assert (Hx : 0 <= x < n) by (apply (fits_range _ _ Hf), elem_of_app; right; left).
  rewrite (proj2 (Z.ltb_ge x 0)) by lia.
  assert (Hs : next (encode n (pre ++ x :: xs)) !! Z.to_nat x = Some (first xs)).
  { cbn [next encode]. rewrite lookup_table by lia. rewrite Z2Nat.id by lia. f_equal.
    replace (pre ++ x :: xs) with ((pre ++ [x]) ++ xs) in * by (by rewrite <- app_assoc).
    rewrite succ_app by apply Hf. rewrite decide_True by set_solver.
    by rewrite final_snoc, Z.eqb_refl. }
  rewrite Hs. f_equal. replace (pre ++ x :: xs) with ((pre ++ [x]) ++ xs) in * by (by rewrite <- app_assoc).
  apply IH; [done|simpl in *; lia].
Qed.

Lemma members_encode n xs : fits n xs -> members (encode n xs) = xs.
Proof.
  intros Hf. unfold members. apply (follow_encode n xs []); [done|]. apply fits_length in Hf.
  cbn [encode next]. rewrite length_table. lia.
Qed.

(** ** Sequences of calls *)

Inductive op :=
| Add (id : Z)
| Remove (id : Z)
| AddTail (id : Z)
| AddFront (id : Z)
| RemoveFront
| Resize (n : Z).

Definition exec (l : NR_list_t) (o : op) : res NR_list_t :=
  match o with
  | Add id => add_nr_list l id
  | Remove id => remove_nr_list l id
  | AddTail id => add_tail_nr_list l id
  | AddFront id => add_front_nr_list l id
  | RemoveFront => remove_front_nr_list l
  | Resize n => resize_nr_list l n
  end.

(** What the caller must respect: indices of the array, and for the functions that do
    not search, a number that is not in the list. *)
Definition allowed (nx : Z * list Z) (o : op) : Prop :=
  let '(n, xs) := nx in
  match o with
  | Add id | Remove id => 0 <= id < n
  | AddTail id | AddFront id => 0 <= id < n /\ id ∉ xs
  | RemoveFront => True
  | Resize m => 0 <= m
  end.

(** The meaning of a call on the sequence; [None] is a failed assertion. *)
Definition meaning (nx : Z * list Z) (o : op) : option (Z * list Z) :=
  let '(n, xs) := nx in
  match o with
  | Add id => if bool_decide (id ∈ xs) then None else Some (n, xs ++ [id])
  | Remove id => if bool_decide (id ∈ xs) then Some (n, filter (fun x => x <> id) xs) else None
  | AddTail id => Some (n, xs ++ [id])
  | AddFront id => Some (n, id :: xs)
  | RemoveFront => match xs with [] => None | _ :: xs' => Some (n, xs') end
  | Resize m => if forallb (fun x => x <? m) xs then Some (m, xs) else None
  end.

(** The whole sequence of calls, stopped by the first failed assertion. *)
Fixpoint meanings (nx : Z * list Z) (os : list op) : option (Z * list Z) :=
  match os with
  | [] => Some nx
  | o :: os' => meaning nx o ≫= fun nx' => meanings nx' os'
  end.

Fixpoint all_allowed (nx : Z * list Z) (os : list op) : Prop :=
  match os with
  | [] => True
  | o :: os' => allowed nx o /\
      match meaning nx o with Some nx' => all_allowed nx' os' | None => True end
  end.

Definition encoded (o : option (Z * list Z)) : res NR_list_t :=
  match o with
  | Some (n, xs) => Ok (encode n xs)
  | None => Fault Exit
  end.

Lemma filter_absent (xs : list Z) id : id ∉ xs -> filter (fun x => x <> id) xs = xs.
Proof.
  induction xs as [|x xs IH]; [done|]. intros [Hne Hxs]%not_elem_of_cons.
  rewrite filter_cons_True by congruence. f_equal. by apply IH.
Qed.

Lemma filter_once (pre : list Z) id post : NoDup (pre ++ id :: post) ->
  filter (fun x => x <> id) (pre ++ id :: post) = pre ++ post.
Proof.
  intros (Hpre & Hd & [Hid Hpost]%NoDup_cons)%NoDup_app.
  rewrite filter_app, filter_cons_False by naive_solver.
  f_equal; apply filter_absent; [|done]. intros Hx. apply (Hd id Hx). left.
Qed.

Lemma exec_encode n xs o : 0 <= n -> fits n xs -> allowed (n, xs) o ->
  exec (encode n xs) o = encoded (meaning (n, xs) o) /\
  (forall m ys, meaning (n, xs) o = Some (m, ys) -> 0 <= m /\ fits m ys).
Proof.
  intros Hn Hf Ho. destruct o as [id|id|id|id| |m]; cbn [exec meaning allowed] in *.
  - rewrite add_encode by done. case_bool_decide; [done|]. split; [done|].
    intros m ys [= <- <-]. by split; [|apply fits_snoc].
  - case_bool_decide as Hin; [|by rewrite remove_absent].
    apply list_elem_of_split in Hin as (pre & post & ->).
    rewrite filter_once by apply Hf. rewrite remove_encode by done. split; [done|].
    intros m ys [= <- <-]. split; [done|]. rewrite <- Permutation_middle in Hf.
    by apply (fits_app_r n [id]) in Hf.
  - destruct Ho. rewrite add_tail_encode by done. split; [done|].
    intros m ys [= <- <-]. by split; [|apply fits_snoc].
  - destruct Ho. rewrite add_front_encode by done. split; [done|].
    intros m ys [= <- <-]. split; [done|]. rewrite Permutation_cons_append. by apply fits_snoc.
  - destruct xs as [|x xs]; [done|]. rewrite remove_front_encode by done. split; [done|].
    intros m ys [= <- <-]. split; [done|]. by apply (fits_app_r n [x]) in Hf.
  - destruct (decide (n <= m)).
    + assert (E : forallb (fun x => x <? m) xs = true).
      { apply forallb_forall. intros x Hx%list_elem_of_In. apply Z.ltb_lt.
        pose proof (fits_range _ _ Hf x Hx). lia. }
      rewrite resize_encode, E by done. split; [done|]. intros k ys [= <- <-].
      split; [lia|]. by apply (fits_wider n).
    + rewrite resize_shorter by (done || lia). destruct (forallb _ xs) eqn:E; [|done].
      split; [done|]. intros k ys [= <- <-]. split; [lia|]. split; [apply Hf|].
      intros x Hx. rewrite forallb_forall in E. specialize (E x (proj1 (list_elem_of_In _ _) Hx)).
      pose proof (fits_range _ _ Hf x Hx). lia.
Qed.

Lemma run_encode os : forall n xs, 0 <= n -> fits n xs -> all_allowed (n, xs) os ->
  res_foldl exec (encode n xs) os = encoded (meanings (n, xs) os).
Proof.
  induction os as [|o os IH]; intros n xs Hn Hf Ho; [done|]. destruct Ho as [Ho Hos].
  destruct (exec_encode n xs o Hn Hf Ho) as [He Hi]. cbn [res_foldl meanings]. rewrite He.
  destruct (meaning (n, xs) o) as [[m ys]|]; [|done].
  destruct (Hi m ys eq_refl) as [Hm Hys]. cbn [encoded]. rewrite res_bind_unfold. by apply IH.
Qed.

End MacLists.
