(* ===== verification/MacHarq.v ===== *)
(** * HARQ processes of the NR MAC

    Models how the scheduler of the gNB moves HARQ processes between the lists of the
    free ones, of the ones that wait for feedback and of the ones that wait for a
    retransmission: [gNB_scheduler_primitives.c] (creation and reset of the lists),
    [gNB_scheduler_dlsch.c], [gNB_scheduler_uci.c] (downlink) and
    [gNB_scheduler_ulsch.c] (uplink), all in [openair2/LAYER2/NR_MAC_gNB].

    A UE is the part of [NR_UE_info_t] that these functions read and write.  The three
    lists of a direction are one record [lists].  Of [sched_pdsch] and [sched_pusch]
    the transport block size is kept, and for the downlink the callback: the only one
    that the scheduler ever sets is [ack_reconfig]. *)

From S2P Require Import Prelude MacLists.

Module MacHarq.
Export MacLists.

Definition NR_MAX_HARQ_PROCESSES : Z := 32.

(** [NR_UE_harq_t]; [tb_size] and [action] are fields of its [sched_pdsch]. *)
Record NR_UE_harq_t := mk_harq {
  is_waiting : bool;
  ndi : Z;
  round : Z;
  feedback_frame : Z;
  feedback_slot : Z;
  tb_size : Z;
  action : bool
}.

(** [NR_UE_ul_harq_t]; [ul_tb_size] is a field of its [sched_pusch]. *)
Record NR_UE_ul_harq_t := mk_ul_harq {
  ul_is_waiting : bool;
  ul_ndi : Z;
  ul_round : Z;
  ul_feedback_slot : Z;
  ul_tb_size : Z
}.

(** [available_dl_harq], [feedback_dl_harq], [retrans_dl_harq], and the same for the
    uplink. *)
Record lists := mk_lists {
  available : NR_list_t;
  feedback : NR_list_t;
  retrans : NR_list_t
}.

(** What [configure_UE_BWP] reads of a [NR_ServingCellConfig_t]: the parameters of
    PDSCH and PUSCH, and in each the pointer [nrofHARQ_Processes...] of the release 17
    extension, if the extension is there. *)
Record NR_ServingCellConfig_t := mk_scc {
  pdsch_ServingCellConfig : option (option Z * option bool);
  pusch_ServingCellConfig : option (option bool)
}.

(** The fields of [NR_UE_ServingCell_Info_t] about HARQ; a pointer to a value that is
    only tested is a [bool]. *)
Record NR_UE_ServingCell_Info_t := mk_sc_info {
  nrofHARQ_ProcessesForPDSCH : option Z;
  nrofHARQ_ProcessesForPDSCH_v1700 : bool;
  nrofHARQ_ProcessesForPUSCH_r17 : bool
}.

Record NR_UE_info_t := mk_ue {
  CellGroup : option (option NR_ServingCellConfig_t);
  reconfigCellGroup : option (option NR_ServingCellConfig_t);
  sc_info : NR_UE_ServingCell_Info_t;
  harq_processes : list NR_UE_harq_t;
  dl : lists;
  ul_harq_processes : list NR_UE_ul_harq_t;
  ul : lists;
  sched_ul_bytes : Z;
  dl_rounds : list Z;
  dl_errors : Z;
  ul_rounds : list Z;
  ul_errors : Z
}.

(** ** Assignments to fields *)

Definition set_dl (ue : NR_UE_info_t) (l : lists) : NR_UE_info_t :=
  mk_ue (CellGroup ue) (reconfigCellGroup ue) (sc_info ue) (harq_processes ue) l
    (ul_harq_processes ue) (ul ue) (sched_ul_bytes ue) (dl_rounds ue) (dl_errors ue)
    (ul_rounds ue) (ul_errors ue).

Definition set_ul (ue : NR_UE_info_t) (l : lists) : NR_UE_info_t :=
  mk_ue (CellGroup ue) (reconfigCellGroup ue) (sc_info ue) (harq_processes ue) (dl ue)
    (ul_harq_processes ue) l (sched_ul_bytes ue) (dl_rounds ue) (dl_errors ue)
    (ul_rounds ue) (ul_errors ue).

Definition set_processes (ue : NR_UE_info_t) (ps : list NR_UE_harq_t) : NR_UE_info_t :=
  mk_ue (CellGroup ue) (reconfigCellGroup ue) (sc_info ue) ps (dl ue)
    (ul_harq_processes ue) (ul ue) (sched_ul_bytes ue) (dl_rounds ue) (dl_errors ue)
    (ul_rounds ue) (ul_errors ue).

Definition set_ul_processes (ue : NR_UE_info_t) (ps : list NR_UE_ul_harq_t) : NR_UE_info_t :=
  mk_ue (CellGroup ue) (reconfigCellGroup ue) (sc_info ue) (harq_processes ue) (dl ue)
    ps (ul ue) (sched_ul_bytes ue) (dl_rounds ue) (dl_errors ue)
    (ul_rounds ue) (ul_errors ue).

Definition set_dl_stats (ue : NR_UE_info_t) (rounds : list Z) (errors : Z) : NR_UE_info_t :=
  mk_ue (CellGroup ue) (reconfigCellGroup ue) (sc_info ue) (harq_processes ue) (dl ue)
    (ul_harq_processes ue) (ul ue) (sched_ul_bytes ue) rounds errors
    (ul_rounds ue) (ul_errors ue).

Definition set_ul_stats (ue : NR_UE_info_t) (bytes : Z) (rounds : list Z) (errors : Z)
    : NR_UE_info_t :=
  mk_ue (CellGroup ue) (reconfigCellGroup ue) (sc_info ue) (harq_processes ue) (dl ue)
    (ul_harq_processes ue) (ul ue) bytes (dl_rounds ue) (dl_errors ue) rounds errors.

Definition set_cell_group (ue : NR_UE_info_t) (cg rcg : option (option NR_ServingCellConfig_t))
    (sc : NR_UE_ServingCell_Info_t) : NR_UE_info_t :=
  mk_ue cg rcg sc (harq_processes ue) (dl ue)
    (ul_harq_processes ue) (ul ue) (sched_ul_bytes ue) (dl_rounds ue) (dl_errors ue)
    (ul_rounds ue) (ul_errors ue).

Definition with_available (l : lists) (x : NR_list_t) : lists := mk_lists x (feedback l) (retrans l).
Definition with_feedback (l : lists) (x : NR_list_t) : lists := mk_lists (available l) x (retrans l).
Definition with_retrans (l : lists) (x : NR_list_t) : lists := mk_lists (available l) (feedback l) x.

(** [harq->... = ...] where [harq = &sched_ctrl->harq_processes[pid]]. *)
Definition upd_harq (ue : NR_UE_info_t) (pid : Z) (f : NR_UE_harq_t -> NR_UE_harq_t)
    : res NR_UE_info_t :=
  h ← zget (harq_processes ue) pid;
  ps ← zset (harq_processes ue) pid (f h);
  mret (set_processes ue ps).

Definition upd_ul_harq (ue : NR_UE_info_t) (pid : Z) (f : NR_UE_ul_harq_t -> NR_UE_ul_harq_t)
    : res NR_UE_info_t :=
  h ← zget (ul_harq_processes ue) pid;
  ps ← zset (ul_harq_processes ue) pid (f h);
  mret (set_ul_processes ue ps).

(** ** Creation and reset of the lists *)

(** [get_nrofHARQ_ProcessesForPDSCH]. *)
Definition get_nrofHARQ_ProcessesForPDSCH (sc : NR_UE_ServingCell_Info_t) : res Z :=
  if nrofHARQ_ProcessesForPDSCH_v1700 sc then mret 32
  else match nrofHARQ_ProcessesForPDSCH sc with
  | None => mret 8
  | Some i => zget [2; 4; 6; 10; 12; 16] i
  end.

(** [get_nrofHARQ_ProcessesForPUSCH]. *)
Definition get_nrofHARQ_ProcessesForPUSCH (sc : NR_UE_ServingCell_Info_t) : Z :=
  if nrofHARQ_ProcessesForPUSCH_r17 sc then 32 else 16.

(** At most 16 processes with the fallback formats (a common search space). *)
Definition limit (dci_00_10 : bool) (nrofHARQ : Z) : Z :=
  if dci_00_10 && (nrofHARQ >? 16) then 16 else nrofHARQ.

(** The branches of [create_dl_harq_list] and [create_ul_harq_list], which are the same. *)
Definition create_lists (l : lists) (nrofHARQ : Z) : res lists :=
  if len (available l) =? 0 then
    a ← res_foldl add_tail_nr_list (create_nr_list nrofHARQ) (seqZ 0 nrofHARQ);
    mret (mk_lists a (create_nr_list nrofHARQ) (create_nr_list nrofHARQ))
  else if len (available l) =? nrofHARQ then mret l
  else
    let old := len (available l) in
    _ ← dev_assert (nrofHARQ >? old);
    a ← resize_nr_list (available l) nrofHARQ;
    a ← res_foldl add_tail_nr_list a (seqZ old (nrofHARQ - old));
    f ← resize_nr_list (feedback l) nrofHARQ;
    r ← resize_nr_list (retrans l) nrofHARQ;
    mret (mk_lists a f r).

(** [create_dl_harq_list]. *)
Definition create_dl_harq_list (ue : NR_UE_info_t) (dci_00_10 : bool) : res NR_UE_info_t :=
  nrofHARQ ← get_nrofHARQ_ProcessesForPDSCH (sc_info ue);
  let nrofHARQ := limit dci_00_10 nrofHARQ in
  _ ← dev_assert ((len (available (dl ue)) =? len (feedback (dl ue)))
                  && (len (available (dl ue)) =? len (retrans (dl ue))));
  l ← create_lists (dl ue) nrofHARQ;
  mret (set_dl ue l).

(** [create_ul_harq_list]. *)
Definition create_ul_harq_list (ue : NR_UE_info_t) (dci_00_10 : bool) : res NR_UE_info_t :=
  let nrofHARQ := get_nrofHARQ_ProcessesForPUSCH (sc_info ue) in
  let nrofHARQ := limit dci_00_10 nrofHARQ in
  l ← create_lists (ul ue) nrofHARQ;
  mret (set_ul ue l).

(** The HARQ fields of [sc_info] that [configure_UE_BWP] sets when the UE is not in
    random access, from the dedicated configuration of its cell group. *)
Definition configure_sc_info (sc : NR_UE_ServingCell_Info_t) (cfg : option NR_ServingCellConfig_t)
    : NR_UE_ServingCell_Info_t :=
  match cfg with
  | None => mk_sc_info None false false
  | Some c =>
      mk_sc_info
        (match pdsch_ServingCellConfig c with
         | Some (n, _) => n
         | None => nrofHARQ_ProcessesForPDSCH sc
         end)
        (match pdsch_ServingCellConfig c with
         | Some (_, Some v) => v
         | _ => nrofHARQ_ProcessesForPDSCH_v1700 sc
         end)
        (match pusch_ServingCellConfig c with
         | Some (Some v) => v
         | _ => nrofHARQ_ProcessesForPUSCH_r17 sc
         end)
  end.

(** [configure_UE_BWP] as far as HARQ is concerned: [sc_info], then the two lists;
    [format_00_10] says that the chosen search space uses the fallback formats. *)
Definition configure_harq (ue : NR_UE_info_t) (is_RA format_00_10 : bool) : res NR_UE_info_t :=
  let sc := if is_RA then sc_info ue
            else configure_sc_info (sc_info ue)
                   (match CellGroup ue with Some cfg => cfg | None => None end) in
  let ue := set_cell_group ue (CellGroup ue) (reconfigCellGroup ue) sc in
  ue ← create_dl_harq_list ue format_00_10;
  create_ul_harq_list ue format_00_10.

(** A loop [while ((harq = from.head) >= 0)] that moves every process of a list to the
    list of the free ones. *)
Fixpoint drain (fuel : nat) (from to : NR_list_t) : res (NR_list_t * NR_list_t) :=
  match fuel with
  | O => Fault NoFuel
  | S fuel' =>
      if head from >=? 0 then
        let harq := head from in
        from ← remove_front_nr_list from;
        to ← add_tail_nr_list to harq;
        drain fuel' from to
      else mret (from, to)
  end.

Definition drain_lists (l : lists) : res lists :=
  '(f, a) ← drain (S (length (next (feedback l)))) (feedback l) (available l);
  '(r, a) ← drain (S (length (next (retrans l)))) (retrans l) a;
  mret (mk_lists a f r).

Definition reset_process (h : NR_UE_harq_t) : NR_UE_harq_t :=
  mk_harq false (ndi h) 0 (feedback_frame h) (u16 (-1)) (tb_size h) (action h).

Definition reset_ul_process (h : NR_UE_ul_harq_t) : NR_UE_ul_harq_t :=
  mk_ul_harq false (ul_ndi h) 0 (u16 (-1)) (ul_tb_size h).

(** [reset_dl_harq_list]. *)
Definition reset_dl_harq_list (ue : NR_UE_info_t) : res NR_UE_info_t :=
  l ← drain_lists (dl ue);
  ue ← mret (set_dl ue l);
  res_foldl (fun ue i => upd_harq ue i reset_process) ue (seqZ 0 NR_MAX_HARQ_PROCESSES).

(** [reset_ul_harq_list]. *)
Definition reset_ul_harq_list (ue : NR_UE_info_t) : res NR_UE_info_t :=
  l ← drain_lists (ul ue);
  ue ← mret (set_ul ue l);
  res_foldl (fun ue i => upd_ul_harq ue i reset_ul_process) ue (seqZ 0 NR_MAX_HARQ_PROCESSES).

(** ** Downlink *)

(** [finish_nr_dl_harq]. *)
Definition finish_nr_dl_harq (ue : NR_UE_info_t) (pid : Z) : res NR_UE_info_t :=
  ue ← upd_harq ue pid (fun h => mk_harq (is_waiting h) (Z.lxor (ndi h) 1) 0 (feedback_frame h)
                                   (feedback_slot h) (tb_size h) (action h));
  a ← add_tail_nr_list (available (dl ue)) pid;
  mret (set_dl ue (with_available (dl ue) a)).

(** [abort_nr_dl_harq]. *)
Definition abort_nr_dl_harq (ue : NR_UE_info_t) (pid : Z) : res NR_UE_info_t :=
  ue ← finish_nr_dl_harq ue pid;
  mret (set_dl_stats ue (dl_rounds ue) (u64 (dl_errors ue + 1))).

(** [ack_reconfig]: the new cell group replaces the old one, and the UE is configured
    with the common search space. *)
Definition ack_reconfig (ue : NR_UE_info_t) : res NR_UE_info_t :=
  match reconfigCellGroup ue with
  | None => mret ue
  | Some cg => configure_harq (set_cell_group ue (Some cg) None (sc_info ue)) false true
  end.

(** [handle_dl_harq]. *)
Definition handle_dl_harq (ue : NR_UE_info_t) (pid : Z) (success : bool) (harq_round_max : Z)
    : res NR_UE_info_t :=
  ue ← upd_harq ue pid (fun h => mk_harq false (ndi h) (round h) (feedback_frame h) (u16 (-1))
                                   (tb_size h) (action h));
  h ← zget (harq_processes ue) pid;
  if success : bool then
    ue ← (if action h : bool then ack_reconfig ue else mret ue);
    finish_nr_dl_harq ue pid
  else if round h >=? harq_round_max - 1 then abort_nr_dl_harq ue pid
  else
    r ← add_tail_nr_list (retrans (dl ue)) pid;
    upd_harq (set_dl ue (with_retrans (dl ue) r)) pid
      (fun h => mk_harq (is_waiting h) (ndi h) (u8 (round h + 1)) (feedback_frame h)
                  (feedback_slot h) (tb_size h) (action h)).

(** The condition of the loop of [find_harq]: the feedback of [h] was expected before
    [frame].[slot]. *)
Definition in_the_past (h : NR_UE_harq_t) (frame slot : Z) : bool :=
  (Z.rem (feedback_frame h - frame + 1024) 1024 >? 512)
  || ((feedback_frame h =? frame) && (feedback_slot h <? slot)).

Definition in_the_future (h : NR_UE_harq_t) (frame slot : Z) : bool :=
  (Z.rem (frame - feedback_frame h + 1024) 1024 >? 512)
  || ((feedback_frame h =? frame) && (feedback_slot h >? slot)).

(** The loop of [find_harq]; the result is the process whose pointer is returned. *)
Fixpoint find_harq_loop (fuel : nat) (ue : NR_UE_info_t) (frame slot harq_round_max : Z)
    : res (NR_UE_info_t * option Z) :=
  match fuel with
  | O => Fault NoFuel
  | S fuel' =>
      let pid := head (feedback (dl ue)) in
      if pid <? 0 then mret (ue, None)
      else
        h ← zget (harq_processes ue) pid;
        if in_the_past h frame slot then
          f ← remove_front_nr_list (feedback (dl ue));
          ue ← handle_dl_harq (set_dl ue (with_feedback (dl ue) f)) pid false harq_round_max;
          find_harq_loop fuel' ue frame slot harq_round_max
        else if in_the_future h frame slot then mret (ue, None)
        else mret (ue, Some pid)
  end.

(** [find_harq]. *)
Definition find_harq (frame slot : Z) (ue : NR_UE_info_t) (harq_round_max : Z)
    : res (NR_UE_info_t * option Z) :=
  find_harq_loop (S (length (next (feedback (dl ue))))) ue frame slot harq_round_max.

(** The body of the loops over HARQ bits in [handle_nr_uci_pucch_0_1] and
    [handle_nr_uci_pucch_2_3_4], for one bit that reads as [success]; [None] is [break]. *)
Definition harq_bit (frame slot : Z) (ue : NR_UE_info_t) (success : bool) (harq_round_max : Z)
    : res (NR_UE_info_t * option unit) :=
  '(ue, harq) ← find_harq frame slot ue harq_round_max;
  match harq with
  | None => mret (ue, None)
  | Some p =>
      h ← zget (harq_processes ue) p;
      _ ← dev_assert (is_waiting h);
      let pid := head (feedback (dl ue)) in
      f ← remove_front_nr_list (feedback (dl ue));
      ue ← handle_dl_harq (set_dl ue (with_feedback (dl ue) f)) pid success harq_round_max;
      mret (ue, Some tt)
  end.

Fixpoint harq_bits (frame slot : Z) (ue : NR_UE_info_t) (bits : list bool) (harq_round_max : Z)
    : res NR_UE_info_t :=
  match bits with
  | [] => mret ue
  | b :: bits' =>
      '(ue, go) ← harq_bit frame slot ue b harq_round_max;
      match go with
      | None => mret ue
      | Some _ => harq_bits frame slot ue bits' harq_round_max
      end
  end.

(** The HARQ report of a PUCCH of format 0 or 1 for a UE in connected mode: the bit is
    an ACK when its value is 0 and the confidence is good (0). *)
Definition uci_01_bits (harq_list : list Z) (harq_confidence_level : Z) : list bool :=
  map (fun v => (v =? 0) && (harq_confidence_level =? 0)) harq_list.

(** The bits of a PUCCH of format 2, 3 or 4: [(payload[i >> 3] >> i) & 1]. *)
Definition uci_234_bit (harq_payload : list Z) (i : Z) : res Z :=
  b ← zget harq_payload (Z.shiftr i 3);
  mret (Z.land (Z.shiftr b i) 1).

Fixpoint uci_234_bits (fuel : nat) (harq_payload : list Z) (i : Z) : res (list Z) :=
  match fuel with
  | O => mret []
  | S fuel' =>
      b ← uci_234_bit harq_payload i;
      bs ← uci_234_bits fuel' harq_payload (i + 1);
      mret (b :: bs)
  end.

(** [sched_pdsch], as far as HARQ is concerned: the process ([-1]: any), the PUCCH the
    feedback is expected on ([None]: [pucch_allocation < 0]), the size and the callback. *)
Record NR_sched_pdsch_t := mk_pdsch {
  dl_harq_pid : Z;
  pucch : option (Z * Z);
  pdsch_tb_size : Z;
  pdsch_action : bool
}.

(** [stats.rounds[harq->round]++]. *)
Definition count_round (rounds : list Z) (r : Z) : res (list Z) :=
  v ← zget rounds r;
  zset rounds r (u64 (v + 1)).

(** [post_process_dlsch]: the process is taken from the list of the free ones, or, if it
    has failed before, from the list of those that wait for a retransmission. *)
Definition select_dl_harq (ue : NR_UE_info_t) (sp : NR_sched_pdsch_t) : res (NR_UE_info_t * Z) :=
  if dl_harq_pid sp <? 0 then
    let pid := head (available (dl ue)) in
    _ ← dev_assert (pid >=? 0);
    a ← remove_front_nr_list (available (dl ue));
    mret (set_dl ue (with_available (dl ue) a), pid)
  else
    let pid := dl_harq_pid sp in
    h ← zget (harq_processes ue) pid;
    if round h =? 0 then
      a ← remove_nr_list (available (dl ue)) pid;
      mret (set_dl ue (with_available (dl ue) a), pid)
    else
      r ← remove_nr_list (retrans (dl ue)) pid;
      mret (set_dl ue (with_retrans (dl ue) r), pid).

(** [post_process_dlsch]: the process waits for feedback, or is free again at once when
    there will be none. *)
Definition post_process_dlsch_lists (ue : NR_UE_info_t) (sp : NR_sched_pdsch_t)
    : res (NR_UE_info_t * Z) :=
  '(ue, pid) ← select_dl_harq ue sp;
  h ← zget (harq_processes ue) pid;
  _ ← dev_assert (negb (is_waiting h));
  ue ← match pucch sp with
       | None => finish_nr_dl_harq ue pid
       | Some (fr, sl) =>
           f ← add_tail_nr_list (feedback (dl ue)) pid;
           upd_harq (set_dl ue (with_feedback (dl ue) f)) pid
             (fun h => mk_harq true (ndi h) (round h) (u16 fr) (u16 sl) (tb_size h) (action h))
       end;
  h ← zget (harq_processes ue) pid;
  rounds ← count_round (dl_rounds ue) (round h);
  mret (set_dl_stats ue rounds (dl_errors ue), pid).

(** [post_process_dlsch]: the end of the function.  A retransmission has the size of
    the block that is stored; a first transmission is stored. *)
Definition post_process_dlsch_save (ue : NR_UE_info_t) (sp : NR_sched_pdsch_t) (pid : Z)
    : res NR_UE_info_t :=
  h ← zget (harq_processes ue) pid;
  if negb (round h =? 0) then
    _ ← dev_assert (tb_size h =? pdsch_tb_size sp);
    mret ue
  else
    upd_harq ue pid (fun h => mk_harq (is_waiting h) (ndi h) (round h) (feedback_frame h)
                                (feedback_slot h) (pdsch_tb_size sp) (pdsch_action sp)).

Definition post_process_dlsch (ue : NR_UE_info_t) (sp : NR_sched_pdsch_t) : res NR_UE_info_t :=
  '(ue, pid) ← post_process_dlsch_lists ue sp;
  post_process_dlsch_save ue sp pid.

(** ** Uplink *)

(** [finish_nr_ul_harq]. *)
Definition finish_nr_ul_harq (ue : NR_UE_info_t) (pid : Z) : res NR_UE_info_t :=
  ue ← upd_ul_harq ue pid (fun h => mk_ul_harq (ul_is_waiting h) (Z.lxor (ul_ndi h) 1) 0
                                      (ul_feedback_slot h) (ul_tb_size h));
  a ← add_tail_nr_list (available (ul ue)) pid;
  mret (set_ul ue (with_available (ul ue) a)).

(** [abort_nr_ul_harq]. *)
Definition abort_nr_ul_harq (ue : NR_UE_info_t) (pid : Z) : res NR_UE_info_t :=
  ue ← finish_nr_ul_harq ue pid;
  h ← zget (ul_harq_processes ue) pid;
  let bytes := sched_ul_bytes ue - ul_tb_size h in
  mret (set_ul_stats ue (if bytes <? 0 then 0 else bytes) (ul_rounds ue) (u64 (ul_errors ue + 1))).

(** A failed transmission in [handle_nr_ul_harq]: the process is given up after the
    last round, and waits for a retransmission before. *)
Definition retry_nr_ul_harq (ue : NR_UE_info_t) (pid harq_round_max : Z) : res NR_UE_info_t :=
  h ← zget (ul_harq_processes ue) pid;
  if ul_round h >=? harq_round_max - 1 then abort_nr_ul_harq ue pid
  else
    ue ← upd_ul_harq ue pid (fun h => mk_ul_harq (ul_is_waiting h) (ul_ndi h) (u8 (ul_round h + 1))
                                        (ul_feedback_slot h) (ul_tb_size h));
    r ← add_tail_nr_list (retrans (ul ue)) pid;
    mret (set_ul ue (with_retrans (ul ue) r)).

(** The loop of [handle_nr_ul_harq]: the processes before the expected one are
    retransmitted; [None] is [return]. *)
Fixpoint skip_ul_harq (fuel : nat) (ue : NR_UE_info_t) (crc_harq_id harq_round_max : Z)
    : res (NR_UE_info_t * option Z) :=
  match fuel with
  | O => Fault NoFuel
  | S fuel' =>
      let harq_pid := head (feedback (ul ue)) in
      if negb (crc_harq_id =? harq_pid) || (harq_pid <? 0) then
        if harq_pid <? 0 then mret (ue, None)
        else
          f ← remove_front_nr_list (feedback (ul ue));
          ue ← upd_ul_harq (set_ul ue (with_feedback (ul ue) f)) harq_pid
                 (fun h => mk_ul_harq false (ul_ndi h) (ul_round h) (ul_feedback_slot h)
                             (ul_tb_size h));
          ue ← retry_nr_ul_harq ue harq_pid harq_round_max;
          skip_ul_harq fuel' ue crc_harq_id harq_round_max
      else mret (ue, Some harq_pid)
  end.

(** [handle_nr_ul_harq]; [crc_status] is true when the block was not received. *)
Definition handle_nr_ul_harq (disable_harq : bool) (ue : NR_UE_info_t)
    (crc_harq_id : Z) (crc_status : bool) (harq_round_max : Z) : res NR_UE_info_t :=
  if disable_harq then mret ue
  else
    '(ue, found) ← skip_ul_harq (S (length (next (feedback (ul ue))))) ue crc_harq_id harq_round_max;
    match found with
    | None => mret ue
    | Some harq_pid =>
        f ← remove_front_nr_list (feedback (ul ue));
        let ue := set_ul ue (with_feedback (ul ue) f) in
        h ← zget (ul_harq_processes ue) harq_pid;
        _ ← dev_assert (ul_is_waiting h);
        ue ← upd_ul_harq ue harq_pid (fun h => mk_ul_harq false (ul_ndi h) (ul_round h) (u16 (-1))
                                                 (ul_tb_size h));
        if negb crc_status then finish_nr_ul_harq ue harq_pid
        else retry_nr_ul_harq ue harq_pid harq_round_max
    end.

(** [sched_pusch], as far as HARQ is concerned. *)
Record NR_sched_pusch_t := mk_pusch {
  ul_harq_pid : Z;
  pusch_slot : Z;
  pusch_tb_size : Z
}.

(** [post_process_ulsch]: the process is taken from its list. *)
Definition select_ul_harq (ue : NR_UE_info_t) (sp : NR_sched_pusch_t) : res (NR_UE_info_t * Z) :=
  if ul_harq_pid sp <? 0 then
    let pid := head (available (ul ue)) in
    _ ← dev_assert (pid >=? 0);
    a ← remove_front_nr_list (available (ul ue));
    mret (set_ul ue (with_available (ul ue) a), pid)
  else
    let pid := ul_harq_pid sp in
    h ← zget (ul_harq_processes ue) pid;
    if ul_round h =? 0 then
      a ← remove_nr_list (available (ul ue)) pid;
      mret (set_ul ue (with_available (ul ue) a), pid)
    else
      r ← remove_nr_list (retrans (ul ue)) pid;
      mret (set_ul ue (with_retrans (ul ue) r), pid).

(** [post_process_ulsch], up to the statistics of the UE. *)
Definition post_process_ulsch (disable_harq : bool) (ue : NR_UE_info_t) (sp : NR_sched_pusch_t)
    (harq_round_max : Z) : res NR_UE_info_t :=
  '(ue, pid) ← select_ul_harq ue sp;
  h ← zget (ul_harq_processes ue) pid;
  _ ← dev_assert (negb (ul_is_waiting h));
  ue ← (if disable_harq : bool then finish_nr_ul_harq ue pid
        else
          f ← add_tail_nr_list (feedback (ul ue)) pid;
          upd_ul_harq (set_ul ue (with_feedback (ul ue) f)) pid
            (fun h => mk_ul_harq true (ul_ndi h) (ul_round h) (u16 (pusch_slot sp)) (ul_tb_size h)));
  h ← zget (ul_harq_processes ue) pid;
  _ ← dev_assert (ul_round h <? harq_round_max);
  rounds ← count_round (ul_rounds ue) (ul_round h);
  let ue := set_ul_stats ue (sched_ul_bytes ue) rounds (ul_errors ue) in
  ue ← upd_ul_harq ue pid (fun h => mk_ul_harq (ul_is_waiting h) (ul_ndi h) (ul_round h)
                                      (ul_feedback_slot h) (pusch_tb_size sp));
  h ← zget (ul_harq_processes ue) pid;
  if ul_round h =? 0
  then mret (set_ul_stats ue (sched_ul_bytes ue + pusch_tb_size sp) (ul_rounds ue) (ul_errors ue))
  else mret ue.

(** A UE before its first configuration: [calloc]. *)
Definition new_ue (cg : option (option NR_ServingCellConfig_t)) : NR_UE_info_t :=
  mk_ue cg None (mk_sc_info None false false)
    (replicate 32 (mk_harq false 0 0 0 0 0 false)) (mk_lists zeroed zeroed zeroed)
    (replicate 32 (mk_ul_harq false 0 0 0 0)) (mk_lists zeroed zeroed zeroed)
    0 (replicate 8 0) 0 (replicate 8 0) 0.

End MacHarq.
