(* ===== verification/MacHarqSpec.v ===== *)
(** * What holds of the HARQ processes of a UE

    Every HARQ process of a direction is in exactly one of its three lists, and what is
    stored about the process says in which one: it is free with round 0, it waits for
    feedback, or it waits for a retransmission after at least one failure.  Each
    function of [MacHarq] takes a process out of a list, changes it, and puts it into
    another list; [held] are the processes that are out of the lists meanwhile. *)

From S2P Require Import Prelude MacHarq.

Module MacHarqSpec.
Import MacHarq.

(** ** The lists of one direction *)

(** The lists hold [A], [F] and [R]; with [H] these are all processes. *)
Record sorted_out (n : Z) (l : lists) (A F R H : list Z) : Prop := {
  so_available : available l = encode n A;
  so_feedback : feedback l = encode n F;
  so_retrans : retrans l = encode n R;
  so_all : A ++ F ++ R ++ H ≡ₚ seqZ 0 n
}.

Section sorted_out_lemmas.
Context {n : Z} {l : lists}.
Implicit Types A F R H : list Z.

Lemma so_fits_all A F R H : sorted_out n l A F R H -> fits n (A ++ F ++ R ++ H).
Proof.
  intros [_ _ _ Hp]. rewrite Hp. split; [apply NoDup_seqZ|]. intros x Hx%elem_of_seqZ. lia.
Qed.

Lemma so_fits A F R H : sorted_out n l A F R H -> fits n A /\ fits n F /\ fits n R /\ fits n H.
Proof.
  intros Hs%so_fits_all. pose proof (fits_app_r _ _ _ Hs) as H1.
  pose proof (fits_app_r _ _ _ H1) as H2.
  split_and!; eauto using fits_app_l, fits_app_r.
Qed.

Lemma so_range A F R H x : sorted_out n l A F R H -> x ∈ A ++ F ++ R ++ H -> 0 <= x < n.
Proof. intros Hs%so_fits_all. apply (fits_range _ _ Hs). Qed.

(** A process that is out of the lists is in none of them. *)
Lemma so_held A F R H x : sorted_out n l A F R (x :: H) -> (x ∉ A) /\ (x ∉ F) /\ (x ∉ R).
Proof.
  intros Hs%so_fits_all. pose proof (fits_nodup _ _ Hs) as Hnd.
  replace (A ++ F ++ R ++ x :: H) with ((A ++ F ++ R) ++ x :: H) in Hnd by (by rewrite <- !app_assoc).
  apply NoDup_app in Hnd as (_ & Hd & _).
  repeat split; intros Hx; apply (Hd x); rewrite ?elem_of_app; (auto || left).
Qed.
End sorted_out_lemmas.

(** ** Taking a process out of a list and putting it into one *)

Lemma take_feedback_front n l A F R H x : sorted_out n l A (x :: F) R H ->
  exists f, remove_front_nr_list (feedback l) = Ok f /\
    sorted_out n (with_feedback l f) A F R (x :: H).
Proof.
  intros Hs. pose proof (so_fits _ _ _ _ Hs) as (_ & HF & _). destruct Hs as [Ha Hf Hr Hp].
  rewrite Hf, remove_front_encode by done. eexists. split; [done|]. split; try done.
  rewrite <- Hp. cbn [app]. by rewrite <- !Permutation_middle.
Qed.

Lemma take_available_front n l A F R H x : sorted_out n l (x :: A) F R H ->
  exists a, remove_front_nr_list (available l) = Ok a /\
    sorted_out n (with_available l a) A F R (x :: H).
Proof.
  intros Hs. pose proof (so_fits _ _ _ _ Hs) as (HA & _). destruct Hs as [Ha Hf Hr Hp].
  rewrite Ha, remove_front_encode by done. eexists. split; [done|]. split; try done.
  rewrite <- Hp. cbn [app]. by rewrite <- !Permutation_middle.
Qed.

Lemma take_available n l A1 A2 F R H x : sorted_out n l (A1 ++ x :: A2) F R H ->
  exists a, remove_nr_list (available l) x = Ok a /\
    sorted_out n (with_available l a) (A1 ++ A2) F R (x :: H).
Proof.
  intros Hs. pose proof (so_fits _ _ _ _ Hs) as (HA & _). destruct Hs as [Ha Hf Hr Hp].
  rewrite Ha, remove_encode by done. eexists. split; [done|]. split; try done.
  rewrite <- Hp, <- !app_assoc. cbn [app]. by rewrite <- !Permutation_middle.
Qed.

Lemma take_retrans n l A F R1 R2 H x : sorted_out n l A F (R1 ++ x :: R2) H ->
  exists r, remove_nr_list (retrans l) x = Ok r /\
    sorted_out n (with_retrans l r) A F (R1 ++ R2) (x :: H).
Proof.
  intros Hs. pose proof (so_fits _ _ _ _ Hs) as (_ & _ & HR & _). destruct Hs as [Ha Hf Hr Hp].
  rewrite Hr, remove_encode by done. eexists. split; [done|]. split; try done.
  rewrite <- Hp, <- !app_assoc. cbn [app]. by rewrite <- !Permutation_middle.
Qed.

Lemma put_available n l A F R H x : sorted_out n l A F R (x :: H) ->
  exists a, add_tail_nr_list (available l) x = Ok a /\
    sorted_out n (with_available l a) (A ++ [x]) F R H.
Proof.
  intros Hs. pose proof (so_fits _ _ _ _ Hs) as (HA & _). pose proof (so_held _ _ _ _ _ Hs) as (Hx & _).
  assert (0 <= x < n) by (apply (so_range _ _ _ _ x Hs); set_solver).
  destruct Hs as [Ha Hf Hr Hp]. rewrite Ha, add_tail_encode by done. eexists. split; [done|].
  split; try done. rewrite <- Hp, <- !app_assoc. cbn [app]. by rewrite <- !Permutation_middle.
Qed.

Lemma put_feedback n l A F R H x : sorted_out n l A F R (x :: H) ->
  exists f, add_tail_nr_list (feedback l) x = Ok f /\
    sorted_out n (with_feedback l f) A (F ++ [x]) R H.
Proof.
  intros Hs. pose proof (so_fits _ _ _ _ Hs) as (_ & HF & _).
  pose proof (so_held _ _ _ _ _ Hs) as (_ & Hx & _).
  assert (0 <= x < n) by (apply (so_range _ _ _ _ x Hs); set_solver).
  destruct Hs as [Ha Hf Hr Hp]. rewrite Hf, add_tail_encode by done. eexists. split; [done|].
  split; try done. rewrite <- Hp, <- !app_assoc. cbn [app]. by rewrite <- !Permutation_middle.
Qed.

Lemma put_retrans n l A F R H x : sorted_out n l A F R (x :: H) ->
  exists r, add_tail_nr_list (retrans l) x = Ok r /\
    sorted_out n (with_retrans l r) A F (R ++ [x]) H.
Proof.
  intros Hs. pose proof (so_fits _ _ _ _ Hs) as (_ & _ & HR & _).
  pose proof (so_held _ _ _ _ _ Hs) as (_ & _ & Hx).
  assert (0 <= x < n) by (apply (so_range _ _ _ _ x Hs); set_solver).
  destruct Hs as [Ha Hf Hr Hp]. rewrite Hr, add_tail_encode by done. eexists. split; [done|].
  split; try done. rewrite <- Hp, <- !app_assoc. cbn [app]. by rewrite <- !Permutation_middle.
Qed.

(** The heads of the lists. *)
Lemma so_head_available n l A F R H :
  sorted_out n l A F R H -> head (available l) = first A.
Proof. intros [-> _ _ _]. done. Qed.
Lemma so_head_feedback n l A F R H :
  sorted_out n l A F R H -> head (feedback l) = first F.
Proof. intros [_ -> _ _]. done. Qed.
Lemma so_head_retrans n l A F R H :
  sorted_out n l A F R H -> head (retrans l) = first R.
Proof. intros [_ _ -> _]. done. Qed.

(** ** Creation *)

Lemma add_all n xs : forall ys, fits n (ys ++ xs) ->
  res_foldl add_tail_nr_list (encode n ys) xs = Ok (encode n (ys ++ xs)).
Proof.
  induction xs as [|x xs IH]; intros ys Hf; [by rewrite app_nil_r|]. cbn [res_foldl].
  replace (ys ++ x :: xs) with ((ys ++ [x]) ++ xs) in * by (by rewrite <- app_assoc).
  pose proof (fits_app_l _ _ _ Hf) as Hf1. rewrite add_tail_encode, res_bind_unfold; [by apply IH| | |].
  - by apply fits_app_l in Hf1.
  - apply (fits_range _ _ Hf1). set_solver.
  - destruct Hf1 as [(_ & Hd & _)%NoDup_app _]. intros Hx. apply (Hd x Hx). left.
Qed.

Lemma fits_seqZ m n : 0 <= m <= n -> fits n (seqZ 0 m).
Proof. intros. split; [apply NoDup_seqZ|]. intros x Hx%elem_of_seqZ. lia. Qed.

Lemma create_first n : 0 <= n ->
  exists l, create_lists (mk_lists zeroed zeroed zeroed) n = Ok l /\
    sorted_out n l (seqZ 0 n) [] [] [].
Proof.
  intros Hn. unfold create_lists. cbn [available len zeroed Z.eqb].
  rewrite create_encode, add_all, res_bind_unfold by (done || (cbn [app]; apply fits_seqZ; lia)).
  cbn [app]. eexists. split; [done|]. split; try done. by rewrite app_nil_r.
Qed.

Lemma create_again n m l A F R H : 0 < n <= m -> sorted_out n l A F R H ->
  exists l', create_lists l m = Ok l' /\ sorted_out m l' (A ++ seqZ n (m - n)) F R H.
Proof.
  intros Hn Hs. pose proof (so_fits _ _ _ _ Hs) as (HA & HF & HR & _).
  destruct Hs as [Ha Hf Hr Hp]. unfold create_lists. rewrite Ha, Hf, Hr.
  change (len (encode n A)) with n. rewrite (proj2 (Z.eqb_neq n 0)) by lia. destruct (Z.eqb_spec n m) as [->|Hne].
  { eexists. split; [done|]. rewrite Z.sub_diag, seqZ_nil, app_nil_r by lia. done. }
  rewrite dev_assert_ok, res_bind_unfold by (apply Z.gtb_lt; lia).
  rewrite (resize_encode n m A), res_bind_unfold by (done || lia).
  assert (Hnew : fits m (A ++ seqZ n (m - n))).
  { split.
    - apply NoDup_app. split; [apply HA|]. split; [|apply NoDup_seqZ].
      intros x Hx Hx'%elem_of_seqZ. pose proof (fits_range _ _ HA x Hx). lia.
    - intros x [Hx|Hx%elem_of_seqZ]%elem_of_app; [pose proof (fits_range _ _ HA x Hx)|]; lia. }
  rewrite add_all, res_bind_unfold by done.
  rewrite (resize_encode n m F), res_bind_unfold by (done || lia).
  rewrite (resize_encode n m R), res_bind_unfold by (done || lia).
  eexists. split; [done|]. split; try done.
  replace m with (n + (m - n)) at 2 by lia. rewrite seqZ_app, <- Hp by lia. rewrite Z.add_0_l.
  rewrite <- !app_assoc. rewrite (Permutation_app_comm (seqZ n (m - n))). by rewrite <- !app_assoc.
Qed.

(** ** Reset *)

Lemma drain_members n F : forall fuel A, fits n (A ++ F) -> (length F < fuel)%nat ->
  drain fuel (encode n F) (encode n A) = Ok (encode n [], encode n (A ++ F)).
Proof.
  induction F as [|x F IH]; intros fuel A Hf Hfuel; (destruct fuel as [|fuel]; [simpl in *; lia|]);
    cbn [drain].
  { by rewrite app_nil_r. }
  pose proof (fits_app_r _ _ _ Hf) as HF. pose proof (fits_first _ _ _ HF) as Hx.
  change (head (encode n (x :: F))) with x.
  rewrite (proj2 (Z.geb_le x 0)) by lia. rewrite remove_front_encode, res_bind_unfold by done.
  replace (A ++ x :: F) with ((A ++ [x]) ++ F) in * by (by rewrite <- app_assoc).
  pose proof (fits_app_l _ _ _ Hf) as HA.
  rewrite add_tail_encode, res_bind_unfold; [|by apply fits_app_l in HA|done|].
  - apply IH; [done|simpl in *; lia].
  - destruct HA as [(_ & Hd & _)%NoDup_app _]. intros H. apply (Hd x H). left.
Qed.

Lemma drain_lists_ok n l A F R : sorted_out n l A F R [] ->
  exists l', drain_lists l = Ok l' /\ sorted_out n l' (A ++ F ++ R) [] [] [].
Proof.
  intros Hs. pose proof (so_fits_all _ _ _ _ Hs) as Hall. rewrite app_nil_r in Hall.
  destruct (so_fits _ _ _ _ Hs) as (_ & HF & HR & _). destruct Hs as [Ha Hf Hr Hp].
  unfold drain_lists. rewrite Ha, Hf, Hr.
  pose proof (fits_length _ _ HF). pose proof (fits_length _ _ HR). rewrite app_assoc in Hall.
  assert (Hlen : forall xs, length (next (encode n xs)) = Z.to_nat n) by (intros; apply length_table).
  rewrite !Hlen.
  rewrite drain_members, res_bind_unfold by (eauto using fits_app_l || lia).
  rewrite drain_members, res_bind_unfold by (done || lia). eexists. split; [done|].
  split; try done; [cbn [available]; by rewrite <- app_assoc|]. rewrite <- Hp.
  by rewrite !app_nil_r.
Qed.

(** ** The processes *)

(** A process of either direction, as far as its place is concerned: does it wait, and
    its round. *)
Definition dl_view (h : NR_UE_harq_t) : bool * Z := (is_waiting h, round h).
Definition ul_view (h : NR_UE_ul_harq_t) : bool * Z := (ul_is_waiting h, ul_round h).

Definition free_at (ps : list (bool * Z)) (p : Z) : Prop := ps !! Z.to_nat p = Some (false, 0).
Definition waits_at (max : Z) (ps : list (bool * Z)) (p : Z) : Prop :=
  exists r, ps !! Z.to_nat p = Some (true, r) /\ 0 <= r < max.
Definition failed_at (max : Z) (ps : list (bool * Z)) (p : Z) : Prop :=
  exists r, ps !! Z.to_nat p = Some (false, r) /\ 0 < r < max.

Record placed (max : Z) (ps : list (bool * Z)) (A F R : list Z) : Prop := {
  placed_free p : p ∈ A -> free_at ps p;
  placed_waits p : p ∈ F -> waits_at max ps p;
  placed_failed p : p ∈ R -> failed_at max ps p
}.

(** A process that is in none of the lists can change. *)
Lemma placed_change max ps A F R p v : 0 <= p -> (forall q, q ∈ A ++ F ++ R -> 0 <= q) ->
  p ∉ A ++ F ++ R -> placed max ps A F R -> placed max (<[Z.to_nat p := v]> ps) A F R.
Proof.
  intros Hp Hq Hni [HA HF HR].
  assert (E : forall q, q ∈ A ++ F ++ R -> <[Z.to_nat p := v]> ps !! Z.to_nat q = ps !! Z.to_nat q).
  { intros q Hin. apply list_lookup_insert_ne. specialize (Hq q Hin). intros Heq.
    assert (p = q) as -> by lia. done. }
  split; intros q Hin; [unfold free_at|unfold waits_at|unfold failed_at]; 
    rewrite E by set_solver; [by apply HA|by apply HF|by apply HR].
Qed.

Lemma placed_less max ps A F R A' F' R' : A' ⊆ A -> F' ⊆ F -> R' ⊆ R ->
  placed max ps A F R -> placed max ps A' F' R'.
Proof. intros HA HF HR [PA PF PR]. split; auto. Qed.

Lemma placed_free_more max ps A F R p :
  placed max ps A F R -> free_at ps p -> placed max ps (A ++ [p]) F R.
Proof. intros [PA PF PR] Hp. split; auto. intros q [?| ->%list_elem_of_singleton]%elem_of_app; auto. Qed.

Lemma placed_waits_more max ps A F R p :
  placed max ps A F R -> waits_at max ps p -> placed max ps A (F ++ [p]) R.
Proof. intros [PA PF PR] Hp. split; auto. intros q [?| ->%list_elem_of_singleton]%elem_of_app; auto. Qed.

Lemma placed_failed_more max ps A F R p :
  placed max ps A F R -> failed_at max ps p -> placed max ps A F (R ++ [p]).
Proof. intros [PA PF PR] Hp. split; auto. intros q [?| ->%list_elem_of_singleton]%elem_of_app; auto. Qed.

(** One direction as a whole: the lists, and the processes, of which those beyond the
    configured number are free. *)
Record direction_ok (max n : Z) (l : lists) (ps : list (bool * Z)) (A F R H : list Z) : Prop := {
  dir_lists : sorted_out n l A F R H;
  dir_number : 0 < n <= NR_MAX_HARQ_PROCESSES;
  dir_processes : length ps = 32%nat;
  dir_placed : placed max ps A F R;
  dir_fresh p : n <= p < NR_MAX_HARQ_PROCESSES -> free_at ps p
}.

Section direction_lemmas.
Context {max n : Z} {l : lists} {ps : list (bool * Z)}.
Implicit Types A F R H : list Z.

Lemma dir_bound A F R H p :
  direction_ok max n l ps A F R H -> p ∈ A ++ F ++ R ++ H -> 0 <= p < n /\ n <= 32.
Proof.
  intros Hd Hp. pose proof (so_range _ _ _ _ p (dir_lists _ _ _ _ _ _ _ _ Hd) Hp) as Hr.
  pose proof (dir_number _ _ _ _ _ _ _ _ Hd). unfold NR_MAX_HARQ_PROCESSES in *. lia.
Qed.

(** Changing a process that is out of the lists. *)
Lemma dir_change A F R H p v : direction_ok max n l ps A F R (p :: H) ->
  direction_ok max n l (<[Z.to_nat p := v]> ps) A F R (p :: H).
Proof.
  intros Hd. pose proof (dir_lists _ _ _ _ _ _ _ _ Hd) as Hs.
  pose proof (so_held _ _ _ _ _ Hs) as (HA & HF & HR).
  destruct (dir_bound _ _ _ _ p Hd) as [Hp _]; [set_solver|].
  destruct Hd as [_ Hn Hlen Hpl Hfr]. split; try done.
  - by rewrite length_insert.
  - apply placed_change; [lia| |set_solver|done].
    intros q Hq. pose proof (so_range _ _ _ _ q Hs). set_solver by lia.
  - intros q Hq. unfold free_at. rewrite list_lookup_insert_ne by lia. by apply Hfr.
Qed.

Lemma dir_put_available A F R H p : direction_ok max n l ps A F R (p :: H) -> free_at ps p ->
  exists a, add_tail_nr_list (available l) p = Ok a /\
    direction_ok max n (with_available l a) ps (A ++ [p]) F R H.
Proof.
  intros [Hs Hn Hlen Hpl Hfr] Hp. destruct (put_available _ _ _ _ _ _ _ Hs) as (a & -> & Hs').
  exists a. split; [done|]. split; try done. by apply placed_free_more.
Qed.

(** A list that a process joins before its own fields are changed. *)
Lemma dir_put_feedback A F R H p : direction_ok max n l ps A F R (p :: H) ->
  exists f, add_tail_nr_list (feedback l) p = Ok f /\
    forall r, 0 <= r < max ->
      direction_ok max n (with_feedback l f) (<[Z.to_nat p := (true, r)]> ps) A (F ++ [p]) R H.
Proof.
  intros Hd. destruct (put_feedback _ _ _ _ _ _ _ (dir_lists _ _ _ _ _ _ _ _ Hd)) as (f & -> & Hs').
  exists f. split; [done|]. intros r Hr. destruct (dir_bound _ _ _ _ p Hd) as [Hp Hn]; [set_solver|].
  pose proof (dir_processes _ _ _ _ _ _ _ _ Hd) as Hlen.
  destruct (dir_change _ _ _ _ p (true, r) Hd) as [_ Hn' Hlen' Hpl Hfr]. split; try done.
  apply placed_waits_more; [done|]. exists r. split; [|done]. apply list_lookup_insert_eq. lia.
Qed.

Lemma dir_put_retrans A F R H p : direction_ok max n l ps A F R (p :: H) ->
  exists f, add_tail_nr_list (retrans l) p = Ok f /\
    forall r, 0 < r < max ->
      direction_ok max n (with_retrans l f) (<[Z.to_nat p := (false, r)]> ps) A F (R ++ [p]) H.
Proof.
  intros Hd. destruct (put_retrans _ _ _ _ _ _ _ (dir_lists _ _ _ _ _ _ _ _ Hd)) as (f & -> & Hs').
  exists f. split; [done|]. intros r Hr. destruct (dir_bound _ _ _ _ p Hd) as [Hp Hn]; [set_solver|].
  pose proof (dir_processes _ _ _ _ _ _ _ _ Hd) as Hlen.
  destruct (dir_change _ _ _ _ p (false, r) Hd) as [_ Hn' Hlen' Hpl Hfr]. split; try done.
  apply placed_failed_more; [done|]. exists r. split; [|done]. apply list_lookup_insert_eq. lia.
Qed.

Lemma dir_take_feedback A F R H p : direction_ok max n l ps A (p :: F) R H ->
  exists f, remove_front_nr_list (feedback l) = Ok f /\
    direction_ok max n (with_feedback l f) ps A F R (p :: H).
Proof.
  intros [Hs Hn Hlen Hpl Hfr]. destruct (take_feedback_front _ _ _ _ _ _ _ Hs) as (f & -> & Hs').
  exists f. split; [done|]. split; try done. revert Hpl. apply placed_less; set_solver.
Qed.

Lemma dir_take_available A F R H p : direction_ok max n l ps (p :: A) F R H ->
  exists a, remove_front_nr_list (available l) = Ok a /\ remove_nr_list (available l) p = Ok a /\
    direction_ok max n (with_available l a) ps A F R (p :: H).
Proof.
  intros [Hs Hn Hlen Hpl Hfr]. destruct (take_available_front _ _ _ _ _ _ _ Hs) as (a & Ea & Hs').
  destruct (take_available n l [] A F R H p Hs) as (a' & Ea' & Hs'').
  exists a. split; [done|]. rewrite Ea'. split.
  - destruct Hs' as [E1 _ _ _], Hs'' as [E2 _ _ _]. cbn [available with_available app] in *.
    by rewrite E1, E2.
  - split; try done. revert Hpl. apply placed_less; set_solver.
Qed.

Lemma dir_take_retrans A F R H p : direction_ok max n l ps A F (p :: R) H ->
  exists r, remove_nr_list (retrans l) p = Ok r /\
    direction_ok max n (with_retrans l r) ps A F R (p :: H).
Proof.
  intros [Hs Hn Hlen Hpl Hfr]. destruct (take_retrans n l A F [] R H p Hs) as (r & -> & Hs').
  exists r. split; [done|]. split; try done. revert Hpl. apply placed_less; set_solver.
Qed.

(** More processes: the new ones are free. *)
Lemma dir_grow A F R H m : direction_ok max n l ps A F R H -> n <= m <= NR_MAX_HARQ_PROCESSES ->
  exists l', create_lists l m = Ok l' /\
    direction_ok max m l' ps (A ++ seqZ n (m - n)) F R H.
Proof.
  intros [Hs Hn Hlen Hpl Hfr] Hm.
  destruct (create_again n m l A F R H) as (l' & -> & Hs'); [lia|done|].
  exists l'. split; [done|]. split; try done; [lia| |].
  - destruct Hpl as [PA PF PR]. split; auto.
    intros p [Hp|Hp%elem_of_seqZ]%elem_of_app; [by apply PA|]. apply Hfr. lia.
  - intros p Hp. apply Hfr. lia.
Qed.

Lemma dir_lens A F R H : direction_ok max n l ps A F R H ->
  len (available l) = n /\ len (feedback l) = n /\ len (retrans l) = n.
Proof. by intros [[-> -> -> _] _ _ _ _]. Qed.

Lemma dir_heads A F R H : direction_ok max n l ps A F R H ->
  head (available l) = first A /\ head (feedback l) = first F /\ head (retrans l) = first R.
Proof. by intros [[-> -> -> _] _ _ _ _]. Qed.

Lemma dir_members A F R H : direction_ok max n l ps A F R H ->
  members (available l) = A /\ members (feedback l) = F /\ members (retrans l) = R.
Proof.
  intros [Hs _ _ _ _]. pose proof (so_fits _ _ _ _ Hs) as (HA & HF & HR & _).
  destruct Hs as [-> -> -> _]. by rewrite !members_encode.
Qed.

(** The first free process, and the first one that waits for a retransmission. *)
Lemma dir_first_free A F R H p : direction_ok max n l ps A F R H -> 0 <= p -> p = head (available l) ->
  exists A', A = p :: A' /\ free_at ps p.
Proof.
  intros Hd Hp E. destruct (dir_heads _ _ _ _ Hd) as (E' & _ & _). rewrite E' in E.
  destruct A as [|x A']; [simpl in E; lia|]. simpl in E. subst x. exists A'. split; [done|].
  apply (placed_free _ _ _ _ _ (dir_placed _ _ _ _ _ _ _ _ Hd)). left.
Qed.

Lemma dir_first_failed A F R H p : direction_ok max n l ps A F R H -> 0 <= p -> p = head (retrans l) ->
  exists R', R = p :: R' /\ failed_at max ps p.
Proof.
  intros Hd Hp E. destruct (dir_heads _ _ _ _ Hd) as (_ & _ & E'). rewrite E' in E.
  destruct R as [|x R']; [simpl in E; lia|]. simpl in E. subst x. exists R'. split; [done|].
  apply (placed_failed _ _ _ _ _ (dir_placed _ _ _ _ _ _ _ _ Hd)). left.
Qed.
End direction_lemmas.

(** ** The downlink of a UE *)

Definition dl_ok (max n : Z) (ue : NR_UE_info_t) (A F R H : list Z) : Prop :=
  direction_ok max n (dl ue) (map dl_view (harq_processes ue)) A F R H.

(** What a function of the downlink does not touch. *)
Definition rest_of_dl (ue : NR_UE_info_t) :=
  (CellGroup ue, reconfigCellGroup ue, sc_info ue,
   (ul_harq_processes ue, ul ue, sched_ul_bytes ue, ul_rounds ue, ul_errors ue)).

Lemma dl_view_insert i h ps : map dl_view (<[i := h]> ps) = <[i := dl_view h]> (map dl_view ps).
Proof. apply (list_fmap_insert dl_view). Qed.

Lemma dl_view_lookup ps i : map dl_view ps !! i = dl_view <$> ps !! i.
Proof. apply (list_lookup_fmap dl_view). Qed.

Lemma upd_harq_ok ue p h f : 0 <= p -> harq_processes ue !! Z.to_nat p = Some h ->
  upd_harq ue p f = Ok (set_processes ue (<[Z.to_nat p := f h]> (harq_processes ue))).
Proof.
  intros Hp Hh. unfold upd_harq. rewrite (proj2 (zget_ok _ _ h)), res_bind_unfold by done.
  rewrite zset_ok; [done|]. apply lookup_lt_Some in Hh. unfold zlen. lia.
Qed.

Lemma dl_process max n ue A F R H p : dl_ok max n ue A F R H -> p ∈ A ++ F ++ R ++ H ->
  0 <= p < n /\ exists h, harq_processes ue !! Z.to_nat p = Some h.
Proof.
  intros Hd Hp. destruct (dir_bound _ _ _ _ p Hd Hp) as [Hr Hn].
  split; [done|]. apply lookup_lt_is_Some. pose proof (dir_processes _ _ _ _ _ _ _ _ Hd) as Hl.
  rewrite length_map in Hl. lia.
Qed.

Lemma insert_processes {A} (l : list A) i (x y : A) : l !! i = Some x -> <[i := y]> l !! i = Some y.
Proof. intros H%lookup_lt_Some. by apply list_lookup_insert_eq. Qed.

(** [finish_nr_dl_harq] puts a process that does not wait among the free ones. *)
Lemma finish_dl_ok max n ue A F R H p h : dl_ok max n ue A F R (p :: H) ->
  harq_processes ue !! Z.to_nat p = Some h -> is_waiting h = false ->
  exists ue', finish_nr_dl_harq ue p = Ok ue' /\ dl_ok max n ue' (A ++ [p]) F R H /\
    rest_of_dl ue' = rest_of_dl ue /\ dl_rounds ue' = dl_rounds ue /\ dl_errors ue' = dl_errors ue /\
    harq_processes ue' = <[Z.to_nat p :=
      mk_harq false (Z.lxor (ndi h) 1) 0 (feedback_frame h) (feedback_slot h) (tb_size h) (action h)]>
      (harq_processes ue).
Proof.
  intros Hd Hh Hw. destruct (dl_process _ _ _ _ _ _ _ p Hd) as [Hp _]; [set_solver|].
  unfold finish_nr_dl_harq. rewrite (upd_harq_ok _ _ h), res_bind_unfold by (done || lia). rewrite Hw.
  set (h' := mk_harq false _ _ _ _ _ _).
  pose proof (dir_change _ _ _ _ p (dl_view h') Hd) as Hd1. rewrite <- dl_view_insert in Hd1.
  destruct (dir_put_available _ _ _ _ p Hd1) as (a & Ea & Hd2).
  { unfold free_at. by rewrite dl_view_lookup, (insert_processes _ _ h). }
  cbn [dl set_processes]. rewrite Ea, res_bind_unfold. eexists. split; [done|]. by split_and!.
Qed.

(** A failure: the process is given up after the last round, and waits for a
    retransmission before. *)
Lemma handle_dl_nack max n ue A F R H p h : max <= 255 -> dl_ok max n ue A F R (p :: H) ->
  harq_processes ue !! Z.to_nat p = Some h -> 0 <= round h < max ->
  exists ue', handle_dl_harq ue p false max = Ok ue' /\
    rest_of_dl ue' = rest_of_dl ue /\ dl_rounds ue' = dl_rounds ue /\
    (if round h =? max - 1
     then dl_ok max n ue' (A ++ [p]) F R H /\ dl_errors ue' = u64 (dl_errors ue + 1) /\
       harq_processes ue' = <[Z.to_nat p := mk_harq false (Z.lxor (ndi h) 1) 0 (feedback_frame h)
         (u16 (-1)) (tb_size h) (action h)]> (harq_processes ue)
     else dl_ok max n ue' A F (R ++ [p]) H /\ dl_errors ue' = dl_errors ue /\
       harq_processes ue' = <[Z.to_nat p := mk_harq false (ndi h) (round h + 1) (feedback_frame h)
         (u16 (-1)) (tb_size h) (action h)]> (harq_processes ue)).
Proof.
  intros Hmax Hd Hh Hr. destruct (dl_process _ _ _ _ _ _ _ p Hd) as [Hp _]; [set_solver|].
  unfold handle_dl_harq. rewrite (upd_harq_ok _ _ h), res_bind_unfold by (done || lia).
  set (h1 := mk_harq false _ _ _ _ _ _). set (ue1 := set_processes ue _).
  assert (Hh1 : harq_processes ue1 !! Z.to_nat p = Some h1) by (by apply (insert_processes _ _ h)).
  rewrite (proj2 (zget_ok _ _ h1)), res_bind_unfold by (split; [lia|done]).
  pose proof (dir_change _ _ _ _ p (dl_view h1) Hd) as Hd1. rewrite <- dl_view_insert in Hd1.
  change (round h1) with (round h). destruct (Z.eqb_spec (round h) (max - 1)) as [Hlast|Hlast].
  - rewrite (proj2 (Z.geb_le (round h) (max - 1))) by lia. unfold abort_nr_dl_harq.
    destruct (finish_dl_ok max n ue1 A F R H p h1 Hd1 Hh1 eq_refl)
      as (ue2 & -> & Hd2 & E1 & E2 & E3 & E4).
    rewrite res_bind_unfold. eexists. split; [done|]. split; [done|]. split; [done|].
    split; [exact Hd2|]. split; [cbn [dl_errors set_dl_stats]; by rewrite E3|].
    cbn [harq_processes set_dl_stats]. rewrite E4. apply list_insert_insert_eq.
  - rewrite Z.geb_leb, (proj2 (Z.leb_gt (max - 1) (round h))) by lia.
    destruct (dir_put_retrans _ _ _ _ p Hd1) as (r & Er & Hd2). cbn [dl ue1 set_processes] in *.
    rewrite Er, res_bind_unfold.
    rewrite (upd_harq_ok _ _ h1) by (lia || apply Hh1). eexists. split; [done|].
    split; [done|]. split; [done|]. specialize (Hd2 (round h + 1) ltac:(lia)).
    assert (Eu : u8 (round h + 1) = round h + 1) by (unfold u8; apply Z.mod_small; lia).
    split; [|split; [done|]].
    + unfold dl_ok. cbn [dl harq_processes set_processes set_dl]. rewrite dl_view_insert.
      rewrite <- Eu in Hd2. exact Hd2.
    + cbn [harq_processes set_processes set_dl ue1]. rewrite list_insert_insert_eq.
      cbn [round h1]. by rewrite Eu.
Qed.

(** ** The uplink of a UE *)

Definition ul_ok (max n : Z) (ue : NR_UE_info_t) (A F R H : list Z) : Prop :=
  direction_ok max n (ul ue) (map ul_view (ul_harq_processes ue)) A F R H.

Definition rest_of_ul (ue : NR_UE_info_t) :=
  (CellGroup ue, reconfigCellGroup ue, sc_info ue,
   (harq_processes ue, dl ue, dl_rounds ue, dl_errors ue)).

Lemma ul_view_insert i h ps : map ul_view (<[i := h]> ps) = <[i := ul_view h]> (map ul_view ps).
Proof. apply (list_fmap_insert ul_view). Qed.

Lemma ul_view_lookup ps i : map ul_view ps !! i = ul_view <$> ps !! i.
Proof. apply (list_lookup_fmap ul_view). Qed.

Lemma upd_ul_harq_ok ue p h f : 0 <= p -> ul_harq_processes ue !! Z.to_nat p = Some h ->
  upd_ul_harq ue p f = Ok (set_ul_processes ue (<[Z.to_nat p := f h]> (ul_harq_processes ue))).
Proof.
  intros Hp Hh. unfold upd_ul_harq. rewrite (proj2 (zget_ok _ _ h)), res_bind_unfold by done.
  rewrite zset_ok; [done|]. apply lookup_lt_Some in Hh. unfold zlen. lia.
Qed.

Lemma ul_process max n ue A F R H p : ul_ok max n ue A F R H -> p ∈ A ++ F ++ R ++ H ->
  0 <= p < n /\ exists h, ul_harq_processes ue !! Z.to_nat p = Some h.
Proof.
  intros Hd Hp. destruct (dir_bound _ _ _ _ p Hd Hp) as [Hr Hn].
  split; [done|]. apply lookup_lt_is_Some. pose proof (dir_processes _ _ _ _ _ _ _ _ Hd) as Hl.
  rewrite length_map in Hl. lia.
Qed.

(** [finish_nr_ul_harq] puts a process that does not wait among the free ones. *)
Lemma finish_ul_ok max n ue A F R H p h : ul_ok max n ue A F R (p :: H) ->
  ul_harq_processes ue !! Z.to_nat p = Some h -> ul_is_waiting h = false ->
  exists ue', finish_nr_ul_harq ue p = Ok ue' /\ ul_ok max n ue' (A ++ [p]) F R H /\
    rest_of_ul ue' = rest_of_ul ue /\
    (ul_rounds ue', ul_errors ue', sched_ul_bytes ue') = (ul_rounds ue, ul_errors ue, sched_ul_bytes ue) /\
    ul_harq_processes ue' = <[Z.to_nat p :=
      mk_ul_harq false (Z.lxor (ul_ndi h) 1) 0 (ul_feedback_slot h) (ul_tb_size h)]>
      (ul_harq_processes ue).
Proof.
  intros Hd Hh Hw. destruct (ul_process _ _ _ _ _ _ _ p Hd) as [Hp _]; [set_solver|].
  unfold finish_nr_ul_harq. rewrite (upd_ul_harq_ok _ _ h), res_bind_unfold by (done || lia). rewrite Hw.
  set (h' := mk_ul_harq false _ _ _ _).
  pose proof (dir_change _ _ _ _ p (ul_view h') Hd) as Hd1. rewrite <- ul_view_insert in Hd1.
  destruct (dir_put_available _ _ _ _ p Hd1) as (a & Ea & Hd2).
  { unfold free_at. by rewrite ul_view_lookup, (insert_processes _ _ h). }
  cbn [ul set_ul_processes]. rewrite Ea, res_bind_unfold. eexists. split; [done|]. by split_and!.
Qed.

(** A failed transmission of the uplink. *)
Lemma retry_ul_ok max n ue A F R H p h : max <= 255 -> ul_ok max n ue A F R (p :: H) ->
  ul_harq_processes ue !! Z.to_nat p = Some h -> ul_is_waiting h = false -> 0 <= ul_round h < max ->
  exists ue', retry_nr_ul_harq ue p max = Ok ue' /\
    rest_of_ul ue' = rest_of_ul ue /\ ul_rounds ue' = ul_rounds ue /\
    (if ul_round h =? max - 1
     then ul_ok max n ue' (A ++ [p]) F R H /\ ul_errors ue' = u64 (ul_errors ue + 1) /\
       sched_ul_bytes ue' = Z.max 0 (sched_ul_bytes ue - ul_tb_size h)
     else ul_ok max n ue' A F (R ++ [p]) H /\ ul_errors ue' = ul_errors ue /\
       sched_ul_bytes ue' = sched_ul_bytes ue /\
       ul_harq_processes ue' = <[Z.to_nat p := mk_ul_harq false (ul_ndi h) (ul_round h + 1)
         (ul_feedback_slot h) (ul_tb_size h)]> (ul_harq_processes ue)).
Proof.
  intros Hmax Hd Hh Hw Hr. destruct (ul_process _ _ _ _ _ _ _ p Hd) as [Hp _]; [set_solver|].
  unfold retry_nr_ul_harq. rewrite (proj2 (zget_ok _ _ h)), res_bind_unfold by (split; [lia|done]).
  destruct (Z.eqb_spec (ul_round h) (max - 1)) as [Hlast|Hlast].
  - rewrite (proj2 (Z.geb_le (ul_round h) (max - 1))) by lia. unfold abort_nr_ul_harq.
    destruct (finish_ul_ok max n ue A F R H p h Hd Hh Hw) as (ue2 & -> & Hd2 & E1 & E2 & E3).
    rewrite res_bind_unfold, E3. injection E2 as E2a E2b E2c.
    rewrite (proj2 (zget_ok _ _ (mk_ul_harq false (Z.lxor (ul_ndi h) 1) 0 (ul_feedback_slot h)
      (ul_tb_size h)))), res_bind_unfold by (split; [lia|by apply (insert_processes _ _ h)]).
    eexists. split; [done|]. split; [done|]. split; [done|]. split; [exact Hd2|].
    cbn [ul_errors sched_ul_bytes set_ul_stats ul_tb_size]. rewrite E2b, E2c. split; [done|].
    zcases; lia.
  - rewrite Z.geb_leb, (proj2 (Z.leb_gt (max - 1) (ul_round h))) by lia.
    rewrite (upd_ul_harq_ok _ _ h), res_bind_unfold by (done || lia).
    destruct (dir_put_retrans _ _ _ _ p Hd) as (r & Er & Hd2). cbn [ul set_ul_processes].
    rewrite Er, res_bind_unfold. eexists. split; [done|]. split; [done|]. split; [done|].
    specialize (Hd2 (ul_round h + 1) ltac:(lia)).
    assert (Eu : u8 (ul_round h + 1) = ul_round h + 1) by (unfold u8; apply Z.mod_small; lia).
    split_and!; try done.
    + unfold ul_ok. cbn [ul ul_harq_processes set_ul_processes set_ul]. rewrite ul_view_insert.
      rewrite <- Eu, <- Hw in Hd2. exact Hd2.
    + cbn [ul_harq_processes set_ul_processes set_ul]. by rewrite Eu, Hw.
Qed.

(** ** Configuration *)

(** The number of processes that a configuration asks for. *)
Definition dl_count (sc : NR_UE_ServingCell_Info_t) (dci_00_10 : bool) : res Z :=
  n ← get_nrofHARQ_ProcessesForPDSCH sc; mret (limit dci_00_10 n).

Definition ul_count (sc : NR_UE_ServingCell_Info_t) (dci_00_10 : bool) : Z :=
  limit dci_00_10 (get_nrofHARQ_ProcessesForPUSCH sc).

Lemma limit_bound fmt n : n <= 32 -> limit fmt n <= NR_MAX_HARQ_PROCESSES.
Proof. intros. unfold limit, NR_MAX_HARQ_PROCESSES. destruct (_ && _); lia. Qed.

Lemma dl_count_bound sc fmt m : dl_count sc fmt = Ok m -> 0 < m <= NR_MAX_HARQ_PROCESSES.
Proof.
  intros Hm. unfold dl_count in Hm. apply res_bind_ok in Hm as (k & Hk & [= <-]).
  assert (0 < k <= 32).
  { unfold get_nrofHARQ_ProcessesForPDSCH, mret, res_ret in Hk.
    destruct (nrofHARQ_ProcessesForPDSCH_v1700 sc); [by simplify_eq|].
    destruct (nrofHARQ_ProcessesForPDSCH sc) as [i|]; [|by simplify_eq].
    apply zget_ok in Hk as [_ Hk]. destruct (Z.to_nat i) as [|[|[|[|[|[|]]]]]]; by simplify_eq/=. }
  split; [|apply limit_bound; lia]. unfold limit. destruct (_ && _); lia.
Qed.

Lemma ul_count_bound sc fmt : 0 < ul_count sc fmt <= NR_MAX_HARQ_PROCESSES.
Proof.
  unfold ul_count, limit, get_nrofHARQ_ProcessesForPUSCH, NR_MAX_HARQ_PROCESSES.
  by destruct (nrofHARQ_ProcessesForPUSCH_r17 sc), fmt.
Qed.

Lemma create_dl_grow max n ue A F R H fmt m : dl_ok max n ue A F R H ->
  dl_count (sc_info ue) fmt = Ok m -> n <= m ->
  exists l, create_dl_harq_list ue fmt = Ok (set_dl ue l) /\
    dl_ok max m (set_dl ue l) (A ++ seqZ n (m - n)) F R H.
Proof.
  intros Hd Hm Hle. pose proof (dl_count_bound _ _ _ Hm) as Hb. unfold dl_count in Hm.
  apply res_bind_ok in Hm as (k & Hk & [= Hm]). unfold create_dl_harq_list.
  rewrite Hk, res_bind_unfold. destruct (dir_lens _ _ _ _ Hd) as (-> & -> & ->).
  rewrite Z.eqb_refl, Hm. cbn [andb dev_assert]. rewrite res_ret_bind.
  destruct (dir_grow _ _ _ _ m Hd) as (l' & -> & Hd'); [lia|].
  rewrite res_bind_unfold. exists l'. split; [done|]. exact Hd'.
Qed.

Lemma create_ul_grow max n ue A F R H fmt : ul_ok max n ue A F R H -> n <= ul_count (sc_info ue) fmt ->
  exists l, create_ul_harq_list ue fmt = Ok (set_ul ue l) /\
    ul_ok max (ul_count (sc_info ue) fmt) (set_ul ue l)
      (A ++ seqZ n (ul_count (sc_info ue) fmt - n)) F R H.
Proof.
  intros Hd Hle. pose proof (ul_count_bound (sc_info ue) fmt) as Hb. unfold create_ul_harq_list.
  change (limit fmt _) with (ul_count (sc_info ue) fmt). 
  destruct (dir_grow _ _ _ _ (ul_count (sc_info ue) fmt) Hd) as (l' & -> & Hd'); [lia|].
  rewrite res_bind_unfold. exists l'. split; [done|]. exact Hd'.
Qed.

(** What [configure_harq] makes of [sc_info]. *)
Definition new_sc_info (ue : NR_UE_info_t) (is_RA : bool) : NR_UE_ServingCell_Info_t :=
  if is_RA then sc_info ue
  else configure_sc_info (sc_info ue) (match CellGroup ue with Some cfg => cfg | None => None end).

(** What a configuration leaves as it is. *)
Definition rest_of_configuration (ue : NR_UE_info_t) :=
  (CellGroup ue, reconfigCellGroup ue, (harq_processes ue, ul_harq_processes ue),
   (sched_ul_bytes ue, dl_rounds ue, dl_errors ue, ul_rounds ue, ul_errors ue)).

(** A configuration is possible as long as it asks for at least as many processes. *)
Lemma configure_ok maxd maxu nd nu ue A F R H Au Fu Ru Hl is_RA fmt m :
  dl_ok maxd nd ue A F R H -> ul_ok maxu nu ue Au Fu Ru Hl ->
  dl_count (new_sc_info ue is_RA) fmt = Ok m -> nd <= m ->
  nu <= ul_count (new_sc_info ue is_RA) fmt ->
  exists ue', configure_harq ue is_RA fmt = Ok ue' /\
    dl_ok maxd m ue' (A ++ seqZ nd (m - nd)) F R H /\
    ul_ok maxu (ul_count (new_sc_info ue is_RA) fmt) ue'
      (Au ++ seqZ nu (ul_count (new_sc_info ue is_RA) fmt - nu)) Fu Ru Hl /\
    sc_info ue' = new_sc_info ue is_RA /\
    rest_of_configuration ue' = rest_of_configuration ue.
Proof.
  intros Hd Hu Hm Hle Hleu. unfold configure_harq. fold (new_sc_info ue is_RA).
  set (ue1 := set_cell_group ue _ _ _).
  destruct (create_dl_grow maxd nd ue1 A F R H fmt m) as (l & -> & Hd1); [exact Hd|exact Hm|done|].
  rewrite res_bind_unfold.
  destruct (create_ul_grow maxu nu (set_dl ue1 l) Au Fu Ru Hl fmt) as (l' & -> & Hu1);
    [exact Hu|exact Hleu|].
  eexists. split; [done|]. split; [exact Hd1|]. split; [exact Hu1|]. done.
Qed.

(** ** Acknowledgements *)

(** The reconfiguration that an acknowledgement would apply asks for enough processes. *)
Definition reconfig_fits (ue : NR_UE_info_t) (nd nu : Z) : Prop :=
  match reconfigCellGroup ue with
  | None => True
  | Some cfg =>
      let sc := configure_sc_info (sc_info ue) cfg in
      (exists m, dl_count sc true = Ok m /\ nd <= m) /\ nu <= ul_count sc true
  end.

(** [ack_reconfig] while process [p] is out of the lists. *)
Lemma ack_reconfig_ok maxd maxu nd nu ue A F R H Au Fu Ru :
  dl_ok maxd nd ue A F R H -> ul_ok maxu nu ue Au Fu Ru [] -> reconfig_fits ue nd nu ->
  exists ue' nd' nu' A' Au', ack_reconfig ue = Ok ue' /\
    dl_ok maxd nd' ue' A' F R H /\ ul_ok maxu nu' ue' Au' Fu Ru [] /\ reconfig_fits ue' nd' nu' /\
    harq_processes ue' = harq_processes ue /\
    (dl_rounds ue', dl_errors ue', ul_rounds ue') = (dl_rounds ue, dl_errors ue, ul_rounds ue).
Proof.
  intros Hd Hu Hfit. unfold ack_reconfig, reconfig_fits in *.
  destruct (reconfigCellGroup ue) as [cfg|] eqn:Er; cycle 1.
  { exists ue, nd, nu, A, Au. unfold reconfig_fits. rewrite Er. done. }
  destruct Hfit as [(m & Hm & Hle) Hleu].
  destruct (configure_ok maxd maxu nd nu (set_cell_group ue (Some cfg) None (sc_info ue)) A F R H
    Au Fu Ru [] false true m) as (ue' & -> & Hd' & Hu' & _ & E); try done.
  injection E as _ Er' Ep _ _ E1 E2 E3 _. do 5 eexists. split; [done|]. split; [exact Hd'|].
  split; [exact Hu'|]. unfold reconfig_fits. rewrite Er'. cbn in *. split_and!; congruence || done.
Qed.

(** The acknowledgement of process [p], when no reconfiguration is acknowledged with it. *)
Lemma handle_dl_ack_plain max n ue A F R H p h : dl_ok max n ue A F R (p :: H) ->
  harq_processes ue !! Z.to_nat p = Some h -> action h = false ->
  exists ue', handle_dl_harq ue p true max = Ok ue' /\ dl_ok max n ue' (A ++ [p]) F R H /\
    rest_of_dl ue' = rest_of_dl ue /\
    harq_processes ue' = <[Z.to_nat p := mk_harq false (Z.lxor (ndi h) 1) 0 (feedback_frame h)
         (u16 (-1)) (tb_size h) (action h)]> (harq_processes ue).
Proof.
  intros Hd Hh Ha. destruct (dl_process _ _ _ _ _ _ _ p Hd) as [Hp _]; [set_solver|].
  unfold handle_dl_harq. rewrite (upd_harq_ok _ _ h), res_bind_unfold by (done || lia).
  set (h1 := mk_harq false _ _ _ _ _ _). set (ue1 := set_processes ue _).
  assert (Hh1 : harq_processes ue1 !! Z.to_nat p = Some h1) by (by apply (insert_processes _ _ h)).
  rewrite (proj2 (zget_ok _ _ h1)), res_bind_unfold by (split; [lia|done]).
  pose proof (dir_change _ _ _ _ p (dl_view h1) Hd) as Hd1. rewrite <- dl_view_insert in Hd1.
  change (action h1) with (action h). rewrite Ha, res_ret_bind.
  destruct (finish_dl_ok max n ue1 A F R H p h1 Hd1 Hh1 eq_refl) as (ue' & -> & Hd' & E1 & _ & _ & E4).
  exists ue'. split; [done|]. split; [done|]. split; [done|]. rewrite E4.
  cbn [harq_processes set_processes ue1]. by rewrite list_insert_insert_eq, <- Ha.
Qed.

(** The acknowledgement of process [p], possibly of a reconfiguration. *)
Lemma handle_dl_ack maxd maxu nd nu ue A F R H Au Fu Ru p h :
  dl_ok maxd nd ue A F R (p :: H) -> ul_ok maxu nu ue Au Fu Ru [] -> reconfig_fits ue nd nu ->
  harq_processes ue !! Z.to_nat p = Some h ->
  exists ue' nd' nu' A' Au', handle_dl_harq ue p true maxd = Ok ue' /\
    dl_ok maxd nd' ue' A' F R H /\ ul_ok maxu nu' ue' Au' Fu Ru [] /\ reconfig_fits ue' nd' nu' /\
    (dl_rounds ue', ul_rounds ue') = (dl_rounds ue, ul_rounds ue).
Proof.
  intros Hd Hu Hfit Hh. destruct (dl_process _ _ _ _ _ _ _ p Hd) as [Hp _]; [set_solver|].
  unfold handle_dl_harq. rewrite (upd_harq_ok _ _ h), res_bind_unfold by (done || lia).
  set (h1 := mk_harq false _ _ _ _ _ _). set (ue1 := set_processes ue _).
  assert (Hh1 : harq_processes ue1 !! Z.to_nat p = Some h1) by (by apply (insert_processes _ _ h)).
  rewrite (proj2 (zget_ok _ _ h1)), res_bind_unfold by (split; [lia|done]).
  pose proof (dir_change _ _ _ _ p (dl_view h1) Hd) as Hd1. rewrite <- dl_view_insert in Hd1.
  assert (Hact : exists ue2 nd' nu' A' Au', (if action h1 then ack_reconfig ue1 else mret ue1) = Ok ue2 /\
    dl_ok maxd nd' ue2 A' F R (p :: H) /\ ul_ok maxu nu' ue2 Au' Fu Ru [] /\ reconfig_fits ue2 nd' nu' /\
    harq_processes ue2 = harq_processes ue1 /\
    (dl_rounds ue2, dl_errors ue2, ul_rounds ue2) = (dl_rounds ue1, dl_errors ue1, ul_rounds ue1)).
  { destruct (action h1); [|by exists ue1, nd, nu, A, Au].
    apply (ack_reconfig_ok maxd maxu nd nu ue1 A F R (p :: H) Au Fu Ru); [exact Hd1|exact Hu|exact Hfit]. }
  destruct Hact as (ue2 & nd' & nu' & A' & Au' & -> & Hd2 & Hu2 & Hf2 & Ep & Es).
  rewrite res_bind_unfold.
  destruct (finish_dl_ok maxd nd' ue2 A' F R H p h1 Hd2) as (ue3 & -> & Hd3 & E1 & E2 & _);
    [by rewrite Ep|done|].
  injection E1 as _ F2 F3 F4 F5 _ F7 _. injection Es as G1 _ G3.
  exists ue3, nd', nu', (A' ++ [p]), Au'. split_and!; try done.
  - unfold ul_ok. by rewrite F4, F5.
  - unfold reconfig_fits. by rewrite F2, F3.
  - rewrite E2, F7, G1, G3. done.
Qed.

End MacHarqSpec.

(** * Runs of the HARQ functions of a UE

    The invariant of [MacHarqSpec] through the functions that the scheduler and the
    physical layer call, and through any sequence of such calls: no call exits, reads
    or writes out of bounds, or loops, and every HARQ process stays in exactly one
    list.  The feedback of a UE is applied to the processes in the order in which they
    were sent. *)
Module MacHarqRun.
Import MacHarq MacHarqSpec.

(** The invariant of a UE between two calls. *)
Record ue_inv (maxd maxu : Z) (ue : NR_UE_info_t) (nd nu : Z) (A F R Au Fu Ru : list Z) : Prop := {
  inv_dl : dl_ok maxd nd ue A F R [];
  inv_ul : ul_ok maxu nu ue Au Fu Ru [];
  inv_dl_rounds : length (dl_rounds ue) = 8%nat;
  inv_ul_rounds : length (ul_rounds ue) = 8%nat
}.

(** A function of one direction keeps the invariant of the other. *)
Lemma ul_kept maxu nu ue ue' Au Fu Ru : rest_of_dl ue' = rest_of_dl ue ->
  ul_ok maxu nu ue Au Fu Ru [] -> ul_ok maxu nu ue' Au Fu Ru [].
Proof. intros E. injection E as _ _ _ E4 E5 _ _ _. unfold ul_ok. by rewrite E4, E5. Qed.

Lemma dl_kept maxd nd ue ue' A F R : rest_of_ul ue' = rest_of_ul ue ->
  dl_ok maxd nd ue A F R [] -> dl_ok maxd nd ue' A F R [].
Proof. intros E. injection E as _ _ _ E4 E5 _ _. unfold dl_ok. by rewrite E4, E5. Qed.

Lemma ul_rounds_kept ue ue' : rest_of_dl ue' = rest_of_dl ue -> ul_rounds ue' = ul_rounds ue.
Proof. by intros [= _ _ _ _ _ _ -> _]. Qed.

Lemma dl_rounds_kept ue ue' : rest_of_ul ue' = rest_of_ul ue -> dl_rounds ue' = dl_rounds ue.
Proof. by intros [= _ _ _ _ _ -> _]. Qed.

(** ** Feedback of the downlink *)

(** The feedback of [p] is not, or no longer, expected: it counts as a failure. *)
Lemma nack_step maxd maxu ue nd nu A F R Au Fu Ru p :
  maxd <= 255 -> ue_inv maxd maxu ue nd nu A (p :: F) R Au Fu Ru ->
  exists f ue' A' R', remove_front_nr_list (feedback (dl ue)) = Ok f /\
    handle_dl_harq (set_dl ue (with_feedback (dl ue) f)) p false maxd = Ok ue' /\
    ue_inv maxd maxu ue' nd nu A' F R' Au Fu Ru /\ rest_of_dl ue' = rest_of_dl ue.
Proof.
  intros Hmax [Hd Hu Hsd Hsu].
  destruct (dl_process _ _ _ _ _ _ _ p Hd) as [Hp [h Hh]]; [set_solver|].
  destruct (placed_waits _ _ _ _ _ (dir_placed _ _ _ _ _ _ _ _ Hd) p) as (r & Hr & Hrange); [set_solver|].
  rewrite dl_view_lookup, Hh in Hr. injection Hr as Hw Hr.
  destruct (dir_take_feedback _ _ _ _ p Hd) as (f & Hf & Hd1).
  exists f. destruct (handle_dl_nack maxd nd (set_dl ue (with_feedback (dl ue) f)) A F R [] p h)
    as (ue' & E & Er & Es & Hcase); [done|exact Hd1|exact Hh|lia|].
  assert (Hrest : rest_of_dl ue' = rest_of_dl ue) by (by rewrite Er).
  destruct (round h =? maxd - 1); destruct Hcase as [Hd' _]; exists ue'.
  - exists (A ++ [p]), R. split_and!; try done.
    split; [done|by apply (ul_kept _ _ ue)|by rewrite Es|by rewrite (ul_rounds_kept ue)].
  - exists A, (R ++ [p]). split_and!; try done.
    split; [done|by apply (ul_kept _ _ ue)|by rewrite Es|by rewrite (ul_rounds_kept ue)].
Qed.

Lemma reconfig_fits_rest ue ue' nd nu : rest_of_dl ue' = rest_of_dl ue ->
  reconfig_fits ue nd nu -> reconfig_fits ue' nd nu.
Proof. unfold rest_of_dl, reconfig_fits. intros E. injection E as _ -> -> _. done. Qed.

Lemma find_loop_ok maxd maxu frame slot nd nu Au Fu Ru : maxd <= 255 ->
  forall F fuel ue A R, (length F < fuel)%nat -> ue_inv maxd maxu ue nd nu A F R Au Fu Ru ->
  exists ue' A' F' R' o, find_harq_loop fuel ue frame slot maxd = Ok (ue', o) /\
    ue_inv maxd maxu ue' nd nu A' F' R' Au Fu Ru /\ rest_of_dl ue' = rest_of_dl ue /\
    match o with None => True | Some p => exists F'', F' = p :: F'' end.
Proof.
  intros Hmax. induction F as [|p F IH]; intros fuel ue A R Hfuel Hi;
    (destruct fuel as [|fuel]; [simpl in *; lia|]); cbn [find_harq_loop];
    destruct (dir_heads _ _ _ _ (inv_dl _ _ _ _ _ _ _ _ _ _ _ Hi)) as (_ & -> & _); cbn [first].
  { exists ue, A, [], R, None. done. }
  destruct (dl_process _ _ _ _ _ _ _ p (inv_dl _ _ _ _ _ _ _ _ _ _ _ Hi)) as [Hp [h Hh]]; [set_solver|].
  rewrite (proj2 (Z.ltb_ge p 0)) by lia.
  rewrite (proj2 (zget_ok _ _ h)), res_bind_unfold by (split; [lia|done]).
  destruct (in_the_past h frame slot).
  - destruct (nack_step _ _ _ _ _ _ _ _ _ _ _ _ Hmax Hi) as (f & ue1 & A1 & R1 & -> & E & Hi1 & Er).
    rewrite res_bind_unfold, E, res_bind_unfold.
    destruct (IH fuel ue1 A1 R1) as (ue2 & A2 & F2 & R2 & o & -> & Hi2 & Er2 & Ho);
      [simpl in *; lia|done|].
    exists ue2, A2, F2, R2, o. split_and!; try done. by rewrite Er2.
  - destruct (in_the_future h frame slot).
    + exists ue, A, (p :: F), R, None. done.
    + exists ue, A, (p :: F), R, (Some p). split_and!; try done. by exists F.
Qed.

Lemma find_harq_ok maxd maxu frame slot ue nd nu A F R Au Fu Ru : maxd <= 255 ->
  ue_inv maxd maxu ue nd nu A F R Au Fu Ru ->
  exists ue' A' F' R' o, find_harq frame slot ue maxd = Ok (ue', o) /\
    ue_inv maxd maxu ue' nd nu A' F' R' Au Fu Ru /\ rest_of_dl ue' = rest_of_dl ue /\
    match o with None => True | Some p => exists F'', F' = p :: F'' end.
Proof.
  intros Hmax Hi. apply (find_loop_ok _ _ _ _ _ _ _ _ _ Hmax F _ ue A R); [|done].
  destruct (so_fits _ _ _ _ (dir_lists _ _ _ _ _ _ _ _ (inv_dl _ _ _ _ _ _ _ _ _ _ _ Hi))) as (_ & HF & _).
  rewrite (so_feedback _ _ _ _ _ _ (dir_lists _ _ _ _ _ _ _ _ (inv_dl _ _ _ _ _ _ _ _ _ _ _ Hi))).
  cbn [encode next]. rewrite length_table. apply fits_length in HF. lia.
Qed.

(** One bit of feedback, whatever it says. *)
Lemma harq_bit_ok maxd maxu frame slot ue b nd nu A F R Au Fu Ru : maxd <= 255 ->
  ue_inv maxd maxu ue nd nu A F R Au Fu Ru -> reconfig_fits ue nd nu ->
  exists ue' nd' nu' A' F' R' Au' go, harq_bit frame slot ue b maxd = Ok (ue', go) /\
    ue_inv maxd maxu ue' nd' nu' A' F' R' Au' Fu Ru /\ reconfig_fits ue' nd' nu'.
Proof.
  intros Hmax Hi Hfit. unfold harq_bit.
  destruct (find_harq_ok _ _ frame slot _ _ _ _ _ _ _ _ _ Hmax Hi)
    as (ue1 & A1 & F1 & R1 & o & -> & Hi1 & Er & Ho). rewrite res_bind_unfold.
  pose proof (reconfig_fits_rest _ _ _ _ Er Hfit) as Hfit1.
  destruct o as [p|]; [|by exists ue1, nd, nu, A1, F1, R1, Au, None].
  destruct Ho as [F2 ->]. pose proof (inv_dl _ _ _ _ _ _ _ _ _ _ _ Hi1) as Hd1.
  destruct (dl_process _ _ _ _ _ _ _ p Hd1) as [Hp [h Hh]]; [set_solver|].
  destruct (placed_waits _ _ _ _ _ (dir_placed _ _ _ _ _ _ _ _ Hd1) p) as (r & Hr & Hrange); [set_solver|].
  rewrite dl_view_lookup, Hh in Hr. injection Hr as Hw Hr.
  rewrite (proj2 (zget_ok _ _ h)), res_bind_unfold by (split; [lia|done]).
  rewrite dev_assert_ok, res_bind_unfold by done.
  destruct (dir_heads _ _ _ _ Hd1) as (_ & -> & _). cbn [first]. destruct b.
  - destruct (dir_take_feedback _ _ _ _ p Hd1) as (f & -> & Hd2). rewrite res_bind_unfold.
    destruct (handle_dl_ack maxd maxu nd nu (set_dl ue1 (with_feedback (dl ue1) f)) A1 F2 R1 []
      Au Fu Ru p h) as (ue3 & nd' & nu' & A' & Au' & -> & Hd3 & Hu3 & Hf3 & Es);
      [exact Hd2|apply Hi1|exact Hfit1|exact Hh|]. rewrite res_bind_unfold.
    injection Es as E1 E3. exists ue3, nd', nu', A', F2, R1, Au', (Some tt).
    split; [done|]. split; [|done]. split; try done; [rewrite E1|rewrite E3]; apply Hi1.
  - destruct (nack_step _ _ _ _ _ _ _ _ _ _ _ _ Hmax Hi1) as (f & ue3 & A3 & R3 & -> & E & Hi3 & Er3).
    rewrite res_bind_unfold, E, res_bind_unfold.
    exists ue3, nd, nu, A3, F2, R3, Au, (Some tt). split_and!; try done.
    by apply (reconfig_fits_rest ue1).
Qed.

Lemma harq_bits_ok maxd maxu frame slot Fu Ru bits : maxd <= 255 ->
  forall ue nd nu A F R Au, ue_inv maxd maxu ue nd nu A F R Au Fu Ru -> reconfig_fits ue nd nu ->
  exists ue' nd' nu' A' F' R' Au', harq_bits frame slot ue bits maxd = Ok ue' /\
    ue_inv maxd maxu ue' nd' nu' A' F' R' Au' Fu Ru /\ reconfig_fits ue' nd' nu'.
Proof.
  intros Hmax. induction bits as [|b bits IH]; intros ue nd nu A F R Au Hi Hfit; cbn [harq_bits].
  { exists ue, nd, nu, A, F, R, Au. done. }
  destruct (harq_bit_ok _ _ frame slot _ b _ _ _ _ _ _ _ _ Hmax Hi Hfit)
    as (ue1 & nd1 & nu1 & A1 & F1 & R1 & Au1 & go & -> & Hi1 & Hf1). rewrite res_bind_unfold.
  destruct go; [by apply (IH ue1 nd1 nu1 A1 F1 R1 Au1)|].
  exists ue1, nd1, nu1, A1, F1, R1, Au1. done.
Qed.

(** ** What a report does *)

(** A process that is acknowledged or given up, and one that has to be sent again. *)
Definition freed (h : NR_UE_harq_t) : NR_UE_harq_t :=
  mk_harq false (Z.lxor (ndi h) 1) 0 (feedback_frame h) (u16 (-1)) (tb_size h) (action h).
Definition failed (h : NR_UE_harq_t) : NR_UE_harq_t :=
  mk_harq false (ndi h) (round h + 1) (feedback_frame h) (u16 (-1)) (tb_size h) (action h).

(** The answer [b] for process [p]: free processes, processes to send again, and what
    is stored about them. *)
Definition answered (max : Z) (st : list Z * list Z * list NR_UE_harq_t) (pb : Z * bool)
    : list Z * list Z * list NR_UE_harq_t :=
  let '(A, R, ps) := st in
  let '(p, b) := pb in
  match ps !! Z.to_nat p with
  | None => st
  | Some h =>
      if (b : bool) || (round h =? max - 1)
      then (A ++ [p], R, <[Z.to_nat p := freed h]> ps)
      else (A, R ++ [p], <[Z.to_nat p := failed h]> ps)
  end.

(** Process [p] waits for feedback in this slot, and not for a reconfiguration. *)
Definition expects (frame slot : Z) (ps : list NR_UE_harq_t) (p : Z) : Prop :=
  exists h, ps !! Z.to_nat p = Some h /\ feedback_frame h = frame /\ feedback_slot h = slot /\
    action h = false.

Lemma expects_found frame slot h : feedback_frame h = frame -> feedback_slot h = slot ->
  in_the_past h frame slot = false /\ in_the_future h frame slot = false.
Proof.
  intros <- <-. unfold in_the_past, in_the_future. rewrite !Z.sub_diag.
  change (Z.rem (0 + 1024) 1024 >? 512) with false.
  rewrite Z.gtb_ltb, Z.ltb_irrefl. by rewrite !andb_false_r.
Qed.

(** One expected answer. *)
Lemma harq_bit_exact max frame slot ue n A F R p b : max <= 255 ->
  dl_ok max n ue A (p :: F) R [] -> expects frame slot (harq_processes ue) p ->
  exists ue' A' R', harq_bit frame slot ue b max = Ok (ue', Some tt) /\
    answered max (A, R, harq_processes ue) (p, b) = (A', R', harq_processes ue') /\
    dl_ok max n ue' A' F R' [].
Proof.
  intros Hmax Hd (h & Hh & Ef & Es & Ea).
  destruct (dl_process _ _ _ _ _ _ _ p Hd) as [Hp _]; [set_solver|].
  destruct (placed_waits _ _ _ _ _ (dir_placed _ _ _ _ _ _ _ _ Hd) p) as (r & Hr & Hrange); [set_solver|].
  rewrite dl_view_lookup, Hh in Hr. injection Hr as Hw Hr.
  destruct (expects_found frame slot h Ef Es) as [Ep Eq].
  destruct (dir_heads _ _ _ _ Hd) as (_ & Eh & _). cbn [first] in Eh.
  unfold harq_bit, find_harq. cbn [find_harq_loop]. rewrite Eh, (proj2 (Z.ltb_ge p 0)) by lia.
  rewrite (proj2 (zget_ok _ _ h)), !res_bind_unfold by (split; [lia|done]). rewrite Ep, Eq, res_ret_bind.
  rewrite (proj2 (zget_ok _ _ h)), !res_bind_unfold by (split; [lia|done]).
  rewrite dev_assert_ok, res_bind_unfold, Eh by done.
  destruct (dir_take_feedback _ _ _ _ p Hd) as (f & -> & Hd1). rewrite res_bind_unfold.
  unfold answered. rewrite Hh. destruct b; cbn [orb].
  - destruct (handle_dl_ack_plain max n (set_dl ue (with_feedback (dl ue) f)) A F R [] p h)
      as (ue' & -> & Hd' & _ & Hps); [exact Hd1|exact Hh|done|].
    rewrite res_bind_unfold. eexists _, _, _. split; [done|]. rewrite Hps. by split_and!.
  - destruct (handle_dl_nack max n (set_dl ue (with_feedback (dl ue) f)) A F R [] p h)
      as (ue' & -> & _ & _ & Hcase); [done|exact Hd1|exact Hh|lia|]. rewrite res_bind_unfold.
    destruct (round h =? max - 1); destruct Hcase as (Hd' & _ & Hps); eexists _, _, _;
      (split; [done|]); rewrite Hps; by split.
Qed.

(** The bits of a report are the answers for the processes that were sent first. *)
Lemma harq_bits_exact max n frame slot : max <= 255 ->
  forall bits F1 F2 ue A R, length F1 = length bits ->
  dl_ok max n ue A (F1 ++ F2) R [] ->
  Forall (expects frame slot (harq_processes ue)) F1 ->
  exists ue' A' R', harq_bits frame slot ue bits max = Ok ue' /\
    foldl (answered max) (A, R, harq_processes ue) (zip F1 bits) = (A', R', harq_processes ue') /\
    dl_ok max n ue' A' F2 R' [].
Proof.
  intros Hmax. induction bits as [|b bits IH]; intros F1 F2 ue A R Hlen Hd Hexp.
  { destruct F1; [|done]. exists ue, A, R. done. }
  destruct F1 as [|p F1]; [done|]. apply Forall_cons in Hexp as [Hp Hexp]. cbn [app] in Hd.
  destruct (harq_bit_exact max frame slot ue n A (F1 ++ F2) R p b Hmax Hd Hp)
    as (ue1 & A1 & R1 & E & Ea & Hd1).
  cbn [harq_bits zip zip_with foldl]. rewrite E, res_bind_unfold, Ea.
  apply (IH F1 F2 ue1 A1 R1); try done; [by injection Hlen|].
  apply Forall_forall. intros q Hq. rewrite Forall_forall in Hexp. specialize (Hexp q Hq).
  pose proof (so_fits _ _ _ _ (dir_lists _ _ _ _ _ _ _ _ Hd)) as (_ & HF & _).
  assert (Hqp : Z.to_nat p <> Z.to_nat q).
  { pose proof (fits_first _ _ _ HF). pose proof (fits_range _ _ HF q) as Hr.
    assert (p <> q) by (intros ->; destruct HF as [[Hn _]%NoDup_cons _]; set_solver).
    specialize (Hr ltac:(set_solver)). lia. }
  destruct Hexp as (h & Hh & Hrest). exists h. split; [|done]. rewrite <- Hh.
  unfold answered in Ea. destruct (harq_processes ue !! Z.to_nat p) as [hp|]; [|by injection Ea as _ _ ->].
  destruct (b || _); injection Ea as _ _ <-; by apply list_lookup_insert_ne.
Qed.

(** ** Transmissions of the downlink *)

Lemma count_round_ok rounds r : length rounds = 8%nat -> 0 <= r < 8 ->
  exists rounds', count_round rounds r = Ok rounds' /\ length rounds' = 8%nat.
Proof.
  intros Hl Hr. unfold count_round.
  destruct (lookup_lt_is_Some_2 rounds (Z.to_nat r)) as [v Hv]; [lia|].
  rewrite (proj2 (zget_ok _ _ v)), res_bind_unfold by (split; [lia|done]).
  rewrite zset_ok by (unfold zlen; lia). eexists. split; [done|]. by rewrite length_insert.
Qed.

(** A transmission that the scheduler can ask for: with a process of its choice among
    the free ones, or with the first process of the list of the free ones, or with the
    first one that waits for a retransmission, which keeps its size. *)
Definition dl_permitted (ue : NR_UE_info_t) (sp : NR_sched_pdsch_t) : Prop :=
  (dl_harq_pid sp < 0 /\ 0 <= head (available (dl ue))) \/
  (0 <= dl_harq_pid sp /\ dl_harq_pid sp = head (available (dl ue))) \/
  (0 <= dl_harq_pid sp /\ dl_harq_pid sp = head (retrans (dl ue)) /\
   exists h, harq_processes ue !! Z.to_nat (dl_harq_pid sp) = Some h /\
     tb_size h = pdsch_tb_size sp).

Lemma dl_view_free ps p : free_at (map dl_view ps) p ->
  exists h, ps !! Z.to_nat p = Some h /\ is_waiting h = false /\ round h = 0.
Proof.
  unfold free_at. rewrite dl_view_lookup. destruct (ps !! Z.to_nat p) as [h|]; [|done].
  intros [= Hw Hr]. by exists h.
Qed.

Lemma ul_view_free ps p : free_at (map ul_view ps) p ->
  exists h, ps !! Z.to_nat p = Some h /\ ul_is_waiting h = false /\ ul_round h = 0.
Proof.
  unfold free_at. rewrite ul_view_lookup. destruct (ps !! Z.to_nat p) as [h|]; [|done].
  intros [= Hw Hr]. by exists h.
Qed.

(** The process leaves its list. *)
Lemma dl_selected maxd n ue A F R sp : dl_ok maxd n ue A F R [] -> dl_permitted ue sp ->
  exists ue' A' R' p h,
    select_dl_harq ue sp = Ok (ue', p) /\
    dl_ok maxd n ue' A' F R' [p] /\ rest_of_dl ue' = rest_of_dl ue /\
    dl_rounds ue' = dl_rounds ue /\
    harq_processes ue' !! Z.to_nat p = Some h /\ is_waiting h = false /\
    (round h = 0 \/ (0 < round h < maxd /\ tb_size h = pdsch_tb_size sp)).
Proof.
  intros Hd Hsel. unfold select_dl_harq.
  destruct Hsel as [[Hneg Hh]|[(Hpos & Epid)|(Hpos & Epid & h & Hh & Ht)]].
  - rewrite (proj2 (Z.ltb_lt _ 0)) by done.
    destruct (dir_first_free _ _ _ _ _ Hd Hh eq_refl) as (A' & -> & Hfr).
    apply dl_view_free in Hfr as (h & Hlk & Hw & Hro).
    rewrite dev_assert_ok, res_bind_unfold by (apply Z.geb_le; lia).
    destruct (dir_take_available _ _ _ _ _ Hd) as (a & -> & _ & Hd').
    rewrite res_bind_unfold. do 5 eexists. split; [done|]. split; [exact Hd'|].
    split_and!; try done. by left.
  - rewrite (proj2 (Z.ltb_ge _ 0)) by done.
    destruct (dir_first_free _ _ _ _ _ Hd Hpos Epid) as (A' & -> & Hfr).
    apply dl_view_free in Hfr as (h & Hlk & Hw & Hro).
    rewrite (proj2 (zget_ok _ _ h)), res_bind_unfold, Hro, Z.eqb_refl by (split; [lia|done]).
    destruct (dir_take_available _ _ _ _ _ Hd) as (a & _ & -> & Hd').
    rewrite res_bind_unfold. do 5 eexists. split; [done|]. split; [exact Hd'|].
    split_and!; try done. by left.
  - rewrite (proj2 (Z.ltb_ge _ 0)) by done.
    destruct (dir_first_failed _ _ _ _ _ Hd Hpos Epid) as (R' & -> & r & Hfr & Hr).
    rewrite dl_view_lookup, Hh in Hfr. injection Hfr as Hw Hro.
    rewrite (proj2 (zget_ok _ _ h)), res_bind_unfold by (split; [lia|done]).
    rewrite (proj2 (Z.eqb_neq _ 0)) by lia.
    destruct (dir_take_retrans _ _ _ _ _ Hd) as (rl & -> & Hd').
    rewrite res_bind_unfold. do 5 eexists. split; [done|]. split; [exact Hd'|].
    split_and!; try done. right. lia.
Qed.

(** It joins another one. *)
Lemma dl_joins maxd n ue A F R p h sp : dl_ok maxd n ue A F R [p] ->
  harq_processes ue !! Z.to_nat p = Some h -> is_waiting h = false -> 0 <= round h < maxd ->
  exists ue' A' F' h',
    match pucch sp with
    | None => finish_nr_dl_harq ue p
    | Some (fr, sl) =>
        f ← add_tail_nr_list (feedback (dl ue)) p;
        upd_harq (set_dl ue (with_feedback (dl ue) f)) p
          (fun h => mk_harq true (ndi h) (round h) (u16 fr) (u16 sl) (tb_size h) (action h))
    end = Ok ue' /\ dl_ok maxd n ue' A' F' R [] /\ rest_of_dl ue' = rest_of_dl ue /\
    dl_rounds ue' = dl_rounds ue /\ harq_processes ue' !! Z.to_nat p = Some h' /\
    (round h' = 0 \/ (round h' = round h /\ tb_size h' = tb_size h)).
Proof.
  intros Hd Hh Hw Hr. destruct (dl_process _ _ _ _ _ _ _ p Hd) as [Hp _]; [set_solver|].
  destruct (pucch sp) as [[fr sl]|].
  - destruct (dir_put_feedback _ _ _ _ p Hd) as (f & -> & Hd'). rewrite res_bind_unfold.
    rewrite (upd_harq_ok _ _ h) by (done || lia). specialize (Hd' (round h) Hr).
    do 4 eexists. split; [done|]. split; [|split; [done|]].
    + unfold dl_ok. cbn [dl harq_processes set_processes set_dl]. rewrite dl_view_insert. exact Hd'.
    + split; [done|]. split; [by apply (insert_processes _ _ h)|]. by right.
  - destruct (finish_dl_ok maxd n ue A F R [] p h Hd Hh Hw) as (ue' & -> & Hd' & E1 & E2 & _ & E4).
    do 4 eexists. split; [done|]. split; [exact Hd'|]. split; [done|]. split; [done|].
    split; [rewrite E4; by apply (insert_processes _ _ h)|]. by left.
Qed.

(** [post_process_dlsch] returns, and the process waits or is free. *)
Lemma post_process_dlsch_ok maxd maxu ue nd nu A F R Au Fu Ru sp : 0 < maxd <= 8 ->
  ue_inv maxd maxu ue nd nu A F R Au Fu Ru -> dl_permitted ue sp ->
  exists ue' A' F' R', post_process_dlsch ue sp = Ok ue' /\
    ue_inv maxd maxu ue' nd nu A' F' R' Au Fu Ru /\ rest_of_dl ue' = rest_of_dl ue.
Proof.
  intros Hmax [Hd Hu Hsd Hsu] Hsel. unfold post_process_dlsch, post_process_dlsch_lists.
  destruct (dl_selected _ _ _ _ _ _ _ Hd Hsel)
    as (ue1 & A1 & R1 & p & h & -> & Hd1 & Er1 & Es1 & Hh & Hw & Hround).
  destruct (dl_process _ _ _ _ _ _ _ p Hd1) as [Hp _]; [set_solver|].
  rewrite res_bind_unfold. rewrite (proj2 (zget_ok _ _ h)), res_bind_unfold by (split; [lia|done]).
  rewrite dev_assert_ok, res_bind_unfold by (by rewrite Hw).
  destruct (dl_joins maxd nd ue1 A1 F R1 p h sp Hd1 Hh Hw)
    as (ue2 & A2 & F2 & h2 & -> & Hd2 & Er2 & Es2 & Hh2 & Hround2); [lia|].
  rewrite res_bind_unfold. rewrite (proj2 (zget_ok _ _ h2)), res_bind_unfold by (split; [lia|done]).
  destruct (count_round_ok (dl_rounds ue2) (round h2)) as (rs & -> & Hrs); [by rewrite Es2, Es1|lia|].
  rewrite !res_bind_unfold. unfold post_process_dlsch_save.
  rewrite (proj2 (zget_ok _ _ h2)), res_bind_unfold by (split; [lia|done]).
  assert (Er : rest_of_dl ue2 = rest_of_dl ue) by congruence.
  assert (Hinv : forall ue3, dl ue3 = dl ue2 -> rest_of_dl ue3 = rest_of_dl ue2 -> dl_rounds ue3 = rs ->
    map dl_view (harq_processes ue3) = map dl_view (harq_processes ue2) ->
    ue_inv maxd maxu ue3 nd nu A2 F2 R1 Au Fu Ru).
  { intros ue3 E1 E2 E3 E4. rewrite Er in E2.
    split; [unfold dl_ok; by rewrite E1, E4|by apply (ul_kept _ _ ue)|by rewrite E3|
            by rewrite (ul_rounds_kept ue)]. }
  destruct (Z.eqb_spec (round h2) 0) as [H0|H0].
  - cbn [negb]. rewrite (upd_harq_ok _ _ h2) by (done || lia).
    do 4 eexists. split; [done|]. split; [|done]. apply Hinv; try done.
    cbn [harq_processes set_processes set_dl_stats]. rewrite dl_view_insert. 
    apply list_insert_id. rewrite dl_view_lookup, Hh2. done.
  - cbn [negb]. destruct Hround2 as [|[Ec Et]]; [done|]. destruct Hround as [|[_ Ht]]; [lia|].
    rewrite Et, Ht, Z.eqb_refl. cbn [dev_assert].
    rewrite res_ret_bind. do 4 eexists. split; [done|]. split; [|done]. by apply Hinv.
Qed.

(** ** Uplink *)

Definition ul_permitted (ue : NR_UE_info_t) (sp : NR_sched_pusch_t) : Prop :=
  (ul_harq_pid sp < 0 /\ 0 <= head (available (ul ue))) \/
  (0 <= ul_harq_pid sp /\ (ul_harq_pid sp = head (available (ul ue)) \/
                           ul_harq_pid sp = head (retrans (ul ue)))).

Lemma ul_selected maxu n ue A F R sp : ul_ok maxu n ue A F R [] -> ul_permitted ue sp ->
  exists ue' A' R' p h, select_ul_harq ue sp = Ok (ue', p) /\
    ul_ok maxu n ue' A' F R' [p] /\ rest_of_ul ue' = rest_of_ul ue /\
    ul_rounds ue' = ul_rounds ue /\
    ul_harq_processes ue' !! Z.to_nat p = Some h /\ ul_is_waiting h = false /\
    (ul_round h = 0 \/ 0 < ul_round h < maxu).
Proof.
  intros Hd Hsel. unfold select_ul_harq.
  destruct Hsel as [[Hneg Hh]|(Hpos & [Epid|Epid])].
  - rewrite (proj2 (Z.ltb_lt _ 0)) by done.
    destruct (dir_first_free _ _ _ _ _ Hd Hh eq_refl) as (A' & -> & Hfr).
    apply ul_view_free in Hfr as (h & Hlk & Hw & Hro).
    rewrite dev_assert_ok, res_bind_unfold by (apply Z.geb_le; lia).
    destruct (dir_take_available _ _ _ _ _ Hd) as (a & -> & _ & Hd').
    rewrite res_bind_unfold. do 5 eexists. split; [done|]. split; [exact Hd'|].
    split_and!; try done. by left.
  - rewrite (proj2 (Z.ltb_ge _ 0)) by done.
    destruct (dir_first_free _ _ _ _ _ Hd Hpos Epid) as (A' & -> & Hfr).
    apply ul_view_free in Hfr as (h & Hlk & Hw & Hro).
    rewrite (proj2 (zget_ok _ _ h)), res_bind_unfold, Hro, Z.eqb_refl by (split; [lia|done]).
    destruct (dir_take_available _ _ _ _ _ Hd) as (a & _ & -> & Hd').
    rewrite res_bind_unfold. do 5 eexists. split; [done|]. split; [exact Hd'|].
    split_and!; try done. by left.
  - rewrite (proj2 (Z.ltb_ge _ 0)) by done.
    destruct (dir_first_failed _ _ _ _ _ Hd Hpos Epid) as (R' & -> & r & Hfr & Hr).
    rewrite ul_view_lookup in Hfr. destruct (ul_harq_processes ue !! _) as [h|] eqn:Hh; [|done].
    injection Hfr as Hw Hro.
    rewrite (proj2 (zget_ok _ _ h)), res_bind_unfold by (split; [lia|done]).
    rewrite (proj2 (Z.eqb_neq _ 0)) by lia.
    destruct (dir_take_retrans _ _ _ _ _ Hd) as (rl & -> & Hd').
    rewrite res_bind_unfold. do 5 eexists. split; [done|]. split; [exact Hd'|].
    split_and!; try done. right. lia.
Qed.

Lemma ul_joins maxu n ue A F R p h disable sp : ul_ok maxu n ue A F R [p] ->
  ul_harq_processes ue !! Z.to_nat p = Some h -> ul_is_waiting h = false -> 0 <= ul_round h < maxu ->
  exists ue' A' F' h',
    (if disable : bool then finish_nr_ul_harq ue p
     else
       f ← add_tail_nr_list (feedback (ul ue)) p;
       upd_ul_harq (set_ul ue (with_feedback (ul ue) f)) p
         (fun h => mk_ul_harq true (ul_ndi h) (ul_round h) (u16 (pusch_slot sp)) (ul_tb_size h)))
    = Ok ue' /\ ul_ok maxu n ue' A' F' R [] /\ rest_of_ul ue' = rest_of_ul ue /\
    ul_rounds ue' = ul_rounds ue /\ ul_harq_processes ue' !! Z.to_nat p = Some h' /\
    0 <= ul_round h' < maxu.
Proof.
  intros Hd Hh Hw Hr. destruct (ul_process _ _ _ _ _ _ _ p Hd) as [Hp _]; [set_solver|].
  destruct disable.
  - destruct (finish_ul_ok maxu n ue A F R [] p h Hd Hh Hw) as (ue' & -> & Hd' & E1 & E2 & E4).
    injection E2 as E2 _ _. do 4 eexists. split; [done|]. split; [exact Hd'|]. split; [done|].
    split; [done|]. split; [rewrite E4; by apply (insert_processes _ _ h)|]. simpl. lia.
  - destruct (dir_put_feedback _ _ _ _ p Hd) as (f & -> & Hd'). rewrite res_bind_unfold.
    rewrite (upd_ul_harq_ok _ _ h) by (done || lia). specialize (Hd' (ul_round h) Hr).
    do 4 eexists. split; [done|]. split; [|split; [done|]].
    + unfold ul_ok. cbn [ul ul_harq_processes set_ul_processes set_ul]. rewrite ul_view_insert. exact Hd'.
    + split; [done|]. split; [by apply (insert_processes _ _ h)|]. done.
Qed.

(** [post_process_ulsch] returns, and the process waits or is free. *)
Lemma post_process_ulsch_ok maxd maxu ue nd nu A F R Au Fu Ru disable sp : 0 < maxu <= 8 ->
  ue_inv maxd maxu ue nd nu A F R Au Fu Ru -> ul_permitted ue sp ->
  exists ue' Au' Fu' Ru', post_process_ulsch disable ue sp maxu = Ok ue' /\
    ue_inv maxd maxu ue' nd nu A F R Au' Fu' Ru' /\ rest_of_ul ue' = rest_of_ul ue.
Proof.
  intros Hmax [Hd Hu Hsd Hsu] Hsel. unfold post_process_ulsch.
  destruct (ul_selected _ _ _ _ _ _ _ Hu Hsel)
    as (ue1 & A1 & R1 & p & h & -> & Hu1 & Er1 & Es1 & Hh & Hw & Hround).
  destruct (ul_process _ _ _ _ _ _ _ p Hu1) as [Hp _]; [set_solver|].
  rewrite res_bind_unfold. rewrite (proj2 (zget_ok _ _ h)), res_bind_unfold by (split; [lia|done]).
  rewrite dev_assert_ok, res_bind_unfold by (by rewrite Hw).
  destruct (ul_joins maxu nu ue1 A1 Fu R1 p h disable sp Hu1 Hh Hw)
    as (ue2 & A2 & F2 & h2 & -> & Hu2 & Er2 & Es2 & Hh2 & Hround2); [lia|].
  rewrite res_bind_unfold. rewrite (proj2 (zget_ok _ _ h2)), res_bind_unfold by (split; [lia|done]).
  rewrite dev_assert_ok, res_bind_unfold by (apply Z.ltb_lt; lia).
  destruct (count_round_ok (ul_rounds ue2) (ul_round h2)) as (rs & -> & Hrs); [by rewrite Es2, Es1|lia|].
  rewrite res_bind_unfold. cbv zeta. rewrite (upd_ul_harq_ok _ _ h2), res_bind_unfold by (done || lia).
  set (h3 := mk_ul_harq _ _ _ _ _). set (ue3 := set_ul_processes _ _).
  rewrite (proj2 (zget_ok _ _ h3)), res_bind_unfold
    by (split; [lia|by apply (insert_processes _ _ h2)]).
  assert (Er : rest_of_ul ue3 = rest_of_ul ue) by (transitivity (rest_of_ul ue2); [done|congruence]).
  assert (Hu3 : ul_ok maxu nu ue3 A2 F2 R1 []).
  { unfold ul_ok. cbn [ul ul_harq_processes ue3 set_ul_processes set_ul_stats].
    rewrite ul_view_insert, list_insert_id; [exact Hu2|]. by rewrite ul_view_lookup, Hh2. }
  assert (Hi : ue_inv maxd maxu ue3 nd nu A F R A2 F2 R1).
  { split; [by apply (dl_kept _ _ ue)|done|by rewrite (dl_rounds_kept ue)|done]. }
  exists (if ul_round h3 =? 0 then
    set_ul_stats ue3 (sched_ul_bytes ue3 + pusch_tb_size sp) (ul_rounds ue3) (ul_errors ue3) else ue3), A2, F2, R1.
  destruct (ul_round h3 =? 0); (split; [done|]); (split; [|done]); [|done].
  destruct Hi as [I1 I2 I3 I4]. split; [exact I1|exact I2|exact I3|exact I4].
Qed.

(** ** Reception of the uplink *)

(** The process at the front of the list has not been received, or is skipped. *)
Lemma skip_step maxd maxu ue nd nu A F R Au Fu Ru p (g : NR_UE_ul_harq_t -> NR_UE_ul_harq_t) :
  maxu <= 255 -> ue_inv maxd maxu ue nd nu A F R Au (p :: Fu) Ru ->
  (forall h, ul_view (g h) = (false, ul_round h)) ->
  exists f ue1 ue' Au' Ru', remove_front_nr_list (feedback (ul ue)) = Ok f /\
    upd_ul_harq (set_ul ue (with_feedback (ul ue) f)) p g = Ok ue1 /\
    retry_nr_ul_harq ue1 p maxu = Ok ue' /\
    ue_inv maxd maxu ue' nd nu A F R Au' Fu Ru' /\ rest_of_ul ue' = rest_of_ul ue.
Proof.
  intros Hmax [Hd Hu Hsd Hsu] Hg.
  destruct (ul_process _ _ _ _ _ _ _ p Hu) as [Hp [h Hh]]; [set_solver|].
  destruct (placed_waits _ _ _ _ _ (dir_placed _ _ _ _ _ _ _ _ Hu) p) as (r & Hr & Hrange); [set_solver|].
  rewrite ul_view_lookup, Hh in Hr. injection Hr as Hw Hr.
  destruct (dir_take_feedback _ _ _ _ p Hu) as (f & Hf & Hu1). exists f.
  pose proof (dir_change _ _ _ _ p (ul_view (g h)) Hu1) as Hu2. rewrite <- ul_view_insert in Hu2.
  rewrite (upd_ul_harq_ok _ _ h) by (done || lia). set (ue1 := set_ul_processes _ _).
  pose proof (Hg h) as Hgh. unfold ul_view in Hgh. injection Hgh as Hgw Hgr.
  destruct (retry_ul_ok maxu nu ue1 Au Fu Ru [] p (g h)) as (ue' & E & Er & Es & Hcase);
    [done|exact Hu2|by apply (insert_processes _ _ h)|done|lia|].
  assert (Hrest : rest_of_ul ue' = rest_of_ul ue) by (by rewrite Er).
  destruct (ul_round (g h) =? maxu - 1); destruct Hcase as [Hu' _]; exists ue1, ue'.
  - exists (Au ++ [p]), Ru. split_and!; try done. 
    split; [by apply (dl_kept _ _ ue)|done|by rewrite (dl_rounds_kept ue)|by rewrite Es].
  - exists Au, (Ru ++ [p]). split_and!; try done. 
    split; [by apply (dl_kept _ _ ue)|done|by rewrite (dl_rounds_kept ue)|by rewrite Es].
Qed.

Lemma skip_loop_ok maxd maxu nd nu A F R id : maxu <= 255 ->
  forall Fu fuel ue Au Ru, (length Fu < fuel)%nat -> ue_inv maxd maxu ue nd nu A F R Au Fu Ru ->
  exists ue' Au' Fu' Ru' o, skip_ul_harq fuel ue id maxu = Ok (ue', o) /\
    ue_inv maxd maxu ue' nd nu A F R Au' Fu' Ru' /\ rest_of_ul ue' = rest_of_ul ue /\
    match o with None => True | Some p => exists Fu'', Fu' = p :: Fu'' end.
Proof.
  intros Hmax. induction Fu as [|p Fu IH]; intros fuel ue Au Ru Hfuel Hi;
    (destruct fuel as [|fuel]; [simpl in *; lia|]); cbn [skip_ul_harq];
    destruct (dir_heads _ _ _ _ (inv_ul _ _ _ _ _ _ _ _ _ _ _ Hi)) as (_ & -> & _); cbn [first].
  { rewrite orb_true_r. exists ue, Au, [], Ru, None. done. }
  destruct (ul_process _ _ _ _ _ _ _ p (inv_ul _ _ _ _ _ _ _ _ _ _ _ Hi)) as [Hp _]; [set_solver|].
  rewrite (proj2 (Z.ltb_ge p 0)), orb_false_r by lia. destruct (id =? p); cbn [negb].
  { exists ue, Au, (p :: Fu), Ru, (Some p). split_and!; try done. by exists Fu. }
  destruct (skip_step _ _ _ _ _ _ _ _ _ _ _ _ (fun h => mk_ul_harq false (ul_ndi h) (ul_round h)
    (ul_feedback_slot h) (ul_tb_size h)) Hmax Hi) as (f & ue1 & ue2 & A1 & R1 & -> & E1 & E2 & Hi1 & Er);
    [done|].
  rewrite res_bind_unfold, E1, res_bind_unfold, E2, res_bind_unfold.
  destruct (IH fuel ue2 A1 R1) as (ue3 & A3 & F3 & R3 & o & -> & Hi3 & Er3 & Ho); [simpl in *; lia|done|].
  exists ue3, A3, F3, R3, o. split_and!; try done. by rewrite Er3.
Qed.

(** [handle_nr_ul_harq] returns, whatever process the physical layer names. *)
Lemma handle_ul_ok maxd maxu ue nd nu A F R Au Fu Ru disable id status : maxu <= 255 ->
  ue_inv maxd maxu ue nd nu A F R Au Fu Ru ->
  exists ue' Au' Fu' Ru', handle_nr_ul_harq disable ue id status maxu = Ok ue' /\
    ue_inv maxd maxu ue' nd nu A F R Au' Fu' Ru' /\ rest_of_ul ue' = rest_of_ul ue.
Proof.
  intros Hmax Hi. unfold handle_nr_ul_harq. destruct disable; [by exists ue, Au, Fu, Ru|].
  destruct (skip_loop_ok maxd maxu nd nu A F R id Hmax Fu (S (length (next (feedback (ul ue))))) ue Au Ru)
    as (ue1 & A1 & F1 & R1 & o & -> & Hi1 & Er1 & Ho); [|done|].
  { pose proof (dir_lists _ _ _ _ _ _ _ _ (inv_ul _ _ _ _ _ _ _ _ _ _ _ Hi)) as Hs.
    destruct (so_fits _ _ _ _ Hs) as (_ & HF & _). rewrite (so_feedback _ _ _ _ _ _ Hs).
    cbn [encode next]. rewrite length_table. apply fits_length in HF. lia. }
  rewrite res_bind_unfold. destruct o as [p|]; [|by exists ue1, A1, F1, R1].
  destruct Ho as [F2 ->]. pose proof (inv_ul _ _ _ _ _ _ _ _ _ _ _ Hi1) as Hu1.
  destruct (ul_process _ _ _ _ _ _ _ p Hu1) as [Hp [h Hh]]; [set_solver|].
  destruct (placed_waits _ _ _ _ _ (dir_placed _ _ _ _ _ _ _ _ Hu1) p) as (r & Hr & Hrange); [set_solver|].
  rewrite ul_view_lookup, Hh in Hr. injection Hr as Hw Hr.
  set (g := fun h => mk_ul_harq false (ul_ndi h) (ul_round h) (u16 (-1)) (ul_tb_size h)).
  destruct status; cbn [negb].
  - destruct (skip_step _ _ _ _ _ _ _ _ _ _ _ _ g Hmax Hi1)
      as (f & ue2 & ue3 & A3 & R3 & -> & E1 & E2 & Hi3 & Er3); [done|].
    rewrite res_bind_unfold. cbv zeta.
    rewrite (proj2 (zget_ok _ _ h)), res_bind_unfold by (split; [lia|done]).
    rewrite dev_assert_ok, res_bind_unfold, E1, res_bind_unfold, E2 by done.
    exists ue3, A3, F2, R3. split_and!; try done. by rewrite Er3.
  - destruct (dir_take_feedback _ _ _ _ p Hu1) as (f & -> & Hu2). rewrite res_bind_unfold. cbv zeta.
    rewrite (proj2 (zget_ok _ _ h)), res_bind_unfold by (split; [lia|done]).
    rewrite dev_assert_ok, res_bind_unfold by done.
    rewrite (upd_ul_harq_ok _ _ h), res_bind_unfold by (done || lia).
    pose proof (dir_change _ _ _ _ p (ul_view (g h)) Hu2) as Hu3. rewrite <- ul_view_insert in Hu3.
    set (ue2 := set_ul_processes _ _).
    destruct (finish_ul_ok maxu nu ue2 A1 F2 R1 [] p (g h)) as (ue3 & -> & Hu4 & E1 & E2 & E3);
      [exact Hu3|by apply (insert_processes _ _ h)|done|].
    assert (Er : rest_of_ul ue3 = rest_of_ul ue1) by (rewrite E1; done). injection E2 as E2 _ _.
    exists ue3, (A1 ++ [p]), F2, R1. split; [done|]. split; [|by rewrite Er].
    destruct Hi1 as [I1 I2 I3 I4].
    split; [by apply (dl_kept _ _ ue1)|done|by rewrite (dl_rounds_kept ue1)|by rewrite E2].
Qed.

(** ** Reset *)

Lemma upd_prefix {A} (f : A -> A) (l : list A) (i : nat) x : l !! i = Some x ->
  <[i := f x]> (map f (take i l) ++ drop i l) = map f (take (S i) l) ++ drop (S i) l.
Proof.
  intros Hx. rewrite (take_S_r _ _ x), (drop_S _ x i), map_app, <- app_assoc by done. simpl.
  apply lookup_lt_Some in Hx.
  rewrite insert_app_r_alt by (rewrite length_map, length_take; lia).
  rewrite length_map, length_take. by replace (i - i `min` length l)%nat with 0%nat by lia.
Qed.

Lemma lookup_prefix {A} (f : A -> A) (l : list A) (i : nat) x : l !! i = Some x ->
  (map f (take i l) ++ drop i l) !! i = Some x.
Proof.
  intros Hx. pose proof (lookup_lt_Some _ _ _ Hx).
  rewrite lookup_app_r by (rewrite length_map, length_take; lia).
  rewrite length_map, length_take, lookup_drop, <- Hx. f_equal. lia.
Qed.

Lemma reset_loop_dl ue : length (harq_processes ue) = 32%nat ->
  res_foldl (fun ue i => upd_harq ue i reset_process) ue (seqZ 0 NR_MAX_HARQ_PROCESSES)
  = Ok (set_processes ue (map reset_process (harq_processes ue))).
Proof.
  intros Hl. set (ps := harq_processes ue).
  destruct (res_foldl_seqZ (fun i u => u = set_processes ue
      (map reset_process (take (Z.to_nat i) ps) ++ drop (Z.to_nat i) ps))
    (fun ue i => upd_harq ue i reset_process) ue 0 NR_MAX_HARQ_PROCESSES) as (u & -> & Hu).
  - done.
  - by destruct ue.
  - intros i u Hi ->. unfold NR_MAX_HARQ_PROCESSES in Hi.
    destruct (lookup_lt_is_Some_2 ps (Z.to_nat i)) as [h Hh]; [subst ps; lia|].
    rewrite (upd_harq_ok _ _ h) by (lia || by apply lookup_prefix).
    eexists. split; [done|]. cbn [harq_processes set_processes].
    rewrite upd_prefix by done. by replace (Z.to_nat (i + 1)) with (S (Z.to_nat i)) by lia.
  - rewrite Hu. do 2 f_equal. change (Z.to_nat (0 + NR_MAX_HARQ_PROCESSES)) with 32%nat.
    rewrite take_ge, drop_ge, app_nil_r by (subst ps; lia). done.
Qed.

Lemma reset_loop_ul ue : length (ul_harq_processes ue) = 32%nat ->
  res_foldl (fun ue i => upd_ul_harq ue i reset_ul_process) ue (seqZ 0 NR_MAX_HARQ_PROCESSES)
  = Ok (set_ul_processes ue (map reset_ul_process (ul_harq_processes ue))).
Proof.
  intros Hl. set (ps := ul_harq_processes ue).
  destruct (res_foldl_seqZ (fun i u => u = set_ul_processes ue
      (map reset_ul_process (take (Z.to_nat i) ps) ++ drop (Z.to_nat i) ps))
    (fun ue i => upd_ul_harq ue i reset_ul_process) ue 0 NR_MAX_HARQ_PROCESSES) as (u & -> & Hu).
  - done.
  - by destruct ue.
  - intros i u Hi ->. unfold NR_MAX_HARQ_PROCESSES in Hi.
    destruct (lookup_lt_is_Some_2 ps (Z.to_nat i)) as [h Hh]; [subst ps; lia|].
    rewrite (upd_ul_harq_ok _ _ h) by (lia || by apply lookup_prefix).
    eexists. split; [done|]. cbn [ul_harq_processes set_ul_processes].
    rewrite upd_prefix by done. by replace (Z.to_nat (i + 1)) with (S (Z.to_nat i)) by lia.
  - rewrite Hu. do 2 f_equal. change (Z.to_nat (0 + NR_MAX_HARQ_PROCESSES)) with 32%nat.
    rewrite take_ge, drop_ge, app_nil_r by (subst ps; lia). done.
Qed.

(** A direction all of whose processes are free. *)
Lemma direction_all_free max n l ps A : sorted_out n l A [] [] [] -> 0 < n <= NR_MAX_HARQ_PROCESSES ->
  length ps = 32%nat -> Forall (fun v => v = (false, 0)) ps -> direction_ok max n l ps A [] [] [].
Proof.
  intros Hs Hn Hl Hps.
  assert (Hfree : forall p, 0 <= p < NR_MAX_HARQ_PROCESSES -> free_at ps p).
  { intros p Hp. unfold free_at. unfold NR_MAX_HARQ_PROCESSES in Hp.
    destruct (lookup_lt_is_Some_2 ps (Z.to_nat p)) as [v Hv]; [lia|]. rewrite Hv. f_equal.
    by apply (Forall_lookup_1 _ _ _ _ Hps Hv). }
  split; try done.
  - split; [|set_solver|set_solver]. intros p Hp. apply Hfree.
    pose proof (so_range _ _ _ _ p Hs). set_solver by lia.
  - intros p Hp. apply Hfree. lia.
Qed.

(** After a reset every process is free. *)
Lemma reset_dl_ok maxd n ue A F R : dl_ok maxd n ue A F R [] ->
  exists ue', reset_dl_harq_list ue = Ok ue' /\ dl_ok maxd n ue' (A ++ F ++ R) [] [] [] /\
    rest_of_dl ue' = rest_of_dl ue /\ dl_rounds ue' = dl_rounds ue.
Proof.
  intros [Hs Hn Hl Hpl Hfr]. unfold reset_dl_harq_list. rewrite length_map in Hl.
  destruct (drain_lists_ok _ _ _ _ _ Hs) as (l & -> & Hs').
  rewrite res_bind_unfold, res_ret_bind, reset_loop_dl by done. eexists. split; [done|]. split; [|done].
  apply direction_all_free; [exact Hs'|done|rewrite length_map; cbn; by rewrite length_map|].
  apply Forall_map, Forall_map, Forall_forall. done.
Qed.

Lemma reset_ul_ok maxu n ue A F R : ul_ok maxu n ue A F R [] ->
  exists ue', reset_ul_harq_list ue = Ok ue' /\ ul_ok maxu n ue' (A ++ F ++ R) [] [] [] /\
    rest_of_ul ue' = rest_of_ul ue /\ ul_rounds ue' = ul_rounds ue.
Proof.
  intros [Hs Hn Hl Hpl Hfr]. unfold reset_ul_harq_list. rewrite length_map in Hl.
  destruct (drain_lists_ok _ _ _ _ _ Hs) as (l & -> & Hs').
  rewrite res_bind_unfold, res_ret_bind, reset_loop_ul by done. eexists. split; [done|]. split; [|done].
  apply direction_all_free; [exact Hs'|done|rewrite length_map; cbn; by rewrite length_map|].
  apply Forall_map, Forall_map, Forall_forall. done.
Qed.

(** ** Runs *)

(** The calls that change the HARQ state of a UE. *)
Inductive event :=
| Configure (cg : option (option NR_ServingCellConfig_t)) (is_RA format_00_10 : bool)
| Reconfigure (cg : option (option NR_ServingCellConfig_t))
| SendDl (sp : NR_sched_pdsch_t)
| Feedback (frame slot : Z) (bits : list bool)
| SendUl (sp : NR_sched_pusch_t)
| ReceiveUl (harq_id : Z) (crc_status : bool)
| Reset.

Section runs.
Context (maxd maxu : Z) (disable_harq : bool).

Definition step (ue : NR_UE_info_t) (e : event) : res NR_UE_info_t :=
  match e with
  | Configure cg ra fmt => configure_harq (set_cell_group ue cg (reconfigCellGroup ue) (sc_info ue)) ra fmt
  | Reconfigure cg => mret (set_cell_group ue (CellGroup ue) cg (sc_info ue))
  | SendDl sp => post_process_dlsch ue sp
  | Feedback frame slot bits => harq_bits frame slot ue bits maxd
  | SendUl sp => post_process_ulsch disable_harq ue sp maxu
  | ReceiveUl id status => handle_nr_ul_harq disable_harq ue id status maxu
  | Reset => ue ← reset_dl_harq_list ue; reset_ul_harq_list ue
  end.

Definition dl_len (ue : NR_UE_info_t) : Z := len (available (dl ue)).
Definition ul_len (ue : NR_UE_info_t) : Z := len (available (ul ue)).

(** What the callers respect: the scheduler picks processes from the fronts of the
    lists, and no configuration takes processes away.  The same holds of the
    configuration that waits for its acknowledgement, which feedback may put into
    effect; feedback is not restricted otherwise, and received blocks not at all. *)
Definition permitted (ue : NR_UE_info_t) (e : event) : Prop :=
  match e with
  | Configure cg ra fmt =>
      let sc := new_sc_info (set_cell_group ue cg (reconfigCellGroup ue) (sc_info ue)) ra in
      (exists m, dl_count sc fmt = Ok m /\ dl_len ue <= m) /\ ul_len ue <= ul_count sc fmt
  | SendDl sp => dl_permitted ue sp
  | Feedback _ _ _ => reconfig_fits ue (dl_len ue) (ul_len ue)
  | SendUl sp => ul_permitted ue sp
  | _ => True
  end.

Inductive reachable : NR_UE_info_t -> Prop :=
| reach_start cg ra fmt ue : configure_harq (new_ue cg) ra fmt = Ok ue -> reachable ue
| reach_step ue e ue' : reachable ue -> permitted ue e -> step ue e = Ok ue' -> reachable ue'.

(** Every process of each direction is in exactly one list. *)
Definition consistent (ue : NR_UE_info_t) : Prop :=
  exists nd nu A F R Au Fu Ru, ue_inv maxd maxu ue nd nu A F R Au Fu Ru.

Hypothesis maxd_range : 0 < maxd <= 8.
Hypothesis maxu_range : 0 < maxu <= 8.

Lemma configured_ok cg ra fmt ue : configure_harq (new_ue cg) ra fmt = Ok ue -> consistent ue.
Proof.
  unfold configure_harq. intros Hc. apply res_bind_ok in Hc as (ue1 & H1 & H2).
  unfold create_dl_harq_list in H1. apply res_bind_ok in H1 as (n & Hn & H1).
  cbn [dl new_ue set_cell_group available feedback retrans] in H1. cbv zeta in H1.
  apply res_bind_ok in H1 as (_ & _ & H1).
  assert (Hm : 0 < limit fmt n <= NR_MAX_HARQ_PROCESSES).
  { apply (dl_count_bound (new_sc_info (new_ue cg) ra) fmt). unfold dl_count.
    unfold new_sc_info. cbn [sc_info set_cell_group new_ue CellGroup] in *. by rewrite Hn. }
  destruct (create_first (limit fmt n)) as (l & El & Hs); [lia|]. rewrite El in H1.
  injection H1 as <-. unfold create_ul_harq_list in H2. cbn [ul set_dl new_ue set_cell_group sc_info] in H2.
  cbv zeta in H2.
  change (limit fmt (get_nrofHARQ_ProcessesForPUSCH ?sc)) with (ul_count sc fmt) in H2.
  set (u := ul_count _ fmt) in H2.
  assert (Hu : 0 < u <= NR_MAX_HARQ_PROCESSES) by apply ul_count_bound.
  destruct (create_first u) as (l' & El' & Hs'); [lia|]. rewrite El' in H2. injection H2 as <-.
  exists (limit fmt n), u, (seqZ 0 (limit fmt n)), [], [], (seqZ 0 u), [], [].
  split; try done; apply direction_all_free; try done; repeat constructor.
Qed.

Lemma event_ok ue e : consistent ue -> permitted ue e ->
  exists ue', step ue e = Ok ue' /\ consistent ue'.
Proof.
  intros (nd & nu & A & F & R & Au & Fu & Ru & Hi) Hp.
  destruct (dir_lens _ _ _ _ (inv_dl _ _ _ _ _ _ _ _ _ _ _ Hi)) as (Eld & _ & _).
  destruct (dir_lens _ _ _ _ (inv_ul _ _ _ _ _ _ _ _ _ _ _ Hi)) as (Elu & _ & _).
  destruct e as [cg ra fmt|cg|sp|frame slot bits|sp|id status|]; cbn [step permitted] in *;
    unfold dl_len, ul_len in *.
  - destruct Hp as [(m & Hm & Hle) Hleu]. rewrite Eld in Hle. rewrite Elu in Hleu. destruct Hi as [I1 I2 I3 I4].
    destruct (configure_ok maxd maxu nd nu (set_cell_group ue cg (reconfigCellGroup ue) (sc_info ue))
      A F R [] Au Fu Ru [] ra fmt m) as (ue' & -> & Hd & Hu & _ & Er); try done.
    exists ue'. split; [done|]. injection Er as _ _ _ _ _ E1 _ E2 _.
    eexists _, _, _, _, _, _, _, _. split; [exact Hd|exact Hu|by rewrite E1|by rewrite E2].
  - eexists. split; [done|]. destruct Hi. exists nd, nu, A, F, R, Au, Fu, Ru. by split.
  - destruct (post_process_dlsch_ok _ _ _ _ _ _ _ _ _ _ _ sp maxd_range Hi Hp)
      as (ue' & A' & F' & R' & -> & Hi' & _). exists ue'. split; [done|]. eexists _, _, _, _, _, _, _, _. exact Hi'.
  - rewrite Eld, Elu in Hp.
    destruct (harq_bits_ok maxd maxu frame slot Fu Ru bits ltac:(lia) ue nd nu A F R Au Hi Hp)
      as (ue' & nd' & nu' & A' & F' & R' & Au' & -> & Hi' & _). exists ue'. split; [done|]. eexists _, _, _, _, _, _, _, _. exact Hi'.
  - destruct (post_process_ulsch_ok _ _ _ _ _ _ _ _ _ _ _ disable_harq sp maxu_range Hi Hp)
      as (ue' & A' & F' & R' & -> & Hi' & _). exists ue'. split; [done|]. eexists _, _, _, _, _, _, _, _. exact Hi'.
  - destruct (handle_ul_ok maxd maxu _ _ _ _ _ _ _ _ _ disable_harq id status ltac:(lia) Hi)
      as (ue' & A' & F' & R' & -> & Hi' & _). exists ue'. split; [done|]. eexists _, _, _, _, _, _, _, _. exact Hi'.
  - destruct Hi as [I1 I2 I3 I4].
    destruct (reset_dl_ok _ _ _ _ _ _ I1) as (ue1 & -> & Hd1 & Er1 & Es1). rewrite res_bind_unfold.
    destruct (reset_ul_ok maxu nu ue1 Au Fu Ru) as (ue2 & -> & Hu2 & Er2 & Es2); [by apply (ul_kept _ _ ue)|].
    exists ue2. split; [done|]. eexists _, _, _, _, _, _, _, _.
    split; [by apply (dl_kept _ _ ue1)|exact Hu2| |]; rewrite ?Es2, ?(dl_rounds_kept ue1 ue2) by done.
    + by rewrite Es1.
    + by rewrite (ul_rounds_kept ue ue1).
Qed.

(** The three lists of each direction, together, are all processes. *)
Lemma consistent_members ue : consistent ue ->
  members (available (dl ue)) ++ members (feedback (dl ue)) ++ members (retrans (dl ue))
    ≡ₚ seqZ 0 (dl_len ue) /\
  members (available (ul ue)) ++ members (feedback (ul ue)) ++ members (retrans (ul ue))
    ≡ₚ seqZ 0 (ul_len ue).
Proof.
  intros (nd & nu & A & F & R & Au & Fu & Ru & [Hd Hu _ _]).
  pose proof (dir_members _ _ _ _ Hd) as (-> & -> & ->). pose proof (dir_members _ _ _ _ Hu) as (-> & -> & ->).
  destruct (dir_lens _ _ _ _ Hd) as (Ed & _ & _), (dir_lens _ _ _ _ Hu) as (Eu & _ & _).
  unfold dl_len, ul_len. rewrite Ed, Eu.
  split; [rewrite <- (so_all _ _ _ _ _ _ (dir_lists _ _ _ _ _ _ _ _ Hd))
         |rewrite <- (so_all _ _ _ _ _ _ (dir_lists _ _ _ _ _ _ _ _ Hu))]; by rewrite app_nil_r.
Qed.

Lemma reachable_ok ue : reachable ue -> consistent ue.
Proof.
  induction 1 as [cg ra fmt ue Hs|ue e ue' _ IH Hp Hst]; [by apply (configured_ok cg ra fmt)|].
  destruct (event_ok ue e IH Hp) as (ue'' & E & Hc). rewrite Hst in E. by injection E as ->.
Qed.
End runs.

End MacHarqRun.
