(* ===== verification/MacPdu.v ===== *)
(** * MAC PDUs

    Models how transport blocks are filled and taken apart: the subheaders and the
    tables of [openair2/LAYER2/NR_MAC_COMMON] ([nr_mac.h], [nr_mac_common.c]), the
    control elements and the multiplexing of the gNB ([gNB_scheduler_dlsch.c]), its
    demultiplexing ([gNB_scheduler_ulsch.c]), the demultiplexing of the UE and its
    control elements ([nr_ue_procedures.c], [nr_ue_scheduler.c]).

    A transport block is a buffer, a list of bytes, with a position; a read or a write
    beyond the buffer is a fault.  RLC is behind the interface [MacRlc]; what a receiver
    hands to RLC and RRC is a list of calls. *)

From S2P Require Import Prelude.

Module MacPdu.

(** ** Logical channel identifiers *)

Definition DL_SCH_LCID_CCCH : Z := 0.
Definition DL_SCH_LCID_RECOMMENDED_BITRATE : Z := 47.
Definition DL_SCH_LCID_SP_ZP_CSI_RS_RES_SET_ACT : Z := 48.
Definition DL_SCH_LCID_PUCCH_SPATIAL_RELATION_ACT : Z := 49.
Definition DL_SCH_LCID_SP_SRS_ACTIVATION : Z := 50.
Definition DL_SCH_LCID_SP_CSI_REP_PUCCH_ACT : Z := 51.
Definition DL_SCH_LCID_TCI_STATE_IND_UE_SPEC_PDCCH : Z := 52.
Definition DL_SCH_LCID_TCI_STATE_ACT_UE_SPEC_PDSCH : Z := 53.
Definition DL_SCH_LCID_APERIODIC_CSI_TRI_STATE_SUBSEL : Z := 54.
Definition DL_SCH_LCID_SP_CSI_RS_CSI_IM_RES_SET_ACT : Z := 55.
Definition DL_SCH_LCID_DUPLICATION_ACT : Z := 56.
Definition DL_SCH_LCID_SCell_ACT_4_OCT : Z := 57.
Definition DL_SCH_LCID_SCell_ACT_1_OCT : Z := 58.
Definition DL_SCH_LCID_L_DRX : Z := 59.
Definition DL_SCH_LCID_DRX : Z := 60.
Definition DL_SCH_LCID_TA_COMMAND : Z := 61.
Definition DL_SCH_LCID_CON_RES_ID : Z := 62.
Definition DL_SCH_LCID_PADDING : Z := 63.

Definition UL_SCH_LCID_CCCH_64_BITS : Z := 0.
Definition UL_SCH_LCID_SRB1 : Z := 1.
Definition UL_SCH_LCID_SRB2 : Z := 2.
Definition UL_SCH_LCID_DTCH : Z := 4.
Definition UL_SCH_LCID_CCCH_48_BITS_REDCAP : Z := 35.
Definition UL_SCH_LCID_CCCH_48_BITS : Z := 52.
Definition UL_SCH_LCID_RECOMMENDED_BITRATE_QUERY : Z := 53.
Definition UL_SCH_LCID_MULTI_ENTRY_PHR_4_OCT : Z := 54.
Definition UL_SCH_LCID_CONFIGURED_GRANT_CONFIRMATION : Z := 55.
Definition UL_SCH_LCID_MULTI_ENTRY_PHR_1_OCT : Z := 56.
Definition UL_SCH_LCID_SINGLE_ENTRY_PHR : Z := 57.
Definition UL_SCH_LCID_C_RNTI : Z := 58.
Definition UL_SCH_LCID_S_TRUNCATED_BSR : Z := 59.
Definition UL_SCH_LCID_L_TRUNCATED_BSR : Z := 60.
Definition UL_SCH_LCID_S_BSR : Z := 61.
Definition UL_SCH_LCID_L_BSR : Z := 62.
Definition UL_SCH_LCID_PADDING : Z := 63.

Definition NR_MAX_NUM_LCID : Z := 32.
Definition NR_MAX_NUM_LCGID : Z := 8.

(** ** Subheaders *)

(** The bytes of [NR_MAC_SUBHEADER_FIXED], [_SHORT] and [_LONG] with [R = 0]; [F] is 0 in
    a short and 1 in a long one, whose length is in network order. *)
Definition NR_MAC_SUBHEADER_FIXED (lcid : Z) : list Z := [lcid mod 64].
Definition NR_MAC_SUBHEADER_SHORT (lcid L : Z) : list Z := [lcid mod 64; u8 L].
Definition NR_MAC_SUBHEADER_LONG (lcid L : Z) : list Z := [lcid mod 64 + 64; u16 L / 256; u16 L mod 256].

(** The field [LCID] of any subheader, and [F]. *)
Definition LCID (b : Z) : Z := Z.land b 63.
Definition F (b : Z) : bool := negb (Z.land b 64 =? 0).

(** [get_mac_len] at position [p] of [b], [pdu_len] bytes before the end of the PDU: its
    result, [*mac_ce_len] and [*mac_subheader_len], which are 0 and 1 before the call. *)
Definition get_mac_len (b : list Z) (p pdu_len : Z) : res (bool * Z * Z) :=
  if pdu_len <? 2 then mret (false, 0, 1)
  else
    h ← zget b p;
    if F h && (pdu_len <? 3) then mret (false, 0, 1)
    else
      '(mac_ce_len, mac_subheader_len) ←
        (if F h then
           l1 ← zget b (p + 1);
           l2 ← zget b (p + 2);
           mret (l1 * 256 + l2, 3)
         else
           l ← zget b (p + 1);
           mret (l, 2));
      mret (negb (mac_ce_len >? pdu_len), mac_ce_len, mac_subheader_len).

(** The loops that look for a byte other than 0 among [n]: [true] when there is none. *)
Fixpoint all_zero (b : list Z) (p : Z) (n : nat) : res bool :=
  match n with
  | O => mret true
  | S n' => v ← zget b p; if v =? 0 then all_zero b (p + 1) n' else mret false
  end.

(** Writing at the position of a buffer: [memcpy] and the advance of the pointer. *)
Definition put (w : list Z * Z) (bytes : list Z) : res (list Z * Z) :=
  b ← zwrite (fst w) (snd w) bytes;
  mret (b, snd w + zlen bytes).

(** ** Buffer status reports *)

Definition NR_SHORT_BSR_TABLE_SIZE : Z := 32.
Definition NR_LONG_BSR_TABLE_SIZE : Z := 256.

Definition NR_SHORT_BSR_TABLE : list Z :=
  [0; 10; 14; 20; 28; 38; 53; 74; 102; 142; 198; 276; 384; 535; 745; 1038; 1446; 2014; 2806; 3909;
   5446; 7587; 10570; 14726; 20516; 28581; 39818; 55474; 77284; 107669; 150000; 300000].

Definition NR_LONG_BSR_TABLE : list Z :=
  [0; 10; 11; 12; 13; 14; 15; 16; 17; 18; 19; 20; 22; 23; 25; 26; 28; 30; 32; 34; 36; 38; 40; 43;
   46; 49; 52; 55; 59; 62; 66; 71; 75; 80; 85; 91; 97; 103; 110; 117; 124; 132; 141; 150; 160;
   170; 181; 193; 205; 218; 233; 248; 264; 281; 299; 318; 339; 361; 384; 409; 436; 464; 494; 526;
   560; 597; 635; 677; 720; 767; 817; 870; 926; 987; 1051; 1119; 1191; 1269; 1351; 1439; 1532;
   1631; 1737; 1850; 1970; 2098; 2234; 2379; 2533; 2698; 2873; 3059; 3258; 3469; 3694; 3934;
   4189; 4461; 4751; 5059; 5387; 5737; 6109; 6506; 6928; 7378; 7857; 8367; 8910; 9488; 10104;
   10760; 11458; 12202; 12994; 13838; 14736; 15692; 16711; 17795; 18951; 20181; 21491; 22885;
   24371; 25953; 27638; 29431; 31342; 33376; 35543; 37850; 40307; 42923; 45709; 48676; 51836;
   55200; 58784; 62599; 66663; 70990; 75598; 80505; 85730; 91295; 97221; 103532; 110252; 117409;
   125030; 133146; 141789; 150992; 160793; 171231; 182345; 194182; 206786; 220209; 234503;
   249725; 265935; 283197; 301579; 321155; 342002; 364202; 387842; 413018; 439827; 468377;
   498780; 531156; 565634; 602350; 641449; 683087; 727427; 774645; 824928; 878475; 935498;
   996222; 1060888; 1129752; 1203085; 1281179; 1364342; 1452903; 1547213; 1647644; 1754595;
   1868488; 1989774; 2118933; 2256475; 2402946; 2558924; 2725027; 2901912; 3090279; 3290873;
   3504487; 3731968; 3974215; 4232186; 4506902; 4799451; 5110989; 5442750; 5796046; 6172275;
   6572925; 6999582; 7453933; 7937777; 8453028; 9001725; 9586039; 10208280; 10870913; 11576557;
   12328006; 13128233; 13980403; 14887889; 15854280; 16883401; 17979324; 19146385; 20389201;
   21712690; 23122088; 24622972; 26221280; 27923336; 29735875; 31666069; 33721553; 35910462;
   38241455; 40723756; 43367187; 46182206; 49179951; 52372284; 55771835; 59392055; 63247269;
   67352729; 71724679; 76380419; 81338368; 162676736; 4294967295].

(** [get_short_bsr_value] and [get_long_bsr_value]. *)
Definition get_short_bsr_value (idx : Z) : res Z :=
  _ ← dev_assert (idx <? NR_SHORT_BSR_TABLE_SIZE);
  zget NR_SHORT_BSR_TABLE idx.

Definition get_long_bsr_value (idx : Z) : res Z :=
  _ ← dev_assert (idx <? NR_LONG_BSR_TABLE_SIZE);
  zget NR_LONG_BSR_TABLE idx.

(** The table that [nr_locate_BsrIndexByBufferSize] searches. *)
Definition get_bsr_value (size idx : Z) : res Z :=
  if size =? NR_SHORT_BSR_TABLE_SIZE then get_short_bsr_value idx else get_long_bsr_value idx.

(** The binary search of [nr_locate_BsrIndexByBufferSize]: the lower bound at its end.
    An [int] is compared with a [uint32_t]. *)
Fixpoint locate_loop (fuel : nat) (size value : Z) (ascend : bool) (jl ju : Z) : res Z :=
  match fuel with
  | O => Fault NoFuel
  | S fuel' =>
      if ju - jl >? 1 then
        let jm := (ju + jl) / 2 in
        v ← get_bsr_value size jm;
        if Bool.eqb (u32 value >=? v) ascend
        then locate_loop fuel' size value ascend jm ju
        else locate_loop fuel' size value ascend jl jm
      else mret jl
  end.

(** [nr_locate_BsrIndexByBufferSize]. *)
Definition nr_locate_BsrIndexByBufferSize (size value : Z) : res Z :=
  if value =? 0 then mret 0
  else
    vu ← get_bsr_value size (size - 1);
    vl ← get_bsr_value size 0;
    jl ← locate_loop (S (Z.to_nat size)) size value (vu >=? vl) 0 (size - 1);
    v ← get_bsr_value size jl;
    mret (u8 (if u32 value =? v then jl else jl + 1)).

(** [overestim_bsr_index]. *)
Definition overestim_bsr_index (real_index : Z) : Z :=
  if real_index >? 0 then real_index + 1 else real_index.

(** [estimate_ul_buffer_short_bsr] of the byte [ce]. *)
Definition estimate_ul_buffer_short_bsr (ce : Z) : res Z :=
  let rep_idx := Z.land ce 31 in
  let estim_idx := overestim_bsr_index rep_idx in
  get_short_bsr_value (Z.min estim_idx (NR_SHORT_BSR_TABLE_SIZE - 1)).

(** [estimate_ul_buffer_long_bsr] of the control element at [p]: the first byte says
    which groups are reported, and each of them has a byte behind it. *)
Definition estimate_ul_buffer_long_bsr (b : list Z) (p : Z) : res Z :=
  mask ← zget b p;
  '(estim_size, _) ← res_foldl (fun '(estim_size, m) n =>
      if Z.testbit mask n then
        rep_idx ← zget b (p + 1 + m);
        v ← get_long_bsr_value (Z.min (overestim_bsr_index rep_idx) (NR_LONG_BSR_TABLE_SIZE - 1));
        mret (i32 (estim_size + v), m + 1)
      else mret (estim_size, m)) (0, 0) (seqZ 0 8);
  mret estim_size.

(** ** Reception in the UE *)

Inductive nrRA_UE_state_t :=
| nrRA_UE_IDLE | nrRA_GENERATE_PREAMBLE | nrRA_WAIT_RAR | nrRA_WAIT_MSGB
| nrRA_WAIT_CONTENTION_RESOLUTION | nrRA_SUCCEEDED | nrRA_FAILED.

(** What the UE does for other components while it reads a PDU. *)
Inductive ue_call :=
| RlcDataInd (lcid : Z) (sdu : list Z)
| SetTimeAlignment (ta : Z)
| StopContentionResolutionTimer
| RrcRaInd (success : bool)
| RrcMsg3Ind
| StartBackoff.

(** The fields of [NR_UE_MAC_INST_t] and of its [RA_config_t] that the reception uses;
    [lcs] is [lc_ordered_list], each channel with its flag [rb_suspended]. *)
Record ue_mac := mk_ue_mac {
  tag_Id : Z;
  lcs : list (Z * bool);
  ra_state : nrRA_UE_state_t;
  RA_active : bool;
  cfra : bool;
  cont_res_id : list Z;
  t_crnti : Z;
  crnti : Z;
  msg3_C_RNTI : bool;
  connected : bool;
  preamble_tx_counter : Z;
  preambleTransMax : Z
}.

(** [is_lcid_suspended]. *)
Definition is_lcid_suspended (lcs : list (Z * bool)) (lcid : Z) : bool :=
  match List.find (fun c => fst c =? lcid) lcs with
  | Some c => snd c
  | None => false
  end.

(** [check_ra_contention_resolution] of the six bytes at [p]. *)
Fixpoint check_ra_contention_resolution (b : list Z) (p : Z) (cont_res : list Z) : res bool :=
  match cont_res with
  | [] => mret true
  | c :: cs => v ← zget b p; if v =? c then check_ra_contention_resolution b (p + 1) cs else mret false
  end.

(** [nr_ra_succeeded]. *)
Definition nr_ra_succeeded (ue : ue_mac) : ue_mac * list ue_call :=
  (mk_ue_mac (tag_Id ue) (lcs ue) nrRA_SUCCEEDED false (cfra ue) (cont_res_id ue)
     (if cfra ue then t_crnti ue else 0) (if cfra ue then crnti ue else t_crnti ue) false true
     (preamble_tx_counter ue) (preambleTransMax ue),
   (if cfra ue then [] else [StopContentionResolutionTimer]) ++ [RrcRaInd true]).

(** [nr_ra_contention_resolution_failed]. *)
Definition nr_ra_contention_resolution_failed (ue : ue_mac) : ue_mac * list ue_call :=
  let n := u8 (preamble_tx_counter ue + 1) in
  (mk_ue_mac (tag_Id ue) (lcs ue) (ra_state ue) (RA_active ue) (cfra ue) (cont_res_id ue) 0 (crnti ue)
     (msg3_C_RNTI ue) (connected ue) n (preambleTransMax ue),
   (if msg3_C_RNTI ue then [] else [RrcMsg3Ind])
   ++ [if n =? preambleTransMax ue + 1 then RrcRaInd false else StartBackoff]).

(** The control elements of fixed size: [mac_len]. *)
Definition dl_fixed_len (lcid : Z) : option Z :=
  if (lcid =? DL_SCH_LCID_RECOMMENDED_BITRATE) || (lcid =? DL_SCH_LCID_SP_ZP_CSI_RS_RES_SET_ACT)
     || (lcid =? DL_SCH_LCID_SP_CSI_REP_PUCCH_ACT) || (lcid =? DL_SCH_LCID_TCI_STATE_IND_UE_SPEC_PDCCH)
  then Some 2
  else if lcid =? DL_SCH_LCID_PUCCH_SPATIAL_RELATION_ACT then Some 3
  else if (lcid =? DL_SCH_LCID_DUPLICATION_ACT) || (lcid =? DL_SCH_LCID_SCell_ACT_1_OCT) then Some 1
  else if lcid =? DL_SCH_LCID_SCell_ACT_4_OCT then Some 4
  else if (lcid =? DL_SCH_LCID_L_DRX) || (lcid =? DL_SCH_LCID_DRX) then Some 0
  else None.

Definition dl_variable_ce (lcid : Z) : bool :=
  (lcid =? DL_SCH_LCID_TCI_STATE_ACT_UE_SPEC_PDSCH)
  || (lcid =? DL_SCH_LCID_APERIODIC_CSI_TRI_STATE_SUBSEL)
  || (lcid =? DL_SCH_LCID_SP_CSI_RS_CSI_IM_RES_SET_ACT)
  || (lcid =? DL_SCH_LCID_SP_SRS_ACTIVATION).

(** The case [DL_SCH_LCID_CON_RES_ID]; [false] is the [return] of a failed resolution. *)
Definition contention_resolution (ue : ue_mac) (b : list Z) (p : Z) : res (ue_mac * list ue_call * bool) :=
  match ra_state ue with
  | nrRA_WAIT_CONTENTION_RESOLUTION =>
      ra_success ← check_ra_contention_resolution b (p + 1) (cont_res_id ue);
      let calls := [StopContentionResolutionTimer] in
      if RA_active ue && ra_success then
        let '(ue, c) := nr_ra_succeeded ue in mret (ue, calls ++ c, true)
      else if negb ra_success then
        let '(ue, c) := nr_ra_contention_resolution_failed ue in mret (ue, calls ++ c, false)
      else mret (ue, calls, true)
  | _ => mret (ue, [], true)
  end.

(** The body of the loop of [nr_ue_process_mac_pdu] at position [p]: the bytes to skip
    and [done], or [None] for [return]. *)
Definition nr_ue_sub_pdu (ue : ue_mac) (b : list Z) (p pdu_len : Z)
    : res (ue_mac * list ue_call * option (Z * bool)) :=
  h ← zget b p;
  let rx_lcid := LCID h in
  if rx_lcid =? DL_SCH_LCID_CCCH then
    '(ret, mac_len, mac_subheader_len) ← get_mac_len b p pdu_len;
    _ ← dev_assert ret;
    zero ← all_zero b p (Z.to_nat (mac_subheader_len + mac_len));
    if zero : bool then mret (ue, [], Some (mac_subheader_len + mac_len, true))
    else if mac_len >? 0 then
      sdu ← zslice b (p + mac_subheader_len) mac_len;
      mret (ue, [RlcDataInd rx_lcid sdu], Some (mac_subheader_len + mac_len, false))
    else mret (ue, [], Some (mac_subheader_len + mac_len, false))
  else if dl_variable_ce rx_lcid then
    '(_, mac_len, mac_subheader_len) ← get_mac_len b p pdu_len;
    mret (ue, [], Some (mac_subheader_len + mac_len, false))
  else match dl_fixed_len rx_lcid with
  | Some mac_len => mret (ue, [], Some (1 + mac_len, false))
  | None =>
      if rx_lcid =? DL_SCH_LCID_TA_COMMAND then
        v ← zget b (p + 1);
        let ta := Z.land v 63 in
        let tag := Z.shiftr v 6 in
        if negb (tag =? tag_Id ue) then mret (ue, [], Some (2, true))
        else mret (ue, [SetTimeAlignment ta], Some (2, false))
      else if rx_lcid =? DL_SCH_LCID_CON_RES_ID then
        '(ue, calls, go) ← contention_resolution ue b p;
        mret (ue, calls, if go : bool then Some (7, false) else None)
      else if rx_lcid =? DL_SCH_LCID_PADDING then mret (ue, [], Some (1, true))
      else if (1 <=? rx_lcid) && (rx_lcid <=? 32) then
        '(ret, mac_len, mac_subheader_len) ← get_mac_len b p pdu_len;
        if negb ret then mret (ue, [], None)
        else if is_lcid_suspended (lcs ue) rx_lcid
        then mret (ue, [], Some (mac_subheader_len + mac_len, false))
        else
          sdu ← zslice b (p + mac_subheader_len) mac_len;
          mret (ue, [RlcDataInd rx_lcid sdu], Some (mac_subheader_len + mac_len, false))
      else mret (ue, [], Some (1, false))
  end.

Fixpoint nr_ue_pdu_loop (fuel : nat) (ue : ue_mac) (b : list Z) (p pdu_len : Z) : res (ue_mac * list ue_call) :=
  match fuel with
  | O => Fault NoFuel
  | S fuel' =>
      if pdu_len >? 0 then
        '(ue, calls, next) ← nr_ue_sub_pdu ue b p pdu_len;
        match next with
        | None => mret (ue, calls)
        | Some (n, done) =>
            if done : bool then mret (ue, calls)
            else
              '(ue, calls') ← nr_ue_pdu_loop fuel' ue b (p + n) (pdu_len - n);
              mret (ue, calls ++ calls')
        end
      else mret (ue, [])
  end.

(** [nr_ue_process_mac_pdu] of a PDU of [pdu_len] bytes at the start of [b]; [n] is the
    number of bytes that [nr_ue_validate_successrar] has read in front, in a random access
    of two steps, and 0 otherwise. *)
Definition nr_ue_process_mac_pdu (ue : ue_mac) (b : list Z) (pdu_len n : Z) : res (ue_mac * list ue_call) :=
  nr_ue_pdu_loop (S (Z.to_nat pdu_len)) ue b n (pdu_len - n).

(** ** Reception in the gNB *)

Inductive RA_gNB_state_t :=
| nrRA_gNB_IDLE | nrRA_Msg2 | nrRA_WAIT_MsgA_PUSCH | nrRA_WAIT_Msg3 | nrRA_Msg3_retransmission
| nrRA_Msg4 | nrRA_MsgB | nrRA_WAIT_Msg4_MsgB_ACK.

(** [nr_mac_rlc_data_ind(..., lcid, sdu, ...)]. *)
Definition gnb_call : Type := Z * list Z.

(** The fields of [NR_UE_info_t] that the reception of a PDU uses; [lc_config] has the
    logical channels with their flag [suspended]; the last three are of [mac_stats.ul]. *)
Record gnb_ue := mk_gnb_ue {
  is_redcap : bool;
  has_CellGroup : bool;
  lc_config : list (Z * bool);
  ra : option RA_gNB_state_t;
  estimated_ul_buffer : Z;
  sched_ul_bytes : Z;
  ph : Z;
  ph0 : Z;
  pcmax : Z;
  total_sdu_bytes : Z;
  lc_bytes : list Z;
  num_mac_sdu : Z
}.

Definition set_redcap (ue : gnb_ue) : gnb_ue :=
  mk_gnb_ue true (has_CellGroup ue) (lc_config ue) (ra ue) (estimated_ul_buffer ue) (sched_ul_bytes ue)
    (ph ue) (ph0 ue) (pcmax ue) (total_sdu_bytes ue) (lc_bytes ue) (num_mac_sdu ue).

Definition set_buffer (ue : gnb_ue) (estimated sched : Z) : gnb_ue :=
  mk_gnb_ue (is_redcap ue) (has_CellGroup ue) (lc_config ue) (ra ue) estimated sched
    (ph ue) (ph0 ue) (pcmax ue) (total_sdu_bytes ue) (lc_bytes ue) (num_mac_sdu ue).

Definition set_headroom (ue : gnb_ue) (ph ph0 pcmax : Z) : gnb_ue :=
  mk_gnb_ue (is_redcap ue) (has_CellGroup ue) (lc_config ue) (ra ue) (estimated_ul_buffer ue)
    (sched_ul_bytes ue) ph ph0 pcmax (total_sdu_bytes ue) (lc_bytes ue) (num_mac_sdu ue).

Definition set_stats (ue : gnb_ue) (total : Z) (bytes : list Z) (sdus : Z) : gnb_ue :=
  mk_gnb_ue (is_redcap ue) (has_CellGroup ue) (lc_config ue) (ra ue) (estimated_ul_buffer ue)
    (sched_ul_bytes ue) (ph ue) (ph0 ue) (pcmax ue) total bytes sdus.

(** [nr_mac_get_lc_config]: the flag of the channel, if it is configured. *)
Definition nr_mac_get_lc_config (ue : gnb_ue) (lcid : Z) : option bool :=
  snd <$> List.find (fun c => fst c =? lcid) (lc_config ue).

(** [mac_stats.ul.lc_bytes[lcid] += mac_len]. *)
Definition add_lc_bytes (bytes : list Z) (lcid n : Z) : res (list Z) :=
  v ← zget bytes lcid;
  zset bytes lcid (u64 (v + n)).

(** [decode_ul_mac_sub_pdu_header]: the size of the subheader, [*lcid] and [*length]. *)
Definition decode_ul_mac_sub_pdu_header (b : list Z) (p : Z) : res (Z * Z * Z) :=
  h ← zget b p;
  let lcid := Z.land h 63 in
  if lcid =? UL_SCH_LCID_CCCH_64_BITS then mret (1, lcid, 8)
  else if (lcid =? UL_SCH_LCID_SRB1) || (lcid =? UL_SCH_LCID_SRB2)
          || ((UL_SCH_LCID_DTCH <=? lcid) && (lcid <=? UL_SCH_LCID_DTCH + 28))
          || (lcid =? UL_SCH_LCID_L_TRUNCATED_BSR) || (lcid =? UL_SCH_LCID_L_BSR) then
    if F h then
      l1 ← zget b (p + 1);
      l2 ← zget b (p + 2);
      mret (3, lcid, u16 (l1 * 256 + l2))
    else
      l ← zget b (p + 1);
      mret (2, lcid, l)
  else if (lcid =? UL_SCH_LCID_CCCH_48_BITS_REDCAP) || (lcid =? UL_SCH_LCID_CCCH_48_BITS) then mret (1, lcid, 6)
  else if (lcid =? UL_SCH_LCID_SINGLE_ENTRY_PHR) || (lcid =? UL_SCH_LCID_C_RNTI) then mret (1, lcid, 2)
  else if (lcid =? UL_SCH_LCID_S_TRUNCATED_BSR) || (lcid =? UL_SCH_LCID_S_BSR) then mret (1, lcid, 1)
  else mret (1, lcid, 0).

(** [lcid_crnti_lookahead]. *)
Fixpoint lcid_crnti_lookahead (fuel : nat) (b : list Z) (p pdu_len : Z) : res Z :=
  match fuel with
  | O => Fault NoFuel
  | S fuel' =>
      if pdu_len >? 0 then
        '(mac_subheader_len, lcid, mac_len) ← decode_ul_mac_sub_pdu_header b p;
        if mac_subheader_len + mac_len >? pdu_len then mret 0
        else if lcid =? UL_SCH_LCID_C_RNTI then
          c1 ← zget b (p + 1);
          c2 ← zget b (p + 2);
          mret (c1 * 256 + c2)
        else if lcid =? UL_SCH_LCID_PADDING then mret 0
        else lcid_crnti_lookahead fuel' b (p + mac_subheader_len + mac_len) (pdu_len - mac_subheader_len - mac_len)
      else mret 0
  end.

(** The power headroom that a field [PH] stands for. *)
Definition headroom_of (PH : Z) : Z :=
  if PH <? 55 then PH - 32 else if PH <? 63 then 24 + (PH - 55) * 2 else 38.

Section gnb.
(** [prepare_initial_ul_rrc_message] builds the first configuration of the UE from
    generated ASN.1 types, and [compute_ph_factor] is floating-point arithmetic on the
    parameters of the PUSCH of a HARQ process: both are parameters. *)
Variable prepare_initial_ul_rrc_message : gnb_ue -> gnb_ue * bool.
Variable compute_ph_factor : Z -> Z.

(** A case of the loop of [nr_process_mac_pdu] ends with [break], with the number of SDUs
    it has counted, or with [return]. *)
Inductive flow :=
| Break (sdus : Z)
| Return (code : Z).

(** CCCH. *)
Definition ul_ccch (ue : gnb_ue) (b : list Z) (p hdr lcid mac_len : Z) : res (gnb_ue * list gnb_call * flow) :=
  zero ← (if lcid =? UL_SCH_LCID_CCCH_64_BITS then all_zero b p (Z.to_nat (hdr + mac_len)) else mret false);
  if zero : bool then mret (ue, [], Return 0)
  else
    let ue := if lcid =? UL_SCH_LCID_CCCH_48_BITS_REDCAP then set_redcap ue else ue in
    let '(ue, ok) := prepare_initial_ul_rrc_message ue in
    if ok : bool then
      sdu ← zslice b (p + hdr) mac_len;
      mret (ue, [(0, sdu)], Break 0)
    else mret (ue, [], Break 0).

(** SRB1 and SRB2. *)
Definition ul_srb (ue : gnb_ue) (b : list Z) (p hdr lcid mac_len : Z) : res (gnb_ue * list gnb_call * flow) :=
  _ ← dev_assert (has_CellGroup ue);
  match nr_mac_get_lc_config ue lcid with
  | Some false =>
      sdu ← zslice b (p + hdr) mac_len;
      bytes ← add_lc_bytes (lc_bytes ue) lcid mac_len;
      mret (set_stats ue (u64 (total_sdu_bytes ue + mac_len)) bytes (num_mac_sdu ue), [(lcid, sdu)], Break 0)
  | _ => mret (ue, [], Break 0)
  end.

(** The data radio bearers. *)
Definition ul_drb (ue : gnb_ue) (b : list Z) (p hdr lcid mac_len : Z) : res (gnb_ue * list gnb_call * flow) :=
  match nr_mac_get_lc_config ue lcid with
  | Some false =>
      bytes ← add_lc_bytes (lc_bytes ue) lcid mac_len;
      sdu ← zslice b (p + hdr) mac_len;
      let ue := set_stats ue (total_sdu_bytes ue) bytes (num_mac_sdu ue) in
      let rest := if estimated_ul_buffer ue >=? mac_len then estimated_ul_buffer ue - mac_len else 0 in
      mret (set_buffer ue rest (sched_ul_bytes ue), [(lcid, sdu)], Break 1)
  | _ => mret (ue, [], Break 0)
  end.

(** The single entry power headroom report. *)
Definition ul_phr (ue : gnb_ue) (b : list Z) (p hdr harq_pid : Z) : res (gnb_ue * list gnb_call * flow) :=
  if harq_pid <? 0 then mret (ue, [], Return 0)
  else
    v0 ← zget b (p + hdr);
    v1 ← zget b (p + hdr + 1);
    let PH := headroom_of (Z.land v0 63) in
    mret (set_headroom ue (PH + compute_ph_factor harq_pid) PH (Z.land v1 63 - 29), [], Break 0).

(** The [switch] of [nr_process_mac_pdu]. *)
Definition ul_sub_pdu (ue : gnb_ue) (b : list Z) (p hdr lcid mac_len harq_pid : Z)
    : res (gnb_ue * list gnb_call * flow) :=
  if (lcid =? UL_SCH_LCID_CCCH_64_BITS) || (lcid =? UL_SCH_LCID_CCCH_48_BITS_REDCAP)
     || (lcid =? UL_SCH_LCID_CCCH_48_BITS) then ul_ccch ue b p hdr lcid mac_len
  else if (lcid =? UL_SCH_LCID_SRB1) || (lcid =? UL_SCH_LCID_SRB2) then ul_srb ue b p hdr lcid mac_len
  else if (UL_SCH_LCID_DTCH <=? lcid) && (lcid <=? UL_SCH_LCID_DTCH + 28) then ul_drb ue b p hdr lcid mac_len
  else if (lcid =? UL_SCH_LCID_RECOMMENDED_BITRATE_QUERY) || (lcid =? UL_SCH_LCID_MULTI_ENTRY_PHR_4_OCT)
          || (lcid =? UL_SCH_LCID_CONFIGURED_GRANT_CONFIRMATION) || (lcid =? UL_SCH_LCID_MULTI_ENTRY_PHR_1_OCT)
  then mret (ue, [], Break 0)
  else if lcid =? UL_SCH_LCID_SINGLE_ENTRY_PHR then ul_phr ue b p hdr harq_pid
  else if lcid =? UL_SCH_LCID_C_RNTI then
    match ra ue with
    | Some nrRA_gNB_IDLE => Fault Exit
    | _ => mret (ue, [], Break 0)
    end
  else if (lcid =? UL_SCH_LCID_S_TRUNCATED_BSR) || (lcid =? UL_SCH_LCID_S_BSR) then
    ce ← zget b (p + hdr);
    e ← estimate_ul_buffer_short_bsr ce;
    mret (set_buffer ue e 0, [], Break 0)
  else if (lcid =? UL_SCH_LCID_L_TRUNCATED_BSR) || (lcid =? UL_SCH_LCID_L_BSR) then
    e ← estimate_ul_buffer_long_bsr b (p + hdr);
    mret (set_buffer ue e 0, [], Break 0)
  else if lcid =? UL_SCH_LCID_PADDING then mret (ue, [], Return 0)
  else mret (ue, [], Return (-1)).

(** The loop of [nr_process_mac_pdu]; the result has the calls to RLC and the code. *)
Fixpoint ul_pdu_loop (fuel : nat) (ue : gnb_ue) (b : list Z) (p pdu_len harq_pid sdus : Z)
    : res (gnb_ue * list gnb_call * Z) :=
  match fuel with
  | O => Fault NoFuel
  | S fuel' =>
      if pdu_len >? 0 then
        '(hdr, lcid, mac_len) ← decode_ul_mac_sub_pdu_header b p;
        if hdr + mac_len >? pdu_len then mret (ue, [], 0)
        else
          '(ue, calls, f) ← ul_sub_pdu ue b p hdr lcid mac_len harq_pid;
          match f with
          | Return code => mret (ue, calls, code)
          | Break n =>
              '(ue, calls', code) ←
                ul_pdu_loop fuel' ue b (p + hdr + mac_len) (pdu_len - hdr - mac_len) harq_pid (sdus + n);
              mret (ue, calls ++ calls', code)
          end
      else mret (set_stats ue (total_sdu_bytes ue) (lc_bytes ue) (u32 (num_mac_sdu ue + sdus)), [], 0)
  end.

(** [nr_process_mac_pdu] of a PDU of [pdu_len] bytes at the start of [b]. *)
Definition nr_process_mac_pdu (ue : gnb_ue) (b : list Z) (pdu_len harq_pid : Z)
    : res (gnb_ue * list gnb_call * Z) :=
  ul_pdu_loop (S (Z.to_nat pdu_len)) ue b 0 pdu_len harq_pid 0.

End gnb.

End MacPdu.
