(* ===== verification/MacMux.v ===== *)
(** * Multiplexing of MAC PDUs

    Models the filling of a transport block: in the gNB the control elements
    ([nr_write_ce_dlsch_pdu]) and the SDUs of a downlink block ([post_process_dlsch], both
    in [gNB_scheduler_dlsch.c]); in the UE the logical channel prioritization of
    [nr_ue_get_sdu] with its control elements ([nr_ue_scheduler.c] and
    [nr_write_ce_ulsch_pdu] in [nr_ue_procedures.c]).

    RLC is the interface [MacRlc]; its laws are what the theorems need of it. *)

From S2P Require Import Prelude MacPdu.

Module MacMux.
Export MacPdu.

(** [nr_mac_rlc_data_req] for a logical channel of the UE and a size: the bytes that RLC
    writes to the buffer. *)
Class MacRlc (S : Type) := {
  nr_mac_rlc_data_req : S -> Z -> Z -> res (S * list Z)
}.

(** ** Control elements of the gNB *)

(** A structure of bit-fields, from the least significant bit on: values and widths. *)
Fixpoint pack (fields : list (Z * Z)) : Z :=
  match fields with
  | [] => 0
  | (v, w) :: fs => v mod 2 ^ w + 2 ^ w * pack fs
  end.

(** [sp_zp_csirs_t]. *)
Record sp_zp_csirs_t := mk_sp_zp {
  zp_act_deact : bool;
  zp_serv_cell_id : Z;
  zp_bwpid : Z;
  zp_rsc_id : Z
}.

(** [csi_rs_im_t]; [tci_state_id] has [MAX_CSI_RESOURCE_SET] elements. *)
Record csi_rs_im_t := mk_csi_im {
  im_act_deact : bool;
  im_serv_cellid : Z;
  im_bwp_id : Z;
  im_im : bool;
  csi_im_rsc_id : Z;
  nzp_csi_rsc_id : Z;
  nb_tci_resource_set_id : Z;
  tci_state_id : list Z
}.

(** [pdcchStateInd_t]. *)
Record pdcchStateInd_t := mk_pdcch_ind {
  ind_servingCellId : Z;
  ind_coresetId : Z;
  ind_tciStateId : Z
}.

(** [SPCSIReportingpucch_t]; [r1] is the bit [R1] of the control element, which the code
    leaves uninitialized. *)
Record SPCSIReportingpucch_t := mk_sp_csi {
  sp_servingCellId : Z;
  sp_bwpId : Z;
  s0tos3_actDeact : list bool;
  r1 : Z
}.

(** [pdschTciStatesActDeact_t] and [aperiodicCSI_triggerStateSelection_t], which have the
    same fields: the highest state and 128 flags. *)
Record states_t := mk_states {
  st_servingCellId : Z;
  st_bwpId : Z;
  st_highest : Z;
  st_flags : list bool
}.

(** [NR_UE_mac_ce_ctrl_t], each element with its flag [is_scheduled], and the timing
    advance of [NR_UE_sched_ctrl_t]. *)
Record dl_ce_ctrl := mk_ce_ctrl {
  ta_apply : bool;
  ta_update : Z;
  sp_zp_csi_rs : option sp_zp_csirs_t;
  csi_im : option csi_rs_im_t;
  pdcch_state_ind : option pdcchStateInd_t;
  SP_CSI_reporting_pucch : option SPCSIReportingpucch_t;
  aperi_CSI_trigger : option states_t;
  pdsch_TCI_States_ActDeact : option states_t
}.

Definition when {A} (o : option A) (f : A -> list Z * Z -> res (list Z * Z)) (w : list Z * Z)
    : res (list Z * Z) :=
  match o with
  | Some x => f x w
  | None => mret w
  end.

(** Timing advance. *)
Definition write_ta (c : dl_ce_ctrl) (tag : Z) (w : list Z * Z) : res (list Z * Z) :=
  if ta_apply c then
    w ← put w (NR_MAC_SUBHEADER_FIXED DL_SCH_LCID_TA_COMMAND);
    _ ← dev_assert (ta_update c <? 64);
    put w [pack [(ta_update c, 6); (tag, 2)]]
  else mret w.

(** Contention resolution identity: the first six bytes. *)
Definition write_con_res (ue_cont_res_id : list Z) (w : list Z * Z) : res (list Z * Z) :=
  w ← put w (NR_MAC_SUBHEADER_FIXED DL_SCH_LCID_CON_RES_ID);
  id ← zslice ue_cont_res_id 0 6;
  put w id.

(** TCI state indication for the PDCCH. *)
Definition write_pdcch_ind (x : pdcchStateInd_t) (w : list Z * Z) : res (list Z * Z) :=
  w ← put w (NR_MAC_SUBHEADER_FIXED DL_SCH_LCID_TCI_STATE_IND_UE_SPEC_PDCCH);
  put w [pack [(Z.shiftr (Z.land (ind_coresetId x) 15) 1, 3); (Z.land (ind_servingCellId x) 31, 5)];
         pack [(Z.land (ind_tciStateId x) 127, 7); (Z.land (ind_coresetId x) 1, 1)] ].

(** Semi-persistent CSI reporting on PUCCH. *)
Definition write_sp_csi (x : SPCSIReportingpucch_t) (w : list Z * Z) : res (list Z * Z) :=
  w ← put w (NR_MAC_SUBHEADER_FIXED DL_SCH_LCID_SP_CSI_REP_PUCCH_ACT);
  s0 ← zget (s0tos3_actDeact x) 0;
  s1 ← zget (s0tos3_actDeact x) 1;
  s2 ← zget (s0tos3_actDeact x) 2;
  s3 ← zget (s0tos3_actDeact x) 3;
  put w [pack [(Z.land (sp_bwpId x) 3, 2); (Z.land (sp_servingCellId x) 31, 5); (r1 x, 1)];
         pack [(b2z s0, 1); (b2z s1, 1); (b2z s2, 1); (b2z s3, 1); (0, 4)] ].

(** The octets [T] of a list of flags. *)
Definition state_octets (flags : list bool) (num_octects : Z) : res (list Z) :=
  res_foldl (fun T i =>
      f ← zget flags i;
      if f : bool then
        t ← zget T (i / 8);
        zset T (i / 8) (Z.lor t (Z.shiftl 1 (i mod 8)))
      else mret T)
    (replicate (Z.to_nat num_octects) 0) (seqZ 0 (num_octects * 8)).

(** TCI states of the PDSCH, and aperiodic CSI trigger states: only the LCID differs. *)
Definition write_states (lcid : Z) (x : states_t) (w : list Z * Z) : res (list Z * Z) :=
  let num_octects := u8 (st_highest x / 8 + 1) in
  w ← put w (NR_MAC_SUBHEADER_SHORT lcid (1 + num_octects));
  T ← state_octets (st_flags x) num_octects;
  put w (pack [(Z.land (st_bwpId x) 3, 2); (Z.land (st_servingCellId x) 31, 5); (0, 1)] :: T).

(** Semi-persistent zero-power CSI-RS. *)
Definition write_sp_zp (x : sp_zp_csirs_t) (w : list Z * Z) : res (list Z * Z) :=
  w ← put w (NR_MAC_SUBHEADER_FIXED DL_SCH_LCID_SP_ZP_CSI_RS_RES_SET_ACT);
  put w [pack [(Z.land (zp_bwpid x) 3, 2); (Z.land (zp_serv_cell_id x) 31, 5); (b2z (zp_act_deact x), 1)];
         pack [(Z.land (zp_rsc_id x) 15, 4); (0, 4)] ].

(** Semi-persistent CSI-RS and CSI-IM. *)
Definition write_csi_im (x : csi_rs_im_t) (w : list Z * Z) : res (list Z * Z) :=
  w ← put w (NR_MAC_SUBHEADER_FIXED DL_SCH_LCID_SP_CSI_RS_CSI_IM_RES_SET_ACT);
  w ← put w ([pack [(im_bwp_id x, 2); (Z.land (im_serv_cellid x) 63, 5); (b2z (im_act_deact x), 1)];
              pack [(nzp_csi_rsc_id x, 6); (b2z (im_im x), 1); (0, 1)] ]
             ++ (if im_im x then [pack [(csi_im_rsc_id x, 6); (0, 2)] ] else []));
  if im_act_deact x then
    res_foldl (fun w i =>
      t ← zget (tci_state_id x) i;
      put w [pack [(Z.land t 127, 6); (0, 2)] ]) w (seqZ 0 (nb_tci_resource_set_id x))
  else mret w.

(** [nr_write_ce_dlsch_pdu]: the elements in the order of the code, from the start of
    [mac_pdu]; the result has the buffer and the number of bytes. *)
Definition nr_write_ce_dlsch_pdu (c : dl_ce_ctrl) (tag : Z) (mac_pdu : list Z) (drx_cmd : Z)
    (ue_cont_res_id : option (list Z)) : res (list Z * Z) :=
  w ← (if drx_cmd =? 255 then mret (mac_pdu, 0)
       else put (mac_pdu, 0) (NR_MAC_SUBHEADER_FIXED DL_SCH_LCID_DRX));
  w ← write_ta c tag w;
  w ← when ue_cont_res_id write_con_res w;
  w ← when (pdcch_state_ind c) write_pdcch_ind w;
  w ← when (SP_CSI_reporting_pucch c) write_sp_csi w;
  w ← when (pdsch_TCI_States_ActDeact c) (write_states DL_SCH_LCID_TCI_STATE_ACT_UE_SPEC_PDSCH) w;
  w ← when (aperi_CSI_trigger c) (write_states DL_SCH_LCID_APERIODIC_CSI_TRI_STATE_SUBSEL) w;
  w ← when (sp_zp_csi_rs c) write_sp_zp w;
  when (csi_im c) write_csi_im w.

(** ** The transport block of a downlink transmission *)

Section dl.
Context {S : Type} `{R : MacRlc S}.

(** [allocate_transportBlock_buffer]: [malloc] is the allocator, an empty buffer is
    [NULL]. *)
Fixpoint tb_size_loop (fuel : nat) (needed size : Z) : res Z :=
  match fuel with
  | O => Fault NoFuel
  | Datatypes.S fuel' => if needed >? size then tb_size_loop fuel' needed (u32 (size * 2)) else mret size
  end.

Definition TB_SINGLE_LAYER : Z := 32 * 1024.

Definition allocate_transportBlock_buffer (malloc : Z -> list Z) (tb : list Z) (needed : Z) : res (list Z) :=
  _ ← dev_assert (needed >? 0);
  if negb (zlen tb =? 0) && (needed <=? zlen tb) then mret tb
  else
    size ← tb_size_loop 32 needed TB_SINGLE_LAYER;
    mret (malloc size).

(** The loop over the SDUs of a logical channel: RLC writes behind the place of the
    subheader, which follows. *)
Fixpoint mux_sdus (fuel : nat) (s : S) (w : list Z * Z) (bufEnd lcid bytes_in_buffer lcid_bytes sdus : Z)
    : res (S * (list Z * Z) * Z * Z) :=
  match fuel with
  | O => Fault NoFuel
  | Datatypes.S fuel' =>
      let '(b, buf) := w in
      if bufEnd - buf >? 4 then
        let ndata := Z.min bytes_in_buffer (bufEnd - buf - 3) in
        '(s, sdu) ← nr_mac_rlc_data_req s lcid ndata;
        let len := zlen sdu in
        if len =? 0 then mret (s, w, lcid_bytes, sdus)
        else
          b ← zwrite b (buf + 3) sdu;
          b ← zwrite b buf (NR_MAC_SUBHEADER_LONG lcid len);
          mux_sdus fuel' s (b, buf + len + 3) bufEnd lcid bytes_in_buffer (lcid_bytes + len) (sdus + 1)
      else mret (s, w, lcid_bytes, sdus)
  end.

(** The counters of [mac_stats.dl] that the function updates. *)
Record dl_stats := mk_dl_stats {
  dl_lc_bytes : list Z;
  dl_total_bytes : Z;
  dl_current_bytes : Z;
  dl_num_mac_sdu : Z;
  dl_total_sdu_bytes : Z
}.

(** The loop over the logical channels: [lc_config] has their numbers, [rlc_status] the
    bytes that RLC has reported for each. *)
Fixpoint mux_channels (lcids : list Z) (rlc_status : list Z) (s : S) (w : list Z * Z) (bufEnd : Z)
    (lc_bytes : list Z) (dlsch_total_bytes sdus : Z) : res (S * (list Z * Z) * list Z * Z * Z) :=
  match lcids with
  | [] => mret (s, w, lc_bytes, dlsch_total_bytes, sdus)
  | lcid :: lcids' =>
      n ← zget rlc_status lcid;
      if n =? 0 then mux_channels lcids' rlc_status s w bufEnd lc_bytes dlsch_total_bytes sdus
      else
        '(s, w, lcid_bytes, sdus) ←
          mux_sdus (Datatypes.S (Z.to_nat (bufEnd - snd w))) s w bufEnd lcid n 0 sdus;
        lc_bytes ← add_lc_bytes lc_bytes lcid lcid_bytes;
        mux_channels lcids' rlc_status s w bufEnd lc_bytes (dlsch_total_bytes + lcid_bytes) sdus
  end.

(** The padding: a subheader, and zeros up to the end of the block. *)
Definition write_padding (w : list Z * Z) (bufEnd : Z) : res (list Z) :=
  if bufEnd - snd w >? 0 then
    w ← put w (NR_MAC_SUBHEADER_FIXED DL_SCH_LCID_PADDING);
    '(b, _) ← put w (replicate (Z.to_nat (bufEnd - snd w)) 0);
    mret b
  else mret (fst w).

(** The initial transmission of [post_process_dlsch]: the transport block of [TBS] bytes
    of a UE, outside of the test modes [phy_test] and [do_ra]. *)
Definition fill_dl_transport_block (malloc : Z -> list Z) (s : S) (c : dl_ce_ctrl) (tag : Z)
    (lcids rlc_status : list Z) (num_total_bytes : Z) (transportBlock : list Z) (TBS : Z) (st : dl_stats)
    : res (S * list Z * dl_stats) :=
  buf ← allocate_transportBlock_buffer malloc transportBlock TBS;
  '(b, written) ← nr_write_ce_dlsch_pdu c tag buf 255 None;
  _ ← dev_assert (TBS >? written);
  '(s, w, lc_bytes, dlsch_total_bytes, sdus) ←
    (if num_total_bytes >? 0
     then mux_channels lcids rlc_status s (b, written) TBS (dl_lc_bytes st) 0 0
     else mret (s, (b, written), dl_lc_bytes st, 0, 0));
  b ← write_padding w TBS;
  mret (s, b, mk_dl_stats lc_bytes (u64 (dl_total_bytes st + TBS)) (u32 TBS)
                (u32 (dl_num_mac_sdu st + sdus)) (u64 (dl_total_sdu_bytes st + dlsch_total_bytes))).

End dl.

End MacMux.
