(* ===== verification/MacPduSpec.v ===== *)
(** * MAC PDUs: what the receivers read

    A block that is the concatenation of sub-PDUs is read sub-PDU by sub-PDU: the lemmas
    [dl_reads_...] say what the UE does for each kind, and [dl_pdu_reads] composes them;
    [ul_reads_...] and [ul_pdu_reads] do the same for the gNB.  The last part bounds what
    the gNB does for a block of arbitrary bytes. *)

From S2P Require Import Prelude MacPdu.

Module MacPduSpec.
Import MacPdu.

(** ** Bytes in the middle of a block *)

Lemma zget_mid {A} (pre x post : list A) i n : n = zlen pre -> 0 <= i < zlen x ->
  zget (pre ++ x ++ post) (n + i) = zget x i.
Proof.
  intros -> Hi. unfold zget, zlen in *. zcases; try lia.
  f_equal. rewrite lookup_app_r by lia. rewrite lookup_app_l by lia. f_equal. lia.
Qed.

Lemma zget_0 {A} (a : A) l : zget (a :: l) 0 = Ok a.
Proof. done. Qed.

Lemma zget_1 {A} (a b : A) l : zget (a :: b :: l) 1 = Ok b.
Proof. done. Qed.

Lemma zget_2 {A} (a b c : A) l : zget (a :: b :: c :: l) 2 = Ok c.
Proof. done. Qed.

Lemma zslice_mid {A} (pre h x post : list A) n m : n = zlen pre + zlen h -> m = zlen x ->
  zslice (pre ++ (h ++ x) ++ post) n m = Ok x.
Proof.
  intros -> ->. pose proof (zlen_nonneg pre). pose proof (zlen_nonneg h). pose proof (zlen_nonneg post).
  pose proof (zlen_nonneg x). rewrite zslice_ok by (rewrite ?zlen_app; lia).
  unfold zlen. f_equal. replace (Z.to_nat (_ + _)) with (length (pre ++ h)) by (rewrite length_app; lia).
  rewrite Nat2Z.id, <- app_assoc, app_assoc, drop_app_length. apply take_app_length.
Qed.

(** Subheaders: the fields that are written are the fields that are read. *)
Lemma subheader_fields l : 0 <= l < 64 ->
  LCID (l mod 64) = l /\ F (l mod 64) = false /\ LCID (l mod 64 + 64) = l /\ F (l mod 64 + 64) = true.
Proof.
  intros Hl.
  assert (Hall : forallb (fun l => (LCID (l mod 64) =? l) && negb (F (l mod 64)) &&
    (LCID (l mod 64 + 64) =? l) && F (l mod 64 + 64)) (seqZ 0 64) = true) by (vm_compute; reflexivity).
  rewrite forallb_forall in Hall. specialize (Hall l).
  rewrite !andb_true_iff, negb_true_iff, !Z.eqb_eq in Hall.
  destruct Hall as [ [ [? ?] ?] ?]; [|done]. apply list_elem_of_In, elem_of_seqZ. lia.
Qed.

Lemma long_length L : 0 <= L < 65536 -> u16 L / 256 * 256 + u16 L mod 256 = L.
Proof. intros HL. unfold u16. rewrite Z.mod_small by lia. zmod. Qed.

Lemma short_length L : 0 <= L < 256 -> u8 L = L.
Proof. intros HL. unfold u8. apply Z.mod_small. lia. Qed.

(** The subheader and the SDU of a sub-PDU, with a length of one byte or of two. *)
Definition short_sdu (lcid : Z) (sdu : list Z) : list Z := NR_MAC_SUBHEADER_SHORT lcid (zlen sdu) ++ sdu.
Definition long_sdu (lcid : Z) (sdu : list Z) : list Z := NR_MAC_SUBHEADER_LONG lcid (zlen sdu) ++ sdu.

Lemma zlen_short_sdu lcid sdu : zlen (short_sdu lcid sdu) = 2 + zlen sdu.
Proof. unfold short_sdu. by rewrite zlen_app. Qed.

Lemma zlen_long_sdu lcid sdu : zlen (long_sdu lcid sdu) = 3 + zlen sdu.
Proof. unfold long_sdu. by rewrite zlen_app. Qed.

Lemma zlen_fixed lcid : zlen (NR_MAC_SUBHEADER_FIXED lcid) = 1.
Proof. done. Qed.

Lemma zlen_fixed_ce lcid body : zlen (NR_MAC_SUBHEADER_FIXED lcid ++ body) = 1 + zlen body.
Proof. by rewrite zlen_app. Qed.

Create Rewrite HintDb mac_len.
#[export] Hint Rewrite @zlen_nil @zlen_cons @zlen_app zlen_short_sdu zlen_long_sdu zlen_fixed zlen_fixed_ce : mac_len.

(** ** The UE *)

(** [get_mac_len] of a subheader that fits. *)
Lemma get_mac_len_long pre post lcid sdu len p : p = zlen pre -> 0 <= lcid < 64 -> zlen sdu < 65536 ->
  3 + zlen sdu <= len ->
  get_mac_len (pre ++ long_sdu lcid sdu ++ post) p len = Ok (true, zlen sdu, 3).
Proof.
  intros Hp Hl Hs Hlen. pose proof (zlen_nonneg sdu). destruct (subheader_fields lcid Hl) as (_ & _ & _ & HF).
  pose proof (zlen_long_sdu lcid sdu) as Hz.
  unfold get_mac_len. rewrite (proj2 (Z.ltb_ge len 2)) by lia.
  rewrite <- (Z.add_0_r p) at 1. rewrite !(zget_mid pre (long_sdu lcid sdu)) by lia.
  unfold long_sdu, NR_MAC_SUBHEADER_LONG. cbn [app]. rewrite zget_0, zget_1, zget_2, !res_bind_unfold, HF.
  rewrite (proj2 (Z.ltb_ge len 3)) by lia. cbn [andb]. rewrite !res_bind_unfold, ?res_ret_bind, long_length by lia.
  rewrite Z.gtb_ltb, (proj2 (Z.ltb_ge len _)) by lia. done.
Qed.

Lemma get_mac_len_short pre post lcid sdu len p : p = zlen pre -> 0 <= lcid < 64 -> zlen sdu < 256 ->
  2 + zlen sdu <= len ->
  get_mac_len (pre ++ short_sdu lcid sdu ++ post) p len = Ok (true, zlen sdu, 2).
Proof.
  intros Hp Hl Hs Hlen. pose proof (zlen_nonneg sdu). destruct (subheader_fields lcid Hl) as (_ & HF & _ & _).
  pose proof (zlen_short_sdu lcid sdu) as Hz.
  unfold get_mac_len. rewrite (proj2 (Z.ltb_ge len 2)) by lia.
  rewrite <- (Z.add_0_r p) at 1. rewrite (zget_mid pre (short_sdu lcid sdu) post 0 p), (zget_mid pre (short_sdu lcid sdu) post 1 p) by lia.
  unfold short_sdu, NR_MAC_SUBHEADER_SHORT. cbn [app]. rewrite zget_0, zget_1, !res_bind_unfold, HF.
  cbn [andb]. rewrite !res_bind_unfold, ?res_ret_bind, short_length by lia.
  rewrite Z.gtb_ltb, (proj2 (Z.ltb_ge len _)) by lia. done.
Qed.

(** A sub-PDU [x] that the UE reads as a whole, with these calls. *)
Definition dl_reads (ue : ue_mac) (x : list Z) (calls : list ue_call) : Prop :=
  0 < zlen x /\ forall pre post len p, p = zlen pre -> zlen x <= len ->
    nr_ue_sub_pdu ue (pre ++ x ++ post) p len = Ok (ue, calls, Some (zlen x, false)).

(** What the UE hands to RLC for an SDU. *)
Definition dl_sdu_calls (ue : ue_mac) (c : Z * list Z) : list ue_call :=
  if is_lcid_suspended (lcs ue) (fst c) then [] else [RlcDataInd (fst c) (snd c)].

(** The first byte of a sub-PDU. *)
Lemma zget_head {A} pre (x : A) xs post p : p = zlen pre -> zget (pre ++ (x :: xs) ++ post) p = Ok x.
Proof.
  intros Hp. rewrite <- (Z.add_0_r p), zget_mid; [apply zget_0|done|].
  rewrite zlen_cons. pose proof (zlen_nonneg xs). lia.
Qed.

Lemma dl_channel_lcid l : 1 <= l <= 32 ->
  (l =? DL_SCH_LCID_CCCH) = false /\ dl_variable_ce l = false /\ dl_fixed_len l = None /\
  (l =? DL_SCH_LCID_TA_COMMAND) = false /\ (l =? DL_SCH_LCID_CON_RES_ID) = false /\
  (l =? DL_SCH_LCID_PADDING) = false /\ ((1 <=? l) && (l <=? 32)) = true.
Proof.
  intros Hl. unfold dl_variable_ce, dl_fixed_len, DL_SCH_LCID_CCCH, DL_SCH_LCID_TA_COMMAND,
    DL_SCH_LCID_CON_RES_ID, DL_SCH_LCID_PADDING.
  repeat match goal with |- context [?a =? ?b] => rewrite (proj2 (Z.eqb_neq a b)) by (cbv; lia) end.
  rewrite (proj2 (Z.leb_le 1 l)), (proj2 (Z.leb_le l 32)) by lia. done.
Qed.

Lemma dl_reads_sdu ue lcid sdu : 1 <= lcid <= 32 -> zlen sdu < 65536 ->
  dl_reads ue (long_sdu lcid sdu) (dl_sdu_calls ue (lcid, sdu)).
Proof.
  intros Hl Hs. pose proof (zlen_nonneg sdu). pose proof (zlen_long_sdu lcid sdu) as Hz.
  split; [lia|]. intros pre post len p Hp Hlen. unfold nr_ue_sub_pdu.
  replace (zget _ p) with (Ok (lcid mod 64 + 64)) by (symmetry; by apply zget_head).
  rewrite res_bind_unfold. destruct (subheader_fields lcid ltac:(lia)) as (_ & _ & -> & _). cbv zeta.
  destruct (dl_channel_lcid lcid Hl) as (-> & -> & -> & -> & -> & -> & ->).
  rewrite get_mac_len_long by (lia || done). rewrite res_bind_unfold. cbn [negb].
  unfold dl_sdu_calls. cbn [fst snd]. destruct (is_lcid_suspended (lcs ue) lcid); [by rewrite Hz|].
  unfold long_sdu at 1. rewrite zslice_mid by (rewrite ?Hp; done). by rewrite res_bind_unfold, Hz.
Qed.

(** A control element of fixed size, whose content the UE does not use. *)
Lemma dl_reads_fixed ue lcid body : 47 <= lcid < 64 -> dl_variable_ce lcid = false ->
  dl_fixed_len lcid = Some (zlen body) -> dl_reads ue (NR_MAC_SUBHEADER_FIXED lcid ++ body) [].
Proof.
  intros Hl Hv Hf. pose proof (zlen_nonneg body). pose proof (zlen_fixed_ce lcid body) as Hz.
  split; [lia|]. intros pre post len p Hp Hlen. unfold nr_ue_sub_pdu.
  replace (zget _ p) with (Ok (lcid mod 64)) by (symmetry; by apply zget_head).
  rewrite res_bind_unfold. destruct (subheader_fields lcid ltac:(lia)) as (-> & _). cbv zeta.
  rewrite (proj2 (Z.eqb_neq lcid DL_SCH_LCID_CCCH)) by (cbv; lia). by rewrite Hv, Hf, Hz.
Qed.

(** A control element of variable size. *)
Lemma dl_reads_variable ue lcid body : dl_variable_ce lcid = true -> 0 <= lcid < 64 -> zlen body < 256 ->
  dl_reads ue (short_sdu lcid body) [].
Proof.
  intros Hv Hl Hb. pose proof (zlen_nonneg body). pose proof (zlen_short_sdu lcid body) as Hz.
  split; [lia|]. intros pre post len p Hp Hlen. unfold nr_ue_sub_pdu.
  replace (zget _ p) with (Ok (lcid mod 64)) by (symmetry; by apply zget_head).
  rewrite res_bind_unfold. destruct (subheader_fields lcid Hl) as (-> & _). cbv zeta.
  rewrite Hv. replace (lcid =? DL_SCH_LCID_CCCH) with false.
  - rewrite get_mac_len_short by (lia || done). by rewrite res_bind_unfold, Hz.
  - symmetry. apply Z.eqb_neq. intros ->. by vm_compute in Hv.
Qed.

(** A timing advance command for the group of the UE. *)
Lemma dl_reads_ta ue ta tag : tag = tag_Id ue -> 0 <= tag < 4 ->
  dl_reads ue (NR_MAC_SUBHEADER_FIXED DL_SCH_LCID_TA_COMMAND ++ [ta mod 64 + 64 * tag])
    [SetTimeAlignment (ta mod 64)].
Proof.
  intros Ht Htag. split; [done|]. intros pre post len p Hp Hlen. unfold nr_ue_sub_pdu.
  rewrite zget_mid with (x := NR_MAC_SUBHEADER_FIXED DL_SCH_LCID_TA_COMMAND ++ [ta mod 64 + 64 * tag]) by done.
  replace (zget _ p) with (Ok 61) by (symmetry; by apply zget_head).
  cbn [NR_MAC_SUBHEADER_FIXED app]. rewrite zget_1, !res_bind_unfold. change (LCID 61) with 61. cbv zeta.
  change (61 =? DL_SCH_LCID_CCCH) with false. change (dl_variable_ce 61) with false.
  change (dl_fixed_len 61) with (@None Z). change (61 =? DL_SCH_LCID_TA_COMMAND) with true. cbv iota.
  change 63 with (2 ^ 6 - 1) at 1. rewrite land_mask, Z.shiftr_div_pow2 by done.
  change (2 ^ 6) with 64. pose proof (Z.mod_pos_bound ta 64 ltac:(lia)).
  replace ((ta mod 64 + 64 * tag) mod 64) with (ta mod 64) by zmod.
  replace ((ta mod 64 + 64 * tag) / 64) with tag by zmod.
  by rewrite Ht, Z.eqb_refl.
Qed.

(** The UE reads a block of sub-PDUs, up to padding or to its end. *)
Lemma dl_pdu_reads ue xs calls : Forall2 (dl_reads ue) xs calls -> forall pre post pad p len fuel,
  p = zlen pre -> pad = [] \/ (exists r, pad = 63 :: r) -> len = zlen (concat xs) + zlen pad ->
  (Z.to_nat len < fuel)%nat ->
  nr_ue_pdu_loop fuel ue (pre ++ concat xs ++ pad ++ post) p len = Ok (ue, concat calls).
Proof.
  induction 1 as [|x c xs calls [Hx Hr] _ IH]; intros pre post pad p len fuel Hp Hpad Hlen Hf.
  - destruct fuel as [|fuel]; [lia|]. cbn [nr_ue_pdu_loop]. cbn [concat] in *. rewrite zlen_nil in Hlen.
    destruct Hpad as [->|[r ->]].
    + by subst len.
    + rewrite zlen_cons in Hlen. pose proof (zlen_nonneg r).
      rewrite Z.gtb_ltb, (proj2 (Z.ltb_lt 0 len)) by lia. unfold nr_ue_sub_pdu.
      replace (zget _ p) with (Ok 63) by (symmetry; by apply (zget_head pre 63 r post)). done.
  - destruct fuel as [|fuel]; [lia|]. cbn [nr_ue_pdu_loop concat] in *. rewrite zlen_app in Hlen.
    pose proof (zlen_nonneg (concat xs)). pose proof (zlen_nonneg pad).
    rewrite Z.gtb_ltb, (proj2 (Z.ltb_lt 0 len)) by lia. rewrite <- app_assoc, Hr by lia.
    rewrite res_bind_unfold. cbv iota. rewrite (app_assoc pre).
    rewrite (IH (pre ++ x) post pad) by (rewrite ?zlen_app; lia || done). done.
Qed.

(** ** Buffer status reports *)

(** The table that a search uses. *)
Definition bsr_table (size : Z) : list Z :=
  if size =? NR_SHORT_BSR_TABLE_SIZE then NR_SHORT_BSR_TABLE else NR_LONG_BSR_TABLE.

Definition bsr_size (size : Z) : Prop := size = NR_SHORT_BSR_TABLE_SIZE \/ size = NR_LONG_BSR_TABLE_SIZE.

Definition level (size i : Z) : Z := nth (Z.to_nat i) (bsr_table size) 0.

Lemma get_bsr_value_ok size i : bsr_size size -> 0 <= i < size -> get_bsr_value size i = Ok (level size i).
Proof.
  intros Hs Hi. assert (Hget : forall (tab : list Z), zlen tab = size -> zget tab i = Ok (nth (Z.to_nat i) tab 0)).
  { intros tab Ht. apply zget_ok. split; [lia|]. destruct (lookup_lt_is_Some_2 tab (Z.to_nat i)) as [v Ev];
      [unfold zlen in *; lia|]. by rewrite nth_lookup, Ev. }
  destruct Hs as [-> | ->]; unfold get_bsr_value, get_short_bsr_value, get_long_bsr_value, level, bsr_table.
  - change (NR_SHORT_BSR_TABLE_SIZE =? NR_SHORT_BSR_TABLE_SIZE) with true. cbv iota.
    rewrite dev_assert_ok by (apply Z.ltb_lt; lia). rewrite res_bind_unfold. by apply Hget.
  - change (NR_LONG_BSR_TABLE_SIZE =? NR_SHORT_BSR_TABLE_SIZE) with false. cbv iota.
    rewrite dev_assert_ok by (apply Z.ltb_lt; lia). rewrite res_bind_unfold. by apply Hget.
Qed.

Fixpoint increasing (l : list Z) : bool :=
  match l with
  | a :: (b :: _) as l' => (a <? b) && increasing l'
  | _ => true
  end.

Lemma increasing_nth l i j : increasing l = true -> (i < j < length l)%nat -> nth i l 0 < nth j l 0.
Proof.
  revert i j. induction l as [|a [|b l] IH]; intros i j Hl Hij; [cbn in *; lia|cbn in *; lia|].
  cbn [increasing] in Hl. apply andb_prop in Hl as [Hab Hl]. apply Z.ltb_lt in Hab.
  destruct j as [|j]; [lia|]. change (nth (S j) (a :: b :: l) 0) with (nth j (b :: l) 0).
  destruct i as [|i]; [|apply (IH i j Hl); cbn [length] in *; lia].
  cbn [nth]. destruct j as [|j]; [done|]. specialize (IH 0%nat (S j) Hl). cbn [length nth] in *. lia.
Qed.

Lemma level_mono size i j : bsr_size size -> 0 <= i < j -> j < size -> level size i < level size j.
Proof.
  intros Hs Hi Hj. unfold level. apply increasing_nth; [by destruct Hs as [-> | ->]; vm_compute|].
  assert (length (bsr_table size) = Z.to_nat size) by (by destruct Hs as [-> | ->]). lia.
Qed.

Lemma level_0 size : bsr_size size -> level size 0 = 0.
Proof. by intros [-> | ->]. Qed.

(** The binary search keeps its value between its bounds, and always ends. *)
Lemma locate_loop_ok size v : bsr_size size -> 0 <= v < 2 ^ 31 -> forall fuel jl ju,
  0 <= jl < ju -> ju < size -> level size jl <= v -> ju = size - 1 \/ v < level size ju ->
  (Z.to_nat (ju - jl) < fuel)%nat -> exists j, locate_loop fuel size v true jl ju = Ok j /\
  0 <= j /\ j + 1 < size /\ level size j <= v /\ (j + 1 = size - 1 \/ v < level size (j + 1)).
Proof.
  intros Hs Hv. induction fuel as [|fuel IH]; intros jl ju Hj Hju Hl Hu Hf; [lia|]. cbn [locate_loop].
  destruct (ju - jl >? 1) eqn:E; rewrite Z.gtb_ltb in E.
  - apply Z.ltb_lt in E. assert (jl < (ju + jl) / 2 < ju) by zmod.
    rewrite get_bsr_value_ok by (done || lia). rewrite res_bind_unfold. unfold u32. rewrite Z.mod_small by lia.
    rewrite Z.geb_leb. destruct (level size ((ju + jl) / 2) <=? v) eqn:Em; cbn [Bool.eqb].
    + apply Z.leb_le in Em. apply IH; lia || done.
    + apply Z.leb_gt in Em. apply IH; lia || done || (right; lia).
  - apply Z.ltb_ge in E. exists jl. replace ju with (jl + 1) in * by lia. repeat split; lia || done.
Qed.

(** [nr_locate_BsrIndexByBufferSize] finds the first level of the table that covers the
    value, and the last one when none does. *)
Lemma locate_ok size v : bsr_size size -> 0 <= v < 2 ^ 31 -> exists i,
  nr_locate_BsrIndexByBufferSize size v = Ok i /\ 0 <= i < size /\
  (v <= level size i \/ i = size - 1) /\ (forall j, 0 <= j < i -> level size j < v).
Proof.
  intros Hs Hv. assert (Hbig : 1 < size <= 256) by (by destruct Hs as [-> | ->]).
  unfold nr_locate_BsrIndexByBufferSize. destruct (v =? 0) eqn:E0.
  - apply Z.eqb_eq in E0. subst v. exists 0. rewrite level_0 by done. repeat split; lia.
  - apply Z.eqb_neq in E0. pose proof (level_mono size 0 (size - 1) Hs ltac:(lia) ltac:(lia)) as Hasc.
    rewrite !get_bsr_value_ok by (done || lia). rewrite !res_bind_unfold.
    rewrite Z.geb_leb, (proj2 (Z.leb_le _ _)) by lia.
    destruct (locate_loop_ok size v Hs Hv (S (Z.to_nat size)) 0 (size - 1)) as (j & -> & Hj0 & Hj1 & Hl & Hu);
      [lia|lia|rewrite level_0 by done; lia|by left|lia|].
    rewrite res_bind_unfold, get_bsr_value_ok by (done || lia). rewrite res_bind_unfold.
    unfold u32, u8. rewrite (Z.mod_small v) by lia. eexists. split; [done|].
    destruct (v =? level size j) eqn:E.
    + apply Z.eqb_eq in E. rewrite Z.mod_small by lia. repeat split; try lia.
      intros k Hk. pose proof (level_mono size k j Hs ltac:(lia) ltac:(lia)). lia.
    + apply Z.eqb_neq in E. rewrite Z.mod_small by lia. repeat split; try lia.
      intros k Hk. destruct (Z.eq_dec k j) as [->|]; [lia|].
      pose proof (level_mono size k j Hs ltac:(lia) ltac:(lia)). lia.
Qed.

(** The search as it is meant: the first level that covers the value, or the last level. *)
Definition first_level (size v : Z) : Z :=
  match list_find (Z.le v) (bsr_table size) with
  | Some (i, _) => Z.of_nat i
  | None => size - 1
  end.

Lemma first_level_unique size v i : bsr_size size -> 0 <= i < size -> v <= level size i \/ i = size - 1 ->
  (forall j, 0 <= j < i -> level size j < v) -> first_level size v = i.
Proof.
  intros Hs Hi Hcov Hmin. assert (Hlen : length (bsr_table size) = Z.to_nat size) by (by destruct Hs as [-> | ->]).
  assert (Hlk : forall k x, bsr_table size !! k = Some x -> level size (Z.of_nat k) = x).
  { intros k x Hk. unfold level. by rewrite Nat2Z.id, nth_lookup, Hk. }
  unfold first_level. destruct (list_find (Z.le v) (bsr_table size)) as [ [k x] |] eqn:E.
  - apply list_find_Some in E as (Hk & Hx & Hfirst). apply Hlk in Hk as Ek. apply lookup_lt_Some in Hk as Hkl.
    destruct (Z.lt_trichotomy (Z.of_nat k) i) as [Hlt|[Heq|Hgt] ]; [|done|].
    + specialize (Hmin (Z.of_nat k) ltac:(lia)). lia.
    + destruct (lookup_lt_is_Some_2 (bsr_table size) (Z.to_nat i)) as [y Hy]; [lia|].
      assert (Hv : ~ v <= y) by (apply (Hfirst (Z.to_nat i) y Hy); lia).
      apply Hlk in Hy. rewrite Z2Nat.id in Hy by lia. lia.
  - apply list_find_None in E. destruct Hcov as [Hcov|]; [|lia]. exfalso.
    destruct (lookup_lt_is_Some_2 (bsr_table size) (Z.to_nat i)) as [y Hy]; [lia|].
    pose proof (Forall_lookup_1 _ _ _ _ E Hy) as Hv. apply Hlk in Hy. rewrite Z2Nat.id in Hy by lia. cbn in Hv. lia.
Qed.

(** What the gNB assumes for an index: the level behind it. *)
Definition estimate (size i : Z) : Z := level size (Z.min (overestim_bsr_index i) (size - 1)).

Lemma overestim_range size i : bsr_size size -> 0 <= i < size ->
  0 <= Z.min (overestim_bsr_index i) (size - 1) < size.
Proof. intros Hs Hi. unfold overestim_bsr_index. destruct (i >? 0); lia. Qed.

(** The estimate covers what was reported. *)
Lemma estimate_covers size i v : bsr_size size -> 0 <= i < size -> v <= level size i -> v <= estimate size i.
Proof.
  intros Hs Hi Hv. unfold estimate, overestim_bsr_index. destruct (i >? 0) eqn:E; [|rewrite Z.min_l by lia; done].
  destruct (Z.eq_dec i (size - 1)) as [->|]; [rewrite Z.min_r by lia; done|]. rewrite Z.min_l by lia.
  pose proof (level_mono size i (i + 1) Hs ltac:(lia) ltac:(lia)). lia.
Qed.

Lemma short_covers i v : 0 <= i < NR_SHORT_BSR_TABLE_SIZE -> v <= level NR_SHORT_BSR_TABLE_SIZE i \/ i = NR_SHORT_BSR_TABLE_SIZE - 1 ->
  Z.min v 300000 <= estimate NR_SHORT_BSR_TABLE_SIZE i.
Proof.
  intros Hi [Hc|Hlast].
  - pose proof (estimate_covers NR_SHORT_BSR_TABLE_SIZE i v ltac:(by left) Hi Hc). lia.
  - replace (estimate NR_SHORT_BSR_TABLE_SIZE i) with 300000 by (subst i; vm_compute; reflexivity). lia.
Qed.

Lemma short_estimate i g : 0 <= i < 32 ->
  estimate_ul_buffer_short_bsr (i + 32 * g) = Ok (estimate NR_SHORT_BSR_TABLE_SIZE i).
Proof.
  intros Hi. unfold estimate_ul_buffer_short_bsr. change 31 with (2 ^ 5 - 1) at 1. rewrite land_mask by done.
  replace ((i + 32 * g) mod 2 ^ 5) with i by (change (2 ^ 5) with 32; zmod). cbv zeta.
  apply (get_bsr_value_ok NR_SHORT_BSR_TABLE_SIZE); [by left|]. by apply overestim_range; [left|].
Qed.

(** The groups of a long report: the bits, and the bytes behind them. *)
Definition given (o : option Z) : bool := match o with Some _ => true | None => false end.
Definition mask_of (r : list (option Z)) : Z :=
  foldr (fun o acc => b2z (given o) + 2 * acc) 0 r.
Definition reported (r : list (option Z)) : list Z := omap id r.

Lemma mask_of_testbit r i : 0 <= i -> Z.testbit (mask_of r) i = match r !! Z.to_nat i with Some (Some _) => true | _ => false end.
Proof.
  intros Hi. rewrite <- (Z2Nat.id i Hi) at 1. generalize (Z.to_nat i) as n. clear i Hi.
  induction r as [|o r IH]; intros n; [by rewrite Z.testbit_0_l|]. cbn [mask_of foldr].
  destruct n as [|n].
  - cbn [lookup list_lookup]. rewrite Z.testbit_odd, Z.shiftr_0_r, Z.odd_add_mul_2. by destruct o.
  - rewrite Nat2Z.inj_succ. change ((o :: r) !! S n) with (r !! n). rewrite <- IH.
    destruct o; cbn [given b2z]; [rewrite Z.add_comm, Z.testbit_odd_succ by lia|
      rewrite Z.add_0_l, Z.testbit_even_succ by lia]; done.
Qed.

(** The sum that the gNB computes. *)
Definition long_estimate (vs : list Z) : Z :=
  foldl (fun e v => i32 (e + estimate NR_LONG_BSR_TABLE_SIZE v)) 0 vs.

Lemma long_estimate_ok r pre post : length r = 8%nat -> Forall is_byte (reported r) ->
  estimate_ul_buffer_long_bsr (pre ++ (mask_of r :: reported r) ++ post) (zlen pre) = Ok (long_estimate (reported r)).
Proof.
  intros Hr Hb. unfold estimate_ul_buffer_long_bsr. rewrite zget_head by done. rewrite res_bind_unfold.
  match goal with |- context [res_foldl ?g _ _] => set (f := g) end.
  assert (Hloop : forall rs dn e, r = dn ++ rs ->
    res_foldl f (e, zlen (reported dn)) (seqZ (zlen dn) (zlen rs)) =
    Ok (foldl (fun e v => i32 (e + estimate NR_LONG_BSR_TABLE_SIZE v)) e (reported rs), zlen (reported r))).
  { induction rs as [|o rs IH]; intros dn e Hd.
    { rewrite app_nil_r in Hd. by subst dn. }
    rewrite zlen_cons, seqZ_cons by (pose proof (zlen_nonneg rs); lia). cbn [res_foldl].
    pose proof (zlen_nonneg dn) as Hdn0.
    assert (Hbit : Z.testbit (mask_of r) (zlen dn) = given o).
    { rewrite mask_of_testbit by done. unfold zlen. rewrite Nat2Z.id, Hd, list_lookup_middle by done. by destruct o. }
    replace (Z.succ (zlen dn)) with (zlen (dn ++ [o])) by (rewrite zlen_app; change (zlen [o]) with 1; lia).
    replace (Z.pred (1 + zlen rs)) with (zlen rs) by lia.
    assert (Hd' : r = (dn ++ [o]) ++ rs) by (by rewrite <- app_assoc).
    destruct o as [v|]; cbn [given] in Hbit.
    - assert (Hv : zget (pre ++ (mask_of r :: reported r) ++ post) (zlen pre + 1 + zlen (reported dn)) = Ok v).
      { replace (zlen pre + 1 + zlen (reported dn)) with (zlen pre + zlen (mask_of r :: reported dn))
          by (rewrite zlen_cons; lia).
        rewrite zget_mid; [|done|].
        - apply zget_ok. split; [apply zlen_nonneg|]. unfold zlen. rewrite Nat2Z.id. unfold reported in *.
          rewrite Hd, omap_app. cbn [length]. rewrite lookup_cons_ne_0 by lia. cbn [pred]. by apply list_lookup_middle.
        - unfold reported. rewrite Hd, omap_app. cbn. rewrite !zlen_cons, zlen_app, zlen_cons.
          pose proof (zlen_nonneg (omap id dn)). pose proof (zlen_nonneg (omap id rs)). lia. }
      assert (Hvb : is_byte v).
      { rewrite Forall_forall in Hb. apply Hb. unfold reported. rewrite Hd, omap_app. cbn. set_solver. }
      assert (Hf : f (e, zlen (reported dn)) (zlen dn)
        = Ok (i32 (e + estimate NR_LONG_BSR_TABLE_SIZE v), zlen (reported dn) + 1)).
      { unfold f. rewrite Hbit, Hv, res_bind_unfold.
        change get_long_bsr_value with (get_bsr_value NR_LONG_BSR_TABLE_SIZE).
        rewrite get_bsr_value_ok; [done|by right|by apply overestim_range; [right|] ]. }
      rewrite Hf, res_bind_unfold.
      replace (zlen (reported dn) + 1) with (zlen (reported (dn ++ [Some v])))
        by (unfold reported; rewrite omap_app, zlen_app; done).
      rewrite (IH _ _ Hd'). done.
    - assert (Hf : f (e, zlen (reported dn)) (zlen dn) = Ok (e, zlen (reported dn))) by (unfold f; by rewrite Hbit).
      rewrite Hf, res_bind_unfold.
      replace (zlen (reported dn)) with (zlen (reported (dn ++ [None])))
        by (unfold reported; rewrite omap_app, app_nil_r; done).
      rewrite (IH _ _ Hd'). done. }
  specialize (Hloop r [] 0 eq_refl). change (zlen (reported [])) with 0 in Hloop.
  change (zlen (@nil (option Z))) with 0 in Hloop. replace (zlen r) with 8 in Hloop by (unfold zlen; by rewrite Hr).
  rewrite Hloop. done.
Qed.

(** ** The gNB *)

(** What a PDU never changes in the gNB. *)
Definition same_ue (ue ue' : gnb_ue) : Prop :=
  lc_config ue' = lc_config ue /\ has_CellGroup ue' = has_CellGroup ue /\ ra ue' = ra ue /\
  zlen (lc_bytes ue') = zlen (lc_bytes ue).

#[export] Instance same_ue_preorder : PreOrder same_ue.
Proof.
  split; [by intros ue; repeat split|]. intros a b c (H1 & H2 & H3 & H4) (G1 & G2 & G3 & G4).
  repeat split; congruence.
Qed.

Section gnb.
Variable prep : gnb_ue -> gnb_ue * bool.
Variable phf : Z -> Z.
Variable harq_pid : Z.

(** A sub-PDU [x] that the gNB reads as a whole: the new state, the calls to RLC, and the
    SDUs that it counts. *)
Definition ul_reads (ue : gnb_ue) (x : list Z) (ue' : gnb_ue) (calls : list gnb_call) (n : Z) : Prop :=
  0 < zlen x /\ forall pre post p, p = zlen pre -> exists hdr lcid mac_len,
    decode_ul_mac_sub_pdu_header (pre ++ x ++ post) p = Ok (hdr, lcid, mac_len) /\ hdr + mac_len = zlen x /\
    ul_sub_pdu prep phf ue (pre ++ x ++ post) p hdr lcid mac_len harq_pid = Ok (ue', calls, Break n).

(** A sequence of them. *)
Inductive ul_reads_all : gnb_ue -> list (list Z) -> gnb_ue -> list gnb_call -> Prop :=
| ul_reads_nil ue : ul_reads_all ue [] ue []
| ul_reads_cons ue x ue1 c n xs ue2 cs :
    ul_reads ue x ue1 c n -> ul_reads_all ue1 xs ue2 cs -> ul_reads_all ue (x :: xs) ue2 (c ++ cs).

Lemma ul_reads_app ue xs ue1 cs ys ue2 ds : ul_reads_all ue xs ue1 cs -> ul_reads_all ue1 ys ue2 ds ->
  ul_reads_all ue (xs ++ ys) ue2 (cs ++ ds).
Proof.
  induction 1 as [|ue x ue' c n xs ue1 cs Hx _ IH]; intros Hy; [done|]. cbn. rewrite <- app_assoc.
  eapply ul_reads_cons; eauto.
Qed.

Lemma padding_header pre r post p : p = zlen pre ->
  decode_ul_mac_sub_pdu_header (pre ++ (63 :: r) ++ post) p = Ok (1, 63, 0).
Proof. intros Hp. unfold decode_ul_mac_sub_pdu_header. rewrite (zget_head pre 63 r post p Hp). done. Qed.

(** The gNB reads a block of sub-PDUs, up to padding or to its end. *)
Lemma ul_pdu_reads ue xs ue' calls : ul_reads_all ue xs ue' calls -> forall pre post pad p len fuel sdus,
  p = zlen pre -> pad = [] \/ (exists r, pad = 63 :: r) -> len = zlen (concat xs) + zlen pad ->
  (Z.to_nat len < fuel)%nat -> exists ue'',
  ul_pdu_loop prep phf fuel ue (pre ++ concat xs ++ pad ++ post) p len harq_pid sdus = Ok (ue'', calls, 0) /\
  same_ue ue' ue'' /\ estimated_ul_buffer ue'' = estimated_ul_buffer ue' /\ ph0 ue'' = ph0 ue' /\
  pcmax ue'' = pcmax ue'.
Proof.
  induction 1 as [ue|ue x ue1 c n xs ue2 cs [Hx Hr] _ IH]; intros pre post pad p len fuel sdus Hp Hpad Hlen Hf.
  - destruct fuel as [|fuel]; [lia|]. cbn [ul_pdu_loop]. cbn [concat] in *. rewrite zlen_nil in Hlen.
    destruct Hpad as [->|[r ->]].
    + subst len. eexists. split; [done|]. by repeat split.
    + rewrite zlen_cons in Hlen. pose proof (zlen_nonneg r).
      rewrite Z.gtb_ltb, (proj2 (Z.ltb_lt 0 len)) by lia. rewrite app_nil_l, (padding_header pre r post p Hp).
      rewrite res_bind_unfold, Z.gtb_ltb, (proj2 (Z.ltb_ge len (1 + 0))) by lia.
      exists ue. split; [done|]. by repeat split.
  - destruct fuel as [|fuel]; [lia|]. cbn [ul_pdu_loop concat] in *. rewrite zlen_app in Hlen.
    pose proof (zlen_nonneg (concat xs)). pose proof (zlen_nonneg pad).
    rewrite Z.gtb_ltb, (proj2 (Z.ltb_lt 0 len)) by lia. rewrite <- app_assoc.
    destruct (Hr pre (concat xs ++ pad ++ post) p Hp) as (hdr & lcid & mac_len & E1 & Hm & E2).
    rewrite E1, res_bind_unfold. rewrite Z.gtb_ltb, (proj2 (Z.ltb_ge len (hdr + mac_len))) by lia.
    rewrite E2, res_bind_unfold. rewrite (app_assoc pre).
    destruct (IH (pre ++ x) post pad (p + hdr + mac_len) (len - hdr - mac_len) fuel (sdus + n))
      as (ue'' & E & Hs); [rewrite zlen_app; lia|done|lia|lia|].
    rewrite E, res_bind_unfold. by exists ue''.
Qed.

(** The calls to RLC for an SDU. *)
Definition ul_sdu_calls (ue : gnb_ue) (c : Z * list Z) : list gnb_call :=
  match nr_mac_get_lc_config ue (fst c) with Some false => [c] | _ => [] end.

Definition ul_channel (l : Z) : Prop := 1 <= l <= 32 /\ l <> 3.

Lemma ul_decode_sdu l sdu x : ul_channel l -> x = long_sdu l sdu /\ zlen sdu < 65536 \/
  x = short_sdu l sdu /\ zlen sdu < 256 -> exists hdr, hdr + zlen sdu = zlen x /\ forall pre post p, p = zlen pre ->
  decode_ul_mac_sub_pdu_header (pre ++ x ++ post) p = Ok (hdr, l, zlen sdu) /\
  zslice (pre ++ x ++ post) (p + hdr) (zlen sdu) = Ok sdu.
Proof.
  intros [Hl H3] Hx. pose proof (zlen_nonneg sdu).
  destruct (subheader_fields l ltac:(lia)) as (L0 & F0 & L1 & F1). unfold LCID in L0, L1.
  assert (Hsw : (l =? UL_SCH_LCID_CCCH_64_BITS) = false /\
    ((l =? UL_SCH_LCID_SRB1) || (l =? UL_SCH_LCID_SRB2) || ((UL_SCH_LCID_DTCH <=? l) && (l <=? UL_SCH_LCID_DTCH + 28))
      || (l =? UL_SCH_LCID_L_TRUNCATED_BSR) || (l =? UL_SCH_LCID_L_BSR)) = true).
  { split; [apply Z.eqb_neq; cbv; lia|]. rewrite !orb_true_iff, andb_true_iff, !Z.eqb_eq, !Z.leb_le.
    unfold UL_SCH_LCID_SRB1, UL_SCH_LCID_SRB2, UL_SCH_LCID_DTCH. lia. }
  destruct Hsw as [Hs0 Hs1]. destruct Hx as [ [-> Hz] | [-> Hz] ].
  - exists 3. split; [by rewrite zlen_long_sdu|]. intros pre post p Hp.
    split; [|unfold long_sdu; by apply zslice_mid; [rewrite Hp|] ]. unfold decode_ul_mac_sub_pdu_header.
    rewrite <- (Z.add_0_r p) at 1. pose proof (zlen_long_sdu l sdu).
    rewrite !(zget_mid pre (long_sdu l sdu) post) by lia.
    unfold long_sdu, NR_MAC_SUBHEADER_LONG. cbn [app]. rewrite zget_0, zget_1, zget_2, !res_bind_unfold.
    cbv zeta. rewrite L1, F1, Hs0, Hs1. rewrite long_length by lia. unfold u16. by rewrite Z.mod_small by lia.
  - exists 2. split; [by rewrite zlen_short_sdu|]. intros pre post p Hp.
    split; [|unfold short_sdu; by apply zslice_mid; [rewrite Hp|] ]. unfold decode_ul_mac_sub_pdu_header.
    rewrite <- (Z.add_0_r p) at 1. pose proof (zlen_short_sdu l sdu).
    rewrite (zget_mid pre (short_sdu l sdu) post 0 p), (zget_mid pre (short_sdu l sdu) post 1 p) by lia.
    unfold short_sdu, NR_MAC_SUBHEADER_SHORT. cbn [app]. rewrite zget_0, zget_1, !res_bind_unfold.
    cbv zeta. rewrite L0, F0, Hs0, Hs1. by rewrite short_length by lia.
Qed.

Lemma add_lc_bytes_ok bytes lcid n : zlen bytes = 64 -> 0 <= lcid < 64 -> exists bytes',
  add_lc_bytes bytes lcid n = Ok bytes' /\ zlen bytes' = 64.
Proof.
  intros Hb Hl. unfold add_lc_bytes.
  destruct (lookup_lt_is_Some_2 bytes (Z.to_nat lcid)) as [v Ev]; [unfold zlen in *; lia|].
  rewrite (proj2 (zget_ok bytes lcid v)) by (split; [lia|done]). rewrite res_bind_unfold, zset_ok by lia.
  eexists. split; [done|]. by rewrite zlen_insert.
Qed.

Lemma ul_sdu_cases ue l sdu : ul_channel l -> has_CellGroup ue = true -> zlen (lc_bytes ue) = 64 ->
  exists ue' n, same_ue ue ue' /\ forall b p hdr, zslice b (p + hdr) (zlen sdu) = Ok sdu ->
    ul_sub_pdu prep phf ue b p hdr l (zlen sdu) harq_pid = Ok (ue', ul_sdu_calls ue (l, sdu), Break n).
Proof.
  intros [Hl H3] Hcg Hb. destruct (add_lc_bytes_ok (lc_bytes ue) l (zlen sdu) Hb ltac:(lia)) as (bytes & Eb & Hb').
  assert (Hcc : ((l =? UL_SCH_LCID_CCCH_64_BITS) || (l =? UL_SCH_LCID_CCCH_48_BITS_REDCAP)
     || (l =? UL_SCH_LCID_CCCH_48_BITS)) = false) by (rewrite !orb_false_iff, !Z.eqb_neq; cbv; lia).
  assert (Hc : (l = 1 \/ l = 2) /\ ((l =? UL_SCH_LCID_SRB1) || (l =? UL_SCH_LCID_SRB2)) = true \/
    4 <= l <= 32 /\ ((l =? UL_SCH_LCID_SRB1) || (l =? UL_SCH_LCID_SRB2)) = false /\
    ((UL_SCH_LCID_DTCH <=? l) && (l <=? UL_SCH_LCID_DTCH + 28)) = true).
  { unfold UL_SCH_LCID_SRB1, UL_SCH_LCID_SRB2, UL_SCH_LCID_DTCH. zcases; lia || naive_solver. }
  unfold ul_sdu_calls. cbn [fst snd]. unfold ul_sub_pdu, ul_srb, ul_drb. destruct Hc as [ [_ E] | (_ & E & E') ].
  - destruct (nr_mac_get_lc_config ue l) as [ [|] |]; [exists ue, 0|eexists _, 0|exists ue, 0].
    all: split; [|intros b p hdr Hsl; rewrite Hcc, E, Hcg, ?Hsl, ?Eb; done].
    all: by repeat split; cbn; rewrite ?Hb, ?Hb'.
  - destruct (nr_mac_get_lc_config ue l) as [ [|] |]; [exists ue, 0|eexists _, 1|exists ue, 0].
    all: split; [|intros b p hdr Hsl; rewrite Hcc, E, E', ?Hsl, ?Eb; done].
    all: by repeat split; cbn; rewrite ?Hb, ?Hb'.
Qed.

(** An SDU with either subheader. *)
Lemma ul_reads_sdu ue l sdu x : ul_channel l -> has_CellGroup ue = true -> zlen (lc_bytes ue) = 64 ->
  x = long_sdu l sdu /\ zlen sdu < 65536 \/ x = short_sdu l sdu /\ zlen sdu < 256 ->
  exists ue' n, same_ue ue ue' /\ ul_reads ue x ue' (ul_sdu_calls ue (l, sdu)) n.
Proof.
  intros Hl Hcg Hb Hx. destruct (ul_decode_sdu l sdu x Hl Hx) as (hdr & Hh & Hd).
  destruct (ul_sdu_cases ue l sdu Hl Hcg Hb) as (ue' & n & Hs & Hc). exists ue', n. split; [done|].
  split; [pose proof (zlen_nonneg sdu); destruct Hx as [ [-> _] | [-> _] ]; rewrite ?zlen_long_sdu, ?zlen_short_sdu; lia|].
  intros pre post p Hp. destruct (Hd pre post p Hp) as [E1 E2]. exists hdr, l, (zlen sdu). by rewrite E1, (Hc _ _ _ E2).
Qed.

(** A control element of fixed size is decoded as such. *)
Lemma ul_decode_fixed l body : 0 <= l < 64 ->
  decode_ul_mac_sub_pdu_header [l mod 64] 0 = Ok (1, l, zlen body) -> forall pre post p, p = zlen pre ->
  decode_ul_mac_sub_pdu_header (pre ++ (NR_MAC_SUBHEADER_FIXED l ++ body) ++ post) p = Ok (1, l, zlen body).
Proof.
  intros Hl Hd pre post p Hp. destruct (subheader_fields l Hl) as (L & _ & _ & _).
  change (NR_MAC_SUBHEADER_FIXED l ++ body) with (l mod 64 :: body).
  unfold decode_ul_mac_sub_pdu_header in *. rewrite (zget_head pre (l mod 64) body post p Hp).
  change (zget [l mod 64] 0) with (Ok (l mod 64)) in Hd. rewrite res_bind_unfold in *. cbv zeta in *.
  unfold LCID in L. rewrite L in *.
  destruct (l =? UL_SCH_LCID_CCCH_64_BITS); [done|]. destruct (_ || _ || _ || _ || _); [|done].
  exfalso. destruct (F (l mod 64)); vm_compute in Hd; discriminate.
Qed.

(** The power headroom report. *)
Lemma ul_reads_phr ue v0 v1 : 0 <= harq_pid ->
  ul_reads ue (NR_MAC_SUBHEADER_FIXED UL_SCH_LCID_SINGLE_ENTRY_PHR ++ [v0; v1])
    (set_headroom ue (headroom_of (Z.land v0 63) + phf harq_pid) (headroom_of (Z.land v0 63)) (Z.land v1 63 - 29)) [] 0.
Proof.
  intros Hpid. split; [done|]. intros pre post p Hp. exists 1, UL_SCH_LCID_SINGLE_ENTRY_PHR, 2.
  split; [by apply (ul_decode_fixed UL_SCH_LCID_SINGLE_ENTRY_PHR [v0; v1])|]. split; [done|].
  set (b := pre ++ _ ++ post). assert (E : zget b (p + 1) = Ok v0 /\ zget b (p + 1 + 1) = Ok v1).
  { unfold b. replace (p + 1 + 1) with (p + 2) by lia. by rewrite !zget_mid by done. }
  destruct E as [E1 E2]. change (ul_sub_pdu prep phf ue b p 1 UL_SCH_LCID_SINGLE_ENTRY_PHR 2 harq_pid)
    with (ul_phr phf ue b p 1 harq_pid). unfold ul_phr.
  rewrite (proj2 (Z.ltb_ge harq_pid 0)) by lia. rewrite E1, res_bind_unfold, E2. done.
Qed.

(** A short report, truncated or not. *)
Lemma ul_reads_short ue l v e : l = UL_SCH_LCID_S_BSR \/ l = UL_SCH_LCID_S_TRUNCATED_BSR ->
  estimate_ul_buffer_short_bsr v = Ok e ->
  ul_reads ue (NR_MAC_SUBHEADER_FIXED l ++ [v]) (set_buffer ue e 0) [] 0.
Proof.
  intros Hl He. split; [by destruct Hl as [-> | ->]|]. intros pre post p Hp. exists 1, l, 1.
  split; [by destruct Hl as [-> | ->]; apply (ul_decode_fixed _ [v])|]. split; [done|].
  set (b := pre ++ _ ++ post). assert (E : zget b (p + 1) = Ok v) by (unfold b; by rewrite zget_mid by done).
  transitivity (ce ← zget b (p + 1); e ← estimate_ul_buffer_short_bsr ce;
    mret (set_buffer ue e 0, @nil gnb_call, Break 0)); [by destruct Hl as [-> | ->]|].
  by rewrite E, res_bind_unfold, He.
Qed.

(** A long report, truncated or not. *)
Lemma ul_reads_long ue l body e : l = UL_SCH_LCID_L_BSR \/ l = UL_SCH_LCID_L_TRUNCATED_BSR -> zlen body < 256 ->
  (forall pre post, estimate_ul_buffer_long_bsr (pre ++ body ++ post) (zlen pre) = Ok e) ->
  ul_reads ue (short_sdu l body) (set_buffer ue e 0) [] 0.
Proof.
  intros Hl Hb He. pose proof (zlen_nonneg body). pose proof (zlen_short_sdu l body) as Hz.
  split; [lia|]. intros pre post p Hp. exists 2, l, (zlen body). split; [|split; [done|] ].
  - unfold decode_ul_mac_sub_pdu_header. rewrite <- (Z.add_0_r p) at 1.
    rewrite (zget_mid pre (short_sdu l body) post 0 p), (zget_mid pre (short_sdu l body) post 1 p) by lia.
    unfold short_sdu, NR_MAC_SUBHEADER_SHORT. cbn [app]. rewrite zget_0, zget_1, !res_bind_unfold, short_length by lia.
    by destruct Hl as [-> | ->].
  - set (b := pre ++ _ ++ post).
    transitivity (e ← estimate_ul_buffer_long_bsr b (p + 2); mret (set_buffer ue e 0, @nil gnb_call, Break 0));
      [by destruct Hl as [-> | ->]|].
    unfold b, short_sdu. rewrite <- app_assoc, app_assoc. replace (p + 2) with (zlen (pre ++ NR_MAC_SUBHEADER_SHORT l (zlen body)))
      by (by rewrite zlen_app, Hp). by rewrite He.
Qed.

(** ** Any bytes

    A PDU of [len] bytes at the start of a buffer with at least [SLACK] bytes more: the
    length of a subheader is read before it is compared, and a long report is read as its
    bits say. *)

Definition SLACK : Z := 9.

(** [prepare_initial_ul_rrc_message] leaves alone what the reception relies on. *)
Hypothesis Hprep : forall ue, same_ue ue (fst (prep ue)).

(** The gNB is past the start of a random access. *)
Definition robust (ue : gnb_ue) : Prop :=
  has_CellGroup ue = true /\ zlen (lc_bytes ue) = 64 /\ ra ue <> Some nrRA_gNB_IDLE.

Lemma robust_same ue ue' : same_ue ue ue' -> robust ue -> robust ue'.
Proof. intros (_ & E1 & E2 & E3) (H1 & H2 & H3). split; [congruence|]. split; congruence. Qed.

Lemma byte_at b p : Forall is_byte b -> 0 <= p < zlen b -> exists v, zget b p = Ok v /\ 0 <= v < 256.
Proof.
  intros Hb Hp. destruct (lookup_lt_is_Some_2 b (Z.to_nat p)) as [v Ev]; [unfold zlen in *; lia|].
  exists v. split; [by apply zget_ok; split; [lia|] |]. by apply (Forall_lookup_1 _ _ _ _ Hb Ev).
Qed.

Lemma header_range b p : Forall is_byte b -> 0 <= p -> p + 2 < zlen b -> exists hdr lcid mac_len,
  decode_ul_mac_sub_pdu_header b p = Ok (hdr, lcid, mac_len) /\ 1 <= hdr <= 3 /\ 0 <= lcid < 64 /\ 0 <= mac_len /\
  (lcid = UL_SCH_LCID_SINGLE_ENTRY_PHR -> hdr = 1 /\ mac_len = 2) /\
  (lcid = UL_SCH_LCID_S_BSR \/ lcid = UL_SCH_LCID_S_TRUNCATED_BSR -> hdr = 1 /\ mac_len = 1).
Proof.
  intros Hb Hp Hlen. destruct (byte_at b p Hb ltac:(lia)) as (h & Eh & Hh).
  destruct (byte_at b (p + 1) Hb ltac:(lia)) as (l1 & E1 & H1). destruct (byte_at b (p + 2) Hb ltac:(lia)) as (l2 & E2 & H2).
  unfold decode_ul_mac_sub_pdu_header. rewrite Eh, res_bind_unfold, E1, E2, !res_bind_unfold. cbv zeta.
  assert (Hl : 0 <= Z.land h 63 < 64).
  { change 63 with (2 ^ 6 - 1) at 1 2. rewrite land_mask by done. apply Z.mod_pos_bound. done. }
  set (l := Z.land h 63) in *. clearbody l.
  assert (Hu : 0 <= u16 (l1 * 256 + l2)) by (unfold u16; apply Z.mod_pos_bound; done).
  unfold UL_SCH_LCID_SINGLE_ENTRY_PHR, UL_SCH_LCID_S_BSR, UL_SCH_LCID_S_TRUNCATED_BSR, UL_SCH_LCID_CCCH_64_BITS, UL_SCH_LCID_SRB1,
    UL_SCH_LCID_CCCH_48_BITS_REDCAP, UL_SCH_LCID_CCCH_48_BITS,
    UL_SCH_LCID_SRB2, UL_SCH_LCID_DTCH, UL_SCH_LCID_L_TRUNCATED_BSR, UL_SCH_LCID_L_BSR, UL_SCH_LCID_C_RNTI in *.
  destruct (Z.eqb_spec l 0); [eexists _, _, _; split; [done|]; lia|].
  destruct (_ || _ || _ || _ || _) eqn:Eor.
  { rewrite !orb_true_iff, !andb_true_iff, !Z.eqb_eq, !Z.leb_le in Eor.
    destruct (F h); (eexists _, _, _; split; [done|]; lia). }
  clear Eor. destruct (Z.eqb_spec l 35), (Z.eqb_spec l 52), (Z.eqb_spec l 57), (Z.eqb_spec l 58), (Z.eqb_spec l 59), (Z.eqb_spec l 61);
    cbn [orb]; try lia; (eexists _, _, _; split; [done|]; lia).
Qed.

Lemma all_zero_total b p n : Forall is_byte b -> 0 <= p -> p + Z.of_nat n <= zlen b -> exists z, all_zero b p n = Ok z.
Proof.
  intros Hb. revert p. induction n as [|n IH]; intros p Hp Hlen; [by exists true|]. cbn [all_zero].
  destruct (byte_at b p Hb ltac:(lia)) as (v & -> & _). rewrite res_bind_unfold.
  destruct (v =? 0); [apply IH; lia|by exists false].
Qed.

Lemma long_bsr_total b p : Forall is_byte b -> 0 <= p -> p + SLACK <= zlen b -> exists e, estimate_ul_buffer_long_bsr b p = Ok e.
Proof.
  intros Hb Hp Hlen. unfold SLACK in Hlen. unfold estimate_ul_buffer_long_bsr.
  destruct (byte_at b p Hb ltac:(lia)) as (mask & -> & _). rewrite res_bind_unfold.
  destruct (res_foldl_seqZ (fun k (w : Z * Z) => 0 <= snd w <= k) (fun '(estim_size, m) n =>
      if Z.testbit mask n then
        rep_idx ← zget b (p + 1 + m);
        v ← get_long_bsr_value (Z.min (overestim_bsr_index rep_idx) (NR_LONG_BSR_TABLE_SIZE - 1));
        mret (i32 (estim_size + v), m + 1)
      else mret (estim_size, m)) (0, 0) 0 8) as ([e m] & E & _); [lia|cbn; lia| |rewrite E, res_bind_unfold; by exists e].
  intros k [e m] Hk Hm. cbn [snd] in Hm. destruct (Z.testbit mask k); [|exists (e, m); split; [done|]; cbn; lia].
  destruct (byte_at b (p + 1 + m) Hb ltac:(lia)) as (v & -> & Hv). rewrite res_bind_unfold.
  change get_long_bsr_value with (get_bsr_value NR_LONG_BSR_TABLE_SIZE).
  rewrite get_bsr_value_ok; [|by right|by apply overestim_range; [right|] ]. rewrite res_bind_unfold.
  eexists. split; [done|]. cbn. lia.
Qed.

Lemma slice_total {A} (b : list A) p n : 0 <= p -> 0 <= n -> p + n <= zlen b -> exists x, zslice b p n = Ok x.
Proof. intros. rewrite zslice_ok by lia. by eexists. Qed.

(** One sub-PDU. *)
Lemma ul_sub_total ue b p hdr lcid mac_len : robust ue -> Forall is_byte b -> 0 <= p -> 0 <= lcid < 64 -> 1 <= hdr -> 0 <= mac_len ->
  p + hdr + mac_len + SLACK <= zlen b ->
  (lcid = UL_SCH_LCID_SINGLE_ENTRY_PHR -> hdr = 1 /\ mac_len = 2) ->
  (lcid = UL_SCH_LCID_S_BSR \/ lcid = UL_SCH_LCID_S_TRUNCATED_BSR -> hdr = 1 /\ mac_len = 1) ->
  exists ue' calls f, ul_sub_pdu prep phf ue b p hdr lcid mac_len harq_pid = Ok (ue', calls, f) /\ robust ue'.
Proof.
  intros Hr Hb Hp Hl Hh Hm Hlen Hphr Hbsr. unfold SLACK in Hlen. pose proof Hr as (Hcg & H64 & Hra).
  destruct (slice_total b (p + hdr) mac_len ltac:(lia) Hm ltac:(lia)) as (sdu & Esdu).
  destruct (add_lc_bytes_ok (lc_bytes ue) lcid mac_len H64 Hl) as (bytes & Eb & Hb64).
  unfold ul_sub_pdu. destruct (_ || _ || _).
  { unfold ul_ccch. destruct (all_zero_total b p (Z.to_nat (hdr + mac_len)) Hb Hp ltac:(lia)) as (z & Ez).
    assert (Hz : exists z', (if lcid =? UL_SCH_LCID_CCCH_64_BITS then all_zero b p (Z.to_nat (hdr + mac_len)) else mret false) = Ok z')
      by (destruct (_ =? _); [by exists z|by exists false]).
    destruct Hz as (z' & ->). rewrite res_bind_unfold. destruct z'; [by eexists _, _, _|]. cbv zeta.
    set (ue1 := if lcid =? UL_SCH_LCID_CCCH_48_BITS_REDCAP then set_redcap ue else ue).
    assert (Hr1 : robust ue1) by (unfold ue1; by destruct (_ =? _)).
    pose proof (robust_same _ _ (Hprep ue1) Hr1) as Hr2. destruct (prep ue1) as [ue2 [|] ]; cbn [fst] in Hr2; [|by eexists _, _, _].
    rewrite Esdu, res_bind_unfold. by eexists _, _, _. }
  destruct (_ || _).
  { unfold ul_srb. rewrite Hcg, dev_assert_ok, res_bind_unfold by done.
    destruct (nr_mac_get_lc_config ue lcid) as [ [|] |]; [by eexists _, _, _| |by eexists _, _, _].
    rewrite Esdu, res_bind_unfold, Eb, res_bind_unfold. by eexists _, _, _. }
  destruct (_ && _).
  { unfold ul_drb. destruct (nr_mac_get_lc_config ue lcid) as [ [|] |]; [by eexists _, _, _| |by eexists _, _, _].
    rewrite Eb, res_bind_unfold, Esdu, res_bind_unfold. by eexists _, _, _. }
  destruct (_ || _ || _ || _); [by eexists _, _, _|].
  destruct (Z.eqb_spec lcid UL_SCH_LCID_SINGLE_ENTRY_PHR) as [E|_].
  { destruct (Hphr E) as [-> ->]. unfold ul_phr. destruct (harq_pid <? 0); [by eexists _, _, _|].
    destruct (byte_at b (p + 1) Hb ltac:(lia)) as (v0 & -> & _). destruct (byte_at b (p + 1 + 1) Hb ltac:(lia)) as (v1 & -> & _).
    rewrite !res_bind_unfold. by eexists _, _, _. }
  destruct (lcid =? UL_SCH_LCID_C_RNTI); [destruct (ra ue) as [ [] |]; done || by eexists _, _, _|].
  destruct (Z.eqb_spec lcid UL_SCH_LCID_S_TRUNCATED_BSR) as [E1|_]; [|destruct (Z.eqb_spec lcid UL_SCH_LCID_S_BSR) as [E2|_] ].
  3: { cbn [orb]. destruct (_ || _).
    - destruct (long_bsr_total b (p + hdr) Hb ltac:(lia) ltac:(unfold SLACK; lia)) as (e & ->). rewrite res_bind_unfold. by eexists _, _, _.
    - destruct (_ =? _); by eexists _, _, _. }
  all: cbn [orb]; destruct Hbsr as [-> ->]; [by auto|]; destruct (byte_at b (p + 1) Hb ltac:(lia)) as (v & -> & Hv).
  all: rewrite res_bind_unfold; assert (Hv31 : v = v mod 32 + 32 * (v / 32)) by (rewrite Z.add_comm; apply Z.div_mod; done).
  all: rewrite Hv31, short_estimate, res_bind_unfold by (apply Z.mod_pos_bound; done); by eexists _, _, _.
Qed.

(** The whole PDU. *)
Lemma ul_pdu_total b : Forall is_byte b -> forall fuel ue p len sdus, robust ue -> 0 <= p -> 0 <= len -> p + len + SLACK <= zlen b ->
  (Z.to_nat len < fuel)%nat -> exists ue' calls code,
  ul_pdu_loop prep phf fuel ue b p len harq_pid sdus = Ok (ue', calls, code) /\ robust ue'.
Proof.
  intros Hb. induction fuel as [|fuel IH]; intros ue p len sdus Hr Hp Hl Hlen Hf; [lia|]. cbn [ul_pdu_loop].
  destruct (Z.gtb_spec len 0) as [H0|H0]; [|by eexists _, _, _]. unfold SLACK in Hlen.
  destruct (header_range b p Hb Hp ltac:(lia)) as (hdr & lcid & mac_len & -> & Hh & Hlc & Hm & H1 & H2). rewrite res_bind_unfold.
  destruct (Z.gtb_spec (hdr + mac_len) len) as [Hbig|Hfit]; [by eexists _, _, _|].
  destruct (ul_sub_total ue b p hdr lcid mac_len Hr Hb Hp Hlc ltac:(lia) Hm ltac:(unfold SLACK; lia) H1 H2) as (ue1 & c & f & -> & Hr1).
  rewrite res_bind_unfold. destruct f as [n|code]; [|by eexists _, _, _].
  destruct (IH ue1 (p + hdr + mac_len) (len - hdr - mac_len) (sdus + n) Hr1 ltac:(lia) ltac:(lia) ltac:(unfold SLACK; lia) ltac:(lia))
    as (ue2 & c2 & code & -> & Hr2). rewrite res_bind_unfold. by eexists _, _, _.
Qed.

End gnb.

End MacPduSpec.
