(* ===== verification/MacMuxSpec.v ===== *)
(** * Multiplexing: what the transmitters write

    [writes ue f n calls]: the writer [f] adds [n] bytes behind what a buffer holds, and
    they are sub-PDUs for which the UE makes [calls].  Writers in sequence add up, so the
    block of [fill_dl_transport_block] is read by the UE as what RLC has given to it. *)

From S2P Require Import Prelude MacPdu MacPduSpec MacMux.

Module MacMuxSpec.
Import MacMux MacPduSpec.

(** A buffer of [N] bytes that starts with [pre], with its position behind [pre]. *)
Definition holds (w : list Z * Z) (pre : list Z) (N : Z) : Prop :=
  exists rest, fst w = pre ++ rest /\ snd w = zlen pre /\ zlen (fst w) = N.

Lemma holds_start b : holds (b, 0) [] (zlen b).
Proof. by exists b. Qed.

Lemma write_ok w pre N x : holds w pre N -> zlen pre + zlen x <= N ->
  exists w', put w x = Ok w' /\ holds w' (pre ++ x) N.
Proof.
  intros (rest & E & Hp & HN) Hx. destruct w as [b p]. cbn [fst snd] in *. subst b.
  rewrite zlen_app in HN. unfold put. cbn [fst snd]. rewrite zwrite_append by lia.
  rewrite res_bind_unfold. eexists. split; [done|]. eexists. cbn [fst snd]. split; [done|].
  unfold zlen in *. rewrite !length_app, length_drop. lia.
Qed.

(** RLC writes behind the place of the subheader [h], which is written later. *)
Lemma put_behind b buf pre N h sdu : holds (b, buf) pre N -> zlen pre + zlen h + zlen sdu <= N ->
  exists b1 b2, zwrite b (buf + zlen h) sdu = Ok b1 /\ holds (b1, buf) pre N /\
    zwrite b1 buf h = Ok b2 /\ holds (b2, buf + zlen h + zlen sdu) (pre ++ h ++ sdu) N.
Proof.
  intros (rest & E & Hp & HN) Hx. cbn [fst snd] in *. subst b buf. rewrite zlen_app in HN.
  pose proof (zlen_nonneg sdu). pose proof (zlen_nonneg h).
  assert (Hrest : exists r1 r2, rest = r1 ++ r2 /\ zlen r1 = zlen h).
  { exists (take (length h) rest), (drop (length h) rest). rewrite take_drop, zlen_take. unfold zlen in *. split; [done|lia]. }
  destruct Hrest as (r1 & r2 & -> & Hr1). rewrite zlen_app in HN. rewrite app_assoc.
  rewrite zwrite_append by (rewrite ?zlen_app; lia). rewrite <- !app_assoc.
  assert (Hz : zlen (drop (length sdu) r2) = zlen r2 - zlen sdu) by (rewrite zlen_drop; unfold zlen in *; lia).
  eexists _, _. split; [done|]. split.
  { eexists. split; [done|]. split; [done|]. cbn [fst]. rewrite !zlen_app. lia. }
  rewrite zwrite_append by (rewrite ?zlen_app; lia).
  split; [done|]. exists (drop (length sdu) r2). cbn [fst snd].
  rewrite drop_app_length' by (unfold zlen in *; lia).
  split; [by rewrite <- !app_assoc|]. rewrite !zlen_app. lia.
Qed.

Section dl.
Variable ue : ue_mac.

Definition writes (f : list Z * Z -> res (list Z * Z)) (n : Z) (calls : list ue_call) : Prop :=
  forall w pre N, holds w pre N -> zlen pre + n <= N ->
  exists w' xs cs, f w = Ok w' /\ holds w' (pre ++ concat xs) N /\ zlen (concat xs) = n /\
    Forall2 (dl_reads ue) xs cs /\ concat cs = calls.

Lemma writes_nothing : writes mret 0 [].
Proof.
  intros w pre N Hw _. exists w, [], []. cbn. rewrite app_nil_r. repeat split; done || constructor.
Qed.

Lemma writes_bind f g n m c d : 0 <= m -> writes f n c -> writes g m d ->
  writes (fun w => f w ≫= g) (n + m) (c ++ d).
Proof.
  intros Hm Hf Hg w pre N Hw HN.
  destruct (Hf w pre N Hw ltac:(lia)) as (w1 & xs & cs & E1 & Hw1 & Hn & H1 & Hc).
  destruct (Hg w1 (pre ++ concat xs) N Hw1 ltac:(rewrite zlen_app; lia)) as (w2 & ys & ds & E2 & Hw2 & Hm2 & H2 & Hd).
  exists w2, (xs ++ ys), (cs ++ ds). rewrite E1, res_bind_unfold, !concat_app, app_assoc, zlen_app.
  repeat split; try done; [lia|by apply Forall2_app|congruence].
Qed.

(** A subheader and a body, with a computation in between that does not fail. *)
Lemma writes_sub {A} h (m : res A) a f body c : m = Ok a -> f a = body -> dl_reads ue (h ++ body) c ->
  writes (fun w => w ← put w h; x ← m; put w (f x)) (zlen h + zlen body) c.
Proof.
  intros -> <- Hr w pre N Hw HN. pose proof (zlen_nonneg (f a)).
  destruct (write_ok w pre N h Hw ltac:(lia)) as (w1 & E1 & Hw1).
  destruct (write_ok w1 (pre ++ h) N (f a) Hw1 ltac:(rewrite zlen_app; lia)) as (w2 & E2 & Hw2).
  exists w2, [h ++ f a], [c]. rewrite E1, !res_bind_unfold. cbn. rewrite !app_nil_r, zlen_app, app_assoc.
  repeat split; try done. constructor; [exact Hr|constructor].
Qed.

Lemma writes_when {A} (o : option A) f n : (forall x, o = Some x -> writes (f x) (n x) []) ->
  writes (when o f) (match o with Some x => n x | None => 0 end) [].
Proof. intros Hf. destruct o as [x|]; [by apply Hf|apply writes_nothing]. Qed.

(** *** Control elements *)

Lemma writes_ta c tag : tag = tag_Id ue -> 0 <= tag < 4 -> ta_update c < 64 ->
  writes (write_ta c tag) (if ta_apply c then 2 else 0)
    (if ta_apply c then [SetTimeAlignment (ta_update c mod 64)] else []).
Proof.
  intros Ht Htag Hta. unfold write_ta. destruct (ta_apply c); [|apply writes_nothing].
  apply (writes_sub (NR_MAC_SUBHEADER_FIXED DL_SCH_LCID_TA_COMMAND) (dev_assert (ta_update c <? 64)) tt
    (fun _ => [pack [(ta_update c, 6); (tag, 2)] ]) [pack [(ta_update c, 6); (tag, 2)] ]); [|done|].
  - apply dev_assert_ok. by apply Z.ltb_lt.
  - replace (pack _) with (ta_update c mod 64 + 64 * tag); [by apply dl_reads_ta|].
    cbn [pack]. change (2 ^ 6) with 64. change (2 ^ 2) with 4. rewrite (Z.mod_small tag) by lia. lia.
Qed.

Lemma writes_fixed lcid body : 47 <= lcid < 64 -> dl_variable_ce lcid = false ->
  dl_fixed_len lcid = Some (zlen body) ->
  writes (fun w => w ← put w (NR_MAC_SUBHEADER_FIXED lcid); put w body) (1 + zlen body) [].
Proof.
  intros Hl Hv Hf.
  refine (writes_sub (NR_MAC_SUBHEADER_FIXED lcid) (mret tt) tt (fun _ => body) body [] _ _ _); [done|done|].
  by apply dl_reads_fixed.
Qed.

Lemma state_octets_ok flags n : zlen flags = 128 -> 0 <= n <= 16 -> exists T,
  state_octets flags n = Ok T /\ zlen T = n.
Proof.
  intros Hf Hn. unfold state_octets.
  destruct (res_foldl_seqZ (fun _ T => zlen T = n) (fun T i =>
      f ← zget flags i;
      if f : bool then
        t ← zget T (i / 8);
        zset T (i / 8) (Z.lor t (Z.shiftl 1 (i mod 8)))
      else mret T) (replicate (Z.to_nat n) 0) 0 (n * 8)) as (T & E & HT); [lia| | |by exists T].
  - unfold zlen. rewrite length_replicate. lia.
  - intros i T Hi HT. destruct (lookup_lt_is_Some_2 flags (Z.to_nat i)) as [f Ef]; [unfold zlen in *; lia|].
    rewrite (proj2 (zget_ok flags i f)) by (split; [lia|done]). rewrite res_bind_unfold.
    destruct f; [|by exists T]. assert (0 <= i / 8 < n) by zmod.
    destruct (lookup_lt_is_Some_2 T (Z.to_nat (i / 8))) as [t Et]; [unfold zlen in *; lia|].
    rewrite (proj2 (zget_ok T (i / 8) t)) by (split; [lia|done]). rewrite res_bind_unfold, zset_ok by lia.
    eexists. split; [done|]. by rewrite zlen_insert.
Qed.

Definition states_ok (x : states_t) : Prop := 0 <= st_highest x < 128 /\ zlen (st_flags x) = 128.

Lemma writes_states lcid x : dl_variable_ce lcid = true -> 0 <= lcid < 64 -> states_ok x ->
  writes (write_states lcid x) (4 + st_highest x / 8) [].
Proof.
  intros Hv Hl [Hh Hf]. unfold write_states. assert (0 <= st_highest x / 8 < 16) by zmod.
  unfold u8. rewrite Z.mod_small by lia.
  destruct (state_octets_ok (st_flags x) (st_highest x / 8 + 1) Hf ltac:(lia)) as (T & E & HT).
  set (f := fun T => pack [(Z.land (st_bwpId x) 3, 2); (Z.land (st_servingCellId x) 31, 5); (0, 1)] :: T).
  assert (Hz : zlen (f T) = 1 + (st_highest x / 8 + 1)) by (unfold f; rewrite zlen_cons; lia).
  replace (4 + st_highest x / 8) with (zlen (NR_MAC_SUBHEADER_SHORT lcid (1 + (st_highest x / 8 + 1))) + zlen (f T))
    by (rewrite Hz; unfold zlen, NR_MAC_SUBHEADER_SHORT; cbn; lia).
  eapply (writes_sub _ _ T f (f T)); [exact E|done|]. rewrite <- Hz. apply dl_reads_variable; [done|done|lia].
Qed.

(** The control elements that the UE understands; the semi-persistent CSI-IM element is
    not one of them. *)
Record ce_ok (c : dl_ce_ctrl) : Prop := {
  ce_ta : ta_update c < 64;
  ce_sp_csi : forall x, SP_CSI_reporting_pucch c = Some x -> length (s0tos3_actDeact x) = 4%nat;
  ce_tci : forall x, pdsch_TCI_States_ActDeact c = Some x -> states_ok x;
  ce_trigger : forall x, aperi_CSI_trigger c = Some x -> states_ok x;
  ce_csi_im : csi_im c = None
}.

(** Their size. *)
Definition ce_size (c : dl_ce_ctrl) : Z :=
  (if ta_apply c then 2 else 0)
  + (0 + ((match pdcch_state_ind c with Some _ => 3 | None => 0 end)
  + ((match SP_CSI_reporting_pucch c with Some _ => 3 | None => 0 end)
  + ((match pdsch_TCI_States_ActDeact c with Some x => 4 + st_highest x / 8 | None => 0 end)
  + ((match aperi_CSI_trigger c with Some x => 4 + st_highest x / 8 | None => 0 end)
  + ((match sp_zp_csi_rs c with Some _ => 3 | None => 0 end) + 0)))))).

Definition ta_calls (c : dl_ce_ctrl) : list ue_call :=
  if ta_apply c then [SetTimeAlignment (ta_update c mod 64)] else [].

Lemma octets_bound (o : option states_t) : (forall x, o = Some x -> states_ok x) ->
  0 <= match o with Some x => 4 + st_highest x / 8 | None => 0 end <= 19.
Proof. intros H. destruct o as [x|]; [|lia]. destruct (H x eq_refl) as [Hh _]. zmod. Qed.

Lemma ce_size_bound c : ce_ok c -> 0 <= ce_size c <= 49.
Proof.
  intros [_ _ H1 H2 _]. unfold ce_size. pose proof (octets_bound _ H1). pose proof (octets_bound _ H2).
  destruct (ta_apply c), (pdcch_state_ind c), (SP_CSI_reporting_pucch c), (sp_zp_csi_rs c); lia.
Qed.

Lemma writes_ce c tag b : ce_ok c -> tag = tag_Id ue -> 0 <= tag < 4 -> ce_size c <= zlen b ->
  exists w xs cs, nr_write_ce_dlsch_pdu c tag b 255 None = Ok w /\ holds w (concat xs) (zlen b) /\
    zlen (concat xs) = ce_size c /\ Forall2 (dl_reads ue) xs cs /\ concat cs = ta_calls c.
Proof.
  intros [Hta Hsp Htci Htr Him] Ht Htag Hb. unfold nr_write_ce_dlsch_pdu. change (255 =? 255) with true. cbv iota.
  rewrite Him.
  pose proof (octets_bound _ Htci). pose proof (octets_bound _ Htr).
  assert (Hw : writes (fun w => w ← write_ta c tag w; w ← when None write_con_res w;
    w ← when (pdcch_state_ind c) write_pdcch_ind w; w ← when (SP_CSI_reporting_pucch c) write_sp_csi w;
    w ← when (pdsch_TCI_States_ActDeact c) (write_states DL_SCH_LCID_TCI_STATE_ACT_UE_SPEC_PDSCH) w;
    w ← when (aperi_CSI_trigger c) (write_states DL_SCH_LCID_APERIODIC_CSI_TRI_STATE_SUBSEL) w;
    w ← when (sp_zp_csi_rs c) write_sp_zp w; when None write_csi_im w) (ce_size c)
    (ta_calls c ++ [] ++ [] ++ [] ++ [] ++ [] ++ [] ++ [])).
  { unfold ce_size, ta_calls.
    destruct (pdcch_state_ind c), (SP_CSI_reporting_pucch c) as [sp|] eqn:Esp, (sp_zp_csi_rs c);
    (repeat first [ apply writes_bind; [lia| |] | apply writes_nothing | by apply writes_ta
                  | apply writes_when; intros ? Hx; apply writes_states; [done|done|by eauto]
                  | by apply (writes_fixed DL_SCH_LCID_TCI_STATE_IND_UE_SPEC_PDCCH)
                  | by apply (writes_fixed DL_SCH_LCID_SP_ZP_CSI_RS_RES_SET_ACT) ]).
    all: destruct sp as [cell bwp [|f0 [|f1 [|f2 [|f3 [|] ] ] ] ] r]; specialize (Hsp _ eq_refl); try discriminate Hsp.
    all: by apply (writes_fixed DL_SCH_LCID_SP_CSI_REP_PUCCH_ACT). }
  destruct (Hw (b, 0) [] (zlen b) (holds_start b)) as (w & xs & cs & E & Hh & Hn & Hr & Hc); [by rewrite zlen_nil|].
  exists w, xs, cs. repeat split; try done. by rewrite !app_nil_r in Hc.
Qed.

End dl.

(** ** What MAC needs of RLC *)

(** [I] holds of the states of RLC in which MAC can ask for data: RLC answers with at most
    the number of bytes it was asked for. *)
Class MacRlcLaws (S : Type) `{MacRlc S} (I : S -> Prop) : Prop := {
  data_req_ok : forall s lcid n, I s -> 1 <= lcid <= 32 -> 0 <= n -> exists s' sdu,
    nr_mac_rlc_data_req s lcid n = Ok (s', sdu) /\ I s' /\
    zlen sdu <= n /\ zlen sdu < 65536
}.

(** The SDUs that RLC hands out on the way from one state to another, with their logical
    channels. *)
Inductive served {S : Type} `{MacRlc S} : S -> list (Z * list Z) -> S -> Prop :=
| served_nil s : served s [] s
| served_empty s lcid n s1 l s2 :
    nr_mac_rlc_data_req s lcid n = Ok (s1, []) -> served s1 l s2 -> served s l s2
| served_sdu s lcid n s1 sdu l s2 :
    nr_mac_rlc_data_req s lcid n = Ok (s1, sdu) -> sdu <> [] -> served s1 l s2 ->
    served s ((lcid, sdu) :: l) s2.

Section served.
Context {S : Type} `{R : MacRlc S} {I : S -> Prop} `{L : !MacRlcLaws S I}.

Lemma served_app s1 l1 s2 l2 s3 : served s1 l1 s2 -> served s2 l2 s3 -> served s1 (l1 ++ l2) s3.
Proof. induction 1; intros H2; [done|..]; [eapply served_empty|eapply served_sdu]; eauto. Qed.

(** An SDU as RLC hands it out. *)
Definition sdu_ok (c : Z * list Z) : Prop :=
  1 <= fst c <= 32 /\ 0 < zlen (snd c) < 65536.

(** The SDUs of a downlink block. *)
Definition dl_sub_pdus (l : list (Z * list Z)) : list (list Z) := map (fun c => long_sdu (fst c) (snd c)) l.

Lemma dl_sub_pdus_reads ue l : Forall sdu_ok l -> Forall2 (dl_reads ue) (dl_sub_pdus l) (map (dl_sdu_calls ue) l).
Proof.
  induction 1 as [|[lcid sdu] l [Hl Hs] _ IH]; [constructor|]. cbn [fst snd] in *.
  constructor; [apply dl_reads_sdu; lia|done].
Qed.

(** One answer of RLC. *)
Lemma request_ok s lcid n : I s -> 1 <= lcid <= 32 -> 0 <= n -> exists s' sdu,
  nr_mac_rlc_data_req s lcid n = Ok (s', sdu) /\ I s' /\ zlen sdu <= n /\
  (zlen sdu = 0 /\ served s [] s' \/ zlen sdu <> 0 /\ served s [(lcid, sdu)] s' /\ sdu_ok (lcid, sdu)).
Proof.
  intros Hs Hl Hn. destruct (data_req_ok s lcid n Hs Hl Hn) as (s' & sdu & E & Hs' & Hz & Hmax).
  exists s', sdu. repeat split; try done. destruct sdu as [|x sdu]; [left|right].
  - split; [done|]. eapply served_empty; [done|constructor].
  - rewrite zlen_cons in *. pose proof (zlen_nonneg sdu). split; [lia|].
    split; [by eapply served_sdu; [done|..]; [|constructor]|]. split; [done|]. cbn [fst snd]. rewrite zlen_cons.
    lia.
Qed.

Lemma mux_sdus_ok lcid n bufEnd N : 1 <= lcid <= 32 -> 0 <= n -> bufEnd <= N -> forall fuel s w pre bytes sdus,
  I s -> holds w pre N -> zlen pre <= bufEnd -> (Z.to_nat (bufEnd - zlen pre) < fuel)%nat ->
  exists s' w' l, mux_sdus fuel s w bufEnd lcid n bytes sdus
      = Ok (s', w', bytes + zsum (fun c => zlen (snd c)) l, sdus + zlen l) /\
    I s' /\ served s l s' /\ Forall sdu_ok l /\ Forall (fun c => fst c = lcid) l /\
    holds w' (pre ++ concat (dl_sub_pdus l)) N /\
    zlen pre + zlen (concat (dl_sub_pdus l)) <= bufEnd.
Proof.
  intros Hl Hn HN. induction fuel as [|fuel IH]; intros s [b buf] pre bytes sdus Hs Hw Hpre Hf; [lia|].
  cbn [mux_sdus]. destruct (bufEnd - buf >? 4) eqn:Ed.
  2: { exists s, (b, buf), []. cbn. rewrite app_nil_r, !Z.add_0_r. repeat split; done || constructor. }
  assert (Hbuf : buf = zlen pre) by (destruct Hw as (? & _ & ? & _); done).
  rewrite Z.gtb_ltb, Z.ltb_lt in Ed.
  destruct (request_ok s lcid (Z.min n (bufEnd - buf - 3)) Hs Hl ltac:(lia)) as (s1 & sdu & E & Hs1 & Hz & Hcase).
  rewrite E, res_bind_unfold. destruct Hcase as [ [H0 Hsrv] | (Hpos & Hsrv & Hok) ].
  { rewrite (proj2 (Z.eqb_eq _ 0)) by done. exists s1, (b, buf), []. cbn. rewrite app_nil_r, !Z.add_0_r.
    repeat split; done || constructor. }
  rewrite (proj2 (Z.eqb_neq _ 0)) by done.
  destruct (put_behind b buf pre N (NR_MAC_SUBHEADER_LONG lcid (zlen sdu)) sdu Hw) as (b1 & b' & E1 & _ & E2 & Hw').
  { change (zlen (NR_MAC_SUBHEADER_LONG lcid (zlen sdu))) with 3. lia. }
  change (zlen (NR_MAC_SUBHEADER_LONG lcid (zlen sdu))) with 3 in *.
  change (NR_MAC_SUBHEADER_LONG lcid (zlen sdu) ++ sdu) with (long_sdu lcid sdu) in Hw'.
  rewrite E1, res_bind_unfold, E2, res_bind_unfold. replace (buf + 3 + zlen sdu) with (buf + zlen sdu + 3) in Hw' by lia.
  destruct (IH s1 (b', buf + zlen sdu + 3) (pre ++ long_sdu lcid sdu) (bytes + zlen sdu) (sdus + 1) Hs1 Hw')
    as (s' & w' & l & El & Hs' & Hl' & Hoks & Hlc & Hw2 & Hend).
  { rewrite zlen_app, zlen_long_sdu. lia. }
  { rewrite zlen_app, zlen_long_sdu. pose proof (zlen_nonneg sdu). lia. }
  exists s', w', ((lcid, sdu) :: l). rewrite El, zsum_cons, zlen_cons.
  change (dl_sub_pdus ((lcid, sdu) :: l)) with (long_sdu lcid sdu :: dl_sub_pdus l). cbn [fst snd concat].
  rewrite !app_assoc. rewrite !zlen_app, ?zlen_long_sdu in *.
  repeat split; try done; [f_equal; f_equal; [f_equal|]; lia|by apply (served_app _ [(lcid, sdu)] s1)|by constructor|
    by constructor|lia].
Qed.

(** The loop over the channels hands out what RLC gives, in this order. *)
Lemma mux_channels_ok status bufEnd N : zlen status = 32 -> Forall (Z.le 0) status -> bufEnd <= N ->
  forall lcids s w pre bytes total sdus, Forall (fun l => 1 <= l < 32) lcids ->
  I s -> holds w pre N -> zlen pre <= bufEnd -> zlen bytes = 64 ->
  exists s' w' bytes' l, mux_channels lcids status s w bufEnd bytes total sdus
      = Ok (s', w', bytes', total + zsum (fun c => zlen (snd c)) l, sdus + zlen l) /\
    I s' /\ served s l s' /\ Forall sdu_ok l /\
    holds w' (pre ++ concat (dl_sub_pdus l)) N /\
    zlen pre + zlen (concat (dl_sub_pdus l)) <= bufEnd.
Proof.
  intros Hst Hpos HN. induction lcids as [|lcid lcids IH]; intros s w pre bytes total sdus Hls Hs Hw Hpre Hb.
  { exists s, w, bytes, []. cbn. rewrite app_nil_r, !Z.add_0_r. repeat split; done || constructor. }
  apply Forall_cons in Hls as [Hl Hls]. cbn [mux_channels].
  destruct (lookup_lt_is_Some_2 status (Z.to_nat lcid)) as [n En]; [unfold zlen in *; lia|].
  rewrite (proj2 (zget_ok status lcid n)) by (split; [lia|done]). rewrite res_bind_unfold.
  pose proof (Forall_lookup_1 _ _ _ _ Hpos En) as Hn.
  destruct (n =? 0); [by apply IH|]. assert (Hsnd : snd w = zlen pre) by (by destruct Hw as (? & _ & ? & _)).
  destruct (mux_sdus_ok lcid n bufEnd N ltac:(lia) Hn HN (Datatypes.S (Z.to_nat (bufEnd - snd w))) s w pre 0 sdus
    Hs Hw Hpre ltac:(lia)) as (s1 & w1 & l1 & E1 & Hs1 & Hv1 & Ho1 & _ & Hw1 & He1).
  rewrite E1, res_bind_unfold.
  destruct (add_lc_bytes_ok bytes lcid (0 + zsum (fun c => zlen (snd c)) l1) Hb ltac:(lia)) as (bytes1 & Eb & Hb1).
  rewrite Eb, res_bind_unfold.
  destruct (IH s1 w1 (pre ++ concat (dl_sub_pdus l1)) bytes1 (total + (0 + zsum (fun c => zlen (snd c)) l1))
    (sdus + zlen l1) Hls Hs1 Hw1 ltac:(rewrite zlen_app; lia) Hb1)
    as (s2 & w2 & bytes2 & l2 & E2 & Hs2 & Hv2 & Ho2 & Hw2 & He2).
  rewrite E2. exists s2, w2, bytes2, (l1 ++ l2). unfold dl_sub_pdus in *.
  rewrite zsum_app, zlen_app, map_app, concat_app, app_assoc. rewrite !zlen_app in *.
  repeat split; try done; [f_equal; f_equal; [f_equal|]; lia|by apply (served_app _ l1 s1)|by apply Forall_app|lia].
Qed.

(** *** The block *)

Lemma tb_size_ok needed : needed <= 2 ^ 30 -> forall fuel size, 0 < size < 2 ^ 31 ->
  needed <= size * 2 ^ Z.of_nat fuel -> exists n,
  tb_size_loop (Datatypes.S fuel) needed size = Ok n /\ needed <= n /\ size <= n.
Proof.
  intros Hneed. induction fuel as [|fuel IH]; intros size Hsize Hb; cbn [tb_size_loop] in *.
  - exists size. rewrite Z.gtb_ltb, (proj2 (Z.ltb_ge size needed)) by lia. split; [done|lia].
  - destruct (needed >? size) eqn:E; rewrite Z.gtb_ltb in E.
    + apply Z.ltb_lt in E. unfold u32. rewrite Z.mod_small by lia.
      rewrite Nat2Z.inj_succ, Z.pow_succ_r in Hb by lia.
      destruct (IH (size * 2)) as (n & En & H1 & H2); [lia|lia|]. exists n. split; [exact En|lia].
    + apply Z.ltb_ge in E. exists size. split; [done|lia].
Qed.

Lemma allocate_ok malloc tb TBS : (forall n, 0 <= n -> zlen (malloc n) = n) ->
  tb = [] \/ TB_SINGLE_LAYER <= zlen tb -> 0 < TBS <= 2 ^ 30 -> exists b,
  allocate_transportBlock_buffer malloc tb TBS = Ok b /\ TBS <= zlen b /\ TB_SINGLE_LAYER <= zlen b.
Proof.
  intros Hm Htb HT. unfold allocate_transportBlock_buffer. rewrite dev_assert_ok by (apply Z.gtb_lt; lia).
  rewrite res_bind_unfold. destruct (negb (zlen tb =? 0) && (TBS <=? zlen tb)) eqn:E.
  - apply andb_prop in E as [E1 E2]. apply Z.leb_le in E2. exists tb.
    destruct Htb as [->|Htb]; [done|]. by repeat split.
  - destruct (tb_size_ok TBS ltac:(lia) 31 TB_SINGLE_LAYER) as (n & En & H1 & H2); [done|change (2 ^ Z.of_nat 31) with 2147483648; unfold TB_SINGLE_LAYER; lia|].
    rewrite En, res_bind_unfold. exists (malloc n). unfold TB_SINGLE_LAYER in *. by rewrite Hm by lia.
Qed.

Lemma write_padding_ok w pre N TBS : holds w pre N -> zlen pre <= TBS <= N -> exists b pad,
  write_padding w TBS = Ok b /\ take (Z.to_nat TBS) b = pre ++ pad /\ zlen pad = TBS - zlen pre /\
  (pad = [] \/ exists r, pad = 63 :: r).
Proof.
  intros Hw HT. assert (Hsnd : snd w = zlen pre) by (by destruct Hw as (? & _ & ? & _)).
  unfold write_padding. rewrite Hsnd. destruct (TBS - zlen pre >? 0) eqn:E; rewrite Z.gtb_ltb in E.
  - apply Z.ltb_lt in E.
    destruct (write_ok w pre N (NR_MAC_SUBHEADER_FIXED DL_SCH_LCID_PADDING) Hw) as (w1 & E1 & Hw1);
      [rewrite zlen_fixed; lia|].
    assert (Hsnd1 : snd w1 = zlen pre + 1) by (destruct Hw1 as (? & _ & -> & _); by rewrite zlen_app).
    rewrite E1, res_bind_unfold, Hsnd1. set (z := replicate _ 0).
    assert (Hz : zlen z = TBS - zlen pre - 1) by (unfold z, zlen at 1; rewrite length_replicate; lia).
    destruct (write_ok w1 _ N z Hw1) as ([b p] & E2 & Hw2); [rewrite zlen_app, zlen_fixed; lia|].
    rewrite E2, res_bind_unfold. exists b, (63 :: z). split; [done|].
    destruct Hw2 as (rest & Eb & _ & _). cbn [fst] in Eb. subst b.
    split; [|split; [rewrite zlen_cons; lia|right; by exists z] ].
    rewrite <- !app_assoc. replace (pre ++ _ ++ z ++ rest) with ((pre ++ 63 :: z) ++ rest) by (by rewrite <- !app_assoc).
    apply take_app_length'. unfold zlen in *. rewrite length_app. cbn [length]. lia.
  - apply Z.ltb_ge in E. exists (fst w), []. split; [done|]. destruct Hw as (rest & -> & _ & _).
    rewrite app_nil_r. split; [|split; [rewrite zlen_nil; lia|by left] ].
    apply take_app_length'. unfold zlen in *. lia.
Qed.

(** The block that the gNB fills is read by the UE as the timing advance command and the
    SDUs that RLC has handed out. *)
Lemma dl_block_ok malloc s c tag lcids status total tb TBS st ue :
  (forall n, 0 <= n -> zlen (malloc n) = n) -> tb = [] \/ TB_SINGLE_LAYER <= zlen tb ->
  I s -> ce_ok c -> tag = tag_Id ue -> 0 <= tag < 4 -> ce_size c < TBS <= 2 ^ 30 ->
  zlen status = 32 -> Forall (Z.le 0) status -> Forall (fun l => 1 <= l < 32) lcids ->
  zlen (dl_lc_bytes st) = 64 ->
  exists s' b st' l, fill_dl_transport_block malloc s c tag lcids status total tb TBS st = Ok (s', b, st') /\
    TBS <= zlen b /\ I s' /\ served s l s' /\ Forall sdu_ok l /\
    nr_ue_process_mac_pdu ue (take (Z.to_nat TBS) b) TBS 0 = Ok (ue, ta_calls c ++ concat (map (dl_sdu_calls ue) l)).
Proof.
  intros Hm Htb Hs Hc Ht Htag HT Hst Hpos Hls Hlc. pose proof (ce_size_bound c Hc) as Hce.
  destruct (allocate_ok malloc tb TBS Hm Htb ltac:(lia)) as (b0 & E0 & Hb0 & Hb0'). unfold TB_SINGLE_LAYER in Hb0'.
  destruct (writes_ce ue c tag b0 Hc Ht Htag ltac:(lia)) as ([b1 wr] & xs & cs & E1 & Hw1 & Hn1 & Hr1 & Hc1).
  assert (Hwr : wr = ce_size c) by (destruct Hw1 as (? & _ & ? & _); cbn [snd] in *; lia).
  unfold fill_dl_transport_block. rewrite E0, res_bind_unfold, E1, res_bind_unfold.
  rewrite dev_assert_ok, res_bind_unfold by (apply Z.gtb_lt; lia).
  assert (Hmux : exists s' w' bytes' l t n, (if total >? 0
     then mux_channels lcids status s (b1, wr) TBS (dl_lc_bytes st) 0 0
     else mret (s, (b1, wr), dl_lc_bytes st, 0, 0)) = Ok (s', w', bytes', t, n) /\
    I s' /\ served s l s' /\ Forall sdu_ok l /\ holds w' (concat xs ++ concat (dl_sub_pdus l)) (zlen b0) /\
    zlen (concat xs) + zlen (concat (dl_sub_pdus l)) <= TBS).
  { destruct (total >? 0).
    - destruct (mux_channels_ok status TBS (zlen b0) Hst Hpos Hb0 lcids s (b1, wr) (concat xs) (dl_lc_bytes st) 0 0
        Hls Hs Hw1 ltac:(lia) Hlc) as (s' & w' & bytes' & l & E & H1 & H2 & H3 & H4 & H5). by eauto 15.
    - exists s, (b1, wr), (dl_lc_bytes st), [], 0, 0. cbn. rewrite app_nil_r, Z.add_0_r.
      repeat split; try done; try constructor. lia. }
  destruct Hmux as (s' & w' & bytes' & l & t & n & Em & Hs' & Hv & Ho & Hw' & Hend).
  rewrite Em, res_bind_unfold.
  destruct (write_padding_ok w' _ _ TBS Hw' ltac:(rewrite zlen_app; lia)) as (b & pad & Ep & Htake & Hpad & Hform).
  rewrite Ep, res_bind_unfold. eexists s', b, _, l. split; [done|].
  assert (HbT : TBS <= zlen b).
  { apply (f_equal zlen) in Htake. rewrite zlen_take, zlen_app in Htake. rewrite zlen_app in *.
    pose proof (zlen_nonneg b). lia. }
  repeat split; try done. unfold nr_ue_process_mac_pdu. rewrite Z.sub_0_r, Htake, <- concat_app.
  rewrite <- (app_nil_r pad), <- (app_nil_l (concat _ ++ _)).
  rewrite (dl_pdu_reads ue (xs ++ dl_sub_pdus l) (cs ++ map (dl_sdu_calls ue) l)); try done.
  - by rewrite concat_app, Hc1.
  - by apply Forall2_app; [|apply dl_sub_pdus_reads].
  - rewrite concat_app, !zlen_app in *. lia.
  - lia.
Qed.

End served.

End MacMuxSpec.
