(* ===== verification/MacRlcUm.v ===== *)
(** * RLC below MAC

    The bearers of a UE in unacknowledged mode, with sequence numbers of 6 bits, behind the
    interface that MAC uses: [um_only] is kept by every request of MAC, so the laws of the
    interface hold for the RLC layer of the library, and what is proved of MAC blocks
    against the interface holds for blocks filled from it. *)

From S2P Require Import Prelude F1apIds Events RlcSdu RlcEntity RlcUm RlcUmTx RlcUmRx RlcApi RlcUe RlcUeSpec.
From S2P Require Import MacMux MacMuxSpec.

Module MacRlcUm.
Import RlcUe RlcUeSpec.

(** A grant for an entity: [set_time], then [generate_pdu]. *)
Definition grant (now_us now n : Z) (x : nr_rlc_entity) : res (nr_rlc_entity * (Z * list Z)) :=
  x ← set_time x now;
  '(k, buffer, x) ← generate_pdu now_us x (replicate (Z.to_nat n) 0) n;
  mret (x, (k, buffer)).

Definition um_ok (x : nr_rlc_entity) : Prop :=
  match x with
  | EntityUM e => UmTx.wf e /\ UmRx.wf e /\ Um.sn_field_length e = 6 /\ exists D, UmRx.honest D (Um.rx_list e)
  | _ => False
  end.

Lemma um_rx_wf_part e e' : UmTx.rx_part e' = UmTx.rx_part e -> UmRx.wf e -> UmRx.wf e'.
Proof.
  unfold UmTx.rx_part. intros E [Hc Ht].
  assert (Hf : UmRx.rx_fields e' = UmRx.rx_fields e) by (unfold UmRx.rx_fields; congruence).
  assert (Hr : Um.rx_next_reassembly e' = Um.rx_next_reassembly e /\ Um.rx_timer_trigger e' = Um.rx_timer_trigger e /\
    Um.t_reassembly_start e' = Um.t_reassembly_start e) by (split_and!; congruence).
  destruct Hr as (R1 & R2 & R3). split.
  - apply (UmRx.um_core_fields e); [done|done|rewrite ?R1, ?R2; apply Hc..].
  - unfold UmRx.timer_ok, UmRx.off in *. unfold UmRx.rx_fields in Hf. injection Hf as _ F2 F3 F4 _ _ _.
    by rewrite R2, R3, F2, F3, F4.
Qed.

(** A grant never fails, uses at most its size, and makes no call upwards. *)
Lemma um_grant now_us now n x : um_ok x -> 0 <= n -> exists x' k buffer,
  grant now_us now n x = Ok (x', (k, buffer)) /\ um_ok x' /\ new_calls x x' = [] /\
  0 <= k <= n /\ k < 65536 /\ zlen buffer = n.
Proof.
  destruct x as [e|e|e]; try done. intros (Htx & Hrx & H6 & D & Hh) Hn. unfold grant. cbn [set_time].
  destruct (UmRx.set_time_ok D e now Hrx Hh) as (e1 & E1 & Hrx1 & Hh1 & Htp & _ & Htr1 & _). rewrite E1. cbn [fmap res_fmap].
  pose proof (UmTx.um_wf_tx_part _ _ Htp Htx) as Htx1.
  assert (H61 : Um.sn_field_length e1 = 6) by (unfold UmTx.tx_part in Htp; congruence).
  assert (Hb : n = zlen (replicate (Z.to_nat n) 0)) by (unfold zlen; rewrite length_replicate; lia).
  destruct (UmTx.generate_spec now_us e1 (replicate (Z.to_nat n) 0) n Htx1 ltac:(lia) ltac:(by left))
    as (k & buffer & e2 & E2 & Htx2 & Hrx2 & _ & Hz & Hcase).
  assert (Hfields : Um.sn_field_length e2 = Um.sn_field_length e1 /\ Um.rx_list e2 = Um.rx_list e1 /\
    Entity.trace (Um.common e2) = Entity.trace (Um.common e1)) by (unfold UmTx.rx_part in Hrx2; split_and!; congruence).
  destruct Hfields as (F1 & F2 & F3).
  eexists (EntityUM e2), k, buffer. split.
  { rewrite ?res_bind_unfold. cbn [generate_pdu]. by rewrite E2. }
  split; [split; [done|]; split; [by apply (um_rx_wf_part e1)|]; split; [congruence|]; exists D; by rewrite F2|].
  split; [unfold new_calls; cbn [common_of]; rewrite F3, Htr1; apply drop_all|].
  assert (Hk : 0 <= k <= n /\ k < 65536); [|split; [lia|]; split; [lia|congruence] ].
  destruct (Um.tx_list e1) as [|s rest] eqn:El; [destruct Hcase as [-> _]; lia|].
  destruct (n <? Um.compute_pdu_header_size e1 s + 1); [destruct Hcase as [-> _]; lia|].
  destruct Hcase as (Ek & Hkn & _). split; [lia|].
  assert (Hs : Seg.size s <= Entity.NR_SDU_MAX /\ 0 <= Seg.so s).
  { pose proof (UmTx.wf_segs _ Htx1) as Hsegs. rewrite El in Hsegs. apply Forall_cons in Hsegs as [ (d & _ & _ & Hd & Hmax & Hf) _].
    destruct (Seg.is_first s); unfold Entity.NR_SDU_MAX in *; lia. }
  unfold Entity.NR_SDU_MAX in Hs. unfold UmTx.pdu_size in Ek.
  pose proof (UmTx.um_header_size_bounds e1 (UmTx.sent e1 s n)).
  assert (Seg.size (UmTx.sent e1 s n) <= 16010); [|lia].
  unfold UmTx.sent, UmTx.chunk. pose proof (UmTx.um_header_size_bounds e1 s).
  pose proof (UmTx.um_header_size_bounds e1 {| s with Seg.is_last := false |}) as Hfh. fold (UmTx.first_header e1 s) in Hfh.
  destruct (UmTx.pdu_size e1 s <=? n) eqn:E; [lia|]. apply Z.leb_gt in E. unfold UmTx.pdu_size in E.
  cbn [Seg.size Store.shrink]. lia.
Qed.

(** New entities, and SDUs from above. *)
Lemma um_ok_new rx tx t e : 0 <= rx -> Um.new_nr_rlc_entity_um rx tx t 6 = Ok e -> um_ok (EntityUM e).
Proof.
  intros Hrx E. pose proof (UmTx.um_new_wf _ _ _ _ _ E) as (Htx & _). destruct (UmRx.umrx_new_wf _ _ _ _ _ Hrx E) as (Hr & Hl & _).
  split; [done|]. split; [done|]. split; [|exists (fun _ => []); rewrite Hl; constructor].
  unfold Um.new_nr_rlc_entity_um in E. cbn [Z.eqb orb] in E. apply res_bind_ok in E as (c & _ & E). by injection E as <-.
Qed.

Lemma um_ok_recv_sdu now_us e sdu mui : um_ok (EntityUM e) -> zlen sdu <= Entity.NR_SDU_MAX -> exists e',
  Um.nr_rlc_entity_um_recv_sdu now_us e sdu mui = Ok e' /\ um_ok (EntityUM e').
Proof.
  intros (Htx & Hrx & H6 & D & Hh) Hs. destruct (UmTx.um_recv_sdu_spec now_us e sdu mui Htx Hs) as (e' & E & Htx' & Hp & _).
  exists e'. split; [done|]. split; [done|]. split; [by apply (um_rx_wf_part e)|]. unfold UmTx.rx_part in Hp.
  split; [congruence|]. exists D. replace (Um.rx_list e') with (Um.rx_list e) by congruence. done.
Qed.

(** ** The table *)

(** What a logical channel may serve. *)
Definition rb_ok (rb : nr_lcid_rb_t) : Prop :=
  match rb with
  | NR_LCID_NONE => True
  | NR_LCID_SRB i => 1 <= i <= 3
  | NR_LCID_DRB i => 1 <= i <= 32
  end.

Section rlc.
Context (f1 : F1apIds.table) (now_us id : Z).

(** [nr_mac_rlc_data_req] of the library, for one UE. *)
#[export] Instance um_rlc : MacMux.MacRlc manager := {
  MacMux.nr_mac_rlc_data_req m lcid n :=
    '(m, _, (k, buffer)) ← RlcUe.nr_mac_rlc_data_req f1 now_us m id lcid n (replicate (Z.to_nat n) 0);
    mret (m, take (Z.to_nat k) buffer)
}.

(** All entities of the UE are as [um_ok] says. *)
Record um_only (m : manager) : Prop := {
  uo_wf : wf m;
  uo_channels : Forall rb_ok (lcid2rb (ue_of m (u16 id)));
  uo_srb : Forall (from_option um_ok True) (srb (ue_of m (u16 id)));
  uo_drb : Forall (from_option um_ok True) (drb (ue_of m (u16 id)))
}.

Lemma um_only_put m m' p x : um_only m -> um_ok x -> p <> Srb0 -> changed m m' (u16 id) (put_at (ue_of m (u16 id)) p (Some x)) -> um_only m'.
Proof.
  intros [H1 H2 H3 H4] Hx Hp [Hw _ Hu]. specialize (Hu (u16 id)). rewrite decide_True in Hu by done.
  split; [done|rewrite Hu..]; destruct p; try done; cbn [put_at srb drb lcid2rb]; try done; by apply Forall_insert.
Qed.

Lemma um_only_same m m' : um_only m -> changed m m' (u16 id) (ue_of m (u16 id)) -> um_only m'.
Proof. intros [H1 H2 H3 H4] [Hw _ Hu]. specialize (Hu (u16 id)). rewrite decide_True in Hu by done. by split; rewrite ?Hu. Qed.

(** The place of a channel, and what is there. *)
Lemma um_place m lcid : um_only m -> 1 <= lcid <= 32 -> place_of_lcid (ue_of m (u16 id)) lcid = Ok None \/
  exists p o, place_of_lcid (ue_of m (u16 id)) lcid = Ok (Some p) /\ p <> Srb0 /\ entity_at (ue_of m (u16 id)) p = Ok o /\ from_option um_ok True o.
Proof.
  intros [Hw Hch Hs Hd] Hl. destruct (ue_of_id m (u16 id) Hw) as [_ [L1 L2 L3] ]. unfold place_of_lcid.
  rewrite (proj2 (Z.eqb_neq lcid 0)) by lia.
  destruct (zget_total (lcid2rb (ue_of m (u16 id))) (lcid - 1) 32 L3 ltac:(lia)) as (rb & Erb & Hrb).
  rewrite Erb, res_bind_unfold. pose proof (Forall_lookup_1 _ _ _ _ Hch Hrb) as Hok. destruct rb as [|i|i]; [by left|right..].
  - cbn in Hok. rewrite dev_assert_ok by (apply Z.gtb_lt; lia). rewrite res_bind_unfold.
    destruct (zget_total (srb (ue_of m (u16 id))) (i - 1) 3 L1 ltac:(lia)) as (o & Eo & Ho).
    exists (Srb (i - 1)), o. split; [done|]. split; [done|]. split; [done|]. by apply (Forall_lookup_1 _ _ _ _ Hs Ho).
  - cbn in Hok. destruct (zget_total (drb (ue_of m (u16 id))) (i - 1) 32 L2 ltac:(lia)) as (o & Eo & Ho).
    exists (Drb (i - 1)), o. split; [done|]. split; [done|]. split; [done|]. by apply (Forall_lookup_1 _ _ _ _ Hd Ho).
Qed.

#[export] Instance um_rlc_laws : MacMuxSpec.MacRlcLaws manager um_only.
Proof.
  split. intros m lcid n Hm Hl Hn. cbn [MacMux.nr_mac_rlc_data_req um_rlc]. unfold RlcUe.nr_mac_rlc_data_req.
  set (buf := replicate (Z.to_nat n) 0).
  pose proof (rlc_with_entity_ok f1 m (u16 id) (fun u => place_of_lcid u lcid) (0, buf)
    (grant now_us (nr_rlc_current_time m) n) (uo_wf m Hm)) as Hrun.
  unfold grant in Hrun at 2 3. fold buf in Hrun. unfold on_ue in Hrun.
  destruct (um_place m lcid Hm Hl) as [Ep|(p & o & Ep & Hp & Eo & Ho)]; rewrite Ep, res_bind_unfold in Hrun.
  - destruct Hrun as (m' & Erun & Hc). rewrite Erun, res_bind_unfold. exists m', []. split; [done|].
    split; [by apply (um_only_same m)|]. change (zlen (@nil Z)) with 0. lia.
  - rewrite Eo, res_bind_unfold in Hrun. destruct o as [x|].
    + destruct (um_grant now_us (nr_rlc_current_time m) n x Ho Hn) as (x' & k & buffer & Eg & Hx' & Hcalls & Hk & Hk' & Hz).
      rewrite Eg, res_bind_unfold, Hcalls in Hrun. cbn [callbacks] in Hrun. rewrite res_bind_unfold in Hrun.
      destruct Hrun as (m' & Erun & Hc). rewrite Erun, res_bind_unfold. eexists m', _. split; [done|].
      split; [by apply (um_only_put m m' p x')|]. rewrite zlen_take. lia.
    + destruct Hrun as (m' & Erun & Hc). rewrite Erun, res_bind_unfold. exists m', []. split; [done|].
      split; [by apply (um_only_same m)|]. change (zlen (@nil Z)) with 0. lia.
Qed.

End rlc.

End MacRlcUm.
