(* ===== verification/MacLcp.v ===== *)
(** * Logical channel prioritization in the UE

    Models [nr_ue_get_sdu] of [openair2/LAYER2/NR_MAC_UE/nr_ue_scheduler.c] with all it
    calls: the buffer status of the channel groups, the two rounds of the prioritization,
    the choice of the report, and the control elements of [nr_write_ce_ulsch_pdu]
    ([nr_ue_procedures.c]).

    [lcp] is the state of the loops: RLC, the channels of the UE, the bytes of each group,
    the block with its position [cur], and the local variables that outlive a round. *)

From S2P Require Import Prelude MacPdu MacMux.

Module MacLcp.
Export MacMux.

Definition NR_BSR_TRIGGER_REGULAR : Z := 1.
Definition NR_BSR_TRIGGER_PERIODIC : Z := 2.
Definition NR_INVALID_LCGID : Z := NR_MAX_NUM_LCGID.
Definition NR_MAX_SR_ID : Z := 8.

(** [nr_lcordered_info_t]. *)
Record nr_lcordered_info_t := mk_lc {
  lcid : Z;
  sr_id : Z;
  priority : Z;
  pbr : Z;
  bucket_size : Z;
  sr_DelayTimerApplied : bool;
  rb_suspended : bool
}.

(** [NR_LC_SCHEDULING_INFO]; [elapsed] is the counter of [Bj_timer]. *)
Record NR_LC_SCHEDULING_INFO := mk_sched {
  LCID_buffer_remain : Z;
  LCGID : Z;
  Bj : Z;
  elapsed : Z
}.

(** The timers that are started and stopped on the way. *)
Inductive timer_call :=
| StartSrDelay | StopSrDelay | StartRetxBsr | StartPeriodicBsr | StopSrProhibit (id : Z)
| StartPeriodicPhr | StartProhibitPhr.

(** The part of [NR_UE_MAC_INST_t] that takes part; [sr_info] has [pending] and [counter]. *)
Record ue_ul := mk_ue_ul {
  lc_ordered_list : list nr_lcordered_info_t;
  lc_sched_info : list NR_LC_SCHEDULING_INFO;
  sr_info : list (bool * Z);
  BSR_reporting_active : Z;
  regularBSR_trigger_lcid : Z;
  phr_is_configured : bool;
  phr_reporting : Z;
  timers : list timer_call
}.

Definition set_sched (mac : ue_ul) (l : list NR_LC_SCHEDULING_INFO) : ue_ul :=
  mk_ue_ul (lc_ordered_list mac) l (sr_info mac) (BSR_reporting_active mac) (regularBSR_trigger_lcid mac)
    (phr_is_configured mac) (phr_reporting mac) (timers mac).

Definition set_trigger (mac : ue_ul) (active trigger : Z) (t : list timer_call) : ue_ul :=
  mk_ue_ul (lc_ordered_list mac) (lc_sched_info mac) (sr_info mac) active trigger
    (phr_is_configured mac) (phr_reporting mac) (timers mac ++ t).

Definition set_phr (mac : ue_ul) (reporting : Z) (t : list timer_call) : ue_ul :=
  mk_ue_ul (lc_ordered_list mac) (lc_sched_info mac) (sr_info mac) (BSR_reporting_active mac)
    (regularBSR_trigger_lcid mac) (phr_is_configured mac) reporting (timers mac ++ t).

Definition set_sr (mac : ue_ul) (sr : list (bool * Z)) (t : list timer_call) : ue_ul :=
  mk_ue_ul (lc_ordered_list mac) (lc_sched_info mac) sr (BSR_reporting_active mac) (regularBSR_trigger_lcid mac)
    (phr_is_configured mac) (phr_reporting mac) (timers mac ++ t).

(** [get_lc_info_from_lcid]. *)
Definition get_lc_info_from_lcid (mac : ue_ul) (id : Z) : option nr_lcordered_info_t :=
  List.find (fun c => lcid c =? id) (lc_ordered_list mac).

(** [lcid_buffer_index]. *)
Definition lcid_buffer_index (id : Z) : res Z :=
  _ ← dev_assert ((id >? 0) && (id <=? NR_MAX_NUM_LCID));
  mret (id - 1).

(** [get_scheduling_info_from_lcid], and an assignment through the pointer it returns. *)
Definition get_scheduling_info_from_lcid (mac : ue_ul) (id : Z) : res NR_LC_SCHEDULING_INFO :=
  idx ← lcid_buffer_index id;
  zget (lc_sched_info mac) idx.

Definition put_scheduling_info (mac : ue_ul) (id : Z) (x : NR_LC_SCHEDULING_INFO) : res ue_ul :=
  idx ← lcid_buffer_index id;
  l ← zset (lc_sched_info mac) idx x;
  mret (set_sched mac l).

(** [is_lcid_suspended] of a channel of the list. *)
Definition suspended (mac : ue_ul) (id : Z) : bool :=
  is_lcid_suspended (map (fun c => (lcid c, rb_suspended c)) (lc_ordered_list mac)) id.

(** ** Buffer status *)

(** [trigger_regular_bsr]. *)
Definition trigger_regular_bsr (mac : ue_ul) (id : Z) (sr_DelayTimerApplied : bool) : ue_ul :=
  set_trigger mac (Z.lor (BSR_reporting_active mac) NR_BSR_TRIGGER_REGULAR) id
    [if sr_DelayTimerApplied then StartSrDelay else StopSrDelay].

(** [nr_update_bsr]: the bytes of each channel group. *)
Definition nr_update_bsr (mac : ue_ul) (LCG_bytes : list Z) : res (ue_ul * list Z) :=
  '(mac, LCG_bytes, _) ← res_foldl (fun '(mac, LCG_bytes, triggered) c =>
      if rb_suspended c then mret (mac, LCG_bytes, triggered)
      else
        i ← get_scheduling_info_from_lcid mac (lcid c);
        let lcgid := LCGID i in
        if negb (lcgid =? NR_INVALID_LCGID) then
          n ← zget LCG_bytes lcgid;
          LCG_bytes ← zset LCG_bytes lcgid (u32 (n + LCID_buffer_remain i));
          if negb triggered
          then mret (trigger_regular_bsr mac (lcid c) (sr_DelayTimerApplied c), LCG_bytes, true)
          else mret (mac, LCG_bytes, triggered)
        else mret (mac, LCG_bytes, triggered))
    (mac, LCG_bytes, negb (Z.land (BSR_reporting_active mac) NR_BSR_TRIGGER_REGULAR =? 0))
    (lc_ordered_list mac);
  mret (mac, LCG_bytes).

(** The number of groups with data. *)
Definition groups_with_data (LCG_bytes : list Z) : Z := zlen (List.filter (fun n => n >? 0) LCG_bytes).

(** [bsr_len] of [nr_ue_get_sdu_mac_ce_pre]. *)
Definition bsr_reserve (mac : ue_ul) (LCG_bytes : list Z) (buflen : Z) : Z :=
  if BSR_reporting_active mac =? 0 then 0
  else
    let num_lcg_id_with_data := groups_with_data LCG_bytes in
    let size_for_long := num_lcg_id_with_data + 1 + 2 in
    let size_for_short := 1 + 1 in
    if (num_lcg_id_with_data >? 1) && (buflen >=? size_for_long) then size_for_long
    else if ((num_lcg_id_with_data >? 0) && (buflen >=? size_for_short))
            || negb (Z.land (BSR_reporting_active mac) NR_BSR_TRIGGER_PERIODIC =? 0)
    then size_for_short
    else 0.

(** The report of [nr_ue_fill_phr]: the two bytes of [NR_SINGLE_ENTRY_PHR_MAC_CE]. *)
Definition phr_bytes (P_CMAX tx_power : Z) : list Z :=
  let headroom := P_CMAX - tx_power in
  let PH := if headroom <? 22 then Z.max 0 (headroom - (-32)) else Z.min 63 (55 + (headroom - 22) / 2) in
  [PH mod 64; Z.land (Z.max 0 (P_CMAX - (-29))) 63].

(** [nr_ue_get_sdu_mac_ce_pre]: the report of the power headroom, if there is room for it
    ([phr_len] is 3), and the end of the space for SDUs. *)
Definition nr_ue_get_sdu_mac_ce_pre (mac : ue_ul) (LCG_bytes : list Z) (buflen P_CMAX tx_power : Z)
    : ue_ul * option (list Z) * Z :=
  let bsr_len := bsr_reserve mac LCG_bytes buflen in
  if phr_is_configured mac && (phr_reporting mac >? 0) && (buflen >=? bsr_len + 3) then
    (set_phr mac 0 [StartPeriodicPhr; StartProhibitPhr], Some (phr_bytes P_CMAX tx_power), buflen - bsr_len - 3)
  else (mac, None, buflen - bsr_len).

(** ** Multiplexing *)

Section lcp.
Context {S : Type} `{R : MacRlc S}.

Record lcp := mk_lcp {
  rlc : S;
  mac : ue_ul;
  LCG_bytes : list Z;
  block : list Z;
  cur : Z;
  num_sdus : Z;
  lcids_data_status : list bool;
  lcp_allocation_counter : Z;
  lcids_bytes_tot : list Z;
  num_lcids_same_priority : Z;
  count_same_priority_lcids : Z;
  buflen_ep : Z
}.

(** [get_num_bytes_to_reqlc]: the bytes to ask for, and [*target].  The first, second and
    sixth arguments are [uint8_t]; [lcid_remain_buffer] is compared as [uint32_t]. *)
Definition get_num_bytes_to_reqlc (mac : ue_ul) (same_priority_count lc_num buflen_remain_ep buflen_remain
    round_id : Z) (bytes_read_fromlc : list Z) : res (Z * Z) :=
  match get_lc_info_from_lcid mac lc_num with
  | None => Fault Exit
  | Some lc_info =>
      i ← get_scheduling_info_from_lcid mac lc_num;
      let lcid_remain_buffer := LCID_buffer_remain i in
      let target := if same_priority_count >? 1 then Z.min buflen_remain_ep (pbr lc_info) else pbr lc_info in
      '(requested, remaining) ←
        (if round_id =? 0 then
           let pdu_remain := if same_priority_count >? 1 then buflen_remain_ep else u32 buflen_remain in
           let n := if pdu_remain <? pbr lc_info then Z.min pdu_remain (u32 lcid_remain_buffer)
                    else Z.min (pbr lc_info) (u32 lcid_remain_buffer) in
           read ← zget bytes_read_fromlc (lc_num - 1);
           let remaining := target - read in
           mret (Z.min n remaining, remaining)
         else if same_priority_count >? 1 then
           let n := Z.min buflen_remain_ep (u32 lcid_remain_buffer) in
           read ← zget bytes_read_fromlc (lc_num - 1);
           let remaining := u32 (buflen_remain_ep - read) in
           mret (Z.min n remaining, remaining)
         else mret (Z.min buflen_remain lcid_remain_buffer, 0));
      _ ← dev_assert ((remaining >=? 0) && (requested <=? buflen_remain));
      mret (requested, target)
  end.

(** [fill_mac_sdu] for the channel [id], with the block free up to [fin]
    ([end_for_tailer]): one SDU; the result is the one of the function. *)
Definition fill_mac_sdu (fin : Z) (id : Z) (t : lcp) : res (lcp * bool) :=
  i ← get_scheduling_info_from_lcid (mac t) id;
  let usable := u32 (fin - cur t) in
  if suspended (mac t) id then mret (t, false)
  else if u64 (fin - cur t) <? 3 then mret (t, false)
  else
    let header_sz := if usable <? 256 then 2 else 3 in
    '(bytes_requested, target) ←
      get_num_bytes_to_reqlc (mac t) (u8 (count_same_priority_lcids t)) (u8 id) (buflen_ep t)
        (i32 (usable - header_sz)) (u8 (lcp_allocation_counter t)) (lcids_bytes_tot t);
    let header_sz := if bytes_requested <? 256 then 2 else 3 in
    '(s, sdu) ← nr_mac_rlc_data_req (rlc t) id bytes_requested;
    b ← zwrite (block t) (cur t + header_sz) sdu;
    let sdu_length := u16 (zlen sdu) in
    _ ← dev_assert (bytes_requested >=? sdu_length);
    let i := mk_sched (LCID_buffer_remain i) (LCGID i) (i32 (Bj i - sdu_length)) (elapsed i) in
    lc_idx ← lcid_buffer_index id;
    if sdu_length >? 0 then
      b ← zwrite b (cur t) (if header_sz =? 2 then NR_MAC_SUBHEADER_SHORT id sdu_length
                            else NR_MAC_SUBHEADER_LONG id sdu_length);
      let i := mk_sched (LCID_buffer_remain i - sdu_length) (LCGID i) (Bj i) (elapsed i) in
      m ← put_scheduling_info (mac t) id i;
      n ← zget (LCG_bytes t) (LCGID i);
      g ← zset (LCG_bytes t) (LCGID i) (u32 (n - sdu_length));
      old ← zget (lcids_bytes_tot t) lc_idx;
      let tot := u32 (old + sdu_length + (if count_same_priority_lcids t >? 1 then 3 else 0)) in
      tots ← zset (lcids_bytes_tot t) lc_idx tot;
      let stop := ((lcp_allocation_counter t =? 0) && (tot >=? target))
                  || ((count_same_priority_lcids t >? 1) && (tot >=? buflen_ep t)) in
      mret (mk_lcp s m g b (cur t + header_sz + sdu_length) (u32 (num_sdus t + 1)) (lcids_data_status t)
              (lcp_allocation_counter t) tots
              (if stop then u32 (num_lcids_same_priority t - 1) else num_lcids_same_priority t)
              (count_same_priority_lcids t) (buflen_ep t), negb stop)
    else
      m ← put_scheduling_info (mac t) id i;
      st ← zset (lcids_data_status t) lc_idx false;
      mret (mk_lcp s m (LCG_bytes t) b (cur t) (num_sdus t) st (lcp_allocation_counter t) (lcids_bytes_tot t)
              (u32 (num_lcids_same_priority t - 1)) (count_same_priority_lcids t) (buflen_ep t), false).

(** The loop over the SDUs of one channel. *)
Fixpoint serve_channel (fuel : nat) (fin id : Z) (t : lcp) : res lcp :=
  match fuel with
  | O => Fault NoFuel
  | Datatypes.S fuel' =>
      if fin - cur t >? 0 then
        '(t, go) ← fill_mac_sdu fin id t;
        if go : bool then serve_channel fuel' fin id t else mret t
      else mret t
  end.

(** [get_count_lcids_same_priority]: the channels from [c] on that have its priority. *)
Definition get_count_lcids_same_priority (c : nr_lcordered_info_t) (rest : list nr_lcordered_info_t) : Z :=
  u8 (zlen (List.filter (fun d => priority c =? priority d) (c :: rest))).

Definition set_same (t : lcp) (num count ep : Z) : lcp :=
  mk_lcp (rlc t) (mac t) (LCG_bytes t) (block t) (cur t) (num_sdus t) (lcids_data_status t)
    (lcp_allocation_counter t) (lcids_bytes_tot t) num count ep.

(** The share of a channel among those of its priority. *)
Definition equal_share (remain count : Z) : Z :=
  if u64 remain <? count * 3 then 0 else u32 (u64 (remain - count * 3) / count).

(** The loop over the channels, from [cs] on. *)
Fixpoint serve_channels (fin : Z) (cs : list nr_lcordered_info_t) (t : lcp) : res lcp :=
  match cs with
  | [] => mret t
  | c :: rest =>
      idx ← lcid_buffer_index (lcid c);
      st ← zget (lcids_data_status t) idx;
      if negb st then serve_channels fin rest t
      else
        let t := if num_lcids_same_priority t =? 0 then
                   let n := get_count_lcids_same_priority c rest in set_same t n n (buflen_ep t)
                 else t in
        let remain := fin - cur t in
        let t := if num_lcids_same_priority t =? count_same_priority_lcids t then
                   set_same t (num_lcids_same_priority t) (count_same_priority_lcids t)
                     (equal_share remain (count_same_priority_lcids t))
                 else t in
        t ← serve_channel (Datatypes.S (Z.to_nat remain)) fin (lcid c) t;
        serve_channels fin rest t
  end.

(** [get_dataavailability_buffers]. *)
Fixpoint get_dataavailability_buffers (cs : list nr_lcordered_info_t) (status : list bool) : res bool :=
  match cs with
  | [] => mret false
  | c :: rest =>
      idx ← lcid_buffer_index (lcid c);
      st ← zget status idx;
      if st : bool then mret true else get_dataavailability_buffers rest status
  end.

Definition new_round (t : lcp) : lcp :=
  mk_lcp (rlc t) (mac t) (LCG_bytes t) (block t) (cur t) (num_sdus t) (lcids_data_status t)
    (lcp_allocation_counter t) (replicate (Z.to_nat NR_MAX_NUM_LCID) 0) 0 0 (buflen_ep t).

Definition next_round (t : lcp) : lcp :=
  mk_lcp (rlc t) (mac t) (LCG_bytes t) (block t) (cur t) (num_sdus t) (lcids_data_status t)
    (u32 (lcp_allocation_counter t + 1)) (lcids_bytes_tot t) (num_lcids_same_priority t)
    (count_same_priority_lcids t) (buflen_ep t).

(** The [do ... while] loop over the rounds. *)
Fixpoint lcp_rounds (fuel : nat) (fin : Z) (cs : list nr_lcordered_info_t) (t : lcp) : res lcp :=
  match fuel with
  | O => Fault NoFuel
  | Datatypes.S fuel' =>
      t ← serve_channels fin cs (new_round t);
      let t := next_round t in
      more ← (if u64 (fin - cur t) >? 3 then get_dataavailability_buffers cs (lcids_data_status t)
              else mret false);
      if more : bool then lcp_rounds fuel' fin cs t else mret t
  end.

(** [select_logical_channels]. *)
Fixpoint select_logical_channels (mac : ue_ul) (cs : list nr_lcordered_info_t) : res (list nr_lcordered_info_t) :=
  match cs with
  | [] => mret []
  | c :: rest =>
      if rb_suspended c then select_logical_channels mac rest
      else
        i ← get_scheduling_info_from_lcid mac (lcid c);
        l ← select_logical_channels mac rest;
        mret (if Bj i >? 0 then c :: l else l)
  end.

(** ** Control elements *)

(** [type_bsr_t], with the fields of the union that the type uses. *)
Inductive type_bsr_t :=
| b_none
| b_long (lcg_bsr : list Z)
| b_short (LcgID Buffer_size : Z)
| b_short_trunc (LcgID Buffer_size : Z)
| b_long_trunc (lcg_bsr : list Z).

(** The group of the channel of highest priority that has data, 0 without data. *)
Fixpoint highest_group (mac : ue_ul) (cs : list nr_lcordered_info_t) : res Z :=
  match cs with
  | [] => mret 0
  | c :: rest =>
      i ← get_scheduling_info_from_lcid mac (lcid c);
      if negb (LCID_buffer_remain i =? 0) then mret (LCGID i) else highest_group mac rest
  end.

(** The entry of a group in a short report: three bits and five. *)
Definition short_report (LCG_bytes : list Z) (lcg : Z) : res (Z * Z) :=
  n ← zget LCG_bytes lcg;
  size ← nr_locate_BsrIndexByBufferSize NR_SHORT_BSR_TABLE_SIZE (i32 n);
  mret (lcg mod 8, size mod 32).

Definition long_report (LCG_bytes : list Z) : res (list Z) :=
  res_foldl (fun l lcg_id =>
    n ← zget LCG_bytes lcg_id;
    size ← nr_locate_BsrIndexByBufferSize NR_LONG_BSR_TABLE_SIZE (i32 n);
    mret (l ++ [size])) [] (seqZ 0 8).

(** The choice of [nr_ue_get_sdu_mac_ce_post]. *)
Definition choose_bsr (mac : ue_ul) (LCG_bytes : list Z) (padding_len : Z) : res type_bsr_t :=
  lcg_id_bsr_max ← highest_group mac (lc_ordered_list mac);
  let short_bsr_sz := 1 + 1 in
  let num_lcg_id_with_data := groups_with_data LCG_bytes in
  let long_bsr_sz := num_lcg_id_with_data + 1 + 2 in
  if (num_lcg_id_with_data <? 2) && (padding_len >=? short_bsr_sz) then
    '(g, n) ← short_report LCG_bytes lcg_id_bsr_max; mret (b_short g n)
  else if padding_len >=? long_bsr_sz then l ← long_report LCG_bytes; mret (b_long l)
  else if padding_len =? short_bsr_sz then
    '(g, n) ← short_report LCG_bytes lcg_id_bsr_max; mret (b_short_trunc g n)
  else if padding_len >=? 1 + 2 then l ← long_report LCG_bytes; mret (b_long_trunc l)
  else mret b_none.

(** The actions when a report is sent; the result says whether one is. *)
Definition bsr_sent (mac : ue_ul) (bsr : type_bsr_t) : res (ue_ul * bool) :=
  match bsr with
  | b_none => mret (mac, false)
  | _ =>
      let periodic := match bsr with b_long _ | b_short _ _ => [StartPeriodicBsr] | _ => [] end in
      let mac := set_sr mac (sr_info mac) (StartRetxBsr :: periodic) in
      if regularBSR_trigger_lcid mac >? 0 then
        match get_lc_info_from_lcid mac (regularBSR_trigger_lcid mac) with
        | None => Fault Exit
        | Some lc_info =>
            if (sr_id lc_info >=? 0) && (sr_id lc_info <? NR_MAX_SR_ID) then
              sr ← zset (sr_info mac) (sr_id lc_info) (false, 0);
              mret (set_sr mac sr [StopSrProhibit (sr_id lc_info)], true)
            else mret (mac, true)
        end
      else mret (mac, true)
  end.

(** The long report: the byte with the bits of the groups at [mark], and behind it a byte
    for each group with data, as long as there is room. *)
Definition write_groups (lcg_bsr : list Z) (mark fin : Z) (w : list Z * Z) : res (list Z * Z) :=
  res_foldl (fun w i =>
      v ← zget lcg_bsr i;
      if negb (v =? 0) && (snd w <? fin) then
        m ← zget (fst w) mark;
        b ← zset (fst w) mark (Z.lor m (Z.shiftl 1 i));
        put (b, snd w) [v]
      else mret w) w (seqZ 0 8).

Definition write_long_bsr (id : Z) (lcg_bsr : list Z) (fin : Z) (w : list Z * Z) : res (list Z * Z) :=
  let start := snd w in
  let mark := start + 2 in
  b ← zset (fst w) mark 0;
  w ← write_groups lcg_bsr mark fin (b, mark + 1);
  b ← zwrite (fst w) start (NR_MAC_SUBHEADER_SHORT id (snd w - mark));
  mret (b, snd w).

(** [nr_write_ce_ulsch_pdu]; [fin] is [mac_ce_end]. *)
Definition nr_write_ce_ulsch_pdu (w : list Z * Z) (power_headroom : option (list Z)) (bsr : type_bsr_t) (fin : Z)
    : res (list Z * Z) :=
  w ← match power_headroom with
      | None => mret w
      | Some phr => w ← put w (NR_MAC_SUBHEADER_FIXED UL_SCH_LCID_SINGLE_ENTRY_PHR); put w phr
      end;
  match bsr with
  | b_short g n => w ← put w (NR_MAC_SUBHEADER_FIXED UL_SCH_LCID_S_BSR); put w [n + 32 * g]
  | b_short_trunc g n => w ← put w (NR_MAC_SUBHEADER_FIXED UL_SCH_LCID_S_TRUNCATED_BSR); put w [n + 32 * g]
  | b_long l => write_long_bsr UL_SCH_LCID_L_BSR l fin w
  | b_long_trunc l => write_long_bsr UL_SCH_LCID_L_TRUNCATED_BSR l fin w
  | b_none => mret w
  end.

(** [nr_ue_get_sdu_mac_ce_post]. *)
Definition nr_ue_get_sdu_mac_ce_post (t : lcp) (phr : option (list Z)) (buflen : Z)
    : res (ue_ul * (list Z * Z) * bool) :=
  let phr_len := match phr with Some _ => 3 | None => 0 end in
  bsr ← choose_bsr (mac t) (LCG_bytes t) (u32 (buflen - cur t - phr_len));
  '(m, sent) ← bsr_sent (mac t) bsr;
  w ← nr_write_ce_ulsch_pdu (block t, cur t) phr bsr buflen;
  mret (m, w, sent).

(** [nr_ue_get_sdu]: fills the block [ulsch_buffer] of [buflen] bytes, outside of the test
    modes [phy_test] and [do_ra].  The result has RLC, the channels, the block, [BSRsent] and
    the value of the function. *)
Definition nr_ue_get_sdu (s : S) (mac0 : ue_ul) (ulsch_buffer : list Z) (buflen P_CMAX tx_power : Z)
    : res (S * ue_ul * list Z * bool * bool) :=
  '(mac1, bytes) ← nr_update_bsr mac0 (replicate (Z.to_nat NR_MAX_NUM_LCGID) 0);
  let '(mac2, phr, fin) := nr_ue_get_sdu_mac_ce_pre mac1 bytes buflen P_CMAX tx_power in
  match lc_ordered_list mac2 with
  | [] => mret (s, mac2, ulsch_buffer, false, false)
  | _ =>
      cs ← select_logical_channels mac2 (lc_ordered_list mac2);
      t ← lcp_rounds 256 fin cs
            (mk_lcp s mac2 bytes ulsch_buffer 0 0 (replicate (Z.to_nat NR_MAX_NUM_LCID) true) 0 [] 0 0 0);
      '(mac3, w, sent) ← nr_ue_get_sdu_mac_ce_post t phr buflen;
      b ← write_padding w buflen;
      mret (rlc t, mac3, b, sent, num_sdus t >? 0)
  end.

(** ** The buckets *)

(** The update of [Bj] at the end of [nr_ue_ul_scheduler]: [min] compares an [int32_t] with
    a [uint32_t], and [scs] is the numerology. *)
Definition update_bj (scs : Z) (c : nr_lcordered_info_t) (i : NR_LC_SCHEDULING_INFO) : NR_LC_SCHEDULING_INFO :=
  let bj := if pbr c <? 2 ^ 32 - 1
            then i32 (Bj i + Z.shiftr (u32 (pbr c / 1000 * elapsed i)) scs)
            else 2 ^ 31 - 1 in
  mk_sched (LCID_buffer_remain i) (LCGID i) (i32 (Z.min (u32 bj) (bucket_size c))) 0.

Definition update_buckets (scs : Z) (mac : ue_ul) : res ue_ul :=
  res_foldl (fun mac c =>
    i ← get_scheduling_info_from_lcid mac (lcid c);
    put_scheduling_info mac (lcid c) (update_bj scs c i)) mac (lc_ordered_list mac).

(** [nr_update_rlc_buffers_status]: [status] is what RLC answers for a channel. *)
Definition nr_update_rlc_buffers_status (status : Z -> Z) (mac : ue_ul) : res ue_ul :=
  res_foldl (fun mac c =>
    if rb_suspended c then mret mac
    else
      i ← get_scheduling_info_from_lcid mac (lcid c);
      put_scheduling_info mac (lcid c) (mk_sched (status (lcid c)) (LCGID i) (Bj i) (elapsed i)))
    mac (lc_ordered_list mac).

End lcp.

End MacLcp.
