(* ===== verification/MacLcpSpec.v ===== *)
(** * Logical channel prioritization: the loops

    One SDU ([fill_sdu_ok]), one channel ([serve_channel_ok]), one round ([serve_channels_ok])
    and all rounds ([lcp_rounds_ok]) of [nr_ue_get_sdu].  The bound on the bytes to ask
    for is the share of the channels of equal priority: [budget] says that the space left
    covers the shares of those that are still to be served, which is why the assertion in
    [get_num_bytes_to_reqlc] never fails.  The loop over the rounds ends because a round
    either empties a channel or uses a part of the space ([drains]). *)

From S2P Require Import Prelude MacPdu MacPduSpec MacMux MacMuxSpec MacLcp.

Module MacLcpSpec.
Import MacLcp MacPduSpec MacMuxSpec.

(** ** The bytes to ask for *)

Definition sched_ok (i : NR_LC_SCHEDULING_INFO) : Prop := 0 <= LCID_buffer_remain i < 2 ^ 31 /\ 0 <= LCGID i < 8.

Definition target_of (k ep : Z) (c : nr_lcordered_info_t) : Z := if k >? 1 then Z.min ep (pbr c) else pbr c.

Lemma u32_small z : 0 <= z < 2 ^ 32 -> u32 z = z.
Proof. intros. unfold u32. apply Z.mod_small. lia. Qed.

Lemma i32_small z : - 2 ^ 31 <= z < 2 ^ 31 -> i32 z = z.
Proof.
  intros Hz. unfold i32, u32. destruct (Z_lt_ge_dec z 0).
  - replace (z mod 2 ^ 32) with (z + 2 ^ 32) by zmod. rewrite (proj2 (Z.ltb_ge _ _)) by lia. lia.
  - rewrite Z.mod_small by lia. by rewrite (proj2 (Z.ltb_lt _ _)) by lia.
Qed.

Lemma request_size m c l k ep room rnd tots tot i :
  get_lc_info_from_lcid m l = Some c -> get_scheduling_info_from_lcid m l = Ok i -> sched_ok i ->
  zget tots (l - 1) = Ok tot -> 0 <= pbr c < 2 ^ 32 -> 0 <= ep < 2 ^ 31 -> 0 <= room < 2 ^ 31 -> 0 <= tot ->
  (rnd = 0 -> tot = 0 \/ tot < target_of k ep c) -> (1 < k -> tot = 0 \/ tot < ep) ->
  (1 < k -> ep = 0 \/ ep - tot <= room) -> exists req,
  get_num_bytes_to_reqlc m k l ep room rnd tots = Ok (req, target_of k ep c) /\
  0 <= req <= room /\ req <= LCID_buffer_remain i /\
  (1 < k -> tot + req <= ep) /\ (rnd = 0 -> tot + req <= target_of k ep c).
Proof.
  intros Hc Hi [Hr _] Ht Hp Hep Hroom Htot H0 Hk Hb. unfold get_num_bytes_to_reqlc, target_of in *.
  rewrite Hc, Hi, res_bind_unfold. rewrite (u32_small (LCID_buffer_remain i)), (u32_small room) by lia.
  rewrite Z.gtb_ltb in *. destruct (1 <? k) eqn:Ek; [apply Z.ltb_lt in Ek|apply Z.ltb_ge in Ek];
    (destruct (rnd =? 0) eqn:Er; [apply Z.eqb_eq in Er|apply Z.eqb_neq in Er]);
    rewrite ?Ht, ?res_bind_unfold; cbv zeta.
  - specialize (H0 Er). specialize (Hk Ek). specialize (Hb Ek).
    eexists. rewrite dev_assert_ok; [split; [done|]|]; zcases; lia.
  - specialize (Hk Ek). specialize (Hb Ek). rewrite (u32_small (ep - tot)) by lia.
    eexists. rewrite dev_assert_ok; [split; [done|]|]; zcases; lia.
  - specialize (H0 Er). eexists. rewrite dev_assert_ok; [split; [done|]|]; zcases; lia.
  - eexists. rewrite dev_assert_ok; [split; [done|]|]; zcases; lia.
Qed.

(** ** One SDU *)

(** The two forms of an SDU in a block. *)
Definition ul_form (x : list Z) (c : Z * list Z) : Prop :=
  x = long_sdu (fst c) (snd c) /\ zlen (snd c) < 65536 \/ x = short_sdu (fst c) (snd c) /\ zlen (snd c) < 256.

(** Room for the shares of [num] channels; without equal priorities there is no share. *)
Definition budget (num count ep room : Z) : Prop := count <= 1 \/ ep = 0 \/ num * (ep + 3) <= room.

(** The entry of a channel. *)
Definition info (m : ue_ul) (c : nr_lcordered_info_t) : NR_LC_SCHEDULING_INFO :=
  nth (Z.to_nat (lcid c - 1)) (lc_sched_info m) (mk_sched 0 0 0 0).

(** The bytes that wait in a channel, in a group, and in all. *)
Definition waits (c : nr_lcordered_info_t) (i : NR_LC_SCHEDULING_INFO) : Z :=
  if rb_suspended c then 0 else LCID_buffer_remain i.

Definition waits_in (g : Z) (c : nr_lcordered_info_t) (i : NR_LC_SCHEDULING_INFO) : Z :=
  if LCGID i =? g then waits c i else 0.

Definition total (f : nr_lcordered_info_t -> NR_LC_SCHEDULING_INFO -> Z) (m : ue_ul) : Z :=
  zsum (fun c => f c (info m c)) (lc_ordered_list m).

Definition waiting (m : ue_ul) (g : Z) : Z := total (waits_in g) m.

Definition left_over (m : ue_ul) : Z := total waits m.

(** The bytes of the channels that are suspended. *)
Definition held_back (m : ue_ul) : Z := total (fun c i => if rb_suspended c then LCID_buffer_remain i else 0) m.

(** The channels and their entries, as [nr_ue_get_sdu] keeps them. *)
Definition channels_ok (m : ue_ul) : Prop :=
  NoDup (map lcid (lc_ordered_list m)) /\ Forall (fun c => 1 <= lcid c <= 32 /\ 0 <= pbr c < 2 ^ 32) (lc_ordered_list m) /\
  zlen (lc_sched_info m) = 32 /\ Forall sched_ok (lc_sched_info m).

(** The largest amount for which the gNB adds up its estimates without overflow. *)
Definition MAX_REPORT : Z := level NR_LONG_BSR_TABLE_SIZE 253.

Lemma find_lcid c (l : list nr_lcordered_info_t) : NoDup (map lcid l) -> c ∈ l ->
  List.find (fun d => lcid d =? lcid c) l = Some c.
Proof.
  induction l as [|d l IH]; intros Hnd Hc; [by apply elem_of_nil in Hc|].
  cbn in Hnd. apply NoDup_cons in Hnd as [Hd Hnd]. cbn [List.find].
  apply elem_of_cons in Hc as [->|Hc]; [by rewrite Z.eqb_refl|].
  rewrite (proj2 (Z.eqb_neq _ _)); [by apply IH|]. intros E. apply Hd. rewrite E. by apply list_elem_of_fmap_2.
Qed.

Lemma lcid_inj c d l : NoDup (map lcid l) -> c ∈ l -> d ∈ l -> lcid c = lcid d -> c = d.
Proof.
  intros Hnd Hc Hd E. pose proof (find_lcid c l Hnd Hc) as F1. pose proof (find_lcid d l Hnd Hd) as F2.
  rewrite E, F2 in F1. by injection F1.
Qed.

Lemma zsum_update {A} (f f' : A -> Z) c l : NoDup l -> c ∈ l -> (forall d, d ∈ l -> d <> c -> f' d = f d) ->
  zsum f' l = zsum f l + (f' c - f c).
Proof.
  induction l as [|d l IH]; intros Hnd Hc Hf; [by apply elem_of_nil in Hc|]. apply NoDup_cons in Hnd as [Hd Hnd].
  rewrite !zsum_cons. apply elem_of_cons in Hc as [->|Hc].
  - rewrite (zsum_ext f' f l); [lia|]. intros e He. apply Hf; [set_solver|]. by intros ->.
  - rewrite IH by (done || set_solver). rewrite (Hf d) by (set_solver || (by intros ->)). lia.
Qed.

Lemma lcid_index l : 1 <= l <= 32 -> lcid_buffer_index l = Ok (l - 1).
Proof. intros Hl. unfold lcid_buffer_index. by rewrite dev_assert_ok by (zcases; unfold NR_MAX_NUM_LCID in *; lia). Qed.

Lemma info_get m c : zlen (lc_sched_info m) = 32 -> 1 <= lcid c <= 32 ->
  get_scheduling_info_from_lcid m (lcid c) = Ok (info m c) /\ info m c ∈ lc_sched_info m.
Proof.
  intros Hlen Hl. unfold get_scheduling_info_from_lcid. rewrite lcid_index, res_bind_unfold by done.
  unfold info. rewrite nth_lookup.
  destruct (lookup_lt_is_Some_2 (lc_sched_info m) (Z.to_nat (lcid c - 1))) as [i Ei]; [unfold zlen in *; lia|].
  rewrite Ei. split; [apply zget_ok; split; [lia|done]|]. by eapply list_elem_of_lookup_2.
Qed.

Lemma info_ok m c : channels_ok m -> c ∈ lc_ordered_list m -> 1 <= lcid c <= 32 /\ 0 <= pbr c < 2 ^ 32 /\
  get_scheduling_info_from_lcid m (lcid c) = Ok (info m c) /\ sched_ok (info m c).
Proof.
  intros (_ & Hch & Hlen & Hs) Hc. rewrite Forall_forall in Hch. rewrite Forall_forall in Hs. destruct (Hch c Hc) as [Hl Hp].
  destruct (info_get m c Hlen Hl) as [Eg Hin]. auto.
Qed.

(** A new entry for a channel. *)
Lemma put_sched_ok m c i : channels_ok m -> c ∈ lc_ordered_list m -> sched_ok i ->
  exists m', put_scheduling_info m (lcid c) i = Ok m' /\ m' = set_sched m (lc_sched_info m') /\ channels_ok m' /\
    forall f, total f m' = total f m + (f c i - f c (info m c)).
Proof.
  intros Hm Hc Hi. destruct (info_ok m c Hm Hc) as (Hl & _). destruct Hm as (Hnd & Hch & Hlen & Hs).
  unfold put_scheduling_info. rewrite lcid_index, res_bind_unfold, zset_ok, res_bind_unfold by (done || lia).
  eexists. split; [done|]. split; [done|].
  split; [split; [done|]; split; [done|]; cbn [lc_sched_info set_sched]; rewrite zlen_insert; split; [done|by apply Forall_insert]|].
  set (m' := set_sched _ _). assert (Hsame : info m' c = i).
  { unfold info, m'. cbn [lc_sched_info set_sched]. rewrite nth_lookup, list_lookup_insert_eq; [done|unfold zlen in *; lia]. }
  intros f. unfold total. change (lc_ordered_list m') with (lc_ordered_list m).
  rewrite (zsum_update (fun d => f d (info m d)) (fun d => f d (info m' d)) c); [by rewrite Hsame|by eapply NoDup_fmap_1|done|].
  intros d Hd Hne. f_equal. unfold info, m'. cbn [lc_sched_info set_sched]. rewrite !nth_lookup, list_lookup_insert_ne; [done|].
  rewrite Forall_forall in Hch. destruct (Hch d Hd) as [Hld _]. intros E. apply Hne.
  apply (lcid_inj d c (lc_ordered_list m)); try done. lia.
Qed.

(** What waits in a group is a part of what waits, and the groups share it. *)
Lemma waits_nonneg m c : channels_ok m -> c ∈ lc_ordered_list m -> 0 <= waits c (info m c).
Proof. intros Hm Hc. destruct (info_ok m c Hm Hc) as (_ & _ & _ & [Hr _]). unfold waits. destruct (rb_suspended c); lia. Qed.

Lemma zsum_le {A} (f g : A -> Z) l : (forall x, x ∈ l -> f x <= g x) -> zsum f l <= zsum g l.
Proof.
  induction l as [|x l IH]; intros H; [done|]. rewrite !zsum_cons.
  assert (f x <= g x) by (apply H; set_solver). assert (zsum f l <= zsum g l) by (apply IH; set_solver). lia.
Qed.

Lemma waiting_bounds m g : channels_ok m -> 0 <= waiting m g <= left_over m.
Proof.
  intros Hm. unfold waiting, left_over, total. split.
  - replace 0 with (zsum (fun _ : nr_lcordered_info_t => 0) (lc_ordered_list m)).
    + apply zsum_le. intros c Hc. pose proof (waits_nonneg m c Hm Hc). unfold waits_in. destruct (_ =? g); lia.
    + induction (lc_ordered_list m) as [|c l IH]; [done|]. rewrite zsum_cons. lia.
  - apply zsum_le. intros c Hc. pose proof (waits_nonneg m c Hm Hc). unfold waits_in. destruct (_ =? g); lia.
Qed.

Lemma waits_waiting m c : channels_ok m -> c ∈ lc_ordered_list m ->
  waits c (info m c) <= waiting m (LCGID (info m c)).
Proof.
  intros Hm Hc. unfold waiting, total.
  assert (Hall : forall d, d ∈ lc_ordered_list m -> 0 <= waits_in (LCGID (info m c)) d (info m d)).
  { intros d Hd. pose proof (waits_nonneg m d Hm Hd). unfold waits_in. destruct (_ =? _); lia. }
  replace (waits c (info m c)) with (waits_in (LCGID (info m c)) c (info m c)) by (unfold waits_in; by rewrite Z.eqb_refl).
  revert Hc Hall. generalize (waits_in (LCGID (info m c))) as f. intros f. induction (lc_ordered_list m) as [|d l IH];
    intros Hc Hall; [by apply elem_of_nil in Hc|]. rewrite zsum_cons.
  assert (0 <= zsum (fun d => f d (info m d)) l).
  { clear -Hall. induction l as [|e l IH]; [done|]. rewrite zsum_cons.
    assert (0 <= f e (info m e)) by (apply Hall; set_solver).
    assert (0 <= zsum (fun d => f d (info m d)) l) by (apply IH; intros; apply Hall; set_solver). lia. }
  assert (0 <= f d (info m d)) by (apply Hall; set_solver).
  apply elem_of_cons in Hc as [->|Hc]; [lia|].
  assert (f c (info m c) <= zsum (fun d => f d (info m d)) l) by (apply IH; [done|intros; apply Hall; set_solver]). lia.
Qed.

Section lcp.
Context {S : Type} `{R : MacRlc S} {I : S -> Prop} `{L : !MacRlcLaws S I}.
Variable lcs : list nr_lcordered_info_t.
Variables fin N : Z.
Hypothesis Hfin : 0 <= fin <= 160000.
Hypothesis HN : fin <= N.

Record ready (t : lcp (S := S)) : Prop := {
  rd_rlc : I (rlc t);
  rd_lcs : lc_ordered_list (mac t) = lcs;
  rd_mac : channels_ok (mac t);
  rd_lcg : zlen (LCG_bytes t) = 8;
  rd_groups : forall g, 0 <= g < 8 -> zget (LCG_bytes t) g = Ok (waiting (mac t) g);
  rd_left : left_over (mac t) <= MAX_REPORT;
  rd_held : held_back (mac t) = 0;
  rd_block : exists pre, holds (block t, cur t) pre N;
  rd_cur : 0 <= cur t <= fin;
  rd_status : zlen (lcids_data_status t) = 32;
  rd_tot : zlen (lcids_bytes_tot t) = 32;
  rd_counter : 0 <= lcp_allocation_counter t < 256;
  rd_sdus : 0 <= num_sdus t <= cur t
}.

(** From [t] to [t'] the block has grown by SDUs of RLC, which no longer wait. *)
Definition extends (t t' : lcp (S := S)) : Prop :=
  exists xs l, Forall2 ul_form xs l /\ Forall sdu_ok l /\ Forall (fun c => fst c ∈ map lcid lcs) l /\
    served (rlc t) l (rlc t') /\ num_sdus t' = num_sdus t + zlen l /\
    cur t' = cur t + zlen (concat xs) /\
    (forall pre, holds (block t, cur t) pre N -> holds (block t', cur t') (pre ++ concat xs) N) /\
    mac t' = set_sched (mac t) (lc_sched_info (mac t')) /\
    left_over (mac t') + zsum (fun c => zlen (snd c)) l = left_over (mac t).

(** The same within a round, in which no channel gets data. *)
Definition moves (t t' : lcp (S := S)) : Prop :=
  lcp_allocation_counter t' = lcp_allocation_counter t /\
  (forall i, lcids_data_status t' !! i = Some true -> lcids_data_status t !! i = Some true) /\
  extends t t'.

#[local] Instance extends_preorder : PreOrder extends.
Proof.
  split.
  - intros t. exists [], []. do 4 (split; [constructor|]). cbn [concat].
    split; [symmetry; apply Z.add_0_r|]. split; [symmetry; apply Z.add_0_r|].
    split; [intros pre Hp; by rewrite app_nil_r|]. split; [by destruct (mac t)|apply Z.add_0_r].
  - intros t1 t2 t3 (xs1 & l1 & F1 & O1 & M1 & V1 & N1 & P1 & H1 & U1 & W1)
      (xs2 & l2 & F2 & O2 & M2 & V2 & N2 & P2 & H2 & U2 & W2).
    exists (xs1 ++ xs2), (l1 ++ l2).
    rewrite concat_app, !zlen_app, zsum_app.
    split; [by apply Forall2_app|]. split; [by apply Forall_app|]. split; [by apply Forall_app|].
    split; [by eapply served_app|]. split; [lia|]. split; [lia|].
    split; [intros pre Hp; rewrite app_assoc; by apply H2, H1|]. split; [|lia].
    rewrite U2 at 1. by rewrite U1.
Qed.

#[local] Instance moves_preorder : PreOrder moves.
Proof.
  split; [by intros t; split; [|split; [|reflexivity] ]|].
  intros t1 t2 t3 (C1 & S1 & E1) (C2 & S2 & E2). split; [congruence|]. split; [by eauto|by transitivity t2].
Qed.

Lemma moves_cur t t' : moves t t' -> cur t <= cur t'.
Proof. intros (_ & _ & xs & l & _ & _ & _ & _ & _ & -> & _). pose proof (zlen_nonneg (concat xs)). lia. Qed.

(** The channel [c] while it is served: [tot] bytes since position [p0]. *)
Record serving (t : lcp (S := S)) (c : nr_lcordered_info_t) (tot p0 : Z) : Prop := {
  sv_tot : zget (lcids_bytes_tot t) (lcid c - 1) = Ok tot;
  sv_pos : 0 <= p0 /\ 0 <= tot /\ 3 * tot <= 4 * (cur t - p0) /\ tot <= 2 * (cur t - p0);
  sv_num : 1 <= num_lcids_same_priority t <= count_same_priority_lcids t;
  sv_count : count_same_priority_lcids t <= 255;
  sv_ep : 0 <= buflen_ep t <= fin;
  sv_first : lcp_allocation_counter t = 0 ->
    tot = 0 \/ tot < target_of (count_same_priority_lcids t) (buflen_ep t) c;
  sv_share : 1 < count_same_priority_lcids t -> tot = 0 \/ tot < buflen_ep t;
  sv_budget : budget (num_lcids_same_priority t) (count_same_priority_lcids t) (buflen_ep t) (fin - cur t + tot)
}.

Lemma channel_facts t c : ready t -> c ∈ lcs ->
  get_lc_info_from_lcid (mac t) (lcid c) = Some c /\ suspended (mac t) (lcid c) = rb_suspended c /\
  1 <= lcid c <= 32 /\ 0 <= pbr c < 2 ^ 32 /\
  get_scheduling_info_from_lcid (mac t) (lcid c) = Ok (info (mac t) c) /\ sched_ok (info (mac t) c).
Proof.
  intros Hr Hc. destruct Hr as [_ El Hm _ _ _ _ _ _ _ _ _ _]. pose proof Hm as (Hnd & _). rewrite El in Hnd.
  pose proof (find_lcid c lcs Hnd Hc) as Hf.
  unfold get_lc_info_from_lcid, suspended, is_lcid_suspended. rewrite El. split; [done|].
  split; [|apply info_ok; [done|by rewrite El] ].
  clear -Hf. induction lcs as [|d l IH]; [done|]. cbn in *. destruct (lcid d =? lcid c); [by injection Hf as ->|by apply IH].
Qed.

(** The end of a channel in a round: it has no data, there is no space, it is the first
    round, or the channel has used its share. *)
Definition stopped (t t' : lcp (S := S)) (c : nr_lcordered_info_t) (p0 : Z) : Prop :=
  0 <= num_lcids_same_priority t' <= count_same_priority_lcids t /\
  budget (num_lcids_same_priority t') (count_same_priority_lcids t) (buflen_ep t) (fin - cur t') /\
  (zget (lcids_data_status t') (lcid c - 1) = Ok false \/ fin - cur t' < 3 \/ lcp_allocation_counter t = 0 \/
   1 < count_same_priority_lcids t /\ 3 * buflen_ep t <= 4 * (cur t' - p0) /\ 3 <= cur t' - p0).

(** [lcids_bytes_tot] changes for [c] only. *)
Definition others_same (t t' : lcp (S := S)) (c : nr_lcordered_info_t) : Prop :=
  count_same_priority_lcids t' = count_same_priority_lcids t /\ buflen_ep t' = buflen_ep t /\
  forall i, i <> lcid c - 1 -> zget (lcids_bytes_tot t') i = zget (lcids_bytes_tot t) i.

Lemma zget_zset_ne {A} (l : list A) i j x l' : zset l i x = Ok l' -> i <> j -> zget l' j = zget l j.
Proof.
  unfold zset, zget. zcases; simpl; intros Hset; res_inv; try done. intros Hij.
  f_equal. rewrite list_lookup_insert_ne by lia. done.
Qed.

Lemma zget_zset_eq {A} (l : list A) i x l' : zset l i x = Ok l' -> zget l' i = Ok x.
Proof.
  unfold zset, zget. zcases; simpl; intros Hset; res_inv; try done; try lia.
  all: rewrite list_lookup_insert_eq by (unfold zlen in *; lia); done.
Qed.

(** Two simple facts about the budget. *)
Lemma budget_room num count ep room tot : budget num count ep (room + tot) -> 1 <= num -> 1 < count ->
  0 <= ep -> ep = 0 \/ ep + 3 - tot <= room.
Proof. intros [Hb|[Hb|Hb] ] Hn Hc He; [lia|by left|right]. nia. Qed.

Lemma budget_next num count ep room : budget num count ep (room + (ep + 3)) -> budget (num - 1) count ep room.
Proof. intros [Hb|[Hb|Hb] ]; [by left|by right; left|right; right]. nia. Qed.

Lemma budget_mono num count ep room room' : budget num count ep room -> room <= room' -> budget num count ep room'.
Proof. intros [Hb|[Hb|Hb] ] H; [by left|by right; left|right; right]. lia. Qed.

(** RLC had nothing for the channel. *)
Lemma fill_empty t c tot p0 s i b : ready t -> c ∈ lcs -> serving t c tot p0 ->
  LCGID i = LCGID (info (mac t) c) -> LCID_buffer_remain i = LCID_buffer_remain (info (mac t) c) ->
  I s -> served (rlc t) [] s -> (exists pre, holds (b, cur t) pre N) ->
  (forall pre, holds (block t, cur t) pre N -> holds (b, cur t) pre N) ->
  exists m st t', put_scheduling_info (mac t) (lcid c) i = Ok m /\
    zset (lcids_data_status t) (lcid c - 1) false = Ok st /\
    t' = mk_lcp s m (LCG_bytes t) b (cur t) (num_sdus t) st (lcp_allocation_counter t) (lcids_bytes_tot t)
           (u32 (num_lcids_same_priority t - 1)) (count_same_priority_lcids t) (buflen_ep t) /\
    ready t' /\ moves t t' /\ others_same t t' c /\ stopped t t' c p0.
Proof.
  intros Hr Hc Hsv Hg Hrem Hs Hv Hb Hbs. destruct (channel_facts t c Hr Hc) as (_ & _ & Hl & _ & _ & Hi).
  pose proof Hr as [R1 R2 R3 R4 R5 R6 R7 R8 R9 R10 R11 R12 R13].
  assert (Hok : sched_ok i) by (unfold sched_ok in *; by rewrite Hg, Hrem).
  destruct (put_sched_ok (mac t) c i R3 ltac:(by rewrite R2) Hok) as (m & Em & Um & Hm & Htot).
  assert (Hw : forall g, waiting m g = waiting (mac t) g).
  { intros g. unfold waiting. rewrite Htot. unfold waits_in, waits. rewrite Hg, Hrem. lia. }
  assert (Hlo : left_over m = left_over (mac t)) by (unfold left_over; rewrite Htot; unfold waits; rewrite Hrem; lia).
  assert (Hhb : held_back m = held_back (mac t)) by (unfold held_back; rewrite Htot, Hrem; lia).
  exists m. rewrite (zset_ok (lcids_data_status t)) by lia. eexists _, _. do 3 (split; [done|]).
  destruct Hsv as [T1 T2 T3 T4 T5 T6 T7 T8]. rewrite u32_small by lia.
  split; [|split; [|split; [done|] ] ].
  - constructor; cbn [rlc mac LCG_bytes block cur num_sdus lcids_data_status lcp_allocation_counter lcids_bytes_tot];
      try done; [by rewrite Um|intros g; rewrite Hw; apply R5|by rewrite Hlo|by rewrite Hhb|by rewrite zlen_insert].
  - split; [done|]. split; cbn [lcids_data_status rlc num_sdus cur block mac].
    + intros k Hk. destruct (decide (Z.to_nat (lcid c - 1) = k)) as [<-|Hne].
      * rewrite list_lookup_insert_eq in Hk by (unfold zlen in *; lia). discriminate.
      * by rewrite list_lookup_insert_ne in Hk.
    + exists [], []. do 3 (split; [constructor|]). split; [done|]. split; [symmetry; apply Z.add_0_r|].
      split; [symmetry; apply Z.add_0_r|]. split; [intros pre Hp; rewrite app_nil_r; by apply Hbs|].
      split; [done|]. cbn [mac]. rewrite Hlo. apply Z.add_0_r.
  - split; [cbn; lia|]. cbn [num_lcids_same_priority cur lcids_data_status]. split.
    + destruct (Z_le_gt_dec (count_same_priority_lcids t) 1); [by left|].
      apply budget_next. eapply budget_mono; [exact T8|]. destruct T7; lia.
    + left. apply zget_zset_eq with (l := lcids_data_status t). by rewrite zset_ok by lia.
Qed.

(** The outcome of one SDU. *)
Definition filled (t t' : lcp (S := S)) (c : nr_lcordered_info_t) (go : bool) (p0 : Z) : Prop :=
  ready t' /\ moves t t' /\ others_same t t' c /\
  if go then cur t < cur t' /\ exists tot, serving t' c tot p0 else stopped t t' c p0.

(** The bytes of [sdu] leave the channel [c] and its group. *)
Lemma take_bytes t c i n : ready t -> c ∈ lcs -> rb_suspended c = false ->
  LCGID i = LCGID (info (mac t) c) -> LCID_buffer_remain i = LCID_buffer_remain (info (mac t) c) ->
  0 <= n <= LCID_buffer_remain i ->
  exists m g, put_scheduling_info (mac t) (lcid c) (mk_sched (LCID_buffer_remain i - n) (LCGID i) (Bj i) (elapsed i)) = Ok m /\
    m = set_sched (mac t) (lc_sched_info m) /\ channels_ok m /\ left_over m = left_over (mac t) - n /\ held_back m = held_back (mac t) /\
    zget (LCG_bytes t) (LCGID i) = Ok (waiting (mac t) (LCGID i)) /\
    zset (LCG_bytes t) (LCGID i) (u32 (waiting (mac t) (LCGID i) - n)) = Ok g /\ zlen g = 8 /\
    forall k, 0 <= k < 8 -> zget g k = Ok (waiting m k).
Proof.
  intros Hr Hc Hsus Hg Hrem Hn. destruct (channel_facts t c Hr Hc) as (_ & _ & Hl & _ & _ & Hi).
  pose proof Hr as [R1 R2 R3 R4 R5 R6 R7 R8 R9 R10 R11 R12 R13]. unfold sched_ok in Hi. rewrite <- Hg, <- Hrem in Hi.
  destruct (put_sched_ok (mac t) c (mk_sched (LCID_buffer_remain i - n) (LCGID i) (Bj i) (elapsed i)) R3 ltac:(by rewrite R2))
    as (m & Em & Um & Hm & Htot); [unfold sched_ok; cbn; lia|].
  exists m. rewrite zset_ok by lia. eexists. split; [done|]. split; [done|]. split; [done|].
  split; [unfold left_over; rewrite Htot; unfold waits; rewrite Hsus, <- Hrem; cbn [LCID_buffer_remain]; lia|].
  split; [unfold held_back; rewrite Htot, Hsus; lia|].
  split; [apply R5; lia|]. split; [done|]. split; [by rewrite zlen_insert|].
  pose proof (waits_waiting (mac t) c R3 ltac:(by rewrite R2)) as Hle. pose proof (waiting_bounds (mac t) (LCGID i) R3) as Hwb.
  unfold waits in Hle. rewrite Hsus, <- Hg, <- Hrem in Hle.
  assert (MAX_REPORT < 2 ^ 31) by (vm_compute; reflexivity). rewrite u32_small by lia.
  assert (Hw : forall k, waiting m k = waiting (mac t) k - (if LCGID i =? k then n else 0)).
  { intros k. unfold waiting. rewrite Htot. unfold waits_in, waits. cbn [LCGID LCID_buffer_remain]. rewrite Hsus, <- Hg, <- Hrem.
    destruct (LCGID i =? k); lia. }
  intros k Hk. rewrite Hw. destruct (Z.eqb_spec (LCGID i) k) as [->|Hne].
  - rewrite (zget_zset_eq (LCG_bytes t) k (waiting (mac t) k - n)); [f_equal; lia|by rewrite zset_ok by lia].
  - rewrite (zget_zset_ne (LCG_bytes t) (LCGID i) k (waiting (mac t) (LCGID i) - n)); [rewrite R5 by lia; f_equal; lia| |done].
    by rewrite zset_ok by lia.
Qed.

(** RLC had [sdu], which is in the block as [h ++ sdu]. *)
Lemma fill_sdu t c tot p0 s i b h sdu : ready t -> c ∈ lcs -> rb_suspended c = false -> serving t c tot p0 ->
  LCGID i = LCGID (info (mac t) c) -> LCID_buffer_remain i = LCID_buffer_remain (info (mac t) c) ->
  I s -> served (rlc t) [(lcid c, sdu)] s -> sdu_ok (lcid c, sdu) -> ul_form (h ++ sdu) (lcid c, sdu) ->
  2 <= zlen h <= 3 -> cur t + zlen h + zlen sdu <= fin -> zlen sdu <= LCID_buffer_remain i ->
  (1 < count_same_priority_lcids t -> tot + zlen sdu <= buflen_ep t) ->
  (forall pre, holds (block t, cur t) pre N -> holds (b, cur t + zlen h + zlen sdu) (pre ++ h ++ sdu) N) ->
  let i' := mk_sched (LCID_buffer_remain i - zlen sdu) (LCGID i) (Bj i) (elapsed i) in
  let tot' := u32 (tot + zlen sdu + (if count_same_priority_lcids t >? 1 then 3 else 0)) in
  let target := target_of (count_same_priority_lcids t) (buflen_ep t) c in
  let stop := ((lcp_allocation_counter t =? 0) && (tot' >=? target))
              || ((count_same_priority_lcids t >? 1) && (tot' >=? buflen_ep t)) in
  exists m n g tots t', put_scheduling_info (mac t) (lcid c) i' = Ok m /\
    zget (LCG_bytes t) (LCGID i) = Ok n /\ zset (LCG_bytes t) (LCGID i) (u32 (n - zlen sdu)) = Ok g /\
    zset (lcids_bytes_tot t) (lcid c - 1) tot' = Ok tots /\
    t' = mk_lcp s m g b (cur t + zlen h + zlen sdu) (u32 (num_sdus t + 1)) (lcids_data_status t)
              (lcp_allocation_counter t) tots
              (if stop then u32 (num_lcids_same_priority t - 1) else num_lcids_same_priority t)
              (count_same_priority_lcids t) (buflen_ep t) /\
    filled t t' c (negb stop) p0.
Proof.
  intros Hr Hc Hsus Hsv Hg Hrem Hs Hv Hso Hform Hh Hroom Hn Hshare Hb i' tot' target stop.
  destruct (channel_facts t c Hr Hc) as (_ & _ & Hl & Hp & _ & _).
  assert (Hpos : 0 < zlen sdu) by (destruct Hso as [_ ?]; cbn [snd] in *; lia).
  destruct (take_bytes t c i (zlen sdu) Hr Hc Hsus Hg Hrem ltac:(lia)) as (m & g & Em & Um & Hm & Hlo & Hhb & En & Eg & Hgl & Hgr).
  pose proof Hr as [R1 R2 R3 R4 R5 R6 R7 R8 R9 R10 R11 R12 R13]. destruct Hsv as [T1 T2 T3 T4 T5 T6 T7 T8].
  exists m, (waiting (mac t) (LCGID i)), g. rewrite (zset_ok (lcids_bytes_tot t)) by lia. eexists _, _.
  do 5 (split; [done|]).
  assert (Etot : tot' = tot + zlen sdu + (if count_same_priority_lcids t >? 1 then 3 else 0)).
  { unfold tot'. apply u32_small. destruct (_ >? 1); lia. }
  rewrite (u32_small (num_sdus t + 1)) by lia.
  split; [|split; [|split] ].
  - constructor; cbn [rlc mac LCG_bytes block cur num_sdus lcids_data_status lcp_allocation_counter lcids_bytes_tot];
      try done; rewrite ?zlen_insert, ?Hhb; try done; try lia; [by rewrite Um|].
    destruct R8 as [pre Hpre]. exists (pre ++ h ++ sdu). by apply Hb.
  - split; [done|]. split; [done|]. exists [h ++ sdu], [(lcid c, sdu)]. cbn [concat]. rewrite app_nil_r, zlen_app.
    split; [by constructor; [|constructor]|]. split; [by constructor; [|constructor]|].
    split; [constructor; [cbn [fst]; by apply (list_elem_of_fmap_2 lcid)|constructor]|].
    split; [done|]. split; [done|]. split; [cbn; lia|]. split; [exact Hb|]. split; [done|].
    cbn [mac]. rewrite Hlo, zsum_cons. change (zsum _ []) with 0. cbn [snd]. lia.
  - split; [done|]. split; [done|]. intros k Hk. apply (zget_zset_ne (lcids_bytes_tot t) (lcid c - 1) k tot'); [|lia].
    cbn [lcids_bytes_tot]. by rewrite zset_ok by lia.
  - assert (Hstop : stop = true -> 1 < count_same_priority_lcids t \/ lcp_allocation_counter t = 0).
    { unfold stop. rewrite orb_true_iff, !andb_true_iff, Z.eqb_eq, Z.gtb_lt. tauto. }
    rewrite Z.gtb_ltb in *. unfold target, target_of in *. rewrite Z.gtb_ltb in *.
    destruct stop eqn:Es; cbn [negb].
    + rewrite (u32_small (num_lcids_same_priority t - 1)) by lia. split; [cbn; lia|]. cbn [num_lcids_same_priority cur lcids_data_status]. split.
      * destruct (Z_le_gt_dec (count_same_priority_lcids t) 1); [by left|].
        apply budget_next. eapply budget_mono; [exact T8|]. specialize (Hshare ltac:(lia)). lia.
      * destruct (Z.eq_dec (lcp_allocation_counter t) 0) as [E0|E0]; [by right; right; left|].
        destruct (Hstop eq_refl) as [Hk|?]; [|done]. right; right; right. split; [done|].
        unfold stop in Es. rewrite (proj2 (Z.eqb_neq _ 0)) in Es by done. cbn [andb orb] in Es.
        apply andb_prop in Es as [E1 Es]. apply Z.geb_le in Es. apply Z.gtb_lt in E1.
        rewrite (proj2 (Z.ltb_lt 1 _)) in Etot by done. lia.
    + split; [cbn [cur]; lia|]. unfold stop in Es. apply orb_false_iff in Es as [Es1 Es2].
      exists tot'. constructor; cbn [lcids_bytes_tot cur num_lcids_same_priority count_same_priority_lcids buflen_ep
        lcp_allocation_counter]; try done.
      * apply zget_zset_eq with (l := lcids_bytes_tot t). by rewrite zset_ok by lia.
      * rewrite Etot. destruct (1 <? _); lia.
      * intros E0. right. rewrite E0 in Es1. cbn [andb Z.eqb] in Es1.
        rewrite Z.geb_leb, Z.leb_gt in Es1. exact Es1.
      * intros Hk. right. rewrite (proj2 (Z.gtb_lt _ 1)) in Es2 by done. cbn [andb] in Es2.
        rewrite Z.geb_leb, Z.leb_gt in Es2. exact Es2.
      * rewrite Etot. destruct (1 <? _) eqn:E1; [|left; by apply Z.ltb_ge in E1].
        eapply budget_mono; [exact T8|]. lia.
Qed.

Lemma u64_small z : 0 <= z < 2 ^ 64 -> u64 z = z.
Proof. intros. unfold u64. apply Z.mod_small. lia. Qed.

(** There is no room for one more byte behind a subheader. *)
Lemma fill_short t c tot p0 : ready t -> serving t c tot p0 -> fin - cur t < 3 -> filled t t c false p0.
Proof.
  intros Hr [T1 T2 T3 T4 T5 T6 T7 T8] Hsh. split; [done|]. split; [reflexivity|]. split; [done|].
  split; [lia|]. split; [|by right; left].
  destruct (Z_le_gt_dec (count_same_priority_lcids t) 1); [by left|].
  destruct (budget_room _ _ _ _ _ T8 ltac:(lia) ltac:(lia) ltac:(lia)) as [E|E]; [by right; left|].
  exfalso. specialize (T7 ltac:(lia)). lia.
Qed.

(** One call of [fill_mac_sdu]: it never faults, and its assertions hold. *)
Lemma fill_sdu_ok t c tot p0 : ready t -> c ∈ lcs -> rb_suspended c = false -> serving t c tot p0 ->
  exists t' go, fill_mac_sdu fin (lcid c) t = Ok (t', go) /\ filled t t' c go p0.
Proof.
  intros Hr Hc Hsus Hsv. destruct (channel_facts t c Hr Hc) as (Einfo & Esus & Hl & Hp & Ei & Hi).
  set (i := info (mac t) c) in *.
  pose proof (rd_cur t Hr) as Hcur. pose proof (rd_counter t Hr) as Hcnt. pose proof Hsv as [T1 T2 T3 T4 T5 T6 T7 T8].
  unfold fill_mac_sdu. rewrite Ei, res_bind_unfold, Esus, Hsus. rewrite (u32_small (fin - cur t)), (u64_small (fin - cur t)) by lia.
  destruct (fin - cur t <? 3) eqn:E3; [apply Z.ltb_lt in E3|apply Z.ltb_ge in E3].
  { exists t, false. split; [done|by eapply fill_short]. }
  set (hs := if fin - cur t <? 256 then 2 else 3).
  assert (Hhs : 2 <= hs <= 3) by (unfold hs; destruct (_ <? _); lia). rewrite (i32_small (fin - cur t - hs)) by lia.
  unfold u8. rewrite !Z.mod_small by lia.
  destruct (request_size (mac t) c (lcid c) (count_same_priority_lcids t) (buflen_ep t) (fin - cur t - hs)
    (lcp_allocation_counter t) (lcids_bytes_tot t) tot i) as (req & Ereq & Hreq & Hrem & Hsh & Hfst); try done; try lia.
  { intros Hk. destruct (budget_room _ _ _ _ _ T8 ltac:(lia) Hk ltac:(lia)); [by left|right; lia]. }
  rewrite Ereq, res_bind_unfold.
  destruct (request_ok (rlc t) (lcid c) req (rd_rlc t Hr) Hl ltac:(lia)) as (s & sdu & Es & Hs & Hz & Hcase).
  rewrite Es, res_bind_unfold. pose proof (zlen_nonneg sdu) as Hz0.
  set (h := if req <? 256 then NR_MAC_SUBHEADER_SHORT (lcid c) (zlen sdu) else NR_MAC_SUBHEADER_LONG (lcid c) (zlen sdu)).
  assert (Hh : zlen h = if req <? 256 then 2 else 3) by (unfold h; by destruct (req <? 256)).
  assert (Hfit : (if req <? 256 then 2 else 3) + zlen sdu <= fin - cur t).
  { unfold hs in *. destruct (req <? 256) eqn:E256; [lia|]. apply Z.ltb_ge in E256.
    destruct (fin - cur t <? 256) eqn:Ef; [apply Z.ltb_lt in Ef; lia|lia]. }
  rewrite <- Hh in *. destruct (rd_block t Hr) as [pre Hpre].
  assert (Hput : forall pre, holds (block t, cur t) pre N -> exists b1 b2,
    zwrite (block t) (cur t + zlen h) sdu = Ok b1 /\ holds (b1, cur t) pre N /\
    zwrite b1 (cur t) h = Ok b2 /\ holds (b2, cur t + zlen h + zlen sdu) (pre ++ h ++ sdu) N).
  { intros q Hq. apply put_behind; [done|]. destruct Hq as (? & _ & Hq & _). cbn [snd] in Hq. lia. }
  destruct (Hput pre Hpre) as (b1 & b2 & Eb1 & Hb1 & Eb2 & Hb2). rewrite Eb1, res_bind_unfold.
  assert (Hsmall : zlen sdu < 65536) by (destruct Hcase as [ [? _] | (_ & _ & _ & ?) ]; cbn [snd] in *; lia).
  unfold u16. rewrite (Z.mod_small (zlen sdu)) by lia.
  rewrite dev_assert_ok by (apply Z.geb_le; lia). rewrite res_bind_unfold, lcid_index, res_bind_unfold by done.
  destruct Hcase as [ [H0 Hsrv] | (Hpos & Hsrv & Hso) ].
  - rewrite Z.gtb_ltb, (proj2 (Z.ltb_ge 0 (zlen sdu))) by lia.
    assert (Hbs : forall q, holds (block t, cur t) q N -> holds (b1, cur t) q N).
    { intros q Hq. destruct (Hput q Hq) as (b1' & _ & Eb & Hb & _). congruence. }
    destruct (fill_empty t c tot p0 s (mk_sched (LCID_buffer_remain i) (LCGID i) (i32 (Bj i - zlen sdu)) (elapsed i)) b1
      Hr Hc Hsv eq_refl eq_refl Hs Hsrv (ex_intro _ pre Hb1) Hbs) as (m & st & t' & Em & Est & -> & Hf).
    rewrite Em, res_bind_unfold, Est, res_bind_unfold. eexists _, false. split; [done|exact Hf].
  - rewrite Z.gtb_ltb, (proj2 (Z.ltb_lt 0 (zlen sdu))) by lia.
    replace (if zlen h =? 2 then _ else _) with h; [|unfold h; by destruct (req <? 256)].
    rewrite Eb2, res_bind_unfold.
    destruct (fill_sdu t c tot p0 s (mk_sched (LCID_buffer_remain i) (LCGID i) (i32 (Bj i - zlen sdu)) (elapsed i)) b2 h sdu
      Hr Hc Hsus Hsv eq_refl eq_refl Hs Hsrv Hso) as (m & n & g & tots & t' & Em & En & Eg & Et & -> & Hf); [| |lia|cbn; lia|lia| |].
    { unfold ul_form, h, long_sdu, short_sdu. cbn [fst snd]. destruct (req <? 256) eqn:E256; [right|left]; [|done].
      apply Z.ltb_lt in E256. split; [done|lia]. }
    { rewrite Hh. destruct (req <? 256); lia. }
    { intros q Hq. destruct (Hput q Hq) as (b1' & b2' & Eb & _ & Eb' & Hb). congruence. }
    cbn [LCID_buffer_remain LCGID Bj elapsed] in *. rewrite Em, res_bind_unfold, En, res_bind_unfold, Eg, res_bind_unfold, T1,
      res_bind_unfold, Et, res_bind_unfold. eexists _, _. split; [done|exact Hf].
Qed.

(** ** One channel *)

Lemma moves_counter t t' : moves t t' -> lcp_allocation_counter t' = lcp_allocation_counter t.
Proof. by intros [? _]. Qed.

Lemma serve_channel_ok fuel t c tot p0 : ready t -> c ∈ lcs -> rb_suspended c = false -> serving t c tot p0 ->
  (Z.to_nat (fin - cur t) < fuel)%nat ->
  exists t', serve_channel fuel fin (lcid c) t = Ok t' /\ filled t t' c false p0.
Proof.
  revert t tot. induction fuel as [|fuel IH]; intros t tot Hr Hc Hsus Hsv Hf; [lia|]. cbn [serve_channel].
  destruct (fin - cur t >? 0) eqn:E; rewrite Z.gtb_ltb in E.
  2: { apply Z.ltb_ge in E. exists t. split; [done|]. eapply fill_short; [done|exact Hsv|lia]. }
  apply Z.ltb_lt in E. destruct (fill_sdu_ok t c tot p0 Hr Hc Hsus Hsv) as (t1 & go & -> & Hfl). rewrite res_bind_unfold.
  destruct go; [|by exists t1]. destruct Hfl as (Hr1 & Hm1 & (Ec & Ee & Ho1) & Hlt & tot1 & Hsv1).
  destruct (IH t1 tot1 Hr1 Hc Hsus Hsv1) as (t2 & -> & Hr2 & Hm2 & (Ec2 & Ee2 & Ho2) & Hst);
    [pose proof (rd_cur t1 Hr1); lia|].
  exists t2. split; [done|]. split; [done|]. split; [by etransitivity|].
  split; [split; [congruence|]; split; [congruence|]; intros k Hk; rewrite Ho2, Ho1 by done; done|].
  unfold stopped in *. by rewrite <- Ec, <- Ee, <- (moves_counter _ _ Hm1).
Qed.

(** ** One round *)

(** Between two channels. *)
Definition between (t : lcp (S := S)) : Prop :=
  0 <= num_lcids_same_priority t <= count_same_priority_lcids t /\ count_same_priority_lcids t <= 255 /\
  0 <= buflen_ep t <= fin /\
  budget (num_lcids_same_priority t) (count_same_priority_lcids t) (buflen_ep t) (fin - cur t).

Definition active (t : lcp (S := S)) (c : nr_lcordered_info_t) : Prop :=
  zget (lcids_data_status t) (lcid c - 1) = Ok true.

(** What a round leaves of a space of [r] bytes when no channel runs out of data. *)
Definition drain_step (r : Z) : Z := r - Z.max 3 (3 * ((r - 48) / 16) / 4).

Definition progress (cs : list nr_lcordered_info_t) (t t' : lcp (S := S)) : Prop :=
  (exists c, c ∈ cs /\ active t c /\ ~ active t' c) \/ fin - cur t' <= 3 \/
  fin - cur t' <= drain_step (fin - cur t).

Lemma equal_share_bound r k : 0 <= r <= 160000 -> 1 <= k <= 255 ->
  0 <= equal_share r k <= r /\ budget k k (equal_share r k) r.
Proof.
  intros Hr Hk. unfold equal_share. rewrite u64_small by lia.
  destruct (r <? k * 3) eqn:E; [apply Z.ltb_lt in E; split; [lia|by right; left]|apply Z.ltb_ge in E].
  rewrite u64_small by lia. assert (0 <= (r - k * 3) / k <= r) by zmod. rewrite u32_small by lia.
  split; [done|]. right; right. zmod.
Qed.

Lemma share_of_16 r k : 0 <= r <= 160000 -> 1 <= k <= 16 -> (r - 48) / 16 <= equal_share r k.
Proof.
  intros Hr Hk. unfold equal_share. rewrite u64_small by lia.
  destruct (r <? k * 3) eqn:E; [apply Z.ltb_lt in E; zmod|apply Z.ltb_ge in E].
  rewrite u64_small by lia. assert (0 <= (r - k * 3) / k <= r) by zmod. rewrite u32_small by lia.
  apply Z.div_le_lower_bound; [lia|]. zmod.
Qed.

Lemma same_count c rest : zlen (c :: rest) <= 16 -> 1 <= get_count_lcids_same_priority c rest <= 16.
Proof.
  intros Hlen. unfold get_count_lcids_same_priority, u8. cbn [List.filter]. rewrite Z.eqb_refl, zlen_cons in *.
  pose proof (List.filter_length_le (fun d => priority c =? priority d) rest).
  pose proof (zlen_nonneg (List.filter (fun d => priority c =? priority d) rest)).
  unfold zlen in *. rewrite Z.mod_small by lia. lia.
Qed.

Lemma ready_set_same t a b e : ready t -> ready (set_same t a b e).
Proof. intros [R1 R2 R3 R4 R5 R6 R7 R8 R9 R10 R11 R12 R13]. by constructor. Qed.

(** The state in which a channel of a round is served. *)
Definition entered (t : lcp (S := S)) (c : nr_lcordered_info_t) (rest : list nr_lcordered_info_t) : lcp (S := S) :=
  let t := if num_lcids_same_priority t =? 0 then
             let n := get_count_lcids_same_priority c rest in set_same t n n (buflen_ep t)
           else t in
  if num_lcids_same_priority t =? count_same_priority_lcids t then
    set_same t (num_lcids_same_priority t) (count_same_priority_lcids t)
      (equal_share (fin - cur t) (count_same_priority_lcids t))
  else t.

Lemma entered_ok t c rest : ready t -> between t -> zlen (c :: rest) <= 16 ->
  zget (lcids_bytes_tot t) (lcid c - 1) = Ok 0 ->
  ready (entered t c rest) /\ moves t (entered t c rest) /\ lcids_bytes_tot (entered t c rest) = lcids_bytes_tot t /\
  cur (entered t c rest) = cur t /\ lcids_data_status (entered t c rest) = lcids_data_status t /\
  serving (entered t c rest) c 0 (cur t) /\
  (num_lcids_same_priority t = 0 -> count_same_priority_lcids (entered t c rest) <= 16 /\
     buflen_ep (entered t c rest) = equal_share (fin - cur t) (count_same_priority_lcids (entered t c rest))).
Proof.
  intros Hr (Hn & Hc & He & Hb) Hlen Ht. pose proof (rd_cur t Hr) as Hcur. pose proof (same_count c rest Hlen) as Hk.
  unfold entered. set (t1 := if num_lcids_same_priority t =? 0 then _ else t).
  assert (H1 : ready t1 /\ moves t t1 /\ lcids_bytes_tot t1 = lcids_bytes_tot t /\ cur t1 = cur t /\
    lcids_data_status t1 = lcids_data_status t /\ buflen_ep t1 = buflen_ep t /\
    1 <= num_lcids_same_priority t1 <= count_same_priority_lcids t1 /\ count_same_priority_lcids t1 <= 255 /\
    (num_lcids_same_priority t1 = count_same_priority_lcids t1 \/
     budget (num_lcids_same_priority t1) (count_same_priority_lcids t1) (buflen_ep t1) (fin - cur t1)) /\
    (num_lcids_same_priority t = 0 -> num_lcids_same_priority t1 = count_same_priority_lcids t1 /\
       count_same_priority_lcids t1 <= 16)).
  { unfold t1. destruct (num_lcids_same_priority t =? 0) eqn:E0; [apply Z.eqb_eq in E0|apply Z.eqb_neq in E0].
    - split; [by apply ready_set_same|]. split; [change (moves t t); reflexivity|]. do 4 (split; [done|]). cbn.
      split; [lia|]. split; [lia|]. split; [by left|]. intros _. lia.
    - split; [done|]. split; [reflexivity|]. do 4 (split; [done|]). split; [lia|]. split; [lia|]. split; [by right|lia]. }
  clearbody t1. destruct H1 as (R1 & M1 & E1 & E2 & E3 & E4 & N1 & C1 & B1 & F1).
  destruct (num_lcids_same_priority t1 =? count_same_priority_lcids t1) eqn:Eq.
  - apply Z.eqb_eq in Eq. rewrite E2.
    pose proof (equal_share_bound (fin - cur t) (count_same_priority_lcids t1) ltac:(lia) ltac:(lia)) as [Hsh Hbg].
    split; [by apply ready_set_same|]. split; [exact M1|]. do 3 (split; [done|]). split; [|cbn; intros H0; split; [by apply F1|done] ].
    constructor; cbn; rewrite ?E1, ?E2; try done; try lia. rewrite Eq, Z.add_0_r. exact Hbg.
  - apply Z.eqb_neq in Eq. split; [done|]. split; [done|]. do 3 (split; [done|]). split; [|intros H0; by destruct (F1 H0)].
    constructor; rewrite ?E1, ?E2, ?E4; try done; try lia.
    destruct B1 as [?|B1]; [done|]. by rewrite Z.add_0_r, <- E2, <- E4.
Qed.

Lemma serve_channels_cons c rest t : 1 <= lcid c <= 32 -> zlen (lcids_data_status t) = 32 -> exists st,
  zget (lcids_data_status t) (lcid c - 1) = Ok st /\
  serve_channels fin (c :: rest) t =
    if negb st then serve_channels fin rest t
    else serve_channel (Datatypes.S (Z.to_nat (fin - cur t))) fin (lcid c) (entered t c rest) ≫= serve_channels fin rest.
Proof.
  intros Hl Hst. destruct (lookup_lt_is_Some_2 (lcids_data_status t) (Z.to_nat (lcid c - 1))) as [st Est];
    [unfold zlen in *; lia|].
  assert (Eg : zget (lcids_data_status t) (lcid c - 1) = Ok st) by (apply zget_ok; split; [lia|done]).
  exists st. split; [done|]. cbn [serve_channels]. rewrite lcid_index, res_bind_unfold, Eg, res_bind_unfold by done.
  destruct st; cbn [negb]; [|done]. unfold entered. by destruct (num_lcids_same_priority t =? 0).
Qed.

(** The progress of a channel that was the first of its round. *)
Lemma stopped_progress t c rest t' cs : ready t -> c ∈ cs -> active t c -> zlen (c :: rest) <= 16 ->
  num_lcids_same_priority t = 0 -> lcp_allocation_counter t <> 0 ->
  count_same_priority_lcids (entered t c rest) <= 16 ->
  buflen_ep (entered t c rest) = equal_share (fin - cur t) (count_same_priority_lcids (entered t c rest)) ->
  lcp_allocation_counter (entered t c rest) = lcp_allocation_counter t ->
  stopped (entered t c rest) t' c (cur t) -> progress cs t t'.
Proof.
  intros Hr Hc Ha Hlen H0 Hcnt Hk Hep Ect (_ & _ & Hst). pose proof (rd_cur t Hr) as Hcur.
  destruct Hst as [Hst|[Hst|[Hst|(Hk1 & Hu & Hu3)] ] ].
  - left. exists c. split; [done|]. split; [done|]. unfold active. rewrite Hst. done.
  - right; left. lia.
  - congruence.
  - right; right. unfold drain_step.
    pose proof (share_of_16 (fin - cur t) (count_same_priority_lcids (entered t c rest)) ltac:(lia) ltac:(lia)) as Hs.
    rewrite <- Hep in Hs. assert (3 * ((fin - cur t - 48) / 16) / 4 <= cur t' - cur t); [|lia].
    apply Z.div_le_upper_bound; lia.
Qed.

Lemma serve_channels_ok cs : forall t, ready t -> Forall (fun c => c ∈ lcs /\ rb_suspended c = false) cs ->
  NoDup (map lcid cs) -> zlen cs <= 16 -> between t ->
  (forall c, c ∈ cs -> zget (lcids_bytes_tot t) (lcid c - 1) = Ok 0) ->
  exists t', serve_channels fin cs t = Ok t' /\ ready t' /\ moves t t' /\ 0 <= buflen_ep t' <= fin /\
    (num_lcids_same_priority t = 0 -> lcp_allocation_counter t <> 0 -> (exists c, c ∈ cs /\ active t c) -> progress cs t t').
Proof.
  induction cs as [|c rest IH]; intros t Hr Hcs Hnd Hlen Hbt Htot.
  { exists t. split; [done|]. split; [done|]. split; [reflexivity|]. split; [by destruct Hbt as (_ & _ & ? & _)|].
    intros _ _ (c & Hc & _). by apply elem_of_nil in Hc. }
  apply Forall_cons in Hcs as [ [Hc Hsus] Hcs]. cbn [map] in Hnd. apply NoDup_cons in Hnd as [Hni Hnd].
  destruct (channel_facts t c Hr Hc) as (_ & _ & Hl & _).
  assert (Hrest : zlen rest <= 16) by (rewrite zlen_cons in Hlen; lia).
  destruct (serve_channels_cons c rest t Hl (rd_status t Hr)) as (st & Est & ->). destruct st; cbn [negb].
  - destruct (entered_ok t c rest Hr Hbt Hlen (Htot c ltac:(set_solver))) as (R1 & M1 & E1 & E2 & E3 & Hsv & Hfst).
    destruct (serve_channel_ok (Datatypes.S (Z.to_nat (fin - cur t))) _ c 0 (cur t) R1 Hc Hsus Hsv)
      as (t2 & -> & R2 & M2 & (Ec & Ee & Ho) & Hst); [rewrite E2; lia|]. rewrite res_bind_unfold.
    destruct (IH t2 R2 Hcs Hnd Hrest) as (t3 & -> & R3 & M3 & He3 & _).
    { destruct Hst as (Hn & Hb & _). pose proof (sv_count _ _ _ _ Hsv). pose proof (sv_ep _ _ _ _ Hsv).
      split; [lia|]. split; [lia|]. split; [lia|]. by rewrite Ec, Ee. }
    { intros d Hd. rewrite Ho, E1; [apply Htot; set_solver|]. intros E. apply Hni.
      replace (lcid c) with (lcid d) by lia. by apply (list_elem_of_fmap_2 lcid). }
    exists t3. split; [done|]. split; [done|]. split; [by transitivity (entered t c rest); [|transitivity t2] |].
    split; [done|]. intros H0 Hcnt _. destruct (Hfst H0) as [Hk Hep].
    assert (Hp : progress (c :: rest) t t2).
    { eapply stopped_progress; try done; [set_solver|by apply (moves_counter _ _ M1)]. }
    pose proof (moves_cur _ _ M3) as Hm. destruct Hp as [(d & Hd & Ha & Hna)|Hp]; [left|right; lia].
    exists d. split; [done|]. split; [done|]. intros Ha3. apply Hna. destruct M3 as (_ & Hmon & _).
    unfold active in *. apply zget_ok in Ha3 as [? Ha3]. apply zget_ok. split; [done|by apply Hmon].
  - destruct (IH t Hr Hcs Hnd Hrest Hbt) as (t' & -> & R' & M' & He' & Hp).
    { intros d Hd. apply Htot. set_solver. }
    exists t'. split; [done|]. split; [done|]. split; [done|]. split; [done|]. intros H0 Hcnt (d & Hd & Ha).
    assert (Hd' : d ∈ rest).
    { apply elem_of_cons in Hd as [->|Hd]; [|done]. unfold active in Ha. congruence. }
    destruct (Hp H0 Hcnt (ex_intro _ d (conj Hd' Ha))) as [(e & He & Hrun)|Hp']; [left; exists e; set_solver|by right].
Qed.

(** ** All rounds *)

(** A space of [r] bytes is used up after [n] rounds in which no channel runs out of data. *)
Fixpoint drains (n : nat) (r : Z) : bool :=
  match n with
  | O => r <=? 3
  | Datatypes.S n' => (r <=? 3) || drains n' (drain_step r)
  end.

Lemma drains_mono n : forall r r', r <= r' -> drains n r' = true -> drains n r = true.
Proof.
  induction n as [|n IH]; intros r r' Hr; cbn [drains]; [rewrite !Z.leb_le; lia|].
  rewrite !orb_true_iff, !Z.leb_le. intros [H|H]; [left; lia|right]. eapply IH; [|exact H].
  unfold drain_step. assert ((r' - 48) / 16 - (r - 48) / 16 <= r' - r) by zmod.
  assert ((r - 48) / 16 <= (r' - 48) / 16) by (apply Z.div_le_mono; lia).
  set (a := (r - 48) / 16) in *. set (b := (r' - 48) / 16) in *.
  assert (3 * b / 4 - 3 * a / 4 <= b - a) by zmod. lia.
Qed.

Lemma blocks_drain : drains 205 160000 = true.
Proof. vm_compute. reflexivity. Qed.

Definition actives (cs : list nr_lcordered_info_t) (t : lcp (S := S)) : list nr_lcordered_info_t :=
  List.filter (fun c => match zget (lcids_data_status t) (lcid c - 1) with Ok b => b | _ => false end) cs.

Lemma actives_spec cs t c : c ∈ actives cs t <-> c ∈ cs /\ active t c.
Proof.
  unfold actives, active. rewrite !list_elem_of_In, List.filter_In.
  destruct (zget (lcids_data_status t) (lcid c - 1)) as [ [|] |]; naive_solver.
Qed.

Lemma actives_le cs t t' : (forall i, lcids_data_status t' !! i = Some true -> lcids_data_status t !! i = Some true) ->
  (length (actives cs t') <= length (actives cs t))%nat /\
  ((exists c, c ∈ cs /\ active t c /\ ~ active t' c) -> length (actives cs t') < length (actives cs t))%nat.
Proof.
  intros Hm. assert (Hm' : forall c, active t' c -> active t c).
  { intros c. unfold active. rewrite !zget_ok. intros [? Ha]. split; [done|by apply Hm]. }
  induction cs as [|c cs [IH1 IH2] ]; cbn [actives List.filter]; [split; [done|]; intros (c & Hc & _); by apply elem_of_nil in Hc|].
  fold (actives cs t) (actives cs t'). specialize (Hm' c). unfold active in Hm' at 1 2.
  destruct (zget (lcids_data_status t') (lcid c - 1)) as [b'|] eqn:E', (zget (lcids_data_status t) (lcid c - 1)) as [b|] eqn:E.
  all: try (destruct b'; [specialize (Hm' eq_refl); try discriminate Hm'|]); try (destruct b); try discriminate.
  all: cbn [length]; split; [lia|]; intros (d & Hd & Ha & Hna); try lia.
  all: apply elem_of_cons in Hd as [->|Hd]; [unfold active in *; congruence|].
  all: specialize (IH2 (ex_intro _ d (conj Hd (conj Ha Hna)))); lia.
Qed.

Lemma availability cs t : ready t -> Forall (fun c => c ∈ lcs) cs -> exists b,
  get_dataavailability_buffers cs (lcids_data_status t) = Ok b /\ (b = true -> exists c, c ∈ cs /\ active t c).
Proof.
  intros Hr Hcs. pose proof (rd_status t Hr) as Hst. induction Hcs as [|c cs Hc _ IH]; [by exists false|]. cbn [get_dataavailability_buffers].
  destruct (channel_facts t c Hr Hc) as (_ & _ & Hl & _).
  rewrite lcid_index, res_bind_unfold by done.
  destruct (lookup_lt_is_Some_2 (lcids_data_status t) (Z.to_nat (lcid c - 1))) as [st Est]; [unfold zlen in *; lia|].
  assert (Eg : zget (lcids_data_status t) (lcid c - 1) = Ok st) by (apply zget_ok; split; [lia|done]).
  rewrite Eg, res_bind_unfold. destruct st.
  - exists true. split; [done|]. intros _. exists c. split; [set_solver|done].
  - destruct IH as (b & -> & Hb). exists b. split; [done|]. intros E. destruct (Hb E) as (d & Hd & Ha). exists d. set_solver.
Qed.

(** One round, from its preparation to the test for the next one. *)
Lemma lcp_round_ok cs t : ready t -> Forall (fun c => c ∈ lcs /\ rb_suspended c = false) cs -> NoDup (map lcid cs) ->
  zlen cs <= 16 -> 0 <= buflen_ep t <= fin -> exists t1, serve_channels fin cs (new_round t) = Ok t1 /\
  ready t1 /\ moves t t1 /\ 0 <= buflen_ep t1 <= fin /\
  (lcp_allocation_counter t <> 0 -> (exists c, c ∈ cs /\ active t c) -> progress cs t t1).
Proof.
  intros [R1 R2 R3 R4 R5 R6 R7 R8 R9 R10 R11 R12 R13] Hcs Hnd Hlen Hep.
  assert (Hn : ready (new_round t)) by (by constructor).
  destruct (serve_channels_ok cs (new_round t) Hn Hcs Hnd Hlen) as (t1 & E & H1 & H2 & H3 & H4).
  - split; [cbn; lia|]. split; [cbn; lia|]. split; [done|]. left. cbn. lia.
  - intros c Hc. rewrite Forall_forall in Hcs. destruct (Hcs c Hc) as [Hc' _].
    destruct (channel_facts (new_round t) c Hn Hc') as (_ & _ & Hl & _).
    apply zget_ok. split; [lia|]. cbn [lcids_bytes_tot new_round]. apply lookup_replicate_2. unfold NR_MAX_NUM_LCID. lia.
  - exists t1. split; [done|]. split; [done|]. split; [exact H2|]. split; [done|]. intros Hc Ha. by apply H4.
Qed.

Lemma ready_next t : ready t -> lcp_allocation_counter t + 1 < 256 -> ready (next_round t) /\
  lcp_allocation_counter (next_round t) = lcp_allocation_counter t + 1.
Proof.
  intros [R1 R2 R3 R4 R5 R6 R7 R8 R9 R10 R11 R12 R13] Hc.
  assert (E : lcp_allocation_counter (next_round t) = lcp_allocation_counter t + 1) by (cbn; rewrite u32_small; lia).
  split; [|done]. constructor; try done. rewrite E. lia.
Qed.

(** The first round need not make progress. *)
Definition spare (t : lcp (S := S)) : nat := if lcp_allocation_counter t =? 0 then 1 else 0.

Lemma lcp_rounds_ok cs : Forall (fun c => c ∈ lcs /\ rb_suspended c = false) cs -> NoDup (map lcid cs) ->
  zlen cs <= 16 -> forall fuel n t, ready t -> 0 <= buflen_ep t <= fin ->
  drains n (fin - cur t) = true ->
  (lcp_allocation_counter t <> 0 -> 3 < fin - cur t /\ exists c, c ∈ cs /\ active t c) ->
  (n + length (actives cs t) + spare t < fuel)%nat ->
  lcp_allocation_counter t + Z.of_nat (n + length (actives cs t) + spare t) + 2 < 256 ->
  exists t', lcp_rounds fuel fin cs t = Ok t' /\ ready t' /\ extends t t'.
Proof.
  intros Hcs Hnd Hlen. induction fuel as [|fuel IH]; intros n t Hr Hep Hdr Hact Hf Hcnt; [lia|]. cbn [lcp_rounds].
  destruct (lcp_round_ok cs t Hr Hcs Hnd Hlen Hep) as (t1 & -> & R1 & M1 & E1 & P1). rewrite res_bind_unfold.
  pose proof (rd_counter t Hr) as Hc0. pose proof (moves_counter _ _ M1) as Hmc. pose proof (moves_cur _ _ M1) as Hcur.
  destruct (ready_next t1 R1 ltac:(lia)) as [R2 Ec2]. pose proof (rd_cur t1 R1) as Hcur1.
  change (cur (next_round t1)) with (cur t1). change (lcids_data_status (next_round t1)) with (lcids_data_status t1).
  assert (Hext : extends t (next_round t1)) by (destruct M1 as (_ & _ & ?); done).
  rewrite u64_small by lia. destruct (fin - cur t1 >? 3) eqn:E3; rewrite Z.gtb_ltb in E3.
  2: { rewrite res_ret_bind || rewrite res_bind_unfold. by exists (next_round t1). }
  apply Z.ltb_lt in E3.
  destruct (availability cs t1) as (b & Eb & Hb); [done|by eapply Forall_impl; [exact Hcs|intros ? [? _] ]|].
  rewrite Eb, res_bind_unfold. destruct b; [|by exists (next_round t1)].
  destruct (actives_le cs t t1) as [Hle Hlt]; [by destruct M1 as (_ & ? & _)|].
  assert (Hnext : exists n', drains n' (fin - cur t1) = true /\
    (n' + length (actives cs t1) + 1 <= n + length (actives cs t) + spare t)%nat).
  { assert (Hmono : drains n (fin - cur t1) = true) by (eapply drains_mono; [|exact Hdr]; lia).
    unfold spare. destruct (lcp_allocation_counter t =? 0) eqn:E0; [exists n; split; [done|lia]|]. apply Z.eqb_neq in E0.
    destruct (Hact E0) as [H3 Ha]. destruct (P1 E0 Ha) as [Hp|[Hp|Hp] ]; [|lia|].
    - specialize (Hlt Hp). exists n. split; [done|lia].
    - destruct n as [|n]; cbn [drains] in Hdr; [apply Z.leb_le in Hdr; lia|].
      rewrite (proj2 (Z.leb_gt _ 3)) in Hdr by lia. exists n. split; [|lia].
      eapply drains_mono; [exact Hp|exact Hdr]. }
  destruct Hnext as (n' & Hd' & Hn1).
  assert (Hsp : spare (next_round t1) = 0%nat) by (unfold spare; rewrite Ec2, (proj2 (Z.eqb_neq _ 0)); lia || done).
  destruct (IH n' (next_round t1) R2 E1 Hd') as (t' & -> & R' & X').
  - intros _. split; [done|]. by apply Hb.
  - change (actives cs (next_round t1)) with (actives cs t1). rewrite Hsp. lia.
  - change (actives cs (next_round t1)) with (actives cs t1). rewrite Hsp, Ec2. lia.
  - exists t'. split; [done|]. split; [done|]. by transitivity (next_round t1).
Qed.

End lcp.

End MacLcpSpec.
