(* ===== verification/MacUlSpec.v ===== *)
(** * The uplink transport block

    [nr_ue_get_sdu] as a whole, and what the gNB reads in the block it fills: the SDUs that
    RLC has handed out, the power headroom, and a buffer status report whose estimate
    covers the bytes that are left. *)

From S2P Require Import Prelude MacPdu MacPduSpec MacMux MacMuxSpec MacLcp MacLcpSpec.

Module MacUlSpec.
Import MacLcp MacPduSpec MacMuxSpec MacLcpSpec.

(** ** The bytes of the groups *)

Lemma zsum_zero {A} (f : A -> Z) l : (forall x, x ∈ l -> f x = 0) -> zsum f l = 0.
Proof.
  induction l as [|x l IH]; intros H; [done|]. rewrite zsum_cons, H by set_solver.
  rewrite IH; [done|]. intros y Hy. apply H. set_solver.
Qed.

Lemma zsum_zero_inv {A} (f : A -> Z) l : (forall x, x ∈ l -> 0 <= f x) -> zsum f l = 0 -> forall x, x ∈ l -> f x = 0.
Proof.
  induction l as [|y l IH]; intros Hp H0 x Hx; [by apply elem_of_nil in Hx|]. rewrite zsum_cons in H0.
  assert (0 <= f y) by (apply Hp; set_solver).
  assert (Hl : 0 <= zsum f l).
  { rewrite <- (zsum_zero (fun _ => 0) l) by done. apply zsum_le. intros z Hz. apply Hp. set_solver. }
  apply elem_of_cons in Hx as [->|Hx]; [lia|]. apply IH; [|lia|done]. intros z Hz. apply Hp. set_solver.
Qed.

Lemma zsum_plus {A} (f g : A -> Z) l : zsum (fun x => f x + g x) l = zsum f l + zsum g l.
Proof. induction l as [|x l IH]; [done|]. rewrite !zsum_cons, IH. lia. Qed.

Lemma zsum_swap {A B} (f : A -> B -> Z) l k : zsum (fun x => zsum (f x) k) l = zsum (fun y => zsum (fun x => f x y) l) k.
Proof.
  induction l as [|x l IH]; [symmetry; by apply zsum_zero|]. rewrite zsum_cons, IH, <- zsum_plus.
  apply zsum_ext. intros y _. by rewrite zsum_cons.
Qed.

(** The groups share what is left. *)
Lemma groups_share m : channels_ok m -> zsum (waiting m) (seqZ 0 8) = left_over m.
Proof.
  intros Hm. unfold waiting, left_over, total. rewrite <- zsum_swap. apply zsum_ext. intros c Hc.
  destruct (info_ok m c Hm Hc) as (_ & _ & _ & [_ Hg]). unfold waits_in.
  assert (Hcases : LCGID (info m c) ∈ seqZ 0 8) by (apply elem_of_seqZ; lia).
  change (seqZ 0 8) with [0; 1; 2; 3; 4; 5; 6; 7] in *. unfold zsum. cbn [map foldr].
  repeat (apply elem_of_cons in Hcases as [->|Hcases]; [cbn; lia|]). by apply elem_of_nil in Hcases.
Qed.

Lemma groups_list m bytes : zlen bytes = 8 -> (forall g, 0 <= g < 8 -> zget bytes g = Ok (waiting m g)) ->
  bytes = map (waiting m) (seqZ 0 8).
Proof.
  intros Hlen Hg. apply list_eq. intros k. rewrite list_lookup_fmap.
  destruct (decide (k < 8)%nat) as [Hk|Hk].
  - specialize (Hg (Z.of_nat k) ltac:(lia)). apply zget_ok in Hg as [_ Hg]. rewrite Nat2Z.id in Hg.
    by rewrite Hg, lookup_seqZ_lt by lia.
  - rewrite !lookup_ge_None_2; [done|rewrite length_seqZ; lia|unfold zlen in *; lia].
Qed.

(** With one group at most, it has all. *)
Lemma only_group {A} (f : A -> Z) l : (forall x, x ∈ l -> 0 <= f x) ->
  (length (List.filter (fun n => n >? 0) (map f l)) < 2)%nat -> forall x, x ∈ l -> 0 < f x -> zsum f l = f x.
Proof.
  assert (Hnone : forall l, (forall x, x ∈ l -> 0 <= f x) -> length (List.filter (fun n => n >? 0) (map f l)) = 0%nat ->
    zsum f l = 0).
  { clear. induction l as [|y l IH]; intros Hp Hl; [done|]. cbn [map List.filter] in Hl. rewrite zsum_cons.
    destruct (f y >? 0) eqn:E; [discriminate|]. rewrite Z.gtb_ltb, Z.ltb_ge in E.
    assert (0 <= f y) by (apply Hp; set_solver). rewrite IH; [lia| |done]. intros z Hz. apply Hp. set_solver. }
  induction l as [|y l IH]; intros Hp Hl x Hx Hpos; [by apply elem_of_nil in Hx|]. cbn [map List.filter] in Hl. rewrite zsum_cons.
  assert (Hp' : forall z, z ∈ l -> 0 <= f z) by (intros z Hz; apply Hp; set_solver).
  destruct (f y >? 0) eqn:E; rewrite Z.gtb_ltb in E; cbn [length] in Hl.
  - assert (Hz : zsum f l = 0) by (apply Hnone; [done|lia]). apply elem_of_cons in Hx as [->|Hx]; [lia|].
    pose proof (zsum_zero_inv f l Hp' Hz x Hx). lia.
  - apply Z.ltb_ge in E. assert (0 <= f y) by (apply Hp; set_solver).
    apply elem_of_cons in Hx as [->|Hx]; [lia|]. rewrite (IH Hp' Hl x Hx Hpos). lia.
Qed.

(** [highest_group] is the group with the data when there is one. *)
Lemma highest_group_ok m : channels_ok m -> held_back m = 0 ->
  exists g, highest_group m (lc_ordered_list m) = Ok g /\ 0 <= g < 8 /\
    (groups_with_data (map (waiting m) (seqZ 0 8)) < 2 -> waiting m g = left_over m).
Proof.
  intros Hm H0. assert (Hrem : forall c, c ∈ lc_ordered_list m -> LCID_buffer_remain (info m c) <> 0 ->
    0 < waiting m (LCGID (info m c))).
  { intros c Hc Hne. pose proof (waits_waiting m c Hm Hc) as Hle. destruct (info_ok m c Hm Hc) as (_ & _ & _ & [Hr _]).
    unfold waits in Hle. destruct (rb_suspended c) eqn:E; [|lia]. exfalso. apply Hne.
    assert (Hz := zsum_zero_inv (fun c => if rb_suspended c then LCID_buffer_remain (info m c) else 0) (lc_ordered_list m)).
    specialize (Hz ltac:(intros d Hd; destruct (info_ok m d Hm Hd) as (_ & _ & _ & [? _]); destruct (rb_suspended d); lia) H0 c Hc).
    cbn in Hz. by rewrite E in Hz. }
  assert (Hall : forall cs, (forall c, c ∈ cs -> c ∈ lc_ordered_list m) ->
    (exists c, c ∈ cs /\ highest_group m cs = Ok (LCGID (info m c)) /\ LCID_buffer_remain (info m c) <> 0) \/
    (highest_group m cs = Ok 0 /\ forall c, c ∈ cs -> LCID_buffer_remain (info m c) = 0)).
  { induction cs as [|c cs IH]; intros Hin; [right; split; [done|]; intros c Hc; by apply elem_of_nil in Hc|].
    destruct (info_ok m c Hm ltac:(apply Hin; set_solver)) as (_ & _ & Ei & _). cbn [highest_group]. rewrite Ei, res_bind_unfold.
    destruct (Z.eqb_spec (LCID_buffer_remain (info m c)) 0) as [E|E]; cbn [negb]; [|left; exists c; split; [set_solver|done] ].
    destruct IH as [(d & Hd & Hrun)|[Hrun Hz] ]; [intros d Hd; apply Hin; set_solver|left; exists d; split; [set_solver|done]|].
    right. split; [done|]. intros d Hd. apply elem_of_cons in Hd as [->|Hd]; [done|by apply Hz]. }
  destruct (Hall (lc_ordered_list m) ltac:(done)) as [(c & Hc & Hrun & Hne)|[Hrun Hz] ].
  - destruct (info_ok m c Hm Hc) as (_ & _ & _ & [_ Hg]). exists (LCGID (info m c)). split; [done|]. split; [done|].
    intros Hn. rewrite <- groups_share by done. symmetry. apply only_group.
    + intros g _. by apply waiting_bounds.
    + unfold groups_with_data, zlen in Hn. lia.
    + apply elem_of_seqZ. lia.
    + by apply Hrem.
  - exists 0. split; [done|]. split; [lia|]. intros _.
    assert (left_over m = 0).
    { unfold left_over, total. apply zsum_zero. intros c Hc. unfold waits. rewrite Hz by done. by destruct (rb_suspended c). }
    pose proof (waiting_bounds m 0 Hm). lia.
Qed.

(** ** Reports *)

Lemma max_report : MAX_REPORT < 2 ^ 31 /\ level NR_LONG_BSR_TABLE_SIZE 254 * 8 < 2 ^ 31.
Proof. vm_compute. split; reflexivity. Qed.

Lemma short_report_ok m g : channels_ok m -> left_over m <= MAX_REPORT -> 0 <= g < 8 -> exists i,
  short_report (map (waiting m) (seqZ 0 8)) g = Ok (g, i) /\ 0 <= i < 32 /\
  Z.min 300000 (waiting m g) <= estimate NR_SHORT_BSR_TABLE_SIZE i.
Proof.
  intros Hm Hmax Hg. pose proof (waiting_bounds m g Hm). pose proof max_report as [? _].
  destruct (locate_ok NR_SHORT_BSR_TABLE_SIZE (waiting m g)) as (i & Ei & Hi & Hcov & _); [by left|lia|].
  change NR_SHORT_BSR_TABLE_SIZE with 32 in Hi, Hcov at 2.
  exists i. unfold short_report.
  rewrite (proj2 (zget_ok _ g (waiting m g))) by (split; [lia|by rewrite list_lookup_fmap, lookup_seqZ_lt, Z2Nat.id by lia]).
  rewrite res_bind_unfold, i32_small, Ei, res_bind_unfold, !Z.mod_small by lia. split; [done|]. split; [done|].
  rewrite Z.min_comm. by apply short_covers.
Qed.

(** The index of an amount in a long report. *)
Definition index_of (n v : Z) : Prop :=
  0 <= v < 254 /\ 0 <= n <= estimate NR_LONG_BSR_TABLE_SIZE v /\ (v = 0 <-> n = 0).

Lemma long_index n : 0 <= n <= MAX_REPORT -> exists v,
  nr_locate_BsrIndexByBufferSize NR_LONG_BSR_TABLE_SIZE n = Ok v /\ index_of n v.
Proof.
  intros Hn. pose proof max_report as [? _]. assert (Hs : bsr_size NR_LONG_BSR_TABLE_SIZE) by (by right).
  destruct (locate_ok NR_LONG_BSR_TABLE_SIZE n Hs ltac:(lia)) as (v & Ev & Hv & Hcov & Hmin).
  exists v. split; [done|]. assert (Hsz : NR_LONG_BSR_TABLE_SIZE = 256) by done.
  assert (Hv' : v < 254).
  { destruct (Z_lt_ge_dec v 254); [done|]. specialize (Hmin 253 ltac:(lia)). unfold MAX_REPORT in Hn. lia. }
  destruct Hcov as [Hcov|?]; [|lia]. split; [lia|]. split; [split; [lia|by apply estimate_covers]|].
  split; intros E.
  - subst v. rewrite level_0 in Hcov by done. lia.
  - subst n. destruct (Z.eq_dec v 0); [done|]. specialize (Hmin 0 ltac:(lia)). rewrite level_0 in Hmin by done. lia.
Qed.

Lemma long_report_ok m : channels_ok m -> left_over m <= MAX_REPORT -> exists vs,
  long_report (map (waiting m) (seqZ 0 8)) = Ok vs /\ Forall2 index_of (map (waiting m) (seqZ 0 8)) vs.
Proof.
  intros Hm Hmax. unfold long_report. set (bytes := map (waiting m) (seqZ 0 8)).
  assert (Hall : Forall (fun n => 0 <= n <= MAX_REPORT) bytes).
  { apply Forall_forall. intros n Hn. apply list_elem_of_fmap in Hn as (g & -> & _). pose proof (waiting_bounds m g Hm). lia. }
  assert (Hlen : zlen bytes = 8) by done. pose proof max_report as [? _].
  destruct (res_foldl_seqZ (fun k l => Forall2 index_of (take (Z.to_nat k) bytes) l) (fun l lcg_id =>
    n ← zget bytes lcg_id;
    size ← nr_locate_BsrIndexByBufferSize NR_LONG_BSR_TABLE_SIZE (i32 n);
    mret (l ++ [size])) [] 0 8) as (vs & E & Hvs); [lia|constructor| |by exists vs].
  intros k l Hk Hl. destruct (lookup_lt_is_Some_2 bytes (Z.to_nat k)) as [n En]; [unfold zlen in *; lia|].
  pose proof (Forall_lookup_1 _ _ _ _ Hall En) as Hn.
  rewrite (proj2 (zget_ok bytes k n)) by (split; [lia|done]). rewrite res_bind_unfold, i32_small by (cbn beta in Hn; lia).
  destruct (long_index n Hn) as (v & -> & Hv). rewrite res_bind_unfold. eexists. split; [done|].
  replace (Z.to_nat (k + 1)) with (S (Z.to_nat k)) by lia. rewrite (take_S_r _ _ _ En). apply Forall2_app; [done|by constructor].
Qed.

(** The estimate of a whole report. *)
Definition whole (vs : list Z) : list (option Z) := map (fun v => if v =? 0 then None else Some v) vs.

Lemma reported_whole v vs : reported (whole (v :: vs)) = if v =? 0 then reported (whole vs) else v :: reported (whole vs).
Proof. unfold whole, reported. cbn [map]. by destruct (v =? 0). Qed.

Lemma long_estimate_covers ns vs : (length ns <= 8)%nat -> Forall2 index_of ns vs ->
  zsum id ns <= long_estimate (reported (whole vs)).
Proof.
  intros Hlen Hall. pose proof max_report as [_ Hmax]. set (M := level NR_LONG_BSR_TABLE_SIZE 254) in *.
  assert (Hloop : forall e, 0 <= e -> e + M * Z.of_nat (length ns) < 2 ^ 31 ->
    e + zsum id ns <= foldl (fun e v => i32 (e + estimate NR_LONG_BSR_TABLE_SIZE v)) e (reported (whole vs))).
  { clear Hlen Hmax. induction Hall as [|n v ns vs (Hv & Hn & Hz) _ IH]; intros e He Hmax; [cbn; lia|].
    rewrite zsum_cons, reported_whole. cbn [length] in *. rewrite Nat2Z.inj_succ in Hmax. change (id n) with n.
    assert (HM : 0 < M) by (unfold M; vm_compute; reflexivity).
    destruct (Z.eqb_spec v 0) as [->|Hne].
    - rewrite (proj1 Hz eq_refl). specialize (IH e He ltac:(nia)). lia.
    - cbn [foldl].
      assert (Hest : 0 <= estimate NR_LONG_BSR_TABLE_SIZE v <= M).
      { unfold estimate, overestim_bsr_index. rewrite (proj2 (Z.gtb_lt v 0)) by lia.
        rewrite Z.min_l by (change NR_LONG_BSR_TABLE_SIZE with 256; lia).
        assert (Hs : bsr_size NR_LONG_BSR_TABLE_SIZE) by (by right).
        assert (0 <= level NR_LONG_BSR_TABLE_SIZE (v + 1)).
        { pose proof (level_mono NR_LONG_BSR_TABLE_SIZE 0 (v + 1) Hs ltac:(lia)
            ltac:(change NR_LONG_BSR_TABLE_SIZE with 256; lia)) as Hlm.
          rewrite level_0 in Hlm by done. lia. }
        split; [done|]. destruct (Z.eq_dec (v + 1) 254) as [->|]; [unfold M; lia|].
        pose proof (level_mono NR_LONG_BSR_TABLE_SIZE (v + 1) 254 Hs ltac:(lia) ltac:(done)). unfold M. lia. }
      rewrite i32_small by nia. specialize (IH (e + estimate NR_LONG_BSR_TABLE_SIZE v) ltac:(lia) ltac:(nia)). lia. }
  specialize (Hloop 0 ltac:(lia) ltac:(nia)). exact Hloop.
Qed.

(** ** The long report in the block *)

Lemma zset_mid {A} (pre post : list A) x y n : n = zlen pre -> zset (pre ++ x :: post) n y = Ok (pre ++ y :: post).
Proof.
  intros ->. pose proof (zlen_nonneg pre). pose proof (zlen_nonneg post).
  rewrite zset_ok by (rewrite zlen_app, zlen_cons; lia). f_equal. unfold zlen. rewrite Nat2Z.id.
  by rewrite insert_app_r_alt, Nat.sub_diag by lia.
Qed.

Lemma mask_of_app r o : mask_of (r ++ [o]) = mask_of r + b2z (given o) * 2 ^ zlen r /\ 0 <= mask_of r < 2 ^ zlen r.
Proof.
  induction r as [|a r [IH1 IH2] ]; cbn [app]; [split; [by destruct o|done]|].
  unfold mask_of in *. cbn [foldr]. rewrite IH1, zlen_cons, (Z.pow_add_r 2 1 (zlen r)) by (pose proof (zlen_nonneg r); lia).
  change (2 ^ 1) with 2. split; [lia|]. destruct (given a); cbn [b2z]; lia.
Qed.

Lemma mark_group r v : Z.lor (mask_of r) (Z.shiftl 1 (zlen r)) = mask_of (r ++ [Some v]).
Proof.
  pose proof (zlen_nonneg r). destruct (mask_of_app r (Some v)) as [-> Hb].
  rewrite Z.shiftl_mul_pow2, Z.lor_comm, lor_split by lia. cbn. lia.
Qed.

Definition taken (v : Z) (o : option Z) : Prop := o = None \/ o = Some v.

(** The groups that are in the block: all of them, when there is room. *)
Lemma write_groups_ok vs pre mark fin N w : zlen vs = 8 -> fin <= N -> mark = zlen pre -> holds w (pre ++ [0]) N ->
  exists w' r, write_groups vs mark fin w = Ok w' /\ holds w' (pre ++ mask_of r :: reported r) N /\
    Forall2 taken vs r /\ snd w' <= Z.max (mark + 1) fin /\
    (mark + 1 + zlen (reported (whole vs)) <= fin -> r = whole vs).
Proof.
  intros Hlen Hfin Hmark Hw. unfold write_groups.
  destruct (res_foldl_seqZ (fun k w => exists r, holds w (pre ++ mask_of r :: reported r) N /\
      Forall2 taken (take (Z.to_nat k) vs) r /\ snd w <= Z.max (mark + 1) fin /\
      (mark + 1 + zlen (reported (whole vs)) <= fin -> r = whole (take (Z.to_nat k) vs)))
    (fun w i => v ← zget vs i;
      if negb (v =? 0) && (snd w <? fin) then
        m ← zget (fst w) mark;
        b ← zset (fst w) mark (Z.lor m (Z.shiftl 1 i));
        put (b, snd w) [v]
      else mret w) w 0 8) as (w' & E & r & H1 & H2 & H3 & H4); [lia| | |].
  - exists []. split; [exact Hw|]. split; [constructor|]. split; [|done].
    destruct Hw as (? & _ & -> & _). rewrite zlen_app. change (zlen [0]) with 1. lia.
  - intros k [b p] Hk (r & Hb & Hr & Hp & Hall). cbn [fst snd] in *.
    destruct (lookup_lt_is_Some_2 vs (Z.to_nat k)) as [v Ev]; [unfold zlen in *; lia|].
    rewrite (proj2 (zget_ok vs k v)) by (split; [lia|done]). rewrite res_bind_unfold.
    replace (Z.to_nat (k + 1)) with (S (Z.to_nat k)) by lia. rewrite (take_S_r _ _ _ Ev).
    assert (Hrk : zlen r = k).
    { apply Forall2_length in Hr. rewrite length_take in Hr. unfold zlen in *. lia. }
    assert (Hsnoc : whole (take (Z.to_nat k) vs ++ [v]) = whole (take (Z.to_nat k) vs) ++ [if v =? 0 then None else Some v])
      by (unfold whole; by rewrite map_app).
    destruct (negb (v =? 0) && (p <? fin)) eqn:Ec.
    + apply andb_prop in Ec as [Ev0 Ep]. apply Z.ltb_lt in Ep. apply negb_true_iff in Ev0.
      destruct Hb as (rest & Eb & Epos & EN). cbn [fst snd] in *. rewrite <- app_assoc in Eb. cbn [app] in Eb.
      rewrite Eb.
      assert (Eg : zget (pre ++ mask_of r :: reported r ++ rest) mark = Ok (mask_of r))
        by exact (zget_head pre (mask_of r) (reported r) rest mark Hmark).
      rewrite Eg, res_bind_unfold.
      rewrite zset_mid, res_bind_unfold by done.
      replace (Z.shiftl 1 k) with (Z.shiftl 1 (zlen r)) by (by rewrite Hrk). rewrite (mark_group r v).
      destruct (write_ok (pre ++ mask_of (r ++ [Some v]) :: reported r ++ rest, p) (pre ++ mask_of (r ++ [Some v]) :: reported r) N [v])
        as (w' & Ew & Hw').
      { exists rest. cbn [fst snd]. rewrite <- app_assoc. split; [done|]. rewrite Epos, <- EN, Eb.
        rewrite !zlen_app, !zlen_cons, zlen_app. lia. }
      { change (zlen [v]) with 1. rewrite Epos in Ep. rewrite zlen_app, zlen_cons in *. lia. }
      exists w'. split; [exact Ew|]. exists (r ++ [Some v]).
      replace (reported (r ++ [Some v])) with (reported r ++ [v]) by (unfold reported; by rewrite omap_app).
      rewrite <- app_assoc in Hw'. cbn [app] in Hw'. split; [exact Hw'|].
      split; [apply Forall2_app; [done|constructor; [by right|constructor] ]|].
      split.
      * destruct Hw' as (? & _ & -> & _). rewrite Epos in Ep. rewrite zlen_app, zlen_cons in *. rewrite zlen_app.
        change (zlen [v]) with 1. lia.
      * intros Hroom. by rewrite Hsnoc, Ev0, <- (Hall Hroom).
    + exists (b, p). split; [done|]. exists (r ++ [None]).
      destruct (mask_of_app r None) as [-> _]. cbn [given b2z]. rewrite Z.mul_0_l, Z.add_0_r.
      replace (reported (r ++ [None])) with (reported r) by (unfold reported; by rewrite omap_app, app_nil_r).
      split; [done|]. split; [apply Forall2_app; [done|constructor; [by left|constructor] ]|]. split; [done|].
      intros Hroom. rewrite Hsnoc, <- (Hall Hroom). f_equal. destruct (v =? 0) eqn:Ev0; [done|]. exfalso.
      cbn [negb andb] in Ec. apply Z.ltb_ge in Ec.
      assert (Hlt : zlen (reported r) + 1 <= zlen (reported (whole vs))).
      { rewrite <- (take_drop_middle vs _ _ Ev), (Hall Hroom). unfold whole, reported. rewrite map_app, omap_app, zlen_app.
        cbn [map]. rewrite Ev0. cbn. rewrite zlen_cons. pose proof (zlen_nonneg (omap id (map (fun v => if v =? 0 then None else Some v) (drop (S (Z.to_nat k)) vs)))). lia. }
      destruct Hb as (rest & _ & Epos & _). cbn [snd] in Epos. rewrite zlen_app, zlen_cons in Epos. lia.
  - exists w', r. rewrite (take_ge vs) in * by (unfold zlen in *; lia). done.
Qed.

Lemma write_long_bsr_ok id vs pre fin N w : zlen vs = 8 -> fin <= N -> holds w pre N -> zlen pre + 3 <= fin ->
  exists w' r, write_long_bsr id vs fin w = Ok w' /\ holds w' (pre ++ short_sdu id (mask_of r :: reported r)) N /\
    Forall2 taken vs r /\ zlen (pre ++ short_sdu id (mask_of r :: reported r)) <= fin /\
    (zlen pre + 3 + zlen (reported (whole vs)) <= fin -> r = whole vs).
Proof.
  intros Hlen Hfin (rest & E & Hp & HN) Hroom. destruct w as [b p]. cbn [fst snd] in *. subst b p.
  rewrite zlen_app in HN. destruct rest as [|a [|b [|c rest] ] ]; rewrite ?zlen_cons, ?zlen_nil in HN; try lia.
  unfold write_long_bsr. cbn [fst snd].
  replace (pre ++ a :: b :: c :: rest) with ((pre ++ [a; b]) ++ c :: rest) by (by rewrite <- app_assoc).
  assert (Hmark : zlen pre + 2 = zlen (pre ++ [a; b])) by (by rewrite zlen_app).
  rewrite (zset_mid (pre ++ [a; b]) rest c 0 _ Hmark), res_bind_unfold.
  destruct (write_groups_ok vs (pre ++ [a; b]) (zlen pre + 2) fin N ((pre ++ [a; b]) ++ 0 :: rest, zlen pre + 2 + 1) Hlen Hfin Hmark)
    as ([b1 p1] & r & -> & Hw1 & Hr & Hpos & Hall).
  { exists rest. cbn [fst snd]. rewrite <- !app_assoc. split; [done|]. rewrite !zlen_app, !zlen_cons, zlen_nil. lia. }
  rewrite res_bind_unfold. cbn [fst snd] in *. destruct Hw1 as (rest1 & Eb1 & Ep1 & EN1). cbn [fst snd] in *.
  assert (Hlen2 : p1 - (zlen pre + 2) = zlen (mask_of r :: reported r)) by (rewrite Ep1, Hmark, zlen_app; lia).
  rewrite Hlen2, Eb1. rewrite <- !app_assoc.
  rewrite zwrite_append by (done || (rewrite !zlen_app, !zlen_cons; pose proof (zlen_nonneg (reported r)); pose proof (zlen_nonneg rest1);
    change (zlen (NR_MAC_SUBHEADER_SHORT _ _)) with 2; change (zlen []) with 0; lia)).
  rewrite res_bind_unfold. eexists _, r. split; [done|].
  change (drop (length (NR_MAC_SUBHEADER_SHORT id (zlen (mask_of r :: reported r)))) ([a; b] ++ (mask_of r :: reported r) ++ rest1))
    with ((mask_of r :: reported r) ++ rest1).
  assert (Hz : zlen (pre ++ short_sdu id (mask_of r :: reported r)) = p1).
  { rewrite Ep1, !zlen_app, zlen_short_sdu. change (zlen [a; b]) with 2. lia. }
  split; [|split; [done|split; [lia|] ] ].
  - exists rest1. cbn [fst snd]. unfold short_sdu in *. rewrite <- !app_assoc. split; [done|]. split; [by rewrite Hz|].
    rewrite <- EN1, Eb1, !zlen_app. change (zlen (NR_MAC_SUBHEADER_SHORT _ _)) with 2. change (zlen [a; b]) with 2. lia.
  - intros H. apply Hall. lia.
Qed.

(** ** Before the SDUs *)

Definition trigger_ok (m : ue_ul) : Prop :=
  regularBSR_trigger_lcid m <= 0 \/ regularBSR_trigger_lcid m ∈ map lcid (lc_ordered_list m).

(** What the reports change leaves the channels as they are. *)
Definition same_channels (m m' : ue_ul) : Prop :=
  lc_ordered_list m' = lc_ordered_list m /\ lc_sched_info m' = lc_sched_info m /\ sr_info m' = sr_info m /\
  phr_is_configured m' = phr_is_configured m /\ (trigger_ok m -> trigger_ok m').

Lemma same_total m m' f : same_channels m m' -> total f m' = total f m.
Proof. intros (E1 & E2 & _). unfold total, info. by rewrite E1, E2. Qed.

Lemma same_channels_ok m m' : same_channels m m' -> channels_ok m -> channels_ok m'.
Proof. intros (E1 & E2 & _). unfold channels_ok. by rewrite E1, E2. Qed.

Lemma zsum_elem_nonneg {A} (f : A -> Z) l : (forall x, x ∈ l -> 0 <= f x) -> 0 <= zsum f l.
Proof. intros H. rewrite <- (zsum_zero (fun _ => 0) l) by done. by apply zsum_le. Qed.

Lemma waits_in_nonneg m g c : channels_ok m -> c ∈ lc_ordered_list m -> 0 <= waits_in g c (info m c).
Proof. intros Hm Hc. pose proof (waits_nonneg m c Hm Hc). unfold waits_in. destruct (_ =? g); lia. Qed.

(** [nr_update_bsr] adds up what waits in each group. *)
Lemma update_bsr_ok m : channels_ok m -> left_over m <= MAX_REPORT -> exists m',
  nr_update_bsr m (replicate (Z.to_nat NR_MAX_NUM_LCGID) 0) = Ok (m', map (waiting m) (seqZ 0 8)) /\
  same_channels m m' /\ phr_reporting m' = phr_reporting m.
Proof.
  intros Hm Hmax. unfold nr_update_bsr. pose proof max_report as [Hmax' _].
  match goal with |- context [res_foldl ?g _ _] => set (f := g) end.
  assert (Hloop : forall cs dn m1 bytes trig, lc_ordered_list m = dn ++ cs -> same_channels m m1 ->
    phr_reporting m1 = phr_reporting m -> zlen bytes = 8 ->
    (forall g, 0 <= g < 8 -> zget bytes g = Ok (zsum (fun c => waits_in g c (info m c)) dn)) ->
    exists m2 bytes2 trig2, res_foldl f (m1, bytes, trig) cs = Ok (m2, bytes2, trig2) /\ same_channels m m2 /\
      phr_reporting m2 = phr_reporting m /\ zlen bytes2 = 8 /\ forall g, 0 <= g < 8 -> zget bytes2 g = Ok (waiting m g)).
  { induction cs as [|c cs IH]; intros dn m1 bytes trig Hd Hs Hph Hlen Hg.
    { rewrite app_nil_r in Hd. exists m1, bytes, trig. repeat split; try done; try apply Hs.
      intros g Hg0. unfold waiting, total. rewrite Hd. by apply Hg. }
    assert (Hc : c ∈ lc_ordered_list m) by (rewrite Hd; set_solver).
    assert (Hd' : lc_ordered_list m = (dn ++ [c]) ++ cs) by (by rewrite <- app_assoc).
    assert (Hc1 : c ∈ lc_ordered_list m1) by (destruct Hs as (-> & _); done).
    destruct (info_ok m1 c (same_channels_ok _ _ Hs Hm) Hc1) as (_ & _ & Ei & Hi). pose proof Hi as [Hrem Hgid].
    assert (Einfo : info m1 c = info m c) by (destruct Hs as (_ & E2 & _); unfold info; by rewrite E2).
    cbn [res_foldl]. destruct (rb_suspended c) eqn:Esus.
    - assert (Hf : f (m1, bytes, trig) c = Ok (m1, bytes, trig)) by (unfold f; by rewrite Esus).
      rewrite Hf, res_bind_unfold. apply (IH (dn ++ [c])); try done. intros g Hg0.
      rewrite zsum_app, zsum_cons, Hg by done. unfold waits_in at 3, waits. rewrite Esus. change (zsum _ []) with 0.
      f_equal. destruct (_ =? g); lia.
    - rewrite Einfo in *. set (lg := LCGID (info m c)) in *.
      assert (Hpart : zsum (fun d => waits_in lg d (info m d)) dn + LCID_buffer_remain (info m c) <= MAX_REPORT).
      { pose proof (waiting_bounds m lg Hm) as [_ Hle]. unfold waiting, total in Hle. rewrite Hd, zsum_app, zsum_cons in Hle.
        unfold waits_in at 2, waits in Hle. rewrite Esus in Hle. unfold lg in Hle at 2. rewrite Z.eqb_refl in Hle.
        assert (0 <= zsum (fun d => waits_in lg d (info m d)) cs).
        { apply zsum_elem_nonneg. intros d Hdc. apply waits_in_nonneg; [done|]. rewrite Hd. set_solver. }
        lia. }
      assert (0 <= zsum (fun d => waits_in lg d (info m d)) dn).
      { apply zsum_elem_nonneg. intros d Hdc. apply waits_in_nonneg; [done|]. rewrite Hd. set_solver. }
      set (v := zsum (fun d => waits_in lg d (info m d)) dn + LCID_buffer_remain (info m c)) in *.
      assert (Hf : exists m2 trig2, f (m1, bytes, trig) c = Ok (m2, <[Z.to_nat lg := v]> bytes, trig2) /\
        same_channels m m2 /\ phr_reporting m2 = phr_reporting m).
      { unfold f. rewrite Esus, Ei, res_bind_unfold. fold lg. cbv zeta.
        rewrite (proj2 (Z.eqb_neq lg NR_INVALID_LCGID)) by (unfold NR_INVALID_LCGID, NR_MAX_NUM_LCGID; lia). cbn [negb].
        rewrite Hg, res_bind_unfold, zset_ok, res_bind_unfold by lia. fold v. rewrite u32_small by lia.
        destruct trig; cbn [negb]; [by exists m1, true|]. eexists _, true. split; [done|].
        split; [|done]. destruct Hs as (E1 & E2 & E3 & E4 & _). repeat split; try done. intros _. right. cbn. rewrite E1.
        by apply (list_elem_of_fmap_2 lcid). }
      destruct Hf as (m2 & trig2 & -> & Hs2 & Hph2). rewrite res_bind_unfold. apply (IH (dn ++ [c])); try done.
      { by rewrite zlen_insert. }
      intros g Hg0. rewrite zsum_app, zsum_cons. change (zsum _ []) with 0. unfold waits_in at 2, waits. rewrite Esus. fold lg.
      destruct (Z.eqb_spec lg g) as [<-|Hne].
      + rewrite (zget_zset_eq bytes lg v) by (by rewrite zset_ok by lia). f_equal. unfold v. lia.
      + rewrite (zget_zset_ne bytes lg g v) by (done || by rewrite zset_ok by lia). rewrite Hg by done. f_equal. lia. }
  destruct (Hloop (lc_ordered_list m) [] m (replicate (Z.to_nat NR_MAX_NUM_LCGID) 0)
    (negb (Z.land (BSR_reporting_active m) NR_BSR_TRIGGER_REGULAR =? 0))) as (m2 & bytes2 & trig2 & -> & Hs & Hph & Hl & Hg);
    try done; [|rewrite res_bind_unfold; exists m2; split; [|done]; by rewrite (groups_list m bytes2 Hl Hg)].
  intros g Hg. change (zsum _ []) with 0. apply zget_ok. split; [lia|]. apply lookup_replicate_2. unfold NR_MAX_NUM_LCGID. lia.
Qed.

(** The space that is kept for the reports. *)
Definition phr_len (phr : option (list Z)) : Z := match phr with Some _ => 3 | None => 0 end.

Lemma filter_le {A} (f : A -> bool) l : zlen (List.filter f l) <= zlen l.
Proof. unfold zlen. pose proof (List.filter_length_le f l). lia. Qed.

Lemma bsr_reserve_bound m bytes buflen : zlen bytes = 8 -> 3 <= buflen ->
  0 <= bsr_reserve m bytes buflen <= Z.min 11 buflen.
Proof.
  intros Hb Hlen. unfold bsr_reserve. pose proof (filter_le (fun n => n >? 0) bytes) as Hle.
  assert (0 <= groups_with_data bytes <= 8) by (unfold groups_with_data; pose proof (zlen_nonneg (List.filter (fun n => n >? 0) bytes)); lia).
  zcases; cbn [andb orb negb]; lia.
Qed.

Lemma mac_ce_pre_ok m bytes buflen P tx : zlen bytes = 8 -> 3 <= buflen -> exists m' phr fin,
  nr_ue_get_sdu_mac_ce_pre m bytes buflen P tx = (m', phr, fin) /\ same_channels m m' /\
  0 <= fin /\ fin + phr_len phr <= buflen /\ (phr = None \/ phr = Some (phr_bytes P tx)) /\
  (phr_is_configured m = true -> 0 < phr_reporting m -> 14 <= buflen -> phr = Some (phr_bytes P tx)).
Proof.
  intros Hb Hlen. pose proof (bsr_reserve_bound m bytes buflen Hb Hlen) as Hr. unfold nr_ue_get_sdu_mac_ce_pre.
  destruct (phr_is_configured m && (phr_reporting m >? 0) && (buflen >=? bsr_reserve m bytes buflen + 3)) eqn:E.
  - rewrite !andb_true_iff, Z.geb_le in E. eexists _, _, _. split; [done|]. split; [by repeat split|]. cbn [phr_len].
    split; [lia|]. split; [lia|]. split; [by right|done].
  - eexists _, _, _. split; [done|]. split; [by repeat split|]. cbn [phr_len].
    split; [lia|]. split; [lia|]. split; [by left|]. intros H1 H2 H3. exfalso. rewrite H1 in E. cbn [andb] in E.
    rewrite (proj2 (Z.gtb_lt _ 0)) in E by lia. cbn [andb] in E. rewrite Z.geb_leb, Z.leb_gt in E. lia.
Qed.

(** [select_logical_channels] keeps channels that are not suspended. *)
Lemma select_ok m : channels_ok m -> forall cs, (forall c, c ∈ cs -> c ∈ lc_ordered_list m) -> exists l,
  select_logical_channels m cs = Ok l /\ l `sublist_of` cs /\ Forall (fun c => rb_suspended c = false) l.
Proof.
  intros Hm. induction cs as [|c cs IH]; intros Hin; [by exists []|]. cbn [select_logical_channels].
  destruct IH as (l & El & Hs & Hl); [intros d Hd; apply Hin; set_solver|].
  destruct (rb_suspended c) eqn:E; [exists l; split; [done|]; split; [by apply sublist_cons|done]|].
  destruct (info_ok m c Hm ltac:(apply Hin; set_solver)) as (_ & _ & -> & _).
  rewrite res_bind_unfold, El, res_bind_unfold. eexists. split; [done|].
  destruct (Bj (info m c) >? 0); [|split; [by apply sublist_cons|done] ].
  split; [by apply sublist_skip|by constructor].
Qed.

(** ** After the SDUs *)

Lemma reported_groups ns vs : Forall2 index_of ns vs -> zlen (reported (whole vs)) = groups_with_data ns.
Proof.
  induction 1 as [|n v ns vs (Hv & Hn & Hz) _ IH]; [done|]. rewrite reported_whole. unfold groups_with_data in *. cbn [List.filter].
  rewrite Z.gtb_ltb. destruct (Z.eqb_spec v 0) as [->|Hne].
  - rewrite (proj1 Hz eq_refl). exact IH.
  - rewrite (proj2 (Z.ltb_lt 0 n)) by lia. rewrite !zlen_cons. lia.
Qed.

Lemma reported_len r : (length (reported r) <= length r)%nat.
Proof. unfold reported. induction r as [| [v|] r IH]; cbn; lia. Qed.

Lemma taken_bytes ns vs r : Forall2 index_of ns vs -> Forall2 taken vs r -> Forall is_byte (reported r).
Proof.
  intros Hi. revert r. induction Hi as [|n v ns vs (Hv & _) _ IH]; intros r Hr; inversion Hr as [|? o ? r' Ho Hr']; subst; [constructor|].
  destruct Ho as [-> | ->].
  - change (Forall is_byte (reported r')). by apply IH.
  - change (Forall is_byte (v :: reported r')). constructor; [unfold is_byte; lia|by apply IH].
Qed.

(** The reports that are chosen, for [pad] bytes of space. *)
Definition chosen (m : ue_ul) (pad : Z) (bsr : type_bsr_t) : Prop :=
  match bsr with
  | b_none => pad < 2
  | b_short g i => 2 <= pad /\ 0 <= i < 32 /\ Z.min 300000 (left_over m) <= estimate NR_SHORT_BSR_TABLE_SIZE i
  | b_short_trunc g i => 2 = pad /\ 0 <= i < 32
  | b_long vs => Forall2 index_of (map (waiting m) (seqZ 0 8)) vs /\ groups_with_data (map (waiting m) (seqZ 0 8)) + 3 <= pad
  | b_long_trunc vs => Forall2 index_of (map (waiting m) (seqZ 0 8)) vs /\ 3 <= pad < 11
  end.

Lemma choose_bsr_ok m pad : channels_ok m -> held_back m = 0 -> left_over m <= MAX_REPORT -> exists bsr,
  choose_bsr m (map (waiting m) (seqZ 0 8)) pad = Ok bsr /\ chosen m pad bsr.
Proof.
  intros Hm H0 Hmax. destruct (highest_group_ok m Hm H0) as (g & Eg & Hg & Hone).
  destruct (short_report_ok m g Hm Hmax Hg) as (i & Ei & Hi & Hcov). destruct (long_report_ok m Hm Hmax) as (vs & Ev & Hvs).
  unfold choose_bsr. rewrite Eg, res_bind_unfold. cbv zeta. set (ns := map (waiting m) (seqZ 0 8)) in *.
  assert (Hgr : 0 <= groups_with_data ns <= 8).
  { unfold groups_with_data. pose proof (filter_le (fun n => n >? 0) ns). pose proof (zlen_nonneg (List.filter (fun n => n >? 0) ns)).
    change (zlen ns) with 8 in *. lia. }
  rewrite Ei, Ev, !res_bind_unfold. rewrite !Z.geb_leb.
  destruct (Z.ltb_spec (groups_with_data ns) 2) as [H2|H2]; cbn [andb].
  - destruct (Z.leb_spec (1 + 1) pad) as [Hp|Hp].
    + eexists. split; [done|]. cbn [chosen]. rewrite <- (Hone H2). done.
    + rewrite (proj2 (Z.leb_gt _ pad)), (proj2 (Z.eqb_neq pad (1 + 1))), (proj2 (Z.leb_gt (1 + 2) pad)) by lia.
      exists b_none. split; [done|]. cbn. lia.
  - destruct (Z.leb_spec (groups_with_data ns + 1 + 2) pad) as [Hp|Hp].
    + eexists. split; [done|]. cbn [chosen]. fold ns. split; [done|lia].
    + destruct (Z.eqb_spec pad (1 + 1)) as [->|Hne]; [eexists; split; [done|]; cbn [chosen]; done|].
      destruct (Z.leb_spec (1 + 2) pad) as [Hp3|Hp3].
      * eexists. split; [done|]. cbn [chosen]. split; [done|lia].
      * exists b_none. split; [done|]. cbn. lia.
Qed.

Lemma bsr_sent_ok m bsr : trigger_ok m -> NoDup (map lcid (lc_ordered_list m)) -> zlen (sr_info m) = 8 -> exists m' sent,
  bsr_sent m bsr = Ok (m', sent) /\ lc_ordered_list m' = lc_ordered_list m /\ lc_sched_info m' = lc_sched_info m.
Proof.
  intros Ht Hnd Hsr.
  assert (Hrun : forall l, exists m' sent, (let m := set_sr m (sr_info m) l in
    if regularBSR_trigger_lcid m >? 0 then
      match get_lc_info_from_lcid m (regularBSR_trigger_lcid m) with
      | None => Fault Exit
      | Some lc_info =>
          if (sr_id lc_info >=? 0) && (sr_id lc_info <? NR_MAX_SR_ID) then
            sr ← zset (sr_info m) (sr_id lc_info) (false, 0);
            mret (set_sr m sr [StopSrProhibit (sr_id lc_info)], true)
          else mret (m, true)
      end
    else mret (m, true)) = Ok (m', sent) /\
    lc_ordered_list m' = lc_ordered_list m /\ lc_sched_info m' = lc_sched_info m).
  { intros l. cbv zeta. cbn [regularBSR_trigger_lcid set_sr sr_info]. rewrite Z.gtb_ltb.
    destruct (Z.ltb_spec 0 (regularBSR_trigger_lcid m)) as [Hp|Hp]; [|by eexists _, true].
    destruct Ht as [?|Ht]; [lia|]. apply list_elem_of_fmap in Ht as (c & Ec & Hc).
    unfold get_lc_info_from_lcid. cbn [lc_ordered_list set_sr]. rewrite Ec, (find_lcid c) by done.
    destruct ((sr_id c >=? 0) && (sr_id c <? NR_MAX_SR_ID)) eqn:E; [|by eexists _, true].
    rewrite andb_true_iff, Z.geb_le, Z.ltb_lt in E. unfold NR_MAX_SR_ID in E.
    rewrite zset_ok, res_bind_unfold by lia. by eexists _, true. }
  destruct bsr as [|vs|g i|g i|vs]; [by exists m, false|apply Hrun..].
Qed.

(** The control elements behind the SDUs, as the gNB reads them: [est] is its new estimate. *)
Definition phr_reads (phr : option (list Z)) (ys : list (list Z)) : Prop :=
  match phr with
  | None => ys = []
  | Some p => ys = [NR_MAC_SUBHEADER_FIXED UL_SCH_LCID_SINGLE_ENTRY_PHR ++ p]
  end.

Definition bsr_reads (est : option Z) (ys : list (list Z)) : Prop :=
  match est with
  | None => ys = []
  | Some e => exists y, ys = [y] /\ forall prep phf pid ue, ul_reads prep phf pid ue y (set_buffer ue e 0) [] 0
  end.

Definition two_bytes (phr : option (list Z)) : Prop := match phr with Some [_; _] | None => True | _ => False end.

Lemma write_phr_ok phr w pre N : two_bytes phr -> holds w pre N -> zlen pre + phr_len phr <= N -> exists w' ys,
  match phr with
  | None => mret w
  | Some phr => w ← put w (NR_MAC_SUBHEADER_FIXED UL_SCH_LCID_SINGLE_ENTRY_PHR); put w phr
  end = Ok w' /\ phr_reads phr ys /\ holds w' (pre ++ concat ys) N /\ zlen (concat ys) = phr_len phr.
Proof.
  intros H2 Hw HN. destruct phr as [ [|v0 [|v1 [|] ] ] |]; try done; cbn [phr_len phr_reads] in *.
  - destruct (write_ok w pre N (NR_MAC_SUBHEADER_FIXED UL_SCH_LCID_SINGLE_ENTRY_PHR) Hw ltac:(rewrite zlen_fixed; lia)) as (w1 & -> & Hw1).
    rewrite res_bind_unfold. destruct (write_ok w1 _ N [v0; v1] Hw1 ltac:(rewrite zlen_app, zlen_fixed, !zlen_cons, zlen_nil; lia)) as (w2 & -> & Hw2).
    eexists w2, _. split; [done|]. split; [done|]. cbn [concat]. rewrite app_nil_r, app_assoc. by split.
  - exists w, []. split; [done|]. split; [done|]. cbn. by rewrite app_nil_r.
Qed.

(** The report of the buffer status covers what is left, unless it had to be truncated. *)
Lemma write_bsr_ok m bsr pad w pre buflen N : chosen m pad bsr -> left_over m <= MAX_REPORT -> channels_ok m ->
  holds w pre N -> buflen <= N -> zlen pre + pad = buflen -> 0 <= pad -> exists w' est ys,
  nr_write_ce_ulsch_pdu w None bsr buflen = Ok w' /\ bsr_reads est ys /\ holds w' (pre ++ concat ys) N /\
  zlen (pre ++ concat ys) <= buflen /\ (11 <= pad -> exists e, est = Some e /\ Z.min 300000 (left_over m) <= e).
Proof.
  intros Hch Hmax Hm Hw HN Hpad Hpad0. unfold nr_write_ce_ulsch_pdu. rewrite res_bind_unfold.
  assert (Hshort : forall l g i, l = UL_SCH_LCID_S_BSR \/ l = UL_SCH_LCID_S_TRUNCATED_BSR -> 0 <= i < 32 -> 2 <= pad ->
    exists w' ys, (w ← put w (NR_MAC_SUBHEADER_FIXED l); put w [i + 32 * g]) = Ok w' /\
      bsr_reads (Some (estimate NR_SHORT_BSR_TABLE_SIZE i)) ys /\ holds w' (pre ++ concat ys) N /\ zlen (pre ++ concat ys) <= buflen).
  { intros l g i Hl Hi Hp.
    destruct (write_ok w pre N (NR_MAC_SUBHEADER_FIXED l) Hw ltac:(rewrite zlen_fixed; lia)) as (w1 & -> & Hw1).
    rewrite res_bind_unfold. destruct (write_ok w1 _ N [i + 32 * g] Hw1 ltac:(rewrite zlen_app, zlen_fixed, !zlen_cons, zlen_nil; lia)) as (w2 & -> & Hw2).
    exists w2, [NR_MAC_SUBHEADER_FIXED l ++ [i + 32 * g] ]. cbn [concat]. rewrite app_nil_r, app_assoc.
    split; [done|]. split; [|split; [done|rewrite !zlen_app, zlen_fixed; change (zlen [_]) with 1; lia] ].
    eexists. split; [done|]. intros prep phf pid ue. apply ul_reads_short; [done|by apply short_estimate]. }
  assert (Hlong : forall l vs, l = UL_SCH_LCID_L_BSR \/ l = UL_SCH_LCID_L_TRUNCATED_BSR ->
    Forall2 index_of (map (waiting m) (seqZ 0 8)) vs -> 3 <= pad -> exists w' e ys,
      write_long_bsr l vs buflen w = Ok w' /\ bsr_reads (Some e) ys /\ holds w' (pre ++ concat ys) N /\
      zlen (pre ++ concat ys) <= buflen /\
      (groups_with_data (map (waiting m) (seqZ 0 8)) + 3 <= pad -> left_over m <= e)).
  { intros l vs Hl Hvs Hp. pose proof (Forall2_length _ _ _ Hvs) as Hlen. change (length _) with 8%nat in Hlen at 1.
    destruct (write_long_bsr_ok l vs pre buflen N w ltac:(unfold zlen; lia) HN Hw ltac:(lia))
      as (w' & r & -> & Hw' & Hr & Hend & Hall).
    pose proof (Forall2_length _ _ _ Hr) as Hlr.
    exists w', (long_estimate (reported r)), [short_sdu l (mask_of r :: reported r)]. cbn [concat]. rewrite app_nil_r.
    split; [done|]. split; [|split; [done|split; [done|] ] ].
    - eexists. split; [done|]. intros prep phf pid ue. apply ul_reads_long; [done| |].
      + rewrite zlen_app, zlen_short_sdu in Hend. rewrite zlen_cons. unfold zlen.
        pose proof (reported_len r). lia.
      + intros pre' post. apply long_estimate_ok; [lia|]. by eapply taken_bytes.
    - intros Hg. rewrite Hall by (rewrite (reported_groups _ _ Hvs); lia). rewrite <- groups_share by done.
      replace (zsum (waiting m) (seqZ 0 8)) with (zsum id (map (waiting m) (seqZ 0 8))) by done.
      by apply long_estimate_covers. }
  destruct bsr as [|vs|g i|g i|vs]; cbn [chosen] in Hch.
  - exists w, None, []. cbn [concat]. rewrite app_nil_r. split; [done|]. split; [done|]. split; [done|]. lia.
  - destruct Hch as [Hvs Hp]. destruct (Hlong UL_SCH_LCID_L_BSR vs ltac:(by left) Hvs) as (w' & e & ys & -> & H1 & H2 & H3 & H4).
    { assert (0 <= groups_with_data (map (waiting m) (seqZ 0 8))) by apply zlen_nonneg. lia. }
    exists w', (Some e), ys. repeat split; try done. intros _. exists e. split; [done|]. specialize (H4 Hp). lia.
  - destruct Hch as (Hp & Hi & Hcov). destruct (Hshort UL_SCH_LCID_S_BSR g i ltac:(by left) Hi Hp) as (w' & ys & -> & H1 & H2 & H3).
    eexists w', _, ys. split; [done|]. split; [exact H1|]. repeat split; try done. intros _. by eexists.
  - destruct Hch as (Hp & Hi). destruct (Hshort UL_SCH_LCID_S_TRUNCATED_BSR g i ltac:(by right) Hi ltac:(lia)) as (w' & ys & -> & H1 & H2 & H3).
    eexists w', _, ys. split; [done|]. split; [exact H1|]. repeat split; try done. lia.
  - destruct Hch as [Hvs Hp]. destruct (Hlong UL_SCH_LCID_L_TRUNCATED_BSR vs ltac:(by right) Hvs ltac:(lia))
      as (w' & e & ys & -> & H1 & H2 & H3 & _).
    exists w', (Some e), ys. repeat split; try done. lia.
Qed.

(** ** The block *)

(** The power headroom that the gNB reads is the one of the UE, or at most 2 dB more when
    it is 22 dB or more. *)
Lemma phr_exact P tx : -32 <= P - tx <= 38 -> -29 <= P <= 34 -> exists v0 v1, phr_bytes P tx = [v0; v1] /\
  P - tx <= headroom_of (Z.land v0 63) <= P - tx + 2 /\ (P - tx < 22 -> headroom_of (Z.land v0 63) = P - tx) /\
  Z.land v1 63 - 29 = P.
Proof.
  intros Hh HP. unfold phr_bytes. eexists _, _. split; [done|]. set (h := P - tx) in *.
  change 63 with (2 ^ 6 - 1). rewrite !land_mask by done. change (2 ^ 6) with 64. change (2 ^ 6 - 1) with 63.
  rewrite !Z.mod_mod by done. rewrite (Z.mod_small (Z.max 0 (P - (-29)))) by lia.
  split; [|split; [|lia] ]; unfold headroom_of; destruct (Z.ltb_spec h 22).
  - rewrite Z.max_r, Z.mod_small by lia. zcases; lia.
  - assert (0 <= (h - 22) / 2 <= 8) by zmod. assert (h - 23 <= (h - 22) / 2 * 2 <= h - 22) by zmod.
    rewrite Z.min_r, Z.mod_small by lia. zcases; lia.
  - intros _. rewrite Z.max_r, Z.mod_small by lia. zcases; lia.
  - lia.
Qed.

Section block.
Context {S : Type} `{R : MacRlc S} {I : S -> Prop} `{L : !MacRlcLaws S I}.

Lemma mac_ce_post_ok (t : lcp (S := S)) phr buflen N pre : channels_ok (mac t) -> held_back (mac t) = 0 ->
  left_over (mac t) <= MAX_REPORT -> LCG_bytes t = map (waiting (mac t)) (seqZ 0 8) -> trigger_ok (mac t) ->
  zlen (sr_info (mac t)) = 8 -> holds (block t, cur t) pre N -> two_bytes phr -> zlen pre + phr_len phr <= buflen <= 160000 ->
  buflen <= N -> exists m' w sent est ys zs,
  nr_ue_get_sdu_mac_ce_post t phr buflen = Ok (m', w, sent) /\
  lc_ordered_list m' = lc_ordered_list (mac t) /\ lc_sched_info m' = lc_sched_info (mac t) /\
  phr_reads phr ys /\ bsr_reads est zs /\ holds w (pre ++ concat ys ++ concat zs) N /\
  zlen (pre ++ concat ys ++ concat zs) <= buflen /\
  (zlen pre + phr_len phr + 11 <= buflen -> exists e, est = Some e /\ Z.min 300000 (left_over (mac t)) <= e).
Proof.
  intros Hm H0 Hmax Hb Ht Hsr Hw H2 Hlen HN. unfold nr_ue_get_sdu_mac_ce_post. cbv zeta. fold (phr_len phr). rewrite Hb.
  assert (Hcur : cur t = zlen pre) by (by destruct Hw as (? & _ & ? & _)). pose proof (zlen_nonneg pre).
  assert (0 <= phr_len phr <= 3) by (destruct phr; cbn; lia).
  rewrite u32_small by lia. set (pad := buflen - cur t - phr_len phr).
  destruct (choose_bsr_ok (mac t) pad Hm H0 Hmax) as (bsr & -> & Hch). rewrite res_bind_unfold.
  destruct (bsr_sent_ok (mac t) bsr Ht (proj1 Hm) Hsr) as (m' & sent & -> & E1 & E2). rewrite res_bind_unfold.
  destruct (write_phr_ok phr (block t, cur t) pre N H2 Hw ltac:(lia)) as (w1 & ys & Ew1 & Hys & Hw1 & Hzy).
  destruct (write_bsr_ok (mac t) bsr pad w1 (pre ++ concat ys) buflen N Hch Hmax Hm Hw1 HN) as (w2 & est & zs & Ew2 & Hzs & Hw2 & Hend & Hcov);
    [rewrite zlen_app; unfold pad; lia|unfold pad; lia|].
  assert (Ew : nr_write_ce_ulsch_pdu (block t, cur t) phr bsr buflen = Ok w2).
  { unfold nr_write_ce_ulsch_pdu in *. by rewrite Ew1. }
  rewrite Ew, res_bind_unfold. rewrite <- app_assoc in Hw2, Hend. exists m', w2, sent, est, ys, zs.
  split; [done|]. split; [done|]. split; [done|]. split; [done|]. split; [done|]. split; [done|]. split; [done|].
  intros Hroom. apply Hcov. unfold pad. lia.
Qed.

(** The UE can fill a block: the channels are as they should be, the channels that are
    suspended have no data, and what waits can be reported. *)
Record ul_ready (m : ue_ul) : Prop := {
  ul_channels : channels_ok m;
  ul_some : lc_ordered_list m <> [];
  ul_most : zlen (lc_ordered_list m) <= 16;
  ul_lcids : Forall (fun c => ul_channel (lcid c)) (lc_ordered_list m);
  ul_held : held_back m = 0;
  ul_left : left_over m <= MAX_REPORT;
  ul_trigger : trigger_ok m;
  ul_sr : zlen (sr_info m) = 8
}.

Lemma sub_lcids (cs l : list nr_lcordered_info_t) : l `sublist_of` cs -> NoDup (map lcid cs) -> NoDup (map lcid l).
Proof. intros Hs Hnd. eapply sublist_NoDup; [exact Hnd|]. by apply (fmap_sublist lcid). Qed.

(** All rounds from the state in which [nr_ue_get_sdu] enters them. *)
Lemma all_rounds_ok s m b fin : ul_ready m -> I s -> 0 <= fin <= 160000 -> fin <= zlen b -> exists cs t,
  select_logical_channels m (lc_ordered_list m) = Ok cs /\
  lcp_rounds 256 fin cs (mk_lcp s m (map (waiting m) (seqZ 0 8)) b 0 0 (replicate (Z.to_nat NR_MAX_NUM_LCID) true) 0 [] 0 0 0) = Ok t /\
  ready (I := I) (lc_ordered_list m) fin (zlen b) t /\
  extends (lc_ordered_list m) (zlen b)
    (new_round (mk_lcp s m (map (waiting m) (seqZ 0 8)) b 0 0 (replicate (Z.to_nat NR_MAX_NUM_LCID) true) 0 [] 0 0 0)) t.
Proof.
  intros [Hm _ Hmost _ Hheld Hleft _ _] Hs Hfin Hb.
  destruct (select_ok m Hm (lc_ordered_list m) ltac:(done)) as (cs & Ecs & Hsub & Hsus).
  set (t0 := mk_lcp _ _ _ _ _ _ _ _ _ _ _ _). exists cs.
  assert (Hr : ready (I := I) (lc_ordered_list m) fin (zlen b) (new_round t0)).
  { constructor; try done.
    - intros g Hg. cbn [LCG_bytes new_round t0]. apply zget_ok. split; [lia|].
      by rewrite list_lookup_fmap, lookup_seqZ_lt, Z2Nat.id by lia.
    - exists []. apply holds_start.
    - cbn. lia. }
  assert (Hcs : zlen cs <= 16) by (apply sublist_length in Hsub; unfold zlen in *; lia).
  assert (Hac : (length (actives cs (new_round t0)) <= 16)%nat).
  { unfold actives. pose proof (filter_le (fun c => match zget (lcids_data_status (new_round t0)) (lcid c - 1) with Ok b => b | _ => false end) cs).
    unfold zlen in *. lia. }
  change (lcp_rounds 256 fin cs t0) with (lcp_rounds 256 fin cs (new_round t0)).
  destruct (lcp_rounds_ok (I := I) (lc_ordered_list m) fin (zlen b) Hfin Hb cs) with (fuel := 256%nat) (n := 205%nat) (t := new_round t0)
    as (t & Et & Hrt & Hext); try done.
  - apply Forall_forall. intros c Hc. rewrite Forall_forall in Hsus. split; [by eapply elem_of_sublist|by apply Hsus].
  - eapply sub_lcids; [exact Hsub|apply Hm].
  - cbn. lia.
  - eapply drains_mono; [|exact blocks_drain]. cbn. lia.
  - change (spare (new_round t0)) with 1%nat. lia.
  - change (spare (new_round t0)) with 1%nat. cbn [lcp_allocation_counter new_round t0]. lia.
  - by exists t.
Qed.

(** What the gNB must have for the UE. *)
Definition gnb_ready (ue : gnb_ue) : Prop := has_CellGroup ue = true /\ zlen (lc_bytes ue) = 64.

Lemma sdus_read prep phf pid ue0 xs l : Forall2 ul_form xs l -> Forall (fun c => ul_channel (fst c)) l -> gnb_ready ue0 ->
  forall ue, same_ue ue0 ue -> exists ue',
  ul_reads_all prep phf pid ue xs ue' (concat (map (ul_sdu_calls ue0) l)) /\ same_ue ue0 ue'.
Proof.
  intros Hxs Hl [Hcg Hlb]. induction Hxs as [|x [id sdu] xs l Hx _ IH]; intros ue Hs; [exists ue; split; [constructor|done]|].
  apply Forall_cons in Hl as [Hc Hl]. cbn [fst snd] in *. pose proof Hs as (E1 & E2 & E3 & E4).
  destruct (ul_reads_sdu prep phf pid ue id sdu x Hc ltac:(congruence) ltac:(congruence) Hx) as (ue1 & n & Hs1 & Hr).
  destruct (IH Hl ue1 ltac:(by transitivity ue)) as (ue' & Hall & Hs'). exists ue'. split; [|done]. cbn [map concat].
  eapply ul_reads_cons; [|exact Hall].
  replace (ul_sdu_calls ue0 (id, sdu)) with (ul_sdu_calls ue (id, sdu)); [exact Hr|].
  unfold ul_sdu_calls, nr_mac_get_lc_config. by rewrite E1.
Qed.

Lemma same_headroom ue a b c : same_ue ue (set_headroom ue a b c).
Proof. by repeat split. Qed.

Lemma same_buffer ue a b : same_ue ue (set_buffer ue a b).
Proof. by repeat split. Qed.

(** The control elements behind the SDUs. *)
Lemma reports_read prep phf pid phr est ys zs ue : 0 <= pid -> two_bytes phr -> phr_reads phr ys -> bsr_reads est zs ->
  exists ue', ul_reads_all prep phf pid ue (ys ++ zs) ue' [] /\ same_ue ue ue' /\
    (forall v0 v1, phr = Some [v0; v1] -> ph0 ue' = headroom_of (Z.land v0 63) /\ pcmax ue' = Z.land v1 63 - 29) /\
    (forall e, est = Some e -> estimated_ul_buffer ue' = e).
Proof.
  intros Hpid H2 Hys Hzs.
  assert (H1 : exists ue1, ul_reads_all prep phf pid ue ys ue1 [] /\ same_ue ue ue1 /\
    (forall v0 v1, phr = Some [v0; v1] -> ph0 ue1 = headroom_of (Z.land v0 63) /\ pcmax ue1 = Z.land v1 63 - 29)).
  { destruct phr as [ [|v0 [|v1 [|] ] ] |]; try done; cbn [phr_reads] in Hys; subst ys.
    - eexists. split; [eapply (ul_reads_cons prep phf pid ue _ _ [] 0 []); [by apply ul_reads_phr|constructor]|].
      split; [apply same_headroom|]. intros a b [= <- <-]. done.
    - exists ue. split; [constructor|]. by split. }
  destruct H1 as (ue1 & R1 & S1 & P1). destruct est as [e|]; cbn [bsr_reads] in Hzs.
  - destruct Hzs as (y & -> & Hy). exists (set_buffer ue1 e 0).
    split; [|split; [transitivity ue1; [done|apply same_buffer]|split; [exact P1|by intros e' [= <-] ] ] ].
    change (@nil gnb_call) with (@nil gnb_call ++ []). eapply ul_reads_app; [exact R1|].
    change (@nil gnb_call) with (@nil gnb_call ++ []). eapply ul_reads_cons; [apply Hy|constructor].
  - subst zs. rewrite app_nil_r. exists ue1. by repeat split; try apply S1; try apply (P1 _ _ H).
Qed.

Lemma forms_len xs l : Forall2 ul_form xs l -> zlen (concat xs) <= zsum (fun c => 3 + zlen (snd c)) l.
Proof.
  induction 1 as [|x c xs l Hx _ IH]; [done|]. cbn [concat]. rewrite zlen_app, zsum_cons.
  destruct Hx as [ [-> _] | [-> _] ]; rewrite ?zlen_long_sdu, ?zlen_short_sdu; lia.
Qed.

(** [nr_ue_get_sdu] fills the block, and the gNB reads it. *)
Lemma ul_block_ok s m b buflen P tx : ul_ready m -> I s -> 3 <= buflen <= 160000 -> buflen <= zlen b ->
  exists s' m' b' sent l, nr_ue_get_sdu s m b buflen P tx = Ok (s', m', b', sent, zlen l >? 0) /\ I s' /\
    served s l s' /\ Forall sdu_ok l /\ left_over m' + zsum (fun c => zlen (snd c)) l = left_over m /\ buflen <= zlen b' /\
    forall prep phf pid ue, 0 <= pid -> gnb_ready ue -> exists ue',
      nr_process_mac_pdu prep phf ue (take (Z.to_nat buflen) b') buflen pid = Ok (ue', concat (map (ul_sdu_calls ue) l), 0) /\
      (phr_is_configured m = true -> 0 < phr_reporting m -> 14 <= buflen -> forall v0 v1, phr_bytes P tx = [v0; v1] ->
         ph0 ue' = headroom_of (Z.land v0 63) /\ pcmax ue' = Z.land v1 63 - 29) /\
      (zsum (fun c => 3 + zlen (snd c)) l + 14 <= buflen -> Z.min 300000 (left_over m') <= estimated_ul_buffer ue').
Proof.
  intros Hr Hs Hlen Hb. pose proof Hr as [Hm Hsome Hmost Hids Hheld Hleft Htrig Hsr].
  destruct (update_bsr_ok m Hm Hleft) as (m1 & E1 & Hs1 & Hph1). unfold nr_ue_get_sdu. rewrite E1, res_bind_unfold.
  destruct (mac_ce_pre_ok m1 (map (waiting m) (seqZ 0 8)) buflen P tx ltac:(done) ltac:(lia)) as (m2 & phr & fin & E2 & Hs2 & Hf0 & Hf & Hphr & Hdue).
  rewrite E2. assert (Hr2 : ul_ready m2 /\ left_over m2 = left_over m /\ forall g, waiting m2 g = waiting m g).
  { assert (Hs12 : same_channels m m2).
    { destruct Hs1 as (A1 & A2 & A3 & A4 & A5), Hs2 as (B1 & B2 & B3 & B4 & B5). repeat split; try congruence. auto. }
    pose proof Hs12 as (A1 & A2 & A3 & A4 & A5).
    split; [|split; [by apply same_total|intros g; by apply same_total] ].
    constructor; rewrite ?A1, ?A3; try done; [by eapply same_channels_ok|unfold held_back; by rewrite (same_total m)|
      unfold left_over; rewrite (same_total m) by done; done|by auto]. }
  destruct Hr2 as (Hr2 & Hlo2 & Hw2). pose proof Hr2 as [Hm2 Hsome2 _ Hids2 _ _ Htrig2 Hsr2].
  replace (map (waiting m) (seqZ 0 8)) with (map (waiting m2) (seqZ 0 8)) by (apply map_ext; done).
  assert (Hphr0 : 0 <= phr_len phr) by (destruct phr; cbn; lia).
  destruct (all_rounds_ok s m2 b fin Hr2 Hs ltac:(lia) ltac:(lia)) as (cs & t & Ecs & Et & Hrt & Hext).
  destruct (lc_ordered_list m2) as [|c0 rest] eqn:Elcs; [done|]. rewrite <- Elcs in *. clear Elcs c0 rest.
  rewrite Ecs, res_bind_unfold, Et, res_bind_unfold.
  destruct Hext as (xs & l & Hforms & Hok & Hin & Hserved & Hnum & Hcur & Hblk & Hmac & Hacc).
  cbn [rlc num_sdus cur block mac new_round] in Hserved, Hnum, Hcur, Hblk, Hmac, Hacc. rewrite Z.add_0_l in Hnum, Hcur.
  specialize (Hblk [] (holds_start b)). cbn [app] in Hblk.
  destruct Hrt as [R1 R2 R3 R4 R5 R6 R7 R8 R9 R10 R11 R12 R13].
  assert (H2 : two_bytes phr) by (by destruct Hphr as [-> | ->]).
  destruct (mac_ce_post_ok t phr buflen (zlen b) (concat xs) R3 R7 R6) as
    (m' & w & sent & est & ys & zs & Ep & El & Esch & Hys & Hzs & Hw & Hend & Hcov); try done.
  { by apply groups_list. }
  { unfold trigger_ok. rewrite R2, Hmac. exact Htrig2. }
  { by rewrite Hmac. }
  { rewrite <- Hcur. lia. }
  rewrite Ep, res_bind_unfold.
  destruct (write_padding_ok w _ _ buflen Hw ltac:(lia)) as (b' & pad & Epad & Htake & Hpad & Hform).
  rewrite Epad, res_bind_unfold. rewrite Hnum. exists (rlc t), m', b', sent, l. split; [done|].
  assert (Hlo' : left_over m' = left_over (mac t)) by (unfold left_over, total, info; by rewrite El, Esch).
  split; [done|]. split; [done|]. split; [done|]. split; [lia|].
  split; [apply (f_equal zlen) in Htake; rewrite zlen_take, zlen_app in Htake; pose proof (zlen_nonneg b'); lia|].
  intros prep phf pid ue Hpid Hue.
  assert (Hch : Forall (fun c => ul_channel (fst c)) l).
  { eapply Forall_impl; [exact Hin|]. intros c Hc. apply list_elem_of_fmap in Hc as (d & -> & Hd).
    rewrite Forall_forall in Hids2. by apply Hids2. }
  destruct (sdus_read prep phf pid ue xs l Hforms Hch Hue ue ltac:(reflexivity)) as (ue1 & Hrd1 & Hsm1).
  destruct (reports_read prep phf pid phr est ys zs ue1 Hpid H2 Hys Hzs) as (ue2 & Hrd2 & _ & Hp2 & He2).
  pose proof (ul_reads_app prep phf pid _ _ _ _ _ _ _ Hrd1 Hrd2) as Hrd. rewrite app_nil_r in Hrd.
  unfold nr_process_mac_pdu. rewrite Htake.
  replace ((concat xs ++ concat ys ++ concat zs) ++ pad) with ([] ++ concat (xs ++ ys ++ zs) ++ pad ++ [])
    by (by rewrite !concat_app, app_nil_r).
  destruct (ul_pdu_reads prep phf pid ue (xs ++ ys ++ zs) ue2 _ Hrd [] [] pad 0 buflen (Datatypes.S (Z.to_nat buflen)) 0)
    as (ue' & Erun & _ & He' & Hph' & Hpc'); try done.
  { rewrite !concat_app, !zlen_app in *. lia. }
  { lia. }
  exists ue'. split; [done|]. rewrite He', Hph', Hpc'. split.
  - intros G1 G2 G3 v0 v1 Ev. apply Hp2. rewrite <- Ev. apply Hdue; [|lia|done]. destruct Hs1 as (_ & _ & _ & -> & _). done.
  - intros Hroom. pose proof (forms_len xs l Hforms). assert (phr_len phr <= 3) by (destruct phr; cbn; lia).
    destruct (Hcov ltac:(lia)) as (e & Ee & Hle). rewrite (He2 e Ee), Hlo'. exact Hle.
Qed.

End block.

End MacUlSpec.
