(* ===== verification/MacProperties.v ===== *)
(** * Properties of the MAC layer

    Concrete UEs, executions that go wrong, and the claims: on the index lists and on the
    HARQ processes ([MacProperties]), and on the PDUs ([MacPduProperties]). *)

From S2P Require Import Prelude MacLists MacHarq MacHarqSpec F1apIds Events RlcEntity RlcUm RlcApi.
From S2P Require Import RlcUe RlcUeSpec MacPdu MacMux MacPduSpec MacMuxSpec MacRlcUm MacLcp.
From S2P Require Import MacLcpSpec MacUlSpec.

Module MacProperties.
Import MacHarq MacHarqSpec MacHarqRun.

Definition value {A} (dflt : A) (r : res A) : A := match r with Ok x => x | Fault _ => dflt end.
Definition after (maxd maxu : Z) (ue : NR_UE_info_t) (e : event) : NR_UE_info_t :=
  value ue (step maxd maxu false ue e).

(** A UE that has just been configured: eight processes for the downlink. *)
Definition ue0 : NR_UE_info_t := value (new_ue None) (configure_harq (new_ue None) false true).

Definition send_dl (pid : Z) : event :=
  SendDl {| dl_harq_pid := pid; pucch := Some (5, 8); pdsch_tb_size := 100; pdsch_action := false |}.

(** Three blocks have been sent, with feedback in slot 5.8. *)
Definition ue1 : NR_UE_info_t := foldl (after 4 4) ue0 [send_dl (-1); send_dl 1; send_dl 2].

(** ** Executions that go wrong *)

(** With nine rounds a process is sent for the ninth time: the counter of its round is
    beyond the array of eight. *)
Lemma ninth_round_out_of_bounds :
  let ue := foldl (after 9 9) ue0 (concat (replicate 8 [send_dl 0; Feedback 5 8 [false] ])) in
  step 9 9 false ue (send_dl 0) = Fault OutOfBounds.
Proof. vm_compute. reflexivity. Qed.

(** A UE with 32 processes cannot go back to a common search space: the next
    reconfiguration that it acknowledges stops the gNB. *)
Definition release17 : option NR_ServingCellConfig_t :=
  Some {| pdsch_ServingCellConfig := Some (None, Some true); pusch_ServingCellConfig := Some (Some true) |}.

Lemma release17_reconfiguration_exits :
  let ue := foldl (after 4 4) (value (new_ue None) (configure_harq (new_ue (Some release17)) false false))
              [Reconfigure (Some release17);
               SendDl {| dl_harq_pid := -1; pucch := Some (5, 8); pdsch_tb_size := 100; pdsch_action := true |}] in
  dl_len ue = 32 /\ step 4 4 false ue (Feedback 5 8 [true]) = Fault Exit.
Proof. vm_compute. split; reflexivity. Qed.

(** HARQ bits from the ninth on always read as 0 (NACK): the byte is shifted by the
    index of the bit, not by its position in the byte. *)
Lemma ninth_bit_reads_zero payload i b : 8 <= i -> Forall is_byte payload ->
  uci_234_bit payload i = Ok b -> b = 0.
Proof.
  intros Hi Hp Hb. unfold uci_234_bit in Hb. apply res_bind_ok in Hb as (v & Hv & Hb).
  injection Hb as <-. apply zget_ok in Hv as [_ Hv].
  pose proof (Forall_lookup_1 _ _ _ _ Hp Hv) as Hbyte. unfold is_byte in Hbyte.
  assert (2 ^ 8 <= 2 ^ i) by (apply Z.pow_le_mono_r; lia).
  rewrite Z.shiftr_div_pow2, Z.div_small by lia. done.
Qed.

(** ** The claims *)

(** C19: the lists of numbers of the MAC are sequences.  For calls of the list functions
    on a new list in which every number is within the array, and [add_tail] and
    [add_front] add only numbers that are not in the list (the functions do not test
    either, and corrupt the list otherwise), the structure after the calls is the one
    that stands for the sequence they describe, and the functions exit exactly when
    [add] adds a number that is there, [remove] or [remove_front] takes one that is not,
    or [resize] would cut a number off.  They never touch memory beyond the array, and
    never loop. *)
Theorem nr_list_refines (n : Z) (calls : list op) (Hn : 0 <= n) (Hcalls : all_allowed (n, []) calls) :
  res_foldl exec (create_nr_list n) calls = encoded (meanings (n, []) calls).
Proof. rewrite create_encode by done. by apply run_encode; [|apply fits_nil|]. Qed.

(** Three numbers are added, the one in the middle is removed, and one that is missing. *)
Lemma nr_list_refines_witness :
  res_foldl exec (create_nr_list 4) [AddTail 2; AddFront 3; Add 0; Remove 2; Resize 8; AddTail 7]
  = Ok (encode 8 [3; 0; 7]) /\
  res_foldl exec (create_nr_list 4) [AddTail 2; Remove 3] = Fault Exit.
Proof.
  split.
  - rewrite (nr_list_refines 4 [AddTail 2; AddFront 3; Add 0; Remove 2; Resize 8; AddTail 7]);
      [vm_compute; reflexivity|done|]. cbn. repeat split; try done; set_solver.
  - rewrite (nr_list_refines 4 [AddTail 2; Remove 3]); [vm_compute; reflexivity|done|].
    cbn. repeat split; try done; set_solver.
Defined.

(** C16: no HARQ process of a UE is ever lost, with at most 8 rounds in each direction
    (the counters of the rounds have 8 places and the configuration does not limit the
    rounds): in every state that configurations, transmissions, feedback, receptions and
    resets can reach, each process of each direction is in exactly one of its three
    lists, and no further call makes the scheduler exit, access memory out of bounds or
    loop.  The calls are those of a scheduler that takes processes from the fronts of
    the lists and of an RRC that never takes processes away: neither in a configuration
    nor in the one that an acknowledgement puts into effect. *)
Theorem harq_safety (maxd maxu : Z) (disable : bool) (ue : NR_UE_info_t) (e : event)
    (Hd : 0 < maxd <= 8) (Hu : 0 < maxu <= 8)
    (Hue : reachable maxd maxu disable ue) (He : permitted ue e) :
  (members (available (dl ue)) ++ members (feedback (dl ue)) ++ members (retrans (dl ue))
     ≡ₚ seqZ 0 (dl_len ue)) /\
  (members (available (ul ue)) ++ members (feedback (ul ue)) ++ members (retrans (ul ue))
     ≡ₚ seqZ 0 (ul_len ue)) /\
  exists ue', step maxd maxu disable ue e = Ok ue' /\ consistent maxd maxu ue'.
Proof.
  pose proof (reachable_ok maxd maxu disable Hd Hu ue Hue) as Hc.
  destruct (consistent_members maxd maxu ue Hc) as [H1 H2]. split; [done|]. split; [done|].
  by apply event_ok.
Qed.

Lemma ue1_reachable : reachable 4 4 false ue1.
Proof.
  apply (reach_step 4 4 false (foldl (after 4 4) ue0 [send_dl (-1); send_dl 1]) (send_dl 2));
    [|right; left; vm_compute; split; [done|reflexivity]|vm_compute; reflexivity].
  apply (reach_step 4 4 false (foldl (after 4 4) ue0 [send_dl (-1)]) (send_dl 1));
    [|right; left; vm_compute; split; [done|reflexivity]|vm_compute; reflexivity].
  apply (reach_step 4 4 false ue0 (send_dl (-1)));
    [|left; vm_compute; split; [reflexivity|done]|vm_compute; reflexivity].
  apply (reach_start 4 4 false None false true). vm_compute. reflexivity.
Qed.

(** Feedback for the three blocks, two of them lost, and a late one. *)
Lemma harq_safety_witness : exists ue', step 4 4 false ue1 (Feedback 6 0 [true; false]) = Ok ue' /\
  consistent 4 4 ue'.
Proof.
  destruct (harq_safety 4 4 false ue1 (Feedback 6 0 [true; false])) as (_ & _ & H);
    [done|done|exact ue1_reachable|vm_compute; exact I|exact H].
Defined.

(** C18: With at most eight rounds, the bits of a HARQ report are the answers to the
    blocks that have been sent first among those whose feedback is expected in this
    slot: an acknowledged process
    is free again with the other new data indicator, a process that failed is queued
    for retransmission with the next round, and given up after the last round; the
    order is kept, the other processes do not change. *)
Theorem harq_report (maxd maxu : Z) (disable : bool) (ue : NR_UE_info_t) (frame slot : Z)
    (sent later : list Z) (bits : list bool)
    (Hd : 0 < maxd <= 8) (Hu : 0 < maxu <= 8) (Hue : reachable maxd maxu disable ue)
    (Hsent : members (feedback (dl ue)) = sent ++ later) (Hlen : length sent = length bits)
    (Hexp : Forall (expects frame slot (harq_processes ue)) sent) :
  exists ue', harq_bits frame slot ue bits maxd = Ok ue' /\
    foldl (answered maxd) (members (available (dl ue)), members (retrans (dl ue)), harq_processes ue)
      (zip sent bits)
    = (members (available (dl ue')), members (retrans (dl ue')), harq_processes ue') /\
    members (feedback (dl ue')) = later.
Proof.
  destruct (reachable_ok maxd maxu disable Hd Hu ue Hue) as (nd & nu & A & F & R & Au & Fu & Ru & [Hi _ _ _]).
  pose proof (dir_members _ _ _ _ Hi) as (EA & EF & ER). rewrite EF in Hsent. subst F.
  destruct (harq_bits_exact maxd nd frame slot ltac:(lia) bits sent later ue A R Hlen Hi Hexp)
    as (ue' & A' & R' & E & Ef & Hi').
  pose proof (dir_members _ _ _ _ Hi') as (EA' & EF' & ER').
  exists ue'. split; [done|]. by rewrite EA, ER, EA', ER'.
Qed.

(** Two of the three blocks are answered: the first one failed, the second one arrived. *)
Lemma harq_report_witness : exists ue', harq_bits 5 8 ue1 [false; true] 4 = Ok ue' /\
  members (feedback (dl ue')) = [2].
Proof.
  destruct (harq_report 4 4 false ue1 5 8 [0; 1] [2] [false; true]) as (ue' & H1 & _ & H2);
    [done|done|exact ue1_reachable|vm_compute; reflexivity|reflexivity| |exists ue'; split; assumption].
  repeat constructor; eexists; vm_compute; repeat split; reflexivity.
Defined.

End MacProperties.

(** * MAC PDUs *)

Module MacPduProperties.
Import MacLcp MacPduSpec MacMuxSpec MacLcpSpec MacUlSpec.

(** ** A UE and its RLC *)

(** A DRB in unacknowledged mode with one SDU of 20 bytes, on logical channel 4 of UE 3. *)
Definition um_with_sdu : res Um.t :=
  e ← Um.new_nr_rlc_entity_um 30000000 30000000 35 6;
  Um.nr_rlc_entity_um_recv_sdu 0 e (seqZ 0 20) 0.

Lemma um_with_sdu_ok : exists e, um_with_sdu = Ok e /\ MacRlcUm.um_ok (EntityUM e).
Proof.
  unfold um_with_sdu. destruct (Um.new_nr_rlc_entity_um 30000000 30000000 35 6) as [e|] eqn:E; [|vm_compute in E; discriminate].
  rewrite res_bind_unfold. apply MacRlcUm.um_ok_recv_sdu; [|done]. by eapply MacRlcUm.um_ok_new; [|exact E].
Qed.

Definition rlc_ue (e : Um.t) : RlcUe.nr_rlc_ue_t :=
  RlcUe.mk_ue 3 None [None; None; None] (Some (EntityUM e) :: replicate 31 None)
    ([RlcUe.NR_LCID_NONE; RlcUe.NR_LCID_NONE; RlcUe.NR_LCID_NONE; RlcUe.NR_LCID_DRB 1] ++ replicate 28 RlcUe.NR_LCID_NONE) None.

Definition rlc1 : RlcUe.manager :=
  RlcUe.mk_manager (match um_with_sdu with Ok e => [rlc_ue e] | Fault _ => [] end) RlcUe.NR_RLC_OP_MODE_UE 0.

Lemma rlc1_ok : MacRlcUm.um_only 3 rlc1.
Proof.
  unfold rlc1. destruct um_with_sdu_ok as (e & -> & He). set (m := RlcUe.mk_manager _ _ _).
  assert (Hu : RlcUeSpec.ue_of m 3 = rlc_ue e) by reflexivity. split; rewrite ?Hu.
  - split; [apply NoDup_singleton|]. by repeat constructor.
  - cbn. repeat constructor; cbn; lia.
  - by repeat constructor.
  - cbn. constructor; [exact He|]. by repeat constructor.
Qed.



(** The same UE in the gNB. *)
Definition gnb_ue0 : gnb_ue := mk_gnb_ue false true [(4, false)] None 0 0 0 0 0 0 (replicate 64 0) 0.

Definition ue_mac0 : ue_mac := mk_ue_mac 0 [(4, false)] nrRA_SUCCEEDED false false [] 0 0 false true 0 0.

(** ** Executions that go wrong *)

Definition no_rrc (ue : gnb_ue) : gnb_ue * bool := (ue, false).

(** The index 254 of a long report is overestimated to the last entry of the table, which
    is -1 in an [int]: the gNB takes the UE for one without data. *)
Lemma long_estimate_wraps : estimate_ul_buffer_long_bsr [1; 254] 0 = Ok (-1).
Proof. vm_compute. reflexivity. Qed.

(** Any UE without a cell group configuration stops the gNB with one byte for SRB 1. *)
Lemma srb_without_cell_group_exits :
  let ue := mk_gnb_ue false false [] None 0 0 0 0 0 0 (replicate 64 0) 0 in
  nr_process_mac_pdu no_rrc (fun _ => 0) ue [1; 1; 7] 3 0 = Fault Exit.
Proof. vm_compute. reflexivity. Qed.

(** A block that ends in a subheader is read beyond its end before the length is tested. *)
Lemma header_read_beyond_the_block : nr_process_mac_pdu no_rrc (fun _ => 0) gnb_ue0 [4] 1 0 = Fault OutOfBounds.
Proof. vm_compute. reflexivity. Qed.

(** A recommended bit rate query has two bytes, which are read as subheaders: the second
    one here is taken for an SDU of logical channel 4, which the UE has never sent. *)
Lemma query_read_as_sdu :
  match nr_process_mac_pdu no_rrc (fun _ => 0) gnb_ue0 [53; 4; 1; 99] 4 0 with
  | Ok (_, calls, _) => calls = [(4, [99])]
  | Fault _ => False
  end.
Proof. vm_compute. reflexivity. Qed.

(** An overdrawn bucket is full at the next update: [min] compares it as an unsigned
    number. *)
Lemma overdrawn_bucket_is_full :
  Bj (update_bj 0 (mk_lc 4 0 1 8000 4000 false false) (mk_sched 0 1 (-3000) 10)) = 4000.
Proof. vm_compute. reflexivity. Qed.

(** A channel without a channel group (8) writes beyond the bytes of the groups. *)
Lemma no_group_out_of_bounds :
  let m := mk_ue_ul [mk_lc 4 0 1 1000 5000 false false]
             (<[3%nat := mk_sched 40 NR_INVALID_LCGID 5000 0]> (replicate 32 (mk_sched 0 0 0 0)))
             (replicate 8 (false, 0)) 0 (-1) false 0 [] in
  nr_ue_get_sdu (R := MacRlcUm.um_rlc None 0 3) rlc1 m (replicate 100 0) 100 20 10 = Fault OutOfBounds.
Proof. vm_compute. reflexivity. Qed.

(** ** The claims *)



(** C15: Downlink: the gNB fills a transport block, larger than its control elements,
    without a fault, whatever RLC has, and the UE reads in it the timing advance command
    and exactly the SDUs that RLC has handed out, in their order; the other control elements and the padding are skipped. *)
Theorem dl_transport_block {S : Type} `{R : MacRlc S} (I : S -> Prop) (L : MacRlcLaws S I)
    (malloc : Z -> list Z) (s : S) (c : dl_ce_ctrl) (tag : Z) (lcids status : list Z) (total : Z)
    (tb : list Z) (TBS : Z) (st : dl_stats) (ue : ue_mac)
    (Hmalloc : forall n, 0 <= n -> zlen (malloc n) = n) (Htb : tb = [] \/ TB_SINGLE_LAYER <= zlen tb)
    (Hs : I s) (Hc : ce_ok c) (Htag : tag = tag_Id ue) (Htag4 : 0 <= tag < 4) (HTBS : ce_size c < TBS <= 2 ^ 30)
    (Hst : zlen status = 32) (Hpos : Forall (Z.le 0) status) (Hls : Forall (fun l => 1 <= l < 32) lcids)
    (Hlc : zlen (dl_lc_bytes st) = 64) :
  exists s' b st' l, fill_dl_transport_block malloc s c tag lcids status total tb TBS st = Ok (s', b, st') /\
    TBS <= zlen b /\ I s' /\ served s l s' /\
    nr_ue_process_mac_pdu ue (take (Z.to_nat TBS) b) TBS 0 = Ok (ue, ta_calls c ++ concat (map (dl_sdu_calls ue) l)).
Proof.
  destruct (dl_block_ok malloc s c tag lcids status total tb TBS st ue Hmalloc Htb Hs Hc Htag Htag4 HTBS Hst Hpos Hls Hlc)
    as (s' & b & st' & l & E & H1 & H2 & H3 & _ & H5). by exists s', b, st', l.
Qed.

Definition dl_ce0 : dl_ce_ctrl := mk_ce_ctrl true 31 None None None None None None.
Definition stats0 : dl_stats := mk_dl_stats (replicate 64 0) 0 0 0 0.

(** A block of 200 bytes with a timing advance command. *)
Lemma dl_transport_block_witness : exists s' b st' l,
  fill_dl_transport_block (R := MacRlcUm.um_rlc None 0 3) (fun n => replicate (Z.to_nat n) 0) rlc1 dl_ce0 0 [4]
    (<[4%nat := 40]> (replicate 32 0)) 40 [] 200 stats0 = Ok (s', b, st') /\
  nr_ue_process_mac_pdu ue_mac0 (take 200 b) 200 0
    = Ok (ue_mac0, SetTimeAlignment 31 :: concat (map (dl_sdu_calls ue_mac0) l)).
Proof.
  destruct (dl_transport_block (R := MacRlcUm.um_rlc None 0 3) (MacRlcUm.um_only 3) (MacRlcUm.um_rlc_laws None 0 3)
    (fun n => replicate (Z.to_nat n) 0) rlc1 dl_ce0 0 [4] (<[4%nat := 40]> (replicate 32 0)) 40 [] 200 stats0 ue_mac0)
    as (s' & b & st' & l & E & _ & _ & _ & Er); try reflexivity.
  - intros n Hn. unfold zlen. rewrite length_replicate. lia.
  - left. reflexivity.
  - exact rlc1_ok.
  - split; try discriminate; reflexivity.
  - lia.
  - vm_compute. split; [reflexivity|discriminate].
  - vm_compute. repeat constructor; discriminate.
  - repeat constructor; lia.
  - exists s', b, st', l. split; [exact E|exact Er].
Defined.

(** C17: Untrusted blocks: whatever bytes a UE sends, the gNB reads the block to its end or
    to its first error without an exit, without looping and without touching memory more
    than 9 bytes behind the block, as long as the UE has its cell group configuration and
    no random access in the idle state. *)
Theorem ul_any_bytes (prep : gnb_ue -> gnb_ue * bool) (phf : Z -> Z) (ue : gnb_ue) (b : list Z) (pdu_len harq_pid : Z)
    (Hprep : forall ue, same_ue ue (fst (prep ue))) (Hue : robust ue) (Hb : Forall is_byte b)
    (Hlen : 0 <= pdu_len) (Hroom : pdu_len + SLACK <= zlen b) :
  exists ue' calls code, nr_process_mac_pdu prep phf ue b pdu_len harq_pid = Ok (ue', calls, code) /\ robust ue'.
Proof. apply ul_pdu_total; try done; lia. Qed.

(** A long report whose length says 0, at the very end of the block. *)
Lemma ul_any_bytes_witness : exists ue' calls code,
  nr_process_mac_pdu no_rrc (fun _ => 0) gnb_ue0 ([62; 0] ++ replicate 9 255) 2 0 = Ok (ue', calls, code) /\ robust ue'.
Proof.
  apply (ul_any_bytes no_rrc (fun _ => 0) gnb_ue0 ([62; 0] ++ replicate 9 255) 2 0).
  - intros ue. repeat split; reflexivity.
  - repeat split; discriminate || reflexivity.
  - cbn. repeat constructor; cbv; discriminate || reflexivity.
  - lia.
  - vm_compute. discriminate.
Defined.

(** C20: the binary search for the index of a buffer size in a table of levels finds what a
    search from the start would find: the first level that covers the size, or the last
    one; and what the gNB estimates from that index of a short report is at least the
    size, for sizes up to 300000 bytes, and at least 300000 for larger ones (the last
    level). *)
Theorem bsr_index_search (size v : Z) (Hsize : bsr_size size) (Hv : 0 <= v < 2 ^ 31) :
  nr_locate_BsrIndexByBufferSize size v = Ok (first_level size v) /\
  forall g, exists e, estimate_ul_buffer_short_bsr (first_level NR_SHORT_BSR_TABLE_SIZE v + 32 * g) = Ok e /\ Z.min v 300000 <= e.
Proof.
  destruct (locate_ok size v Hsize Hv) as (i & E & Hi & Hcov & Hmin).
  split; [by rewrite (first_level_unique size v i Hsize Hi Hcov Hmin)|]. intros g.
  assert (Hsh : bsr_size NR_SHORT_BSR_TABLE_SIZE) by (by left).
  destruct (locate_ok NR_SHORT_BSR_TABLE_SIZE v Hsh Hv) as (k & _ & Hk & Hc & Hm).
  rewrite (first_level_unique NR_SHORT_BSR_TABLE_SIZE v k Hsh Hk Hc Hm), short_estimate by done. eexists. split; [done|].
  by apply short_covers.
Qed.

(** 100 bytes: the table has 74, then 102. *)
Lemma bsr_index_search_witness : nr_locate_BsrIndexByBufferSize NR_SHORT_BSR_TABLE_SIZE 100 = Ok 8 /\
  exists e, estimate_ul_buffer_short_bsr (8 + 32 * 3) = Ok e /\ Z.min 100 300000 <= e.
Proof.
  destruct (bsr_index_search NR_SHORT_BSR_TABLE_SIZE 100) as [H1 H2]; [left; reflexivity|lia|].
  split; [exact H1|exact (H2 3)].
Defined.

End MacPduProperties.
